(* ===== verification/_CoqProject ===== *)
-Q . S2P
Prelude.v
Wire.v
Atom.v
Resource.v
DixUtils.v
Request.v
Property.v
Selection.v
EventQueue.v
RecordSet.v
Timers.v
ClientIO.v
ClientInput.v
ClientOutput.v
Sync.v
SyncRequest.v
SyncAlarm.v
SyncSafe.v
SyncLive.v
SyncTyped.v
Region.v
RegionSort.v
RegionBand.v
RegionUnion.v
RegionJoin.v
RegionLoop.v
RegionScatter.v
RegionValid.v
RegionMake.v
Grabs.v
GrabSets.v
GrabHeap.v
GrabAction.v
GrabDelete.v
GrabPlan.v
GrabScan.v
GrabUngrab.v
GrabSubtract.v
GrabAdd.v
GrabRequest.v
GrabClient.v
GrabPolicy.v
GrabEvent.v
Privates.v
PrivateLayout.v
PrivateState.v
PrivateFixup.v
PrivateVisit.v
PrivateScreen.v
PrivatePhase.v
PrivateGrow.v
PrivateRegister.v
PrivateMove.v
PrivateUse.v
PrivateAccess.v
PrivateObjects.v
PrivateExample.v
Glyphs.v
GlyphRequest.v
GlyphProbe.v
GlyphTable.v
GlyphHash.v
GlyphInv.v
GlyphFree.v
GlyphAdd.v
GlyphSets.v
GlyphCollect.v
GlyphPending.v
GlyphServe.v
GlyphScreen.v
GlyphPolicy.v
GlyphText.v
GlyphWalk.v
GlyphTextSafe.v
GlyphTextWire.v
GlyphTextRead.v
GlyphTextDraw.v
GlyphExample.v
GlyphTextExample.v
