(* ===== verification/Prelude.v ===== *)
(** * A verification library for the X server of this repository

    The repository is an operating system put together from other projects; its
    C program is the X server under src/dummy_arg.  All paths below are relative
    to that directory.  This library models the parts of the server's device
    independent core that keep state for the clients, and proves what they
    promise.

    ** The program

    One process serves many clients.  It waits for input (os/WaitFor.c), reads
    a client's bytes into a buffer and cuts requests from them (os/io.c), and
    calls the handler of the request, which checks the request's length and
    arguments (include/dix.h), looks up what the ids in it stand for
    (dix/dixutils.c on dix/resource.c), changes the state of a component, and
    sends replies and events (dix/rpcbuf.c, os/io.c).  Drivers put input events
    into a queue (mi/mieq.c), from which the same loop takes them; keys and
    buttons that a client has grabbed (dix/grabs.c) go to that client alone.
    Timers and block and wakeup handlers run between requests.  When a client
    goes away its resources are deleted, one by one, by functions that may
    delete others.

    ** How it is modelled

    State is passed explicitly; a function of C is one definition of the same
    name, and its helpers are named after what they do.  Objects that are
    reached through pointers and may be freed or shared (event lists, timers,
    buffers, sync objects, grabs, allocated region data) are cells of a heap,
    so that a use after free is visible; where nothing can be freed behind the
    code's back, a list and a position in it stand for links.  Integers have the
    width of the code, with [u8], [u16], [u32], [u64], [i32] and [i64] for its
    wrap-around.  The host is little-endian, with eight-byte pointers.

    [outcome] below has the ends a C function can come to: [Ret], [FatalError]
    (the server stops itself), [Undefined] (undefined behaviour: a freed or
    missing cell, an index outside an array, a wrong union member) and
    [Diverge] (a loop did not end within its bound).  Theorems say "returns",
    so that none of the last three can happen.  Memory may fail at any
    allocation: an [allocator] tells which, and theorems hold for all of them
    unless they say that there is memory.

    Loops whose end is not evident from their data are run by [run_loop] with
    [TURNS] = 2^64 turns, more than a counter of 64 bits can make; that they
    end is then a theorem with a measure, not an assumption.  Other recursion is
    over lists or has fuel that is shown or seen to be enough: [HOPS] = 4 for
    the chain from a device to its master, 3 for [FakeClientID], which looks for
    a new range of ids at most once, 2 for the resources of sync objects, whose
    delete functions free no second level, 33 for the values of an alarm, whose
    32 bits of attributes name one each, and the length of the array for
    [QuickSortRects], whose parts are shorter.

    ** The files

    Prelude.v: record update, integers, bounded loops, list lemmas, the hash
    table lemmas, tactics, [outcome], allocators, protocol status codes.

    Wire.v: byte order (include/misc.h, dix/dix_priv.h, dix/swapreq.c) and the
    reply buffer (dix/rpcbuf.c): what is written is what is sent, an error
    sticks, and no byte that was never written is sent.
    Request.v: length checks and reply assembly (include/dix.h,
    dix/request_priv.h).

    Atom.v: dix/atom.c, the tree and the table of interned names, behind the
    class [AtomTable], which states what other components may rely on.
    [MakeAtom_intern]: one valid atom per name, failure without effect.

    Resource.v: dix/resource.c, the hash tables of the clients, with delete
    functions that change the tables while they are walked.
    [AddResource_lookup], [FreeResource_spec], [FreeClientResources_spec],
    [GetXIDRange_free].
    DixUtils.v: dix/dixutils.c: server times on a wrapping clock
    ([ClientTimeToServerTime_nearest]), checked lookups, save sets, handlers,
    work and sleep queues, callback lists that change while they run.  The class
    [WindowLookup] is what request handlers see of lookups.

    Property.v: dix/property.c.  [ChangeProperty_value], [GetProperty_slice],
    [ChangeProperty_GetProperty].
    Selection.v: dix/selection.c.  [selection_invariant] over all reachable
    states, [ConvertSelection_one_event].

    EventQueue.v: mi/mieq.c with the parts of dix/devices.c it calls; drivers
    and devices are the class [mi_env].  [mieqEnqueue_refines] and
    [mieqProcessInputEvents_fifo] relate the ring to an abstract queue, also when
    other threads put events in while it is emptied ([feeding_env]).
    RecordSet.v: record/set.c, two representations behind the class
    [RecordSetOperations].  [RecordSet_member], [RecordSet_iterate].
    Timers.v: os/WaitFor.c without the poll.  [DoTimers_runs_due], with callbacks
    that set, cancel and free timers ([tame]).

    ClientIO.v, ClientInput.v, ClientOutput.v: os/io.c over the class
    [Transport], which stands for the transport library.
    [ReadRequestFromClient_delivers], [InsertFakeRequest_prepends],
    [ResetCurrentRequest_restores], [WriteToClient_stream].

    Sync.v (triggers, counters, fences, alarms, awaits), SyncRequest.v (the
    requests and system counters): Xext/sync.c and miext/sync/misync.c.
    SyncAlarm.v: arithmetic and brackets ([compute_brackets_sound],
    [Servertime_transition_never_wakes]).  SyncSafe.v, SyncTyped.v: the
    invariant of the links ([requests_keep_links]).  SyncLive.v: what waiting
    clients can rely on as long as that invariant holds ([SyncChangeCounter_fires],
    [destroyed_object_unblocks], [miSyncTriggerFence_unblocks]) and two requests
    that break it ([refused_ChangeAlarm_hangs],
    [await_twice_uses_freed_memory]).

    Region.v: dix/region.c.  RegionSort.v, RegionBand.v, RegionUnion.v,
    RegionJoin.v, RegionLoop.v, RegionScatter.v, RegionValid.v: the sort, bands
    as the abstract view, the union of two banded lists ([RegionOp_union] in
    RegionMake.v), the scattering of boxes and their validation.  RegionMake.v:
    [RegionValidate_region], [RegionValidate_canonical],
    [RegionFromRects_points], [RegionValidate_loses_points].  The theorems are
    for lists of at most 5792 boxes: a union may need about twice the square of
    their number, and the code computes sizes in 32 bits.

    Grabs.v: dix/grabs.c, with what it uses of dix/inpututils.c, dix/cursor.c
    and dix/window.c; GrabRequest.v: the requests of dix/events.c,
    Xi/exevents.c and Xi/xipassivegrab.c.  GrabSets.v: masks and the sets of
    combinations they stand for; GrabHeap.v: cells and cursor references;
    GrabAction.v: what ungrabbing does to one grab is subtraction; GrabDelete.v,
    GrabPlan.v, GrabScan.v, GrabUngrab.v: the plan that
    [DeletePassiveGrabFromList] makes before it changes anything, its roll-back
    and its execution; GrabSubtract.v, GrabAdd.v: the state invariant
    [grabs_ok] and what ungrabbing and grabbing do to [granted], the abstract
    view of who has what; GrabClient.v: the core requests; GrabPolicy.v:
    [core_requests_exclusive], [DeletePassiveGrabFromList_subtracts],
    [GrabKey_grants], [UngrabKey_subtracts], and two requests of XI2 that are
    undefined ([XI2_split_undefined], [XI2_modifiers_out_of_bounds]).
    GrabEvent.v: the search of dix/events.c for the grab of an event on a
    window, with the types of dix/eventconvert.c
    ([CheckPassiveGrabsOnWindow_first]).

    Privates.v: dix/privates.c and include/privates.h, the private storage of
    extensions and drivers in the server's objects.  Key records are cells by
    address, since they can lie in storage that moves and then move with it;
    each allocation has addresses of its own, 2^32 apart, and [heap_env] decides
    which allocations fail, which are resized in place and what fresh memory
    holds.  Storage keeps its bytes.  PrivateLayout.v: the walks along the lists
    of keys; PrivateState.v: the invariant [wf], also true in the middle of a
    registration, with a ghost of what storage holds; PrivateFixup.v,
    PrivateVisit.v, PrivateScreen.v, PrivatePhase.v: growing and moving one
    object's storage, a screen's with the links of its keys, and that of all
    objects of a type; PrivateGrow.v, PrivateRegister.v, PrivateMove.v: making
    room for a key, and moving everything up for a key of the security extension.
    PrivateUse.v: what users of keys rely on ([dixRegisterPrivateKey_keeps]);
    PrivateAccess.v: storing and reading ([dixSetPrivate_frame]) and the
    security extension's keys, which overlap ([xselinux_keys_overlap]);
    PrivateObjects.v: objects that are counted, not visited, over all runs
    ([reachable_objects_fit], [allocation_reads_zero]); PrivateExample.v: a run
    to which the theorems are applied.

    Glyphs.v: render/glyph.c, the sets of glyphs of the RENDER extension and the
    tables of all images that they share, which are hash tables with open
    addressing; GlyphRequest.v: their requests in render/render.c.  Image hashes,
    the drawing of images and the access checks are the environments [glyph_env]
    and [render_env].  GlyphProbe.v: the sizes are prime, so that a search comes
    to every slot; GlyphTable.v, GlyphHash.v: tables as maps, for both kinds of
    keys through the class [GlyphKeys]; GlyphInv.v: the invariant [glyphs_ok] of
    the references that sets and a request in progress hold; GlyphFree.v,
    GlyphAdd.v, GlyphSets.v, GlyphCollect.v, GlyphPending.v: what the operations
    do under it; GlyphServe.v: the requests; GlyphScreen.v: screens that go away,
    and reachable states.  GlyphPolicy.v: [AddGlyphs_finds], [reachable_glyphs],
    [requests_return]; [FindGlyphRef_returns] says where searches end.  They are
    for requests whose new images are different ([fair]), in the whole history, and for sets whose entries, with two for each glyph of
    the request, do not exceed the largest table of 2^29 entries, which is 8
    GiB.  GlyphExample.v: what happens otherwise ([duplicate_images_crash]).

    GlyphText.v: the requests of render/render.c that draw glyphs, up to the call
    of the screen: a pass over the elements that counts, one that looks the
    glyphs up, and before them the exchange of bytes for clients of the other
    order.  GlyphWalk.v: both passes take the same way; GlyphTextSafe.v: so
    that no request leaves its bytes or its arrays ([text_in_bounds]).
    GlyphTextWire.v: what a client writes and what it means; GlyphTextRead.v,
    GlyphTextDraw.v: that is what is drawn ([text_drawn]).  An [int] holds the
    counts of requests of up to 2^30 bytes; the option -maxbigreqsize allows
    less than 2^29.  GlyphTextExample.v: a request to which both are applied.

    ** Between the components

    Property.v and Selection.v use the clock and the lookups of DixUtils.v,
    which uses Resource.v.  Sync.v, Grabs.v and the request handlers see the
    resource database through small interfaces of their own (resources by id, and
    deletion that calls the component's delete function), which keep of
    Resource.v that ids lead to what was added and that a deleted id leads
    nowhere.  Security hooks, filter callbacks, drivers and the transport are
    parameters; the laws that a theorem uses of them are named in it or in their
    class.

    ** Not modelled

    The dispatcher and the connection set-up (dix/dispatch.c, dix/main.c,
    os/connection.c), which are tables and socket calls; delivery and
    activation of input events (dix/events.c, dix/touch.c), which need the
    device classes and the window tree; windows, pixmaps and graphics contexts
    (dix/window.c, dix/pixmap.c, dix/gc.c), which call the drawing back ends;
    the rendering code (mi, fb, the drawing of glyphs and the other requests of
    render), keyboards (xkb), other extensions, drivers and hardware layers (hw), and the operating
    system glue (os/utils.c, os/log.c).
    Of the modelled files: printing and statistics, the passing of file
    descriptors with fences, and per-request byte swapping other than that of
    ConvertSelection and of the requests on glyph sets and glyphs.  The system
    tools, the package manager and the scripts of the rest of the repository are
    other people's programs or not C. *)

From stdpp Require Export prelude gmap.
From Stdlib Require Export ZArith.

#[global] Open Scope Z_scope.

(** ** Record update

    [eta_of] rebuilds a record from its own projections; a setter for one
    projection is found by abstracting that projection in the rebuilt term. *)
Class Settable (T : Type) := eta_of : T -> T.
Class Setter {T E} (proj : T -> E) := set_field : (E -> E) -> T -> T.
Arguments set_field {T E} proj {_} _ _ /.

Ltac solve_setter :=
  match goal with
  | |- @Setter ?T ?E ?proj =>
      let e := constr:(_ : Settable T) in
      let e := eval hnf in e in
      match eval pattern proj in e with
      | ?f _ => exact (fun g : E -> E => f (fun r => g (proj r)))
      end
  end.
#[export] Hint Extern 1 (Setter _) => solve_setter : typeclass_instances.

Declare Scope xserver_scope.
Delimit Scope xserver_scope with X.
Notation "x <| p := v |>" := (set_field p (fun _ => v) x)
  (at level 12, p at level 99, left associativity) : xserver_scope.
Notation "x <| p ::= f |>" := (set_field p f x)
  (at level 12, p at level 99, left associativity) : xserver_scope.
#[global] Open Scope xserver_scope.

(** ** C integers at their width *)

Definition u8 (z : Z) : Z := z mod 256.
Definition u16 (z : Z) : Z := z mod 65536.
Definition u32 (z : Z) : Z := z mod 4294967296.
Definition u64 (z : Z) : Z := z mod 18446744073709551616.

(** Two's complement reading of the low bits. *)
Definition i32 (z : Z) : Z := (z + 2147483648) mod 4294967296 - 2147483648.
Definition i64 (z : Z) : Z :=
  (z + 9223372036854775808) mod 18446744073709551616 - 9223372036854775808.

Definition UINT32_MAX : Z := 4294967295.
Definition INT32_MAX : Z := 2147483647.
Definition INT64_MAX : Z := 9223372036854775807.
Definition INT64_MIN : Z := -9223372036854775808.

(** [word] closes linear goals about the wrapping functions. *)
Ltac unfold_word :=
  unfold u8, u16, u32, u64, i32, i64, UINT32_MAX, INT32_MAX, INT64_MAX, INT64_MIN in *.
Ltac word := unfold_word; Z.div_mod_to_equations; lia.

Lemma u32_range z : 0 <= u32 z < 4294967296.
Proof. word. Qed.
Lemma u32_small z : 0 <= z < 4294967296 -> u32 z = z.
Proof. intros; unfold u32; by rewrite Z.mod_small. Qed.
Lemma u64_small z : 0 <= z < 18446744073709551616 -> u64 z = z.
Proof. intros; unfold u64; by rewrite Z.mod_small. Qed.
Lemma u16_small z : 0 <= z < 65536 -> u16 z = z.
Proof. intros; unfold u16; by rewrite Z.mod_small. Qed.
Lemma i32_small z : -2147483648 <= z < 2147483648 -> i32 z = z.
Proof. intros; unfold i32; rewrite Z.mod_small; lia. Qed.
Lemma i64_small z : -9223372036854775808 <= z < 9223372036854775808 -> i64 z = z.
Proof. intros; unfold i64; rewrite Z.mod_small; lia. Qed.
Lemma i64_range z : -9223372036854775808 <= i64 z < 9223372036854775808.
Proof. word. Qed.
Lemma u32_idemp z : u32 (u32 z) = u32 z.
Proof. unfold u32; by rewrite Zmod_mod. Qed.

Create HintDb xword.
#[export] Hint Rewrite u32_small u64_small u16_small i32_small i64_small using lia : xword.
#[export] Hint Resolve u32_range i64_range : xword.

(** ** Bounded loops

    A C loop is a [step] function that either continues with a new state or
    stops with a result.  [loop_pos step p s] runs at most [p] steps; the
    binary counter lets the kernel evaluate loops with large bounds, because
    the evaluation ends with the first result. *)
Section Loop.
Context {S R : Type} (step : S -> S + R).

Fixpoint loop_pos (p : positive) (s : S) : S + R :=
  match p with
  | xH => step s
  | xO p' =>
      match loop_pos p' s with
      | inl s' => loop_pos p' s'
      | inr r => inr r
      end
  | xI p' =>
      match step s with
      | inl s' =>
          match loop_pos p' s' with
          | inl s'' => loop_pos p' s''
          | inr r => inr r
          end
      | inr r => inr r
      end
  end.

(** A loop that stops at once, and one that is stuck. *)
Lemma loop_pos_stop p s r : step s = inr r -> loop_pos p s = inr r.
Proof. intros E. induction p as [p IH|p IH|]; cbn [loop_pos]; [by rewrite E|by rewrite IH|done]. Qed.
Lemma loop_pos_stuck p s : step s = inl s -> loop_pos p s = inl s.
Proof. intros E. induction p as [p IH|p IH|]; cbn [loop_pos]; [by rewrite E, !IH|by rewrite !IH|done]. Qed.

(** Partial correctness: an invariant of [step] and a postcondition. *)
Lemma loop_pos_inv (Inv : S -> Prop) (Post : R -> Prop) :
  (forall s, Inv s -> match step s with inl s' => Inv s' | inr r => Post r end) ->
  forall p s, Inv s ->
    match loop_pos p s with inl s' => Inv s' | inr r => Post r end.
Proof.
  intros Hstep p. induction p as [p IH | p IH |]; intros s Hs; simpl.
  - specialize (Hstep _ Hs). destruct (step s) as [s1|r]; [|done].
    specialize (IH _ Hstep) as H1. destruct (loop_pos p s1); [|done].
    exact (IH _ H1).
  - specialize (IH _ Hs) as H1. destruct (loop_pos p s); [|done].
    exact (IH _ H1).
  - exact (Hstep _ Hs).
Qed.

(** Termination: a measure that every continuing step decreases. *)
Lemma loop_pos_measure (Inv : S -> Prop) (m : S -> Z) :
  (forall s, Inv s ->
     match step s with inl s' => Inv s' /\ 0 <= m s' < m s | inr _ => True end) ->
  forall p s, Inv s -> 
    match loop_pos p s with
    | inl s' => Inv s' /\ 0 <= m s' <= m s - Zpos p
    | inr _ => True
    end.
Proof.
  intros Hstep p. induction p as [p IH | p IH |]; intros s Hs; simpl.
  - specialize (Hstep _ Hs). destruct (step s) as [s1|r]; [|done].
    destruct Hstep as [H1 Hm]. specialize (IH _ H1) as H2.
    destruct (loop_pos p s1) as [s2|]; [|done]. destruct H2 as [H2 Hm2].
    specialize (IH _ H2). destruct (loop_pos p s2); [|done].
    destruct IH; split; [done|lia].
  - specialize (IH _ Hs) as H2.
    destruct (loop_pos p s) as [s2|]; [|done]. destruct H2 as [H2 Hm2].
    specialize (IH _ H2). destruct (loop_pos p s2); [|done].
    destruct IH; split; [done|lia].
  - specialize (Hstep _ Hs). destruct (step s); [|done].
    destruct Hstep; split; [done|lia].
Qed.

(** Both, with a rank that need not be a function of the state. *)
Lemma loop_pos_ranked (Inv : nat -> S -> Prop) (Post : R -> Prop) :
  (forall n s, Inv n s ->
     match step s with inl s' => exists n', (n' < n)%nat /\ Inv n' s' | inr r => Post r end) ->
  forall p n s, Inv n s ->
    match loop_pos p s with
    | inl s' => exists n', Z.of_nat n' + Zpos p <= Z.of_nat n /\ Inv n' s'
    | inr r => Post r
    end.
Proof.
  intros Hstep p. induction p as [p IH | p IH |]; intros n s Hs; simpl.
  - specialize (Hstep n s Hs). destruct (step s) as [s1|r]; [|done].
    destruct Hstep as (n1 & Hn1 & H1). specialize (IH n1 s1 H1) as H2.
    destruct (loop_pos p s1) as [s2|]; [|done]. destruct H2 as (n2 & Hn2 & H2).
    specialize (IH n2 s2 H2). destruct (loop_pos p s2) as [s3|]; [|done].
    destruct IH as (n3 & Hn3 & H3). exists n3. split; [lia|done].
  - specialize (IH n s Hs) as H2.
    destruct (loop_pos p s) as [s2|]; [|done]. destruct H2 as (n2 & Hn2 & H2).
    specialize (IH n2 s2 H2). destruct (loop_pos p s2) as [s3|]; [|done].
    destruct IH as (n3 & Hn3 & H3). exists n3. split; [lia|done].
  - specialize (Hstep n s Hs). destruct (step s) as [s1|]; [|done].
    destruct Hstep as (n1 & Hn1 & H1). exists n1. split; [lia|done].
Qed.

Lemma loop_pos_terminates (Inv : S -> Prop) (m : S -> Z) p s :
  (forall s, Inv s ->
     match step s with inl s' => Inv s' /\ 0 <= m s' < m s | inr _ => True end) ->
  Inv s -> m s < Zpos p -> exists r, loop_pos p s = inr r.
Proof.
  intros Hstep Hs Hm. pose proof (loop_pos_measure Inv m Hstep p s Hs) as H.
  destruct (loop_pos p s) as [s'|r]; [|by exists r]. lia.
Qed.
End Loop.

Lemma loop_pos_ext {S R} (f g : S -> S + R) p s :
  (forall s, f s = g s) -> loop_pos f p s = loop_pos g p s.
Proof.
  intros H. revert s. induction p as [p IH|p IH|]; intros s; cbn.
  - rewrite H. destruct (g s) as [s1|]; [|done]. rewrite IH. by destruct (loop_pos g p s1).
  - rewrite IH. by destruct (loop_pos g p s).
  - apply H.
Qed.

#[global] Arguments loop_pos : simpl never.

(** ** Lists *)

Lemma filter_keep {A} (P : A -> Prop) {HP : forall x, Decision (P x)} (l : list A) :
  (forall x, x ∈ l -> P x) -> filter P l = l.
Proof.
  induction l as [|x l IH]; intros Hl; [done|]. rewrite filter_cons_True by (apply Hl; left). f_equal.
  apply IH. intros y Hy. apply Hl. by right.
Qed.

(** First position satisfying a test, as the linear searches of the C code. *)
Fixpoint find_first {A} (p : A -> bool) (l : list A) : option A :=
  match l with
  | [] => None
  | x :: l' => if p x then Some x else find_first p l'
  end.

Lemma find_first_Some {A} (p : A -> bool) l x :
  find_first p l = Some x -> p x = true /\ x ∈ l.
Proof.
  induction l as [|y l IH]; simpl; [done|]. destruct (p y) eqn:E.
  - intros [= ->]. split; [done|left].
  - intros H. destruct (IH H). split; [done|by right].
Qed.
Lemma find_first_None {A} (p : A -> bool) l :
  find_first p l = None <-> forall x, x ∈ l -> p x = false.
Proof.
  induction l as [|y l IH]; simpl.
  - split; [intros _ x Hx; by apply not_elem_of_nil in Hx|done].
  - destruct (p y) eqn:E.
    + split; [done|]. intros H. specialize (H y ltac:(left)). congruence.
    + rewrite IH. split; intros H x Hx.
      * apply elem_of_cons in Hx as [->|Hx]; auto.
      * apply H. by right.
Qed.
Lemma find_first_app {A} (p : A -> bool) l1 l2 :
  find_first p (l1 ++ l2) =
  match find_first p l1 with Some x => Some x | None => find_first p l2 end.
Proof. induction l1 as [|y l IH]; simpl; [done|]. by destruct (p y). Qed.

Lemma forallb_elem {A} (p : A -> bool) l x : forallb p l = true -> x ∈ l -> p x = true.
Proof.
  intros H Hx. rewrite List.forallb_forall in H. apply H. by apply list_elem_of_In.
Qed.

(** Replace every element satisfying a test. *)
Definition update_where {A} (p : A -> bool) (f : A -> A) (l : list A) : list A :=
  (fun x => if p x then f x else x) <$> l.

Lemma length_update_where {A} (p : A -> bool) f (l : list A) :
  length (update_where p f l) = length l.
Proof. apply length_fmap. Qed.

(** Z-indexed access to a list; out of range reads give [None]. *)
Definition znth {A} (l : list A) (i : Z) : option A :=
  if i <? 0 then None else l !! Z.to_nat i.
Definition zset {A} (l : list A) (i : Z) (x : A) : list A :=
  if i <? 0 then l else <[Z.to_nat i := x]> l.

#[global] Arguments znth : simpl never.
#[global] Arguments zset : simpl never.

Lemma length_zset {A} (l : list A) i x : length (zset l i x) = length l.
Proof. unfold zset. destruct (i <? 0); [done|]. apply length_insert. Qed.
Lemma znth_zset_eq {A} (l : list A) i x :
  0 <= i < Z.of_nat (length l) -> znth (zset l i x) i = Some x.
Proof.
  intros H. unfold znth, zset. destruct (Z.ltb_spec i 0); [lia|].
  apply list_lookup_insert_eq. lia.
Qed.
Lemma znth_zset_ne {A} (l : list A) i j x :
  i <> j -> 0 <= j -> znth (zset l i x) j = znth l j.
Proof.
  intros H Hj. unfold znth, zset.
  destruct (Z.ltb_spec i 0); destruct (Z.ltb_spec j 0); try done.
  apply list_lookup_insert_ne. lia.
Qed.
Lemma znth_Some {A} (l : list A) i :
  0 <= i < Z.of_nat (length l) -> exists x, znth l i = Some x.
Proof.
  intros H. unfold znth. destruct (Z.ltb_spec i 0); [lia|].
  apply lookup_lt_is_Some. lia.
Qed.
Lemma znth_lt {A} (l : list A) i x :
  znth l i = Some x -> 0 <= i < Z.of_nat (length l).
Proof.
  unfold znth. destruct (Z.ltb_spec i 0); [done|]. intros H1.
  apply lookup_lt_Some in H1. lia.
Qed.

(** ** Chained hash tables

    A table is a list of buckets; [kid] is the key of an element. *)

Section BucketTables.
Context {A : Type} (kid : A -> Z).
Implicit Types (t : list (list A)).

Definition at_bucket t (j : Z) : list A := default [] (znth t j).

(** Every element sits in the bucket of its hash. *)
Definition hashed (h : Z -> Z) t : Prop :=
  forall j b r, znth t j = Some b -> r ∈ b -> h (kid r) = j.

Lemma mjoin_cons (b : list A) t : mjoin (b :: t) = b ++ mjoin t.
Proof. done. Qed.

Lemma mjoin_zset_perm t j b b' :
  znth t j = Some b -> mjoin (zset t j b') ++ b ≡ₚ mjoin t ++ b'.
Proof.
  unfold znth, zset. destruct (j <? 0); [done|]. generalize (Z.to_nat j) as i. clear j.
  intros i Hi. rewrite <- (take_drop_middle t i b Hi) at 2.
  rewrite insert_take_drop by (by eapply lookup_lt_Some).
  rewrite !join_app. cbn. rewrite <- !app_assoc.
  apply Permutation_app_head. rewrite (Permutation_app_comm b'), (app_assoc b).
  apply Permutation_app_tail, Permutation_app_comm.
Qed.

Lemma at_bucket_zset t j k b :
  0 <= j < Z.of_nat (length t) -> 0 <= k ->
  at_bucket (zset t j b) k = if decide (j = k) then b else at_bucket t k.
Proof.
  intros Hj Hk. unfold at_bucket. case_decide as H.
  - subst. by rewrite znth_zset_eq.
  - by rewrite znth_zset_ne.
Qed.

Lemma hashed_zset h t j b :
  hashed h t -> 0 <= j < Z.of_nat (length t) -> (forall r, r ∈ b -> h (kid r) = j) ->
  hashed h (zset t j b).
Proof.
  intros Ht Hj Hb k c r Hk Hr. destruct (decide (j = k)) as [->|Hne].
  - rewrite znth_zset_eq in Hk by done. injection Hk as <-. by apply Hb.
  - rewrite znth_zset_ne in Hk; [by eapply Ht|done|].
    apply znth_lt in Hk. lia.
Qed.

Lemma filter_none (P : A -> Prop) {HP : forall x, Decision (P x)} (l : list A) :
  (forall x, x ∈ l -> ~ P x) -> filter P l = [].
Proof.
  induction l as [|x l IH]; intros Hl; [done|]. rewrite filter_cons_False by (apply Hl; left).
  apply IH. intros y Hy. apply Hl. by right.
Qed.

Lemma filter_mjoin h t id :
  hashed h t ->
  filter (fun r => kid r = id) (mjoin t) = filter (fun r => kid r = id) (at_bucket t (h id)).
Proof.
  intros Ht.
  assert (Hout : forall l : list (list A), (forall b, b ∈ l -> forall r, r ∈ b -> kid r <> id) ->
    filter (fun r => kid r = id) (mjoin l) = []).
  { intros l Hl. apply filter_none. intros x Hx. apply list_elem_of_join in Hx as (b & Hx & Hb). by eapply Hl. }
  unfold at_bucket. destruct (znth t (h id)) as [b|] eqn:Hb.
  - pose proof (znth_lt _ _ _ Hb). unfold znth in Hb. destruct (Z.ltb_spec (h id) 0); [done|].
    rewrite <- (take_drop_middle t _ b Hb) at 1.
    rewrite join_app. cbn. rewrite !filter_app.
    rewrite (Hout (take _ t)), (Hout (drop _ t)); [by rewrite app_nil_r| |].
    + intros b' Hb' r Hr Hid. apply list_elem_of_lookup in Hb' as [i Hi].
      rewrite lookup_drop in Hi.
      assert (Hz : znth t (Z.of_nat (S (Z.to_nat (h id)) + i)) = Some b').
      { unfold znth. destruct (Z.ltb_spec (Z.of_nat (S (Z.to_nat (h id)) + i)) 0); [lia|].
        by rewrite Nat2Z.id. }
      specialize (Ht _ _ _ Hz Hr). rewrite Hid in Ht. lia.
    + intros b' Hb' r Hr Hid. apply list_elem_of_lookup in Hb' as [i Hi].
      apply lookup_take_Some in Hi as [Hi Hlt].
      assert (Hz : znth t (Z.of_nat i) = Some b').
      { unfold znth. destruct (Z.ltb_spec (Z.of_nat i) 0); [lia|]. by rewrite Nat2Z.id. }
      specialize (Ht _ _ _ Hz Hr). rewrite Hid in Ht. lia.
  - cbn. apply Hout. intros b' Hb' r Hr Hid. apply list_elem_of_lookup in Hb' as [i Hi].
    assert (Hz : znth t (Z.of_nat i) = Some b').
    { unfold znth. destruct (Z.ltb_spec (Z.of_nat i) 0); [lia|]. by rewrite Nat2Z.id. }
    specialize (Ht _ _ _ Hz Hr). rewrite Hid in Ht. congruence.
Qed.
End BucketTables.

(** ** Case analysis *)

(** Splits the innermost boolean tests and matches of the goal. *)
Ltac case_bool :=
  match goal with
  | |- context [if ?b then _ else _] =>
      match b with context [if _ then _ else _] => fail 1 | _ => destruct b eqn:? end
  end.
(** Turns boolean comparisons of the context into propositions. *)
Ltac breflect :=
  repeat match goal with
  | H : (_ && _)%bool = true |- _ => apply andb_true_iff in H as [? ?]
  | H : (_ || _)%bool = false |- _ => apply orb_false_iff in H as [? ?]
  | H : negb _ = true |- _ => apply negb_true_iff in H
  | H : negb _ = false |- _ => apply negb_false_iff in H
  | H : (_ =? _) = true |- _ => apply Z.eqb_eq in H
  | H : (_ =? _) = false |- _ => apply Z.eqb_neq in H
  | H : (_ <? _) = true |- _ => apply Z.ltb_lt in H
  | H : (_ <? _) = false |- _ => apply Z.ltb_ge in H
  | H : (_ <=? _) = true |- _ => apply Z.leb_le in H
  | H : (_ <=? _) = false |- _ => apply Z.leb_gt in H
  end.

(** ** Outcomes of a C function

    Besides returning, a function of the server can call [FatalError], run into
    undefined behaviour, or use up the turns its loop was given. *)
Inductive outcome (A : Type) :=
  | Ret (a : A)
  | FatalError
  | Undefined
  | Diverge.
Arguments Ret {A} a.
Arguments FatalError {A}.
Arguments Undefined {A}.
Arguments Diverge {A}.

Definition obind {A B} (o : outcome A) (f : A -> outcome B) : outcome B :=
  match o with
  | Ret a => f a
  | FatalError => FatalError
  | Undefined => Undefined
  | Diverge => Diverge
  end.
Notation "x <-- o ; k" := (obind o (fun x => k))
  (at level 100, o at next level, right associativity) : xserver_scope.
Notation "' x <-- o ; k" := (obind o (fun x => k))
  (at level 20, x strict pattern, o at level 100, k at level 200, only parsing) : xserver_scope.

(** A read that is undefined behaviour when there is nothing to read. *)
Definition obind_opt {A B} (o : option A) (f : A -> outcome B) : outcome B :=
  match o with Some a => f a | None => Undefined end.
Notation "x <-? o ; k" := (obind_opt o (fun x => k))
  (at level 100, o at next level, right associativity) : xserver_scope.

(** A loop whose steps stop with an outcome. *)
Definition run_loop {S A} (step : S -> S + outcome A) (p : positive) (s : S) : outcome A :=
  match loop_pos step p s with inl _ => Diverge | inr o => o end.

(** More turns than any loop of the server can take on 64-bit counters. *)
Definition TURNS : positive := 18446744073709551616.

Lemma obind_Ret {A B} (o : outcome A) (f : A -> outcome B) b :
  obind o f = Ret b -> exists a, o = Ret a /\ f a = Ret b.
Proof. destruct o; cbn; try done. eauto. Qed.

Lemma run_loop_inv {S A} (step : S -> S + outcome A) (Inv : S -> Prop) (Post : A -> Prop) p s a :
  (forall s, Inv s ->
     match step s with inl s' => Inv s' | inr (Ret a) => Post a | inr _ => True end) ->
  Inv s -> run_loop step p s = Ret a -> Post a.
Proof.
  intros Hstep Hs. unfold run_loop.
  pose proof (loop_pos_inv step Inv (fun o => match o with Ret a => Post a | _ => True end)
    Hstep p s Hs) as H.
  destruct (loop_pos step p s) as [|o]; [done|]. intros ->. done.
Qed.

(** A loop that stops at once, and one that is stuck. *)
Lemma run_loop_stop {S A} (step : S -> S + outcome A) p s o : step s = inr o -> run_loop step p s = o.
Proof. intros E. unfold run_loop. by rewrite (loop_pos_stop _ _ _ _ E). Qed.
Lemma run_loop_stuck {S A} (step : S -> S + outcome A) p s : step s = inl s -> run_loop step p s = Diverge.
Proof. intros E. unfold run_loop. by rewrite (loop_pos_stuck _ _ _ E). Qed.

(** Total correctness: under the invariant no step fails, and the measure
    fits into the turns. *)
Lemma run_loop_total {S A} (step : S -> S + outcome A) (Inv : S -> Prop) (Post : A -> Prop)
    (m : S -> Z) p s :
  (forall s, Inv s ->
     match step s with
     | inl s' => Inv s' /\ 0 <= m s' < m s
     | inr (Ret a) => Post a
     | inr _ => False
     end) ->
  Inv s -> m s < Zpos p -> exists a, run_loop step p s = Ret a /\ Post a.
Proof.
  intros Hstep Hs Hm. unfold run_loop.
  destruct (loop_pos_terminates step Inv m p s) as [o Ho]; try done.
  { intros s0 Hs0. specialize (Hstep s0 Hs0). by destruct (step s0). }
  pose proof (loop_pos_inv step Inv (fun o => match o with Ret a => Post a | _ => False end)
    ltac:(intros s0 Hs0; specialize (Hstep s0 Hs0); destruct (step s0); tauto) p s Hs) as H.
  rewrite Ho in *. destruct o; try done. eauto.
Qed.

(** The same with a rank that need not be a function of the state. *)
Lemma run_loop_ranked {S A} (step : S -> S + outcome A) (Inv : nat -> S -> Prop) (Post : A -> Prop) p n s :
  (forall n s, Inv n s ->
     match step s with
     | inl s' => exists n', (n' < n)%nat /\ Inv n' s'
     | inr (Ret a) => Post a
     | inr _ => False
     end) ->
  Inv n s -> Z.of_nat n < Zpos p -> exists a, run_loop step p s = Ret a /\ Post a.
Proof.
  intros Hstep Hs Hn.
  pose proof (loop_pos_ranked step Inv (fun o => match o with Ret a => Post a | _ => False end) Hstep p n s Hs) as Hg.
  unfold run_loop. destruct (loop_pos step p s) as [s'|o].
  - destruct Hg as (n' & Hn' & _). lia.
  - destruct o; try done. by eexists.
Qed.

(** ** Memory allocation

    The C library's allocator is outside the repository.  [al k n] tells
    whether the [k]-th allocation of the operation, of [n] bytes, succeeds. *)
Definition allocator := nat -> Z -> bool.
Definition always : allocator := fun _ _ => true.

(** ** Protocol status codes (X.h) *)
Definition Success : Z := 0.
Definition BadRequest : Z := 1.
Definition BadValue : Z := 2.
Definition BadWindow : Z := 3.
Definition BadPixmap : Z := 4.
Definition BadAtom : Z := 5.
Definition BadCursor : Z := 6.
Definition BadFont : Z := 7.
Definition BadMatch : Z := 8.
Definition BadDrawable : Z := 9.
Definition BadAccess : Z := 10.
Definition BadAlloc : Z := 11.
Definition BadColor : Z := 12.
Definition BadGC : Z := 13.
Definition BadIDChoice : Z := 14.
Definition BadLength : Z := 16.
Definition BadImplementation : Z := 17.
