(* ===== verification/Wire.v ===== *)
(** * Wire: byte order and the reply buffer

    Byte swapping ([include/misc.h], [dix/swapreq.c], [dix/dix_priv.h]) and the
    growable reply buffer [x_rpcbuf_t] ([dix/rpcbuf.c]).  The host is
    little-endian.  A memory cell that was allocated but never written is
    [None], so that "no uninitialised byte reaches a client" is a statement
    about the model. *)

From S2P Require Import Prelude.

(** ** Byte swapping *)

(** [include/misc.h: bswap_32] *)
Definition bswap_32 (x : Z) : Z :=
  Z.lor (Z.shiftr (Z.land x 0xFF000000) 24)
  (Z.lor (Z.shiftr (Z.land x 0x00FF0000) 8)
  (Z.lor (Z.shiftl (Z.land x 0x0000FF00) 8)
         (Z.shiftl (Z.land x 0x000000FF) 24))).

(** [include/misc.h: bswap_16] *)
Definition bswap_16 (x : Z) : Z :=
  Z.lor (Z.shiftr (Z.land x 0xFF00) 8) (Z.shiftl (Z.land x 0x00FF) 8).

(** [include/misc.h: bswap_64] *)
Definition bswap_64 (x : Z) : Z :=
  Z.lor (Z.shiftr (Z.land x 0xFF00000000000000) 56)
  (Z.lor (Z.shiftr (Z.land x 0x00FF000000000000) 40)
  (Z.lor (Z.shiftr (Z.land x 0x0000FF0000000000) 24)
  (Z.lor (Z.shiftr (Z.land x 0x000000FF00000000) 8)
  (Z.lor (Z.shiftl (Z.land x 0x00000000FF000000) 8)
  (Z.lor (Z.shiftl (Z.land x 0x0000000000FF0000) 24)
  (Z.lor (Z.shiftl (Z.land x 0x000000000000FF00) 40)
         (Z.shiftl (Z.land x 0x00000000000000FF) 56))))))).

(** The macros of the handlers: swap a field only for a swapped client. *)
Definition swapl (swapped : bool) (x : Z) : Z := if swapped then bswap_32 x else x.
Definition swaps (swapped : bool) (x : Z) : Z := if swapped then bswap_16 x else x.
Definition swapll (swapped : bool) (x : Z) : Z := if swapped then bswap_64 x else x.

(** Swapping an array in place: blocks of [blk] elements are unrolled, the
    rest goes one by one.  The state is the array, the index the moving
    pointer [list] has, and [count]. *)
Section SwapList.
Context (sw : Z -> Z) (blk : nat).

Definition swap_at (l : list Z) (i : nat) : list Z :=
  match l !! i with Some x => <[i := sw x]> l | None => l end.
Definition swap_block (l : list Z) (base n : nat) : list Z :=
  fold_left (fun l k => swap_at l (base + k)) (seq 0 n) l.

Definition swap_step (st : list Z * nat * nat) : list Z * nat * nat + list Z :=
  let '(l, base, count) := st in
  if (blk <=? count)%nat then
    inl (swap_block l base blk, (base + blk)%nat, (count - blk)%nat)
  else
    match count with
    | O => inr l
    | S _ => inr (swap_block l base count)
    end.

Definition swap_list (l : list Z) (count : nat) : list Z :=
  match loop_pos swap_step (Pos.of_succ_nat count) (l, O, count) with
  | inr l' => l'
  | inl (l', _, _) => l'
  end.
End SwapList.

(** [dix/swapreq.c: SwapShorts] *)
Definition SwapShorts (l : list Z) (count : nat) : list Z := swap_list bswap_16 16 l count.

(** [dix/dix_priv.h: SwapLongs] *)
Definition SwapLongs (l : list Z) (count : nat) : list Z := swap_list bswap_32 8 l count.

(** ** Sizes in protocol units *)

(** [include/misc.h: bytes_to_int32] *)
Definition bytes_to_int32 (bytes : Z) : Z := u32 (Z.shiftr (u64 (bytes + 3)) 2).

(** [include/misc.h: pad_to_int32] *)
Definition pad_to_int32 (bytes : Z) : Z := i32 (Z.land (i32 (bytes + 3)) (-4)).

(** ** The reply buffer *)

Definition XLIBRE_RPCBUF_CHUNK_SIZE : Z := 4096.

(** A byte of memory; [None] was never written. *)
Definition cell := option Z.

(** [dix/rpcbuf_priv.h: x_rpcbuf_t 31-38] *)
Record x_rpcbuf_t := Rpcbuf {
  size : Z;
  wpos : Z;
  buffer : option (list cell);
  swapped : bool;
  error : bool;
  err_clear : bool
}.
#[export] Instance eta_rpcbuf : Settable x_rpcbuf_t :=
  fun b => Rpcbuf (size b) (wpos b) (buffer b) (swapped b) (error b) (err_clear b).

Definition rpcbuf_init (sw clr : bool) : x_rpcbuf_t := Rpcbuf 0 0 None sw false clr.

(** [realloc] of the C library: keeps the common prefix, the rest is fresh. *)
Definition mem_realloc (b : option (list cell)) (n : Z) : list cell :=
  let old := default [] b in
  take (Z.to_nat n) old ++ replicate (Z.to_nat n - length old) None.

(** [memcpy]/[memset] of [cs] to offset [pos]. *)
Definition blit (mem : list cell) (pos : nat) (cs : list cell) : list cell :=
  take pos mem ++ cs ++ drop (pos + length cs) mem.

(** [dix/rpcbuf.c: x_rpcbuf_makeroom] *)
Definition x_rpcbuf_makeroom (al : allocator) (k : nat) (b : x_rpcbuf_t) (needed : Z)
  : bool * x_rpcbuf_t :=
  if error b then (false, b)
  else if size b >? u64 (wpos b + needed) then (true, b)
  else
    let newsize := u64 ((u64 (wpos b + needed) / XLIBRE_RPCBUF_CHUNK_SIZE + 1)
                        * XLIBRE_RPCBUF_CHUNK_SIZE) in
    if al k newsize then
      (true, b <| buffer := Some (mem_realloc (buffer b) newsize) |> <| size := newsize |>)
    else
      let b := b <| error := true |> in
      (false, if err_clear b then b <| buffer := None |> else b).

(** [dix/rpcbuf.c: x_rpcbuf_clear] *)
Definition x_rpcbuf_clear (b : x_rpcbuf_t) : x_rpcbuf_t := Rpcbuf 0 0 None false false false.

(** [dix/rpcbuf.c: x_rpcbuf_reset] *)
Definition x_rpcbuf_reset (b : x_rpcbuf_t) : x_rpcbuf_t :=
  match buffer b with
  | None => b
  | Some _ => if (size b =? 0) || (wpos b =? 0) then b else b <| wpos := 0 |>
  end.

(** The reserved region is given by its offset.
    [dix/rpcbuf.c: x_rpcbuf_reserve] *)
Definition x_rpcbuf_reserve (al : allocator) (k : nat) (b : x_rpcbuf_t) (needed : Z)
  : option Z * x_rpcbuf_t :=
  let '(ok, b) := x_rpcbuf_makeroom al k b needed in
  if ok then (Some (wpos b), b <| wpos := u64 (wpos b + needed) |>)
  else (None, b).

(** Store [cs] at a reserved offset. *)
Definition store (b : x_rpcbuf_t) (pos : Z) (cs : list Z) : x_rpcbuf_t :=
  b <| buffer ::= fmap (fun m => blit m (Z.to_nat pos) (Some <$> cs)) |>.

(** [dix/rpcbuf.c: x_rpcbuf_reserve0] *)
Definition x_rpcbuf_reserve0 (al : allocator) (k : nat) (b : x_rpcbuf_t) (needed : Z)
  : option Z * x_rpcbuf_t :=
  match x_rpcbuf_reserve al k b needed with
  | (None, b) => (None, b)
  | (Some pos, b) => (Some pos, store b pos (replicate (Z.to_nat needed) 0))
  end.

(** Reserve exactly the bytes of [cs] and store them: the common shape of the
    typed writers. *)
Definition write_bytes (al : allocator) (k : nat) (b : x_rpcbuf_t) (cs : list Z)
  : bool * x_rpcbuf_t :=
  match x_rpcbuf_reserve al k b (Z.of_nat (length cs)) with
  | (None, b) => (false, b)
  | (Some pos, b) => (true, store b pos cs)
  end.

(** The bytes of a machine word in memory. *)
Definition le16 (x : Z) : list Z := [x mod 256; (x / 256) mod 256].
Definition le32 (x : Z) : list Z :=
  [x mod 256; (x / 256) mod 256; (x / 65536) mod 256; (x / 16777216) mod 256].
Definition le64 (x : Z) : list Z :=
  (fun i => Z.land (Z.shiftr x (8 * i)) 255) <$> [0; 1; 2; 3; 4; 5; 6; 7].

(** [dix/rpcbuf.c: __x_rpcbuf_write_bin_pad] *)
Definition write_bin_pad (al : allocator) (k : nat) (b : x_rpcbuf_t) (val : list Z)
  : bool * x_rpcbuf_t :=
  let len := Z.of_nat (length val) in
  let blen := u64 (pad_to_int32 (i32 len)) in
  match x_rpcbuf_reserve al k b blen with
  | (None, b) => (false, b)
  | (Some pos, b) =>
      let b := store b pos val in
      (true, store b (pos + len) (replicate (Z.to_nat (u64 (blen - len))) 0))
  end.

(** C strings are byte lists without NUL; [None] is a null pointer.
    [dix/rpcbuf.c: x_rpcbuf_write_string_pad] *)
Definition x_rpcbuf_write_string_pad (al : allocator) (k : nat) (b : x_rpcbuf_t)
    (str : option (list Z)) : bool * x_rpcbuf_t :=
  match str with
  | None => (true, b)
  | Some s => write_bin_pad al k b s
  end.

(** [dix/rpcbuf.c: x_rpcbuf_write_CARD8] *)
Definition x_rpcbuf_write_CARD8 (al : allocator) (k : nat) (b : x_rpcbuf_t) (value : Z) :=
  write_bytes al k b [u8 value].

(** [dix/rpcbuf.c: x_rpcbuf_write_CARD16] *)
Definition x_rpcbuf_write_CARD16 (al : allocator) (k : nat) (b : x_rpcbuf_t) (value : Z) :=
  write_bytes al k b (le16 (swaps (swapped b) (u16 value))).

(** [dix/rpcbuf.c: x_rpcbuf_write_CARD32] *)
Definition x_rpcbuf_write_CARD32 (al : allocator) (k : nat) (b : x_rpcbuf_t) (value : Z) :=
  write_bytes al k b (le32 (swapl (swapped b) (u32 value))).

(** [dix/rpcbuf.c: x_rpcbuf_write_CARD64] *)
Definition x_rpcbuf_write_CARD64 (al : allocator) (k : nat) (b : x_rpcbuf_t) (value : Z) :=
  write_bytes al k b (le64 (swapll (swapped b) (u64 value))).

(** [dix/rpcbuf_priv.h: x_rpcbuf_write_INT16 185-187] *)
Definition x_rpcbuf_write_INT16 (al : allocator) (k : nat) (b : x_rpcbuf_t) (value : Z) :=
  x_rpcbuf_write_CARD16 al k b (u16 value).

(** [dix/rpcbuf_priv.h: x_rpcbuf_write_INT32 216-218] *)
Definition x_rpcbuf_write_INT32 (al : allocator) (k : nat) (b : x_rpcbuf_t) (value : Z) :=
  x_rpcbuf_write_CARD32 al k b (u32 value).

(** [dix/rpcbuf.c: x_rpcbuf_write_string_0t_pad] *)
Definition x_rpcbuf_write_string_0t_pad (al : allocator) (k : nat) (b : x_rpcbuf_t)
    (str : option (list Z)) : bool * x_rpcbuf_t :=
  match str with
  | None => x_rpcbuf_write_CARD32 al k b 0
  | Some s => write_bin_pad al k b (s ++ [0])
  end.

(** [dix/rpcbuf.c: x_rpcbuf_write_CARD8s] *)
Definition x_rpcbuf_write_CARD8s (al : allocator) (k : nat) (b : x_rpcbuf_t)
    (values : list Z) : bool * x_rpcbuf_t :=
  match values with
  | [] => (true, b)
  | _ => write_bytes al k b values
  end.

(** [dix/rpcbuf.c: x_rpcbuf_write_CARD16s] *)
Definition x_rpcbuf_write_CARD16s (al : allocator) (k : nat) (b : x_rpcbuf_t)
    (values : list Z) : bool * x_rpcbuf_t :=
  match values with
  | [] => (true, b)
  | _ =>
      write_bytes al k b
        (mjoin (le16 <$> (if swapped b then SwapShorts values (length values) else values)))
  end.

(** [dix/rpcbuf.c: x_rpcbuf_write_CARD32s] *)
Definition x_rpcbuf_write_CARD32s (al : allocator) (k : nat) (b : x_rpcbuf_t)
    (values : list Z) : bool * x_rpcbuf_t :=
  match values with
  | [] => (true, b)
  | _ =>
      write_bytes al k b
        (mjoin (le32 <$> (if swapped b then SwapLongs values (length values) else values)))
  end.

(** The 64-bit words are swapped one by one.
    [dix/rpcbuf.c: x_rpcbuf_write_CARD64s] *)
Definition x_rpcbuf_write_CARD64s (al : allocator) (k : nat) (b : x_rpcbuf_t)
    (values : list Z) : bool * x_rpcbuf_t :=
  match values with
  | [] => (true, b)
  | _ =>
      write_bytes al k b
        (mjoin (le64 <$>
           (if swapped b then swap_block bswap_64 values 0 (length values) else values)))
  end.

(** [dix/rpcbuf.c: x_rpcbuf_write_binary_pad] *)
Definition x_rpcbuf_write_binary_pad (al : allocator) (k : nat) (b : x_rpcbuf_t)
    (values : list Z) : bool * x_rpcbuf_t :=
  match values with
  | [] => (true, b)
  | _ => write_bin_pad al k b values
  end.

(** [dix/rpcbuf_priv.h: x_rpcbuf_wsize_units] *)
Definition x_rpcbuf_wsize_units (b : x_rpcbuf_t) : Z := u32 (u64 (wpos b + 3) / 4).

(** [dix/rpcbuf_priv.h: x_rpcbuf_pad] *)
Definition x_rpcbuf_pad (al : allocator) (k : nat) (b : x_rpcbuf_t) : x_rpcbuf_t :=
  snd (x_rpcbuf_reserve0 al k b (u64 (u64 (wpos b + 3) / 4 * 4 - wpos b))).

(** The results of the writes are ignored: a failure stays in the buffer.
    [dix/rpcbuf_priv.h: x_rpcbuf_write_counted_string_pad 352-361] *)
Definition x_rpcbuf_write_counted_string_pad (al : allocator) (k : nat) (b : x_rpcbuf_t)
    (str : option (list Z)) : x_rpcbuf_t :=
  match str with
  | None => b
  | Some s =>
      let len := u16 (Z.of_nat (length s)) in
      let b := snd (x_rpcbuf_write_CARD16 al k b len) in
      let b := snd (x_rpcbuf_write_CARD8s al (S k) b (take (Z.to_nat len) s)) in
      x_rpcbuf_pad al (S (S k)) b
  end.

(** [dix/rpcbuf_priv.h: x_rpcbuf_write_rect 396-403] *)
Definition x_rpcbuf_write_rect (al : allocator) (k : nat) (b : x_rpcbuf_t) (x y width height : Z)
  : x_rpcbuf_t :=
  let b := snd (x_rpcbuf_write_INT16 al k b x) in
  let b := snd (x_rpcbuf_write_INT16 al (S k) b y) in
  let b := snd (x_rpcbuf_write_CARD16 al (S (S k)) b width) in
  snd (x_rpcbuf_write_CARD16 al (S (S (S k))) b height).

(** ** Byte order lemmas *)

Lemma lor_shift_add a b k : 0 <= k -> 0 <= a < 2 ^ k -> Z.lor a (b * 2 ^ k) = a + b * 2 ^ k.
Proof.
  intros Hk Ha. rewrite <- Z.add_lor_land. 
  enough (Z.land a (b * 2 ^ k) = 0) by lia.
  apply Z.bits_inj'. intros n Hn. rewrite Z.land_spec, Z.bits_0, <- Z.shiftl_mul_pow2 by lia.
  destruct (Z.lt_ge_cases n k).
  - rewrite Z.shiftl_spec_low by lia. by rewrite andb_false_r.
  - rewrite <- (Z.mod_small a (2 ^ k)), Z.mod_pow2_bits_high by lia. done.
Qed.
Lemma byte_field x m k : 0 <= k -> m = Z.shiftl 255 k -> Z.land x m = (x / 2 ^ k) mod 256 * 2 ^ k.
Proof.
  intros Hk ->. rewrite <- Z.shiftl_mul_pow2, <- Z.shiftr_div_pow2 by lia.
  change 256 with (2 ^ 8). rewrite <- Z.land_ones by lia. change (Z.ones 8) with 255.
  apply Z.bits_inj'. intros n Hn. rewrite Z.land_spec.
  destruct (Z.lt_ge_cases n k).
  - rewrite !Z.shiftl_spec_low by lia. by rewrite andb_false_r.
  - rewrite !Z.shiftl_spec by lia. rewrite Z.land_spec, Z.shiftr_spec by lia.
    by replace (n - k + k) with n by lia.
Qed.
Lemma bswap_32_bytes x : bswap_32 x =
  (x / 16777216) mod 256 + (x / 65536) mod 256 * 256 + (x / 256) mod 256 * 65536 + x mod 256 * 16777216.
Proof.
  unfold bswap_32.
  rewrite (byte_field x 0xFF000000 24), (byte_field x 0xFF0000 16), (byte_field x 0xFF00 8), (byte_field x 0xFF 0) by done.
  rewrite !Z.shiftr_div_pow2, !Z.shiftl_mul_pow2 by lia.
  change (2^24) with 16777216. change (2^16) with 65536. change (2^8) with 256. change (2^0) with 1.
  set (b3 := (x / 16777216) mod 256). set (b2 := (x / 65536) mod 256). set (b1 := (x / 256) mod 256).
  rewrite Z.div_1_r, Z.mul_1_r. set (b0 := x mod 256).
  assert (0 <= b3 < 256) by (apply Z.mod_pos_bound; lia).
  assert (0 <= b2 < 256) by (apply Z.mod_pos_bound; lia).
  assert (0 <= b1 < 256) by (apply Z.mod_pos_bound; lia).
  replace (b3 * 16777216 / 16777216) with b3 by (rewrite Z.div_mul; lia).
  replace (b2 * 65536 / 256) with (b2 * 2 ^ 8) by (change 65536 with (256 * 256); rewrite Z.mul_assoc, Z.div_mul; lia).
  replace (b1 * 256 * 256) with (b1 * 2 ^ 16) by lia. 
  replace (b0 * 16777216) with (b0 * 2 ^ 24) by lia.
  rewrite (lor_shift_add (b1 * 2^16) b0 24) by lia.
  replace (b1 * 2 ^ 16 + b0 * 2 ^ 24) with ((b1 + b0 * 2 ^ 8) * 2 ^ 16) by lia.
  rewrite (lor_shift_add (b2 * 2^8)) by lia.
  replace (b2 * 2 ^ 8 + (b1 + b0 * 2 ^ 8) * 2 ^ 16) with ((b2 + (b1 + b0 * 2 ^ 8) * 2 ^ 8) * 2 ^ 8) by lia.
  rewrite lor_shift_add by lia. lia.
Qed.
Lemma le32_bswap x : le32 (bswap_32 x) = rev (le32 x).
Proof.
  rewrite bswap_32_bytes. unfold le32. cbn [rev app].
  pose proof (Z.mod_pos_bound x 256 eq_refl) as H0.
  pose proof (Z.mod_pos_bound (x / 256) 256 eq_refl) as H1.
  pose proof (Z.mod_pos_bound (x / 65536) 256 eq_refl) as H2.
  pose proof (Z.mod_pos_bound (x / 16777216) 256 eq_refl) as H3.
  revert H0 H1 H2 H3.
  generalize (x mod 256) ((x / 256) mod 256) ((x / 65536) mod 256) ((x / 16777216) mod 256).
  intros b0 b1 b2 b3 H0 H1 H2 H3.
  f_equal; [|f_equal; [|f_equal; [|f_equal]]]; Z.div_mod_to_equations; lia.
Qed.
Lemma le32_inj x y : 0 <= x < 4294967296 -> 0 <= y < 4294967296 -> le32 x = le32 y -> x = y.
Proof. unfold le32. intros Hx Hy [= H0 H1 H2 H3]. Z.div_mod_to_equations; lia. Qed.
Lemma bswap_32_range x : 0 <= bswap_32 x < 4294967296.
Proof. rewrite bswap_32_bytes. Z.div_mod_to_equations; lia. Qed.
Lemma bswap_32_involutive x : 0 <= x < 4294967296 -> bswap_32 (bswap_32 x) = x.
Proof.
  intros Hx. apply le32_inj; [apply bswap_32_range|done|].
  by rewrite !le32_bswap, rev_involutive.
Qed.

(** Swapping is an involution, and in memory it reverses the bytes: what a
    swapped client sent big-endian is the host's little-endian word. *)
Theorem bswap_32_wire x :
  le32 (bswap_32 x) = rev (le32 x) /\
  (0 <= x < 4294967296 -> bswap_32 (bswap_32 x) = x).
Proof. split; [apply le32_bswap|apply bswap_32_involutive]. Qed.

(** ** The unrolled loops *)
Section SwapListSpec.
Context (sw : Z -> Z) (blk : nat).

(** The array after the elements before [base] were swapped. *)
Definition swapped_upto (l0 : list Z) (n : nat) : list Z :=
  (sw <$> take n l0) ++ drop n l0.

Lemma swap_at_next l0 n :
  (n < length l0)%nat -> swap_at sw (swapped_upto l0 n) n = swapped_upto l0 (S n).
Proof.
  intros Hn. destruct (lookup_lt_is_Some_2 l0 n Hn) as [x Hx].
  unfold swap_at, swapped_upto.
  assert (Hlen : length (sw <$> take n l0) = n) by (rewrite length_fmap, length_take; lia).
  assert (Hl : ((sw <$> take n l0) ++ drop n l0) !! n = Some x).
  { rewrite lookup_app_r, Hlen, Nat.sub_diag, lookup_drop, Nat.add_0_r by lia. done. }
  rewrite Hl, insert_app_r_alt, Hlen, Nat.sub_diag by lia.
  rewrite (drop_S l0 x n Hx), (take_S_r l0 n x Hx), fmap_app. cbn.
  by rewrite <- app_assoc.
Qed.

Lemma swap_block_next l0 base n :
  (base + n <= length l0)%nat ->
  swap_block sw (swapped_upto l0 base) base n = swapped_upto l0 (base + n).
Proof.
  intros Hn. unfold swap_block. induction n as [|n IH].
  - cbn. by rewrite Nat.add_0_r.
  - rewrite seq_S, fold_left_app. cbn [fold_left]. rewrite IH by lia.
    rewrite Nat.add_0_l, swap_at_next by lia. by rewrite <- plus_n_Sm.
Qed.

Lemma swap_list_spec l0 count :
  (0 < blk)%nat -> (count <= length l0)%nat -> swap_list sw blk l0 count = swapped_upto l0 count.
Proof.
  intros Hblk Hc. unfold swap_list.
  set (Inv := fun st : list Z * nat * nat =>
    let '(l, base, c) := st in l = swapped_upto l0 base /\ (base + c = count)%nat).
  assert (Hstep : forall st, Inv st ->
    match swap_step sw blk st with
    | inl st' => Inv st' /\ 0 <= Z.of_nat st'.2 < Z.of_nat st.2
    | inr r => r = swapped_upto l0 count
    end).
  { intros [[l base] c] [-> Hb]. cbn.
    destruct (Nat.leb_spec blk c).
    - cbn. split; [split; [apply swap_block_next|]; lia|lia].
    - destruct c as [|c]; [by rewrite Nat.add_0_r in Hb; subst|].
      rewrite swap_block_next by lia. by rewrite Hb. }
  assert (H0 : Inv (l0, O, count)) by (split; [by unfold swapped_upto|done]).
  destruct (loop_pos_terminates (swap_step sw blk) Inv (fun st => Z.of_nat st.2)
              (Pos.of_succ_nat count) (l0, O, count)) as [r Hr].
  - intros st Hst. specialize (Hstep st Hst). by destruct (swap_step sw blk st).
  - done.
  - cbn. lia.
  - rewrite Hr. pose proof (loop_pos_inv (swap_step sw blk) Inv
      (fun r => r = swapped_upto l0 count)) as H.
    specialize (H ltac:(intros st Hst; specialize (Hstep st Hst); destruct (swap_step sw blk st); tauto)
      (Pos.of_succ_nat count) _ H0). by rewrite Hr in H.
Qed.
End SwapListSpec.

(** The unrolled [SwapLongs] and [SwapShorts] loops swap exactly the first
    [count] elements and leave the rest of the array alone. *)
Theorem SwapLongs_map l count :
  (count <= length l)%nat ->
  SwapLongs l count = (bswap_32 <$> take count l) ++ drop count l /\
  SwapShorts l count = (bswap_16 <$> take count l) ++ drop count l.
Proof. intros H. split; apply swap_list_spec; lia. Qed.

Lemma SwapLongs_all l : SwapLongs l (length l) = bswap_32 <$> l.
Proof. unfold SwapLongs. rewrite swap_list_spec by lia. unfold swapped_upto.
  rewrite firstn_all, drop_all. by rewrite app_nil_r. Qed.
Lemma SwapShorts_all l : SwapShorts l (length l) = bswap_16 <$> l.
Proof. unfold SwapShorts. rewrite swap_list_spec by lia. unfold swapped_upto.
  rewrite firstn_all, drop_all. by rewrite app_nil_r. Qed.

Definition longs_example : list Z := [1; 2; 3; 4; 5; 6; 7; 8; 0x01020304; 9].
Lemma SwapLongs_map_witness :
  (9 <= length longs_example)%nat /\ SwapLongs longs_example 9 !! 8%nat = Some 0x04030201.
Proof.
  split; [cbn; lia|].
  rewrite (proj1 (SwapLongs_map longs_example 9 ltac:(cbn; lia))). reflexivity.
Defined.

(** ** The reply buffer *)

(** What will be sent: the bytes before the write position. *)
Definition payload (b : x_rpcbuf_t) : list cell :=
  take (Z.to_nat (wpos b)) (default [] (buffer b)).

(** A buffer in use that has not failed. *)
Definition rpc_ok (b : x_rpcbuf_t) : Prop :=
  error b = false /\ 0 <= wpos b <= size b /\ size b < 9223372036854775808 /\
  Z.of_nat (length (default [] (buffer b))) = size b /\
  (buffer b = None -> size b = 0).

Lemma rpc_ok_init sw clr : rpc_ok (rpcbuf_init sw clr).
Proof. unfold rpc_ok, rpcbuf_init. cbn. split_and!; done || lia. Qed.

Definition room (b : x_rpcbuf_t) (n : Z) : Prop :=
  0 <= n /\ wpos b + n + XLIBRE_RPCBUF_CHUNK_SIZE < 9223372036854775808.

Lemma length_mem_realloc m n : 0 <= n -> Z.of_nat (length (mem_realloc m n)) = n.
Proof.
  intros Hn. unfold mem_realloc. rewrite length_app, length_take, length_replicate. lia.
Qed.
Lemma take_mem_realloc m n p :
  (p <= length (default [] m))%nat -> (p <= Z.to_nat n)%nat ->
  take p (mem_realloc m n) = take p (default [] m).
Proof.
  intros Hp Hn. unfold mem_realloc.
  rewrite take_app_le by (rewrite length_take; lia). rewrite take_take. f_equal. lia.
Qed.

Lemma makeroom_spec al k b needed ok b' :
  rpc_ok b -> room b needed -> x_rpcbuf_makeroom al k b needed = (ok, b') ->
  (ok = true -> rpc_ok b' /\ wpos b' = wpos b /\ payload b' = payload b /\
                swapped b' = swapped b /\ wpos b + needed <= size b' /\ is_Some (buffer b')) /\
  (ok = false -> error b' = true).
Proof.
  intros (He & Hw & Hs & Hl & Hn) [Hr0 Hr] Hm. unfold x_rpcbuf_makeroom in Hm.
  unfold XLIBRE_RPCBUF_CHUNK_SIZE in *.
  rewrite He in Hm. rewrite (u64_small (wpos b + needed)) in Hm by lia.
  destruct (size b >? wpos b + needed) eqn:Hgt.
  - injection Hm as <- <-. split; [|done]. intros _.
    rewrite Z.gtb_ltb in Hgt. breflect.
    repeat (split; try done); try lia.
    destruct (buffer b); [by eexists|]. specialize (Hn eq_refl). lia.
  - set (ns := u64 _) in Hm.
    assert (Hns : ns = ((wpos b + needed) / 4096 + 1) * 4096).
    { apply u64_small. Z.div_mod_to_equations; lia. }
    assert (wpos b + needed < ns <= wpos b + needed + 4096) by (Z.div_mod_to_equations; lia).
    destruct (al k ns).
    + injection Hm as <- <-. split; [|done]. intros _. cbn.
      assert (Hlen := length_mem_realloc (buffer b) ns ltac:(lia)).
      split_and!; cbn; try done; try lia.
      * repeat split; cbn; try done; lia.
      * unfold payload. cbn. apply take_mem_realloc; lia.
    + injection Hm as <- <-. split; [done|]. intros _. by destruct (err_clear _).
Qed.

Lemma blit_end (mem cs : list cell) p :
  (p + length cs <= length mem)%nat ->
  take (p + length cs) (blit mem p cs) = take p mem ++ cs /\
  length (blit mem p cs) = length mem.
Proof.
  intros H. unfold blit. split.
  - rewrite app_assoc, take_app_le by (rewrite length_app, length_take; lia).
    apply take_ge. rewrite length_app, length_take. lia.
  - rewrite !length_app, length_take, length_drop. lia.
Qed.

(** The workhorse of the typed writers. *)
Lemma write_bytes_spec al k b cs ok b' :
  rpc_ok b -> room b (Z.of_nat (length cs)) -> write_bytes al k b cs = (ok, b') ->
  (ok = true -> rpc_ok b' /\ payload b' = payload b ++ (Some <$> cs) /\
                wpos b' = wpos b + Z.of_nat (length cs) /\ swapped b' = swapped b) /\
  (ok = false -> error b' = true).
Proof.
  intros Hb Hr Hw. unfold write_bytes, x_rpcbuf_reserve in Hw.
  destruct (x_rpcbuf_makeroom al k b (Z.of_nat (length cs))) as [ok1 b1] eqn:Hm.
  destruct (makeroom_spec _ _ _ _ _ _ Hb Hr Hm) as [Hok Hko].
  destruct ok1; [|injection Hw as <- <-; by auto].
  injection Hw as <- <-. split; [|done]. intros _.
  destruct (Hok eq_refl) as ((He & Hwp & Hs & Hl & Hn) & Hweq & Hp & Hsw & Hsz & [m Hm1]).
  destruct Hr as [_ Hr]. unfold XLIBRE_RPCBUF_CHUNK_SIZE in Hr.
  rewrite u64_small by lia. unfold rpc_ok, payload in *. cbn in *.
  rewrite Hm1 in *. cbn in *.
  destruct (blit_end m (Some <$> cs) (Z.to_nat (wpos b1))) as [H1 H2].
  { rewrite length_fmap. lia. }
  rewrite length_fmap in H1.
  split_and!; try done; try lia.
  rewrite <- Hp, <- H1. f_equal. lia.
Qed.

(** The bytes of a word array in the client's byte order. *)
Definition wire32 (swapped : bool) (x : Z) : list Z :=
  if swapped then rev (le32 x) else le32 x.

Lemma length_mjoin_wire32 sw l : length (mjoin (wire32 sw <$> l)) = (4 * length l)%nat.
Proof.
  induction l as [|x l IH]; [done|].
  change (mjoin (wire32 sw <$> x :: l)) with (wire32 sw x ++ mjoin (wire32 sw <$> l)).
  rewrite length_app, IH. destruct sw; cbn; lia.
Qed.
Lemma mjoin_wire32 (sw : bool) (l : list Z) :
  mjoin (le32 <$> (if sw then bswap_32 <$> l else l)) = mjoin (wire32 sw <$> l).
Proof.
  destruct sw; [|done]. induction l as [|x l IH]; [done|].
  change (le32 (bswap_32 x) ++ mjoin (le32 <$> (bswap_32 <$> l)) =
          rev (le32 x) ++ mjoin (wire32 true <$> l)).
  by rewrite le32_bswap, IH.
Qed.

Definition wire16 (swapped : bool) (x : Z) : list Z :=
  if swapped then rev (le16 x) else le16 x.

Lemma le16_bswap x : le16 (bswap_16 x) = rev (le16 x).
Proof.
  assert (E : bswap_16 x = (x / 256) mod 256 + (x mod 256) * 256).
  { unfold bswap_16. rewrite (byte_field x 0xFF00 8), (byte_field x 0x00FF 0) by (done || lia).
    rewrite Z.shiftr_div_pow2, Z.div_mul, Z.shiftl_mul_pow2 by lia.
    rewrite lor_shift_add; [|lia|Z.div_mod_to_equations; lia].
    change (2 ^ 8) with 256. change (2 ^ 0) with 1. by rewrite Z.div_1_r, Z.mul_1_r. }
  unfold le16. cbn [rev app]. rewrite E. f_equal; [|f_equal]; Z.div_mod_to_equations; lia.
Qed.
Lemma mjoin_wire16 (sw : bool) (l : list Z) :
  mjoin (le16 <$> (if sw then bswap_16 <$> l else l)) = mjoin (wire16 sw <$> l).
Proof.
  destruct sw; [|done]. induction l as [|x l IH]; [done|].
  change (le16 (bswap_16 x) ++ mjoin (le16 <$> (bswap_16 <$> l)) =
          rev (le16 x) ++ mjoin (wire16 true <$> l)).
  by rewrite le16_bswap, IH.
Qed.
Lemma length_mjoin_wire16 sw l : length (mjoin (wire16 sw <$> l)) = (2 * length l)%nat.
Proof.
  induction l as [|x l IH]; [done|].
  change (mjoin (wire16 sw <$> x :: l)) with (wire16 sw x ++ mjoin (wire16 sw <$> l)).
  rewrite length_app, IH. destruct sw; cbn; lia.
Qed.

Definition wire64 (swapped : bool) (x : Z) : list Z :=
  if swapped then rev (le64 x) else le64 x.

(** Byte [i] of a word, bit by bit. *)
Lemma byte_testbit x i n :
  0 <= i -> 0 <= n ->
  Z.testbit (Z.land (Z.shiftr x (8 * i)) 255) n = ((n <? 8) && Z.testbit x (n + 8 * i))%bool.
Proof.
  intros Hi Hn. change 255 with (Z.ones 8). rewrite Z.land_spec, Z.shiftr_spec by lia.
  destruct (Z.ltb_spec n 8).
  - by rewrite Z.ones_spec_low, andb_true_r by lia.
  - by rewrite Z.ones_spec_high, andb_false_r by lia.
Qed.
Lemma bswap_64_byte x i :
  0 <= i < 8 ->
  Z.land (Z.shiftr (bswap_64 x) (8 * i)) 255 = Z.land (Z.shiftr x (8 * (7 - i))) 255.
Proof.
  intros Hi. apply Z.bits_inj'. intros n Hn. rewrite !byte_testbit by lia.
  destruct (Z.ltb_spec n 8) as [Hn8|]; [|done]. cbn [andb].
  assert (Hc : n = 0 \/ n = 1 \/ n = 2 \/ n = 3 \/ n = 4 \/ n = 5 \/ n = 6 \/ n = 7) by lia.
  assert (Hd : i = 0 \/ i = 1 \/ i = 2 \/ i = 3 \/ i = 4 \/ i = 5 \/ i = 6 \/ i = 7) by lia.
  clear Hn Hn8 Hi.
  unfold bswap_64. rewrite !Z.lor_spec.
  destruct_or! Hd; subst i; destruct_or! Hc; subst n;
    repeat first [rewrite Z.shiftr_spec by lia | rewrite Z.shiftl_spec by lia];
    rewrite !Z.land_spec; cbn -[Z.testbit];
    repeat match goal with
    | |- context [Z.testbit (Zpos ?p) ?m] =>
        let v := eval vm_compute in (Z.testbit (Zpos p) m) in
        change (Z.testbit (Zpos p) m) with v
    end; rewrite ?andb_false_r, ?andb_true_r, ?orb_false_r; done.
Qed.
Lemma le64_bswap x : le64 (bswap_64 x) = rev (le64 x).
Proof. unfold le64. cbn [fmap list_fmap rev app]. by rewrite !bswap_64_byte by lia. Qed.
Lemma swap_block_all sw l : swap_block sw l 0 (length l) = sw <$> l.
Proof.
  pose proof (swap_block_next sw l 0 (length l) ltac:(lia)) as H. unfold swapped_upto in H. cbn in H.
  by rewrite firstn_all, drop_all, app_nil_r in H.
Qed.
Lemma mjoin_wire64 (sw : bool) (l : list Z) :
  mjoin (le64 <$> (if sw then bswap_64 <$> l else l)) = mjoin (wire64 sw <$> l).
Proof.
  destruct sw; [|done]. induction l as [|x l IH]; [done|]. cbn [fmap list_fmap].
  rewrite !mjoin_cons. unfold wire64 at 1. rewrite le64_bswap. f_equal. exact IH.
Qed.
Lemma length_mjoin_wire64 sw l : length (mjoin (wire64 sw <$> l)) = (8 * length l)%nat.
Proof.
  induction l as [|x l IH]; [done|]. cbn [fmap list_fmap]. rewrite mjoin_cons, length_app, IH.
  destruct sw; cbn; lia.
Qed.

(** The typed array writers append the units in the client's byte order. *)
Definition appends (b b' : x_rpcbuf_t) (ok : bool) (cs : list Z) : Prop :=
  (ok = true -> rpc_ok b' /\ payload b' = payload b ++ (Some <$> cs) /\
                wpos b' = wpos b + Z.of_nat (length cs)) /\
  (ok = false -> error b' = true).

Lemma write_bytes_appends al k b cs ok b' :
  rpc_ok b -> room b (Z.of_nat (length cs)) -> write_bytes al k b cs = (ok, b') ->
  appends b b' ok cs.
Proof.
  intros Hb Hr Hw. eapply write_bytes_spec in Hw; [|done|done]. split; [|tauto].
  intros H. by destruct (proj1 Hw H) as (? & ? & ? & _).
Qed.
Lemma appends_nil b : rpc_ok b -> appends b b true [].
Proof. split; [|done]. intros _. split_and!; [done|by rewrite app_nil_r|cbn; lia]. Qed.

Lemma write_CARD32s_appends al k b values ok b' :
  rpc_ok b -> room b (4 * Z.of_nat (length values)) ->
  x_rpcbuf_write_CARD32s al k b values = (ok, b') ->
  appends b b' ok (mjoin (wire32 (swapped b) <$> values)).
Proof.
  intros Hb Hr Hw. unfold x_rpcbuf_write_CARD32s in Hw. rewrite SwapLongs_all, mjoin_wire32 in Hw.
  destruct values as [|v values]; [injection Hw as <- <-; by apply appends_nil|].
  eapply write_bytes_appends; [done| |done]. by rewrite length_mjoin_wire32, Nat2Z.inj_mul.
Qed.
Lemma write_CARD16s_appends al k b values ok b' :
  rpc_ok b -> room b (2 * Z.of_nat (length values)) ->
  x_rpcbuf_write_CARD16s al k b values = (ok, b') ->
  appends b b' ok (mjoin (wire16 (swapped b) <$> values)).
Proof.
  intros Hb Hr Hw. unfold x_rpcbuf_write_CARD16s in Hw. rewrite SwapShorts_all, mjoin_wire16 in Hw.
  destruct values as [|v values]; [injection Hw as <- <-; by apply appends_nil|].
  eapply write_bytes_appends; [done| |done]. by rewrite length_mjoin_wire16, Nat2Z.inj_mul.
Qed.
Lemma write_CARD8s_appends al k b values ok b' :
  rpc_ok b -> room b (Z.of_nat (length values)) ->
  x_rpcbuf_write_CARD8s al k b values = (ok, b') -> appends b b' ok values.
Proof.
  intros Hb Hr Hw. unfold x_rpcbuf_write_CARD8s in Hw.
  destruct values as [|v values]; [injection Hw as <- <-; by apply appends_nil|].
  by eapply write_bytes_appends.
Qed.

Lemma write_CARD64s_appends al k b values ok b' :
  rpc_ok b -> room b (8 * Z.of_nat (length values)) ->
  x_rpcbuf_write_CARD64s al k b values = (ok, b') ->
  appends b b' ok (mjoin (wire64 (swapped b) <$> values)).
Proof.
  intros Hb Hr Hw. unfold x_rpcbuf_write_CARD64s in Hw. rewrite swap_block_all, mjoin_wire64 in Hw.
  destruct values as [|v values]; [injection Hw as <- <-; by apply appends_nil|].
  eapply write_bytes_appends; [done| |done]. by rewrite length_mjoin_wire64, Nat2Z.inj_mul.
Qed.
Lemma room_le b m n : 0 <= m <= n -> room b n -> room b m.
Proof. unfold room. lia. Qed.

(** The typed array writers append exactly the values, in the client's
    byte order, to the bytes that will be sent, and leave a buffer that can be
    written on; or they report the failure of the allocation, which also marks
    the buffer. *)
Theorem x_rpcbuf_write_arrays_spec al k b values ok b' :
  rpc_ok b -> room b (8 * Z.of_nat (length values)) ->
  (x_rpcbuf_write_CARD8s al k b values = (ok, b') -> appends b b' ok values) /\
  (x_rpcbuf_write_CARD16s al k b values = (ok, b') ->
   appends b b' ok (mjoin (wire16 (swapped b) <$> values))) /\
  (x_rpcbuf_write_CARD32s al k b values = (ok, b') ->
   appends b b' ok (mjoin (wire32 (swapped b) <$> values))) /\
  (x_rpcbuf_write_CARD64s al k b values = (ok, b') ->
   appends b b' ok (mjoin (wire64 (swapped b) <$> values))).
Proof.
  intros Hb Hr. split_and!; intros Hw.
  - eapply write_CARD8s_appends; [done| |done]. eapply room_le; [|done]. lia.
  - eapply write_CARD16s_appends; [done| |done]. eapply room_le; [|done]. lia.
  - eapply write_CARD32s_appends; [done| |done]. eapply room_le; [|done]. lia.
  - by eapply write_CARD64s_appends.
Qed.

Lemma x_rpcbuf_write_arrays_spec_witness :
  exists b', x_rpcbuf_write_CARD32s always 0 (rpcbuf_init true true) [1; 0x01020304] = (true, b') /\
    payload b' = Some <$> [0; 0; 0; 1; 1; 2; 3; 4].
Proof.
  exists (snd (x_rpcbuf_write_CARD32s always 0 (rpcbuf_init true true) [1; 0x01020304])).
  split; [reflexivity|].
  destruct (x_rpcbuf_write_arrays_spec always 0 (rpcbuf_init true true) [1; 0x01020304] true
    (snd (x_rpcbuf_write_CARD32s always 0 (rpcbuf_init true true) [1; 0x01020304]))
    (rpc_ok_init true true) ltac:(unfold room, XLIBRE_RPCBUF_CHUNK_SIZE; cbn; lia))
    as (_ & _ & H & _).
  destruct (proj1 (H eq_refl) eq_refl) as (_ & Hp & _). rewrite Hp. reflexivity.
Defined.

(** ** Errors are sticky *)
Lemma makeroom_error al k b n : error b = true -> x_rpcbuf_makeroom al k b n = (false, b).
Proof. intros H. unfold x_rpcbuf_makeroom. by rewrite H. Qed.
#[export] Hint Rewrite makeroom_error using done : rpcbuf.

(** A buffer that failed accepts no more writes. *)
Lemma write_bytes_error al k b cs : error b = true -> write_bytes al k b cs = (false, b).
Proof. intros H. unfold write_bytes, x_rpcbuf_reserve. by autorewrite with rpcbuf. Qed.

(** With memory available the writers do not fail. *)
Lemma write_bytes_always k b cs : error b = false -> (write_bytes always k b cs).1 = true.
Proof.
  intros He. unfold write_bytes, x_rpcbuf_reserve, x_rpcbuf_makeroom. rewrite He.
  by destruct (size b >? _).
Qed.
Lemma writers_always k b l :
  error b = false ->
  (x_rpcbuf_write_CARD32s always k b l).1 = true /\ (x_rpcbuf_write_CARD16s always k b l).1 = true /\
  (x_rpcbuf_write_CARD8s always k b l).1 = true.
Proof.
  intros He. unfold x_rpcbuf_write_CARD32s, x_rpcbuf_write_CARD16s, x_rpcbuf_write_CARD8s.
  destruct l; [done|]. split_and!; by apply write_bytes_always.
Qed.
