(* ===== verification/Atom.v ===== *)
(** * Atom: the interned names of [dix/atom.c]

    Atoms are small integers standing for names.  The state of the file is a
    binary tree ordered by fingerprint, then by name, and a table from atom to
    tree node.  A table slot obtained from [realloc] and never written is
    [None]; a null pointer is [Some None]. *)

From S2P Require Import Prelude.

(** ** C strings *)

(** Characters are bytes; memory after the end of the list is NUL. *)
Definition char_at (s : list Z) (i : Z) : Z := default 0 (s !! Z.to_nat i).

(** [char] is signed: this is [(unsigned int) c]. *)
Definition uint_of_char (c : Z) : Z := u32 (if c <? 128 then c else c - 256).

(** The characters before the first NUL. *)
Fixpoint cstr (s : list Z) : list Z :=
  match s with
  | [] => []
  | c :: s' => if c =? 0 then [] else c :: cstr s'
  end.
Definition strlen (s : list Z) : Z := Z.of_nat (length (cstr s)).
Definition strndup (s : list Z) (n : Z) : list Z := cstr (take (Z.to_nat n) s).

Fixpoint strncmp (n : nat) (s t : list Z) : Z :=
  match n with
  | O => 0
  | S n' =>
      let c := default 0 (head s) in
      let d := default 0 (head t) in
      if c =? d then (if c =? 0 then 0 else strncmp n' (tail s) (tail t)) else c - d
  end.

(** ** State *)

(** [dix/atom.c: NodeRec 64-69] without the child pointers, which are the
    tree below.  [nd_heap] records whether the string was duplicated. *)
Record NodeRec := MkNode {
  nd_a : Z;
  nd_fingerPrint : Z;
  nd_string : list Z;
  nd_heap : bool
}.

Inductive atom_tree :=
  | TNull
  | TNode (left : atom_tree) (n : NodeRec) (right : atom_tree).

(** [dix/atom.c: lastAtom 71-74] *)
Record atom_state := MkAtoms {
  lastAtom : Z;
  atomRoot : atom_tree;
  tableLength : Z;
  nodeTable : list (option (option NodeRec))
}.
#[export] Instance eta_atoms : Settable atom_state :=
  fun s => MkAtoms (lastAtom s) (atomRoot s) (tableLength s) (nodeTable s).

Definition XA_LAST_PREDEFINED : Z := 68.
Definition InitialTableSize : Z := 256.
Definition BAD_RESOURCE : Z := 0xe0000000.
Definition sizeof_NodeRec : Z := 32.
Definition sizeof_NodePtr : Z := 8.

(** ** Operations *)

(** The hash of the first loop of [MakeAtom]; [dix/atom.c: MakeAtom 77-87] *)
Definition fingerprint (string : list Z) (len : Z) : Z :=
  fold_left
    (fun fp i =>
       let fp := u32 (fp * 27 + uint_of_char (char_at string i)) in
       u32 (fp * 27 + uint_of_char (char_at string (len - 1 - i))))
    (Z.of_nat <$> seq 0 (Z.to_nat (u32 (len + 1) / 2))) 0.

(** One turn of the descent; [dix/atom.c: MakeAtom 88-102] *)
Definition node_cmp (fp : Z) (string : list Z) (len : Z) (n : NodeRec) : comparison :=
  if fp <? nd_fingerPrint n then Lt
  else if fp >? nd_fingerPrint n then Gt
  else
    let comp := strncmp (Z.to_nat len) string (nd_string n) in
    if (comp <? 0) || ((comp =? 0) && (len <? strlen (nd_string n))) then Lt
    else if comp >? 0 then Gt
    else Eq.

Fixpoint tree_find (fp : Z) (string : list Z) (len : Z) (t : atom_tree) : option Z :=
  match t with
  | TNull => None
  | TNode l n r =>
      match node_cmp fp string len n with
      | Lt => tree_find fp string len l
      | Gt => tree_find fp string len r
      | Eq => Some (nd_a n)
      end
  end.

(** [*np = nd]: the new leaf goes where the descent ended. *)
Fixpoint tree_insert (fp : Z) (string : list Z) (len : Z) (nd : NodeRec) (t : atom_tree)
  : atom_tree :=
  match t with
  | TNull => TNode TNull nd TNull
  | TNode l n r =>
      match node_cmp fp string len n with
      | Lt => TNode (tree_insert fp string len nd l) n r
      | Gt => TNode l n (tree_insert fp string len nd r)
      | Eq => t
      end
  end.

(** [dix/atom.c: MakeAtom] *)
Definition MakeAtom (al : allocator) (st : atom_state) (string : list Z) (len : Z)
    (makeit : bool) : Z * atom_state :=
  let fp := fingerprint string len in
  match tree_find fp string len (atomRoot st) with
  | Some a => (a, st)
  | None =>
      if makeit then
        if negb (al 0%nat sizeof_NodeRec) then (BAD_RESOURCE, st)
        else
          let static := lastAtom st <? XA_LAST_PREDEFINED in
          let str := if static then cstr string else strndup string len in
          if negb static && negb (al 1%nat (Z.of_nat (length str) + 1)) then (BAD_RESOURCE, st)
          else
            let grow := u32 (lastAtom st + 1) >=? tableLength st in
            if grow && negb (al 2%nat (tableLength st * (2 * sizeof_NodePtr))) then
              (BAD_RESOURCE, st)
            else
              let st :=
                if grow then
                  st <| nodeTable ::= fun t => t ++ replicate (Z.to_nat (tableLength st)) None |>
                     <| tableLength := u64 (Z.shiftl (tableLength st) 1) |>
                else st in
              let a := u32 (lastAtom st + 1) in
              let nd := MkNode a fp str (negb static) in
              (a, st <| atomRoot ::= tree_insert fp string len nd |>
                     <| lastAtom := a |>
                     <| nodeTable ::= fun t => zset t a (Some (Some nd)) |>)
      else (0, st)
  end.

(** [dix/atom.c: ValidAtom] *)
Definition ValidAtom (st : atom_state) (atom : Z) : bool :=
  negb (atom =? 0) && (atom <=? lastAtom st).

(** The outer [None] is a read of an uninitialised slot or past the table.
    [dix/atom.c: NameForAtom] *)
Definition NameForAtom (st : atom_state) (atom : Z) : option (option (list Z)) :=
  if atom >? lastAtom st then Some None
  else
    match znth (nodeTable st) atom with
    | Some (Some (Some node)) => Some (Some (nd_string node))
    | Some (Some None) => Some None
    | Some None | None => None
    end.

(** The strings passed to [free]; [dix/atom.c: FreeAtom] *)
Fixpoint FreeAtom (t : atom_tree) : list NodeRec :=
  match t with
  | TNull => []
  | TNode l n r =>
      FreeAtom l ++ FreeAtom r ++ (if nd_a n >? XA_LAST_PREDEFINED then [n] else [])
  end.

(** [dix/atom.c: FreeAllAtoms] *)
Definition FreeAllAtoms (st : atom_state) : list NodeRec * atom_state :=
  match atomRoot st with
  | TNull => ([], st)
  | root => (FreeAtom root, st <| atomRoot := TNull |> <| nodeTable := [] |> <| lastAtom := 0 |>)
  end.

(** The list of predefined names is generated at build time: it is a
    parameter.  The generated code interns the names in order. *)
Definition MakePredeclaredAtoms (al : allocator) (predeclared : list (list Z))
    (st : atom_state) : atom_state :=
  fold_left (fun st s => snd (MakeAtom al st s (Z.of_nat (length s)) true)) predeclared st.

(** [None] is [FatalError]; [dix/atom.c: InitAtoms] *)
Definition InitAtoms (al : allocator) (predeclared : list (list Z)) (st : atom_state)
  : option atom_state :=
  let st := snd (FreeAllAtoms st) in
  let st := st <| tableLength := InitialTableSize |> in
  if negb (al 3%nat (InitialTableSize * sizeof_NodePtr)) then None
  else
    let st := st <| nodeTable := replicate (Z.to_nat InitialTableSize) (Some None) |> in
    let st := MakePredeclaredAtoms al predeclared st in
    if lastAtom st =? XA_LAST_PREDEFINED then Some st else None.

(** ** Interface for the request handlers *)

(** What the property and selection code needs to know about atoms. *)
Class AtomTable := {
  valid_atom : Z -> bool;
  atom_name : Z -> option (list Z);
  none_not_valid : valid_atom 0 = false
}.
#[export] Instance atom_table (st : atom_state) : AtomTable := {|
  valid_atom := ValidAtom st;
  atom_name a := default None (NameForAtom st a);
  none_not_valid := eq_refl
|}.

(** ** The order of the tree *)

Fixpoint name_cmp (s t : list Z) : comparison :=
  match s, t with
  | [], [] => Eq
  | [], _ => Lt
  | _, [] => Gt
  | c :: s', d :: t' => match c ?= d with Eq => name_cmp s' t' | r => r end
  end.
Definition key := (Z * list Z)%type.
Definition key_cmp (k1 k2 : key) : comparison :=
  match k1.1 ?= k2.1 with Eq => name_cmp k1.2 k2.2 | r => r end.
Definition node_key (n : NodeRec) : key := (nd_fingerPrint n, nd_string n).
Definition klt (k1 k2 : key) : Prop := key_cmp k1 k2 = Lt.

Lemma name_cmp_eq s t : name_cmp s t = Eq <-> s = t.
Proof.
  revert t. induction s as [|c s IH]; intros [|d t]; cbn; try done.
  destruct (Z.compare_spec c d) as [->|H|H].
  - rewrite IH. split; [by intros ->|by intros [= ->]].
  - split; [done|]. intros [= -> _]. lia.
  - split; [done|]. intros [= -> _]. lia.
Qed.
Lemma name_cmp_antisym s t : name_cmp t s = CompOpp (name_cmp s t).
Proof.
  revert t. induction s as [|c s IH]; intros [|d t]; cbn; try done.
  rewrite (Z.compare_antisym c d). destruct (c ?= d); cbn; auto.
Qed.
Lemma name_cmp_trans s t u : name_cmp s t = Lt -> name_cmp t u = Lt -> name_cmp s u = Lt.
Proof.
  revert t u. induction s as [|c s IH]; intros [|d t] [|e u]; cbn; try done.
  destruct (Z.compare_spec c d), (Z.compare_spec d e), (Z.compare_spec c e);
    subst; try done; try lia; apply IH.
Qed.

Lemma key_cmp_eq k1 k2 : key_cmp k1 k2 = Eq <-> k1 = k2.
Proof.
  destruct k1 as [f s], k2 as [g t]. unfold key_cmp. cbn.
  destruct (Z.compare_spec f g) as [->|H|H].
  - rewrite name_cmp_eq. split; [by intros ->|by intros [= ->]].
  - split; [done|]. intros [= -> _]. lia.
  - split; [done|]. intros [= -> _]. lia.
Qed.
Lemma key_cmp_antisym k1 k2 : key_cmp k2 k1 = CompOpp (key_cmp k1 k2).
Proof.
  unfold key_cmp. rewrite (Z.compare_antisym k1.1 k2.1), (name_cmp_antisym k1.2).
  by destruct (k1.1 ?= k2.1).
Qed.
Lemma klt_trans k1 k2 k3 : klt k1 k2 -> klt k2 k3 -> klt k1 k3.
Proof.
  unfold klt, key_cmp.
  destruct (Z.compare_spec k1.1 k2.1), (Z.compare_spec k2.1 k3.1), (Z.compare_spec k1.1 k3.1);
    try done; try lia. apply name_cmp_trans.
Qed.
Lemma klt_irrefl k : ~ klt k k.
Proof. unfold klt. rewrite (proj2 (key_cmp_eq k k) eq_refl). done. Qed.
Lemma key_cmp_gt k1 k2 : key_cmp k1 k2 = Gt -> klt k2 k1.
Proof. intros H. unfold klt. by rewrite key_cmp_antisym, H. Qed.

(** ** Names without NUL *)

Definition name_ok (s : list Z) : Prop := Forall (fun c => 0 < c < 256) s.


Lemma cstr_name s : name_ok s -> cstr s = s.
Proof.
  induction 1 as [|c s Hc Hs IH]; cbn; [done|].
  destruct (Z.eqb_spec c 0); [lia|]. by rewrite IH.
Qed.
Lemma strlen_name s : name_ok s -> strlen s = Z.of_nat (length s).
Proof. intros H. unfold strlen. by rewrite cstr_name. Qed.

(** [strncmp] over the first string's length is a lexicographic comparison in
    which a longer second string counts as equal. *)
Lemma strncmp_name s rest t :
  name_ok s -> name_ok t ->
  match name_cmp s t with
  | Eq => strncmp (length s) (s ++ rest) t = 0 /\ length s = length t
  | Gt => 0 < strncmp (length s) (s ++ rest) t
  | Lt => strncmp (length s) (s ++ rest) t < 0 \/
          (strncmp (length s) (s ++ rest) t = 0 /\ (length s < length t)%nat)
  end.
Proof.
  intros Hs. revert t. induction Hs as [|c s Hc Hs IH]; intros t Ht.
  - destruct t; cbn; [done|]. right. split; [done|lia].
  - destruct t as [|d t]; cbn.
    + destruct (Z.eqb_spec c 0); lia.
    + apply Forall_cons in Ht as [Hd Ht]. specialize (IH t Ht).
      destruct (Z.compare_spec c d) as [->|H|H].
      * rewrite Z.eqb_refl. destruct (Z.eqb_spec d 0); [lia|].
        destruct (name_cmp s t); intuition lia.
      * destruct (Z.eqb_spec c d); [lia|]. left. lia.
      * destruct (Z.eqb_spec c d); [lia|]. lia.
Qed.

(** The comparison of the code is the order of the tree. *)
Lemma node_cmp_key fp s rest n :
  name_ok s -> name_ok (nd_string n) ->
  node_cmp fp (s ++ rest) (Z.of_nat (length s)) n = key_cmp (fp, s) (node_key n).
Proof.
  intros Hs Hn. unfold node_cmp, key_cmp, node_key. cbn.
  rewrite Nat2Z.id, (strlen_name _ Hn), Z.gtb_ltb.
  destruct (Z.compare_spec fp (nd_fingerPrint n)) as [->|H|H].
  - rewrite !Z.ltb_irrefl. pose proof (strncmp_name s rest (nd_string n) Hs Hn) as Hc.
    set (comp := strncmp _ _ _) in *. rewrite Z.gtb_ltb.
    destruct (name_cmp s (nd_string n)).
    + destruct Hc as [-> Hl]. rewrite Hl, !Z.ltb_irrefl. done.
    + destruct (Z.ltb_spec comp 0); [done|]. destruct Hc as [Hc|[-> Hl]]; [lia|].
      cbn. destruct (Z.ltb_spec (Z.of_nat (length s)) (Z.of_nat (length (nd_string n)))); [done|lia].
    + destruct (Z.ltb_spec comp 0); [lia|]. destruct (Z.eqb_spec comp 0); [lia|].
      destruct (Z.ltb_spec 0 comp); [done|lia].
  - destruct (Z.ltb_spec fp (nd_fingerPrint n)); [done|lia].
  - destruct (Z.ltb_spec fp (nd_fingerPrint n)); [lia|].
    destruct (Z.ltb_spec (nd_fingerPrint n) fp); [done|lia].
Qed.

(** ** The search tree *)

Fixpoint nodes (t : atom_tree) : list NodeRec :=
  match t with
  | TNull => []
  | TNode l n r => nodes l ++ n :: nodes r
  end.

Fixpoint bst (t : atom_tree) : Prop :=
  match t with
  | TNull => True
  | TNode l n r =>
      (forall m, m ∈ nodes l -> klt (node_key m) (node_key n)) /\
      (forall m, m ∈ nodes r -> klt (node_key n) (node_key m)) /\ bst l /\ bst r
  end.

Definition names_ok (t : atom_tree) : Prop := forall n, n ∈ nodes t -> name_ok (nd_string n).

Lemma elem_of_nodes m l n r : m ∈ nodes (TNode l n r) <-> m ∈ nodes l \/ m = n \/ m ∈ nodes r.
Proof. cbn. rewrite elem_of_app, elem_of_cons. tauto. Qed.

Lemma names_ok_node l n r :
  names_ok (TNode l n r) <-> names_ok l /\ name_ok (nd_string n) /\ names_ok r.
Proof.
  unfold names_ok. setoid_rewrite elem_of_nodes. split.
  - intros H. split_and!; intros; apply H; auto.
  - intros (? & ? & ?) m [?|[->|?]]; auto.
Qed.

Lemma tree_find_spec fp s rest t a :
  name_ok s -> names_ok t -> bst t ->
  tree_find fp (s ++ rest) (Z.of_nat (length s)) t = Some a <->
  exists n, n ∈ nodes t /\ node_key n = (fp, s) /\ nd_a n = a.
Proof.
  intros Hs. induction t as [|l IHl n r IHr]; intros Hn Hb.
  - split; [done|]. intros (m & Hm & _). by apply not_elem_of_nil in Hm.
  - apply names_ok_node in Hn as (Hnl & Hn & Hnr). destruct Hb as (Hl & Hr & Hbl & Hbr).
    specialize (IHl Hnl Hbl). specialize (IHr Hnr Hbr).
    cbn [tree_find]. rewrite node_cmp_key by done.
    setoid_rewrite elem_of_nodes.
    destruct (key_cmp (fp, s) (node_key n)) eqn:Hc.
    + apply key_cmp_eq in Hc. split.
      * intros [= <-]. exists n. auto.
      * intros (m & [Hm|[->|Hm]] & Hk & <-); [| done |].
        -- specialize (Hl m Hm). rewrite Hk, Hc in Hl. by apply klt_irrefl in Hl.
        -- specialize (Hr m Hm). rewrite Hk, Hc in Hr. by apply klt_irrefl in Hr.
    + rewrite IHl. split.
      * intros (m & ? & ? & ?). eauto 10.
      * intros (m & [Hm|[->|Hm]] & Hk & <-); [by eauto| |].
        -- rewrite <- Hk in Hc. by apply klt_irrefl in Hc.
        -- specialize (Hr m Hm). rewrite Hk in Hr. destruct (klt_irrefl (fp, s)). by eapply klt_trans.
    + apply key_cmp_gt in Hc. rewrite IHr. split.
      * intros (m & ? & ? & ?). eauto 10.
      * intros (m & [Hm|[->|Hm]] & Hk & <-); [| |by eauto].
        -- specialize (Hl m Hm). rewrite Hk in Hl. destruct (klt_irrefl (fp, s)). by eapply klt_trans.
        -- rewrite <- Hk in Hc. by apply klt_irrefl in Hc.
Qed.

Lemma tree_insert_nodes fp s rest nd t :
  tree_find fp (s ++ rest) (Z.of_nat (length s)) t = None ->
  forall m, m ∈ nodes (tree_insert fp (s ++ rest) (Z.of_nat (length s)) nd t) <->
            m = nd \/ m ∈ nodes t.
Proof.
  induction t as [|l IHl n r IHr]; intros Hf m.
  - cbn. rewrite elem_of_cons. done.
  - cbn [tree_find tree_insert] in *. destruct (node_cmp _ _ _ _); [done| |];
      rewrite !elem_of_nodes; [rewrite IHl by done|rewrite IHr by done]; tauto.
Qed.

Lemma tree_insert_bst fp s rest nd t :
  name_ok s -> names_ok t -> node_key nd = (fp, s) ->
  tree_find fp (s ++ rest) (Z.of_nat (length s)) t = None ->
  bst t -> bst (tree_insert fp (s ++ rest) (Z.of_nat (length s)) nd t).
Proof.
  intros Hs. induction t as [|l IHl n r IHr]; intros Hn Hk Hf Hb.
  - cbn. split_and!; try done; intros m Hm; by apply not_elem_of_nil in Hm.
  - apply names_ok_node in Hn as (Hnl & Hn & Hnr). destruct Hb as (Hl & Hr & Hbl & Hbr).
    cbn [tree_find tree_insert] in *. rewrite node_cmp_key in * by done.
    destruct (key_cmp (fp, s) (node_key n)) eqn:Hc; [done| |].
    + cbn [bst]. split_and!; auto. intros m Hm. apply tree_insert_nodes in Hm as [->|Hm]; [|auto|done].
      by rewrite Hk.
    + cbn [bst]. split_and!; auto. intros m Hm. apply tree_insert_nodes in Hm as [->|Hm]; [|auto|done].
      rewrite Hk. by apply key_cmp_gt.
Qed.

(** ** The invariant of the atom table *)

Record wf (st : atom_state) : Prop := {
  wf_bst : bst (atomRoot st);
  wf_names : names_ok (atomRoot st);
  wf_node : forall n, n ∈ nodes (atomRoot st) ->
    nd_fingerPrint n = fingerprint (nd_string n) (Z.of_nat (length (nd_string n))) /\
    1 <= nd_a n <= lastAtom st /\
    znth (nodeTable st) (nd_a n) = Some (Some (Some n)) /\
    nd_heap n = (XA_LAST_PREDEFINED <? nd_a n);
  wf_table : forall i, 1 <= i <= lastAtom st ->
    exists n, n ∈ nodes (atomRoot st) /\ nd_a n = i;
  wf_none : znth (nodeTable st) 0 = Some (Some None);
  wf_last : 0 <= lastAtom st < tableLength st;
  wf_len : Z.of_nat (length (nodeTable st)) = tableLength st;
  wf_tl : tableLength st <= Z.max InitialTableSize (2 * lastAtom st + 2)
}.

(** Atoms are 32-bit; the library stays below the error value. *)
Definition small (st : atom_state) : Prop := lastAtom st < 0x60000000.

Lemma char_at_app s rest i :
  0 <= i < Z.of_nat (length s) -> char_at (s ++ rest) i = char_at s i.
Proof. intros H. unfold char_at. by rewrite lookup_app_l by lia. Qed.

Lemma fingerprint_app s rest :
  Z.of_nat (length s) < 2147483648 ->
  fingerprint (s ++ rest) (Z.of_nat (length s)) = fingerprint s (Z.of_nat (length s)).
Proof.
  intros Hs. unfold fingerprint. rewrite u32_small by lia.
  set (n := Z.to_nat ((Z.of_nat (length s) + 1) / 2)).
  assert (Hn : (n <= length s)%nat) by (unfold n; Z.div_mod_to_equations; lia).
  generalize 0. clearbody n. induction n as [|n IH]; intros z; [done|].
  rewrite seq_S, fmap_app, !fold_left_app, IH by lia. cbn [fmap list_fmap fold_left].
  by rewrite !char_at_app by lia.
Qed.

(** Finding a name, in terms of the names of the tree. *)
Lemma wf_find st s rest a :
  wf st -> name_ok s -> Z.of_nat (length s) < 2147483648 ->
  tree_find (fingerprint (s ++ rest) (Z.of_nat (length s))) (s ++ rest)
            (Z.of_nat (length s)) (atomRoot st) = Some a <->
  exists n, n ∈ nodes (atomRoot st) /\ nd_string n = s /\ nd_a n = a.
Proof.
  intros Hwf Hs Hl. rewrite tree_find_spec by (done || apply Hwf). rewrite fingerprint_app by done.
  split; intros (n & Hn & Hk & Ha); exists n; split_and!; try done.
  - by injection Hk.
  - unfold node_key. destruct (wf_node _ Hwf n Hn) as [-> _]. by rewrite Hk.
Qed.

Lemma NameForAtom_node st n :
  wf st -> n ∈ nodes (atomRoot st) -> NameForAtom st (nd_a n) = Some (Some (nd_string n)).
Proof.
  intros Hwf Hn. destruct (wf_node _ Hwf n Hn) as (_ & Ha & Ht & _).
  unfold NameForAtom. rewrite Z.gtb_ltb. destruct (Z.ltb_spec (lastAtom st) (nd_a n)); [lia|].
  by rewrite Ht.
Qed.


(** The state after the node was linked in. *)
Lemma wf_insert st s rest (nd : NodeRec) :
  wf st -> small st -> name_ok s -> Z.of_nat (length s) < 2147483648 ->
  lastAtom st + 1 < tableLength st ->
  nd = MkNode (lastAtom st + 1) (fingerprint s (Z.of_nat (length s))) s
         (XA_LAST_PREDEFINED <? lastAtom st + 1) ->
  tree_find (fingerprint s (Z.of_nat (length s))) (s ++ rest) (Z.of_nat (length s)) (atomRoot st) = None ->
  wf (st <| atomRoot ::= tree_insert (fingerprint s (Z.of_nat (length s))) (s ++ rest)
                           (Z.of_nat (length s)) nd |>
         <| lastAtom := lastAtom st + 1 |>
         <| nodeTable ::= fun t => zset t (lastAtom st + 1) (Some (Some nd)) |>).
Proof.
  intros Hwf Hsm Hs Hl Htl Hnd Hf.
  pose proof (wf_last _ Hwf). pose proof (wf_len _ Hwf). pose proof (wf_tl _ Hwf).
  assert (Hin : forall m, _) by exact (tree_insert_nodes _ _ _ nd _ Hf).
  constructor; cbn.
  - apply tree_insert_bst; try done; try apply Hwf. by subst nd.
  - intros m Hm. apply Hin in Hm as [->|Hm]; [by subst nd|by apply (wf_names _ Hwf)].
  - intros m Hm. apply Hin in Hm as [->|Hm].
    + subst nd. cbn. split_and!; try done; try lia. apply znth_zset_eq. lia.
    + destruct (wf_node _ Hwf m Hm) as (? & ? & ? & ?). split_and!; try done; try lia.
      by rewrite znth_zset_ne by lia.
  - intros i Hi. destruct (decide (i = lastAtom st + 1)) as [->|].
    + exists nd. rewrite Hin. by subst nd; auto.
    + destruct (wf_table _ Hwf i ltac:(lia)) as (m & Hm & <-). exists m. rewrite Hin. auto.
  - rewrite znth_zset_ne by lia. apply Hwf.
  - lia.
  - by rewrite length_zset.
  - lia.
Qed.

Lemma wf_grow st :
  wf st -> small st -> tableLength st <= lastAtom st + 1 ->
  wf (st <| nodeTable ::= fun t => t ++ replicate (Z.to_nat (tableLength st)) None |>
         <| tableLength := u64 (Z.shiftl (tableLength st) 1) |>) /\
  u64 (Z.shiftl (tableLength st) 1) = 2 * tableLength st.
Proof.
  intros Hwf Hsm Hg. unfold small in Hsm.
  pose proof (wf_last _ Hwf). pose proof (wf_len _ Hwf) as Hlen. pose proof (wf_tl _ Hwf).
  assert (Hu : u64 (Z.shiftl (tableLength st) 1) = 2 * tableLength st).
  { rewrite Z.shiftl_mul_pow2 by lia. change (2 ^ 1) with 2. rewrite u64_small; [lia|].
    unfold InitialTableSize in *. lia. }
  split; [|done].
  assert (Hext : forall i, 0 <= i <= lastAtom st ->
    znth (nodeTable st ++ replicate (Z.to_nat (tableLength st)) None) i = znth (nodeTable st) i).
  { intros i Hi. unfold znth. destruct (Z.ltb_spec i 0); [lia|]. apply lookup_app_l. lia. }
  constructor; cbn; try apply Hwf.
  - intros n Hn. destruct (wf_node _ Hwf n Hn) as (? & ? & ? & ?).
    split_and!; try done; try lia. by rewrite Hext by lia.
  - rewrite Hext by lia. apply Hwf.
  - lia.
  - rewrite length_app, length_replicate. lia.
  - lia.
Qed.

(** Everything [MakeAtom] can do to a well-formed table. *)
Lemma MakeAtom_cases al st s rest makeit a st' :
  wf st -> small st -> name_ok s -> Z.of_nat (length s) < 2147483648 ->
  (lastAtom st < XA_LAST_PREDEFINED -> cstr (s ++ rest) = s) ->
  MakeAtom al st (s ++ rest) (Z.of_nat (length s)) makeit = (a, st') ->
  (exists n, n ∈ nodes (atomRoot st) /\ nd_string n = s /\ nd_a n = a /\ st' = st) \/
  ((forall n, n ∈ nodes (atomRoot st) -> nd_string n <> s) /\
   ((makeit = false /\ a = 0 /\ st' = st) \/
    (makeit = true /\ a = BAD_RESOURCE /\ st' = st) \/
    (makeit = true /\ wf st' /\ a = lastAtom st + 1 /\ lastAtom st' = a /\
     exists nd, nd_a nd = a /\ nd_string nd = s /\
       forall m, m ∈ nodes (atomRoot st') <-> m = nd \/ m ∈ nodes (atomRoot st)))).
Proof.
  intros Hwf Hsm Hs Hl Hc Hmk. unfold MakeAtom in Hmk. pose proof (wf_last _ Hwf) as Hla.
  assert (Hu : u32 (lastAtom st + 1) = lastAtom st + 1) by (unfold small in Hsm; apply u32_small; lia).
  destruct (tree_find _ _ _ _) as [a0|] eqn:Hf.
  { injection Hmk as <- <-. apply wf_find in Hf as (n & ? & ? & ?); try done. left. by exists n. }
  right. split.
  { intros n Hn Hstr.
    rewrite (proj2 (wf_find st s rest (nd_a n) Hwf Hs Hl)) in Hf; [done|by exists n]. }
  rewrite fingerprint_app in * by done.
  destruct makeit; [|injection Hmk as <- <-; by left]. right.
  destruct (al 0%nat _); cbn [negb] in Hmk; [|injection Hmk as <- <-; by left].
  assert (Hstr : (if lastAtom st <? XA_LAST_PREDEFINED then cstr (s ++ rest)
                  else strndup (s ++ rest) (Z.of_nat (length s))) = s).
  { destruct (Z.ltb_spec (lastAtom st) XA_LAST_PREDEFINED); [by apply Hc|].
    unfold strndup. rewrite Nat2Z.id, take_app_length. by apply cstr_name. }
  rewrite Hstr in Hmk.
  destruct (negb _ && negb (al 1%nat _)); [injection Hmk as <- <-; by left|].
  destruct (_ && negb (al 2%nat _)); [injection Hmk as <- <-; by left|]. right.
  assert (Hheap : negb (lastAtom st <? XA_LAST_PREDEFINED) = (XA_LAST_PREDEFINED <? lastAtom st + 1)).
  { destruct (Z.ltb_spec (lastAtom st) XA_LAST_PREDEFINED),
      (Z.ltb_spec XA_LAST_PREDEFINED (lastAtom st + 1)); done || lia. }
  rewrite Hheap, Hu in Hmk.
  rewrite Z.geb_leb in Hmk. destruct (Z.leb_spec (tableLength st) (lastAtom st + 1)) as [Hg|Hg];
    cbn [lastAtom set_field] in Hmk; rewrite ?Hu in Hmk; injection Hmk as <- <-.
  - destruct (wf_grow st Hwf Hsm Hg) as [Hwf' Hu2]. split; [done|]. split.
    { apply (wf_insert _ s rest _ Hwf'); try done. cbn. lia. }
    split_and!; try done. eexists (MkNode _ _ _ _). split_and!; [reflexivity..|].
    intros m. cbn. by apply tree_insert_nodes.
  - split; [done|]. split; [by apply (wf_insert st s rest)|].
    split_and!; try done. eexists (MkNode _ _ _ _). split_and!; [reflexivity..|].
    intros m. cbn. by apply tree_insert_nodes.
Qed.



(** The table just after its allocation. *)
Definition atoms0 : atom_state :=
  MkAtoms 0 TNull InitialTableSize (replicate (Z.to_nat InitialTableSize) (Some None)).

Lemma wf_atoms0 : wf atoms0.
Proof.
  constructor; cbn -[replicate]; try done; try lia.
  - intros n Hn. by apply not_elem_of_nil in Hn.
  - intros n Hn. by apply not_elem_of_nil in Hn.
Qed.



Definition two_atoms : atom_state :=
  snd (MakeAtom always (snd (MakeAtom always atoms0 [80; 81] 2 true)) [65] 1 true).



(** ** Start-up *)

(** What the generated list has to satisfy: distinct C names, 68 of them. *)
Record predeclared_ok (names : list (list Z)) : Prop := {
  pd_names : Forall name_ok names;
  pd_len : Forall (fun s => Z.of_nat (length s) < 2147483648) names;
  pd_nodup : NoDup names;
  pd_count : Z.of_nat (length names) = XA_LAST_PREDEFINED
}.

(** The state after the first names of the list were interned. *)
Definition interned (names : list (list Z)) (st : atom_state) : Prop :=
  wf st /\ lastAtom st = Z.of_nat (length names) /\
  (forall i s, names !! i = Some s -> NameForAtom st (Z.of_nat i + 1) = Some (Some s)) /\
  (forall n, n ∈ nodes (atomRoot st) -> nd_string n ∈ names).

Lemma interned_snoc names s st :
  interned names st -> Z.of_nat (length names) < XA_LAST_PREDEFINED ->
  name_ok s -> Z.of_nat (length s) < 2147483648 -> s ∉ names ->
  interned (names ++ [s]) (snd (MakeAtom always st s (Z.of_nat (length s)) true)).
Proof.
  intros (Hwf & Hla & Hnm & Hin) Hc Hs Hl Hnew.
  assert (Hsm : small st) by (unfold small, XA_LAST_PREDEFINED in *; lia).
  destruct (MakeAtom always st s (Z.of_nat (length s)) true) as [a st'] eqn:E.
  rewrite <- (app_nil_r s) in E at 1.
  assert (Hcs : lastAtom st < XA_LAST_PREDEFINED -> cstr (s ++ []) = s)
    by (intros _; rewrite app_nil_r; by apply cstr_name).
  pose proof (MakeAtom_cases always st s [] true a st' Hwf Hsm Hs Hl Hcs E)
    as [(n & Hn & Hns & _)|[_ [(? & _)|[(_ & -> & _)|(_ & Hwf' & Ha & Hla' & nd & Hnd & Hnds & Hin')]]]].
  - specialize (Hin n Hn). by rewrite Hns in Hin.
  - done.
  - exfalso. unfold MakeAtom in E. cbn [always negb andb] in E.
    destruct (tree_find _ _ _ _) as [b|] eqn:Hf.
    + injection E as -> _. apply wf_find in Hf as (n & Hn & _ & Hb); try done.
      destruct (wf_node _ Hwf n Hn) as (_ & Hr & _). unfold small, BAD_RESOURCE in *. lia.
    + rewrite !andb_false_r in E. injection E as E _. revert E.
      unfold small, BAD_RESOURCE in *. pose proof (wf_last _ Hwf).
      destruct (_ >=? _); cbn; rewrite u32_small; lia.
  - cbn [snd]. split_and!; [done| | |].
    + rewrite length_app. cbn. lia.
    + intros i t Hi. apply lookup_app_Some in Hi as [Hi|[Hge Hi]].
      * pose proof (lookup_lt_Some _ _ _ Hi).
        destruct (wf_table _ Hwf (Z.of_nat i + 1) ltac:(lia)) as (m & Hm & Hma).
        rewrite <- Hma, NameForAtom_node by (done || by apply Hin'; auto).
        rewrite <- (Hnm i t Hi), <- Hma, NameForAtom_node by done. done.
      * assert (i = length names) as ->.
        { apply lookup_lt_Some in Hi. cbn in Hi. lia. }
        rewrite Nat.sub_diag in Hi. injection Hi as <-.
        replace (Z.of_nat (length names) + 1) with (nd_a nd) by lia.
        rewrite NameForAtom_node by (done || by apply Hin'; auto). by rewrite Hnds.
    + intros n Hn. apply Hin' in Hn as [->|Hn]; apply elem_of_app; [right|by left; apply Hin].
      rewrite Hnds. left.
Qed.

Lemma interned_all done names st :
  interned done st -> Z.of_nat (length (done ++ names)) <= XA_LAST_PREDEFINED ->
  Forall name_ok names -> Forall (fun s => Z.of_nat (length s) < 2147483648) names ->
  NoDup (done ++ names) ->
  interned (done ++ names) (MakePredeclaredAtoms always names st).
Proof.
  revert done st. induction names as [|s names IH]; intros done st Hi Hc Hn Hl Hd.
  - by rewrite app_nil_r.
  - apply Forall_cons in Hn as [Hs Hn]. apply Forall_cons in Hl as [Hls Hl].
    rewrite length_app in Hc. cbn in Hc.
    assert (s ∉ done).
    { apply NoDup_app in Hd as (_ & Hd & _). intros H. apply (Hd s H). left. }
    replace (done ++ s :: names) with ((done ++ [s]) ++ names) in * by (by rewrite <- app_assoc).
    apply IH; try done; [apply interned_snoc; try done; lia|].
    rewrite !length_app. cbn. lia.
Qed.

(** Server start: from any earlier table, with memory available,
    [InitAtoms] produces a well-formed table in which the [i]-th generated name
    is atom [i] and no other atom exists. *)
Theorem InitAtoms_spec st names :
  predeclared_ok names -> (atomRoot st = TNull -> lastAtom st = 0) ->
  exists st', InitAtoms always names st = Some st' /\ wf st' /\
    lastAtom st' = XA_LAST_PREDEFINED /\
    (forall i s, names !! i = Some s -> NameForAtom st' (Z.of_nat i + 1) = Some (Some s)).
Proof.
  intros [Hn Hl Hd Hc] Hst. unfold InitAtoms. cbn [always negb].
  set (st0 := _ <| nodeTable := _ |>).
  assert (Hst0 : st0 = atoms0).
  { unfold st0, FreeAllAtoms, atoms0. destruct (atomRoot st) eqn:Hr; cbn -[replicate]; [|done].
    by rewrite Hr, Hst. }
  rewrite Hst0.
  assert (H0 : interned [] atoms0).
  { split_and!; [apply wf_atoms0|done| |]; cbn.
    - intros i s Hi. by rewrite lookup_nil in Hi.
    - intros n Hin. by apply not_elem_of_nil in Hin. }
  destruct (interned_all [] names atoms0 H0 ltac:(cbn; lia) Hn Hl Hd) as (Hwf & Hla & Hnm & _).
  cbn [app] in *. rewrite Hla, Hc, Z.eqb_refl. eexists. split_and!; try done; lia.
Qed.

Definition demo_names : list (list Z) := (fun i => [Z.of_nat i + 33]) <$> seq 0 68.

Lemma InitAtoms_spec_witness :
  exists st', InitAtoms always demo_names two_atoms = Some st' /\
    NameForAtom st' 3 = Some (Some [35]).
Proof.
  assert (Hok : predeclared_ok demo_names).
  { constructor.
    - apply (bool_decide_unpack _). vm_compute. done.
    - apply (bool_decide_unpack _). vm_compute. done.
    - apply (bool_decide_unpack _). vm_compute. done.
    - reflexivity. }
  destruct (InitAtoms_spec two_atoms demo_names Hok ltac:(vm_compute; done)) as (st' & H & _ & _ & Hn).
  exists st'. split; [exact H|]. exact (Hn 2%nat [35] eq_refl).
Defined.
