(* ===== verification/Resource.v ===== *)
(** * Resource: the resource database of [dix/resource.c]

    Every client owns a hash table from XID to the resources registered under
    that id; the buckets are singly linked lists.  Resource values are a
    parameter [V].  Delete functions are called by name: [run] is what a delete
    function does to the database (it may add or free resources itself).
    The outcome [Undefined] is undefined behaviour: an operation went on with a
    link into a bucket array that a callback had replaced, or indexed past a
    table.  A position in a bucket stands for a link into it; as in the code it
    is trusted after a callback that left the number of elements alone. *)

From S2P Require Import Prelude.

(** ** Constants (include/resource.h, dix/resource_priv.h) *)

Definition RC_NEVERRETAIN : Z := Z.shiftl 1 29.
Definition RC_DRAWABLE : Z := Z.shiftl 1 30.
Definition RC_LASTPREDEF : Z := RC_NEVERRETAIN.
Definition RC_ANY : Z := 0xFFFFFFFF.
Definition X11_RESTYPE_NONE : Z := 0.
Definition X11_RESTYPE_WINDOW : Z := Z.lor 1 RC_DRAWABLE.
Definition X11_RESTYPE_PIXMAP : Z := Z.lor 2 RC_DRAWABLE.
Definition X11_RESTYPE_GC : Z := 3.
Definition X11_RESTYPE_FONT : Z := 4.
Definition X11_RESTYPE_LASTPREDEF : Z := 9.
Definition SERVER_BIT : Z := 0x40000000.
Definition SERVER_MINID : Z := 32.
Definition INITBUCKETS : Z := 64.
Definition INITHASHSIZE : Z := 6.
Definition MAXHASHSIZE : Z := 16.
Definition RESOURCE_AND_CLIENT_COUNT : Z := 29.

(** The delete functions of [predefTypes] and those of extensions. *)
Inductive DeleteType :=
  | NoopDDA | DeleteWindow | dixDestroyPixmap | FreeGC | CloseFont | FreeCursor
  | FreeColormap | FreeClientPixels | OtherClientGone | DeletePassiveGrab
  | ExtensionDelete (n : Z).

(** [dix/resource.c: ResourceType 184-189] *)
Record ResourceType := MkType { deleteFunc : DeleteType; errorValue : Z }.

(** [dix/resource.c: predefTypes 435-496] *)
Definition predefTypes : list ResourceType :=
  [ MkType NoopDDA BadValue; MkType DeleteWindow BadWindow; MkType dixDestroyPixmap BadPixmap;
    MkType FreeGC BadGC; MkType CloseFont BadFont; MkType FreeCursor BadCursor;
    MkType FreeColormap BadColor; MkType FreeClientPixels BadColor;
    MkType OtherClientGone BadValue; MkType DeletePassiveGrab BadValue ].

(** ** XIDs *)

(** [dix/resource.c: ilog2] *)
Definition ilog2 (val : Z) : Z :=
  if val <=? 0 then 0
  else
    match loop_pos (fun st : Z * Z =>
             let '(bits, v) := st in
             if v =? 0 then inr bits else inl (bits + 1, Z.shiftr v 1))
           33 (0, val) with
    | inr bits => bits - 1
    | inl _ => 0
    end.

(** The function caches the logarithm; the state is [(cache_ilog2, cache_limit)].
    [dix/resource.c: ResourceClientBits] *)
Definition ResourceClientBits_cached (cache : Z * Z) (LimitClients : Z) : Z * (Z * Z) :=
  if LimitClients =? cache.2 then (cache.1, cache)
  else (ilog2 LimitClients, (ilog2 LimitClients, LimitClients)).

Section Xid.
Context (LimitClients : Z).

Definition ResourceClientBits : Z := ilog2 LimitClients.
Definition CLIENTOFFSET : Z := RESOURCE_AND_CLIENT_COUNT - ResourceClientBits.

(** [dix/resource_priv.h: RESOURCE_ID_MASK 35-35] *)
Definition RESOURCE_ID_MASK : Z := Z.shiftl 1 CLIENTOFFSET - 1.

(** [dix/resource_priv.h: RESOURCE_CLIENT_MASK 25-25] *)
Definition RESOURCE_CLIENT_MASK : Z := u32 (Z.shiftl (Z.shiftl 1 ResourceClientBits - 1) CLIENTOFFSET).

Definition CLIENT_BITS (id : Z) : Z := Z.land id RESOURCE_CLIENT_MASK.

(** [dix/resource_priv.h: dixClientIdForXID] *)
Definition dixClientIdForXID (xid : Z) : Z := u16 (Z.shiftr (CLIENT_BITS xid) CLIENTOFFSET).

Definition low_mask (numBits : Z) : Z := u32 (Z.lnot (u32 (Z.shiftl 0xFFFFFFFF numBits))).

(** The mask is cached at the first call, when [LimitClients] is final.
    [dix/resource.c: HashResourceID] *)
Definition HashResourceID (id numBits : Z) : Z :=
  let id := Z.land id RESOURCE_ID_MASK in
  if numBits <? 9 then
    Z.land (Z.lxor (Z.lxor id (Z.shiftr id numBits)) (Z.shiftr id (Z.shiftl numBits 1)))
           (low_mask numBits)
  else Z.land (Z.lxor id (Z.shiftr id numBits)) (low_mask numBits).
End Xid.

(** ** State *)

Inductive ResourceState := ResourceStateAdding | ResourceStateFreeing.

Section Database.
Context {V : Type}.

(** [dix/resource.c: ResourceRec 165-170] *)
Record ResourceRec := MkRes { res_id : Z; res_type : Z; res_value : V }.

(** [dix/resource.c: ClientResourceRec 172-179] *)
Record ClientResourceRec := MkClientRes {
  resources : list (list ResourceRec);
  elements : Z;
  buckets : Z;
  hashsize : Z;
  fakeID : Z;
  endFakeID : Z
}.

(** The file's globals, the clients' [errorValue] fields, the clients marked
    for exception, and the calls of [ResourceStateCallback]. *)
Record resdb := MkDB {
  clientTable : gmap Z ClientResourceRec;
  lastResourceType : Z;
  lastResourceClass : Z;
  TypeMask : Z;
  resourceTypes : list ResourceType;
  LimitClients : Z;
  noPanoramiXExtension : bool;
  clientError : gmap Z Z;
  clientException : list Z;
  trace : list (ResourceState * ResourceRec)
}.

Definition cr0 : ClientResourceRec := MkClientRes [] 0 0 0 0 0.
Definition table (db : resdb) (cid : Z) : ClientResourceRec := default cr0 (clientTable db !! cid).
End Database.
Arguments ResourceRec : clear implicits.
Arguments ClientResourceRec : clear implicits.
Arguments resdb : clear implicits.
#[export] Instance eta_cr V : Settable (ClientResourceRec V) := fun c =>
  MkClientRes (resources c) (elements c) (buckets c) (hashsize c) (fakeID c) (endFakeID c).
#[export] Instance eta_db V : Settable (resdb V) := fun d =>
  MkDB (clientTable d) (lastResourceType d) (lastResourceClass d) (TypeMask d)
       (resourceTypes d) (LimitClients d) (noPanoramiXExtension d) (clientError d)
       (clientException d) (trace d).
#[export] Instance eta_res V : Settable (ResourceRec V) := fun r =>
  MkRes (res_id r) (res_type r) (res_value r).

(** ** Buckets *)

Section Operations.
Context {V : Type}.
Implicit Types (db : resdb V) (r : ResourceRec V).

(** What a delete function does to the database. *)
Context (run : DeleteType -> V -> Z -> resdb V -> resdb V).
(** The access decision of the security hooks: client, id, type, value, mode. *)
Context (xace : Z -> Z -> Z -> V -> Z -> Z).

Definition bucket db (cid j : Z) : list (ResourceRec V) := at_bucket (resources (table db cid)) j.
Definition set_table db (cid : Z) (c : ClientResourceRec V) : resdb V :=
  db <| clientTable ::= <[cid := c]> |>.
Definition set_bucket db (cid j : Z) (l : list (ResourceRec V)) : resdb V :=
  set_table db cid (table db cid <| resources ::= fun t => zset t j l |>).
Definition add_elements db (cid n : Z) : resdb V :=
  set_table db cid (table db cid <| elements ::= fun e => i32 (e + n) |>).
Definition log db (s : ResourceState) r : resdb V := db <| trace ::= fun t => t ++ [(s, r)] |>.
Definition set_error db (client : option Z) (id : Z) : resdb V :=
  match client with Some c => db <| clientError ::= <[c := id]> |> | None => db end.

Definition hash db (cid id : Z) : Z :=
  HashResourceID (LimitClients db) id (hashsize (table db cid)).
Definition in_use db (cid : Z) : bool :=
  (cid <? LimitClients db) && negb (buckets (table db cid) =? 0).

(** ** Types and classes *)

(** [dix/resource.c: CreateNewResourceType] *)
Definition CreateNewResourceType (al : allocator) db (f : DeleteType) : Z * resdb V :=
  let next := u32 (lastResourceType db + 1) in
  if negb (Z.land next (lastResourceClass db) =? 0) then (0, db)
  else if negb (al 0%nat (32 * (next + 1))) then (0, db)
  else
    (next, db <| lastResourceType := next |>
              <| resourceTypes ::= fun t => t ++ [MkType f BadValue] |>).

(** [dix/resource.c: SetResourceTypeErrorValue] *)
Definition SetResourceTypeErrorValue db (type e : Z) : resdb V :=
  db <| resourceTypes ::= fun t =>
          match znth t (Z.land type (TypeMask db)) with
          | Some rt => zset t (Z.land type (TypeMask db)) (MkType (deleteFunc rt) e)
          | None => t
          end |>.

(** [dix/resource.c: CreateNewResourceClass] *)
Definition CreateNewResourceClass db : Z * resdb V :=
  let next := Z.shiftr (lastResourceClass db) 1 in
  if negb (Z.land next (lastResourceType db) =? 0) then (0, db)
  else (next, db <| lastResourceClass := next |> <| TypeMask := u32 (next - 1) |>).

(** [dix/resource.c: InitClientResources] *)
Definition InitClientResources (al : allocator) db (index clientAsMask : Z) : bool * resdb V :=
  let '(ok, db) :=
    if index =? 0 then
      let db := db <| lastResourceType := X11_RESTYPE_LASTPREDEF |>
                   <| lastResourceClass := RC_LASTPREDEF |>
                   <| TypeMask := RC_LASTPREDEF - 1 |> in
      if negb (al 0%nat 320) then (false, db <| resourceTypes := [] |>)
      else (true, db <| resourceTypes := predefTypes |>)
    else (true, db) in
  if negb ok then (false, db)
  else if negb (al 1%nat (INITBUCKETS * 8)) then
    (false, set_table db index (table db index <| resources := [] |>))
  else
    let fake := Z.lor clientAsMask (if index =? 0 then SERVER_MINID else SERVER_BIT) in
    (true, set_table db index
       (MkClientRes (replicate (Z.to_nat INITBUCKETS) []) 0 INITBUCKETS INITHASHSIZE fake
          (u32 (Z.lor fake (RESOURCE_ID_MASK (LimitClients db)) + 1)))).

(** ** Choosing ids *)

(** Is there a resource with this id in its bucket? *)
Definition id_used db (client id : Z) : bool :=
  existsb (fun r => res_id r =? id) (bucket db client (hash db client id)).

(** [dix/resource.c: AvailableID] *)
Definition AvailableID db (client id maxid goodid : Z) : Z :=
  if (goodid >=? id) && (goodid <=? maxid) then goodid
  else
    match loop_pos (fun id : Z =>
             if id <=? maxid then if id_used db client id then inl (u32 (id + 1)) else inr id
             else inr 0) TURNS id with
    | inr r => r
    | inl _ => 0
    end.

Definition range_step db (client : Z) (st : Z * Z * Z) r : Z * Z * Z :=
  let '(id, maxid, goodid) := st in
  if (res_id r <? id) || (res_id r >? maxid) then st
  else
    let lower := u32 (res_id r - id) >=? u32 (maxid - res_id r) in
    let goodid :=
      if lower then AvailableID db client id (u32 (res_id r - 1)) goodid
      else AvailableID db client (u32 (res_id r + 1)) maxid goodid in
    if (if lower then negb (goodid =? 0) else goodid =? 0) then
      (id, u32 (res_id r - 1), goodid)
    else (u32 (res_id r + 1), maxid, goodid).

Definition range_start db (client : Z) (server : bool) : Z :=
  Z.lor (u32 (Z.shiftl client (CLIENTOFFSET (LimitClients db))))
        (if server then if client =? 0 then SERVER_MINID else SERVER_BIT else 0).

(** [dix/resource.c: GetXIDRange] *)
Definition GetXIDRange db (client : Z) (server : bool) : Z * Z :=
  let id := range_start db client server in
  let maxid := Z.lor id (RESOURCE_ID_MASK (LimitClients db)) in
  let '(id, maxid, _) :=
    fold_left (range_step db client) (mjoin (resources (table db client))) (id, maxid, 0) in
  if id >? maxid then (0, 0) else (id, maxid).

(** The recursive calls run when a counter came out as 0;
    [dix/resource.c: FakeClientID] *)
Fixpoint FakeClientID_rec (fuel : nat) db (client : Z) : outcome (Z * resdb V) :=
  match fuel with
  | O => Diverge
  | S fuel =>
      let c := table db client in
      let id := fakeID c in
      let db := set_table db client (c <| fakeID := u32 (id + 1) |>) in
      if id =? 0 then FakeClientID_rec fuel db client
      else if negb (id =? endFakeID c) then Ret (id, db)
      else
        let '(id, maxid) := GetXIDRange db client true in
        let finish id maxid db :=
          let db := set_table db client
            (table db client <| fakeID := u32 (id + 1) |> <| endFakeID := u32 (maxid + 1) |>) in
          if id =? 0 then FakeClientID_rec fuel db client else Ret (id, db) in
        if id =? 0 then
          if client =? 0 then FatalError
          else
            let db := db <| clientException ::= cons client |> in
            let id := Z.lor (u32 (Z.shiftl client (CLIENTOFFSET (LimitClients db))))
                            (u32 (SERVER_BIT * 3)) in
            finish id (Z.lor id (RESOURCE_ID_MASK (LimitClients db))) db
        else finish id maxid db
  end.
Definition FakeClientID db (client : Z) : outcome (Z * resdb V) := FakeClientID_rec 3 db client.

(** ** Adding *)

(** One resource of the old table goes to the tail of its new bucket. *)
Definition move_res (limit hs : Z) (t : list (list (ResourceRec V))) r :=
  let h := HashResourceID limit (res_id r) hs in
  zset t h (at_bucket t h ++ [r]).

(** [dix/resource.c: RebuildTable] *)
Definition RebuildTable (al : allocator) (k : nat) db (client : Z) : resdb V :=
  let c := table db client in
  let j := i32 (2 * buckets c) in
  if negb (al k (j * 8)) then db
  else if negb (al (S k) (j * 8)) then db
  else
    let hs := i32 (hashsize c + 1) in
    set_table db client
      (c <| hashsize := hs |>
         <| buckets := i32 (buckets c * 2) |>
         <| resources := fold_left (move_res (LimitClients db) hs) (mjoin (resources c))
                           (replicate (Z.to_nat j) []) |>).

(** [dix/resource.c: doFreeResource] *)
Definition doFreeResource db r (skip : bool) : outcome (resdb V) :=
  let db := log db ResourceStateFreeing r in
  if skip then Ret db
  else
    match znth (resourceTypes db) (Z.land (res_type r) (TypeMask db)) with
    | Some t => Ret (run (deleteFunc t) (res_value r) (res_id r) db)
    | None => Undefined
    end.

(** [dix/resource.c: AddResource] *)
Definition AddResource (al : allocator) db (id type : Z) (value : V) : outcome (bool * resdb V) :=
  let client := dixClientIdForXID (LimitClients db) id in
  let rrec := table db client in
  if buckets rrec =? 0 then FatalError
  else
    let db :=
      if (elements rrec >=? 4 * buckets rrec) && (hashsize rrec <? MAXHASHSIZE)
      then RebuildTable al 1 db client else db in
    if negb (al 0%nat 24) then
      match znth (resourceTypes db) (Z.land type (TypeMask db)) with
      | Some t => Ret (false, run (deleteFunc t) value id db)
      | None => Undefined
      end
    else
      let res := MkRes id type value in
      let h := hash db client id in
      let db := set_bucket db client h (res :: bucket db client h) in
      let db := add_elements db client 1 in
      Ret (true, log db ResourceStateAdding res).

(** ** Freeing *)

(** The links the loops hold stay valid while the bucket array is in place. *)
Definition same_array (c c' : ClientResourceRec V) : bool :=
  (buckets c =? buckets c') && (hashsize c =? hashsize c').

(** Unlink the [k]-th node of a bucket. *)
Definition unlink db (cid j : Z) (k : nat) : resdb V :=
  add_elements (set_bucket db cid j (delete k (bucket db cid j))) cid (-1).

(** The loop of [FreeResource]: [prev] is the link after [k] nodes.
    [dix/resource.c: FreeResource 915-934] *)
Definition free_step (cid j id skip : Z) (c0 : ClientResourceRec V)
    (st : resdb V * nat) : resdb V * nat + outcome (resdb V) :=
  let '(db, k) := st in
  if negb (same_array c0 (table db cid)) then inr Undefined
  else
    match bucket db cid j !! k with
    | None => inr (Ret db)
    | Some res =>
        if res_id res =? id then
          let db := unlink db cid j k in
          let n := elements (table db cid) in
          match doFreeResource db res (res_type res =? skip) with
          | Ret db => inl (db, if elements (table db cid) =? n then k else O)
          | o => inr o
          end
        else inl (db, S k)
    end.

(** [dix/resource.c: FreeResource] *)
Definition FreeResource db (id skipDeleteFuncType : Z) : outcome (resdb V) :=
  let cid := dixClientIdForXID (LimitClients db) id in
  if in_use db cid then
    run_loop (free_step cid (hash db cid id) id skipDeleteFuncType (table db cid)) TURNS (db, O)
  else Ret db.

(** First node of a bucket with this id and type, with its position. *)
Fixpoint find_pos (p : ResourceRec V -> bool) (l : list (ResourceRec V)) (k : nat)
  : option (nat * ResourceRec V) :=
  match l with
  | [] => None
  | r :: l' => if p r then Some (k, r) else find_pos p l' (S k)
  end.

(** [dix/resource.c: FreeResourceByType] *)
Definition FreeResourceByType db (id type : Z) (skipFree : bool) : outcome (resdb V) :=
  let cid := dixClientIdForXID (LimitClients db) id in
  if in_use db cid then
    let h := hash db cid id in
    match find_pos (fun r => (res_id r =? id) && (res_type r =? type)) (bucket db cid h) 0 with
    | Some (k, res) => doFreeResource (unlink db cid h k) res skipFree
    | None => Ret db
    end
  else Ret db.

(** [dix/resource.c: ChangeResourceValue] *)
Definition ChangeResourceValue db (id rtype : Z) (value : V) : bool * resdb V :=
  let cid := dixClientIdForXID (LimitClients db) id in
  if in_use db cid then
    let h := hash db cid id in
    let b := bucket db cid h in
    match find_pos (fun r => (res_id r =? id) && (res_type r =? rtype)) b 0 with
    | Some (k, res) => (true, set_bucket db cid h (<[k := res <| res_value := value |>]> b))
    | None => (false, db)
    end
  else (false, db).

(** ** Lookup *)

(** The result is the status, the value stored through the pointer, and the
    database with the client's [errorValue]; a null client is [None].
    [dix/resource.c: dixLookupResourceByType] *)
Definition dixLookupResourceByType db (id rtype : Z) (client : option Z) (mode : Z)
  : Z * option V * resdb V :=
  let cid := dixClientIdForXID (LimitClients db) id in
  if Z.land rtype (TypeMask db) >? lastResourceType db then (BadImplementation, None, db)
  else
    let res :=
      if in_use db cid then
        find_first (fun r => (res_id r =? id) && (res_type r =? rtype))
          (bucket db cid (hash db cid id))
      else None in
    let db := set_error db client id in
    let err :=
      match znth (resourceTypes db) (Z.land rtype (TypeMask db)) with
      | Some t => errorValue t
      | None => BadImplementation
      end in
    match res with
    | None => (err, None, db)
    | Some res =>
        match client with
        | Some c =>
            let rc := xace c id (res_type res) (res_value res) mode in
            if rc =? BadValue then (err, None, db)
            else if negb (rc =? Success) then (rc, None, db)
            else (Success, Some (res_value res), db)
        | None => (Success, Some (res_value res), db)
        end
    end.

(** [dix/resource.c: dixLookupResourceByClass] *)
Definition dixLookupResourceByClass db (id rclass : Z) (client : option Z) (mode : Z)
  : Z * option V * resdb V :=
  let cid := dixClientIdForXID (LimitClients db) id in
  let res :=
    if in_use db cid then
      find_first (fun r => (res_id r =? id) && negb (Z.land (res_type r) rclass =? 0))
        (bucket db cid (hash db cid id))
    else None in
  let db := set_error db client id in
  match res with
  | None => (BadValue, None, db)
  | Some res =>
      match client with
      | Some c =>
          let rc := xace c id (res_type res) (res_value res) mode in
          if negb (rc =? Success) then (rc, None, db)
          else (Success, Some (res_value res), db)
      | None => (Success, Some (res_value res), db)
      end
  end.

Definition DixGetAttrAccess : Z := 16.

(** [dix/resource.c: LegalNewID] *)
Definition LegalNewID db (id index clientAsMask : Z) : bool * resdb V :=
  let mask := RESOURCE_ID_MASK (LimitClients db) in
  let minid := Z.lor clientAsMask (if index =? 0 then SERVER_MINID else SERVER_BIT) in
  let maxid := u32 (Z.lor (fakeID (table db index)) mask + 1) in
  if negb (noPanoramiXExtension db) && ((id >=? minid) && (id <=? maxid)) then (true, db)
  else if clientAsMask =? Z.land id (u32 (Z.lnot mask)) then
    let '(rc, _, db) := dixLookupResourceByClass db id RC_ANY (Some 0) DixGetAttrAccess in
    (rc =? BadValue, db)
  else (false, db).

(** [dix/resource.c: GetXIDList] *)
Definition GetXIDList db (clientAsMask count : Z) : outcome (list Z * resdb V) :=
  let maxid := Z.lor clientAsMask (RESOURCE_ID_MASK (LimitClients db)) in
  run_loop
    (fun st : list Z * Z * resdb V =>
       let '(pids, id, db) := st in
       if (Z.of_nat (length pids) <? count) && (id <=? maxid) then
         let '(rc, _, db) := dixLookupResourceByClass db id RC_ANY (Some 0) DixGetAttrAccess in
         inl (if rc =? BadValue then pids ++ [id] else pids, u32 (id + 1), db)
       else inr (Ret (pids, db)))
    TURNS ([], clientAsMask, db).

(** ** Walking over a client's resources *)

(** The callback gets the value and the id, and the accumulated [cdata]. *)
Section Walk.
Context {C : Type}.

(** [this] is the [k]-th node of bucket [i]; after a callback that changed the
    number of elements the bucket is walked again from its head. *)
Definition walk_step (cid : Z) (sel : ResourceRec V -> bool)
    (func : ResourceRec V -> resdb V * C -> resdb V * C) (c0 : ClientResourceRec V)
    (st : resdb V * C * Z * nat) : resdb V * C * Z * nat + outcome (resdb V * C) :=
  let '(db, c, i, k) := st in
  if negb (same_array c0 (table db cid)) then inr Undefined
  else if i >=? buckets (table db cid) then inr (Ret (db, c))
  else
    match bucket db cid i !! k with
    | None => inl (db, c, i + 1, O)
    | Some this =>
        if sel this then
          let n := elements (table db cid) in
          let '(db, c) := func this (db, c) in
          inl (db, c, i, if elements (table db cid) =? n then S k else O)
        else inl (db, c, i, S k)
    end.

(** [dix/resource.c: FindClientResourcesByType] *)
Definition FindClientResourcesByType db (client : option Z) (type : Z)
    (func : ResourceRec V -> resdb V * C -> resdb V * C) (cdata : C) : outcome (resdb V * C) :=
  let cid := default 0 client in
  run_loop (walk_step cid (fun r => (type =? 0) || (res_type r =? type)) func (table db cid))
    TURNS (db, cdata, 0, O).

(** [dix/resource.c: FindAllClientResources] *)
Definition FindAllClientResources db (client : option Z)
    (func : ResourceRec V -> resdb V * C -> resdb V * C) (cdata : C) : outcome (resdb V * C) :=
  let cid := default 0 client in
  run_loop (walk_step cid (fun _ => true) func (table db cid)) TURNS (db, cdata, 0, O).
End Walk.

(** The callback only answers; [dix/resource.c: LookupClientResourceComplex] *)
Definition LookupClientResourceComplex db (client : option Z) (type : Z)
    (func : V -> Z -> bool) : option V :=
  let cid := default 0 client in
  res_value <$>
    find_first (fun r => ((type =? 0) || (res_type r =? type)) && func (res_value r) (res_id r))
      (mjoin (take (Z.to_nat (buckets (table db cid))) (resources (table db cid)))).

(** ** Client shutdown *)

Definition never_retain_step (cid : Z) (c0 : ClientResourceRec V)
    (st : resdb V * Z * nat) : resdb V * Z * nat + outcome (resdb V) :=
  let '(db, j, k) := st in
  if negb (same_array c0 (table db cid)) then inr Undefined
  else if j >=? buckets (table db cid) then inr (Ret db)
  else
    match bucket db cid j !! k with
    | None => inl (db, j + 1, O)
    | Some this =>
        if negb (Z.land (res_type this) RC_NEVERRETAIN =? 0) then
          let db := unlink db cid j k in
          let n := elements (table db cid) in
          match doFreeResource db this false with
          | Ret db => inl (db, j, if elements (table db cid) =? n then k else O)
          | o => inr o
          end
        else inl (db, j, S k)
    end.

(** [dix/resource.c: FreeClientNeverRetainResources] *)
Definition FreeClientNeverRetainResources db (client : option Z) : outcome (resdb V) :=
  match client with
  | None => Ret db
  | Some cid => run_loop (never_retain_step cid (table db cid)) TURNS (db, 0, O)
  end.

(** [HandleSaveSet] of another component. *)
Context (HandleSaveSet : Z -> resdb V -> resdb V).

(** One turn of the loops over the buckets and the head of each.
    [dix/resource.c: FreeClientResources 1132-1160] *)
Definition free_client_step (cid : Z) (c0 : ClientResourceRec V)
    (st : resdb V * Z) : resdb V * Z + outcome (resdb V) :=
  let '(db, j) := st in
  if negb (same_array c0 (table db cid)) then inr Undefined
  else if j >=? buckets (table db cid) then
    inr (Ret (set_table db cid (table db cid <| resources := [] |> <| buckets := 0 |>)))
  else
    match bucket db cid j with
    | [] => inl (db, j + 1)
    | this :: _ =>
        match doFreeResource (unlink db cid j 0) this false with
        | Ret db => inl (db, j)
        | o => inr o
        end
    end.

(** [dix/resource.c: FreeClientResources] *)
Definition FreeClientResources db (client : option Z) : outcome (resdb V) :=
  match client with
  | None => Ret db
  | Some cid =>
      let db := HandleSaveSet cid db in
      run_loop (free_client_step cid (table db cid)) TURNS (db, 0)
  end.

(** From client [n-1] down to 0. *)
Fixpoint free_all (n : nat) db : outcome (resdb V) :=
  match n with
  | O => Ret db
  | S n =>
      let i := Z.of_nat n in
      db <-- (if negb (buckets (table db i) =? 0) then FreeClientResources db (Some i) else Ret db);
      free_all n db
  end.

(** [dix/resource.c: FreeAllResources] *)
Definition FreeAllResources db (currentMaxClients : nat) : outcome (resdb V) :=
  free_all currentMaxClients db.

(** [dix/resource.c: dixAllocServerXID] *)
Definition dixAllocServerXID db : outcome (Z * resdb V) := FakeClientID db 0.
End Operations.

(** ** Hashing *)

(** The limits the command line accepts ([-maxclients]). *)
Definition valid_limit (l : Z) : Prop := l ∈ [64; 128; 256; 512; 1024; 2048].

Lemma valid_limit_offset l :
  valid_limit l -> ResourceClientBits l = Z.log2 l /\ 18 <= CLIENTOFFSET l <= 23.
Proof.
  unfold valid_limit. rewrite !elem_of_cons, elem_of_nil.
  intros [->|[->|[->|[->|[->|[->|[]]]]]]]; vm_compute; split; done.
Qed.

Lemma low_mask_ones n : 0 <= n < 32 -> low_mask n = Z.ones n.
Proof.
  intros Hn. assert (H : Forall (fun n => low_mask n = Z.ones n) (seqZ 0 32)).
  { apply (bool_decide_unpack _). vm_compute. done. }
  rewrite Forall_forall in H. apply H. apply elem_of_seqZ. lia.
Qed.

(** A hash always indexes inside a table of [2^numBits] buckets. *)
Theorem HashResourceID_range l id n :
  0 <= n < 32 -> 0 <= HashResourceID l id n < 2 ^ n.
Proof.
  intros Hn. unfold HashResourceID.
  assert (H : forall x, 0 <= Z.land x (low_mask n) < 2 ^ n).
  { intros x. rewrite low_mask_ones, Z.land_ones by lia. apply Z.mod_pos_bound. lia. }
  destruct (n <? 9); apply H.
Qed.
Lemma HashResourceID_range_witness : 0 <= 6 < 32 /\ 0 <= HashResourceID 256 0x00612345 6 < 2 ^ 6.
Proof. split; [lia|]. apply (HashResourceID_range 256 0x00612345 6). lia. Defined.

(** ** The invariant of a client's table *)

Section Invariant.
Context {V : Type}.
Implicit Types (db : resdb V) (r : ResourceRec V) (c : ClientResourceRec V).

Record cwf (limit : Z) c : Prop := {
  cwf_hs : INITHASHSIZE <= hashsize c <= MAXHASHSIZE;
  cwf_buckets : buckets c = 2 ^ hashsize c;
  cwf_len : Z.of_nat (length (resources c)) = buckets c;
  cwf_hash : hashed res_id (fun id => HashResourceID limit id (hashsize c)) (resources c);
  cwf_elements : elements c = Z.of_nat (length (mjoin (resources c)));
  cwf_int : elements c <= INT32_MAX
}.

Record dbwf db : Prop := {
  dbwf_limit : valid_limit (LimitClients db);
  dbwf_client : forall cid, buckets (table db cid) <> 0 -> cwf (LimitClients db) (table db cid)
}.

(** The resources registered under one id, in the order every lookup and every
    loop of the file sees them: the most recent first. *)
Definition tentries (limit : Z) c (id : Z) : list (ResourceRec V) :=
  filter (fun r => res_id r = id)
    (at_bucket (resources c) (HashResourceID limit id (hashsize c))).
Definition entries db (cid id : Z) : list (ResourceRec V) :=
  tentries (LimitClients db) (table db cid) id.

Lemma tentries_all limit c id :
  cwf limit c -> tentries limit c id = filter (fun r => res_id r = id) (mjoin (resources c)).
Proof. intros Hc. symmetry. apply (filter_mjoin res_id _ _ _ (cwf_hash _ _ Hc)). Qed.

Lemma hash_in_range limit c id :
  cwf limit c ->
  0 <= HashResourceID limit id (hashsize c) < Z.of_nat (length (resources c)).
Proof.
  intros Hc. rewrite (cwf_len _ _ Hc), (cwf_buckets _ _ Hc). apply HashResourceID_range.
  pose proof (cwf_hs _ _ Hc). unfold INITHASHSIZE, MAXHASHSIZE in *. lia.
Qed.

(** ** Rebuilding *)

(** The moving loop appends each resource to the bucket of its new hash. *)
Lemma move_all limit hs (l : list (ResourceRec V)) t :
  (forall id, 0 <= HashResourceID limit id hs < Z.of_nat (length t)) ->
  hashed res_id (fun id => HashResourceID limit id hs) t ->
  let t' := fold_left (move_res limit hs) l t in
  length t' = length t /\ hashed res_id (fun id => HashResourceID limit id hs) t' /\
  length (mjoin t') = (length (mjoin t) + length l)%nat /\
  forall j, 0 <= j ->
    at_bucket t' j = at_bucket t j ++ filter (fun r => HashResourceID limit (res_id r) hs = j) l.
Proof.
  revert t. induction l as [|r l IH]; intros t Hr Ht; cbn [fold_left].
  - split_and!; [done|done|cbn; lia|]. intros j _. cbn. by rewrite app_nil_r.
  - set (h := HashResourceID limit (res_id r) hs).
    assert (Hh := Hr (res_id r)). fold h in Hh.
    destruct (znth_Some t h Hh) as [b Hb].
    assert (Hat : at_bucket t h = b) by (unfold at_bucket; by rewrite Hb).
    assert (Ht1 : hashed res_id (fun id => HashResourceID limit id hs) (move_res limit hs t r)).
    { unfold move_res. fold h. rewrite Hat. apply hashed_zset; [done|done|].
      intros r' Hr'. apply elem_of_app in Hr' as [Hr'|Hr']; [by eapply Ht|].
      apply list_elem_of_singleton in Hr'. by subst. }
    assert (Hl1 : length (move_res limit hs t r) = length t) by apply length_zset.
    destruct (IH (move_res limit hs t r)) as (H1 & H2 & H3 & H4); [by rewrite Hl1|done|].
    split_and!; [congruence|done| |].
    + rewrite H3. unfold move_res. fold h. rewrite Hat.
      pose proof (Permutation_length (mjoin_zset_perm t h b (b ++ [r]) Hb)) as Hp.
      rewrite !length_app in Hp. cbn in *. lia.
    + intros j Hj. rewrite H4 by done. unfold move_res at 1. fold h.
      rewrite at_bucket_zset by done. rewrite filter_cons. fold h.
      case_decide as He; [|done]. subst j. by rewrite <- app_assoc.
Qed.

Lemma at_bucket_replicate n j : at_bucket (replicate n (@nil (ResourceRec V))) j = [].
Proof.
  unfold at_bucket, znth. destruct (j <? 0); [done|].
  destruct (replicate n [] !! Z.to_nat j) eqn:E; [|done].
  apply lookup_replicate in E as [-> _]. done.
Qed.

Lemma mjoin_replicate n : mjoin (replicate n (@nil (ResourceRec V))) = [].
Proof. induction n as [|n IH]; [done|]. cbn. apply IH. Qed.

Lemma RebuildTable_cwf al k db client :
  cwf (LimitClients db) (table db client) -> hashsize (table db client) < MAXHASHSIZE ->
  let db' := RebuildTable al k db client in
  cwf (LimitClients db') (table db' client) /\
  (forall id, entries db' client id = entries db client id) /\
  elements (table db' client) = elements (table db client) /\
  (forall cid, cid <> client -> table db' cid = table db cid) /\
  LimitClients db' = LimitClients db.
Proof.
  intros Hc Hhs db'. unfold db', RebuildTable. clear db'.
  destruct (al k _), (al (S k) _); cbn [negb]; try done.
  set (c := table db client) in *.
  pose proof (cwf_hs _ _ Hc) as Hh. unfold INITHASHSIZE, MAXHASHSIZE in *.
  assert (Hb : buckets c <= 2 ^ 15).
  { rewrite (cwf_buckets _ _ Hc). apply Z.pow_le_mono_r; lia. }
  assert (0 < buckets c) by (rewrite (cwf_buckets _ _ Hc); lia).
  rewrite !i32_small by lia.
  set (hs := hashsize c + 1).
  assert (Hpow : 2 ^ hs = 2 * buckets c).
  { unfold hs. rewrite Z.pow_add_r, (cwf_buckets _ _ Hc) by lia. lia. }
  set (t0 := replicate (Z.to_nat (2 * buckets c)) (@nil (ResourceRec V))).
  assert (Hlen0 : Z.of_nat (length t0) = 2 ^ hs).
  { unfold t0. rewrite length_replicate. lia. }
  destruct (move_all (LimitClients db) hs (mjoin (resources c)) t0) as (H1 & H2 & H3 & H4).
  { intros id. rewrite Hlen0. apply HashResourceID_range. unfold hs. lia. }
  { intros j b r Hj Hr. assert (at_bucket t0 j = b) as <- by (unfold at_bucket; by rewrite Hj).
    unfold t0 in Hr. rewrite at_bucket_replicate in Hr. by apply not_elem_of_nil in Hr. }
  set (t := fold_left _ _ _) in *.
  unfold entries, table, set_table in *. cbn. rewrite lookup_insert_eq. cbn. fold c.
  split_and!; try done.
  - constructor; cbn; try (apply Hc || done); try lia.
    + unfold INITHASHSIZE, MAXHASHSIZE, hs. lia.
    + rewrite H3. unfold t0. rewrite mjoin_replicate. cbn. apply Hc.
  - intros id. unfold tentries at 1. cbn. rewrite H4 by (apply HashResourceID_range; unfold hs; lia).
    unfold t0. rewrite at_bucket_replicate. cbn [app].
    fold (tentries (LimitClients db) c id). rewrite (tentries_all _ _ _ Hc), list_filter_filter.
    apply list_filter_iff. intros r. split; [by intros []|]. by intros ->.
  - intros c' Hne. by rewrite lookup_insert_ne.
Qed.

(** Rehashing is invisible: a rebuilt table is well-formed and shows, for
    every id, the same resources in the same order as before. *)
Theorem RebuildTable_refines al k db client :
  dbwf db -> buckets (table db client) <> 0 -> hashsize (table db client) < MAXHASHSIZE ->
  let db' := RebuildTable al k db client in
  dbwf db' /\ (forall cid id, entries db' cid id = entries db cid id) /\
  (al k (i32 (2 * buckets (table db client)) * 8) = true ->
   al (S k) (i32 (2 * buckets (table db client)) * 8) = true ->
   hashsize (table db' client) = hashsize (table db client) + 1).
Proof.
  intros [Hl Hcl] Hb Hhs db'.
  destruct (RebuildTable_cwf al k db client (Hcl _ Hb) Hhs) as (H1 & H2 & H3 & H4 & H5).
  fold db' in H1, H2, H3, H4, H5.
  split; [|split].
  - constructor; [by rewrite H5|]. intros cid Hbc. destruct (decide (cid = client)) as [->|Hne]; [done|].
    rewrite H5, H4 by done. apply Hcl. by rewrite <- H4.
  - intros cid id. destruct (decide (cid = client)) as [->|Hne]; [apply H2|].
    unfold entries. by rewrite H4, H5.
  - intros Ha1 Ha2. unfold db', RebuildTable. rewrite Ha1, Ha2. cbn [negb].
    unfold table, set_table. cbn. rewrite lookup_insert_eq. cbn.
    pose proof (cwf_hs _ _ (Hcl _ Hb)). unfold INITHASHSIZE, MAXHASHSIZE, table in *.
    rewrite i32_small; lia.
Qed.
End Invariant.

(** ** Changing one bucket *)

Section Updates.
Context {V : Type}.
Implicit Types (db : resdb V) (r : ResourceRec V) (c : ClientResourceRec V).

Definition tput c (j : Z) (l : list (ResourceRec V)) (n : Z) : ClientResourceRec V :=
  c <| resources ::= fun t => zset t j l |> <| elements ::= fun e => i32 (e + n) |>.

Lemma tput_cwf limit c j l n :
  cwf limit c -> 0 <= j < Z.of_nat (length (resources c)) ->
  (forall r, r ∈ l -> HashResourceID limit (res_id r) (hashsize c) = j) ->
  Z.of_nat (length l) = Z.of_nat (length (at_bucket (resources c) j)) + n ->
  elements c + n <= INT32_MAX ->
  cwf limit (tput c j l n).
Proof.
  intros Hc Hj Hl Hn Hmax. destruct (znth_Some _ _ Hj) as [b Hb].
  assert (Hat : at_bucket (resources c) j = b) by (unfold at_bucket; by rewrite Hb).
  pose proof (Permutation_length (mjoin_zset_perm _ j b l Hb)) as Hp. rewrite !length_app in Hp.
  pose proof (cwf_elements _ _ Hc) as He. rewrite Hat in Hn.
  assert (Hi : i32 (elements c + n) = elements c + n) by (apply i32_small; unfold INT32_MAX in *; lia).
  constructor; cbn; try apply Hc.
  - rewrite length_zset. apply Hc.
  - apply hashed_zset; [apply Hc|done|done].
  - rewrite Hi. lia.
  - by rewrite Hi.
Qed.

Lemma tput_tentries limit c j l n id :
  cwf limit c -> 0 <= j < Z.of_nat (length (resources c)) ->
  tentries limit (tput c j l n) id =
  if decide (HashResourceID limit id (hashsize c) = j) then filter (fun r => res_id r = id) l
  else tentries limit c id.
Proof.
  intros Hc Hj. unfold tentries, tput. cbn.
  pose proof (hash_in_range limit c id Hc). rewrite at_bucket_zset by (done || lia).
  do 2 case_decide; congruence || done.
Qed.

Lemma table_set db cid c cid' :
  table (set_table db cid c) cid' = if decide (cid = cid') then c else table db cid'.
Proof.
  unfold table, set_table. cbn. case_decide as H.
  - subst. by rewrite lookup_insert_eq.
  - by rewrite lookup_insert_ne.
Qed.

Lemma unlink_table db cid j k :
  unlink db cid j k = set_table db cid (tput (table db cid) j (delete k (bucket db cid j)) (-1)).
Proof.
  unfold unlink, add_elements, set_bucket. rewrite table_set, decide_True by done.
  unfold set_table, tput. destruct db. cbn. by rewrite insert_insert_eq.
Qed.
Lemma add_table db cid j l :
  add_elements (set_bucket db cid j l) cid 1 = set_table db cid (tput (table db cid) j l 1).
Proof.
  unfold add_elements, set_bucket. rewrite table_set, decide_True by done.
  unfold set_table, tput. destruct db. cbn. by rewrite insert_insert_eq.
Qed.

Lemma dbwf_set db cid c :
  dbwf db -> (buckets c <> 0 -> cwf (LimitClients db) c) -> dbwf (set_table db cid c).
Proof.
  intros [Hl Hc] H. constructor; [done|]. intros cid'. cbn [LimitClients set_table].
  rewrite table_set. case_decide; [done|]. apply Hc.
Qed.

(** Facts that only look at the tables. *)
Lemma dbwf_ext db db' :
  LimitClients db' = LimitClients db -> (forall cid, table db' cid = table db cid) ->
  dbwf db -> dbwf db'.
Proof. intros Hl Ht [H1 H2]. constructor; [by rewrite Hl|]. intros cid. rewrite Ht, Hl. apply H2. Qed.

(** ** AddResource *)
Context (run : DeleteType -> V -> Z -> resdb V -> resdb V).

Lemma AddResource_tables al db id type v :
  let cid := dixClientIdForXID (LimitClients db) id in
  dbwf db -> buckets (table db cid) <> 0 -> elements (table db cid) < INT32_MAX ->
  al 0%nat 24 = true ->
  exists db', AddResource run al db id type v = Ret (true, db') /\
    dbwf db' /\ LimitClients db' = LimitClients db /\
    (forall (q i : Z), entries db' q i =
       if decide (q = cid /\ i = id) then MkRes id type v :: entries db q i else entries db q i) /\
    trace db' = trace db ++ [(ResourceStateAdding, MkRes id type v)] /\
    resourceTypes db' = resourceTypes db /\ TypeMask db' = TypeMask db /\
    lastResourceType db' = lastResourceType db /\ buckets (table db' cid) <> 0 /\
    (forall q : Z, buckets (table db q) <> 0 -> buckets (table db' q) <> 0).
Proof.
  intros cid Hwf Hb He Ha. unfold AddResource. fold cid.
  destruct (Z.eqb_spec (buckets (table db cid)) 0) as [|_]; [done|]. rewrite Ha. cbn [negb].
  set (db1 := if (elements (table db cid) >=? 4 * buckets (table db cid)) &&
                 (hashsize (table db cid) <? MAXHASHSIZE) then RebuildTable al 1 db cid else db).
  assert (H1 : dbwf db1 /\ (forall (q i : Z), entries db1 q i = entries db q i) /\
    elements (table db1 cid) = elements (table db cid) /\ buckets (table db1 cid) <> 0 /\
    LimitClients db1 = LimitClients db /\ trace db1 = trace db /\
    resourceTypes db1 = resourceTypes db /\ TypeMask db1 = TypeMask db /\
    lastResourceType db1 = lastResourceType db /\
    (forall q : Z, q <> cid -> table db1 q = table db q)).
  { unfold db1. destruct (_ && _) eqn:Hcond; [|by split_and!]. breflect.
    destruct (RebuildTable_refines al 1 db cid Hwf Hb ltac:(lia)) as (H2 & H3 & _).
    destruct (RebuildTable_cwf al 1 db cid (dbwf_client _ Hwf _ Hb) ltac:(lia)) as (H4 & _ & H5 & H7 & H6).
    split_and!; try done.
    - rewrite (cwf_buckets _ _ H4). pose proof (cwf_hs _ _ H4). unfold INITHASHSIZE in *.
      apply Z.pow_nonzero; lia.
    - unfold RebuildTable. by destruct (al 1%nat _), (al 2%nat _).
    - unfold RebuildTable. by destruct (al 1%nat _), (al 2%nat _).
    - unfold RebuildTable. by destruct (al 1%nat _), (al 2%nat _).
    - unfold RebuildTable. by destruct (al 1%nat _), (al 2%nat _). }
  clearbody db1. destruct H1 as (Hwf1 & Hent & Hel & Hb1 & Hlim & Htr & Hrt & Htm & Hlt & Hoth).
  pose proof (dbwf_client _ Hwf1 _ Hb1) as Hc1.
  rewrite add_table. eexists. split; [reflexivity|].
  set (h := hash db1 cid id). set (l := MkRes id type v :: bucket db1 cid h).
  assert (Hh : 0 <= h < Z.of_nat (length (resources (table db1 cid)))) by (by apply hash_in_range).
  assert (Hput : cwf (LimitClients db1) (tput (table db1 cid) h l 1)).
  { apply tput_cwf; try done.
    - intros r [->|Hr]%elem_of_cons; [done|].
      apply (cwf_hash _ _ Hc1 h (bucket db1 cid h)); [|done].
      destruct (znth_Some _ _ Hh) as [b Hbk]. unfold bucket, at_bucket. by rewrite Hbk.
    - unfold l, bucket. cbn [length]. lia.
    - lia. }
  split_and!; cbn; try done; try congruence.
  - apply (dbwf_ext (set_table db1 cid (tput (table db1 cid) h l 1))); try done.
    by apply dbwf_set.
  - intros q i. unfold entries. cbn [LimitClients log set_table].
    change (table (log _ _ _) q) with (table (set_table db1 cid (tput (table db1 cid) h l 1)) q).
    rewrite table_set. unfold entries in Hent. rewrite <- (Hent q i).
    destruct (decide (cid = q)) as [<-|Hne].
    + rewrite (tput_tentries _ _ _ _ _ _ Hc1 Hh). unfold h, hash.
      destruct (decide (i = id)) as [->|Hi].
      * rewrite !decide_True by done. unfold l. rewrite filter_cons_True by done.
        unfold bucket, hash. done.
      * rewrite (decide_False (P := (cid = cid /\ i = id))) by tauto.
        case_decide as Hhi; [|done]. unfold l. rewrite filter_cons_False by (cbn; congruence).
        unfold tentries. rewrite Hhi. done.
    + rewrite decide_False; [done|]. intros [? ?]. congruence.
  - change (table (log _ _ _) cid) with (table (set_table db1 cid (tput (table db1 cid) h l 1)) cid).
    rewrite table_set, decide_True by done. done.
  - intros q Hq.
    change (table (log _ _ _) q) with (table (set_table db1 cid (tput (table db1 cid) h l 1)) q).
    rewrite table_set. case_decide; [done|]. by rewrite Hoth.
Qed.
End Updates.

(** ** Databases that only lost resources

    Delete functions free other resources (destroying a window frees its
    subwindows): [shrinks db db'] is what such a function may do.  Buckets only
    lose nodes, and each lost resource was announced to the callbacks. *)
Section Shrinking.
Context {V : Type}.
Implicit Types (db : resdb V) (r : ResourceRec V) (c : ClientResourceRec V).

Record shrinks db db' : Prop := {
  sh_limit : LimitClients db' = LimitClients db;
  sh_types : resourceTypes db' = resourceTypes db;
  sh_mask : TypeMask db' = TypeMask db;
  sh_wf : dbwf db -> dbwf db';
  sh_tables : forall cid, Forall2 sublist (resources (table db' cid)) (resources (table db cid));
  sh_array : forall cid, buckets (table db' cid) = buckets (table db cid) /\
                         hashsize (table db' cid) = hashsize (table db cid);
  sh_freed : forall cid r, r ∈ mjoin (resources (table db cid)) ->
    r ∈ mjoin (resources (table db' cid)) \/ (ResourceStateFreeing, r) ∈ trace db';
  sh_trace : trace db `prefix_of` trace db'
}.

Lemma sublists_refl (t : list (list (ResourceRec V))) : Forall2 sublist t t.
Proof. induction t; by constructor. Qed.

Lemma sublists_trans (t1 t2 t3 : list (list (ResourceRec V))) :
  Forall2 sublist t1 t2 -> Forall2 sublist t2 t3 -> Forall2 sublist t1 t3.
Proof.
  intros H. revert t3. induction H; intros t3 H3; inversion H3; subst; constructor; [|auto].
  by etrans.
Qed.

#[export] Instance shrinks_preorder : PreOrder shrinks.
Proof.
  split.
  - intros db. constructor; try done; intros; by (apply sublists_refl || left).
  - intros db1 db2 db3 H1 H2. constructor.
    + rewrite (sh_limit _ _ H2). apply H1.
    + rewrite (sh_types _ _ H2). apply H1.
    + rewrite (sh_mask _ _ H2). apply H1.
    + intros Hwf. by apply H2, H1.
    + intros cid. eapply sublists_trans; [apply H2|apply H1].
    + intros cid. destruct (sh_array _ _ H2 cid) as [-> ->]. apply H1.
    + intros cid r Hr. destruct (sh_freed _ _ H1 cid r Hr) as [Hr'|Ht].
      * by apply H2.
      * right. by eapply elem_of_prefix, H2.
    + etrans; [apply H1|apply H2].
Qed.

Lemma sublist_same_length (l l' : list (ResourceRec V)) :
  l' `sublist_of` l -> length l' = length l -> l' = l.
Proof.
  induction 1 as [|x l1 l2 Hs IH|x l1 l2 Hs IH]; cbn; intros H; [done| |].
  - f_equal. apply IH. lia.
  - apply sublist_length in Hs. lia.
Qed.

Lemma sublists_length (t t' : list (list (ResourceRec V))) :
  Forall2 sublist t' t ->
  (length (mjoin t') <= length (mjoin t))%nat /\
  (length (mjoin t') = length (mjoin t) -> t' = t).
Proof.
  induction 1 as [|b' b t' t Hb _ [IH1 IH2]]; [done|].
  pose proof (sublist_length _ _ Hb). rewrite !mjoin_cons, !length_app. split; [lia|].
  intros Heq. rewrite IH2 by lia. f_equal. apply sublist_same_length; [done|lia].
Qed.

Lemma at_bucket_sublist (t t' : list (list (ResourceRec V))) j :
  Forall2 sublist t' t -> at_bucket t' j `sublist_of` at_bucket t j.
Proof.
  intros H. unfold at_bucket, znth. destruct (j <? 0); [done|].
  destruct (t' !! Z.to_nat j) as [b'|] eqn:E; cbn.
  - destruct (Forall2_lookup_l _ _ _ _ _ H E) as (b & -> & Hb). done.
  - destruct (t !! Z.to_nat j) as [b|]; cbn; [apply sublist_nil_l|done].
Qed.

(** An unchanged element count means an unchanged table. *)
Lemma shrinks_same db db' cid :
  dbwf db -> shrinks db db' -> buckets (table db cid) <> 0 ->
  elements (table db' cid) = elements (table db cid) ->
  resources (table db' cid) = resources (table db cid).
Proof.
  intros Hwf Hs Hb He. apply (sublists_length _ _ (sh_tables _ _ Hs cid)).
  assert (Hb' : buckets (table db' cid) <> 0) by (by destruct (sh_array _ _ Hs cid) as [-> _]).
  pose proof (cwf_elements _ _ (dbwf_client _ Hwf _ Hb)).
  pose proof (cwf_elements _ _ (dbwf_client _ (sh_wf _ _ Hs Hwf) _ Hb')). lia.
Qed.

Lemma shrinks_same_array db db' cid :
  shrinks db db' -> same_array (table db cid) (table db' cid) = true.
Proof.
  intros Hs. unfold same_array. destruct (sh_array _ _ Hs cid) as [-> ->].
  by rewrite !Z.eqb_refl.
Qed.

Lemma elem_of_delete_or (b : list (ResourceRec V)) k r r' :
  b !! k = Some r -> r' ∈ b -> r' = r \/ r' ∈ delete k b.
Proof.
  intros Hk Hr. rewrite delete_take_drop, elem_of_app.
  rewrite <- (take_drop_middle b k r Hk), elem_of_app, elem_of_cons in Hr. tauto.
Qed.

(** Unlinking a node and announcing it. *)
Lemma unlink_shrinks db cid j k r :
  buckets (table db cid) <> 0 -> dbwf db -> bucket db cid j !! k = Some r ->
  shrinks db (log (unlink db cid j k) ResourceStateFreeing r).
Proof.
  intros Hb Hwf Hk. pose proof (dbwf_client _ Hwf _ Hb) as Hc.
  unfold bucket, at_bucket in Hk. destruct (znth _ j) as [b|] eqn:Hbj; [|done]. cbn in Hk.
  assert (Hj := znth_lt _ _ _ Hbj).
  assert (Hbk : bucket db cid j = b) by (unfold bucket, at_bucket; by rewrite Hbj).
  rewrite unlink_table, Hbk.
  set (c' := tput _ _ _ _).
  assert (Hlen := lookup_lt_Some _ _ _ Hk).
  pose proof (length_delete b k ltac:(by eexists)) as Hdel.
  assert (Hp := mjoin_zset_perm _ j b (delete k b) Hbj).
  assert (Hc' : cwf (LimitClients db) c').
  { apply tput_cwf; try done.
    - intros r' Hr'. apply (cwf_hash _ _ Hc j b r' Hbj).
      eapply elem_of_submseteq; [exact Hr'|]. apply sublist_submseteq, sublist_delete.
    - unfold bucket in Hbk. rewrite Hbk. lia.
    - pose proof (cwf_int _ _ Hc). lia. }
  assert (Htab : forall q, table (log (set_table db cid c') ResourceStateFreeing r) q
                 = if decide (cid = q) then c' else table db q).
  { intros q. exact (table_set db cid c' q). }
  constructor; try done; cbn.
  - intros _. apply (dbwf_ext (set_table db cid c')); [done|done|]. by apply dbwf_set.
  - intros q. rewrite Htab. case_decide as Hq.
    + subst q. unfold c', tput. cbn. apply Forall2_same_length_lookup_2; [by rewrite length_zset|].
      intros i x y Hx Hy. unfold zset in Hx. destruct (Z.ltb_spec j 0); [lia|].
      unfold znth in Hbj. destruct (Z.ltb_spec j 0); [lia|].
      destruct (decide (Z.to_nat j = i)) as [<-|Hne].
      * rewrite list_lookup_insert_eq in Hx by lia. simplify_eq. apply sublist_delete.
      * rewrite list_lookup_insert_ne in Hx by done. by simplify_eq.
    + apply sublists_refl.
  - intros q. rewrite Htab. case_decide; [|done]. by subst.
  - intros q r' Hr'. rewrite Htab. case_decide; [|by left]. subst q.
    unfold c', tput. cbn.
    assert (Hin : r' ∈ mjoin (zset (resources (table db cid)) j (delete k b)) ++ b).
    { rewrite Hp. apply elem_of_app. by left. }
    apply elem_of_app in Hin as [Hin|Hin]; [by left|].
    destruct (elem_of_delete_or b k r r' Hk Hin) as [->|Hin'].
    + right. apply elem_of_app. right. left.
    + left. apply list_elem_of_join. exists (delete k b). split; [done|].
      unfold zset. destruct (Z.ltb_spec j 0); [lia|]. apply list_elem_of_insert. lia.
  - by eexists.
Qed.
End Shrinking.

(** ** Freeing *)
Section Freeing.
Context {V : Type}.
Implicit Types (db : resdb V) (r : ResourceRec V).

(** Every registered resource has a type the server knows. *)
Definition typed db : Prop :=
  forall cid r, r ∈ mjoin (resources (table db cid)) ->
    is_Some (znth (resourceTypes db) (Z.land (res_type r) (TypeMask db))).

Lemma sublists_elem (t t' : list (list (ResourceRec V))) r :
  Forall2 sublist t' t -> r ∈ mjoin t' -> r ∈ mjoin t.
Proof.
  intros H (b' & Hr & Hb)%list_elem_of_join. apply list_elem_of_lookup in Hb as [i Hi].
  destruct (Forall2_lookup_l _ _ _ _ _ H Hi) as (b & Hb & Hs).
  apply list_elem_of_join. exists b. split; [|by eapply list_elem_of_lookup_2].
  eapply elem_of_submseteq; [done|by apply sublist_submseteq].
Qed.

Lemma shrinks_typed db db' : shrinks db db' -> typed db -> typed db'.
Proof.
  intros Hs Ht cid r Hr. rewrite (sh_types _ _ Hs), (sh_mask _ _ Hs). apply (Ht cid).
  eapply sublists_elem; [apply Hs|done].
Qed.

Lemma bucket_elem db cid j k r :
  bucket db cid j !! k = Some r -> r ∈ mjoin (resources (table db cid)).
Proof.
  unfold bucket, at_bucket, znth. destruct (j <? 0); [done|].
  destruct (_ !! Z.to_nat j) as [b|] eqn:E; [|done]. cbn. intros Hk.
  apply list_elem_of_join. exists b. split; by eapply list_elem_of_lookup_2.
Qed.

(** Delete functions only free. *)
Context (run : DeleteType -> V -> Z -> resdb V -> resdb V).
Hypothesis run_shrinks : forall f v id db, dbwf db -> typed db -> shrinks db (run f v id db).

(** Unlinking a node and running its delete function. *)
Lemma unlink_doFree db cid j k r skip :
  dbwf db -> typed db -> buckets (table db cid) <> 0 -> bucket db cid j !! k = Some r ->
  exists db', doFreeResource run (unlink db cid j k) r skip = Ret db' /\
    shrinks db db' /\
    shrinks (log (unlink db cid j k) ResourceStateFreeing r) db'.
Proof.
  intros Hwf Hty Hb Hk. pose proof (unlink_shrinks db cid j k r Hb Hwf Hk) as H1.
  unfold doFreeResource. destruct skip; [by eexists|].
  destruct (Hty cid r (bucket_elem _ _ _ _ _ Hk)) as [t Ht].
  rewrite <- (sh_types _ _ H1), <- (sh_mask _ _ H1) in Ht. rewrite Ht.
  eexists. split; [done|].
  pose proof (run_shrinks (deleteFunc t) (res_value r) (res_id r) _ (sh_wf _ _ H1 Hwf)
    (shrinks_typed _ _ H1 Hty)) as H2.
  split; [|done]. by etrans.
Qed.

Lemma bucket_length db cid j :
  dbwf db -> buckets (table db cid) <> 0 ->
  Z.of_nat (length (bucket db cid j)) <= elements (table db cid) <= INT32_MAX.
Proof.
  intros Hwf Hb. pose proof (dbwf_client _ Hwf _ Hb) as Hc.
  split; [|apply Hc]. rewrite (cwf_elements _ _ Hc).
  unfold bucket, at_bucket, znth. destruct (j <? 0); [cbn; lia|].
  destruct (_ !! Z.to_nat j) as [b|] eqn:E; cbn; [|lia].
  rewrite <- (take_drop_middle _ _ _ E), join_app, mjoin_cons, !length_app. lia.
Qed.

Lemma bucket_unlink db cid j k r q :
  dbwf db -> buckets (table db cid) <> 0 -> bucket db cid j !! k = Some r -> 0 <= q ->
  bucket (log (unlink db cid j k) ResourceStateFreeing r) cid q =
  if decide (j = q) then delete k (bucket db cid j) else bucket db cid q.
Proof.
  intros Hwf Hb Hk Hq. rewrite unlink_table.
  assert (Hj : 0 <= j < Z.of_nat (length (resources (table db cid)))).
  { unfold bucket, at_bucket in Hk. destruct (znth _ j) eqn:E; [|done]. by eapply znth_lt. }
  unfold bucket at 1.
  change (table (log ?d _ _) cid) with (table d cid). rewrite table_set, decide_True by done.
  unfold tput. cbn. by rewrite at_bucket_zset.
Qed.

Lemma elements_unlink db cid j k r :
  dbwf db -> buckets (table db cid) <> 0 -> bucket db cid j !! k = Some r ->
  elements (table (log (unlink db cid j k) ResourceStateFreeing r) cid) =
  elements (table db cid) - 1.
Proof.
  intros Hwf Hb Hk. pose proof (bucket_length db cid j Hwf Hb) as Hlen.
  apply lookup_lt_Some in Hk as Hlt. rewrite unlink_table.
  change (table (log ?d _ _) cid) with (table d cid). rewrite table_set, decide_True by done.
  unfold tput. cbn. rewrite i32_small; unfold INT32_MAX in *; lia.
Qed.

(** What is left of a bucket after its [k]-th node was freed. *)
Lemma freed_bucket db db' cid j k r :
  dbwf db -> buckets (table db cid) <> 0 -> bucket db cid j !! k = Some r ->
  shrinks (log (unlink db cid j k) ResourceStateFreeing r) db' -> 0 <= j ->
  (length (bucket db' cid j) < length (bucket db cid j))%nat /\
  (elements (table db' cid) = elements (table db cid) - 1 ->
   bucket db' cid j = delete k (bucket db cid j)).
Proof.
  intros Hwf Hb Hk Hs Hj. set (db1 := log _ _ _) in *.
  assert (Hb1 : bucket db1 cid j = delete k (bucket db cid j)).
  { unfold db1. rewrite (bucket_unlink _ _ _ _ _ _ Hwf Hb Hk Hj). by rewrite decide_True. }
  pose proof (unlink_shrinks _ _ _ _ _ Hb Hwf Hk) as Hs1. fold db1 in Hs1.
  split.
  - pose proof (sublist_length _ _ (at_bucket_sublist _ _ j (sh_tables _ _ Hs cid))) as Hl.
    change (length (bucket db' cid j) <= length (bucket db1 cid j))%nat in Hl.
    rewrite Hb1, length_delete in Hl by eauto. apply lookup_lt_Some in Hk. lia.
  - intros He. rewrite <- Hb1. unfold bucket. f_equal.
    apply shrinks_same; [by apply Hs1|done|by destruct (sh_array _ _ Hs1 cid) as [-> _]|].
    unfold db1. by rewrite (elements_unlink _ _ _ _ _ Hwf Hb Hk).
Qed.

(** The position in the bucket decreases the measure only together with its
    length, which every restart has decreased. *)
Definition scan_measure (len k : nat) : Z :=
  Z.of_nat len * 2147483648 + (Z.of_nat len - Z.of_nat k).

Lemma scan_measure_restart len len' k k' :
  (len' < len)%nat -> (k < len)%nat -> (k' <= len')%nat -> Z.of_nat len <= INT32_MAX ->
  0 <= scan_measure len' k' < scan_measure len k.
Proof. unfold scan_measure, INT32_MAX. nia. Qed.

Definition scanning db0 cid j id (st : resdb V * nat) : Prop :=
  let '(db, k) := st in
  dbwf db /\ typed db /\ shrinks db0 db /\ (k <= length (bucket db cid j))%nat /\
  Forall (fun r => res_id r <> id) (take k (bucket db cid j)).

Lemma free_step_spec db0 cid j id skip (st : resdb V * nat) :
  buckets (table db0 cid) <> 0 -> 0 <= j -> scanning db0 cid j id st ->
  let m st := scan_measure (length (bucket st.1 cid j)) st.2 in
  match free_step run cid j id skip (table db0 cid) st with
  | inl st' => scanning db0 cid j id st' /\ 0 <= m st' < m st
  | inr (Ret db) => dbwf db /\ shrinks db0 db /\
                    Forall (fun r => res_id r <> id) (bucket db cid j)
  | inr _ => False
  end.
Proof.
  destruct st as [db k]. intros Hb0 Hj (Hwf & Hty & Hs & Hk & Hall) m. unfold free_step.
  rewrite (shrinks_same_array _ _ cid Hs). cbn [negb].
  assert (Hb : buckets (table db cid) <> 0) by (by destruct (sh_array _ _ Hs cid) as [-> _]).
  destruct (bucket db cid j !! k) as [res|] eqn:Hres.
  2:{ apply lookup_ge_None in Hres. split; [done|split; [done|]]. by rewrite take_ge in Hall. }
  pose proof (bucket_length db cid j Hwf Hb) as Hlen.
  pose proof (lookup_lt_Some _ _ _ Hres) as Hlt.
  destruct (Z.eqb_spec (res_id res) id) as [Hid|Hid].
  - destruct (unlink_doFree db cid j k res (res_type res =? skip) Hwf Hty Hb Hres)
      as (db' & -> & Hs1 & Hs2).
    destruct (freed_bucket db db' cid j k res Hwf Hb Hres Hs2 Hj) as [Hl He].
    assert (Hn : elements (table (unlink db cid j k) cid) = elements (table db cid) - 1).
    { rewrite <- (elements_unlink db cid j k res Hwf Hb Hres). done. }
    rewrite Hn. destruct (Z.eqb_spec (elements (table db' cid)) (elements (table db cid) - 1)) as [E|E].
    + specialize (He E). rewrite He, length_delete in Hl by eauto. split.
      * split_and!; [by apply Hs1|by apply (shrinks_typed db)|by trans db| |].
        -- rewrite He, length_delete by eauto. lia.
        -- rewrite He. by rewrite delete_take_drop, take_app_length' by (rewrite length_take; lia).
      * unfold m. cbn. rewrite He, length_delete by eauto. apply scan_measure_restart; lia.
    + split; [split_and!; [by apply Hs1|by apply (shrinks_typed db)|by trans db|lia|done]|].
      apply scan_measure_restart; cbn; lia.
  - split; [|unfold m, scan_measure; cbn; lia].
    split_and!; try done. rewrite (take_S_r _ _ _ Hres), Forall_app. by split; [|constructor].
Qed.

Lemma in_use_buckets db cid : in_use db cid = true -> buckets (table db cid) <> 0.
Proof. unfold in_use. intros H. breflect. done. Qed.

Lemma hash_nonneg db cid id :
  dbwf db -> buckets (table db cid) <> 0 -> 0 <= hash db cid id.
Proof. intros Hwf Hb. apply (hash_in_range _ _ id (dbwf_client _ Hwf _ Hb)). Qed.

Lemma FreeResource_total db id skip :
  dbwf db -> typed db ->
  exists db', FreeResource run db id skip = Ret db' /\ shrinks db db' /\
    (in_use db (dixClientIdForXID (LimitClients db) id) = true ->
     entries db' (dixClientIdForXID (LimitClients db) id) id = []).
Proof.
  intros Hwf Hty. set (cid := dixClientIdForXID (LimitClients db) id).
  unfold FreeResource. fold cid. destruct (in_use db cid) eqn:Huse; [|by eexists].
  pose proof (in_use_buckets _ _ Huse) as Hb.
  set (j := hash db cid id). assert (Hj : 0 <= j) by by apply hash_nonneg.
  destruct (run_loop_total (free_step run cid j id skip (table db cid)) (scanning db cid j id)
    (fun a => dbwf a /\ shrinks db a /\ Forall (fun r => res_id r <> id) (bucket a cid j))
    (fun st => scan_measure (length (bucket st.1 cid j)) st.2) TURNS (db, O))
    as (a & Ha & Hwfa & Hsa & Hall).
  - intros st Hst. by apply free_step_spec.
  - split_and!; try done; try lia.
  - unfold scan_measure, TURNS. cbn. pose proof (bucket_length db cid j Hwf Hb).
    unfold INT32_MAX in *. nia.
  - exists a. split_and!; [done..|]. intros _. unfold entries, tentries. rewrite (sh_limit _ _ Hsa).
    destruct (sh_array _ _ Hsa cid) as [_ ->]. apply filter_none. intros r Hr.
    rewrite Forall_forall in Hall. by apply Hall.
Qed.

(** ** Freeing a whole client *)

Definition sweeping db0 cid (st : resdb V * Z) : Prop :=
  let '(db, j) := st in
  dbwf db /\ typed db /\ shrinks db0 db /\ 0 <= j <= buckets (table db cid) /\
  forall i, 0 <= i < j -> bucket db cid i = [].

Definition sweep_measure cid (st : resdb V * Z) : Z :=
  elements (table st.1 cid) + (buckets (table st.1 cid) - st.2).

Lemma free_client_step_spec db0 cid (st : resdb V * Z) :
  buckets (table db0 cid) <> 0 -> sweeping db0 cid st ->
  match free_client_step run cid (table db0 cid) st with
  | inl st' => sweeping db0 cid st' /\ 0 <= sweep_measure cid st' < sweep_measure cid st
  | inr (Ret db) => exists db1, dbwf db1 /\ shrinks db0 db1 /\ mjoin (resources (table db1 cid)) = [] /\
      db = set_table db1 cid (table db1 cid <| resources := [] |> <| buckets := 0 |>)
  | inr _ => False
  end.
Proof.
  destruct st as [db j]. intros Hb0 (Hwf & Hty & Hs & Hj & Hempty). unfold free_client_step.
  rewrite (shrinks_same_array _ _ cid Hs). cbn [negb].
  assert (Hb : buckets (table db cid) <> 0) by (by destruct (sh_array _ _ Hs cid) as [-> _]).
  pose proof (dbwf_client _ Hwf _ Hb) as Hc.
  pose proof (cwf_elements _ _ Hc) as Hel. pose proof (cwf_len _ _ Hc) as Hlen.
  rewrite Z.geb_leb. destruct (Z.leb_spec (buckets (table db cid)) j) as [Hge|Hlt].
  - exists db. split_and!; [done..| |done].
    assert (Hnil : forall b, b ∈ resources (table db cid) -> b = []).
    { intros b [i Hi]%list_elem_of_lookup. pose proof (lookup_lt_Some _ _ _ Hi).
      rewrite <- (Hempty (Z.of_nat i)) by lia. unfold bucket, at_bucket, znth.
      destruct (Z.ltb_spec (Z.of_nat i) 0); [lia|]. by rewrite Nat2Z.id, Hi. }
    clear - Hnil. induction (resources (table db cid)) as [|b t IH]; [done|].
    rewrite mjoin_cons, (Hnil b), IH; [done| |left]. intros b' Hb'. apply Hnil. by right.
  - destruct (bucket db cid j) as [|r l] eqn:Hbk.
    + split; [|unfold sweep_measure; cbn; lia]. split_and!; [done..|lia|lia|].
      intros i Hi. destruct (decide (i = j)) as [->|]; [done|]. apply Hempty. lia.
    + assert (Hk : bucket db cid j !! 0%nat = Some r) by by rewrite Hbk.
      destruct (unlink_doFree db cid j 0 r false Hwf Hty Hb Hk) as (db' & -> & Hs1 & Hs2).
      assert (Hb' : buckets (table db' cid) = buckets (table db cid)) by apply (sh_array _ _ Hs1 cid).
      pose proof (dbwf_client _ (sh_wf _ _ Hs1 Hwf) cid ltac:(congruence)) as Hc'.
      pose proof (unlink_shrinks _ _ _ _ _ Hb Hwf Hk) as Hs3.
      pose proof (elements_unlink _ _ _ _ _ Hwf Hb Hk) as Hn.
      set (db1 := log _ _ _) in *.
      pose proof (dbwf_client _ (sh_wf _ _ Hs3 Hwf) cid
        ltac:(by destruct (sh_array _ _ Hs3 cid) as [-> _])) as Hc1.
      pose proof (proj1 (sublists_length _ _ (sh_tables _ _ Hs2 cid))) as Hle.
      pose proof (cwf_elements _ _ Hc'). pose proof (cwf_elements _ _ Hc1).
      split; [|unfold sweep_measure; cbn [fst snd]; lia].
      split_and!; [by apply Hs1|by apply (shrinks_typed db)|by trans db|lia|lia|].
      intros i Hi. pose proof (at_bucket_sublist _ _ i (sh_tables _ _ Hs1 cid)) as Hsub.
      change (bucket db' cid i `sublist_of` bucket db cid i) in Hsub.
      rewrite (Hempty i Hi) in Hsub. by apply sublist_nil_r in Hsub.
Qed.
End Freeing.

(** ** What the callers rely on *)
Section Contract.
Context {V : Type}.
Implicit Types (db : resdb V) (r : ResourceRec V).

Lemma dixClientIdForXID_lt l id : valid_limit l -> 0 <= dixClientIdForXID l id < l.
Proof.
  intros Hl. unfold dixClientIdForXID, CLIENT_BITS. rewrite Z.shiftr_land.
  assert (H : exists b, 0 <= b < 16 /\ l = 2 ^ b /\
    Z.shiftr (RESOURCE_CLIENT_MASK l) (CLIENTOFFSET l) = Z.ones b).
  { unfold valid_limit in Hl. rewrite !elem_of_cons, elem_of_nil in Hl.
    destruct Hl as [->|[->|[->|[->|[->|[->|[]]]]]]];
      [exists 6|exists 7|exists 8|exists 9|exists 10|exists 11]; vm_compute; done. }
  destruct H as (b & Hb & -> & ->). rewrite Z.land_ones by lia.
  pose proof (Z.mod_pos_bound (Z.shiftr id (CLIENTOFFSET (2 ^ b))) (2 ^ b) ltac:(lia)).
  assert (2 ^ b <= 2 ^ 15) by (apply Z.pow_le_mono_r; lia).
  rewrite u16_small by lia. lia.
Qed.

Lemma in_use_owner db id :
  dbwf db -> buckets (table db (dixClientIdForXID (LimitClients db) id)) <> 0 ->
  in_use db (dixClientIdForXID (LimitClients db) id) = true.
Proof.
  intros Hwf Hb. unfold in_use.
  pose proof (dixClientIdForXID_lt _ id (dbwf_limit _ Hwf)).
  destruct (Z.ltb_spec (dixClientIdForXID (LimitClients db) id) (LimitClients db)); [|lia].
  by destruct (Z.eqb_spec (buckets (table db (dixClientIdForXID (LimitClients db) id))) 0).
Qed.

Lemma find_first_filter {A} (P : A -> Prop) `{!forall x, Decision (P x)} (q : A -> bool) l :
  find_first (fun x => bool_decide (P x) && q x) l = find_first q (filter P l).
Proof.
  induction l as [|x l IH]; [done|]. rewrite filter_cons. cbn.
  case_decide; [rewrite bool_decide_true by done|rewrite bool_decide_false by done]; cbn;
    [by rewrite IH|done].
Qed.
Lemma find_first_ext {A} (p q : A -> bool) l :
  (forall x, p x = q x) -> find_first p l = find_first q l.
Proof. intros H. induction l as [|x l IH]; [done|]. cbn. by rewrite H, IH. Qed.

(** A search in the bucket is a search among the resources of the id. *)
Lemma bucket_search db id (q : ResourceRec V -> bool) :
  let cid := dixClientIdForXID (LimitClients db) id in
  find_first (fun r => (res_id r =? id) && q r) (bucket db cid (hash db cid id)) =
  find_first q (entries db cid id).
Proof.
  intros cid. unfold entries, tentries, bucket, hash.
  rewrite <- (find_first_filter (fun r => res_id r = id)). apply find_first_ext. intros r.
  f_equal. apply eq_true_iff_eq. by rewrite bool_decide_eq_true, Z.eqb_eq.
Qed.

Context (xace : Z -> Z -> Z -> V -> Z -> Z).

(** The result of a lookup by type, from the resources of the id. *)
Definition lookup_spec db (id rtype : Z) (client : option Z) (mode : Z) : Z * option V :=
  let err :=
    match znth (resourceTypes db) (Z.land rtype (TypeMask db)) with
    | Some t => errorValue t
    | None => BadImplementation
    end in
  match find_first (fun r => res_type r =? rtype)
          (entries db (dixClientIdForXID (LimitClients db) id) id), client with
  | None, _ => (err, None)
  | Some r, None => (Success, Some (res_value r))
  | Some r, Some c =>
      let rc := xace c id (res_type r) (res_value r) mode in
      if rc =? Success then (Success, Some (res_value r))
      else (if rc =? BadValue then err else rc, None)
  end.

Lemma lookup_by_type db id rtype client mode :
  dbwf db -> buckets (table db (dixClientIdForXID (LimitClients db) id)) <> 0 ->
  Z.land rtype (TypeMask db) <= lastResourceType db ->
  dixLookupResourceByType xace db id rtype client mode =
  (lookup_spec db id rtype client mode, set_error db client id).
Proof.
  intros Hwf Hb Hm. unfold dixLookupResourceByType, lookup_spec.
  rewrite (in_use_owner _ _ Hwf Hb), (bucket_search db id (fun r => res_type r =? rtype)).
  rewrite Z.gtb_ltb. destruct (Z.ltb_spec (lastResourceType db) (Z.land rtype (TypeMask db))); [lia|].
  assert (He : resourceTypes (set_error db client id) = resourceTypes db /\
               TypeMask (set_error db client id) = TypeMask db) by by destruct client.
  destruct He as [-> ->].
  destruct (find_first _ _) as [r|]; [|done]. destruct client as [c|]; [|done].
  set (rc := xace _ _ _ _ _). destruct (Z.eqb_spec rc BadValue) as [->|]; [done|].
  by destruct (Z.eqb_spec rc Success).
Qed.
End Contract.

(** *** A small database, for evaluation *)

Definition hashed_b {V} (limit hs : Z) (t : list (list (ResourceRec V))) : bool :=
  forallb (fun jb => forallb (fun r => HashResourceID limit (res_id r) hs =? Z.of_nat jb.1) jb.2)
    (imap pair t).

Lemma hashed_b_sound {V} limit hs (t : list (list (ResourceRec V))) :
  hashed_b limit hs t = true -> hashed res_id (fun id => HashResourceID limit id hs) t.
Proof.
  unfold hashed_b. intros H j b r Hj Hr.
  pose proof (znth_lt _ _ _ Hj) as Hlt. unfold znth in Hj.
  destruct (Z.ltb_spec j 0); [lia|].
  assert (Hin : (Z.to_nat j, b) ∈ imap pair t) by (apply elem_of_lookup_imap; eauto).
  pose proof (forallb_elem _ _ _ (forallb_elem _ _ _ H Hin) Hr) as He. cbn in He. breflect. lia.
Qed.

Definition cwf_b {V} (limit : Z) (c : ClientResourceRec V) : bool :=
  (INITHASHSIZE <=? hashsize c) && (hashsize c <=? MAXHASHSIZE) && (buckets c =? 2 ^ hashsize c) &&
  (Z.of_nat (length (resources c)) =? buckets c) && hashed_b limit (hashsize c) (resources c) &&
  (elements c =? Z.of_nat (length (mjoin (resources c)))) && (elements c <=? INT32_MAX).

Lemma dbwf_check {V} (db : resdb V) :
  LimitClients db ∈ [64; 128; 256; 512; 1024; 2048] ->
  forallb (fun kc => cwf_b (LimitClients db) kc.2) (map_to_list (clientTable db)) = true ->
  dbwf db.
Proof.
  intros Hl H. constructor; [done|]. intros cid Hb. unfold table in *.
  destruct (clientTable db !! cid) as [c|] eqn:E; [|done]. cbn in *.
  pose proof (forallb_elem _ _ (cid, c) H ltac:(by apply elem_of_map_to_list)) as Hc.
  unfold cwf_b in Hc. cbn in Hc. breflect. constructor; try done. by apply hashed_b_sound.
Qed.

Lemma typed_check {V} (db : resdb V) :
  forallb (fun kc => forallb (fun r => bool_decide (is_Some
    (znth (resourceTypes db) (Z.land (res_type r) (TypeMask db))))) (mjoin (resources kc.2)))
    (map_to_list (clientTable db)) = true ->
  typed db.
Proof.
  intros H cid r Hr. unfold table in *.
  destruct (clientTable db !! cid) as [c|] eqn:E; cbn in Hr; [|by apply not_elem_of_nil in Hr].
  pose proof (forallb_elem _ _ (cid, c) H ltac:(by apply elem_of_map_to_list)) as Hc.
  by apply (forallb_elem _ _ _ Hc), bool_decide_eq_true in Hr.
Qed.

Definition empty_db : resdb (list Z) := MkDB ∅ 0 0 0 [] 256 true ∅ [] [].
(** Client 1 owns a window whose value lists two subwindows, and a GC. *)
Definition sample_db : resdb (list Z) :=
  let db := (InitClientResources always empty_db 0 0).2 in
  let db := (InitClientResources always db 1 0x200000).2 in
  fold_left (fun db '(id, t, v) =>
      match AddResource (fun _ _ _ d => d) always db id t v with Ret (_, db') => db' | _ => db end)
    [(0x200001, X11_RESTYPE_WINDOW, [0x200002; 0x200003]); (0x200002, X11_RESTYPE_WINDOW, []);
     (0x200003, X11_RESTYPE_WINDOW, []); (0x200001, X11_RESTYPE_GC, []);
     (0x200004, X11_RESTYPE_GC, [])] db.

Lemma sample_db_wf : dbwf sample_db /\ typed sample_db.
Proof.
  split; [apply dbwf_check|apply typed_check].
  - vm_compute. do 2 right. left.
  - vm_compute. done.
  - vm_compute. done.
Qed.

(** C1: A resource that was added is what lookups of its id and type find, and
    the lookups of every other id and type are as before. *)
Theorem AddResource_lookup {V} run xace al (db : resdb V) id type v :
  dbwf db -> buckets (table db (dixClientIdForXID (LimitClients db) id)) <> 0 ->
  elements (table db (dixClientIdForXID (LimitClients db) id)) < INT32_MAX ->
  al 0%nat 24 = true -> Z.land type (TypeMask db) <= lastResourceType db ->
  exists db', AddResource run al db id type v = Ret (true, db') /\ dbwf db' /\
    (forall mode, dixLookupResourceByType xace db' id type None mode = (Success, Some v, db')) /\
    (forall id' type' mode, id' <> id \/ type' <> type ->
       buckets (table db (dixClientIdForXID (LimitClients db) id')) <> 0 ->
       (dixLookupResourceByType xace db' id' type' None mode).1 =
       (dixLookupResourceByType xace db id' type' None mode).1).
Proof.
  intros Hwf Hb He Ha Hm.
  destruct (AddResource_tables run al db id type v Hwf Hb He Ha)
    as (db' & Hadd & Hwf' & Hl & Hent & _ & Hrt & Htm & Hlt & Hb' & Hbs).
  exists db'. split_and!; [done..| |].
  - intros mode. rewrite lookup_by_type by congruence. f_equal.
    unfold lookup_spec. rewrite Hl, Hent, decide_True by done. cbn. by rewrite Z.eqb_refl.
  - intros id' type' mode Hne Hb1.
    destruct (Z.leb_spec (Z.land type' (TypeMask db)) (lastResourceType db)) as [Hm'|Hm'].
    + rewrite !lookup_by_type by (try congruence; rewrite Hl; by apply Hbs). cbn.
      unfold lookup_spec. rewrite Hl, Hent, Hrt, Htm. case_decide as Hd; [|done].
      destruct Hd as [_ ->]. cbn. destruct (Z.eqb_spec type type') as [->|]; [|done].
      by destruct Hne.
    + unfold dixLookupResourceByType. rewrite Htm, Hlt, Z.gtb_ltb.
      destruct (Z.ltb_spec (lastResourceType db) (Z.land type' (TypeMask db))); [done|lia].
Qed.

(** Delete functions that free other resources through [FreeResource], to any
    depth, are covered: [children v] lists the ids a value owns. *)
Fixpoint delete_tree {V} (children : V -> list Z) (n : nat) (f : DeleteType) (v : V) (id : Z)
    (db : resdb V) : resdb V :=
  match n with
  | O => db
  | S n =>
      fold_left (fun db i => match FreeResource (delete_tree children n) db i X11_RESTYPE_NONE with
                             | Ret db' => db'
                             | _ => db
                             end) (children v) db
  end.

(** C16: FreeResource returns whatever the delete functions free meanwhile; no
    resource with the id is left, nothing was added, and every resource that
    is gone was announced to the callbacks as being freed. *)
Theorem FreeResource_spec {V} run (db : resdb V) id skip :
  (forall f v i d, dbwf d -> typed d -> shrinks d (run f v i d)) -> dbwf db -> typed db ->
  let cid := dixClientIdForXID (LimitClients db) id in
  buckets (table db cid) <> 0 ->
  exists db', FreeResource run db id skip = Ret db' /\ shrinks db db' /\ entries db' cid id = [].
Proof.
  intros Hrun Hwf Hty cid Hb.
  destruct (FreeResource_total run Hrun db id skip Hwf Hty) as (db' & H1 & H2 & H3).
  exists db'. split_and!; [done..|]. apply H3. by apply in_use_owner.
Qed.

(** C17: When a client goes away its table is emptied in one pass, whatever the
    delete functions free meanwhile; every resource it owned was announced as
    being freed and the tables of other clients only lost resources. *)
Theorem FreeClientResources_spec {V} run HandleSaveSet (db : resdb V) cid :
  (forall f v i d, dbwf d -> typed d -> shrinks d (run f v i d)) ->
  (forall c d, dbwf d -> typed d -> shrinks d (HandleSaveSet c d)) ->
  dbwf db -> typed db -> buckets (table db cid) <> 0 ->
  exists db', FreeClientResources run HandleSaveSet db (Some cid) = Ret db' /\ dbwf db' /\
    buckets (table db' cid) = 0 /\ resources (table db' cid) = [] /\
    (forall r, r ∈ mjoin (resources (table db cid)) -> (ResourceStateFreeing, r) ∈ trace db') /\
    (forall q, q <> cid -> Forall2 sublist (resources (table db' q)) (resources (table db q))).
Proof.
  intros Hrun HH Hwf Hty Hb. cbn [FreeClientResources].
  pose proof (HH cid db Hwf Hty) as Hs. set (db0 := HandleSaveSet cid db) in *.
  assert (Hb0 : buckets (table db0 cid) <> 0) by (by destruct (sh_array _ _ Hs cid) as [-> _]).
  pose proof (sh_wf _ _ Hs Hwf) as Hwf0.
  pose proof (dbwf_client _ Hwf0 _ Hb0) as Hc0.
  pose proof (cwf_len _ _ Hc0). pose proof (cwf_elements _ _ Hc0). pose proof (cwf_int _ _ Hc0).
  pose proof (cwf_hs _ _ Hc0) as Hhs. unfold INITHASHSIZE, MAXHASHSIZE in Hhs.
  assert (buckets (table db0 cid) <= 2 ^ 16).
  { rewrite (cwf_buckets _ _ Hc0). apply Z.pow_le_mono_r; lia. }
  destruct (run_loop_total (free_client_step run cid (table db0 cid)) (sweeping db0 cid)
    (fun a => exists db1, dbwf db1 /\ shrinks db0 db1 /\ mjoin (resources (table db1 cid)) = [] /\
      a = set_table db1 cid (table db1 cid <| resources := [] |> <| buckets := 0 |>))
    (sweep_measure cid) TURNS (db0, 0)) as (db' & -> & db1 & Hwf1 & Hs1 & Hnil & ->).
  - intros st Hst. by apply free_client_step_spec.
  - split_and!; try done; try lia. by apply (shrinks_typed db).
  - unfold sweep_measure, TURNS, INT32_MAX in *. cbn. lia.
  - assert (Hs' : shrinks db db1) by by trans db0.
    eexists. split; [done|]. rewrite !table_set, !decide_True by done. split_and!; try done.
    + apply dbwf_set; [done|]. by intros [].
    + intros r Hr. destruct (sh_freed _ _ Hs' cid r Hr) as [Hr'|Ht]; [|done].
      rewrite Hnil in Hr'. by apply not_elem_of_nil in Hr'.
    + intros q Hq. rewrite table_set, decide_False by done. apply Hs'.
Qed.

Lemma delete_tree_shrinks {V} (children : V -> list Z) n f v i (db : resdb V) :
  dbwf db -> typed db -> shrinks db (delete_tree children n f v i db).
Proof.
  revert f v i db. induction n as [|n IH]; intros f v i db Hwf Hty; [done|]. cbn.
  revert db Hwf Hty. induction (children v) as [|c l IHl]; intros db Hwf Hty; [done|]. cbn.
  destruct (FreeResource_total (delete_tree children n) IH db c X11_RESTYPE_NONE Hwf Hty)
    as (db' & -> & Hs & _).
  trans db'; [done|]. apply IHl; [by apply Hs|by apply (shrinks_typed db)].
Qed.

Definition sample_run := delete_tree (V := list Z) (fun v => v) 3.

Lemma AddResource_lookup_witness :
  elements (table sample_db 1) = 5 /\
  exists db', AddResource sample_run always sample_db 0x200005 X11_RESTYPE_GC [7] = Ret (true, db')
    /\ dbwf db'.
Proof.
  split; [by vm_compute|].
  destruct (AddResource_lookup sample_run (fun _ _ _ _ _ => 0) always sample_db 0x200005
              X11_RESTYPE_GC [7]) as (db' & H1 & H2 & _).
  - apply sample_db_wf.
  - by vm_compute.
  - by vm_compute.
  - done.
  - by vm_compute.
  - exists db'. exact (conj H1 H2).
Defined.

Lemma FreeResource_spec_witness :
  entries sample_db 1 0x200001 <> [] /\
  exists db', FreeResource sample_run sample_db 0x200001 X11_RESTYPE_NONE = Ret db' /\
    shrinks sample_db db' /\ entries db' 1 0x200001 = [].
Proof.
  split; [by vm_compute|].
  apply (FreeResource_spec sample_run sample_db 0x200001 X11_RESTYPE_NONE).
  - intros f v i d. apply delete_tree_shrinks.
  - apply sample_db_wf.
  - apply sample_db_wf.
  - by vm_compute.
Defined.

Lemma FreeClientResources_spec_witness :
  elements (table sample_db 1) = 5 /\
  exists db', FreeClientResources sample_run (fun _ d => d) sample_db (Some 1) = Ret db' /\
    buckets (table db' 1) = 0.
Proof.
  split; [by vm_compute|].
  destruct (FreeClientResources_spec sample_run (fun _ d => d) sample_db 1) as (db' & H1 & _ & H2 & _).
  - intros f v i d. apply delete_tree_shrinks.
  - done.
  - apply sample_db_wf.
  - apply sample_db_wf.
  - by vm_compute.
  - exists db'. exact (conj H1 H2).
Defined.

Lemma RebuildTable_refines_witness :
  hashsize (table sample_db 1) = 6 /\ hashsize (table (RebuildTable always 0 sample_db 1) 1) = 7.
Proof.
  split; [by vm_compute|].
  destruct (RebuildTable_refines always 0 sample_db 1) as (_ & _ & H).
  - apply sample_db_wf.
  - by vm_compute.
  - by vm_compute.
  - rewrite H; by vm_compute.
Defined.

(** ** Ranges of free ids *)

Lemma lor_bound n a b : 0 <= n -> 0 <= a < 2 ^ n -> 0 <= b < 2 ^ n -> 0 <= Z.lor a b < 2 ^ n.
Proof.
  intros Hn Ha Hb. assert (Hpos : 0 <= Z.lor a b) by (apply Z.lor_nonneg; lia).
  split; [done|]. destruct (Z.eq_dec (Z.lor a b) 0) as [->|Hnz]; [lia|].
  apply Z.log2_lt_pow2; [lia|]. rewrite Z.log2_lor by lia.
  destruct (Z.eq_dec a 0) as [->|]; destruct (Z.eq_dec b 0) as [->|].
  - done.
  - change (Z.log2 0) with 0. pose proof (Z.log2_nonneg b).
    rewrite Z.max_r by done. apply Z.log2_lt_pow2; lia.
  - change (Z.log2 0) with 0. pose proof (Z.log2_nonneg a).
    rewrite Z.max_l by done. apply Z.log2_lt_pow2; lia.
  - apply Z.max_lub_lt; apply Z.log2_lt_pow2; lia.
Qed.

Section FreeRange.
Context {V : Type} (db : resdb V) (client : Z).
Hypothesis Hc : cwf (LimitClients db) (table db client).

Definition used (i : Z) : Prop :=
  exists r, r ∈ mjoin (resources (table db client)) /\ res_id r = i.

Lemma used_entries i : entries db client i <> [] <-> used i.
Proof.
  unfold entries. rewrite (tentries_all _ _ _ Hc). split.
  - intros H. destruct (filter _ _) as [|r l] eqn:E; [done|].
    assert (Hr : r ∈ r :: l) by left. rewrite <- E, list_elem_of_filter in Hr.
    exists r. tauto.
  - intros (r & Hr & He) H. apply (not_elem_of_nil r). rewrite <- H. by apply list_elem_of_filter.
Qed.

Lemma id_used_spec i : id_used db client i = true <-> used i.
Proof.
  rewrite <- used_entries. unfold id_used, entries, tentries, bucket, hash.
  generalize (at_bucket (resources (table db client))
    (HashResourceID (LimitClients db) i (hashsize (table db client)))) as l.
  induction l as [|r l IH]; [done|]. rewrite filter_cons. cbn.
  destruct (Z.eqb_spec (res_id r) i); case_decide; try done.
Qed.

Lemma not_used i : ~ used i <-> id_used db client i = false.
Proof. rewrite <- id_used_spec. by rewrite not_true_iff_false. Qed.

Definition search_step (maxid i : Z) : Z + Z :=
  if i <=? maxid then if id_used db client i then inl (u32 (i + 1)) else inr i else inr 0.

Lemma search_loop lo maxid :
  0 < lo -> maxid < UINT32_MAX ->
  exists a, loop_pos (search_step maxid) TURNS lo = inr a /\
    ((a = 0 /\ forall i, lo <= i <= maxid -> used i) \/ (lo <= a <= maxid /\ ~ used a)).
Proof.
  intros Hlo Hmax. unfold UINT32_MAX in *.
  destruct (loop_pos_terminates (search_step maxid) (fun i => lo <= i <= Z.max lo (maxid + 1))
         (fun i => Z.max lo (maxid + 1) - i) TURNS lo) as [a Ha].
  { intros i Hi. unfold search_step. destruct (Z.leb_spec i maxid); [|done].
    destruct (id_used db client i); [|done]. rewrite u32_small by lia. lia. }
  { lia. }
  { unfold TURNS. lia. }
  exists a. split; [done|].
  pose proof (loop_pos_inv (search_step maxid)
    (fun i => lo <= i <= Z.max lo (maxid + 1) /\ forall k, lo <= k < i -> used k)
    (fun a => (a = 0 /\ forall i, lo <= i <= maxid -> used i) \/ (lo <= a <= maxid /\ ~ used a)))
    as Hinv.
  lapply Hinv; clear Hinv.
  - intros Hinv. specialize (Hinv TURNS lo ltac:(split; [lia|intros k Hk; lia])). by rewrite Ha in Hinv.
  - intros i [Hi Hk]. unfold search_step. destruct (Z.leb_spec i maxid).
    + destruct (id_used db client i) eqn:E; [|right; split; [lia|by apply not_used]].
      rewrite u32_small by lia. split; [lia|]. intros k Hk1.
      destruct (Z.eq_dec k i) as [->|]; [by apply id_used_spec|apply Hk; lia].
    + left. split; [done|]. intros k Hk1. apply Hk. lia.
Qed.

Lemma AvailableID_spec lo maxid good :
  0 < lo -> maxid < UINT32_MAX -> (good = 0 \/ ~ used good) ->
  let g := AvailableID db client lo maxid good in
  (g = 0 /\ forall i, lo <= i <= maxid -> used i) \/ (lo <= g <= maxid /\ ~ used g).
Proof.
  intros Hid Hmax Hgood g. unfold g, AvailableID. fold (search_step maxid).
  destruct (search_loop lo maxid Hid Hmax) as (a & Ha & Hspec).
  change (fun i : Z => _) with (search_step maxid) in *. rewrite Ha.
  destruct ((good >=? lo) && (good <=? maxid)) eqn:E; [|done]. breflect.
  right. split; [lia|]. destruct Hgood; [lia|done].
Qed.

(** What the walk over the resources has established after [l1]. *)
Definition range_inv (lo hi : Z) (l1 : list (ResourceRec V)) (st : Z * Z * Z) : Prop :=
  let '(id, maxid, good) := st in
  lo <= id /\ maxid <= hi /\ id <= maxid + 1 /\ (good = 0 \/ ~ used good) /\
  (forall r, r ∈ l1 -> ~ (id <= res_id r <= maxid)) /\
  ((exists i, lo <= i <= hi /\ ~ used i) -> exists i, id <= i <= maxid /\ ~ used i).

Lemma range_step_inv lo hi l1 r st :
  0 < lo -> hi < UINT32_MAX -> used (res_id r) -> range_inv lo hi l1 st ->
  range_inv lo hi (l1 ++ [r]) (range_step db client st r).
Proof.
  intros Hlo Hhi Hu. destruct st as [[id maxid] good]. intros (H1 & H2 & H3 & H4 & H5 & H6).
  unfold range_step. rewrite Z.gtb_ltb, Z.geb_leb.
  destruct (Z.ltb_spec (res_id r) id) as [Hr|Hr]; cbn [orb];
    [|destruct (Z.ltb_spec maxid (res_id r)) as [Hr'|Hr']].
  1-2: split_and!; try done; intros r' [Hr1|Hr1%list_elem_of_singleton]%elem_of_app; [by apply H5|subst; lia].
  unfold UINT32_MAX in *. rewrite !(u32_small (res_id r - 1)), !(u32_small (res_id r + 1)) by lia.
  set (lower := _ <=? _).
  assert (Hlow : forall g, (good = 0 \/ ~ used good) ->
    g = AvailableID db client id (res_id r - 1) good -> g <> 0 ->
    range_inv lo hi (l1 ++ [r]) (id, res_id r - 1, g)).
  { intros g Hg -> Hnz. destruct (AvailableID_spec id (res_id r - 1) good) as [[? _]|[Hb Hn]];
      [lia|unfold UINT32_MAX; lia|done|done|].
    split_and!; [lia|lia|lia|by right| |].
    - intros r' [Hr1|Hr1%list_elem_of_singleton]%elem_of_app; [specialize (H5 _ Hr1); lia|subst; lia].
    - intros _. by eexists. }
  assert (Hup : forall g, g = AvailableID db client (res_id r + 1) maxid good -> g <> 0 ->
    range_inv lo hi (l1 ++ [r]) (res_id r + 1, maxid, g)).
  { intros g -> Hnz. destruct (AvailableID_spec (res_id r + 1) maxid good) as [[? _]|[Hb Hn]];
      [lia|unfold UINT32_MAX; lia|done|done|].
    split_and!; [lia|lia|lia|by right| |].
    - intros r' [Hr1|Hr1%list_elem_of_singleton]%elem_of_app; [specialize (H5 _ Hr1); lia|subst; lia].
    - intros _. by eexists. }
  assert (Hother : forall lo' hi' b e, (b = id /\ e = res_id r - 1 /\ lo' = res_id r + 1 /\ hi' = maxid) \/
      (b = res_id r + 1 /\ e = maxid /\ lo' = id /\ hi' = res_id r - 1) ->
    AvailableID db client lo' hi' good = 0 -> range_inv lo hi (l1 ++ [r]) (b, e, 0)).
  { intros lo' hi' b e Hbe Hz.
    destruct (AvailableID_spec lo' hi' good) as [[_ Hall]|[Hb _]];
      [lia|unfold UINT32_MAX; lia|done| |lia].
    split_and!; [lia|lia|lia|by left| |].
    - intros r' [Hr1|Hr1%list_elem_of_singleton]%elem_of_app; [specialize (H5 _ Hr1); lia|subst; lia].
    - intros (i & Hi & Hni)%H6. exists i. split; [|done].
      destruct (Z.eq_dec i (res_id r)) as [->|]; [done|].
      destruct (decide (lo' <= i <= hi')) as [Hin|]; [by apply Hall in Hin|lia]. }
  destruct lower; cbn zeta.
  - destruct (Z.eqb_spec (AvailableID db client id (res_id r - 1) good) 0) as [E|E]; cbn [negb].
    + rewrite E. apply (Hother id (res_id r - 1)); [lia|done].
    + by apply Hlow.
  - destruct (Z.eqb_spec (AvailableID db client (res_id r + 1) maxid good) 0) as [E|E].
    + rewrite E. apply (Hother (res_id r + 1) maxid); [lia|done].
    + by apply Hup.
Qed.
End FreeRange.

Lemma lor_ge a b : 0 <= a -> 0 <= b -> a <= Z.lor a b.
Proof.
  intros Ha Hb. assert (H : Z.lor a b = a + Z.ldiff b a).
  { rewrite Z.add_nocarry_lor.
    - apply Z.bits_inj'. intros n Hn. rewrite !Z.lor_spec, Z.ldiff_spec.
      by destruct (Z.testbit a n), (Z.testbit b n).
    - apply Z.bits_inj'. intros n Hn. rewrite Z.land_spec, Z.ldiff_spec, Z.bits_0.
      by destruct (Z.testbit a n), (Z.testbit b n). }
  assert (0 <= Z.ldiff b a) by (apply Z.ldiff_nonneg; lia). lia.
Qed.

Lemma range_start_bounds {V} (db : resdb V) client server :
  valid_limit (LimitClients db) -> 0 <= client < LimitClients db -> (client = 0 -> server = true) ->
  0 < range_start db client server < 2 ^ 31 /\
  range_start db client server <=
    Z.lor (range_start db client server) (RESOURCE_ID_MASK (LimitClients db)) < 2 ^ 31.
Proof.
  intros Hl Hcl Hs. destruct (valid_limit_offset _ Hl) as [Hbits Hoff].
  assert (Hm : 0 <= RESOURCE_ID_MASK (LimitClients db) < 2 ^ 31).
  { unfold RESOURCE_ID_MASK. rewrite Z.shiftl_1_l.
    assert (2 ^ CLIENTOFFSET (LimitClients db) <= 2 ^ 23) by (apply Z.pow_le_mono_r; lia). lia. }
  assert (Hlim : LimitClients db * 2 ^ CLIENTOFFSET (LimitClients db) = 2 ^ 29).
  { unfold CLIENTOFFSET, RESOURCE_AND_CLIENT_COUNT. rewrite Hbits. unfold valid_limit in Hl.
    rewrite !elem_of_cons, elem_of_nil in Hl.
    destruct Hl as [->|[->|[->|[->|[->|[->|[]]]]]]]; done. }
  assert (Hsh : 0 <= Z.shiftl client (CLIENTOFFSET (LimitClients db)) < 2 ^ 29).
  { rewrite Z.shiftl_mul_pow2, <- Hlim by lia.
    assert (0 < 2 ^ CLIENTOFFSET (LimitClients db)) by (apply Z.pow_pos_nonneg; lia).
    split; [apply Z.mul_nonneg_nonneg|apply Z.mul_lt_mono_pos_r]; lia. }
  unfold range_start. rewrite u32_small by lia.
  set (x := if server then _ else 0).
  assert (Hx : 0 <= x < 2 ^ 31) by (unfold x, SERVER_MINID, SERVER_BIT; destruct server, (client =? 0); lia).
  pose proof (lor_bound 31 (Z.shiftl client (CLIENTOFFSET (LimitClients db))) x
    ltac:(lia) ltac:(lia) Hx) as Hb.
  assert (Hnz : Z.lor (Z.shiftl client (CLIENTOFFSET (LimitClients db))) x <> 0).
  { rewrite Z.lor_eq_0_iff. intros [H1 H2]. rewrite Z.shiftl_mul_pow2 in H1 by lia.
    apply Z.mul_eq_0_l in H1; [|apply Z.pow_nonzero; lia]. subst client. unfold x in H2. by rewrite (Hs eq_refl) in H2. }
  split; [lia|]. split; [|by apply lor_bound].
  apply lor_ge; lia.
Qed.

(** GetXIDRange gives a non-empty range of the client's ids, none of them
    in use, exactly when the client has such an id; (0, 0) means there is none. *)
Theorem GetXIDRange_free {V} (db : resdb V) client server :
  dbwf db -> 0 <= client < LimitClients db -> (client = 0 -> server = true) ->
  buckets (table db client) <> 0 ->
  let lo := range_start db client server in
  let hi := Z.lor lo (RESOURCE_ID_MASK (LimitClients db)) in
  let '(id, maxid) := GetXIDRange db client server in
  (id = 0 /\ maxid = 0 /\ forall i, lo <= i <= hi -> entries db client i <> []) \/
  (lo <= id <= maxid /\ maxid <= hi /\ forall i, id <= i <= maxid -> entries db client i = []).
Proof.
  intros Hwf Hcl Hsrv Hb lo hi. pose proof (dbwf_client _ Hwf _ Hb) as Hc.
  destruct (range_start_bounds db client server (dbwf_limit _ Hwf) Hcl Hsrv) as (Hlo & Hle & Hhi).
  fold lo in Hlo, Hle, Hhi. fold hi in Hle, Hhi. unfold GetXIDRange. fold lo. fold hi.
  assert (Hfold : forall l2 l1 st, (forall r, r ∈ l2 -> used db client (res_id r)) ->
    range_inv db client lo hi l1 st ->
    range_inv db client lo hi (l1 ++ l2) (fold_left (range_step db client) l2 st)).
  { induction l2 as [|r l2 IH]; intros l1 st Hu Hst; cbn; [by rewrite app_nil_r|].
    rewrite cons_middle, app_assoc. apply IH; [intros r' Hr'; apply Hu; by right|].
    apply range_step_inv; [done|lia|unfold UINT32_MAX; lia|apply Hu; left|done]. }
  specialize (Hfold (mjoin (resources (table db client))) [] (lo, hi, 0)). cbn [app] in Hfold.
  destruct (fold_left _ _ _) as [[id maxid] good].
  destruct Hfold as (H1 & H2 & H3 & _ & H5 & H6).
  { intros r Hr. by exists r. }
  { split_and!; try lia; [intros r Hr; by apply not_elem_of_nil in Hr|done]. }
  rewrite Z.gtb_ltb. destruct (Z.ltb_spec maxid id) as [Hlt|Hge].
  - left. split_and!; [done..|]. intros i Hi He. destruct H6 as (k & Hk & _); [|lia].
    exists i. split; [done|]. intros Hu%(used_entries _ _ Hc). done.
  - right. split_and!; try lia. intros i Hi. destruct (entries db client i) eqn:E; [done|].
    destruct (proj1 (used_entries db client Hc i)) as (r' & Hr & <-); [by rewrite E|].
    by destruct (H5 r' Hr).
Qed.
Lemma GetXIDRange_free_witness :
  GetXIDRange sample_db 1 false = (0x200005, 0x3fffff) /\ entries sample_db 1 0x200007 = [].
Proof.
  split; [by vm_compute|].
  pose proof (GetXIDRange_free sample_db 1 false (proj1 sample_db_wf)
    ltac:(split; by vm_compute) ltac:(intros; lia) ltac:(by vm_compute)) as H.
  assert (E : GetXIDRange sample_db 1 false = (0x200005, 0x3fffff)) by by vm_compute.
  cbv zeta in H. rewrite E in H.
  destruct H as [[H _]|(_ & _ & H)]; [discriminate H|apply H; lia].
Defined.

(** ** Server-allocated ids *)

(** The ids between the two counters are free. *)
Definition fake_window {V} (db : resdb V) (client : Z) : Prop :=
  let c := table db client in
  0 < fakeID c <= endFakeID c /\ endFakeID c <= 2 ^ 31 /\
  forall i, fakeID c <= i < endFakeID c -> entries db client i = [].

Lemma GetXIDRange_set_fake {V} (db : resdb V) client a server :
  GetXIDRange (set_table db client (table db client <| fakeID := a |>)) client server =
  GetXIDRange db client server.
Proof.
  unfold GetXIDRange. set (db' := set_table _ _ _).
  assert (Ht : resources (table db' client) = resources (table db client) /\
               hashsize (table db' client) = hashsize (table db client)).
  { unfold db'. by rewrite table_set, decide_True. }
  assert (Ha : forall i m g, AvailableID db' client i m g = AvailableID db client i m g).
  { intros i m g. unfold AvailableID. erewrite loop_pos_ext; [reflexivity|].
    intros s. unfold id_used, bucket, hash. destruct Ht as [-> ->]. reflexivity. }
  assert (Hs : forall st r, range_step db' client st r = range_step db client st r).
  { intros [[i m] g] r. unfold range_step. by rewrite !Ha. }
  assert (Hf : forall l st, fold_left (range_step db' client) l st = fold_left (range_step db client) l st).
  { induction l as [|r l IH]; intros st; cbn [fold_left]; [done|]. by rewrite Hs, IH. }
  destruct Ht as [-> _]. change (range_start db' client server) with (range_start db client server).
  change (LimitClients db') with (LimitClients db). by rewrite Hf.
Qed.

(** FakeClientID returns an id that no resource of the client has, and its
    next ids are free as well; when the ids of the client are used up the server
    dies, or another client is marked for exception. *)
Theorem FakeClientID_fresh {V} (db : resdb V) client :
  dbwf db -> 0 <= client < LimitClients db -> buckets (table db client) <> 0 ->
  fake_window db client ->
  let lo := range_start db client true in
  let all_used := forall i, lo <= i <= Z.lor lo (RESOURCE_ID_MASK (LimitClients db)) ->
                    entries db client i <> [] in
  match FakeClientID db client with
  | Ret (id, db') =>
      (entries db client id = [] /\ fake_window db' client /\
       clientException db' = clientException db) \/
      (client <> 0 /\ all_used /\ clientException db' = client :: clientException db)
  | FatalError => client = 0 /\ all_used
  | _ => False
  end.
Proof.
  intros Hwf Hcl Hb (Hfk & Hend & Hfree) lo all_used. unfold FakeClientID. cbn [FakeClientID_rec].
  set (c := table db client) in *. set (db1 := set_table db client _).
  destruct (Z.eqb_spec (fakeID c) 0) as [|_]; [lia|].
  destruct (Z.eqb_spec (fakeID c) (endFakeID c)) as [Heq|Hne]; cbn [negb].
  2:{ left. split_and!; [apply Hfree; lia| |done]. unfold fake_window.
      unfold db1. rewrite table_set, decide_True by done. cbn. rewrite u32_small by lia.
      split_and!; [lia..|]. intros i Hi.
      replace (entries _ client i) with (entries db client i); [apply Hfree; lia|].
      unfold entries. rewrite table_set, decide_True by done. done. }
  assert (Hg : GetXIDRange db1 client true = GetXIDRange db client true)
    by apply GetXIDRange_set_fake.
  rewrite Hg. clear Hg.
  pose proof (GetXIDRange_free db client true Hwf Hcl ltac:(done) Hb) as Hrange.
  destruct (range_start_bounds db client true (dbwf_limit _ Hwf) Hcl ltac:(done)) as (Hlo & Hle & Hhi).
  fold lo in Hrange, Hlo, Hle, Hhi. cbv zeta in Hrange.
  destruct (GetXIDRange db client true) as [id maxid].
  destruct Hrange as [(-> & -> & Hall)|(Hid & Hmx & Hall)].
  - rewrite Z.eqb_refl. destruct (Z.eqb_spec client 0) as [|Hnz]; [done|].
    set (e := Z.lor _ (u32 (SERVER_BIT * 3))).
    assert (He : e <> 0).
    { unfold e. rewrite Z.lor_eq_0_iff. intros [_ H]. vm_compute in H. done. }
    destruct (Z.eqb_spec e 0); [done|]. right. by split_and!.
  - destruct (Z.eqb_spec id 0); [lia|]. left. split_and!; [apply Hall; lia| |done].
    unfold fake_window. rewrite table_set, decide_True by done. cbn.
    rewrite !u32_small by lia. split_and!; [lia..|]. intros i Hi.
    replace (entries _ client i) with (entries db client i); [apply Hall; lia|].
    unfold entries. rewrite table_set, decide_True by done. cbn. unfold db1.
    rewrite table_set, decide_True by done. done.
Qed.
Lemma FakeClientID_fresh_witness :
  match FakeClientID sample_db 1 with
  | Ret (id, db') =>
      (entries sample_db 1 id = [] /\ fake_window db' 1 /\
       clientException db' = clientException sample_db) \/ 1 <> 0 /\ False
  | _ => False
  end.
Proof.
  assert (Hw : fake_window sample_db 1).
  { assert (Hf : fakeID (table sample_db 1) = 0x40200000) by (by vm_compute).
    assert (He : endFakeID (table sample_db 1) = 0x40400000) by (by vm_compute).
    assert (Hall : forallb (fun r => res_id r <? 0x40200000)
              (mjoin (resources (table sample_db 1))) = true) by (by vm_compute).
    unfold fake_window. cbv zeta. rewrite Hf, He. split; [lia|split; [lia|]]. intros i Hi.
    destruct (entries sample_db 1 i) as [|r l] eqn:E; [reflexivity|].
    destruct (proj1 (used_entries sample_db 1 (dbwf_client _ (proj1 sample_db_wf) 1
       ltac:(by vm_compute)) i)) as (r' & Hr' & He'); [by rewrite E|].
    pose proof (forallb_elem _ _ _ Hall Hr') as Hlt. cbv beta in Hlt. breflect. lia. }
  pose proof (FakeClientID_fresh sample_db 1 (proj1 sample_db_wf)
    ltac:(split; by vm_compute) ltac:(by vm_compute) Hw) as H. cbv zeta in H.
  destruct (FakeClientID sample_db 1) as [[id db']| | |].
  - destruct H as [H|(_ & Hu & _)]; [left; exact H|].
    exfalso. apply (Hu (range_start sample_db 1 true)); [split|]; by vm_compute.
  - destruct H as [H _]. discriminate H.
  - exact H.
  - exact H.
Defined.
