(* ===== verification/DixUtils.v ===== *)
(** * DixUtils: timestamps, checked lookups, save sets, handlers and queues

    [dix/dixutils.c].  Functions the file calls through pointers (block and
    wakeup handlers, work procedures, callbacks) are parameters acting on the
    file's state, so that they can register, queue and delete while they run;
    [W] is the rest of the server they may change. *)

From S2P Require Import Prelude.
From S2P Require Import Resource.

(** ** Timestamps *)

(** [include/dix.h: TimeStamp 106-109] *)
Record TimeStamp := MkTime { months : Z; milliseconds : Z }.

Definition EARLIER : Z := -1.
Definition SAMETIME : Z := 0.
Definition LATER : Z := 1.
Definition CurrentTime : Z := 0.
Definition HALFMONTH : Z := Z.shiftl 1 31.

(** [dix/dixutils.c: CompareTimeStamps] *)
Definition CompareTimeStamps (a b : TimeStamp) : Z :=
  if months a <? months b then EARLIER
  else if months a >? months b then LATER
  else if milliseconds a <? milliseconds b then EARLIER
  else if milliseconds a >? milliseconds b then LATER
  else SAMETIME.

(** [dix/dixutils.c: ClientTimeToServerTime] *)
Definition ClientTimeToServerTime (currentTime : TimeStamp) (c : Z) : TimeStamp :=
  if c =? CurrentTime then currentTime
  else
    let ts := MkTime (months currentTime) c in
    if c >? milliseconds currentTime then
      if u64 (c - milliseconds currentTime) >? HALFMONTH
      then MkTime (u32 (months ts - 1)) c else ts
    else if c <? milliseconds currentTime then
      if u64 (milliseconds currentTime - c) >? HALFMONTH
      then MkTime (u32 (months ts + 1)) c else ts
    else ts.

(** ** Checked lookups *)

Definition DixReadAccess : Z := Z.shiftl 1 0.
Definition DixWriteAccess : Z := Z.shiftl 1 1.
Definition DixDestroyAccess : Z := Z.shiftl 1 2.
Definition DixCreateAccess : Z := Z.shiftl 1 3.
Definition DixListPropAccess : Z := Z.shiftl 1 6.
Definition DixGetPropAccess : Z := Z.shiftl 1 7.
Definition DixSetPropAccess : Z := Z.shiftl 1 8.
Definition DixRemoveAccess : Z := Z.shiftl 1 13.
Definition DixBlendAccess : Z := Z.shiftl 1 16.
Definition DixPostAccess : Z := Z.shiftl 1 28.

Definition DRAWABLE_WINDOW : Z := 0.
Definition DRAWABLE_PIXMAP : Z := 1.
Definition UNDRAWABLE_WINDOW : Z := 2.
Definition M_DRAWABLE_WINDOW : Z := Z.shiftl 1 0.
Definition M_DRAWABLE_PIXMAP : Z := Z.shiftl 1 1.
Definition M_UNDRAWABLE_WINDOW : Z := Z.shiftl 1 2.
Definition M_WINDOW : Z := Z.lor M_DRAWABLE_WINDOW M_UNDRAWABLE_WINDOW.
Definition M_DRAWABLE : Z := Z.lor M_DRAWABLE_WINDOW M_DRAWABLE_PIXMAP.

Section Lookups.
Context {V : Type}.
Implicit Types (db : resdb V).
Context (xace : Z -> Z -> Z -> V -> Z -> Z).
(** The [type] field of a drawable and the [font] field of a GC. *)
Context (drawable_type : V -> Z) (gc_font : V -> V).

(** [dix/dixutils.c: dixLookupDrawable] *)
Definition dixLookupDrawable db (id client type access : Z) : Z * option V * resdb V :=
  let '(rc, pTmp, db) := dixLookupResourceByClass xace db id RC_DRAWABLE (Some client) access in
  let db := if negb (rc =? Success) then set_error db (Some client) id else db in
  if rc =? BadValue then (BadDrawable, None, db)
  else
    match pTmp with
    | Some v =>
        if rc =? Success then
          if Z.land (Z.shiftl 1 (drawable_type v)) (if type =? 0 then M_DRAWABLE else type) =? 0
          then (BadMatch, None, db)
          else (Success, Some v, db)
        else (rc, None, db)
    | None => (rc, None, db)
    end.

(** [dix/dixutils.c: dixLookupWindow] *)
Definition dixLookupWindow db (id client access : Z) : Z * option V * resdb V :=
  let '(rc, pWin, db) := dixLookupDrawable db id client M_WINDOW access in
  let rc := if rc =? BadMatch then BadWindow else rc in
  let rc := if rc =? BadDrawable then BadWindow else rc in
  (rc, pWin, db).

(** [dix/dixutils.c: dixLookupGC] *)
Definition dixLookupGC db (id client access : Z) : Z * option V * resdb V :=
  dixLookupResourceByType xace db id X11_RESTYPE_GC (Some client) access.

(** [dix/dixutils.c: dixLookupFontable] *)
Definition dixLookupFontable db (id client access : Z) : Z * option V * resdb V :=
  let db := set_error db (Some client) id in
  let '(rc, pFont, db) := dixLookupResourceByType xace db id X11_RESTYPE_FONT (Some client) access in
  if negb (rc =? BadFont) then (rc, pFont, db)
  else
    let '(rc, pGC, db) := dixLookupResourceByType xace db id X11_RESTYPE_GC (Some client) access in
    if rc =? BadGC then (BadFont, None, db)
    else if rc =? Success then (rc, gc_font <$> pGC, db)
    else (rc, None, db).

(** [connected] tells which slots of [clients] are used; [client_access] is the
    decision of the client access callback.
    [dix/dixutils.c: dixLookupResourceOwner] *)
Definition dixLookupResourceOwner (connected : Z -> bool) (client_access : Z -> Z -> Z -> Z)
    db (id client access_mode : Z) : Z * option Z * resdb V :=
  let clientIndex := dixClientIdForXID (LimitClients db) id in
  let bad rc db := (rc, None, set_error db (Some client) id) in
  if (clientIndex =? 0) || negb (connected clientIndex) || negb (Z.land id SERVER_BIT =? 0)
  then bad BadValue db
  else
    let '(rc, _, db) := dixLookupResourceByClass xace db id RC_ANY (Some client) DixGetAttrAccess in
    if negb (rc =? Success) then bad rc db
    else
      let rc := client_access client clientIndex access_mode in
      if negb (rc =? Success) then bad rc db
      else (Success, Some clientIndex, db).
End Lookups.

(** ** Interface for the request handlers

    The handlers only use the status of a window lookup: id, client, access. *)
Class WindowLookup := window_rc : Z -> Z -> Z -> Z.
Definition db_windows {V} (xace : Z -> Z -> Z -> V -> Z -> Z) (drawable_type : V -> Z)
    (db : resdb V) : WindowLookup :=
  fun id client access => (dixLookupWindow xace drawable_type db id client access).1.1.

(** ** Save sets *)

Record SaveSetElt := MkSave { save_window : Z; save_toRoot : bool; save_map : bool }.
Definition SetModeInsert : Z := 0.
Definition SetModeDelete : Z := 1.

(** Position of a window in the array; its length when it is not there. *)
Fixpoint save_index (l : list SaveSetElt) (win : Z) : nat :=
  match l with
  | [] => O
  | s :: l' => if save_window s =? win then O else S (save_index l' win)
  end.

(** A failed shrinking [realloc] keeps the old array.
    [dix/dixutils.c: AlterSaveSetForClient] *)
Definition AlterSaveSetForClient (al : allocator) (saveSet : list SaveSetElt) (win mode : Z)
    (toRoot map : bool) : Z * list SaveSetElt :=
  let numnow := length saveSet in
  let j := save_index saveSet win in
  if mode =? SetModeInsert then
    if (j <? numnow)%nat then (Success, saveSet)
    else if negb (al 0%nat (16 * (Z.of_nat numnow + 1))) then (BadAlloc, saveSet)
    else (Success, saveSet ++ [MkSave win toRoot map])
  else if (mode =? SetModeDelete) && (j <? numnow)%nat then (Success, delete j saveSet)
  else (Success, saveSet).

(** The save sets of the connected clients.
    [dix/dixutils.c: DeleteWindowFromAnySaveSet] *)
Definition DeleteWindowFromAnySaveSet (al : allocator) (sets : list (option (list SaveSetElt)))
    (win : Z) : list (option (list SaveSetElt)) :=
  (fun o => match o with
            | Some (_ :: _ as s) => Some (AlterSaveSetForClient al s win SetModeDelete false true).2
            | o => o
            end) <$> sets.

(** ** Block and wakeup handlers *)

Section Handlers.
Context {W : Type}.

(** [dix/dixutils.c: BlockHandlerRec 324-329] *)
Record BlockHandlerRec := MkHandler {
  bh_BlockHandler : Z; bh_WakeupHandler : Z; blockData : Z; bh_deleted : bool }.

Record handler_state := MkHS {
  handlers : list BlockHandlerRec;
  sizeHandlers : Z;
  inHandler : Z;
  handlerDeleted : bool;
  hs_world : W
}.
#[export] Instance eta_hs : Settable handler_state := fun s =>
  MkHS (handlers s) (sizeHandlers s) (inHandler s) (handlerDeleted s) (hs_world s).
Implicit Types (st : handler_state) (h : BlockHandlerRec).

Definition numHandlers st : Z := Z.of_nat (length (handlers st)).

(** What calling a handler does, and the handlers of the screens. *)
Context (call_block call_wakeup : BlockHandlerRec -> handler_state -> handler_state).
Context (screens_block screens_wakeup : handler_state -> handler_state).

(** Inner loop of the cleanup: handlers marked as deleted are removed by
    shifting the rest of the array down. *)
Definition compact_step (s : list BlockHandlerRec * nat)
  : list BlockHandlerRec * nat + outcome (list BlockHandlerRec) :=
  let '(l, i) := s in
  match l !! i with
  | None => inr (Ret l)
  | Some h => if bh_deleted h then inl (delete i l, i) else inl (l, S i)
  end.
Definition compact (p : positive) (l : list BlockHandlerRec) : outcome (list BlockHandlerRec) :=
  run_loop compact_step p (l, O).

Definition block_step (s : handler_state * nat) : handler_state * nat + outcome handler_state :=
  let '(st, i) := s in
  match handlers st !! i with
  | None => inr (Ret st)
  | Some h => inl (if bh_deleted h then st else call_block h st, S i)
  end.

(** The handlers marked as deleted are removed once none is running. *)
Definition clean_handlers (p : positive) st : outcome handler_state :=
  if handlerDeleted st then
    l <-- compact p (handlers st);
    Ret (st <| handlers := l |> <| handlerDeleted := false |>)
  else Ret st.

(** [dix/dixutils.c: BlockHandler] *)
Definition BlockHandler (p : positive) st : outcome handler_state :=
  let st := st <| inHandler ::= fun n => i32 (n + 1) |> in
  st <-- run_loop block_step p (st, O);
  let st := screens_block st in
  st <-- clean_handlers p st;
  Ret (st <| inHandler ::= fun n => i32 (n - 1) |>).

Fixpoint wakeup_from (i : nat) st : handler_state :=
  match i with
  | O => st
  | S i' =>
      wakeup_from i'
        (match handlers st !! i' with
         | Some h => if bh_deleted h then st else call_wakeup h st
         | None => st
         end)
  end.

(** [dix/dixutils.c: WakeupHandler] *)
Definition WakeupHandler (p : positive) st : outcome handler_state :=
  let st := st <| inHandler ::= fun n => i32 (n + 1) |> in
  let st := screens_wakeup st in
  let st := wakeup_from (length (handlers st)) st in
  st <-- clean_handlers p st;
  Ret (st <| inHandler ::= fun n => i32 (n - 1) |>).

(** [dix/dixutils.c: RegisterBlockAndWakeupHandlers] *)
Definition RegisterBlockAndWakeupHandlers (al : allocator) st (block wakeup data : Z)
  : bool * handler_state :=
  if (numHandlers st >=? sizeHandlers st) && negb (al 0%nat ((numHandlers st + 1) * 32))
  then (false, st)
  else
    let st := if numHandlers st >=? sizeHandlers st
              then st <| sizeHandlers := numHandlers st + 1 |> else st in
    (true, st <| handlers ::= fun l => l ++ [MkHandler block wakeup data false] |>).

Definition is_handler (block wakeup data : Z) h : bool :=
  (bh_BlockHandler h =? block) && (bh_WakeupHandler h =? wakeup) && (blockData h =? data).

Fixpoint handler_index (p : BlockHandlerRec -> bool) (l : list BlockHandlerRec) : option nat :=
  match l with
  | [] => None
  | h :: l' => if p h then Some O else S <$> handler_index p l'
  end.

(** [dix/dixutils.c: RemoveBlockAndWakeupHandlers] *)
Definition RemoveBlockAndWakeupHandlers st (block wakeup data : Z) : handler_state :=
  match handler_index (is_handler block wakeup data) (handlers st) with
  | None => st
  | Some i =>
      if negb (inHandler st =? 0) then
        st <| handlerDeleted := true |>
           <| handlers ::= alter (fun h => MkHandler (bh_BlockHandler h) (bh_WakeupHandler h)
                                             (blockData h) true) i |>
      else st <| handlers ::= delete i |>
  end.

(** [dix/dixutils.c: InitBlockAndWakeupHandlers] *)
Definition InitBlockAndWakeupHandlers st : handler_state :=
  st <| handlers := [] |> <| sizeHandlers := 0 |>.
End Handlers.
Arguments handler_state : clear implicits.

(** ** The work queue and the sleep queue *)

Section Queues.
Context {W : Type}.

(** [dix/dixutils.c: WorkQueuePtr 473-478] *)
Record WorkQueueRec := MkWork { wq_function : Z; wq_client : option Z; wq_closure : Z }.
(** [dix/dixutils.c: SleepQueueRec 569-574] *)
Record SleepQueueRec := MkSleep { sq_client : Z; sq_function : Z; sq_closure : Z }.

#[export] Instance WorkQueueRec_eq_dec : EqDecision WorkQueueRec.
Proof. solve_decision. Defined.

Record queue_state := MkQS {
  workQueue : list WorkQueueRec;
  sleepQueue : list SleepQueueRec;
  qs_world : W
}.
#[export] Instance eta_qs : Settable queue_state := fun s =>
  MkQS (workQueue s) (sleepQueue s) (qs_world s).
Implicit Types (st : queue_state) (q : WorkQueueRec).

(** Calling a work procedure, and whether its client is gone. *)
Context (run_work : WorkQueueRec -> queue_state -> bool * queue_state).
Context (clientGone : queue_state -> Z -> bool).
(** Stop and resume reading a client's requests. *)
Context (IgnoreClient AttendClient : Z -> W -> W).

(** [dix/dixutils.c: ClearWorkQueue] *)
Definition ClearWorkQueue st : queue_state := st <| workQueue := [] |>.

(** The link [p] is the one after [k] nodes; its node must survive the call. *)
Definition visit_work (st : queue_state) (k : nat) q (always_remove : bool)
  : queue_state * nat + outcome queue_state :=
  let '(done, st) := run_work q st in
  if decide (workQueue st !! k = Some q) then
    if done || always_remove then inl (st <| workQueue ::= delete k |>, k) else inl (st, S k)
  else inr Undefined.

Definition process_step (s : queue_state * nat) : queue_state * nat + outcome queue_state :=
  let '(st, k) := s in
  match workQueue st !! k with
  | None => inr (Ret st)
  | Some q => visit_work st k q false
  end.

(** [dix/dixutils.c: ProcessWorkQueue] *)
Definition ProcessWorkQueue (p : positive) st : outcome queue_state :=
  run_loop process_step p (st, O).

Definition zombie_step (s : queue_state * nat) : queue_state * nat + outcome queue_state :=
  let '(st, k) := s in
  match workQueue st !! k with
  | None => inr (Ret st)
  | Some q =>
      if match wq_client q with Some c => clientGone st c | None => false end
      then visit_work st k q true
      else inl (st, S k)
  end.

(** [dix/dixutils.c: ProcessWorkQueueZombies] *)
Definition ProcessWorkQueueZombies (p : positive) st : outcome queue_state :=
  run_loop zombie_step p (st, O).

(** [dix/dixutils.c: QueueWorkProc] *)
Definition QueueWorkProc (al : allocator) (k : nat) st (function : Z) (client : option Z)
    (closure : Z) : bool * queue_state :=
  if negb (al k 32) then (false, st)
  else (true, st <| workQueue ::= fun l => l ++ [MkWork function client closure] |>).

(** [dix/dixutils.c: ClientSleep] *)
Definition ClientSleep (al : allocator) st (client function closure : Z) : bool * queue_state :=
  if negb (al 0%nat 32) then (false, st)
  else (true, st <| qs_world ::= IgnoreClient client |>
                 <| sleepQueue ::= cons (MkSleep client function closure) |>).

(** [dix/dixutils.c: dixClientSignal] *)
Definition dixClientSignal (al : allocator) st (client : Z) : bool * queue_state :=
  match find_first (fun s => sq_client s =? client) (sleepQueue st) with
  | Some s => QueueWorkProc al 0 st (sq_function s) (Some (sq_client s)) (sq_closure s)
  | None => (false, st)
  end.

(** [None] is [CLIENT_SIGNAL_ANY]. *)
Definition matches (o : option Z) (x : Z) : bool :=
  match o with Some y => x =? y | None => true end.

Fixpoint signal_all (al : allocator) (k : nat) (sel : SleepQueueRec -> bool)
    (l : list SleepQueueRec) (count : Z) st : Z * queue_state :=
  match l with
  | [] => (count, st)
  | s :: l =>
      if sel s then
        let '(ok, st) := QueueWorkProc al k st (sq_function s) (Some (sq_client s)) (sq_closure s) in
        signal_all al (S k) sel l (i32 (count + if ok then 1 else 0)) st
      else signal_all al k sel l count st
  end.

(** [dix/dixutils.c: ClientSignalAll] *)
Definition ClientSignalAll (al : allocator) st (client function closure : option Z)
  : Z * queue_state :=
  signal_all al 0
    (fun s => matches client (sq_client s) && matches function (sq_function s) &&
              matches closure (sq_closure s)) (sleepQueue st) 0 st.

Fixpoint remove_sleeper (client : Z) (l : list SleepQueueRec) : option (list SleepQueueRec) :=
  match l with
  | [] => None
  | s :: l' => if sq_client s =? client then Some l' else cons s <$> remove_sleeper client l'
  end.

(** [dix/dixutils.c: ClientWakeup] *)
Definition ClientWakeup st (client : Z) : queue_state :=
  match remove_sleeper client (sleepQueue st) with
  | Some l => st <| sleepQueue := l |> <| qs_world ::= AttendClient client |>
  | None => st
  end.

(** [dix/dixutils.c: ClientIsAsleep] *)
Definition ClientIsAsleep st (client : Z) : bool :=
  existsb (fun s => sq_client s =? client) (sleepQueue st).
End Queues.
Arguments queue_state : clear implicits.

(** ** The callback manager *)

Section Callbacks.
Context {W : Type}.

(** [dix/callback_priv.h: CallbackRec 14-19] *)
Record CallbackRec := MkCb { cb_proc : Z; cb_data : Z; cb_deleted : bool }.
(** [dix/callback_priv.h: CallbackListRec 21-26] *)
Record CallbackListRec := MkCbl {
  inCallback : Z; cl_deleted : bool; numDeleted : Z; cl_list : list CallbackRec }.
#[export] Instance eta_cbl : Settable CallbackListRec := fun c =>
  MkCbl (inCallback c) (cl_deleted c) (numDeleted c) (cl_list c).

(** The callback lists by the address of their head, and the table of heads the
    manager cleans up. *)
Record cb_state := MkCS {
  cb_lists : gmap Z CallbackListRec;
  listsToCleanup : list (option Z);
  cs_world : W
}.
#[export] Instance eta_cs : Settable cb_state := fun s =>
  MkCS (cb_lists s) (listsToCleanup s) (cs_world s).
Implicit Types (st : cb_state).

(** Calling a callback with the head it is registered at. *)
Context (call_cb : CallbackRec -> Z -> cb_state -> cb_state).

Definition set_list st (pcbl : Z) (c : CallbackListRec) : cb_state :=
  st <| cb_lists ::= <[pcbl := c]> |>.

(** [dix/dixutils.c: _AddCallback] *)
Definition _AddCallback (al : allocator) (k : nat) st (pcbl : Z) (c : CallbackListRec)
    (callback data : Z) : bool * cb_state :=
  if negb (al k 32) then (false, st)
  else (true, set_list st pcbl (c <| cl_list ::= cons (MkCb callback data false) |>)).

Fixpoint cb_index (p : CallbackRec -> bool) (l : list CallbackRec) : option nat :=
  match l with
  | [] => None
  | c :: l' => if p c then Some O else S <$> cb_index p l'
  end.

(** [dix/dixutils.c: _DeleteCallback] *)
Definition _DeleteCallback st (pcbl : Z) (c : CallbackListRec) (callback data : Z)
  : bool * cb_state :=
  match cb_index (fun r => (cb_proc r =? callback) && (cb_data r =? data)) (cl_list c) with
  | None => (false, st)
  | Some i =>
      if negb (inCallback c =? 0) then
        (true, set_list st pcbl
           (c <| numDeleted ::= fun n => i32 (n + 1) |>
              <| cl_list ::= alter (fun r => MkCb (cb_proc r) (cb_data r) true) i |>))
      else (true, set_list st pcbl (c <| cl_list ::= delete i |>))
  end.

(** [dix/dixutils.c: DeleteCallbackList] *)
Definition DeleteCallbackList st (pcbl : option Z) : cb_state :=
  match pcbl with
  | None => st
  | Some a =>
      match cb_lists st !! a with
      | None => st
      | Some c =>
          if negb (inCallback c =? 0) then set_list st a (c <| cl_deleted := true |>)
          else
            let slot := list_find (fun o => o = Some a) (listsToCleanup st) in
            let st := match slot with
                      | Some (i, _) => st <| listsToCleanup ::= <[i := None]> |>
                      | None => st
                      end in
            st <| cb_lists ::= delete a |>
      end
  end.

(** Nodes are only added at the head and only marked while a list is walked,
    so the walk is at a fixed distance from the end of the list. *)
Fixpoint call_from (pcbl : Z) (n : nat) st : outcome cb_state :=
  match n with
  | O => Ret st
  | S n' =>
      match cb_lists st !! pcbl with
      | None => Undefined
      | Some c =>
          match reverse (cl_list c) !! n' with
          | None => Undefined
          | Some r => call_from pcbl n' (call_cb r pcbl st)
          end
      end
  end.

Fixpoint remove_deleted (l : list CallbackRec) (n : Z) : list CallbackRec * Z :=
  match l with
  | [] => ([], n)
  | c :: l' =>
      if n =? 0 then (l, n)
      else if cb_deleted c then remove_deleted l' (i32 (n - 1))
      else let '(l', n) := remove_deleted l' n in (c :: l', n)
  end.

(** [dix/dixutils.c: _CallCallbacks] *)
Definition _CallCallbacks st (pcbl : Z) : outcome cb_state :=
  match cb_lists st !! pcbl with
  | None => Undefined
  | Some c =>
      let st := set_list st pcbl (c <| inCallback ::= fun n => i32 (n + 1) |>) in
      st <-- call_from pcbl (length (cl_list c)) st;
      match cb_lists st !! pcbl with
      | None => Undefined
      | Some c =>
          let c := c <| inCallback ::= fun n => i32 (n - 1) |> in
          let st := set_list st pcbl c in
          if negb (inCallback c =? 0) then Ret st
          else if cl_deleted c then Ret (DeleteCallbackList st (Some pcbl))
          else if negb (numDeleted c =? 0) then
            let '(l, n) := remove_deleted (cl_list c) (numDeleted c) in
            Ret (set_list st pcbl (c <| cl_list := l |> <| numDeleted := n |>))
          else Ret st
      end
  end.

(** [dix/dixutils.c: CreateCallbackList] *)
Definition CreateCallbackList (al : allocator) st (pcbl : option Z) : outcome (bool * cb_state) :=
  match pcbl with
  | None => Ret (false, st)
  | Some a =>
      if negb (al 0%nat 24) then Ret (false, st)
      else
        let st := set_list st a (MkCbl 0 false 0 []) in
        match list_find (fun o => o = None) (listsToCleanup st) with
        | Some (i, _) => Ret (true, st <| listsToCleanup ::= <[i := Some a]> |>)
        | None =>
            if negb (al 1%nat (8 * (Z.of_nat (length (listsToCleanup st)) + 1))) then FatalError
            else Ret (true, st <| listsToCleanup ::= fun l => l ++ [Some a] |>)
        end
  end.

(** [dix/dixutils.c: AddCallback] *)
Definition AddCallback (al : allocator) st (pcbl : option Z) (callback data : Z)
  : outcome (bool * cb_state) :=
  match pcbl with
  | None => Ret (false, st)
  | Some a =>
      '(ok, st) <-- (match cb_lists st !! a with
                     | Some _ => Ret (true, st)
                     | None => CreateCallbackList al st pcbl
                     end);
      if negb ok then Ret (false, st)
      else
        match cb_lists st !! a with
        | Some c => Ret (_AddCallback al 2 st a c callback data)
        | None => Undefined
        end
  end.

(** [dix/dixutils.c: DeleteCallback] *)
Definition DeleteCallback st (pcbl : option Z) (callback data : Z) : bool * cb_state :=
  match pcbl with
  | None => (false, st)
  | Some a =>
      match cb_lists st !! a with
      | None => (false, st)
      | Some c => _DeleteCallback st a c callback data
      end
  end.

(** [dix/dixutils.c: DeleteCallbackManager] *)
Definition DeleteCallbackManager st : cb_state :=
  fold_left DeleteCallbackList (listsToCleanup st) st <| listsToCleanup := [] |>.

(** [dix/dixutils.c: InitCallbackManager] *)
Definition InitCallbackManager st : cb_state := DeleteCallbackManager st.
End Callbacks.
Arguments cb_state : clear implicits.

(** * Properties *)

(** ** Timestamps *)

(** Milliseconds since the epoch of the server's clock. *)
Definition instant (t : TimeStamp) : Z := months t * 4294967296 + milliseconds t.
Definition time_ok (t : TimeStamp) : Prop :=
  0 <= months t < 4294967296 /\ 0 <= milliseconds t < 4294967296.

Lemma CompareTimeStamps_instant a b :
  time_ok a -> time_ok b ->
  CompareTimeStamps a b = match instant a ?= instant b with Lt => EARLIER | Eq => SAMETIME | Gt => LATER end.
Proof.
  intros [Ha1 Ha2] [Hb1 Hb2]. unfold CompareTimeStamps, instant. rewrite !Z.gtb_ltb.
  destruct (Z.compare_spec (months a * 4294967296 + milliseconds a)
                           (months b * 4294967296 + milliseconds b));
    repeat match goal with |- context [?x <? ?y] => destruct (Z.ltb_spec x y) end; done || lia.
Qed.

(** A client's 32-bit time is read as the server time with these low bits
    that is nearest to now, across wrap-arounds of the millisecond counter; and
    comparing such times orders them as instants. *)
Theorem ClientTimeToServerTime_nearest now c :
  time_ok now -> 0 < months now < 4294967295 -> 0 < c < 4294967296 ->
  let ts := ClientTimeToServerTime now c in
  milliseconds ts = c /\ time_ok ts /\
  Z.abs (instant ts - instant now) <= HALFMONTH /\
  CompareTimeStamps ts now =
    match instant ts ?= instant now with Lt => EARLIER | Eq => SAMETIME | Gt => LATER end.
Proof.
  intros Hnow Hm Hc ts.
  assert (H : milliseconds ts = c /\ time_ok ts /\ Z.abs (instant ts - instant now) <= HALFMONTH).
  { destruct Hnow as [H1 H2]. unfold ts, ClientTimeToServerTime, time_ok, instant.
    change HALFMONTH with 2147483648. unfold CurrentTime.
    destruct (Z.eqb_spec c 0); [lia|]. rewrite !Z.gtb_ltb.
    destruct (Z.ltb_spec (milliseconds now) c).
    - rewrite u64_small by lia.
      destruct (Z.ltb_spec 2147483648 (c - milliseconds now)); cbn; [rewrite u32_small by lia|]; lia.
    - destruct (Z.ltb_spec c (milliseconds now)); cbn; [|lia].
      rewrite u64_small by lia.
      destruct (Z.ltb_spec 2147483648 (milliseconds now - c)); cbn; [rewrite u32_small by lia|]; lia. }
  destruct H as (H1 & H2 & H3). split_and!; try done; [apply H2..|]. by apply CompareTimeStamps_instant.
Qed.
Lemma ClientTimeToServerTime_nearest_witness :
  milliseconds (ClientTimeToServerTime (MkTime 7 10) 0xFFFFFFF0) = 0xFFFFFFF0 /\
  Z.abs (instant (ClientTimeToServerTime (MkTime 7 10) 0xFFFFFFF0) - instant (MkTime 7 10)) <= HALFMONTH.
Proof.
  destruct (ClientTimeToServerTime_nearest (MkTime 7 10) 0xFFFFFFF0) as (H1 & _ & H2 & _);
    [unfold time_ok; cbn; lia|cbn; lia|lia|].
  exact (conj H1 H2).
Defined.

(** ** Window lookups *)

Lemma window_mask t : 0 <= t -> Z.land (Z.shiftl 1 t) M_WINDOW <> 0 -> t = DRAWABLE_WINDOW \/ t = UNDRAWABLE_WINDOW.
Proof.
  intros Ht. change M_WINDOW with 5. unfold DRAWABLE_WINDOW, UNDRAWABLE_WINDOW.
  destruct (decide (t < 3)) as [H|H].
  - assert (t = 0 \/ t = 1 \/ t = 2) as [-> | [-> | ->]] by lia; [by left|done|by right].
  - intros Hz. exfalso. apply Hz. apply Z.bits_inj'. intros n Hn.
    rewrite Z.land_spec, Z.shiftl_1_l, Z.pow2_bits_eqb, Z.bits_0 by lia.
    destruct (Z.eqb_spec t n) as [<-|]; [|done]. cbn [andb].
    apply Z.bits_above_log2; [lia|]. change (Z.log2 5) with 2. lia.
Qed.

Section LookupSpec.
Context {V : Type}.
Implicit Types (db : resdb V).

Lemma set_error_twice db c id :
  set_error (set_error db (Some c) id) (Some c) id = set_error db (Some c) id.
Proof. destruct db. unfold set_error. cbn. by rewrite insert_insert_eq. Qed.

(** A window lookup succeeds only with a window the database holds under
    the id and the security hook grants; it never answers BadDrawable or
    BadMatch, and the client's error value is the id. *)
Theorem dixLookupWindow_spec xace drawable_type db id client access :
  dbwf db -> buckets (table db (dixClientIdForXID (LimitClients db) id)) <> 0 ->
  (forall v : V, 0 <= drawable_type v) ->
  let '(rc, pWin, db') := dixLookupWindow xace drawable_type db id client access in
  db' = set_error db (Some client) id /\ rc <> BadDrawable /\ rc <> BadMatch /\
  (rc = Success ->
     exists r, r ∈ entries db (dixClientIdForXID (LimitClients db) id) id /\
       pWin = Some (res_value r) /\ Z.land (res_type r) RC_DRAWABLE <> 0 /\
       xace client id (res_type r) (res_value r) access = Success /\
       (drawable_type (res_value r) = DRAWABLE_WINDOW \/
        drawable_type (res_value r) = UNDRAWABLE_WINDOW)) /\
  (rc <> Success -> pWin = None).
Proof.
  intros Hwf Hb Hty. unfold dixLookupWindow, dixLookupDrawable, dixLookupResourceByClass.
  rewrite (in_use_owner _ _ Hwf Hb),
    (bucket_search db id (fun r => negb (Z.land (res_type r) RC_DRAWABLE =? 0))).
  destruct (find_first _ _) as [r|] eqn:Hr; cbn -[set_error].
  2:{ cbn -[set_error]. rewrite set_error_twice. split_and!; done. }
  apply find_first_Some in Hr as [Hcls Hin]. breflect.
  set (rc := xace _ _ _ _ _). destruct (Z.eqb_spec rc Success) as [Hrc|Hrc]; cbn [negb].
  - change (if M_WINDOW =? 0 then M_DRAWABLE else M_WINDOW) with M_WINDOW.
    destruct (Z.eqb_spec (Z.land (Z.shiftl 1 (drawable_type (res_value r))) M_WINDOW) 0) as [|Hm];
      [cbn -[set_error]; split_and!; done|].
    cbn -[set_error]. split_and!; try done.
    intros _. exists r. split_and!; try done. apply window_mask; [apply Hty|done].
  - cbn -[set_error]. destruct (Z.eqb_spec rc Success); [done|]. cbn -[set_error]. rewrite set_error_twice.
    destruct (Z.eqb_spec rc BadValue) as [->|]; [cbn -[set_error]; split_and!; done|].
    destruct (Z.eqb_spec rc BadMatch) as [->|]; [cbn -[set_error]; split_and!; done|].
    destruct (Z.eqb_spec rc BadDrawable) as [->|]; [cbn -[set_error]; split_and!; done|].
    by split_and!.
Qed.
End LookupSpec.

Lemma dixLookupWindow_spec_witness :
  let r := dixLookupWindow (fun _ _ _ _ _ => Success) (fun _ => DRAWABLE_WINDOW) sample_db 0x200002 1
             DixGetPropAccess in
  r.1 = (Success, Some []) /\ r.2 = set_error sample_db (Some 1) 0x200002.
Proof.
  pose proof (dixLookupWindow_spec (fun _ _ _ _ _ => Success) (fun _ => DRAWABLE_WINDOW) sample_db
    0x200002 1 DixGetPropAccess (proj1 sample_db_wf) ltac:(by vm_compute)
    ltac:(intros v; reflexivity || (vm_compute; discriminate))) as H.
  cbv zeta in *.
  assert (E : (dixLookupWindow (fun _ _ _ _ _ => Success) (fun _ => DRAWABLE_WINDOW) sample_db
    0x200002 1 DixGetPropAccess).1 = (Success, Some [])) by by vm_compute.
  destruct (dixLookupWindow _ _ _ _ _ _) as [[rc w] db']. cbn [fst snd] in *.
  split; [exact E|exact (proj1 H)].
Defined.

(** ** Handlers *)

Definition live (h : BlockHandlerRec) : bool := negb (bh_deleted h).

Section HandlerSpec.
Context {W : Type}.
Implicit Types (st : handler_state W) (l : list BlockHandlerRec).

(** The scan keeps a prefix of live handlers. *)
Lemma compact_step_inv l0 (s : list BlockHandlerRec * nat) :
  (filter live s.1 = filter live l0 /\ Forall live (take s.2 s.1)) ->
  match compact_step s with
  | inl s' => (filter live s'.1 = filter live l0 /\ Forall live (take s'.2 s'.1)) /\
              (length s'.1 - s'.2 < length s.1 - s.2)%nat
  | inr (Ret l) => l = filter live l0
  | inr _ => False
  end.
Proof.
  destruct s as [l i]. cbn [fst snd]. intros [Hf Hl]. unfold compact_step.
  destruct (l !! i) as [h|] eqn:Hi.
  - pose proof (lookup_lt_Some _ _ _ Hi). pose proof (take_drop_middle l i h Hi) as Hsplit.
    destruct (bh_deleted h) eqn:Hd; cbn [fst snd].
    + rewrite length_delete by eauto. split; [split|lia].
      * rewrite <- Hf, delete_take_drop, filter_app. rewrite <- Hsplit at 3.
        rewrite filter_app, filter_cons_False; [done|]. unfold live. rewrite Hd. cbn. tauto.
      * rewrite delete_take_drop. by rewrite take_app_length' by (rewrite length_take; lia).
    + split; [split; [done|]|lia]. rewrite (take_S_r _ _ _ Hi), Forall_app.
      split; [done|]. constructor; [|done]. unfold live. by rewrite Hd.
  - apply lookup_ge_None in Hi. rewrite take_ge in Hl by done. rewrite <- Hf.
    clear -Hl. induction Hl as [|h l Hh _ IH]; [done|]. by rewrite filter_cons_True, <- IH.
Qed.

Lemma compact_spec p l :
  Z.of_nat (length l) < Zpos p -> compact p l = Ret (filter live l).
Proof.
  intros Hp. destruct (run_loop_total compact_step
    (fun s => filter live s.1 = filter live l /\ Forall live (take s.2 s.1)) (fun a => a = filter live l)
    (fun s => Z.of_nat (length s.1 - s.2)) p (l, O)) as (a & Ha & ->); [| |cbn; lia|done].
  - intros s Hs. pose proof (compact_step_inv l s Hs) as H.
    destruct (compact_step s) as [s'|[]]; try done. destruct H; split; [done|lia].
  - split; [done|]. constructor.
Qed.

(** What the clean-up leaves. *)
Definition cleaned (st st' : handler_state W) : Prop :=
  handlerDeleted st' = false /\ hs_world st' = hs_world st /\ inHandler st' = inHandler st /\
  handlers st' = if handlerDeleted st then filter live (handlers st) else handlers st.

Lemma clean_handlers_spec p st : Z.of_nat (length (handlers st)) < Zpos p ->
  exists st', clean_handlers p st = Ret st' /\ cleaned st st'.
Proof.
  intros Hp. unfold clean_handlers, cleaned. destruct (handlerDeleted st) eqn:Hd; cbn [obind].
  - rewrite compact_spec by done. cbn [obind]. eexists. by split_and!.
  - eexists. by split_and!.
Qed.

Context (call_block : BlockHandlerRec -> handler_state W -> handler_state W) (N : nat).
Hypothesis call_bound : forall h st,
  (length (handlers st) <= N -> length (handlers (call_block h st)) <= N)%nat.

(** The walk ends when the handlers are bounded, also when some are registered
    on the way. *)
Lemma block_loop_total p st : (length (handlers st) <= N)%nat -> Z.of_nat N < Zpos p ->
  exists st', run_loop (block_step call_block) p (st, O) = Ret st' /\
              (length (handlers st') <= N)%nat.
Proof.
  intros Hst Hp.
  destruct (run_loop_total (block_step call_block) (fun s => (length (handlers s.1) <= N)%nat)
    (fun st' => (length (handlers st') <= N)%nat)
    (fun s => Z.of_nat (N - s.2)) p (st, O)) as (st' & Hr & Hl); [|done|cbn; lia|by exists st'].
  intros [s i] Hs. cbn [fst snd] in *. unfold block_step. destruct (handlers s !! i) as [h|] eqn:Hi.
  - pose proof (lookup_lt_Some _ _ _ Hi). cbn [fst snd]. split; [|lia].
    destruct (bh_deleted h); [done|by apply call_bound].
  - done.
Qed.
End HandlerSpec.

(** BlockHandler calls the handlers in turn and returns, also when handlers
    are registered and removed meanwhile (as long as their number stays
    bounded); exactly the handlers not marked as deleted are left, in their
    order, and nothing but the list is touched by the clean-up. *)
Theorem BlockHandler_compacts {W} call_block screens_block (N : nat) (st : handler_state W) p :
  (forall h s, (length (handlers s) <= N -> length (handlers (call_block h s)) <= N)%nat) ->
  (forall s, (length (handlers s) <= N -> length (handlers (screens_block s)) <= N)%nat) ->
  (length (handlers st) <= N)%nat -> Z.of_nat N < Zpos p ->
  exists st1 st2 st',
    run_loop (block_step call_block) p (st <| inHandler ::= fun n => i32 (n + 1) |>, O) = Ret st1 /\
    st2 = screens_block st1 /\ BlockHandler call_block screens_block p st = Ret st' /\
    handlerDeleted st' = false /\ hs_world st' = hs_world st2 /\
    inHandler st' = i32 (inHandler st2 - 1) /\
    handlers st' = if handlerDeleted st2 then filter live (handlers st2) else handlers st2.
Proof.
  intros Hc Hs Hst Hp. unfold BlockHandler.
  match goal with |- context [run_loop _ p (?s, O)] =>
    destruct (block_loop_total call_block N Hc p s Hst Hp) as (st1 & H1 & Hl1) end.
  cbv zeta. rewrite H1. cbn [obind]. specialize (Hs st1 Hl1).
  destruct (clean_handlers_spec p (screens_block st1) ltac:(lia)) as (st' & -> & H2 & H3 & H4 & H5).
  exists st1, (screens_block st1). cbn [obind]. eexists. do 3 (split; [done|]).
  split; [done|]. split; [done|]. split; [|done]. cbn. by rewrite H4.
Qed.

Lemma length_delete_le {A} (l : list A) : forall i, (length (delete i l) <= length l)%nat.
Proof.
  unfold delete. induction l as [|x l IH]; intros [|i]; simpl; [lia..|]. apply le_n_S, IH.
Qed.

(** Handler 1 unregisters itself; handler 2 stays. *)
Definition self_removing (h : BlockHandlerRec) (st : handler_state unit) : handler_state unit :=
  if bh_BlockHandler h =? 1
  then RemoveBlockAndWakeupHandlers st (bh_BlockHandler h) (bh_WakeupHandler h) (blockData h)
  else st.
Definition two_handlers : handler_state unit :=
  MkHS [MkHandler 1 10 0 false; MkHandler 2 20 0 false] 2 0 false tt.

Lemma BlockHandler_compacts_witness :
  exists st', BlockHandler self_removing (fun st => st) 10 two_handlers = Ret st' /\
    handlers st' = [MkHandler 2 20 0 false].
Proof.
  assert (Hc : forall h s, (length (handlers s) <= 2 -> length (handlers (self_removing h s)) <= 2)%nat).
  { intros h s Hs. unfold self_removing. destruct (bh_BlockHandler h =? 1); [|done].
    unfold RemoveBlockAndWakeupHandlers. destruct (handler_index _ _) as [i|]; [|done].
    destruct (negb (inHandler s =? 0)); cbn; [by rewrite length_alter|].
    etrans; [apply length_delete_le|done]. }
  destruct (BlockHandler_compacts self_removing (fun st => st) 2 two_handlers 10 Hc ltac:(done)
    ltac:(cbn; lia) ltac:(lia)) as (st1 & st2 & st' & H1 & H2 & H3 & _ & _ & _ & H4).
  exists st'. split; [exact H3|]. vm_compute in H1. injection H1 as <-. rewrite H4, H2. by vm_compute.
Defined.

(** WakeupHandler returns after calling the handlers from the last to the
    first, and leaves exactly the handlers not marked as deleted, in their
    order. *)
Theorem WakeupHandler_compacts {W} call_wakeup screens_wakeup (st : handler_state W) p :
  let st1 := screens_wakeup (st <| inHandler ::= fun n => i32 (n + 1) |>) in
  let st2 := wakeup_from call_wakeup (length (handlers st1)) st1 in
  Z.of_nat (length (handlers st2)) < Zpos p ->
  exists st', WakeupHandler call_wakeup screens_wakeup p st = Ret st' /\
    handlerDeleted st' = false /\ hs_world st' = hs_world st2 /\
    inHandler st' = i32 (inHandler st2 - 1) /\
    handlers st' = if handlerDeleted st2 then filter live (handlers st2) else handlers st2.
Proof.
  intros st1 st2 Hp. unfold WakeupHandler. fold st1. fold st2.
  destruct (clean_handlers_spec p st2 Hp) as (st' & -> & H2 & H3 & H4 & H5). cbn [obind].
  eexists. split; [done|]. split; [done|]. split; [done|]. split; [|done]. cbn. by rewrite H4.
Qed.

Lemma WakeupHandler_compacts_witness :
  exists st', WakeupHandler (fun h st => self_removing h st) (fun st => st) 10 two_handlers = Ret st' /\
    handlers st' = [MkHandler 2 20 0 false].
Proof.
  destruct (WakeupHandler_compacts (fun h st => self_removing h st) (fun st => st) two_handlers 10)
    as (st' & H1 & _ & _ & _ & H2); [by vm_compute|].
  exists st'. exact (conj H1 H2).
Defined.

(** ** The work queue *)

Section WorkQueueSpec.
Context {W : Type}.
Context (run_work : WorkQueueRec -> queue_state W -> bool * queue_state W).
(** The calls made so far, with their answers. *)
Context (calls : W -> list (WorkQueueRec * bool)).
Context (weight : WorkQueueRec -> nat).

Definition total (l : list WorkQueueRec) : nat := sum_list (weight <$> l).

(** Work procedures queue further work only at the end, and only lighter work
    than themselves. *)
Record work_ok : Prop := {
  work_appends : forall q st, exists new,
    workQueue (run_work q st).2 = workQueue st ++ new /\ (total new < weight q)%nat;
  work_called : forall q st,
    calls (qs_world (run_work q st).2) = calls (qs_world st) ++ [(q, (run_work q st).1)]
}.

Definition kept (log : list (WorkQueueRec * bool)) : list WorkQueueRec :=
  (filter (fun x => x.2 = false) log).*1.

(** After [k] kept items: [log] is what was called, the rest is pending. *)
Definition processing (st0 : queue_state W) (s : queue_state W * nat) : Prop :=
  let '(st, k) := s in
  exists log, calls (qs_world st) = calls (qs_world st0) ++ log /\
    take k (workQueue st) = kept log /\ (k <= length (workQueue st))%nat /\
    workQueue st0 `prefix_of` log.*1 ++ drop k (workQueue st).

Lemma total_app l l' : total (l ++ l') = (total l + total l')%nat.
Proof. unfold total. rewrite fmap_app. induction (weight <$> l); cbn; lia. Qed.

Lemma process_step_spec (Hok : work_ok) st0 s :
  processing st0 s ->
  match process_step run_work s with
  | inl s' => processing st0 s' /\
              (total (drop s'.2 (workQueue s'.1)) < total (drop s.2 (workQueue s.1)))%nat
  | inr (Ret st) => exists log, calls (qs_world st) = calls (qs_world st0) ++ log /\
      workQueue st = kept log /\ workQueue st0 `prefix_of` log.*1
  | inr _ => False
  end.
Proof.
  destruct s as [st k]. intros (log & Hc & Ht & Hk & Hp). unfold process_step.
  destruct (workQueue st !! k) as [q|] eqn:Hq.
  2:{ apply lookup_ge_None in Hq. rewrite take_ge in Ht by done.
      rewrite drop_ge, app_nil_r in Hp by done. by exists log. }
  pose proof (lookup_lt_Some _ _ _ Hq) as Hlt.
  unfold visit_work. destruct (work_appends Hok q st) as (new & Hnew & Hw).
  pose proof (work_called Hok q st) as Hcall.
  destruct (run_work q st) as [done st1]. cbn [fst snd] in *.
  assert (Hq1 : workQueue st1 !! k = Some q) by (rewrite Hnew, lookup_app_l; done).
  rewrite decide_True by done. rewrite orb_false_r.
  assert (Hdrop : drop k (workQueue st) = q :: drop (S k) (workQueue st)) by (by apply drop_S).
  assert (Hpre : workQueue st0 `prefix_of` (log ++ [(q, done)]).*1 ++ drop (S k) (workQueue st) ++ new).
  { rewrite Hdrop in Hp. rewrite fmap_app, <- app_assoc. cbn.
    change (q :: drop (S k) (workQueue st) ++ new) with ((q :: drop (S k) (workQueue st)) ++ new).
    rewrite app_assoc. by apply prefix_app_r. }
  assert (Htot : (total (drop (S k) (workQueue st) ++ new) < total (drop k (workQueue st)))%nat).
  { rewrite Hdrop, total_app. unfold total at 3. cbn. fold (total (drop (S k) (workQueue st))). lia. }
  destruct done; cbn [fst snd].
  - assert (Hd : delete k (workQueue st1) = take k (workQueue st) ++ drop (S k) (workQueue st) ++ new).
    { rewrite Hnew, delete_take_drop, take_app_le, drop_app_le by lia. done. }
    unfold processing. change (workQueue (st1 <| workQueue ::= delete k |>)) with (delete k (workQueue st1)).
    change (qs_world (st1 <| workQueue ::= delete k |>)) with (qs_world st1).
    rewrite Hd, take_app_length', drop_app_length' by (rewrite length_take; lia).
    split; [|done]. exists (log ++ [(q, true)]).
    split_and!; [by rewrite Hcall, Hc, app_assoc| |rewrite length_app, length_take; lia|done].
    unfold kept. rewrite filter_app, filter_cons_False, app_nil_r by done. done.
  - rewrite Hnew, drop_app_le by lia. split; [|done].
    exists (log ++ [(q, false)]). rewrite Hnew, drop_app_le, take_app_le by lia.
    split_and!; [by rewrite Hcall, Hc, app_assoc| |rewrite length_app; lia|done].
    rewrite (take_S_r _ _ _ Hq), Ht. unfold kept.
    rewrite filter_app, fmap_app, filter_cons_True by done. done.
Qed.
End WorkQueueSpec.

(** ProcessWorkQueue calls every queued procedure once, in queue order, and
    also the work queued meanwhile; exactly the procedures that answered FALSE
    stay queued, in order. *)
Theorem ProcessWorkQueue_spec {W} run_work calls weight (st : queue_state W) p :
  work_ok run_work calls weight -> Z.of_nat (total weight (workQueue st)) < Zpos p ->
  exists st' log, ProcessWorkQueue run_work p st = Ret st' /\
    calls (qs_world st') = calls (qs_world st) ++ log /\
    workQueue st `prefix_of` log.*1 /\
    workQueue st' = (filter (fun x => x.2 = false) log).*1.
Proof.
  intros Hok Hp.
  destruct (run_loop_total (process_step run_work) (processing calls st)
    (fun st' => exists log, calls (qs_world st') = calls (qs_world st) ++ log /\
      workQueue st' = kept log /\ workQueue st `prefix_of` log.*1)
    (fun s => Z.of_nat (total weight (drop s.2 (workQueue s.1)))) p (st, O))
    as (st' & Hr & log & H1 & H2 & H3).
  - intros s Hs. pose proof (process_step_spec run_work calls weight Hok st s Hs) as H.
    destruct (process_step run_work s) as [s'|[]]; try done. destruct H; split; [done|lia].
  - exists []. rewrite app_nil_r. split_and!; [done..|lia|done].
  - cbn. by rewrite drop_0.
  - by exists st', log.
Qed.

(** Procedure 1 is done, 2 wants to be called again, 3 queues a procedure 1. *)
Definition sample_work (q : WorkQueueRec) (st : queue_state (list (WorkQueueRec * bool)))
  : bool * queue_state (list (WorkQueueRec * bool)) :=
  let r := negb (wq_function q =? 2) in
  let st := st <| qs_world ::= fun l => l ++ [(q, r)] |> in
  (r, if wq_function q =? 3 then st <| workQueue ::= fun l => l ++ [MkWork 1 None 0] |> else st).
Definition sample_weight (q : WorkQueueRec) : nat := if wq_function q =? 3 then 2 else 1.

Lemma ProcessWorkQueue_spec_witness :
  exists st' log, ProcessWorkQueue sample_work 100
      (MkQS [MkWork 3 None 0; MkWork 2 None 5; MkWork 1 None 6] [] []) = Ret st' /\
    qs_world st' = log /\ workQueue st' = (filter (fun x => x.2 = false) log).*1.
Proof.
  destruct (ProcessWorkQueue_spec sample_work (fun l => l) sample_weight
    (MkQS [MkWork 3 None 0; MkWork 2 None 5; MkWork 1 None 6] [] []) 100) as (st' & log & H1 & H2 & _ & H3).
  - split.
    + intros q st. unfold sample_work, sample_weight. destruct (wq_function q =? 3).
      * exists [MkWork 1 None 0]. cbn. split; [reflexivity|lia].
      * exists []. cbn. split; [by rewrite app_nil_r|lia].
    + intros q st. unfold sample_work. destruct (wq_function q =? 3); reflexivity.
  - vm_compute. reflexivity.
  - exists st', log. exact (conj H1 (conj H2 H3)).
Defined.
