(* ===== verification/Request.v ===== *)
(** * Request: what the request handlers share

    The length checks of [include/dix.h], the bytes of the variable part of a
    request, bounds-checked [memcpy], and the sending of replies
    ([dix/request_priv.h]).  A request is a record of its fixed fields as they
    lie in the buffer, before the handler swaps them, and the list [rest] of
    the bytes after them. *)

From S2P Require Import Prelude.
From S2P Require Import Wire.

(** ** Length checks; [true] means BadLength *)

(** [include/dix.h: REQUEST_SIZE_MATCH 68-72] *)
Definition size_mismatch (sizeof req_len : Z) : bool := negb (Z.shiftr sizeof 2 =? req_len).
(** [include/dix.h: REQUEST_AT_LEAST_SIZE 74-78] *)
Definition too_short (sizeof req_len : Z) : bool := Z.shiftr sizeof 2 >? req_len.
(** [include/dix.h: REQUEST_FIXED_SIZE 86-92] *)
Definition not_fixed_size (sizeof n req_len : Z) : bool :=
  (Z.shiftr sizeof 2 >? req_len) || (Z.shiftr n 2 >=? req_len) ||
  negb (Z.shiftr (u64 (sizeof + n + 3)) 2 =? req_len).

(** ** Bytes and units *)

(** A [char] field read into an [int]. *)
Definition schar (x : Z) : Z := (x + 128) mod 256 - 128.
(** A 16-bit field read as signed. *)
Definition s16 (x : Z) : Z := (x + 32768) mod 65536 - 32768.

(** The native words of a byte array. *)
Fixpoint words16 (l : list Z) : list Z :=
  match l with
  | a :: b :: l' => (a + 256 * b) :: words16 l'
  | _ => []
  end.
Fixpoint words32 (l : list Z) : list Z :=
  match l with
  | a :: b :: c :: d :: l' => (a + 256 * b + 65536 * c + 16777216 * d) :: words32 l'
  | _ => []
  end.

(** [include/misc.h: SwapRestS 209-213] *)
Definition SwapRestS (rest : list Z) : list Z :=
  mjoin (le16 <$> SwapShorts (words16 rest) (length (words16 rest))).
(** [dix/dix_priv.h: SwapRestL 808-809] *)
Definition SwapRestL (rest : list Z) : list Z :=
  mjoin (le32 <$> SwapLongs (words32 rest) (length (words32 rest))).

(** [memcpy (dst + off, src, n)]; leaving either array is undefined. *)
Definition memcpy (dst : list Z) (off : Z) (src : list Z) (n : Z) : outcome (list Z) :=
  if (0 <=? off) && (0 <=? n) && (off + n <=? Z.of_nat (length dst))
     && (n <=? Z.of_nat (length src))
  then Ret (take (Z.to_nat off) dst ++ take (Z.to_nat n) src ++ drop (Z.to_nat (off + n)) dst)
  else Undefined.

(** [calloc] of the C library: zeroed memory. *)
Definition zeros (n : Z) : list Z := replicate (Z.to_nat n) 0.

(** ** Replies *)

(** The words of a reply header after the generic part, in wire order, the
    [length] field, and the bytes that follow the header. *)
Record Reply := MkReply { rp_fields : list Z; rp_length : Z; rp_payload : list cell }.

Definition sizeof_xGenericReply : Z := 32.

(** The sequence number and the type byte are filled in for every reply alike
    and are not part of the model.
    [dix/request_priv.h: __write_reply_hdr_simple] *)
Definition write_reply_hdr_simple (sw : bool) (hdrLen : Z) (fields : list Z) : Reply :=
  MkReply fields (swapl sw (bytes_to_int32 (hdrLen - sizeof_xGenericReply))) [].

(** [None] is the status BadAlloc.
    [dix/request_priv.h: __write_reply_hdr_and_rpcbuf] *)
Definition write_reply_hdr_and_rpcbuf (sw : bool) (hdrLen : Z) (fields : list Z) (b : x_rpcbuf_t)
  : option Reply :=
  if error b then None
  else
    Some (MkReply fields
            (swapl sw (u32 (bytes_to_int32 (hdrLen - sizeof_xGenericReply) + x_rpcbuf_wsize_units b)))
            (take (Z.to_nat (wpos b)) (default [] (buffer b)))).

(** ** Facts *)

Lemma memcpy_Ret dst off src n :
  0 <= off -> 0 <= n -> off + n <= Z.of_nat (length dst) -> n <= Z.of_nat (length src) ->
  memcpy dst off src n =
    Ret (take (Z.to_nat off) dst ++ take (Z.to_nat n) src ++ drop (Z.to_nat (off + n)) dst).
Proof.
  intros H1 H2 H3 H4. unfold memcpy.
  destruct (Z.leb_spec 0 off), (Z.leb_spec 0 n), (Z.leb_spec (off + n) (Z.of_nat (length dst))),
    (Z.leb_spec n (Z.of_nat (length src))); cbn [andb]; done || lia.
Qed.

Lemma length_zeros n : 0 <= n -> Z.of_nat (length (zeros n)) = n.
Proof. intros H. unfold zeros. rewrite length_replicate. lia. Qed.

(** Filling an array by two adjacent copies. *)
Lemma memcpy_two a b :
  (d <-- memcpy (zeros (Z.of_nat (length a) + Z.of_nat (length b))) 0 a (Z.of_nat (length a));
   memcpy d (Z.of_nat (length a)) b (Z.of_nat (length b))) = Ret (a ++ b).
Proof.
  set (z := zeros _). assert (Hz : length z = (length a + length b)%nat).
  { unfold z, zeros. rewrite length_replicate. lia. }
  rewrite memcpy_Ret by lia. cbn [obind]. change (Z.to_nat 0) with O. rewrite take_0. cbn [app].
  rewrite Z.add_0_l, Nat2Z.id, firstn_all.
  assert (Hd : length (drop (length a) z) = length b) by (rewrite length_drop; lia).
  rewrite memcpy_Ret by (rewrite ?length_app; lia). f_equal.
  rewrite !Nat2Z.id, take_app_length, firstn_all, drop_ge, app_nil_r by (rewrite length_app; lia). done.
Qed.
Lemma memcpy_two_rev a b :
  (d <-- memcpy (zeros (Z.of_nat (length a) + Z.of_nat (length b))) (Z.of_nat (length a)) b
           (Z.of_nat (length b));
   memcpy d 0 a (Z.of_nat (length a))) = Ret (a ++ b).
Proof.
  set (z := zeros _). assert (Hz : length z = (length a + length b)%nat).
  { unfold z, zeros. rewrite length_replicate. lia. }
  assert (Ht : length (take (length a) z) = length a) by (rewrite length_take; lia).
  rewrite memcpy_Ret by lia. cbn [obind].
  rewrite !Nat2Z.id, firstn_all, (drop_ge z), app_nil_r by lia.
  rewrite memcpy_Ret by (rewrite ?length_app; lia). change (Z.to_nat 0) with O. rewrite take_0.
  cbn [app]. rewrite Z.add_0_l, Nat2Z.id, firstn_all, drop_app_length' by lia. done.
Qed.
Lemma memcpy_whole a :
  memcpy (zeros (Z.of_nat (length a))) 0 a (Z.of_nat (length a)) = Ret a.
Proof.
  rewrite memcpy_Ret by (rewrite ?length_zeros by lia; lia). cbn. rewrite !Nat2Z.id, firstn_all.
  rewrite drop_ge, app_nil_r; [done|]. unfold zeros. rewrite length_replicate. lia.
Qed.

(** ** Units of a byte array *)

Lemma take_words32 k l : take k (words32 l) = words32 (take (4 * k) l).
Proof.
  revert l. induction k as [|k IH]; intros l; [done|].
  replace (4 * S k)%nat with (S (S (S (S (4 * k))))) by lia.
  destruct l as [|a [|b [|c [|d l]]]]; try done. cbn [words32 take]. by rewrite IH.
Qed.
Lemma take_words16 k l : take k (words16 l) = words16 (take (2 * k) l).
Proof.
  revert l. induction k as [|k IH]; intros l; [done|].
  replace (2 * S k)%nat with (S (S (2 * k))) by lia.
  destruct l as [|a [|b l]]; try done. cbn [words16 take]. by rewrite IH.
Qed.
Lemma length_words32 k l : length l = (4 * k)%nat -> length (words32 l) = k.
Proof.
  revert l. induction k as [|k IH]; intros l Hl.
  - by apply nil_length_inv in Hl; subst.
  - destruct l as [|a [|b [|c [|d l]]]]; cbn in Hl; try lia. cbn. rewrite (IH l); lia.
Qed.
Lemma length_words16 k l : length l = (2 * k)%nat -> length (words16 l) = k.
Proof.
  revert l. induction k as [|k IH]; intros l Hl.
  - by apply nil_length_inv in Hl; subst.
  - destruct l as [|a [|b l]]; cbn in Hl; try lia. cbn. rewrite (IH l); lia.
Qed.

(** Data of a format as a client of the given byte order reads it. *)
Definition wire_data (sw : bool) (format : Z) (data : list Z) : list Z :=
  if format =? 32 then mjoin (wire32 sw <$> words32 data)
  else if format =? 16 then mjoin (wire16 sw <$> words16 data)
  else data.

Definition bytes (l : list Z) : Prop := Forall (fun b => 0 <= b < 256) l.

Lemma mjoin_le32_words k l : length l = (4 * k)%nat -> bytes l -> mjoin (le32 <$> words32 l) = l.
Proof.
  revert l. induction k as [|k IH]; intros l Hl Hb.
  - by apply nil_length_inv in Hl; subst.
  - destruct l as [|a [|b [|c [|d l]]]]; cbn in Hl; try lia.
    do 4 (apply Forall_cons in Hb as [? Hb]). cbn [words32 fmap list_fmap].
    rewrite mjoin_cons, IH by (done || lia). cbn [app].
    unfold le32. cbn [app]. repeat f_equal; Z.div_mod_to_equations; lia.
Qed.
Lemma mjoin_le16_words k l : length l = (2 * k)%nat -> bytes l -> mjoin (le16 <$> words16 l) = l.
Proof.
  revert l. induction k as [|k IH]; intros l Hl Hb.
  - by apply nil_length_inv in Hl; subst.
  - destruct l as [|a [|b l]]; cbn in Hl; try lia.
    do 2 (apply Forall_cons in Hb as [? Hb]). cbn [words16 fmap list_fmap].
    rewrite mjoin_cons, IH by (done || lia).
    unfold le16. cbn [app]. repeat f_equal; Z.div_mod_to_equations; lia.
Qed.

(** A client with the server's byte order reads the bytes as they are. *)
Lemma wire_data_native format data :
  bytes data ->
  (format = 32 -> exists k, length data = (4 * k)%nat) ->
  (format = 16 -> exists k, length data = (2 * k)%nat) -> wire_data false format data = data.
Proof.
  intros Hb H32 H16. unfold wire_data.
  destruct (Z.eqb_spec format 32) as [E|]; [destruct (H32 E) as [k Hk]; by eapply mjoin_le32_words|].
  destruct (Z.eqb_spec format 16) as [E|]; [|done]. destruct (H16 E) as [k Hk].
  by eapply mjoin_le16_words.
Qed.
