(* ===== verification/Property.v ===== *)
(** * Property: window properties ([dix/property.c])

    A window's properties are a list, newest first; a [PropertyPtr] is a
    position in it.  The security hooks, the filter callbacks and the windows
    come from other components and are parameters.  What the handlers send or
    tell other components is recorded in order in [ps_effects]; the time stamps
    of PropertyNotify events are not modelled. *)

From S2P Require Import Prelude.
From S2P Require Import Wire.
From S2P Require Import Atom.
From S2P Require Import Resource.
From S2P Require Import DixUtils.
From S2P Require Import Request.

(** ** State *)

(** [include/propertyst.h: PropertyRec 58-66] *)
Record PropertyRec := MkProp {
  propertyName : Z;
  prop_type : Z;
  prop_format : Z;
  prop_size : Z;
  prop_data : list Z
}.
#[export] Instance eta_prop : Settable PropertyRec := fun p =>
  MkProp (propertyName p) (prop_type p) (prop_format p) (prop_size p) (prop_data p).

Definition PropertyNewValue : Z := 0.
Definition PropertyDelete : Z := 1.
Definition PropModeReplace : Z := 0.
Definition PropModePrepend : Z := 1.
Definition PropModeAppend : Z := 2.
Definition AnyPropertyType : Z := 0.

Inductive prop_effect :=
  | PropertyNotify (window state atom : Z)
  | SetWindowVRRMode (window mode : Z)
  | CheckWindowOptionalNeed (window : Z)
  | SendReply (client : Z) (r : Reply).

Record prop_state := MkPS {
  ps_windows : gmap Z (list PropertyRec);
  ps_error : gmap Z Z;
  ps_effects : list prop_effect
}.
#[export] Instance eta_ps : Settable prop_state := fun s =>
  MkPS (ps_windows s) (ps_error s) (ps_effects s).

Definition props (st : prop_state) (win : Z) : list PropertyRec := default [] (ps_windows st !! win).
Definition set_props (st : prop_state) (win : Z) (l : list PropertyRec) : prop_state :=
  st <| ps_windows ::= <[win := l]> |>.
Definition effect (st : prop_state) (e : prop_effect) : prop_state :=
  st <| ps_effects ::= fun l => l ++ [e] |>.
Definition set_errorValue (st : prop_state) (client v : Z) : prop_state :=
  st <| ps_error ::= <[client := u32 v]> |>.

(** [dix/property_priv.h: PropertyFilterParam 60-89] *)
Record PropertyFilterParam := MkPF {
  p_client : Z; p_window : Z; p_property : Z; p_type : Z;
  p_atoms : list Z; p_nAtoms : Z; p_nPositions : Z;
  p_skip : bool; p_status : Z; p_access_mode : Z;
  p_format : Z; p_mode : Z; p_len : Z; p_value : list Z; p_sendevent : bool;
  p_delete : Z; p_longOffset : Z; p_longLength : Z
}.

(** The requests of the file. *)
Record xRotatePropertiesReq := MkRotate {
  ro_window : Z; ro_nAtoms : Z; ro_nPositions : Z; ro_rest : list Z }.
Record xChangePropertyReq := MkChange {
  ch_mode : Z; ch_window : Z; ch_property : Z; ch_type : Z; ch_format : Z; ch_nUnits : Z;
  ch_rest : list Z }.
Record xGetPropertyReq := MkGet {
  ge_delete : Z; ge_window : Z; ge_property : Z; ge_type : Z; ge_longOffset : Z; ge_longLength : Z }.
Record xDeletePropertyReq := MkDelete { de_window : Z; de_property : Z }.

Section Operations.
Context `{AtomTable} `{WindowLookup}.
(** [XaceHookPropertyAccess] on an existing property (it may move the pointer to
    another one), on a new one, and after a change of its contents. *)
Context (prop_access : Z -> Z -> list PropertyRec -> nat -> Z -> Z * nat).
Context (create_access : Z -> Z -> PropertyRec -> Z -> Z).
Context (post_access : Z -> Z -> list PropertyRec -> nat -> Z -> Z).
(** The callbacks of [PropertyFilterCallback]. *)
Context (filter_callbacks : PropertyFilterParam -> PropertyFilterParam).
(** [MakeWindowOptional], the screens with [SetWindowVRRMode], and Xinerama: is
    it built in, is it disabled, the windows behind a Xinerama window. *)
Context (MakeWindowOptional : Z -> bool) (has_vrr : Z -> bool).
Context (XINERAMA noPanoramiXExtension : bool) (xrt_window : Z -> Z -> option (list Z)).
Implicit Types (st : prop_state).

Definition lookup_window st (id client access : Z) : Z * prop_state :=
  (window_rc id client access, set_errorValue st client id).

Fixpoint prop_index (name : Z) (l : list PropertyRec) : option nat :=
  match l with
  | [] => None
  | p :: l' => if propertyName p =? name then Some O else S <$> prop_index name l'
  end.

(** [dix/property.c: dixLookupProperty] *)
Definition dixLookupProperty st (pWin name client access_mode : Z)
  : Z * option nat * prop_state :=
  let st := set_errorValue st client name in
  match prop_index name (props st pWin) with
  | Some i => let '(rc, i) := prop_access client pWin (props st pWin) i access_mode in (rc, Some i, st)
  | None => (BadMatch, None, st)
  end.

(** [dix/property.c: setVRRMode] *)
Definition setVRRMode st (pWin mode : Z) : prop_state :=
  if has_vrr pWin then effect st (SetWindowVRRMode pWin mode) else st.

(** _VARIABLE_REFRESH *)
Definition vrr_name : list Z :=
  [95; 86; 65; 82; 73; 65; 66; 76; 69; 95; 82; 69; 70; 82; 69; 83; 72].

(** [dix/property.c: notifyVRRMode] *)
Definition notifyVRRMode st (client pWin state : Z) (pProp : PropertyRec) : prop_state :=
  match atom_name (propertyName pProp) with
  | None => st
  | Some pName =>
      if negb (bool_decide (cstr pName = vrr_name)) || negb (prop_format pProp =? 32)
         || negb (prop_size pProp =? 1)
      then st
      else
        let mode := if state =? PropertyNewValue then default 0 (head (words32 (prop_data pProp))) else 0 in
        if XINERAMA then
          if negb noPanoramiXExtension then
            match xrt_window client pWin with
            | None => setVRRMode st pWin mode
            | Some ids =>
                fold_left (fun st id =>
                    let '(rc, st) := lookup_window st id client DixSetPropAccess in
                    if rc =? Success then setVRRMode st id mode else st)
                  (rev ids) st
            end
          else st
        else setVRRMode st pWin mode
  end.

(** [dix/property.c: deliverPropertyNotifyEvent] *)
Definition deliverPropertyNotifyEvent st (pWin state : Z) (pProp : PropertyRec) : prop_state :=
  effect st (PropertyNotify pWin state (propertyName pProp)).

(** ** RotateProperties *)

(** The checks of one atom: [inl] is the status that ends the request. *)
Definition rotate_check (p : PropertyFilterParam) (client pWin : Z) (i : nat) st
  : (Z * prop_state) + (nat * PropertyRec * prop_state) :=
  let a := default 0 (p_atoms p !! i) in
  if negb (valid_atom a) then inl (BadAtom, set_errorValue st client a)
  else if existsb (fun b => b =? a) (take (Z.to_nat (p_nAtoms p) - S i) (drop (S i) (p_atoms p)))
  then inl (BadMatch, st)
  else
    let '(rc, pProp, st) :=
      dixLookupProperty st pWin a (p_client p) (Z.lor DixReadAccess DixWriteAccess) in
    if negb (rc =? Success) then inl (rc, st)
    else
      match pProp ≫= fun k => pair k <$> props st pWin !! k with
      | Some (k, q) => inr (k, q, st)
      | None => inl (BadMatch, st)
      end.

(** The first loop: [props] and [saved]. *)
Fixpoint rotate_collect (p : PropertyFilterParam) (client pWin : Z) (ixs : list nat)
    (acc : list (nat * PropertyRec)) st : (Z * prop_state) + (list (nat * PropertyRec) * prop_state) :=
  match ixs with
  | [] => inr (acc, st)
  | i :: ixs =>
      match rotate_check p client pWin i st with
      | inl e => inl e
      | inr (k, q, st) => rotate_collect p client pWin ixs (acc ++ [(k, q)]) st
      end
  end.

(** One turn of the second loop: property [j] takes the value saved from [i]. *)
Definition rotate_one (client pWin : Z) (delta n : Z) (saved : list (nat * PropertyRec))
    st (i : nat) : prop_state :=
  match saved !! i, saved !! Z.to_nat ((Z.of_nat i + delta) mod n) with
  | Some (ki, si), Some (kj, _) =>
      match props st pWin !! ki with
      | Some cur =>
          let st := deliverPropertyNotifyEvent st pWin PropertyNewValue cur in
          let st := notifyVRRMode st client pWin PropertyNewValue cur in
          set_props st pWin
            (alter (fun q => MkProp (propertyName q) (prop_type si) (prop_format si)
                               (prop_size si) (prop_data si)) kj (props st pWin))
      | None => st
      end
  | _, _ => st
  end.

Definition rotate_delta (delta n : Z) : outcome Z :=
  run_loop (fun d => if d <? 0 then inl (i32 (d + n)) else inr (Ret d)) TURNS delta.

(** [dix/property.c: ProcRotateProperties] *)
Definition ProcRotateProperties (al : allocator) st (client : Z) (sw : bool) (req_len : Z)
    (stuff : xRotatePropertiesReq) : outcome (Z * prop_state) :=
  if too_short 12 req_len then Ret (BadLength, st)
  else
    let window := swapl sw (ro_window stuff) in
    let nAtoms := swaps sw (ro_nAtoms stuff) in
    let nPositions := swaps sw (ro_nPositions stuff) in
    let rest := if sw then SwapRestL (ro_rest stuff) else ro_rest stuff in
    if not_fixed_size 12 (Z.shiftl nAtoms 2) req_len then Ret (BadLength, st)
    else
      let p := filter_callbacks
        (MkPF client window 0 0 (words32 rest) nAtoms (u64 (s16 nPositions)) false 0 DixWriteAccess
              0 0 0 [] false 0 0 0) in
      if p_skip p then Ret (p_status p, st)
      else
        let '(rc, st) := lookup_window st (p_window p) (p_client p) DixSetPropAccess in
        let pWin := p_window p in
        if negb (rc =? Success) || (nAtoms <=? 0) then Ret (rc, st)
        else if negb (al 0%nat (p_nAtoms p * 8) && al 1%nat (p_nAtoms p * 48)) then Ret (BadAlloc, st)
        else if Z.of_nat (length (p_atoms p)) <? p_nAtoms p then Undefined
        else
          match rotate_collect p client pWin (seq 0 (Z.to_nat (p_nAtoms p))) [] st with
          | inl (rc, st) => Ret (rc, st)
          | inr (saved, st) =>
              let delta := i32 (p_nPositions p) in
              let n := p_nAtoms p in
              if n =? 0 then Undefined
              else if Z.abs delta mod n =? 0 then Ret (Success, st)
              else
                delta <-- rotate_delta delta n;
                Ret (Success, fold_left (rotate_one client pWin delta n saved)
                                (seq 0 (Z.to_nat n)) st)
          end.

(** ** Changing a property *)

(** The value that Replace, Append or Prepend gives to an existing property;
    [None] is a failed allocation.
    [dix/property.c: dixChangeWindowProperty 409-440] *)
Definition new_value (al : allocator) (old : PropertyRec) (type format mode len : Z)
    (value : list Z) : outcome (option PropertyRec) :=
  let sizeInBytes := Z.shiftr format 3 in
  let totalSize := i32 (len * sizeInBytes) in
  let oldBytes := u32 (prop_size old * sizeInBytes) in
  let total := (prop_size old + len) * sizeInBytes in
  if mode =? PropModeReplace then
    if (totalSize =? 0) then
      Ret (Some (MkProp (propertyName old) type format (u32 len) []))
    else if negb (al 0%nat totalSize) then Ret None
    else
      data <-- memcpy (zeros totalSize) 0 value totalSize;
      Ret (Some (MkProp (propertyName old) type format (u32 len) data))
  else if len =? 0 then Ret (Some old)
  else if mode =? PropModeAppend then
    if negb (al 0%nat total) then Ret None
    else
      data <-- memcpy (zeros total) 0 (prop_data old) oldBytes;
      data <-- memcpy data oldBytes value totalSize;
      Ret (Some (old <| prop_data := data |> <| prop_size := u32 (prop_size old + len) |>))
  else if mode =? PropModePrepend then
    if negb (al 0%nat total) then Ret None
    else
      data <-- memcpy (zeros total) totalSize (prop_data old) oldBytes;
      data <-- memcpy data 0 value totalSize;
      Ret (Some (old <| prop_data := data |> <| prop_size := u32 (prop_size old + len) |>))
  else Ret (Some old).

Definition property_changed st (client pWin : Z) (sendevent : bool) (p : PropertyRec) : prop_state :=
  if sendevent then
    notifyVRRMode (deliverPropertyNotifyEvent st pWin PropertyNewValue p) client pWin PropertyNewValue p
  else st.

(** [dix/property.c: dixChangeWindowProperty] *)
Definition dixChangeWindowProperty (al : allocator) st (pClient pWin property type format mode len : Z)
    (value : list Z) (sendevent : bool) : outcome (Z * prop_state) :=
  let sizeInBytes := Z.shiftr format 3 in
  let totalSize := i32 (len * sizeInBytes) in
  let access_mode := if mode =? PropModeReplace then DixWriteAccess else DixBlendAccess in
  let '(rc, pProp, st) := dixLookupProperty st pWin property pClient access_mode in
  if rc =? BadMatch then
    if negb (MakeWindowOptional pWin) then Ret (BadAlloc, st)
    else if negb (al 0%nat 48) then Ret (BadAlloc, st)
    else if negb (totalSize =? 0) && negb (al 1%nat totalSize) then Ret (BadAlloc, st)
    else
      data <-- (if totalSize =? 0 then Ret [] else memcpy (zeros totalSize) 0 value totalSize);
      let p := MkProp property type format (u32 len) data in
      let rc := create_access pClient pWin p (Z.lor DixCreateAccess DixWriteAccess) in
      if negb (rc =? Success) then Ret (rc, set_errorValue st pClient property)
      else
        let st := set_props st pWin (p :: props st pWin) in
        Ret (Success, property_changed st pClient pWin sendevent p)
  else if rc =? Success then
    match pProp ≫= fun i => pair i <$> props st pWin !! i with
    | None => Undefined
    | Some (i, old) =>
        if negb (format =? prop_format old) && negb (mode =? PropModeReplace) then Ret (BadMatch, st)
        else if negb (prop_type old =? type) && negb (mode =? PropModeReplace) then Ret (BadMatch, st)
        else
          new <-- new_value al old type format mode len value;
          match new with
          | None => Ret (BadAlloc, st)
          | Some p =>
              let st' := set_props st pWin (<[i := p]> (props st pWin)) in
              let rc := post_access pClient pWin (props st' pWin) i (Z.lor access_mode DixPostAccess) in
              if rc =? Success then Ret (Success, property_changed st' pClient pWin sendevent p)
              else Ret (rc, st)
          end
    end
  else Ret (rc, st).

(** [dix/property.c: ProcChangeProperty] *)
Definition ProcChangeProperty (al : allocator) st (client : Z) (sw : bool) (req_len : Z)
    (stuff : xChangePropertyReq) : outcome (Z * prop_state) :=
  if too_short 24 req_len then Ret (BadLength, st)
  else
    let window := swapl sw (ch_window stuff) in
    let property := swapl sw (ch_property stuff) in
    let type := swapl sw (ch_type stuff) in
    let nUnits := swapl sw (ch_nUnits stuff) in
    let rest :=
      if sw then
        if ch_format stuff =? 16 then SwapRestS (ch_rest stuff)
        else if ch_format stuff =? 32 then SwapRestL (ch_rest stuff)
        else ch_rest stuff
      else ch_rest stuff in
    let format := schar (ch_format stuff) in
    let mode := schar (ch_mode stuff) in
    if negb (mode =? PropModeReplace) && negb (mode =? PropModeAppend) && negb (mode =? PropModePrepend)
    then Ret (BadValue, set_errorValue st client mode)
    else if negb (format =? 8) && negb (format =? 16) && negb (format =? 32)
    then Ret (BadValue, set_errorValue st client format)
    else
      let len := nUnits in
      if len >? bytes_to_int32 (0xffffffff - 24) then Ret (BadLength, st)
      else
        let totalSize := u64 (len * Z.shiftr format 3) in
        if not_fixed_size 24 totalSize req_len then Ret (BadLength, st)
        else if negb (valid_atom property) then Ret (BadAtom, set_errorValue st client property)
        else if negb (valid_atom type) then Ret (BadAtom, set_errorValue st client type)
        else
          let p := filter_callbacks
            (MkPF client window property type [] 0 0 false 0 DixWriteAccess
                  format mode len rest true 0 0 0) in
          if p_skip p then Ret (p_status p, st)
          else
            let '(err, st) := lookup_window st (p_window p) (p_client p) DixSetPropAccess in
            if negb (err =? Success) then Ret (err, st)
            else
              dixChangeWindowProperty al st (p_client p) (p_window p) (p_property p) (p_type p)
                (p_format p) (p_mode p) (p_len p) (p_value p) (p_sendevent p).

(** ** Deleting *)

(** Unlinking a property; the window may not need its optional part any more
    when the head goes and nothing is left. *)
Definition unlink_property st (pWin : Z) (i : nat) : prop_state :=
  let l := delete i (props st pWin) in
  let st := set_props st pWin l in
  if (i =? 0)%nat && bool_decide (l = []) then effect st (CheckWindowOptionalNeed pWin) else st.

(** [dix/property.c: DeleteProperty] *)
Definition DeleteProperty st (client pWin propName : Z) : outcome (Z * prop_state) :=
  let '(rc, pProp, st) := dixLookupProperty st pWin propName client DixDestroyAccess in
  if rc =? BadMatch then Ret (Success, st)
  else if rc =? Success then
    match pProp ≫= fun i => pair i <$> props st pWin !! i with
    | None => Undefined
    | Some (i, p) =>
        let st := unlink_property st pWin i in
        let st := deliverPropertyNotifyEvent st pWin PropertyDelete p in
        Ret (rc, notifyVRRMode st client pWin PropertyDelete p)
    end
  else Ret (rc, st).

(** [dix/property.c: DeleteAllWindowProperties] *)
Definition DeleteAllWindowProperties st (pWin : Z) : prop_state :=
  set_props (fold_left (fun st p => deliverPropertyNotifyEvent st pWin PropertyDelete p)
               (props st pWin) st) pWin [].

(** [dix/property.c: ProcDeleteProperty] *)
Definition ProcDeleteProperty st (client : Z) (sw : bool) (req_len : Z) (stuff : xDeletePropertyReq)
  : outcome (Z * prop_state) :=
  if size_mismatch 12 req_len then Ret (BadLength, st)
  else
    let window := swapl sw (de_window stuff) in
    let property := swapl sw (de_property stuff) in
    if negb (valid_atom property) then Ret (BadAtom, set_errorValue st client property)
    else
      let p := filter_callbacks
        (MkPF client window property 0 [] 0 0 false 0 DixRemoveAccess 0 0 0 [] false 0 0 0) in
      if p_skip p then Ret (p_status p, st)
      else
        let '(result, st) := lookup_window st (p_window p) (p_client p) DixSetPropAccess in
        if negb (result =? Success) then Ret (result, st)
        else DeleteProperty st (p_client p) (p_window p) (p_property p).

(** ** Reading *)

(** The data part of a reply, in units of the property's format. *)
Definition write_data (al : allocator) (sw : bool) (format : Z) (data : list Z) (len : Z)
  : x_rpcbuf_t :=
  let b := rpcbuf_init sw true in
  let units l n := take (Z.to_nat n) l in
  (if format =? 32 then x_rpcbuf_write_CARD32s al 0 b (units (words32 data) (len / 4))
   else if format =? 16 then x_rpcbuf_write_CARD16s al 0 b (units (words16 data) (len / 2))
   else x_rpcbuf_write_CARD8s al 0 b (units data len)).2.

Definition get_reply (sw : bool) (format propertyType bytesAfter nItems : Z) : list Z :=
  [format; swapl sw propertyType; swapl sw bytesAfter; swapl sw nItems].

(** Everything after the lookup of the property. *)
Definition send_property (al : allocator) st (client : Z) (sw : bool) (p : PropertyFilterParam)
    (pWin : Z) (i : nat) (pProp : PropertyRec) : outcome (Z * prop_state) :=
  let unit := prop_format pProp / 8 in
  let n := u32 (unit * prop_size pProp) in
  let ind := u32 (Z.shiftl (p_longOffset p) 2) in
  if n <? ind then Ret (BadValue, set_errorValue st client (p_longOffset p))
  else if unit =? 0 then Undefined
  else
    let len := Z.min (n - ind) (u32 (4 * p_longLength p)) in
    let bytesAfter := u32 (n - (ind + len)) in
    let gone := negb (p_delete p =? 0) && (bytesAfter =? 0) in
    let st :=
      if gone then
        notifyVRRMode (deliverPropertyNotifyEvent st pWin PropertyDelete pProp) client pWin
          PropertyDelete pProp
      else st in
    let b := write_data al sw (prop_format pProp) (drop (Z.to_nat ind) (prop_data pProp)) len in
    if error b then Ret (BadAlloc, st)
    else
      let st := if gone then unlink_property st pWin i else st in
      match write_reply_hdr_and_rpcbuf sw 32
              (get_reply sw (u8 (prop_format pProp)) (prop_type pProp) bytesAfter (u32 (len / unit))) b with
      | Some r => Ret (Success, effect st (SendReply client r))
      | None => Ret (BadAlloc, st)
      end.

(** [dix/property.c: ProcGetProperty] *)
Definition ProcGetProperty (al : allocator) st (client : Z) (sw : bool) (req_len : Z)
    (stuff : xGetPropertyReq) : outcome (Z * prop_state) :=
  if size_mismatch 24 req_len then Ret (BadLength, st)
  else
    let window := swapl sw (ge_window stuff) in
    let property := swapl sw (ge_property stuff) in
    let type := swapl sw (ge_type stuff) in
    let longOffset := swapl sw (ge_longOffset stuff) in
    let longLength := swapl sw (ge_longLength stuff) in
    let delete := ge_delete stuff in
    if negb (valid_atom property) then Ret (BadAtom, set_errorValue st client property)
    else if negb (delete =? 1) && negb (delete =? 0) then Ret (BadValue, set_errorValue st client delete)
    else if negb (type =? AnyPropertyType) && negb (valid_atom type)
    then Ret (BadAtom, set_errorValue st client type)
    else
      let p := filter_callbacks
        (MkPF client window property type [] 0 0 false 0 DixReadAccess 0 0 0 [] false
              delete longOffset longLength) in
      if p_skip p then Ret (p_status p, st)
      else
        let del := negb (p_delete p =? 0) in
        let win_mode := if del then Z.lor DixGetPropAccess DixSetPropAccess else DixGetPropAccess in
        let prop_mode := if del then Z.lor DixReadAccess DixDestroyAccess else DixReadAccess in
        let '(rc, st) := lookup_window st (p_window p) (p_client p) win_mode in
        let pWin := p_window p in
        if negb (rc =? Success) then Ret (rc, st)
        else
          let '(rc, pProp, st) := dixLookupProperty st pWin (p_property p) (p_client p) prop_mode in
          if rc =? BadMatch then
            Ret (Success, effect st (SendReply client (write_reply_hdr_simple sw 32 (get_reply sw 0 0 0 0))))
          else if negb (rc =? Success) then Ret (rc, st)
          else
            match pProp ≫= fun i => pair i <$> props st pWin !! i with
            | None => Undefined
            | Some (i, q) =>
                if negb (p_type p =? prop_type q) && negb (p_type p =? AnyPropertyType) then
                  Ret (Success, effect st (SendReply client (write_reply_hdr_simple sw 32
                         (get_reply sw (u8 (prop_format q)) (prop_type q) (prop_size q) 0))))
                else send_property al st client sw p pWin i q
            end.

(** One property of the list: it is named when the hook agrees. *)
Definition list_one (al : allocator) st (client pWin : Z) (acc : nat * Z * x_rpcbuf_t) (i : nat)
  : nat * Z * x_rpcbuf_t :=
  let '(k, numProps, b) := acc in
  match props st pWin !! i with
  | None => acc
  | Some p =>
      let '(rc, j) := prop_access client pWin (props st pWin) i DixGetAttrAccess in
      if (rc =? Success) && (j =? i)%nat
      then (S k, u64 (numProps + 1), (x_rpcbuf_write_CARD32 al k b (propertyName p)).2)
      else acc
  end.

(** [dix/property.c: ProcListProperties] *)
Definition ProcListProperties (al : allocator) st (client : Z) (sw : bool) (req_len id : Z)
  : outcome (Z * prop_state) :=
  if size_mismatch 8 req_len then Ret (BadLength, st)
  else
    let id := swapl sw id in
    let '(rc, st) := lookup_window st id client DixListPropAccess in
    if negb (rc =? Success) then Ret (rc, st)
    else
      let '(_, numProps, b) :=
        fold_left (list_one al st client id) (seq 0 (length (props st id)))
          (O, 0, rpcbuf_init sw true) in
      match write_reply_hdr_and_rpcbuf sw 32 [swaps sw (u16 numProps)] b with
      | Some r => Ret (Success, effect st (SendReply client r))
      | None => Ret (BadAlloc, st)
      end.
End Operations.

(** * Properties *)

(** ** What a window holds *)

Definition find_prop (name : Z) (l : list PropertyRec) : option PropertyRec :=
  prop_index name l ≫= fun i => l !! i.

Definition unit_bytes (format : Z) : Z := Z.shiftr format 3.
Definition format_ok (format : Z) : Prop := format = 8 \/ format = 16 \/ format = 32.

(** A stored property: its data has exactly the announced units. *)
Record prop_ok (p : PropertyRec) : Prop := {
  ok_format : format_ok (prop_format p);
  ok_size : 0 <= prop_size p;
  ok_data : Z.of_nat (length (prop_data p)) = prop_size p * unit_bytes (prop_format p);
  ok_bytes : prop_size p * unit_bytes (prop_format p) <= INT32_MAX
}.
Definition props_ok (l : list PropertyRec) : Prop :=
  NoDup (propertyName <$> l) /\ Forall prop_ok l.

Lemma unit_bytes_cases f : format_ok f -> unit_bytes f = f / 8 /\ 1 <= unit_bytes f <= 4.
Proof. unfold format_ok. intros [-> | [-> | ->]]; done. Qed.

Lemma prop_index_lookup name l i :
  prop_index name l = Some i -> exists p, l !! i = Some p /\ propertyName p = name /\ find_prop name l = Some p.
Proof.
  unfold find_prop. intros Hi. rewrite Hi. cbn. revert i Hi.
  induction l as [|q l IH]; intros i; [done|]. cbn.
  destruct (Z.eqb_spec (propertyName q) name) as [<-|]; [intros [= <-]; by exists q|].
  destruct (prop_index name l) as [k|] eqn:Hk; [|done]. intros [= <-].
  destruct (IH k eq_refl) as (p & ? & ? & ?). by exists p.
Qed.
Lemma find_prop_cons name p l :
  find_prop name (p :: l) = if propertyName p =? name then Some p else find_prop name l.
Proof.
  unfold find_prop. cbn. destruct (propertyName p =? name); [done|].
  by destruct (prop_index name l).
Qed.
Lemma find_prop_insert name l i p q :
  l !! i = Some q -> propertyName p = propertyName q ->
  prop_index (propertyName q) l = Some i ->
  find_prop name (<[i := p]> l) = if propertyName p =? name then Some p else find_prop name l.
Proof.
  revert i. induction l as [|x l IH]; intros [|i]; [done|done| |].
  - intros [= ->] Hn _. change (<[O := p]> (q :: l)) with (p :: l).
    rewrite !find_prop_cons, Hn. by case_bool.
  - cbn [lookup list_lookup]. intros Hl Hn. cbn [prop_index].
    destruct (Z.eqb_spec (propertyName x) (propertyName q)) as [|Hne]; [done|].
    destruct (prop_index (propertyName q) l) as [k|] eqn:E; [|done]. intros [= ->].
    change (<[S i := p]> (x :: l)) with (x :: <[i := p]> l).
    rewrite !find_prop_cons, (IH i Hl Hn eq_refl).
    destruct (Z.eqb_spec (propertyName x) name), (Z.eqb_spec (propertyName p) name); congruence.
Qed.
Lemma find_prop_None name l : find_prop name l = None <-> prop_index name l = None.
Proof.
  split; [|by unfold find_prop; intros ->].
  destruct (prop_index name l) eqn:E; [|done].
  destruct (prop_index_lookup _ _ _ E) as (p & _ & _ & ->). done.
Qed.
Lemma find_prop_elem name l p : find_prop name l = Some p -> p ∈ l /\ propertyName p = name.
Proof.
  unfold find_prop. destruct (prop_index name l) eqn:E; [|done]. cbn. intros Hp.
  destruct (prop_index_lookup _ _ _ E) as (q & Hq & Hn & _). rewrite Hq in Hp. injection Hp as ->.
  split; [by eapply list_elem_of_lookup_2|done].
Qed.
Lemma find_prop_None_names name l : find_prop name l = None -> name ∉ (propertyName <$> l).
Proof.
  induction l as [|p l IH]; [intros _; apply not_elem_of_nil|].
  rewrite find_prop_cons, fmap_cons, elem_of_cons.
  destruct (Z.eqb_spec (propertyName p) name); [done|]. intros H [->|Hin]; [done|by apply IH].
Qed.

Section Tactics.
Implicit Types (st : prop_state).

Lemma props_set_same st win l : props (set_props st win l) win = l.
Proof. unfold props, set_props. cbn. by rewrite lookup_insert_eq. Qed.
Lemma props_set_other st win w l : w <> win -> props (set_props st win l) w = props st w.
Proof. intros H. unfold props, set_props. cbn. by rewrite lookup_insert_ne. Qed.
End Tactics.
#[export] Hint Rewrite props_set_same : property.

(** ** Errors leave the windows alone *)

Section Errors.
Context `{AtomTable} `{WindowLookup}.
Context (prop_access : Z -> Z -> list PropertyRec -> nat -> Z -> Z * nat).
Context (create_access : Z -> Z -> PropertyRec -> Z -> Z).
Context (post_access : Z -> Z -> list PropertyRec -> nat -> Z -> Z).
Context (filter_callbacks : PropertyFilterParam -> PropertyFilterParam).
Context (MakeWindowOptional : Z -> bool) (has_vrr : Z -> bool).
Context (XINERAMA noPanoramiXExtension : bool) (xrt_window : Z -> Z -> option (list Z)).
Implicit Types (st : prop_state).

(** The same windows and nothing sent: only error values may differ. *)
Definition untouched st st' : Prop :=
  ps_windows st' = ps_windows st /\ ps_effects st' = ps_effects st.

Lemma change_window_error al st c w name type format mode len value se rc st' :
  dixChangeWindowProperty prop_access create_access post_access MakeWindowOptional has_vrr
    XINERAMA noPanoramiXExtension xrt_window al st c w name type format mode len value se = Ret (rc, st') ->
  rc <> Success -> untouched st st'.
Proof.
  unfold dixChangeWindowProperty, dixLookupProperty. intros Hr Hrc.
  destruct (prop_index name (props (set_errorValue st c name) w)) as [i|].
  - destruct (prop_access _ _ _ _ _) as [rc0 j].
    repeat (cbn in Hr; match type of Hr with
      | (if ?b then _ else _) = _ => destruct b
      | obind ?o _ = _ => destruct o
      | match ?o with _ => _ end = _ => destruct o as [?|]
      | (let '(_, _) := ?p in _) = _ => destruct p
      end); try done; injection Hr as <- <-; done.
  - repeat (cbn in Hr; match type of Hr with
      | (if ?b then _ else _) = _ => destruct b
      | obind ?o _ = _ => destruct o
      end); try done; injection Hr as <- <-; done.
Qed.


Lemma fold_vrr_windows ids st client mode :
  ps_windows (fold_left (fun st id =>
      let '(rc, st) := lookup_window st id client DixSetPropAccess in
      if rc =? Success then setVRRMode has_vrr st id mode else st) ids st) = ps_windows st.
Proof.
  revert st. induction ids as [|id ids IH]; intros st; [done|]. cbn [fold_left]. rewrite IH.
  unfold lookup_window, setVRRMode. by repeat case_bool.
Qed.
Lemma notifyVRRMode_windows st client win state p :
  ps_windows (notifyVRRMode has_vrr XINERAMA noPanoramiXExtension xrt_window st client win state p) =
  ps_windows st.
Proof.
  unfold notifyVRRMode. destruct (atom_name _); [|done]. case_bool; [done|].
  destruct XINERAMA, noPanoramiXExtension; cbn [negb]; try done;
    try (unfold setVRRMode; by case_bool).
  destruct (xrt_window client win); [apply fold_vrr_windows|]. unfold setVRRMode. by case_bool.
Qed.
Lemma property_changed_windows st c w se p :
  ps_windows (property_changed has_vrr XINERAMA noPanoramiXExtension xrt_window st c w se p) =
  ps_windows st.
Proof. unfold property_changed. destruct se; [|done]. by rewrite notifyVRRMode_windows. Qed.
Lemma props_windows st st' w : ps_windows st' = ps_windows st -> props st' w = props st w.
Proof. unfold props. by intros ->. Qed.

(** ** The value a change leaves *)

Definition changed (old : option PropertyRec) (name type format mode len : Z) (data : list Z)
  : option PropertyRec :=
  let new := MkProp name type format len data in
  match old with
  | None => Some new
  | Some p =>
      if mode =? PropModeReplace then Some new
      else if (prop_type p =? type) && (prop_format p =? format) then
        Some (MkProp name type format (prop_size p + len)
                (if mode =? PropModeAppend then prop_data p ++ data else data ++ prop_data p))
      else None
  end.

Lemma new_value_changed p type format mode len value :
  prop_ok p -> format_ok format -> mode = PropModeReplace \/ mode = PropModePrepend \/ mode = PropModeAppend ->
  (mode <> PropModeReplace -> prop_type p = type /\ prop_format p = format) ->
  0 <= len -> (prop_size p + len) * unit_bytes format <= INT32_MAX ->
  len * unit_bytes format <= Z.of_nat (length value) ->
  new_value always p type format mode len value =
    Ret (changed (Some p) (propertyName p) type format mode len
           (take (Z.to_nat (len * unit_bytes format)) value)).
Proof.
  intros Hp Hf Hm Hsame Hlen Hmax Hval. destruct (unit_bytes_cases _ Hf) as [_ Hu].
  pose proof (ok_size _ Hp) as Hsz. unfold INT32_MAX in *.
  assert (Hlen' : len < 2147483648) by nia. assert (Hsz' : prop_size p + len < 2147483648) by nia.
  unfold new_value, changed. fold (unit_bytes format).
  rewrite (i32_small (len * _)) by nia. rewrite (u32_small (prop_size p * _)) by nia.
  set (data := take _ value).
  assert (Hd : Z.of_nat (length data) = len * unit_bytes format) by (unfold data; rewrite length_take; lia).
  assert (Hcopy : forall dst off, memcpy dst off value (len * unit_bytes format) =
            memcpy dst off data (Z.of_nat (length data))).
  { intros dst off. unfold memcpy. rewrite Hd. rewrite (Z.leb_refl).
    destruct (Z.leb_spec (len * unit_bytes format) (Z.of_nat (length value))); [|lia].
    unfold data. by rewrite take_take, Nat.min_id. }
  destruct Hm as [-> | Hm].
  - cbn [Z.eqb]. rewrite Z.eqb_refl, u32_small by lia.
    destruct (Z.eqb_spec (len * unit_bytes format) 0) as [Hz|Hz].
    + assert (data = []) as -> by (apply length_zero_iff_nil; lia). done.
    + cbn [negb always]. rewrite Hcopy, <- Hd, memcpy_whole. done.
  - destruct (Z.eqb_spec mode PropModeReplace) as [->|Hr]; [by destruct Hm|].
    destruct (Hsame Hr) as [Ht Hfm]. rewrite Ht, Hfm, !Z.eqb_refl. cbn [andb].
    pose proof (ok_data _ Hp) as Hod. rewrite Hfm in Hod.
    destruct (Z.eqb_spec len 0) as [->|Hl0].
    + assert (data = []) as -> by (apply length_zero_iff_nil; lia).
      rewrite app_nil_r, Z.add_0_r. cbn [app]. destruct p; cbn in *. subst. by case_bool.
    + assert (Htot : (prop_size p + len) * unit_bytes format =
                Z.of_nat (length (prop_data p)) + Z.of_nat (length data)) by lia.
      rewrite Htot, u32_small, <- Hod by lia. rewrite <- Hd. cbn [negb always].
      destruct Hm as [-> | ->]; cbn [Z.eqb].
      * change (PropModePrepend =? PropModeAppend) with false.
        change (PropModePrepend =? PropModePrepend) with true. cbv iota.
        rewrite (Z.add_comm (Z.of_nat (length (prop_data p)))).
        pose proof (memcpy_two_rev data (prop_data p)) as Hc.
        destruct (memcpy _ _ (prop_data p) _) as [d| | |]; try done. cbn [obind] in *.
        rewrite Hd, Hcopy, Hc. cbn. destruct p; cbn in *. by subst.
      * change (PropModeAppend =? PropModeAppend) with true. cbv iota.
        pose proof (memcpy_two (prop_data p) data) as Hc.
        destruct (memcpy _ _ (prop_data p) _) as [d| | |]; try done. cbn [obind] in *.
        rewrite Hd, Hcopy, Hc. cbn. destruct p; cbn in *. by subst.
Qed.

Lemma changed_ok old name type format mode len data p :
  (forall o, old = Some o -> prop_ok o /\ propertyName o = name /\
     (prop_size o + len) * unit_bytes format <= INT32_MAX) ->
  format_ok format -> 0 <= len -> len * unit_bytes format <= INT32_MAX ->
  Z.of_nat (length data) = len * unit_bytes format ->
  changed old name type format mode len data = Some p -> prop_ok p /\ propertyName p = name.
Proof.
  intros Ho Hf Hl Hmax Hd. destruct (unit_bytes_cases _ Hf) as [_ Hu]. unfold changed.
  destruct old as [o|]; [|intros [= <-]; split; [by constructor|done]].
  destruct (Ho o eq_refl) as (Hok & Hn & Hm).
  case_bool; [intros [= <-]; split; [by constructor|done]|].
  destruct ((prop_type o =? type) && (prop_format o =? format)) eqn:E; [|done].
  apply andb_true_iff in E as [_ Ef%Z.eqb_eq]. intros [= <-].
  pose proof (ok_data _ Hok) as Hod. pose proof (ok_size _ Hok). rewrite Ef in Hod.
  split; [|done]. constructor; cbn; try done; try lia.
  case_bool; rewrite length_app; lia.
Qed.
End Errors.

(** Replacing one property's record keeps the list well-formed. *)
Lemma props_ok_cons p l : props_ok l -> prop_ok p -> find_prop (propertyName p) l = None -> props_ok (p :: l).
Proof.
  intros [Hn Ha] Hp Hf. split; [|by constructor]. rewrite fmap_cons. constructor; [|done].
  by apply find_prop_None_names.
Qed.
Lemma props_ok_insert p q l i : props_ok l -> l !! i = Some q -> propertyName p = propertyName q ->
  prop_ok p -> props_ok (<[i := p]> l).
Proof.
  intros [Hn Ha] Hl Hpq Hp. split; [|by apply Forall_insert].
  rewrite list_fmap_insert, Hpq, list_insert_id; [done|]. by rewrite list_lookup_fmap, Hl.
Qed.

(** A ChangeProperty request that fails, for whatever reason and with
    whatever hooks and filters, leaves every window as it was and sends nothing. *)
Theorem ChangeProperty_atomic `{AtomTable} `{WindowLookup} prop_access create_access post_access
    filter_callbacks MakeWindowOptional has_vrr XINERAMA noPanoramiX xrt_window
    al st client sw req_len stuff rc st' :
  ProcChangeProperty prop_access create_access post_access filter_callbacks MakeWindowOptional
    has_vrr XINERAMA noPanoramiX xrt_window al st client sw req_len stuff = Ret (rc, st') ->
  rc <> Success -> ps_windows st' = ps_windows st /\ ps_effects st' = ps_effects st.
Proof.
  unfold ProcChangeProperty. cbv zeta.
  repeat (case_bool; [intros [= <- <-]; done|]).
  set (p := filter_callbacks _). case_bool; [by intros [= <- <-]|].
  cbn [lookup_window]. case_bool; [by intros [= <- <-]|].
  intros Hr Hrc. apply change_window_error in Hr; [|done]. exact Hr.
Qed.

(** ** Changing, with hooks that grant access *)

Section Granted.
Context `{AtomTable} `{WindowLookup}.
Context (prop_access : Z -> Z -> list PropertyRec -> nat -> Z -> Z * nat).
Context (create_access : Z -> Z -> PropertyRec -> Z -> Z).
Context (post_access : Z -> Z -> list PropertyRec -> nat -> Z -> Z).
Context (MakeWindowOptional : Z -> bool) (has_vrr : Z -> bool).
Context (XINERAMA noPanoramiX : bool) (xrt_window : Z -> Z -> option (list Z)).
Hypothesis Hpa : forall c w l i m, prop_access c w l i m = (Success, i).
Hypothesis Hca : forall c w p m, create_access c w p m = Success.
Hypothesis Hpo : forall c w l i m, post_access c w l i m = Success.
Hypothesis Hmo : forall w, MakeWindowOptional w = true.
Implicit Types (st : prop_state).

Notation change := (dixChangeWindowProperty prop_access create_access post_access MakeWindowOptional
  has_vrr XINERAMA noPanoramiX xrt_window always).
Notation notify := (property_changed has_vrr XINERAMA noPanoramiX xrt_window).

Lemma set_props_spec st client win sendevent p l :
  let st' := notify (set_props st win l) client win sendevent p in
  props st' win = l /\ forall w, w <> win -> props st' w = props st w.
Proof.
  intros st'. unfold st'. split; [|intros w Hw];
    rewrite (props_windows _ _ _ (property_changed_windows _ _ _ _ _ _ _ _ _)).
  - apply props_set_same.
  - by apply props_set_other.
Qed.

Lemma change_new st client win name type format mode len value sendevent :
  find_prop name (props st win) = None -> format_ok format -> 0 <= len ->
  len * unit_bytes format <= INT32_MAX -> len * unit_bytes format <= Z.of_nat (length value) ->
  let p := MkProp name type format len (take (Z.to_nat (len * unit_bytes format)) value) in
  change st client win name type format mode len value sendevent =
    Ret (Success, notify (set_props (set_errorValue st client name) win (p :: props st win))
                    client win sendevent p).
Proof.
  intros Hfp Hf Hlen Hmax Hval p. destruct (unit_bytes_cases _ Hf) as [_ Hu]. unfold INT32_MAX in *.
  unfold dixChangeWindowProperty, dixLookupProperty. fold (unit_bytes format).
  rewrite (i32_small (len * _)) by nia. apply find_prop_None in Hfp.
  change (props (set_errorValue st client name) win) with (props st win).
  rewrite Hfp, Hmo. change (BadMatch =? BadMatch) with true. cbn [negb always].
  rewrite andb_false_r. cbv iota.
  assert (Hd : (if len * unit_bytes format =? 0 then Ret []
    else memcpy (zeros (len * unit_bytes format)) 0 value (len * unit_bytes format)) =
      Ret (prop_data p)).
  { destruct (Z.eqb_spec (len * unit_bytes format) 0) as [Hz|Hz].
    - cbn. by rewrite Hz.
    - rewrite memcpy_Ret by (rewrite ?length_zeros by lia; lia). f_equal.
      rewrite drop_ge, app_nil_r; [done|]. unfold zeros. rewrite length_replicate. lia. }
  rewrite Hd. cbn [obind]. rewrite Hca, u32_small by nia. done.
Qed.

Lemma change_existing st client win name type format mode len value sendevent i old :
  prop_index name (props st win) = Some i -> props st win !! i = Some old -> propertyName old = name ->
  prop_ok old -> format_ok format ->
  mode = PropModeReplace \/ mode = PropModePrepend \/ mode = PropModeAppend ->
  0 <= len -> (prop_size old + len) * unit_bytes format <= INT32_MAX ->
  len * unit_bytes format <= Z.of_nat (length value) ->
  change st client win name type format mode len value sendevent =
    match changed (Some old) name type format mode len
            (take (Z.to_nat (len * unit_bytes format)) value) with
    | Some p => Ret (Success, notify (set_props (set_errorValue st client name) win
                                        (<[i := p]> (props st win))) client win sendevent p)
    | None => Ret (BadMatch, set_errorValue st client name)
    end.
Proof.
  intros Hi Hl Hn Hoo Hf Hmode Hlen Hmax Hval. set (data := take _ value).
  unfold dixChangeWindowProperty, dixLookupProperty.
  change (props (set_errorValue st client name) win) with (props st win). rewrite Hi, Hpa.
  change (Success =? BadMatch) with false. change (Success =? Success) with true.
  cbn [option_bind mbind]. change (props (set_errorValue st client name) win) with (props st win).
  rewrite Hl. cbn [fmap option_fmap option_map].
  assert (Hchk : (negb (format =? prop_format old) && negb (mode =? PropModeReplace))
      || (negb (prop_type old =? type) && negb (mode =? PropModeReplace)) =
    match changed (Some old) name type format mode len data with None => true | _ => false end).
  { unfold changed. rewrite (Z.eqb_sym format).
    destruct (mode =? PropModeReplace), (prop_format old =? format), (prop_type old =? type); done. }
  destruct (negb (format =? prop_format old) && negb (mode =? PropModeReplace)) eqn:E1;
    [|destruct (negb (prop_type old =? type) && negb (mode =? PropModeReplace)) eqn:E2];
    cbn [orb] in Hchk; destruct (changed _ _ _ _ _ _ _) as [p|] eqn:Hch; try done.
  rewrite new_value_changed; try done.
  - rewrite Hn. fold data. rewrite Hch. cbn [obind]. rewrite Hpo. done.
  - intros Hr. apply andb_false_iff in E1, E2. rewrite !negb_false_iff, !Z.eqb_eq in *.
    destruct E1, E2; done.
Qed.

Lemma change_replace st client w name type format len value se :
  props_ok (props st w) -> format_ok format -> 0 <= len ->
  (forall p, find_prop name (props st w) = Some p ->
     (prop_size p + len) * unit_bytes format <= INT32_MAX) ->
  len * unit_bytes format = Z.of_nat (length value) -> Z.of_nat (length value) <= INT32_MAX ->
  exists st1, change st client w name type format PropModeReplace len value se = Ret (Success, st1) /\
    props_ok (props st1 w) /\ find_prop name (props st1 w) = Some (MkProp name type format len value).
Proof.
  intros Hok Hfmt Hlen Hold Hval Hmax. destruct (unit_bytes_cases _ Hfmt) as [_ Hu].
  set (p := MkProp name type format len value).
  assert (Htake : take (Z.to_nat (len * unit_bytes format)) value = value) by (apply take_ge; lia).
  assert (Hp : prop_ok p) by (constructor; cbn; lia || done).
  destruct (prop_index name (props st w)) as [i|] eqn:Hi.
  - destruct (prop_index_lookup _ _ _ Hi) as (old & Hl & Hn & Hfp). specialize (Hold _ Hfp).
    assert (Hoo : prop_ok old) by (destruct Hok as [_ Ha]; rewrite Forall_lookup in Ha; by eapply Ha).
    rewrite (change_existing st client w name type format PropModeReplace len value se i old)
      by (done || lia || by left).
    rewrite Htake. cbn [changed]. change (PropModeReplace =? PropModeReplace) with true. fold p.
    eexists. split; [reflexivity|]. edestruct set_props_spec as [-> _].
    split; [by apply (props_ok_insert p old)|].
    rewrite (find_prop_insert name _ i p old Hl) by (rewrite ?Hn; done). cbn. by rewrite Z.eqb_refl.
  - assert (Hfp : find_prop name (props st w) = None) by (by apply find_prop_None).
    rewrite change_new by (done || lia). rewrite Htake. fold p.
    eexists. split; [reflexivity|]. edestruct set_props_spec as [-> _].
    split; [by apply props_ok_cons|]. rewrite find_prop_cons. cbn. by rewrite Z.eqb_refl.
Qed.
End Granted.

(** C28: Changing a property with Replace, Append or Prepend leaves exactly the
    value the protocol prescribes, BadMatch when type or format differ, and
    every other property and window as it was; properties stay well-formed. *)
Theorem ChangeProperty_value `{AtomTable} `{WindowLookup} prop_access create_access post_access
    MakeWindowOptional has_vrr XINERAMA noPanoramiX xrt_window
    st client win name type format mode len value sendevent :
  (forall c w l i m, prop_access c w l i m = (Success, i)) ->
  (forall c w p m, create_access c w p m = Success) ->
  (forall c w l i m, post_access c w l i m = Success) -> (forall w, MakeWindowOptional w = true) ->
  props_ok (props st win) -> format_ok format ->
  mode = PropModeReplace \/ mode = PropModePrepend \/ mode = PropModeAppend ->
  0 <= len -> len * unit_bytes format <= INT32_MAX ->
  (forall p, find_prop name (props st win) = Some p ->
     (prop_size p + len) * unit_bytes format <= INT32_MAX) ->
  len * unit_bytes format <= Z.of_nat (length value) ->
  let data := take (Z.to_nat (len * unit_bytes format)) value in
  exists rc st',
    dixChangeWindowProperty prop_access create_access post_access MakeWindowOptional has_vrr
      XINERAMA noPanoramiX xrt_window always st client win name type format mode len value sendevent
      = Ret (rc, st') /\
    props_ok (props st' win) /\ (forall w, w <> win -> props st' w = props st w) /\
    match changed (find_prop name (props st win)) name type format mode len data with
    | Some p => rc = Success /\
        forall n, find_prop n (props st' win) = if n =? name then Some p else find_prop n (props st win)
    | None => rc = BadMatch /\ props st' win = props st win
    end.
Proof.
  intros Hpa Hca Hpo Hmo Hok Hf Hmode Hlen Hmax Hold Hval data.
  assert (Hdata : Z.of_nat (length data) = len * unit_bytes format).
  { destruct (unit_bytes_cases _ Hf). unfold data. rewrite length_take. lia. }
  destruct (prop_index name (props st win)) as [i|] eqn:Hi.
  - destruct (prop_index_lookup _ _ _ Hi) as (old & Hl & Hn & Hfp). rewrite Hfp.
    assert (Hoo : prop_ok old) by (destruct Hok as [_ Ha]; rewrite Forall_lookup in Ha; by eapply Ha).
    specialize (Hold old Hfp). rewrite (change_existing _ _ _ _ _ _ _ _ Hpa Hpo) with (old := old) (i := i) by done.
    fold data. destruct (changed _ _ _ _ _ _ _) as [p|] eqn:Hch; [|by eexists _, _].
    destruct (changed_ok (Some old) name type format mode len data p) as [Hp Hpn]; try done.
    { intros o [= <-]. done. }
    eexists _, _. split; [reflexivity|]. edestruct set_props_spec as [-> Hoth].
    split_and!; [by apply (props_ok_insert p old); [done|done|congruence|done]|exact Hoth|done|].
    intros n. rewrite (find_prop_insert n _ i p old Hl) by (rewrite ?Hn; done).
    by rewrite Hpn, Z.eqb_sym.
  - assert (Hfp : find_prop name (props st win) = None) by (by apply find_prop_None).
    rewrite Hfp, (change_new _ _ _ _ _ _ _ _ Hca Hmo) by done. fold data. cbn [changed].
    destruct (changed_ok None name type format mode len data (MkProp name type format len data))
      as [Hp Hpn]; try done.
    eexists _, _. split; [reflexivity|]. edestruct set_props_spec as [-> Hoth].
    split_and!; [by apply props_ok_cons|exact Hoth|done|].
    intros n. rewrite find_prop_cons. by rewrite Hpn, Z.eqb_sym.
Qed.

(** ** Reading a property *)

Lemma write_data_spec sw format data len :
  format_ok format -> 0 <= len <= Z.of_nat (length data) -> Z.divide (unit_bytes format) len ->
  Z.of_nat (length data) <= INT32_MAX ->
  let b := write_data always sw format data len in
  error b = false /\ wpos b = len /\
  payload b = Some <$> wire_data sw format (take (Z.to_nat len) data).
Proof.
  intros Hf Hlen [k Hk] Hmax b. unfold INT32_MAX in *.
  assert (Htl : length (take (Z.to_nat len) data) = Z.to_nat len) by (rewrite length_take; lia).
  assert (Hi : rpc_ok (rpcbuf_init sw true)) by apply rpc_ok_init.
  assert (Hroom : forall n, 0 <= n <= INT32_MAX -> room (rpcbuf_init sw true) n).
  { intros n Hn. unfold room, XLIBRE_RPCBUF_CHUNK_SIZE, INT32_MAX in *. cbn. lia. }
  unfold INT32_MAX in Hroom.
  assert (Happ : forall b' ok cs, appends (rpcbuf_init sw true) b' ok cs -> ok = true ->
    Z.of_nat (length cs) = len -> error b' = false /\ wpos b' = len /\ payload b' = Some <$> cs).
  { intros b' ok cs [Ha _] Hok Hl. destruct (Ha Hok) as ([He _] & -> & ->). cbn. split_and!; done || lia. }
  unfold b, write_data, wire_data.
  destruct (writers_always 0 (rpcbuf_init sw true) (take (Z.to_nat (len / 4)) (words32 data)) eq_refl) as (W32 & _).
  destruct (writers_always 0 (rpcbuf_init sw true) (take (Z.to_nat (len / 2)) (words16 data)) eq_refl) as (_ & W16 & _).
  destruct (writers_always 0 (rpcbuf_init sw true) (take (Z.to_nat len) data) eq_refl) as (_ & _ & W8).
  destruct Hf as [-> | [-> | ->]]; change (unit_bytes 8) with 1 in *; change (unit_bytes 16) with 2 in *;
    change (unit_bytes 32) with 4 in *; cbn [Z.eqb Pos.eqb].
  - destruct (x_rpcbuf_write_CARD8s _ _ _ _) as [ok b'] eqn:E. cbn [fst snd] in *.
    refine (Happ _ _ _ (write_CARD8s_appends _ _ _ _ _ _ Hi _ E) _ _); [apply Hroom; lia|done|lia].
  - assert (Hdiv : len / 2 = k) by (rewrite Hk; by rewrite Z.div_mul). rewrite Hdiv in *.
    rewrite take_words16 in *. replace (2 * Z.to_nat k)%nat with (Z.to_nat len) in * by lia.
    pose proof (length_words16 (Z.to_nat k) (take (Z.to_nat len) data) ltac:(lia)) as Hw.
    destruct (x_rpcbuf_write_CARD16s _ _ _ _) as [ok b'] eqn:E. cbn [fst snd] in *.
    refine (Happ _ _ _ (write_CARD16s_appends _ _ _ _ _ _ Hi _ E) _ _);
      [apply Hroom; lia|done|rewrite length_mjoin_wire16; lia].
  - assert (Hdiv : len / 4 = k) by (rewrite Hk; by rewrite Z.div_mul). rewrite Hdiv in *.
    rewrite take_words32 in *. replace (4 * Z.to_nat k)%nat with (Z.to_nat len) in * by lia.
    pose proof (length_words32 (Z.to_nat k) (take (Z.to_nat len) data) ltac:(lia)) as Hw.
    destruct (x_rpcbuf_write_CARD32s _ _ _ _) as [ok b'] eqn:E. cbn [fst snd] in *.
    refine (Happ _ _ _ (write_CARD32s_appends _ _ _ _ _ _ Hi _ E) _ _);
      [apply Hroom; lia|done|rewrite length_mjoin_wire32; lia].
Qed.

Lemma find_prop_delete name l i p :
  NoDup (propertyName <$> l) -> l !! i = Some p ->
  find_prop name (delete i l) = if propertyName p =? name then None else find_prop name l.
Proof.
  revert i. induction l as [|x l IH]; intros [|i]; [done|done| |].
  - intros [Hx Hn]%NoDup_cons [= ->]. change (delete O (p :: l)) with l. rewrite find_prop_cons.
    destruct (Z.eqb_spec (propertyName p) name) as [<-|]; [|done].
    destruct (find_prop (propertyName p) l) as [q|] eqn:E; [|done].
    destruct (find_prop_elem _ _ _ E) as [Hq Hqn]. destruct Hx. rewrite <- Hqn.
    by apply list_elem_of_fmap_2.
  - intros [Hx Hn]%NoDup_cons Hl. change (delete (S i) (x :: l)) with (x :: delete i l).
    rewrite !find_prop_cons, (IH i Hn Hl).
    destruct (Z.eqb_spec (propertyName x) name) as [Hxn|]; [|done].
    destruct (Z.eqb_spec (propertyName p) name) as [Hpn|]; [|done].
    destruct Hx. rewrite Hxn, <- Hpn. apply list_elem_of_fmap_2.
    by eapply list_elem_of_lookup_2.
Qed.

Lemma unlink_windows st win i :
  ps_windows (unlink_property st win i) = ps_windows (set_props st win (delete i (props st win))).
Proof. unfold unlink_property. by case_bool. Qed.

Section Reading.
Context `{AtomTable} `{WindowLookup}.
Context (has_vrr : Z -> bool) (XINERAMA noPanoramiX : bool) (xrt_window : Z -> Z -> option (list Z)).
Implicit Types (st : prop_state).

(** The part of a property that a GetProperty request covers.  Offset and length
    count units of four bytes; in bytes they are 32-bit numbers, which wrap. *)
Definition byte_offset (off : Z) : Z := u32 (4 * off).
Definition slice_len (q : PropertyRec) (off ll : Z) : Z :=
  Z.min (prop_size q * unit_bytes (prop_format q) - byte_offset off) (u32 (4 * ll)).
Definition slice (q : PropertyRec) (off ll : Z) : list Z :=
  take (Z.to_nat (slice_len q off ll)) (drop (Z.to_nat (byte_offset off)) (prop_data q)).
Definition bytes_after (q : PropertyRec) (off ll : Z) : Z :=
  prop_size q * unit_bytes (prop_format q) - byte_offset off - slice_len q off ll.

Lemma u32_times_4 x : u32 (4 * x) = 4 * (x mod 1073741824).
Proof. unfold u32. change 4294967296 with (4 * 1073741824). by rewrite Zmult_mod_distr_l. Qed.

Definition slice_reply (sw : bool) (q : PropertyRec) (off ll : Z) : Reply :=
  MkReply (get_reply sw (prop_format q) (prop_type q) (bytes_after q off ll)
             (slice_len q off ll / unit_bytes (prop_format q)))
          (swapl sw ((slice_len q off ll + 3) / 4))
          (Some <$> wire_data sw (prop_format q) (slice q off ll)).

Lemma send_property_spec st client sw p win i q :
  prop_ok q -> byte_offset (p_longOffset p) <= prop_size q * unit_bytes (prop_format q) ->
  let gone := negb (p_delete p =? 0) && (bytes_after q (p_longOffset p) (p_longLength p) =? 0) in
  exists st', send_property has_vrr XINERAMA noPanoramiX xrt_window always st client sw p win i q
      = Ret (Success, st') /\
    last (ps_effects st') = Some (SendReply client (slice_reply sw q (p_longOffset p) (p_longLength p))) /\
    ps_windows st' = if gone then ps_windows (set_props st win (delete i (props st win)))
                     else ps_windows st.
Proof.
  intros Hq Hle gone. pose proof (ok_size _ Hq). pose proof (ok_data _ Hq) as Hd.
  pose proof (ok_bytes _ Hq) as Hb. destruct (unit_bytes_cases _ (ok_format _ Hq)) as [Hu8 Hu].
  unfold INT32_MAX in *. set (off := p_longOffset p) in *. set (ll := p_longLength p) in *.
  set (n := prop_size q * unit_bytes (prop_format q)) in *.
  pose proof (u32_range (4 * off)) as Hind. pose proof (u32_range (4 * ll)) as Hwant. fold (byte_offset off) in Hind.
  assert (Hlen : 0 <= slice_len q off ll <= n - byte_offset off) by (unfold slice_len; fold n; lia).
  unfold send_property. rewrite <- Hu8. fold off. fold ll.
  rewrite Z.shiftl_mul_pow2 by lia. change (2 ^ 2) with 4.
  rewrite (Z.mul_comm (unit_bytes _)), (Z.mul_comm off). fold n. fold (byte_offset off).
  rewrite (u32_small n) by lia.
  destruct (Z.ltb_spec n (byte_offset off)); [lia|]. destruct (Z.eqb_spec (unit_bytes (prop_format q)) 0); [lia|].
  change (Z.min (n - byte_offset off) (u32 (4 * ll))) with (slice_len q off ll).
  rewrite (u32_small (n - _)) by lia.
  replace (n - (byte_offset off + slice_len q off ll)) with (bytes_after q off ll) by (unfold bytes_after; fold n; lia).
  fold gone.
  destruct (write_data_spec sw (prop_format q) (drop (Z.to_nat (byte_offset off)) (prop_data q))
    (slice_len q off ll)) as (He & Hw & Hp).
  { apply Hq. }
  { rewrite length_drop. lia. }
  { unfold slice_len, byte_offset. fold n. rewrite !u32_times_4. destruct (ok_format _ Hq) as [E|[E|E]]; unfold n; rewrite E;
      change (unit_bytes 8) with 1; change (unit_bytes 16) with 2; change (unit_bytes 32) with 4;
      generalize (off mod 1073741824) (ll mod 1073741824); intros o l.
    - apply Z.divide_1_l.
    - destruct (Z.min_spec (prop_size q * 2 - 4 * o) (4 * l)) as [[_ ->]|[_ ->]];
        [exists (prop_size q - 2 * o)|exists (2 * l)]; lia.
    - destruct (Z.min_spec (prop_size q * 4 - 4 * o) (4 * l)) as [[_ ->]|[_ ->]];
        [exists (prop_size q - o)|exists l]; lia. }
  { rewrite length_drop. unfold INT32_MAX. lia. }
  rewrite He. set (b := write_data _ _ _ _ _) in *.
  unfold write_reply_hdr_and_rpcbuf. rewrite He. eexists. split; [reflexivity|].
  assert (Hdiv : 0 <= slice_len q off ll / unit_bytes (prop_format q) <= slice_len q off ll).
  { split; [apply Z.div_pos; lia|]. apply Z.div_le_upper_bound; nia. }
  split.
  - cbn [ps_effects effect set_field eta_ps]. rewrite last_snoc. f_equal. f_equal. unfold slice_reply.
    f_equal; [| |exact Hp].
    + f_equal; [|by apply u32_small; lia]. destruct (ok_format _ Hq) as [-> | [-> | ->]]; done.
    + f_equal. unfold x_rpcbuf_wsize_units. rewrite Hw, u64_small by lia.
      change (bytes_to_int32 (32 - sizeof_xGenericReply)) with 0. rewrite Z.add_0_l.
      rewrite u32_idemp, u32_small; [done|]. split; [apply Z.div_pos; lia|apply Z.div_lt_upper_bound; lia].
  - cbn [ps_windows effect set_field eta_ps]. destruct gone; [|done].
    rewrite unlink_windows. unfold set_props, props. cbn [ps_windows set_field eta_ps].
    by rewrite !notifyVRRMode_windows.
Qed.

Context (prop_access : Z -> Z -> list PropertyRec -> nat -> Z -> Z * nat).
Context (filter_callbacks : PropertyFilterParam -> PropertyFilterParam).
Hypothesis Hpa : forall c w l i m, prop_access c w l i m = (Success, i).
Hypothesis Hfilter : forall p, filter_callbacks p = p.
Hypothesis Hwin : forall w c m, window_rc w c m = Success.

Lemma find_prop_index name l q :
  find_prop name l = Some q -> exists i, prop_index name l = Some i /\ l !! i = Some q.
Proof. unfold find_prop. destruct (prop_index name l) as [i|]; [by exists i|done]. Qed.

(** What a GetProperty request comes to: its status, its reply, and whether the
    property is deleted. *)
Definition get_answer st (sw : bool) (w name type delete off ll : Z) : Z * option Reply * bool :=
  let info q n := write_reply_hdr_simple sw 32 (get_reply sw (prop_format q) (prop_type q) n 0) in
  if negb (valid_atom name) then (BadAtom, None, false)
  else if negb (delete =? 1) && negb (delete =? 0) then (BadValue, None, false)
  else if negb (type =? AnyPropertyType) && negb (valid_atom type) then (BadAtom, None, false)
  else match find_prop name (props st w) with
       | None => (Success, Some (write_reply_hdr_simple sw 32 (get_reply sw 0 0 0 0)), false)
       | Some q =>
           if negb (type =? prop_type q) && negb (type =? AnyPropertyType) then (Success, Some (info q (prop_size q)), false)
           else if prop_size q * unit_bytes (prop_format q) <? byte_offset off then (BadValue, None, false)
           else (Success, Some (slice_reply sw q off ll), (delete =? 1) && (bytes_after q off ll =? 0))
       end.

Definition answered st st' (client w name : Z) (reply : option Reply) (gone : bool) : Prop :=
  (match reply with
   | Some r => last (ps_effects st') = Some (SendReply client r)
   | None => ps_effects st' = ps_effects st
   end) /\
  (forall m, find_prop m (props st' w) = if gone && (m =? name) then None else find_prop m (props st w)) /\
  (forall w', w' <> w -> props st' w' = props st w').

(** Without a deletion the windows are as before. *)
Lemma answered_same st st' client w name reply : ps_windows st' = ps_windows st ->
  ps_effects st' = ps_effects st ++ (match reply with Some r => [SendReply client r] | None => [] end) ->
  answered st st' client w name reply false.
Proof.
  intros Hw He. split; [|split; intros; by rewrite (props_windows st st') by done].
  rewrite He. destruct reply; [by rewrite last_snoc|by rewrite app_nil_r].
Qed.

Lemma get_property_spec st client sw stuff :
  let w := swapl sw (ge_window stuff) in
  let name := swapl sw (ge_property stuff) in
  props_ok (props st w) ->
  let '(rc, reply, gone) := get_answer st sw w name (swapl sw (ge_type stuff)) (ge_delete stuff)
                              (swapl sw (ge_longOffset stuff)) (swapl sw (ge_longLength stuff)) in
  exists st',
    ProcGetProperty prop_access filter_callbacks has_vrr XINERAMA noPanoramiX xrt_window always
      st client sw 6 stuff = Ret (rc, st') /\ answered st st' client w name reply gone.
Proof.
  intros w name Hok. set (type := swapl sw (ge_type stuff)). set (off := swapl sw (ge_longOffset stuff)).
  set (ll := swapl sw (ge_longLength stuff)).
  unfold get_answer, ProcGetProperty. change (size_mismatch 24 6) with false. cbv iota zeta. fold w name type off ll.
  destruct (negb (valid_atom name)); [eexists; split; [reflexivity|by apply answered_same; rewrite ?app_nil_r]|].
  destruct (negb (ge_delete stuff =? 1) && negb (ge_delete stuff =? 0)) eqn:Hd;
    [eexists; split; [reflexivity|by apply answered_same; rewrite ?app_nil_r]|].
  destruct (negb (type =? AnyPropertyType) && negb (valid_atom type));
    [eexists; split; [reflexivity|by apply answered_same; rewrite ?app_nil_r]|].
  rewrite Hfilter. cbn [p_skip p_window p_client p_property p_type p_delete].
  unfold lookup_window. rewrite Hwin. change (Success =? Success) with true. cbn [negb].
  unfold dixLookupProperty. set (st2 := set_errorValue (set_errorValue _ _ _) _ _).
  change (props st2 w) with (props st w). destruct (find_prop name (props st w)) as [q|] eqn:Hq.
  2: { apply find_prop_None in Hq as ->. eexists. split; [reflexivity|]. by apply answered_same. }
  destruct (find_prop_index _ _ _ Hq) as (i & Hi & Hl).
  assert (Hqok : prop_ok q) by (destruct Hok as [_ Ha]; rewrite Forall_lookup in Ha; by eapply Ha).
  rewrite Hi, Hpa. change (Success =? BadMatch) with false. change (Success =? Success) with true. cbn [negb].
  cbn [option_bind mbind]. change (props st2 w) with (props st w). rewrite Hl.
  cbn [fmap option_fmap option_map].
  destruct (negb (type =? prop_type q) && negb (type =? AnyPropertyType)).
  { eexists. split; [reflexivity|]. apply answered_same; [done|]. cbn [ps_effects effect set_field eta_ps].
    by destruct (ok_format _ Hqok) as [-> | [-> | ->]]. }
  set (p := MkPF _ _ _ _ _ _ _ _ _ _ _ _ _ _ _ _ _ _).
  destruct (Z.ltb_spec (prop_size q * unit_bytes (prop_format q)) (byte_offset off)) as [Hlt|Hge].
  - eexists. split; [|apply (answered_same st (set_errorValue st2 client off)); [done|by rewrite app_nil_r]].
    unfold send_property. destruct (unit_bytes_cases _ (ok_format _ Hqok)) as [<- Hu].
    pose proof (ok_size _ Hqok). pose proof (ok_bytes _ Hqok). unfold INT32_MAX in *.
    change (p_longOffset p) with off. rewrite Z.shiftl_mul_pow2 by lia. change (2 ^ 2) with 4.
    rewrite (Z.mul_comm (unit_bytes _)), (Z.mul_comm off). fold (byte_offset off).
    rewrite u32_small by lia. by rewrite (proj2 (Z.ltb_lt _ _) Hlt).
  - destruct (send_property_spec st2 client sw p w i q Hqok Hge) as (st' & Hs & He & Hw).
    exists st'. split; [exact Hs|]. split; [exact He|].
    assert (Hg : negb (p_delete p =? 0) = (ge_delete stuff =? 1)).
    { cbn. destruct (Z.eqb_spec (ge_delete stuff) 1) as [-> |]; [done|]. by destruct (Z.eqb_spec (ge_delete stuff) 0). }
    rewrite Hg in Hw. change (p_longOffset p) with off in Hw. change (p_longLength p) with ll in Hw.
    set (gone := (ge_delete stuff =? 1) && _) in *. clearbody gone. change (props st2 w) with (props st w) in Hw.
    split.
    + intros m. destruct gone; [|by rewrite (props_windows _ _ w Hw)].
      rewrite (props_windows _ _ w Hw), props_set_same.
      rewrite (find_prop_delete m _ i q (proj1 Hok) Hl).
      destruct (find_prop_elem _ _ _ Hq) as [_ ->]. by rewrite Z.eqb_sym.
    + intros w' Hne. destruct gone; rewrite (props_windows _ _ w' Hw); [by rewrite props_set_other|done].
Qed.
End Reading.

(** C29: GetProperty, of a window that the client may read and whose properties are
    well-formed, and with memory for the reply, has exactly one of these results,
    whatever its fields: BadAtom or BadValue for a property, type or delete that is
    none; the reply that there is no property; format, type and size of a property of
    another type; BadValue for an offset beyond the end; and otherwise the part of
    the property that was asked for, in the client's byte order, with its count and the
    bytes left, and the property is deleted when that was asked for and none are left.
    Offset and length are multiplied by four in 32 bits, and wrap.  Nothing else
    changes. *)
Theorem GetProperty_slice `{AtomTable} `{WindowLookup} prop_access filter_callbacks
    has_vrr XINERAMA noPanoramiX xrt_window st client sw stuff :
  (forall c w l i m, prop_access c w l i m = (Success, i)) ->
  (forall p, filter_callbacks p = p) -> (forall w c m, window_rc w c m = Success) ->
  let w := swapl sw (ge_window stuff) in
  let name := swapl sw (ge_property stuff) in
  props_ok (props st w) ->
  let '(rc, reply, gone) := get_answer st sw w name (swapl sw (ge_type stuff)) (ge_delete stuff)
                              (swapl sw (ge_longOffset stuff)) (swapl sw (ge_longLength stuff)) in
  exists st',
    ProcGetProperty prop_access filter_callbacks has_vrr XINERAMA noPanoramiX xrt_window always
      st client sw 6 stuff = Ret (rc, st') /\ answered st st' client w name reply gone.
Proof. intros Hpa Hf Hw w name Hok. by apply get_property_spec. Qed.

(** What one client stores with ChangeProperty, another client of the same
    byte order reads back unchanged with a GetProperty that asks for enough. *)
Theorem ChangeProperty_GetProperty `{AtomTable} `{WindowLookup} prop_access create_access post_access
    filter_callbacks MakeWindowOptional has_vrr XINERAMA noPanoramiX xrt_window
    st writer reader w name type format len value ll :
  (forall c w l i m, prop_access c w l i m = (Success, i)) ->
  (forall c w p m, create_access c w p m = Success) ->
  (forall c w l i m, post_access c w l i m = Success) -> (forall w, MakeWindowOptional w = true) ->
  (forall p, filter_callbacks p = p) -> (forall w c m, window_rc w c m = Success) ->
  props_ok (props st w) -> format_ok format -> 0 <= len ->
  (forall p, find_prop name (props st w) = Some p ->
     (prop_size p + len) * unit_bytes format <= INT32_MAX) ->
  len * unit_bytes format = Z.of_nat (length value) -> Z.of_nat (length value) <= INT32_MAX ->
  bytes value -> valid_atom name = true -> len * unit_bytes format <= 4 * ll -> ll < 1073741824 ->
  exists st1 st2 r,
    dixChangeWindowProperty prop_access create_access post_access MakeWindowOptional has_vrr
      XINERAMA noPanoramiX xrt_window always st writer w name type format PropModeReplace len value true
      = Ret (Success, st1) /\
    ProcGetProperty prop_access filter_callbacks has_vrr XINERAMA noPanoramiX xrt_window always
      st1 reader false 6 (MkGet 0 w name AnyPropertyType 0 ll) = Ret (Success, st2) /\
    last (ps_effects st2) = Some (SendReply reader r) /\
    rp_payload r = Some <$> value /\ rp_fields r = [format; type; 0; len].
Proof.
  intros Hpa Hca Hpo Hmo Hf Hw Hok Hfmt Hlen Hold Hval Hmax Hbytes Hname Hll Hll2.
  destruct (unit_bytes_cases _ Hfmt) as [_ Hu].
  set (p := MkProp name type format len value).
  assert (Htake : take (Z.to_nat (len * unit_bytes format)) value = value) by (apply take_ge; lia).
  assert (Hp : prop_ok p) by (constructor; cbn; lia || done).
  destruct (change_replace prop_access create_access post_access MakeWindowOptional has_vrr XINERAMA
    noPanoramiX xrt_window Hpa Hca Hpo Hmo st writer w name type format len value true Hok Hfmt Hlen
    Hold Hval Hmax) as (st1 & Hc1 & Hok1 & Hf1). fold p in Hf1.
  exists st1.
  assert (Hoff0 : byte_offset 0 = 0) by done. assert (Hll4 : u32 (4 * ll) = 4 * ll) by (apply u32_small; lia).
  pose proof (get_property_spec has_vrr XINERAMA noPanoramiX xrt_window prop_access filter_callbacks
    Hpa Hf Hw st1 reader false (MkGet 0 w name AnyPropertyType 0 ll) Hok1) as Hget.
  cbn [swapl ge_window ge_property ge_type ge_delete ge_longOffset ge_longLength] in Hget. unfold get_answer in Hget.
  rewrite Hname, Hf1, Hoff0 in Hget. cbn [negb andb Z.eqb AnyPropertyType] in Hget. rewrite andb_false_r in Hget.
  change (prop_size p * unit_bytes (prop_format p)) with (len * unit_bytes format) in Hget.
  rewrite (proj2 (Z.ltb_ge _ _)) in Hget by lia. destruct Hget as (st2 & H1 & (H2 & _)).
  exists st2. eexists. split; [exact Hc1|]. split; [exact H1|]. split; [exact H2|].
  assert (Hsl : slice_len p 0 ll = len * unit_bytes format) by (unfold slice_len; rewrite Hoff0, Hll4; cbn; lia).
  unfold slice_reply. cbn [rp_payload rp_fields]. split.
  - f_equal. unfold slice. rewrite Hsl. change (drop (Z.to_nat (byte_offset 0)) (prop_data p)) with value.
    rewrite Htake. change (prop_format p) with format. apply wire_data_native; [done|..]; intros ->; exists (Z.to_nat len);
      change (unit_bytes 32) with 4 in *; change (unit_bytes 16) with 2 in *; lia.
  - unfold bytes_after, get_reply, swapl. rewrite Hsl, Hoff0. change (prop_format p) with format.
    change (prop_size p) with len. rewrite Z.div_mul by lia.
    by replace (len * unit_bytes format - 0 - len * unit_bytes format) with 0 by lia.
Qed.

(** ** Rotating *)

Section Rotating.
Context `{AtomTable} `{WindowLookup}.
Context (prop_access : Z -> Z -> list PropertyRec -> nat -> Z -> Z * nat).
Context (has_vrr : Z -> bool) (XINERAMA noPanoramiX : bool) (xrt_window : Z -> Z -> option (list Z)).
Hypothesis Hpa : forall c w l i m, prop_access c w l i m = (Success, i).
Implicit Types (st : prop_state) (l : list PropertyRec).

(** The position and the record the first loop remembers for an atom. *)
Definition slot l (a : Z) : nat * PropertyRec :=
  let k := default O (prop_index a l) in (k, default (MkProp a 0 0 0 []) (l !! k)).

Lemma rotate_check_ok p client w i st a :
  p_atoms p !! i = Some a -> valid_atom a = true -> NoDup (p_atoms p) ->
  p_nAtoms p = Z.of_nat (length (p_atoms p)) -> is_Some (find_prop a (props st w)) ->
  rotate_check prop_access p client w i st =
    inr (slot (props st w) a, set_errorValue st (p_client p) a).
Proof.
  intros Ha Hv Hnd Hn [q Hq]. unfold rotate_check. rewrite Ha. cbv zeta.
  change (default 0 (Some a)) with a. rewrite Hv. cbn [negb].
  assert (Hex : existsb (fun b => b =? a) (take (Z.to_nat (p_nAtoms p) - S i) (drop (S i) (p_atoms p))) = false).
  { apply not_true_iff_false. rewrite List.existsb_exists. intros (b & Hb & ->%Z.eqb_eq).
    apply list_elem_of_In in Hb. apply elem_of_take in Hb as (k & Hk & _).
    rewrite lookup_drop in Hk. pose proof (NoDup_lookup _ _ _ _ Hnd Ha Hk). lia. }
  rewrite Hex. destruct (find_prop_index _ _ _ Hq) as (k & Hk & Hl).
  unfold dixLookupProperty. change (props (set_errorValue st (p_client p) a) w) with (props st w).
  rewrite Hk, Hpa. change (Success =? Success) with true. cbn [negb option_bind mbind].
  change (props (set_errorValue st (p_client p) a) w) with (props st w). rewrite Hl.
  unfold slot. rewrite Hk. cbn [default from_option id]. by rewrite Hl.
Qed.

Lemma rotate_collect_ok p client w l :
  NoDup (p_atoms p) -> p_nAtoms p = Z.of_nat (length (p_atoms p)) ->
  (forall a, a ∈ p_atoms p -> valid_atom a = true /\ is_Some (find_prop a l)) ->
  forall m i acc st, (i + m = length (p_atoms p))%nat -> props st w = l ->
  exists st', rotate_collect prop_access p client w (seq i m) acc st =
      inr (acc ++ (slot l <$> drop i (p_atoms p)), st') /\
    ps_windows st' = ps_windows st /\ ps_effects st' = ps_effects st.
Proof.
  intros Hnd Hn Hall m. induction m as [|m IH]; intros i acc st Hi Hst; cbn [seq rotate_collect].
  - exists st. rewrite drop_ge by lia. by rewrite app_nil_r.
  - destruct (lookup_lt_is_Some_2 (p_atoms p) i ltac:(lia)) as [a Ha].
    destruct (Hall a) as [Hv Hf]; [by eapply list_elem_of_lookup_2|].
    rewrite (rotate_check_ok p client w i st a Ha Hv Hnd Hn) by (by rewrite Hst). rewrite Hst.
    destruct (slot l a) as [k q] eqn:Hs.
    destruct (IH (S i) (acc ++ [(k, q)]) (set_errorValue st (p_client p) a)) as (st' & H1 & H2 & H3);
      [lia|done|].
    exists st'. rewrite H1. split; [|done]. rewrite (drop_S _ _ _ Ha), fmap_cons, Hs.
    by rewrite <- app_assoc.
Qed.

(** The offset after the loop is congruent to the one of the request. *)
Lemma rotate_delta_ok delta n :
  -32768 <= delta < 32768 -> 0 < n < 65536 ->
  exists d, rotate_delta delta n = Ret d /\ 0 <= d /\ d mod n = delta mod n.
Proof.
  intros Hd Hn. unfold rotate_delta.
  apply (run_loop_total _ (fun d => -32768 <= d < 98304 /\ d mod n = delta mod n)
    (fun d => 0 <= d /\ d mod n = delta mod n) (fun d => n - d)).
  - intros d [Hr Hm]. destruct (Z.ltb_spec d 0); [|done].
    rewrite i32_small by lia. split; [split; [lia|]|lia].
    rewrite <- Hm. replace (d + n) with (d + 1 * n) by lia. by rewrite Z.mod_add by lia.
  - lia.
  - unfold TURNS. lia.
Qed.

(** One turn stores the value of [si] at position [kj] and nothing else. *)
Definition put (si q : PropertyRec) : PropertyRec :=
  MkProp (propertyName q) (prop_type si) (prop_format si) (prop_size si) (prop_data si).

Lemma rotate_one_windows client w delta n saved st i ki si kj sj :
  saved !! i = Some (ki, si) -> saved !! Z.to_nat ((Z.of_nat i + delta) mod n) = Some (kj, sj) ->
  is_Some (props st w !! ki) ->
  ps_windows (rotate_one has_vrr XINERAMA noPanoramiX xrt_window client w delta n saved st i) =
  ps_windows (set_props st w (alter (put si) kj (props st w))).
Proof.
  intros Hi Hj [cur Hc]. unfold rotate_one. rewrite Hi, Hj, Hc. unfold set_props, props.
  cbn [ps_windows set_field eta_ps]. by rewrite !notifyVRRMode_windows.
Qed.

(** What the second loop has done after [m] turns. *)
Definition target (delta n : Z) (i : nat) : nat := Z.to_nat ((Z.of_nat i + delta) mod n).

Lemma target_inj delta n i j :
  0 < n -> Z.of_nat i < n -> Z.of_nat j < n -> target delta n i = target delta n j -> i = j.
Proof.
  intros Hn Hi Hj He. unfold target in He.
  pose proof (Z.mod_pos_bound (Z.of_nat i + delta) n Hn).
  pose proof (Z.mod_pos_bound (Z.of_nat j + delta) n Hn).
  assert (E : (Z.of_nat i + delta) mod n = (Z.of_nat j + delta) mod n) by lia.
  pose proof (Z.div_mod (Z.of_nat i + delta) n ltac:(lia)) as H1i.
  pose proof (Z.div_mod (Z.of_nat j + delta) n ltac:(lia)) as H1j. rewrite E in H1i.
  set (qi := (Z.of_nat i + delta) / n) in *. set (qj := (Z.of_nat j + delta) / n) in *.
  assert (Hq : Z.of_nat i - Z.of_nat j = n * (qi - qj)) by lia.
  destruct (Z.lt_trichotomy (qi - qj) 0) as [|[Hz|]]; [nia|rewrite Hz in Hq; lia|nia].
Qed.

Record rotated (w : Z) (names : list Z) (delta n : Z) st0 (m : nat) st : Prop := {
  rot_names : propertyName <$> props st w = propertyName <$> props st0 w;
  rot_done : forall i a b qa qb, (i < m)%nat -> names !! i = Some a ->
    names !! target delta n i = Some b ->
    find_prop a (props st0 w) = Some qa -> find_prop b (props st0 w) = Some qb ->
    props st w !! (slot (props st0 w) b).1 = Some (put qa qb);
  rot_rest : forall x, (forall i b, (i < m)%nat -> names !! target delta n i = Some b ->
      (slot (props st0 w) b).1 <> x) -> props st w !! x = props st0 w !! x;
  rot_other : forall w', w' <> w -> props st w' = props st0 w'
}.

Lemma slot_found l a q :
  find_prop a l = Some q -> slot l a = ((slot l a).1, q) /\ l !! (slot l a).1 = Some q /\
    prop_index a l = Some (slot l a).1.
Proof.
  intros Hq. destruct (find_prop_index _ _ _ Hq) as (k & Hk & Hl). unfold slot. rewrite Hk. cbn.
  by rewrite Hl.
Qed.
Lemma slot_inj l a b qa qb :
  find_prop a l = Some qa -> find_prop b l = Some qb -> (slot l a).1 = (slot l b).1 -> a = b.
Proof.
  intros Ha Hb He. destruct (slot_found _ _ _ Ha) as (_ & H1 & _).
  destruct (slot_found _ _ _ Hb) as (_ & H2 & _). rewrite He in H1.
  destruct (find_prop_elem _ _ _ Ha) as [_ <-]. destruct (find_prop_elem _ _ _ Hb) as [_ <-]. congruence.
Qed.

Lemma names_alter l k qa : propertyName <$> alter (put qa) k l = propertyName <$> l.
Proof.
  revert k. induction l as [|q l IH]; intros [|k]; [done..|].
  change (alter (put qa) (S k) (q :: l)) with (q :: alter (put qa) k l). by rewrite !fmap_cons, IH.
Qed.

Lemma rotated_step client w names delta st0 m st :
  NoDup names -> (forall a, a ∈ names -> is_Some (find_prop a (props st0 w))) ->
  0 <= delta -> (m < length names)%nat ->
  let n := Z.of_nat (length names) in
  rotated w names delta n st0 m st ->
  rotated w names delta n st0 (S m)
    (rotate_one has_vrr XINERAMA noPanoramiX xrt_window client w delta n
       (slot (props st0 w) <$> names) st m).
Proof.
  intros Hnd Hall Hd Hm n [Hn1 Hdone Hrest Hoth].
  destruct (lookup_lt_is_Some_2 names m Hm) as [a Ha].
  assert (Ht : (target delta n m < length names)%nat).
  { unfold target. pose proof (Z.mod_pos_bound (Z.of_nat m + delta) n ltac:(unfold n; lia)).
    unfold n in *. lia. }
  destruct (lookup_lt_is_Some_2 names _ Ht) as [b Hb].
  destruct (Hall a ltac:(by eapply list_elem_of_lookup_2)) as [qa Hqa].
  destruct (Hall b ltac:(by eapply list_elem_of_lookup_2)) as [qb Hqb].
  destruct (slot_found _ _ _ Hqa) as (Hsa & Hla & _). destruct (slot_found _ _ _ Hqb) as (Hsb & Hlb & _).
  set (ka := (slot (props st0 w) a).1) in *. set (kb := (slot (props st0 w) b).1) in *.
  assert (Hcur : is_Some (props st w !! ka)).
  { apply lookup_lt_is_Some. apply lookup_lt_Some in Hla.
    assert (E : length (propertyName <$> props st w) = length (propertyName <$> props st0 w)) by (by rewrite Hn1).
    rewrite !length_fmap in E. lia. }
  pose proof (rotate_one_windows client w delta n (slot (props st0 w) <$> names) st m ka qa kb qb
    ltac:(by rewrite list_lookup_fmap, Ha; cbn; rewrite Hsa)
    ltac:(rewrite list_lookup_fmap; fold (target delta n m); rewrite Hb; cbn; by rewrite Hsb) Hcur) as Hw.
  set (st' := rotate_one _ _ _ _ _ _ _ _ _ _ _) in *.
  assert (Hp : props st' w = alter (put qa) kb (props st w)).
  { rewrite (props_windows _ _ w Hw). apply props_set_same. }
  assert (Hkb : props st w !! kb = Some qb).
  { rewrite Hrest; [done|]. intros i b' Hi Hb' E.
    destruct (Hall b' ltac:(by eapply list_elem_of_lookup_2)) as [qb' Hqb'].
    assert (b' = b) as -> by (by eapply slot_inj).
    assert (target delta n i = target delta n m) as E' by (by eapply NoDup_lookup).
    apply target_inj in E'; unfold n in *; lia. }
  constructor.
  - by rewrite Hp, <- Hn1, names_alter.
  - intros i a' b' qa' qb' Hi Ha' Hb' Hqa' Hqb'. rewrite Hp.
    destruct (decide (i = m)) as [->|Hne].
    + simplify_eq. fold kb. by rewrite list_lookup_alter_eq, Hkb.
    + rewrite list_lookup_alter_ne; [apply (Hdone i a' b'); [lia|done..]|].
      intros E. assert (b = b') as <- by (by eapply slot_inj).
      assert (target delta n i = target delta n m) as E' by (by eapply NoDup_lookup).
      apply target_inj in E'; unfold n in *; lia.
  - intros x Hx. rewrite Hp, list_lookup_alter_ne; [apply Hrest; intros i b' Hi; apply Hx; lia|].
    by apply (Hx m); [lia|].
  - intros w' Hne. rewrite (props_windows _ _ w' Hw), props_set_other by done. by apply Hoth.
Qed.

Lemma rotated_all client w names delta st0 st m :
  NoDup names -> (forall a, a ∈ names -> is_Some (find_prop a (props st0 w))) ->
  0 <= delta -> (m <= length names)%nat -> ps_windows st = ps_windows st0 ->
  rotated w names delta (Z.of_nat (length names)) st0 m
    (fold_left (rotate_one has_vrr XINERAMA noPanoramiX xrt_window client w delta
       (Z.of_nat (length names)) (slot (props st0 w) <$> names)) (seq 0 m) st).
Proof.
  intros Hnd Hall Hd. induction m as [|m IH]; intros Hm Hw.
  - constructor; cbn; intros; try lia; by rewrite (props_windows _ _ _ Hw).
  - rewrite seq_S, fold_left_app. cbn [fold_left Nat.add]. apply rotated_step; try done. apply IH; [lia|done].
Qed.
End Rotating.

Lemma prop_index_names name l l' :
  propertyName <$> l = propertyName <$> l' -> prop_index name l = prop_index name l'.
Proof.
  revert l'. induction l as [|p l IH]; intros [|p' l']; try done.
  rewrite !fmap_cons. intros [= Hp Hl]. cbn. by rewrite Hp, (IH l' Hl).
Qed.

Lemma rotate_length n :
  0 < n < 65536 -> too_short 12 (3 + n) = false /\ not_fixed_size 12 (Z.shiftl n 2) (3 + n) = false.
Proof.
  intros Hn. unfold too_short, not_fixed_size. change (Z.shiftr 12 2) with 3. rewrite Z.gtb_ltb, Z.geb_leb.
  rewrite Z.shiftr_shiftl_l by lia. change (2 - 2) with 0. rewrite Z.shiftl_0_r.
  destruct (Z.ltb_spec (3 + n) 3), (Z.leb_spec (3 + n) n); try lia. cbn [orb]. split; [done|].
  rewrite Z.shiftl_mul_pow2 by lia. change (2 ^ 2) with 4.
  rewrite u64_small by lia. rewrite Z.shiftr_div_pow2 by lia. change (2 ^ 2) with 4.
  replace (12 + n * 4 + 3) with (3 + (3 + n) * 4) by lia. rewrite Z.div_add by lia.
  change (3 / 4) with 0. rewrite Z.add_0_l. by rewrite Z.eqb_refl.
Qed.

Lemma abs_mod_zero delta n : 0 < n -> Z.abs delta mod n = 0 -> delta mod n = 0.
Proof.
  intros Hn Hz. destruct (Z.abs_eq_or_opp delta) as [E|E]; rewrite E in Hz; [done|].
  apply Z.mod_opp_l_z in Hz; [by rewrite Z.opp_involutive in Hz|lia].
Qed.
Lemma target_full delta n i :
  0 < n -> delta mod n = 0 -> Z.of_nat i < n -> target delta n i = i.
Proof.
  intros Hn Hz Hi. unfold target. rewrite Zplus_mod, Hz, Z.add_0_r, Zmod_mod, Z.mod_small by lia. lia.
Qed.

(** RotateProperties gives the property of the [(i + delta) mod n]-th atom
    the type, format and value of the [i]-th one, for a positive or negative
    [delta]; every other property and window is as it was. *)
Theorem RotateProperties_rotates `{AtomTable} `{WindowLookup} prop_access filter_callbacks
    has_vrr XINERAMA noPanoramiX xrt_window st client sw stuff :
  (forall c w l i m, prop_access c w l i m = (Success, i)) ->
  (forall p, filter_callbacks p = p) -> (forall w c m, window_rc w c m = Success) ->
  let w := swapl sw (ro_window stuff) in
  let names := words32 (if sw then SwapRestL (ro_rest stuff) else ro_rest stuff) in
  let delta := s16 (swaps sw (ro_nPositions stuff)) in
  let n := swaps sw (ro_nAtoms stuff) in
  n = Z.of_nat (length names) -> 0 < n < 65536 -> NoDup names ->
  (forall a, a ∈ names -> valid_atom a = true /\ is_Some (find_prop a (props st w))) ->
  exists st',
    ProcRotateProperties prop_access filter_callbacks has_vrr XINERAMA noPanoramiX xrt_window always
      st client sw (3 + n) stuff = Ret (Success, st') /\
    (forall i a b qa, names !! i = Some a -> names !! target delta n i = Some b ->
       find_prop a (props st w) = Some qa ->
       find_prop b (props st' w) =
         Some (MkProp b (prop_type qa) (prop_format qa) (prop_size qa) (prop_data qa))) /\
    (forall m, m ∉ names -> find_prop m (props st' w) = find_prop m (props st w)) /\
    (forall w', w' <> w -> props st' w' = props st w').
Proof.
  intros Hpa Hf Hw w names delta n Hn Hn0 Hnd Hall.
  unfold ProcRotateProperties. fold w n. fold names.
  destruct (rotate_length n ltac:(lia)) as [-> ->]. rewrite Hf.
  cbn [p_skip p_window p_client p_atoms p_nAtoms p_nPositions].
  unfold lookup_window. rewrite Hw. change (Success =? Success) with true. cbn [negb orb always andb].
  destruct (Z.leb_spec n 0); [lia|]. destruct (Z.ltb_spec (Z.of_nat (length names)) n); [lia|].
  set (p := MkPF _ _ _ _ _ _ _ _ _ _ _ _ _ _ _ _ _ _).
  set (st1 := set_errorValue st client w).
  destruct (rotate_collect_ok prop_access Hpa p client w (props st w) Hnd Hn Hall (Z.to_nat n) 0 [] st1)
    as (st2 & Hcol & Hw2 & _); [cbn; lia|done|].
  rewrite Hcol. cbn [app]. rewrite drop_0. change (p_atoms p) with names.
  assert (Hd : i32 (u64 delta) = delta /\ -32768 <= delta < 32768).
  { assert (-32768 <= delta < 32768) by (unfold delta, s16; Z.div_mod_to_equations; lia).
    split; [word|done]. }
  destruct Hd as [Hi32 Hd]. fold delta. rewrite Hi32. destruct (Z.eqb_spec n 0); [lia|].
  assert (Hall' : forall a, a ∈ names -> is_Some (find_prop a (props st w))) by (intros; by apply Hall).
  destruct (Z.eqb_spec (Z.abs delta mod n) 0) as [Hz|Hz].
  - exists st2. split; [done|]. assert (Hsame : forall w', props st2 w' = props st w').
    { intros w'. apply props_windows. by rewrite Hw2. }
    setoid_rewrite Hsame. split_and!; try done. intros i a b qa Ha Hb Hqa.
    assert (target delta n i = i) as Hti.
    { apply target_full; [lia| |by apply lookup_lt_Some in Ha; lia]. by apply abs_mod_zero. }
    rewrite Hti in Hb. assert (a = b) as <- by congruence. rewrite Hqa.
    destruct (find_prop_elem _ _ _ Hqa) as [_ <-]. by destruct qa.
  - destruct (rotate_delta_ok delta n Hd Hn0) as (d & -> & Hd0 & Hdm). cbn [obind].
    eexists. split; [reflexivity|].
    pose proof (rotated_all has_vrr XINERAMA noPanoramiX xrt_window client w names d st st2 (length names)
      Hnd Hall' Hd0 ltac:(lia) ltac:(by rewrite Hw2)) as Hrot.
    rewrite Hn in *. rewrite Nat2Z.id. set (st' := fold_left _ _ _) in *. rewrite <- Hn in *.
    assert (Htgt : forall i, target d n i = target delta n i).
    { intros i. unfold target. by rewrite (Zplus_mod _ d), Hdm, <- Zplus_mod. }
    split_and!.
    + intros i a b qa Ha Hb Hqa.
      destruct (Hall' b ltac:(by eapply list_elem_of_lookup_2)) as [qb Hqb].
      rewrite <- Htgt in Hb.
      pose proof (rot_done _ _ _ _ _ _ _ Hrot i a b qa qb ltac:(by eapply lookup_lt_Some) Ha Hb Hqa Hqb) as Hk.
      destruct (slot_found _ _ _ Hqb) as (_ & _ & Hix). destruct (find_prop_elem _ _ _ Hqb) as [_ Hbn].
      unfold find_prop. rewrite (prop_index_names _ _ _ (rot_names _ _ _ _ _ _ _ Hrot)), Hix.
      cbn [option_bind mbind]. rewrite Hk. unfold put. by rewrite Hbn.
    + intros m Hm. unfold find_prop. rewrite (prop_index_names _ _ _ (rot_names _ _ _ _ _ _ _ Hrot)).
      destruct (prop_index m (props st w)) as [x|] eqn:Hx; [|done]. cbn [option_bind mbind].
      apply (rot_rest _ _ _ _ _ _ _ Hrot). intros i b Hi Hb E.
      destruct (Hall' b ltac:(by eapply list_elem_of_lookup_2)) as [qb Hqb].
      destruct (slot_found _ _ _ Hqb) as (_ & Hlb & _). rewrite E in Hlb.
      destruct (prop_index_lookup _ _ _ Hx) as (q & Hq & Hqn & _). rewrite Hlb in Hq. injection Hq as ->.
      destruct (find_prop_elem _ _ _ Hqb) as [_ Hqb']. destruct Hm. rewrite <- Hqn, Hqb'.
      by eapply list_elem_of_lookup_2.
    + intros w' Hne. by apply (rot_other _ _ _ _ _ _ _ Hrot).
Qed.

(** ** What modelling showed *)

(** When Xinerama is built in but not active, as on an ordinary server, no
    window's variable refresh rate mode is ever set: the return after the
    Xinerama branch comes before the call. *)
Theorem VRR_mode_lost `{AtomTable} `{WindowLookup} has_vrr xrt_window st client win state p :
  notifyVRRMode has_vrr true true xrt_window st client win state p = st.
Proof. unfold notifyVRRMode. destruct (atom_name _); [|done]. by case_bool. Qed.

Lemma notify_effects `{AtomTable} `{WindowLookup} has_vrr XINERAMA noPanoramiX xrt_window
    st client win state p :
  ps_effects st `prefix_of`
    ps_effects (notifyVRRMode has_vrr XINERAMA noPanoramiX xrt_window st client win state p).
Proof.
  assert (Hset : forall st w m, ps_effects st `prefix_of` ps_effects (setVRRMode has_vrr st w m)).
  { intros st0 w m. unfold setVRRMode. case_bool; [by eexists|done]. }
  unfold notifyVRRMode. destruct (atom_name _); [|done]. case_bool; [done|].
  destruct XINERAMA, noPanoramiX; cbn [negb]; try done.
  destruct (xrt_window client win) as [ids|]; [|done].
  generalize (rev ids). set (mode := if state =? _ then _ else _). intros ws. revert st.
  induction ws as [|id ws IH]; intros st; [done|]. cbn [fold_left]. etrans; [|apply IH].
  unfold lookup_window. case_bool; [|done]. etrans; [|apply Hset]. done.
Qed.

Lemma write_data_fails al sw format data len :
  format_ok format -> (forall n, al 0%nat n = false) -> Z.divide (unit_bytes format) len ->
  0 < len <= Z.of_nat (length data) -> error (write_data al sw format data len) = true.
Proof.
  intros Hf Ha [k Hk] Hlen. unfold write_data.
  assert (Hw : forall cs, cs <> [] -> error (write_bytes al 0 (rpcbuf_init sw true) cs).2 = true).
  { intros cs Hcs. unfold write_bytes, x_rpcbuf_reserve, x_rpcbuf_makeroom. cbn [error rpcbuf_init size wpos].
    rewrite Z.gtb_ltb.
    destruct (Z.ltb_spec (u64 (0 + Z.of_nat (length cs))) 0); [unfold u64 in *; Z.div_mod_to_equations; lia|].
    by rewrite Ha. }
  assert (Hne : forall (l : list Z) n, (0 < n)%nat -> (0 < length l)%nat -> take n l <> []).
  { intros l n Hn Hl. destruct l, n; done || (cbn in *; lia). }
  destruct Hf as [-> | [-> | ->]]; change (unit_bytes 8) with 1 in *; change (unit_bytes 16) with 2 in *;
    change (unit_bytes 32) with 4 in *; cbn [Z.eqb Pos.eqb].
  - pose proof (Hne data (Z.to_nat len) ltac:(lia) ltac:(lia)) as Hn.
    unfold x_rpcbuf_write_CARD8s. destruct (take _ data) eqn:E; [done|]. by apply Hw.
  - assert (Hd : len / 2 = k) by (rewrite Hk; by rewrite Z.div_mul). rewrite Hd.
    destruct data as [|a [|b data]]; cbn in Hlen; try lia.
    destruct (Z.to_nat k) as [|k'] eqn:Ek; [lia|]. cbn [words16 take x_rpcbuf_write_CARD16s].
    apply Hw. destruct sw; [|done]. by rewrite SwapShorts_all.
  - assert (Hd : len / 4 = k) by (rewrite Hk; by rewrite Z.div_mul). rewrite Hd.
    destruct data as [|a [|b [|c [|d data]]]]; cbn in Hlen; try lia.
    destruct (Z.to_nat k) as [|k'] eqn:Ek; [lia|]. cbn [words32 take x_rpcbuf_write_CARD32s].
    apply Hw. destruct sw; [|done]. by rewrite SwapLongs_all.
Qed.

(** A GetProperty with delete that covers the whole property but cannot
    allocate its reply announces the deletion to everyone and then fails with
    BadAlloc, leaving the property in place. *)
Theorem GetProperty_announces_lost_delete `{AtomTable} `{WindowLookup} has_vrr XINERAMA noPanoramiX
    xrt_window al st client sw p win i q :
  prop_ok q -> p_delete p <> 0 -> p_longOffset p = 0 -> 0 <= p_longLength p < 1073741824 ->
  0 < prop_size q -> prop_size q * unit_bytes (prop_format q) <= 4 * p_longLength p ->
  (forall n, al 0%nat n = false) ->
  exists st', send_property has_vrr XINERAMA noPanoramiX xrt_window al st client sw p win i q
      = Ret (BadAlloc, st') /\
    ps_windows st' = ps_windows st /\
    PropertyNotify win PropertyDelete (propertyName q) ∈ ps_effects st'.
Proof.
  intros Hq Hdel Hoff Hll Hsz Hcov Ha. pose proof (ok_data _ Hq) as Hd.
  pose proof (ok_bytes _ Hq) as Hb. destruct (unit_bytes_cases _ (ok_format _ Hq)) as [Hu8 Hu].
  unfold INT32_MAX in *. set (n := prop_size q * unit_bytes (prop_format q)) in *.
  assert (Hn : 0 < n) by (unfold n; nia).
  unfold send_property. rewrite <- Hu8, Hoff. rewrite (Z.mul_comm (unit_bytes _)). fold n.
  change (u32 (Z.shiftl 0 2)) with 0. rewrite (u32_small n), (u32_small (4 * _)) by lia.
  destruct (Z.ltb_spec n 0); [lia|]. destruct (Z.eqb_spec (unit_bytes (prop_format q)) 0); [lia|].
  rewrite Z.sub_0_r, Z.min_l, Z.add_0_l, Z.sub_diag by lia. change (u32 0 =? 0) with true.
  destruct (Z.eqb_spec (p_delete p) 0); [done|]. cbn [negb andb].
  rewrite write_data_fails; [|apply Hq|done|unfold n; by apply Z.divide_mul_r|].
  2:{ change (drop (Z.to_nat 0) (prop_data q)) with (prop_data q). lia. }
  eexists. split; [reflexivity|]. split; [by rewrite notifyVRRMode_windows|].
  eapply elem_of_prefix; [|apply notify_effects].
  cbn [ps_effects deliverPropertyNotifyEvent effect set_field eta_ps]. apply elem_of_app. right. left.
Qed.

(** ** Concrete runs *)

Definition demo_atoms : AtomTable := {|
  valid_atom a := (1 <=? a) && (a <=? 500);
  atom_name _ := None;
  none_not_valid := eq_refl
|}.
Definition demo_windows : WindowLookup := fun _ _ _ => Success.
Definition grant (c w : Z) (l : list PropertyRec) (i : nat) (m : Z) : Z * nat := (Success, i).
Definition grant_new (c w : Z) (p : PropertyRec) (m : Z) : Z := Success.
Definition grant_post (c w : Z) (l : list PropertyRec) (i : nat) (m : Z) : Z := Success.

Definition demo_a : PropertyRec := MkProp 39 31 8 5 [104; 101; 108; 108; 111].
Definition demo_b : PropertyRec := MkProp 100 6 32 2 [1; 2; 3; 4; 5; 6; 7; 8].
Definition demo_c : PropertyRec := MkProp 200 6 16 1 [9; 10].
Definition demo_state : prop_state :=
  MkPS {[ 0x400 := [demo_a; demo_b; demo_c] ]} ∅ [].

Lemma demo_props_ok : props_ok (props demo_state 0x400).
Proof.
  split.
  - apply (bool_decide_unpack _). vm_compute. done.
  - change (props demo_state 0x400) with [demo_a; demo_b; demo_c].
    do 3 (apply Forall_cons; split;
      [constructor; [unfold format_ok; cbn; lia|..]; by vm_compute|]). constructor.
Qed.

Lemma ChangeProperty_atomic_witness :
  exists st', @ProcChangeProperty demo_atoms demo_windows grant grant_new grant_post (fun p => p)
      (fun _ => true) (fun _ => false) true true (fun _ _ => None) always demo_state 1 false 7
      (MkChange 2 0x400 39 32 8 4 [33; 33; 33; 33]) = Ret (BadMatch, st') /\
    ps_windows st' = ps_windows demo_state /\ ps_effects st' = ps_effects demo_state.
Proof.
  eexists. split; [vm_compute; reflexivity|].
  eapply (@ChangeProperty_atomic demo_atoms demo_windows grant grant_new grant_post (fun p => p)
      (fun _ => true) (fun _ => false) true true (fun _ _ => None) always demo_state 1 false 7
      (MkChange 2 0x400 39 32 8 4 [33; 33; 33; 33]) BadMatch); [vm_compute; reflexivity|discriminate].
Defined.

Lemma ChangeProperty_value_witness :
  exists rc st', @dixChangeWindowProperty demo_atoms demo_windows grant grant_new grant_post
      (fun _ => true) (fun _ => false) true true (fun _ _ => None) always demo_state 1 0x400 39 31 8
      PropModeAppend 2 [33; 33; 0; 0] true = Ret (rc, st') /\ rc = Success /\
    find_prop 39 (props st' 0x400) = Some (MkProp 39 31 8 7 [104; 101; 108; 108; 111; 33; 33]).
Proof.
  destruct (@ChangeProperty_value demo_atoms demo_windows grant grant_new grant_post
    (fun _ => true) (fun _ => false) true true (fun _ _ => None) demo_state 1 0x400 39 31 8
    PropModeAppend 2 [33; 33; 0; 0] true ltac:(reflexivity) ltac:(reflexivity) ltac:(reflexivity)
    ltac:(reflexivity) demo_props_ok ltac:(by left) ltac:(by right; right) ltac:(done) ltac:(done))
    as (rc & st' & H1 & _ & _ & H2 & H3).
  - intros p Hp. vm_compute in Hp. injection Hp as <-. done.
  - done.
  - exists rc, st'. split; [exact H1|]. split; [exact H2|]. by rewrite H3.
Defined.

(** A client of the other byte order asks for the second unit of a property and its
    deletion; and for 2^30 units, which are none. *)
Lemma GetProperty_slice_witness :
  (exists st' r, @ProcGetProperty demo_atoms demo_windows grant (fun p => p)
      (fun _ => false) true true (fun _ _ => None) always demo_state 1 true 6
      (MkGet 1 (bswap_32 0x400) (bswap_32 100) 0 (bswap_32 1) (bswap_32 10)) = Ret (Success, st') /\
    last (ps_effects st') = Some (SendReply 1 r) /\ rp_payload r = Some <$> [8; 7; 6; 5] /\
    find_prop 100 (props st' 0x400) = None) /\
  exists st' r, @ProcGetProperty demo_atoms demo_windows grant (fun p => p)
      (fun _ => false) true true (fun _ _ => None) always demo_state 1 false 6
      (MkGet 0 0x400 100 0 0 0x40000000) = Ret (Success, st') /\
    last (ps_effects st') = Some (SendReply 1 r) /\ rp_payload r = [] /\ rp_fields r = [32; 6; 8; 0].
Proof.
  split.
  - destruct (@GetProperty_slice demo_atoms demo_windows grant (fun p => p) (fun _ => false) true true (fun _ _ => None)
      demo_state 1 true (MkGet 1 (bswap_32 0x400) (bswap_32 100) 0 (bswap_32 1) (bswap_32 10))
      ltac:(done) ltac:(done) ltac:(done) demo_props_ok) as (st' & H1 & H2 & H3 & _).
    exists st'. eexists. split; [exact H1|]. split; [exact H2|]. split; [by vm_compute|].
    specialize (H3 100). change (swapl true (ge_window _)) with 0x400 in H3. rewrite H3. by vm_compute.
  - destruct (@GetProperty_slice demo_atoms demo_windows grant (fun p => p) (fun _ => false) true true (fun _ _ => None)
      demo_state 1 false (MkGet 0 0x400 100 0 0 0x40000000)
      ltac:(done) ltac:(done) ltac:(done) demo_props_ok) as (st' & H1 & H2 & _).
    exists st'. eexists. split; [exact H1|]. split; [exact H2|]. split; by vm_compute.
Defined.

Lemma ChangeProperty_GetProperty_witness :
  exists st1 st2 r,
    @dixChangeWindowProperty demo_atoms demo_windows grant grant_new grant_post
      (fun _ => true) (fun _ => false) true true (fun _ _ => None) always demo_state 1 0x400 39 31 16
      PropModeReplace 3 [1; 2; 3; 4; 5; 6] true = Ret (Success, st1) /\
    @ProcGetProperty demo_atoms demo_windows grant (fun p => p) (fun _ => false) true true
      (fun _ _ => None) always st1 2 false 6 (MkGet 0 0x400 39 AnyPropertyType 0 100) = Ret (Success, st2) /\
    last (ps_effects st2) = Some (SendReply 2 r) /\ rp_payload r = Some <$> [1; 2; 3; 4; 5; 6].
Proof.
  destruct (@ChangeProperty_GetProperty demo_atoms demo_windows grant grant_new grant_post (fun p => p)
    (fun _ => true) (fun _ => false) true true (fun _ _ => None) demo_state 1 2 0x400 39 31 16 3
    [1; 2; 3; 4; 5; 6] 100 ltac:(reflexivity) ltac:(reflexivity) ltac:(reflexivity) ltac:(reflexivity)
    ltac:(reflexivity) ltac:(reflexivity) demo_props_ok ltac:(right; by left) ltac:(done))
    as (st1 & st2 & r & H1 & H2 & H3 & H4 & _).
  - intros p Hp. vm_compute in Hp. injection Hp as <-. done.
  - reflexivity.
  - done.
  - unfold bytes. do 6 (apply Forall_cons; split; [lia|]). constructor.
  - reflexivity.
  - done.
  - done.
  - exists st1, st2, r. exact (conj H1 (conj H2 (conj H3 H4))).
Defined.

Lemma RotateProperties_rotates_witness :
  exists st', @ProcRotateProperties demo_atoms demo_windows grant (fun p => p) (fun _ => false)
      true true (fun _ _ => None) always demo_state 1 false 6
      (MkRotate 0x400 3 (-1 + 65536) [39; 0; 0; 0; 100; 0; 0; 0; 200; 0; 0; 0]) = Ret (Success, st') /\
    find_prop 200 (props st' 0x400) = Some (MkProp 200 31 8 5 [104; 101; 108; 108; 111]).
Proof.
  pose proof (@RotateProperties_rotates demo_atoms demo_windows grant (fun p => p) (fun _ => false)
    true true (fun _ _ => None) demo_state 1 false
    (MkRotate 0x400 3 (-1 + 65536) [39; 0; 0; 0; 100; 0; 0; 0; 200; 0; 0; 0])
    ltac:(reflexivity) ltac:(reflexivity) ltac:(reflexivity)) as H.
  cbv zeta in H. destruct H as (st' & H1 & H2 & _).
  - reflexivity.
  - split; reflexivity.
  - apply (bool_decide_unpack _). reflexivity.
  - intros a Ha. change (a ∈ [39; 100; 200]) in Ha. rewrite !elem_of_cons, elem_of_nil in Ha.
    destruct Ha as [-> | [-> | [-> | []]]]; (split; [reflexivity|eexists; reflexivity]).
  - exists st'. split; [exact H1|].
    exact (H2 0%nat 39 200 demo_a eq_refl eq_refl eq_refl).
Defined.

Lemma GetProperty_announces_lost_delete_witness :
  exists st', @send_property demo_atoms demo_windows (fun _ => false) true true (fun _ _ => None)
      (fun _ _ => false) demo_state 1 false
      (MkPF 1 0x400 39 0 [] 0 0 false 0 1 0 0 0 [] false 1 0 100) 0x400 0 demo_a = Ret (BadAlloc, st') /\
    ps_windows st' = ps_windows demo_state /\
    PropertyNotify 0x400 PropertyDelete 39 ∈ ps_effects st'.
Proof.
  apply (@GetProperty_announces_lost_delete demo_atoms demo_windows (fun _ => false) true true
    (fun _ _ => None) (fun _ _ => false) demo_state 1 false
    (MkPF 1 0x400 39 0 [] 0 0 false 0 1 0 0 0 [] false 1 0 100) 0x400 0 demo_a).
  - constructor; [by left|..]; done.
  - done.
  - done.
  - done.
  - done.
  - done.
  - done.
Defined.
