(* ===== verification/Selection.v ===== *)
(** * Selection: selection ownership ([dix/selection.c])

    The server keeps one record per selection atom in a list, newest first; a
    [Selection *] is a position in it.  Times are the server times of DixUtils,
    [now] is the server's current time when the request is handled.  Security
    hooks, filter callbacks and windows are parameters.  Events, replies and
    the calls of [SelectionCallback] are recorded in order in [ss_effects]. *)

From S2P Require Import Prelude.
From S2P Require Import Wire.
From S2P Require Import Atom.
From S2P Require Import Resource.
From S2P Require Import DixUtils.
From S2P Require Import Request.

(** ** State *)

(** [dix/selection_priv.h: Selection 16-24] *)
Record Selection := MkSel {
  selection : Z;
  lastTimeChanged : TimeStamp;
  sel_window : Z;
  sel_pWin : option Z;
  sel_client : option Z
}.

(** [dix/selection_priv.h: SelectionCallbackKind 26-30] *)
Inductive SelectionCallbackKind := SelectionSetOwner | SelectionWindowDestroy | SelectionClientClose.

Inductive sel_event :=
  | SelectionClear (time window atom : Z)
  | SelectionRequest (time owner requestor selection target property : Z)
  | SelectionNotify (time requestor selection target property : Z).

Inductive sel_effect :=
  | SelCallback (s : Selection) (client : option Z) (kind : SelectionCallbackKind)
  | SelEvent (recv : option Z) (e : sel_event)
  | SelReply (client : Z) (r : Reply).

Record sel_state := MkSS {
  CurrentSelections : list Selection;
  ss_error : gmap Z Z;
  ss_effects : list sel_effect
}.
#[export] Instance eta_ss : Settable sel_state := fun s =>
  MkSS (CurrentSelections s) (ss_error s) (ss_effects s).

Definition sel_effect_add (st : sel_state) (e : sel_effect) : sel_state :=
  st <| ss_effects ::= fun l => l ++ [e] |>.
Definition sel_error (st : sel_state) (client v : Z) : sel_state :=
  st <| ss_error ::= <[client := v]> |>.

Definition SELECTION_FILTER_GETOWNER : Z := 1.
Definition SELECTION_FILTER_SETOWNER : Z := 2.
Definition SELECTION_FILTER_CONVERT : Z := 3.
Definition SELECTION_FILTER_EV_REQUEST : Z := 5.
Definition SELECTION_FILTER_EV_CLEAR : Z := 6.

(** [dix/selection_priv.h: SelectionFilterParamRec 46-58] *)
Record SelectionFilterParamRec := MkSF {
  sf_op : Z; sf_skip : bool; sf_status : Z; sf_selection : Z; sf_client : Z;
  sf_recvClient : option Z; sf_time : Z; sf_requestor : Z; sf_owner : Z; sf_property : Z;
  sf_target : Z
}.

Record xSetSelectionOwnerReq := MkSetOwner { so_window : Z; so_selection : Z; so_time : Z }.
Record xConvertSelectionReq := MkConvert {
  cv_requestor : Z; cv_selection : Z; cv_target : Z; cv_property : Z; cv_time : Z }.

Definition DixSetAttrAccess : Z := Z.shiftl 1 5.
Definition None_ : Z := 0.
Definition serverClient : Z := 0.

Section Operations.
Context `{AtomTable} `{WindowLookup}.
(** [XaceHookSelectionAccess]: it may move the pointer to another record. *)
Context (sel_access : Z -> list Selection -> nat -> Z -> Z * nat).
(** The callbacks of [SelectionFilterCallback]. *)
Context (filter_callbacks : SelectionFilterParamRec -> SelectionFilterParamRec).
Context (clientGone : Z -> bool).
Implicit Types (st : sel_state).

Fixpoint sel_index (name : Z) (l : list Selection) : option nat :=
  match l with
  | [] => None
  | s :: l' => if selection s =? name then Some O else S <$> sel_index name l'
  end.

(** A selection that is not in the list is added to it first, for whatever
    access it is looked up.
    [dix/selection.c: dixLookupSelection] *)
Definition dixLookupSelection (al : allocator) st (selectionName client access_mode : Z)
  : Z * option nat * sel_state :=
  let st := sel_error st client selectionName in
  let found :=
    match sel_index selectionName (CurrentSelections st) with
    | Some i => Some (i, st)
    | None =>
        if negb (al 0%nat 56) then None
        else Some (O, st <| CurrentSelections ::=
                        cons (MkSel selectionName (MkTime 0 0) None_ None None) |>)
    end in
  match found with
  | None => (BadAlloc, None, st)
  | Some (i, st) =>
      let '(rc, i) := sel_access client (CurrentSelections st) i (Z.lor access_mode DixCreateAccess) in
      if negb (rc =? Success) then (rc, None, st) else (rc, Some i, st)
  end.

(** [dix/selection.c: InitSelections] *)
Definition InitSelections st : sel_state := st <| CurrentSelections := [] |>.

(** [dix/selection.c: CallSelectionCallback] *)
Definition CallSelectionCallback st (s : Selection) (client : option Z) (kind : SelectionCallbackKind)
  : sel_state := sel_effect_add st (SelCallback s client kind).

Definition disown (s : Selection) : Selection :=
  MkSel (selection s) (lastTimeChanged s) None_ None None.

(** The records matching [p] lose their owner, each after a callback. *)
Fixpoint disown_where (p : Selection -> bool) (kind : SelectionCallbackKind) (l : list Selection) st
  : list Selection * sel_state :=
  match l with
  | [] => ([], st)
  | s :: l =>
      let st := if p s then CallSelectionCallback st s None kind else st in
      let '(l, st) := disown_where p kind l st in
      ((if p s then disown s else s) :: l, st)
  end.

(** [dix/selection.c: DeleteWindowFromAnySelections] *)
Definition DeleteWindowFromAnySelections st (pWin : Z) : sel_state :=
  let '(l, st) := disown_where (fun s => bool_decide (sel_pWin s = Some pWin)) SelectionWindowDestroy
                    (CurrentSelections st) st in
  st <| CurrentSelections := l |>.

(** [dix/selection.c: DeleteClientFromAnySelections] *)
Definition DeleteClientFromAnySelections st (client : Z) : sel_state :=
  let '(l, st) := disown_where (fun s => bool_decide (sel_client s = Some client)) SelectionClientClose
                    (CurrentSelections st) st in
  st <| CurrentSelections := l |>.

Definition sel_lookup_window st (id client access : Z) : Z * sel_state :=
  (window_rc id client access, sel_error st client id).

(** Once the record is found: the time check, the SelectionClear event to the
    previous owner, the new owner.  [skip] is the [skip] field of the filter
    parameter of the request, which the code tests instead of the event's;
    [sel] is the selection the request names.
    [dix/selection.c: ProcSetSelectionOwner 217-245] *)
Definition become_owner st (i : nat) (pSel : Selection) (client : Z) (time : TimeStamp)
    (owner : Z) (pWin : option Z) (skip : bool) (sel : Z) : sel_state :=
  let clear :=
    match sel_client pSel with
    | Some old => if bool_decide (pWin = None) || negb (old =? client) then Some old else None
    | None => None
    end in
  let st :=
    match clear with
    | Some old =>
        let eventParam := filter_callbacks
          (MkSF SELECTION_FILTER_EV_CLEAR false 0 sel client (Some old) 0 0
                (sel_window pSel) 0 0) in
        if negb skip then
          sel_effect_add st (SelEvent (sf_recvClient eventParam)
            (SelectionClear (milliseconds time) (sf_owner eventParam) (sf_selection eventParam)))
        else st
    | None => st
    end in
  let new := MkSel (selection pSel) time owner pWin
               (match pWin with Some _ => Some client | None => None end) in
  CallSelectionCallback (st <| CurrentSelections ::= <[i := new]> |>) new (Some client) SelectionSetOwner.

(** [dix/selection.c: ProcSetSelectionOwner] *)
Definition ProcSetSelectionOwner (al : allocator) (now : TimeStamp) st (client : Z) (sw : bool)
    (req_len : Z) (stuff : xSetSelectionOwnerReq) : outcome (Z * sel_state) :=
  if size_mismatch 16 req_len then Ret (BadLength, st)
  else
    let window := swapl sw (so_window stuff) in
    let sel := swapl sw (so_selection stuff) in
    let time := ClientTimeToServerTime now (swapl sw (so_time stuff)) in
    if CompareTimeStamps time now =? LATER then Ret (Success, st)
    else
      let param := filter_callbacks
        (MkSF SELECTION_FILTER_SETOWNER false 0 sel client None 0 0 window 0 0) in
      if sf_skip param then
        Ret (sf_status param,
             if negb (sf_status param =? Success) then sel_error st client sel else st)
      else
        let '(rc, st) :=
          if negb (sf_owner param =? None_) then
            sel_lookup_window st (sf_owner param) client DixSetAttrAccess
          else (Success, st) in
        let pWin := if sf_owner param =? None_ then None else Some (sf_owner param) in
        if negb (rc =? Success) then Ret (rc, st)
        else if negb (valid_atom (sf_selection param)) then Ret (BadAtom, sel_error st client sel)
        else
          let '(rc, pSel, st) := dixLookupSelection al st (sf_selection param) client DixSetAttrAccess in
          if negb (rc =? Success) then Ret (rc, sel_error st client sel)
          else
            match pSel ≫= fun i => pair i <$> CurrentSelections st !! i with
            | None => Undefined
            | Some (i, s) =>
                if CompareTimeStamps time (lastTimeChanged s) =? EARLIER then Ret (Success, st)
                else Ret (Success, become_owner st i s client time (sf_owner param) pWin (sf_skip param) sel)
            end.

(** [dix/selection.c: ProcGetSelectionOwner] *)
Definition ProcGetSelectionOwner (al : allocator) st (client : Z) (sw : bool) (req_len id : Z)
  : outcome (Z * sel_state) :=
  if size_mismatch 8 req_len then Ret (BadLength, st)
  else
    let id := swapl sw id in
    let param := filter_callbacks (MkSF SELECTION_FILTER_GETOWNER false 0 id client None 0 0 0 0 0) in
    let out status st := Ret (status, if negb (status =? Success) then sel_error st client id else st) in
    if sf_skip param then out (sf_status param) st
    else if negb (valid_atom (sf_selection param)) then out BadAtom st
    else
      let '(status, pSel, st) := dixLookupSelection al st (sf_selection param) (sf_client param) DixGetAttrAccess in
      let reply owner := Ret (Success, sel_effect_add st
            (SelReply client (write_reply_hdr_simple sw 32 [swapl sw owner]))) in
      if status =? Success then
        match pSel ≫= fun i => CurrentSelections st !! i with
        | Some s => reply (sel_window s)
        | None => Undefined
        end
      else if status =? BadMatch then reply None_
      else out status st.

(** The owner's client, when it can be asked for the selection. *)
Definition askable (s : Selection) : option Z :=
  match sel_client s with
  | Some c => if negb (sel_window s =? None_) && negb (c =? serverClient) && negb (clientGone c)
              then Some c else None
  | None => None
  end.

(** [dix/selection.c: ProcConvertSelection] *)
Definition ProcConvertSelection (al : allocator) st (client req_len : Z) (stuff : xConvertSelectionReq)
  : outcome (Z * sel_state) :=
  if size_mismatch 24 req_len then Ret (BadLength, st)
  else
    let skipped param st :=
      Ret (sf_status param,
           if negb (sf_status param =? Success) then sel_error st client (cv_selection stuff) else st) in
    let param := filter_callbacks
      (MkSF SELECTION_FILTER_CONVERT false 0 (cv_selection stuff) client None (cv_time stuff)
            (cv_requestor stuff) 0 (cv_property stuff) (cv_target stuff)) in
    if sf_skip param then skipped param st
    else
      let '(rc, st) := sel_lookup_window st (sf_requestor param) client DixSetAttrAccess in
      if negb (rc =? Success) then Ret (rc, st)
      else
        let paramsOkay := valid_atom (sf_selection param) && valid_atom (sf_target param) &&
                          ((sf_property param =? None_) || valid_atom (sf_property param)) in
        if negb paramsOkay then Ret (BadAtom, sel_error st client (cv_property stuff))
        else
          let '(rc, pSel, st) := dixLookupSelection al st (sf_selection param) client DixReadAccess in
          if negb (rc =? Success) && negb (rc =? BadMatch) then Ret (rc, st)
          else
            let owner := if rc =? Success then pSel ≫= fun i => CurrentSelections st !! i else None in
            match owner ≫= fun s => pair s <$> askable s with
            | Some (s, c) =>
                let evParam := filter_callbacks
                  (MkSF SELECTION_FILTER_EV_REQUEST false 0 (cv_selection stuff) client (Some c)
                        (cv_time stuff) (cv_requestor stuff) (sel_window s) (cv_property stuff)
                        (cv_target stuff)) in
                if sf_skip evParam then skipped evParam st
                else
                  Ret (Success, sel_effect_add st (SelEvent (sf_recvClient evParam)
                    (SelectionRequest (sf_time evParam) (sf_owner evParam) (sf_requestor evParam)
                       (sf_selection evParam) (sf_target evParam) (sf_property evParam))))
            | None =>
                let param := filter_callbacks
                  (MkSF (sf_op param) (sf_skip param) (sf_status param) (sf_selection param)
                        (sf_client param) (sf_recvClient param) (sf_time param) (sf_requestor param)
                        (sf_owner param) None_ (sf_target param)) in
                if sf_skip param then skipped param st
                else
                  Ret (Success, sel_effect_add st (SelEvent (Some client)
                    (SelectionNotify (sf_time param) (sf_requestor param) (sf_selection param)
                       (sf_target param) (sf_property param))))
            end.

(** [dix/swapreq.c: SProcConvertSelection] *)
Definition SProcConvertSelection (al : allocator) st (client req_len : Z) (stuff : xConvertSelectionReq)
  : outcome (Z * sel_state) :=
  if size_mismatch 24 req_len then Ret (BadLength, st)
  else
    ProcConvertSelection al st client req_len
      (MkConvert (bswap_32 (cv_requestor stuff)) (bswap_32 (cv_selection stuff))
                 (bswap_32 (cv_target stuff)) (bswap_32 (cv_property stuff)) (bswap_32 (cv_time stuff))).
End Operations.

(** * Properties *)

Definition find_sel (name : Z) (l : list Selection) : option Selection :=
  sel_index name l ≫= fun i => l !! i.

Lemma sel_index_lookup name l i :
  sel_index name l = Some i -> exists s, l !! i = Some s /\ selection s = name.
Proof.
  revert i. induction l as [|s l IH]; intros i; [done|]. cbn.
  destruct (Z.eqb_spec (selection s) name) as [<-|]; [intros [= <-]; by exists s|].
  destruct (sel_index name l) as [k|]; [|done]. intros [= <-]. apply (IH k eq_refl).
Qed.
Lemma sel_index_None name l : sel_index name l = None -> name ∉ (selection <$> l).
Proof.
  induction l as [|s l IH]; [intros _; apply not_elem_of_nil|]. cbn.
  destruct (Z.eqb_spec (selection s) name); [done|]. destruct (sel_index name l); [done|].
  intros _ Hin. apply elem_of_cons in Hin as [->|Hin]; [done|]. by apply IH.
Qed.
Lemma find_sel_cons name s l :
  find_sel name (s :: l) = if selection s =? name then Some s else find_sel name l.
Proof.
  unfold find_sel. cbn. destruct (selection s =? name); [done|]. by destruct (sel_index name l).
Qed.
Lemma find_sel_insert name l i s s' :
  l !! i = Some s -> NoDup (selection <$> l) -> selection s' = selection s ->
  find_sel name (<[i := s']> l) = if selection s =? name then Some s' else find_sel name l.
Proof.
  revert i. induction l as [|x l IH]; intros [|i]; [done|done| |].
  - intros [= ->] _ Hs. change (<[O := s']> (s :: l)) with (s' :: l).
    rewrite !find_sel_cons, Hs. by case_bool.
  - intros Hl [Hx Hn]%NoDup_cons Hs. change (<[S i := s']> (x :: l)) with (x :: <[i := s']> l).
    rewrite !find_sel_cons, (IH i Hl Hn Hs).
    destruct (Z.eqb_spec (selection x) name) as [E|]; [|done].
    destruct (Z.eqb_spec (selection s) name) as [E'|]; [|done].
    destruct Hx. rewrite E, <- E'. apply list_elem_of_fmap_2. by eapply list_elem_of_lookup_2.
Qed.

(** ** The invariant *)

(** A record has an owning client exactly when it has an owning window, which
    is the one GetSelectionOwner reports. *)
Record sel_wf (s : Selection) : Prop := {
  wf_time : time_ok (lastTimeChanged s);
  wf_owner : match sel_pWin s with
             | Some w => sel_window s = w /\ w <> None_ /\ is_Some (sel_client s)
             | None => sel_window s = None_ /\ sel_client s = None
             end
}.
Definition sels_ok (l : list Selection) : Prop := NoDup (selection <$> l) /\ Forall sel_wf l.

(** No record disappears, and the time of the last change only moves forward. *)
Definition sels_le (l l' : list Selection) : Prop :=
  forall s, s ∈ l -> exists s', s' ∈ l' /\ selection s' = selection s /\
    instant (lastTimeChanged s) <= instant (lastTimeChanged s').

#[export] Instance sels_le_preorder : PreOrder sels_le.
Proof.
  split.
  - intros l s Hs. by exists s.
  - intros l1 l2 l3 H12 H23 s Hs. destruct (H12 s Hs) as (s2 & Hs2 & Hn2 & Ht2).
    destruct (H23 s2 Hs2) as (s3 & Hs3 & Hn3 & Ht3). exists s3. split_and!; [done|congruence|lia].
Qed.

Lemma sels_ok_fresh name l : sel_index name l = None -> sels_ok l ->
  sels_ok (MkSel name (MkTime 0 0) None_ None None :: l).
Proof.
  intros Hi [Hn Hf]. split.
  - rewrite fmap_cons. constructor; [by apply sel_index_None|done].
  - constructor; [|done]. split; [by unfold time_ok; cbn|done].
Qed.
Lemma sels_ok_insert l i s s' : sels_ok l -> l !! i = Some s -> selection s' = selection s -> sel_wf s' ->
  sels_ok (<[i := s']> l).
Proof.
  intros [Hn Hf] Hl Hs Hw. split; [|by apply Forall_insert].
  rewrite list_fmap_insert, Hs, list_insert_id; [done|]. by rewrite list_lookup_fmap, Hl.
Qed.
Lemma sels_le_insert l i s s' : l !! i = Some s -> selection s' = selection s ->
  instant (lastTimeChanged s) <= instant (lastTimeChanged s') -> sels_le l (<[i := s']> l).
Proof.
  intros Hl Hs Ht x [k Hk]%list_elem_of_lookup. destruct (decide (k = i)) as [->|Hne].
  - exists s'. assert (x = s) as -> by congruence. split_and!; [|done|done].
    apply list_elem_of_insert. by eapply lookup_lt_Some.
  - exists x. split_and!; [|done|lia]. eapply list_elem_of_lookup_2.
    by rewrite list_lookup_insert_ne.
Qed.

Lemma disown_where_spec p kind l st :
  (disown_where p kind l st).1 = (fun s => if p s then disown s else s) <$> l /\
  CurrentSelections (disown_where p kind l st).2 = CurrentSelections st.
Proof.
  revert st. induction l as [|s l IH]; intros st; [done|]. cbn [disown_where].
  set (st1 := if p s then CallSelectionCallback st s None kind else st). specialize (IH st1).
  destruct (disown_where p kind l st1) as [l' st2]. cbn in *. destruct IH as [-> ->].
  split; [done|]. unfold st1. by case_bool.
Qed.
Lemma disowned_ok (p : Selection -> bool) l :
  sels_ok l -> sels_ok ((fun s => if p s then disown s else s) <$> l) /\
               sels_le l ((fun s => if p s then disown s else s) <$> l).
Proof.
  intros [Hn Hf]. split; [split|].
  - rewrite <- list_fmap_compose. erewrite list_fmap_ext; [exact Hn|]. intros i s _. cbn. by case_bool.
  - apply Forall_fmap. eapply Forall_impl; [exact Hf|]. intros s Hs. cbn. case_bool; [|done].
    split; [apply Hs|done].
  - intros s Hs. exists (if p s then disown s else s). split_and!.
    + apply list_elem_of_fmap. by exists s.
    + by case_bool.
    + case_bool; cbn; lia.
Qed.

Section Steps.
Context `{AtomTable} `{WindowLookup}.
Context (sel_access : Z -> list Selection -> nat -> Z -> Z * nat).
Context (filter_callbacks : SelectionFilterParamRec -> SelectionFilterParamRec).
Context (clientGone : Z -> bool).
Implicit Types (st : sel_state).

Lemma lookup_sel_cases al st name c m rc o st' :
  dixLookupSelection sel_access al st name c m = (rc, o, st') ->
  (CurrentSelections st' = CurrentSelections st \/
   sel_index name (CurrentSelections st) = None /\
   CurrentSelections st' = MkSel name (MkTime 0 0) None_ None None :: CurrentSelections st) /\
  ss_effects st' = ss_effects st.
Proof.
  unfold dixLookupSelection. change (CurrentSelections (sel_error st c name)) with (CurrentSelections st).
  destruct (sel_index name (CurrentSelections st)) as [i|] eqn:Hi.
  - destruct (sel_access _ _ _ _) as [rc0 i0]. case_bool; intros [= <- <- <-]; (split; [by left|done]).
  - case_bool; [intros [= <- <- <-]; (split; [by left|done])|].
    destruct (sel_access _ _ _ _) as [rc0 i0].
    case_bool; intros [= <- <- <-]; (split; [by right|done]).
Qed.

Lemma become_owner_list st i s client time owner pWin skip sel :
  CurrentSelections (become_owner filter_callbacks st i s client time owner pWin skip sel) =
  <[i := MkSel (selection s) time owner pWin (match pWin with Some _ => Some client | None => None end)]>
    (CurrentSelections st).
Proof. unfold become_owner. repeat case_match; done. Qed.

(** Everything that changes selections. *)
Inductive sel_step (st : sel_state) : sel_state -> Prop :=
  | step_set_owner al now client sw req_len stuff rc st' :
      time_ok now -> 0 <= swapl sw (so_time stuff) < 4294967296 ->
      ProcSetSelectionOwner sel_access filter_callbacks al now st client sw req_len stuff = Ret (rc, st') ->
      sel_step st st'
  | step_get_owner al client sw req_len id rc st' :
      ProcGetSelectionOwner sel_access filter_callbacks al st client sw req_len id = Ret (rc, st') ->
      sel_step st st'
  | step_convert al client req_len stuff rc st' :
      ProcConvertSelection sel_access filter_callbacks clientGone al st client req_len stuff = Ret (rc, st') ->
      sel_step st st'
  | step_window_destroyed pWin : sel_step st (DeleteWindowFromAnySelections st pWin)
  | step_client_gone client : sel_step st (DeleteClientFromAnySelections st client).

Definition good (l l' : list Selection) : Prop := sels_ok l' /\ sels_le l l'.

Lemma good_lookup al st name c m rc o st' :
  sels_ok (CurrentSelections st) -> dixLookupSelection sel_access al st name c m = (rc, o, st') ->
  good (CurrentSelections st) (CurrentSelections st').
Proof.
  intros Hok Hl. destruct (lookup_sel_cases _ _ _ _ _ _ _ _ Hl) as [[-> | [Hi ->]] _]; [by split|].
  split; [by apply sels_ok_fresh|]. intros s Hs. exists s. split; [by right|]. by split.
Qed.

(** Months before the first and after the last are those of the other end. *)
Lemma ClientTime_ok now c : time_ok now -> 0 <= c < 4294967296 -> time_ok (ClientTimeToServerTime now c).
Proof.
  intros Hnow Hc. unfold ClientTimeToServerTime, CurrentTime, time_ok in *.
  pose proof (u32_range (months now - 1)). pose proof (u32_range (months now + 1)).
  destruct (Z.eqb_spec c 0); [done|]. repeat case_bool; cbn; lia.
Qed.

Lemma not_earlier a b : time_ok a -> time_ok b ->
  (CompareTimeStamps a b =? EARLIER) = false -> instant b <= instant a.
Proof.
  intros Ha Hb. rewrite CompareTimeStamps_instant by done.
  destruct (Z.compare_spec (instant a) (instant b)); cbn; [lia|done|lia].
Qed.

Lemma good_set_owner al now client sw req_len stuff rc st st' :
  time_ok now -> 0 <= swapl sw (so_time stuff) < 4294967296 ->
  ProcSetSelectionOwner sel_access filter_callbacks al now st client sw req_len stuff = Ret (rc, st') ->
  sels_ok (CurrentSelections st) -> good (CurrentSelections st) (CurrentSelections st').
Proof.
  intros Hnow Hc Hr Hok. unfold ProcSetSelectionOwner in Hr. cbv zeta in Hr.
  set (time := ClientTimeToServerTime now _) in Hr.
  assert (Ht : time_ok time) by by apply ClientTime_ok.
  destruct (size_mismatch _ _); [injection Hr as <- <-; by split|].
  destruct (_ =? LATER); [injection Hr as <- <-; by split|].
  set (param := filter_callbacks _) in Hr.
  destruct (sf_skip param); [injection Hr as <- <-; case_bool; by split|].
  destruct (if negb (sf_owner param =? None_) then _ else _) as [rc1 st1] eqn:Hlw.
  assert (H1 : CurrentSelections st1 = CurrentSelections st).
  { destruct (negb (sf_owner param =? None_)); injection Hlw as <- <-; done. }
  destruct (negb (rc1 =? Success)); [injection Hr as <- <-; by rewrite H1|].
  destruct (negb (valid_atom _)); [injection Hr as <- <-; cbn; by rewrite H1|].
  destruct (dixLookupSelection _ _ _ _ _ _) as [[rc2 o] st2] eqn:Hl.
  apply good_lookup in Hl; [|by rewrite H1]. rewrite H1 in Hl.
  destruct (negb (rc2 =? Success)); [by injection Hr as <- <-|].
  destruct (o ≫= _) as [[i s]|] eqn:Ho; [|done].
  destruct (CompareTimeStamps time _ =? EARLIER) eqn:He; injection Hr as <- <-; [done|].
  destruct Hl as [Hok2 Hle]. rewrite become_owner_list.
  assert (Hs : CurrentSelections st2 !! i = Some s).
  { destruct o as [i0|]; [|done]. cbn in Ho. destruct (CurrentSelections st2 !! i0) eqn:E; [|done].
    by injection Ho as <- <-. }
  assert (Hws : sel_wf s) by (destruct Hok2 as [_ Hf]; rewrite Forall_lookup in Hf; by eapply Hf).
  split.
  - eapply sels_ok_insert; [done|exact Hs|done|]. split; [done|]. cbn.
    destruct (Z.eqb_spec (sf_owner param) None_) as [->|]; [done|]. by split_and!.
  - etrans; [exact Hle|]. eapply sels_le_insert; [exact Hs|done|]. cbn.
    apply not_earlier; [done|apply Hws|done].
Qed.

Lemma good_step st st' :
  sel_step st st' -> sels_ok (CurrentSelections st) -> good (CurrentSelections st) (CurrentSelections st').
Proof.
  intros Hstep Hok. destruct Hstep as [al now client sw req_len stuff rc st' Hn Hc Hr
    |al client sw req_len id rc st' Hr|al client req_len stuff rc st' Hr|pWin|client].
  - by eapply good_set_owner.
  - unfold ProcGetSelectionOwner in Hr. cbv zeta in Hr.
    destruct (size_mismatch _ _); [injection Hr as <- <-; by split|].
    set (param := filter_callbacks _) in Hr.
    destruct (sf_skip param); [injection Hr as <- <-; repeat case_match; by split|].
    destruct (negb (valid_atom _)); [injection Hr as <- <-; by split|].
    destruct (dixLookupSelection _ _ _ _ _ _) as [[rc2 o] st2] eqn:Hl.
    apply good_lookup in Hl; [|done].
    destruct (rc2 =? Success); [destruct (o ≫= _); [by injection Hr as <- <-|done]|].
    destruct (rc2 =? BadMatch); injection Hr as <- <-; [done|]. by repeat case_match.
  - unfold ProcConvertSelection in Hr. cbv zeta in Hr.
    destruct (size_mismatch _ _); [injection Hr as <- <-; by split|].
    set (param := filter_callbacks _) in Hr.
    destruct (sf_skip param); [injection Hr as <- <-; repeat case_match; by split|].
    cbn [sel_lookup_window] in Hr.
    destruct (negb (window_rc _ _ _ =? Success)); [injection Hr as <- <-; by split|].
    destruct (negb _); [injection Hr as <- <-; by split|].
    destruct (dixLookupSelection _ _ _ _ _ _) as [[rc2 o] st2] eqn:Hl.
    apply good_lookup in Hl; [|done].
    destruct (_ && _); [by injection Hr as <- <-|].
    destruct (_ ≫= _) as [[s c]|].
    + case_match; injection Hr as <- <-; [by repeat case_match|done].
    + case_match; injection Hr as <- <-; [by repeat case_match|done].
  - unfold DeleteWindowFromAnySelections.
    destruct (disown_where_spec (fun s => bool_decide (sel_pWin s = Some pWin)) SelectionWindowDestroy
      (CurrentSelections st) st) as [E _].
    destruct (disown_where _ _ _ _) as [l st1]. cbn in *. subst l. by apply disowned_ok.
  - unfold DeleteClientFromAnySelections.
    destruct (disown_where_spec (fun s => bool_decide (sel_client s = Some client)) SelectionClientClose
      (CurrentSelections st) st) as [E _].
    destruct (disown_where _ _ _ _) as [l st1]. cbn in *. subst l. by apply disowned_ok.
Qed.
End Steps.

(** C30: In every state the server can reach by selection requests at any times of
    its clock, window destructions and client exits, with any security hooks and filters, each
    atom has at most one record, whose owner window and client come and go
    together; and no step loses a record or moves its time of change back. *)
Theorem selection_invariant `{AtomTable} `{WindowLookup} sel_access filter_callbacks clientGone st st1 st2 :
  CurrentSelections st = [] ->
  rtc (sel_step sel_access filter_callbacks clientGone) st st1 ->
  rtc (sel_step sel_access filter_callbacks clientGone) st1 st2 ->
  sels_ok (CurrentSelections st2) /\ sels_le (CurrentSelections st1) (CurrentSelections st2).
Proof.
  intros Hinit H1 H2.
  assert (Hstar : forall a b, rtc (sel_step sel_access filter_callbacks clientGone) a b ->
    sels_ok (CurrentSelections a) -> good (CurrentSelections a) (CurrentSelections b)).
  { intros a b. induction 1 as [a|a b c Hab _ IH]; intros Ha; [by split|].
    destruct (good_step _ _ _ _ _ Hab Ha) as [Hb Hle]. destruct (IH Hb) as [Hc Hle'].
    split; [done|by etrans]. }
  destruct (Hstar _ _ H1) as [Hok1 _]; [rewrite Hinit; split; constructor|].
  apply (Hstar _ _ H2 Hok1).
Qed.

(** ** Taking ownership *)

Section Taking.
Context `{AtomTable} `{WindowLookup}.
Context (sel_access : Z -> list Selection -> nat -> Z -> Z * nat).
Context (filter_callbacks : SelectionFilterParamRec -> SelectionFilterParamRec).
Hypothesis Hsa : forall c l i m, sel_access c l i m = (Success, i).
Hypothesis Hwin : forall w c m, window_rc w c m = Success.
Implicit Types (st : sel_state).

Definition fresh_sel (name : Z) : Selection := MkSel name (MkTime 0 0) None_ None None.

Lemma lookup_sel_found st name c m s :
  find_sel name (CurrentSelections st) = Some s ->
  exists i, dixLookupSelection sel_access always st name c m = (Success, Some i, sel_error st c name) /\
    CurrentSelections st !! i = Some s /\ selection s = name.
Proof.
  unfold find_sel. destruct (sel_index name (CurrentSelections st)) as [i|] eqn:Hi; [|done].
  cbn [option_bind mbind]. intros Hs. exists i. unfold dixLookupSelection.
  change (CurrentSelections (sel_error st c name)) with (CurrentSelections st). rewrite Hi, Hsa.
  destruct (sel_index_lookup _ _ _ Hi) as (s' & Hs' & Hn). split_and!; [done..|congruence].
Qed.

Lemma lookup_sel_granted st name c m :
  sels_ok (CurrentSelections st) ->
  let s := default (fresh_sel name) (find_sel name (CurrentSelections st)) in
  exists i st', dixLookupSelection sel_access always st name c m = (Success, Some i, st') /\
    CurrentSelections st' !! i = Some s /\ selection s = name /\
    (forall n, n <> name -> find_sel n (CurrentSelections st') = find_sel n (CurrentSelections st)) /\
    ss_effects st' = ss_effects st /\ sels_ok (CurrentSelections st').
Proof.
  intros Hok s. destruct (find_sel name (CurrentSelections st)) as [s0|] eqn:Hf.
  - destruct (lookup_sel_found st name c m s0 Hf) as (i & H1 & H2 & H3).
    by exists i, (sel_error st c name).
  - assert (Hi : sel_index name (CurrentSelections st) = None).
    { unfold find_sel in Hf. destruct (sel_index name _) eqn:E; [|done].
      destruct (sel_index_lookup _ _ _ E) as (s' & Hs' & _). cbn in Hf. congruence. }
    unfold dixLookupSelection.
    change (CurrentSelections (sel_error st c name)) with (CurrentSelections st).
    rewrite Hi. cbn [negb always]. rewrite Hsa. change (Success =? Success) with true. cbn [negb].
    eexists O, _. split; [reflexivity|]. split; [done|]. split; [done|]. split; [|split; [done|]].
    + intros n Hne. cbn [CurrentSelections set_field eta_ss]. rewrite find_sel_cons. cbn.
      destruct (Z.eqb_spec name n); [congruence|done].
    + by apply sels_ok_fresh.
Qed.

Lemma set_owner_spec now st client sw stuff :
  let w := swapl sw (so_window stuff) in
  let name := swapl sw (so_selection stuff) in
  let time := ClientTimeToServerTime now (swapl sw (so_time stuff)) in
  let s := default (fresh_sel name) (find_sel name (CurrentSelections st)) in
  let pWin := if w =? None_ then None else Some w in
  (forall p, sf_op p = SELECTION_FILTER_SETOWNER -> filter_callbacks p = p) ->
  sels_ok (CurrentSelections st) -> valid_atom name = true ->
  CompareTimeStamps time now <> LATER -> CompareTimeStamps time (lastTimeChanged s) <> EARLIER ->
  exists i st1,
    ProcSetSelectionOwner sel_access filter_callbacks always now st client sw 4 stuff =
      Ret (Success, become_owner filter_callbacks st1 i s client time w pWin false name) /\
    CurrentSelections st1 !! i = Some s /\ selection s = name /\ ss_effects st1 = ss_effects st /\
    (forall n, n <> name -> find_sel n (CurrentSelections st1) = find_sel n (CurrentSelections st)) /\
    sels_ok (CurrentSelections st1).
Proof.
  intros w name time s pWin Hf Hok Hname Hlater Hearlier. unfold ProcSetSelectionOwner.
  change (size_mismatch 16 4) with false. cbv iota zeta. fold w name time.
  destruct (Z.eqb_spec (CompareTimeStamps time now) LATER); [done|].
  rewrite Hf by done. cbn [sf_skip sf_owner sf_selection sf_status].
  assert (Hlw : exists st0, (if negb (w =? None_) then sel_lookup_window st w client DixSetAttrAccess
      else (Success, st)) = (Success, st0) /\ CurrentSelections st0 = CurrentSelections st /\
      ss_effects st0 = ss_effects st).
  { unfold sel_lookup_window. rewrite Hwin. case_bool; by eexists. }
  destruct Hlw as (st0 & -> & Hl0 & He0). change (Success =? Success) with true. rewrite Hname. cbn [negb].
  destruct (lookup_sel_granted st0 name client DixSetAttrAccess) as (i & st1 & -> & Hi & Hn & Hoth & He1 & Hok1);
    [by rewrite Hl0|].
  rewrite Hl0 in Hi, Hn, Hoth. change (Success =? Success) with true. cbn [negb option_bind mbind].
  fold s in Hi, Hn. rewrite Hi. cbn [fmap option_fmap option_map].
  destruct (Z.eqb_spec (CompareTimeStamps time (lastTimeChanged s)) EARLIER); [done|].
  exists i, st1. split_and!; try done. by rewrite He1.
Qed.
End Taking.

(** The event that tells the previous owner, if it has to be told. *)
Definition clear_event (s : Selection) (client : Z) (time : TimeStamp) (pWin : option Z) : list sel_effect :=
  match sel_client s with
  | Some old =>
      if bool_decide (pWin = None) || negb (old =? client)
      then [SelEvent (Some old) (SelectionClear (milliseconds time) (sel_window s) (selection s))] else []
  | None => []
  end.

(** A SetSelectionOwner whose time is neither in the future nor before the
    last change makes its window the owner, as GetSelectionOwner then reports;
    the previous owner is told exactly when another client takes over or the
    selection is given up; other selections are as they were. *)
Theorem SetSelectionOwner_takes `{AtomTable} `{WindowLookup} sel_access filter_callbacks
    now st client sw stuff :
  (forall c l i m, sel_access c l i m = (Success, i)) -> (forall w c m, window_rc w c m = Success) ->
  (forall p, filter_callbacks p = p) -> sels_ok (CurrentSelections st) ->
  let w := swapl sw (so_window stuff) in
  let name := swapl sw (so_selection stuff) in
  let time := ClientTimeToServerTime now (swapl sw (so_time stuff)) in
  let s := default (fresh_sel name) (find_sel name (CurrentSelections st)) in
  let pWin := if w =? None_ then None else Some w in
  valid_atom name = true ->
  CompareTimeStamps time now <> LATER -> CompareTimeStamps time (lastTimeChanged s) <> EARLIER ->
  let new := MkSel name time w pWin (match pWin with Some _ => Some client | None => None end) in
  exists st',
    ProcSetSelectionOwner sel_access filter_callbacks always now st client sw 4 stuff = Ret (Success, st') /\
    (forall n, find_sel n (CurrentSelections st') =
       if n =? name then Some new else find_sel n (CurrentSelections st)) /\
    ss_effects st' = ss_effects st ++ clear_event s client time pWin ++
                       [SelCallback new (Some client) SelectionSetOwner] /\
    exists st'', ProcGetSelectionOwner sel_access filter_callbacks always st' client false 2 name =
        Ret (Success, st'') /\
      last (ss_effects st'') = Some (SelReply client (MkReply [w] 0 [])).
Proof.
  intros Hsa Hwin Hf Hok w name time s pWin Hname Hl He new.
  destruct (set_owner_spec sel_access filter_callbacks Hsa Hwin now st client sw stuff
    ltac:(intros; apply Hf) Hok Hname Hl He) as (i & st1 & Hr & Hi & Hn & Heff & Hoth & Hok1).
  fold w name time s pWin in Hr, Hi, Hn, Hoth.
  set (st' := become_owner _ _ _ _ _ _ _ _ _ _) in *. exists st'. split; [exact Hr|].
  assert (Hlist : CurrentSelections st' = <[i := new]> (CurrentSelections st1)).
  { unfold st'. rewrite become_owner_list, Hn. done. }
  assert (Hfind : forall n, find_sel n (CurrentSelections st') =
       if n =? name then Some new else find_sel n (CurrentSelections st)).
  { intros n. rewrite Hlist, (find_sel_insert n _ i s) by (done || apply Hok1). rewrite Hn, (Z.eqb_sym name).
    destruct (Z.eqb_spec n name); [done|]. by apply Hoth. }
  assert (Heff' : ss_effects st' = ss_effects st ++ clear_event s client time pWin ++
                       [SelCallback new (Some client) SelectionSetOwner]).
  { unfold st', become_owner, clear_event. rewrite Hn. fold new.
    destruct (sel_client s) as [old|]; [destruct (_ || _)|]; cbn; rewrite ?Hf; cbn; rewrite Heff;
      by rewrite <- ?app_assoc, ?Hn. }
  split; [exact Hfind|]. split; [exact Heff'|].
  unfold ProcGetSelectionOwner. change (size_mismatch 8 2) with false. cbv iota zeta.
  rewrite Hf. cbn [swapl sf_skip sf_selection sf_client]. rewrite Hname. cbn [negb].
  destruct (lookup_sel_found sel_access Hsa st' name client DixGetAttrAccess new) as (k & -> & Hk & _).
  { by rewrite Hfind, Z.eqb_refl. }
  change (Success =? Success) with true. cbn [option_bind mbind].
  change (CurrentSelections (sel_error st' client name)) with (CurrentSelections st'). rewrite Hk.
  eexists. split; [reflexivity|]. cbn [ss_effects sel_effect_add set_field eta_ss]. by rewrite last_snoc.
Qed.


(** A filter cannot hold back a SelectionClear event: although it sets
    [skip] for the event, the handler tests the [skip] of the request's own
    parameter, and the event is sent. *)
Theorem SelectionClear_filter_ignored `{AtomTable} `{WindowLookup} sel_access filter_callbacks
    now st client sw stuff old s :
  (forall c l i m, sel_access c l i m = (Success, i)) -> (forall w c m, window_rc w c m = Success) ->
  (forall p, sf_op p = SELECTION_FILTER_SETOWNER -> filter_callbacks p = p) ->
  (forall p, sf_op p = SELECTION_FILTER_EV_CLEAR -> sf_skip (filter_callbacks p) = true) ->
  sels_ok (CurrentSelections st) ->
  let name := swapl sw (so_selection stuff) in
  let time := ClientTimeToServerTime now (swapl sw (so_time stuff)) in
  valid_atom name = true -> find_sel name (CurrentSelections st) = Some s ->
  sel_client s = Some old -> old <> client ->
  CompareTimeStamps time now <> LATER -> CompareTimeStamps time (lastTimeChanged s) <> EARLIER ->
  exists st' recv window atom new,
    ProcSetSelectionOwner sel_access filter_callbacks always now st client sw 4 stuff = Ret (Success, st') /\
    ss_effects st' = ss_effects st ++
      [SelEvent recv (SelectionClear (milliseconds time) window atom);
       SelCallback new (Some client) SelectionSetOwner].
Proof.
  intros Hsa Hwin Hf _ Hok name time Hname Hs Hold Hne Hl He.
  destruct (set_owner_spec sel_access filter_callbacks Hsa Hwin now st client sw stuff Hf Hok Hname Hl)
    as (i & st1 & Hr & _ & _ & Heff & _); [fold name; by rewrite Hs|].
  fold name time in Hr. rewrite Hs in Hr. cbn [default from_option id] in Hr.
  eexists _, _, _, _, _. split; [exact Hr|]. unfold become_owner. rewrite Hold.
  destruct (Z.eqb_spec old client); [done|]. rewrite orb_true_r. cbn [negb].
  cbn [ss_effects CallSelectionCallback sel_effect_add set_field eta_ss].
  rewrite Heff, <- app_assoc. reflexivity.
Qed.

(** A valid ConvertSelection sends exactly one event: the request to the
    owner when there is one that is still connected, and otherwise a refusal
    (property None) to the client that asked. *)
Theorem ConvertSelection_one_event `{AtomTable} `{WindowLookup} sel_access filter_callbacks clientGone
    st client stuff :
  (forall c l i m, sel_access c l i m = (Success, i)) -> (forall w c m, window_rc w c m = Success) ->
  (forall p, filter_callbacks p = p) -> sels_ok (CurrentSelections st) ->
  valid_atom (cv_selection stuff) = true -> valid_atom (cv_target stuff) = true ->
  cv_property stuff = None_ \/ valid_atom (cv_property stuff) = true ->
  exists st', ProcConvertSelection sel_access filter_callbacks clientGone always st client 6 stuff
      = Ret (Success, st') /\
    ss_effects st' = ss_effects st ++
      [match find_sel (cv_selection stuff) (CurrentSelections st) ≫= fun s => pair s <$> askable clientGone s with
       | Some (s, c) => SelEvent (Some c)
           (SelectionRequest (cv_time stuff) (sel_window s) (cv_requestor stuff) (cv_selection stuff)
              (cv_target stuff) (cv_property stuff))
       | None => SelEvent (Some client)
           (SelectionNotify (cv_time stuff) (cv_requestor stuff) (cv_selection stuff) (cv_target stuff) None_)
       end].
Proof.
  intros Hsa Hwin Hf Hok Hsel Htgt Hprop. unfold ProcConvertSelection.
  change (size_mismatch 24 6) with false. cbv iota zeta. rewrite Hf.
  cbn [sf_skip sf_requestor sf_selection sf_target sf_property sf_status].
  unfold sel_lookup_window. rewrite Hwin. change (Success =? Success) with true. cbn [negb].
  rewrite Hsel, Htgt.
  assert (Hp : (cv_property stuff =? None_) || valid_atom (cv_property stuff) = true).
  { destruct Hprop as [-> | ->]; [done|apply orb_true_r]. }
  rewrite Hp. cbn [andb negb].
  set (st1 := sel_error st client (cv_requestor stuff)).
  destruct (lookup_sel_granted sel_access Hsa st1 (cv_selection stuff) client DixReadAccess)
    as (i & st2 & -> & Hi & _ & _ & He & _); [done|].
  change (CurrentSelections st1) with (CurrentSelections st) in Hi. change (ss_effects st1) with (ss_effects st) in He.
  change (Success =? Success) with true. cbn [negb andb option_bind mbind]. rewrite Hi.
  destruct (find_sel (cv_selection stuff) (CurrentSelections st)) as [s|]; cbn [default from_option id option_bind mbind].
  - destruct (askable clientGone s) as [c|]; cbn [fmap option_fmap option_map]; rewrite Hf;
      cbn [sf_skip]; (eexists; split; [reflexivity|]);
      cbn [ss_effects sel_effect_add set_field eta_ss]; by rewrite He.
  - rewrite Hf. cbn [sf_skip]. eexists. split; [reflexivity|].
    cbn [ss_effects sel_effect_add set_field eta_ss]. by rewrite He.
Qed.

(** ** Concrete runs *)

Definition sel_atoms : AtomTable := {|
  valid_atom a := (1 <=? a) && (a <=? 500); atom_name _ := None; none_not_valid := eq_refl |}.
Definition sel_windows : WindowLookup := fun _ _ _ => Success.
Definition sel_grant (c : Z) (l : list Selection) (i : nat) (m : Z) : Z * nat := (Success, i).
Definition owned : Selection := MkSel 1 (MkTime 5 100) 0x400001 (Some 0x400001) (Some 2).
Definition sel_demo : sel_state := MkSS [owned] ∅ [].
Definition hold_clear (p : SelectionFilterParamRec) : SelectionFilterParamRec :=
  if sf_op p =? SELECTION_FILTER_EV_CLEAR
  then MkSF (sf_op p) true (sf_status p) (sf_selection p) (sf_client p) (sf_recvClient p) (sf_time p)
         (sf_requestor p) (sf_owner p) (sf_property p) (sf_target p)
  else p.

Lemma sel_demo_ok : sels_ok (CurrentSelections sel_demo).
Proof.
  split; [apply (bool_decide_unpack _); by vm_compute|].
  constructor; [|constructor]. split; [unfold time_ok; cbn; lia|]. cbn. by split_and!.
Qed.

Lemma selection_invariant_witness :
  exists st2, rtc (@sel_step sel_atoms sel_windows sel_grant (fun p => p) (fun _ => false))
                (MkSS [] ∅ []) st2 /\
    find_sel 1 (CurrentSelections st2) <> None /\ sels_ok (CurrentSelections st2).
Proof.
  assert (Hr : exists st2, @ProcSetSelectionOwner sel_atoms sel_windows sel_grant (fun p => p) always
    (MkTime 0 100) (MkSS [] ∅ []) 2 false 4 (MkSetOwner 0x400001 1 0) = Ret (Success, st2) /\
    find_sel 1 (CurrentSelections st2) <> None).
  { eexists. split; [vm_compute; reflexivity|]. vm_compute. discriminate. }
  destruct Hr as (st2 & Hr & Hf). exists st2.
  assert (Hs : rtc (@sel_step sel_atoms sel_windows sel_grant (fun p => p) (fun _ => false))
                (MkSS [] ∅ []) st2).
  { eapply rtc_once, step_set_owner; [| |exact Hr]; [unfold time_ok; cbn; lia|cbn; lia]. }
  split; [exact Hs|]. split; [exact Hf|].
  apply (@selection_invariant sel_atoms sel_windows sel_grant (fun p => p) (fun _ => false)
    (MkSS [] ∅ []) (MkSS [] ∅ []) st2); [reflexivity|apply rtc_refl|exact Hs].
Defined.

Lemma SetSelectionOwner_takes_witness :
  exists st', @ProcSetSelectionOwner sel_atoms sel_windows sel_grant (fun p => p) always (MkTime 5 200)
      sel_demo 3 false 4 (MkSetOwner 0x600001 1 150) = Ret (Success, st') /\
    find_sel 1 (CurrentSelections st') =
      Some (MkSel 1 (MkTime 5 150) 0x600001 (Some 0x600001) (Some 3)).
Proof.
  pose proof (@SetSelectionOwner_takes sel_atoms sel_windows sel_grant (fun p => p) (MkTime 5 200)
    sel_demo 3 false (MkSetOwner 0x600001 1 150) ltac:(reflexivity) ltac:(reflexivity) ltac:(reflexivity)
    sel_demo_ok ltac:(reflexivity) ltac:(vm_compute; discriminate) ltac:(vm_compute; discriminate)) as H.
  cbv zeta in H. destruct H as (st' & H1 & H2 & _). exists st'. split; [exact H1|]. exact (H2 1).
Defined.

Lemma SelectionClear_filter_ignored_witness :
  exists st' recv window atom new,
    @ProcSetSelectionOwner sel_atoms sel_windows sel_grant hold_clear always (MkTime 5 200)
      sel_demo 3 false 4 (MkSetOwner 0x600001 1 150) = Ret (Success, st') /\
    ss_effects st' = [SelEvent recv (SelectionClear 150 window atom);
                      SelCallback new (Some 3) SelectionSetOwner].
Proof.
  apply (@SelectionClear_filter_ignored sel_atoms sel_windows sel_grant hold_clear (MkTime 5 200)
    sel_demo 3 false (MkSetOwner 0x600001 1 150) 2 owned); try reflexivity.
  - intros p Hp. unfold hold_clear. by rewrite Hp.
  - intros p Hp. unfold hold_clear. by rewrite Hp.
  - exact sel_demo_ok.
  - discriminate.
  - vm_compute. discriminate.
  - vm_compute. discriminate.
Defined.

Lemma ConvertSelection_one_event_witness :
  exists st', @ProcConvertSelection sel_atoms sel_windows sel_grant (fun p => p) (fun _ => false) always
      sel_demo 3 6 (MkConvert 0x600001 1 31 0 150) = Ret (Success, st') /\
    ss_effects st' = [SelEvent (Some 2) (SelectionRequest 150 0x400001 0x600001 1 31 0)].
Proof.
  apply (@ConvertSelection_one_event sel_atoms sel_windows sel_grant (fun p => p) (fun _ => false)
    sel_demo 3 (MkConvert 0x600001 1 31 0 150)); try reflexivity.
  - exact sel_demo_ok.
  - by left.
Defined.
