(* ===== verification/EventQueue.v ===== *)
(** * The input event queue (mi/mieq.c, parts of dix/devices.c)

    Drivers (on the input thread) put internal events into a ring buffer and
    the main thread takes them out and posts them to the slave device and its
    master.  The ring's slots point to separately allocated event lists; these
    are kept by address, so that a list that was freed while a slot still
    points to it shows up as [Undefined]. *)
From S2P Require Import Prelude DixUtils.

(** ** Events (include/eventstr.h) *)

Definition ET_KeyPress : Z := 2.
Definition ET_KeyRelease : Z := 3.
Definition ET_ButtonPress : Z := 4.
Definition ET_ButtonRelease : Z := 5.
Definition ET_Motion : Z := 6.
Definition ET_TouchBegin : Z := 7.
Definition ET_TouchUpdate : Z := 8.
Definition ET_TouchEnd : Z := 9.
Definition ET_TouchOwnership : Z := 10.
Definition ET_ProximityIn : Z := 15.
Definition ET_ProximityOut : Z := 16.
Definition ET_DeviceChanged : Z := 17.
Definition ET_Hierarchy : Z := 18.
Definition ET_DGAEvent : Z := 19.
Definition ET_RawKeyPress : Z := 20.
Definition ET_RawKeyRelease : Z := 21.
Definition ET_RawButtonPress : Z := 22.
Definition ET_RawButtonRelease : Z := 23.
Definition ET_RawMotion : Z := 24.
Definition ET_RawTouchBegin : Z := 25.
Definition ET_RawTouchUpdate : Z := 26.
Definition ET_RawTouchEnd : Z := 27.
Definition ET_XQuartz : Z := 28.
Definition ET_BarrierHit : Z := 29.
Definition ET_BarrierLeave : Z := 30.
Definition ET_GesturePinchBegin : Z := 31.
Definition ET_GesturePinchUpdate : Z := 32.
Definition ET_GesturePinchEnd : Z := 33.
Definition ET_GestureSwipeBegin : Z := 34.
Definition ET_GestureSwipeUpdate : Z := 35.
Definition ET_GestureSwipeEnd : Z := 36.

Definition TOUCH_POINTER_EMULATED : Z := Z.shiftl 1 5.

(** An event, by the fields this component reads; [ev_rest] stands for the
    fields it only copies.  Every kind of event has the first four.
    [include/eventstr.h: _DeviceEvent 93-137] *)
Record InternalEvent := MkEv {
  ev_type : Z; ev_time : Z; ev_deviceid : Z; ev_button : Z; ev_flags : Z;
  ev_root_x : Z; ev_root_y : Z; ev_subtype : Z; ev_rest : list Z }.
#[export] Instance eta_ev : Settable InternalEvent := fun e =>
  MkEv (ev_type e) (ev_time e) (ev_deviceid e) (ev_button e) (ev_flags e)
    (ev_root_x e) (ev_root_y e) (ev_subtype e) (ev_rest e).

(** ** Devices (include/inputstr.h) *)

Definition MASTER_POINTER : Z := 1.
Definition MASTER_KEYBOARD : Z := 2.
Definition SLAVE : Z := 3.
Definition MASTER_ATTACHED : Z := 4.
Definition KEYBOARD_OR_FLOAT : Z := 5.
Definition POINTER_OR_FLOAT : Z := 6.

(** A device: [dv_spriteInfo] is the address of its sprite and its paired
    device, [dv_button] the button map, when it has them.
    [include/inputstr.h: _DeviceIntRec 528-560] *)
Record DeviceIntRec := MkDev {
  dv_id : Z; dv_enabled : bool; dv_type : Z; dv_master : option Z;
  dv_lastSlave : option Z; dv_spriteInfo : option (Z * option Z);
  dv_button : option (list Z); dv_processInputProc : Z }.
#[export] Instance eta_dev : Settable DeviceIntRec := fun d =>
  MkDev (dv_id d) (dv_enabled d) (dv_type d) (dv_master d) (dv_lastSlave d)
    (dv_spriteInfo d) (dv_button d) (dv_processInputProc d).

Record Sprite := MkSprite { pEnqueueScreen : option Z; pDequeueScreen : option Z }.

(** ** The queue *)

Definition QUEUE_INITIAL_SIZE : Z := 512.

(** [mi/mieq.c: EventRec 78-82] *)
Record EventRec := MkEventRec {
  er_events : option Z; er_pScreen : option Z; er_pDev : option Z }.
Definition null_slot : EventRec := MkEventRec None None None.

(** [mi/mieq.c: EventQueueRec 84-93] *)
Record EventQueueRec := MkEQ {
  head : Z; tail : Z; lastEventTime : Z; lastMotion : Z;
  events : list EventRec; nevents : Z; dropped : Z; eq_handlers : list (option Z) }.
#[export] Instance eta_eq : Settable EventQueueRec := fun q =>
  MkEQ (head q) (tail q) (lastEventTime q) (lastMotion q) (events q) (nevents q)
    (dropped q) (eq_handlers q).

(** *** The ring buffer and its event lists *)

Record queue_mem := MkQM { miEventQueue : EventQueueRec; lists : gmap Z InternalEvent;
                           next_list : Z }.
#[export] Instance eta_qm : Settable queue_mem := fun m =>
  MkQM (miEventQueue m) (lists m) (next_list m).

(** [mi/mieq.c: mieqNumEnqueued] *)
Definition mieqNumEnqueued (q : EventQueueRec) : Z :=
  if negb (nevents q =? 0) then
    let n_enqueued := u64 (tail q - head q + nevents q) in
    if nevents q <=? n_enqueued then n_enqueued - nevents q else n_enqueued
  else 0.

(** The allocator is asked for one list; its size in bytes is left out.
    [dix/getevents.c: InitEventList] *)
Definition InitEventList (al : allocator) (k : nat) (m : queue_mem) : option Z * queue_mem :=
  if negb (al k 1) then (None, m)
  else (Some (next_list m),
        MkQM (miEventQueue m) (<[next_list m := MkEv 0 0 0 0 0 0 0 0 []]> (lists m))
          (next_list m + 1)).

(** [free] of a list; of one that is not allocated it is undefined.
    [dix/getevents.c: FreeEventList] *)
Definition FreeEventList (m : queue_mem) (a : option Z) : outcome queue_mem :=
  match a with
  | None => Ret m
  | Some a =>
      match lists m !! a with
      | None => Undefined
      | Some _ => Ret (m <| lists ::= delete a |>)
      end
  end.

(** The allocation of the lists of the new portion: the lists got so far and
    whether all were. *)
Fixpoint init_new (al : allocator) (k : nat) (n : nat) (m : queue_mem)
  : list EventRec * bool * queue_mem :=
  match n with
  | O => ([], true, m)
  | S n' =>
      match InitEventList al k m with
      | (None, m) => ([], false, m)
      | (Some a, m) =>
          let '(l, ok, m) := init_new al (S k) n' m in
          (MkEventRec (Some a) None None :: l, ok, m)
      end
  end.

Fixpoint free_lists (m : queue_mem) (l : list EventRec) : outcome queue_mem :=
  match l with
  | [] => Ret m
  | e :: l' => m <-- FreeEventList m (er_events e); free_lists m l'
  end.

(** [mi/mieq.c: mieqGrowQueue] *)
Definition mieqGrowQueue (al : allocator) (m : queue_mem) (new_nevents : Z)
  : outcome (bool * queue_mem) :=
  let q := miEventQueue m in
  if new_nevents <=? nevents q then Ret (false, m)
  else if negb (al 0%nat (24 * new_nevents)) then Ret (false, m)
  else
    let n_enqueued := mieqNumEnqueued q in
    let old := drop (Z.to_nat (head q)) (events q) ++ take (Z.to_nat (head q)) (events q) in
    let '(fresh, ok, m) := init_new al 1 (Z.to_nat (new_nevents - nevents q)) m in
    if negb ok then
      m <-- free_lists m (old ++ fresh);
      Ret (false, m)
    else
      Ret (true, m <| miEventQueue := q <| tail := i32 n_enqueued |> <| head := 0 |>
                       <| nevents := new_nevents |> <| events := old ++ fresh |> |>).

(** [mi/mieq.c: mieqInit] *)
Definition mieqInit (al : allocator) (m : queue_mem) (GetTimeInMillis : Z) : outcome queue_mem :=
  let q := MkEQ 0 0 GetTimeInMillis 0 [] 0 0 (replicate 128 None) in
  '(ok, m) <-- mieqGrowQueue al (m <| miEventQueue := q |>) QUEUE_INITIAL_SIZE;
  if negb ok then FatalError else Ret m.

(** [mi/mieq.c: mieqFini] *)
Definition mieqFini (m : queue_mem) : outcome queue_mem :=
  m <-- free_lists m (events (miEventQueue m));
  Ret (m <| miEventQueue ::= fun q => q <| events := [] |> |>).

(** The slot an event goes to, or none when it is dropped. *)
Definition enqueue_slot (al : allocator) (m : queue_mem) (isMotion : Z)
  : outcome (option Z * queue_mem) :=
  let q := miEventQueue m in
  let oldtail := u32 (tail q) in
  if negb (isMotion =? 0) && (isMotion =? lastMotion q) && negb (oldtail =? u32 (head q)) then
    if nevents q =? 0 then Undefined
    else Ret (Some (u32 (u32 (oldtail - 1) mod nevents q)), m)
  else if mieqNumEnqueued q + 1 =? nevents q then
    '(ok, m) <-- mieqGrowQueue al m (u64 (Z.shiftl (nevents q) 1));
    if negb ok then
      Ret (None, m <| miEventQueue ::= fun q => q <| dropped ::= fun d => u64 (d + 1) |> |>)
    else Ret (Some (u32 (tail (miEventQueue m))), m)
  else Ret (Some oldtail, m).

(** The event as the caller is left with it, and the queue.  [dev] gives the
    device's address, id and enqueue screen.
    [mi/mieq.c: mieqEnqueue] *)
Definition mieqEnqueue (al : allocator) (m : queue_mem) (dev : option (Z * Z * option Z))
    (e : InternalEvent) : outcome (InternalEvent * queue_mem) :=
  isMotion <-? (if ev_type e =? ET_Motion then (fun d => d.1.2) <$> dev else Some 0);
  '(slot, m) <-- enqueue_slot al m isMotion;
  match slot with
  | None => Ret (e, m)
  | Some oldtail =>
      let q := miEventQueue m in
      rec <-? znth (events q) oldtail;
      evt <-? er_events rec;
      match lists m !! evt with
      | None => Undefined
      | Some _ =>
          let copy := e in
          let time := ev_time e in
          let e := if (time <? lastEventTime q) && (u32 (lastEventTime q - time) <? 10000)
                   then e <| ev_time := lastEventTime q |> else e in
          Ret (e, MkQM
            (MkEQ (head q) (i32 (u32 (oldtail + 1) mod nevents q)) (u32 (ev_time copy)) isMotion
               (zset (events q) oldtail
                  (MkEventRec (Some evt) (dev ≫= fun d => d.2) ((fun d => d.1.1) <$> dev)))
               (nevents q) (dropped q) (eq_handlers q))
            (<[evt := copy]> (lists m)) (next_list m))
      end
  end.

(** [mi/mieq.c: mieqSetHandler] *)
Definition mieqSetHandler (q : EventQueueRec) (event : Z) (handler : option Z)
  : outcome EventQueueRec :=
  match znth (eq_handlers q) event with
  | None => Undefined
  | Some _ => Ret (q <| eq_handlers := zset (eq_handlers q) event handler |>)
  end.

(** *** Masters and slaves (dix/devices.c, dix/events.c)

    A device is looked up by its address; following a dangling pointer is
    [Undefined].  The mutual recursion of [GetMaster] and [GetPairedDevice]
    ends at a master device, [HOPS] steps away at most. *)
Definition HOPS : nat := 4.

(** [dix/events.c: InputDevIsMaster] *)
Definition InputDevIsMaster (d : DeviceIntRec) : bool :=
  (dv_type d =? MASTER_POINTER) || (dv_type d =? MASTER_KEYBOARD).

(** [dix/devices.c: GetMaster] *)
Fixpoint GetMaster (n : nat) (devs : gmap Z DeviceIntRec) (dev which : Z) : outcome (option Z) :=
  match n with
  | O => Diverge
  | S n' =>
      d <-? devs !! dev;
      let paired (dev : Z) : outcome (option Z) :=
        d <-? devs !! dev;
        is_slave_attached <-- (if InputDevIsMaster d then Ret false
                               else m <-- GetMaster n' devs dev MASTER_KEYBOARD;
                                    Ret (bool_decide (m <> None)));
        dev <-- (if is_slave_attached then GetMaster n' devs dev MASTER_ATTACHED
                 else Ret (Some dev));
        match dev with
        | None => Ret None
        | Some dev =>
            d <-? devs !! dev;
            Ret (match dv_spriteInfo d with Some (_, p) => p | None => None end)
        end in
      let float := (which =? POINTER_OR_FLOAT) || (which =? KEYBOARD_OR_FLOAT) in
      let master := if InputDevIsMaster d then Some dev else dv_master d in
      match master with
      | None => Ret (if float then Some dev else None)
      | Some m =>
          if which =? MASTER_ATTACHED then Ret (Some m)
          else
            md <-? devs !! m;
            if (which =? MASTER_KEYBOARD) || (which =? KEYBOARD_OR_FLOAT) then
              if negb (dv_type md =? MASTER_KEYBOARD) then paired m else Ret (Some m)
            else
              if negb (dv_type md =? MASTER_POINTER) then paired m else Ret (Some m)
      end
  end.

(** [dix/events.c: InputDevIsFloating] *)
Definition InputDevIsFloating (devs : gmap Z DeviceIntRec) (dev : Z) : outcome bool :=
  d <-? devs !! dev;
  if InputDevIsMaster d then Ret false
  else m <-- GetMaster HOPS devs dev MASTER_KEYBOARD; Ret (bool_decide (m = None)).

(** ** Posting the events *)

(** [xfree86_dga] is the build option XFreeXDGA. *)
Section Posting.
Context (xfree86_dga : bool).

(** The kinds of events whose device id is changed.
    [mi/mieq.c: ChangeDeviceID] *)
Definition ChangeDeviceID (dev : DeviceIntRec) (event : InternalEvent) : InternalEvent :=
  let t := ev_type event in
  if bool_decide (t ∈ [ET_Motion; ET_KeyPress; ET_KeyRelease; ET_ButtonPress; ET_ButtonRelease;
                       ET_ProximityIn; ET_ProximityOut; ET_Hierarchy; ET_DeviceChanged;
                       ET_TouchBegin; ET_TouchUpdate; ET_TouchEnd])
  then event <| ev_deviceid := dv_id dev |>
  else if t =? ET_TouchOwnership then event <| ev_deviceid := dv_id dev |>
  else if xfree86_dga && (t =? ET_DGAEvent) then event
  else if bool_decide (t ∈ [ET_RawKeyPress; ET_RawKeyRelease; ET_RawButtonPress;
                            ET_RawButtonRelease; ET_RawMotion; ET_RawTouchBegin;
                            ET_RawTouchEnd; ET_RawTouchUpdate])
  then event <| ev_deviceid := dv_id dev |>
  else if bool_decide (t ∈ [ET_BarrierHit; ET_BarrierLeave])
  then event <| ev_deviceid := dv_id dev |>
  else if bool_decide (t ∈ [ET_GesturePinchBegin; ET_GesturePinchUpdate; ET_GesturePinchEnd;
                            ET_GestureSwipeBegin; ET_GestureSwipeUpdate; ET_GestureSwipeEnd])
  then event <| ev_deviceid := dv_id dev |>
  else event.

(** [mi/mieq.c: FixUpEventForMaster] *)
Definition FixUpEventForMaster (sdev : DeviceIntRec) (original master : InternalEvent)
  : outcome InternalEvent :=
  if (ev_type original =? ET_ButtonPress) || (ev_type original =? ET_ButtonRelease) then
    match dv_button sdev with
    | None => Ret master
    | Some map =>
        b <-? znth map (i32 (ev_button original));
        Ret (master <| ev_button := b |>)
    end
  else Ret master.

(** The master and its copy of the event.
    [mi/mieq.c: CopyGetMasterEvent] *)
Definition CopyGetMasterEvent (devs : gmap Z DeviceIntRec) (sdev : option Z)
    (original : InternalEvent) : outcome (option (Z * InternalEvent)) :=
  match sdev with
  | None => Ret None
  | Some sdev =>
      sd <-? devs !! sdev;
      if InputDevIsMaster sd then Ret None
      else
        floating <-- InputDevIsFloating devs sdev;
        if floating : bool then Ret None
        else
          let type := if xfree86_dga && (ev_type original =? ET_DGAEvent)
                      then ev_subtype original else ev_type original in
          let mtype :=
            if (type =? ET_KeyPress) || (type =? ET_KeyRelease) then MASTER_KEYBOARD
            else if bool_decide (type ∈ [ET_ButtonPress; ET_ButtonRelease; ET_Motion;
                                         ET_ProximityIn; ET_ProximityOut])
            then MASTER_POINTER
            else MASTER_ATTACHED in
          mdev <-- GetMaster HOPS devs sdev mtype;
          mdev <-? mdev;
          md <-? devs !! mdev;
          copy <-- FixUpEventForMaster sd original (ChangeDeviceID md original);
          Ret (Some (mdev, copy))
  end.

(** The main thread's state: the queue, the devices, their sprites by address,
    and everything else; the callback lists of the server are around it.  The
    handlers, the devices' input processing and what other threads enqueue
    while the input lock is released act on all of it. *)
Section Main.
Context {W : Type}.

Record mi_state := MkMi {
  qm : queue_mem; devices : gmap Z DeviceIntRec; sprites : gmap Z Sprite;
  inProcessInputEvents : bool; mi_world : W }.
#[export] Instance eta_mi : Settable mi_state := fun s =>
  MkMi (qm s) (devices s) (sprites s) (inProcessInputEvents s) (mi_world s).
Notation server := (cb_state mi_state).
Implicit Types (st : server).

(** The code the queue calls: a custom handler and the processing of a device
    get a pointer to the event and may change it.  [screenIsSaved] and
    [dpms_on] read the state of the screen saver; [DPMSExtension] is the build
    option. *)
Class mi_env := {
  handler_call : Z -> Z -> InternalEvent -> option Z -> server -> InternalEvent * server;
  processInputProc : Z -> InternalEvent -> Z -> server -> InternalEvent * server;
  NewCurrentScreen : Z -> Z -> Z -> Z -> server -> server;
  miPointerUpdateSprite : option Z -> server -> server;
  call_cb : CallbackRec -> Z -> server -> server;
  myNum : Z -> Z;
  DPMSExtension : bool;
  screenIsSaved : server -> bool;
  dpms_on : server -> bool;
  dixSaveScreensOff : server -> server;
  SetScreenSaverTimer : server -> server;
  DPMSSetOn : server -> server
}.
Context `{E : mi_env}.

Definition miCallbacksWhenDrained : Z := 0.

Definition on_mi (f : mi_state -> mi_state) st : server :=
  MkCS (cb_lists st) (listsToCleanup st) (f (cs_world st)).

Definition sprite_of (dev : Z) st : outcome (Z * Sprite) :=
  d <-? devices (cs_world st) !! dev;
  info <-? dv_spriteInfo d;
  sp <-? sprites (cs_world st) !! info.1;
  Ret (info.1, sp).

Definition set_sprite (a : Z) (sp : Sprite) : server -> server :=
  on_mi (fun s => s <| sprites ::= <[a := sp]> |>).

(** [mi/mieq.c: mieqSwitchScreen] *)
Definition mieqSwitchScreen (pDev : Z) (pScreen : option Z) (set_dequeue_screen : bool) st
  : outcome server :=
  '(a, sp) <-- sprite_of pDev st;
  let sp := MkSprite pScreen (pDequeueScreen sp) in
  let sp := if set_dequeue_screen then MkSprite (pEnqueueScreen sp) pScreen else sp in
  Ret (set_sprite a sp st).

(** [mi/mieq.c: mieqMoveToNewScreen] *)
Definition mieqMoveToNewScreen (dev screen : option Z) (event : InternalEvent) st
  : outcome server :=
  match dev, screen with
  | Some dev, Some screen =>
      '(a, sp) <-- sprite_of dev st;
      if bool_decide (pDequeueScreen sp = Some screen) then Ret st
      else
        let st := set_sprite a (MkSprite (pEnqueueScreen sp) (Some screen)) st in
        Ret (NewCurrentScreen dev screen (ev_root_x event) (ev_root_y event) st)
  | _, _ => Ret st
  end.

Definition pointer_emulated (e : InternalEvent) : bool :=
  negb (Z.land (ev_flags e) TOUCH_POINTER_EMULATED =? 0).

(** Whether an event can move the device to the screen it was enqueued on. *)
Definition moves_screen (e : InternalEvent) : bool :=
  bool_decide (ev_type e ∈ [ET_Motion; ET_KeyPress; ET_KeyRelease; ET_ButtonPress;
                            ET_ButtonRelease]) ||
  (bool_decide (ev_type e ∈ [ET_TouchBegin; ET_TouchUpdate; ET_TouchEnd]) && pointer_emulated e).

(** The screen number a custom handler is called with. *)
Definition handler_screen (dev screen : option Z) st : outcome Z :=
  dq <-- (match dev with
          | Some dev => '(_, sp) <-- sprite_of dev st; Ret (pDequeueScreen sp)
          | None => Ret None
          end);
  Ret (match dq with
       | Some s => myNum s
       | None => match screen with Some s => myNum s | None => 0 end
       end).

(** The check and the delivery to the master after the slave's. *)
Definition post_master (post : InternalEvent -> Z -> server -> InternalEvent * server)
    (dev : option Z) (master : option (Z * InternalEvent)) st : outcome server :=
  match master with
  | None => Ret st
  | Some (m, mevent) =>
      dev <-? dev;
      floating <-- InputDevIsFloating (devices (cs_world st)) dev;
      if floating : bool then Ret st else Ret (post mevent m st).2
  end.

(** The event as the caller is left with it, and the state.
    [mi/mieq.c: mieqProcessDeviceEvent] *)
Definition mieqProcessDeviceEvent (dev : option Z) (event : InternalEvent) (screen : option Z) st
  : outcome (InternalEvent * server) :=
  enabled <-- (match dev with
               | None => Ret true
               | Some a => d <-? devices (cs_world st) !! a; Ret (dv_enabled d)
               end);
  if negb enabled then Ret (event, st)
  else
    handler <-? znth (eq_handlers (miEventQueue (qm (cs_world st)))) (ev_type event);
    st <-- (if bool_decide (handler = None) && moves_screen event
            then mieqMoveToNewScreen dev screen event st else Ret st);
    master <-- CopyGetMasterEvent (devices (cs_world st)) dev event;
    let st := match master with
              | None => st
              | Some (m, _) => on_mi (fun s => s <| devices ::= alter (fun d => d <| dv_lastSlave := dev |>) m |>) st
              end in
    match handler with
    | Some h =>
        screenNum <-- handler_screen dev screen st;
        let '(event, st) := handler_call h screenNum event dev st in
        st <-- post_master (fun e d => handler_call h screenNum e (Some d)) dev master st;
        Ret (event, st)
    | None =>
        a <-? dev;
        d <-? devices (cs_world st) !! a;
        let '(event, st) := processInputProc (dv_processInputProc d) event a st in
        match master with
        | None => Ret (event, st)
        | Some (m, mevent) =>
            floating <-- InputDevIsFloating (devices (cs_world st)) a;
            if floating : bool then Ret (event, st)
            else
              md <-? devices (cs_world st) !! m;
              Ret (event, (processInputProc (dv_processInputProc md) mevent m st).2)
        end
    end.

(** Whether the sprite of the device is updated after the event. *)
Definition updates_sprite (e : InternalEvent) : bool :=
  (ev_type e =? ET_Motion) ||
  (((ev_type e =? ET_TouchBegin) || (ev_type e =? ET_TouchUpdate)) && pointer_emulated e).

(** User activity ends the screen saver and powers the monitor up.
    [mi/mieq.c: mieqProcessInputEvents 562-571] *)
Definition wake_screen st : server :=
  let st :=
    if screenIsSaved st then dixSaveScreensOff st
    else if DPMSExtension && negb (dpms_on st) then SetScreenSaverTimer st else st in
  if DPMSExtension && negb (dpms_on st) then DPMSSetOn st else st.

(** What is done with one event after it was taken from the queue.
    [mi/mieq.c: mieqProcessInputEvents 560-582] *)
Definition process_one (ev : InternalEvent * option Z * option Z) st : outcome server :=
  let '(event, screen, dev) := ev in
  master <-- (match dev with
              | None => Ret None
              | Some a => GetMaster HOPS (devices (cs_world st)) a MASTER_ATTACHED
              end);
  '(event, st) <-- mieqProcessDeviceEvent dev event screen (wake_screen st);
  Ret (if bool_decide (master <> None) && updates_sprite event
       then miPointerUpdateSprite dev st else st).

Definition queue_of st : queue_mem := qm (cs_world st).

(** One turn of the loop. [mi/mieq.c: mieqProcessInputEvents 549-558] *)
Definition process_inputs_step st : server + outcome server :=
  let m := queue_of st in
  let q := miEventQueue m in
  if head q =? tail q then inr (Ret st)
  else
    match znth (events q) (head q) with
    | None => inr Undefined
    | Some e =>
        match er_events e ≫= fun a => lists m !! a with
        | None => inr Undefined
        | Some event =>
            if nevents q =? 0 then inr Undefined
            else
              let st := on_mi (fun s => s <| qm := m <| miEventQueue :=
                          q <| head := i32 ((head q + 1) mod nevents q) |> |> |>) st in
              match process_one (event, er_pScreen e, er_pDev e) st with
              | Ret st => inl st
              | FatalError => inr FatalError
              | Undefined => inr Undefined
              | Diverge => inr Diverge
              end
        end
    end.

Definition start_processing st : server :=
  on_mi (fun s => s <| inProcessInputEvents := true |>
                    <| qm ::= fun m => m <| miEventQueue ::= fun q => q <| dropped := 0 |> |> |>) st.

Definition end_processing st : outcome server :=
  let st := on_mi (fun s => s <| inProcessInputEvents := false |>) st in
  match cb_lists st !! miCallbacksWhenDrained with
  | None => Ret st
  | Some _ => _CallCallbacks call_cb st miCallbacksWhenDrained
  end.

(** [mi/mieq.c: mieqProcessInputEvents] *)
Definition mieqProcessInputEvents (p : positive) st : outcome server :=
  st <-- run_loop process_inputs_step p (start_processing st);
  end_processing st.

(** [mi/mieq.c: mieqAddCallbackOnDrained] *)
Definition mieqAddCallbackOnDrained (al : allocator) (callback param : Z) st : outcome server :=
  '(_, st) <-- AddCallback al st (Some miCallbacksWhenDrained) callback param; Ret st.

(** [mi/mieq.c: mieqRemoveCallbackOnDrained] *)
Definition mieqRemoveCallbackOnDrained (callback param : Z) st : server :=
  (DeleteCallback st (Some miCallbacksWhenDrained) callback param).2.
End Main.
End Posting.
Arguments mi_state : clear implicits.
Arguments mi_env : clear implicits.

(** * Properties *)

(** ** The ring as a queue

    [content] is what the main thread will take out, in that order. *)
Definition queued : Type := InternalEvent * option Z * option Z.

Definition ring (q : EventQueueRec) (k : Z) : Z := (head q + k) mod nevents q.

Definition content_at (m : queue_mem) (i : Z) : option queued :=
  e ← znth (events (miEventQueue m)) i;
  a ← er_events e;
  event ← lists m !! a;
  Some (event, er_pScreen e, er_pDev e).

Definition content (m : queue_mem) : list (option queued) :=
  (fun k => content_at m (ring (miEventQueue m) k)) <$>
    seqZ 0 (mieqNumEnqueued (miEventQueue m)).

(** The addresses of the event lists, one per slot. *)
Definition slot_lists (q : EventQueueRec) : list (option Z) := er_events <$> events q.

(** A ring of a power of two slots, each with an event list of its own. *)
Record queue_ok (m : queue_mem) : Prop := {
  qo_size : exists k, 0 <= k <= 30 /\ nevents (miEventQueue m) = 2 ^ k;
  qo_len : Z.of_nat (length (events (miEventQueue m))) = nevents (miEventQueue m);
  qo_head : 0 <= head (miEventQueue m) < nevents (miEventQueue m);
  qo_tail : 0 <= tail (miEventQueue m) < nevents (miEventQueue m);
  qo_nodup : NoDup (slot_lists (miEventQueue m));
  qo_live : forall o, o ∈ slot_lists (miEventQueue m) ->
    exists a, o = Some a /\ is_Some (lists m !! a);
  qo_next : forall a, is_Some (lists m !! a) -> a < next_list m
}.

(** What the queue promises: an event is appended, except that a motion event
    of the device the last event was a motion event of replaces that event. *)
Definition spec_enqueue (last isMotion : Z) (l : list (option queued)) (x : queued)
  : list (option queued) :=
  if negb (isMotion =? 0) && (isMotion =? last) && negb (Nat.eqb (length l) 0)
  then removelast l ++ [Some x] else l ++ [Some x].

Lemma removelast_length_le {A} (l : list A) : (length (removelast l) <= length l)%nat.
Proof. induction l as [|x [|y l] IH]; cbn in *; lia. Qed.

Section RingLemmas.
Implicit Types (m : queue_mem) (q : EventQueueRec).

Lemma size_bounds m : queue_ok m -> 1 <= nevents (miEventQueue m) <= 1073741824.
Proof.
  intros H. destruct (qo_size m H) as (k & Hk & ->). split.
  - apply Z.lt_pred_le. cbn. apply Z.pow_pos_nonneg; lia.
  - change 1073741824 with (2 ^ 30). apply Z.pow_le_mono_r; lia.
Qed.

Lemma num_enqueued_mod q :
  1 <= nevents q <= 1073741824 -> 0 <= head q < nevents q -> 0 <= tail q < nevents q ->
  mieqNumEnqueued q = (tail q - head q) mod nevents q.
Proof.
  intros Hn Hh Ht. unfold mieqNumEnqueued. destruct (Z.eqb_spec (nevents q) 0); [lia|]. cbn [negb].
  rewrite u64_small by lia. destruct (Z.leb_spec (nevents q) (tail q - head q + nevents q)).
  - rewrite Z.mod_small; lia.
  - rewrite <- (Z.mod_add _ 1), Z.mod_small; lia.
Qed.

Lemma num_enqueued_range m :
  queue_ok m -> 0 <= mieqNumEnqueued (miEventQueue m) < nevents (miEventQueue m).
Proof.
  intros H. pose proof (size_bounds m H). rewrite num_enqueued_mod by (apply H || done).
  apply Z.mod_pos_bound. lia.
Qed.

Lemma ring_range q k : 1 <= nevents q -> 0 <= ring q k < nevents q.
Proof. intros. apply Z.mod_pos_bound. lia. Qed.

Lemma ring_inj q i j :
  0 <= i < nevents q -> 0 <= j < nevents q -> ring q i = ring q j -> i = j.
Proof.
  unfold ring. intros Hi Hj He.
  assert (((head q + i) - (head q + j)) mod nevents q = 0) as H0.
  { rewrite Zminus_mod, He, Z.sub_diag. apply Z.mod_0_l. lia. }
  replace (head q + i - (head q + j)) with (i - j) in H0 by lia.
  apply Z.mod_divide in H0; [|lia]. destruct H0 as [z Hz].
  assert (z = 0) by nia. lia.
Qed.

Lemma ring_tail m : queue_ok m ->
  ring (miEventQueue m) (mieqNumEnqueued (miEventQueue m)) = tail (miEventQueue m).
Proof.
  intros H. pose proof (size_bounds m H). rewrite num_enqueued_mod by (apply H || done).
  unfold ring. rewrite Zplus_mod_idemp_r. replace (_ + _) with (tail (miEventQueue m)) by lia.
  apply Z.mod_small, H.
Qed.

Lemma length_content m : queue_ok m ->
  length (content m) = Z.to_nat (mieqNumEnqueued (miEventQueue m)).
Proof. intros H. unfold content. rewrite length_fmap, length_seqZ. done. Qed.

(** Every slot of a well-formed ring holds an event. *)
Lemma slot_live m i : queue_ok m -> 0 <= i < nevents (miEventQueue m) ->
  exists e a ev, znth (events (miEventQueue m)) i = Some e /\ er_events e = Some a /\
    lists m !! a = Some ev.
Proof.
  intros H Hi. destruct (znth_Some (events (miEventQueue m)) i) as [e He];
    [by rewrite (qo_len m H)|].
  destruct (qo_live m H (er_events e)) as (a & Ha & [ev Hev]); [|eauto 10].
  unfold slot_lists. apply list_elem_of_fmap. exists e. split; [done|].
  unfold znth in He. destruct (i <? 0); [done|]. by eapply list_elem_of_lookup_2.
Qed.

(** Two slots have different lists. *)
Lemma slot_lists_inj m i j e e' a : queue_ok m ->
  znth (events (miEventQueue m)) i = Some e -> znth (events (miEventQueue m)) j = Some e' ->
  er_events e = Some a -> er_events e' = Some a -> i = j.
Proof.
  intros H Hi Hj Ha Ha'. pose proof (znth_lt _ _ _ Hi). pose proof (znth_lt _ _ _ Hj).
  pose proof (qo_nodup m H) as Hnd. unfold slot_lists in Hnd.
  unfold znth in Hi, Hj. destruct (i <? 0) eqn:?, (j <? 0) eqn:?; try done. breflect.
  assert (Z.to_nat i = Z.to_nat j); [|lia].
  eapply NoDup_lookup; [done| |]; rewrite list_lookup_fmap.
  - rewrite Hi. by cbn; rewrite Ha.
  - rewrite Hj. by cbn; rewrite Ha'.
Qed.
End RingLemmas.

(** *** Writing one slot *)

(** The queue after an event was copied into slot [i]. *)
Definition put (m : queue_mem) (i : Z) (a : Z) (x : queued) (isMotion : Z) : queue_mem :=
  let q := miEventQueue m in
  MkQM
    (MkEQ (head q) (i32 (u32 (i + 1) mod nevents q)) (u32 (ev_time x.1.1)) isMotion
       (zset (events q) i (MkEventRec (Some a) x.1.2 x.2)) (nevents q) (dropped q) (eq_handlers q))
    (<[a := x.1.1]> (lists m)) (next_list m).

Section PutLemmas.
Context (m : queue_mem) (i a : Z) (e : EventRec) (x : queued) (isMotion : Z).
Hypothesis (Hok : queue_ok m) (Hi : znth (events (miEventQueue m)) i = Some e)
           (Ha : er_events e = Some a).

Lemma put_index : 0 <= i < nevents (miEventQueue m).
Proof. rewrite <- (qo_len m Hok). by eapply znth_lt. Qed.

Lemma put_tail :
  i32 (u32 (i + 1) mod nevents (miEventQueue m)) = (i + 1) mod nevents (miEventQueue m).
Proof.
  pose proof (size_bounds m Hok). pose proof put_index. rewrite u32_small by lia.
  apply i32_small. pose proof (Z.mod_pos_bound (i + 1) (nevents (miEventQueue m)) ltac:(lia)). lia.
Qed.

Lemma put_slot_lists :
  slot_lists (miEventQueue (put m i a x isMotion)) = slot_lists (miEventQueue m).
Proof.
  pose proof put_index. unfold slot_lists, put; cbn [miEventQueue events]. unfold zset.
  destruct (Z.ltb_spec i 0); [done|].
  rewrite list_fmap_insert. cbn. apply list_insert_id. rewrite list_lookup_fmap.
  unfold znth in Hi. destruct (Z.ltb_spec i 0); [lia|]. rewrite Hi. cbn. by rewrite Ha.
Qed.

Lemma put_ok : queue_ok (put m i a x isMotion).
Proof.
  pose proof (size_bounds m Hok) as Hb. pose proof put_index as Hr.
  destruct (slot_live m i Hok Hr) as (e' & a' & ev & He' & Ha' & Hev).
  rewrite Hi in He'. injection He' as <-. rewrite Ha in Ha'. injection Ha' as <-.
  split.
  - apply Hok.
  - cbn. rewrite length_zset. apply Hok.
  - apply Hok.
  - cbn [put miEventQueue tail nevents]. rewrite put_tail. apply Z.mod_pos_bound. lia.
  - rewrite put_slot_lists. apply Hok.
  - rewrite put_slot_lists. intros o Ho. destruct (qo_live m Hok o Ho) as (b & -> & Hb').
    exists b. split; [done|]. cbn [put lists]. apply lookup_insert_is_Some'. by right.
  - cbn [put lists next_list]. intros b Hb'. apply lookup_insert_is_Some' in Hb' as [<-|Hb'].
    + apply (qo_next m Hok). by exists ev.
    + by apply (qo_next m Hok).
Qed.

Lemma content_at_put j : 0 <= j < nevents (miEventQueue m) ->
  content_at (put m i a x isMotion) j = if decide (i = j) then Some x else content_at m j.
Proof.
  intros Hj. pose proof put_index as Hr. unfold content_at. cbn [put miEventQueue events lists].
  case_decide as Hd.
  - subst j. rewrite znth_zset_eq by (rewrite (qo_len m Hok); lia). cbn.
    rewrite lookup_insert_eq. cbn. destruct x as [[? ?] ?]. done.
  - rewrite znth_zset_ne by lia.
    destruct (slot_live m j Hok Hj) as (e' & a' & ev & He' & Ha' & Hev). rewrite He'. cbn.
    rewrite Ha'. cbn. rewrite lookup_insert_ne; [done|].
    intros ->. apply Hd. by eapply slot_lists_inj.
Qed.

(** The slots from the head up to [n] are not changed by a write behind them. *)
Lemma content_put_prefix n : 0 <= n < nevents (miEventQueue m) -> i = ring (miEventQueue m) n ->
  (fun k => content_at (put m i a x isMotion) (ring (miEventQueue m) k)) <$> seqZ 0 (n + 1) =
  ((fun k => content_at m (ring (miEventQueue m) k)) <$> seqZ 0 n) ++ [Some x].
Proof.
  intros Hn Hin. rewrite seqZ_app by lia. rewrite fmap_app. f_equal.
  - apply list_fmap_ext. intros k y Hk. apply lookup_seqZ in Hk. cbv beta.
    rewrite (content_at_put (ring (miEventQueue m) y)) by (apply ring_range; lia). rewrite decide_False; [done|].
    rewrite Hin. intros He. apply ring_inj in He; lia.
  - replace (0 + n) with n by lia. rewrite seqZ_cons, seqZ_nil by lia.
    rewrite list_fmap_singleton. f_equal.
    rewrite (content_at_put (ring (miEventQueue m) n)) by (apply ring_range; lia). by rewrite decide_True by done.
Qed.

Lemma num_enqueued_put n : 0 <= n -> n + 1 < nevents (miEventQueue m) ->
  i = ring (miEventQueue m) n ->
  mieqNumEnqueued (miEventQueue (put m i a x isMotion)) = n + 1.
Proof.
  intros Hn Hn1 Hin. pose proof (size_bounds m Hok).
  rewrite num_enqueued_mod; [|done|apply Hok|apply put_ok].
  cbn [put miEventQueue tail head nevents]. rewrite put_tail, Hin. unfold ring.
  rewrite Zplus_mod_idemp_l, Zminus_mod_idemp_l.
  replace (head _ + n + 1 - head _) with (n + 1) by lia. apply Z.mod_small. lia.
Qed.

Lemma content_put n : 0 <= n -> n + 1 < nevents (miEventQueue m) -> i = ring (miEventQueue m) n ->
  content (put m i a x isMotion) =
  ((fun k => content_at m (ring (miEventQueue m) k)) <$> seqZ 0 n) ++ [Some x].
Proof.
  intros Hn Hn1 Hin. unfold content. rewrite (num_enqueued_put n) by done.
  apply content_put_prefix; [lia|done].
Qed.
End PutLemmas.

(** *** Growing *)

Section GrowLemmas.
Implicit Types (m : queue_mem).

Record fresh_part (m m' : queue_mem) (l : list EventRec) : Prop := {
  fp_queue : miEventQueue m' = miEventQueue m;
  fp_old : lists m ⊆ lists m';
  fp_mono : next_list m <= next_list m';
  fp_nodup : NoDup (er_events <$> l);
  fp_slot : forall o, o ∈ er_events <$> l -> exists a, o = Some a /\
    next_list m <= a < next_list m' /\ is_Some (lists m' !! a);
  fp_next : forall a, is_Some (lists m' !! a) -> a < next_list m'
}.

Lemma init_new_spec al n : forall k m l ok m',
  (forall a, is_Some (lists m !! a) -> a < next_list m) ->
  init_new al k n m = (l, ok, m') ->
  fresh_part m m' l /\
  (if ok then length l = n else exists i, (k <= i < k + n)%nat /\ al i 1 = false).
Proof.
  induction n as [|n IH]; intros k m l ok m' Hm Hi; cbn in Hi.
  - injection Hi as <- <- <-. split; [|done]. split; try done; [constructor|].
    intros o Ho. by apply not_elem_of_nil in Ho.
  - unfold InitEventList in Hi. destruct (al k 1) eqn:Hal; cbn in Hi.
    2:{ injection Hi as <- <- <-. split; [|exists k; split; [lia|done]].
        split; try done; [constructor|]. intros o Ho. by apply not_elem_of_nil in Ho. }
    set (m1 := MkQM _ _ _) in Hi.
    destruct (init_new al (S k) n m1) as [[l1 ok1] m2] eqn:Hr. injection Hi as <- <- <-.
    assert (lists m !! next_list m = None) as Hfree.
    { apply eq_None_not_Some. intros Hs. apply Hm in Hs. lia. }
    destruct (IH (S k) m1 l1 ok1 m2) as [[Hq Ho Hmo Hnd Hs Hn] Hok]; [|done|].
    { subst m1. cbn [next_list lists]. intros a Ha.
      apply lookup_insert_is_Some' in Ha as [<-|Ha]; [lia|]. apply Hm in Ha. lia. }
    subst m1. cbn [next_list lists miEventQueue] in *. split.
    + split; [done| |lia| | |done].
      * etrans; [|exact Ho]. by apply insert_subseteq.
      * rewrite fmap_cons. constructor; [|done]. intros Hin. apply Hs in Hin as (b & Hb & Hr1 & _).
        cbn in Hb, Hr1. injection Hb as <-. lia.
      * intros o Hin. rewrite fmap_cons in Hin. apply elem_of_cons in Hin as [->|Hin].
        -- exists (next_list m). split; [done|]. split; [lia|]. eexists.
           eapply lookup_weaken; [|exact Ho]. apply lookup_insert_eq.
        -- destruct (Hs o Hin) as (b & -> & Hr1 & Hb). cbn in Hr1. exists b.
           split; [done|]. split; [lia|done].
    + destruct ok1; [cbn; lia|]. destruct Hok as (i & Hir & Hif). exists i. split; [lia|done].
Qed.

(** The copy of the old array puts the head first. *)
Lemma znth_rotate {A} (l r : list A) h k :
  0 <= h < Z.of_nat (length l) -> 0 <= k < Z.of_nat (length l) ->
  znth ((drop (Z.to_nat h) l ++ take (Z.to_nat h) l) ++ r) k =
  znth l ((h + k) mod Z.of_nat (length l)).
Proof.
  intros Hh Hk. pose proof (Z.mod_pos_bound (h + k) (Z.of_nat (length l)) ltac:(lia)).
  unfold znth. destruct (Z.ltb_spec k 0); [lia|].
  destruct (Z.ltb_spec ((h + k) mod Z.of_nat (length l)) 0); [lia|].
  rewrite lookup_app_l by (rewrite length_app, length_drop, length_take; lia).
  destruct (Z.lt_ge_cases (h + k) (Z.of_nat (length l))).
  - rewrite Z.mod_small by lia. rewrite lookup_app_l by (rewrite length_drop; lia).
    rewrite lookup_drop. f_equal. lia.
  - rewrite <- (Z.mod_add _ (-1)), Z.mod_small by lia.
    rewrite lookup_app_r by (rewrite length_drop; lia). rewrite length_drop.
    rewrite lookup_take_lt by lia. f_equal. lia.
Qed.

Lemma rotate_perm {A} (l : list A) n : drop n l ++ take n l ≡ₚ l.
Proof. rewrite Permutation_app_comm. by rewrite take_drop. Qed.

Lemma elem_of_znth {A} (l : list A) i x : znth l i = Some x -> x ∈ l.
Proof. unfold znth. destruct (i <? 0); [done|]. apply list_elem_of_lookup_2. Qed.

(** The grown queue, given the new portion. *)
Definition grown (m m' : queue_mem) (fresh : list EventRec) (new_nevents : Z) : queue_mem :=
  let q := miEventQueue m in
  m' <| miEventQueue := q <| tail := mieqNumEnqueued q |> <| head := 0 |>
    <| nevents := new_nevents |>
    <| events := (drop (Z.to_nat (head q)) (events q) ++ take (Z.to_nat (head q)) (events q))
                 ++ fresh |> |>.

Lemma grown_ok m m' fresh new_nevents :
  queue_ok m -> fresh_part m m' fresh ->
  nevents (miEventQueue m) < new_nevents ->
  (exists k, 0 <= k <= 30 /\ new_nevents = 2 ^ k) ->
  length fresh = Z.to_nat (new_nevents - nevents (miEventQueue m)) ->
  queue_ok (grown m m' fresh new_nevents).
Proof.
  intros H Hf Hlt Hsize Hlen. pose proof (size_bounds m H). pose proof (num_enqueued_range m H).
  assert (Hold : forall o, o ∈ slot_lists (miEventQueue m) ->
    exists a, o = Some a /\ a < next_list m /\ is_Some (lists m' !! a)).
  { intros o Ho. destruct (qo_live m H o Ho) as (a & -> & Ha). exists a. split; [done|].
    split; [by apply (qo_next m H)|]. destruct Ha as [ev Ha]. exists ev.
    eapply lookup_weaken; [exact Ha|apply Hf]. }
  assert (Hperm : slot_lists (miEventQueue (grown m m' fresh new_nevents)) ≡ₚ
                  slot_lists (miEventQueue m) ++ (er_events <$> fresh)).
  { unfold slot_lists. cbn [grown miEventQueue events set_field]. rewrite fmap_app.
    apply Permutation_app_tail. apply fmap_Permutation, rotate_perm. }
  split.
  - exact Hsize.
  - cbn. rewrite !length_app, length_drop, length_take, Hlen. pose proof (qo_len m H).
    pose proof (qo_head m H). lia.
  - cbn. lia.
  - cbn. lia.
  - rewrite Hperm. apply NoDup_app. split; [apply H|]. split; [|apply Hf].
    intros o Ho Ho'. destruct (Hold o Ho) as (a & -> & Ha & _).
    destruct (fp_slot _ _ _ Hf _ Ho') as (b & [= <-] & Hb & _). lia.
  - intros o. rewrite Hperm. intros [Ho|Ho]%elem_of_app.
    + destruct (Hold o Ho) as (a & ? & _ & ?). by exists a.
    + destruct (fp_slot _ _ _ Hf _ Ho) as (b & ? & _ & ?). by exists b.
  - apply Hf.
Qed.

Lemma grown_num m m' fresh new_nevents :
  queue_ok m -> nevents (miEventQueue m) < new_nevents <= 1073741824 ->
  mieqNumEnqueued (miEventQueue (grown m m' fresh new_nevents)) =
  mieqNumEnqueued (miEventQueue m).
Proof.
  intros H Hn. pose proof (size_bounds m H). pose proof (num_enqueued_range m H).
  rewrite num_enqueued_mod by (cbn; lia). cbn [grown miEventQueue tail head nevents set_field].
  rewrite Z.sub_0_r. apply Z.mod_small. lia.
Qed.

Lemma grown_content m m' fresh new_nevents :
  queue_ok m -> fresh_part m m' fresh -> nevents (miEventQueue m) < new_nevents <= 1073741824 ->
  content (grown m m' fresh new_nevents) = content m.
Proof.
  intros H Hf Hn. unfold content. rewrite grown_num by done. pose proof (num_enqueued_range m H).
  apply list_fmap_ext. intros i k Hk. apply lookup_seqZ in Hk. cbv beta.
  unfold ring at 1. cbn [grown miEventQueue head nevents set_field]. rewrite Z.mod_small by lia.
  replace (0 + k) with k by lia.
  destruct (slot_live m (ring (miEventQueue m) k) H) as (e & a & ev & He & Ha & Hev);
    [apply ring_range; lia|].
  unfold content_at. rewrite He. cbn [grown miEventQueue events lists set_field].
  rewrite znth_rotate by (rewrite (qo_len m H); pose proof (qo_head m H); lia).
  rewrite (qo_len m H). unfold ring in He. rewrite He. cbn. rewrite Ha. cbn.
  rewrite Hev. by rewrite (lookup_weaken _ _ _ _ Hev (fp_old _ _ _ Hf)).
Qed.

(** What growing does with a well-formed queue when it returns. *)
Lemma grow_cases al m new_nevents ok m' :
  queue_ok m -> nevents (miEventQueue m) < new_nevents -> 
  mieqGrowQueue al m new_nevents = Ret (ok, m') ->
  (ok = false /\ al 0%nat (24 * new_nevents) = false /\ m' = m) \/
  (exists fresh m1, fresh_part m m1 fresh /\ ok = true /\
     length fresh = Z.to_nat (new_nevents - nevents (miEventQueue m)) /\
     m' = grown m m1 fresh new_nevents) \/
  (ok = false /\ exists i, al i 1 = false).
Proof.
  intros H Hn. unfold mieqGrowQueue. destruct (Z.leb_spec new_nevents (nevents (miEventQueue m))); [lia|].
  destruct (al 0%nat _) eqn:Hal; cbn [negb]; [|intros [= <- <-]; by left].
  destruct (init_new al 1 _ m) as [[fresh ok1] m1] eqn:Hi.
  apply init_new_spec in Hi as [Hf Hok]; [|apply H].
  destruct ok1; cbn [negb].
  - intros [= <- <-]. right; left. exists fresh, m1. split; [done|]. split; [done|].
    split; [done|]. unfold grown. rewrite i32_small; [done|].
    pose proof (size_bounds m H). pose proof (num_enqueued_range m H). lia.
  - destruct Hok as (i & _ & Hif). intros (m2 & _ & [= <- <-])%obind_Ret. right; right. eauto.
Qed.
End GrowLemmas.

(** *** Enqueueing *)

(** The device id that marks a motion event. *)
Definition motion_of (dev : option (Z * Z * option Z)) (e : InternalEvent) : Z :=
  if ev_type e =? ET_Motion then default 0 ((fun d => d.1.2) <$> dev) else 0.

Definition merges (m : queue_mem) (isMotion : Z) : bool :=
  negb (isMotion =? 0) && (isMotion =? lastMotion (miEventQueue m)) &&
  negb (mieqNumEnqueued (miEventQueue m) =? 0).

(** An event is dropped when the ring is full and the larger array cannot be
    allocated. *)
Definition drops (al : allocator) (m : queue_mem) (isMotion : Z) : bool :=
  negb (merges m isMotion) &&
  (mieqNumEnqueued (miEventQueue m) + 1 =? nevents (miEventQueue m)) &&
  negb (al 0%nat (24 * (2 * nevents (miEventQueue m)))).

Definition queued_of (dev : option (Z * Z * option Z)) (e : InternalEvent) : queued :=
  (e, dev ≫= fun d => d.2, (fun d => d.1.1) <$> dev).

(** A full ring can be doubled without passing 2^30 slots. *)
Definition may_double (m : queue_mem) : Prop :=
  mieqNumEnqueued (miEventQueue m) + 1 = nevents (miEventQueue m) ->
  nevents (miEventQueue m) <= 536870912.

Section EnqueueLemmas.
Implicit Types (m : queue_mem).

Lemma head_tail_empty m : queue_ok m ->
  (u32 (tail (miEventQueue m)) =? u32 (head (miEventQueue m))) =
  (mieqNumEnqueued (miEventQueue m) =? 0).
Proof.
  intros H. pose proof (size_bounds m H) as Hb. pose proof (qo_head m H). pose proof (qo_tail m H).
  rewrite !u32_small by lia.
  assert (0 < nevents (miEventQueue m)) as Hn by lia.
  rewrite num_enqueued_mod by done.
  destruct (Z.eqb_spec (tail (miEventQueue m)) (head (miEventQueue m))) as [->|Hne].
  - by rewrite Z.sub_diag, Z.mod_0_l by lia.
  - symmetry. apply Z.eqb_neq. intros Heq. apply Hne.
    apply Z.mod_divide in Heq as [z Hz]; [|lia]. assert (z = 0) by nia. lia.
Qed.

(** The decrement wraps at 32 bits, which is harmless because the size of the
    ring is a power of two. *)
Lemma last_slot m : queue_ok m -> mieqNumEnqueued (miEventQueue m) <> 0 ->
  u32 (u32 (u32 (tail (miEventQueue m)) - 1) mod nevents (miEventQueue m)) =
  ring (miEventQueue m) (mieqNumEnqueued (miEventQueue m) - 1).
Proof.
  intros H Hn. pose proof (size_bounds m H) as Hb. pose proof (qo_tail m H).
  pose proof (num_enqueued_range m H).
  assert (u32 (u32 (tail (miEventQueue m)) - 1) mod nevents (miEventQueue m) =
          (tail (miEventQueue m) - 1) mod nevents (miEventQueue m)) as ->.
  { rewrite (u32_small (tail _)) by lia. unfold u32.
    destruct (qo_size m H) as (k & Hk & ->).
    apply Z.mod_mod_divide. exists (2 ^ (32 - k)).
    rewrite <- Z.pow_add_r by lia. replace (32 - k + k) with 32 by lia. done. }
  unfold ring at 1. rewrite Z.add_sub_assoc.
  rewrite <- (Zminus_mod_idemp_l (head (miEventQueue m) + _)). fold (ring (miEventQueue m) (mieqNumEnqueued (miEventQueue m))).
  rewrite ring_tail by done.
  apply u32_small. pose proof (Z.mod_pos_bound (tail (miEventQueue m) - 1) (nevents (miEventQueue m))).
  lia.
Qed.

(** Which slot an event goes to: the last one, none, or the next free one of
    the ring, which has been grown when it was full. *)
Lemma enqueue_slot_spec al m isMotion :
  queue_ok m -> may_double m ->
  (forall i, (0 < i)%nat -> al i 1 = true) ->
  exists slot m1, enqueue_slot al m isMotion = Ret (slot, m1) /\ queue_ok m1 /\
    content m1 = content m /\ lastMotion (miEventQueue m1) = lastMotion (miEventQueue m) /\
    lastEventTime (miEventQueue m1) = lastEventTime (miEventQueue m) /\
    dropped (miEventQueue m1) =
      (if drops al m isMotion then u64 (dropped (miEventQueue m) + 1)
       else dropped (miEventQueue m)) /\
    let n := mieqNumEnqueued (miEventQueue m1) in
    slot = (if drops al m isMotion then None
            else if merges m isMotion then Some (ring (miEventQueue m1) (n - 1))
            else Some (ring (miEventQueue m1) n)) /\
    n = mieqNumEnqueued (miEventQueue m) /\
    (drops al m isMotion = false -> merges m isMotion = false -> n + 1 < nevents (miEventQueue m1)).
Proof.
  intros H Hsize Hal. pose proof (size_bounds m H) as Hb. pose proof (num_enqueued_range m H) as Hn.
  unfold enqueue_slot, drops. rewrite head_tail_empty by done. fold (merges m isMotion).
  destruct (merges m isMotion) eqn:Hm; cbn [negb andb].
  { destruct (Z.eqb_spec (nevents (miEventQueue m)) 0); [lia|].
    rewrite last_slot; [|done|unfold merges in Hm; by breflect].
    do 2 eexists. split; [done|]. by do 6 (split; [done|]). }
  destruct (Z.eqb_spec (mieqNumEnqueued (miEventQueue m) + 1) (nevents (miEventQueue m))) as [Hf|Hf];
    cbn [andb].
  2:{ do 2 eexists. split; [done|]. do 5 (split; [done|]). cbv zeta.
      rewrite ring_tail by done. pose proof (qo_tail m H). rewrite u32_small by lia.
      do 2 (split; [done|]). lia. }
  specialize (Hsize Hf).
  assert (u64 (Z.shiftl (nevents (miEventQueue m)) 1) = 2 * nevents (miEventQueue m)) as ->.
  { rewrite Z.shiftl_mul_pow2 by lia. rewrite u64_small by lia. lia. }
  set (N := 2 * nevents (miEventQueue m)).
  unfold mieqGrowQueue. destruct (Z.leb_spec N (nevents (miEventQueue m))); [lia|].
  destruct (al 0%nat (24 * N)) eqn:Hal0; cbn [negb obind].
  2:{ do 2 eexists. split; [done|]. split; [destruct H; by constructor|]. done. }
  destruct (init_new al 1 _ m) as [[fresh ok1] m1] eqn:Hi.
  apply init_new_spec in Hi as [Hfp Hok]; [|apply H]. destruct ok1; cbn [negb obind].
  2:{ destruct Hok as (i & Hir & Hif). rewrite Hal in Hif by lia. done. }
  rewrite (i32_small (mieqNumEnqueued _)) by lia.
  fold (grown m m1 fresh N). change (_ <| miEventQueue := _ |>) with (grown m m1 fresh N).
  assert (HN : nevents (miEventQueue m) < N <= 1073741824) by lia.
  assert (Hg : queue_ok (grown m m1 fresh N)).
  { apply grown_ok; try done. destruct (qo_size m H) as (k & Hk & He). exists (k + 1).
    split; [|unfold N; rewrite He, Z.pow_add_r by lia; lia]. split; [lia|].
    destruct (Z.le_gt_cases (k + 1) 30); [done|]. assert (k = 30) as -> by lia.
    rewrite He in Hsize. done. }
  do 2 eexists. split; [done|]. split; [exact Hg|]. rewrite grown_content, grown_num by done.
  do 4 (split; [done|]). cbv zeta. split; [|split; [done|]].
  - rewrite <- (grown_num m m1 fresh N H HN), ring_tail by done. f_equal.
    apply u32_small. cbn. lia.
  - intros _ _. cbn [grown miEventQueue nevents set_field]. lia.
Qed.
End EnqueueLemmas.

Section EnqueueSpec.
Implicit Types (m : queue_mem).

Lemma merges_content m isMotion : queue_ok m ->
  merges m isMotion = negb (isMotion =? 0) && (isMotion =? lastMotion (miEventQueue m)) &&
                      negb (Nat.eqb (length (content m)) 0).
Proof.
  intros H. unfold merges. f_equal. f_equal. rewrite length_content by done.
  pose proof (num_enqueued_range m H).
  destruct (Z.eqb_spec (mieqNumEnqueued (miEventQueue m)) 0) as [->|]; [done|].
  symmetry. apply Nat.eqb_neq. lia.
Qed.

(** The queue's state after [mieqEnqueue] in terms of the slot it used. *)
Lemma enqueue_put al m dev e :
  queue_ok m -> may_double m ->
  (ev_type e = ET_Motion -> is_Some dev) -> (forall i, (0 < i)%nat -> al i 1 = true) ->
  drops al m (motion_of dev e) = false ->
  exists m1 i rec a e',
    queue_ok m1 /\ content m1 = content m /\
    dropped (miEventQueue m1) = dropped (miEventQueue m) /\
    i = ring (miEventQueue m1) (mieqNumEnqueued (miEventQueue m) -
          (if merges m (motion_of dev e) then 1 else 0)) /\
    mieqNumEnqueued (miEventQueue m1) = mieqNumEnqueued (miEventQueue m) /\
    (merges m (motion_of dev e) = false ->
     mieqNumEnqueued (miEventQueue m) + 1 < nevents (miEventQueue m1)) /\
    znth (events (miEventQueue m1)) i = Some rec /\ er_events rec = Some a /\
    e' = (if (ev_time e <? lastEventTime (miEventQueue m)) &&
             (u32 (lastEventTime (miEventQueue m) - ev_time e) <? 10000)
          then e <| ev_time := lastEventTime (miEventQueue m) |> else e) /\
    mieqEnqueue al m dev e = Ret (e', put m1 i a (queued_of dev e) (motion_of dev e)).
Proof.
  intros H Hsize Hdev Hal Hd.
  destruct (enqueue_slot_spec al m (motion_of dev e) H Hsize Hal)
    as (slot & m1 & Hs & Hok & Hc & Hlm & Ht & Hdr & Hslot & Hnum & Hroom).
  rewrite Hd in *. specialize (Hroom eq_refl).
  exists m1. set (i := ring (miEventQueue m1) _). exists i.
  assert (0 <= i < nevents (miEventQueue m1)) as Hi.
  { apply ring_range. pose proof (size_bounds m1 Hok). lia. }
  destruct (slot_live m1 i Hok Hi) as (rec & a & ev & Hrec & Ha & Hev).
  assert (slot = Some i) as ->.
  { rewrite Hslot. unfold i. rewrite Hnum. destruct (merges m _); do 2 f_equal; lia. }
  exists rec, a. eexists. do 5 (split; [done|]). rewrite Hnum in Hroom. split; [done|].
  do 2 (split; [done|]). split; [reflexivity|].
  unfold mieqEnqueue.
  replace (if ev_type e =? ET_Motion then (fun d => d.1.2) <$> dev else Some 0)
    with (Some (motion_of dev e)).
  2:{ unfold motion_of. destruct (Z.eqb_spec (ev_type e) ET_Motion) as [Hm|]; [|done].
      destruct (Hdev Hm) as [d ->]. done. }
  cbn [obind_opt]. rewrite Hs. cbn [obind]. rewrite Hrec. cbn [obind_opt]. rewrite Ha.
  cbn [obind_opt]. rewrite Hev, <- Ht. reflexivity.
Qed.

(** What [mieqEnqueue] does with the queue, on both branches. *)
Lemma enqueue_spec al m dev e :
  queue_ok m -> may_double m ->
  (ev_type e = ET_Motion -> is_Some dev) -> (forall i, (0 < i)%nat -> al i 1 = true) ->
  exists e' m', mieqEnqueue al m dev e = Ret (e', m') /\ queue_ok m' /\
    if drops al m (motion_of dev e)
    then content m' = content m /\ lastMotion (miEventQueue m') = lastMotion (miEventQueue m) /\
         dropped (miEventQueue m') = u64 (dropped (miEventQueue m) + 1)
    else content m' = spec_enqueue (lastMotion (miEventQueue m)) (motion_of dev e)
                        (content m) (queued_of dev e) /\
         lastMotion (miEventQueue m') = motion_of dev e /\
         dropped (miEventQueue m') = dropped (miEventQueue m).
Proof.
  intros H Hsize Hdev Hal. destruct (drops al m (motion_of dev e)) eqn:Hd.
  - destruct (enqueue_slot_spec al m (motion_of dev e) H Hsize Hal)
      as (slot & m1 & Hs & Hok & Hc & Hlm & _ & Hdr & Hslot & _). rewrite Hd in Hdr, Hslot. subst slot.
    exists e, m1. split; [|done]. unfold mieqEnqueue.
    replace (if ev_type e =? ET_Motion then (fun d => d.1.2) <$> dev else Some 0)
      with (Some (motion_of dev e)).
    2:{ unfold motion_of. destruct (Z.eqb_spec (ev_type e) ET_Motion) as [Hm|]; [|done].
        destruct (Hdev Hm) as [d ->]. done. }
    cbn [obind_opt]. by rewrite Hs.
  - destruct (enqueue_put al m dev e H Hsize Hdev Hal Hd)
      as (m1 & i & rec & a & e' & Hok & Hc & Hdr & Hi & Hnum & Hroom & Hrec & Ha & _ & Hput).
    exists e', (put m1 i a (queued_of dev e) (motion_of dev e)). split; [done|].
    split; [by eapply put_ok|]. split; [|done].
    pose proof (num_enqueued_range m1 Hok) as Hr. rewrite Hnum in Hr.
    unfold spec_enqueue. rewrite <- merges_content by done. rewrite <- Hc.
    destruct (merges m (motion_of dev e)) eqn:Hm.
    + assert (mieqNumEnqueued (miEventQueue m) <> 0) as Hnz.
      { unfold merges in Hm. by breflect. }
      rewrite (content_put m1 i a rec _ _ Hok Hrec Ha (mieqNumEnqueued (miEventQueue m) - 1)) by (lia || done).
      f_equal. unfold content. rewrite Hnum.
      replace (mieqNumEnqueued (miEventQueue m)) with (mieqNumEnqueued (miEventQueue m) - 1 + 1) at 2 by lia.
      rewrite seqZ_app by lia. rewrite fmap_app, (seqZ_cons _ 1), (seqZ_nil _ (Z.pred 1)) by lia.
      rewrite list_fmap_singleton. by rewrite removelast_last.
    + rewrite Z.sub_0_r in Hi.
      rewrite (content_put m1 i a rec _ _ Hok Hrec Ha (mieqNumEnqueued (miEventQueue m))) by (lia || by auto).
      f_equal. unfold content. by rewrite Hnum.
Qed.

(** C26: Enqueueing implements the queue.  Given a well-formed ring that can be
    doubled (at most 2^29 slots) and memory for the single event lists of a
    grown ring (that of its array may be refused), the event, with the screen
    and the device it came from, is appended, or replaces the last event when
    both are motion events of one device; the order and the rest of the content
    stay, also when the ring wraps or is grown.  Only when the ring is full and
    the larger array cannot be allocated is the event dropped, and counted.  The
    ring stays well-formed. *)
Theorem mieqEnqueue_refines al m dev e :
  queue_ok m -> nevents (miEventQueue m) <= 536870912 ->
  (ev_type e = ET_Motion -> is_Some dev) -> (forall i, (0 < i)%nat -> al i 1 = true) ->
  exists e' m', mieqEnqueue al m dev e = Ret (e', m') /\ queue_ok m' /\
    if drops al m (motion_of dev e)
    then content m' = content m /\
         dropped (miEventQueue m') = u64 (dropped (miEventQueue m) + 1)
    else content m' = spec_enqueue (lastMotion (miEventQueue m)) (motion_of dev e)
                        (content m) (queued_of dev e) /\
         lastMotion (miEventQueue m') = motion_of dev e /\
         dropped (miEventQueue m') = dropped (miEventQueue m).
Proof.
  intros H Hsize Hdev Hal.
  destruct (enqueue_spec al m dev e H ltac:(by intros _) Hdev Hal) as (e' & m' & He & Hok & Hc).
  exists e', m'. do 2 (split; [done|]). destruct (drops _ _ _); naive_solver.
Qed.
End EnqueueSpec.

(** A ring of four slots that is full and wraps, with a motion event of
    device 7 last. *)
Definition sample_event (t time : Z) : InternalEvent := MkEv t time 7 1 0 10 20 0 [].
Definition sample_ring : queue_mem :=
  MkQM (MkEQ 3 2 1000 7
          [MkEventRec (Some 10) (Some 1) (Some 70); MkEventRec (Some 11) (Some 1) (Some 70);
           MkEventRec (Some 12) None None; MkEventRec (Some 13) (Some 1) (Some 70)]
          4 0 (replicate 128 None))
       (list_to_map [(10, sample_event ET_KeyRelease 900); (11, sample_event ET_Motion 1000);
                     (12, sample_event 0 0); (13, sample_event ET_KeyPress 800)]) 14.
Definition sample_dev : option (Z * Z * option Z) := Some (70, 7, Some 1).

Lemma sample_ring_ok : queue_ok sample_ring.
Proof.
  split; try (vm_compute; intuition congruence).
  - exists 2. split; [lia|done].
  - apply (bool_decide_unpack _). by vm_compute.
  - apply Forall_forall.
    repeat (constructor; [eexists; split; [reflexivity|vm_compute; by eexists]|]). constructor.
  - intros a [ev Ha]. assert (Forall (fun p => p.1 < 14) (map_to_list (lists sample_ring))) as Hf.
    { apply (bool_decide_unpack _). by vm_compute. }
    rewrite Forall_forall in Hf. apply (Hf (a, ev)). by apply elem_of_map_to_list.
Qed.

Lemma mieqEnqueue_refines_witness :
  exists e' m', mieqEnqueue always sample_ring sample_dev (sample_event ET_ButtonPress 1001)
    = Ret (e', m') /\ queue_ok m' /\
    content m' = content sample_ring ++
      [Some (sample_event ET_ButtonPress 1001, Some 1, Some 70)] /\
    nevents (miEventQueue m') = 8.
Proof.
  pose proof (mieqEnqueue_refines always sample_ring sample_dev (sample_event ET_ButtonPress 1001)
    sample_ring_ok ltac:(vm_compute; congruence) ltac:(done) ltac:(done)) as (e' & m' & He & Hok & Hc).
  replace (drops _ _ _) with false in Hc by by vm_compute. destruct Hc as [Hc _].
  exists e', m'. split; [exact He|]. split; [exact Hok|]. split.
  - rewrite Hc. by vm_compute.
  - vm_compute in He. by injection He as <- <-.
Defined.

(** The clamp that should keep event times from going backwards changes
    the caller's event after it was copied: the copy in the queue keeps the
    earlier time, and so does [lastEventTime]. *)
Theorem mieqEnqueue_time_not_clamped al m dev e :
  queue_ok m -> nevents (miEventQueue m) <= 536870912 ->
  (ev_type e = ET_Motion -> is_Some dev) -> (forall i, (0 < i)%nat -> al i 1 = true) ->
  drops al m (motion_of dev e) = false ->
  0 <= ev_time e < lastEventTime (miEventQueue m) ->
  lastEventTime (miEventQueue m) < 4294967296 ->
  lastEventTime (miEventQueue m) - ev_time e < 10000 ->
  exists e' m', mieqEnqueue al m dev e = Ret (e', m') /\
    ev_time e' = lastEventTime (miEventQueue m) /\
    (exists a i, znth (events (miEventQueue m')) i = Some (MkEventRec (Some a) (queued_of dev e).1.2 (queued_of dev e).2) /\
       (lists m' !! a) = Some e) /\
    lastEventTime (miEventQueue m') = ev_time e.
Proof.
  intros H Hsize Hdev Hal Hd Ht Hlast Hclose.
  destruct (enqueue_put al m dev e H ltac:(by intros _) Hdev Hal Hd)
    as (m1 & i & rec & a & e' & Hok & _ & _ & _ & _ & _ & Hrec & Ha & He' & Hput).
  exists e', (put m1 i a (queued_of dev e) (motion_of dev e)). split; [done|].
  split; [|split].
  - rewrite He'. destruct (Z.ltb_spec (ev_time e) (lastEventTime (miEventQueue m))); [|lia].
    rewrite u32_small by lia.
    destruct (Z.ltb_spec (lastEventTime (miEventQueue m) - ev_time e) 10000); [done|lia].
  - exists a, i. cbn [put miEventQueue events lists]. rewrite lookup_insert_eq. split; [|done].
    apply znth_zset_eq. by eapply znth_lt.
  - cbn [put miEventQueue lastEventTime]. apply u32_small. cbn. lia.
Qed.

Lemma mieqEnqueue_time_not_clamped_witness :
  exists e' m', mieqEnqueue always sample_ring sample_dev (sample_event ET_KeyPress 950)
    = Ret (e', m') /\ ev_time e' = 1000 /\ lastEventTime (miEventQueue m') = 950.
Proof.
  pose proof (mieqEnqueue_time_not_clamped always sample_ring sample_dev
    (sample_event ET_KeyPress 950) sample_ring_ok ltac:(vm_compute; congruence) ltac:(done) ltac:(done)
    ltac:(by vm_compute) ltac:(by vm_compute) ltac:(by vm_compute) ltac:(by vm_compute))
    as (e' & m' & He & Ht & _ & Hl).
  exists e', m'. exact (conj He (conj Ht Hl)).
Defined.

(** *** When an event list of the new portion cannot be allocated *)

Section GrowFailure.
Implicit Types (m : queue_mem).

Lemma free_lists_spec l : forall m,
  NoDup (er_events <$> l) ->
  (forall o, o ∈ er_events <$> l -> exists a, o = Some a /\ is_Some (lists m !! a)) ->
  exists m', free_lists m l = Ret m' /\ miEventQueue m' = miEventQueue m /\
    forall a, Some a ∈ er_events <$> l -> lists m' !! a = None.
Proof.
  induction l as [|e l IH]; intros m Hnd Hl.
  - exists m. split; [done|]. split; [done|]. intros a Ha. by apply not_elem_of_nil in Ha.
  - rewrite fmap_cons in *. apply NoDup_cons in Hnd as [Hni Hnd].
    destruct (Hl (er_events e)) as (a & Ha & [ev Hev]); [left|].
    cbn [free_lists]. rewrite Ha. cbn [FreeEventList]. rewrite Hev. cbn [obind].
    destruct (IH (m <| lists ::= delete a |>)) as (m' & Hf & Hq & Hgone); [done| |].
    { intros o Ho. destruct (Hl o) as (b & -> & Hb); [by right|]. exists b. split; [done|].
      cbn. rewrite lookup_delete_ne; [done|]. intros ->. rewrite Ha in Hni. done. }
    exists m'. split; [done|]. split; [done|]. intros b [Hb|Hb]%elem_of_cons; [|by apply Hgone].
    assert (b = a) as -> by congruence.
    assert (forall l m m' a, lists m !! a = None -> free_lists m l = Ret m' -> lists m' !! a = None)
      as Hkeep; [|eapply (Hkeep l); [|exact Hf]; cbn; apply lookup_delete_eq].
    clear. intros l. induction l as [|e l IH]; intros m m' a Ha Hf; cbn in Hf; [by injection Hf as <-|].
    apply obind_Ret in Hf as (m1 & H1 & Hf). eapply IH; [|exact Hf].
    unfold FreeEventList in H1. destruct (er_events e) as [b|]; [|by injection H1 as <-].
    destruct (lists m !! b); [|done]. injection H1 as <-. cbn. apply lookup_delete_None. by right.
Qed.

(** When the array for a full ring is obtained but an event list of its new
    portion is not, the clean-up frees the lists that the live ring still
    points to: every slot then refers to freed memory, although the queue is
    kept and the event is only reported as dropped. *)
Theorem mieqGrowQueue_failure_frees_live al m :
  queue_ok m -> nevents (miEventQueue m) <= 536870912 ->
  let N := 2 * nevents (miEventQueue m) in
  al 0%nat (24 * N) = true -> al 1%nat 1 = false ->
  exists m', mieqGrowQueue al m N = Ret (false, m') /\
    miEventQueue m' = miEventQueue m /\
    forall i, 0 <= i < nevents (miEventQueue m) -> content_at m i <> None /\ content_at m' i = None.
Proof.
  intros H Hsize N H0 H1. pose proof (size_bounds m H). unfold mieqGrowQueue.
  destruct (Z.leb_spec N (nevents (miEventQueue m))); [lia|]. rewrite H0. cbn [negb].
  destruct (Z.to_nat (N - nevents (miEventQueue m))) as [|n] eqn:Hn; [lia|].
  cbn [init_new]. unfold InitEventList. rewrite H1. cbn [negb].
  set (old := drop _ _ ++ take _ _). rewrite app_nil_r.
  assert (Hperm : er_events <$> old ≡ₚ slot_lists (miEventQueue m)).
  { unfold slot_lists, old. apply fmap_Permutation, rotate_perm. }
  destruct (free_lists_spec old m) as (m' & Hf & Hq & Hgone).
  { rewrite Hperm. apply H. }
  { intros o. rewrite Hperm. apply H. }
  rewrite Hf. cbn [obind]. exists m'. split; [done|]. split; [done|]. intros i Hi.
  destruct (slot_live m i H Hi) as (e & a & ev & He & Ha & Hev). unfold content_at.
  rewrite Hq, He. cbn. rewrite Ha. cbn. rewrite Hev. split; [done|].
  rewrite Hgone; [done|]. rewrite Hperm. unfold slot_lists. rewrite <- Ha.
  apply list_elem_of_fmap_2. by eapply elem_of_znth.
Qed.

Lemma mieqGrowQueue_failure_frees_live_witness :
  let al : allocator := fun k _ => Nat.eqb k 0 in
  exists m', mieqGrowQueue al sample_ring 8 = Ret (false, m') /\
    content_at sample_ring 3 <> None /\ content_at m' 3 = None.
Proof.
  intros al.
  pose proof (mieqGrowQueue_failure_frees_live al sample_ring sample_ring_ok
    ltac:(by vm_compute) ltac:(by vm_compute) ltac:(by vm_compute)) as (m' & Hg & _ & Hc).
  exists m'. split; [exact Hg|]. exact (Hc 3 ltac:(vm_compute; intuition congruence)).
Defined.
End GrowFailure.

(** ** Processing *)

(** The part of the queue that is the ring. *)
Definition same_ring (m m' : queue_mem) : Prop :=
  head (miEventQueue m) = head (miEventQueue m') /\
  tail (miEventQueue m) = tail (miEventQueue m') /\
  nevents (miEventQueue m) = nevents (miEventQueue m') /\
  events (miEventQueue m) = events (miEventQueue m') /\
  lists m = lists m' /\ next_list m = next_list m'.

#[export] Instance same_ring_equiv : Equivalence same_ring.
Proof.
  split; unfold same_ring.
  - done.
  - intros m m' H. intuition congruence.
  - intros m1 m2 m3 H1 H2. intuition congruence.
Qed.

#[export] Instance queue_ok_proper : Proper (same_ring ==> impl) queue_ok.
Proof.
  intros m m' (Hh & Ht & Hn & He & Hl & Hx) [H1 H2 H3 H4 H5 H6 H7]. unfold slot_lists in *.
  split; unfold slot_lists; rewrite <- ?Hh, <- ?Ht, <- ?Hn, <- ?He, <- ?Hl, <- ?Hx; done.
Qed.

#[export] Instance content_proper : Proper (same_ring ==> eq) content.
Proof.
  intros m m' (Hh & Ht & Hn & He & Hl & Hx). unfold content, mieqNumEnqueued, content_at, ring.
  by rewrite Hh, Ht, Hn, He, Hl.
Qed.

(** One thing that happens to the queue: the main thread takes an event out,
    or an event is put in with the mark of a motion event, or it is lost
    because a full ring cannot be grown. *)
Inductive queue_op :=
  Take (x : queued) | Put (isMotion : Z) (x : queued) | Lost (x : queued).

(** The queue's promise: its content and the mark of the last event, before
    and after these operations. *)
Inductive queue_trace : list queue_op -> list (option queued) * Z -> list (option queued) * Z -> Prop :=
| trace_nil s : queue_trace [] s s
| trace_take x l last ops s :
    queue_trace ops (l, last) s -> queue_trace (Take x :: ops) (Some x :: l, last) s
| trace_put isMotion x l last ops s :
    queue_trace ops (spec_enqueue last isMotion l x, isMotion) s ->
    queue_trace (Put isMotion x :: ops) (l, last) s
| trace_lost x l last ops s :
    queue_trace ops (l, last) s -> queue_trace (Lost x :: ops) (l, last) s.

Lemma queue_trace_app ops ops' s1 s2 s3 :
  queue_trace ops s1 s2 -> queue_trace ops' s2 s3 -> queue_trace (ops ++ ops') s1 s3.
Proof. induction 1; cbn; eauto using queue_trace. Qed.

(** What happens to the queue while the input lock is released: any number of
    calls of [mieqEnqueue] from this or other threads; what is not the ring (the
    handlers, the count of lost events) may change in between. *)
Definition enqueue_op (al : allocator) (m : queue_mem) dev e : queue_op :=
  if drops al m (motion_of dev e) then Lost (queued_of dev e)
  else Put (motion_of dev e) (queued_of dev e).

Inductive ring_use : list queue_op -> queue_mem -> queue_mem -> Prop :=
| use_nil m : ring_use [] m m
| use_other ops m m1 m' :
    same_ring m m1 -> lastMotion (miEventQueue m) = lastMotion (miEventQueue m1) ->
    ring_use ops m1 m' -> ring_use ops m m'
| use_enqueue al dev e e' ops m m1 m' :
    (ev_type e = ET_Motion -> is_Some dev) -> (forall i, (0 < i)%nat -> al i 1 = true) ->
    mieqEnqueue al m dev e = Ret (e', m1) -> ring_use ops m1 m' ->
    ring_use (enqueue_op al m dev e :: ops) m m'.

Lemma ring_use_app ops ops' m1 m2 m3 :
  ring_use ops m1 m2 -> ring_use ops' m2 m3 -> ring_use (ops ++ ops') m1 m3.
Proof. induction 1; cbn; eauto using ring_use. Qed.

(** Below 2^29 events the ring keeps well-formed, its content follows the
    operations, and grows by one event per operation at most. *)
Lemma ring_use_spec ops m m' : ring_use ops m m' ->
  queue_ok m -> Z.of_nat (length (content m) + length ops) < 536870912 ->
  queue_ok m' /\
  queue_trace ops (content m, lastMotion (miEventQueue m)) (content m', lastMotion (miEventQueue m')) /\
  (length (content m') <= length (content m) + length ops)%nat.
Proof.
  induction 1 as [m|ops m m1 m' Hs Hl _ IH|al dev e e' ops m m1 m' Hdev Hal He _ IH];
    intros Hok Hlen.
  - split; [done|]. split; [constructor|lia].
  - assert (queue_ok m1) as Hok1 by by rewrite <- Hs. assert (content m = content m1) as Hc by by rewrite Hs.
    rewrite Hc in Hlen |- *. rewrite Hl. by apply IH.
  - assert (may_double m) as Hm.
    { intros Hf. rewrite length_content in Hlen by done. pose proof (num_enqueued_range m Hok).
      cbn [length] in Hlen. lia. }
    destruct (enqueue_spec al m dev e Hok Hm Hdev Hal) as (e2 & m2 & He2 & Hok1 & Hc).
    rewrite He in He2. injection He2 as <- <-. unfold enqueue_op. cbn [length] in Hlen |- *.
    assert ((length (content m1) <= length (content m) + 1)%nat) as Hl1.
    { destruct (drops _ _ _); destruct Hc as [-> _]; [lia|]. unfold spec_enqueue.
      case_match; rewrite length_app; cbn; [|lia].
      pose proof (removelast_length_le (content m)). lia. }
    destruct (IH Hok1 ltac:(lia)) as (Hok' & Htr & Hl'). split; [done|]. split; [|lia].
    destruct (drops _ _ _); destruct Hc as (Hc & Hlm & _); rewrite Hc, Hlm in Htr; by constructor.
Qed.

(** The called code may enqueue events, [coming] more at most in the world it
    is in; it may set handlers, change devices and everything else, but does not
    itself take events out. *)
Section Uses.
Context {W : Type} (coming : W -> nat).
Notation server := (cb_state (mi_state W)).

Definition uses (st st' : server) : Prop :=
  exists ops, ring_use ops (queue_of st) (queue_of st') /\
    (length ops + coming (mi_world (cs_world st')) <= coming (mi_world (cs_world st)))%nat.

#[export] Instance uses_preorder : PreOrder uses.
Proof.
  split.
  - intros st. exists []. split; [constructor|done].
  - intros s1 s2 s3 (l1 & H1 & Hn1) (l2 & H2 & Hn2). exists (l1 ++ l2).
    split; [by eapply ring_use_app|]. rewrite length_app. lia.
Qed.

Lemma uses_same st st' :
  queue_of st = queue_of st' ->
  coming (mi_world (cs_world st)) = coming (mi_world (cs_world st')) -> uses st st'.
Proof. intros Hq Hw. exists []. rewrite Hq, Hw. split; [constructor|done]. Qed.

Class feeding_env (E : mi_env W) := {
  feed_handler : forall h n e d st, uses st (handler_call h n e d st).2;
  feed_input : forall p e d st, uses st (processInputProc p e d st).2;
  feed_screen : forall d s x y st, uses st (NewCurrentScreen d s x y st);
  feed_sprite : forall d st, uses st (miPointerUpdateSprite d st);
  feed_saver : forall st, uses st (dixSaveScreensOff st);
  feed_timer : forall st, uses st (SetScreenSaverTimer st);
  feed_dpms : forall st, uses st (DPMSSetOn st)
}.
End Uses.

(** Opens a chain of [<--] that returned. *)
Ltac inv_ret :=
  repeat match goal with
  | H : obind _ _ = Ret _ |- _ => apply obind_Ret in H as (? & ? & H)
  | H : obind_opt ?o _ = Ret _ |- _ => destruct o eqn:?; [cbn [obind_opt] in H|discriminate H]
  | H : Ret _ = Ret _ |- _ => injection H as H; subst
  | H : (if ?b then _ else _) = Ret _ |- _ => destruct b eqn:?
  | H : (let '(_, _) := ?x in _) = Ret _ |- _ => destruct x eqn:?
  | H : match ?x with Some _ => _ | None => _ end = Ret _ |- _ => destruct x eqn:?
  end; simplify_eq.

Section Fifo.
Context {W : Type} (dga : bool) {E : mi_env W} (coming : W -> nat) {F : feeding_env coming E}.
Notation server := (cb_state (mi_state W)).
Implicit Types (st : server).

Lemma feed_move dev screen e st st' :
  mieqMoveToNewScreen dev screen e st = Ret st' -> uses coming st st'.
Proof.
  unfold mieqMoveToNewScreen. intros H. destruct dev, screen; try (injection H as <-; reflexivity).
  apply obind_Ret in H as ([a sp] & _ & H). case_bool_decide; injection H as <-; [reflexivity|].
  etrans; [|apply (feed_screen coming)]. by apply uses_same.
Qed.

Lemma feed_post dev e screen st e' st' :
  mieqProcessDeviceEvent dga dev e screen st = Ret (e', st') ->
  uses coming st st'.
Proof.
  unfold mieqProcessDeviceEvent. intros H.
  apply obind_Ret in H as (en & _ & H). destruct (negb en); [injection H as <- <-; reflexivity|].
  destruct (znth _ (ev_type e)) as [h|]; [cbn [obind_opt] in H|done].
  apply obind_Ret in H as (st1 & H1 & H). apply obind_Ret in H as (ma & _ & H).
  assert (Hq1 : uses coming st st1).
  { destruct (bool_decide _ && _); [by eapply feed_move|injection H1 as <-; reflexivity]. }
  set (st2 := match ma with Some (m, _) => on_mi _ st1 | None => st1 end) in H.
  assert (Hq2 : uses coming st st2).
  { unfold st2. destruct ma as [[m me]|]; [|done]. etrans; [exact Hq1|]. by apply uses_same. }
  clearbody st2. clear st1 H1 Hq1. destruct h as [h|].
  - apply obind_Ret in H as (num & _ & H).
    destruct (handler_call h num e dev st2) as [e1 st3] eqn:Hh.
    pose proof (feed_handler coming h num e dev st2) as Hq3. rewrite Hh in Hq3.
    apply obind_Ret in H as (st4 & H4 & H). injection H as <- <-.
    etrans; [exact Hq2|]. etrans; [exact Hq3|]. unfold post_master in H4.
    destruct ma as [[m me]|]; [|injection H4 as <-; reflexivity].
    destruct dev as [dev|]; [cbn [obind_opt] in H4|done].
    apply obind_Ret in H4 as ([] & _ & H4); injection H4 as <-; [reflexivity|]. apply (feed_handler coming).
  - destruct dev as [dev|]; [cbn [obind_opt] in H|done].
    destruct (devices _ !! dev) as [d|]; [cbn [obind_opt] in H|done].
    destruct (processInputProc _ e dev st2) as [e1 st3] eqn:Hh.
    pose proof (feed_input coming (dv_processInputProc d) e dev st2) as Hq3. rewrite Hh in Hq3.
    etrans; [exact Hq2|]. etrans; [exact Hq3|].
    destruct ma as [[m me]|]; [|injection H as <- <-; reflexivity].
    apply obind_Ret in H as ([] & _ & H); [injection H as <- <-; reflexivity|].
    destruct (devices _ !! m) as [md|]; [cbn [obind_opt] in H|done].
    injection H as <- <-. apply (feed_input coming).
Qed.

Lemma feed_wake st : uses coming st (wake_screen st).
Proof.
  unfold wake_screen.
  assert (uses coming st (if screenIsSaved st then dixSaveScreensOff st
    else if DPMSExtension && negb (dpms_on st) then SetScreenSaverTimer st else st)) as H1.
  { case_match; [apply (feed_saver coming)|]. case_match; [apply (feed_timer coming)|reflexivity]. }
  revert H1. generalize (if screenIsSaved st then dixSaveScreensOff st
    else if DPMSExtension && negb (dpms_on st) then SetScreenSaverTimer st else st) as st1.
  intros st1 H1. case_match; [|exact H1]. etrans; [exact H1|apply (feed_dpms coming)].
Qed.

Lemma feed_one x st st' :
  process_one dga x st = Ret st' -> uses coming st st'.
Proof.
  destruct x as [[e screen] dev]. unfold process_one. intros H.
  apply obind_Ret in H as (ma & _ & H).
  apply obind_Ret in H as ([e' st3] & H3 & H). apply feed_post in H3.
  etrans; [apply feed_wake|]. etrans; [exact H3|]. injection H as <-.
  destruct (bool_decide _ && _); [apply (feed_sprite coming)|reflexivity].
Qed.

(** Taking the first event out of the ring. *)
Definition pop (m : queue_mem) : queue_mem :=
  m <| miEventQueue ::= fun q => q <| head := i32 ((head q + 1) mod nevents q) |> |>.
Definition advance st : server := on_mi (fun s => s <| qm ::= pop |>) st.

(** The event at the head. *)
Definition head_event st : option queued := mjoin (hd_error (content (queue_of st))).

Lemma pop_ok m : queue_ok m -> queue_ok (pop m).
Proof.
  intros H. pose proof (size_bounds m H). pose proof (qo_head m H).
  pose proof (Z.mod_pos_bound (head (miEventQueue m) + 1) (nevents (miEventQueue m)) ltac:(lia)).
  destruct H. split; try done. cbn. rewrite i32_small; lia.
Qed.

Lemma content_pop m : queue_ok m -> head (miEventQueue m) <> tail (miEventQueue m) ->
  content m = content_at m (head (miEventQueue m)) :: content (pop m).
Proof.
  intros H Hne. pose proof (size_bounds m H) as Hb. pose proof (qo_head m H). pose proof (qo_tail m H).
  pose proof (num_enqueued_range m H) as Hr.
  assert (mieqNumEnqueued (miEventQueue m) <> 0) as Hnz.
  { intros Hz. pose proof (head_tail_empty m H) as He. rewrite Hz, !u32_small in He by lia.
    cbn in He. apply Z.eqb_eq in He. congruence. }
  assert (Hh : head (miEventQueue (pop m)) = (head (miEventQueue m) + 1) mod nevents (miEventQueue m)).
  { cbn. apply i32_small.
    pose proof (Z.mod_pos_bound (head (miEventQueue m) + 1) (nevents (miEventQueue m)) ltac:(lia)). lia. }
  assert (Hn : mieqNumEnqueued (miEventQueue (pop m)) = mieqNumEnqueued (miEventQueue m) - 1).
  { rewrite num_enqueued_mod by (apply (pop_ok m H) || done). rewrite Hh.
    change (tail (miEventQueue (pop m))) with (tail (miEventQueue m)).
    change (nevents (miEventQueue (pop m))) with (nevents (miEventQueue m)).
    rewrite Zminus_mod_idemp_r. rewrite num_enqueued_mod in Hr, Hnz |- * by done.
    rewrite Z.sub_add_distr, <- (Zminus_mod_idemp_l (tail _ - head _)). apply Z.mod_small. lia. }
  unfold content. rewrite Hn.
  rewrite (seqZ_cons 0 (mieqNumEnqueued (miEventQueue m))) by lia. rewrite fmap_cons. f_equal.
  - unfold ring. rewrite Z.add_0_r, Z.mod_small by lia. done.
  - change (Z.succ 0) with 1. replace (Z.pred (mieqNumEnqueued (miEventQueue m)))
      with (mieqNumEnqueued (miEventQueue m) - 1) by lia.
    replace (seqZ 1 (mieqNumEnqueued (miEventQueue m) - 1))
      with (Z.add 1 <$> seqZ 0 (mieqNumEnqueued (miEventQueue m) - 1)) by apply fmap_add_seqZ.
    rewrite <- list_fmap_compose. apply list_fmap_ext. intros i k _. cbn [compose].
    change (content_at (pop m)) with (content_at m). f_equal. unfold ring. rewrite Hh.
    change (nevents (miEventQueue (pop m))) with (nevents (miEventQueue m)).
    rewrite Zplus_mod_idemp_l. f_equal. lia.
Qed.

Lemma content_tail m x l : queue_ok m -> content m = x :: l -> content (pop m) = l.
Proof.
  intros H Hc.
  destruct (decide (head (miEventQueue m) = tail (miEventQueue m))) as [He|He].
  - pose proof (head_tail_empty _ H) as Hz. rewrite He, Z.eqb_refl in Hz.
    symmetry in Hz. apply Z.eqb_eq in Hz. pose proof (length_content m H) as Hl.
    by rewrite Hz, Hc in Hl.
  - rewrite content_pop in Hc by done. by injection Hc.
Qed.

(** Turns of the loop, with what happened to the queue: an event is taken out,
    then processed, and its processing may have put in others. *)
Inductive process_run : server -> list queue_op -> server -> Prop :=
| run_none st : process_run st [] st
| run_turn st x st1 ops ops' st' :
    head_event st = Some x -> process_one dga x (advance st) = Ret st1 ->
    ring_use ops (queue_of (advance st)) (queue_of st1) -> process_run st1 ops' st' ->
    process_run st (Take x :: ops ++ ops') st'.

Lemma step_pop st : queue_ok (queue_of st) ->
  process_inputs_step dga st =
  match content (queue_of st) with
  | [] => inr (Ret st)
  | None :: _ => inr Undefined
  | Some x :: _ =>
      match process_one dga x (advance st) with
      | Ret st => inl st
      | FatalError => inr FatalError
      | Undefined => inr Undefined
      | Diverge => inr Diverge
      end
  end.
Proof.
  intros H. pose proof (size_bounds _ H). unfold process_inputs_step.
  destruct (Z.eqb_spec (head (miEventQueue (queue_of st))) (tail (miEventQueue (queue_of st)))) as [He|He].
  - unfold content. replace (mieqNumEnqueued (miEventQueue (queue_of st))) with 0; [done|].
    symmetry. apply Z.eqb_eq. rewrite <- head_tail_empty by done. rewrite He. apply Z.eqb_refl.
  - rewrite content_pop by done. unfold content_at.
    destruct (znth _ _) as [e|]; [|done]. cbn [mbind option_bind].
    destruct (er_events e) as [a|]; [|done]. cbn [mbind option_bind].
    destruct (lists _ !! a) as [ev|]; [|done]. cbn [mbind option_bind].
    destruct (Z.eqb_spec (nevents (miEventQueue (queue_of st))) 0); [lia|]. reflexivity.
Qed.

(** Every event of a well-formed queue is there. *)
Lemma content_live m x l : queue_ok m -> content m = x :: l -> is_Some x.
Proof.
  intros H Hc. pose proof (size_bounds m H). assert (x ∈ content m) as Hx by (rewrite Hc; left).
  unfold content in Hx. apply list_elem_of_fmap in Hx as (k & -> & _). unfold content_at.
  destruct (slot_live m (ring (miEventQueue m) k) H) as (e & a & ev & -> & Ha & Hev);
    [apply ring_range; lia|]. cbn. rewrite Ha. cbn. by rewrite Hev.
Qed.

(** A well-formed ring with at most [n] events in it and to come. *)
Definition fed_ok (n : nat) st : Prop :=
  queue_ok (queue_of st) /\
  (length (content (queue_of st)) + coming (mi_world (cs_world st)) <= n)%nat /\
  Z.of_nat n < 536870912.

Definition queue_state st : list (option queued) * Z :=
  (content (queue_of st), lastMotion (miEventQueue (queue_of st))).

(** How the loop can stop: nothing is left, or an event could not be
    processed. *)
Definition stops_at st (o : outcome server) : Prop :=
  (content (queue_of st) = [] /\ o = Ret st) \/
  (exists x, head_event st = Some x /\ o = process_one dga x (advance st) /\
     forall st', o <> Ret st').

(** A turn takes the head and follows the queue's promise. *)
Lemma step_fed n st : fed_ok n st ->
  match process_inputs_step dga st with
  | inl st1 => exists x ops n', n = S n' /\ fed_ok n' st1 /\ head_event st = Some x /\
      process_one dga x (advance st) = Ret st1 /\
      ring_use ops (queue_of (advance st)) (queue_of st1) /\
      queue_trace (Take x :: ops) (queue_state st) (queue_state st1)
  | inr o => stops_at st o
  end.
Proof.
  intros (Hok & Hlen & Hn). rewrite step_pop by done.
  unfold stops_at, head_event.
  destruct (content (queue_of st)) as [|x l] eqn:Hc; [by left|].
  destruct (content_live _ _ _ Hok Hc) as [y ->]. cbn [mjoin option_join hd_error].
  destruct (process_one dga y (advance st)) as [st1| | |] eqn:Hone;
    try (right; exists y; split; [done|split; [done|congruence]]).
  destruct (feed_one _ _ _ Hone) as (ops & Huse & Hcoming).
  pose proof (pop_ok _ Hok) as Hok1. pose proof (content_tail _ _ _ Hok Hc) as Hl.
  change (queue_of (advance st)) with (pop (queue_of st)) in Huse.
  change (mi_world (cs_world (advance st))) with (mi_world (cs_world st)) in Hcoming.
  cbn [length] in Hlen.
  destruct (ring_use_spec _ _ _ Huse Hok1) as (Hok2 & Htr & Hlen2); [rewrite Hl; lia|].
  rewrite Hl in Htr, Hlen2. destruct n as [|n]; [lia|]. exists y, ops, n. split; [done|].
  split; [split; [done|split; lia]|]. do 3 (split; [done|]).
  unfold queue_state. rewrite Hc. constructor. exact Htr.
Qed.

Lemma process_run_app st1 ops st2 ops' st3 :
  process_run st1 ops st2 -> process_run st2 ops' st3 -> process_run st1 (ops ++ ops') st3.
Proof.
  induction 1; intros Hrun; cbn; [done|]. rewrite <- app_assoc. econstructor; eauto.
Qed.

Lemma run_fed p n st0 : fed_ok n st0 -> Z.of_nat n < Zpos p ->
  exists ops st', process_run st0 ops st' /\ queue_trace ops (queue_state st0) (queue_state st') /\
    stops_at st' (run_loop (process_inputs_step dga) p st0).
Proof.
  intros Hok Hp.
  set (Inv := fun n s => fed_ok n s /\
    exists ops, process_run st0 ops s /\ queue_trace ops (queue_state st0) (queue_state s)).
  set (Post := fun o => exists ops st', process_run st0 ops st' /\
    queue_trace ops (queue_state st0) (queue_state st') /\ stops_at st' o).
  assert (Hstep : forall m s, Inv m s ->
    match process_inputs_step dga s with
    | inl s' => exists m', (m' < m)%nat /\ Inv m' s'
    | inr o => Post o
    end).
  { intros m s (Hs & ops & Hr & Ht). pose proof (step_fed m s Hs) as Hstep.
    destruct (process_inputs_step dga s) as [s1|o]; [|by exists ops, s].
    destruct Hstep as (x & ops1 & m' & -> & Hs1 & Hx & Hone & Huse & Htr).
    exists m'. split; [lia|]. split; [done|]. exists (ops ++ Take x :: ops1).
    split; [|by eapply queue_trace_app]. eapply process_run_app; [done|].
    rewrite <- (app_nil_r ops1). econstructor; eauto using process_run. }
  assert (Inv n st0) as Hst0 by (split; [done|]; exists []; split; constructor).
  pose proof (loop_pos_ranked _ Inv Post Hstep p n st0 Hst0) as Hloop. unfold run_loop.
  destruct (loop_pos _ p st0) as [s|o]; [|exact Hloop]. destruct Hloop as (n' & Hn' & _). lia.
Qed.
End Fifo.

(** A server that logs what is posted to which device. *)
#[export] Instance log_env : mi_env (list (Z * InternalEvent)) := {|
  handler_call _ _ e _ st := (e, st);
  processInputProc _ e d st :=
    (e, on_mi (fun s => s <| mi_world ::= fun l => l ++ [(d, e)] |>) st);
  NewCurrentScreen _ _ _ _ st := st;
  miPointerUpdateSprite _ st := st;
  call_cb _ _ st := st;
  myNum s := s;
  DPMSExtension := true;
  screenIsSaved _ := false;
  dpms_on _ := true;
  dixSaveScreensOff st := st;
  SetScreenSaverTimer st := st;
  DPMSSetOn st := st
|}.
(** A slave keyboard-and-mouse (70) attached to the master pair 80 and 81. *)
Definition sample_devices : gmap Z DeviceIntRec :=
  list_to_map
    [(70, MkDev 7 true SLAVE (Some 80) None (Some (1, None)) (Some [0; 3; 2; 1]) 500);
     (80, MkDev 2 true MASTER_POINTER None None (Some (1, Some 81)) None 501);
     (81, MkDev 3 true MASTER_KEYBOARD None None (Some (1, Some 80)) None 502)].
Definition sample_server : cb_state (mi_state (list (Z * InternalEvent))) :=
  MkCS ∅ [] (MkMi sample_ring sample_devices {[1 := MkSprite (Some 1) (Some 1)]} false []).

(** The same with a driver that enqueues its next event each time a device
    processes one. *)
Definition feed_next (st : cb_state (mi_state (list (Z * InternalEvent) * list InternalEvent)))
  : cb_state (mi_state (list (Z * InternalEvent) * list InternalEvent)) :=
  match (mi_world (cs_world st)).2 with
  | [] => st
  | e :: l =>
      match mieqEnqueue always (queue_of st) sample_dev e with
      | Ret (_, m) => on_mi (fun s => s <| qm := m |> <| mi_world ::= fun w => (w.1, l) |>) st
      | _ => st
      end
  end.

#[export] Instance feed_env : mi_env (list (Z * InternalEvent) * list InternalEvent) := {|
  handler_call _ _ e _ st := (e, st);
  processInputProc _ e d st :=
    (e, feed_next (on_mi (fun s => s <| mi_world ::= fun w => (w.1 ++ [(d, e)], w.2) |>) st));
  NewCurrentScreen _ _ _ _ st := st;
  miPointerUpdateSprite _ st := st;
  call_cb _ _ st := st;
  myNum s := s;
  DPMSExtension := true;
  screenIsSaved _ := false;
  dpms_on _ := true;
  dixSaveScreensOff st := st;
  SetScreenSaverTimer st := st;
  DPMSSetOn st := st
|}.

Definition pending (w : list (Z * InternalEvent) * list InternalEvent) : nat := length w.2.

Lemma feed_next_uses st : uses pending st (feed_next st).
Proof.
  unfold feed_next. destruct (mi_world (cs_world st)).2 as [|e1 l] eqn:Hw; [reflexivity|].
  destruct (mieqEnqueue always (queue_of st) sample_dev e1) as [[e2 m]| | |] eqn:He; try reflexivity.
  exists [enqueue_op always (queue_of st) sample_dev e1]. split.
  - eapply use_enqueue; [done|done|exact He|]. constructor.
  - unfold pending. cbn. rewrite Hw. cbn. lia.
Qed.

#[export] Instance feed_env_feeding : feeding_env pending feed_env.
Proof.
  split; try reflexivity. intros p e d st. etrans; [|apply feed_next_uses]. by apply uses_same.
Qed.

Definition fed_server (l : list InternalEvent)
  : cb_state (mi_state (list (Z * InternalEvent) * list InternalEvent)) :=
  MkCS ∅ [] (MkMi sample_ring sample_devices {[1 := MkSprite (Some 1) (Some 1)]} false ([], l)).

Section ProcessSpec.
Context {W : Type} (dga : bool) {E : mi_env W} (coming : W -> nat) {F : feeding_env coming E}.

(** C27: Processing the input empties the queue in order, also when events
    arrive meanwhile.  The called code and the other threads may enqueue events
    whenever the lock is released (finitely many, fewer than 2^29 with those in
    the ring, which is well-formed; event lists of a grown ring can be
    allocated), but do not process the queue recursively.  Then every turn
    takes the event at the head and processes it after it has left the queue;
    what is taken and put in follows the queue's promise from its content at
    the start; and the loop ends, with turns for the events queued and coming,
    when the queue is empty, also of the events that came meanwhile, followed
    by the callbacks that wait for this.  Only when the processing of an event
    fails (a dangling device, say) does it stop there. *)
Theorem mieqProcessInputEvents_fifo p (st : cb_state (mi_state W)) :
  let n := (length (content (queue_of st)) + coming (mi_world (cs_world st)))%nat in
  queue_ok (queue_of st) -> Z.of_nat n < 536870912 -> Z.of_nat n < Zpos p ->
  exists ops st', process_run dga (start_processing st) ops st' /\
    queue_trace ops (queue_state st) (queue_state st') /\
    ((content (queue_of st') = [] /\ mieqProcessInputEvents dga p st = end_processing st') \/
     exists x, head_event st' = Some x /\
       mieqProcessInputEvents dga p st = process_one dga x (advance st') /\
       forall st2, mieqProcessInputEvents dga p st <> Ret st2).
Proof.
  intros n Hok Hn Hp.
  assert (Hs : same_ring (queue_of st) (queue_of (start_processing st))) by done.
  destruct (run_fed dga coming p n (start_processing st)) as (ops & st' & Hrun & Htr & Hstop);
    [|done|].
  { split; [by rewrite <- Hs|]. rewrite <- Hs. done. }
  exists ops, st'. split; [done|]. split; [exact Htr|]. unfold mieqProcessInputEvents.
  destruct Hstop as [[Hc ->]|(x & Hx & -> & Hbad)]; [by left|]. right. exists x. split; [done|].
  destruct (process_one dga x (advance st')) as [st2| | |]; [by destruct (Hbad st2)|done..].
Qed.
End ProcessSpec.

Lemma mieqProcessInputEvents_fifo_witness :
  let st := fed_server [sample_event ET_Motion 1001; sample_event ET_ButtonPress 1002;
                        sample_event ET_Motion 1003; sample_event ET_Motion 1004] in
  exists ops st' last st2, process_run false (start_processing st) ops st' /\
    queue_trace ops (queue_state st) ([], last) /\
    mieqProcessInputEvents false 16 st = Ret st2 /\
    (fun x => (x.1, ev_type x.2, ev_time x.2)) <$> (mi_world (cs_world st2)).1 =
      [(70, ET_KeyPress, 800); (81, ET_KeyPress, 800); (70, ET_KeyRelease, 900);
       (81, ET_KeyRelease, 900); (70, ET_Motion, 1001); (80, ET_Motion, 1001);
       (70, ET_ButtonPress, 1002); (80, ET_ButtonPress, 1002); (70, ET_Motion, 1004);
       (80, ET_Motion, 1004)].
Proof.
  intros st.
  destruct (mieqProcessInputEvents_fifo false pending 16 st sample_ring_ok ltac:(by vm_compute)
    ltac:(by vm_compute)) as (ops & st' & Hrun & Htr & [[Hc He]|(x & _ & _ & Hbad)]).
  2:{ exfalso. vm_compute in Hbad. by eapply Hbad. }
  exists ops, st', (queue_state st').2. eexists. split; [exact Hrun|].
  split; [rewrite <- Hc; exact Htr|]. split; [vm_compute; reflexivity|]. vm_compute. reflexivity.
Defined.

(** ** Delivery to the slave and its master *)

(** A slave [dev] attached to one of the paired masters [mp] and [mk]. *)
Record attached (devs : gmap Z DeviceIntRec) (dev m0 mp mk : Z) (d dp dk : DeviceIntRec) : Prop := {
  at_dev : devs !! dev = Some d; at_slave : dv_type d = SLAVE; at_master : dv_master d = Some m0;
  at_pair : m0 = mp \/ m0 = mk;
  at_mp : devs !! mp = Some dp; at_pointer : dv_type dp = MASTER_POINTER;
  at_mk : devs !! mk = Some dk; at_keyboard : dv_type dk = MASTER_KEYBOARD;
  at_mp_paired : exists s, dv_spriteInfo dp = Some (s, Some mk);
  at_mk_paired : exists s, dv_spriteInfo dk = Some (s, Some mp)
}.

(** The master an event of this kind is for. *)
Definition master_for {A} (t : Z) (attached pointer keyboard : A) : A :=
  if (t =? ET_KeyPress) || (t =? ET_KeyRelease) then keyboard
  else if bool_decide (t ∈ [ET_ButtonPress; ET_ButtonRelease; ET_Motion; ET_ProximityIn; ET_ProximityOut])
  then pointer else attached.

Definition is_button (e : InternalEvent) : bool :=
  (ev_type e =? ET_ButtonPress) || (ev_type e =? ET_ButtonRelease).

(** The master's copy: the master's id, and the logical button. *)
Definition master_event (d md : DeviceIntRec) (e : InternalEvent) : InternalEvent :=
  MkEv (ev_type e) (ev_time e) (dv_id md)
    (match dv_button d with
     | Some map => if is_button e then default 0 (znth map (ev_button e)) else ev_button e
     | None => ev_button e
     end)
    (ev_flags e) (ev_root_x e) (ev_root_y e) (ev_subtype e) (ev_rest e).

Definition device_event_types : list Z :=
  [ET_KeyPress; ET_KeyRelease; ET_ButtonPress; ET_ButtonRelease; ET_Motion; ET_TouchBegin;
   ET_TouchUpdate; ET_TouchEnd; ET_ProximityIn; ET_ProximityOut].

Section Delivery.
Context {W : Type} (dga : bool) {E : mi_env W}.
Notation server := (cb_state (mi_state W)).

Lemma GetMaster_attached devs dev m0 mp mk d dp dk which :
  attached devs dev m0 mp mk d dp dk ->
  GetMaster HOPS devs dev which =
  Ret (Some (if which =? MASTER_ATTACHED then m0
             else if (which =? MASTER_KEYBOARD) || (which =? KEYBOARD_OR_FLOAT) then mk else mp)).
Proof.
  intros [Hd Hs Hm Hpair Hp Htp Hk Htk [s1 Hpp] [s2 Hpk]].
  unfold HOPS. cbn [GetMaster]. rewrite Hd. cbn [obind_opt]. unfold InputDevIsMaster at 1.
  rewrite Hs. cbn [SLAVE MASTER_POINTER MASTER_KEYBOARD Z.eqb Pos.eqb orb].
  rewrite Hm. destruct (which =? MASTER_ATTACHED); [done|].
  destruct Hpair as [-> | ->].
  - rewrite Hp. cbn [obind_opt]. rewrite Htp.
    destruct ((which =? MASTER_KEYBOARD) || (which =? KEYBOARD_OR_FLOAT)); [|done].
    cbn [MASTER_POINTER MASTER_KEYBOARD Z.eqb Pos.eqb negb].
    unfold InputDevIsMaster. rewrite Htp. cbn [MASTER_POINTER Z.eqb Pos.eqb orb obind].
    rewrite Hp. cbn [obind_opt]. by rewrite Hpp.
  - rewrite Hk. cbn [obind_opt]. rewrite Htk.
    destruct ((which =? MASTER_KEYBOARD) || (which =? KEYBOARD_OR_FLOAT)); [done|].
    cbn [MASTER_POINTER MASTER_KEYBOARD Z.eqb Pos.eqb negb].
    unfold InputDevIsMaster. rewrite Htk.
    cbn [MASTER_POINTER MASTER_KEYBOARD Z.eqb Pos.eqb orb obind].
    rewrite Hk. cbn [obind_opt]. by rewrite Hpk.
Qed.

Lemma floating_attached devs dev m0 mp mk d dp dk :
  attached devs dev m0 mp mk d dp dk -> InputDevIsFloating devs dev = Ret false.
Proof.
  intros H. unfold InputDevIsFloating. rewrite (at_dev _ _ _ _ _ _ _ _ H). cbn [obind_opt].
  unfold InputDevIsMaster. rewrite (at_slave _ _ _ _ _ _ _ _ H).
  cbn [SLAVE MASTER_POINTER MASTER_KEYBOARD Z.eqb Pos.eqb orb].
  by rewrite (GetMaster_attached _ _ _ _ _ _ _ _ _ H).
Qed.

Lemma copy_attached devs dev m0 mp mk d dp dk e :
  attached devs dev m0 mp mk d dp dk ->
  ev_type e ∈ device_event_types ->
  (is_button e = true -> forall map, dv_button d = Some map ->
     0 <= ev_button e < Z.of_nat (length map) /\ ev_button e < 2147483648) ->
  CopyGetMasterEvent dga devs (Some dev) e =
  Ret (Some (master_for (ev_type e) m0 mp mk,
             master_event d (master_for (ev_type e) (if m0 =? mp then dp else dk) dp dk) e)).
Proof.
  intros H Ht Hb. unfold CopyGetMasterEvent.
  rewrite (at_dev _ _ _ _ _ _ _ _ H). cbn [obind_opt].
  unfold InputDevIsMaster. rewrite (at_slave _ _ _ _ _ _ _ _ H).
  cbn [SLAVE MASTER_POINTER MASTER_KEYBOARD Z.eqb Pos.eqb orb].
  rewrite (floating_attached _ _ _ _ _ _ _ _ H). cbn [obind].
  rewrite (GetMaster_attached _ _ _ _ _ _ _ _ _ H). cbn [obind obind_opt].
  replace (dga && (ev_type e =? ET_DGAEvent)) with false.
  2:{ symmetry. apply andb_false_iff. right. apply Z.eqb_neq.
      intros He. rewrite He in Ht. revert Ht. by apply (bool_decide_unpack (ET_DGAEvent ∉ _)). }
  set (m := master_for (ev_type e) m0 mp mk).
  match goal with |- context [devs !! ?x] => replace x with m end.
  2:{ unfold m, master_for. destruct (_ || _); [done|].
      destruct (bool_decide _); done. }
  set (md := master_for (ev_type e) (if m0 =? mp then dp else dk) dp dk).
  assert (devs !! m = Some md) as ->.
  { unfold m, md, master_for. destruct (_ || _); [apply H|]. destruct (bool_decide _); [apply H|].
    destruct (Z.eqb_spec m0 mp) as [->|Hne]; [apply H|].
    destruct (at_pair _ _ _ _ _ _ _ _ H) as [? | ->]; [done|apply H]. }
  cbn [obind_opt].
  assert (Hc : ChangeDeviceID dga md e = e <| ev_deviceid := dv_id md |>).
  { unfold ChangeDeviceID. rewrite bool_decide_true; [done|].
    match goal with |- _ ∈ ?L =>
      assert (Forall (fun t => t ∈ L) device_event_types) as Hall
        by (apply (bool_decide_unpack _); by vm_compute)
    end.
    rewrite Forall_forall in Hall. by apply Hall. }
  rewrite Hc. unfold FixUpEventForMaster, master_event. fold (is_button e).
  destruct (is_button e); [|by destruct (dv_button d)].
  destruct (dv_button d) as [map|]; [|done].
  destruct (Hb eq_refl map eq_refl) as [Hr Hlt]. rewrite i32_small by lia.
  destruct (znth_Some map (ev_button e) Hr) as [b Hz]. rewrite Hz. done.
Qed.

(** Noting the slave in a master keeps the pair attached. *)
Definition note_slave (dev m : Z) : gmap Z DeviceIntRec -> gmap Z DeviceIntRec :=
  alter (fun d => d <| dv_lastSlave := Some dev |>) m.

Lemma attached_masters devs dev m0 mp mk d dp dk t :
  attached devs dev m0 mp mk d dp dk ->
  master_for t m0 mp mk <> dev /\
  devs !! master_for t m0 mp mk = Some (master_for t (if m0 =? mp then dp else dk) dp dk).
Proof.
  intros [Hdd Hs ? Hpair ? Htp ? Htk ? ?]. unfold master_for.
  assert (mp <> dev /\ mk <> dev) as [Hnp Hnk].
  { split; intros ->; simplify_map_eq; rewrite Hs in *; done. }
  destruct (_ || _); [done|]. destruct (bool_decide _); [done|].
  destruct (Z.eqb_spec m0 mp) as [-> |]; [done|]. by destruct Hpair as [? | ->].
Qed.

Lemma attached_noted devs dev m0 mp mk d dp dk m :
  attached devs dev m0 mp mk d dp dk -> m <> dev ->
  exists dp' dk', attached (note_slave dev m devs) dev m0 mp mk d dp' dk'.
Proof.
  intros [Hdd Hs Hma Hpair Hp Htp Hk Htk Hpp Hpk] Hne.
  assert (Hl : forall k x, devs !! k = Some x -> note_slave dev m devs !! k =
    Some (if decide (m = k) then x <| dv_lastSlave := Some dev |> else x)).
  { intros k x Hx. unfold note_slave. rewrite lookup_alter. case_decide; subst; by rewrite Hx. }
  do 2 eexists. split; [|done|done|done|by apply Hl| |by apply Hl|..]; try by case_decide.
  rewrite (Hl _ _ Hdd). by rewrite decide_False.
Qed.

Lemma floating_detached devs dev d :
  devs !! dev = Some d -> dv_type d = SLAVE -> dv_master d = None ->
  InputDevIsFloating devs dev = Ret true.
Proof.
  intros Hd Hs Hm. unfold InputDevIsFloating, HOPS. cbn [GetMaster]. rewrite Hd. cbn [obind_opt].
  unfold InputDevIsMaster. rewrite Hs. cbn [SLAVE MASTER_POINTER MASTER_KEYBOARD Z.eqb Pos.eqb orb].
  by rewrite Hm.
Qed.

(** An event of an enabled slave without a custom handler is processed by
    the slave first; then, if processing did not detach the slave, the
    master that belongs to the kind of the event (the keyboard for keys, the
    pointer for buttons and motion) processes a copy that differs in the device
    id and in the button number, which is the mapped one.  A slave that was
    detached keeps the event to itself.  The master has the slave as its last
    one before either. *)
Theorem mieqProcessDeviceEvent_delivers dev m0 mp mk d dp dk e screen (st st1 : server) :
  let devs (st : server) := devices (cs_world st) in
  let m := master_for (ev_type e) m0 mp mk in
  let md := master_for (ev_type e) (if m0 =? mp then dp else dk) dp dk in
  attached (devs st) dev m0 mp mk d dp dk -> dv_enabled d = true ->
  ev_type e ∈ device_event_types ->
  (is_button e = true -> forall map, dv_button d = Some map ->
     0 <= ev_button e < Z.of_nat (length map) /\ ev_button e < 2147483648) ->
  znth (eq_handlers (miEventQueue (queue_of st))) (ev_type e) = Some None ->
  (if moves_screen e then mieqMoveToNewScreen (Some dev) screen e st else Ret st) = Ret st1 ->
  devs st1 = devs st ->
  let st2 := on_mi (fun s => s <| devices ::= note_slave dev m |>) st1 in
  let slave := processInputProc (dv_processInputProc d) e dev st2 in
  let master := processInputProc (dv_processInputProc md) (master_event d md e) m slave.2 in
  (devs slave.2 = devs st2 ->
   mieqProcessDeviceEvent dga (Some dev) e screen st = Ret (slave.1, master.2)) /\
  ((exists d', devs slave.2 !! dev = Some d' /\ dv_type d' = SLAVE /\ dv_master d' = None) ->
   mieqProcessDeviceEvent dga (Some dev) e screen st = Ret slave).
Proof.
  intros devs m md Hat Hen Ht Hb Hh Hmove Hdev st2 slave master.
  pose proof (at_dev _ _ _ _ _ _ _ _ Hat) as Hd.
  pose proof (attached_masters _ _ _ _ _ _ _ _ (ev_type e) Hat) as [Hne Hmd]. fold m in Hne, Hmd.
  assert (Hs2 : devs st2 = note_slave dev m (devs st)) by (rewrite <- Hdev; done).
  destruct (attached_noted _ _ _ _ _ _ _ _ m Hat Hne) as (dp' & dk' & Hat2).
  rewrite <- Hs2 in Hat2.
  assert (He : mieqProcessDeviceEvent dga (Some dev) e screen st =
    (floating <-- InputDevIsFloating (devs slave.2) dev;
     if floating : bool then Ret slave
     else md' <-? devs slave.2 !! m;
          Ret (slave.1, (processInputProc (dv_processInputProc md') (master_event d md e) m slave.2).2))).
  { unfold mieqProcessDeviceEvent. change (devices (cs_world st)) with (devs st).
    rewrite Hd. cbn [obind_opt obind]. rewrite Hen. cbn [negb].
    change (qm (cs_world st)) with (queue_of st). rewrite Hh. cbn [obind_opt].
    rewrite bool_decide_true by done. cbn [andb]. rewrite Hmove. cbn [obind].
    change (devices (cs_world st1)) with (devs st1). rewrite Hdev.
    rewrite (copy_attached _ _ _ _ _ _ _ _ e Hat Ht Hb). cbn [obind]. fold m.
    fold (note_slave dev m). fold st2.
    change (devices (cs_world st2)) with (devs st2). rewrite (at_dev _ _ _ _ _ _ _ _ Hat2).
    cbn [obind_opt]. fold slave. destruct slave as [e1 s3]. done. }
  rewrite He. split.
  - intros ->. rewrite (floating_attached _ _ _ _ _ _ _ _ Hat2). cbn [obind]. rewrite Hs2.
    unfold note_slave. rewrite lookup_alter_eq. fold m md in Hmd. by rewrite Hmd.
  - intros (d' & Hd' & Hs' & Hm'). by rewrite (floating_detached _ _ _ Hd' Hs' Hm').
Qed.
End Delivery.

Lemma sample_attached :
  exists d dp dk, attached sample_devices 70 80 80 81 d dp dk /\
    d = MkDev 7 true SLAVE (Some 80) None (Some (1, None)) (Some [0; 3; 2; 1]) 500 /\
    dp = MkDev 2 true MASTER_POINTER None None (Some (1, Some 81)) None 501.
Proof.
  do 3 eexists. split; [split|split; reflexivity]; try (vm_compute; reflexivity); [by left|by exists 1|by exists 1].
Defined.

Lemma mieqProcessDeviceEvent_delivers_witness :
  exists st', mieqProcessDeviceEvent false (Some 70) (sample_event ET_ButtonPress 1001) (Some 1)
      sample_server = Ret (sample_event ET_ButtonPress 1001, st') /\
    mi_world (cs_world st') =
      [(70, sample_event ET_ButtonPress 1001);
       (80, MkEv ET_ButtonPress 1001 2 3 0 10 20 0 [])].
Proof.
  destruct sample_attached as (d & dp & dk & Hat & -> & ->).
  pose proof (mieqProcessDeviceEvent_delivers false 70 80 80 81 _ _ _
    (sample_event ET_ButtonPress 1001) (Some 1) sample_server sample_server Hat eq_refl
    ltac:(apply (bool_decide_unpack _); by vm_compute)
    ltac:(intros _ map [= <-]; by vm_compute) ltac:(by vm_compute) ltac:(by vm_compute) eq_refl)
    as [Hd _].
  specialize (Hd eq_refl). eexists. split; [exact Hd|]. by vm_compute.
Defined.
