(* ===== verification/RecordSet.v ===== *)
(** * Sets of protocol numbers (record/set.c)

    The RECORD extension keeps sets of 16-bit numbers behind one interface
    with two representations, a bit vector and a sorted list of intervals.  The
    file gives both, the choice between them, and shows that a user of the
    interface cannot tell them apart. *)
From Stdlib Require Import Sorting.Sorted.
From S2P Require Import Prelude.

(** [record/set.h: RecordSetInterval 59-62] *)
Record RecordSetInterval := MkIv { first : Z; last : Z }.
#[export] Instance RecordSetInterval_eq : EqDecision RecordSetInterval.
Proof. solve_decision. Defined.

(** The opaque iterator: a null pointer, or what the representation makes of
    it (a number, or the address of an interval). *)
Inductive RecordSetIterate := Null | At (n : Z).

(** The operations table of a representation.
    [record/set.h: RecordSetOperations 71-77] *)
Class RecordSetOperations (S : Type) := {
  DestroySet : S -> bool;  (** whether the memory is freed *)
  IsMemberOfSet : S -> Z -> outcome bool;
  IterateSet : S -> RecordSetIterate -> outcome (option (RecordSetInterval * RecordSetIterate))
}.

(** [record/set.c: maxMemberInInterval] *)
Definition maxMemberInInterval (pIntervals : list RecordSetInterval) : Z :=
  fold_left (fun maxMember i => if maxMember <? last i then last i else maxMember) pIntervals (-1).

(** ** Bit vectors *)

Definition BITS_PER_LONG : Z := 64.
Definition ALL_ONES : Z := 18446744073709551615.

(** [no_free] is the operations table of a set in the caller's memory.
    [record/set.c: BitVectorSet 89-93] *)
Record BitVectorSet := MkBV { bv_no_free : bool; bv_maxMember : Z; bitvec : list Z }.

(** [record/set.c: BitVectorDestroySet] *)
Definition BitVectorDestroySet (s : BitVectorSet) : bool := negb (bv_no_free s).

(** [record/set.c: BitVectorIsMemberOfSet] *)
Definition BitVectorIsMemberOfSet (s : BitVectorSet) (pm : Z) : outcome bool :=
  if bv_maxMember s <? pm then Ret false
  else
    w <-? znth (bitvec s) (u64 pm / BITS_PER_LONG);
    Ret (negb (Z.land w (Z.shiftl 1 (u64 pm mod BITS_PER_LONG)) =? 0)).

(** The words that have no bit of the wanted value are skipped. *)
Definition skip_step (s : BitVectorSet) (skipval : Z) (st : Z * Z)
  : (Z * Z) + outcome (Z * Z) :=
  let '(i, startbit) := st in
  if startbit <=? bv_maxMember s then
    match znth (bitvec s) i with
    | None => inr Undefined
    | Some w => if w =? skipval then inl (i + 1, startbit + BITS_PER_LONG) else inr (Ret (i, startbit))
    end
  else inr (Ret (i, startbit)).

Definition walk_step (bits : Z) (bitval : bool) (walkbit : Z) : Z + outcome Z :=
  if (walkbit <? BITS_PER_LONG) &&
     Bool.eqb (Z.land bits (Z.shiftl 1 walkbit) =? 0) bitval
  then inl (walkbit + 1) else inr (Ret walkbit).

(** [record/set.c: BitVectorFindBit] *)
Definition BitVectorFindBit (s : BitVectorSet) (iterbit : Z) (bitval : bool) : outcome Z :=
  let startlong := iterbit / BITS_PER_LONG in
  let startbit := startlong * BITS_PER_LONG in
  let skipval := if bitval then 0 else ALL_ONES in
  if bv_maxMember s <? startbit then Ret (-1)
  else
    bits <-? znth (bitvec s) startlong;
    let usefulbits := Z.ldiff ALL_ONES (Z.shiftl 1 (iterbit - startbit) - 1) in
    '(i, startbit) <--
      (if Z.land bits usefulbits =? Z.land skipval usefulbits
       then run_loop (skip_step s skipval) TURNS (startlong + 1, startbit + BITS_PER_LONG)
       else Ret (startlong, startbit));
    if bv_maxMember s <? startbit then Ret (-1)
    else
      let walkbit := if startbit <? iterbit then iterbit - startbit else 0 in
      bits <-? znth (bitvec s) i;
      walkbit <-- run_loop (walk_step bits bitval) TURNS walkbit;
      Ret (startbit + walkbit).

(** [record/set.c: BitVectorIterateSet] *)
Definition BitVectorIterateSet (s : BitVectorSet) (pIter : RecordSetIterate)
  : outcome (option (RecordSetInterval * RecordSetIterate)) :=
  let iterbit := match pIter with Null => 0 | At n => n end in
  b <-- BitVectorFindBit s iterbit true;
  if b =? -1 then Ret None
  else
    let lo := u16 b in
    b <-- BitVectorFindBit s b false;
    let hi := u16 (if b <? 0 then bv_maxMember s else b - 1) in
    Ret (Some (MkIv lo hi, if hi + 1 =? 0 then Null else At (hi + 1))).

#[export] Instance BitVectorSetOperations : RecordSetOperations BitVectorSet := {|
  DestroySet := BitVectorDestroySet;
  IsMemberOfSet := BitVectorIsMemberOfSet;
  IterateSet := BitVectorIterateSet |}.

(** [record/set.c: BitVectorSetMemoryRequirements] *)
Definition BitVectorSetMemoryRequirements (maxMember : Z) : Z * Z :=
  let nlongs := u64 (maxMember + BITS_PER_LONG) / BITS_PER_LONG in
  (i32 (16 + nlongs * 8), 8).

Fixpoint ofold {A B} (f : B -> A -> outcome B) (l : list A) (b : B) : outcome B :=
  match l with
  | [] => Ret b
  | a :: l' => b <-- f b a; ofold f l' b
  end.

Definition set_bit (words : list Z) (j : Z) : outcome (list Z) :=
  w <-? znth words (j / BITS_PER_LONG);
  Ret (zset words (j / BITS_PER_LONG) (Z.lor w (Z.shiftl 1 (j mod BITS_PER_LONG)))).

Definition set_interval (words : list Z) (iv : RecordSetInterval) : outcome (list Z) :=
  ofold set_bit (seqZ (first iv) (last iv + 1 - first iv)) words.

(** [record/set.c: BitVectorCreateSet] *)
Definition BitVectorCreateSet (al : allocator) (pIntervals : list RecordSetInterval)
    (pMem : option Z) (memsize : Z) : outcome (option BitVectorSet) :=
  if match pMem with Some _ => false | None => negb (al 0%nat memsize) end then Ret None
  else
    words <-- ofold set_interval pIntervals (replicate (Z.to_nat ((memsize - 16) / 8)) 0);
    Ret (Some (MkBV (bool_decide (is_Some pMem)) (maxMemberInInterval pIntervals) words)).

(** ** Interval lists *)

(** [record/set.c: IntervalListSet 237-241] *)
Record IntervalListSet := MkIL { il_no_free : bool; nIntervals : Z; ivs : list RecordSetInterval }.

(** [record/set.c: IntervalListDestroySet] *)
Definition IntervalListDestroySet (s : IntervalListSet) : bool := negb (il_no_free s).

Definition probe_step (s : IntervalListSet) (pm : Z) (lohi : Z * Z) : (Z * Z) + outcome bool :=
  let '(lo, hi) := lohi in
  if hi <? lo then inr (Ret false)
  else
    let probe := Z.quot (hi + lo) 2 in
    match znth (ivs s) probe with
    | None => inr Undefined
    | Some iv =>
        if (first iv <=? pm) && (pm <=? last iv) then inr (Ret true)
        else if pm <? first iv then inl (lo, probe - 1)
        else inl (probe + 1, hi)
    end.

(** [record/set.c: IntervalListIsMemberOfSet] *)
Definition IntervalListIsMemberOfSet (s : IntervalListSet) (pm : Z) : outcome bool :=
  run_loop (probe_step s pm) TURNS (0, nIntervals s - 1).

(** An iterator is the index of the interval it points to.
    [record/set.c: IntervalListIterateSet] *)
Definition IntervalListIterateSet (s : IntervalListSet) (pIter : RecordSetIterate)
  : outcome (option (RecordSetInterval * RecordSetIterate)) :=
  let pInterval := match pIter with Null => 0 | At n => n end in
  if pInterval <? nIntervals s then
    iv <-? znth (ivs s) pInterval;
    Ret (Some (iv, At (pInterval + 1)))
  else Ret None.

#[export] Instance IntervalListSetOperations : RecordSetOperations IntervalListSet := {|
  DestroySet := IntervalListDestroySet;
  IsMemberOfSet := IntervalListIsMemberOfSet;
  IterateSet := IntervalListIterateSet |}.

(** [record/set.c: IntervalListMemoryRequirements] *)
Definition IntervalListMemoryRequirements (nIntervals : Z) : Z * Z :=
  (i32 (16 + nIntervals * 4), 8).

(** One interval is put before the first one that starts after it.
    [record/set.c: IntervalListCreateSet 322-332] *)
Fixpoint insert_interval (x : RecordSetInterval) (l : list RecordSetInterval)
  : list RecordSetInterval :=
  match l with
  | [] => [x]
  | y :: l' => if first x <? first y then x :: l else y :: insert_interval x l'
  end.

(** The interval at the index of the outer loop is [cur].
    [record/set.c: IntervalListCreateSet 336-348] *)
Fixpoint merge_intervals (cur : RecordSetInterval) (l : list RecordSetInterval)
  : list RecordSetInterval :=
  match l with
  | [] => [cur]
  | y :: l' =>
      if last cur + 1 <? first y then cur :: merge_intervals y l'
      else merge_intervals (MkIv (first cur) (Z.max (last cur) (last y))) l'
  end.

Definition sort_and_merge (pIntervals : list RecordSetInterval) : list RecordSetInterval :=
  match fold_left (fun l x => insert_interval x l) pIntervals [] with
  | [] => []
  | x :: l => merge_intervals x l
  end.

(** [record/set.c: IntervalListCreateSet] *)
Definition IntervalListCreateSet (al : allocator) (pIntervals : list RecordSetInterval)
    (pMem : option Z) : outcome (option IntervalListSet) :=
  let n := Z.of_nat (length pIntervals) in
  if (0 <? n) && negb (al 0%nat (4 * n)) then Ret None
  else
    let l := sort_and_merge pIntervals in
    let n := Z.of_nat (length l) in
    if match pMem with Some _ => false | None => negb (al 1%nat (16 + n * 4)) end then Ret None
    else Ret (Some (MkIL (bool_decide (is_Some pMem)) n l)).

(** ** The sets the users see *)

(** [record/set.h: RecordSetRec 82-84] *)
Inductive RecordSet := BV (s : BitVectorSet) | IL (s : IntervalListSet).

(** Calls go through the table of the set's representation. *)
#[export] Instance RecordSet_ops : RecordSetOperations RecordSet := {|
  DestroySet s := match s with BV s => DestroySet s | IL s => DestroySet s end;
  IsMemberOfSet s := match s with BV s => IsMemberOfSet s | IL s => IsMemberOfSet s end;
  IterateSet s := match s with BV s => IterateSet s | IL s => IterateSet s end |}.

(** The size, the alignment, and whether the bit vector is chosen.
    [record/set.c: _RecordSetMemoryRequirements] *)
Definition _RecordSetMemoryRequirements (pIntervals : list RecordSetInterval) : Z * Z * bool :=
  let n := Z.of_nat (length pIntervals) in
  let maxMember := maxMemberInInterval pIntervals in
  let '(bmsize, bma) := BitVectorSetMemoryRequirements maxMember in
  let '(rlsize, rla) := IntervalListMemoryRequirements n in
  if ((1 <? n) && (maxMember <=? 255)) || (bmsize <? rlsize) then (bmsize, bma, true)
  else (rlsize, rla, false).

(** [record/set.c: RecordSetMemoryRequirements] *)
Definition RecordSetMemoryRequirements (pIntervals : list RecordSetInterval) : Z * Z :=
  let '(size, alignment, _) := _RecordSetMemoryRequirements pIntervals in (size, alignment).

(** [record/set.c: RecordCreateSet] *)
Definition RecordCreateSet (al : allocator) (pIntervals : list RecordSetInterval)
    (pMem : option Z) (memsize : Z) : outcome (option RecordSet) :=
  let '(size, alignment, bits) := _RecordSetMemoryRequirements pIntervals in
  if match pMem with
     | Some a => negb (Z.land a (alignment - 1) =? 0) || (memsize <? size)
     | None => false
     end then Ret None
  else if bits : bool then
    s <-- BitVectorCreateSet al pIntervals pMem size; Ret (BV <$> s)
  else
    s <-- IntervalListCreateSet al pIntervals pMem; Ret (IL <$> s).

(** The loop of a user that collects the intervals of a set. *)
Definition collect_step {S} `{RecordSetOperations S} (s : S)
    (st : RecordSetIterate * list RecordSetInterval)
  : (RecordSetIterate * list RecordSetInterval) + outcome (list RecordSetInterval) :=
  let '(it, acc) := st in
  match IterateSet s it with
  | Ret (Some (iv, it)) => inl (it, acc ++ [iv])
  | Ret None => inr (Ret acc)
  | FatalError => inr FatalError
  | Undefined => inr Undefined
  | Diverge => inr Diverge
  end.
Definition collect {S} `{RecordSetOperations S} (s : S) : outcome (list RecordSetInterval) :=
  run_loop (collect_step s) TURNS (Null, []).

(** * Properties *)

(** ** What a list of intervals denotes *)

Definition in_interval (x : Z) (iv : RecordSetInterval) : bool :=
  (first iv <=? x) && (x <=? last iv).
Definition covers (l : list RecordSetInterval) (x : Z) : bool := existsb (in_interval x) l.

(** What the clients pass: 16-bit numbers, the first not after the last. *)
Definition valid (iv : RecordSetInterval) : Prop := 0 <= first iv <= last iv /\ last iv <= 65535.

(** Increasing, with a gap between any two intervals. *)
Definition apart (a b : RecordSetInterval) : Prop := last a + 1 < first b.
Definition canonical (l : list RecordSetInterval) : Prop :=
  StronglySorted apart l /\ Forall (fun iv => first iv <= last iv) l.

Lemma in_interval_spec x iv : in_interval x iv = true <-> first iv <= x <= last iv.
Proof. unfold in_interval. rewrite andb_true_iff, !Z.leb_le. lia. Qed.

Lemma covers_spec l x : covers l x = true <-> exists iv, iv ∈ l /\ first iv <= x <= last iv.
Proof.
  unfold covers. rewrite existsb_exists. split; intros (iv & Hiv & Hx); exists iv.
  - split; [by apply list_elem_of_In|by apply in_interval_spec].
  - split; [by apply list_elem_of_In|by apply in_interval_spec].
Qed.

Lemma covers_app l1 l2 x : covers (l1 ++ l2) x = covers l1 x || covers l2 x.
Proof. apply existsb_app. Qed.

Lemma canonical_cons iv l :
  canonical (iv :: l) <->
  first iv <= last iv /\ (forall x, covers l x = true -> last iv + 1 < x) /\ canonical l.
Proof.
  unfold canonical. split.
  - intros [Hs Hv]. apply StronglySorted_inv in Hs as [Hs Ha]. apply Forall_cons in Hv as [Hv Hv'].
    split; [done|]. split; [|done]. intros x (j & Hj & Hx)%covers_spec.
    rewrite Forall_forall in Ha. specialize (Ha j Hj). unfold apart in Ha. lia.
  - intros (Hv & Ha & Hs & Hvs). split; [|by constructor]. constructor; [done|].
    rewrite Forall_forall in *. intros j Hj. unfold apart. apply Ha, covers_spec.
    exists j. split; [done|]. split; [lia|by apply Hvs].
Qed.

(** A set has one canonical list. *)
Lemma canonical_unique l1 : forall l2,
  canonical l1 -> canonical l2 -> (forall x, covers l1 x = covers l2 x) -> l1 = l2.
Proof.
  induction l1 as [|a l1 IH]; intros [|b l2] H1 H2 Hc; [done| | |].
  - apply canonical_cons in H2 as (Hb & _ & _). specialize (Hc (first b)). cbn in Hc.
    unfold in_interval in Hc. destruct (Z.leb_spec (first b) (first b)), (Z.leb_spec (first b) (last b)); try lia; done.
  - apply canonical_cons in H1 as (Ha & _ & _). specialize (Hc (first a)). cbn in Hc.
    unfold in_interval in Hc. destruct (Z.leb_spec (first a) (first a)), (Z.leb_spec (first a) (last a)); try lia; done.
  - apply canonical_cons in H1 as (Ha & Ga & H1). apply canonical_cons in H2 as (Hb & Gb & H2).
    assert (Hiff : forall x, (first a <= x <= last a \/ covers l1 x = true) <->
                             (first b <= x <= last b \/ covers l2 x = true)).
    { intros x. rewrite <- !in_interval_spec, <- !orb_true_iff. specialize (Hc x). cbn in Hc.
      unfold covers in *. by rewrite Hc. }
    assert (first a = first b).
    { pose proof (proj1 (Hiff (first a)) ltac:(lia)) as [?|?%Gb];
        pose proof (proj2 (Hiff (first b)) ltac:(lia)) as [?|?%Ga]; lia. }
    assert (last a = last b).
    { pose proof (Hiff (last a + 1)) as Q1. pose proof (Hiff (last b + 1)) as Q2.
      pose proof (Ga (last a + 1)) as G1. pose proof (Gb (last b + 1)) as G2.
      destruct (Z.lt_trichotomy (last a) (last b)) as [Hlt|[?|Hlt]]; [|done|].
      - destruct (proj2 Q1 ltac:(lia)) as [?|?%G1]; lia.
      - destruct (proj1 Q2 ltac:(lia)) as [?|?%G2]; lia. }
    f_equal; [destruct a, b; cbn in *; congruence|].
    apply IH; [done|done|]. intros x. apply Bool.eq_iff_eq_true. split; intros Hx.
    + pose proof (Ga x Hx). destruct (proj1 (Hiff x) (or_intror Hx)); [lia|done].
    + pose proof (Gb x Hx). destruct (proj2 (Hiff x) (or_intror Hx)); [lia|done].
Qed.

(** ** Interval lists *)

Definition by_first (a b : RecordSetInterval) : Prop := first a <= first b.

Lemma insert_interval_perm x l : insert_interval x l ≡ₚ x :: l.
Proof.
  induction l as [|y l IH]; cbn; [done|]. destruct (first x <? first y); [done|].
  rewrite IH. apply Permutation_swap.
Qed.

Lemma insert_interval_sorted x l :
  StronglySorted by_first l -> StronglySorted by_first (insert_interval x l).
Proof.
  induction l as [|y l IH]; cbn; intros Hs; [by repeat constructor|].
  pose proof Hs as Hs0. apply StronglySorted_inv in Hs as [Hs Hy].
  destruct (Z.ltb_spec (first x) (first y)).
  - constructor; [done|]. constructor; [unfold by_first; lia|].
    eapply Forall_impl; [exact Hy|]. unfold by_first. intros; lia.
  - constructor; [by apply IH|]. rewrite insert_interval_perm. constructor; [unfold by_first; lia|done].
Qed.

Lemma insert_all_spec l : forall acc, StronglySorted by_first acc ->
  StronglySorted by_first (fold_left (fun l x => insert_interval x l) l acc) /\
  fold_left (fun l x => insert_interval x l) l acc ≡ₚ l ++ acc.
Proof.
  induction l as [|x l IH]; intros acc Hs; cbn; [done|].
  destruct (IH (insert_interval x acc)) as [Hs' Hp]; [by apply insert_interval_sorted|].
  split; [done|]. rewrite Hp, insert_interval_perm. by rewrite Permutation_middle.
Qed.

Lemma covers_perm l l' x : l ≡ₚ l' -> covers l x = covers l' x.
Proof.
  intros Hp. apply Bool.eq_iff_eq_true. rewrite !covers_spec. by setoid_rewrite Hp.
Qed.

Lemma merge_spec l : forall cur,
  StronglySorted by_first (cur :: l) -> Forall (fun iv => first iv <= last iv) (cur :: l) ->
  canonical (merge_intervals cur l) /\
  (forall x, covers (merge_intervals cur l) x = covers (cur :: l) x) /\
  forall x, covers (merge_intervals cur l) x = true -> first cur <= x.
Proof.
  induction l as [|y l IH]; intros cur Hs Hv.
  - cbn. split; [by split; repeat constructor; inversion Hv|]. split; [done|].
    intros x Hx. rewrite orb_false_r in Hx. apply in_interval_spec in Hx. lia.
  - apply StronglySorted_inv in Hs as [Hs Hc]. apply Forall_cons in Hv as [Hv Hvl].
    pose proof (Forall_inv Hc) as Hcy. unfold by_first in Hcy.
    cbn [merge_intervals]. destruct (Z.ltb_spec (last cur + 1) (first y)).
    + destruct (IH y Hs Hvl) as (H1 & H2 & H3). split; [|split].
      * apply canonical_cons. split; [done|]. split; [|done]. intros x Hx. apply H3 in Hx. lia.
      * intros x. cbn. f_equal. apply H2.
      * intros x. cbn. intros [Hx|Hx]%orb_true_iff; [apply in_interval_spec in Hx; lia|].
        apply H3 in Hx. lia.
    + apply StronglySorted_inv in Hs as [Hs Hy]. apply Forall_cons in Hvl as [Hvy Hvl].
      destruct (IH (MkIv (first cur) (Z.max (last cur) (last y)))) as (H1 & H2 & H3).
      * constructor; [done|]. apply Forall_cons in Hc as [_ Hc]. exact Hc.
      * constructor; [cbn; lia|done].
      * split; [done|]. split; [|done]. intros x. rewrite H2. cbn. rewrite orb_assoc. f_equal.
        apply Bool.eq_iff_eq_true. rewrite orb_true_iff, !in_interval_spec. cbn. lia.
Qed.

Lemma sort_and_merge_spec l :
  Forall valid l ->
  canonical (sort_and_merge l) /\ forall x, covers (sort_and_merge l) x = covers l x.
Proof.
  intros Hv. unfold sort_and_merge.
  destruct (insert_all_spec l [] ltac:(constructor)) as [Hs Hp]. rewrite app_nil_r in Hp.
  destruct (fold_left _ l []) as [|y ys].
  - split; [by repeat constructor|]. intros x. rewrite <- (covers_perm [] l x); [done|done].
  - destruct (merge_spec ys y Hs) as (H1 & H2 & _).
    + rewrite Hp. eapply Forall_impl; [exact Hv|]. unfold valid. intros; lia.
    + split; [done|]. intros x. rewrite H2. by apply covers_perm.
Qed.

Definition il_ok (s : IntervalListSet) : Prop :=
  canonical (ivs s) /\ nIntervals s = Z.of_nat (length (ivs s)) /\ nIntervals s <= INT32_MAX.

Lemma sorted_lookup {A} (R : A -> A -> Prop) l : StronglySorted R l ->
  forall i j a b, l !! i = Some a -> l !! j = Some b -> (i < j)%nat -> R a b.
Proof.
  induction 1 as [|x l Hs IH Hx]; intros [|i] [|j] a b Ha Hb Hij; try done; try lia.
  - injection Ha as <-. rewrite Forall_forall in Hx. apply Hx. by eapply list_elem_of_lookup_2.
  - eapply IH; [exact Ha|exact Hb|lia].
Qed.

Lemma canonical_lookup l i j a b :
  canonical l -> znth l i = Some a -> znth l j = Some b -> i < j -> last a + 1 < first b.
Proof.
  intros [Hs _] Ha Hb Hij. unfold znth in Ha, Hb.
  destruct (Z.ltb_spec i 0), (Z.ltb_spec j 0); try done.
  exact (sorted_lookup apart l Hs (Z.to_nat i) (Z.to_nat j) a b Ha Hb ltac:(lia)).
Qed.

Lemma canonical_nonempty l i a : canonical l -> znth l i = Some a -> first a <= last a.
Proof.
  intros [_ Hv] Ha. rewrite Forall_forall in Hv. apply Hv.
  unfold znth in Ha. destruct (i <? 0); [done|]. by eapply list_elem_of_lookup_2.
Qed.

Lemma covers_znth l x : covers l x = true <-> exists i iv, znth l i = Some iv /\ first iv <= x <= last iv.
Proof.
  rewrite covers_spec. split.
  - intros (iv & Hiv & Hx). apply list_elem_of_lookup in Hiv as [i Hi]. exists (Z.of_nat i), iv.
    split; [|done]. unfold znth. destruct (Z.ltb_spec (Z.of_nat i) 0); [lia|]. by rewrite Nat2Z.id.
  - intros (i & iv & Hi & Hx). exists iv. split; [|done].
    unfold znth in Hi. destruct (i <? 0); [done|]. by eapply list_elem_of_lookup_2.
Qed.

(** The binary search ends and finds whether a number is covered. *)
Lemma IntervalList_member s pm : il_ok s ->
  IntervalListIsMemberOfSet s pm = Ret (covers (ivs s) pm).
Proof.
  intros (Hc & Hn & Hmax). unfold IntervalListIsMemberOfSet.
  set (n := Z.of_nat (length (ivs s))) in *. assert (0 <= n) as Hn0 by (unfold n; lia).
  destruct (run_loop_total (probe_step s pm)
    (fun '(lo, hi) => 0 <= lo <= n /\ -1 <= hi < n /\ lo <= hi + 1 /\
       forall i iv, znth (ivs s) i = Some iv ->
         (i < lo -> last iv < pm) /\ (hi < i -> pm < first iv))
    (fun r => r = covers (ivs s) pm) (fun '(lo, hi) => hi - lo + 1) TURNS (0, nIntervals s - 1))
    as (r & Hr & ->); [| |unfold INT32_MAX in Hmax; unfold TURNS; lia|done].
  - intros [lo hi] (Hlo & Hhi & Hle & Hinv). unfold probe_step.
    destruct (Z.ltb_spec hi lo) as [Hend|Hgo].
    + symmetry. apply not_true_iff_false. intros (i & iv & Hi & Hx)%covers_znth.
      specialize (Hinv i iv Hi). lia.
    + assert (0 <= lo <= Z.quot (hi + lo) 2 /\ Z.quot (hi + lo) 2 <= hi) as Hp.
      { rewrite Z.quot_div_nonneg by lia. Z.div_mod_to_equations; lia. }
      destruct (znth_Some (ivs s) (Z.quot (hi + lo) 2)) as [iv Hiv]; [lia|]. rewrite Hiv.
      pose proof (canonical_nonempty _ _ _ Hc Hiv) as Hne.
      destruct ((first iv <=? pm) && (pm <=? last iv)) eqn:Hin.
      { symmetry. apply covers_znth. breflect. eauto 10. }
      apply andb_false_iff in Hin. rewrite !Z.leb_gt in Hin.
      destruct (Z.ltb_spec pm (first iv)).
      * split; [|lia]. do 3 (split; [lia|]). intros i jv Hi. specialize (Hinv i jv Hi).
        split; [lia|]. intros Hlt. destruct (decide (i = Z.quot (hi + lo) 2)) as [->|].
        -- rewrite Hi in Hiv. by injection Hiv as ->.
        -- pose proof (canonical_lookup _ _ _ _ _ Hc Hiv Hi ltac:(lia)). lia.
      * split; [|lia]. do 3 (split; [lia|]). intros i jv Hi. specialize (Hinv i jv Hi).
        split; [|lia]. intros Hlt. destruct (decide (i = Z.quot (hi + lo) 2)) as [->|].
        -- rewrite Hi in Hiv. injection Hiv as ->. lia.
        -- pose proof (canonical_lookup _ _ _ _ _ Hc Hi Hiv ltac:(lia)).
           pose proof (canonical_nonempty _ _ _ Hc Hi). lia.
  - rewrite Hn. do 3 (split; [lia|]). intros i iv Hi. apply znth_lt in Hi. fold n in Hi. lia.
Qed.

(** Iterating gives the list. *)
Lemma IntervalList_collect s : il_ok s -> collect s = Ret (ivs s).
Proof.
  intros (Hc & Hn & Hmax). unfold collect.
  destruct (run_loop_total (collect_step s)
    (fun '(it, acc) => let i := match it with Null => 0 | At n => n end in
       0 <= i <= nIntervals s /\ acc = take (Z.to_nat i) (ivs s))
    (fun r => r = ivs s)
    (fun st => nIntervals s - match st.1 with Null => 0 | At n => n end) TURNS (Null, []))
    as (r & Hr & ->); [|cbn; split; [lia|done]|cbn [fst]; unfold INT32_MAX in Hmax; unfold TURNS; lia|done].
  intros [it acc] [Hi ->]. cbn [collect_step IterateSet IntervalListSetOperations].
  unfold IntervalListIterateSet. set (i := match it with Null => 0 | At n => n end) in *.
  destruct (Z.ltb_spec i (nIntervals s)).
  - destruct (znth_Some (ivs s) i ltac:(lia)) as [iv Hiv]. rewrite Hiv. cbn [obind_opt fst].
    fold i. split; [|lia]. split; [lia|].
    replace (Z.to_nat (i + 1)) with (S (Z.to_nat i)) by lia.
    unfold znth in Hiv. destruct (Z.ltb_spec i 0); [lia|]. by rewrite (take_S_r _ _ _ Hiv).
  - apply take_ge. lia.
Qed.

(** ** Bit vectors *)

Definition bit (words : list Z) (b : Z) : bool :=
  match znth words (b / BITS_PER_LONG) with
  | Some w => Z.testbit w (b mod BITS_PER_LONG)
  | None => false
  end.

Definition word_ok (w : Z) : Prop := 0 <= w <= ALL_ONES.

Record bv_ok (s : BitVectorSet) : Prop := {
  bo_words : Forall word_ok (bitvec s);
  bo_max : -1 <= bv_maxMember s <= 65535;
  bo_len : bv_maxMember s < BITS_PER_LONG * Z.of_nat (length (bitvec s));
  bo_high : forall b, bv_maxMember s < b -> bit (bitvec s) b = false
}.

Lemma word_ok_znth l i w : Forall word_ok l -> znth l i = Some w -> word_ok w.
Proof.
  intros Hl Hw. rewrite Forall_forall in Hl. apply Hl. unfold znth in Hw.
  destruct (i <? 0); [done|]. by eapply list_elem_of_lookup_2.
Qed.

Lemma all_ones_bits k : 0 <= k -> Z.testbit ALL_ONES k = (k <? 64).
Proof.
  intros Hk. change ALL_ONES with (Z.ones 64). apply Bool.eq_iff_eq_true.
  rewrite Z.ones_spec_iff by lia. rewrite Z.ltb_lt. lia.
Qed.

Lemma word_high w k : word_ok w -> 64 <= k -> Z.testbit w k = false.
Proof.
  intros [H0 H1] Hk. destruct (Z.eq_dec w 0) as [->|]; [apply Z.bits_0|].
  apply Z.bits_above_log2; [done|]. assert (Z.log2 w < 64); [|lia].
  apply Z.log2_lt_pow2; [lia|]. unfold ALL_ONES in H1. lia.
Qed.

Lemma land_bit w k : 0 <= k -> (Z.land w (Z.shiftl 1 k) =? 0) = negb (Z.testbit w k).
Proof.
  intros Hk. rewrite Z.shiftl_1_l. destruct (Z.testbit w k) eqn:E; cbn.
  - apply Z.eqb_neq. intros H. pose proof (Z.bits_0 k) as H0. rewrite <- H in H0.
    rewrite Z.land_spec, E, Z.pow2_bits_true in H0 by done. done.
  - apply Z.eqb_eq, Z.bits_inj_0. intros j. rewrite Z.land_spec.
    destruct (Z.eq_dec k j) as [<-|Hne]; [by rewrite E|].
    rewrite Z.pow2_bits_false by done. by rewrite andb_false_r.
Qed.

Lemma lor_bit w k j : 0 <= k -> Z.testbit (Z.lor w (Z.shiftl 1 k)) j = Z.testbit w j || (j =? k).
Proof.
  intros Hk. rewrite Z.lor_spec, Z.shiftl_1_l. f_equal. destruct (Z.eqb_spec j k) as [->|].
  - by apply Z.pow2_bits_true.
  - by apply Z.pow2_bits_false.
Qed.

Lemma lor_word w k : word_ok w -> 0 <= k < 64 -> word_ok (Z.lor w (Z.shiftl 1 k)).
Proof.
  intros Hw Hk. split.
  - apply Z.lor_nonneg. split; [apply Hw|]. apply Z.shiftl_nonneg. lia.
  - assert (Z.land (Z.lor w (Z.shiftl 1 k)) ALL_ONES = Z.lor w (Z.shiftl 1 k)) as <-.
    + apply Z.bits_inj'. intros j Hj. rewrite Z.land_spec, lor_bit, all_ones_bits by lia.
      destruct (Z.ltb_spec j 64); [apply andb_true_r|]. rewrite word_high by done.
      destruct (Z.eqb_spec j k); [lia|done].
    + change ALL_ONES with (Z.ones 64). rewrite Z.land_ones by lia.
      pose proof (Z.mod_pos_bound (Z.lor w (Z.shiftl 1 k)) (2 ^ 64) ltac:(lia)).
      change (Z.ones 64) with (2 ^ 64 - 1). lia.
Qed.

(** *** Creation *)

Lemma set_bit_spec words j :
  Forall word_ok words -> 0 <= j < BITS_PER_LONG * Z.of_nat (length words) ->
  exists words', set_bit words j = Ret words' /\ Forall word_ok words' /\
    length words' = length words /\
    forall b, 0 <= b -> bit words' b = bit words b || (b =? j).
Proof.
  intros Hw Hj. unfold set_bit, BITS_PER_LONG in *.
  assert (0 <= j / 64 < Z.of_nat (length words)) as Hq by (Z.div_mod_to_equations; lia).
  pose proof (Z.mod_pos_bound j 64 ltac:(lia)) as Hm.
  destruct (znth_Some words (j / 64) Hq) as [w Hz]. rewrite Hz. cbn [obind_opt].
  eexists. split; [done|]. split; [|split; [apply length_zset|]].
  - unfold zset. destruct (j / 64 <? 0); [done|]. apply Forall_insert; [done|].
    apply lor_word; [by eapply word_ok_znth|done].
  - intros b Hb. unfold bit, BITS_PER_LONG. destruct (Z.eq_dec (b / 64) (j / 64)) as [He|He].
    + rewrite He, znth_zset_eq by done. rewrite Hz, lor_bit by lia. f_equal.
      apply Bool.eq_iff_eq_true. rewrite !Z.eqb_eq. split; [|congruence].
      intros Hmod. rewrite (Z.div_mod b 64), (Z.div_mod j 64) by lia. by rewrite He, Hmod.
    + rewrite znth_zset_ne by (lia || Z.div_mod_to_equations; lia).
      destruct (Z.eqb_spec b j) as [->|]; [done|]. by rewrite orb_false_r.
Qed.

Lemma set_bits_spec n : forall words lo,
  Forall word_ok words -> 0 <= lo -> lo + Z.of_nat n <= BITS_PER_LONG * Z.of_nat (length words) ->
  exists words', ofold set_bit (seqZ lo (Z.of_nat n)) words = Ret words' /\ Forall word_ok words' /\
    length words' = length words /\
    forall b, 0 <= b -> bit words' b = bit words b || ((lo <=? b) && (b <? lo + Z.of_nat n)).
Proof.
  induction n as [|n IH]; intros words lo Hw Hlo Hr.
  - exists words. split; [done|]. do 2 (split; [done|]). intros b Hb.
    destruct (Z.leb_spec lo b), (Z.ltb_spec b (lo + Z.of_nat 0)); try lia; by rewrite orb_false_r.
  - rewrite seqZ_cons by lia. cbn [ofold].
    destruct (set_bit_spec words lo Hw ltac:(lia)) as (w1 & -> & Hw1 & Hl1 & Hb1). cbn [obind].
    replace (Z.pred (Z.of_nat (S n))) with (Z.of_nat n) by lia.
    destruct (IH w1 (Z.succ lo) Hw1 ltac:(lia) ltac:(rewrite Hl1; lia)) as (w2 & -> & Hw2 & Hl2 & Hb2).
    exists w2. split; [done|]. split; [done|]. split; [congruence|]. intros b Hb.
    rewrite Hb2, Hb1 by done. rewrite <- orb_assoc. f_equal. apply Bool.eq_iff_eq_true.
    rewrite orb_true_iff, !andb_true_iff, Z.eqb_eq, !Z.leb_le, !Z.ltb_lt. lia.
Qed.

Lemma set_intervals_spec l : forall words,
  Forall word_ok words ->
  Forall (fun iv => valid iv /\ last iv < BITS_PER_LONG * Z.of_nat (length words)) l ->
  exists words', ofold set_interval l words = Ret words' /\ Forall word_ok words' /\
    length words' = length words /\
    forall b, 0 <= b -> bit words' b = bit words b || covers l b.
Proof.
  induction l as [|iv l IH]; intros words Hw Hl; cbn [ofold].
  - exists words. do 3 (split; [done|]). intros b _. cbn. by rewrite orb_false_r.
  - apply Forall_cons in Hl as [[Hv Hlast] Hl]. unfold valid in Hv. unfold set_interval at 1.
    destruct (set_bits_spec (Z.to_nat (last iv + 1 - first iv)) words (first iv) Hw)
      as (w1 & H1 & Hw1 & Hl1 & Hb1); [lia|lia|].
    rewrite Z2Nat.id in H1, Hb1 by lia. rewrite H1. cbn [obind].
    destruct (IH w1 Hw1) as (w2 & -> & Hw2 & Hl2 & Hb2); [by rewrite Hl1|].
    exists w2. split; [done|]. split; [done|]. split; [congruence|]. intros b Hb.
    rewrite Hb2, Hb1 by done. cbn. rewrite orb_assoc. f_equal. f_equal. unfold in_interval.
    f_equal. apply Bool.eq_iff_eq_true. rewrite Z.ltb_lt, Z.leb_le. lia.
Qed.

Lemma max_member_spec l : Forall valid l ->
  -1 <= maxMemberInInterval l <= 65535 /\ Forall (fun iv => last iv <= maxMemberInInterval l) l.
Proof.
  unfold maxMemberInInterval. intros Hl.
  assert (H : forall l acc, Forall valid l -> -1 <= acc <= 65535 ->
    let m := fold_left (fun m i => if m <? last i then last i else m) l acc in
    acc <= m <= 65535 /\ Forall (fun iv => last iv <= m) l).
  { clear l Hl. induction l as [|iv l IH]; intros acc Hl Hacc; cbn; [split; [lia|constructor]|].
    apply Forall_cons in Hl as [Hv Hl]. unfold valid in Hv.
    destruct (IH (if acc <? last iv then last iv else acc) Hl) as [Hm Hf].
    { destruct (acc <? last iv); lia. }
    cbv zeta in Hm, Hf. split; [destruct (Z.ltb_spec acc (last iv)); lia|].
    constructor; [destruct (Z.ltb_spec acc (last iv)); lia|done]. }
  destruct (H l (-1) Hl ltac:(lia)) as [Hm Hf]. split; [lia|done].
Qed.

Lemma covers_max l x : Forall valid l -> maxMemberInInterval l < x -> covers l x = false.
Proof.
  intros Hl Hx. apply not_true_iff_false. intros (iv & Hiv & Hr)%covers_spec.
  destruct (max_member_spec l Hl) as [_ Hf]. rewrite Forall_forall in Hf. specialize (Hf iv Hiv). lia.
Qed.

Lemma covers_neg l x : Forall valid l -> x < 0 -> covers l x = false.
Proof.
  intros Hl Hx. apply not_true_iff_false. intros (iv & Hiv & Hr)%covers_spec.
  rewrite Forall_forall in Hl. specialize (Hl iv Hiv). unfold valid in Hl. lia.
Qed.

(** The bit vector has the bits of the intervals. *)
Lemma BitVectorCreate_spec al l pMem :
  Forall valid l ->
  (pMem = None -> al 0%nat (BitVectorSetMemoryRequirements (maxMemberInInterval l)).1 = true) ->
  exists s, BitVectorCreateSet al l pMem (BitVectorSetMemoryRequirements (maxMemberInInterval l)).1
              = Ret (Some s) /\ bv_ok s /\ forall b, 0 <= b -> bit (bitvec s) b = covers l b.
Proof.
  intros Hl Hal. pose proof (max_member_spec l Hl) as [Hm Hf].
  unfold BitVectorCreateSet, BitVectorSetMemoryRequirements in *. cbn [fst] in *.
  set (M := maxMemberInInterval l) in *. unfold BITS_PER_LONG in *.
  rewrite u64_small in * by lia.
  assert (0 <= (M + 64) / 64 <= 1024) as Hd by (Z.div_mod_to_equations; lia).
  rewrite i32_small in * by lia.
  replace (match pMem with Some _ => false | None => _ end) with false.
  2:{ destruct pMem; [done|]. by rewrite Hal. }
  replace ((16 + (M + 64) / 64 * 8 - 16) / 8) with ((M + 64) / 64)
    by (replace (16 + (M + 64) / 64 * 8 - 16) with ((M + 64) / 64 * 8) by lia; by rewrite Z.div_mul by lia).
  set (n := Z.to_nat ((M + 64) / 64)).
  assert (HM : M < 64 * Z.of_nat n) by (unfold n; Z.div_mod_to_equations; lia).
  destruct (set_intervals_spec l (replicate n 0)) as (w & -> & Hw & Hlen & Hb).
  { apply Forall_replicate. unfold word_ok, ALL_ONES. lia. }
  { rewrite length_replicate. rewrite Forall_forall in *. intros iv Hiv.
    split; [by apply Hl|]. specialize (Hf iv Hiv). cbv beta in Hf. unfold BITS_PER_LONG. lia. }
  cbn [obind]. eexists. split; [done|]. rewrite length_replicate in Hlen.
  assert (Hb' : forall b, 0 <= b -> bit w b = covers l b).
  { intros b H0. rewrite Hb by done. unfold bit.
    destruct (znth (replicate n 0) (b / BITS_PER_LONG)) as [x|] eqn:Hz; [|done].
    assert (x = 0) as ->; [|by rewrite Z.bits_0].
    unfold znth in Hz. destruct (_ <? 0); [done|]. apply lookup_replicate in Hz. tauto. }
  split; [|done]. split; cbn [bv_maxMember bitvec].
  - done.
  - done.
  - rewrite Hlen. unfold BITS_PER_LONG. lia.
  - intros b Hlt. destruct (Z.lt_ge_cases b 0).
    + unfold bit, znth, BITS_PER_LONG. destruct (Z.ltb_spec (b / 64) 0); [done|].
      Z.div_mod_to_equations; lia.
    + rewrite Hb' by done. by apply covers_max.
Qed.

(** *** Searching *)

Section FindBit.
Context (s : BitVectorSet) (Hs : bv_ok s).
Notation bits := (bit (bitvec s)).
Notation len := (Z.of_nat (length (bitvec s))).

Lemma bit_word i k w : znth (bitvec s) i = Some w -> 0 <= k < 64 -> bits (64 * i + k) = Z.testbit w k.
Proof.
  intros Hw Hk. unfold bit, BITS_PER_LONG.
  rewrite (Z.mul_comm 64), Z.div_add_l, Z.div_small, Z.add_0_r, Hw by lia.
  by rewrite Z.add_comm, Z.mod_add, Z.mod_small by lia.
Qed.

Lemma word_at i : 0 <= i -> 64 * i <= bv_maxMember s -> exists w, znth (bitvec s) i = Some w /\ word_ok w.
Proof.
  intros Hi Hm. pose proof (bo_len s Hs) as Hl. unfold BITS_PER_LONG in Hl.
  destruct (znth_Some (bitvec s) i) as [w Hw]; [lia|]. exists w. split; [done|].
  eapply word_ok_znth; [apply Hs|done].
Qed.

(** The skip value: no bit has the wanted value. *)
Definition skipval (v : bool) : Z := if v then 0 else ALL_ONES.
Lemma skipval_bits v k : 0 <= k < 64 -> Z.testbit (skipval v) k = negb v.
Proof.
  intros Hk. destruct v; cbn [skipval negb]; [apply Z.bits_0|].
  rewrite all_ones_bits by lia. apply Z.ltb_lt. lia.
Qed.

(** Comparing the useful bits compares the bits from [k] on. *)
Lemma useful_eq w v k : word_ok w -> 0 <= k < 64 ->
  (Z.land w (Z.ldiff ALL_ONES (Z.shiftl 1 k - 1)) =? Z.land (skipval v) (Z.ldiff ALL_ONES (Z.shiftl 1 k - 1)))
    = true <-> forall j, k <= j < 64 -> Z.testbit w j = negb v.
Proof.
  intros Hw Hk. rewrite Z.eqb_eq.
  assert (Hu : forall j, 0 <= j -> Z.testbit (Z.ldiff ALL_ONES (Z.shiftl 1 k - 1)) j = (k <=? j) && (j <? 64)).
  { intros j Hj. replace (Z.shiftl 1 k - 1) with (Z.ones k) by (rewrite Z.ones_equiv, Z.shiftl_1_l; lia).
    rewrite Z.ldiff_spec, all_ones_bits by done. apply Bool.eq_iff_eq_true.
    rewrite !andb_true_iff, negb_true_iff, <- not_true_iff_false, Z.ones_spec_iff by lia.
    rewrite Z.leb_le, Z.ltb_lt. lia. }
  split.
  - intros He j Hj. assert (Z.testbit (Z.land w (Z.ldiff ALL_ONES (Z.shiftl 1 k - 1))) j =
      Z.testbit (Z.land (skipval v) (Z.ldiff ALL_ONES (Z.shiftl 1 k - 1))) j) as Hb by by rewrite He.
    rewrite !Z.land_spec, Hu, skipval_bits in Hb by lia.
    destruct (Z.leb_spec k j), (Z.ltb_spec j 64); try lia. by rewrite !andb_true_r in Hb.
  - intros Hb. apply Z.bits_inj'. intros j Hj. rewrite !Z.land_spec, Hu by done.
    destruct (Z.leb_spec k j), (Z.ltb_spec j 64); cbn; rewrite ?andb_false_r; try done.
    rewrite !andb_true_r, Hb, skipval_bits by lia. done.
Qed.
Lemma skip_spec v i0 : 0 <= i0 ->
  exists i, run_loop (skip_step s (skipval v)) TURNS (i0, 64 * i0) = Ret (i, 64 * i) /\ i0 <= i /\
    (forall b, 64 * i0 <= b < 64 * i -> bits b = negb v) /\
    (64 * i <= bv_maxMember s -> exists w, znth (bitvec s) i = Some w /\ word_ok w /\ w <> skipval v).
Proof.
  intros Hi0. pose proof (bo_max s Hs) as Hmax.
  destruct (run_loop_total (skip_step s (skipval v))
    (fun '(i, sb) => sb = 64 * i /\ i0 <= i /\ forall b, 64 * i0 <= b < 64 * i -> bits b = negb v)
    (fun '(i, sb) => sb = 64 * i /\ i0 <= i /\ (forall b, 64 * i0 <= b < 64 * i -> bits b = negb v) /\
       (64 * i <= bv_maxMember s -> exists w, znth (bitvec s) i = Some w /\ word_ok w /\ w <> skipval v))
    (fun st => bv_maxMember s + 64 - st.2) TURNS (i0, 64 * i0)) as ([i sb] & Hr & -> & H1 & H2 & H3).
  - intros [i sb] (-> & Hi & Hb). unfold skip_step.
    destruct (Z.leb_spec (64 * i) (bv_maxMember s)) as [Hle|Hgt].
    2:{ do 3 (split; [done|]). lia. }
    destruct (word_at i ltac:(lia) Hle) as (w & Hw & Hok). rewrite Hw.
    destruct (Z.eqb_spec w (skipval v)) as [->|Hne].
    + unfold BITS_PER_LONG. cbn [snd]. split; [|lia]. split; [lia|]. split; [lia|].
      intros b Hr. destruct (Z.lt_ge_cases b (64 * i)); [apply Hb; lia|].
      replace b with (64 * i + (b - 64 * i)) by lia.
      rewrite (bit_word _ _ _ Hw), skipval_bits by lia. done.
    + do 3 (split; [done|]). eauto.
  - split; [done|]. split; [lia|]. intros; lia.
  - cbn [snd]. unfold TURNS. lia.
  - exists i. rewrite Hr. done.
Qed.

Lemma walk_spec w v k0 : 0 <= k0 <= 64 ->
  exists k, run_loop (walk_step w v) TURNS k0 = Ret k /\ k0 <= k <= 64 /\
    (forall j, k0 <= j < k -> Z.testbit w j = negb v) /\ (k < 64 -> Z.testbit w k = v).
Proof.
  intros Hk0.
  destruct (run_loop_total (walk_step w v)
    (fun k => k0 <= k <= 64 /\ forall j, k0 <= j < k -> Z.testbit w j = negb v)
    (fun k => k0 <= k <= 64 /\ (forall j, k0 <= j < k -> Z.testbit w j = negb v) /\
       (k < 64 -> Z.testbit w k = v)) (fun k => 64 - k) TURNS k0) as (k & Hr & H1 & H2 & H3).
  - intros k [Hk Hb]. unfold walk_step, BITS_PER_LONG. rewrite land_bit by lia.
    destruct (Z.ltb_spec k 64) as [Hlt|]; cbn [andb]; [|split; [lia|]; split; [done|lia]].
    destruct (Bool.eqb (negb (Z.testbit w k)) v) eqn:E.
    + apply Bool.eqb_prop in E. split; [|lia]. split; [lia|]. intros j Hj.
      destruct (Z.eq_dec j k) as [->|]; [|apply Hb; lia]. rewrite <- E. by rewrite negb_involutive.
    + split; [lia|]. split; [done|]. intros _. apply Bool.eqb_false_iff in E.
      destruct (Z.testbit w k), v; done.
  - split; [lia|]. intros; lia.
  - unfold TURNS. lia.
  - exists k. done.
Qed.

(** Where the search goes on: at the first word that can have the bit. *)
Lemma after_skip iterbit v i0 w0 :
  0 <= i0 /\ 0 <= iterbit - 64 * i0 < 64 -> znth (bitvec s) i0 = Some w0 -> word_ok w0 ->
  exists i w, (if Z.land w0 (Z.ldiff ALL_ONES (Z.shiftl 1 (iterbit - 64 * i0) - 1)) =?
       Z.land (skipval v) (Z.ldiff ALL_ONES (Z.shiftl 1 (iterbit - 64 * i0) - 1))
     then run_loop (skip_step s (skipval v)) TURNS (i0 + 1, 64 * i0 + 64)
     else Ret (i0, 64 * i0)) = Ret (i, 64 * i) /\ i0 <= i /\
    (forall b, iterbit <= b < 64 * i -> bits b = negb v) /\
    (64 * i <= bv_maxMember s -> znth (bitvec s) i = Some w /\ word_ok w /\
       ~ forall j, Z.max 0 (iterbit - 64 * i) <= j < 64 -> Z.testbit w j = negb v).
Proof.
  intros Hdiv Hw0 Hok0. pose proof (useful_eq w0 v (iterbit - 64 * i0) Hok0 (proj2 Hdiv)) as Hu.
  destruct (_ =? _) eqn:E.
  - destruct (skip_spec v (i0 + 1) ltac:(lia)) as (i & Hr & Hi & Hb & Hw).
    replace (64 * i0 + 64) with (64 * (i0 + 1)) by lia. rewrite Hr.
    destruct (Z.leb_spec (64 * i) (bv_maxMember s)) as [Hle|Hgt].
    + destruct (Hw Hle) as (w & Hz & Hok & Hne). exists i, w. split; [done|]. split; [lia|]. split.
      * intros b Hr'. destruct (Z.lt_ge_cases b (64 * (i0 + 1))); [|apply Hb; lia].
        replace b with (64 * i0 + (b - 64 * i0)) by lia. rewrite (bit_word _ _ _ Hw0) by lia.
        apply Hu; [done|lia].
      * intros _. split; [done|]. split; [done|]. intros Hall. apply Hne.
        apply Z.bits_inj'. intros j Hj. destruct (Z.lt_ge_cases j 64).
        -- rewrite skipval_bits by lia. apply Hall. lia.
        -- rewrite (word_high w) by done. destruct v; [by rewrite Z.bits_0|].
           cbn [skipval]. rewrite all_ones_bits by lia. symmetry. apply Z.ltb_ge. lia.
    + exists i, 0. split; [done|]. split; [lia|]. split; [|lia].
      intros b Hr'. destruct (Z.lt_ge_cases b (64 * (i0 + 1))); [|apply Hb; lia].
      replace b with (64 * i0 + (b - 64 * i0)) by lia. rewrite (bit_word _ _ _ Hw0) by lia.
      apply Hu; [done|lia].
  - exists i0, w0. split; [done|]. split; [lia|]. split; [intros; lia|]. intros _.
    split; [done|]. split; [done|]. intros Hall. discriminate (proj2 Hu ltac:(intros j Hj; apply Hall; lia)).
Qed.

(** The search finds the first bit of the value from [iterbit] on, or that
    there is none up to the largest member. *)
Lemma FindBit_spec iterbit v : 0 <= iterbit ->
  exists r, BitVectorFindBit s iterbit v = Ret r /\
    ((r = -1 /\ forall b, iterbit <= b <= bv_maxMember s -> bits b = negb v) \/
     (iterbit <= r /\ bits r = v /\ forall b, iterbit <= b < r -> bits b = negb v)).
Proof.
  intros Hit. unfold BitVectorFindBit, BITS_PER_LONG. fold (skipval v).
  set (i0 := iterbit / 64). rewrite (Z.mul_comm i0).
  assert (Hdiv : 0 <= i0 /\ 0 <= iterbit - 64 * i0 < 64) by (unfold i0; Z.div_mod_to_equations; lia).
  destruct (Z.ltb_spec (bv_maxMember s) (64 * i0)) as [Hend|Hin].
  { exists (-1). split; [done|]. left. split; [done|]. intros; lia. }
  destruct (word_at i0 ltac:(lia) Hin) as (w0 & Hw0 & Hok0). rewrite Hw0. cbn [obind_opt].
  destruct (after_skip iterbit v i0 w0 Hdiv Hw0 Hok0) as (i & w & -> & Hi & Hbefore & Hw).
  cbn [obind]. destruct (Z.ltb_spec (bv_maxMember s) (64 * i)) as [Hend|Hin'].
  { exists (-1). split; [done|]. left. split; [done|]. intros b Hb. apply Hbefore. lia. }
  destruct (Hw Hin') as (Hz & Hok & Hex). rewrite Hz. cbn [obind_opt].
  replace (if 64 * i <? iterbit then iterbit - 64 * i else 0) with (Z.max 0 (iterbit - 64 * i))
    by (destruct (Z.ltb_spec (64 * i) iterbit); lia).
  destruct (walk_spec w v (Z.max 0 (iterbit - 64 * i))) as (k & -> & Hk & Hpre & Hat); [lia|].
  cbn [obind]. exists (64 * i + k). split; [done|]. right.
  assert (k < 64) as Hlt.
  { destruct (Z.lt_ge_cases k 64); [done|]. exfalso. apply Hex. intros j Hj. apply Hpre. lia. }
  split; [lia|]. split; [rewrite (bit_word _ _ _ Hz) by lia; by apply Hat|].
  intros b Hb. destruct (Z.lt_ge_cases b (64 * i)); [apply Hbefore; lia|].
  replace b with (64 * i + (b - 64 * i)) by lia. rewrite (bit_word _ _ _ Hz) by lia. apply Hpre. lia.
Qed.
End FindBit.

(** *** Membership and iteration *)

Lemma BitVector_member s pm : bv_ok s -> 0 <= pm <= INT32_MAX ->
  BitVectorIsMemberOfSet s pm = Ret (bit (bitvec s) pm).
Proof.
  intros Hs Hpm. unfold BitVectorIsMemberOfSet, INT32_MAX in *.
  destruct (Z.ltb_spec (bv_maxMember s) pm); [by rewrite (bo_high s Hs)|].
  rewrite u64_small by lia. pose proof (bo_len s Hs) as Hl. unfold BITS_PER_LONG in *.
  destruct (znth_Some (bitvec s) (pm / 64)) as [w Hw]; [Z.div_mod_to_equations; lia|].
  rewrite Hw. cbn [obind_opt]. rewrite land_bit by (Z.div_mod_to_equations; lia).
  rewrite negb_involutive. unfold bit, BITS_PER_LONG. by rewrite Hw.
Qed.

Definition iter_index (it : RecordSetIterate) : Z := match it with Null => 0 | At n => n end.

Lemma BitVector_iterate s it : bv_ok s -> 0 <= iter_index it ->
  exists r, BitVectorIterateSet s it = Ret r /\
    match r with
    | None => forall b, iter_index it <= b -> bit (bitvec s) b = false
    | Some (iv, it') =>
        iter_index it <= first iv /\ first iv <= last iv <= bv_maxMember s /\
        it' = At (last iv + 1) /\
        (forall b, iter_index it <= b < first iv -> bit (bitvec s) b = false) /\
        (forall b, first iv <= b <= last iv -> bit (bitvec s) b = true) /\
        bit (bitvec s) (last iv + 1) = false
    end.
Proof.
  intros Hs Hit. unfold BitVectorIterateSet. fold (iter_index it). pose proof (bo_max s Hs) as Hm.
  destruct (FindBit_spec s Hs (iter_index it) true Hit) as (r & -> & [[-> Hn]|(Hr & Hb & Hbefore)]);
    cbn [obind].
  { eexists. split; [done|]. intros b H. destruct (Z.lt_ge_cases (bv_maxMember s) b).
    - by apply (bo_high s Hs). - apply Hn. lia. }
  assert (Hrm : r <= bv_maxMember s).
  { destruct (Z.le_gt_cases r (bv_maxMember s)); [done|]. rewrite (bo_high s Hs) in Hb by lia. done. }
  destruct (Z.eqb_spec r (-1)); [lia|].
  destruct (FindBit_spec s Hs r false ltac:(lia)) as (e & -> & He). cbn [obind].
  assert (Hend : exists h, (if e <? 0 then bv_maxMember s else e - 1) = h /\ r <= h <= bv_maxMember s /\
    (forall b, r <= b <= h -> bit (bitvec s) b = true) /\ bit (bitvec s) (h + 1) = false).
  { destruct He as [[-> Hall]|(Hre & Heb & Hall)].
    - exists (bv_maxMember s). split; [done|]. split; [lia|]. split; [exact Hall|].
      apply (bo_high s Hs). lia.
    - exists (e - 1). destruct (Z.ltb_spec e 0); [lia|]. split; [done|].
      assert (r <> e) by congruence.
      split; [split; [lia|]|].
      + destruct (Z.le_gt_cases (e - 1) (bv_maxMember s)); [done|].
        specialize (Hall (bv_maxMember s + 1) ltac:(lia)). rewrite (bo_high s Hs) in Hall by lia. done.
      + split; [intros b Hr'; apply Hall; lia|]. by replace (e - 1 + 1) with e by lia. }
  destruct Hend as (h & -> & Hh & Hin & Hout). rewrite !u16_small by lia.
  destruct (Z.eqb_spec (h + 1) 0); [lia|]. eexists. split; [done|]. cbn [first last]. auto 10.
Qed.

(** What has been collected up to number [k]. *)
Definition collected (s : BitVectorSet) (k : Z) (acc : list RecordSetInterval) : Prop :=
  0 <= k <= 65536 /\ canonical acc /\ (forall x, 0 <= x < k -> covers acc x = bit (bitvec s) x) /\
  (forall x, x < 0 \/ k <= x -> covers acc x = false) /\
  (acc = [] \/ bit (bitvec s) k = false).

Lemma canonical_snoc l iv :
  canonical l -> first iv <= last iv -> (forall x, covers l x = true -> x + 1 < first iv) ->
  canonical (l ++ [iv]).
Proof.
  induction l as [|a l IH]; intros Hl Hv Hg; cbn [app].
  - split; repeat constructor; done.
  - apply canonical_cons in Hl as (Ha & Hgap & Hl).
    assert (last a + 1 < first iv) as Hai.
    { apply Hg. cbn. unfold in_interval. destruct (Z.leb_spec (first a) (last a)), (Z.leb_spec (last a) (last a)); try lia; done. }
    apply canonical_cons. split; [done|]. split.
    + intros x. rewrite covers_app. intros [Hx|Hx]%orb_true_iff; [by apply Hgap|].
      cbn in Hx. rewrite orb_false_r in Hx. apply in_interval_spec in Hx. lia.
    + apply IH; [done|done|]. intros x Hx. apply Hg. cbn. unfold covers in Hx. by rewrite Hx, orb_true_r.
Qed.

Lemma collected_snoc s k acc iv : bv_ok s ->
  collected s k acc -> k <= first iv -> first iv <= last iv <= bv_maxMember s ->
  (forall b, k <= b < first iv -> bit (bitvec s) b = false) ->
  (forall b, first iv <= b <= last iv -> bit (bitvec s) b = true) ->
  bit (bitvec s) (last iv + 1) = false ->
  collected s (last iv + 1) (acc ++ [iv]).
Proof.
  intros Hs (Hk & Hc & Hin & Hout & Hlast) Hf Hl Hb1 Hb2 Hb3. pose proof (bo_max s Hs).
  split; [lia|]. split; [|split; [|split; [|by right]]].
  - apply canonical_snoc; [done|lia|]. intros x Hx.
    assert (0 <= x < k) as Hxk.
    { destruct (Z.lt_ge_cases x 0), (Z.lt_ge_cases x k); try lia; rewrite Hout in Hx by lia; done. }
    destruct (Z.lt_ge_cases (x + 1) (first iv)); [done|]. exfalso.
    assert (first iv = k) as Hfk by lia.
    destruct Hlast as [->|Hlast]; [done|]. rewrite <- Hfk, Hb2 in Hlast by lia. done.
  - intros x Hx. rewrite covers_app. cbn [covers existsb]. rewrite orb_false_r.
    destruct (Z.lt_ge_cases x k).
    + rewrite Hin by lia. replace (in_interval x iv) with false; [apply orb_false_r|].
      symmetry. apply not_true_iff_false. rewrite in_interval_spec. lia.
    + rewrite Hout by lia. cbn [orb]. apply Bool.eq_iff_eq_true. rewrite in_interval_spec. split.
      * intros Hi. by apply Hb2.
      * intros Hi. destruct (Z.lt_ge_cases x (first iv)); [rewrite Hb1 in Hi by lia; done|lia].
  - intros x Hx. rewrite covers_app, Hout by lia. cbn. rewrite orb_false_r.
    apply not_true_iff_false. rewrite in_interval_spec. lia.
Qed.

Lemma BitVector_collect s : bv_ok s ->
  exists l, collect s = Ret l /\ canonical l /\
    forall x, covers l x = (0 <=? x) && bit (bitvec s) x.
Proof.
  intros Hs. unfold collect. pose proof (bo_max s Hs) as Hm.
  destruct (run_loop_total (collect_step s) (fun st => collected s (iter_index st.1) st.2)
    (fun l => canonical l /\ forall x, covers l x = (0 <=? x) && bit (bitvec s) x)
    (fun st => 65536 - iter_index st.1) TURNS (Null, [])) as (l & Hr & Hl); [| | |by exists l].
  - intros [it acc] Hc. cbn [fst snd] in *. cbn [collect_step IterateSet BitVectorSetOperations].
    destruct (BitVector_iterate s it Hs ltac:(apply Hc)) as ([[iv it']|] & -> & H).
    + destruct H as (Hf & Hl & -> & Hb1 & Hb2 & Hb3).
      pose proof (collected_snoc s _ acc iv Hs Hc Hf Hl Hb1 Hb2 Hb3) as Hc'.
      cbn [fst snd iter_index]. split; [done|]. destruct Hc' as [? _]. lia.
    + destruct Hc as (Hk & Hc & Hin & Hout & _). split; [done|]. intros x.
      destruct (Z.leb_spec 0 x); cbn [andb]; [|apply Hout; lia].
      destruct (Z.lt_ge_cases x (iter_index it)); [by apply Hin|].
      rewrite H by done. apply Hout. by right.
  - cbn. split; [lia|]. split; [by repeat constructor|]. split; [intros; lia|]. by split; [|left].
  - cbn [fst iter_index]. unfold TURNS. lia.
Qed.

(** ** The interface *)

Lemma length_merge l : forall cur, (length (merge_intervals cur l) <= S (length l))%nat.
Proof.
  induction l as [|y l IH]; intros cur; cbn; [lia|].
  destruct (_ <? _); cbn; [specialize (IH y)|specialize (IH (MkIv (first cur) (Z.max (last cur) (last y))))]; lia.
Qed.

Lemma length_sort_and_merge l : (length (sort_and_merge l) <= length l)%nat.
Proof.
  unfold sort_and_merge. destruct (insert_all_spec l [] ltac:(constructor)) as [_ Hp].
  rewrite app_nil_r in Hp. apply Permutation_length in Hp. destruct (fold_left _ l []) as [|y ys].
  - cbn. lia.
  - rewrite <- Hp. apply length_merge.
Qed.

(** A set holds the numbers of a list of intervals. *)
Definition set_of (l : list RecordSetInterval) (s : RecordSet) : Prop :=
  match s with
  | BV s => bv_ok s /\ forall b, 0 <= b -> bit (bitvec s) b = covers l b
  | IL s => il_ok s /\ ivs s = sort_and_merge l
  end.

(** The creation has the memory it needs. *)
Definition enough_memory (al : allocator) (l : list RecordSetInterval) (pMem : option Z) (memsize : Z)
  : Prop :=
  (forall k n, al k n = true) /\
  forall a, pMem = Some a ->
    Z.land a ((RecordSetMemoryRequirements l).2 - 1) = 0 /\ (RecordSetMemoryRequirements l).1 <= memsize.

Lemma RecordCreateSet_ok al l pMem memsize :
  Forall valid l -> Z.of_nat (length l) <= 65536 ->
  exists r, RecordCreateSet al l pMem memsize = Ret r /\
    (enough_memory al l pMem memsize -> is_Some r) /\ forall s, r = Some s -> set_of l s.
Proof.
  intros Hl Hn. unfold RecordCreateSet, enough_memory, RecordSetMemoryRequirements.
  destruct (_RecordSetMemoryRequirements l) as [[size al'] bits] eqn:Hreq. cbn [fst snd].
  destruct (match pMem with Some _ => _ | None => false end) eqn:Hmem.
  { exists None. split; [done|]. split; [|done]. intros [_ Hen]. destruct pMem as [a|]; [|done].
    destruct (Hen a eq_refl) as [H1 H2]. rewrite H1 in Hmem. cbn in Hmem. breflect. lia. }
  clear Hmem. destruct bits.
  - assert (size = (BitVectorSetMemoryRequirements (maxMemberInInterval l)).1) as ->.
    { revert Hreq. unfold _RecordSetMemoryRequirements, BitVectorSetMemoryRequirements,
        IntervalListMemoryRequirements. destruct (_ || _); intros [= <- _]; done. }
    destruct (decide (pMem = None /\ al 0%nat (BitVectorSetMemoryRequirements (maxMemberInInterval l)).1 = false))
      as [[-> Hf]|Hal].
    + exists None. unfold BitVectorCreateSet. rewrite Hf. split; [done|]. split; [|done].
      intros [Ht _]. by rewrite Ht in Hf.
    + destruct (BitVectorCreate_spec al l pMem Hl) as (s & -> & Hok & Hb).
      { intros ->. apply not_false_is_true. tauto. }
      exists (Some (BV s)). split; [done|]. split; [by eexists|]. by intros ? [= <-].
  - unfold IntervalListCreateSet. destruct (_ && negb _) eqn:H0.
    { exists None. split; [done|]. split; [|done]. intros [Ht _]. rewrite Ht, andb_false_r in H0. done. }
    destruct (match pMem with Some _ => false | None => _ end) eqn:H1.
    { exists None. split; [done|]. split; [|done]. intros [Ht _]. destruct pMem; [done|].
      by rewrite Ht in H1. }
    eexists. split; [reflexivity|]. split; [by eexists|]. intros ? [= <-]. cbn [set_of ivs].
    split; [|done]. pose proof (length_sort_and_merge l). split; [by apply sort_and_merge_spec|].
    split; [done|]. cbn [nIntervals]. unfold INT32_MAX. lia.
Qed.

(** Iterating goes through the representation's table. *)
Lemma collect_rep s : collect s = match s with BV s => collect s | IL s => collect s end.
Proof.
  unfold collect, run_loop. destruct s as [s|s].
  - by rewrite (loop_pos_ext (collect_step (BV s)) (collect_step s)) by by intros [].
  - by rewrite (loop_pos_ext (collect_step (IL s)) (collect_step s)) by by intros [].
Qed.

(** C31: A set is created for every list of valid intervals for which there is
    memory, and a number is a member exactly when one of the intervals contains
    it, whichever of the two representations was chosen (a bit vector or a
    binary search in merged intervals). *)
Theorem RecordSet_member al l pMem memsize :
  Forall valid l -> Z.of_nat (length l) <= 65536 ->
  exists r, RecordCreateSet al l pMem memsize = Ret r /\
    (enough_memory al l pMem memsize -> is_Some r) /\
    forall s, r = Some s -> forall pm, 0 <= pm <= INT32_MAX -> IsMemberOfSet s pm = Ret (covers l pm).
Proof.
  intros Hl Hn. destruct (RecordCreateSet_ok al l pMem memsize Hl Hn) as (r & Hr & Hen & Hs).
  exists r. split; [done|]. split; [done|]. intros s -> pm Hpm. specialize (Hs s eq_refl).
  destruct s as [s|s]; destruct Hs as [Hok Hs]; cbn [IsMemberOfSet RecordSet_ops
    BitVectorSetOperations IntervalListSetOperations].
  - rewrite BitVector_member by done. f_equal. apply Hs. lia.
  - rewrite IntervalList_member by done. rewrite Hs. f_equal. by apply sort_and_merge_spec.
Qed.

(** C32: Iterating over a set ends and yields its intervals in increasing
    order with a gap between any two, covering exactly the members; the result
    does not depend on the representation. *)
Theorem RecordSet_iterate al l pMem memsize s :
  Forall valid l -> Z.of_nat (length l) <= 65536 ->
  RecordCreateSet al l pMem memsize = Ret (Some s) ->
  collect s = Ret (sort_and_merge l) /\ canonical (sort_and_merge l) /\
  forall x, covers (sort_and_merge l) x = covers l x.
Proof.
  intros Hl Hn Hr. pose proof (sort_and_merge_spec l Hl) as [Hc Hcov]. split; [|done].
  destruct (RecordCreateSet_ok al l pMem memsize Hl Hn) as (r & Hr' & _ & Hs).
  rewrite Hr in Hr'. injection Hr' as <-. specialize (Hs s eq_refl).
  destruct s as [s|s]; destruct Hs as [Hok Hs].
  - destruct (BitVector_collect s Hok) as (c & Hcol & Hcan & Hb).
    rewrite collect_rep, Hcol. f_equal.
    apply canonical_unique; [done|done|]. intros x. rewrite Hb, Hcov.
    destruct (Z.leb_spec 0 x); cbn [andb]; [by apply Hs|]. symmetry. by apply covers_neg.
  - rewrite collect_rep, <- Hs. by apply IntervalList_collect.
Qed.

Definition sample_intervals : list RecordSetInterval := [MkIv 60 70; MkIv 3 5; MkIv 6 6; MkIv 130 130].
Definition sparse_intervals : list RecordSetInterval := [MkIv 60000 65535; MkIv 3 5].
Lemma sample_intervals_valid : Forall valid sample_intervals /\ Forall valid sparse_intervals.
Proof. unfold valid. split; repeat constructor; cbn; lia. Qed.

Lemma RecordSet_member_witness :
  exists s, RecordCreateSet always sample_intervals None 0 = Ret (Some s) /\
    IsMemberOfSet s 64 = Ret true /\ IsMemberOfSet s 7 = Ret false.
Proof.
  pose proof (RecordSet_member always sample_intervals None 0 (proj1 sample_intervals_valid)
    ltac:(by vm_compute)) as (r & Hr & Hen & Hs).
  destruct Hen as [s ->]; [split; done|].
  exists s. split; [exact Hr|].
  exact (conj (Hs s eq_refl 64 ltac:(by vm_compute)) (Hs s eq_refl 7 ltac:(by vm_compute))).
Defined.

Lemma RecordSet_iterate_witness :
  exists b i, RecordCreateSet always sample_intervals None 0 = Ret (Some (BV b)) /\
    collect (BV b) = Ret [MkIv 3 6; MkIv 60 70; MkIv 130 130] /\
    RecordCreateSet always sparse_intervals None 0 = Ret (Some (IL i)) /\
    collect (IL i) = Ret [MkIv 3 5; MkIv 60000 65535].
Proof.
  do 2 eexists. split; [by vm_compute|]. split.
  - apply (RecordSet_iterate always sample_intervals None 0 _ (proj1 sample_intervals_valid));
      by vm_compute.
  - split; [by vm_compute|].
    apply (RecordSet_iterate always sparse_intervals None 0 _ (proj2 sample_intervals_valid));
      by vm_compute.
Defined.
