(* ===== verification/Timers.v ===== *)
(** * The server's timers (os/WaitFor.c)

    A list of pending timers ordered by expiry on a 32-bit millisecond clock
    that wraps.  Callbacks run while the list is processed and may set, cancel
    or free timers, their own included; timers are kept by address, so that
    one that was freed is noticed.  The screen saver's timer is at the end. *)
From Stdlib Require Import Sorting.Sorted.
From S2P Require Import Prelude.

Definition TimerAbsolute : Z := Z.shiftl 1 0.
Definition TimerForceOld : Z := Z.shiftl 1 1.

(** [os/WaitFor.c: _OsTimerRec 102-108] *)
Record OsTimerRec := MkTimer { expires : Z; delta : Z; t_callback : Z; t_arg : Z }.
#[export] Instance eta_timer : Settable OsTimerRec := fun t =>
  MkTimer (expires t) (delta t) (t_callback t) (t_arg t).

Section Timers.
Context {W : Type}.

(** The timers by address, the pending ones in list order, and the rest of the
    server. *)
Record timer_state := MkTS {
  t_recs : gmap Z OsTimerRec; timers : list Z; next_timer : Z; t_world : W }.
#[export] Instance eta_ts : Settable timer_state := fun s =>
  MkTS (t_recs s) (timers s) (next_timer s) (t_world s).
Implicit Types (st : timer_state).

(** The clock, and calling the callback [cb] with the timer, the time and the
    argument; it returns when to be called again and the state it leaves. *)
Context (GetTimeInMillis : timer_state -> Z)
        (run_callback : Z -> Z -> Z -> Z -> timer_state -> Z * timer_state).

(** [os/WaitFor.c: first_timer] *)
Definition first_timer st : option Z := head (timers st).

(** [os/WaitFor.c: timer_pending] *)
Definition timer_pending st (timer : Z) : bool := bool_decide (timer ∈ timers st).

Definition list_del st (timer : Z) : timer_state :=
  st <| timers ::= filter (fun t => t <> timer) |>.

(** Before the first timer that expires later. *)
Fixpoint sort_in (recs : gmap Z OsTimerRec) (timer millis : Z) (l : list Z) : outcome (list Z) :=
  match l with
  | [] => Ret [timer]
  | existing :: l' =>
      r <-? recs !! existing;
      if 0 <? i32 (expires r - millis) then Ret (timer :: l)
      else l'' <-- sort_in recs timer millis l'; Ret (existing :: l'')
  end.

(** The first part of [TimerSet]: the timer, allocated or taken out of the
    list, where the old callback can be forced.
    [os/WaitFor.c: TimerSet 299-315] *)
Definition timer_unlink (al : allocator) st (timer : option Z) (flags now : Z)
  : outcome (option Z * timer_state) :=
  match timer with
  | None =>
      if negb (al 0%nat 48) then Ret (None, st)
      else Ret (Some (next_timer st),
                MkTS (<[next_timer st := MkTimer 0 0 0 0]> (t_recs st)) (timers st)
                  (next_timer st + 1) (t_world st))
  | Some t =>
      r <-? t_recs st !! t;
      if timer_pending st t then
        let st := list_del st t in
        if negb (Z.land flags TimerForceOld =? 0)
        then Ret (Some t, (run_callback (t_callback r) t now (t_arg r) st).2)
        else Ret (Some t, st)
      else Ret (Some t, st)
  end.

(** The second part: the new times and the place in the list; a timer that is
    due runs at once.  Appending a timer that is still in the list would
    corrupt it.
    [os/WaitFor.c: TimerSet 316-342] *)
Definition timer_arm (do_timer : timer_state -> Z -> Z -> outcome timer_state)
    st (t flags now millis func arg : Z) : outcome timer_state :=
  if millis =? 0 then Ret st
  else
    let absolute := negb (Z.land flags TimerAbsolute =? 0) in
    let delta := if absolute then u32 (millis - now) else millis in
    let millis := if absolute then millis else u32 (millis + now) in
    _ <-? t_recs st !! t;
    let st := st <| t_recs ::= <[t := MkTimer millis delta func arg]> |> in
    if timer_pending st t then Undefined
    else
      l <-- sort_in (t_recs st) t millis (timers st);
      let st := st <| timers := l |> in
      if i32 (millis - now) <=? 0 then do_timer st t now else Ret st.

(** [do_timer] is [DoTimer]; the two functions call each other.
    [os/WaitFor.c: TimerSet] *)
Definition TimerSet_with (do_timer : timer_state -> Z -> Z -> outcome timer_state)
    (al : allocator) st (timer : option Z) (flags millis func arg : Z)
  : outcome (option Z * timer_state) :=
  let now := GetTimeInMillis st in
  '(timer, st) <-- timer_unlink al st timer flags now;
  match timer with
  | None => Ret (None, st)
  | Some t => st <-- timer_arm do_timer st t flags now millis func arg; Ret (timer, st)
  end.

(** Only an existing timer is set again, so nothing is allocated.
    [os/WaitFor.c: DoTimer] *)
Fixpoint DoTimer (n : nat) st (timer now : Z) : outcome timer_state :=
  match n with
  | O => Diverge
  | S n' =>
      r <-? t_recs st !! timer;
      let st := list_del st timer in
      let '(newTime, st) := run_callback (t_callback r) timer now (t_arg r) st in
      if newTime =? 0 then Ret st
      else
        r <-? t_recs st !! timer;
        '(_, st) <-- TimerSet_with (DoTimer n') always st (Some timer) 0 newTime
                       (t_callback r) (t_arg r);
        Ret st
  end.

Definition TimerSet (n : nat) := TimerSet_with (DoTimer n).

(** One turn of the loop. [os/WaitFor.c: DoTimers 286-290] *)
Definition do_timers_step (n : nat) (now : Z) st : timer_state + outcome timer_state :=
  match first_timer st with
  | None => inr (Ret st)
  | Some timer =>
      match t_recs st !! timer with
      | None => inr Undefined
      | Some r =>
          if 0 <? i32 (expires r - now) then inr (Ret st)
          else
            match DoTimer n st timer now with
            | Ret st => inl st
            | FatalError => inr FatalError
            | Undefined => inr Undefined
            | Diverge => inr Diverge
            end
      end
  end.

(** [os/WaitFor.c: DoTimers] *)
Definition DoTimers (n : nat) (p : positive) st (now : Z) : outcome timer_state :=
  run_loop (do_timers_step n now) p st.

(** The first timer that lies too far in the future for its delay. *)
Fixpoint find_rewound (recs : gmap Z OsTimerRec) (now : Z) (l : list Z) : outcome (option Z) :=
  match l with
  | [] => Ret None
  | timer :: l' =>
      r <-? recs !! timer;
      if u32 (delta r + 250) <? u32 (expires r - now) then Ret (Some timer)
      else find_rewound recs now l'
  end.

Definition check_all_step (n : nat) st : timer_state + outcome timer_state :=
  let now := GetTimeInMillis st in
  match find_rewound (t_recs st) now (timers st) with
  | Ret None => inr (Ret st)
  | Ret (Some timer) =>
      match DoTimer n st timer now with
      | Ret st => inl st
      | FatalError => inr FatalError
      | Undefined => inr Undefined
      | Diverge => inr Diverge
      end
  | FatalError => inr FatalError
  | Undefined => inr Undefined
  | Diverge => inr Diverge
  end.

(** [os/WaitFor.c: CheckAllTimers] *)
Definition CheckAllTimers (n : nat) (p : positive) st : outcome timer_state :=
  run_loop (check_all_step n) p st.

(** The timeout until the next timer: none is -1, and 0 after timers ran.
    [os/WaitFor.c: check_timers] *)
Definition check_timers (n : nat) (p : positive) st : outcome (Z * timer_state) :=
  match first_timer st with
  | None => Ret (-1, st)
  | Some timer =>
      r <-? t_recs st !! timer;
      let now := GetTimeInMillis st in
      let timeout := i32 (expires r - now) in
      if timeout <=? 0 then
        st <-- DoTimers n p st now; Ret (0, st)
      else if u32 timeout <? u32 (delta r + 250) then Ret (timeout, st)
      else st <-- CheckAllTimers n p st; Ret (0, st)
  end.

(** [os/WaitFor.c: AdjustWaitForDelay] *)
Definition AdjustWaitForDelay (timeout newdelay : Z) : Z :=
  if (timeout <? 0) || (newdelay <? timeout) then newdelay else timeout.

(** [os/WaitFor.c: TimerForce] *)
Definition TimerForce (n : nat) st (timer : Z) : outcome (bool * timer_state) :=
  _ <-? t_recs st !! timer;
  if timer_pending st timer then
    st <-- DoTimer n st timer (GetTimeInMillis st); Ret (true, st)
  else Ret (false, st).

(** [os/WaitFor.c: TimerCancel] *)
Definition TimerCancel st (timer : option Z) : outcome timer_state :=
  match timer with
  | None => Ret st
  | Some t => _ <-? t_recs st !! t; Ret (list_del st t)
  end.

(** [os/WaitFor.c: TimerFree] *)
Definition TimerFree st (timer : option Z) : outcome timer_state :=
  match timer with
  | None => Ret st
  | Some t => st <-- TimerCancel st timer; Ret (st <| t_recs ::= delete t |>)
  end.

(** [os/WaitFor.c: TimerInit] *)
Definition TimerInit st : timer_state :=
  st <| t_recs ::= fun m => fold_left (fun m t => delete t m) (timers st) m |> <| timers := [] |>.
End Timers.
Arguments timer_state : clear implicits.

(** ** The screen saver's timer *)

Definition DPMSModeOn : Z := 0.
Definition DPMSModeStandby : Z := 1.
Definition DPMSModeSuspend : Z := 2.
Definition DPMSModeOff : Z := 3.

(** What the screens are told. *)
Inductive saver_call := CallDPMSSet (level : Z) | CallResetOsBuffers | CallSaveScreensOn.

(** The power management and screen saver settings (Xext/dpms.c,
    dix/globals.c), in milliseconds; 0 is never. *)
Record saver := MkSaver {
  DPMSPowerLevel : Z; DPMSEnabled : bool;
  DPMSStandbyTime : Z; DPMSSuspendTime : Z; DPMSOffTime : Z;
  ScreenSaverTime : Z; ScreenSaverInterval : Z; screenSaverSuspended : bool;
  saver_calls : list saver_call }.

(** The level is recorded, whatever the screens make of it. *)
Definition DPMSSet (level : Z) (s : saver) : saver :=
  MkSaver level (DPMSEnabled s) (DPMSStandbyTime s) (DPMSSuspendTime s) (DPMSOffTime s)
    (ScreenSaverTime s) (ScreenSaverInterval s) (screenSaverSuspended s)
    (saver_calls s ++ [CallDPMSSet level]).
Definition saver_call_all (l : list saver_call) (s : saver) : saver :=
  MkSaver (DPMSPowerLevel s) (DPMSEnabled s) (DPMSStandbyTime s) (DPMSSuspendTime s)
    (DPMSOffTime s) (ScreenSaverTime s) (ScreenSaverInterval s) (screenSaverSuspended s)
    (saver_calls s ++ l).

(** The macro's subtraction and comparison are unsigned.
    [os/WaitFor.c: DPMS_CHECK_MODE 377-379] *)
Definition DPMS_CHECK_MODE (timeout mode time : Z) (s : saver) : saver :=
  if (0 <? time) && (DPMSPowerLevel s <? mode) && (time <=? u32 timeout) then DPMSSet mode s else s.

(** [os/WaitFor.c: DPMS_CHECK_TIMEOUT 381-383] *)
Definition DPMS_CHECK_TIMEOUT (timeout time : Z) (otherwise : Z) : Z :=
  if (0 <? time) && (0 <? u32 (time - timeout)) then u32 (time - timeout) else otherwise.

(** [os/WaitFor.c: NextDPMSTimeout] *)
Definition NextDPMSTimeout (s : saver) (timeout : Z) : Z :=
  let off := DPMS_CHECK_TIMEOUT timeout (DPMSOffTime s) 0 in
  let suspend := DPMS_CHECK_TIMEOUT timeout (DPMSSuspendTime s) off in
  let standby := DPMS_CHECK_TIMEOUT timeout (DPMSStandbyTime s) suspend in
  if DPMSPowerLevel s =? DPMSModeOn then standby
  else if DPMSPowerLevel s =? DPMSModeStandby then suspend
  else if DPMSPowerLevel s =? DPMSModeSuspend then off
  else 0.

Section Saver.
(** Build options. *)
Context (DPMSExtension SCREENSAVER : bool).

(** The levels whose time has come are set, the lowest power first. *)
Definition dpms_levels (timeout : Z) (s : saver) : saver :=
  DPMS_CHECK_MODE timeout DPMSModeStandby (DPMSStandbyTime s)
    (DPMS_CHECK_MODE timeout DPMSModeSuspend (DPMSSuspendTime s)
       (DPMS_CHECK_MODE timeout DPMSModeOff (DPMSOffTime s) s)).

(** The delay to the next call, and the settings.
    [os/WaitFor.c: ScreenSaverTimeoutExpire] *)
Definition ScreenSaverTimeoutExpire (now last_event : Z) (s : saver) : Z * saver :=
  let timeout := i32 (now - last_event) in
  let '(nextTimeout, s) :=
    if DPMSExtension && DPMSEnabled s then
      let s := dpms_levels timeout s in (NextDPMSTimeout s timeout, s)
    else (0, s) in
  if DPMSExtension && negb (DPMSPowerLevel s =? DPMSModeOn) then (nextTimeout, s)
  else if ScreenSaverTime s =? 0 then (nextTimeout, s)
  else if u32 timeout <? ScreenSaverTime s then
    let rest := u32 (ScreenSaverTime s - timeout) in
    (if 0 <? nextTimeout then Z.min rest nextTimeout else rest, s)
  else
    let s := saver_call_all [CallResetOsBuffers; CallSaveScreensOn] s in
    (if 0 <? ScreenSaverInterval s then
       if 0 <? nextTimeout then Z.min (ScreenSaverInterval s) nextTimeout else ScreenSaverInterval s
     else nextTimeout, s).

(** The timeout the screen saver's timer is set to; 0 is that it is freed.
    [os/WaitFor.c: SetScreenSaverTimer] *)
Definition SetScreenSaverTimer (s : saver) : Z :=
  let timeout :=
    if DPMSExtension && DPMSEnabled s then
      if 0 <? DPMSStandbyTime s then DPMSStandbyTime s
      else if 0 <? DPMSSuspendTime s then DPMSSuspendTime s
      else if 0 <? DPMSOffTime s then DPMSOffTime s else 0
    else 0 in
  let timeout :=
    if 0 <? ScreenSaverTime s then
      if 0 <? timeout then Z.min (ScreenSaverTime s) timeout else ScreenSaverTime s
    else timeout in
  if negb (timeout =? 0) && negb (SCREENSAVER && screenSaverSuspended s) then timeout else 0.
End Saver.

(** * Properties *)

(** ** Setting a timer

    Times are compared relative to a reading of the clock; as long as all
    timers expire within about twelve days of it (2^30 ms), the comparison on
    the wrapping clock is that of the relative times. *)
Definition rel (now e : Z) : Z := i32 (e - now).
Definition near (t : Z) : Prop := -1073741824 < t < 1073741824.

Lemma rel_compare now a b :
  near (rel now a) -> near (rel now b) -> i32 (a - b) = rel now a - rel now b.
Proof. unfold rel, near. word. Qed.

Lemma rel_add now d : 0 <= d < 1073741824 -> rel now (u32 (d + now)) = d.
Proof. unfold rel. word. Qed.

Section TimerSpec.
Context {W : Type}.
Implicit Types (st : timer_state W).

(** The expiry of a pending timer, relative to [now]. *)
Definition due (recs : gmap Z OsTimerRec) (now t : Z) : Z :=
  match recs !! t with Some r => rel now (expires r) | None => 0 end.

(** Every pending timer is allocated and is pending once; the list is ordered by
    expiry; and new timers get an address that no timer has. *)
Record timers_ok (now : Z) st : Prop := {
  to_nodup : NoDup (timers st);
  to_live : forall t, t ∈ timers st -> is_Some (t_recs st !! t);
  to_near : forall t, t ∈ timers st -> near (due (t_recs st) now t);
  to_sorted : StronglySorted (fun a b => due (t_recs st) now a <= due (t_recs st) now b) (timers st);
  to_fresh : forall t, is_Some (t_recs st !! t) -> t < next_timer st
}.

Lemma sort_in_spec recs now t millis l :
  (forall x, x ∈ l -> is_Some (recs !! x)) -> (forall x, x ∈ l -> near (due recs now x)) ->
  near (rel now millis) ->
  StronglySorted (fun a b => due recs now a <= due recs now b) l ->
  exists l1 l2, sort_in recs t millis l = Ret (l1 ++ t :: l2) /\ l = l1 ++ l2 /\
    (forall x, x ∈ l1 -> due recs now x <= rel now millis) /\
    (forall x, x ∈ l2 -> rel now millis < due recs now x).
Proof.
  intros Hlive Hnear Hm. induction l as [|x l IH]; intros Hs; cbn [sort_in].
  - exists [], []. split; [done|]. split; [done|]. split; intros x Hx; by apply not_elem_of_nil in Hx.
  - destruct (Hlive x ltac:(left)) as [r Hr]. rewrite Hr. cbn [obind_opt].
    apply StronglySorted_inv in Hs as [Hs Hx].
    pose proof (Hnear x ltac:(left)) as Hnx. unfold due in Hnx. rewrite Hr in Hnx.
    rewrite (rel_compare now) by done.
    assert (Hdx : due recs now x = rel now (expires r)) by (unfold due; by rewrite Hr).
    destruct (Z.ltb_spec 0 (rel now (expires r) - rel now millis)).
    + exists [], (x :: l). split; [done|]. split; [done|].
      split; [intros y Hy; by apply not_elem_of_nil in Hy|].
      intros y [->|Hy]%elem_of_cons; [lia|]. rewrite Forall_forall in Hx. specialize (Hx y Hy).
      cbv beta in Hx. lia.
    + destruct IH as (l1 & l2 & -> & -> & H1 & H2); [..|done|].
      { intros y Hy. apply Hlive. by right. } { intros y Hy. apply Hnear. by right. }
      exists (x :: l1), l2. split; [done|]. split; [done|]. split; [|done].
      intros y [->|Hy]%elem_of_cons; [lia|by apply H1].
Qed.

Lemma sorted_insert {A} (R : A -> A -> Prop) l1 x l2 :
  StronglySorted R (l1 ++ l2) -> (forall y, y ∈ l1 -> R y x) -> (forall y, y ∈ l2 -> R x y) ->
  StronglySorted R (l1 ++ x :: l2).
Proof.
  induction l1 as [|y l1 IH]; cbn; intros Hs H1 H2.
  - constructor; [done|]. by rewrite Forall_forall.
  - apply StronglySorted_inv in Hs as [Hs Hy]. constructor.
    + apply IH; [done| |done]. intros z Hz. apply H1. by right.
    + rewrite Forall_app in *. destruct Hy as [Hy1 Hy2]. split; [done|]. constructor; [|done].
      apply H1. left.
Qed.

Lemma sorted_ext {A} (R R' : A -> A -> Prop) l :
  (forall a b, a ∈ l -> b ∈ l -> R a b -> R' a b) -> StronglySorted R l -> StronglySorted R' l.
Proof.
  induction l as [|x l IH]; intros Hr Hs; [constructor|].
  apply StronglySorted_inv in Hs as [Hs Hx]. constructor.
  - apply IH; [|done]. intros a b Ha Hb. apply Hr; by right.
  - rewrite Forall_forall in *. intros y Hy. apply Hr; [left|by right|by apply Hx].
Qed.

Lemma sorted_filter {A} (P : A -> Prop) {HP : forall x, Decision (P x)} (R : A -> A -> Prop) l :
  StronglySorted R l -> StronglySorted R (filter P l).
Proof.
  induction 1 as [|x l Hs IH Hx]; [constructor|]. destruct (decide (P x)).
  - rewrite filter_cons_True by done. constructor; [done|]. rewrite Forall_forall in *.
    intros y [_ Hy]%list_elem_of_filter. by apply Hx.
  - by rewrite filter_cons_False.
Qed.

Lemma list_del_absent (l : list Z) t : t ∉ l -> filter (fun x => x <> t) l = l.
Proof.
  induction l as [|x l IH]; intros Hin; [done|].
  rewrite filter_cons_True by (intros ->; apply Hin; left). f_equal. apply IH.
  intros H. apply Hin. by right.
Qed.

Lemma list_del_ok now st t : timers_ok now st -> timers_ok now (list_del st t).
Proof.
  intros [Hn Hl Hr Hs Hfr]. unfold list_del. split; cbn [timers t_recs set_field]; [| | | |exact Hfr].
  - by apply NoDup_filter.
  - intros x Hx. apply list_elem_of_filter in Hx as [_ Hx]. by apply Hl.
  - intros x Hx. apply list_elem_of_filter in Hx as [_ Hx]. by apply Hr.
  - by apply sorted_filter.
Qed.

(** Arming an allocated timer that is not in the list. *)
Lemma arm_ok now st t r l :
  timers_ok now st -> t ∉ timers st -> is_Some (t_recs st !! t) -> near (rel now (expires r)) ->
  sort_in (<[t := r]> (t_recs st)) t (expires r) (timers st) = Ret l ->
  timers_ok now (MkTS (<[t := r]> (t_recs st)) l (next_timer st) (t_world st)) /\
  exists l1 l2, l = l1 ++ t :: l2 /\ timers st = l1 ++ l2 /\
    (forall x, x ∈ l1 -> due (t_recs st) now x <= rel now (expires r)) /\
    (forall x, x ∈ l2 -> rel now (expires r) < due (t_recs st) now x).
Proof.
  intros [Hn Hl Hr Hs Hfr] Ht Hlive Hnear Hsort.
  assert (Hsame : forall x, x ∈ timers st -> due (<[t := r]> (t_recs st)) now x = due (t_recs st) now x).
  { intros x Hx. unfold due. rewrite lookup_insert_ne; [done|]. by intros ->. }
  destruct (sort_in_spec (<[t := r]> (t_recs st)) now t (expires r) (timers st))
    as (l1 & l2 & He & Hl12 & H1 & H2); [| |done| |].
  - intros x Hx. rewrite lookup_insert_ne; [by apply Hl|]. by intros ->.
  - intros x Hx. rewrite Hsame by done. by apply Hr.
  - eapply sorted_ext; [|exact Hs]. intros a b Ha Hb. cbv beta. by rewrite !Hsame.
  - rewrite Hsort in He. injection He as ->. rewrite Hl12 in *.
    assert (Hdue : due (<[t := r]> (t_recs st)) now t = rel now (expires r)).
    { unfold due. by rewrite lookup_insert_eq. }
    split.
    + split; cbn [timers t_recs].
      * rewrite <- Permutation_middle. by constructor.
      * intros x. rewrite <- Permutation_middle. intros [->|Hx]%elem_of_cons.
        -- rewrite lookup_insert_eq. by eexists.
        -- rewrite lookup_insert_ne; [by apply Hl|]. by intros ->.
      * intros x. rewrite <- Permutation_middle. intros [->|Hx]%elem_of_cons; [by rewrite Hdue|].
        rewrite Hsame by done. by apply Hr.
      * apply sorted_insert.
        -- eapply sorted_ext; [|exact Hs]. intros a b Ha Hb. cbv beta. by rewrite !Hsame.
        -- intros y Hy. rewrite Hdue. by apply H1.
        -- intros y Hy. rewrite Hdue. apply H2 in Hy. lia.
      * intros x. destruct (decide (t = x)) as [<-|Hne]; [intros _; by apply Hfr|]. rewrite lookup_insert_ne by done. apply Hfr.
    + exists l1, l2. split; [done|]. split; [done|]. split; intros x Hx.
      * rewrite <- Hsame; [by apply H1|]. apply elem_of_app. by left.
      * rewrite <- Hsame; [by apply H2|]. apply elem_of_app. by right.
Qed.

Lemma timers_ok_world now st w :
  timers_ok now st -> timers_ok now (MkTS (t_recs st) (timers st) (next_timer st) w).
Proof. intros [Hn Hl Hr Hs Hfr]. by split. Qed.

Section Arms.
Context (GetTimeInMillis : timer_state W -> Z)
        (run_callback : Z -> Z -> Z -> Z -> timer_state W -> Z * timer_state W).

Lemma TimerSet_existing n al st t flags millis func arg now :
  let now' := GetTimeInMillis st in
  timers_ok now st -> is_Some (t_recs st !! t) ->
  Z.land flags TimerForceOld = 0 -> Z.land flags TimerAbsolute = 0 ->
  0 < millis < 1073741824 -> near (rel now (u32 (millis + now'))) ->
  let r := MkTimer (u32 (millis + now')) millis func arg in
  exists l1 l2,
    TimerSet GetTimeInMillis run_callback n al st (Some t) flags millis func arg =
      Ret (Some t, MkTS (<[t := r]> (t_recs st)) (l1 ++ t :: l2) (next_timer st) (t_world st)) /\
    filter (fun x => x <> t) (timers st) = l1 ++ l2 /\
    (forall x, x ∈ l1 -> due (t_recs st) now x <= rel now (expires r)) /\
    (forall x, x ∈ l2 -> rel now (expires r) < due (t_recs st) now x) /\
    timers_ok now (MkTS (<[t := r]> (t_recs st)) (l1 ++ t :: l2) (next_timer st) (t_world st)).
Proof.
  intros now' Hok [r0 Hr0] Hforce Habs Hm Hnear r.
  set (st1 := list_del st t).
  assert (Hst1 : timer_unlink run_callback al st (Some t) flags now' = Ret (Some t, st1)).
  { unfold timer_unlink. rewrite Hr0. cbn [obind_opt]. rewrite Hforce. cbn [Z.eqb negb].
    unfold timer_pending. case_bool_decide as Hin; [done|].
    unfold st1, list_del. destruct st as [recs l nx w]. cbn [timers t_recs set_field] in *.
    do 2 f_equal. unfold set_field. cbn. f_equal. symmetry. by apply list_del_absent. }
  unfold TimerSet, TimerSet_with. fold now'. rewrite Hst1. cbn [obind]. unfold timer_arm.
  destruct (Z.eqb_spec millis 0); [lia|]. rewrite Habs. cbn [Z.eqb negb].
  change (t_recs st1) with (t_recs st). rewrite Hr0. cbn [obind_opt].
  assert (Hnin : t ∉ timers st1).
  { unfold st1, list_del. cbn. intros H. apply list_elem_of_filter in H. tauto. }
  fold r. unfold timer_pending. cbn [timers set_field]. rewrite bool_decide_false by exact Hnin.
  assert (Hok1 : timers_ok now st1) by by apply list_del_ok.
  assert (Hdue : near (rel now (expires r))) by done.
  destruct (sort_in_spec (<[t := r]> (t_recs st)) now t (expires r) (timers st1)) as (l1 & l2 & He & _).
  { intros x Hx. rewrite lookup_insert_ne; [by apply (to_live _ _ Hok1)|]. by intros ->. }
  { intros x Hx. unfold due. rewrite lookup_insert_ne; [by apply (to_near _ _ Hok1)|]. by intros ->. }
  { done. }
  { eapply sorted_ext; [|apply (to_sorted _ _ Hok1)]. intros a b Ha Hb. cbv beta. unfold due.
    rewrite !lookup_insert_ne; [done| |]; by intros ->. }
  destruct (arm_ok now st1 t r _ Hok1 Hnin ltac:(by exists r0) Hdue He) as (Hok2 & m1 & m2 & Hl & Hf & H1 & H2).
  exists m1, m2. rewrite <- Hl. change (t_recs st1) with (t_recs st) in *.
  cbn [t_recs set_field expires] in He |- *. change (expires r) with (u32 (millis + now')) in He.
  rewrite He. cbn [obind].
  assert (i32 (u32 (millis + now') - now') = millis) as -> by (apply (rel_add now' millis); lia).
  destruct (Z.leb_spec millis 0); [lia|]. split; [done|]. split; [done|]. done.
Qed.

(** Setting an existing timer for a time ahead takes it out of its place
    and puts it into the list after the timers that expire no later and before
    those that expire later, with the new expiry, delay, callback and argument;
    the list stays ordered, nothing else changes and no callback runs. *)
Theorem TimerSet_sorts n al st t flags millis func arg :
  let now := GetTimeInMillis st in
  timers_ok now st -> is_Some (t_recs st !! t) ->
  Z.land flags TimerForceOld = 0 -> Z.land flags TimerAbsolute = 0 -> 0 < millis < 1073741824 ->
  let r := MkTimer (u32 (millis + now)) millis func arg in
  exists l1 l2,
    let st' := MkTS (<[t := r]> (t_recs st)) (l1 ++ t :: l2) (next_timer st) (t_world st) in
    TimerSet GetTimeInMillis run_callback n al st (Some t) flags millis func arg = Ret (Some t, st') /\
    filter (fun x => x <> t) (timers st) = l1 ++ l2 /\
    (forall x, x ∈ l1 -> due (t_recs st) now x <= millis) /\
    (forall x, x ∈ l2 -> millis < due (t_recs st) now x) /\
    timers_ok now st'.
Proof.
  intros now Hok Hr Hf Ha Hm r.
  assert (Hrel : rel now (u32 (millis + now)) = millis) by (apply rel_add; lia).
  destruct (TimerSet_existing n al st t flags millis func arg now Hok Hr Hf Ha Hm)
    as (l1 & l2 & H1 & H2 & H3 & H4 & H5); [fold now; rewrite Hrel; unfold near; lia|].
  exists l1, l2. fold now in H1, H3, H4, H5. cbn [expires] in H3, H4. rewrite Hrel in H3, H4. done.
Qed.
End Arms.
End TimerSpec.

(** A clock near its wrap, and three timers of which two are pending. *)
Definition sample_timers : timer_state Z :=
  MkTS (list_to_map [(1, MkTimer 4294967290 500 7 0); (2, MkTimer 1000 4000 8 0); (3, MkTimer 0 0 9 0)])
       [1; 2] 4 4294966000.
Lemma sample_timers_ok : timers_ok 4294966000 sample_timers.
Proof.
  assert (Hall : forall (P : Z -> Prop), P 1 -> P 2 -> forall x, x ∈ timers sample_timers -> P x).
  { intros P H1 H2 x. change (timers sample_timers) with [1; 2].
    rewrite !elem_of_cons, elem_of_nil. intros [-> | [-> | []]]; done. }
  split.
  - apply (bool_decide_unpack _). by vm_compute.
  - apply Hall; vm_compute; by eexists.
  - apply Hall; vm_compute; done.
  - repeat constructor; vm_compute; done.
  - intros t [r Hr]. apply elem_of_list_to_map_2 in Hr. rewrite !elem_of_cons, elem_of_nil in Hr.
    destruct Hr as [[= -> _]|[[= -> _]|[[= -> _]|[]]]]; done.
Qed.

Lemma TimerSet_sorts_witness :
  exists st', TimerSet (fun st => t_world st) (fun _ _ _ _ st => (0, st)) 5 always sample_timers
      (Some 3) 0 1300 9 1 = Ret (Some 3, st') /\ timers st' = [1; 3; 2].
Proof.
  pose proof (TimerSet_sorts (fun st => t_world st) (fun _ _ _ _ st => (0, st)) 5 always sample_timers
    3 0 1300 9 1 sample_timers_ok ltac:(vm_compute; by eexists) eq_refl eq_refl ltac:(by vm_compute))
    as (l1 & l2 & He & _).
  eexists. split; [exact He|].
  assert (match TimerSet (fun st => t_world st) (fun _ _ _ _ st => (0, st)) 5 always sample_timers
            (Some 3) 0 1300 9 1 with Ret (_, s) => timers s | _ => [] end = [1; 3; 2]) as Hx
    by by vm_compute.
  rewrite He in Hx. exact Hx.
Defined.

(** ** Running the timers that are due *)

Lemma filter_filter_comm {A} (P Q : A -> Prop) {HP : forall x, Decision (P x)} {HQ : forall x, Decision (Q x)}
    (l : list A) : filter P (filter Q l) = filter Q (filter P l).
Proof.
  induction l as [|x l IH]; [done|]. destruct (decide (Q x)), (decide (P x));
    repeat first [rewrite filter_cons_True by done | rewrite filter_cons_False by done]; congruence.
Qed.

Lemma filter_ext_in {A} (P Q : A -> Prop) {HP : forall x, Decision (P x)} {HQ : forall x, Decision (Q x)}
    (l : list A) : (forall x, x ∈ l -> P x <-> Q x) -> filter P l = filter Q l.
Proof.
  induction l as [|x l IH]; intros Hl; [done|]. pose proof (Hl x ltac:(left)).
  assert (filter P l = filter Q l) as Hf by (apply IH; intros y Hy; apply Hl; by right).
  destruct (decide (P x)).
  - rewrite !filter_cons_True by tauto. by rewrite Hf.
  - rewrite !filter_cons_False by tauto. done.
Qed.

(** A sublist, and what is missing in it. *)
Lemma sublist_rest (k l : list Z) : k `sublist_of` l -> NoDup l -> l ≡ₚ k ++ filter (fun x => x ∉ k) l.
Proof.
  intros Hs Hnd. assert (Hk : filter (fun x => x ∈ k) l ≡ₚ k).
  { apply NoDup_Permutation; [by apply NoDup_filter|by eapply sublist_NoDup|]. intros x. rewrite list_elem_of_filter.
    split; [tauto|]. intros Hx. split; [done|]. by eapply sublist_subseteq. }
  rewrite <- Hk at 1. clear Hs Hnd Hk. induction l as [|x l IH]; [done|]. destruct (decide (x ∈ k)).
  - rewrite filter_cons_True, (filter_cons_False (fun x => x ∉ k)) by tauto. cbn. by rewrite <- IH.
  - rewrite filter_cons_False, (filter_cons_True (fun x => x ∉ k)) by tauto. by rewrite <- Permutation_middle, <- IH.
Qed.

Section DoTimersSpec.
Context {W : Type} (now : Z).
Implicit Types (st : timer_state W).

(** The timers that are due, in the order of the list. *)
Definition expired st : list Z := filter (fun t => due (t_recs st) now t <= 0) (timers st).

Lemma expired_NoDup st : timers_ok now st -> NoDup (expired st).
Proof. intros Hok. apply NoDup_filter, (to_nodup _ _ Hok). Qed.
Lemma expired_del st t : expired (list_del st t) = filter (fun x => x <> t) (expired st).
Proof. apply filter_filter_comm. Qed.

(** Callbacks may set, cancel and free timers, their own included.  They make no
    timer due, keep the timers in order, do not free their own timer and ask to be
    called again, and ask for less than six days.  While the timers run the clock
    does not go back and moves less than six days. *)
Class tame (GetTimeInMillis : timer_state W -> Z)
    (run_callback : Z -> Z -> Z -> Z -> timer_state W -> Z * timer_state W) := {
  tame_clock : forall st, 0 <= rel now (GetTimeInMillis st) < 536870912;
  tame_call : forall cb t arg st d st', timers_ok now st -> is_Some (t_recs st !! t) -> t ∉ timers st ->
    run_callback cb t now arg st = (d, st') ->
    timers_ok now st' /\ 0 <= d < 536870912 /\ (d <> 0 -> is_Some (t_recs st' !! t)) /\
    expired st' `sublist_of` expired st /\ forall x, x ∈ expired st' -> t_recs st' !! x = t_recs st !! x
}.

Context (GetTimeInMillis : timer_state W -> Z)
        (run_callback : Z -> Z -> Z -> Z -> timer_state W -> Z * timer_state W).

(** One timer is called: it leaves the list, its callback does what it does, and
    unless it is done the timer is back in the list for the time it asked for. *)
Definition calls st (t : Z) st1 : Prop :=
  exists r d st', t_recs st !! t = Some r /\
    run_callback (t_callback r) t now (t_arg r) (list_del st t) = (d, st') /\
    if d =? 0 then st1 = st' else
      exists r', t_recs st' !! t = Some r' /\
        t_recs st1 = <[t := MkTimer (u32 (d + GetTimeInMillis st')) d (t_callback r') (t_arg r')]> (t_recs st') /\
        t ∈ timers st1 /\ filter (fun x => x <> t) (timers st1) = filter (fun x => x <> t) (timers st') /\
        t_world st1 = t_world st'.

(** The first timer that is due is called, then the first that is still due, until
    none is.  The second list has those that were due until a callback
    cancelled, freed or set them. *)
Inductive timer_run : timer_state W -> list Z -> list Z -> timer_state W -> Prop :=
  | run_none st : expired st = [] -> timer_run st [] [] st
  | run_call st t l st1 called dropped st2 :
      timers_ok now st -> expired st = t :: l -> calls st t st1 -> expired st1 `sublist_of` l ->
      timer_run st1 called dropped st2 ->
      timer_run st (t :: called) (filter (fun x => x ∉ expired st1) l ++ dropped) st2.

Lemma timer_run_expired st called dropped st' : timer_run st called dropped st' ->
  expired st ≡ₚ called ++ dropped /\ called `sublist_of` expired st.
Proof.
  induction 1 as [st E|st t l st1 called dropped st2 Hok E Hc Hs _ [IH1 IH2]]; rewrite E; [by split|].
  pose proof (expired_NoDup st Hok) as Hnd. rewrite E in Hnd. apply NoDup_cons in Hnd as [_ Hnd]. split.
  - cbn. constructor. rewrite (sublist_rest (expired st1) l) at 1 by done. rewrite IH1, <- !app_assoc. by rewrite (Permutation_app_comm dropped).
  - constructor. by etrans.
Qed.

Context {Ht : tame GetTimeInMillis run_callback}.

Lemma DoTimer_spec n st t : timers_ok now st -> t ∈ timers st ->
  exists st1, DoTimer GetTimeInMillis run_callback (S n) st t now = Ret st1 /\ timers_ok now st1 /\ calls st t st1 /\
    expired st1 `sublist_of` filter (fun x => x <> t) (expired st).
Proof.
  intros Hok Hin. destruct (to_live _ _ Hok t Hin) as [r Hr]. cbn [DoTimer]. rewrite Hr. cbn [obind_opt]. cbv zeta.
  assert (Hok0 : timers_ok now (list_del st t)) by by apply list_del_ok.
  assert (Hnin : t ∉ timers (list_del st t)).
  { unfold list_del. cbn. intros Hx. apply list_elem_of_filter in Hx. tauto. }
  destruct (run_callback (t_callback r) t now (t_arg r) (list_del st t)) as [d st'] eqn:Hcall.
  destruct (tame_call _ _ _ _ _ _ Hok0 ltac:(by exists r) Hnin Hcall) as (Hok' & Hd & Hlive & Hexp & Hsame).
  rewrite expired_del in Hexp. destruct (Z.eqb_spec d 0) as [->|Hd0].
  { exists st'. split; [done|]. split; [done|]. split; [|done]. by exists r, 0, st'. }
  destruct (Hlive Hd0) as [r' Hr']. rewrite Hr'. cbn [obind_opt].
  pose proof (tame_clock st') as Hcl.
  assert (Hrel : rel now (u32 (d + GetTimeInMillis st')) = d + rel now (GetTimeInMillis st')) by (unfold rel in *; word).
  destruct (TimerSet_existing GetTimeInMillis run_callback n always st' t 0 d (t_callback r') (t_arg r') now)
    as (l1 & l2 & Hset & Hf & _ & _ & H3); [done|by exists r'|done|done|lia|rewrite Hrel; unfold near; lia|].
  unfold TimerSet in Hset. rewrite Hset. cbn [obind]. set (r2 := MkTimer _ _ _ _) in *. set (st1 := MkTS _ _ _ _).
  assert (Hmid : forall x, x ∈ l1 ++ l2 -> x <> t).
  { intros x. rewrite <- Hf. intros Hx. apply list_elem_of_filter in Hx; tauto. }
  exists st1. split; [done|]. split; [done|]. split.
  - exists r, d, st'. split; [done|]. split; [done|]. destruct (Z.eqb_spec d 0); [done|]. exists r'. split; [done|]. split; [done|].
    split; [cbn; apply elem_of_app; right; left|]. split; [|done]. cbn [timers st1]. rewrite Hf.
    rewrite filter_app, filter_cons_False, <- filter_app by tauto. apply list_del_absent. intros Hx. by apply (Hmid t Hx).
  - assert (He : expired st1 = filter (fun x => x <> t) (expired st')).
    { rewrite <- expired_del. unfold expired, list_del. cbn [timers t_recs st1 set_field eta_ts]. rewrite Hf, !filter_app.
      rewrite filter_cons_False by (unfold due; rewrite lookup_insert_eq; cbn; rewrite Hrel; lia).
      rewrite <- !filter_app. apply filter_ext_in. intros x Hx. unfold due. rewrite lookup_insert_ne; [done|].
      intros <-. by apply (Hmid t). }
    rewrite He. etrans; [apply sublist_filter|done].
Qed.

(** The loop: what was called before is put in front of what is called later. *)
Definition run_inv st0 st : Prop :=
  timers_ok now st /\ exists c0 d0, forall c d st', timer_run st c d st' -> timer_run st0 (c0 ++ c) (d0 ++ d) st'.

Lemma expired_first st t l : timers_ok now st -> timers st = t :: l ->
  expired st = if 0 <? due (t_recs st) now t then [] else t :: filter (fun t => due (t_recs st) now t <= 0) l.
Proof.
  intros Hok Hl. unfold expired. rewrite Hl. destruct (Z.ltb_spec 0 (due (t_recs st) now t)).
  - apply filter_none. intros x Hx. pose proof (to_sorted _ _ Hok) as Hs. rewrite Hl in Hs.
    apply StronglySorted_inv in Hs as [_ Hs]. rewrite Forall_forall in Hs.
    apply elem_of_cons in Hx as [->|Hx]; [lia|]. specialize (Hs x Hx). cbv beta in Hs. lia.
  - by rewrite filter_cons_True by lia.
Qed.

Lemma do_timers_step_inv n st0 st : run_inv st0 st ->
  match do_timers_step GetTimeInMillis run_callback (S n) now st with
  | inl st' => run_inv st0 st' /\ 0 <= Z.of_nat (length (expired st')) < Z.of_nat (length (expired st))
  | inr (Ret st') => run_inv st0 st' /\ expired st' = []
  | inr _ => False
  end.
Proof.
  intros [Hok (c0 & d0 & Hrun)]. unfold do_timers_step, first_timer.
  destruct (timers st) as [|t l] eqn:Hl; cbn [hd_error].
  { split; [split; [done|]; by exists c0, d0|]. unfold expired. by rewrite Hl. }
  assert (Hin : t ∈ timers st) by (rewrite Hl; left).
  destruct (to_live _ _ Hok t Hin) as [r Hr]. rewrite Hr.
  pose proof (expired_first st t l Hok Hl) as Hexp.
  assert (Hdue : due (t_recs st) now t = i32 (expires r - now)) by (unfold due; by rewrite Hr).
  rewrite Hdue in Hexp. destruct (0 <? i32 (expires r - now)); [split; [split; [done|]; by exists c0, d0|done]|].
  destruct (DoTimer_spec n st t Hok Hin) as (st1 & -> & Hok1 & Hc & Hs).
  pose proof (expired_NoDup st Hok) as Hnd. rewrite Hexp in Hs, Hnd |- *. apply NoDup_cons in Hnd as [Hnt Hnd].
  set (rest := filter _ l) in *. rewrite filter_cons_False, list_del_absent in Hs by tauto.
  split; [|apply sublist_length in Hs; cbn [length]; lia].
  split; [done|]. exists (c0 ++ [t]), (d0 ++ filter (fun x => x ∉ expired st1) rest). intros c d st' Hr'.
  rewrite <- !app_assoc. apply Hrun. by apply (run_call st t rest st1).
Qed.

(** When no callback changes which timers are due, all are called. *)
Lemma timer_run_all st called dropped st' :
  (forall cb t arg s, expired (run_callback cb t now arg s).2 = expired s) ->
  timer_run st called dropped st' -> called = expired st.
Proof.
  intros Hquiet. induction 1 as [st E|st t l st1 called dropped st2 Hok E Hc Hs _ IH]; [done|]. rewrite IH, E. f_equal.
  pose proof (expired_NoDup st Hok) as Hnd. rewrite E in Hnd. apply NoDup_cons in Hnd as [Hnt _].
  destruct Hc as (r & d & s & _ & Hcall & Hres). pose proof (Hquiet (t_callback r) t (t_arg r) (list_del st t)) as Hq.
  rewrite Hcall, expired_del, E, filter_cons_False, list_del_absent in Hq by tauto. cbn [snd] in Hq.
  destruct (d =? 0); [by subst|]. destruct Hres as (r' & _ & Hrecs & _ & Hf & _).
  assert (He : filter (fun x => x <> t) (expired st1) = filter (fun x => x <> t) (expired s)).
  { rewrite <- !expired_del. unfold expired, list_del. cbn [timers t_recs set_field eta_ts]. rewrite Hf. apply filter_ext_in.
    intros x [Hx _]%list_elem_of_filter. unfold due. by rewrite Hrecs, lookup_insert_ne. }
  rewrite Hq, (list_del_absent l) in He by done. rewrite <- He. symmetry. apply list_del_absent.
  intros Hin. apply Hnt. by eapply sublist_subseteq.
Qed.

(** C34: [DoTimers] ends, with callbacks that may set, cancel and free timers
    ([tame]: they make no timer due, leave those that stay due as they are, and ask
    to be called again within 2^29 ms), in a state whose timers are ordered and
    within 2^30 ms of [now], on a clock that moves less than 2^29 ms meanwhile.  It
    calls the first timer that is due, then the first that still is, until none is.
    Every timer that was due is called once, in the order of the list, unless a
    callback that came before cancelled, freed or set it; all are when no callback
    does.  A timer that asks to be called again is in the list for then, other
    timers are as the callbacks leave them, and the list is ordered. *)
Theorem DoTimers_runs_due n p st :
  timers_ok now st -> Z.of_nat (length (timers st)) < Zpos p ->
  exists called dropped st', DoTimers GetTimeInMillis run_callback (S n) p st now = Ret st' /\
    timer_run st called dropped st' /\ expired st ≡ₚ called ++ dropped /\ called `sublist_of` expired st /\
    ((forall cb t arg s, expired (run_callback cb t now arg s).2 = expired s) -> called = expired st) /\
    expired st' = [] /\ timers_ok now st'.
Proof.
  intros Hok Hp. unfold DoTimers.
  destruct (run_loop_total (do_timers_step GetTimeInMillis run_callback (S n) now)
    (run_inv st) (fun st' => run_inv st st' /\ expired st' = [])
    (fun st => Z.of_nat (length (expired st))) p st) as (st' & Hr & [Hok' (c & d & Hrun)] & He).
  - intros s Hs. apply (do_timers_step_inv n st s Hs).
  - split; [done|]. by exists [], [].
  - assert (length (expired st) <= length (timers st))%nat by apply length_filter. lia.
  - specialize (Hrun [] [] st' (run_none st' He)). rewrite !app_nil_r in Hrun.
    destruct (timer_run_expired st c d st' Hrun) as [H1 H2].
    exists c, d, st'. split; [done|]. split; [done|]. split; [done|]. split; [done|]. split; [|done].
    intros Hq. by eapply timer_run_all.
Qed.
End DoTimersSpec.

(** ** Callbacks that set, cancel and free timers

    The callbacks of the server are tame: what they do with timers is made of
    these operations, on timers that exist.  Timers are set for a time ahead, so
    that [TimerSet] calls no callback in turn. *)
Inductive timer_op {W : Type} :=
  | OpWorld (f : W -> W)
  | OpSet (timer : option Z) (millis func arg : Z)
  | OpCancel (timer : Z)
  | OpFree (timer : Z).
Arguments timer_op : clear implicits.

Section Scripts.
Context {W : Type} (clock : W -> Z) (script : Z -> Z -> Z -> Z -> W -> Z * list (timer_op W)).
Implicit Types (st : timer_state W).

Definition script_time st : Z := clock (t_world st).
Definition no_callback (cb t now arg : Z) st : Z * timer_state W := (0, st).

(** An operation on a timer that does not exist is none. *)
Definition run_op st (op : timer_op W) : timer_state W :=
  match op with
  | OpWorld f => st <| t_world ::= f |>
  | OpSet timer millis func arg =>
      match TimerSet script_time no_callback 0 always st timer 0 millis func arg with Ret (_, st') => st' | _ => st end
  | OpCancel t => match TimerCancel st (Some t) with Ret st' => st' | _ => st end
  | OpFree t => match TimerFree st (Some t) with Ret st' => st' | _ => st end
  end.
Definition script_callback (cb t now arg : Z) st : Z * timer_state W :=
  let '(d, ops) := script cb t now arg (t_world st) in (d, fold_left run_op ops st).

Definition op_ok (t d : Z) (op : timer_op W) : Prop :=
  match op with
  | OpWorld _ | OpCancel _ => True
  | OpSet _ millis _ _ => 0 < millis < 536870912
  | OpFree x => d <> 0 -> x <> t
  end.

Context (now : Z).
Hypothesis clock_ahead : forall w, 0 <= rel now (clock w) < 536870912.
Hypothesis script_ok : forall cb t arg w d ops, script cb t now arg w = (d, ops) -> 0 <= d < 536870912 /\ Forall (op_ok t d) ops.

(** What an operation keeps. *)
Definition op_keeps st st' : Prop :=
  timers_ok now st' /\ expired now st' `sublist_of` expired now st /\
  forall x, x ∈ expired now st' -> t_recs st' !! x = t_recs st !! x.

Lemma op_keeps_refl st : timers_ok now st -> op_keeps st st.
Proof. by split. Qed.
Lemma op_keeps_trans st1 st2 st3 : op_keeps st1 st2 -> op_keeps st2 st3 -> op_keeps st1 st3.
Proof.
  intros (_ & H2 & H3) (H4 & H5 & H6). split; [done|]. split; [by etrans|]. intros x Hx. rewrite H6 by done. apply H3.
  by eapply sublist_subseteq.
Qed.
Lemma op_keeps_del st t : timers_ok now st -> op_keeps st (list_del st t).
Proof. intros Hok. split; [by apply list_del_ok|]. rewrite expired_del. by split; [apply sublist_filter|]. Qed.

Lemma set_keeps st t millis func arg : timers_ok now st -> is_Some (t_recs st !! t) -> 0 < millis < 536870912 ->
  exists st', TimerSet script_time no_callback 0 always st (Some t) 0 millis func arg = Ret (Some t, st') /\ op_keeps st st' /\
    forall x, is_Some (t_recs st !! x) -> is_Some (t_recs st' !! x).
Proof.
  intros Hok Hlive Hm. pose proof (clock_ahead (t_world st)) as Hcl.
  assert (Hrel : rel now (u32 (millis + clock (t_world st))) = millis + rel now (clock (t_world st))) by (unfold rel in *; word).
  destruct (TimerSet_existing script_time no_callback 0 always st t 0 millis func arg now) as (l1 & l2 & Hset & Hf & _ & _ & Hok');
    [done|done|done|done|lia|unfold script_time; rewrite Hrel; unfold near; lia|].
  eexists. split; [exact Hset|]. split; [split; [done|]|].
  - assert (Hmid : forall x, x ∈ l1 ++ l2 -> x <> t).
    { intros x. rewrite <- Hf. intros Hx. apply list_elem_of_filter in Hx; tauto. }
    set (r := MkTimer _ _ _ _) in *. set (st' := MkTS _ _ _ _) in *.
    assert (He : expired now st' = expired now (list_del st t)).
    { unfold expired, list_del. cbn [timers t_recs st' set_field eta_ts]. rewrite Hf, !filter_app.
      rewrite filter_cons_False by (unfold due; rewrite lookup_insert_eq; cbn; unfold script_time; rewrite Hrel; lia).
      rewrite <- !filter_app. apply filter_ext_in. intros x Hx. unfold due. rewrite lookup_insert_ne; [done|].
      intros <-. by apply (Hmid t). }
    rewrite He, expired_del. split; [apply sublist_filter|]. intros x [Hx _]%list_elem_of_filter. cbn. by rewrite lookup_insert_ne.
  - intros x Hx. cbn. destruct (decide (t = x)) as [<-|]; [rewrite lookup_insert_eq; by eexists|by rewrite lookup_insert_ne].
Qed.

(** A new timer is one that exists and is not pending. *)
Lemma new_keeps st millis func arg : timers_ok now st -> 0 < millis < 536870912 ->
  exists t st', TimerSet script_time no_callback 0 always st None 0 millis func arg = Ret (Some t, st') /\ op_keeps st st' /\
    forall x, is_Some (t_recs st !! x) -> is_Some (t_recs st' !! x).
Proof.
  intros Hok Hm. set (t := next_timer st).
  set (st1 := MkTS (<[t := MkTimer 0 0 0 0]> (t_recs st)) (timers st) (next_timer st + 1) (t_world st)).
  assert (Hnin : t ∉ timers st) by (intros Hx; pose proof (to_fresh _ _ Hok t (to_live _ _ Hok t Hx)); lia).
  assert (Hother : forall x, x ∈ timers st -> t_recs st1 !! x = t_recs st !! x).
  { intros x Hx. cbn. rewrite lookup_insert_ne; [done|]. by intros ->. }
  assert (Hok1 : timers_ok now st1).
  { destruct Hok as [H1 H2 H3 H4 H5]. split; cbn [timers st1].
    - done.
    - intros x Hx. rewrite Hother by done. by apply H2.
    - intros x Hx. unfold due. rewrite Hother by done. by apply H3.
    - eapply sorted_ext; [|exact H4]. intros a b Ha Hb. unfold due. by rewrite !Hother.
    - intros x. cbn. destruct (decide (t = x)) as [<-|]; [intros _; unfold t; lia|]. rewrite lookup_insert_ne by done.
      intros Hx. specialize (H5 x Hx). lia. }
  destruct (set_keeps st1 t millis func arg Hok1) as (st' & Hset & Hk & Hl); [cbn; rewrite lookup_insert_eq; by eexists|done|].
  exists t, st'. split; [|split].
  - rewrite <- Hset. unfold TimerSet, TimerSet_with, timer_unlink. cbn [negb always obind_opt]. unfold always. cbn [negb obind].
    change (t_recs st1 !! t) with (<[t := MkTimer 0 0 0 0]> (t_recs st) !! t). rewrite lookup_insert_eq. cbn [obind_opt].
    unfold timer_pending. cbn [timers st1]. rewrite bool_decide_false by done. done.
  - eapply op_keeps_trans; [|exact Hk]. split; [done|]. assert (He : expired now st1 = expired now st).
    { unfold expired. cbn [timers st1]. apply filter_ext_in. intros x Hx. unfold due. by rewrite Hother. }
    rewrite He. split; [done|]. intros x [_ Hx]%list_elem_of_filter. by apply Hother.
  - intros x Hx. apply Hl. cbn. destruct (decide (t = x)) as [<-|]; [rewrite lookup_insert_eq; by eexists|by rewrite lookup_insert_ne].
Qed.

Lemma run_op_keeps st t d op : timers_ok now st -> op_ok t d op ->
  op_keeps st (run_op st op) /\ (d <> 0 -> is_Some (t_recs st !! t) -> is_Some (t_recs (run_op st op) !! t)).
Proof.
  intros Hok Hop. destruct op as [f|timer millis func arg|x|x]; cbn [run_op op_ok] in *.
  - split; [|done]. split; [destruct Hok; by split|]. by split.
  - destruct timer as [x|].
    + destruct (t_recs st !! x) as [r|] eqn:Hx.
      * destruct (set_keeps st x millis func arg Hok ltac:(by exists r) Hop) as (st' & -> & Hk & Hl). split; [done|]. intros _. apply Hl.
      * unfold TimerSet, TimerSet_with, timer_unlink. rewrite Hx. split; [by apply op_keeps_refl|done].
    + destruct (new_keeps st millis func arg Hok Hop) as (x & st' & -> & Hk & Hl). split; [done|]. intros _. apply Hl.
  - unfold TimerCancel. destruct (t_recs st !! x); cbn [obind_opt]; [|split; [by apply op_keeps_refl|done]].
    split; [by apply op_keeps_del|done].
  - unfold TimerFree, TimerCancel. destruct (t_recs st !! x); cbn [obind_opt obind]; [|split; [by apply op_keeps_refl|done]].
    assert (Hne : forall y, y ∈ timers (list_del st x) -> y <> x).
    { intros y Hy. unfold list_del in Hy. cbn in Hy. apply list_elem_of_filter in Hy. tauto. }
    split; [|intros Hd Ht; cbn; rewrite lookup_delete_ne; [done|by apply Hop]].
    eapply op_keeps_trans; [by apply (op_keeps_del st x)|]. pose proof (list_del_ok now st x Hok) as [H1 H2 H3 H4 H5].
    set (st' := set_field _ _ _). assert (Hsame : forall y, y ∈ timers (list_del st x) -> t_recs st' !! y = t_recs (list_del st x) !! y).
    { intros y Hy. cbn. rewrite lookup_delete_ne; [done|]. intros ->. by apply (Hne y). }
    split; [split; cbn [timers st']|].
    + exact H1.
    + intros y Hy. rewrite Hsame by done. by apply H2.
    + intros y Hy. unfold due. rewrite Hsame by done. by apply H3.
    + eapply sorted_ext; [|exact H4]. intros a b Ha Hb. unfold due. by rewrite !Hsame.
    + intros y Hy. apply H5. cbn in Hy. destruct (decide (x = y)) as [->|]; [rewrite lookup_delete_eq in Hy; by destruct Hy|].
      by rewrite lookup_delete_ne in Hy.
    + assert (He : expired now st' = expired now (list_del st x)).
      { unfold expired. apply filter_ext_in. intros y Hy. unfold due. by rewrite Hsame. }
      rewrite He. split; [done|]. intros y [_ Hy]%list_elem_of_filter. by apply Hsame.
Qed.

#[export] Instance scripts_tame : tame now script_time script_callback.
Proof.
  split; [intros st; apply clock_ahead|]. intros cb t arg st d st' Hok Hlive Hnin Hrun. unfold script_callback in Hrun.
  destruct (script cb t now arg (t_world st)) as [d' ops] eqn:Hs. injection Hrun as -> <-.
  destruct (script_ok _ _ _ _ _ _ Hs) as [Hd Hops]. clear Hs Hnin.
  assert (H : op_keeps st (fold_left run_op ops st) /\ (d <> 0 -> is_Some (t_recs (fold_left run_op ops st) !! t))).
  { assert (Hl0 : d <> 0 -> is_Some (t_recs st !! t)) by done. clear Hlive. revert st Hok Hl0.
    induction Hops as [|op ops Hop _ IH]; intros st Hok Hl0; cbn [fold_left]; [by split; [apply op_keeps_refl|]|].
    destruct (run_op_keeps st t d op Hok Hop) as [Hk Hl].
    destruct (IH (run_op st op)) as [Hk2 Hl2]; [apply Hk|auto|]. split; [by eapply op_keeps_trans|done]. }
  destruct H as [(H1 & H2 & H3) H4]. split; [exact H1|]. split; [exact Hd|]. split; [exact H4|]. split; [exact H2|exact H3].
Qed.
End Scripts.

(** Timer 1 cancels the timer 2, which is due too, frees the timer 5 and makes a new
    one, and is called again; timer 4 is called then. *)
Definition sample_script (cb t now arg : Z) (w : list Z) : Z * list (timer_op (list Z)) :=
  if t =? 1 then (100, [OpWorld (fun w => w ++ [cb]); OpCancel 2; OpFree 5; OpSet None 50 8 0])
  else (0, [OpWorld (fun w => w ++ [cb]); OpSet (Some t) 700 cb arg]).
Definition sample_due : timer_state (list Z) :=
  MkTS (list_to_map [(1, MkTimer 4294967290 500 7 0); (2, MkTimer 10 4000 8 0); (4, MkTimer 15 10 9 0);
                     (5, MkTimer 16 5 11 0); (3, MkTimer 500 500 9 0)]) [1; 2; 4; 5; 3] 6 [].

Lemma sample_due_ok : timers_ok 20 sample_due.
Proof.
  assert (Hall : forall (P : Z -> Prop), P 1 -> P 2 -> P 4 -> P 5 -> P 3 -> forall x, x ∈ timers sample_due -> P x).
  { intros P H1 H2 H4 H5 H3 x. change (timers sample_due) with [1; 2; 4; 5; 3].
    rewrite !elem_of_cons, elem_of_nil. intros [-> | [-> | [-> | [-> | [-> | []]]]]]; done. }
  split.
  - apply (bool_decide_unpack _). by vm_compute.
  - apply Hall; vm_compute; by eexists.
  - apply Hall; vm_compute; done.
  - repeat constructor; vm_compute; done.
  - intros t [r Hr]. apply elem_of_list_to_map_2 in Hr. rewrite !elem_of_cons, elem_of_nil in Hr.
    destruct Hr as [[= -> _]|[[= -> _]|[[= -> _]|[[= -> _]|[[= -> _]|[]]]]]]; done.
Qed.

Definition sample_run : outcome (timer_state (list Z)) :=
  DoTimers (script_time (fun _ => 20)) (script_callback (fun _ => 20) sample_script) 1 10 sample_due 20.

Lemma DoTimers_runs_due_witness :
  exists called dropped st', sample_run = Ret st' /\ expired 20 sample_due = [1; 2; 4; 5] /\
    expired 20 sample_due ≡ₚ called ++ dropped /\ expired 20 st' = [] /\
    t_world st' = [7; 9] /\ timers st' = [6; 1; 3; 4].
Proof.
  assert (Ht : tame 20 (script_time (fun _ => 20)) (script_callback (fun _ => 20) sample_script)).
  { apply scripts_tame; [intros; by vm_compute|]. intros cb t arg w d ops. unfold sample_script.
    destruct (Z.eqb_spec t 1); intros [= <- <-]; (split; [lia|repeat constructor; cbn; lia]). }
  destruct (DoTimers_runs_due 20 (script_time (fun _ => 20)) (script_callback (fun _ => 20) sample_script) 0 10 sample_due
    sample_due_ok ltac:(by vm_compute)) as (c & d & st' & Hrun & _ & Hp & _ & _ & He & _).
  exists c, d, st'. split; [exact Hrun|]. split; [by vm_compute|]. split; [exact Hp|]. split; [exact He|].
  assert (Hx : match sample_run with Ret s => (t_world s, timers s) | _ => ([], []) end = ([7; 9], [6; 1; 3; 4])) by by vm_compute.
  unfold sample_run in Hx. rewrite Hrun in Hx. injection Hx as -> ->. done.
Defined.

(** ** Power levels *)

(** Whether the time of a level has come after [idle] milliseconds. *)
Definition elapsed (idle time : Z) : bool := (0 <? time) && (time <=? idle).

Definition elapsed_level (s : saver) (idle : Z) : Z :=
  if elapsed idle (DPMSOffTime s) then DPMSModeOff
  else if elapsed idle (DPMSSuspendTime s) then DPMSModeSuspend
  else if elapsed idle (DPMSStandbyTime s) then DPMSModeStandby else DPMSModeOn.

(** The times of the levels above [level], in order, that are not disabled. *)
Definition later_times (s : saver) (level : Z) : list Z :=
  filter (fun t => 0 < t)
    ((if level <? DPMSModeStandby then [DPMSStandbyTime s] else []) ++
     (if level <? DPMSModeSuspend then [DPMSSuspendTime s] else []) ++
     (if level <? DPMSModeOff then [DPMSOffTime s] else [])).

Section SaverSpec.

Lemma check_mode_level timeout mode time s : 0 <= timeout < 4294967296 ->
  DPMSPowerLevel (DPMS_CHECK_MODE timeout mode time s) =
    (if elapsed timeout time then Z.max (DPMSPowerLevel s) mode else DPMSPowerLevel s) /\
  DPMSStandbyTime (DPMS_CHECK_MODE timeout mode time s) = DPMSStandbyTime s /\
  DPMSSuspendTime (DPMS_CHECK_MODE timeout mode time s) = DPMSSuspendTime s /\
  DPMSOffTime (DPMS_CHECK_MODE timeout mode time s) = DPMSOffTime s /\
  ScreenSaverTime (DPMS_CHECK_MODE timeout mode time s) = ScreenSaverTime s.
Proof.
  intros Ht. unfold DPMS_CHECK_MODE, elapsed. rewrite u32_small by done.
  destruct (Z.ltb_spec 0 time), (Z.leb_spec time timeout), (Z.ltb_spec (DPMSPowerLevel s) mode);
    cbn; repeat split; lia.
Qed.

Lemma check_timeout_later timeout time k : 0 <= timeout < 4294967296 -> 0 <= time < 4294967296 ->
  elapsed timeout time = false ->
  DPMS_CHECK_TIMEOUT timeout time k = if 0 <? time then time - timeout else k.
Proof.
  intros Ht Hm He. unfold DPMS_CHECK_TIMEOUT, elapsed in *.
  destruct (Z.ltb_spec 0 time); [|done]. cbn [andb] in *. breflect. rewrite u32_small by lia.
  by destruct (Z.ltb_spec 0 (time - timeout)); [|lia].
Qed.

Lemma elapsed_level_cases s idle :
  0 <= elapsed_level s idle <= 3 /\
  (elapsed_level s idle < 3 -> elapsed idle (DPMSOffTime s) = false) /\
  (elapsed_level s idle < 2 -> elapsed idle (DPMSSuspendTime s) = false).
Proof.
  unfold elapsed_level, DPMSModeOff, DPMSModeSuspend, DPMSModeStandby, DPMSModeOn.
  repeat case_match; repeat split; lia || done.
Qed.

Lemma levels_next s idle : 0 <= idle < 4294967296 -> 0 <= DPMSPowerLevel s <= 3 ->
  0 <= DPMSStandbyTime s < 4294967296 -> 0 <= DPMSSuspendTime s < 4294967296 ->
  0 <= DPMSOffTime s < 4294967296 ->
  let s1 := dpms_levels idle s in
  DPMSPowerLevel s1 = Z.max (DPMSPowerLevel s) (elapsed_level s idle) /\
  (DPMSPowerLevel s1 <> DPMSModeOn -> NextDPMSTimeout s1 idle =
     match later_times s (DPMSPowerLevel s1) with t :: _ => t - idle | [] => 0 end).
Proof.
  intros Hi Hl H1 H2 H3 s1. unfold s1, dpms_levels.
  destruct (check_mode_level idle DPMSModeOff (DPMSOffTime s) s Hi) as (La & Sa & Ua & Oa & _).
  set (sa := DPMS_CHECK_MODE idle DPMSModeOff (DPMSOffTime s) s) in *.
  destruct (check_mode_level idle DPMSModeSuspend (DPMSSuspendTime s) sa Hi) as (Lb & Sb & Ub & Ob & _).
  set (sb := DPMS_CHECK_MODE idle DPMSModeSuspend _ sa) in *.
  destruct (check_mode_level idle DPMSModeStandby (DPMSStandbyTime s) sb Hi) as (Lc & Sc & Uc & Oc & _).
  set (sc := DPMS_CHECK_MODE idle DPMSModeStandby _ sb) in *.
  assert (Hlev : DPMSPowerLevel sc = Z.max (DPMSPowerLevel s) (elapsed_level s idle)).
  { rewrite Lc, Lb, La. unfold elapsed_level, DPMSModeOff, DPMSModeSuspend, DPMSModeStandby, DPMSModeOn.
    destruct (elapsed idle (DPMSOffTime s)), (elapsed idle (DPMSSuspendTime s)),
      (elapsed idle (DPMSStandbyTime s)); lia. }
  split; [exact Hlev|]. intros Hon. unfold NextDPMSTimeout.
  rewrite Sc, Sb, Sa, Uc, Ub, Ua, Oc, Ob, Oa, Hlev. rewrite Hlev in Hon.
  unfold DPMSModeOn in Hon. unfold later_times. clear - Hi Hl H1 H2 H3 Hon.
  destruct (elapsed_level_cases s idle) as (HL & Hoff & Hsus).
  set (L := Z.max (DPMSPowerLevel s) (elapsed_level s idle)) in *.
  assert (L = 1 \/ L = 2 \/ L = 3) as HL3 by lia.
  assert (Hoff' : L < 3 -> elapsed idle (DPMSOffTime s) = false) by (intros; apply Hoff; lia).
  assert (Hsus' : L < 2 -> elapsed idle (DPMSSuspendTime s) = false) by (intros; apply Hsus; lia).
  clearbody L. clear Hoff Hsus. unfold DPMSModeOff, DPMSModeSuspend, DPMSModeStandby, DPMSModeOn.
  destruct HL3 as [-> | [-> | ->]]; cbn [Z.eqb Z.ltb Pos.eqb Z.compare Pos.compare Pos.compare_cont app].
  - rewrite !check_timeout_later by first [done | apply Hoff'; lia | apply Hsus'; lia].
    rewrite !filter_cons. destruct (Z.ltb_spec 0 (DPMSSuspendTime s)), (Z.ltb_spec 0 (DPMSOffTime s));
      repeat case_decide; try lia; done.
  - rewrite !check_timeout_later by first [done | apply Hoff'; lia].
    rewrite !filter_cons. destruct (Z.ltb_spec 0 (DPMSOffTime s)); repeat case_decide; try lia; done.
  - done.
Qed.

(** When the screen saver's timer expires after the given idle time, the
    power level becomes the deepest one whose time has come (and never goes
    back), and in a power saving level the next call is asked for exactly when
    the next deeper level is due, or never when there is none. *)
Theorem ScreenSaverTimeoutExpire_levels now last_event s :
  let idle := i32 (now - last_event) in
  let '(delay, s') := ScreenSaverTimeoutExpire true now last_event s in
  DPMSEnabled s = true -> 0 <= idle -> 0 <= DPMSPowerLevel s <= 3 ->
  0 <= DPMSStandbyTime s < 4294967296 -> 0 <= DPMSSuspendTime s < 4294967296 ->
  0 <= DPMSOffTime s < 4294967296 ->
  DPMSPowerLevel s' = Z.max (DPMSPowerLevel s) (elapsed_level s idle) /\
  (DPMSPowerLevel s' <> DPMSModeOn ->
   delay = match later_times s (DPMSPowerLevel s') with t :: _ => t - idle | [] => 0 end).
Proof.
  intros idle. unfold ScreenSaverTimeoutExpire. fold idle.
  destruct (DPMSEnabled s) eqn:Hen; cbn [andb];
    [|by destruct (if negb _ then _ else _) as [d s']].
  set (s1 := dpms_levels idle s).
  assert (Hmain : 0 <= idle -> 0 <= DPMSPowerLevel s <= 3 ->
    0 <= DPMSStandbyTime s < 4294967296 -> 0 <= DPMSSuspendTime s < 4294967296 ->
    0 <= DPMSOffTime s < 4294967296 ->
    DPMSPowerLevel s1 = Z.max (DPMSPowerLevel s) (elapsed_level s idle) /\
    (DPMSPowerLevel s1 <> DPMSModeOn -> NextDPMSTimeout s1 idle =
       match later_times s (DPMSPowerLevel s1) with t :: _ => t - idle | [] => 0 end)).
  { intros Hi Hl H1 H2 H3. apply levels_next; try done. split; [done|]. unfold idle. word. }
  destruct (Z.eqb_spec (DPMSPowerLevel s1) DPMSModeOn) as [Hon|Hon]; cbn [negb].
  2:{ intros _ Hi Hl H1 H2 H3. destruct (Hmain Hi Hl H1 H2 H3) as [Ha Hb]. split; [done|].
      intros _. by apply Hb. }
  assert (Hs1 : forall d s', DPMSPowerLevel s' = DPMSPowerLevel s1 ->
    (true = true -> 0 <= idle -> 0 <= DPMSPowerLevel s <= 3 ->
     0 <= DPMSStandbyTime s < 4294967296 -> 0 <= DPMSSuspendTime s < 4294967296 ->
     0 <= DPMSOffTime s < 4294967296 ->
     DPMSPowerLevel s' = Z.max (DPMSPowerLevel s) (elapsed_level s idle) /\
     (DPMSPowerLevel s' <> DPMSModeOn ->
      d = match later_times s (DPMSPowerLevel s') with t :: _ => t - idle | [] => 0 end))).
  { intros d s' He _ Hi Hl H1 H2 H3. rewrite He. destruct (Hmain Hi Hl H1 H2 H3) as [Ha _]. done. }
  destruct (ScreenSaverTime s1 =? 0); [by apply Hs1|].
  destruct (u32 idle <? ScreenSaverTime s1); by apply Hs1.
Qed.
End SaverSpec.

Lemma ScreenSaverTimeoutExpire_levels_witness :
  let s := MkSaver 0 true 1000 2000 5000 9000 0 false [] in
  DPMSPowerLevel (ScreenSaverTimeoutExpire true 2600 500 s).2 = DPMSModeSuspend /\
  (ScreenSaverTimeoutExpire true 2600 500 s).1 = 2900.
Proof.
  intros s. pose proof (ScreenSaverTimeoutExpire_levels 2600 500 s) as H. cbv zeta in H.
  destruct (ScreenSaverTimeoutExpire true 2600 500 s) as [d s'] eqn:E.
  destruct (H eq_refl ltac:(by vm_compute) ltac:(by vm_compute) ltac:(by vm_compute)
    ltac:(by vm_compute) ltac:(by vm_compute)) as [Hl Hd].
  cbn [fst snd]. split; [rewrite Hl; by vm_compute|]. rewrite Hd; rewrite Hl; by vm_compute.
Defined.
