(* ===== verification/ClientIO.v ===== *)
(** * ClientIO: request input and reply output of [os/io.c]

    Every client has an [OsCommRec] with an input buffer, from which requests
    are cut, and an output buffer, which collects replies and events until they
    are flushed.  Idle buffers are kept on two free lists and move from client
    to client.  Pointers into a buffer are offsets; a buffer is a list of cells
    of which those the server never wrote are unknown.  The transport (Xtrans,
    a library the build brings in) is the class [Transport]. *)

From S2P Require Import Prelude.
From S2P Require Import Wire.

(** ** The transport *)

(** [read]: bytes, end of file as no bytes, or an error. *)
Inductive read_result := RdBytes (l : list Z) | RdError (wouldblock : bool).
(** [write]: the number of bytes taken, or [errno]. *)
Inductive write_result := WrOk (n : Z) | WrWouldBlock | WrMsgSize | WrError.

Class Transport (W : Type) := {
  (** [_XSERVTransRead (conn, ..., max)] *)
  trans_read : Z -> Z -> W -> read_result * W;
  (** [_XSERVTransWrite (conn, bytes, ...)] *)
  trans_write : Z -> list cell -> W -> write_result * W;
  (** [_XSERVTransRecvFd] *)
  trans_recv_fd : Z -> W -> Z * W;
  (** [_XSERVTransDisconnect] and [_XSERVTransClose] *)
  trans_close : Z -> W -> W
}.

(** ** State *)

Definition BUFSIZE : Z := 16384.
Definition BUFWATERMARK : Z := 32768.
Definition MAXINT : Z := 2147483647.
Definition sizeof_xReq : Z := 4.
Definition sizeof_xBigReq : Z := 8.
Definition sizeof_xReply : Z := 32.
Definition X_Reply : Z := 1.
Definition OS_COMM_GRAB_IMPERVIOUS : Z := 1.
Definition OS_COMM_IGNORED : Z := 2.
Definition serverClient : Z := 0.

(** [os/io.c: ConnectionInput 91-99] *)
Record ConnectionInput := MkCI {
  buffer : list cell;
  bufptr : Z;
  bufcnt : Z;
  lenLastReq : Z;
  ci_size : Z;
  ignoreBytes : Z
}.
#[export] Instance eta_ci : Settable ConnectionInput := fun i =>
  MkCI (buffer i) (bufptr i) (bufcnt i) (lenLastReq i) (ci_size i) (ignoreBytes i).

(** [os/io.c: ConnectionOutput 101-106] *)
Record ConnectionOutput := MkCO { buf : list cell; co_size : Z; count : Z }.
#[export] Instance eta_co : Settable ConnectionOutput := fun o => MkCO (buf o) (co_size o) (count o).

(** [trans_conn] tells whether the connection is open.
    [os/io_priv.h: OsCommRec 18-26] *)
Record OsCommRec := MkOC {
  input : option ConnectionInput;
  output : option ConnectionOutput;
  trans_conn : bool;
  flags : Z
}.
#[export] Instance eta_oc : Settable OsCommRec := fun o =>
  MkOC (input o) (output o) (trans_conn o) (flags o).

(** The fields of a client the file uses; [requestBuffer] is an offset into the
    client's input buffer, [noClientException] is true while there is none. *)
Record ClientRec := MkClient {
  cl_swapped : bool;
  big_requests : bool;
  local : bool;
  clientGone : bool;
  clientRunning : bool;
  noClientException : bool;
  req_len : Z;
  requestBuffer : Z;
  req_fds : Z;
  replyBytesRemaining : Z
}.
#[export] Instance eta_client : Settable ClientRec := fun c =>
  MkClient (cl_swapped c) (big_requests c) (local c) (clientGone c) (clientRunning c)
    (noClientException c) (req_len c) (requestBuffer c) (req_fds c) (replyBytesRemaining c).

(** What the file tells other parts: the poll set, and the record extension
    through [ReplyCallback]. *)
Inductive io_effect :=
  | EResetEvents (c : Z)
  | EListenWrite (c : Z)
  | EFlushCallback (c : Z)
  | EReply (c : Z) (startOfReply : bool) (dataLenBytes padBytes bytesRemaining : Z).

Record io_state (W : Type) := MkIO {
  oscomm : gmap Z OsCommRec;
  clients : gmap Z ClientRec;
  FreeInputs : list ConnectionInput;
  FreeOutputs : list ConnectionOutput;
  AvailableInput : option Z;
  CriticalOutputPending : bool;
  NewOutputPending : bool;
  isItTimeToYield : bool;
  timesThisConnection : Z;
  output_pending_clients : list Z;
  ready_clients : list Z;
  saved_ready_clients : list Z;
  GrabInProgress : Z;
  ReplyCallback : bool;
  FlushCallback : bool;
  maxBigRequestSize : Z;
  effects : list io_effect;
  world : W
}.
Arguments MkIO {W}.
Arguments oscomm {W}. Arguments clients {W}. Arguments FreeInputs {W}. Arguments FreeOutputs {W}.
Arguments AvailableInput {W}. Arguments CriticalOutputPending {W}. Arguments NewOutputPending {W}.
Arguments isItTimeToYield {W}. Arguments timesThisConnection {W}.
Arguments output_pending_clients {W}. Arguments ready_clients {W}. Arguments saved_ready_clients {W}.
Arguments GrabInProgress {W}. Arguments ReplyCallback {W}. Arguments FlushCallback {W}.
Arguments maxBigRequestSize {W}. Arguments effects {W}. Arguments world {W}.
#[export] Instance eta_io W : Settable (io_state W) := fun s =>
  MkIO (oscomm s) (clients s) (FreeInputs s) (FreeOutputs s) (AvailableInput s)
    (CriticalOutputPending s) (NewOutputPending s) (isItTimeToYield s) (timesThisConnection s)
    (output_pending_clients s) (ready_clients s) (saved_ready_clients s) (GrabInProgress s)
    (ReplyCallback s) (FlushCallback s) (maxBigRequestSize s) (effects s) (world s).

Section IO.
Context {W : Type} `{Transport W}.
Implicit Types (st : io_state W) (c : Z) (oci : ConnectionInput) (oco : ConnectionOutput).

Definition on_comm st c (f : OsCommRec -> OsCommRec) : io_state W := st <| oscomm ::= alter f c |>.
Definition on_client st c (f : ClientRec -> ClientRec) : io_state W := st <| clients ::= alter f c |>.
Definition set_input st c (i : option ConnectionInput) : io_state W :=
  on_comm st c (fun oc => oc <| input := i |>).
Definition set_output st c (o : option ConnectionOutput) : io_state W :=
  on_comm st c (fun oc => oc <| output := o |>).
Definition emit st (e : io_effect) : io_state W := st <| effects ::= fun l => l ++ [e] |>.

(** ** Scheduling marks *)

(** [dix/dispatch.c: mark_client_ready] *)
Definition mark_client_ready st c : io_state W :=
  if bool_decide (c ∈ ready_clients st) || bool_decide (c ∈ saved_ready_clients st) then st
  else st <| ready_clients ::= fun l => l ++ [c] |>.
(** [dix/dispatch.c: mark_client_not_ready] *)
Definition mark_client_not_ready st c : io_state W :=
  st <| ready_clients ::= filter (fun x => x <> c) |>
     <| saved_ready_clients ::= filter (fun x => x <> c) |>.
(** [dix/dixstruct_priv.h: client_is_ready] *)
Definition client_is_ready st c : bool :=
  bool_decide (c ∈ ready_clients st) || bool_decide (c ∈ saved_ready_clients st).
(** [dix/dixstruct_priv.h: output_pending_mark 64-69] *)
Definition output_pending_mark st c : io_state W :=
  match clients st !! c with
  | Some cl =>
      if clientGone cl || bool_decide (c ∈ output_pending_clients st) then st
      else st <| output_pending_clients ::= fun l => l ++ [c] |>
  | None => st
  end.
(** [dix/dixstruct_priv.h: output_pending_clear 71-75] *)
Definition output_pending_clear st c : io_state W :=
  st <| output_pending_clients ::= filter (fun x => x <> c) |>.
(** [os/connection.c: listen_to_client] *)
Definition listen_to_client st c (oc : OsCommRec) : bool :=
  if negb (Z.land (flags oc) OS_COMM_IGNORED =? 0) then false
  else if GrabInProgress st =? 0 then true
  else if c =? GrabInProgress st then true
  else negb (Z.land (flags oc) OS_COMM_GRAB_IMPERVIOUS =? 0).
(** [dix/dispatch.c: dixMarkClientException] *)
Definition dixMarkClientException st c : io_state W :=
  on_client st c (fun cl => cl <| noClientException := false |>).

(** [os/io.c: YieldControl] *)
Definition YieldControl st : io_state W :=
  st <| isItTimeToYield := true |> <| timesThisConnection := 0 |>.
(** [os/io.c: YieldControlNoInput] *)
Definition YieldControlNoInput st c : io_state W :=
  let st := YieldControl st in
  match oscomm st !! c with
  | Some oc => if trans_conn oc then emit st (EResetEvents c) else st
  | None => st
  end.
(** [os/io.c: YieldControlDeath] *)
Definition YieldControlDeath st : io_state W := st <| timesThisConnection := 0 |>.

(** ** Input *)

(** [os/io.c: AllocateInputBuffer] *)
Definition AllocateInputBuffer (al : allocator) : option ConnectionInput :=
  if negb (al 0%nat 40) then None
  else if negb (al 1%nat BUFSIZE) then None
  else Some (MkCI (replicate (Z.to_nat BUFSIZE) (Some 0)) 0 0 0 BUFSIZE 0).

(** A client other than [oc] that has used up its input gives its buffer back.
    [os/io.c: NextAvailableInput] *)
Definition NextAvailableInput st c : outcome (io_state W) :=
  match AvailableInput st with
  | None => Ret st
  | Some a =>
      if a =? c then Ret (st <| AvailableInput := None |>)
      else
        aci <-? oscomm st !! a ≫= input;
        let st := if ci_size aci >? BUFWATERMARK then st else st <| FreeInputs ::= cons aci |> in
        Ret (set_input st a None <| AvailableInput := None |>)
  end.

(** A buffer for a client that has none: from the free list, or a new one. *)
Definition get_input (al : allocator) st (i : option ConnectionInput)
  : option (ConnectionInput * io_state W) :=
  match i with
  | Some oci => Some (oci, st)
  | None =>
      match FreeInputs st with
      | oci :: l => Some (oci, st <| FreeInputs := l |>)
      | [] => (fun oci => (oci, st)) <$> AllocateInputBuffer al
      end
  end.

(** Reading the request header at the current position. *)
Definition cell_at (b : list cell) (i : Z) : option Z := mjoin (znth b i).
Definition read16 (b : list cell) (i : Z) : option Z :=
  x0 ← cell_at b i; x1 ← cell_at b (i + 1); Some (x0 + 256 * x1).
Definition read32 (b : list cell) (i : Z) : option Z :=
  x0 ← cell_at b i; x1 ← cell_at b (i + 1); x2 ← cell_at b (i + 2); x3 ← cell_at b (i + 3);
  Some (x0 + 256 * x1 + 65536 * x2 + 16777216 * x3).

(** [os/io.c: get_req_len 117-118] *)
Definition get_req_len (cl : ClientRec) oci : option Z :=
  swaps (cl_swapped cl) <$> read16 (buffer oci) (bufptr oci + 2).
(** [os/io.c: get_big_req_len 122-124] *)
Definition get_big_req_len (cl : ClientRec) oci : option Z :=
  swapl (cl_swapped cl) <$> read32 (buffer oci) (bufptr oci + 4).

(** The length in units of the request that starts at the current position,
    whether it is a big request, and whether more of the header is needed to
    tell.  [os/io.c: ReadRequestFromClient 292-304] *)
Definition look_header (cl : ClientRec) oci (gotnow : Z) : outcome (Z * bool * bool) :=
  needed <-? get_req_len cl oci;
  if (needed =? 0) && big_requests cl then
    if gotnow <? sizeof_xBigReq then Ret (bytes_to_int32 sizeof_xBigReq, true, true)
    else n <-? get_big_req_len cl oci; Ret (n, true, false)
  else Ret (needed, false, false).

(** [memmove] inside a buffer. *)
Definition mem_move (b : list cell) (dst src n : Z) : option (list cell) :=
  if (0 <=? dst) && (0 <=? src) && (dst + n <=? Z.of_nat (length b)) && (src + n <=? Z.of_nat (length b))
  then Some (blit b (Z.to_nat dst) (take (Z.to_nat n) (drop (Z.to_nat src) b)))
  else None.

(** Make place for [needed] bytes from the current position on; the result tells
    whether there is enough memory.  [os/io.c: ReadRequestFromClient 330-350] *)
Definition make_place (al : allocator) oci (gotnow needed : Z) : outcome (bool * ConnectionInput) :=
  if (gotnow =? 0) || (bufptr oci + needed >? ci_size oci) then
    oci <-? (if (0 <? gotnow) && negb (bufptr oci =? 0)
             then (fun b => oci <| buffer := b |>) <$> mem_move (buffer oci) 0 (bufptr oci) gotnow
             else Some oci);
    if needed >? ci_size oci then
      if al 2%nat needed then
        Ret (true, MkCI (mem_realloc (Some (buffer oci)) needed) 0 (i32 gotnow) (lenLastReq oci)
                     (i32 needed) (ignoreBytes oci))
      else Ret (false, oci)
    else Ret (true, oci <| bufptr := 0 |> <| bufcnt := i32 gotnow |>)
  else Ret (true, oci).

(** Give memory back after a huge request.
    [os/io.c: ReadRequestFromClient 376-387] *)
Definition shrink_input (al : allocator) oci (gotnow needed : Z) : ConnectionInput :=
  if (ci_size oci >? BUFWATERMARK) && (bufcnt oci <? BUFSIZE) && (needed <? BUFSIZE) && al 3%nat BUFSIZE
  then oci <| buffer ::= fun b => mem_realloc (Some b) BUFSIZE |> <| ci_size := BUFSIZE |>
           <| bufptr := bufcnt oci - gotnow |>
  else oci.

(** The end of the function: [needed] bytes are there.
    [os/io.c: ReadRequestFromClient 410-472] *)
Definition finish_request st c oci (gotnow needed : Z) (move_header : bool) : outcome (Z * io_state W) :=
  cl <-? clients st !! c;
  let needed :=
    if needed =? 0 then if big_requests cl then sizeof_xBigReq else sizeof_xReq else needed in
  '(oci, gotnow, needed) <--
    (if 0 <? ignoreBytes oci then
       if negb (needed =? ignoreBytes oci) && negb (needed =? ci_size oci) then FatalError
       else
         let n := if gotnow <? needed then gotnow else needed in
         Ret (oci <| ignoreBytes ::= fun i => u32 (i - n) |> <| bufptr ::= fun p => p + n |>,
              u32 (gotnow - n), 0)
     else Ret (oci, gotnow, needed));
  let oci := oci <| lenLastReq := i32 needed |> in
  let gotnow := u32 (gotnow - needed) in
  let st := if (gotnow =? 0) && (ignoreBytes oci =? 0) then st <| AvailableInput := Some c |> else st in
  if move_header then
    if req_len cl <? bytes_to_int32 (sizeof_xBigReq - sizeof_xReq) then
      Ret (-1, YieldControlDeath (set_input st c (Some oci)))
    else
      b <-? mem_move (buffer oci) (bufptr oci + 4) (bufptr oci) sizeof_xReq;
      let oci := oci <| buffer := b |> <| bufptr ::= fun p => p + 4 |>
                     <| lenLastReq ::= fun n => i32 (n - 4) |> in
      let st := on_client st c (fun cl =>
        cl <| req_len ::= fun n => u32 (n - bytes_to_int32 (sizeof_xBigReq - sizeof_xReq)) |>
           <| requestBuffer := bufptr oci |>) in
      Ret (i32 needed, set_input st c (Some oci))
  else
    let st := on_client st c (fun cl => cl <| requestBuffer := bufptr oci |>) in
    Ret (i32 needed, set_input st c (Some oci)).

(** The bytes [l] were read behind those in the buffer; look at the header again
    when it was incomplete.  [os/io.c: ReadRequestFromClient 374-408] *)
Definition after_read (al : allocator) st c oci (gotnow needed : Z) (need_header move_header : bool)
    (l : list Z) : outcome (Z * io_state W) :=
  let n := Z.of_nat (length l) in
  if bufcnt oci + n >? ci_size oci then Undefined
  else
    let oci := oci <| buffer ::= fun b => blit b (Z.to_nat (bufcnt oci)) (Some <$> l) |>
                   <| bufcnt ::= fun x => x + n |> in
    let gotnow := u32 (gotnow + n) in
    let oci := shrink_input al oci gotnow needed in
    cl <-? clients st !! c;
    if need_header && (gotnow >=? needed) then
      '(units, move, _) <-- look_header cl oci gotnow;
      let st := on_client st c (fun cl => cl <| req_len := units |>) in
      if units >? Z.shiftr MAXINT 2 then Ret (- BadLength, set_input st c (Some oci))
      else
        let needed := u32 (Z.shiftl units 2) in
        if gotnow <? needed then Ret (0, YieldControlNoInput (set_input st c (Some oci)) c)
        else finish_request st c oci gotnow needed (move_header || move)
    else if gotnow <? needed then Ret (0, YieldControlNoInput (set_input st c (Some oci)) c)
    else finish_request st c oci gotnow needed move_header.

(** Read from the transport.  [os/io.c: ReadRequestFromClient 351-373] *)
Definition read_more (al : allocator) st c oci (gotnow needed : Z) (need_header move_header : bool)
  : outcome (Z * io_state W) :=
  let st := set_input st c (Some oci) in
  oc <-? oscomm st !! c;
  if negb (trans_conn oc) then Ret (-1, YieldControlDeath st)
  else
    let '(result, w) := trans_read c (ci_size oci - bufcnt oci) (world st) in
    let st := st <| world := w |> in
    match result with
    | RdError true => Ret (0, YieldControlNoInput (mark_client_not_ready st c) c)
    | RdError false | RdBytes [] => Ret (-1, YieldControlDeath st)
    | RdBytes l => after_read al st c oci gotnow needed need_header move_header l
    end.

(** What is in the buffer is less than [needed] bytes.
    [os/io.c: ReadRequestFromClient 312-329] *)
Definition need_more (al : allocator) st c oci (gotnow needed : Z) (need_header move_header : bool)
  : outcome (Z * io_state W) :=
  let oci := oci <| lenLastReq := 0 |> in
  if needed >? Z.shiftl (maxBigRequestSize st) 2 then
    Ret (i32 needed, set_input st c
           (Some (oci <| ignoreBytes := u32 (needed - gotnow) |> <| lenLastReq := i32 gotnow |>)))
  else
    '(ok, oci) <-- make_place al oci gotnow needed;
    if negb ok then Ret (-1, YieldControlDeath (set_input st c (Some oci)))
    else read_more al st c oci gotnow needed need_header move_header.

(** [os/io.c: ReadFdFromClient] *)
Definition ReadFdFromClient st c : Z * io_state W :=
  match clients st !! c with
  | Some cl =>
      if 0 <? req_fds cl then
        let '(fd, w) := trans_recv_fd c (world st) in
        (fd, on_client st c (fun cl => cl <| req_fds ::= fun n => i32 (n - 1) |>) <| world := w |>)
      else (-1, st)
  | None => (-1, st)
  end.

(** Discard the file descriptors nobody asked for. *)
Definition discard_fds st c : io_state W :=
  let n := match clients st !! c with Some cl => req_fds cl | None => 0 end in
  Nat.iter (Z.to_nat n) (fun st => snd (ReadFdFromClient st c)) st.

(** The next request starts at the current position.
    [os/io.c: ReadRequestFromClient 281-312] *)
Definition next_request (al : allocator) st c oci (gotnow : Z) : outcome (Z * io_state W) :=
  if gotnow <? sizeof_xReq then need_more al st c oci gotnow sizeof_xReq true false
  else
    cl <-? clients st !! c;
    '(units, move_header, need_header) <-- look_header cl oci gotnow;
    let st := on_client st c (fun cl => cl <| req_len := units |>) in
    if units >? Z.shiftr MAXINT 2 then Ret (- BadLength, set_input st c (Some oci))
    else
      let needed := u32 (Z.shiftl units 2) in
      if gotnow <? needed then need_more al st c oci gotnow needed need_header move_header
      else finish_request st c oci gotnow needed move_header.

(** [os/io.c: ReadRequestFromClient] *)
Definition ReadRequestFromClient (al : allocator) st c : outcome (Z * io_state W) :=
  oc <-? oscomm st !! c;
  st <-- NextAvailableInput st c;
  match get_input al st (input oc) with
  | None => Ret (-1, YieldControlDeath st)
  | Some (oci, st) =>
      let st := discard_fds (set_input st c (Some oci)) c in
      let oci := oci <| bufptr ::= fun p => p + lenLastReq oci |> in
      let gotnow := u32 (bufcnt oci - bufptr oci) in
      if 0 <? ignoreBytes oci then
        let needed := if ignoreBytes oci >? ci_size oci then ci_size oci else ignoreBytes oci in
        if gotnow <? needed then need_more al st c oci gotnow needed false false
        else finish_request st c oci gotnow needed false
      else next_request al st c oci gotnow
  end.

(** ** Putting input back *)

(** The data goes in front of the current position; the result tells whether
    there was enough memory.  [os/io.c: InsertFakeRequest 529-548] *)
Definition insert_data (al : allocator) oci (data : list Z) (count : Z) : outcome (bool * ConnectionInput) :=
  let gotnow := bufcnt oci - bufptr oci in
  let grow := gotnow + count >? ci_size oci in
  if grow && negb (al 2%nat (gotnow + count)) then Ret (false, oci)
  else
    let oci := if grow
               then oci <| buffer ::= fun b => mem_realloc (Some b) (gotnow + count) |>
                        <| ci_size := gotnow + count |>
               else oci in
    let moveup := count - bufptr oci in
    oci <-? (if 0 <? moveup then
               b ← (if 0 <? gotnow then mem_move (buffer oci) (bufptr oci + moveup) (bufptr oci) gotnow
                    else Some (buffer oci));
               Some (oci <| buffer := b |> <| bufptr ::= fun p => p + moveup |>
                         <| bufcnt ::= fun n => n + moveup |>)
             else Some oci);
    if bufptr oci - count <? 0 then Undefined
    else
      Ret (true, oci <| buffer ::= fun b => blit b (Z.to_nat (bufptr oci - count))
                                             (Some <$> take (Z.to_nat count) data) |>
                     <| bufptr ::= fun p => p - count |>).

(** [os/io.c: InsertFakeRequest] *)
Definition InsertFakeRequest (al : allocator) st c (data : list Z) (count : Z)
  : outcome (bool * io_state W) :=
  oc <-? oscomm st !! c;
  st <-- NextAvailableInput st c;
  match get_input al st (input oc) with
  | None => Ret (false, st)
  | Some (oci, st) =>
      let oci := oci <| bufptr ::= fun p => p + lenLastReq oci |> <| lenLastReq := 0 |> in
      '(ok, oci) <-- insert_data al oci data count;
      let st := set_input st c (Some oci) in
      if negb ok then Ret (false, st)
      else
        cl <-? clients st !! c;
        let gotnow := bufcnt oci - bufptr oci in
        if gotnow >=? sizeof_xReq then
          len <-? get_req_len cl oci;
          Ret (true, if gotnow >=? Z.shiftl len 2 then mark_client_ready st c
                     else YieldControlNoInput st c)
        else Ret (true, YieldControlNoInput st c)
  end.

(** The bytes of a word as the client sends them. *)
Definition word32 (cl : ClientRec) (x : Z) : list cell := Some <$> le32 (swapl (cl_swapped cl) x).

(** [os/io.c: ResetCurrentRequest] *)
Definition ResetCurrentRequest st c : outcome (io_state W) :=
  match oscomm st !! c with
  | None => Ret st
  | Some oc =>
      oci <-? input oc;
      cl <-? clients st !! c;
      let st := if bool_decide (AvailableInput st = Some c) then st <| AvailableInput := None |> else st in
      let oci := oci <| lenLastReq := 0 |> in
      let gotnow := bufcnt oci - bufptr oci in
      if gotnow <? sizeof_xReq then Ret (YieldControlNoInput (set_input st c (Some oci)) c)
      else
        needed <-? get_req_len cl oci;
        oci <-? (if (needed =? 0) && big_requests cl then
                   b ← mem_move (buffer oci) (bufptr oci - 4) (bufptr oci) sizeof_xReq;
                   Some (oci <| bufptr ::= fun p => p - 4 |>
                             <| buffer := blit b (Z.to_nat (bufptr oci)) (word32 cl (req_len cl)) |>)
                 else Some oci);
        let st := set_input st c (Some oci) in
        Ret (if gotnow >=? Z.shiftl needed 2 then
               YieldControl (if listen_to_client st c oc then mark_client_ready st c else st)
             else YieldControlNoInput st c)
  end.

(** ** Output *)

(** [os/connection.c: CloseDownFileDescriptor] *)
Definition CloseDownFileDescriptor st c : io_state W :=
  match oscomm st !! c with
  | Some oc =>
      if trans_conn oc
      then on_comm st c (fun oc => oc <| trans_conn := false |>) <| world ::= trans_close c |>
      else st
  | None => st
  end.

(** [os/io.c: AbortClient] *)
Definition AbortClient st c : io_state W :=
  match oscomm st !! c with
  | Some oc => if trans_conn oc then mark_client_ready (CloseDownFileDescriptor st c) c else st
  | None => st
  end.

(** [os/io.c: AllocateOutputBuffer] *)
Definition AllocateOutputBuffer (al : allocator) : option ConnectionOutput :=
  if negb (al 0%nat 24) then None
  else if negb (al 1%nat BUFSIZE) then None
  else Some (MkCO (replicate (Z.to_nat BUFSIZE) (Some 0)) BUFSIZE 0).

(** [os/io.c: OutputEnsureBuffer] *)
Definition OutputEnsureBuffer (al : allocator) st c : bool * io_state W :=
  match oscomm st !! c ≫= output with
  | Some _ => (true, st)
  | None =>
      match FreeOutputs st with
      | oco :: l => (true, set_output (st <| FreeOutputs := l |>) c (Some oco))
      | [] =>
          match AllocateOutputBuffer al with
          | Some oco => (true, set_output st c (Some oco))
          | None => (false, dixMarkClientException (AbortClient st c) c)
          end
      end
  end.

(** The exit [abortClient].  [os/io.c: FlushClient 988-992] *)
Definition flush_abort st c oco : Z * io_state W :=
  (-1, set_output (dixMarkClientException (AbortClient st c) c) c (Some (oco <| count := 0 |>))).

(** Everything was written: the buffer is released.
    [os/io.c: FlushClient 973-986] *)
Definition flush_done st c oco : Z * io_state W :=
  let oco := oco <| count := 0 |> in
  let st := output_pending_clear st c in
  let st := if co_size oco >? BUFWATERMARK then st else st <| FreeOutputs ::= cons oco |> in
  (0, set_output st c None).

(** The client takes no more for now.  [os/io.c: FlushClient 943-961] *)
Definition flush_later st c oco (written notWritten : Z) : Z * io_state W :=
  let st := output_pending_mark st c in
  let oco :=
    if 0 <? written then
      oco <| count ::= fun n => n - written |>
          <| buf ::= fun b => blit b 0 (take (Z.to_nat (count oco - written)) (drop (Z.to_nat written) b)) |>
    else oco in
  (0, emit (set_output st c (Some (oco <| count := notWritten |>))) (EListenWrite c)).

(** One turn of the write loop.  [os/io.c: FlushClient 935-971] *)
Definition flush_step c oco (s : io_state W * Z * Z * Z) : io_state W * Z * Z * Z + outcome (Z * io_state W) :=
  let '(st, written, notWritten, todo) := s in
  if notWritten =? 0 then inr (Ret (flush_done st c oco))
  else
    let '(r, w) := trans_write c (take (Z.to_nat todo) (drop (Z.to_nat written) (buf oco))) (world st) in
    let st := st <| world := w |> in
    match r with
    | WrOk len => inl (st, written + len, notWritten - len, notWritten - len)
    | WrWouldBlock => inr (Ret (flush_later st c oco written notWritten))
    | WrMsgSize => inl (st, written, notWritten, todo / 2)
    | WrError => inr (Ret (flush_abort st c oco))
    end.

(** [os/io.c: FlushClient] *)
Definition FlushClient st c : outcome (Z * io_state W) :=
  oc <-? oscomm st !! c;
  match output oc with
  | None => Ret (0, st)
  | Some oco =>
      if negb (trans_conn oc) then Ret (flush_abort st c oco)
      else if count oco =? 0 then Ret (0, st)
      else
        let st := if FlushCallback st then emit st (EFlushCallback c) else st in
        run_loop (flush_step c oco) TURNS (st, 0, count oco, count oco)
  end.

(** The data and its padding go to the end of the buffer.
    [os/io.c: WriteToClient 890-895] *)
Definition append_output oco (data : list Z) (pad : Z) : ConnectionOutput :=
  oco <| buf ::= fun b => blit b (Z.to_nat (count oco)) (Some <$> data ++ replicate (Z.to_nat pad) 0) |>
      <| count ::= fun n => n + Z.of_nat (length data) + pad |>.

(** [os/io.c: memcpy_and_flush] *)
Definition memcpy_and_flush st c oco (extra : list Z) (padsize : Z) : outcome (Z * io_state W) :=
  '(r, st) <-- FlushClient (set_output st c (Some (append_output oco extra padsize))) c;
  Ret (if r =? -1 then -1 else Z.of_nat (length extra), st).

(** [include/misc.h: padding_for_int32] *)
Definition padding_for_int32 (bytes : Z) : Z := Z.land (- bytes) 3.

(** Make sure there is a buffer and that it is large enough.
    [os/io.c: OutputBufferMakeRoomAndFlush 734-760] *)
Definition grow_and_flush (al : allocator) st c (extra : list Z) (padsize needed : Z)
  : outcome (Z * io_state W) :=
  let '(ok, st) := OutputEnsureBuffer al st c in
  if negb ok then Ret (-1, st)
  else
    oco <-? oscomm st !! c ≫= output;
    if count oco + needed <=? co_size oco then memcpy_and_flush st c oco extra padsize
    else
      let newsize := i32 (count oco + (needed / BUFSIZE + 1) * BUFSIZE) in
      if negb (al 2%nat newsize) then Ret (flush_abort st c oco)
      else
        memcpy_and_flush st c
          (oco <| buf ::= fun b => mem_realloc (Some b) newsize |> <| co_size := newsize |>)
          extra padsize.

(** [os/io.c: OutputBufferMakeRoomAndFlush] *)
Definition OutputBufferMakeRoomAndFlush (al : allocator) st c (extra : list Z) : outcome (Z * io_state W) :=
  let padsize := padding_for_int32 (Z.of_nat (length extra)) in
  let needed := Z.of_nat (length extra) + padsize in
  match oscomm st !! c ≫= output with
  | Some oco =>
      if count oco + needed <=? co_size oco then memcpy_and_flush st c oco extra padsize
      else
        '(r, st) <-- FlushClient st c;
        if r =? -1 then Ret (-1, st) else grow_and_flush al st c extra padsize needed
  | None => grow_and_flush al st c extra padsize needed
  end.

(** What the record extension is told about a reply, which has at least the
    32 bytes of its header.
    [os/io.c: WriteToClient 833-858] *)
Definition reply_callback st c (cl : ClientRec) (data : list Z) (padBytes : Z) : io_state W :=
  let n := Z.of_nat (length data) + padBytes in
  if negb (ReplyCallback st) then st
  else if negb (replyBytesRemaining cl =? 0) then
    let rest := u32 (replyBytesRemaining cl - n) in
    emit (on_client st c (fun cl => cl <| replyBytesRemaining := rest |>)) (EReply c false n padBytes rest)
  else if clientRunning cl && bool_decide (head data = Some X_Reply) then
    let replylen := swapl (cl_swapped cl) (default 0 (read32 (Some <$> data) 4)) in
    let bytesleft := u32 (replylen * 4 + sizeof_xReply - n) in
    emit (on_client st c (fun cl => cl <| replyBytesRemaining := bytesleft |>))
         (EReply c true n padBytes bytesleft)
  else st.

(** [os/io.c: WriteToClient] *)
Definition WriteToClient (al : allocator) st (who : option Z) (data : list Z) : outcome (Z * io_state W) :=
  match who with
  | None => Ret (0, st)
  | Some c =>
      cl <-? clients st !! c;
      if (Z.of_nat (length data) =? 0) || (c =? serverClient) || clientGone cl then Ret (0, st)
      else
        let n := Z.of_nat (length data) in
        let padBytes := padding_for_int32 n in
        let st := reply_callback st c cl data padBytes in
        let '(ok, st) := OutputEnsureBuffer al st c in
        if negb ok then Ret (-1, st)
        else
          oco <-? oscomm st !! c ≫= output;
          if ((count oco =? 0) && local cl) || (count oco + n + padBytes >? co_size oco) then
            let st := output_pending_clear st c in
            let st := if bool_decide (output_pending_clients st = [])
                      then st <| CriticalOutputPending := false |> <| NewOutputPending := false |>
                      else st in
            OutputBufferMakeRoomAndFlush al st c data
          else
            let st := output_pending_mark (st <| NewOutputPending := true |>) c in
            Ret (n, set_output st c (Some (append_output oco data padBytes)))
  end.

(** The clients of the pending list, each with its successor taken before.
    [os/io.c: FlushAllOutput 632-641] *)
Fixpoint flush_all (l : list Z) st : outcome (io_state W) :=
  match l with
  | [] => Ret st
  | c :: l =>
      cl <-? clients st !! c;
      if clientGone cl then flush_all l st
      else if negb (client_is_ready st c) then
        '(_, st) <-- FlushClient st c; flush_all l st
      else flush_all l (st <| NewOutputPending := true |>)
  end.

(** [os/io.c: FlushAllOutput] *)
Definition FlushAllOutput st : outcome (io_state W) :=
  if negb (NewOutputPending st) then Ret st
  else
    let st := st <| CriticalOutputPending := false |> <| NewOutputPending := false |> in
    flush_all (output_pending_clients st) st.

(** [os/io.c: FlushIfCriticalOutputPending] *)
Definition FlushIfCriticalOutputPending st : outcome (io_state W) :=
  if CriticalOutputPending st then FlushAllOutput st else Ret st.
(** [os/io.c: SetCriticalOutputPending] *)
Definition SetCriticalOutputPending st : io_state W := st <| CriticalOutputPending := true |>.

(** ** Releasing the buffers of a connection *)

(** [os/io.c: FreeOsBuffers] *)
Definition FreeOsBuffers st c : io_state W :=
  match oscomm st !! c with
  | None => st
  | Some oc =>
      let st := if bool_decide (AvailableInput st = Some c) then st <| AvailableInput := None |> else st in
      let st :=
        match input oc with
        | Some oci =>
            if bool_decide (FreeInputs st = []) then
              st <| FreeInputs := [MkCI (buffer oci) 0 0 0 (ci_size oci) 0] |>
            else st
        | None => st
        end in
      match output oc with
      | Some oco =>
          if bool_decide (FreeOutputs st = []) then st <| FreeOutputs := [oco <| count := 0 |>] |> else st
      | None => st
      end
  end.

(** [os/io.c: ResetOsBuffers] *)
Definition ResetOsBuffers st : io_state W := st <| FreeInputs := [] |> <| FreeOutputs := [] |>.
End IO.
