(* ===== verification/ClientInput.v ===== *)
(** * ClientInput: properties of reading requests

    The bytes a client sends form a stream that [ReadRequestFromClient] cuts
    into requests, however the transport splits it and however the buffers are
    moved, grown, shrunk and shared. *)

From S2P Require Import Prelude.
From S2P Require Import Wire.
From S2P Require Import Request.
From S2P Require Import ClientIO.

(** ** Bytes in memory *)

Definition known (s : list Z) : list cell := Some <$> s.

Lemma known_app s t : known (s ++ t) = known s ++ known t.
Proof. apply fmap_app. Qed.
Lemma length_known s : length (known s) = length s.
Proof. apply length_fmap. Qed.
Lemma mapM_known s : mapM id (known s) = Some s.
Proof. apply mapM_fmap_Forall_Some, Forall_true. done. Qed.

Lemma blit_mid (pre mid post cs : list cell) :
  length cs = length mid -> blit (pre ++ mid ++ post) (length pre) cs = pre ++ cs ++ post.
Proof.
  intros Hl. unfold blit. rewrite take_app_length. do 2 f_equal.
  rewrite app_assoc, drop_app_length'; [done|]. rewrite length_app. lia.
Qed.
Lemma mem_move_mid (b pre mid post : list cell) dst src n :
  b = pre ++ mid ++ post -> dst = Z.of_nat (length pre) -> length mid = Z.to_nat n ->
  0 <= src -> 0 <= n -> src + n <= Z.of_nat (length b) ->
  mem_move b dst src n = Some (pre ++ take (Z.to_nat n) (drop (Z.to_nat src) b) ++ post).
Proof.
  intros Hb Hd Hm Hs Hn Hl. unfold mem_move.
  assert (Hlen : length b = (length pre + (length mid + length post))%nat).
  { by rewrite Hb, !length_app. }
  destruct (Z.leb_spec 0 dst), (Z.leb_spec 0 src), (Z.leb_spec (dst + n) (Z.of_nat (length b))),
    (Z.leb_spec (src + n) (Z.of_nat (length b))); try lia. cbn [andb]. f_equal.
  rewrite Hb at 1. rewrite Hd, Nat2Z.id. apply blit_mid. rewrite length_take, length_drop. lia.
Qed.

Lemma cell_at_app pre l post i :
  0 <= i < Z.of_nat (length l) ->
  cell_at (pre ++ known l ++ post) (Z.of_nat (length pre) + i) = cell_at (known l) i.
Proof.
  intros Hi. unfold cell_at, znth.
  destruct (Z.ltb_spec (Z.of_nat (length pre) + i) 0), (Z.ltb_spec i 0); try lia.
  rewrite lookup_app_r by lia. rewrite lookup_app_l by (rewrite length_known; lia).
  do 2 f_equal. lia.
Qed.
Lemma cell_at_prefix l t i :
  0 <= i < Z.of_nat (length l) -> cell_at (known (l ++ t)) i = cell_at (known l) i.
Proof. intros Hi. rewrite known_app. by apply (cell_at_app [] l). Qed.

(** ** Requests in a stream of bytes *)

Section Frames.
Context (cl : ClientRec).

(** The length in units, and whether it is a big request. *)
Definition header (s : list Z) : option (Z * bool) :=
  n ← swaps (cl_swapped cl) <$> read16 (known s) 2;
  if (n =? 0) && big_requests cl then
    u ← swapl (cl_swapped cl) <$> read32 (known s) 4; Some (u, true)
  else Some (n, false).

(** The bytes of one request a client may send; [limit] is in bytes. *)
Definition request_ok (limit : Z) (f : list Z) (u : Z) (big : bool) : Prop :=
  header f = Some (u, big) /\ Z.of_nat (length f) = 4 * u /\ 4 * u <= limit /\
  (if big then 2 else 1) <= u.

(** What the handler sees: the length field of a big request is cut out. *)
Definition delivered (big : bool) (f : list Z) : list Z :=
  if big then take 4 f ++ drop 8 f else f.

Lemma read16_prefix l t i :
  0 <= i -> i + 2 <= Z.of_nat (length l) -> read16 (known (l ++ t)) i = read16 (known l) i.
Proof. intros. unfold read16. by rewrite !cell_at_prefix by lia. Qed.
Lemma read32_prefix l t i :
  0 <= i -> i + 4 <= Z.of_nat (length l) -> read32 (known (l ++ t)) i = read32 (known l) i.
Proof. intros. unfold read32. by rewrite !cell_at_prefix by lia. Qed.
Lemma read16_some l i : 0 <= i /\ i + 2 <= Z.of_nat (length l) -> exists v, read16 (known l) i = Some v.
Proof.
  intros Hi. unfold read16, cell_at.
  destruct (znth_Some (known l) i) as [x Hx]; [rewrite length_known; lia|].
  destruct (znth_Some (known l) (i + 1)) as [y Hy]; [rewrite length_known; lia|].
  rewrite Hx, Hy. unfold known, znth in Hx, Hy.
  destruct (i <? 0), (i + 1 <? 0); try done. rewrite list_lookup_fmap in Hx, Hy.
  destruct (l !! Z.to_nat i); [|done]. destruct (l !! Z.to_nat (i + 1)); [|done].
  injection Hx as <-. injection Hy as <-. by eexists.
Qed.
Lemma read16_app pre l post i :
  0 <= i -> i + 2 <= Z.of_nat (length l) ->
  read16 (pre ++ known l ++ post) (Z.of_nat (length pre) + i) = read16 (known l) i.
Proof. intros. unfold read16. rewrite <- Z.add_assoc, !cell_at_app by lia. done. Qed.
Lemma read32_app pre l post i :
  0 <= i -> i + 4 <= Z.of_nat (length l) ->
  read32 (pre ++ known l ++ post) (Z.of_nat (length pre) + i) = read32 (known l) i.
Proof. intros. unfold read32. rewrite <- !Z.add_assoc, !cell_at_app by lia. done. Qed.

Lemma request_length limit f u big :
  request_ok limit f u big -> (4 <= length f)%nat /\ (big = true -> 8 <= length f)%nat.
Proof. intros (_ & Hl & _ & Hu). destruct big; split; lia. Qed.
End Frames.

(** Two prefixes of the same stream. *)
Lemma app_split {A} (s t f r : list A) :
  s ++ t = f ++ r ->
  (exists s', s = f ++ s' /\ r = s' ++ t) \/
  (exists f', f = s ++ f' /\ f' <> [] /\ t = f' ++ r).
Proof.
  revert f. induction s as [|x s IH]; intros f Heq; cbn in Heq.
  - destruct f as [|y f]; [left; by exists []|right]. exists (y :: f). done.
  - destruct f as [|y f]; cbn in Heq.
    + left. exists (x :: s). done.
    + injection Heq as -> Heq. destruct (IH f Heq) as [(s' & -> & ->)|(f' & -> & Hf & ->)].
      * left. by exists s'.
      * right. by exists f'.
Qed.

(** ** Input buffers *)

Section Buffers.
Context (limit : Z).

(** The bytes [s] lie between the current position and the end of the data. *)
Definition holds (oci : ConnectionInput) (s : list Z) : Prop :=
  exists pre post, buffer oci = pre ++ known s ++ post /\
    bufptr oci = Z.of_nat (length pre) /\
    bufcnt oci = Z.of_nat (length pre) + Z.of_nat (length s) /\
    ci_size oci = Z.of_nat (length (buffer oci)) /\ BUFSIZE <= ci_size oci <= limit /\ bytes s.

(** A buffer between two calls: [s] comes after the request that was returned. *)
Definition unread (oci : ConnectionInput) (s : list Z) : Prop :=
  ignoreBytes oci = 0 /\ holds (oci <| bufptr ::= fun p => p + lenLastReq oci |>) s.

Lemma holds_gotnow oci s :
  limit <= MAXINT -> holds oci s ->
  u32 (bufcnt oci - bufptr oci) = Z.of_nat (length s) /\ 0 <= Z.of_nat (length s) <= limit.
Proof.
  unfold MAXINT. intros Hlim (pre & post & Hb & Hp & Hc & Hs & Hr & _).
  rewrite Hb, !length_app, length_known in Hs. rewrite Hp, Hc, u32_small by lia. lia.
Qed.

Lemma get_req_len_holds cl oci s :
  holds oci s -> (4 <= length s)%nat ->
  get_req_len cl oci = swaps (cl_swapped cl) <$> read16 (known s) 2.
Proof.
  intros (pre & post & Hb & Hp & _) Hl. unfold get_req_len. rewrite Hb, Hp.
  f_equal. apply read16_app; lia.
Qed.
Lemma get_big_req_len_holds cl oci s :
  holds oci s -> (8 <= length s)%nat ->
  get_big_req_len cl oci = swapl (cl_swapped cl) <$> read32 (known s) 4.
Proof.
  intros (pre & post & Hb & Hp & _) Hl. unfold get_big_req_len. rewrite Hb, Hp.
  f_equal. apply read32_app; lia.
Qed.

(** Looking at the header of a request of which [s] has arrived so far. *)
Lemma look_header_holds cl oci s t f r u big :
  holds oci s -> s ++ t = f ++ r -> request_ok cl limit f u big -> (4 <= length s)%nat ->
  look_header cl oci (Z.of_nat (length s)) =
    Ret (if big && (Z.of_nat (length s) <? 8) then (2, true, true) else (u, big, false)).
Proof.
  intros Hh Hs Hok Hl. destruct (request_length _ _ _ _ _ Hok) as [Hf4 Hf8].
  destruct Hok as (Hhd & _ & _ & Hu). unfold look_header.
  rewrite (get_req_len_holds _ _ s) by done. unfold header in Hhd.
  assert (E : read16 (known s) 2 = read16 (known f) 2).
  { by rewrite <- (read16_prefix s t 2), Hs, read16_prefix by lia. }
  rewrite E. destruct (read16 (known f) 2) as [n|]; [|done]. cbn in Hhd |- *.
  destruct ((swaps (cl_swapped cl) n =? 0) && big_requests cl).
  - destruct (read32 (known f) 4) as [v|] eqn:Hv; [|done]. cbn in Hhd. injection Hhd as <- <-.
    cbn [andb]. change sizeof_xBigReq with 8. destruct (Z.ltb_spec (Z.of_nat (length s)) 8); [done|].
    rewrite (get_big_req_len_holds _ _ s) by (done || lia).
    specialize (Hf8 eq_refl).
    assert (E' : read32 (known s) 4 = read32 (known f) 4).
    { by rewrite <- (read32_prefix s t 4), Hs, read32_prefix by lia. }
    by rewrite E', Hv.
  - injection Hhd as <- <-. done.
Qed.

Lemma mem_realloc_grow b n :
  Z.of_nat (length b) <= n ->
  mem_realloc (Some b) n = b ++ replicate (Z.to_nat n - length b) None.
Proof. intros Hn. unfold mem_realloc. cbv zeta. cbn [from_option id]. by rewrite take_ge by lia. Qed.

(** Moving the data of a buffer to its front. *)
Lemma move_front oci s :
  limit <= MAXINT -> holds oci s ->
  let moves := (0 <? Z.of_nat (length s)) && negb (bufptr oci =? 0) in
  exists b post, b = known s ++ post /\ length b = length (buffer oci) /\
    (if moves
     then (fun b => oci <| buffer := b |>) <$> mem_move (buffer oci) 0 (bufptr oci) (Z.of_nat (length s))
     else Some oci) = Some (if moves then oci <| buffer := b |> else oci) /\
    (moves = false -> b = buffer oci).
Proof.
  intros Hlim (pre & post & Hb & Hp & Hc & Hs & Hr & Hby). cbv zeta.
  assert (Hlen : length (buffer oci) = (length pre + (length s + length post))%nat).
  { by rewrite Hb, !length_app, length_known. }
  destruct ((0 <? Z.of_nat (length s)) && negb (bufptr oci =? 0)) eqn:E; breflect.
  - assert (Hsplit : buffer oci = [] ++ take (length s) (buffer oci) ++ drop (length s) (buffer oci)).
    { cbn. by rewrite take_drop. }
    rewrite (mem_move_mid _ _ _ _ 0 (bufptr oci) _ Hsplit) by (rewrite ?length_take; cbn; lia).
    assert (Hd : take (Z.to_nat (Z.of_nat (length s))) (drop (Z.to_nat (bufptr oci)) (buffer oci)) = known s).
    { rewrite Hp, !Nat2Z.id, Hb, drop_app_length. apply take_app_length'. by rewrite length_known. }
    rewrite Hd. eexists _, _. split; [reflexivity|]. split; [|done].
    cbn. rewrite length_app, length_known, length_drop. lia.
  - exists (buffer oci). destruct (Z.ltb_spec 0 (Z.of_nat (length s))) as [Hpos|].
    + cbn in E. breflect. destruct pre; [|cbn in Hp; lia]. exists post. done.
    + destruct s; [|cbn in *; lia]. exists (buffer oci). done.
Qed.

Lemma make_place_spec oci s n :
  limit <= MAXINT -> holds oci s -> Z.of_nat (length s) < n <= limit ->
  exists oci', make_place always oci (Z.of_nat (length s)) n = Ret (true, oci') /\ holds oci' s /\
    bufptr oci' + n <= ci_size oci' /\ lenLastReq oci' = lenLastReq oci /\
    ignoreBytes oci' = ignoreBytes oci.
Proof.
  unfold MAXINT. intros Hlim Hh Hn. unfold make_place.
  destruct ((Z.of_nat (length s) =? 0) || (bufptr oci + n >? ci_size oci)) eqn:E.
  2: { breflect. rewrite Z.gtb_ltb in *. breflect. exists oci. done. }
  destruct (move_front oci s Hlim Hh) as (b & post & Hb & Hlb & -> & Hb'). cbn [obind_opt].
  destruct Hh as (pre0 & post0 & Hb0 & Hp & Hc & Hs & Hr & Hby).
  assert (Hls : (length s <= length b)%nat) by (rewrite Hb, length_app, length_known; lia).
  set (moved := (0 <? Z.of_nat (length s)) && negb (bufptr oci =? 0)) in *.
  rewrite !i32_small by lia.
  assert (Hbuf : buffer (if moved then oci <| buffer := b |> else oci) = b).
  { destruct moved; [done|]. by rewrite Hb'. }
  assert (Hsz : ci_size (if moved then oci <| buffer := b |> else oci) = ci_size oci) by by destruct moved.
  assert (Hlr : lenLastReq (if moved then oci <| buffer := b |> else oci) = lenLastReq oci) by by destruct moved.
  assert (Hig : ignoreBytes (if moved then oci <| buffer := b |> else oci) = ignoreBytes oci) by by destruct moved.
  set (o := if moved then _ else _) in *. rewrite Hsz, Z.gtb_ltb.
  destruct (Z.ltb_spec (ci_size oci) n); cbn [always].
  - eexists. split; [reflexivity|]. cbn. rewrite Hbuf, mem_realloc_grow by lia. split_and!; try done.
    exists [], (post ++ replicate (Z.to_nat n - length b) None). cbn.
    rewrite Hb at 1. rewrite <- app_assoc. split_and!; try done; try lia.
    rewrite length_app, length_replicate. lia.
  - eexists. split; [reflexivity|]. cbn. rewrite Hsz. split_and!; try done.
    exists [], post. cbn. rewrite Hbuf. split_and!; try done; lia.
Qed.

(** New data behind the old. *)
Lemma read_into oci s l :
  holds oci s -> bytes l -> bufcnt oci + Z.of_nat (length l) <= ci_size oci ->
  holds (oci <| buffer ::= fun b => blit b (Z.to_nat (bufcnt oci)) (known l) |>
             <| bufcnt ::= fun x => x + Z.of_nat (length l) |>) (s ++ l).
Proof.
  intros (pre & post & Hb & Hp & Hc & Hs & Hr & Hby) Hl Hle.
  assert (Hlen : length (buffer oci) = (length pre + (length s + length post))%nat).
  { by rewrite Hb, !length_app, length_known. }
  exists pre, (drop (length l) post). cbn.
  assert (E : blit (buffer oci) (Z.to_nat (bufcnt oci)) (known l) =
              pre ++ known (s ++ l) ++ drop (length l) post).
  { rewrite Hb, Hc. rewrite <- (take_drop (length l) post) at 1.
    rewrite (app_assoc pre).
    replace (Z.to_nat _) with (length (pre ++ known s)) by (rewrite length_app, length_known; lia).
    rewrite blit_mid by (rewrite length_known, length_take; lia).
    by rewrite known_app, <- !app_assoc. }
  rewrite E. split_and!; try done; try lia.
  - rewrite length_app. lia.
  - rewrite !length_app, length_known, length_app, length_drop. lia.
  - apply Forall_app; done.
Qed.

Lemma shrink_input_spec oci s n :
  BUFSIZE <= limit -> holds oci s ->
  holds (shrink_input always oci (Z.of_nat (length s)) n) s /\
  ignoreBytes (shrink_input always oci (Z.of_nat (length s)) n) = ignoreBytes oci /\
  lenLastReq (shrink_input always oci (Z.of_nat (length s)) n) = lenLastReq oci.
Proof.
  intros Hlim (pre & post & Hb & Hp & Hc & Hs & Hr & Hby). unfold shrink_input.
  case_bool; [|split_and!; try done; by exists pre, post].
  breflect. split_and!; try done. rewrite Z.gtb_ltb in *. breflect.
  assert (Hlen : length (buffer oci) = (length pre + (length s + length post))%nat).
  { by rewrite Hb, !length_app, length_known. }
  exists pre, (take (Z.to_nat BUFSIZE - (length pre + length s)) post). cbn.
  unfold BUFSIZE, BUFWATERMARK in *. split_and!; try lia; [| |done].
  - unfold mem_realloc. cbv zeta. cbn [from_option id].
    replace (Z.to_nat 16384 - length (buffer oci))%nat with O by lia. cbn [replicate].
    rewrite app_nil_r, Hb, app_assoc, take_app.
    rewrite take_ge by (rewrite length_app, length_known; lia).
    rewrite <- app_assoc. do 3 f_equal. rewrite length_app, length_known. done.
  - unfold mem_realloc. cbv zeta. cbn [from_option id]. rewrite length_app, length_take, length_replicate. lia.
Qed.
End Buffers.

(** ** Finishing a request *)

Lemma holds_skip L oci d s :
  holds L oci (d ++ s) -> lenLastReq oci = Z.of_nat (length d) -> ignoreBytes oci = 0 -> unread L oci s.
Proof.
  intros (pre & post & Hb & Hp & Hc & Hs & Hr & Hby) Hl Hi. split; [done|].
  exists (pre ++ known d), post. cbn. rewrite Hb, Hp, Hl, length_app, length_known.
  rewrite length_app in Hc. apply Forall_app in Hby as [_ Hby].
  split_and!; try done; try lia.
  - by rewrite known_app, <- !app_assoc.
  - by rewrite Hs, Hb.
Qed.

(** Cutting the length field out of a big request. *)
Lemma move_header_spec L oci (h l p : list Z) :
  length h = 4%nat -> length l = 4%nat -> holds L oci (h ++ l ++ p) ->
  exists b, mem_move (buffer oci) (bufptr oci + 4) (bufptr oci) sizeof_xReq = Some b /\
    forall oci', buffer oci' = b -> bufptr oci' = bufptr oci + 4 -> bufcnt oci' = bufcnt oci ->
      ci_size oci' = ci_size oci -> holds L oci' (h ++ p).
Proof.
  intros Hh Hl (pre & post & Hb & Hp & Hc & Hs & Hr & Hby).
  assert (Hlen : length (buffer oci) = (length pre + (length (h ++ l ++ p) + length post))%nat).
  { by rewrite Hb, !length_app, length_known, !length_app. }
  rewrite !length_app in *.
  eexists. split.
  - apply (mem_move_mid _ (pre ++ known h) (known l) (known p ++ post)); unfold sizeof_xReq.
    + by rewrite Hb, !known_app, <- !app_assoc.
    + rewrite length_app, length_known. lia.
    + by rewrite length_known, Hl.
    + lia.
    + lia.
    + lia.
  - intros oci' Hb' Hp' Hc' Hs'. exists (pre ++ known h), post.
    assert (Ht : take (Z.to_nat sizeof_xReq) (drop (Z.to_nat (bufptr oci)) (buffer oci)) = known h).
    { rewrite Hp, Nat2Z.id, Hb, drop_app_length, !known_app, <- !app_assoc.
      apply take_app_length'. by rewrite length_known. }
    rewrite Ht in Hb'. rewrite Hp', Hc', Hs', Hp, Hb', !length_app, !length_known.
    split_and!; try done; try lia.
    + by rewrite known_app, <- !app_assoc.
    + apply Forall_app in Hby as [? Hby]. apply Forall_app in Hby as [? ?]. by apply Forall_app.
Qed.

(** The settings of a client that decide how its requests are read. *)
Definition same_client (cl cl' : ClientRec) : Prop :=
  cl_swapped cl' = cl_swapped cl /\ big_requests cl' = big_requests cl.

Lemma holds_current L oci s :
  holds L oci s -> lenLastReq oci = 0 -> ignoreBytes oci = 0 -> unread L oci s.
Proof. intros Hh Hl Hi. apply (holds_skip _ _ []); [done|by rewrite Hl|done]. Qed.

(** Growing a buffer at its end. *)
Lemma grow_spec L oci s n :
  holds L oci s -> ci_size oci <= n <= L ->
  holds L (oci <| buffer ::= fun b => mem_realloc (Some b) n |> <| ci_size := n |>) s.
Proof.
  intros (pre & post & Hb & Hp & Hc & Hs & Hr & Hby) Hn.
  exists pre, (post ++ replicate (Z.to_nat n - length (buffer oci)) None). cbn.
  rewrite mem_realloc_grow, Hp, Hc by lia. split_and!; try done; try lia.
  - by rewrite Hb, <- !app_assoc.
  - rewrite length_app, length_replicate. lia.
Qed.

(** Making [n] bytes of place in front of the data. *)
Lemma move_up_spec L oci s n :
  holds L oci s -> bufptr oci < n -> n + Z.of_nat (length s) <= ci_size oci ->
  exists b, (if 0 <? Z.of_nat (length s)
             then mem_move (buffer oci) (bufptr oci + (n - bufptr oci)) (bufptr oci) (Z.of_nat (length s))
             else Some (buffer oci)) = Some b /\
    holds L (oci <| buffer := b |> <| bufptr ::= fun p => p + (n - bufptr oci) |>
                 <| bufcnt ::= fun p => p + (n - bufptr oci) |>) s.
Proof.
  intros (pre & post & Hb & Hp & Hc & Hs & Hr & Hby) Hlt Hn.
  assert (Hlen : length (buffer oci) = (length pre + (length s + length post))%nat).
  { by rewrite Hb, !length_app, length_known. }
  replace (bufptr oci + (n - bufptr oci)) with n by lia.
  set (b0 := buffer oci) in *. set (k := Z.to_nat n).
  assert (Hsplit : b0 = take k b0 ++ take (length s) (drop k b0) ++ drop (length s) (drop k b0)).
  { by rewrite !take_drop. }
  assert (Hlk : length (take k b0) = k) by (rewrite length_take; lia).
  destruct (Z.ltb_spec 0 (Z.of_nat (length s))).
  - assert (Hd : take (Z.to_nat (Z.of_nat (length s))) (drop (Z.to_nat (bufptr oci)) b0) = known s).
    { rewrite Hp, !Nat2Z.id, Hb, drop_app_length. apply take_app_length'. by rewrite length_known. }
    eexists. split.
    + apply (mem_move_mid b0 _ _ _ n (bufptr oci) _ Hsplit); rewrite ?Hlk, ?length_take, ?length_drop; lia.
    + rewrite Hd. eexists _, _. cbn. split; [reflexivity|]. rewrite Hlk, !length_app, length_known, Hlk, !length_drop.
      rewrite Hp, Hc. split_and!; try done; lia.
  - destruct s; [|cbn in *; lia]. exists b0. split; [done|].
    exists (take k b0), (drop k b0). cbn. rewrite Hlk, take_drop, Hp, Hc. cbn.
    rewrite Hp in *. split_and!; try done; lia.
Qed.

(** Data in the place in front of the current position. *)
Lemma put_front_spec L oci data s :
  holds L oci s -> bytes data -> Z.of_nat (length data) <= bufptr oci ->
  holds L (oci <| buffer ::= fun b => blit b (Z.to_nat (bufptr oci - Z.of_nat (length data))) (known data) |>
               <| bufptr ::= fun p => p - Z.of_nat (length data) |>) (data ++ s).
Proof.
  intros (pre & post & Hb & Hp & Hc & Hs & Hr & Hby) Hd Hle.
  assert (Hpre : exists p1 p2, pre = p1 ++ p2 /\ length p2 = length data).
  { exists (take (length pre - length data) pre), (drop (length pre - length data) pre).
    rewrite take_drop, length_drop. split; [done|lia]. }
  destruct Hpre as (p1 & p2 & -> & Hp2). rewrite length_app in *.
  exists p1, post. cbn.
  replace (Z.to_nat (bufptr oci - Z.of_nat (length data))) with (length p1) by lia.
  assert (E : blit (buffer oci) (length p1) (known data) = p1 ++ known (data ++ s) ++ post).
  { rewrite Hb, <- app_assoc, blit_mid by (rewrite length_known; lia).
    by rewrite known_app, <- !app_assoc. }
  assert (Hlen : length (buffer oci) = (length p1 + length p2 + (length s + length post))%nat).
  { by rewrite Hb, !length_app, length_known. }
  rewrite E, Hp, Hc, length_app. split_and!; try done; try lia.
  - rewrite !length_app, length_known, length_app. lia.
  - by apply Forall_app.
Qed.

(** The effect of [insert_data]. *)
Lemma insert_data_spec L oci data s :
  holds L oci s -> lenLastReq oci = 0 -> ignoreBytes oci = 0 -> bytes data ->
  Z.of_nat (length data) + Z.of_nat (length s) <= L ->
  exists oci', insert_data always oci data (Z.of_nat (length data)) = Ret (true, oci') /\
    holds L oci' (data ++ s) /\ lenLastReq oci' = 0 /\ ignoreBytes oci' = 0.
Proof.
  intros Hh Hl Hi Hd HL. unfold insert_data.
  assert (Hg : bufcnt oci - bufptr oci = Z.of_nat (length s)).
  { destruct Hh as (pre & post & _ & Hp & Hc & _). lia. }
  rewrite Hg. set (n := Z.of_nat (length data)) in *. rewrite andb_false_r.
  set (o := if _ >? _ then _ else oci).
  assert (Ho : holds L o s /\ bufptr o = bufptr oci /\ n + Z.of_nat (length s) <= ci_size o /\
               lenLastReq o = 0 /\ ignoreBytes o = 0).
  { subst o. rewrite Z.gtb_ltb. destruct (Z.ltb_spec (ci_size oci) (Z.of_nat (length s) + n)).
    - split_and!; try done; [|cbn; lia]. apply grow_spec; [done|lia].
    - split_and!; done || lia. }
  destruct Ho as (Ho & Hpo & Hso & Hlo & Hio). clearbody o. cbv zeta.
  destruct (Z.ltb_spec 0 (n - bufptr o)).
  - destruct (move_up_spec L o s n Ho ltac:(lia) Hso) as (b & Hb & Hh'). rewrite Hb. cbn [mbind option_bind obind_opt].
    set (o' := _ <| bufcnt ::= _ |>) in *.
    assert (Hpo' : bufptr o' = n) by (cbn; lia).
    destruct (Z.ltb_spec (bufptr o' - n) 0); [lia|].
    eexists. split; [reflexivity|]. split; [|done].
    unfold n. rewrite Nat2Z.id, firstn_all. apply (put_front_spec L o' data s); [done|done|lia].
  - cbn [obind_opt]. destruct (Z.ltb_spec (bufptr o - n) 0); [lia|].
    eexists. split; [reflexivity|]. split; [|done].
    unfold n. rewrite Nat2Z.id, firstn_all. apply (put_front_spec L o data s); [done|done|lia].
Qed.

Section Finish.
Context {W : Type} `{Transport W}.
Implicit Types (st : io_state W).

Lemma finish_spec L st c cl oci f s u big :
  L <= MAXINT -> clients st !! c = Some cl -> req_len cl = u -> request_ok cl L f u big ->
  holds L oci (f ++ s) -> ignoreBytes oci = 0 ->
  exists g oci',
    finish_request st c oci (Z.of_nat (length (f ++ s))) (4 * u) big =
      Ret (4 * u, set_input
        (on_client (if decide (s = []) then st <| AvailableInput := Some c |> else st) c g) c (Some oci')) /\
    unread L oci' s /\ same_client cl (g cl) /\
    holds L oci' (delivered big f ++ s) /\ lenLastReq oci' = Z.of_nat (length (delivered big f)) /\
    requestBuffer (g cl) = bufptr oci' /\ 4 * req_len (g cl) = Z.of_nat (length (delivered big f)) /\
    (big = true -> 4 <= bufptr oci').
Proof.
  unfold MAXINT. intros HL Hcl Hu Hok Hh Hi. destruct (request_length _ _ _ _ _ Hok) as [Hf4 Hf8].
  destruct Hok as (_ & Hf & HfL & Hub). assert (0 < u) by (destruct big; lia).
  unfold finish_request. rewrite Hcl. cbn [obind_opt].
  destruct (Z.eqb_spec (4 * u) 0); [lia|]. rewrite Hi. cbn [Z.ltb Z.compare obind].
  assert (Hsz : (length (f ++ s) = length f + length s)%nat) by apply length_app.
  assert (HLs : Z.of_nat (length (f ++ s)) <= L).
  { destruct Hh as (pre & post & Hb & _ & _ & Hs & Hr & _).
    rewrite Hb, !length_app, length_known, length_app in Hs. lia. }
  rewrite i32_small, u32_small by lia.
  assert (Hav : (if (Z.of_nat (length (f ++ s)) - 4 * u =? 0) && (ignoreBytes (oci <| lenLastReq := 4 * u |>) =? 0)
                 then st <| AvailableInput := Some c |> else st) =
                (if decide (s = []) then st <| AvailableInput := Some c |> else st)).
  { cbn. rewrite Hi. destruct (decide (s = [])) as [->|Hne].
    - rewrite app_nil_r in *. by replace (_ - _ =? 0) with true by (symmetry; apply Z.eqb_eq; lia).
    - assert (length s <> O) by by destruct s.
      by replace (_ - _ =? 0) with false by (symmetry; apply Z.eqb_neq; lia). }
  cbv zeta. rewrite Hav. clear Hav. set (st1 := if decide (s = []) then _ else _).
  destruct big; cbn [delivered].
  - specialize (Hf8 eq_refl). rewrite Hu. change (bytes_to_int32 (sizeof_xBigReq - sizeof_xReq)) with 1.
    destruct (Z.ltb_spec u 1); [lia|].
    assert (Hsplit : f = take 4 f ++ take 4 (drop 4 f) ++ drop 8 f).
    { rewrite <- (drop_drop _ 4 4), take_drop. by rewrite take_drop. }
    rewrite Hsplit, <- !app_assoc in Hh.
    destruct (move_header_spec L oci (take 4 f) (take 4 (drop 4 f)) (drop 8 f ++ s)) as (b & Hm & Hb).
    { rewrite length_take; lia. } { rewrite length_take, length_drop; lia. } { done. }
    cbn [buffer bufptr set_field eta_of eta_ci] in *.
    match goal with |- context [mem_move ?x ?y ?z ?n] => change (mem_move x y z n) with
      (mem_move (buffer oci) (bufptr oci + 4) (bufptr oci) sizeof_xReq) end.
    rewrite Hm. cbn [obind_opt].
    assert (Hld : Z.of_nat (length (take 4 f ++ drop 8 f)) = 4 * u - 4).
    { rewrite length_app, length_take, length_drop. lia. }
    eexists _, _. split; [reflexivity|].
    match goal with |- unread _ ?o _ /\ _ => assert (Hh' : holds L o ((take 4 f ++ drop 8 f) ++ s)) end.
    { rewrite <- app_assoc. by apply Hb. }
    split_and!; try done.
    + apply (holds_skip _ _ _ _ Hh'); [|done]. cbn. rewrite Hld, i32_small; lia.
    + cbn. rewrite Hld, i32_small; lia.
    + cbn. rewrite u32_small by lia. lia.
    + intros _. cbn. destruct Hh as (pre & post & _ & Hp & _). lia.
  - eexists _, _. split; [reflexivity|]. cbn. split_and!; try done; try lia.
    apply (holds_skip _ _ f); cbn; done || lia.
Qed.
End Finish.

(** ** Reading from the transport *)

(** [todo c w] is what client [c] has sent and the server has not read.  A read
    gives at least one of the bytes, and never more than asked for; other
    connections and the passing of file descriptors do not interfere. *)
Class InputStream W `{Transport W} (todo : Z -> W -> list Z) := {
  read_some c max w : 0 < max -> todo c w <> [] ->
    exists l w', trans_read c max w = (RdBytes l, w') /\ l <> [] /\ Z.of_nat (length l) <= max /\
      todo c w = l ++ todo c w' /\ forall c', c' <> c -> todo c' w' = todo c' w;
  recv_fd_todo c c' w : todo c' (trans_recv_fd c w).2 = todo c' w;
  todo_bytes c w : bytes (todo c w)
}.

Section Reading.
Context {W : Type} `{Transport W} (todo : Z -> W -> list Z) `{!InputStream W todo}.
Implicit Types (st : io_state W) (oc : OsCommRec) (cl : ClientRec).

(** The part of the state that reading for client [c] leaves alone. *)
Definition kept c st st' : Prop :=
  FreeInputs st' = FreeInputs st /\ maxBigRequestSize st' = maxBigRequestSize st /\
  (forall c', c' <> c -> oscomm st' !! c' = oscomm st !! c' /\ clients st' !! c' = clients st !! c') /\
  (forall c', c' <> c -> todo c' (world st') = todo c' (world st)) /\
  (forall cl, clients st !! c = Some cl -> exists cl', clients st' !! c = Some cl' /\ same_client cl cl').

Lemma same_client_refl cl : same_client cl cl.
Proof. done. Qed.
Lemma same_client_trans cl1 cl2 cl3 :
  same_client cl1 cl2 -> same_client cl2 cl3 -> same_client cl1 cl3.
Proof. intros [H1 H2] [H3 H4]. split; congruence. Qed.
Lemma kept_refl c st : kept c st st.
Proof. split_and!; try done. intros cl Hcl. exists cl. done. Qed.
Lemma kept_trans c st1 st2 st3 : kept c st1 st2 -> kept c st2 st3 -> kept c st1 st3.
Proof.
  intros (A1 & A2 & A3 & A4 & A5) (B1 & B2 & B3 & B4 & B5). split_and!; try congruence.
  - intros c' Hc'. destruct (A3 c' Hc'), (B3 c' Hc'). split; congruence.
  - intros c' Hc'. rewrite B4, A4 by done. done.
  - intros cl Hcl. destruct (A5 cl Hcl) as (cl1 & H1 & H2). destruct (B5 cl1 H1) as (cl2 & H3 & H4).
    exists cl2. split; [done|]. by eapply same_client_trans.
Qed.

Lemma kept_set_input c st i : kept c st (set_input st c i).
Proof.
  split_and!; cbn; try done.
  - intros c' Hc'. split; [|done]. by rewrite lookup_alter_ne.
  - intros cl Hcl. exists cl. done.
Qed.
Lemma kept_on_client c st g :
  (forall cl, clients st !! c = Some cl -> same_client cl (g cl)) -> kept c st (on_client st c g).
Proof.
  intros Hg. split_and!; cbn; try done.
  - intros c' Hc'. split; [done|]. by rewrite lookup_alter_ne.
  - intros cl Hcl. exists (g cl). rewrite lookup_alter_eq, Hcl. split; [done|auto].
Qed.
Lemma kept_fields c st st' :
  oscomm st' = oscomm st -> clients st' = clients st -> FreeInputs st' = FreeInputs st ->
  maxBigRequestSize st' = maxBigRequestSize st -> world st' = world st -> kept c st st'.
Proof.
  intros E1 E2 E3 E4 E5. split_and!; rewrite ?E1, ?E2, ?E3, ?E4, ?E5; try done.
  intros cl Hcl. by exists cl.
Qed.
Lemma kept_yield c st : kept c st (YieldControlNoInput st c).
Proof.
  unfold YieldControlNoInput. cbn.
  destruct (oscomm st !! c) as [oc|]; [destruct (trans_conn oc)|]; by apply kept_fields.
Qed.
Lemma kept_available c st a : kept c st (st <| AvailableInput := a |>).
Proof. by apply kept_fields. Qed.

(** How much the server knows of the request [f] when it has [s]. *)
Inductive plan (cl : ClientRec) (s : list Z) (u : Z) (big : bool) : Z -> bool -> bool -> Prop :=
  | PlanHead : (length s < 4)%nat -> plan cl s u big 4 true false
  | PlanBig : big = true -> (4 <= length s < 8)%nat -> plan cl s u big 8 true true
  | PlanBody : (4 <= length s)%nat -> req_len cl = u -> plan cl s u big (4 * u) false big.

(** The request the client sees after a call. *)
Definition current_request st c : option (list Z) :=
  oci ← oscomm st !! c ≫= input; cl ← clients st !! c;
  mapM id (take (Z.to_nat (4 * req_len cl)) (drop (Z.to_nat (requestBuffer cl)) (buffer oci))).

(** The header of a big request, of which the length was cut out. *)
Definition big_header cl (d : list Z) : Prop :=
  swaps (cl_swapped cl) <$> read16 (known d) 2 = Some 0 /\ big_requests cl = true.

(** The client's request is being handled and [s] comes after it. *)
Definition serving L st c (d s : list Z) : Prop :=
  exists oci cl, oscomm st !! c ≫= input = Some oci /\ clients st !! c = Some cl /\
    holds L oci (d ++ s) /\ lenLastReq oci = Z.of_nat (length d) /\ ignoreBytes oci = 0 /\
    requestBuffer cl = bufptr oci /\ 4 * req_len cl = Z.of_nat (length d) /\
    (big_header cl d -> 4 <= bufptr oci).

Lemma serving_current L st c d s : serving L st c d s -> current_request st c = Some d.
Proof.
  intros (oci & cl & Hi & Hc & (pre & post & Hb & Hp & _) & _ & _ & Hr & Hl & _).
  unfold current_request. rewrite Hi, Hc. cbn. rewrite Hr, Hp, Hl, !Nat2Z.id, Hb.
  rewrite drop_app_length, known_app, <- !app_assoc, take_app_length' by (by rewrite length_known).
  apply mapM_known.
Qed.

(** What is read is the request, or not yet enough of it. *)
Definition read_post L st c (f rest : list Z) (u : Z) (big : bool) (r : Z) (st' : io_state W) : Prop :=
  exists oc oci' s', oscomm st' !! c = Some oc /\ trans_conn oc = true /\ input oc = Some oci' /\
    unread L oci' s' /\ kept c st st' /\
    (AvailableInput st' = None \/ AvailableInput st' = Some c /\ s' = []) /\
    ((r = 4 * u /\ serving L st' c (delivered big f) s' /\ s' ++ todo c (world st') = rest /\
      (length (todo c (world st')) <= length (todo c (world st)))%nat) \/
     (r = 0 /\ s' ++ todo c (world st') = f ++ rest /\
      (length (todo c (world st')) < length (todo c (world st)))%nat)).

Lemma request_ok_same L cl cl' f u big :
  same_client cl cl' -> request_ok cl L f u big -> request_ok cl' L f u big.
Proof. intros [E1 E2] (Hh & ?). split; [|done]. unfold header in *. by rewrite E1, E2. Qed.

Lemma finish_post L st0 st c oc cl oci f s rest u big :
  L <= MAXINT -> kept c st0 st -> AvailableInput st = None ->
  oscomm st !! c = Some oc -> trans_conn oc = true -> clients st !! c = Some cl -> req_len cl = u ->
  request_ok cl L f u big -> holds L oci (f ++ s) -> ignoreBytes oci = 0 ->
  s ++ todo c (world st) = rest -> (length (todo c (world st)) <= length (todo c (world st0)))%nat ->
  exists st', finish_request st c oci (Z.of_nat (length (f ++ s))) (4 * u) big = Ret (4 * u, st') /\
    read_post L st0 c f rest u big (4 * u) st'.
Proof.
  intros HL Hk Ha Hoc Htc Hcl Hu Hok Hh Hi Hrest Hle.
  destruct (finish_spec L st c cl oci f s u big HL Hcl Hu Hok Hh Hi)
    as (g & oci' & Heq & Hun & Hsame & Hh' & Hll & Hrb & Hrl & Hbig).
  eexists. split; [exact Heq|]. set (st1 := if decide (s = []) then _ else _).
  assert (Hst1 : kept c st0 st1 /\ oscomm st1 = oscomm st /\ clients st1 = clients st /\
                 world st1 = world st /\
                 (AvailableInput st1 = None \/ AvailableInput st1 = Some c /\ s = [])).
  { subst st1. destruct (decide (s = [])); [|by split_and!; auto]. split_and!; try done. by right. }
  destruct Hst1 as (Hk1 & E1 & E2 & E3 & Ha1).
  eexists _, oci', s. cbn. rewrite E1, lookup_alter_eq, Hoc. cbn. split_and!; try done.
  - eapply kept_trans; [exact Hk1|]. eapply kept_trans; [|apply kept_set_input].
    apply kept_on_client. intros cl1 Hcl1. rewrite E2, Hcl in Hcl1. by injection Hcl1 as <-.
  - left. rewrite E3. split_and!; try done.
    exists oci', (g cl). cbn. rewrite E1, E2, !lookup_alter_eq, Hoc, Hcl. cbn.
    split_and!; try done; [by destruct Hun|]. intros [Hz Hbr]. apply Hbig.
    destruct Hsame as [Hsw Hbr']. destruct Hok as (Hhd & _ & _ & Hu0).
    destruct big; [done|]. cbn [delivered] in Hz. unfold header in Hhd. rewrite <- Hsw, <- Hbr', Hz in Hhd.
    cbn in Hhd. rewrite Hbr in Hhd. cbn in Hhd. by destruct (swapl _ <$> _).
Qed.

Lemma punt_post L st0 st c oc oci f s rest u big :
  kept c st0 st -> AvailableInput st = None -> oscomm st !! c = Some oc -> trans_conn oc = true ->
  holds L oci s -> lenLastReq oci = 0 -> ignoreBytes oci = 0 ->
  s ++ todo c (world st) = f ++ rest -> (length (todo c (world st)) < length (todo c (world st0)))%nat ->
  read_post L st0 c f rest u big 0 (YieldControlNoInput (set_input st c (Some oci)) c).
Proof.
  intros Hk Ha Hoc Htc Hh Hl Hi Hs Hlt. eexists _, oci, s.
  assert (E : forall st', oscomm (YieldControlNoInput st' c) = oscomm st' /\
    AvailableInput (YieldControlNoInput st' c) = AvailableInput st' /\
    world (YieldControlNoInput st' c) = world st').
  { intros st'. unfold YieldControlNoInput. cbn.
    destruct (oscomm st' !! c) as [oc'|]; [destruct (trans_conn oc')|]; done. }
  destruct (E (set_input st c (Some oci))) as (-> & -> & ->). cbn. rewrite lookup_alter_eq, Hoc. cbn.
  split_and!; try done.
  - apply (holds_skip _ _ []); [done|by rewrite Hl|done].
  - eapply kept_trans; [done|]. eapply kept_trans; [apply kept_set_input|apply kept_yield].
  - by left.
  - by right.
Qed.

(** A request whose bytes have all arrived. *)
Lemma complete_or_not {A} (s t f r : list A) :
  s ++ t = f ++ r -> (length f <= length s)%nat -> exists s', s = f ++ s' /\ s' ++ t = r.
Proof.
  intros Heq Hl. destruct (app_split s t f r Heq) as [(s' & -> & ->)|(f' & -> & Hne & _)].
  - by exists s'.
  - rewrite length_app in Hl. destruct f'; [done|]. cbn in Hl. lia.
Qed.

Lemma plan_needs cl L f s t r u big n nh mv :
  request_ok cl L f u big -> plan cl s u big n nh mv -> s ++ t = f ++ r ->
  Z.of_nat (length s) < n -> n <= 4 * u /\ t <> [].
Proof.
  intros Hok Hp Hs Hlt. destruct (request_length _ _ _ _ _ Hok) as [Hf4 Hf8].
  destruct Hok as (_ & Hf & _ & Hu).
  assert (Hn : n <= 4 * u).
  { destruct Hp as [H1|Hbig H1|H1 H2]; [destruct big; lia| |lia]. subst big. specialize (Hf8 eq_refl). lia. }
  split; [done|]. intros ->. rewrite app_nil_r in Hs. subst s. rewrite length_app in Hlt. lia.
Qed.


Lemma after_read_spec L st0 st c oc cl oci f s l rest u big n nh mv :
  BUFSIZE <= L <= MAXINT -> kept c st0 st -> AvailableInput st = None ->
  oscomm st !! c = Some oc -> trans_conn oc = true -> clients st !! c = Some cl ->
  request_ok cl L f u big -> plan cl s u big n nh mv -> holds L oci s ->
  lenLastReq oci = 0 -> ignoreBytes oci = 0 -> bufptr oci + n <= ci_size oci ->
  Z.of_nat (length s) < n <= 4 * u -> bytes l -> bufcnt oci + Z.of_nat (length l) <= ci_size oci ->
  (s ++ l) ++ todo c (world st) = f ++ rest ->
  (length (todo c (world st)) < length (todo c (world st0)))%nat ->
  exists r st', after_read always st c oci (Z.of_nat (length s)) n nh mv l = Ret (r, st') /\
    read_post L st0 c f rest u big r st'.
Proof.
  unfold MAXINT. intros HL Hk Ha Hoc Htc Hcl Hok Hp Hh Hll Hi Hfit Hlt Hbl Hfitl Hs Hdec.
  unfold after_read. rewrite Z.gtb_ltb. destruct (Z.ltb_spec (ci_size oci) (bufcnt oci + Z.of_nat (length l))); [lia|].
  pose proof (read_into L oci s l Hh Hbl Hfitl) as Hh1. unfold known in Hh1.
  set (oci1 := _ <| bufcnt ::= _ |>) in *.
  destruct (holds_gotnow L oci1 (s ++ l) ltac:(unfold MAXINT; lia) Hh1) as [_ Hg]. rewrite length_app in Hg.
  rewrite u32_small by lia. rewrite <- Nat2Z.inj_add, <- length_app.
  destruct (shrink_input_spec L oci1 (s ++ l) n ltac:(lia) Hh1) as (Hh2 & Hi2 & Hl2).
  set (oci2 := shrink_input _ _ _ _) in *. rewrite Hcl. cbn [obind_opt].
  assert (Hpunt : forall st', kept c st st' -> AvailableInput st' = None -> oscomm st' = oscomm st ->
    world st' = world st ->
    read_post L st0 c f rest u big 0 (YieldControlNoInput (set_input st' c (Some oci2)) c)).
  { intros st' Hk' Ha' E1 E2. apply (punt_post L st0 st' c oc oci2 f (s ++ l)); rewrite ?E1, ?E2; try done.
    - by eapply kept_trans.
    - by rewrite Hl2.
    - by rewrite Hi2. }
  destruct Hok as (Hhd & Hf & HfL & Hu). pose proof (conj Hhd (conj Hf (conj HfL Hu))) as Hok.
  change (header cl f = Some (u, big) /\ _) with (request_ok cl L f u big) in Hok.
  assert (Hfin : forall st' cl', kept c st st' -> AvailableInput st' = None -> oscomm st' = oscomm st ->
    world st' = world st -> clients st' !! c = Some cl' -> same_client cl cl' -> req_len cl' = u ->
    4 * u <= Z.of_nat (length (s ++ l)) ->
    exists st'', finish_request st' c oci2 (Z.of_nat (length (s ++ l))) (4 * u) big = Ret (4 * u, st'') /\
      read_post L st0 c f rest u big (4 * u) st'').
  { intros st' cl' Hk' Ha' E1 E2 Hcl' Hsame Hrl Hge.
    destruct (complete_or_not _ _ _ _ Hs ltac:(lia)) as (s' & Hs1 & Hs2). rewrite Hs1 in *.
    apply (finish_post L st0 st' c oc cl'); rewrite ?E1, ?E2; try done.
    - unfold MAXINT. lia.
    - by eapply kept_trans.
    - by eapply request_ok_same.
    - by rewrite Hi2.
    - lia. }
  assert (Hshift : Z.shiftl u 2 = 4 * u) by (rewrite Z.shiftl_mul_pow2; lia).
  assert (Hlook : forall mvi, (mvi = true -> big = true) -> (4 <= length (s ++ l))%nat ->
    exists r st',
      ('(units, move, _) <-- look_header cl oci2 (Z.of_nat (length (s ++ l)));
       let st := on_client st c (fun cl => cl <| req_len := units |>) in
       if units >? Z.shiftr MAXINT 2 then Ret (- BadLength, set_input st c (Some oci2))
       else if Z.of_nat (length (s ++ l)) <? u32 (Z.shiftl units 2)
            then Ret (0, YieldControlNoInput (set_input st c (Some oci2)) c)
            else finish_request st c oci2 (Z.of_nat (length (s ++ l))) (u32 (Z.shiftl units 2)) (mvi || move))
      = Ret (r, st') /\ read_post L st0 c f rest u big r st').
  { intros mvi Hmvi Hge4. rewrite (look_header_holds L cl oci2 _ _ _ _ _ _ Hh2 Hs Hok Hge4).
    assert (Hkc : forall units, kept c st (on_client st c (fun cl => cl <| req_len := units |>))).
    { intros units. by apply kept_on_client. }
    change (Z.shiftr MAXINT 2) with 536870911.
    destruct (big && (Z.of_nat (length (s ++ l)) <? 8)) eqn:E; cbn [obind]; rewrite Z.gtb_ltb.
    - breflect. change (u32 (Z.shiftl 2 2)) with 8. change (536870911 <? 2) with false. cbv iota zeta.
      destruct (Z.ltb_spec (Z.of_nat (length (s ++ l))) 8); [|lia].
      eexists _, _. split; [reflexivity|]. by apply Hpunt.
    - destruct (Z.ltb_spec 536870911 u); [lia|]. rewrite Hshift, u32_small by lia.
      replace (mvi || big)%bool with big by (destruct mvi; [by rewrite Hmvi|done]).
      destruct (Z.ltb_spec (Z.of_nat (length (s ++ l))) (4 * u)).
      + eexists _, _. split; [reflexivity|]. by apply Hpunt.
      + destruct (Hfin (on_client st c (fun cl => cl <| req_len := u |>)) (cl <| req_len := u |>))
          as (st'' & Heq & Hpost); try done.
        { cbn. by rewrite lookup_alter_eq, Hcl. }
        rewrite Heq. eauto. }
  rewrite Z.geb_leb.
  destruct Hp as [Hp1|Hbig Hp1|Hp1 Hp2]; cbn [andb].
  - destruct (Z.leb_spec 4 (Z.of_nat (length (s ++ l)))); [apply (Hlook false); [done|lia]|].
    destruct (Z.ltb_spec (Z.of_nat (length (s ++ l))) 4); [|lia].
    eexists _, _. split; [reflexivity|]. apply Hpunt; try done. apply kept_refl.
  - destruct (Z.leb_spec 8 (Z.of_nat (length (s ++ l)))); [apply (Hlook true); [done|lia]|].
    destruct (Z.ltb_spec (Z.of_nat (length (s ++ l))) 8); [|lia].
    eexists _, _. split; [reflexivity|]. apply Hpunt; try done. apply kept_refl.
  - destruct (Z.ltb_spec (Z.of_nat (length (s ++ l))) (4 * u)).
    + eexists _, _. split; [reflexivity|]. apply Hpunt; try done. apply kept_refl.
    + destruct (Hfin st cl) as (st'' & Heq & Hpost); try done; [apply kept_refl|].
      rewrite Heq. eauto.
Qed.

Lemma read_more_spec L st c oc cl oci f s rest u big n nh mv :
  BUFSIZE <= L <= MAXINT -> AvailableInput st = None ->
  oscomm st !! c = Some oc -> trans_conn oc = true -> clients st !! c = Some cl ->
  request_ok cl L f u big -> plan cl s u big n nh mv -> holds L oci s ->
  lenLastReq oci = 0 -> ignoreBytes oci = 0 -> bufptr oci + n <= ci_size oci ->
  Z.of_nat (length s) < n -> s ++ todo c (world st) = f ++ rest ->
  exists r st', read_more always st c oci (Z.of_nat (length s)) n nh mv = Ret (r, st') /\
    read_post L st c f rest u big r st'.
Proof.
  intros HL Ha Hoc Htc Hcl Hok Hp Hh Hll Hi Hfit Hlt Hs.
  destruct (plan_needs _ _ _ _ _ _ _ _ _ _ _ Hok Hp Hs Hlt) as [Hn Hne].
  unfold read_more. set (st1 := set_input st c (Some oci)).
  assert (Hoc1 : oscomm st1 !! c = Some (oc <| input := Some oci |>)).
  { subst st1. cbn. by rewrite lookup_alter_eq, Hoc. }
  rewrite Hoc1. cbn [obind_opt trans_conn]. change (trans_conn (oc <| input := Some oci |>)) with (trans_conn oc).
  rewrite Htc. cbn [negb]. change (world st1) with (world st).
  assert (Hroom : bufcnt oci < ci_size oci).
  { destruct Hh as (pre & post & _ & Hp' & Hc & _). lia. }
  destruct (read_some c (ci_size oci - bufcnt oci) (world st)) as (l & w & Hrd & Hl & Hlmax & Hw & Hother); [lia|done|].
  rewrite Hrd. destruct l as [|b l]; [done|].
  pose proof (todo_bytes c (world st)) as Hb. rewrite Hw in Hb. apply Forall_app in Hb as [Hb _].
  apply (after_read_spec L st (st1 <| world := w |>) c (oc <| input := Some oci |>) cl); try done.
  - destruct (kept_set_input c st (Some oci)) as (K1 & K2 & K3 & K4 & K5). split_and!; try done.
  - lia.
  - cbn [world set_field eta_of eta_io]. by rewrite <- app_assoc, <- Hw.
  - cbn [world set_field eta_of eta_io]. rewrite Hw, length_app. cbn [length]. lia.
Qed.

(** ** The state between two calls *)

(** The bytes of client [c] that are in its buffer and not yet in a request. *)
Definition pending L st c (s : list Z) : Prop :=
  match oscomm st !! c ≫= input with Some oci => unread L oci s | None => s = [] end.

(** The buffers that may be given to another client have nothing left. *)
Record io_ok L st : Prop := {
  ok_limit : BUFSIZE <= L <= MAXINT;
  ok_max : Z.shiftl (maxBigRequestSize st) 2 = L;
  ok_free : Forall (fun oci => unread L oci []) (FreeInputs st);
  ok_avail : forall a, AvailableInput st = Some a ->
    exists oci, oscomm st !! a ≫= input = Some oci /\ unread L oci []
}.

Lemma unread_nil L oci s : unread L oci [] -> unread L oci s -> s = [].
Proof.
  intros [_ (pre & post & _ & Hp & Hc & _)] [_ (pre' & post' & _ & Hp' & Hc' & _)].
  cbn in *. destruct s; [done|]. cbn in Hc'. lia.
Qed.

Lemma NextAvailableInput_spec L st c oc :
  io_ok L st -> oscomm st !! c = Some oc ->
  exists st', NextAvailableInput st c = Ret st' /\ io_ok L st' /\ AvailableInput st' = None /\
    oscomm st' !! c = Some oc /\ clients st' = clients st /\ world st' = world st /\
    forall c' s, c' <> c -> pending L st c' s -> pending L st' c' s.
Proof.
  intros Hok Hoc. pose proof Hok as [HL Hm Hf Ha]. unfold NextAvailableInput.
  destruct (AvailableInput st) as [a|] eqn:Ea; [|eexists; split; [reflexivity|]; by split_and!].
  destruct (Ha a eq_refl) as (aci & Hin & Hun).
  destruct (Z.eqb_spec a c) as [->|Hne].
  { eexists. split; [reflexivity|]. by split_and!. }
  rewrite Hin. cbn [obind_opt]. eexists. split; [reflexivity|].
  set (st1 := if ci_size aci >? BUFWATERMARK then _ else _).
  assert (E : oscomm st1 = oscomm st /\ clients st1 = clients st /\ world st1 = world st /\
    maxBigRequestSize st1 = maxBigRequestSize st /\ Forall (fun oci => unread L oci []) (FreeInputs st1)).
  { subst st1. destruct (ci_size aci >? BUFWATERMARK); split_and!; try done. by constructor. }
  destruct E as (E1 & E2 & E3 & E4 & E5).
  split_and!; try done.
  - split; try done. by rewrite <- Hm, <- E4.
  - cbn. by rewrite lookup_alter_ne, E1.
  - intros c' s Hc' Hp. unfold pending in *. cbn. rewrite E1. destruct (decide (a = c')) as [->|Hne'].
    + rewrite lookup_alter_eq. destruct (oscomm st !! c') as [oc'|]; [|done]. cbn in *. rewrite Hin in Hp.
      by eapply unread_nil.
    + by rewrite lookup_alter_ne.
Qed.

(** A new buffer. *)
Lemma AllocateInputBuffer_spec L :
  BUFSIZE <= L -> exists oci, AllocateInputBuffer always = Some oci /\ unread L oci [].
Proof.
  intros HL. eexists. split; [reflexivity|]. split; [done|].
  exists [], (replicate (Z.to_nat BUFSIZE) (Some 0)). cbn [buffer bufptr bufcnt lenLastReq ci_size set_field eta_of eta_ci].
  rewrite length_replicate. unfold BUFSIZE in *. split_and!; try done; try lia. by constructor.
Qed.

Lemma get_input_spec L st c oc s :
  io_ok L st -> oscomm st !! c = Some oc -> pending L st c s ->
  exists oci st', get_input always st (input oc) = Some (oci, st') /\ unread L oci s /\ io_ok L st' /\
    oscomm st' = oscomm st /\ clients st' = clients st /\ world st' = world st /\
    AvailableInput st' = AvailableInput st.
Proof.
  intros Hok Hoc Hp. pose proof Hok as [HL Hm Hf Ha]. unfold pending in Hp. rewrite Hoc in Hp. cbn in Hp.
  unfold get_input. destruct (input oc) as [oci|]; [by eexists _, _; split_and!|]. subst s.
  destruct (FreeInputs st) as [|oci l] eqn:El.
  - destruct (AllocateInputBuffer_spec L ltac:(lia)) as (oci & -> & Hun). cbn. eexists _, _.
    by split_and!.
  - apply Forall_cons in Hf as [Hoci Hf]. eexists _, _. by split_and!.
Qed.

Lemma ReadFd_kept c st : kept c st (ReadFdFromClient st c).2 /\
  oscomm (ReadFdFromClient st c).2 = oscomm st /\
  AvailableInput (ReadFdFromClient st c).2 = AvailableInput st /\
  forall c', todo c' (world (ReadFdFromClient st c).2) = todo c' (world st).
Proof.
  unfold ReadFdFromClient. destruct (clients st !! c) as [cl|] eqn:Hcl; [|split; [apply kept_refl|done]].
  destruct (0 <? req_fds cl); [|split; [apply kept_refl|done]].
  pose proof (fun c' => recv_fd_todo c c' (world st)) as Hfd.
  destruct (trans_recv_fd c (world st)) as [fd w]. cbn in *.
  split; [|done]. unfold kept. cbn. split_and!; try done.
  - intros c' Hc'. by rewrite lookup_alter_ne.
  - intros cl1 Hcl1. rewrite lookup_alter_eq, Hcl1. by eexists.
Qed.
Lemma discard_fds_kept c st : kept c st (discard_fds st c) /\
  oscomm (discard_fds st c) = oscomm st /\ AvailableInput (discard_fds st c) = AvailableInput st /\
  forall c', todo c' (world (discard_fds st c)) = todo c' (world st).
Proof.
  unfold discard_fds. generalize (Z.to_nat (match clients st !! c with Some cl => req_fds cl | None => 0 end)).
  intros n. induction n as [|n (IH1 & IH2 & IH3 & IH4)]; cbn [Nat.iter nat_rect]; [split; [apply kept_refl|done]|].
  set (st1 := Nat.iter n _ st) in *. change (nat_rect _ _ _ n) with st1.
  destruct (ReadFd_kept c st1) as (H1 & H2 & H3 & H4). split_and!; try congruence.
  by eapply kept_trans.
Qed.

(** The state in which the server reads for client [c]. *)
Definition connected L st c cl : Prop :=
  io_ok L st /\ clients st !! c = Some cl /\ exists oc, oscomm st !! c = Some oc /\ trans_conn oc = true.

Lemma kept_io_ok L c st st' s' oci' :
  io_ok L st -> kept c st st' -> oscomm st' !! c ≫= input = Some oci' -> unread L oci' s' ->
  AvailableInput st' = None \/ AvailableInput st' = Some c /\ s' = [] -> io_ok L st'.
Proof.
  intros [HL Hm Hf Ha] (K1 & K2 & K3 & _) Hi Hu Hav. split; try done.
  - by rewrite K2.
  - by rewrite K1.
  - intros a Hae. destruct Hav as [E|[E ->]]; [congruence|].
    assert (a = c) as -> by congruence. by exists oci'.
Qed.

Lemma need_more_spec L st c oc cl oci f s rest u big n nh mv :
  BUFSIZE <= L <= MAXINT -> Z.shiftl (maxBigRequestSize st) 2 = L -> AvailableInput st = None ->
  oscomm st !! c = Some oc -> trans_conn oc = true -> clients st !! c = Some cl ->
  request_ok cl L f u big -> plan cl s u big n nh mv -> holds L oci s -> ignoreBytes oci = 0 ->
  Z.of_nat (length s) < n -> s ++ todo c (world st) = f ++ rest ->
  exists r st', need_more always st c oci (Z.of_nat (length s)) n nh mv = Ret (r, st') /\
    read_post L st c f rest u big r st'.
Proof.
  intros HL Hm Ha Hoc Htc Hcl Hok Hp Hh Hi Hlt Hs.
  destruct (plan_needs _ _ _ _ _ _ _ _ _ _ _ Hok Hp Hs Hlt) as [Hn _].
  pose proof Hok as (_ & _ & HfL & _).
  unfold need_more. rewrite Hm, Z.gtb_ltb. destruct (Z.ltb_spec L n); [lia|].
  destruct (make_place_spec L (oci <| lenLastReq := 0 |>) s n) as (oci' & Hmk & Hh' & Hfit & Hl' & Hi'); [lia|done|lia|].
  cbv zeta. rewrite Hmk. cbn [obind negb].
  apply (read_more_spec L st c oc cl); try done. by rewrite Hi'.
Qed.

(** From the start of the next request on. *)
Lemma next_request_spec L st c oc cl oci f s rest u big :
  BUFSIZE <= L <= MAXINT -> Z.shiftl (maxBigRequestSize st) 2 = L -> AvailableInput st = None ->
  oscomm st !! c = Some oc -> trans_conn oc = true -> clients st !! c = Some cl ->
  request_ok cl L f u big -> holds L oci s -> ignoreBytes oci = 0 ->
  s ++ todo c (world st) = f ++ rest ->
  exists r st', next_request always st c oci (Z.of_nat (length s)) = Ret (r, st') /\
    read_post L st c f rest u big r st'.
Proof.
  intros HL Hm Ha Hoc Htc Hcl Hok Hh Hi Hs. unfold next_request. change sizeof_xReq with 4.
  destruct (Z.ltb_spec (Z.of_nat (length s)) 4).
  { eapply need_more_spec; try done. constructor. lia. }
  rewrite Hcl. cbn [obind_opt]. rewrite (look_header_holds L cl oci _ _ _ _ _ _ Hh Hs Hok) by lia.
  change (Z.shiftr MAXINT 2) with 536870911. pose proof Hok as (_ & Hf & HfL & Hu). unfold MAXINT in HL.
  assert (Hk : forall units, kept c st (on_client st c (fun cl => cl <| req_len := units |>))).
  { intros units. by apply kept_on_client. }
  assert (Hpost : forall units r st',
    read_post L (on_client st c (fun cl => cl <| req_len := units |>)) c f rest u big r st' ->
    read_post L st c f rest u big r st').
  { intros units r st' (oc' & oci' & s' & ? & ? & ? & ? & Hk' & ? & ?). exists oc', oci', s'.
    split_and!; try done. by eapply kept_trans. }
  assert (Hcl' : forall units, clients (on_client st c (fun cl => cl <| req_len := units |>)) !! c =
    Some (cl <| req_len := units |>)).
  { intros units. cbn. by rewrite lookup_alter_eq, Hcl. }
  destruct (big && (Z.of_nat (length s) <? 8)) eqn:E; cbn [obind]; rewrite Z.gtb_ltb.
  - breflect. change (536870911 <? 2) with false. change (u32 (Z.shiftl 2 2)) with 8. cbv iota zeta.
    destruct (Z.ltb_spec (Z.of_nat (length s)) 8); [|lia].
    destruct (need_more_spec L (on_client st c (fun cl => cl <| req_len := 2 |>)) c oc (cl <| req_len := 2 |>)
      oci f s rest u big 8 true true) as (r & st' & Heq & Hpo);
      try done; [constructor; [done|lia]|].
    rewrite Heq. eauto.
  - destruct (Z.ltb_spec 536870911 u); [lia|].
    replace (u32 (Z.shiftl u 2)) with (4 * u) by (rewrite Z.shiftl_mul_pow2, u32_small; lia). cbv zeta.
    destruct (Z.ltb_spec (Z.of_nat (length s)) (4 * u)).
    + destruct (need_more_spec L (on_client st c (fun cl => cl <| req_len := u |>)) c oc (cl <| req_len := u |>)
        oci f s rest u big (4 * u) false big) as (r & st' & Heq & Hpo);
        try done; [constructor; [lia|done]|].
      rewrite Heq. eauto.
    + destruct (complete_or_not _ _ _ _ Hs ltac:(lia)) as (s' & -> & Hs2).
      destruct (finish_post L st (on_client st c (fun cl => cl <| req_len := u |>)) c oc (cl <| req_len := u |>)
        oci f s' rest u big) as (st' & Heq & Hpo); try done; [unfold MAXINT; lia|].
      rewrite Heq. eauto.
Qed.

(** One call of [ReadRequestFromClient] on a client that is in the middle
    of sending the request [f]: either it returns the length of exactly this
    request, which the client's request buffer then holds without the length
    field of a big request, and the bytes that follow it stay in the stream; or
    it returns 0, no byte is lost and bytes were taken from the transport.  The
    requests other clients have pending, also those whose buffers are reused,
    are not touched, and the shared buffers stay in order. *)
Lemma read_request L st c cl f rest u big s :
  connected L st c cl -> request_ok cl L f u big -> pending L st c s ->
  s ++ todo c (world st) = f ++ rest ->
  exists r st' cl' s', ReadRequestFromClient always st c = Ret (r, st') /\
    connected L st' c cl' /\ same_client cl cl' /\ pending L st' c s' /\
    (r = Z.of_nat (length f) /\ current_request st' c = Some (delivered big f) /\
     serving L st' c (delivered big f) s' /\ s' ++ todo c (world st') = rest /\
       (length (todo c (world st')) <= length (todo c (world st)))%nat \/
     r = 0 /\ s' ++ todo c (world st') = f ++ rest /\
       (length (todo c (world st')) < length (todo c (world st)))%nat) /\
    forall c' t, c' <> c -> pending L st c' t ->
      pending L st' c' t /\ todo c' (world st') = todo c' (world st).
Proof.
  intros (Hok & Hcl & oc & Hoc & Htc) Hreq Hp Hs. pose proof (ok_limit _ _ Hok) as HL.
  unfold ReadRequestFromClient. rewrite Hoc. cbn [obind_opt].
  destruct (NextAvailableInput_spec L st c oc Hok Hoc) as (st1 & -> & Hok1 & Ha1 & Hoc1 & Ec1 & Ew1 & Hpend1).
  cbn [obind].
  destruct (get_input_spec L st1 c oc s Hok1 Hoc1) as (oci & st2 & -> & Hun & Hok2 & Eo2 & Ec2 & Ew2 & Ea2).
  { unfold pending in *. by rewrite Hoc1, <- Hoc. }
  set (st3 := set_input st2 c (Some oci)).
  destruct (discard_fds_kept c st3) as (Hk & Eo4 & Ea4 & Et4). set (st4 := discard_fds st3 c) in *.
  assert (Hk4 : kept c st2 st4) by (eapply kept_trans; [apply kept_set_input|done]).
  assert (Hoc4 : oscomm st4 !! c = Some (oc <| input := Some oci |>)).
  { rewrite Eo4. subst st3. cbn. by rewrite lookup_alter_eq, Eo2, Hoc1. }
  pose proof Hk4 as (K1 & K2 & K3 & K4 & K5). destruct (K5 cl) as (cl4 & Hcl4 & Hsame4).
  { by rewrite Ec2, Ec1. }
  assert (Et : todo c (world st4) = todo c (world st)).
  { rewrite Et4. subst st3. cbn. by rewrite Ew2, Ew1. }
  destruct Hun as [Hi Hh].
  destruct (holds_gotnow L _ s ltac:(lia) Hh) as [-> _].
  change (ignoreBytes (oci <| bufptr ::= _ |>)) with (ignoreBytes oci). rewrite Hi. cbn [Z.ltb Z.compare].
  destruct (next_request_spec L st4 c _ cl4 _ f s rest u big HL ltac:(rewrite K2; apply Hok2)
    ltac:(rewrite Ea4; cbn; congruence) Hoc4 Htc Hcl4 ltac:(by eapply request_ok_same) Hh Hi
    ltac:(by rewrite Et)) as (r & st' & -> & oc' & oci' & s' & H1 & H2 & H3 & H4 & H5 & H6 & H7).
  pose proof (kept_trans _ _ _ _ Hk4 H5) as Hk5. pose proof Hk5 as (_ & _ & Q3 & Q4 & _).
  destruct H5 as (_ & _ & _ & _ & Q5). destruct (Q5 cl4 Hcl4) as (cl' & Hcl' & Hsame').
  assert (Hin : oscomm st' !! c ≫= input = Some oci') by by rewrite H1.
  destruct Hreq as (_ & Hlen & _). rewrite Et in H7.
  exists r, st', cl', s'. split; [done|]. split_and!.
  - split_and!; [|done|by eexists]. by apply (kept_io_ok L c st2 st' s' oci').
  - by eapply same_client_trans.
  - unfold pending. by rewrite Hin.
  - destruct H7 as [(-> & Hsv & ? & ?)|?]; [left|by right].
    split_and!; try done. by eapply serving_current.
  - intros c' t Hc' Hpc'. destruct (Q3 c' Hc') as [Hoc' _]. split.
    + unfold pending. rewrite Hoc', Eo2. by apply Hpend1.
    + by rewrite Q4, Ew2, Ew1.
Qed.


(** ** All the requests of a client *)

(** The requests that [n] calls return; a negative result ends the connection. *)
Fixpoint serve (n : nat) st c : outcome (list (list Z) * io_state W) :=
  match n with
  | O => Ret ([], st)
  | S n =>
      '(r, st) <-- ReadRequestFromClient always st c;
      if r <? 0 then Ret ([], st)
      else if r =? 0 then serve n st c
      else
        req <-? current_request st c;
        '(l, st) <-- serve n st c;
        Ret (req :: l, st)
  end.

(** A sequence of requests and what their handlers see. *)
Inductive conversation L cl : list Z -> list (list Z) -> Prop :=
  | conv_nil : conversation L cl [] []
  | conv_cons f u big rest l :
      request_ok cl L f u big -> conversation L cl rest l ->
      conversation L cl (f ++ rest) (delivered big f :: l).

Lemma conversation_same L cl cl' t l : same_client cl cl' -> conversation L cl t l -> conversation L cl' t l.
Proof. intros Hs. induction 1; econstructor; [by eapply request_ok_same|done]. Qed.

(** C18: Whatever pieces the transport delivers them in, the requests a client
    sends are all returned, complete, unchanged and in order, after a number of
    calls bounded by the number of requests and bytes; nothing is left over. *)
Theorem ReadRequestFromClient_delivers L st c cl s reqs :
  connected L st c cl -> pending L st c s -> conversation L cl (s ++ todo c (world st)) reqs ->
  exists n st', (n <= length reqs + length (todo c (world st)))%nat /\
    serve n st c = Ret (reqs, st') /\ pending L st' c [] /\ todo c (world st') = [].
Proof.
  intros Hc Hp Hconv.
  remember (length reqs + length (todo c (world st)))%nat as k eqn:Hk.
  assert (Hle : (length reqs + length (todo c (world st)) <= k)%nat) by lia. clear Hk.
  revert st cl s reqs Hc Hp Hconv Hle. induction k as [|k IH]; intros st cl s reqs Hc Hp Hconv Hle;
    inversion Hconv as [Hnil|f u big rest l Hf Hrest Heq]; subst.
  1,3: symmetry in Hnil; apply app_eq_nil in Hnil as [-> Htodo]; exists O, st; by split_and!; [lia|..].
  - cbn in Hle. lia.
  - cbn [length] in Hle.
    destruct (read_request L st c cl f rest u big s Hc Hf Hp (eq_sym Heq))
      as (r & st' & cl' & s' & Hr & Hc' & Hsame & Hp' & Hcase & _).
    pose proof Hf as (_ & Hfl & _ & Hu).
    destruct Hcase as [(-> & Hreq & _ & Hs' & Hdec)|(-> & Hs' & Hdec)].
    + destruct (IH st' cl' s' l Hc' Hp') as (n & st'' & Hn & Hserve & Hend); [|lia|].
      { rewrite Hs'. by eapply conversation_same. }
      exists (S n), st''. split; [cbn; lia|]. split; [|done]. cbn. rewrite Hr. cbn [obind].
      assert (0 < u) by (destruct big; lia).
      destruct (Z.ltb_spec (Z.of_nat (length f)) 0), (Z.eqb_spec (Z.of_nat (length f)) 0); try lia.
      rewrite Hreq. cbn. by rewrite Hserve.
    + destruct (IH st' cl' s' (delivered big f :: l) Hc' Hp') as (n & st'' & Hn & Hserve & Hend).
      { rewrite Hs'. apply (conversation_same L cl); [done|]. by econstructor. }
      { cbn. lia. }
      exists (S n), st''. split; [lia|]. split; [|done]. cbn. by rewrite Hr.
Qed.

(** ** Putting requests back *)

(** [InsertFakeRequest] puts its data in front of what the client has
    pending, whether or not the buffer must be grown or its data moved, and
    other clients keep what they have. *)
Theorem InsertFakeRequest_prepends L st c cl data s :
  connected L st c cl -> pending L st c s -> bytes data -> data <> [] ->
  Z.of_nat (length data) + Z.of_nat (length s) <= L ->
  exists st', InsertFakeRequest always st c data (Z.of_nat (length data)) = Ret (true, st') /\
    io_ok L st' /\ pending L st' c (data ++ s) /\ world st' = world st /\
    forall c' t, c' <> c -> pending L st c' t -> pending L st' c' t.
Proof.
  intros (Hok & Hcl & oc & Hoc & _) Hp Hd Hne Hle. unfold InsertFakeRequest. rewrite Hoc. cbn [obind_opt].
  destruct (NextAvailableInput_spec L st c oc Hok Hoc) as (st1 & -> & Hok1 & Ha1 & Hoc1 & Ec1 & Ew1 & Hpend1).
  cbn [obind].
  destruct (get_input_spec L st1 c oc s Hok1 Hoc1) as (oci & st2 & -> & Hun & Hok2 & Eo2 & Ec2 & Ew2 & Ea2).
  { unfold pending in *. by rewrite Hoc1, <- Hoc. }
  destruct Hun as [Hi Hh].
  destruct (insert_data_spec L (oci <| bufptr ::= fun p => p + lenLastReq oci |> <| lenLastReq := 0 |>) data s)
    as (oci' & Hins & Hh' & Hl' & Hi'); try done.
  cbv zeta. rewrite Hins. cbn [obind negb].
  set (st3 := set_input st2 c (Some oci')).
  assert (Hcl3 : clients st3 !! c = Some cl) by (cbn; by rewrite Ec2, Ec1).
  rewrite Hcl3. cbn [obind_opt].
  assert (Hin3 : oscomm st3 !! c ≫= input = Some oci').
  { cbn. by rewrite lookup_alter_eq, Eo2, Hoc1. }
  assert (Hfin : forall st', oscomm st' = oscomm st3 -> AvailableInput st' = AvailableInput st3 ->
    FreeInputs st' = FreeInputs st3 -> maxBigRequestSize st' = maxBigRequestSize st3 -> world st' = world st3 ->
    io_ok L st' /\ pending L st' c (data ++ s) /\ world st' = world st /\
    forall c' t, c' <> c -> pending L st c' t -> pending L st' c' t).
  { intros st' F1 F2 F3 F4 F5. destruct Hok2 as [G1 G2 G3 G4]. split_and!.
    - split; [done|by rewrite F4|by rewrite F3|]. intros a. rewrite F2. cbn. by rewrite Ea2, Ha1.
    - unfold pending. rewrite F1, Hin3. by apply holds_current.
    - rewrite F5. cbn. by rewrite Ew2, Ew1.
    - intros c' t Hc' Hpt. specialize (Hpend1 c' t Hc' Hpt). unfold pending in *. rewrite F1. cbn.
      by rewrite lookup_alter_ne, Eo2. }
  assert (Hyield : forall st', oscomm (YieldControlNoInput st' c) = oscomm st' /\
    AvailableInput (YieldControlNoInput st' c) = AvailableInput st' /\
    FreeInputs (YieldControlNoInput st' c) = FreeInputs st' /\
    maxBigRequestSize (YieldControlNoInput st' c) = maxBigRequestSize st' /\
    world (YieldControlNoInput st' c) = world st').
  { intros st'. unfold YieldControlNoInput. cbn.
    destruct (oscomm st' !! c) as [oc'|]; [destruct (trans_conn oc')|]; done. }
  destruct (Hyield st3) as (Y1 & Y2 & Y3 & Y4 & Y5).
  destruct (holds_gotnow L oci' (data ++ s)) as [_ Hlen]; [apply Hok|done|].
  assert (Hg : bufcnt oci' - bufptr oci' = Z.of_nat (length (data ++ s))).
  { destruct Hh' as (pre & post & _ & Hp' & Hc' & _). lia. }
  rewrite Hg, Z.geb_leb. change sizeof_xReq with 4.
  destruct (Z.leb_spec 4 (Z.of_nat (length (data ++ s)))).
  - rewrite (get_req_len_holds L cl oci' (data ++ s)) by (done || lia).
    destruct (read16_some (data ++ s) 2) as [v ->]; [lia|]. cbn.
    eexists. split; [reflexivity|]. rewrite Z.geb_leb.
    destruct (Z.shiftl _ 2 <=? _); [|by apply Hfin].
    unfold mark_client_ready. destruct (_ || _); by apply Hfin.
  - eexists. split; [reflexivity|]. by apply Hfin.
Qed.

Lemma bytes_le32 x : bytes (le32 x).
Proof. unfold le32, bytes. repeat constructor; Z.div_mod_to_equations; lia. Qed.

(** Writing the header of a big request again, in front of what is left of it. *)
Lemma put_header_spec L oci (h p l : list Z) :
  length h = 4%nat -> length l = 4%nat -> bytes l -> holds L oci (h ++ p) -> 4 <= bufptr oci ->
  exists b, mem_move (buffer oci) (bufptr oci - 4) (bufptr oci) sizeof_xReq = Some b /\
    holds L (oci <| bufptr ::= fun p => p - 4 |> <| buffer := blit b (Z.to_nat (bufptr oci)) (known l) |>)
      (h ++ l ++ p).
Proof.
  intros Hh Hl Hbl (pre & post & Hb & Hp & Hc & Hs & Hr & Hby) H4.
  assert (Hpre : exists p1 p2, pre = p1 ++ p2 /\ length p2 = 4%nat).
  { exists (take (length pre - 4) pre), (drop (length pre - 4) pre).
    rewrite take_drop, length_drop. split; [done|lia]. }
  destruct Hpre as (p1 & p2 & -> & Hp2). rewrite !length_app in *.
  assert (Hlen : length (buffer oci) = (length p1 + length p2 + (length h + length p + length post))%nat).
  { by rewrite Hb, !length_app, length_known, length_app. }
  apply Forall_app in Hby as [Hby1 Hby2].
  eexists. split.
  - apply (mem_move_mid _ p1 p2 (known h ++ known p ++ post)); unfold sizeof_xReq.
    + by rewrite Hb, known_app, <- !app_assoc.
    + lia.
    + by rewrite Hp2.
    + lia.
    + lia.
    + lia.
  - assert (Ht : take (Z.to_nat sizeof_xReq) (drop (Z.to_nat (bufptr oci)) (buffer oci)) = known h).
    { rewrite Hp, Nat2Z.id, Hb, drop_app_length' by (rewrite length_app; lia).
      rewrite known_app, <- app_assoc. apply take_app_length'. by rewrite length_known. }
    rewrite Ht. exists p1, post.
    assert (E : blit (p1 ++ known h ++ known h ++ known p ++ post) (Z.to_nat (bufptr oci)) (known l) =
                p1 ++ known (h ++ l ++ p) ++ post).
    { rewrite (app_assoc p1).
      replace (Z.to_nat (bufptr oci)) with (length (p1 ++ known h)) by (rewrite length_app, length_known; lia).
      rewrite blit_mid by (rewrite !length_known; lia). by rewrite !known_app, <- !app_assoc. }
    cbn. rewrite E, !length_app, !length_known, !length_app. split_and!; try done; try lia.
    apply Forall_app. split; [done|]. by apply Forall_app.
Qed.

(** Fields [ResetCurrentRequest] changes at its end. *)
Lemma reset_done L st st' c oci s :
  io_ok L st -> AvailableInput st' <> Some c -> (AvailableInput st' = None \/ AvailableInput st' = AvailableInput st) ->
  oscomm st' = alter (fun oc => oc <| input := Some oci |>) c (oscomm st) -> is_Some (oscomm st !! c) ->
  FreeInputs st' = FreeInputs st -> maxBigRequestSize st' = maxBigRequestSize st -> unread L oci s ->
  io_ok L st' /\ pending L st' c s.
Proof.
  intros [HL Hm Hf Ha] Hne Hav Eo [oc Hoc] Ef Em Hu. split.
  - split; [done|by rewrite Em|by rewrite Ef|]. intros a Ea. rewrite Eo.
    destruct (decide (c = a)) as [->|Hca]; [done|]. rewrite lookup_alter_ne by done. apply Ha.
    destruct Hav; congruence.
  - unfold pending. rewrite Eo, lookup_alter_eq, Hoc. done.
Qed.

(** What was delivered of a request has the length that is left, and its first
    word is the request's. *)
Lemma delivered_length L cl f u big : request_ok cl L f u big ->
  (4 <= length (delivered big f))%nat /\ Z.of_nat (length (delivered big f)) = 4 * (if big then u - 1 else u).
Proof.
  intros Hreq. destruct (request_length _ _ _ _ _ Hreq) as [Hf4 Hf8]. destruct Hreq as (_ & Hf & _ & Hu).
  destruct big; cbn; [|lia]. specialize (Hf8 eq_refl). rewrite length_app, length_take, length_drop. lia.
Qed.

Lemma delivered_read16 L cl f u big s : request_ok cl L f u big ->
  read16 (known (delivered big f ++ s)) 2 = read16 (known f) 2.
Proof.
  intros Hreq. destruct (request_length _ _ _ _ _ Hreq) as [Hf4 Hf8].
  destruct (delivered_length _ _ _ _ _ Hreq) as [Hd4 _].
  rewrite read16_prefix by lia. destruct big; [|done]. cbn.
  rewrite <- (take_drop 4 f) at 3. rewrite !read16_prefix; (done || (rewrite length_take; lia)).
Qed.

(** A request that cannot be handled yet is put back unchanged by
    [ResetCurrentRequest], in front of the bytes that follow it; but a big
    request comes back with a length field that is one unit too small, so that
    its last four bytes are taken for the start of the next request. *)
Theorem ResetCurrentRequest_restores L st c cl f u big s :
  io_ok L st -> clients st !! c = Some cl -> request_ok cl L f u big ->
  serving L st c (delivered big f) s ->
  exists st', ResetCurrentRequest st c = Ret st' /\ io_ok L st' /\
    pending L st' c
      (if big then take 4 f ++ le32 (swapl (cl_swapped cl) (u - 1)) ++ drop 8 f ++ s else f ++ s).
Proof.
  intros Hok Hcl Hreq (oci & cl' & Hin & Hcl' & Hh & Hll & Hi & Hrb & Hrl & Hbig).
  assert (cl' = cl) as -> by congruence.
  destruct (oscomm st !! c) as [oc|] eqn:Hoc; [|done]. cbn in Hin.
  destruct (request_length _ _ _ _ _ Hreq) as [Hf4 Hf8]. pose proof Hreq as (Hhd & Hf & HfL & Hu).
  destruct (delivered_length _ _ _ _ _ Hreq) as [Hd4 Hdl]. pose proof (delivered_read16 _ _ _ _ _ s Hreq) as Hrd.
  unfold ResetCurrentRequest. rewrite Hoc, Hin. cbn [obind_opt]. rewrite Hcl. cbn [obind_opt].
  set (st1 := if bool_decide _ then _ else st).
  assert (Hst1 : AvailableInput st1 <> Some c /\ (AvailableInput st1 = None \/ AvailableInput st1 = AvailableInput st) /\
    oscomm st1 = oscomm st /\ FreeInputs st1 = FreeInputs st /\ maxBigRequestSize st1 = maxBigRequestSize st).
  { subst st1. case_bool_decide; split_and!; try done; (by left) || (by right). }
  destruct Hst1 as (Q1 & Q2 & Q3 & Q4 & Q5). clearbody st1.
  assert (Hg : bufcnt oci - bufptr oci = Z.of_nat (length (delivered big f ++ s))).
  { destruct Hh as (pre & post & _ & Hp & Hc & _). lia. }
  assert (Hlen : (4 <= length (delivered big f ++ s))%nat) by (rewrite length_app; lia).
  cbv zeta. cbn [bufcnt bufptr set_field eta_of eta_ci]. rewrite Hg. change sizeof_xReq with 4.
  destruct (Z.ltb_spec (Z.of_nat (length (delivered big f ++ s))) 4); [lia|].
  rewrite (get_req_len_holds L cl _ (delivered big f ++ s)) by done.
  rewrite Hrd. unfold header in Hhd.
  destruct (swaps (cl_swapped cl) <$> read16 (known f) 2) as [n|] eqn:En; [|done]. cbn [mbind option_bind] in Hhd.
  cbn [obind_opt].
  assert (Hout : forall oci' t gotnow, unread L oci' t ->
    exists st', Ret (if gotnow >=? Z.shiftl n 2
                then YieldControl (if listen_to_client (set_input st1 c (Some oci')) c oc
                                   then mark_client_ready (set_input st1 c (Some oci')) c
                                   else set_input st1 c (Some oci'))
                else YieldControlNoInput (set_input st1 c (Some oci')) c) = Ret st' /\
      io_ok L st' /\ pending L st' c t).
  { intros oci' t gotnow Hu'. eexists. split; [reflexivity|].
    apply (reset_done L st _ c oci'); try done; unfold YieldControlNoInput, mark_client_ready;
      repeat first [case_match | case_bool]; cbn; try done; try (by rewrite Q3); by rewrite Hoc. }
  destruct ((n =? 0) && big_requests cl) eqn:Eb.
  - destruct (swapl _ <$> _) as [v|] eqn:Ev; [|done]. cbn in Hhd. injection Hhd as -> <-.
    breflect. subst n. cbn [delivered] in *.
    assert (H4 : 4 <= bufptr oci).
    { apply Hbig. split; [|done]. rewrite <- En. f_equal. rewrite <- Hrd. symmetry. apply read16_prefix; lia. }
    rewrite <- app_assoc in Hh.
    destruct (put_header_spec L (oci <| lenLastReq := 0 |>) (take 4 f) (drop 8 f ++ s)
      (le32 (swapl (cl_swapped cl) (u - 1)))) as (b & Hm & Hh'); try done.
    { rewrite length_take. lia. } { apply bytes_le32. }
    change sizeof_xReq with 4 in Hm. cbn [buffer bufptr set_field eta_of eta_ci] in Hm, Hh' |- *. rewrite Hm. cbn [mbind option_bind obind_opt].
    unfold word32. replace (req_len cl) with (u - 1) by lia.
    apply Hout. by apply holds_current.
  - injection Hhd as -> <-. cbn [obind_opt]. apply Hout. by apply holds_current.
Qed.

(** ** A request of impossible length *)

(** A header that announces more than [MAXINT] bytes is answered with
    [-BadLength], but it is not consumed: the current position advances by the
    length of the previous request now and once more at the next call.  When
    the previous request was longer than what had arrived, the next position
    lies behind the data, where no pending input is left to account for it, and
    old bytes of the buffer are taken for requests. *)
Theorem ReadRequestFromClient_BadLength L st c cl oci s u :
  connected L st c cl -> oscomm st !! c ≫= input = Some oci -> unread L oci s ->
  (8 <= length s)%nat -> header cl s = Some (u, true) -> MAXINT / 4 < u ->
  exists st' oci', ReadRequestFromClient always st c = Ret (- BadLength, st') /\
    oscomm st' !! c ≫= input = Some oci' /\
    bufptr oci' = bufptr oci + lenLastReq oci /\ lenLastReq oci' = lenLastReq oci /\
    (Z.of_nat (length s) < lenLastReq oci -> forall t, ~ pending L st' c t).
Proof.
  intros (Hok & Hcl & oc & Hoc & _) Hin Hun Hl8 Hhd Hu. pose proof (ok_limit _ _ Hok) as HL.
  unfold ReadRequestFromClient. rewrite Hoc. cbn [obind_opt].
  destruct (NextAvailableInput_spec L st c oc Hok Hoc) as (st1 & -> & Hok1 & Ha1 & Hoc1 & Ec1 & Ew1 & _).
  cbn [obind]. rewrite Hoc in Hin. cbn in Hin. rewrite Hin. cbn [get_input].
  set (st3 := set_input st1 c (Some oci)).
  destruct (discard_fds_kept c st3) as (Hk & Eo4 & _ & _). set (st4 := discard_fds st3 c) in *.
  destruct Hk as (_ & _ & _ & _ & K5). destruct (K5 cl) as (cl4 & Hcl4 & Hsame4); [cbn; by rewrite Ec1|].
  destruct Hun as [Hi Hh]. cbv zeta. set (o := oci <| bufptr ::= _ |>) in *.
  destruct (holds_gotnow L o s ltac:(lia) Hh) as [-> _].
  change (ignoreBytes o) with (ignoreBytes oci). rewrite Hi. cbn [Z.ltb Z.compare].
  unfold next_request. change sizeof_xReq with 4.
  destruct (Z.ltb_spec (Z.of_nat (length s)) 4); [lia|]. rewrite Hcl4. cbn [obind_opt].
  assert (Hlook : look_header cl4 o (Z.of_nat (length s)) = Ret (u, true, false)).
  { unfold look_header. rewrite (get_req_len_holds L cl4 o s) by (done || lia).
    destruct Hsame4 as [Hsw Hbr]. unfold header in Hhd. rewrite <- Hsw, <- Hbr in Hhd.
    destruct (swaps _ <$> read16 (known s) 2) as [n|]; [|done]. cbn in Hhd |- *.
    destruct ((n =? 0) && big_requests cl4); [|done].
    change sizeof_xBigReq with 8. destruct (Z.ltb_spec (Z.of_nat (length s)) 8); [lia|].
    rewrite (get_big_req_len_holds L cl4 o s) by done.
    destruct (swapl _ <$> read32 (known s) 4) as [v|]; [|done]. cbn in Hhd |- *. by injection Hhd as <-. }
  rewrite Hlook. cbn [obind]. change (Z.shiftr MAXINT 2) with (MAXINT / 4). rewrite Z.gtb_ltb.
  destruct (Z.ltb_spec (MAXINT / 4) u); [|lia].
  assert (Hin' : oscomm (set_input (on_client st4 c (fun cl => cl <| req_len := u |>)) c (Some o)) !! c
                 ≫= input = Some o).
  { cbn. rewrite lookup_alter_eq, Eo4. cbn. by rewrite lookup_alter_eq, Hoc1. }
  eexists _, o. split; [reflexivity|]. split_and!; try done.
  intros Hlt t. unfold pending. rewrite Hin'. intros [_ (pre & post & _ & Hp & Hc & _)].
  destruct Hh as (pre' & post' & _ & Hp' & Hc' & _). cbn in *. lia.
Qed.
End Reading.

(** ** Concrete clients *)

(** A transport that delivers at most five bytes at a time. *)
Definition slow_todo (c : Z) (w : gmap Z (list Z)) : list Z := u8 <$> default [] (w !! c).
#[export] Instance slow_transport : Transport (gmap Z (list Z)) := {|
  trans_read c max w :=
    match slow_todo c w with
    | [] => (RdError true, w)
    | l => let n := Z.to_nat (Z.min max 5) in (RdBytes (take n l), <[c := drop n l]> w)
    end;
  trans_write c l w := (WrOk (Z.of_nat (length l)), w);
  trans_recv_fd c w := (-1, w);
  trans_close c w := delete c w
|}.

Lemma u8_u8_list (l : list Z) : u8 <$> (u8 <$> l) = u8 <$> l.
Proof. rewrite <- list_fmap_compose. apply list_fmap_ext. intros i x _. cbn. apply Zmod_mod. Qed.
#[export] Instance slow_stream : InputStream (gmap Z (list Z)) slow_todo.
Proof.
  split.
  - intros c max w Hmax Hne. cbn. destruct (slow_todo c w) as [|b l] eqn:E; [done|].
    eexists _, _. split; [reflexivity|]. destruct (Z.to_nat (Z.min max 5)) as [|n] eqn:Hn; [lia|]. split_and!; [done|rewrite length_take; lia| |].
    + assert (Hb : slow_todo c (<[c := drop (S n) (b :: l)]> w) = drop (S n) (b :: l)).
      { unfold slow_todo at 1. rewrite lookup_insert_eq. cbn [default from_option id].
        rewrite <- E at 1 2. unfold slow_todo. rewrite <- fmap_drop. apply u8_u8_list. }
      rewrite Hb, take_drop. done.
    + intros c' Hc'. unfold slow_todo. by rewrite lookup_insert_ne.
  - done.
  - intros c w. unfold slow_todo, bytes. apply Forall_fmap, Forall_true. intros x. unfold u8.
    apply Z.mod_pos_bound. lia.
Qed.

Definition example_client : ClientRec := MkClient false true false false true true 0 0 0 0.
Definition example_state (i : option ConnectionInput) (cl : ClientRec) (sent : list Z)
  : io_state (gmap Z (list Z)) :=
  MkIO {[1 := MkOC i None true 0]} {[1 := cl]} [] [] None false false false 0 [] [] [] 0
    false false 4194303 [] {[1 := sent]}.
Definition LIMIT : Z := 16777212.

Lemma example_connected i cl sent : connected LIMIT (example_state i cl sent) 1 cl.
Proof. split_and!; [split; done|done|by eexists]. Qed.

(** An ordinary request of two units and a big one of three. *)
Definition example_request : list Z := [98; 0; 2; 0; 1; 2; 3; 4].
Definition example_big : list Z := [99; 0; 0; 0; 3; 0; 0; 0; 9; 9; 9; 9].
Lemma example_ok cl' : same_client example_client cl' ->
  request_ok cl' LIMIT example_request 2 false /\ request_ok cl' LIMIT example_big 3 true.
Proof.
  intros Hs. split; (eapply request_ok_same; [exact Hs|]); vm_compute; split_and!; done.
Qed.

Lemma ReadRequestFromClient_delivers_witness :
  conversation LIMIT example_client (example_request ++ example_big ++ [])
    [example_request; [99; 0; 0; 0; 9; 9; 9; 9]] /\
  exists n st', serve n (example_state None example_client (example_request ++ example_big)) 1 =
    Ret ([example_request; [99; 0; 0; 0; 9; 9; 9; 9]], st').
Proof.
  destruct (example_ok example_client (same_client_refl _)) as [H1 H2].
  assert (Hc : conversation LIMIT example_client (example_request ++ example_big ++ [])
    [example_request; [99; 0; 0; 0; 9; 9; 9; 9]]).
  { apply (conv_cons _ _ _ _ _ _ _ H1), (conv_cons _ _ _ _ _ _ _ H2), conv_nil. }
  split; [exact Hc|].
  destruct (ReadRequestFromClient_delivers slow_todo LIMIT
    (example_state None example_client (example_request ++ example_big)) 1 example_client []
    [example_request; [99; 0; 0; 0; 9; 9; 9; 9]]) as (n & st' & _ & Hs & _).
  - apply example_connected.
  - done.
  - exact Hc.
  - exists n, st'. exact Hs.
Defined.

(** A buffer in which [before] was handled and [s] is pending or being handled. *)
Definition example_input (before s : list Z) (last : Z) : ConnectionInput :=
  MkCI (known (before ++ s) ++ replicate (Z.to_nat (BUFSIZE - Z.of_nat (length (before ++ s)))) (Some 0))
    (Z.of_nat (length before)) (Z.of_nat (length (before ++ s))) last BUFSIZE 0.
Lemma example_holds before s last :
  bytes s -> Z.of_nat (length (before ++ s)) <= BUFSIZE -> holds LIMIT (example_input before s last) s.
Proof.
  intros Hb Hl. exists (known before), (replicate (Z.to_nat (BUFSIZE - Z.of_nat (length (before ++ s)))) (Some 0)).
  unfold example_input. cbn [buffer bufptr bufcnt ci_size].
  unfold BUFSIZE, LIMIT in *. split_and!; try done; try lia.
  - by rewrite known_app, <- app_assoc.
  - by rewrite length_known.
  - rewrite length_known, length_app. lia.
  - rewrite length_app, length_known, length_replicate. lia.
Qed.
Ltac bytes_tac := unfold bytes; repeat (apply Forall_cons; split; [lia|]); apply Forall_nil; done.

Lemma InsertFakeRequest_prepends_witness :
  exists st', InsertFakeRequest always
      (example_state (Some (example_input [] [7; 7] 0)) example_client []) 1 [1; 2; 3; 4] 4 = Ret (true, st') /\
    pending LIMIT st' 1 [1; 2; 3; 4; 7; 7].
Proof.
  destruct (InsertFakeRequest_prepends LIMIT (example_state (Some (example_input [] [7; 7] 0)) example_client [])
    1 example_client [1; 2; 3; 4] [7; 7]) as (st' & H1 & _ & H2 & _).
  - apply example_connected.
  - apply holds_current; [|done|done]. apply example_holds; [bytes_tac|done].
  - bytes_tac.
  - done.
  - done.
  - exists st'. split; [exact H1|exact H2].
Defined.

Lemma ResetCurrentRequest_restores_witness :
  exists st', ResetCurrentRequest
      (example_state (Some (example_input [99; 0; 0; 0] [99; 0; 0; 0; 9; 9; 9; 9; 5] 8))
         (example_client <| req_len := 2 |> <| requestBuffer := 4 |>) []) 1 = Ret st' /\
    pending LIMIT st' 1 [99; 0; 0; 0; 2; 0; 0; 0; 9; 9; 9; 9; 5].
Proof.
  destruct (ResetCurrentRequest_restores LIMIT
    (example_state (Some (example_input [99; 0; 0; 0] [99; 0; 0; 0; 9; 9; 9; 9; 5] 8))
       (example_client <| req_len := 2 |> <| requestBuffer := 4 |>) [])
    1 (example_client <| req_len := 2 |> <| requestBuffer := 4 |>) example_big 3 true [5])
    as (st' & H1 & _ & H2).
  - apply example_connected.
  - done.
  - apply (example_ok (example_client <| req_len := 2 |> <| requestBuffer := 4 |>)). done.
  - eexists _, _. split; [reflexivity|]. split; [reflexivity|]. split.
    + apply (example_holds [99; 0; 0; 0] [99; 0; 0; 0; 9; 9; 9; 9; 5]); [bytes_tac|done].
    + split_and!; done.
  - exists st'. split; [exact H1|exact H2].
Defined.

Lemma ReadRequestFromClient_BadLength_witness :
  exists st' oci', ReadRequestFromClient always
      (example_state (Some (example_input [] (example_request ++ [1; 0; 3; 0; 0; 0; 0; 0] ++ [99; 0; 0; 0; 0; 0; 0; 128]) 16))
         example_client []) 1 = Ret (- BadLength, st') /\
    oscomm st' !! 1 ≫= input = Some oci' /\ bufptr oci' = 16 /\ lenLastReq oci' = 16 /\
    forall t, ~ pending LIMIT st' 1 t.
Proof.
  set (oci := example_input [] (example_request ++ [1; 0; 3; 0; 0; 0; 0; 0] ++ [99; 0; 0; 0; 0; 0; 0; 128]) 16).
  destruct (ReadRequestFromClient_BadLength slow_todo LIMIT (example_state (Some oci) example_client [])
    1 example_client oci [99; 0; 0; 0; 0; 0; 0; 128] 2147483648) as (st' & oci' & H1 & H2 & H3 & H4 & H5).
  - apply example_connected.
  - done.
  - apply (holds_skip _ _ (example_request ++ [1; 0; 3; 0; 0; 0; 0; 0])); [|done|done].
    apply (example_holds []); [bytes_tac|done].
  - cbn. lia.
  - done.
  - done.
  - exists st', oci'. split; [exact H1|]. split; [exact H2|]. split; [exact H3|]. split; [exact H4|].
    apply H5. done.
Defined.
