(* ===== verification/ClientOutput.v ===== *)
(** * ClientOutput: properties of sending replies and events

    What a client receives, together with what is still in its output buffer,
    is the concatenation of everything written to it, padded to units. *)

From S2P Require Import Prelude.
From S2P Require Import Wire.
From S2P Require Import Request.
From S2P Require Import ClientIO.

(** [sent c w] is what the transport has taken for client [c].  A write takes
    at least one byte or fails; a message can only be too long when it has more
    than one byte; other connections do not interfere. *)
Class OutputStream W `{Transport W} (sent : Z -> W -> list cell) := {
  write_some c l w : l <> [] ->
    match trans_write c l w with
    | (WrOk n, w') => 0 < n <= Z.of_nat (length l) /\ sent c w' = sent c w ++ take (Z.to_nat n) l
    | (WrMsgSize, w') => 1 < Z.of_nat (length l) /\ sent c w' = sent c w
    | (_, w') => sent c w' = sent c w
    end;
  write_other c c' l w : c' <> c -> sent c' (trans_write c l w).2 = sent c' w;
  close_sent c c' w : sent c' (trans_close c w) = sent c' w
}.

(** The bytes in an output buffer. *)
Definition buffered (o : option ConnectionOutput) : list cell :=
  match o with Some oco => take (Z.to_nat (count oco)) (buf oco) | None => [] end.

Definition out_ok (oco : ConnectionOutput) : Prop :=
  Z.of_nat (length (buf oco)) = co_size oco /\ 0 <= count oco <= co_size oco /\ co_size oco <= MAXINT.

Lemma length_buffered oco : out_ok oco -> Z.of_nat (length (buffered (Some oco))) = count oco.
Proof. intros (Hl & Hc & _). cbn. rewrite length_take. lia. Qed.

(** Data and padding as they are sent. *)
Definition padded (data : list Z) : list cell :=
  Some <$> data ++ replicate (Z.to_nat (padding_for_int32 (Z.of_nat (length data)))) 0.

Lemma padding_range n : 0 <= padding_for_int32 n < 4.
Proof. unfold padding_for_int32. change 3 with (Z.ones 2). rewrite Z.land_ones by lia. apply Z.mod_pos_bound. lia. Qed.
Lemma length_padded data :
  Z.of_nat (length (padded data)) = Z.of_nat (length data) + padding_for_int32 (Z.of_nat (length data)).
Proof.
  unfold padded. pose proof (padding_range (Z.of_nat (length data))).
  rewrite length_fmap, length_app, length_replicate. lia.
Qed.

Lemma append_output_spec oco data :
  out_ok oco -> count oco + Z.of_nat (length (padded data)) <= co_size oco ->
  let oco' := append_output oco data (padding_for_int32 (Z.of_nat (length data))) in
  out_ok oco' /\ buffered (Some oco') = buffered (Some oco) ++ padded data /\
  count oco' = count oco + Z.of_nat (length (padded data)) /\ co_size oco' = co_size oco.
Proof.
  intros (Hl & Hc & Hm) Hfit. cbv zeta. unfold append_output, out_ok. cbn [buf count co_size set_field eta_of eta_co].
  fold (padded data). rewrite length_padded in *.
  destruct (blit_end (buf oco) (padded data) (Z.to_nat (count oco))) as [H1 H2].
  { pose proof (length_padded data). lia. }
  pose proof (padding_range (Z.of_nat (length data))). pose proof (length_padded data).
  split_and!; try lia.
  cbn [buffered buf count]. rewrite <- H1. f_equal. lia.
Qed.

Section Output.
Context {W : Type} `{Transport W} (sent : Z -> W -> list cell) `{!OutputStream W sent}.
Implicit Types (st : io_state W) (oc : OsCommRec) (cl : ClientRec).

(** All that was written to a client: what it received and what is buffered. *)
Definition out_stream st c : list cell := sent c (world st) ++ buffered (oscomm st !! c ≫= output).

(** The output buffers of client [c] and of the free list. *)
Record out_inv st c : Prop := {
  oi_free : Forall (fun oco => out_ok oco /\ count oco = 0) (FreeOutputs st);
  oi_own : forall oco, oscomm st !! c ≫= output = Some oco -> out_ok oco
}.

(** The connection of client [c] alone is concerned. *)
Definition others_kept c st st' : Prop :=
  forall c', c' <> c -> oscomm st' !! c' = oscomm st !! c' /\ clients st' !! c' = clients st !! c' /\
    sent c' (world st') = sent c' (world st).

Lemma others_refl c st : others_kept c st st.
Proof. done. Qed.
Lemma others_trans c st1 st2 st3 : others_kept c st1 st2 -> others_kept c st2 st3 -> others_kept c st1 st3.
Proof.
  intros H12 H23 c' Hc'. destruct (H12 c' Hc') as (? & ? & ?), (H23 c' Hc') as (? & ? & ?). split_and!; congruence.
Qed.
Lemma others_set_output c st o : others_kept c st (set_output st c o).
Proof. intros c' Hc'. cbn. by rewrite lookup_alter_ne. Qed.

(** The connection was closed and the client marked for [Dispatch] to close. *)
Definition killed st c : Prop :=
  (forall oc, oscomm st !! c = Some oc -> trans_conn oc = false) /\
  forall cl, clients st !! c = Some cl -> noClientException cl = false.

Lemma kill_spec st c :
  let st' := dixMarkClientException (AbortClient st c) c in
  killed st' c /\ others_kept c st st' /\ sent c (world st') = sent c (world st) /\
  FreeOutputs st' = FreeOutputs st /\
  (oscomm st' !! c ≫= output) = (oscomm st !! c ≫= output) /\
  (is_Some (oscomm st !! c) -> is_Some (oscomm st' !! c)).
Proof.
  cbv zeta. unfold AbortClient, CloseDownFileDescriptor, dixMarkClientException.
  assert (Hex : forall m : gmap Z ClientRec, forall cl,
    alter (fun cl => cl <| noClientException := false |>) c m !! c = Some cl -> noClientException cl = false).
  { intros m cl. rewrite lookup_alter_eq. destruct (m !! c); cbn; [by intros [= <-]|done]. }
  destruct (oscomm st !! c) as [oc|] eqn:Hoc; [destruct (trans_conn oc) eqn:Ht|].
  - unfold mark_client_ready. cbn. case_bool; cbn; rewrite ?lookup_alter_eq, ?Hoc; cbn;
      (split_and!; [split; cbn; [rewrite lookup_alter_eq, Hoc; cbn; by intros ? [= <-]|apply Hex]
                   |intros c' Hc'; cbn; rewrite !lookup_alter_ne, close_sent by done; done
                   |by rewrite close_sent|done|done|done]).
  - cbn. rewrite Hoc. split_and!; try done.
    + split; cbn; [rewrite Hoc; by intros ? [= <-]|apply Hex].
    + intros c' Hc'. cbn. by rewrite lookup_alter_ne.
  - cbn. rewrite Hoc. split_and!; try done.
    + split; cbn; [by rewrite Hoc|apply Hex].
    + intros c' Hc'. cbn. by rewrite lookup_alter_ne.
Qed.

(** ** Flushing *)

Definition flush_post c st (r : Z) st' : Prop :=
  others_kept c st st' /\ out_inv st' c /\ is_Some (oscomm st' !! c) /\
  ((r = 0 /\ out_stream st' c = out_stream st c /\
    (oscomm st' !! c ≫= output = None \/
     exists o o', oscomm st !! c ≫= output = Some o /\ oscomm st' !! c ≫= output = Some o' /\
       count o' <= count o /\ co_size o' = co_size o)) \/
   (r = -1 /\ killed st' c /\ exists t, out_stream st c = sent c (world st') ++ t)).

Lemma flush_abort_spec st0 st c oco t :
  out_inv st0 c -> others_kept c st0 st -> FreeOutputs st = FreeOutputs st0 -> out_ok oco ->
  is_Some (oscomm st !! c) -> out_stream st0 c = sent c (world st) ++ t ->
  let '(r, st') := flush_abort st c oco in flush_post c st0 r st'.
Proof.
  intros [Hf Ho] Hk Ef Hok Hs Ht. unfold flush_abort.
  destruct (kill_spec st c) as ((K1 & K1') & K2 & K3 & K4 & _ & K6). set (st1 := dixMarkClientException _ _) in *.
  clearbody st1.
  destruct (K6 Hs) as [oc1 Hoc1].
  split_and!.
  - eapply others_trans; [done|]. eapply others_trans; [done|]. apply others_set_output.
  - split; cbn; [by rewrite K4, Ef|]. rewrite lookup_alter_eq, Hoc1. cbn. intros ? [= <-].
    destruct Hok as (H1 & H2 & H3). unfold out_ok. cbn. lia.
  - cbn. rewrite lookup_alter_eq, Hoc1. by eexists.
  - right. split; [done|]. split.
    + split; [|done]. cbn. rewrite lookup_alter_eq, Hoc1. cbn. intros ? [= <-]. cbn. by apply K1.
    + exists t. rewrite Ht. cbn. by rewrite K3.
Qed.

(** What the write loop keeps: [written] bytes are out. *)
Definition flush_inv c st0 oco (s : io_state W * Z * Z * Z) : Prop :=
  let '(st, written, notWritten, todo) := s in
  others_kept c st0 st /\ oscomm st = oscomm st0 /\ clients st = clients st0 /\
  FreeOutputs st = FreeOutputs st0 /\
  0 <= written /\ 0 <= notWritten /\ written + notWritten = count oco /\ todo <= notWritten /\
  (0 < notWritten -> 0 < todo) /\
  sent c (world st) = sent c (world st0) ++ take (Z.to_nat written) (buf oco).

Lemma take_split {A} (l : list A) a b n :
  0 <= a -> 0 <= n <= b -> take (Z.to_nat a) l ++ take (Z.to_nat n) (take (Z.to_nat b) (drop (Z.to_nat a) l)) =
  take (Z.to_nat (a + n)) l.
Proof.
  intros Ha Hn. rewrite take_take, Nat.min_l by lia. rewrite take_take_drop. f_equal. lia.
Qed.

Lemma flush_later_spec c st0 st oc oco written notWritten todo :
  out_inv st0 c -> oscomm st0 !! c = Some oc -> output oc = Some oco ->
  flush_inv c st0 oco (st, written, notWritten, todo) ->
  let '(r, st') := flush_later st c oco written notWritten in flush_post c st0 r st'.
Proof.
  intros [Hf Ho] Hoc Hout (H1 & H2 & H3 & H4 & H5 & H6 & H7 & H8 & H9 & H10).
  assert (Hok : out_ok oco) by (apply Ho; by rewrite Hoc).
  unfold flush_later. set (o := if 0 <? written then _ else oco). cbv zeta.
  set (st1 := output_pending_mark st c).
  assert (Hst1 : oscomm st1 = oscomm st0 /\ clients st1 = clients st0 /\ FreeOutputs st1 = FreeOutputs st0 /\
    world st1 = world st).
  { subst st1. unfold output_pending_mark. rewrite H3. destruct (clients st0 !! c) as [cl|]; [|done].
    by destruct (_ || _). }
  destruct Hst1 as (E1 & E2 & E3 & E4).
  pose proof Hok as (Hl & Hc & Hm).
  assert (Hbuf : out_ok (o <| count := notWritten |>) /\ co_size o = co_size oco /\
    buffered (Some (o <| count := notWritten |>)) = take (Z.to_nat notWritten) (drop (Z.to_nat written) (buf oco))).
  { subst o. destruct (Z.ltb_spec 0 written).
    - remember (take (Z.to_nat (count oco - written)) (drop (Z.to_nat written) (buf oco))) as cs eqn:Ecs.
      assert (Hcs : length cs = Z.to_nat notWritten).
      { rewrite Ecs, length_take, length_drop. lia. }
      destruct (blit_end (buf oco) cs 0) as [B1 B2]; [lia|]. cbn [Nat.add take app] in B1.
      unfold out_ok. cbn -[blit take drop]. rewrite <- !Ecs, B2. split_and!; try done; try lia.
      rewrite <- Hcs at 1. rewrite B1, take_0. cbn [app]. rewrite Ecs. f_equal. lia.
    - assert (written = 0) as -> by lia. cbn. rewrite drop_0. unfold out_ok. cbn. split_and!; try done; lia. }
  destruct Hbuf as (B1 & B2 & B3). set (o2 := o <| count := notWritten |>) in *.
  assert (Hc2 : count o2 = notWritten) by done. assert (Hs2 : co_size o2 = co_size oco) by done.
  clearbody o2.
  split_and!.
  - intros c' Hc'. cbn. rewrite lookup_alter_ne, E1, E2, E4 by done.
    destruct (H1 c' Hc') as (? & ? & ?). by split_and!.
  - split; cbn; [by rewrite E3|]. rewrite E1, lookup_alter_eq, Hoc. cbn. by intros ? [= <-].
  - cbn. rewrite E1, lookup_alter_eq, Hoc. by eexists.
  - left. split; [done|]. split.
    + unfold out_stream. cbn [world emit set_output on_comm set_field eta_of eta_io oscomm].
      rewrite E1, E4, lookup_alter_eq, Hoc. cbn [fmap option_fmap option_map mbind option_bind output set_field eta_of eta_oc].
      rewrite B3, H10, Hout, <- app_assoc. f_equal. cbn [buffered].
      rewrite take_take_drop. f_equal. lia.
    + right. exists oco, o2. rewrite Hoc. cbn. rewrite E1, lookup_alter_eq, Hoc. cbn.
      split_and!; try done. lia.
Qed.

Lemma flush_done_spec c st0 st oc oco written todo :
  out_inv st0 c -> oscomm st0 !! c = Some oc -> output oc = Some oco ->
  flush_inv c st0 oco (st, written, 0, todo) ->
  let '(r, st') := flush_done st c oco in flush_post c st0 r st'.
Proof.
  intros [Hf Ho] Hoc Hout (H1 & H2 & H3 & H4 & H5 & H6 & H7 & H8 & H9 & H10).
  assert (Hok : out_ok oco) by (apply Ho; by rewrite Hoc). pose proof Hok as (Hl & Hc & Hm).
  unfold flush_done. cbv zeta. set (st1 := if _ >? _ then _ else _).
  assert (Hst1 : oscomm st1 = oscomm st0 /\ clients st1 = clients st0 /\ world st1 = world st /\
    Forall (fun oco => out_ok oco /\ count oco = 0) (FreeOutputs st1)).
  { subst st1. destruct (_ >? _); cbn; rewrite ?H4; split_and!; try done.
    constructor; [|done]. split; [|done]. unfold out_ok. cbn. lia. }
  destruct Hst1 as (E1 & E2 & E3 & E4).
  split_and!.
  - intros c' Hc'. cbn. rewrite lookup_alter_ne, E1, E2, E3 by done.
    destruct (H1 c' Hc') as (? & ? & ?). by split_and!.
  - split; cbn; [done|]. rewrite E1, lookup_alter_eq, Hoc. done.
  - cbn. rewrite E1, lookup_alter_eq, Hoc. by eexists.
  - left. split; [done|]. split.
    + unfold out_stream. cbn [world set_output on_comm set_field eta_of eta_io oscomm].
      rewrite E1, E3, lookup_alter_eq, Hoc. cbn [fmap option_fmap option_map mbind option_bind output set_field eta_of eta_oc].
      rewrite H10, Hout. cbn [buffered]. rewrite app_nil_r. do 2 f_equal. lia.
    + left. cbn. by rewrite E1, lookup_alter_eq, Hoc.
Qed.

(** The bytes left to write, then the size of the next attempt. *)
Definition flush_measure oco (s : io_state W * Z * Z * Z) : Z :=
  let '(_, _, notWritten, todo) := s in notWritten * (count oco + 1) + todo.

Lemma flush_step_spec c st0 oc oco s :
  out_inv st0 c -> oscomm st0 !! c = Some oc -> output oc = Some oco -> flush_inv c st0 oco s ->
  match flush_step c oco s with
  | inl s' => flush_inv c st0 oco s' /\ 0 <= flush_measure oco s' < flush_measure oco s
  | inr (Ret rs) => flush_post c st0 rs.1 rs.2
  | inr _ => False
  end.
Proof.
  intros Hinv Hoc Hout Hs. destruct s as [[[st written] nw] todo].
  pose proof Hs as (H1 & H2 & H3 & H4 & H5 & H6 & H7 & H8 & H9 & H10).
  assert (Hok : out_ok oco) by (apply Hinv; by rewrite Hoc). pose proof Hok as (Hl & Hc & Hm).
  unfold flush_step. destruct (Z.eqb_spec nw 0) as [->|Hne].
  { pose proof (flush_done_spec c st0 st oc oco written todo Hinv Hoc Hout Hs) as Hd.
    by destruct (flush_done st c oco). }
  set (l := take (Z.to_nat todo) (drop (Z.to_nat written) (buf oco))).
  assert (Hll : Z.of_nat (length l) = todo).
  { subst l. rewrite length_take, length_drop. lia. }
  assert (Hlne : l <> []) by (intros E; rewrite E in Hll; cbn in Hll; lia).
  pose proof (write_some c l (world st) Hlne) as Hw. pose proof (fun c' => write_other c c' l (world st)) as Hw'.
  destruct (trans_write c l (world st)) as [r w]. cbn [snd] in Hw'.
  assert (Hk : others_kept c st0 (st <| world := w |>)).
  { intros c' Hc'. destruct (H1 c' Hc') as (? & ? & ?). cbn. rewrite Hw' by done. by split_and!. }
  destruct r as [n| | |].
  - destruct Hw as [Hn Hw]. split; [|cbn; nia]. split_and!; try done; try lia.
    cbn. rewrite Hw, H10, <- app_assoc. subst l. f_equal. apply take_split; lia.
  - pose proof (flush_later_spec c st0 (st <| world := w |>) oc oco written nw todo Hinv Hoc Hout) as Hd.
    destruct (flush_later _ c oco written nw). apply Hd. split_and!; try done. cbn. by rewrite Hw.
  - destruct Hw as [Hgt Hw]. rewrite Hll in Hgt. assert (0 < todo / 2 < todo) by (Z.div_mod_to_equations; lia).
    split; [|cbn; lia]. split_and!; try done; try lia. cbn. by rewrite Hw.
  - pose proof (flush_abort_spec st0 (st <| world := w |>) c oco (take (Z.to_nat nw) (drop (Z.to_nat written) (buf oco)))
      Hinv Hk H4 Hok) as Hd.
    destruct (flush_abort _ c oco). apply Hd; [cbn; rewrite H2, Hoc; by eexists|].
    unfold out_stream. cbn. rewrite Hw, H10, Hoc. cbn. rewrite Hout, <- app_assoc. f_equal. cbn.
    rewrite take_take_drop. f_equal. lia.
Qed.

Lemma FlushClient_spec st c oc :
  out_inv st c -> oscomm st !! c = Some oc ->
  exists r st', FlushClient st c = Ret (r, st') /\ flush_post c st r st'.
Proof.
  intros Hinv Hoc. unfold FlushClient. rewrite Hoc. cbn [obind_opt].
  assert (Hrefl : flush_post c st 0 st).
  { split; [done|]. split; [done|]. split; [by eexists|]. left. split; [done|]. split; [done|]. rewrite Hoc. cbn.
    destruct (output oc) as [oco|]; [right; exists oco, oco|by left]. split_and!; done || lia. }
  destruct (output oc) as [oco|] eqn:Hout; [|by eexists _, _].
  assert (Hok : out_ok oco) by (apply Hinv; by rewrite Hoc). pose proof Hok as (Hl & Hc & Hm).
  destruct (trans_conn oc) eqn:Ht; cbn [negb].
  2: { pose proof (flush_abort_spec st st c oco (buffered (Some oco)) Hinv (others_refl c st) eq_refl Hok) as Hd.
       destruct (flush_abort st c oco) as [r st']. eexists _, _. split; [reflexivity|].
       apply Hd; [by eexists|]. unfold out_stream. by rewrite Hoc; cbn; rewrite Hout. }
  destruct (Z.eqb_spec (count oco) 0); [by eexists _, _|].
  set (st1 := if FlushCallback st then _ else st).
  assert (Hst1 : oscomm st1 = oscomm st /\ clients st1 = clients st /\ FreeOutputs st1 = FreeOutputs st /\ world st1 = world st).
  { subst st1. by destruct (FlushCallback st). }
  destruct Hst1 as (E1 & E2 & E3 & E4).
  destruct (run_loop_total (flush_step c oco) (flush_inv c st oco)
    (fun rs : Z * io_state W => flush_post c st rs.1 rs.2) (flush_measure oco) TURNS (st1, 0, count oco, count oco))
    as ([r st'] & Heq & Hp).
  - intros s0 Hs0. exact (flush_step_spec c st oc oco s0 Hinv Hoc Hout Hs0).
  - split_and!; try done; try lia.
    + intros c' Hc'. by rewrite E1, E2, E4.
    + rewrite E4. cbn. by rewrite app_nil_r.
  - unfold flush_measure, TURNS, MAXINT in *. nia.
  - exists r, st'. done.
Qed.
(** ** Making room *)

Lemma buf_alloc_ok : out_ok (MkCO (replicate (Z.to_nat BUFSIZE) (Some 0)) BUFSIZE 0).
Proof. unfold out_ok. cbn [buf co_size count]. rewrite length_replicate. unfold BUFSIZE, MAXINT. lia. Qed.

Definition ensure_post c st (ok : bool) st' : Prop :=
  others_kept c st st' /\ out_inv st' c /\
  if ok then out_stream st' c = out_stream st c /\
             exists oc oco, oscomm st' !! c = Some oc /\ output oc = Some oco /\
               (oscomm st !! c ≫= output = Some oco \/ count oco = 0)
  else killed st' c /\ out_stream st c = sent c (world st').

Lemma OutputEnsureBuffer_spec al st c oc :
  out_inv st c -> oscomm st !! c = Some oc ->
  let '(ok, st') := OutputEnsureBuffer al st c in ensure_post c st ok st'.
Proof.
  intros [Hf Ho] Hoc. unfold OutputEnsureBuffer. rewrite Hoc in *. cbn [mbind option_bind] in *.
  destruct (output oc) as [oco|] eqn:Hout.
  { split; [done|]. split; [by split; rewrite ?Hoc; cbn; rewrite ?Hout|]. split; [done|].
    exists oc, oco. rewrite Hoc. cbn. eauto. }
  assert (Hnew : forall st1 oco, oscomm st1 = oscomm st -> clients st1 = clients st -> world st1 = world st ->
    Forall (fun oco => out_ok oco /\ count oco = 0) (FreeOutputs st1) -> out_ok oco -> count oco = 0 ->
    ensure_post c st true (set_output st1 c (Some oco))).
  { intros st1 oco E1 E2 E3 Hf1 Hok H0. split_and!.
    - intros c' Hc'. cbn. rewrite lookup_alter_ne by done. by rewrite E1, E2, E3.
    - split; cbn; [done|]. rewrite lookup_alter_eq, E1, Hoc. cbn. by intros ? [= <-].
    - unfold out_stream. cbn. rewrite lookup_alter_eq, E1, E3, Hoc. cbn. by rewrite Hout, H0.
    - eexists _, oco. cbn. rewrite lookup_alter_eq, E1, Hoc. cbn. split; [done|]. split; [done|]. by right. }
  destruct (FreeOutputs st) as [|oco l] eqn:Hfree.
  - unfold AllocateOutputBuffer. assert (Hno : ensure_post c st false (dixMarkClientException (AbortClient st c) c)).
    { destruct (kill_spec st c) as (K1 & K2 & K3 & K4 & K5 & _). split_and!; [done| |done|].
      - split; [by rewrite K4, Hfree|]. rewrite K5, Hoc. cbn. by rewrite Hout.
      - unfold out_stream. rewrite K3, Hoc. cbn. rewrite Hout. apply app_nil_r. }
    destruct (al 0%nat 24); [destruct (al 1%nat BUFSIZE)|]; cbn [negb]; try done.
    apply Hnew; [done|done|done|by rewrite Hfree|apply buf_alloc_ok|done].
  - apply Forall_cons in Hf as [[H1 H2] Hf]. by apply Hnew.
Qed.

(** What a write leaves: the data was appended to the stream, or the client
    was given up. *)
Definition write_post c st data (r : Z) st' : Prop :=
  others_kept c st st' /\ out_inv st' c /\
  ((r = Z.of_nat (length data) /\ out_stream st' c = out_stream st c ++ padded data) \/
   (r = -1 /\ killed st' c /\ exists t, out_stream st c ++ padded data = sent c (world st') ++ t)).

Lemma memcpy_and_flush_spec st c oc oco data :
  out_inv st c -> oscomm st !! c = Some oc -> out_ok oco ->
  buffered (Some oco) = buffered (output oc) ->
  count oco + Z.of_nat (length (padded data)) <= co_size oco ->
  exists r st', memcpy_and_flush st c oco data (padding_for_int32 (Z.of_nat (length data))) = Ret (r, st') /\
    write_post c st data r st'.
Proof.
  intros [Hf Ho] Hoc Hok Hb Hfit. unfold memcpy_and_flush.
  destruct (append_output_spec oco data Hok Hfit) as (A1 & A2 & A3 & A4).
  set (o := append_output _ _ _) in *. clearbody o.
  set (st1 := set_output st c (Some o)).
  assert (Hoc1 : oscomm st1 !! c = Some (oc <| output := Some o |>)).
  { subst st1. cbn. by rewrite lookup_alter_eq, Hoc. }
  assert (Hinv1 : out_inv st1 c).
  { split; [done|]. rewrite Hoc1. cbn. by intros ? [= <-]. }
  assert (Hs1 : out_stream st1 c = out_stream st c ++ padded data).
  { unfold out_stream. rewrite Hoc1, Hoc. cbn -[buffered]. by rewrite A2, Hb, app_assoc. }
  assert (Hk1 : others_kept c st st1) by apply others_set_output. clearbody st1.
  destruct (FlushClient_spec st1 c _ Hinv1 Hoc1) as (r & st' & -> & F1 & F2 & F3 & F4). cbn [obind].
  eexists _, st'. split; [reflexivity|].
  split; [by eapply others_trans|]. split; [done|].
  destruct F4 as [(-> & F4 & _)|(-> & F4 & t & F5)]; cbn.
  - left. by rewrite F4, Hs1.
  - right. split_and!; try done. exists t. by rewrite <- Hs1, F5.
Qed.

Lemma resized_ok oco n :
  out_ok oco -> count oco <= n <= MAXINT ->
  let oco' := oco <| buf ::= fun b => mem_realloc (Some b) n |> <| co_size := n |> in
  out_ok oco' /\ buffered (Some oco') = buffered (Some oco).
Proof.
  intros (H1 & H2 & H3) Hn. cbv zeta. unfold out_ok. cbn -[mem_realloc].
  rewrite length_mem_realloc by lia. split; [lia|]. rewrite take_mem_realloc; [done|cbn; lia|lia].
Qed.

Lemma write_post_trans c st st1 data r st' :
  others_kept c st st1 -> out_stream st1 c = out_stream st c ->
  write_post c st1 data r st' -> write_post c st data r st'.
Proof.
  intros Hk Hs (H1 & H2 & H3). split; [by eapply others_trans|]. split; [done|]. by rewrite <- Hs.
Qed.
Lemma write_post_killed c st st' data t :
  others_kept c st st' -> out_inv st' c -> killed st' c -> out_stream st c = sent c (world st') ++ t ->
  write_post c st data (-1) st'.
Proof.
  intros H1 H2 H3 H4. split_and!; try done. right. split_and!; try done.
  exists (t ++ padded data). by rewrite H4, <- app_assoc.
Qed.

Lemma written_trans c st st1 data (o : outcome (Z * io_state W)) :
  others_kept c st st1 -> out_stream st1 c = out_stream st c ->
  (exists r st', o = Ret (r, st') /\ write_post c st1 data r st') ->
  exists r st', o = Ret (r, st') /\ write_post c st data r st'.
Proof. intros Hk Hs (r & st' & -> & Hp). eexists _, _. split; [reflexivity|]. by apply (write_post_trans c st st1). Qed.

(** The bytes still to be sent leave place for the data in an [int]. *)
Definition fits_int (o : option ConnectionOutput) (data : list Z) : Prop :=
  Z.of_nat (length (buffered o)) + Z.of_nat (length data) + 4 + BUFSIZE <= MAXINT.

Lemma grow_and_flush_spec al st c oc data :
  out_inv st c -> oscomm st !! c = Some oc -> fits_int (output oc) data ->
  let pad := padding_for_int32 (Z.of_nat (length data)) in
  exists r st', grow_and_flush al st c data pad (Z.of_nat (length data) + pad) = Ret (r, st') /\
    write_post c st data r st'.
Proof.
  intros Hinv Hoc Hb. cbv zeta. unfold grow_and_flush.
  pose proof (OutputEnsureBuffer_spec al st c oc Hinv Hoc) as He.
  destruct (OutputEnsureBuffer al st c) as [[] st1]; destruct He as (K1 & Hinv1 & E3); cbn [negb].
  2: { destruct E3 as [E3 E4]. eexists _, _. split; [reflexivity|].
       apply (write_post_killed c st st1 data []); by rewrite ?app_nil_r. }
  destruct E3 as (E3 & oc1 & oco & Hoc1 & Hout & Hcnt). rewrite Hoc1. cbn [mbind option_bind]. rewrite Hout.
  cbn [obind_opt].
  assert (Hok : out_ok oco) by (apply Hinv1; by rewrite Hoc1). pose proof Hok as (Hl & Hc & Hm).
  assert (Hb1 : count oco + Z.of_nat (length data) + 4 + BUFSIZE <= MAXINT).
  { unfold fits_int in Hb. destruct Hcnt as [Hcnt|Hcnt]; [|lia]. rewrite Hoc in Hcnt. cbn in Hcnt.
    by rewrite Hcnt, length_buffered in Hb. }
  pose proof (length_padded data) as Hp. pose proof (padding_range (Z.of_nat (length data))) as Hr.
  apply (written_trans c st st1); [done|done|].
  destruct (Z.leb_spec (count oco + (Z.of_nat (length data) + padding_for_int32 (Z.of_nat (length data)))) (co_size oco)).
  { apply (memcpy_and_flush_spec st1 c oc1); try done; [by rewrite Hout|lia]. }
  rewrite i32_small by (unfold BUFSIZE, MAXINT in *; Z.div_mod_to_equations; lia).
  set (n := count oco + _ * _).
  assert (Hn : count oco + Z.of_nat (length (padded data)) <= n <= MAXINT).
  { subst n. unfold BUFSIZE, MAXINT in *. Z.div_mod_to_equations. lia. }
  clearbody n. destruct (al 2%nat n); cbn [negb].
  - destruct (resized_ok oco n Hok) as [R1 R2]; [lia|].
    apply (memcpy_and_flush_spec st1 c oc1); try done; [by rewrite R2, Hout|cbn; lia].
  - pose proof (flush_abort_spec st1 st1 c oco (buffered (Some oco)) Hinv1 (others_refl c st1) eq_refl Hok) as Ha.
    assert (Hr1 : (flush_abort st1 c oco).1 = -1) by done.
    destruct (flush_abort st1 c oco) as [r st']. cbn in Hr1. subst r.
    destruct Ha as (F1 & F2 & _ & [(? & _)|(_ & F4 & t & F5)]); [by eexists| |done|].
    { unfold out_stream. rewrite Hoc1. cbn. by rewrite Hout. }
    eexists _, _. split; [reflexivity|]. by apply (write_post_killed c st1 st' data t).
Qed.

Lemma OutputBufferMakeRoomAndFlush_spec al st c oc data :
  out_inv st c -> oscomm st !! c = Some oc -> fits_int (output oc) data ->
  exists r st', OutputBufferMakeRoomAndFlush al st c data = Ret (r, st') /\ write_post c st data r st'.
Proof.
  intros Hinv Hoc Hb. unfold OutputBufferMakeRoomAndFlush. cbv zeta.
  rewrite Hoc. cbn [mbind option_bind]. destruct (output oc) as [oco|] eqn:Hout.
  2: { apply (grow_and_flush_spec al st c oc); try done. by rewrite Hout. }
  assert (Hok : out_ok oco) by (apply Hinv; by rewrite Hoc). pose proof (length_padded data) as Hp.
  destruct (Z.leb_spec (count oco + (Z.of_nat (length data) + padding_for_int32 (Z.of_nat (length data)))) (co_size oco)).
  { apply (memcpy_and_flush_spec st c oc); try done; [by rewrite Hout|lia]. }
  destruct (FlushClient_spec st c oc Hinv Hoc) as (r & st1 & -> & F1 & F2 & [oc1 Hoc1] & F4). cbn [obind].
  destruct F4 as [(-> & F4 & F5)|(-> & F4 & t & F5)]; cbn.
  - destruct (grow_and_flush_spec al st1 c oc1 data F2 Hoc1) as (r & st2 & -> & Hw).
    + rewrite Hoc1, Hoc in F5. cbn in F5. unfold fits_int in *. rewrite length_buffered in Hb by done.
      destruct F5 as [->|(o & o' & E1 & E2 & E3 & E4)]; [cbn in *; destruct Hok; lia|].
      rewrite E2. rewrite Hout in E1. injection E1 as <-.
      rewrite length_buffered; [lia|]. apply F2. by rewrite Hoc1.
    + eexists _, _. split; [reflexivity|]. by apply (write_post_trans c st st1).
  - eexists _, _. split; [reflexivity|]. by apply (write_post_killed c st st1 data t).
Qed.
(** Steps that leave the buffers and the transport alone. *)
Definition same_core c st st' : Prop :=
  oscomm st' = oscomm st /\ world st' = world st /\ FreeOutputs st' = FreeOutputs st /\
  forall c', c' <> c -> clients st' !! c' = clients st !! c'.

Lemma same_core_post c st st' :
  same_core c st st' -> out_inv st c -> others_kept c st st' /\ out_inv st' c /\ out_stream st' c = out_stream st c.
Proof.
  intros (E1 & E2 & E3 & E4) [Hf Ho]. unfold out_stream. rewrite E1, E2. split_and!; [|split|done].
  - intros c' Hc'. by rewrite E1, E2, E4.
  - by rewrite E3.
  - by rewrite E1.
Qed.
Lemma reply_callback_core st c cl data pad : same_core c st (reply_callback st c cl data pad).
Proof.
  unfold reply_callback, emit, on_client. cbv zeta.
  repeat case_bool; split_and!; try done; intros c' Hc'; cbn; by rewrite lookup_alter_ne.
Qed.
Lemma output_pending_mark_core st st' c : same_core c st st' -> same_core c st (output_pending_mark st' c).
Proof. intros Hc. unfold output_pending_mark. destruct (clients st' !! c); [case_bool|]; done. Qed.

(** A write that fits is added to the buffer. *)
Lemma append_post st c oc oco data :
  out_inv st c -> oscomm st !! c = Some oc -> output oc = Some oco -> out_ok oco ->
  count oco + Z.of_nat (length (padded data)) <= co_size oco ->
  write_post c st data (Z.of_nat (length data))
    (set_output st c (Some (append_output oco data (padding_for_int32 (Z.of_nat (length data)))))).
Proof.
  intros Hinv Hoc Hout Hok Hfit. destruct (append_output_spec oco data Hok Hfit) as (A1 & A2 & A3 & A4).
  set (o := append_output _ _ _) in *. clearbody o.
  split; [apply others_set_output|]. split; [|left; split; [done|]].
  - split; [apply Hinv|]. cbn. rewrite lookup_alter_eq, Hoc. cbn. by intros ? [= <-].
  - unfold out_stream. cbn -[buffered]. rewrite lookup_alter_eq, Hoc. cbn -[buffered].
    by rewrite Hout, A2, app_assoc.
Qed.

(** C19: a reply or event written to a client that is there goes, padded to a
    unit, to the end of the client's stream, which is what the transport took
    followed by what is buffered: the write is added to the buffer, or flushed,
    or the buffer grows, whatever part the transport takes at a time.  It
    returns the number of bytes.  Or it returns -1; then the connection is
    closed, the client is marked, and the client received a prefix of its
    stream.  The connections of all others are untouched. *)
Theorem WriteToClient_stream (al : allocator) st c cl oc (data : list Z) :
  out_inv st c -> oscomm st !! c = Some oc -> clients st !! c = Some cl ->
  clientGone cl = false -> c <> serverClient -> data <> [] -> fits_int (output oc) data ->
  exists r st', WriteToClient al st (Some c) data = Ret (r, st') /\ others_kept c st st' /\ out_inv st' c /\
    ((r = Z.of_nat (length data) /\ out_stream st' c = out_stream st c ++ padded data) \/
     (r = -1 /\ killed st' c /\ exists t, out_stream st c ++ padded data = sent c (world st') ++ t)).
Proof.
  intros Hinv Hoc Hcl Hgone Hsrv Hne Hb. unfold WriteToClient. rewrite Hcl. cbn [obind_opt].
  destruct (Z.eqb_spec (Z.of_nat (length data)) 0); [by destruct data|].
  destruct (Z.eqb_spec c serverClient); [done|]. rewrite Hgone. cbn [orb]. cbv zeta.
  set (st1 := reply_callback st c cl data _).
  assert (Hcore : same_core c st st1) by apply reply_callback_core. clearbody st1.
  destruct (same_core_post c st st1 Hcore Hinv) as (K1 & Hinv1 & S1).
  assert (Hoc1 : oscomm st1 !! c = Some oc) by (by rewrite (proj1 Hcore)).
  apply (written_trans c st st1); [done|done|].
  pose proof (OutputEnsureBuffer_spec al st1 c oc Hinv1 Hoc1) as He.
  destruct (OutputEnsureBuffer al st1 c) as [[] st2]; destruct He as (K2 & Hinv2 & E3); cbn [negb].
  2: { destruct E3 as [E3 E4]. eexists _, _. split; [reflexivity|].
       apply (write_post_killed c st1 st2 data []); by rewrite ?app_nil_r. }
  destruct E3 as (S2 & oc2 & oco & Hoc2 & Hout & Hcnt). rewrite Hoc2. cbn [mbind option_bind]. rewrite Hout.
  cbn [obind_opt]. apply (written_trans c st1 st2); [done|done|].
  assert (Hok : out_ok oco) by (apply Hinv2; by rewrite Hoc2). pose proof Hok as (Hl & Hc & Hm).
  assert (Hb2 : fits_int (output oc2) data).
  { rewrite Hout. unfold fits_int in *. destruct Hcnt as [Hcnt|Hcnt].
    - rewrite Hoc1 in Hcnt. cbn in Hcnt. by rewrite <- Hcnt.
    - rewrite length_buffered by done. lia. }
  case_bool.
  - set (st3 := if bool_decide _ then _ else _).
    assert (Hcore3 : same_core c st2 st3) by (subst st3; by destruct (bool_decide _)). clearbody st3.
    destruct (same_core_post c st2 st3 Hcore3 Hinv2) as (K3 & Hinv3 & S3).
    apply (written_trans c st2 st3); [done|done|].
    apply (OutputBufferMakeRoomAndFlush_spec al st3 c oc2); try done. by rewrite (proj1 Hcore3).
  - apply orb_false_iff in Heqb as [_ Hfit]. rewrite Z.gtb_ltb in Hfit. apply Z.ltb_ge in Hfit.
    set (st3 := output_pending_mark (st2 <| NewOutputPending := true |>) c).
    assert (Hcore3 : same_core c st2 st3) by by apply output_pending_mark_core.
    clearbody st3.
    destruct (same_core_post c st2 st3 Hcore3 Hinv2) as (K3 & Hinv3 & S3).
    eexists _, _. split; [reflexivity|]. apply (write_post_trans c st2 st3); [done|done|].
    apply (append_post st3 c oc2); [done|by rewrite (proj1 Hcore3)|done|done|rewrite length_padded; lia].
Qed.
End Output.

(** A transport that takes at most [mss] bytes in a write and stops taking any
    once [room] bytes were taken. *)
Record pipe := MkPipe { taken : gmap Z (list cell); mss : Z; room : Z }.
#[export] Instance pipe_transport : Transport pipe := {
  trans_read _ _ w := (RdError true, w);
  trans_write c l w :=
    let n := Z.min (Z.max 1 (mss w)) (Z.of_nat (length l)) in
    let old := default [] (taken w !! c) in
    if Z.of_nat (length old) + n <=? room w
    then (WrOk n, MkPipe (<[c := old ++ take (Z.to_nat n) l]> (taken w)) (mss w) (room w))
    else (WrWouldBlock, w);
  trans_recv_fd _ w := (-1, w);
  trans_close _ w := w
}.
Definition pipe_sent (c : Z) (w : pipe) : list cell := default [] (taken w !! c).
#[export] Instance pipe_stream : OutputStream pipe pipe_sent.
Proof.
  split; try done; unfold pipe_sent; cbn.
  - intros c l w Hl. assert (Z.of_nat (length l) <> 0) by (by destruct l). case_bool; [|done].
    split; [lia|]. cbn. by rewrite lookup_insert_eq.
  - intros c c' l w Hc. case_bool; cbn; [|done]. by rewrite lookup_insert_ne.
Qed.

(** Client 1 has three bytes in a small buffer; five more are written, of which
    the transport takes two after the old ones; the buffer has grown. *)
Definition ex_out : io_state pipe :=
  MkIO {[1 := MkOC None (Some (MkCO [Some 7; Some 8; Some 9; None; None; None] 6 3)) true 0]}
    {[1 := MkClient false false true false true true 0 0 0 0]}
    [] [] None false true false 0 [1] [] [] 0 false false 0 [] (MkPipe ∅ 2 5).

Lemma WriteToClient_stream_witness :
  exists r st', WriteToClient always ex_out (Some 1) [1; 2; 3; 4; 5] = Ret (r, st') /\
    others_kept pipe_sent 1 ex_out st' /\ out_inv st' 1 /\
    ((r = 5 /\ out_stream pipe_sent st' 1 = out_stream pipe_sent ex_out 1 ++ padded [1; 2; 3; 4; 5]) \/
     (r = -1 /\ killed st' 1 /\
      exists t, out_stream pipe_sent ex_out 1 ++ padded [1; 2; 3; 4; 5] = pipe_sent 1 (world st') ++ t)).
Proof.
  apply (WriteToClient_stream pipe_sent always ex_out 1 (MkClient false false true false true true 0 0 0 0)
    (MkOC None (Some (MkCO [Some 7; Some 8; Some 9; None; None; None] 6 3)) true 0) [1; 2; 3; 4; 5]);
    try reflexivity; try discriminate.
  - split; [constructor|]. cbn. intros oco [= <-]. by split_and!.
Defined.
Example ex_out_grows :
  match WriteToClient always ex_out (Some 1) [1; 2; 3; 4; 5] with
  | Ret (5, st') =>
      pipe_sent 1 (world st') = [Some 7; Some 8; Some 9; Some 1; Some 2] /\
      (count <$> (oscomm st' !! 1 ≫= output)) = Some 6 /\ output_pending_clients st' = [1]
  | _ => False
  end.
Proof. vm_compute. by split_and!. Qed.
