(* ===== verification/Sync.v ===== *)
(** * Sync: counters, fences, alarms and awaits of [Xext/sync.c]

    A trigger waits for a condition on a sync object.  It belongs to an alarm,
    which sends an event and moves its threshold on, or to one condition of an
    await, which blocks a client until one of its conditions comes true.  Every
    object lists the triggers that wait for it; when the object changes or is
    destroyed, they are checked in turn.

    Sync objects, alarms and awaits are cells of a heap addressed by their XID,
    which is unique among the live resources; using a cell that was freed is
    undefined.  [resources] is the resource database as the file sees it: which
    of these ids are in it, and with which type. *)

From S2P Require Import Prelude.
From S2P Require Import Wire.
From S2P Require Import Request.

(** ** Protocol constants *)
Definition XSyncCACounter : Z := 1.
Definition XSyncCAValueType : Z := 2.
Definition XSyncCAValue : Z := 4.
Definition XSyncCATestType : Z := 8.
Definition XSyncCADelta : Z := 16.
Definition XSyncCAEvents : Z := 32.
(** [Xext/sync.c: XSyncCAAllTrigger 108-109] *)
Definition XSyncCAAllTrigger : Z :=
  Z.lor (Z.lor XSyncCACounter XSyncCAValueType) (Z.lor XSyncCAValue XSyncCATestType).
Definition XSyncAbsolute : Z := 0.
Definition XSyncRelative : Z := 1.
Definition XSyncPositiveTransition : Z := 0.
Definition XSyncNegativeTransition : Z := 1.
Definition XSyncPositiveComparison : Z := 2.
Definition XSyncNegativeComparison : Z := 3.
Definition XSyncAlarmActive : Z := 0.
Definition XSyncAlarmInactive : Z := 1.
Definition XSyncAlarmDestroyed : Z := 2.
Definition XSyncBadCounter : Z := 0.
Definition XSyncBadAlarm : Z := 1.
Definition XSyncBadFence : Z := 2.
Definition DixReadAccess : Z := 1.
Definition DixWriteAccess : Z := 2.
Definition DixDestroyAccess : Z := 4.
Definition DixGetAttrAccess : Z := 16.
Definition DixSetAttrAccess : Z := 32.
Definition None_ : Z := 0.

(** ** Data *)

Inductive sync_type := SYNC_COUNTER | SYNC_FENCE.
#[export] Instance sync_type_eq : EqDecision sync_type.
Proof. solve_decision. Defined.

(** The functions that can be plugged into [pTrigger->CheckTrigger]. *)
Inductive check_fn :=
  | SyncCheckTriggerPositiveComparison
  | SyncCheckTriggerNegativeComparison
  | SyncCheckTriggerPositiveTransition
  | SyncCheckTriggerNegativeTransition
  | SyncCheckTriggerFence.

(** A trigger inside an alarm, or inside condition [i] of an await; this also
    tells which functions it calls when it fires. *)
Inductive trigger_ref := TAlarm (a : Z) | TAwait (u : Z) (i : nat).
#[export] Instance trigger_ref_eq : EqDecision trigger_ref.
Proof. solve_decision. Defined.

(** [miext/sync/misyncstr.h: _SyncTrigger 65-75] *)
Record SyncTrigger := MkTrig {
  pSync : option Z;
  wait_value : Z;
  value_type : Z;
  test_type : Z;
  test_value : Z;
  CheckTrigger : option check_fn
}.
#[export] Instance eta_trig : Settable SyncTrigger := fun t =>
  MkTrig (pSync t) (wait_value t) (value_type t) (test_type t) (test_value t) (CheckTrigger t).
(** Memory cleared by [calloc]. *)
Definition trigger0 : SyncTrigger := MkTrig None 0 0 0 0 None.

(** [Xext/syncsrv.h: SyncCounterType 63-68] *)
Inductive SyncCounterType :=
  XSyncCounterNeverChanges | XSyncCounterNeverIncreases | XSyncCounterNeverDecreases |
  XSyncCounterUnrestricted.
#[export] Instance counter_type_eq : EqDecision SyncCounterType.
Proof. solve_decision. Defined.

(** Which pair of [QueryValue] and [BracketValues] a system counter has. *)
Inductive sys_funcs := Servertime | IdleTime.

(** [value_less] and [value_greater] point into the [SysCounterInfo]; the
    model keeps whether they are null.
    [Xext/sync.c: IdleCounterPriv 2401-2405] *)
Record IdleCounterPriv := MkIdle { value_less : bool; value_greater : bool; deviceid : Z }.
#[export] Instance eta_idle : Settable IdleCounterPriv := fun p =>
  MkIdle (value_less p) (value_greater p) (deviceid p).

(** [Xext/syncsrv.h: SysCounterInfo 78-89] *)
Record SysCounterInfo := MkSys {
  sc_name : list Z;
  resolution : Z;
  bracket_greater : Z;
  bracket_less : Z;
  counterType : SyncCounterType;
  sc_funcs : sys_funcs;
  sc_private : option IdleCounterPriv
}.
#[export] Instance eta_sys : Settable SysCounterInfo := fun s =>
  MkSys (sc_name s) (resolution s) (bracket_greater s) (bracket_less s) (counterType s) (sc_funcs s)
    (sc_private s).

(** A counter or a fence.
    [miext/sync/misyncstr.h: _SyncObject 42-63] *)
Record SyncObject := MkSync {
  so_client : option Z;
  pTriglist : list trigger_ref;
  so_type : sync_type;
  initialized : bool;
  beingDestroyed : bool;
  value : Z;
  pSysCounterInfo : option SysCounterInfo;
  triggered : bool
}.
#[export] Instance eta_sync : Settable SyncObject := fun s =>
  MkSync (so_client s) (pTriglist s) (so_type s) (initialized s) (beingDestroyed s) (value s)
    (pSysCounterInfo s) (triggered s).

(** [Xext/syncsrv.h: SyncAlarm 97-105] *)
Record SyncAlarm := MkAlarm {
  al_trigger : SyncTrigger;
  al_client : Z;
  delta : Z;
  al_events : Z;
  al_state : Z;
  pEventClients : list (Z * Z)
}.
#[export] Instance eta_alarm : Settable SyncAlarm := fun a =>
  MkAlarm (al_trigger a) (al_client a) (delta a) (al_events a) (al_state a) (pEventClients a).

(** [Xext/syncsrv.h: SyncAwait 113-117] *)
Record SyncAwait := MkAwait { aw_trigger : SyncTrigger; event_threshold : Z }.
#[export] Instance eta_await : Settable SyncAwait := fun w => MkAwait (aw_trigger w) (event_threshold w).

(** The header and the conditions, allocated in one piece; [delete_id] is the
    address.  [Xext/syncsrv.h: SyncAwaitUnion 107-122] *)
Record SyncAwaitUnion := MkUnion {
  hd_client : Z;
  num_waitconditions : nat;
  conditions : list SyncAwait
}.
#[export] Instance eta_union : Settable SyncAwaitUnion := fun u =>
  MkUnion (hd_client u) (num_waitconditions u) (conditions u).

Inductive RESTYPE := RTCounter | RTAwait | RTAlarm | RTAlarmClient | RTFence.
#[export] Instance restype_eq : EqDecision RESTYPE.
Proof. solve_decision. Defined.

(** What clients are sent; 64-bit values go as a high and a low word.  The time
    of an event is left out: reading the current time may process input. *)
Definition hilo (v : Z) : Z * Z := (u32 (Z.shiftr v 32), u32 v).
Definition int64 (hi lo : Z) : Z := i64 (hi * 4294967296 + lo).
Inductive sync_output :=
  | AlarmNotify (to : Z) (alarm : Z) (counter_value alarm_value : Z * Z) (state : Z)
  | CounterNotify (to : Z) (counter : Z) (wait_value counter_value : Z * Z) (cnt : Z) (destroyed : bool)
  | OReply (to : Z) (r : Reply).

(** The handlers the file registers with [RegisterBlockAndWakeupHandlers]. *)
Inductive sync_handler := ServertimeHandlers | IdleTimeHandlers (counter : Z).
#[export] Instance sync_handler_eq : EqDecision sync_handler.
Proof. solve_decision. Defined.

Record SyncState := MkState {
  objects : gmap Z SyncObject;
  alarms : gmap Z SyncAlarm;
  awaits : gmap Z SyncAwaitUnion;
  resources : gmap Z (RESTYPE * Z);
  SysCounterList : list Z;
  ignoreCount : gmap Z Z;
  clientGone : gset Z;
  priority : gmap Z Z;
  errorValue : gmap Z Z;
  out : list sync_output;
  handlers : list sync_handler;
  Now : Z;
  pnext_time : bool;
  ServertimeCounter : option Z;
  isItTimeToYield : bool;
  millis : Z;
  last_event : gmap Z Z;
  was_reset : gset Z;
  allocs : nat
}.
#[export] Instance eta_state : Settable SyncState := fun s =>
  MkState (objects s) (alarms s) (awaits s) (resources s) (SysCounterList s) (ignoreCount s)
    (clientGone s) (priority s) (errorValue s) (out s) (handlers s) (Now s) (pnext_time s)
    (ServertimeCounter s) (isItTimeToYield s) (millis s) (last_event s) (was_reset s) (allocs s).

(** What the file uses of the resource database and the security hooks: the
    owner of an id, whether a new id is legal, the status of the access hook,
    a fresh fake id, and the drawables. *)
Class SyncEnv := {
  CLIENT_ID : Z -> Z;
  legal_range : Z -> Z -> bool;
  xace : Z -> Z -> Z -> Z;
  owner_access : Z -> Z -> Z -> Z;
  FakeClientID : gset Z -> Z -> Z;
  fake_fresh : forall used c, FakeClientID used c ∉ used /\ FakeClientID used c <> None_;
  lookup_drawable : Z -> Z -> Z;
  SyncErrorBase : Z
}.

(** ** Checked arithmetic *)

(** The sum, wrapped, and whether it overflowed.
    [Xext/sync.c: checked_int64_add] *)
Definition checked_int64_add (a b : Z) : Z * bool :=
  let result := i64 (u64 (u64 a + u64 b)) in
  (result, Bool.eqb (a <? 0) (b <? 0) && negb (Bool.eqb (a <? 0) (result <? 0))).

(** [Xext/sync.c: checked_int64_subtract] *)
Definition checked_int64_subtract (a b : Z) : Z * bool :=
  let result := i64 (u64 (u64 a - u64 b)) in
  (result, negb (Bool.eqb (a <? 0) (b <? 0)) && negb (Bool.eqb (a <? 0) (result <? 0))).

Section Sync.
Context `{SyncEnv} (al : allocator).
Implicit Types (st : SyncState) (t : SyncTrigger) (r : trigger_ref) (o : SyncObject).

(** ** Access *)

Definition set_object st (i : Z) o : SyncState := st <| objects ::= <[i := o]> |>.
Definition on_object st (i : Z) (f : SyncObject -> SyncObject) : SyncState := st <| objects ::= alter f i |>.
Definition on_alarm st (a : Z) (f : SyncAlarm -> SyncAlarm) : SyncState := st <| alarms ::= alter f a |>.
Definition on_union st (u : Z) (f : SyncAwaitUnion -> SyncAwaitUnion) : SyncState :=
  st <| awaits ::= alter f u |>.
Definition set_error st (c v : Z) : SyncState := st <| errorValue ::= <[c := v]> |>.
Definition emit st (e : sync_output) : SyncState := st <| out ::= fun l => l ++ [e] |>.

(** One call of [calloc]. *)
Definition calloc st (n : Z) : bool * SyncState := (al (allocs st) n, st <| allocs ::= S |>).

Definition get_trigger st r : option SyncTrigger :=
  match r with
  | TAlarm a => al_trigger <$> alarms st !! a
  | TAwait u i => aw_trigger <$> (awaits st !! u ≫= fun w => conditions w !! i)
  end.
Definition set_trigger st r t : SyncState :=
  match r with
  | TAlarm a => on_alarm st a (fun x => x <| al_trigger := t |>)
  | TAwait u i => on_union st u (fun w => w <| conditions ::= alter (fun x => x <| aw_trigger := t |>) i |>)
  end.

(** [Xext/sync.c: IsSystemCounter 104-105] *)
Definition IsSystemCounter o : bool := bool_decide (so_client o = None).

(** Looking a sync resource up, as [dixLookupResourceByType] does.  The status
    of the hook is replaced by the error of the type when it is BadValue. *)
Definition type_error (rt : RESTYPE) : Z :=
  match rt with
  | RTCounter => SyncErrorBase + XSyncBadCounter
  | RTAlarm => SyncErrorBase + XSyncBadAlarm
  | RTFence => SyncErrorBase + XSyncBadFence
  | _ => BadValue
  end.
Definition lookup_resource st (id : Z) (rt : RESTYPE) (client mode : Z) : Z * option Z * SyncState :=
  let st := set_error st client id in
  match resources st !! id with
  | Some (rt', p) =>
      if decide (rt = rt') then
        let rc := xace client id mode in
        if rc =? BadValue then (type_error rt, None, st)
        else if negb (rc =? Success) then (rc, None, st)
        else (Success, Some p, st)
      else (type_error rt, None, st)
  | None => (type_error rt, None, st)
  end.

(** ** Time *)

(** [Xext/sync.c: GetTime] *)
Definition GetTime st : SyncState :=
  let maxis := Z.shiftr (Now st) 32 in
  let maxis := if millis st <? Z.land (Now st) 0xffffffff then u64 (maxis + 1) else u64 maxis in
  st <| Now := Z.lor (i64 (Z.shiftl maxis 32)) (millis st) |>.

Definition XIAllDevices : Z := 0.

(** [Xext/sync.c: IdleTimeQueryValue] *)
Definition IdleTimeQueryValue st (priv : option IdleCounterPriv) : Z :=
  let dev := match priv with Some p => deviceid p | None => XIAllDevices end in
  u32 (millis st - default 0 (last_event st !! dev)).

(** [psci->QueryValue (pCounter, &pCounter->value)] *)
Definition QueryValue st (i : Z) o : outcome (SyncObject * SyncState) :=
  psci <-? pSysCounterInfo o;
  match sc_funcs psci with
  | Servertime =>
      let st := GetTime st in
      let o := o <| value := Now st |> in Ret (o, set_object st i o)
  | IdleTime =>
      let o := o <| value := IdleTimeQueryValue st (sc_private psci) |> in Ret (o, set_object st i o)
  end.

Definition register_handlers st (h : sync_handler) : SyncState := st <| handlers ::= fun l => l ++ [h] |>.
Definition remove_handlers st (h : sync_handler) : SyncState :=
  st <| handlers ::= fun l => match list_find (h =.) l with Some (k, _) => delete k l | None => l end |>.

(** [Xext/sync.c: ServertimeBracketValues] *)
Definition ServertimeBracketValues st (less greater : bool) : SyncState :=
  let st :=
    if negb (pnext_time st) && greater then register_handlers st ServertimeHandlers
    else if pnext_time st && negb greater then remove_handlers st ServertimeHandlers
    else st in
  st <| pnext_time := greater |>.

(** [Xext/sync.c: IdleTimeBracketValues] *)
Definition IdleTimeBracketValues st (i : Z) (psci : SysCounterInfo) (less greater : bool) : SyncState :=
  match sc_private psci with
  | None => st
  | Some priv =>
      let registered := value_less priv || value_greater priv in
      let st :=
        if registered && negb less && negb greater then remove_handlers st (IdleTimeHandlers i)
        else if negb registered && (less || greater) then
          register_handlers (st <| was_reset := ∅ |>) (IdleTimeHandlers i)
        else st in
      on_object st i (fun o => o <| pSysCounterInfo := Some (psci <| sc_private :=
        Some (priv <| value_greater := greater |> <| value_less := less |>) |>) |>)
  end.

(** ** Brackets *)

(** The smallest threshold above the value and the largest below it that are
    of interest, and whether there are any: [bracket_greater], [bracket_less],
    [pnewgtval] and [pnewltval]. *)
Record brackets := MkBr { br_gt : Z; br_lt : Z; newgt : bool; newlt : bool }.
#[export] Instance eta_br : Settable brackets := fun b => MkBr (br_gt b) (br_lt b) (newgt b) (newlt b).

Definition lower_gt (b : brackets) (v : Z) : brackets := b <| br_gt := v |> <| newgt := true |>.
Definition raise_lt (b : brackets) (v : Z) : brackets := b <| br_lt := v |> <| newlt := true |>.

(** [Xext/sync.c: SyncComputeBracketValues 1080-1144] *)
Definition bracket_step (ct : SyncCounterType) (v : Z) (b : brackets) t : brackets :=
  let tv := test_value t in
  if (test_type t =? XSyncPositiveComparison) && negb (bool_decide (ct = XSyncCounterNeverIncreases)) then
    if (v <? tv) && (tv <? br_gt b) then lower_gt b tv
    else if (v >? tv) && (tv >? br_lt b) then raise_lt b tv else b
  else if (test_type t =? XSyncNegativeComparison) && negb (bool_decide (ct = XSyncCounterNeverDecreases)) then
    if (v >? tv) && (tv >? br_lt b) then raise_lt b tv
    else if (v <? tv) && (tv <? br_gt b) then lower_gt b tv else b
  else if (test_type t =? XSyncNegativeTransition) && negb (bool_decide (ct = XSyncCounterNeverIncreases)) then
    if (v >=? tv) && (tv >? br_lt b) then raise_lt b tv
    else if (v <? tv) && (tv <? br_gt b) then lower_gt b tv else b
  else if (test_type t =? XSyncPositiveTransition) && negb (bool_decide (ct = XSyncCounterNeverDecreases)) then
    if (v <=? tv) && (tv <? br_gt b) then lower_gt b tv
    else if (v >? tv) && (tv >? br_lt b) then raise_lt b tv else b
  else b.

Definition LLONG_MAX : Z := 9223372036854775807.
Definition LLONG_MIN : Z := -9223372036854775808.

(** All triggers on the list of the counter.
    [Xext/sync.c: SyncComputeBracketValues 1074-1145] *)
Definition compute_brackets (ct : SyncCounterType) (v : Z) (ts : list SyncTrigger) : brackets :=
  fold_left (bracket_step ct v) ts (MkBr LLONG_MAX LLONG_MIN false false).

(** [psci->BracketValues (pCounter, pnewltval, pnewgtval)] *)
Definition BracketValues st (i : Z) (psci : SysCounterInfo) (less greater : bool) : SyncState :=
  match sc_funcs psci with
  | Servertime => ServertimeBracketValues st less greater
  | IdleTime => IdleTimeBracketValues st i psci less greater
  end.

(** [Xext/sync.c: SyncComputeBracketValues] *)
Definition SyncComputeBracketValues st (i : Z) : outcome SyncState :=
  o <-? objects st !! i;
  psci <-? pSysCounterInfo o;
  if decide (counterType psci = XSyncCounterNeverChanges) then Ret st
  else
    ts <-? mapM (get_trigger st) (pTriglist o);
    let b := compute_brackets (counterType psci) (value o) ts in
    let psci := psci <| bracket_greater := br_gt b |> <| bracket_less := br_lt b |> in
    let st := set_object st i (o <| pSysCounterInfo := Some psci |>) in
    Ret (BracketValues st i psci (newlt b) (newgt b)).

(** ** The list of triggers of an object *)

(** After a change of the triggers or the value of a system counter. *)
Definition compute_if_system st (i : Z) : outcome SyncState :=
  o <-? objects st !! i;
  if bool_decide (so_type o = SYNC_COUNTER) && IsSystemCounter o then SyncComputeBracketValues st i else Ret st.

(** [Xext/sync.c: SyncDeleteTriggerFromSyncObject] *)
Definition SyncDeleteTriggerFromSyncObject st r : outcome SyncState :=
  t <-? get_trigger st r;
  match pSync t with
  | None => Ret st
  | Some i =>
      o <-? objects st !! i;
      compute_if_system (set_object st i (o <| pTriglist ::= filter (fun x => x <> r) |>)) i
  end.

(** [XNFalloc] does not return without memory.
    [Xext/sync.c: SyncAddTriggerToSyncObject] *)
Definition SyncAddTriggerToSyncObject st r : outcome SyncState :=
  t <-? get_trigger st r;
  match pSync t with
  | None => Ret st
  | Some i =>
      o <-? objects st !! i;
      if bool_decide (r ∈ pTriglist o) then Ret st
      else
        let '(ok, st) := calloc st 16 in
        if negb ok then FatalError
        else compute_if_system (set_object st i (o <| pTriglist ::= cons r |>)) i
  end.

(** ** Checking *)

(** The value the comparison functions look at; [None] when the trigger has no
    counter. *)
Definition counter_value st t : outcome (option Z) :=
  match pSync t with
  | None => Ret None
  | Some i => o <-? objects st !! i; Ret (Some (value o))
  end.

(** [Xext/sync.c: SyncCheckWarnIsCounter] *)
Definition SyncCheckWarnIsCounter st (sync : option Z) : outcome bool :=
  match sync with
  | None => Ret true
  | Some i => o <-? objects st !! i; Ret (bool_decide (so_type o = SYNC_COUNTER))
  end.

(** What the four comparison functions decide on a value.
    [Xext/sync.c: SyncCheckTriggerPositiveComparison 239-301] *)
Definition compare (f : check_fn) (v tv oldval : Z) : bool :=
  match f with
  | SyncCheckTriggerPositiveComparison => v >=? tv
  | SyncCheckTriggerNegativeComparison => v <=? tv
  | SyncCheckTriggerPositiveTransition => (oldval <? tv) && (v >=? tv)
  | SyncCheckTriggerNegativeTransition => (oldval >? tv) && (v <=? tv)
  | SyncCheckTriggerFence => false
  end.

(** [pTrigger->CheckTrigger (pTrigger, oldval)]
    [Xext/sync.c: SyncCheckTriggerFence 303-311] *)
Definition check_trigger st t (oldval : Z) : outcome bool :=
  f <-? CheckTrigger t;
  match f with
  | SyncCheckTriggerFence =>
      match pSync t with
      | None => Ret true
      | Some i => o <-? objects st !! i; Ret (triggered o)
      end
  | f =>
      ok <-- SyncCheckWarnIsCounter st (pSync t);
      if negb ok then Ret false
      else
        v <-- counter_value st t;
        Ret (match v with None => true | Some v => compare f v (test_value t) oldval end)
  end.

Definition has (changes bit : Z) : bool := negb (Z.land changes bit =? 0).

(** The function for the test type; an unknown type has none.
    [Xext/sync.c: SyncInitTrigger 402-425] *)
Definition select_check (fence : bool) (tt : Z) : option check_fn :=
  if fence then Some SyncCheckTriggerFence
  else if tt =? XSyncPositiveTransition then Some SyncCheckTriggerPositiveTransition
  else if tt =? XSyncNegativeTransition then Some SyncCheckTriggerNegativeTransition
  else if tt =? XSyncPositiveComparison then Some SyncCheckTriggerPositiveComparison
  else if tt =? XSyncNegativeComparison then Some SyncCheckTriggerNegativeComparison
  else None.

(** [Xext/sync.c: SyncInitTrigger] *)
Definition SyncInitTrigger st (client : Z) r (syncObject : Z) (resType : RESTYPE) (changes : Z)
  : outcome (Z * SyncState) :=
  t <-? get_trigger st r;
  let '(rc, sync, st) :=
    if has changes XSyncCACounter then
      if syncObject =? None_ then (Success, None, st)
      else
        let '(rc, p, st) := lookup_resource st syncObject resType client DixReadAccess in
        (rc, p, if rc =? Success then st else set_error st client syncObject)
    else (Success, pSync t, st) in
  if negb (rc =? Success) then Ret (rc, st)
  else
    '(pCounter, isfence, st) <--
      match sync with
      | None => Ret (None, false, st)
      | Some i =>
          o <-? objects st !! i;
          if decide (so_type o = SYNC_COUNTER) then
            '(o, st) <-- (if IsSystemCounter o then QueryValue st i o else Ret (o, st));
            Ret (Some (i, o), false, st)
          else Ret (None, true, st)
      end;
    if has changes XSyncCAValueType && negb (value_type t =? XSyncRelative)
       && negb (value_type t =? XSyncAbsolute) then
      Ret (BadValue, set_error st client (value_type t))
    else
      let '(status, t, st) :=
        if has changes (Z.lor XSyncCAValueType XSyncCAValue) then
          if value_type t =? XSyncAbsolute then (Success, t <| test_value := wait_value t |>, st)
          else
            match pCounter with
            | None => (BadMatch, t, st)
            | Some (_, o) =>
                let '(v, overflow) := checked_int64_add (value o) (wait_value t) in
                let t := t <| test_value := v |> in
                if overflow then (BadValue, t, set_error st client (u32 (Z.shiftr (wait_value t) 32)))
                else (Success, t, st)
            end
        else (Success, t, st) in
      let st := set_trigger st r t in
      if negb (status =? Success) then Ret (status, st)
      else
        let f := if has changes XSyncCATestType then select_check isfence (test_type t) else CheckTrigger t in
        if has changes XSyncCATestType && bool_decide (f = None) then
          Ret (BadValue, set_error st client (test_type t))
        else
          let t := t <| CheckTrigger := f |> in
          let st := set_trigger st r t in
          if has changes XSyncCACounter && negb (bool_decide (sync = pSync t)) then
            st <-- SyncDeleteTriggerFromSyncObject st r;
            st <-- SyncAddTriggerToSyncObject (set_trigger st r (t <| pSync := sync |>)) r;
            Ret (Success, st)
          else
            match pCounter with
            | Some (i, o) =>
                if IsSystemCounter o then st <-- SyncComputeBracketValues st i; Ret (Success, st)
                else Ret (Success, st)
            | None => Ret (Success, st)
            end.

(** ** Events *)

(** [Xext/sync.c: SyncSendAlarmNotifyEvents] *)
Definition SyncSendAlarmNotifyEvents st (a : Z) : outcome SyncState :=
  pAlarm <-? alarms st !! a;
  let t := al_trigger pAlarm in
  ok <-- SyncCheckWarnIsCounter st (pSync t);
  if negb ok then Ret st
  else
    v <-- counter_value st t;
    let ane c := AlarmNotify c a (match v with Some v => hilo v | None => (0, 0) end)
                   (hilo (test_value t)) (al_state pAlarm) in
    let st := if negb (al_events pAlarm =? 0) then emit st (ane (al_client pAlarm)) else st in
    Ret (st <| out ::= fun l => l ++ (ane <$> (pEventClients pAlarm).*1) |>).

(** The events of one unblocked await; [count] is how many follow. *)
Fixpoint counter_notifies st (client : Z) (ws : list SyncAwait) : outcome (list sync_output) :=
  match ws with
  | [] => Ret []
  | w :: ws =>
      let t := aw_trigger w in
      i <-? pSync t;
      o <-? objects st !! i;
      l <-- counter_notifies st client ws;
      Ret (CounterNotify client i (hilo (test_value t))
             (if decide (so_type o = SYNC_COUNTER) then hilo (value o) else (0, 0))
             (Z.of_nat (length ws)) (beingDestroyed o) :: l)
  end.

(** [Xext/sync.c: SyncSendCounterNotifyEvents] *)
Definition SyncSendCounterNotifyEvents st (client : Z) (ws : list SyncAwait) : outcome SyncState :=
  if bool_decide (client ∈ clientGone st) then Ret st
  else
    let '(ok, st) := calloc st (32 * Z.of_nat (length ws)) in
    if negb ok then Ret st
    else l <-- counter_notifies st client ws; Ret (st <| out ::= fun l' => l' ++ l |>).

(** ** The client is blocked and unblocked *)

(** The rest of the function is about the connection.
    [os/connection.c: IgnoreClient 858-866] *)
Definition IgnoreClient st (c : Z) : SyncState :=
  let n := default 0 (ignoreCount st !! c) + 1 in
  let st := st <| ignoreCount ::= <[c := n]> |> in
  if n >? 1 then st else st <| isItTimeToYield := true |>.
(** [os/connection.c: AttendClient 879-893] *)
Definition AttendClient st (c : Z) : SyncState :=
  if bool_decide (c ∈ clientGone st) then st
  else st <| ignoreCount ::= <[c := default 0 (ignoreCount st !! c) - 1]> |>.

(** ** Firing *)

(** "The alarm is updated by repeatedly adding delta to the value of the
    trigger and re-initializing it until it becomes FALSE": the new threshold,
    and whether the addition overflowed.
    [Xext/sync.c: SyncAlarmTriggerFired 606-610] *)
Definition alarm_step st t (d v : Z) (tv : Z) : Z + outcome (Z * bool) :=
  let '(tv, overflow) := checked_int64_add tv d in
  if overflow then inr (Ret (tv, true))
  else
    match check_trigger st (t <| test_value := tv |>) v with
    | Ret true => inl tv
    | Ret false => inr (Ret (tv, false))
    | FatalError => inr FatalError
    | Undefined => inr Undefined
    | Diverge => inr Diverge
    end.

(** [Xext/sync.c: SyncAlarmTriggerFired] *)
Definition SyncAlarmTriggerFired st (a : Z) : outcome SyncState :=
  pAlarm <-? alarms st !! a;
  let t := al_trigger pAlarm in
  ok <-- SyncCheckWarnIsCounter st (pSync t);
  if negb ok then Ret st
  else if negb (al_state pAlarm =? XSyncAlarmActive) then Ret st
  else
    v <-- counter_value st t;
    '(state, new_test_value) <--
      match v with
      | None => Ret (XSyncAlarmInactive, test_value t)
      | Some v =>
          if (delta pAlarm =? 0) && ((test_type t =? XSyncPositiveComparison) ||
                                     (test_type t =? XSyncNegativeComparison))
          then Ret (XSyncAlarmInactive, test_value t)
          else
            '(tv, overflow) <-- run_loop (alarm_step st t (delta pAlarm) v) TURNS (test_value t);
            Ret (if overflow then (XSyncAlarmInactive, test_value t) else (XSyncAlarmActive, tv))
      end;
    st <-- SyncSendAlarmNotifyEvents (on_alarm st a (fun x => x <| al_state := state |>)) a;
    Ret (on_alarm st a (fun x => x <| al_trigger ::= fun t => t <| test_value := new_test_value |> |>)).

(** [Xext/sync.c: SyncAlarmCounterDestroyed] *)
Definition SyncAlarmCounterDestroyed st (a : Z) : outcome SyncState :=
  _ <-? alarms st !! a;
  st <-- SyncSendAlarmNotifyEvents (on_alarm st a (fun x => x <| al_state := XSyncAlarmInactive |>)) a;
  Ret (on_alarm st a (fun x => x <| al_trigger ::= fun t => t <| pSync := None |> |>)).

(** Whether condition [w] of an unblocked await generates an event.
    [Xext/sync.c: SyncAwaitTriggerFired 667-716] *)
Definition await_generates st (w : SyncAwait) : outcome bool :=
  let t := aw_trigger w in
  i <-? pSync t;
  o <-? objects st !! i;
  if beingDestroyed o then Ret true
  else if decide (so_type o = SYNC_COUNTER) then
    let '(diff, overflow) := checked_int64_subtract (value o) (test_value t) in
    if overflow then Ret false
    else
      let diffgreater := diff >? event_threshold w in
      let diffequal := diff =? event_threshold w in
      Ret ((((test_type t =? XSyncPositiveComparison) || (test_type t =? XSyncPositiveTransition))
             && (diffgreater || diffequal))
           || (((test_type t =? XSyncNegativeComparison) || (test_type t =? XSyncNegativeTransition))
                && negb diffgreater))
  else Ret false.

Fixpoint generating st (ws : list SyncAwait) : outcome (list SyncAwait) :=
  match ws with
  | [] => Ret []
  | w :: ws => b <-- await_generates st w; l <-- generating st ws; Ret (if b : bool then w :: l else l)
  end.

(** The functions that delete resources call each other through
    [FreeResource]. *)
Section Freeing.
Context (FreeResource : SyncState -> Z -> outcome SyncState).

(** [Xext/sync.c: SyncAwaitTriggerFired] *)
Definition SyncAwaitTriggerFired st (u : Z) : outcome SyncState :=
  un <-? awaits st !! u;
  let '(ok, st) := calloc st (8 * Z.of_nat (num_waitconditions un)) in
  st <-- (if ok then
            ws <-- generating st (take (num_waitconditions un) (conditions un));
            if bool_decide (ws = []) then Ret st else SyncSendCounterNotifyEvents st (hd_client un) ws
          else Ret st);
  FreeResource (AttendClient st (hd_client un)) u.

(** [pTrigger->TriggerFired (pTrigger)] *)
Definition TriggerFired st r : outcome SyncState :=
  match r with
  | TAlarm a => SyncAlarmTriggerFired st a
  | TAwait u _ => SyncAwaitTriggerFired st u
  end.
(** [pTrigger->CounterDestroyed (pTrigger)] *)
Definition CounterDestroyed st r : outcome SyncState :=
  match r with
  | TAlarm a => SyncAlarmCounterDestroyed st a
  | TAwait u _ => SyncAwaitTriggerFired st u
  end.

(** The node after the one of [r]; [None] when [r] has no node. *)
Fixpoint next_of (l : list trigger_ref) r : option (option trigger_ref) :=
  match l with
  | [] => None
  | x :: l => if decide (x = r) then Some (head l) else next_of l r
  end.

(** One turn of the loops that check the triggers of object [i]: the next node
    is read before the trigger fires.
    [Xext/sync.c: SyncChangeCounter 750-754] *)
Definition fire_step (i : Z) (oldval : Z) (s : SyncState * option trigger_ref)
  : (SyncState * option trigger_ref) + outcome SyncState :=
  let '(st, ptl) := s in
  match ptl with
  | None => inr (Ret st)
  | Some r =>
      match (o <-? objects st !! i;
             pnext <-? next_of (pTriglist o) r;
             t <-? get_trigger st r;
             fires <-- check_trigger st t oldval;
             st <-- (if fires : bool then TriggerFired st r else Ret st);
             Ret (st, pnext)) with
      | Ret s => inl s
      | FatalError => inr FatalError
      | Undefined => inr Undefined
      | Diverge => inr Diverge
      end
  end.

(** [Xext/sync.c: SyncUpdateCounter] *)
Definition SyncUpdateCounter st (i newval : Z) : outcome (Z * SyncState) :=
  o <-? objects st !! i;
  Ret (value o, set_object st i (o <| value := newval |>)).

(** [Xext/sync.c: SyncChangeCounter] *)
Definition SyncChangeCounter st (i newval : Z) : outcome SyncState :=
  '(oldval, st) <-- SyncUpdateCounter st i newval;
  o <-? objects st !! i;
  st <-- run_loop (fire_step i oldval) TURNS (st, head (pTriglist o));
  o <-? objects st !! i;
  if IsSystemCounter o then SyncComputeBracketValues st i else Ret st.

(** [miext/sync/misync.c: miSyncTriggerFence] *)
Definition miSyncTriggerFence st (i : Z) : outcome SyncState :=
  o <-? objects st !! i;
  run_loop (fire_step i 0) TURNS (set_object st i (o <| triggered := true |>), head (pTriglist o)).

(** Telling the triggers of an object that is destroyed: here the next node is
    read after the call.  [Xext/sync.c: FreeCounter 1191-1195] *)
Definition destroyed_step (i : Z) (s : SyncState * option trigger_ref)
  : (SyncState * option trigger_ref) + outcome SyncState :=
  let '(st, ptl) := s in
  match ptl with
  | None => inr (Ret st)
  | Some r =>
      match (_ <-? get_trigger st r;
             st <-- CounterDestroyed st r;
             o <-? objects st !! i;
             pnext <-? next_of (pTriglist o) r;
             Ret (st, pnext)) with
      | Ret s => inl s
      | FatalError => inr FatalError
      | Undefined => inr Undefined
      | Diverge => inr Diverge
      end
  end.

(** [Xext/sync.c: FreeCounter] *)
Definition FreeCounter st (i : Z) : outcome SyncState :=
  o <-? objects st !! i;
  let st := set_object st i (o <| beingDestroyed := true |>) in
  st <-- (if initialized o then
            st <-- run_loop (destroyed_step i) TURNS (st, head (pTriglist o));
            if IsSystemCounter o then
              _ <-? pSysCounterInfo o;
              Ret (st <| SysCounterList ::= filter (fun x => x <> i) |>)
            else Ret st
          else Ret st);
  Ret (st <| objects ::= delete i |>).

(** [miext/sync/misync.c: miSyncDestroyFence] *)
Definition miSyncDestroyFence st (i : Z) : outcome SyncState :=
  o <-? objects st !! i;
  let st := set_object st i (o <| beingDestroyed := true |>) in
  st <-- (if initialized o then run_loop (destroyed_step i) TURNS (st, head (pTriglist o)) else Ret st);
  Ret (st <| objects ::= delete i |>).

(** [Xext/sync.c: FreeAwait 1223-1232] *)
Fixpoint free_conditions st (u : Z) (k n : nat) : outcome SyncState :=
  match n with
  | O => Ret st
  | S n =>
      t <-? get_trigger st (TAwait u k);
      st <-- match pSync t with
             | None => Ret st
             | Some i =>
                 o <-? objects st !! i;
                 if beingDestroyed o then Ret st else SyncDeleteTriggerFromSyncObject st (TAwait u k)
             end;
      free_conditions st u (S k) n
  end.

(** [Xext/sync.c: FreeAwait] *)
Definition FreeAwait st (u : Z) : outcome SyncState :=
  un <-? awaits st !! u;
  st <-- free_conditions st u 0 (num_waitconditions un);
  Ret (st <| awaits ::= delete u |>).

(** [Xext/sync.c: FreeAlarmClient 1238-1257] *)
Definition FreeAlarmClient st (a id : Z) : outcome SyncState :=
  pAlarm <-? alarms st !! a;
  match list_find (fun p => p.2 = id) (pEventClients pAlarm) with
  | Some (k, _) => Ret (on_alarm st a (fun x => x <| pEventClients ::= delete k |>))
  | None => FatalError
  end.

(** [Xext/sync.c: FreeAlarm 1167-1168] *)
Definition free_clients_step (a : Z) st : SyncState + outcome SyncState :=
  match alarms st !! a with
  | None => inr Undefined
  | Some pAlarm =>
      match pEventClients pAlarm with
      | [] => inr (Ret st)
      | (_, id) :: _ =>
          match FreeResource st id with Ret st => inl st | o => inr o end
      end
  end.

(** [Xext/sync.c: FreeAlarm] *)
Definition FreeAlarm st (a : Z) : outcome SyncState :=
  _ <-? alarms st !! a;
  st <-- SyncSendAlarmNotifyEvents (on_alarm st a (fun x => x <| al_state := XSyncAlarmDestroyed |>)) a;
  st <-- run_loop (free_clients_step a) TURNS st;
  st <-- SyncDeleteTriggerFromSyncObject st (TAlarm a);
  Ret (st <| alarms ::= delete a |>).

(** The delete function of each type. *)
Definition delete_resource st (rt : RESTYPE) (p id : Z) : outcome SyncState :=
  match rt with
  | RTCounter => FreeCounter st p
  | RTFence => miSyncDestroyFence st p
  | RTAwait => FreeAwait st p
  | RTAlarm => FreeAlarm st p
  | RTAlarmClient => FreeAlarmClient st p id
  end.
End Freeing.

(** Freeing by id: the resource leaves the database, then its delete function
    runs.  A counter frees awaits and an alarm its clients; these free nothing
    more, so that two levels are enough. *)
Fixpoint FreeResource_rec (fuel : nat) st (id : Z) : outcome SyncState :=
  match fuel with
  | O => Diverge
  | S fuel =>
      match resources st !! id with
      | None => Ret st
      | Some (rt, p) =>
          delete_resource (FreeResource_rec fuel) (st <| resources ::= delete id |>) rt p id
      end
  end.
Definition FreeResource : SyncState -> Z -> outcome SyncState := FreeResource_rec 2.
End Sync.
