(* ===== verification/SyncRequest.v ===== *)
(** * SyncRequest: the requests of the SYNC extension and the system counters

    The request handlers of [Xext/sync.c] on the state of Sync.v, the creation
    of counters, alarms, awaits and fences, and the block and wakeup handlers
    of the SERVERTIME and IDLETIME counters. *)

From S2P Require Import Prelude.
From S2P Require Import Wire.
From S2P Require Import Request.
From S2P Require Import Sync.

Section Requests.
Context `{SyncEnv} (al : allocator).
Implicit Types (st : SyncState) (client : Z) (sw : bool).

(** [AddResource]: without memory the delete function is called at once.  The
    allocation is that of a [ResourceRec]. *)
Definition AddResource st (id : Z) (rt : RESTYPE) (p : Z) : outcome (bool * SyncState) :=
  let '(ok, st) := calloc al st 32 in
  if ok then Ret (true, st <| resources ::= <[id := (rt, p)]> |>)
  else st <-- delete_resource al (FreeResource al) st rt p id; Ret (false, st).

Definition fake_id st client : Z := FakeClientID (dom (resources st)) client.

(** [LEGAL_NEW_RESOURCE] *)
Definition LegalNewID st (id client : Z) : bool :=
  legal_range id client && bool_decide (resources st !! id = None).

(** ** Objects *)

(** [Xext/sync.c: SyncCreate] *)
Definition SyncCreate st (client : option Z) (id : Z) (type : sync_type) : outcome (bool * SyncState) :=
  let '(ok, st) := calloc al st 64 in
  if negb ok then Ret (false, st)
  else
    let st := set_object st id (MkSync None [] type false false 0 None false) in
    '(ok, st) <-- AddResource st id (match type with SYNC_COUNTER => RTCounter | SYNC_FENCE => RTFence end) id;
    if negb ok then Ret (false, st)
    else Ret (true, on_object st id (fun o => o <| so_client := client |> <| pTriglist := [] |>
                                                <| beingDestroyed := false |> <| so_type := type |>)).

(** [Xext/sync.c: SyncCreateCounter] *)
Definition SyncCreateCounter st (client : option Z) (id initialvalue : Z) : outcome (bool * SyncState) :=
  '(ok, st) <-- SyncCreate st client id SYNC_COUNTER;
  if negb ok then Ret (false, st)
  else Ret (true, on_object st id (fun o => o <| value := initialvalue |> <| pSysCounterInfo := None |>
                                              <| initialized := true |>)).

(** The address of the counter; [id] is what [dixAllocServerXID] gives.
    [Xext/sync.c: SyncCreateSystemCounter] *)
Definition SyncCreateSystemCounter st (name : list Z) (initial resolution : Z) (ct : SyncCounterType)
    (f : sys_funcs) : outcome (option Z * SyncState) :=
  let id := fake_id st 0 in
  '(ok, st) <-- SyncCreateCounter st None id initial;
  if negb ok then Ret (None, st)
  else
    let '(ok, st) := calloc al st 80 in
    if negb ok then st <-- FreeResource al st id; Ret (None, st)
    else
      let psci := MkSys name resolution LLONG_MAX LLONG_MIN ct f None in
      Ret (Some id, on_object st id (fun o => o <| pSysCounterInfo := Some psci |>)
                      <| SysCounterList ::= cons id |>).

(** [Xext/sync.c: SyncDestroySystemCounter] *)
Definition SyncDestroySystemCounter st (i : Z) : outcome SyncState := FreeResource al st i.

(** ** Counters *)

Definition valid_counter st (cid client mode : Z) : Z * option Z * SyncState :=
  lookup_resource st cid RTCounter client mode.

(** [Xext/sync.c: ProcSyncCreateCounter] *)
Definition ProcSyncCreateCounter st client sw (req_len cid initial_value_hi initial_value_lo : Z)
  : outcome (Z * SyncState) :=
  if size_mismatch 16 req_len then Ret (BadLength, st)
  else
    let cid := swapl sw cid in
    let lo := swapl sw initial_value_lo in
    let hi := swapl sw initial_value_hi in
    if negb (LegalNewID st cid client) then Ret (BadIDChoice, set_error st client cid)
    else
      '(ok, st) <-- SyncCreateCounter st (Some client) cid (int64 hi lo);
      Ret (if ok : bool then Success else BadAlloc, st).

(** [Xext/sync.c: ProcSyncSetCounter] *)
Definition ProcSyncSetCounter st client sw (req_len cid value_hi value_lo : Z) : outcome (Z * SyncState) :=
  if size_mismatch 16 req_len then Ret (BadLength, st)
  else
    let cid := swapl sw cid in
    let lo := swapl sw value_lo in
    let hi := swapl sw value_hi in
    let '(rc, p, st) := valid_counter st cid client DixWriteAccess in
    match p with
    | None => Ret (rc, st)
    | Some i =>
        o <-? objects st !! i;
        if IsSystemCounter o then Ret (BadAccess, set_error st client cid)
        else st <-- SyncChangeCounter al (FreeResource al) st i (int64 hi lo); Ret (Success, st)
    end.

(** [Xext/sync.c: ProcSyncChangeCounter] *)
Definition ProcSyncChangeCounter st client sw (req_len cid value_hi value_lo : Z) : outcome (Z * SyncState) :=
  if size_mismatch 16 req_len then Ret (BadLength, st)
  else
    let cid := swapl sw cid in
    let lo := swapl sw value_lo in
    let hi := swapl sw value_hi in
    let '(rc, p, st) := valid_counter st cid client DixWriteAccess in
    match p with
    | None => Ret (rc, st)
    | Some i =>
        o <-? objects st !! i;
        if IsSystemCounter o then Ret (BadAccess, set_error st client cid)
        else
          let '(newvalue, overflow) := checked_int64_add (int64 hi lo) (value o) in
          if overflow then Ret (BadValue, set_error st client hi)
          else st <-- SyncChangeCounter al (FreeResource al) st i newvalue; Ret (Success, st)
    end.

(** [Xext/sync.c: ProcSyncDestroyCounter] *)
Definition ProcSyncDestroyCounter st client sw (req_len counter : Z) : outcome (Z * SyncState) :=
  if size_mismatch 8 req_len then Ret (BadLength, st)
  else
    let counter := swapl sw counter in
    let '(rc, p, st) := valid_counter st counter client DixDestroyAccess in
    match p with
    | None => Ret (rc, st)
    | Some i =>
        o <-? objects st !! i;
        if IsSystemCounter o then Ret (BadAccess, set_error st client counter)
        else st <-- FreeResource al st i; Ret (Success, st)
    end.

(** The reply of two words.
    [Xext/sync.c: ProcSyncQueryCounter] *)
Definition ProcSyncQueryCounter st client sw (req_len counter : Z) : outcome (Z * SyncState) :=
  if size_mismatch 8 req_len then Ret (BadLength, st)
  else
    let counter := swapl sw counter in
    let '(rc, p, st) := valid_counter st counter client DixReadAccess in
    match p with
    | None => Ret (rc, st)
    | Some i =>
        o <-? objects st !! i;
        '(o, st) <-- (if IsSystemCounter o then QueryValue st i o else Ret (o, st));
        let '(hi, lo) := hilo (value o) in
        Ret (Success, emit st (OReply client (write_reply_hdr_simple sw 32 [swapl sw hi; swapl sw lo])))
    end.

(** ** Awaits *)

(** [Xext/sync.c: SyncAwaitPrologue] *)
Definition SyncAwaitPrologue st client (items : nat) : outcome (option Z * SyncState) :=
  let '(ok, st) := calloc al st (64 * (Z.of_nat items + 1)) in
  if negb ok then Ret (None, st)
  else
    let id := fake_id st client in
    let st := st <| awaits ::= <[id := MkUnion client 0 (replicate items (MkAwait trigger0 0))]> |> in
    '(ok, st) <-- AddResource st id RTAwait id;
    Ret (if ok : bool then Some id else None, st).

(** See if any of the triggers are already true; once is enough.
    [Xext/sync.c: SyncAwaitEpilogue 1564-1584] *)
Fixpoint await_check st (u : Z) (k n : nat) : outcome SyncState :=
  match n with
  | O => Ret st
  | S n =>
      t <-? get_trigger st (TAwait u k);
      i <-? pSync t;
      o <-? objects st !! i;
      fires <-- check_trigger st t (if decide (so_type o = SYNC_COUNTER) then value o else 0);
      if fires : bool then TriggerFired al (FreeResource al) st (TAwait u k) else await_check st u (S k) n
  end.

(** [Xext/sync.c: SyncAwaitEpilogue] *)
Definition SyncAwaitEpilogue st client (items : nat) (u : Z) : outcome SyncState :=
  await_check (IgnoreClient st client) u 0 items.

(** A wait condition: counter, value type, wait value, test type, threshold. *)
Record WaitCondition := MkCond {
  wc_counter : Z;
  wc_value_type : Z;
  wc_wait_value : Z;
  wc_test_type : Z;
  wc_threshold : Z
}.
Fixpoint wait_conditions (l : list Z) : list WaitCondition :=
  match l with
  | c :: vt :: hi :: lo :: tst :: thi :: tlo :: l =>
      MkCond c vt (int64 hi lo) tst (int64 thi tlo) :: wait_conditions l
  | _ => []
  end.

(** The condition [k] of the await is set up; an error frees the await.
    [Xext/sync.c: ProcSyncAwait 1624-1661] *)
Definition await_condition (rt : RESTYPE) (none_error : Z) st client (u : Z) (k : nat) (w : WaitCondition)
  : outcome (Z * SyncState) :=
  if wc_counter w =? None_ then
    st <-- FreeResource al st u;
    Ret (none_error, set_error st client None_)
  else
    t <-? get_trigger st (TAwait u k);
    let t := t <| pSync := None |> <| value_type := wc_value_type w |> <| wait_value := wc_wait_value w |>
               <| test_type := wc_test_type w |> in
    '(status, st) <-- SyncInitTrigger al (set_trigger st (TAwait u k) t) client (TAwait u k) (wc_counter w) rt
                        XSyncCAAllTrigger;
    if negb (status =? Success) then st <-- FreeResource al st u; Ret (status, st)
    else
      Ret (Success, on_union st u (fun un =>
        un <| conditions ::= alter (fun x => x <| event_threshold := wc_threshold w |>) k |>
           <| num_waitconditions ::= S |>)).

Fixpoint await_conditions (rt : RESTYPE) (none_error : Z) st client (u : Z) (k : nat) (ws : list WaitCondition)
  : outcome (Z * SyncState) :=
  match ws with
  | [] => Ret (Success, st)
  | w :: ws =>
      '(status, st) <-- await_condition rt none_error st client u k w;
      if negb (status =? Success) then Ret (status, st)
      else await_conditions rt none_error st client u (S k) ws
  end.

(** [Xext/sync.c: ProcSyncAwait] *)
Definition ProcSyncAwait st client sw (req_len : Z) (rest : list Z) : outcome (Z * SyncState) :=
  if too_short 4 req_len then Ret (BadLength, st)
  else
    let rest := if sw then SwapRestL rest else rest in
    let len := i32 (Z.shiftl req_len 2) - 4 in
    let items := Z.quot len 28 in
    if negb (items * 28 =? len) then Ret (BadLength, st)
    else if items =? 0 then Ret (BadValue, set_error st client items)
    else
      '(u, st) <-- SyncAwaitPrologue st client (Z.to_nat items);
      match u with
      | None => Ret (BadAlloc, st)
      | Some u =>
          let ws := take (Z.to_nat items) (wait_conditions (words32 rest)) in
          if negb (Z.of_nat (length ws) =? items) then Undefined
          else
            '(status, st) <-- await_conditions RTCounter (SyncErrorBase + XSyncBadCounter) st client u 0 ws;
            if negb (status =? Success) then Ret (status, st)
            else st <-- SyncAwaitEpilogue st client (Z.to_nat items) u; Ret (Success, st)
      end.

(** [Xext/sync.c: ProcSyncAwaitFence] *)
Definition ProcSyncAwaitFence st client sw (req_len : Z) (rest : list Z) : outcome (Z * SyncState) :=
  if too_short 4 req_len then Ret (BadLength, st)
  else
    let rest := if sw then SwapRestL rest else rest in
    let len := i32 (Z.shiftl req_len 2) - 4 in
    let items := i32 (u64 len / 4) in
    if negb (u64 (items * 4) =? u64 len) then Ret (BadLength, st)
    else if items =? 0 then Ret (BadValue, set_error st client items)
    else
      '(u, st) <-- SyncAwaitPrologue st client (Z.to_nat items);
      match u with
      | None => Ret (BadAlloc, st)
      | Some u =>
          let ws := (fun f => MkCond f XSyncAbsolute 0 0 0) <$> take (Z.to_nat items) (words32 rest) in
          if negb (Z.of_nat (length ws) =? items) then Undefined
          else
            '(status, st) <-- await_conditions RTFence (SyncErrorBase + XSyncBadFence) st client u 0 ws;
            if negb (status =? Success) then Ret (status, st)
            else st <-- SyncAwaitEpilogue st client (Z.to_nat items) u; Ret (Success, st)
      end.

(** ** Alarms *)

(** Adding a client to the event list of an alarm or removing it.
    [Xext/sync.c: SyncEventSelectForAlarm] *)
Definition SyncEventSelectForAlarm st (a client : Z) (wantevents : Z) : outcome (Z * SyncState) :=
  pAlarm <-? alarms st !! a;
  if client =? al_client pAlarm then
    Ret (Success, on_alarm st a (fun x => x <| al_events := wantevents |>))
  else
    match find_first (fun p => p.1 =? client) (pEventClients pAlarm) with
    | Some (_, delete_id) =>
        if wantevents =? 0 then st <-- FreeResource al st delete_id; Ret (Success, st)
        else Ret (Success, st)
    | None =>
        if wantevents =? 0 then Ret (Success, st)
        else
          let '(ok, st) := calloc al st 24 in
          if negb ok then Ret (BadAlloc, st)
          else
            let id := fake_id st client in
            let st := on_alarm st a (fun x => x <| pEventClients ::= cons (client, id) |>) in
            '(ok, st) <-- AddResource st id RTAlarmClient a;
            Ret (if ok : bool then Success else BadAlloc, st)
    end.

(** What the value list of a request asks for. *)
Record alarm_attrs := MkAttrs {
  at_counter : Z;
  at_trigger : SyncTrigger;
  at_delta : Z;
  at_select : option Z
}.
#[export] Instance eta_attrs : Settable alarm_attrs := fun a =>
  MkAttrs (at_counter a) (at_trigger a) (at_delta a) (at_select a).

(** [os/osdep.h: lowbit 68] *)
Definition lowbit (x : Z) : Z := Z.land x (u64 (u64 (Z.lnot x) + 1)).

(** The value list in the order of the mask's bits, and the mask that is left;
    [inr] is an error value.  Reading past the end of the list is undefined.
    [Xext/sync.c: SyncChangeAlarmAttributes 839-888] *)
Fixpoint alarm_values (fuel : nat) (mask : Z) (values : list Z) (acc : alarm_attrs)
  : outcome (alarm_attrs + Z) :=
  match fuel with
  | O => Diverge
  | S fuel =>
      if mask =? 0 then Ret (inl acc)
      else
        let index2 := lowbit mask in
        let mask := Z.land mask (Z.lnot index2) in
        if index2 =? XSyncCACounter then
          match values with
          | v :: values => alarm_values fuel mask values (acc <| at_counter := v |>)
          | _ => Undefined
          end
        else if index2 =? XSyncCAValueType then
          match values with
          | v :: values => alarm_values fuel mask values (acc <| at_trigger ::= fun t => t <| value_type := v |> |>)
          | _ => Undefined
          end
        else if index2 =? XSyncCAValue then
          match values with
          | hi :: lo :: values =>
              alarm_values fuel mask values (acc <| at_trigger ::= fun t => t <| wait_value := int64 hi lo |> |>)
          | _ => Undefined
          end
        else if index2 =? XSyncCATestType then
          match values with
          | v :: values => alarm_values fuel mask values (acc <| at_trigger ::= fun t => t <| test_type := v |> |>)
          | _ => Undefined
          end
        else if index2 =? XSyncCADelta then
          match values with
          | hi :: lo :: values => alarm_values fuel mask values (acc <| at_delta := int64 hi lo |>)
          | _ => Undefined
          end
        else if index2 =? XSyncCAEvents then
          match values with
          | v :: values =>
              if negb (v =? 1) && negb (v =? 0) then Ret (inr v)
              else alarm_values fuel mask values (acc <| at_select := Some v |>)
          | _ => Undefined
          end
        else Ret (inr (u32 mask))
  end.

Definition bad_delta (tt d : Z) : bool :=
  (((tt =? XSyncPositiveComparison) || (tt =? XSyncPositiveTransition)) && (d <? 0))
  || (((tt =? XSyncNegativeComparison) || (tt =? XSyncNegativeTransition)) && (0 <? d)).

(** Each turn over the value list clears a bit of the mask, so 33 turns are
    enough.  [Xext/sync.c: SyncChangeAlarmAttributes] *)
Definition SyncChangeAlarmAttributes st client (a mask : Z) (values : list Z) : outcome (Z * SyncState) :=
  pAlarm <-? alarms st !! a;
  let t := al_trigger pAlarm in
  att <-- alarm_values 33 mask values
            (MkAttrs (match pSync t with Some i => i | None => None_ end) t (delta pAlarm) None);
  match att with
  | inr v => Ret (BadValue, set_error st client v)
  | inl att =>
      '(status, st) <-- match at_select att with
                        | Some v => SyncEventSelectForAlarm st a client v
                        | None => Ret (Success, st)
                        end;
      if negb (status =? Success) then Ret (status, st)
      else if has mask (Z.lor XSyncCADelta XSyncCATestType)
              && bad_delta (test_type (at_trigger att)) (at_delta att) then Ret (BadMatch, st)
      else
        let st := on_alarm st a (fun x => x <| delta := at_delta att |> <| al_trigger := at_trigger att |>) in
        '(status, st) <-- SyncInitTrigger al st client (TAlarm a) (at_counter att) RTCounter
                            (Z.land mask XSyncCAAllTrigger);
        if negb (status =? Success) then Ret (status, st)
        else Ret (Success, on_alarm st a (fun x => x <| al_state := XSyncAlarmActive |>))
  end.

(** The number of one bits.
    [os/osdep.h: Ones 184-191] *)
Definition Ones (mask : Z) : Z :=
  let y := Z.land (Z.shiftr mask 1) 3681400539 in
  let y := u64 (mask - y - Z.land (Z.shiftr y 1) 3681400539) in
  Z.land (u64 (y + Z.shiftr y 3)) 3340530119 mod 63.

Definition value_list_length (vmask : Z) : Z :=
  Ones vmask + Ones (Z.land vmask (Z.lor XSyncCAValue XSyncCADelta)).

(** [Xext/sync.c: ProcSyncCreateAlarm] *)
Definition ProcSyncCreateAlarm st client sw (req_len id valueMask : Z) (rest : list Z)
  : outcome (Z * SyncState) :=
  if too_short 12 req_len then Ret (BadLength, st)
  else
    let id := swapl sw id in
    let vmask := swapl sw valueMask in
    let rest := if sw then SwapRestL rest else rest in
    if negb (LegalNewID st id client) then Ret (BadIDChoice, set_error st client id)
    else if negb (u64 (req_len - 3) =? value_list_length vmask) then Ret (BadLength, st)
    else
      let '(ok, st) := calloc al st 96 in
      if negb ok then Ret (BadAlloc, st)
      else
        let t := trigger0 <| value_type := XSyncAbsolute |> <| test_type := XSyncPositiveComparison |> in
        let st := st <| alarms ::= <[id := MkAlarm t 0 0 0 0 []]> |> in
        '(status, st) <-- SyncInitTrigger al st client (TAlarm id) None_ RTCounter XSyncCAAllTrigger;
        if negb (status =? Success) then Ret (status, st <| alarms ::= delete id |>)
        else
          let st := on_alarm st id (fun x => x <| al_client := client |> <| delta := 1 |> <| al_events := 1 |>
                                               <| al_state := XSyncAlarmInactive |> <| pEventClients := [] |>) in
          '(status, st) <-- SyncChangeAlarmAttributes st client id vmask (words32 rest);
          if negb (status =? Success) then Ret (status, st <| alarms ::= delete id |>)
          else
            '(ok, st) <-- AddResource st id RTAlarm id;
            if negb ok then Ret (BadAlloc, st)
            else
              t <-? get_trigger st (TAlarm id);
              match pSync t with
              | None => Ret (Success, on_alarm st id (fun x => x <| al_state := XSyncAlarmInactive |>))
              | Some i =>
                  is_counter <-- SyncCheckWarnIsCounter st (Some i);
                  if negb is_counter then st <-- FreeResource al st id; Ret (BadAlloc, st)
                  else
                    o <-? objects st !! i;
                    fires <-- check_trigger st t (value o);
                    st <-- (if fires : bool then TriggerFired al (FreeResource al) st (TAlarm id) else Ret st);
                    Ret (Success, st)
              end.

(** [Xext/sync.c: ProcSyncChangeAlarm] *)
Definition ProcSyncChangeAlarm st client sw (req_len alarm valueMask : Z) (rest : list Z)
  : outcome (Z * SyncState) :=
  if too_short 12 req_len then Ret (BadLength, st)
  else
    let alarm := swapl sw alarm in
    let vmask := swapl sw valueMask in
    let rest := if sw then SwapRestL rest else rest in
    let '(status, p, st) := lookup_resource st alarm RTAlarm client DixWriteAccess in
    match p with
    | None => Ret (status, st)
    | Some a =>
        if negb (i32 (req_len - 3) =? value_list_length vmask) then Ret (BadLength, st)
        else
          '(status, st) <-- SyncChangeAlarmAttributes st client a vmask (words32 rest);
          if negb (status =? Success) then Ret (status, st)
          else
            t <-? get_trigger st (TAlarm a);
            is_counter <-- SyncCheckWarnIsCounter st (pSync t);
            fires <-- match (if is_counter : bool then pSync t else None) with
                      | None => Ret true
                      | Some i => o <-? objects st !! i; check_trigger st t (value o)
                      end;
            st <-- (if fires : bool then TriggerFired al (FreeResource al) st (TAlarm a) else Ret st);
            Ret (Success, st)
    end.

(** The words of the reply in order: counter, value type, wait value, test
    type, delta, and the two bytes of events and state.
    [Xext/sync.c: ProcSyncQueryAlarm] *)
Definition ProcSyncQueryAlarm st client sw (req_len alarm : Z) : outcome (Z * SyncState) :=
  if size_mismatch 8 req_len then Ret (BadLength, st)
  else
    let alarm := swapl sw alarm in
    let '(rc, p, st) := lookup_resource st alarm RTAlarm client DixReadAccess in
    match p with
    | None => Ret (rc, st)
    | Some a =>
        pAlarm <-? alarms st !! a;
        let t := al_trigger pAlarm in
        counter <-? match pSync t with
                    | Some i => _ ← objects st !! i; Some i
                    | None => Some None_
                    end;
        let '(whi, wlo) := hilo (test_value t) in
        let '(dhi, dlo) := hilo (delta pAlarm) in
        Ret (Success, emit st (OReply client (write_reply_hdr_simple sw 40
          [swapl sw counter; XSyncAbsolute; swapl sw whi; swapl sw wlo; swapl sw (test_type t);
           swapl sw dhi; swapl sw dlo; u8 (al_events pAlarm); u8 (al_state pAlarm)])))
    end.

(** [Xext/sync.c: ProcSyncDestroyAlarm] *)
Definition ProcSyncDestroyAlarm st client sw (req_len alarm : Z) : outcome (Z * SyncState) :=
  if size_mismatch 8 req_len then Ret (BadLength, st)
  else
    let alarm := swapl sw alarm in
    let '(rc, p, st) := lookup_resource st alarm RTAlarm client DixDestroyAccess in
    match p with
    | None => Ret (rc, st)
    | Some _ => st <-- FreeResource al st alarm; Ret (Success, st)
    end.

(** ** Fences *)

(** [miext/sync/misync.c: miSyncInitFence] *)
Definition miSyncInitFence st (i : Z) (initially_triggered : bool) : SyncState :=
  on_object st i (fun o => o <| triggered := initially_triggered |> <| initialized := true |>).

(** [Xext/sync.c: ProcSyncCreateFence] *)
Definition ProcSyncCreateFence st client sw (req_len d fid initially_triggered : Z) : outcome (Z * SyncState) :=
  if size_mismatch 16 req_len then Ret (BadLength, st)
  else
    let d := swapl sw d in
    let fid := swapl sw fid in
    let rc := lookup_drawable client d in
    if negb (rc =? Success) then Ret (rc, st)
    else if negb (LegalNewID st fid client) then Ret (BadIDChoice, set_error st client fid)
    else
      '(ok, st) <-- SyncCreate st (Some client) fid SYNC_FENCE;
      if negb ok then Ret (BadAlloc, st)
      else Ret (Success, miSyncInitFence st fid (negb (initially_triggered =? 0))).

(** [Xext/sync.c: SyncVerifyFence] *)
Definition SyncVerifyFence st (fid client mode : Z) : Z * option Z * SyncState :=
  let '(rc, p, st) := lookup_resource st fid RTFence client mode in
  (rc, p, if rc =? Success then st else set_error st client fid).

Definition lookup_fence st (fid client mode : Z) : Z * option Z * SyncState :=
  lookup_resource st fid RTFence client mode.

(** [Xext/sync.c: ProcSyncTriggerFence] *)
Definition ProcSyncTriggerFence st client sw (req_len fid : Z) : outcome (Z * SyncState) :=
  if size_mismatch 8 req_len then Ret (BadLength, st)
  else
    let '(rc, p, st) := lookup_fence st (swapl sw fid) client DixWriteAccess in
    match p with
    | None => Ret (rc, st)
    | Some i => st <-- miSyncTriggerFence al (FreeResource al) st i; Ret (Success, st)
    end.

(** [Xext/sync.c: ProcSyncResetFence] *)
Definition ProcSyncResetFence st client sw (req_len fid : Z) : outcome (Z * SyncState) :=
  if size_mismatch 8 req_len then Ret (BadLength, st)
  else
    let '(rc, p, st) := lookup_fence st (swapl sw fid) client DixWriteAccess in
    match p with
    | None => Ret (rc, st)
    | Some i =>
        o <-? objects st !! i;
        if negb (triggered o) then Ret (BadMatch, st)
        else Ret (Success, on_object st i (fun o => o <| triggered := false |>))
    end.

(** [Xext/sync.c: ProcSyncDestroyFence] *)
Definition ProcSyncDestroyFence st client sw (req_len fid : Z) : outcome (Z * SyncState) :=
  if size_mismatch 8 req_len then Ret (BadLength, st)
  else
    let fid := swapl sw fid in
    let '(rc, p, st) := lookup_fence st fid client DixDestroyAccess in
    match p with
    | None => Ret (rc, st)
    | Some _ => st <-- FreeResource al st fid; Ret (Success, st)
    end.

(** [Xext/sync.c: ProcSyncQueryFence] *)
Definition ProcSyncQueryFence st client sw (req_len fid : Z) : outcome (Z * SyncState) :=
  if size_mismatch 8 req_len then Ret (BadLength, st)
  else
    let '(rc, p, st) := lookup_fence st (swapl sw fid) client DixReadAccess in
    match p with
    | None => Ret (rc, st)
    | Some i =>
        o <-? objects st !! i;
        Ret (Success, emit st (OReply client (write_reply_hdr_simple sw 32 [Z.b2z (triggered o)])))
    end.

(** ** Priorities and the list of system counters *)

(** The owner of an id, as far as the hook allows it. *)
Definition priority_client (id client mode : Z) : Z * Z :=
  if id =? None_ then (Success, client) else (owner_access client id mode, CLIENT_ID id).

(** Raising [DE_PRIORITYCHANGE] makes the dispatcher look at the priorities.
    [Xext/sync.c: ProcSyncSetPriority] *)
Definition ProcSyncSetPriority st client sw (req_len id prio : Z) : outcome (Z * SyncState) :=
  if size_mismatch 12 req_len then Ret (BadLength, st)
  else
    let id := swapl sw id in
    let prio := i32 (swapl sw prio) in
    let '(rc, c) := priority_client id client DixSetAttrAccess in
    if negb (rc =? Success) then Ret (rc, st)
    else if negb (default 0 (priority st !! c) =? prio) then
      Ret (Success, st <| priority ::= <[c := prio]> |> <| isItTimeToYield := true |>)
    else Ret (Success, st).

(** [Xext/sync.c: ProcSyncGetPriority] *)
Definition ProcSyncGetPriority st client sw (req_len id : Z) : outcome (Z * SyncState) :=
  if size_mismatch 8 req_len then Ret (BadLength, st)
  else
    let '(rc, c) := priority_client (swapl sw id) client DixGetAttrAccess in
    if negb (rc =? Success) then Ret (rc, st)
    else Ret (Success, emit st (OReply client (write_reply_hdr_simple sw 32
           [swapl sw (u32 (default 0 (priority st !! c)))]))).

(** Server versions 3.1. [Xext/sync.c: ProcSyncInitialize] *)
Definition ProcSyncInitialize st client sw (req_len : Z) : outcome (Z * SyncState) :=
  if size_mismatch 8 req_len then Ret (BadLength, st)
  else Ret (Success, emit st (OReply client (write_reply_hdr_simple sw 32 [3; 1]))).

(** One [xSyncSystemCounter] of the reply.
    [Xext/sync.c: ProcSyncListSystemCounters 1292-1304] *)
Definition write_system_counter (b : x_rpcbuf_t) (i : Z) (psci : SysCounterInfo) : x_rpcbuf_t :=
  let namelen := u16 (Z.of_nat (length (sc_name psci))) in
  let b := (x_rpcbuf_write_CARD32 al 0 b i).2 in
  let b := (x_rpcbuf_write_INT32 al 1 b (u32 (Z.shiftr (resolution psci) 32))).2 in
  let b := (x_rpcbuf_write_INT32 al 2 b (u32 (resolution psci))).2 in
  let b := (x_rpcbuf_write_CARD16 al 3 b namelen).2 in
  let b := (x_rpcbuf_write_CARD8s al 4 b (take (Z.to_nat namelen) (sc_name psci))).2 in
  x_rpcbuf_pad al 5 b.

Fixpoint write_system_counters st (b : x_rpcbuf_t) (l : list Z) : outcome x_rpcbuf_t :=
  match l with
  | [] => Ret b
  | i :: l =>
      psci <-? objects st !! i ≫= pSysCounterInfo;
      write_system_counters st (write_system_counter b i psci) l
  end.

(** [Xext/sync.c: ProcSyncListSystemCounters] *)
Definition ProcSyncListSystemCounters st client sw (req_len : Z) : outcome (Z * SyncState) :=
  if size_mismatch 4 req_len then Ret (BadLength, st)
  else
    b <-- write_system_counters st (rpcbuf_init sw true) (SysCounterList st);
    let n := u32 (Z.of_nat (length (SysCounterList st))) in
    match write_reply_hdr_and_rpcbuf sw 32 [swapl sw n] b with
    | None => Ret (BadAlloc, st)
    | Some r => Ret (Success, emit st (OReply client r))
    end.

(** ** Dispatch *)

(** The requests as they lie in the buffer. *)
Inductive SyncRequest :=
  | XSyncInitialize
  | XSyncListSystemCounters
  | XSyncCreateCounter (cid hi lo : Z)
  | XSyncSetCounter (cid hi lo : Z)
  | XSyncChangeCounter (cid hi lo : Z)
  | XSyncQueryCounter (counter : Z)
  | XSyncDestroyCounter (counter : Z)
  | XSyncAwait (rest : list Z)
  | XSyncCreateAlarm (id valueMask : Z) (rest : list Z)
  | XSyncChangeAlarm (alarm valueMask : Z) (rest : list Z)
  | XSyncQueryAlarm (alarm : Z)
  | XSyncDestroyAlarm (alarm : Z)
  | XSyncSetPriority (id prio : Z)
  | XSyncGetPriority (id : Z)
  | XSyncCreateFence (d fid initially_triggered : Z)
  | XSyncTriggerFence (fid : Z)
  | XSyncResetFence (fid : Z)
  | XSyncDestroyFence (fid : Z)
  | XSyncQueryFence (fid : Z)
  | XSyncAwaitFence (rest : list Z)
  | XSyncOther.

(** [Xext/sync.c: ProcSyncDispatch] *)
Definition ProcSyncDispatch st client sw (req_len : Z) (q : SyncRequest) : outcome (Z * SyncState) :=
  match q with
  | XSyncInitialize => ProcSyncInitialize st client sw req_len
  | XSyncListSystemCounters => ProcSyncListSystemCounters st client sw req_len
  | XSyncCreateCounter cid hi lo => ProcSyncCreateCounter st client sw req_len cid hi lo
  | XSyncSetCounter cid hi lo => ProcSyncSetCounter st client sw req_len cid hi lo
  | XSyncChangeCounter cid hi lo => ProcSyncChangeCounter st client sw req_len cid hi lo
  | XSyncQueryCounter i => ProcSyncQueryCounter st client sw req_len i
  | XSyncDestroyCounter i => ProcSyncDestroyCounter st client sw req_len i
  | XSyncAwait rest => ProcSyncAwait st client sw req_len rest
  | XSyncCreateAlarm id m rest => ProcSyncCreateAlarm st client sw req_len id m rest
  | XSyncChangeAlarm id m rest => ProcSyncChangeAlarm st client sw req_len id m rest
  | XSyncQueryAlarm id => ProcSyncQueryAlarm st client sw req_len id
  | XSyncDestroyAlarm id => ProcSyncDestroyAlarm st client sw req_len id
  | XSyncSetPriority id p => ProcSyncSetPriority st client sw req_len id p
  | XSyncGetPriority id => ProcSyncGetPriority st client sw req_len id
  | XSyncCreateFence d fid it => ProcSyncCreateFence st client sw req_len d fid it
  | XSyncTriggerFence fid => ProcSyncTriggerFence st client sw req_len fid
  | XSyncResetFence fid => ProcSyncResetFence st client sw req_len fid
  | XSyncDestroyFence fid => ProcSyncDestroyFence st client sw req_len fid
  | XSyncQueryFence fid => ProcSyncQueryFence st client sw req_len fid
  | XSyncAwaitFence rest => ProcSyncAwaitFence st client sw req_len rest
  | XSyncOther => Ret (BadRequest, st)
  end.

(** ** The time counters *)

(** The wait time handed to the handlers; negative is no limit.
    [os/WaitFor.c: AdjustWaitForDelay] *)
Definition AdjustWaitForDelay (timeout newdelay : Z) : Z :=
  if (timeout <? 0) || (newdelay <? timeout) then newdelay else timeout.

(** The threshold [pnext_time] points to. *)
Definition next_time st : outcome Z :=
  i <-? ServertimeCounter st;
  psci <-? objects st !! i ≫= pSysCounterInfo;
  Ret (bracket_greater psci).

(** [Xext/sync.c: ServertimeBlockHandler] *)
Definition ServertimeBlockHandler st (wt : Z) : outcome (Z * SyncState) :=
  if pnext_time st then
    let st := GetTime st in
    next <-- next_time st;
    let timeout := if Now st >=? next then 0 else u64 (next - Now st) in
    Ret (AdjustWaitForDelay wt (i32 timeout), st)
  else Ret (wt, st).

(** [Xext/sync.c: ServertimeWakeupHandler] *)
Definition ServertimeWakeupHandler st : outcome SyncState :=
  if pnext_time st then
    let st := GetTime st in
    next <-- next_time st;
    if Now st >=? next then
      i <-? ServertimeCounter st; SyncChangeCounter al (FreeResource al) st i (Now st)
    else Ret st
  else Ret st.

(** [Xext/sync.c: SyncInitServerTime] *)
Definition SyncInitServerTime st (name : list Z) : outcome SyncState :=
  let st := st <| Now := millis st |> in
  '(i, st) <-- SyncCreateSystemCounter st name (Now st) 4 XSyncCounterNeverDecreases Servertime;
  Ret (st <| ServertimeCounter := i |> <| pnext_time := false |>).

(** Whether some trigger of the list is true.
    [Xext/sync.c: IdleTimeBlockHandler 2460-2466] *)
Fixpoint some_trigger st (l : list trigger_ref) (oldval : Z) : outcome bool :=
  match l with
  | [] => Ret false
  | r :: l =>
      t <-? get_trigger st r;
      b <-- check_trigger st t oldval;
      if b : bool then Ret true else some_trigger st l oldval
  end.

(** [Xext/sync.c: IdleTimeBlockHandler] *)
Definition IdleTimeBlockHandler st (i wt : Z) : outcome (Z * SyncState) :=
  o <-? objects st !! i;
  psci <-? pSysCounterInfo o;
  match sc_private psci with
  | None => Ret (wt, st)
  | Some priv =>
      if negb (value_less priv) && negb (value_greater priv) then Ret (wt, st)
      else
        let old_idle := value o in
        let idle := IdleTimeQueryValue st (sc_private psci) in
        let st1 := set_object st i (o <| value := idle |>) in
        wt <-- (if value_less priv && (idle >? bracket_less psci) && bool_decide (deviceid priv ∈ was_reset st) then
                  Ret (AdjustWaitForDelay wt 0)
                else if value_less priv && (idle <=? bracket_less psci) then
                  b <-- some_trigger st1 (pTriglist o) old_idle;
                  let wt := if b : bool then AdjustWaitForDelay wt 0 else wt in
                  Ret (if idle =? bracket_less psci then AdjustWaitForDelay wt 1 else wt)
                else if value_greater priv then
                  if idle <? bracket_greater psci then
                    Ret (AdjustWaitForDelay wt (i32 (bracket_greater psci - idle)))
                  else
                    b <-- some_trigger st1 (pTriglist o) old_idle;
                    Ret (if b : bool then AdjustWaitForDelay wt 0 else wt)
                else Ret wt);
        Ret (wt, set_object st1 i (o <| value := old_idle |>))
  end.

(** [Xext/sync.c: IdleTimeCheckBrackets] *)
Definition IdleTimeCheckBrackets st (i idle : Z) (less greater : option Z) : outcome SyncState :=
  if match greater with Some g => idle >=? g | None => false end
     || match less with Some l => idle <=? l | None => false end
  then SyncChangeCounter al (FreeResource al) st i idle
  else '(_, st) <-- SyncUpdateCounter st i idle; Ret st.

(** The thresholds the private record points to. *)
Definition idle_brackets st (i : Z) : outcome (option Z * option Z * Z) :=
  psci <-? objects st !! i ≫= pSysCounterInfo;
  priv <-? sc_private psci;
  Ret (if value_less priv then Some (bracket_less psci) else None,
       if value_greater priv then Some (bracket_greater psci) else None, deviceid priv).

(** [Xext/sync.c: IdleTimeWakeupHandler] *)
Definition IdleTimeWakeupHandler st (i : Z) : outcome SyncState :=
  psci <-? objects st !! i ≫= pSysCounterInfo;
  match sc_private psci with
  | None => Ret st
  | Some _ =>
      '(less, greater, dev) <-- idle_brackets st i;
      if bool_decide (less = None) && bool_decide (greater = None) then Ret st
      else
        let idle := IdleTimeQueryValue st (sc_private psci) in
        '(less, greater, st) <--
          (if bool_decide (dev ∈ was_reset st) then
             let st := st <| was_reset ::= fun s => s ∖ {[dev]} |> in
             if negb (idle =? 0) then
               st <-- IdleTimeCheckBrackets st i 0 less greater;
               '(less, greater, _) <-- idle_brackets st i;
               Ret (less, greater, st)
             else Ret (less, greater, st)
           else Ret (less, greater, st));
        IdleTimeCheckBrackets st i idle less greater
  end.

(** [Xext/sync.c: init_system_idle_counter] *)
Definition init_system_idle_counter st (name : list Z) (dev : Z) : outcome (option Z * SyncState) :=
  let idle := IdleTimeQueryValue st None in
  let '(ok, st) := calloc al st 24 in
  if negb ok then Ret (None, st)
  else
    '(i, st) <-- SyncCreateSystemCounter st name idle 4 XSyncCounterUnrestricted IdleTime;
    match i with
    | None => Ret (None, st)
    | Some i =>
        Ret (Some i, on_object st i (fun o => o <| pSysCounterInfo ::= fmap (fun p =>
          p <| sc_private := Some (MkIdle false false dev) |>) |>))
    end.

(** [Xext/sync.c: SyncInitIdleTime] *)
Definition SyncInitIdleTime st (name : list Z) : outcome SyncState :=
  '(_, st) <-- init_system_idle_counter st name XIAllDevices; Ret st.

(** [Xext/sync.c: SyncInitDeviceIdleTime] *)
Definition SyncInitDeviceIdleTime st (name : list Z) (dev : Z) : outcome (option Z * SyncState) :=
  init_system_idle_counter st name dev.

(** [Xext/sync.c: SyncRemoveDeviceIdleTime] *)
Definition SyncRemoveDeviceIdleTime st (counter : option Z) : outcome SyncState :=
  match counter with
  | Some i =>
      if bool_decide (SysCounterList st = []) then Ret st
      else _ <-? objects st !! i; Ret (st <| SysCounterList ::= filter (fun x => x <> i) |>)
  | None => Ret st
  end.
End Requests.
