(* ===== verification/SyncAlarm.v ===== *)
(** * SyncAlarm: arithmetic, brackets and alarms of the SYNC extension

    Overflow detection is exact; the brackets of a system counter bound the
    values at which no trigger changes; an alarm that fires moves its threshold
    to the next one that is not reached, and becomes inactive when there is
    none. *)

From S2P Require Import Prelude.
From S2P Require Import Wire.
From S2P Require Import Request.
From S2P Require Import Sync.
From S2P Require Import SyncRequest.

Definition is_int64 (z : Z) : Prop := LLONG_MIN <= z <= LLONG_MAX.


Lemma i64_shift z k : i64 (z + k * 18446744073709551616) = i64 z.
Proof.
  unfold i64. f_equal. rewrite <- (Z_mod_plus_full (z + _) k). f_equal. lia.
Qed.
Lemma i64_u64 z : i64 (u64 z) = i64 z.
Proof.
  unfold u64. rewrite (Z.mod_eq z) by lia.
  replace (z - _) with (z + (- (z / 18446744073709551616)) * 18446744073709551616) by lia. apply i64_shift.
Qed.
Lemma i64_u64_add a b : i64 (u64 (u64 a + u64 b)) = i64 (a + b).
Proof.
  rewrite i64_u64. unfold u64. rewrite (Z.mod_eq a), (Z.mod_eq b) by lia.
  set (x := a / _). set (y := b / _).
  replace (a - _ * x + (b - _ * y)) with (a + b + (- x - y) * 18446744073709551616) by lia. apply i64_shift.
Qed.
Lemma i64_u64_sub a b : i64 (u64 (u64 a - u64 b)) = i64 (a - b).
Proof.
  rewrite i64_u64. unfold u64. rewrite (Z.mod_eq a), (Z.mod_eq b) by lia.
  set (x := a / _). set (y := b / _).
  replace (a - _ * x - (b - _ * y)) with (a - b + (y - x) * 18446744073709551616) by lia. apply i64_shift.
Qed.

(** The value of a wrapped sum that is off by less than one turn. *)
Lemma i64_cases z :
  -18446744073709551616 <= z <= 18446744073709551615 ->
  (is_int64 z /\ i64 z = z) \/ (z < LLONG_MIN /\ i64 z = z + 18446744073709551616) \/
  (LLONG_MAX < z /\ i64 z = z - 18446744073709551616).
Proof.
  intros Hz. unfold is_int64, LLONG_MIN, LLONG_MAX.
  destruct (Z.lt_ge_cases z (-9223372036854775808)); [right; left|
    destruct (Z.le_gt_cases z 9223372036854775807); [left|right; right]].
  - split; [lia|]. rewrite <- (i64_shift z 1). apply i64_small. lia.
  - split; [lia|]. apply i64_small. lia.
  - split; [lia|]. rewrite <- (i64_shift z (-1)). apply i64_small. lia.
Qed.

Ltac sign_cases :=
  repeat match goal with |- context [?x <? 0] => destruct (Z.ltb_spec x 0) end;
  cbn [Bool.eqb andb negb]; case_bool_decide; try done; exfalso; unfold is_int64, LLONG_MIN, LLONG_MAX in *; lia.

(** A checked addition or subtraction of two 64-bit integers gives the
    result wrapped to 64 bits and reports an overflow exactly when the true
    result is not a 64-bit integer. *)
Theorem checked_int64_exact a b :
  is_int64 a -> is_int64 b ->
  checked_int64_add a b = (i64 (a + b), bool_decide (~ is_int64 (a + b))) /\
  checked_int64_subtract a b = (i64 (a - b), bool_decide (~ is_int64 (a - b))).
Proof.
  intros Ha Hb. unfold checked_int64_add, checked_int64_subtract. rewrite i64_u64_add, i64_u64_sub.
  split; f_equal.
  - destruct (i64_cases (a + b)) as [[H1 H2]|[[H1 H2]|[H1 H2]]];
      [unfold is_int64, LLONG_MIN, LLONG_MAX in *; lia|..]; rewrite H2; sign_cases.
  - destruct (i64_cases (a - b)) as [[H1 H2]|[[H1 H2]|[H1 H2]]];
      [unfold is_int64, LLONG_MIN, LLONG_MAX in *; lia|..]; rewrite H2; sign_cases.
Qed.
Lemma checked_int64_exact_witness :
  checked_int64_add LLONG_MAX 1 = (i64 (LLONG_MAX + 1), true) /\
  checked_int64_subtract LLONG_MIN (-1) = (i64 (LLONG_MIN + 1), false).
Proof.
  destruct (checked_int64_exact LLONG_MAX 1) as [H1 _]; [done|done|].
  destruct (checked_int64_exact LLONG_MIN (-1)) as [_ H2]; [done|done|].
  split; [exact H1|exact H2].
Defined.

(** What the addition gives for the proofs. *)
Lemma checked_add_spec a b :
  is_int64 a -> is_int64 b ->
  (is_int64 (a + b) /\ checked_int64_add a b = (a + b, false)) \/
  (~ is_int64 (a + b) /\ (checked_int64_add a b).2 = true).
Proof.
  intros Ha Hb. unfold checked_int64_add. rewrite i64_u64_add.
  destruct (i64_cases (a + b)) as [[H1 H2]|[[H1 H2]|[H1 H2]]];
    [unfold is_int64, LLONG_MIN, LLONG_MAX in *; lia|..]; rewrite H2; [left|right|right].
  - split; [done|]. f_equal.
    repeat match goal with |- context [?x <? 0] => destruct (Z.ltb_spec x 0) end; done || (exfalso; lia).
  - split; [unfold is_int64; lia|]. unfold is_int64, LLONG_MIN, LLONG_MAX in *.
    repeat match goal with |- context [?x <? 0] => destruct (Z.ltb_spec x 0) end; done || (exfalso; lia).
  - split; [unfold is_int64; lia|]. unfold is_int64, LLONG_MIN, LLONG_MAX in *.
    repeat match goal with |- context [?x <? 0] => destruct (Z.ltb_spec x 0) end; done || (exfalso; lia).
Qed.

(** ** Brackets *)

(** Trigger [t] is watched: its threshold lies outside the brackets. *)
Definition watched (v : Z) (b : brackets) (t : SyncTrigger) : Prop :=
  (v < test_value t -> br_gt b <= test_value t) /\ (test_value t < v -> test_value t <= br_lt b) /\
  (test_type t = XSyncPositiveTransition -> v <= test_value t -> br_gt b <= test_value t) /\
  (test_type t = XSyncNegativeTransition -> test_value t <= v -> test_value t <= br_lt b).

(** The code does not look at these triggers. *)
Definition ignored_type (ct : SyncCounterType) (tt : Z) : Prop :=
  (ct = XSyncCounterNeverIncreases /\ (tt = XSyncPositiveComparison \/ tt = XSyncNegativeTransition)) \/
  (ct = XSyncCounterNeverDecreases /\ (tt = XSyncNegativeComparison \/ tt = XSyncPositiveTransition)).

Definition narrower (b b' : brackets) : Prop := br_gt b' <= br_gt b /\ br_lt b <= br_lt b'.

Ltac bracket_cases :=
  repeat case_bool; breflect;
  repeat match goal with
  | H : (_ && _)%bool = false |- _ => apply andb_false_iff in H as [?|?]; breflect
  | H : (_ >? _) = true |- _ => rewrite Z.gtb_ltb in H; apply Z.ltb_lt in H
  | H : (_ >? _) = false |- _ => rewrite Z.gtb_ltb in H; apply Z.ltb_ge in H
  | H : (_ >=? _) = true |- _ => rewrite Z.geb_leb in H; apply Z.leb_le in H
  | H : (_ >=? _) = false |- _ => rewrite Z.geb_leb in H; apply Z.leb_gt in H
  | H : bool_decide _ = true |- _ => apply bool_decide_eq_true in H
  | H : bool_decide _ = false |- _ => apply bool_decide_eq_false in H
  end.

Lemma bracket_step_narrower ct v b t : narrower b (bracket_step ct v b t).
Proof. unfold bracket_step, narrower. cbv zeta. bracket_cases; cbn; lia. Qed.

Lemma bracket_step_watches ct v b t :
  0 <= test_type t <= 3 -> ~ ignored_type ct (test_type t) -> watched v (bracket_step ct v b t) t.
Proof.
  intros Htt Hig.
  assert (Hc : test_type t = 0 \/ test_type t = 1 \/ test_type t = 2 \/ test_type t = 3) by lia.
  unfold bracket_step, watched, ignored_type in *. cbv zeta.
  unfold XSyncPositiveComparison, XSyncNegativeComparison, XSyncPositiveTransition, XSyncNegativeTransition in *.
  destruct Hc as [E|[E|[E|E]]]; rewrite E in *; cbn -[bool_decide] in *;
    bracket_cases; cbn; split_and!; intros; lia || (exfalso; tauto).
Qed.

Lemma watched_narrower v b b' t : narrower b b' -> watched v b t -> watched v b' t.
Proof. intros [H1 H2] (W1 & W2 & W3 & W4). split_and!; intros; [specialize (W1 ltac:(done))|specialize (W2 ltac:(done))
  |specialize (W3 ltac:(done) ltac:(done))|specialize (W4 ltac:(done) ltac:(done))]; lia. Qed.

Lemma compute_brackets_watch ct v ts t :
  t ∈ ts -> 0 <= test_type t <= 3 -> ~ ignored_type ct (test_type t) -> watched v (compute_brackets ct v ts) t.
Proof.
  intros Hin Htt Hig. unfold compute_brackets. generalize (MkBr LLONG_MAX LLONG_MIN false false) as b.
  assert (Hn : forall l b, narrower b (fold_left (bracket_step ct v) l b)).
  { induction l as [|t' l IH]; intros b; cbn; [split; lia|].
    destruct (IH (bracket_step ct v b t')), (bracket_step_narrower ct v b t'). split; lia. }
  induction ts as [|t' ts IH]; intros b; [by apply not_elem_of_nil in Hin|]. cbn.
  apply elem_of_cons in Hin as [<-|Hin]; [|by apply IH].
  eapply watched_narrower; [apply Hn|]. by apply bracket_step_watches.
Qed.

(** A bracket that is announced is the threshold of a trigger, on its side of
    the value; otherwise it is the extreme. *)
Record tight (v : Z) (ts : list SyncTrigger) (b : brackets) : Prop := {
  tight_gt : newgt b = true -> v <= br_gt b /\ exists t, t ∈ ts /\ br_gt b = test_value t;
  tight_lt : newlt b = true -> br_lt b <= v /\ exists t, t ∈ ts /\ br_lt b = test_value t;
  tight_max : newgt b = false -> br_gt b = LLONG_MAX;
  tight_min : newlt b = false -> br_lt b = LLONG_MIN
}.

Lemma bracket_step_tight ct v l b t : tight v l b -> tight v (l ++ [t]) (bracket_step ct v b t).
Proof.
  intros [H1 H2 H3 H4].
  assert (Hg : newgt b = true -> v <= br_gt b /\ exists t', t' ∈ l ++ [t] /\ br_gt b = test_value t').
  { intros E. destruct (H1 E) as [? (t' & ? & ?)]. split; [done|]. exists t'. set_solver. }
  assert (Hl : newlt b = true -> br_lt b <= v /\ exists t', t' ∈ l ++ [t] /\ br_lt b = test_value t').
  { intros E. destruct (H2 E) as [? (t' & ? & ?)]. split; [done|]. exists t'. set_solver. }
  assert (Ht : t ∈ l ++ [t]) by set_solver. clear H1 H2.
  unfold bracket_step. cbv zeta. bracket_cases; cbn; split; cbn; try done; intros _; (split; [lia|by exists t]).
Qed.

Lemma compute_brackets_tight ct v ts : tight v ts (compute_brackets ct v ts).
Proof.
  unfold compute_brackets.
  assert (Hg : forall l l0 b, tight v l0 b -> tight v (l0 ++ l) (fold_left (bracket_step ct v) l b)).
  { induction l as [|t l IH]; intros l0 b Hb; cbn; [by rewrite app_nil_r|].
    rewrite (app_assoc l0 [t] l : l0 ++ t :: l = _). by apply IH, bracket_step_tight. }
  apply (Hg ts []). by split.
Qed.

(** How a counter of a type may move away from [v]. *)
Definition may_be (ct : SyncCounterType) (v x : Z) : Prop :=
  match ct with
  | XSyncCounterNeverChanges => x = v
  | XSyncCounterNeverIncreases => x <= v
  | XSyncCounterNeverDecreases => v <= x
  | XSyncCounterUnrestricted => True
  end.

(** While a counter stays strictly between the brackets computed for its
    value [v] (and moves only as its type allows), no trigger on it needs to be
    looked at: a comparison that is false at [v] stays false, and no transition
    between two such values takes place.  So the wakeups of the server at the
    brackets are enough.  Each bracket is the threshold of a trigger, so there
    is no wakeup without need, or it is the extreme.  Transitions are left out
    where the code tests for the wrong kind of counter. *)
Theorem compute_brackets_sound ct v ts :
  let b := compute_brackets ct v ts in
  (forall t f old x, t ∈ ts -> 0 <= test_type t <= 3 -> select_check false (test_type t) = Some f ->
     (test_type t = XSyncPositiveTransition -> ct <> XSyncCounterNeverDecreases) ->
     (test_type t = XSyncNegativeTransition -> ct <> XSyncCounterNeverIncreases) ->
     br_lt b < old < br_gt b -> br_lt b < x < br_gt b -> may_be ct v x ->
     compare f x (test_value t) old = true ->
     (test_type t = XSyncPositiveComparison \/ test_type t = XSyncNegativeComparison) /\
     compare f v (test_value t) v = true) /\
  (newgt b = true -> v <= br_gt b /\ exists t, t ∈ ts /\ br_gt b = test_value t) /\
  (newlt b = true -> br_lt b <= v /\ exists t, t ∈ ts /\ br_lt b = test_value t) /\
  (newgt b = false -> br_gt b = LLONG_MAX) /\ (newlt b = false -> br_lt b = LLONG_MIN).
Proof.
  cbv zeta. destruct (compute_brackets_tight ct v ts) as [T1 T2 T3 T4]. split; [|by split_and!].
  intros t f old x Hin Htt Hf Hp Hn Hold Hx Hmay Hc.
  pose proof (compute_brackets_watch ct v ts t Hin Htt) as Hw.
  assert (Hty : test_type t = 0 \/ test_type t = 1 \/ test_type t = 2 \/ test_type t = 3) by lia.
  unfold ignored_type, watched, XSyncPositiveComparison, XSyncNegativeComparison, XSyncPositiveTransition,
    XSyncNegativeTransition in *.
  destruct Hty as [E|[E|[E|E]]]; rewrite E in *; cbn in Hf; injection Hf as <-; cbn [compare] in *.
  - destruct Hw as (W1 & W2 & W3 & W4); [intuition congruence|].
    apply andb_true_iff in Hc as [Hc1 Hc2]. apply Z.ltb_lt in Hc1. rewrite Z.geb_leb in Hc2. apply Z.leb_le in Hc2.
    exfalso. specialize (W3 eq_refl). lia.
  - destruct Hw as (W1 & W2 & W3 & W4); [intuition congruence|].
    apply andb_true_iff in Hc as [Hc1 Hc2]. rewrite Z.gtb_ltb in Hc1. apply Z.ltb_lt in Hc1. apply Z.leb_le in Hc2.
    exfalso. specialize (W4 eq_refl). lia.
  - split; [by left|]. rewrite Z.geb_leb in *. apply Z.leb_le in Hc. apply Z.leb_le.
    destruct (decide (ct = XSyncCounterNeverIncreases)) as [->|Hne]; [cbn in Hmay; lia|].
    destruct Hw as (W1 & W2 & W3 & W4); [intuition congruence|]. lia.
  - split; [by right|]. apply Z.leb_le in Hc. apply Z.leb_le.
    destruct (decide (ct = XSyncCounterNeverDecreases)) as [->|Hne]; [cbn in Hmay; lia|].
    destruct Hw as (W1 & W2 & W3 & W4); [intuition congruence|]. lia.
Qed.

(** ** Transitions of the server time *)

(** SERVERTIME never decreases, and for such a counter the code skips the
    positive transitions when it computes the brackets (and watches the
    negative ones, which cannot happen).  When all triggers on it are positive
    transitions no bracket is set, and neither handler will look at the time:
    such an alarm or await never goes off, however late it gets. *)
Theorem Servertime_transition_never_wakes `{SyncEnv} (al : allocator) st i o psci :
  objects st !! i = Some o -> pSysCounterInfo o = Some psci ->
  counterType psci = XSyncCounterNeverDecreases -> sc_funcs psci = Servertime ->
  (forall r, r ∈ pTriglist o -> exists t, get_trigger st r = Some t /\ test_type t = XSyncPositiveTransition) ->
  exists st', SyncComputeBracketValues st i = Ret st' /\
    forall n wt, let st'' := st' <| millis := n |> in
      ServertimeWakeupHandler al st'' = Ret st'' /\ ServertimeBlockHandler st'' wt = Ret (wt, st'').
Proof.
  intros Ho Hp Hct Hf Hr. unfold SyncComputeBracketValues. rewrite Ho. cbn [obind_opt]. rewrite Hp. cbn [obind_opt].
  rewrite Hct. cbn [decide]. rewrite decide_False by done.
  assert (Hm : exists ts, mapM (get_trigger st) (pTriglist o) = Some ts /\
    forall t, t ∈ ts -> test_type t = XSyncPositiveTransition).
  { induction (pTriglist o) as [|r l IH]; [exists []; split; [done|set_solver]|].
    destruct (Hr r ltac:(left)) as (t & Ht & Htt). destruct IH as (ts & Hts & Hall); [intros r' ?; apply Hr; by right|].
    exists (t :: ts). cbn. rewrite Ht. cbn. rewrite Hts. split; [done|]. set_solver. }
  destruct Hm as (ts & -> & Hts). cbn [obind_opt].
  assert (Hb : forall b, fold_left (bracket_step XSyncCounterNeverDecreases (value o)) ts b = b).
  { induction ts as [|t ts IH]; intros b; cbn; [done|]. rewrite IH by set_solver.
    unfold bracket_step. rewrite (Hts t) by set_solver. done. }
  unfold compute_brackets. rewrite Hb. eexists. split; [reflexivity|].
  intros n wt. unfold BracketValues. cbn -[ServertimeBracketValues]. rewrite Hf.
  unfold ServertimeWakeupHandler, ServertimeBlockHandler, ServertimeBracketValues. cbn. done.
Qed.

#[local] Instance demo_env : SyncEnv := {
  CLIENT_ID id := Z.shiftr id 21;
  legal_range id c := Z.shiftr id 21 =? c;
  xace _ _ _ := Success;
  owner_access _ _ _ := Success;
  FakeClientID used _ := fresh (used ∪ {[None_]});
  fake_fresh used c := conj (fun H => is_fresh (used ∪ {[None_]}) (elem_of_union_l _ _ _ H))
    (fun E => is_fresh (used ∪ {[None_]}) (elem_of_union_r _ _ _ (proj2 (elem_of_singleton _ _) E)));
  lookup_drawable _ _ := Success;
  SyncErrorBase := 134
}.

(** SERVERTIME is 1000 ms; an alarm waits for the transition at 2000 ms. *)
Definition demo_servertime : SyncState :=
  MkState
    {[1 := MkSync None [TAlarm 7] SYNC_COUNTER true false 1000
             (Some (MkSys [] 4 LLONG_MAX LLONG_MIN XSyncCounterNeverDecreases Servertime None)) false]}
    {[7 := MkAlarm (MkTrig (Some 1) 2000 XSyncAbsolute XSyncPositiveTransition 2000
             (Some SyncCheckTriggerPositiveTransition)) 3 1 1 XSyncAlarmActive []]}
    ∅ {[1 := (RTCounter, 1); 7 := (RTAlarm, 7)]} [1] ∅ ∅ ∅ ∅ [] [] 1000 false (Some 1) false 1000 ∅ ∅ 0.

Lemma Servertime_transition_never_wakes_witness :
  exists st', SyncComputeBracketValues demo_servertime 1 = Ret st' /\
    ServertimeWakeupHandler always (st' <| millis := 3000 |>) = Ret (st' <| millis := 3000 |>).
Proof.
  destruct (Servertime_transition_never_wakes always demo_servertime 1 _ _ eq_refl eq_refl eq_refl eq_refl)
    as (st' & H1 & H2).
  - intros r Hr. cbn in Hr. apply list_elem_of_singleton in Hr as ->. by eexists.
  - exists st'. split; [exact H1|]. exact (proj1 (H2 3000 0)).
Defined.

(** ** Alarms *)

Lemma check_counter st t i o f old :
  CheckTrigger t = Some f -> f <> SyncCheckTriggerFence -> pSync t = Some i -> objects st !! i = Some o ->
  so_type o = SYNC_COUNTER -> check_trigger st t old = Ret (compare f (value o) (test_value t) old).
Proof.
  intros Hf Hne Hp Ho Ht. unfold check_trigger, SyncCheckWarnIsCounter, counter_value. rewrite Hf. cbn [obind_opt].
  rewrite Hp, Ho. cbn [obind_opt obind]. rewrite Ht. rewrite bool_decide_true by done. by destruct f.
Qed.

(** The events of an alarm, for its owner and its other clients. *)
Definition alarm_events (a : Z) (A : SyncAlarm) (v : Z) : list sync_output :=
  let ane c := AlarmNotify c a (hilo v) (hilo (test_value (al_trigger A))) (al_state A) in
  (if al_events A =? 0 then [] else [ane (al_client A)]) ++ (ane <$> (pEventClients A).*1).

Definition is_comparison (f : check_fn) : bool :=
  match f with SyncCheckTriggerPositiveComparison | SyncCheckTriggerNegativeComparison => true | _ => false end.

(** The alarm that fires at [v], in closed form: the state, and the threshold
    with the number of deltas that is needed to get past the value. *)
Definition alarm_next (f : check_fn) (d v tv : Z) : Z * Z :=
  if (d =? 0) && is_comparison f then (XSyncAlarmInactive, tv)
  else
    let k := if is_comparison f then (v - tv) / d + 1 else 1 in
    if bool_decide (is_int64 (tv + k * d)) then (XSyncAlarmActive, tv + k * d) else (XSyncAlarmInactive, tv).

(** The sign of delta that a request can set for each test type. *)
Definition delta_fits (f : check_fn) (d : Z) : Prop :=
  match f with
  | SyncCheckTriggerPositiveComparison => 0 <= d
  | SyncCheckTriggerNegativeComparison => d <= 0
  | _ => True
  end.

Section Alarm.
Context `{SyncEnv}.

(** The threshold after [j] additions, none of which went past the value. *)
Definition alarm_inv (f : check_fn) (d v tv s : Z) : Prop :=
  is_int64 s /\ if is_comparison f then compare f v s v = true /\ exists j, 0 <= j /\ s = tv + j * d else s = tv.

Definition alarm_post (f : check_fn) (d v tv : Z) (rs : Z * bool) : Prop :=
  (if rs.2 then (XSyncAlarmInactive, tv) else (XSyncAlarmActive, rs.1)) = alarm_next f d v tv.

Lemma alarm_next_pos v tv d k s :
  0 < d -> s = tv + k * d -> s <= v < s + d -> (v - tv) / d + 1 = k + 1.
Proof.
  intros Hd -> Hs. f_equal. symmetry. apply (Z.div_unique _ _ _ (v - tv - d * k)); [left|]; nia.
Qed.
Lemma alarm_next_neg v tv d k s :
  d < 0 -> s = tv + k * d -> s + d < v <= s -> (v - tv) / d + 1 = k + 1.
Proof.
  intros Hd -> Hs. f_equal. symmetry. apply (Z.div_unique _ _ _ (v - tv - d * k)); [right|]; nia.
Qed.

Lemma alarm_step_spec st t i o f d tv s :
  CheckTrigger t = Some f -> f <> SyncCheckTriggerFence -> pSync t = Some i -> objects st !! i = Some o ->
  so_type o = SYNC_COUNTER -> is_int64 d -> is_int64 (value o) -> delta_fits f d ->
  (is_comparison f = true -> d <> 0) -> alarm_inv f d (value o) tv s ->
  match alarm_step st t d (value o) s with
  | inl s' => alarm_inv f d (value o) tv s' /\ 0 <= Z.abs (value o - s') < Z.abs (value o - s)
  | inr (Ret rs) => alarm_post f d (value o) tv rs
  | inr _ => False
  end.
Proof.
  intros Hf Hnf Hp Ho Hty Hd Hv Hfit Hnz [Hs Hinv]. unfold alarm_step. set (v := value o) in *.
  assert (Hck : forall x, check_trigger st (t <| test_value := x |>) v = Ret (compare f v x v)).
  { intros x. by rewrite (check_counter _ _ i o f). }
  destruct (checked_add_spec s d Hs Hd) as [[Hin ->]|[Hout Hov]].
  2: { destruct (checked_int64_add s d) as [x ov]. cbn in Hov. subst ov. unfold alarm_post, alarm_next. cbn [snd].
       destruct (is_comparison f) eqn:Hcmp; [|subst s].
       - destruct (Z.eqb_spec d 0); [by destruct (Hnz eq_refl)|]. cbn [andb]. cbv zeta.
         destruct Hinv as [Hc (j & Hj & Hsj)]. unfold is_int64, LLONG_MIN, LLONG_MAX in *.
         assert ((v - tv) / d + 1 = j + 1) as ->.
         { destruct f; try done; cbn in Hc, Hfit.
           - rewrite Z.geb_leb in Hc. apply Z.leb_le in Hc. apply (alarm_next_pos _ _ _ _ s); lia.
           - apply Z.leb_le in Hc. apply (alarm_next_neg _ _ _ _ s); lia. }
         rewrite bool_decide_false by (replace (tv + (j + 1) * d) with (s + d) by lia; done). done.
       - rewrite andb_false_r. cbv zeta. rewrite Z.mul_1_l, bool_decide_false by done. done. }
  rewrite Hck. destruct (compare f v (s + d) v) eqn:Hc2.
  - destruct f; cbn [is_comparison] in *; try done.
    + destruct Hinv as [Hc (j & Hj & Hsj)]. specialize (Hnz eq_refl). cbn in Hc, Hc2, Hfit.
      rewrite Z.geb_leb in Hc, Hc2. apply Z.leb_le in Hc, Hc2.
      split; [|lia]. split; [done|]. cbn. rewrite Z.geb_leb. split; [by apply Z.leb_le|]. exists (j + 1). lia.
    + destruct Hinv as [Hc (j & Hj & Hsj)]. specialize (Hnz eq_refl). cbn in Hc, Hc2, Hfit.
      apply Z.leb_le in Hc, Hc2.
      split; [|lia]. split; [done|]. cbn. split; [by apply Z.leb_le|]. exists (j + 1). lia.
    + exfalso. cbn in Hc2. rewrite Z.geb_leb in Hc2. apply andb_true_iff in Hc2 as [? ?]. breflect. lia.
    + exfalso. cbn in Hc2. rewrite Z.gtb_ltb in Hc2. apply andb_true_iff in Hc2 as [? ?]. breflect. lia.
  - unfold alarm_post, alarm_next. cbn [fst snd]. destruct (is_comparison f) eqn:Hcmp; [|subst s].
    + destruct (Z.eqb_spec d 0); [by destruct (Hnz eq_refl)|]. cbn [andb]. cbv zeta.
      destruct Hinv as [Hc (j & Hj & Hsj)].
      assert ((v - tv) / d + 1 = j + 1) as ->.
      { destruct f; try done; cbn in Hc, Hc2, Hfit.
        - rewrite Z.geb_leb in Hc, Hc2. apply Z.leb_le in Hc. apply Z.leb_gt in Hc2.
          apply (alarm_next_pos _ _ _ _ s); lia.
        - apply Z.leb_le in Hc. apply Z.leb_gt in Hc2. apply (alarm_next_neg _ _ _ _ s); lia. }
      replace (tv + (j + 1) * d) with (s + d) by lia. by rewrite bool_decide_true.
    + rewrite andb_false_r. cbv zeta. by rewrite Z.mul_1_l, bool_decide_true.
Qed.

Lemma SyncSendAlarmNotifyEvents_spec st a A i o :
  alarms st !! a = Some A -> pSync (al_trigger A) = Some i -> objects st !! i = Some o -> so_type o = SYNC_COUNTER ->
  SyncSendAlarmNotifyEvents st a = Ret (st <| out ::= fun l => l ++ alarm_events a A (value o) |>).
Proof.
  intros Ha Hp Ho Ht. unfold SyncSendAlarmNotifyEvents, SyncCheckWarnIsCounter, counter_value.
  rewrite Ha. cbn [obind_opt]. rewrite Hp, Ho. cbn [obind_opt obind]. rewrite bool_decide_true by done. cbn [negb obind].
  unfold alarm_events, emit. destruct (al_events A =? 0); cbn [negb]; [done|]. f_equal. destruct st. cbn.
  by rewrite <- app_assoc.
Qed.

Lemma alarm_next_false f d v tv :
  delta_fits f d -> f <> SyncCheckTriggerFence ->
  (alarm_next f d v tv).1 = XSyncAlarmActive -> compare f v (alarm_next f d v tv).2 v = false.
Proof.
  intros Hfit Hnf. unfold alarm_next. destruct (Z.eqb_spec d 0) as [->|Hd].
  - destruct f; cbn; try done; case_bool_decide; cbn; try done; intros _.
    + rewrite Z.geb_leb. destruct (Z.ltb_spec v (tv + 0)), (Z.leb_spec (tv + 0) v); done || lia.
    + rewrite Z.gtb_ltb. destruct (Z.ltb_spec (tv + 0) v), (Z.leb_spec v (tv + 0)); done || lia.
  - cbn [andb]. cbv zeta. case_bool_decide; cbn [fst snd]; [|done]. intros _.
    destruct f; cbn [is_comparison compare] in *; try done; cbn in Hfit.
    + rewrite Z.geb_leb. apply Z.leb_gt. pose proof (Z.div_mod (v - tv) d Hd). pose proof (Z.mod_pos_bound (v - tv) d). nia.
    + apply Z.leb_gt. pose proof (Z.div_mod (v - tv) d Hd). pose proof (Z.mod_neg_bound (v - tv) d). nia.
    + rewrite Z.geb_leb. apply andb_false_iff. destruct (Z.ltb_spec v (tv + 1 * d)), (Z.leb_spec (tv + 1 * d) v); auto; lia.
    + rewrite Z.gtb_ltb. apply andb_false_iff. destruct (Z.ltb_spec (tv + 1 * d) v), (Z.leb_spec v (tv + 1 * d)); auto; lia.
Qed.

Lemma alter_Some {A} (m : gmap Z A) (g : A -> A) a x : m !! a = Some x -> alter g a m = <[a := g x]> m.
Proof.
  intros Hx. apply map_eq. intros j. destruct (decide (a = j)) as [<-|Hne].
  - by rewrite lookup_alter_eq, lookup_insert_eq, Hx.
  - by rewrite lookup_alter_ne, lookup_insert_ne.
Qed.

Lemma comparison_type f tst :
  select_check false tst = Some f ->
  is_comparison f = (tst =? XSyncPositiveComparison) || (tst =? XSyncNegativeComparison) /\ f <> SyncCheckTriggerFence.
Proof.
  unfold select_check, XSyncPositiveComparison, XSyncNegativeComparison, XSyncPositiveTransition,
    XSyncNegativeTransition.
  destruct (Z.eqb_spec tst 0) as [->|]; [by intros [= <-]|].
  destruct (Z.eqb_spec tst 1) as [->|]; [by intros [= <-]|].
  destruct (Z.eqb_spec tst 2) as [->|]; [by intros [= <-]|].
  destruct (Z.eqb_spec tst 3) as [->|]; [by intros [= <-]|done].
Qed.

Lemma SyncAlarmTriggerFired_spec st a A i o f :
  alarms st !! a = Some A -> al_state A = XSyncAlarmActive -> pSync (al_trigger A) = Some i ->
  objects st !! i = Some o -> so_type o = SYNC_COUNTER ->
  CheckTrigger (al_trigger A) = Some f -> select_check false (test_type (al_trigger A)) = Some f ->
  is_int64 (delta A) -> is_int64 (test_value (al_trigger A)) -> is_int64 (value o) -> delta_fits f (delta A) ->
  (is_comparison f = true -> compare f (value o) (test_value (al_trigger A)) (value o) = true) ->
  let '(state, tv) := alarm_next f (delta A) (value o) (test_value (al_trigger A)) in
  let A' := A <| al_state := state |> in
  SyncAlarmTriggerFired st a =
    Ret (st <| alarms ::= <[a := A' <| al_trigger ::= fun t => t <| test_value := tv |> |>]> |>
            <| out ::= fun l => l ++ alarm_events a A' (value o) |>) /\
  (state = XSyncAlarmActive -> compare f (value o) tv (value o) = false).
Proof.
  intros Ha Hact Hp Ho Hty Hf Hsel Hd Htv Hv Hfit Hfires.
  destruct (comparison_type _ _ Hsel) as [Hcmp Hnf].
  pose proof (alarm_next_false f (delta A) (value o) (test_value (al_trigger A)) Hfit Hnf) as Hfalse.
  assert (Hloop : (if (delta A =? 0) && is_comparison f then Ret (XSyncAlarmInactive, test_value (al_trigger A))
      else '(tv, overflow) <-- run_loop (alarm_step st (al_trigger A) (delta A) (value o)) TURNS (test_value (al_trigger A));
           Ret (if overflow : bool then (XSyncAlarmInactive, test_value (al_trigger A)) else (XSyncAlarmActive, tv)))
    = Ret (alarm_next f (delta A) (value o) (test_value (al_trigger A)))).
  { destruct ((delta A =? 0) && is_comparison f) eqn:E; [unfold alarm_next; by rewrite E|].
    destruct (run_loop_total (alarm_step st (al_trigger A) (delta A) (value o))
      (alarm_inv f (delta A) (value o) (test_value (al_trigger A)))
      (alarm_post f (delta A) (value o) (test_value (al_trigger A)))
      (fun s => Z.abs (value o - s)) TURNS (test_value (al_trigger A))) as ([tv ov] & -> & Hpost).
    - intros s Hs. apply (alarm_step_spec st _ i o f _ _ s Hf Hnf Hp Ho Hty Hd Hv Hfit); [|done].
      intros Hc Hz. rewrite Hc, Hz in E. done.
    - split; [done|]. destruct (is_comparison f); [|done]. split; [by apply Hfires|]. exists 0. lia.
    - unfold is_int64, LLONG_MIN, LLONG_MAX, TURNS in *. lia.
    - cbn [obind]. f_equal. exact Hpost. }
  destruct (alarm_next f (delta A) (value o) (test_value (al_trigger A))) as [s tv]. split; [|exact Hfalse].
  unfold SyncAlarmTriggerFired, SyncCheckWarnIsCounter, counter_value. rewrite Ha. cbn [obind_opt].
  rewrite Hp, Ho. cbn [obind_opt obind]. rewrite bool_decide_true by done. cbn [negb]. rewrite Hact. cbn [negb Z.eqb].
  rewrite <- Hcmp, Hloop. cbn [obind].
  set (A1 := A <| al_state := s |>). set (st1 := on_alarm st a _).
  assert (Ha1 : alarms st1 = <[a := A1]> (alarms st)) by exact (alter_Some (alarms st) (fun x => x <| al_state := s |>) a A Ha).
  rewrite (SyncSendAlarmNotifyEvents_spec st1 a A1 i o); [|by rewrite Ha1, lookup_insert_eq|done|done|done].
  cbn [obind]. f_equal. unfold on_alarm. subst st1. destruct st. cbn in *. f_equal.
  rewrite Ha1, (alter_Some _ _ _ A1) by (by rewrite lookup_insert_eq).
  by rewrite insert_insert_eq.
Qed.

(** An active alarm on a counter that fires returns, although the code
    adds delta again and again until the trigger is false: the number of
    additions is bounded.  The new threshold is the first of value + k * delta
    the counter has not reached (for a transition, the next one), in closed
    form; when that is not a 64-bit integer, or delta is 0 for a comparison,
    the threshold stays and the alarm becomes inactive.  The owner and the
    other clients that asked for events get one each, with the new state and
    the old threshold.  Nothing else changes. *)
Theorem SyncAlarmTriggerFired_advances st a A i o f :
  alarms st !! a = Some A -> al_state A = XSyncAlarmActive -> pSync (al_trigger A) = Some i ->
  objects st !! i = Some o -> so_type o = SYNC_COUNTER ->
  CheckTrigger (al_trigger A) = Some f -> select_check false (test_type (al_trigger A)) = Some f ->
  is_int64 (delta A) -> is_int64 (test_value (al_trigger A)) -> is_int64 (value o) -> delta_fits f (delta A) ->
  (is_comparison f = true -> compare f (value o) (test_value (al_trigger A)) (value o) = true) ->
  let '(state, tv) := alarm_next f (delta A) (value o) (test_value (al_trigger A)) in
  let A' := A <| al_state := state |> in
  SyncAlarmTriggerFired st a =
    Ret (st <| alarms ::= <[a := A' <| al_trigger ::= fun t => t <| test_value := tv |> |>]> |>
            <| out ::= fun l => l ++ alarm_events a A' (value o) |>) /\
  (state = XSyncAlarmActive -> compare f (value o) tv (value o) = false).
Proof. apply SyncAlarmTriggerFired_spec. Qed.
End Alarm.

(** A counter at 100 with an alarm at 10 that moves on by 7. *)
Definition demo_alarm : SyncAlarm :=
  MkAlarm (MkTrig (Some 5) 10 XSyncAbsolute XSyncPositiveComparison 10 (Some SyncCheckTriggerPositiveComparison))
    3 7 1 XSyncAlarmActive [(4, 90)].
Definition demo_counter : SyncObject := MkSync (Some 3) [TAlarm 7] SYNC_COUNTER true false 100 None false.
Definition demo_state : SyncState :=
  MkState {[5 := demo_counter]} {[7 := demo_alarm]} ∅
    {[5 := (RTCounter, 5); 7 := (RTAlarm, 7); 90 := (RTAlarmClient, 7)]}
    [] ∅ ∅ ∅ ∅ [] [] 0 false None false 0 ∅ ∅ 0.

Lemma SyncAlarmTriggerFired_advances_witness :
  let A' := demo_alarm <| al_state := XSyncAlarmActive |> in
  SyncAlarmTriggerFired demo_state 7 =
    Ret (demo_state <| alarms ::= <[7 := A' <| al_trigger ::= fun t => t <| test_value := 101 |> |>]> |>
                    <| out ::= fun l => l ++ [AlarmNotify 3 7 (0, 100) (0, 10) 0; AlarmNotify 4 7 (0, 100) (0, 10) 0] |>).
Proof.
  exact (proj1 (SyncAlarmTriggerFired_advances demo_state 7 demo_alarm 5 demo_counter _ eq_refl eq_refl eq_refl
    eq_refl eq_refl eq_refl eq_refl ltac:(done) ltac:(done) ltac:(done) ltac:(done) ltac:(done))).
Defined.

(** ** The server time *)

Lemma GetTime_extends_spec st :
  0 <= Now st < 2 ^ 62 -> 0 <= millis st < 2 ^ 32 ->
  let now := Now (GetTime st) in
  now mod 2 ^ 32 = millis st /\ Now st <= now < Now st + 2 ^ 32.
Proof.
  intros Hn Hm. cbv zeta. unfold GetTime. cbn [Now set_field eta_of eta_state].
  change 0xffffffff with (Z.ones 32). rewrite Z.land_ones, Z.shiftr_div_pow2 by lia.
  set (hi := if _ <? _ then _ else _).
  assert (Hhi : hi = Now st / 2 ^ 32 + (if millis st <? Now st mod 2 ^ 32 then 1 else 0)).
  { subst hi. change (2 ^ 32) with 4294967296 in *. change (2 ^ 62) with 4611686018427387904 in *.
    destruct (_ <? _); rewrite u64_small; Z.div_mod_to_equations; lia. }
  assert (Hlor : Z.lor (i64 (Z.shiftl hi 32)) (millis st) = hi * 2 ^ 32 + millis st).
  { rewrite Z.shiftl_mul_pow2 by lia. rewrite i64_small.
    - enough (Hland : Z.land (hi * 2 ^ 32) (millis st) = 0).
      { pose proof (Z.add_lor_land (hi * 2 ^ 32) (millis st)). lia. }
      apply Z.bits_inj'. intros n Hn0. rewrite Z.land_spec, Z.bits_0, Z.mul_pow2_bits by lia.
      destruct (Z.lt_ge_cases n 32); [by rewrite Z.testbit_neg_r by lia|].
      rewrite (Z.bits_above_log2 (millis st)); [apply andb_false_r|lia|].
      destruct (decide (millis st = 0)) as [->|]; [cbn; lia|].
      apply Z.log2_lt_pow2; [lia|]. eapply Z.lt_le_trans; [apply Hm|]. apply Z.pow_le_mono_r; lia.
    - rewrite Hhi. change (2 ^ 32) with 4294967296 in *. change (2 ^ 62) with 4611686018427387904 in *.
      destruct (_ <? _); Z.div_mod_to_equations; lia. }
  cbn [millis]. rewrite Hlor. split.
  - rewrite Z.add_comm, Z_mod_plus_full. by apply Z.mod_small.
  - rewrite Hhi. change (2 ^ 32) with 4294967296 in *. destruct (Z.ltb_spec (millis st) (Now st mod 4294967296));
      Z.div_mod_to_equations; lia.
Qed.

(** The 64-bit server time is made from the 32-bit milliseconds of the
    clock: its low word is the clock, it never goes back although the clock
    wraps around, and it is the least such value. *)
Theorem GetTime_extends st :
  0 <= Now st < 2 ^ 62 -> 0 <= millis st < 2 ^ 32 ->
  let now := Now (GetTime st) in
  now mod 2 ^ 32 = millis st /\ Now st <= now < Now st + 2 ^ 32.
Proof. apply GetTime_extends_spec. Qed.
(** Ten milliseconds before the clock wraps around, read five after. *)
Definition demo_wrap : SyncState :=
  MkState ∅ ∅ ∅ ∅ [] ∅ ∅ ∅ ∅ [] [] (2 ^ 32 - 10) false None false 5 ∅ ∅ 0.
Lemma GetTime_extends_witness :
  Now (GetTime demo_wrap) mod 2 ^ 32 = 5 /\ 2 ^ 32 - 10 <= Now (GetTime demo_wrap) < 2 ^ 32 - 10 + 2 ^ 32.
Proof. apply (GetTime_extends demo_wrap); cbn; lia. Defined.
