(* ===== verification/SyncSafe.v ===== *)
(** * SyncSafe: the links between triggers and sync objects

    [sync_wf] says that every trigger on an object's list is alive and waits
    for this object, that every trigger is on the list of its object, and that
    the resource database knows exactly the live objects, alarms and awaits.
    While an object is being destroyed its own list is exempt.  The operations
    that unblock clients and free resources keep it and return. *)

From S2P Require Import Prelude.
From S2P Require Import Wire.
From S2P Require Import Request.
From S2P Require Import Sync.
From S2P Require Import SyncRequest.
From S2P Require Import SyncAlarm.

(** ** What the brackets do not touch *)

(** An object without the data of a system counter. *)
Definition skel (o : SyncObject) : SyncObject * bool :=
  (o <| pSysCounterInfo := None |>,
   bool_decide (is_Some (pSysCounterInfo o))).

Record quiet (st st' : SyncState) : Prop := {
  q_objects : forall i, skel <$> objects st' !! i = skel <$> objects st !! i;
  q_alarms : alarms st' = alarms st;
  q_awaits : awaits st' = awaits st;
  q_resources : resources st' = resources st;
  q_counters : SysCounterList st' = SysCounterList st;
  q_ignore : ignoreCount st' = ignoreCount st;
  q_gone : clientGone st' = clientGone st;
  q_out : out st' = out st
}.

#[export] Instance quiet_preorder : PreOrder quiet.
Proof.
  split; [by split|]. intros st1 st2 st3 [] []. split; try congruence.
Qed.

Lemma quiet_get st st' r : quiet st st' -> get_trigger st' r = get_trigger st r.
Proof. intros Hq. unfold get_trigger. by rewrite (q_alarms _ _ Hq), (q_awaits _ _ Hq). Qed.

(** The fields of two objects with the same skeleton. *)
Record same_object (o o' : SyncObject) : Prop := {
  same_client : so_client o' = so_client o;
  same_list : pTriglist o' = pTriglist o;
  same_type : so_type o' = so_type o;
  same_init : initialized o' = initialized o;
  same_destroyed : beingDestroyed o' = beingDestroyed o;
  same_sys : is_Some (pSysCounterInfo o') <-> is_Some (pSysCounterInfo o);
  same_value : value o' = value o;
  same_triggered : triggered o' = triggered o
}.

Lemma skel_same o o' : skel o' = skel o <-> same_object o o'.
Proof.
  unfold skel. split.
  - destruct o, o'. cbn. intros [= -> -> -> -> -> -> -> Hs]. split; cbn; try done.
    by apply bool_decide_eq_bool_decide in Hs || (case_bool_decide; case_bool_decide; tauto || done).
  - intros [H1 H2 H3 H4 H5 H6 H7 H8]. destruct o, o'. cbn in *. subst. f_equal. by apply bool_decide_ext.
Qed.

Lemma quiet_object st st' i o' :
  quiet st st' -> objects st' !! i = Some o' -> exists o, objects st !! i = Some o /\ same_object o o'.
Proof.
  intros Hq Ho. pose proof (q_objects _ _ Hq i) as H. rewrite Ho in H.
  destruct (objects st !! i) as [o|]; [|done]. cbn [fmap option_fmap option_map] in H. apply (inj Some) in H. exists o. split; [done|].
  by apply skel_same.
Qed.
Lemma quiet_object' st st' i o :
  quiet st st' -> objects st !! i = Some o -> exists o', objects st' !! i = Some o' /\ same_object o o'.
Proof.
  intros Hq Ho. pose proof (q_objects _ _ Hq i) as H. rewrite Ho in H.
  destruct (objects st' !! i) as [o'|]; [|done]. cbn [fmap option_fmap option_map] in H. apply (inj Some) in H. exists o'. split; [done|].
  by apply skel_same.
Qed.

Lemma quiet_set_object st i o o' :
  objects st !! i = Some o -> same_object o o' -> quiet st (set_object st i o').
Proof.
  intros Ho Hs. split; cbn; try done. intros j. destruct (decide (i = j)) as [<-|Hne].
  - rewrite lookup_insert_eq, Ho. cbn. f_equal. by apply skel_same.
  - by rewrite lookup_insert_ne.
Qed.

(** Membership in a list that grew by one. *)
Lemma snoc_here `{EqDecision A} (l : list A) (x : A) : bool_decide (x ∈ l ++ [x]) = true.
Proof. apply bool_decide_eq_true, elem_of_app. right. left. Qed.
Lemma snoc_other `{EqDecision A} (l : list A) (x y : A) :
  x <> y -> bool_decide (x ∈ l ++ [y]) = bool_decide (x ∈ l).
Proof. intros Hne. apply bool_decide_ext. rewrite elem_of_app, list_elem_of_singleton. tauto. Qed.

Section Safe.
Context `{SyncEnv} (al : allocator).
Implicit Types (st : SyncState) (r : trigger_ref) (o : SyncObject).

Lemma BracketValues_quiet st (i : Z) o (psci : SysCounterInfo) (less greater : bool) :
  objects st !! i = Some o -> pSysCounterInfo o = Some psci -> quiet st (BracketValues st i psci less greater).
Proof.
  intros Ho Hp. unfold BracketValues. destruct (sc_funcs psci).
  - unfold ServertimeBracketValues. repeat case_bool; by split.
  - unfold IdleTimeBracketValues. destruct (sc_private psci) as [priv|]; [|done].
    cbv zeta. match goal with |- context [on_object ?s _ _] => set (st1 := s) end. assert (Hq : quiet st st1) by (subst st1; repeat case_bool; by split).
    assert (Ho1 : objects st1 = objects st) by (subst st1; by repeat case_bool). clearbody st1.
    etransitivity; [exact Hq|]. unfold on_object. split; cbn; try done. intros j. rewrite Ho1.
    destruct (decide (i = j)) as [<-|Hne].
    + rewrite lookup_alter_eq, Ho. cbn. f_equal. apply skel_same. by split; cbn; rewrite ?Hp.
    + by rewrite lookup_alter_ne.
Qed.

(** The triggers on the list of [i] are alive. *)
Definition list_alive st (i : Z) : Prop :=
  forall o r, objects st !! i = Some o -> r ∈ pTriglist o -> is_Some (get_trigger st r).

Lemma mapM_alive st l : (forall r, r ∈ l -> is_Some (get_trigger st r)) -> is_Some (mapM (get_trigger st) l).
Proof.
  intros Hl. apply mapM_is_Some. apply Forall_forall. intros r Hr. apply Hl. done.
Qed.

Lemma SyncComputeBracketValues_quiet st i o :
  objects st !! i = Some o -> is_Some (pSysCounterInfo o) -> list_alive st i ->
  exists st', SyncComputeBracketValues st i = Ret st' /\ quiet st st'.
Proof.
  intros Ho [psci Hp] Hl. unfold SyncComputeBracketValues. rewrite Ho. cbn [obind_opt]. rewrite Hp. cbn [obind_opt].
  case_decide; [by eexists|].
  destruct (mapM_alive st (pTriglist o)) as [ts ->]; [intros r; by apply Hl|]. cbn [obind_opt].
  eexists. split; [reflexivity|]. set (psci' := psci <| bracket_greater := _ |> <| bracket_less := _ |>).
  etransitivity.
  - apply (quiet_set_object st i o (o <| pSysCounterInfo := Some psci' |>)); [done|].
    by split; cbn; rewrite ?Hp.
  - eapply BracketValues_quiet; [cbn; by rewrite lookup_insert_eq|done].
Qed.

(** Objects have the data their kind needs. *)
Definition sys_ok st (i : Z) : Prop :=
  forall o, objects st !! i = Some o -> so_type o = SYNC_COUNTER -> IsSystemCounter o = true ->
    is_Some (pSysCounterInfo o).

Lemma compute_if_system_quiet st i :
  is_Some (objects st !! i) -> sys_ok st i -> list_alive st i ->
  exists st', compute_if_system st i = Ret st' /\ quiet st st'.
Proof.
  intros [o Ho] Hs Hl. unfold compute_if_system. rewrite Ho. cbn [obind_opt].
  destruct (bool_decide (so_type o = SYNC_COUNTER)) eqn:Ht; cbn [andb]; [|by eexists].
  destruct (IsSystemCounter o) eqn:Hi; [|by eexists].
  apply bool_decide_eq_true in Ht. apply (SyncComputeBracketValues_quiet st i o Ho); [|done]. by apply (Hs o Ho).
Qed.

(** Taking a trigger off a list. *)
Definition unlink st (i : Z) r : SyncState := on_object st i (fun o => o <| pTriglist ::= filter (fun x => x <> r) |>).

Lemma SyncDeleteTrigger_quiet st r t i :
  get_trigger st r = Some t -> pSync t = Some i -> is_Some (objects st !! i) -> sys_ok st i -> list_alive st i ->
  exists st', SyncDeleteTriggerFromSyncObject st r = Ret st' /\ quiet (unlink st i r) st'.
Proof.
  intros Ht Hi [o Ho] Hs Hl. unfold SyncDeleteTriggerFromSyncObject. rewrite Ht. cbn [obind_opt]. rewrite Hi, Ho.
  cbn [obind_opt].
  assert (E : set_object st i (o <| pTriglist ::= filter (fun x => x <> r) |>) = unlink st i r).
  { unfold set_object, unlink, on_object. cbn. by rewrite (alter_Some (objects st) _ i o Ho). }
  rewrite E. apply compute_if_system_quiet.
  - unfold unlink, on_object. cbn. rewrite lookup_alter_eq, Ho. by eexists.
  - intros o'. unfold unlink, on_object. cbn. rewrite lookup_alter_eq, Ho. cbn. intros [= <-]. exact (Hs o Ho).
  - intros o' r'. unfold unlink, on_object. cbn. rewrite lookup_alter_eq, Ho. cbn. intros [= <-]. cbn.
    rewrite list_elem_of_filter. intros [_ Hr]. by apply (Hl o).
Qed.

(** ** Taking triggers off the lists *)

(** Of the objects only the lists changed: those elements of the list of [i]
    stay that [P i] selects. *)
Definition filtered_lists (P : Z -> trigger_ref -> bool) st st' : Prop :=
  forall i, skel <$> objects st' !! i =
    (fun o => skel (o <| pTriglist ::= filter (fun x => P i x = true) |>)) <$> objects st !! i.

Record relisted (P : Z -> trigger_ref -> bool) st st' : Prop := {
  rl_objects : filtered_lists P st st';
  rl_alarms : alarms st' = alarms st;
  rl_awaits : awaits st' = awaits st;
  rl_resources : resources st' = resources st;
  rl_counters : SysCounterList st' = SysCounterList st;
  rl_ignore : ignoreCount st' = ignoreCount st;
  rl_gone : clientGone st' = clientGone st;
  rl_out : out st' = out st
}.

(** The fields of an object whose list was filtered. *)
Definition filtered (P : trigger_ref -> bool) o o' : Prop :=
  same_object (o <| pTriglist ::= filter (fun x => P x = true) |>) o'.

Lemma lists_object P st st' i o' :
  filtered_lists P st st' -> objects st' !! i = Some o' -> exists o, objects st !! i = Some o /\ filtered (P i) o o'.
Proof.
  intros Hq Ho. pose proof (Hq i) as E. rewrite Ho in E.
  destruct (objects st !! i) as [o|]; [|done]. cbn [fmap option_fmap option_map] in E. apply (inj Some) in E.
  exists o. split; [done|]. by apply skel_same.
Qed.
Lemma lists_object' P st st' i o :
  filtered_lists P st st' -> objects st !! i = Some o -> exists o', objects st' !! i = Some o' /\ filtered (P i) o o'.
Proof.
  intros Hq Ho. pose proof (Hq i) as E. rewrite Ho in E.
  destruct (objects st' !! i) as [o'|]; [|done]. cbn [fmap option_fmap option_map] in E. apply (inj Some) in E.
  exists o'. split; [done|]. by apply skel_same.
Qed.
Lemma relisted_object P st st' i o' :
  relisted P st st' -> objects st' !! i = Some o' -> exists o, objects st !! i = Some o /\ filtered (P i) o o'.
Proof. intros []. by apply lists_object. Qed.
Lemma relisted_object' P st st' i o :
  relisted P st st' -> objects st !! i = Some o -> exists o', objects st' !! i = Some o' /\ filtered (P i) o o'.
Proof. intros []. by apply lists_object'. Qed.

Lemma relisted_ext P Q st st' :
  (forall i o x, objects st !! i = Some o -> x ∈ pTriglist o -> P i x = Q i x) ->
  relisted P st st' -> relisted Q st st'.
Proof.
  intros HPQ []. split; try done. intros i. rewrite rl_objects0. destruct (objects st !! i) as [o|] eqn:Ho; [|done].
  cbn. do 2 f_equal. cbn.
  assert (E : forall l : list trigger_ref, (forall x, x ∈ l -> x ∈ pTriglist o) ->
    filter (fun x => P i x = true) l = filter (fun x => Q i x = true) l).
  { induction l as [|x l IH]; intros Hl; [done|]. rewrite !filter_cons, IH by set_solver.
    rewrite (HPQ i o x) by (done || apply Hl; left). by repeat case_decide. }
  by rewrite E.
Qed.

Lemma relisted_trans P Q st1 st2 st3 :
  relisted P st1 st2 -> relisted Q st2 st3 -> relisted (fun i x => P i x && Q i x) st1 st3.
Proof.
  intros HP HQ. split; try (etransitivity; [apply HQ|apply HP]). intros i.
  pose proof (rl_objects _ _ _ HQ i) as E. rewrite E. clear E.
  destruct (objects st2 !! i) as [o2|] eqn:H2.
  - destruct (relisted_object _ _ _ _ _ HP H2) as (o1 & -> & Hf). cbn. f_equal. apply skel_same.
    destruct Hf as [F1 F2 F3 F4 F5 F6 F7 F8]. split; cbn in *; try done.
    rewrite F2, list_filter_filter. apply list_filter_iff. intros x. rewrite andb_true_iff. tauto.
  - pose proof (rl_objects _ _ _ HP i) as E. rewrite H2 in E. by destruct (objects st1 !! i).
Qed.

Lemma relist_same (P : trigger_ref -> bool) o :
  (forall x, x ∈ pTriglist o -> P x = true) -> o <| pTriglist ::= filter (fun x => P x = true) |> = o.
Proof.
  destruct o as [c l ty ini bd v si tr]. cbn. intros HP. f_equal. induction l as [|x l IH]; [done|].
  rewrite filter_cons_True by (apply HP; left). f_equal. apply IH. intros y Hy. apply HP. by right.
Qed.
Lemma quiet_relisted st st' : quiet st st' -> relisted (fun _ _ => true) st st'.
Proof.
  intros []. split; try done. intros i. rewrite q_objects0. destruct (objects st !! i) as [o|]; [|done].
  cbn. do 2 f_equal. symmetry. exact (relist_same (fun _ => true) o ltac:(done)).
Qed.
Lemma unlink_relisted st i r :
  relisted (fun j x => negb (bool_decide (j = i) && bool_decide (x = r))) st (unlink st i r).
Proof.
  split; try done. intros j. unfold unlink, on_object. cbn. destruct (decide (j = i)) as [->|Hne].
  - rewrite lookup_alter_eq. destruct (objects st !! i) as [o|]; [|done]. cbn. do 2 f_equal. cbn.
    f_equal. apply list_filter_iff. intros x. rewrite bool_decide_true by done. cbn.
    rewrite negb_true_iff, bool_decide_eq_false. done.
  - rewrite lookup_alter_ne by done. destruct (objects st !! j) as [o|]; [|done].
    rewrite bool_decide_false by done. cbn. do 2 f_equal. symmetry.
    exact (relist_same (fun _ => true) o ltac:(done)).
Qed.

(** ** Invariants of the lists *)

(** The check function suits the object. *)
Definition check_fits o (t : SyncTrigger) : Prop :=
  exists f, CheckTrigger t = Some f /\ (f = SyncCheckTriggerFence <-> so_type o = SYNC_FENCE).

(** Every object is complete, and the triggers on its list are alive and wait
    for it; [D] is the object that is being destroyed. *)
Record listed (D : option Z) st : Prop := {
  ls_nodup : forall i o, objects st !! i = Some o -> NoDup (pTriglist o);
  ls_sys : forall i, sys_ok st i;
  ls_init : forall i o, objects st !! i = Some o -> initialized o = true;
  ls_destroyed : forall i o, objects st !! i = Some o -> beingDestroyed o = bool_decide (D = Some i);
  ls_live : forall i o r, objects st !! i = Some o -> D <> Some i -> r ∈ pTriglist o ->
    exists t, get_trigger st r = Some t /\ pSync t = Some i /\ check_fits o t
}.

Lemma relisted_get P st st' r : relisted P st st' -> get_trigger st' r = get_trigger st r.
Proof. intros Hq. unfold get_trigger. by rewrite (rl_alarms _ _ _ Hq), (rl_awaits _ _ _ Hq). Qed.

Lemma filtered_elem P o o' x : filtered P o o' -> x ∈ pTriglist o' <-> P x = true /\ x ∈ pTriglist o.
Proof. intros Hf. rewrite (same_list _ _ Hf). cbn. by rewrite list_elem_of_filter. Qed.

Lemma listed_relisted D P st st' : relisted P st st' -> listed D st -> listed D st'.
Proof.
  intros Hr [H1 H2 H3 H4 H5]. split.
  - intros i o' Ho. destruct (relisted_object _ _ _ _ _ Hr Ho) as (o & Ho1 & Hf). rewrite (same_list _ _ Hf).
    cbn. apply NoDup_filter. by apply (H1 i).
  - intros i o' Ho Ht Hs. destruct (relisted_object _ _ _ _ _ Hr Ho) as (o & Ho1 & Hf).
    apply (same_sys _ _ Hf). cbn. apply (H2 i o Ho1).
    + by rewrite (same_type _ _ Hf) in Ht.
    + unfold IsSystemCounter in *. by rewrite (same_client _ _ Hf) in Hs.
  - intros i o' Ho. destruct (relisted_object _ _ _ _ _ Hr Ho) as (o & Ho1 & Hf).
    rewrite (same_init _ _ Hf). exact (H3 i o Ho1).
  - intros i o' Ho. destruct (relisted_object _ _ _ _ _ Hr Ho) as (o & Ho1 & Hf).
    rewrite (same_destroyed _ _ Hf). exact (H4 i o Ho1).
  - intros i o' r Ho HD Hin. destruct (relisted_object _ _ _ _ _ Hr Ho) as (o & Ho1 & Hf).
    rewrite (relisted_get _ _ _ _ Hr). unfold check_fits. rewrite (same_type _ _ Hf).
    apply (H5 i o r Ho1 HD). by apply (filtered_elem _ _ _ _ Hf).
Qed.

Lemma listed_alive D st i : listed D st -> D <> Some i -> list_alive st i.
Proof. intros Hl HD o r Ho Hr. destruct (ls_live _ _ Hl i o r Ho HD Hr) as (t & -> & _). by eexists. Qed.

(** ** Freeing an await *)

Definition is_cond (u : Z) (k n : nat) (x : trigger_ref) : bool :=
  match x with TAwait u' m => bool_decide (u' = u) && bool_decide (k <= m < k + n)%nat | _ => false end.

Lemma free_conditions_spec D st u k n un :
  listed D st -> awaits st !! u = Some un -> (k + n <= length (conditions un))%nat ->
  (forall m w i, (k <= m < k + n)%nat -> conditions un !! m = Some w -> pSync (aw_trigger w) = Some i ->
     is_Some (objects st !! i)) ->
  exists st', free_conditions st u k n = Ret st' /\
    relisted (fun i x => bool_decide (D = Some i) || negb (is_cond u k n x)) st st'.
Proof.
  revert st k. induction n as [|n IH]; intros st k Hl Hu Hlen Hex; cbn [free_conditions].
  { eexists. split; [reflexivity|]. eapply relisted_ext; [|apply quiet_relisted; reflexivity].
    intros i o x _ _. cbn. destruct x as [|u' m]; cbn; [by rewrite orb_true_r|].
    rewrite (bool_decide_false (k <= m < k + 0)%nat) by lia. by rewrite andb_false_r, orb_true_r. }
  destruct (lookup_lt_is_Some_2 (conditions un) k ltac:(lia)) as [w Hw].
  assert (Hg : get_trigger st (TAwait u k) = Some (aw_trigger w)) by (cbn; by rewrite Hu; cbn; rewrite Hw).
  rewrite Hg. cbn [obind_opt].
  assert (Hstep : exists st1, match pSync (aw_trigger w) with
      | None => Ret st
      | Some i => o <-? objects st !! i;
          (if beingDestroyed o then Ret st else SyncDeleteTriggerFromSyncObject st (TAwait u k)) end = Ret st1 /\
      relisted (fun i x => bool_decide (D = Some i) || negb (bool_decide (x = TAwait u k))) st st1).
  { assert (Hsame : (forall i o, objects st !! i = Some o -> D <> Some i -> TAwait u k ∉ pTriglist o) ->
      relisted (fun i x => bool_decide (D = Some i) || negb (bool_decide (x = TAwait u k))) st st).
    { intros Hno. eapply relisted_ext; [|apply quiet_relisted; reflexivity].
      intros i o x Ho Hx. cbn. case_bool_decide; [done|]. cbn. symmetry. apply negb_true_iff, bool_decide_eq_false.
      intros ->. by apply (Hno i o). }
    destruct (pSync (aw_trigger w)) as [i|] eqn:Hp.
    - destruct (Hex k w i ltac:(lia) Hw Hp) as [o Ho]. rewrite Ho. cbn [obind_opt].
      rewrite (ls_destroyed _ _ Hl i o Ho). case_bool_decide as HD.
      + eexists. split; [reflexivity|]. apply Hsame. intros j oj Hj HDj Hin.
        destruct (ls_live _ _ Hl j oj _ Hj HDj Hin) as (t & Ht & Hpt & _). rewrite Hg in Ht. injection Ht as <-. congruence.
      + destruct (SyncDeleteTrigger_quiet st (TAwait u k) (aw_trigger w) i Hg Hp ltac:(by eexists)
          (ls_sys _ _ Hl i) (listed_alive D st i Hl HD)) as (st1 & -> & Hq).
        eexists. split; [reflexivity|].
        eapply relisted_ext; [|eapply relisted_trans; [apply unlink_relisted|by apply quiet_relisted]].
        intros j oj x Hj Hx. cbn. rewrite andb_true_r.
        destruct (decide (x = TAwait u k)) as [->|Hne].
        * rewrite !(bool_decide_true (TAwait u k = _)) by done. rewrite andb_true_r, orb_false_r.
          destruct (decide (D = Some j)) as [HDj|HDj].
          -- rewrite (bool_decide_true (D = _)) by done. apply negb_true_iff, bool_decide_eq_false. congruence.
          -- rewrite (bool_decide_false (D = _)) by done. apply negb_false_iff, bool_decide_eq_true.
             destruct (ls_live _ _ Hl j oj _ Hj HDj Hx) as (t & Ht & Hpt & _). rewrite Hg in Ht. injection Ht as <-. congruence.
        * rewrite !(bool_decide_false (x = _)) by done. by rewrite andb_false_r, orb_true_r.
    - eexists. split; [reflexivity|]. apply Hsame. intros j oj Hj HDj Hin.
      destruct (ls_live _ _ Hl j oj _ Hj HDj Hin) as (t & Ht & Hpt & _). rewrite Hg in Ht. injection Ht as <-. congruence. }
  destruct Hstep as (st1 & -> & Hr1). cbn [obind].
  destruct (IH st1 (S k)) as (st2 & -> & Hr2).
  - by eapply listed_relisted.
  - by rewrite (rl_awaits _ _ _ Hr1).
  - lia.
  - intros m w' i Hm Hw' Hp'. destruct (Hex m w' i ltac:(lia) Hw' Hp') as [o Ho].
    destruct (relisted_object' _ _ _ _ _ Hr1 Ho) as (o' & -> & _). by eexists.
  - eexists. split; [reflexivity|]. eapply relisted_ext; [|exact (relisted_trans _ _ _ _ _ Hr1 Hr2)].
    intros i o x _ _. cbn. case_bool_decide; [done|]. cbn. destruct x as [a|u' m]; cbn; [done|].
    destruct (decide (u' = u)) as [->|Hu']; cbn.
    + rewrite (bool_decide_true (u = u)) by done. cbn.
      destruct (decide (m = k)) as [->|Hm].
      * rewrite (bool_decide_true (TAwait u k = _)), (bool_decide_true (k <= k < k + S n)%nat) by (done || lia). done.
      * rewrite (bool_decide_false (TAwait u m = _)) by congruence. cbn. f_equal. apply bool_decide_ext. lia.
    + rewrite (bool_decide_false (u' = u)), (bool_decide_false (TAwait u' m = _)) by congruence. done.
Qed.

(** ** The invariant *)

(** The alarm's trigger is one that a successful request set up. *)
Definition alarm_ok (A : SyncAlarm) : Prop :=
  (exists f, CheckTrigger (al_trigger A) = Some f /\ select_check false (test_type (al_trigger A)) = Some f /\
     delta_fits f (delta A)) /\
  is_int64 (delta A) /\ is_int64 (test_value (al_trigger A)) /\ NoDup (pEventClients A).*2.

Definition type_of_object o : RESTYPE :=
  match so_type o with SYNC_COUNTER => RTCounter | SYNC_FENCE => RTFence end.

Record sync_wf (D : option Z) st : Prop := {
  wf_listed : listed D st;
  wf_value : forall i o, objects st !! i = Some o -> is_int64 (value o);
  wf_back : forall r t i, get_trigger st r = Some t -> pSync t = Some i ->
    exists o, objects st !! i = Some o /\ r ∈ pTriglist o;
  wf_idx : forall i o u k, objects st !! i = Some o -> D <> Some i -> TAwait u k ∈ pTriglist o ->
    exists un, awaits st !! u = Some un /\ (k < num_waitconditions un)%nat;
  wf_once : forall i o u k k', objects st !! i = Some o -> D <> Some i ->
    TAwait u k ∈ pTriglist o -> TAwait u k' ∈ pTriglist o -> k = k';
  wf_await : forall u un, awaits st !! u = Some un ->
    resources st !! u = Some (RTAwait, u) /\ (num_waitconditions un <= length (conditions un))%nat /\
    forall k w, conditions un !! k = Some w ->
      if decide (k < num_waitconditions un)%nat then is_Some (pSync (aw_trigger w)) else pSync (aw_trigger w) = None;
  wf_alarm : forall a A, alarms st !! a = Some A ->
    resources st !! a = Some (RTAlarm, a) /\ alarm_ok A /\
    (forall c id, (c, id) ∈ pEventClients A -> resources st !! id = Some (RTAlarmClient, a)) /\
    (forall i o, pSync (al_trigger A) = Some i -> objects st !! i = Some o -> so_type o = SYNC_COUNTER);
  wf_objects : forall i o, objects st !! i = Some o -> D <> Some i -> resources st !! i = Some (type_of_object o, i);
  wf_res : forall id rt p, resources st !! id = Some (rt, p) ->
    match rt with
    | RTCounter => p = id /\ exists o, objects st !! id = Some o /\ so_type o = SYNC_COUNTER /\ D <> Some id
    | RTFence => p = id /\ exists o, objects st !! id = Some o /\ so_type o = SYNC_FENCE /\ D <> Some id
    | RTAwait => p = id /\ is_Some (awaits st !! id)
    | RTAlarm => p = id /\ is_Some (alarms st !! id)
    | RTAlarmClient => exists A c, alarms st !! p = Some A /\ (c, id) ∈ pEventClients A
    end
}.

(** ** Unblocking a client *)

Definition of_await (u : Z) (x : trigger_ref) : bool :=
  match x with TAwait u' _ => bool_decide (u' = u) | _ => false end.

(** The await [u] is gone, and with it its triggers on all lists but that of
    an object that is being destroyed. *)
Record await_gone (D : option Z) (u : Z) st st' : Prop := {
  ag_objects : filtered_lists (fun i x => bool_decide (D = Some i) || negb (of_await u x)) st st';
  ag_alarms : alarms st' = alarms st;
  ag_awaits : awaits st' = delete u (awaits st);
  ag_resources : resources st' = delete u (resources st);
  ag_counters : SysCounterList st' = SysCounterList st;
  ag_gone : clientGone st' = clientGone st
}.

Lemma free_await_spec D st u un n :
  sync_wf D st -> awaits st !! u = Some un ->
  exists st', FreeResource_rec al (S n) st u = Ret st' /\ await_gone D u st st' /\
    ignoreCount st' = ignoreCount st /\ out st' = out st.
Proof.
  intros Hwf Hu. destruct (wf_await _ _ Hwf u un Hu) as (Hres & Hlen & Hcond).
  cbn [FreeResource_rec]. rewrite Hres. cbn [delete_resource]. set (st0 := st <| resources ::= delete u |>).
  assert (Hl0 : listed D st0).
  { destruct (wf_listed _ _ Hwf) as [L1 L2 L3 L4 L5]. by split. }
  unfold FreeAwait. assert (Hu0 : awaits st0 !! u = Some un) by done. rewrite Hu0. cbn [obind_opt].
  destruct (free_conditions_spec D st0 u 0 (num_waitconditions un) un Hl0 Hu0) as (st1 & -> & Hr).
  { lia. }
  { intros m w i Hm Hw Hp. destruct (wf_back _ _ Hwf (TAwait u m) (aw_trigger w) i) as (o & Ho & _).
    - cbn. rewrite Hu. cbn. by rewrite Hw.
    - done.
    - by eexists. }
  cbn [obind]. eexists. split; [reflexivity|].
  assert (Hr' : relisted (fun i x => bool_decide (D = Some i) || negb (of_await u x)) st0 st1).
  { eapply relisted_ext; [|exact Hr]. intros i o x Ho Hx. cbn. case_bool_decide as HD; [done|]. cbn. f_equal.
    destruct x as [|u' k]; [done|]. cbn. case_bool_decide as E; [|done]. subst u'. cbn.
    destruct (wf_idx _ _ Hwf i o u k Ho HD Hx) as (un' & Hun & Hk). rewrite Hu in Hun. injection Hun as <-.
    apply bool_decide_eq_true. lia. }
  destruct Hr' as [R1 R2 R3 R4 R5 R6 R7 R8]. cbn in *.
  split_and!; [split; cbn|..]; try done. by rewrite R3.
Qed.

(** The events of an await can be computed while its objects exist. *)
Lemma generating_total st ws :
  (forall w, w ∈ ws -> exists i o, pSync (aw_trigger w) = Some i /\ objects st !! i = Some o) ->
  exists ws', generating st ws = Ret ws' /\ forall w, w ∈ ws' -> w ∈ ws.
Proof.
  induction ws as [|w ws IH]; intros Hw; cbn; [by eexists|].
  destruct (Hw w ltac:(left)) as (i & o & Hi & Ho).
  assert (Hb : exists b, await_generates st w = Ret b).
  { unfold await_generates. rewrite Hi. cbn [obind_opt]. rewrite Ho. cbn [obind_opt].
    destruct (beingDestroyed o); [by eexists|]. case_decide; [|by eexists].
    destruct (checked_int64_subtract _ _) as [d []]; by eexists. }
  destruct Hb as [b ->]. cbn [obind]. destruct IH as (ws' & -> & Hin); [intros; apply Hw; by right|]. cbn [obind].
  eexists. split; [reflexivity|]. destruct b; set_solver.
Qed.
Lemma counter_notifies_total st c ws :
  (forall w, w ∈ ws -> exists i o, pSync (aw_trigger w) = Some i /\ objects st !! i = Some o) ->
  exists l, counter_notifies st c ws = Ret l.
Proof.
  induction ws as [|w ws IH]; intros Hw; cbn; [by eexists|].
  destruct (Hw w ltac:(left)) as (i & o & -> & Ho). cbn [obind_opt]. rewrite Ho. cbn [obind_opt].
  destruct IH as (l & ->); [intros; apply Hw; by right|]. by eexists.
Qed.

Lemma generating_ext st st' ws : objects st' = objects st -> generating st' ws = generating st ws.
Proof.
  intros E. induction ws as [|w ws IH]; cbn; [done|]. rewrite IH. unfold await_generates. by rewrite E.
Qed.
Lemma counter_notifies_ext st st' c ws : objects st' = objects st -> counter_notifies st' c ws = counter_notifies st c ws.
Proof. intros E. induction ws as [|w ws IH]; cbn; [done|]. by rewrite IH, E. Qed.

(** The await [u] was unblocked: its client is attended to and has got the
    events, unless it is gone or there was no memory for them. *)
Record unblocked (D : option Z) (u : Z) (un : SyncAwaitUnion) st st' : Prop := {
  ub_gone : await_gone D u st st';
  ub_ignore : ignoreCount st' = ignoreCount (AttendClient st (hd_client un));
  ub_out : exists ws l, generating st (take (num_waitconditions un) (conditions un)) = Ret ws /\
    counter_notifies st (hd_client un) ws = Ret l /\
    (out st' = out st ++ l \/
     out st' = out st /\ (hd_client un ∈ clientGone st \/ exists k n, al k n = false))
}.

Lemma sync_wf_ext D st st' :
  objects st' = objects st -> alarms st' = alarms st -> awaits st' = awaits st -> resources st' = resources st ->
  sync_wf D st -> sync_wf D st'.
Proof.
  intros E1 E2 E3 E4 [[L1 L2 L3 L4 L5] H1 H2 H3 H4 H5 H6 H7 H8].
  assert (Hg : forall r, get_trigger st' r = get_trigger st r) by (intros r; unfold get_trigger; by rewrite E2, E3).
  split; [split|..].
  - intros i o. rewrite E1. apply L1.
  - intros i o. rewrite E1. apply L2.
  - intros i o. rewrite E1. apply L3.
  - intros i o. rewrite E1. apply L4.
  - intros i o r. rewrite E1, Hg. apply L5.
  - intros i o. rewrite E1. apply H1.
  - intros r t i. rewrite Hg, E1. apply H2.
  - intros i o u k. rewrite E1, E3. apply H3.
  - intros i o u k k'. rewrite E1. apply H4.
  - intros u un. rewrite E3, E4. apply H5.
  - intros a A. rewrite E2, E1, E4. apply H6.
  - intros i o. rewrite E1, E4. apply H7.
  - intros id rt p. rewrite E4. intros Hr. specialize (H8 id rt p Hr). destruct rt; by rewrite ?E1, ?E2, ?E3.
Qed.

Lemma SyncAwaitTriggerFired_spec D st u un n :
  sync_wf D st -> awaits st !! u = Some un ->
  exists st', SyncAwaitTriggerFired al (FreeResource_rec al (S n)) st u = Ret st' /\ unblocked D u un st st'.
Proof.
  intros Hwf Hu. unfold SyncAwaitTriggerFired. rewrite Hu. cbn [obind_opt calloc].
  set (ws0 := take (num_waitconditions un) (conditions un)).
  assert (Hex : forall w, w ∈ ws0 -> exists i o, pSync (aw_trigger w) = Some i /\ objects st !! i = Some o).
  { intros w Hw. apply list_elem_of_lookup in Hw as [k Hk]. apply lookup_take_Some in Hk as [Hk Hlt].
    destruct (wf_await _ _ Hwf u un Hu) as (_ & _ & Hc). specialize (Hc k w Hk). rewrite decide_True in Hc by done.
    destruct Hc as [i Hi]. destruct (wf_back _ _ Hwf (TAwait u k) (aw_trigger w) i) as (o & Ho & _); [|done|by exists i, o].
    cbn. rewrite Hu. cbn. by rewrite Hk. }
  destruct (generating_total st ws0 Hex) as (ws & Hgen & Hin).
  destruct (counter_notifies_total st (hd_client un) ws) as (l & Hl); [intros w Hw; by apply Hex, Hin|].
  set (st1 := st <| allocs ::= S |>).
  assert (Hev : exists st2, (if al (allocs st) (8 * Z.of_nat (num_waitconditions un)) then
      ws <-- generating st1 ws0; (if bool_decide (ws = []) then Ret st1 else SyncSendCounterNotifyEvents al st1 (hd_client un) ws)
      else Ret st1) = Ret st2 /\
    objects st2 = objects st /\ alarms st2 = alarms st /\ awaits st2 = awaits st /\ resources st2 = resources st /\
    SysCounterList st2 = SysCounterList st /\ clientGone st2 = clientGone st /\ ignoreCount st2 = ignoreCount st /\
    (out st2 = out st ++ l \/ out st2 = out st /\ (hd_client un ∈ clientGone st \/ exists k n, al k n = false))).
  { destruct (al _ _) eqn:Hal; [|eexists; split; [reflexivity|]; split_and!; try done; right; eauto].
    rewrite (generating_ext st st1) by done. rewrite Hgen. cbn [obind]. case_bool_decide as Hws.
    { subst ws. cbn in Hl. injection Hl as <-. eexists. split; [reflexivity|]. split_and!; try done. left. by rewrite app_nil_r. }
    unfold SyncSendCounterNotifyEvents. case_bool_decide as Hg.
    { eexists. split; [reflexivity|]. split_and!; try done. right. split; [done|]. by left. }
    cbn [calloc]. destruct (al (allocs st1) _) eqn:Hal2; cbn [negb].
    - rewrite (counter_notifies_ext st (st1 <| allocs ::= S |>)) by done. rewrite Hl. cbn [obind].
      eexists. split; [reflexivity|]. split_and!; try done. by left.
    - eexists. split; [reflexivity|]. split_and!; try done. right. eauto. }
  destruct Hev as (st2 & -> & E1 & E2 & E3 & E4 & E5 & E6 & E7 & E8). cbn [obind].
  assert (Hat : forall s, objects (AttendClient s (hd_client un)) = objects s /\ alarms (AttendClient s (hd_client un)) = alarms s /\
    awaits (AttendClient s (hd_client un)) = awaits s /\ resources (AttendClient s (hd_client un)) = resources s /\
    SysCounterList (AttendClient s (hd_client un)) = SysCounterList s /\
    clientGone (AttendClient s (hd_client un)) = clientGone s /\ out (AttendClient s (hd_client un)) = out s).
  { intros s. unfold AttendClient. by case_bool_decide. }
  destruct (Hat st2) as (A1 & A2 & A3 & A4 & A5 & A6 & A7). clear Hat.
  destruct (free_await_spec D (AttendClient st2 (hd_client un)) u un n) as (st3 & -> & Hgone & Hi & Ho).
  - eapply (sync_wf_ext D st); congruence || done.
  - by rewrite A3, E3.
  - exists st3. split; [done|]. split.
    + destruct Hgone. split; try congruence. intros i. rewrite ag_objects0. by rewrite A1, E1.
    + rewrite Hi. unfold AttendClient. rewrite E6, E7. case_bool_decide; cbn; congruence.
    + exists ws, l. split; [done|]. split; [done|]. rewrite Ho, A7. done.
Qed.

Lemma await_gone_get D u st st' r :
  await_gone D u st st' -> get_trigger st' r = if of_await u r then None else get_trigger st r.
Proof.
  intros Hg. unfold get_trigger. destruct r as [a|u' k]; cbn; [by rewrite (ag_alarms _ _ _ _ Hg)|].
  rewrite (ag_awaits _ _ _ _ Hg). case_bool_decide as E.
  - subst u'. by rewrite lookup_delete_eq.
  - by rewrite lookup_delete_ne.
Qed.

(** An id other than that of the await. *)
Lemma not_await_id D st u un id rt p :
  sync_wf D st -> awaits st !! u = Some un -> resources st !! id = Some (rt, p) -> rt <> RTAwait -> id <> u.
Proof.
  intros Hwf Hu Hr Hne ->. destruct (wf_await _ _ Hwf u un Hu) as (Hr' & _). congruence.
Qed.

Lemma await_gone_wf D u un st st' :
  sync_wf D st -> awaits st !! u = Some un -> await_gone D u st st' -> sync_wf D st'.
Proof.
  intros Hwf Hu Hg. pose proof (ag_objects _ _ _ _ Hg) as Ho. pose proof (await_gone_get D u st st') as Hget.
  assert (Hgt : forall r, get_trigger st' r = if of_await u r then None else get_trigger st r) by (intros; by apply Hget).
  clear Hget. destruct Hwf as [[L1 L2 L3 L4 L5] H1 H2 H3 H4 H5 H6 H7 H8] eqn:E. clear E.
  split; [split|..].
  - intros i o' Hi. destruct (lists_object _ _ _ _ _ Ho Hi) as (o & Hi' & Hf). rewrite (same_list _ _ Hf). cbn.
    by apply NoDup_filter, (L1 i).
  - intros i o' Hi Ht Hs. destruct (lists_object _ _ _ _ _ Ho Hi) as (o & Hi' & Hf).
    apply (same_sys _ _ Hf). cbn. apply (L2 i o Hi'); [by rewrite (same_type _ _ Hf) in Ht|].
    unfold IsSystemCounter in *. by rewrite (same_client _ _ Hf) in Hs.
  - intros i o' Hi. destruct (lists_object _ _ _ _ _ Ho Hi) as (o & Hi' & Hf). rewrite (same_init _ _ Hf). exact (L3 i o Hi').
  - intros i o' Hi. destruct (lists_object _ _ _ _ _ Ho Hi) as (o & Hi' & Hf). rewrite (same_destroyed _ _ Hf). exact (L4 i o Hi').
  - intros i o' r Hi HD Hr. destruct (lists_object _ _ _ _ _ Ho Hi) as (o & Hi' & Hf).
    apply (filtered_elem _ _ _ _ Hf) in Hr. destruct Hr as [Hp Hr]. rewrite Hgt. rewrite (bool_decide_false (D = _)) in Hp by done.
    cbn in Hp. apply negb_true_iff in Hp. rewrite Hp. unfold check_fits. rewrite (same_type _ _ Hf).
    by apply (L5 i o).
  - intros i o' Hi. destruct (lists_object _ _ _ _ _ Ho Hi) as (o & Hi' & Hf). rewrite (same_value _ _ Hf). exact (H1 i o Hi').
  - intros r t i. rewrite Hgt. destruct (of_await u r) eqn:Er; [done|]. intros Hr Hp.
    destruct (H2 r t i Hr Hp) as (o & Hi & Hin). destruct (lists_object' _ _ _ _ _ Ho Hi) as (o' & Hi' & Hf).
    exists o'. split; [done|]. apply (filtered_elem _ _ _ _ Hf). split; [|done]. rewrite Er. apply orb_true_r.
  - intros i o' v k Hi HD Hr. destruct (lists_object _ _ _ _ _ Ho Hi) as (o & Hi' & Hf).
    apply (filtered_elem _ _ _ _ Hf) in Hr. destruct Hr as [Hp Hr]. rewrite (bool_decide_false (D = _)) in Hp by done.
    cbn in Hp. apply negb_true_iff, bool_decide_eq_false in Hp. rewrite (ag_awaits _ _ _ _ Hg), lookup_delete_ne by done.
    by apply (H3 i o).
  - intros i o' v k k' Hi HD Hr Hr'. destruct (lists_object _ _ _ _ _ Ho Hi) as (o & Hi' & Hf).
    apply (filtered_elem _ _ _ _ Hf) in Hr, Hr'. apply (H4 i o v k k'); tauto.
  - intros v vn. rewrite (ag_awaits _ _ _ _ Hg), (ag_resources _ _ _ _ Hg). intros Hv.
    apply lookup_delete_Some in Hv as [Hne Hv]. rewrite lookup_delete_ne by done. by apply H5.
  - intros a A. rewrite (ag_alarms _ _ _ _ Hg), (ag_resources _ _ _ _ Hg). intros Ha.
    destruct (H6 a A Ha) as (Hra & Hok & Hcl & Hty).
    split_and!; [|done| |].
    + rewrite lookup_delete_ne; [done|]. apply not_eq_sym. by eapply (not_await_id D st).
    + intros c id Hin. specialize (Hcl c id Hin). rewrite lookup_delete_ne; [done|].
      apply not_eq_sym. by eapply (not_await_id D st).
    + intros i o' Hp Hi. destruct (lists_object _ _ _ _ _ Ho Hi) as (o & Hi' & Hf). rewrite (same_type _ _ Hf).
      exact (Hty i o Hp Hi').
  - intros i o' Hi HD. destruct (lists_object _ _ _ _ _ Ho Hi) as (o & Hi' & Hf). specialize (H7 i o Hi' HD).
    rewrite (ag_resources _ _ _ _ Hg). unfold type_of_object. rewrite (same_type _ _ Hf). cbn.
    rewrite lookup_delete_ne; [exact H7|]. apply not_eq_sym. eapply (not_await_id D st); [done|done|exact H7|].
    unfold type_of_object. by destruct (so_type o).
  - intros id rt p. rewrite (ag_resources _ _ _ _ Hg). intros Hr. apply lookup_delete_Some in Hr as [Hne Hr].
    specialize (H8 id rt p Hr). destruct rt.
    + destruct H8 as (-> & o & Hi & Ht & HD). split; [done|].
      destruct (lists_object' _ _ _ _ _ Ho Hi) as (o' & Hi' & Hf). exists o'. by rewrite (same_type _ _ Hf).
    + destruct H8 as (-> & Hv). split; [done|]. by rewrite (ag_awaits _ _ _ _ Hg), lookup_delete_ne.
    + by rewrite (ag_alarms _ _ _ _ Hg).
    + by rewrite (ag_alarms _ _ _ _ Hg).
    + destruct H8 as (-> & o & Hi & Ht & HD). split; [done|].
      destruct (lists_object' _ _ _ _ _ Ho Hi) as (o' & Hi' & Hf). exists o'. by rewrite (same_type _ _ Hf).
Qed.

(** ** Firing an alarm *)

Definition set_alarm st (a : Z) (A : SyncAlarm) : SyncState := st <| alarms ::= <[a := A]> |>.

Lemma set_alarm_get st a A r :
  get_trigger (set_alarm st a A) r = if decide (r = TAlarm a) then Some (al_trigger A) else get_trigger st r.
Proof.
  unfold get_trigger, set_alarm. destruct r as [a'|u k]; cbn; [|by rewrite decide_False].
  destruct (decide (a' = a)) as [->|Hne]; [by rewrite lookup_insert_eq, decide_True|].
  rewrite lookup_insert_ne, decide_False by congruence. done.
Qed.

(** What may change in an alarm: the threshold, the state, the wish for events. *)
Record alarm_like (A A' : SyncAlarm) : Prop := {
  like_sync : pSync (al_trigger A') = pSync (al_trigger A);
  like_check : CheckTrigger (al_trigger A') = CheckTrigger (al_trigger A);
  like_clients : pEventClients A' = pEventClients A;
  like_ok : alarm_ok A'
}.

Lemma set_alarm_wf D st a A A' :
  sync_wf D st -> alarms st !! a = Some A -> alarm_like A A' -> sync_wf D (set_alarm st a A').
Proof.
  intros [[L1 L2 L3 L4 L5] H1 H2 H3 H4 H5 H6 H7 H8] Ha Hlike.
  split; [split; try done|..]; try done.
  - intros i o r Hi HD Hr. rewrite set_alarm_get. destruct (L5 i o r Hi HD Hr) as (t & Ht & Hp & Hc).
    case_decide as E; [|by exists t]. subst r. cbn in Ht. rewrite Ha in Ht. injection Ht as <-.
    exists (al_trigger A'). destruct Hlike. split; [done|]. split; [congruence|].
    unfold check_fits in *. by rewrite like_check0.
  - intros r t i. rewrite set_alarm_get. case_decide as E; [|apply H2]. subst r. intros [= <-] Hp.
    apply (H2 _ (al_trigger A)); [by cbn; rewrite Ha|]. destruct Hlike. congruence.
  - intros a' B Hb. cbn in Hb. destruct (decide (a' = a)) as [->|Hne].
    + rewrite lookup_insert_eq in Hb. injection Hb as <-. destruct (H6 a A Ha) as (R1 & R2 & R3 & R4).
      destruct Hlike. split_and!; [done|done|by rewrite like_clients0|by rewrite like_sync0].
    + rewrite lookup_insert_ne in Hb by done. by apply H6.
  - intros id rt p Hr. specialize (H8 id rt p Hr). destruct rt; try done.
    + destruct H8 as [-> Hs]. split; [done|]. cbn. destruct (decide (id = a)) as [->|Hne].
      * rewrite lookup_insert_eq. by eexists.
      * by rewrite lookup_insert_ne.
    + destruct H8 as (B & c & Hb & Hin). cbn. destruct (decide (p = a)) as [->|Hne].
      * rewrite lookup_insert_eq. rewrite Ha in Hb. injection Hb as <-. exists A', c. split; [done|].
        by rewrite (like_clients _ _ Hlike).
      * rewrite lookup_insert_ne by done. eauto.
Qed.

(** The alarm after it fired at [v]; only an active one does something. *)
Definition alarm_after (A : SyncAlarm) (v : Z) : SyncAlarm :=
  if al_state A =? XSyncAlarmActive then
    match CheckTrigger (al_trigger A) with
    | Some f =>
        let '(state, tv) := alarm_next f (delta A) v (test_value (al_trigger A)) in
        A <| al_state := state |> <| al_trigger ::= fun t => t <| test_value := tv |> |>
    | None => A
    end
  else A.
Definition alarm_sends (a : Z) (A : SyncAlarm) (v : Z) : list sync_output :=
  if al_state A =? XSyncAlarmActive then
    alarm_events a (A <| al_state := al_state (alarm_after A v) |>) v
  else [].

Lemma alarm_after_like A v : alarm_ok A -> alarm_like A (alarm_after A v).
Proof.
  intros Hok. pose proof Hok as ((f & Hf & Hs & Hfit) & Hd & Ht & Hn). unfold alarm_after. case_bool; [|by split].
  rewrite Hf.
  assert (Htv : is_int64 (alarm_next f (delta A) v (test_value (al_trigger A))).2).
  { unfold alarm_next. case_bool; [done|]. cbv zeta. by case_bool_decide. }
  destruct (alarm_next f (delta A) v (test_value (al_trigger A))) as [s tv]. cbn in Htv.
  split; try done. split; [by exists f|by split_and!].
Qed.

Lemma alarm_fired st a A i o f :
  alarms st !! a = Some A -> alarm_ok A -> pSync (al_trigger A) = Some i -> objects st !! i = Some o ->
  so_type o = SYNC_COUNTER -> is_int64 (value o) -> CheckTrigger (al_trigger A) = Some f ->
  (is_comparison f = true -> compare f (value o) (test_value (al_trigger A)) (value o) = true) ->
  exists st', SyncAlarmTriggerFired st a = Ret st' /\
    st' = set_alarm st a (alarm_after A (value o)) <| out ::= fun l => l ++ alarm_sends a A (value o) |>.
Proof.
  intros Ha ((f' & Hf' & Hs & Hfit) & Hd & Ht & Hn) Hp Ho Hty Hv Hf Hfire. rewrite Hf in Hf'. injection Hf' as <-.
  unfold alarm_after, alarm_sends. destruct (Z.eqb_spec (al_state A) XSyncAlarmActive) as [Hact|Hact].
  - rewrite Hf. pose proof (SyncAlarmTriggerFired_spec st a A i o f Ha Hact Hp Ho Hty Hf Hs Hd Ht Hv Hfit Hfire) as Hsp.
    destruct (alarm_next f (delta A) (value o) (test_value (al_trigger A))) as [s tv] eqn:En. destruct Hsp as [-> _].
    eexists. split; [reflexivity|]. unfold alarm_after. rewrite Hact, Hf. cbn [Z.eqb XSyncAlarmActive]. by rewrite En.
  - eexists. unfold SyncAlarmTriggerFired, SyncCheckWarnIsCounter. rewrite Ha. cbn [obind_opt]. rewrite Hp, Ho.
    cbn [obind_opt obind]. rewrite bool_decide_true by done. cbn [negb obind].
    rewrite (proj2 (Z.eqb_neq _ _) Hact). cbn [negb]. split; [reflexivity|]. unfold set_alarm. destruct st. cbn in *.
    by rewrite insert_id, app_nil_r.
Qed.

(** ** The triggers of a counter *)

Definition fires (v old : Z) (t : SyncTrigger) : bool :=
  match CheckTrigger t with Some f => compare f v (test_value t) old | None => false end.
Definition ref_fires st (v old : Z) r : bool :=
  match get_trigger st r with Some t => fires v old t | None => false end.

(** The awaits that fire, in the order of the list. *)
Definition fired_awaits (fr : trigger_ref -> bool) (l : list trigger_ref) : list Z :=
  omap (fun r => match r with TAwait u _ => if fr r then Some u else None | TAlarm _ => None end) l.

(** What a trigger that fires sends. *)
Definition trigger_sends st (v : Z) r (l : list sync_output) : Prop :=
  match r with
  | TAlarm a => exists A, alarms st !! a = Some A /\ l = alarm_sends a A v
  | TAwait u _ => exists un ws l', awaits st !! u = Some un /\
      generating st (take (num_waitconditions un) (conditions un)) = Ret ws /\
      counter_notifies st (hd_client un) ws = Ret l' /\
      (l = l' \/ l = [] /\ (hd_client un ∈ clientGone st \/ exists k n, al k n = false))
  end.

(** How often client [c] is attended to. *)
Definition attended st (c : Z) (us : list Z) : Z :=
  Z.of_nat (length (filter (fun u => hd_client <$> awaits st !! u = Some c) us)).

(** What the events depend on. *)
Definition view o : sync_type * Z * bool * bool := (so_type o, value o, beingDestroyed o, triggered o).
Definition same_views st st' : Prop := forall j, view <$> objects st' !! j = view <$> objects st !! j.

Lemma same_views_object st st' j o :
  same_views st st' -> objects st !! j = Some o -> exists o', objects st' !! j = Some o' /\ view o' = view o.
Proof.
  intros Hv Ho. specialize (Hv j). rewrite Ho in Hv. destruct (objects st' !! j) as [o'|]; [|done].
  cbn [fmap option_fmap option_map] in Hv. apply (inj Some) in Hv. by exists o'.
Qed.
Lemma same_views_none st st' j : same_views st st' -> objects st !! j = None -> objects st' !! j = None.
Proof. intros Hv Ho. specialize (Hv j). rewrite Ho in Hv. by destruct (objects st' !! j). Qed.

Lemma generating_views st st' ws : same_views st st' -> generating st' ws = generating st ws.
Proof.
  intros Hv. induction ws as [|w ws IH]; cbn; [done|]. rewrite IH. f_equal. unfold await_generates.
  destruct (pSync (aw_trigger w)) as [j|]; [|done]. cbn [obind_opt]. destruct (objects st !! j) as [o|] eqn:Ho.
  - destruct (same_views_object _ _ _ _ Hv Ho) as (o' & -> & E). unfold view in E. injection E as E1 E2 E3 E4.
    cbn [obind_opt]. by rewrite E1, E2, E3.
  - by rewrite (same_views_none _ _ _ Hv Ho).
Qed.
Lemma counter_notifies_views st st' c ws : same_views st st' -> counter_notifies st' c ws = counter_notifies st c ws.
Proof.
  intros Hv. induction ws as [|w ws IH]; cbn; [done|]. rewrite IH.
  destruct (pSync (aw_trigger w)) as [j|]; [|done]. cbn [obind_opt]. destruct (objects st !! j) as [o|] eqn:Ho.
  - destruct (same_views_object _ _ _ _ Hv Ho) as (o' & -> & E). unfold view in E. injection E as E1 E2 E3 E4.
    cbn [obind_opt]. by rewrite E1, E2, E3.
  - by rewrite (same_views_none _ _ _ Hv Ho).
Qed.
Lemma await_gone_views D u st st' : await_gone D u st st' -> same_views st st'.
Proof.
  intros Hg j. destruct (objects st !! j) as [o|] eqn:Ho.
  - destruct (lists_object' _ _ _ _ _ (ag_objects _ _ _ _ Hg) Ho) as (o' & -> & Hf). cbn. f_equal. unfold view.
    by rewrite (same_type _ _ Hf), (same_value _ _ Hf), (same_destroyed _ _ Hf), (same_triggered _ _ Hf).
  - pose proof (ag_objects _ _ _ _ Hg j) as E. rewrite Ho in E. by destruct (objects st' !! j).
Qed.

(** After the triggers [p] of counter [i] were looked at, [q] are left. *)
Record firing st1 (i newval : Z) (fr : trigger_ref -> bool) (p q : list trigger_ref) st : Prop := {
  fi_wf : sync_wf None st;
  fi_object : exists o pre, objects st !! i = Some o /\ pTriglist o = pre ++ q;
  fi_rest : forall r, r ∈ q -> get_trigger st r = get_trigger st1 r;
  fi_awaits : forall u, awaits st !! u =
    if bool_decide (u ∈ fired_awaits fr p) then None else awaits st1 !! u;
  fi_alarms : forall a, alarms st !! a =
    (if bool_decide (TAlarm a ∈ p) && fr (TAlarm a) then fun A => alarm_after A newval else id)
      <$> alarms st1 !! a;
  fi_views : same_views st1 st;
  fi_gone : clientGone st = clientGone st1;
  fi_ignore : forall c, c ∉ clientGone st1 ->
    default 0 (ignoreCount st !! c) = default 0 (ignoreCount st1 !! c) - attended st1 c (fired_awaits fr p);
  fi_out : exists ls, Forall2 (trigger_sends st1 newval) (filter (fun r => fr r = true) p) ls /\
    out st = out st1 ++ mjoin ls
}.

Lemma next_of_app pre r q : r ∉ pre -> next_of (pre ++ r :: q) r = Some (head q).
Proof.
  induction pre as [|x pre IH]; intros Hr; cbn; [by rewrite decide_True|].
  rewrite decide_False by set_solver. apply IH. set_solver.
Qed.

Lemma fired_awaits_snoc fr p r :
  fired_awaits fr (p ++ [r]) = fired_awaits fr p ++
    match r with TAwait u _ => if fr r then [u] else [] | TAlarm _ => [] end.
Proof. unfold fired_awaits. rewrite omap_app. cbn. destruct r; [done|]. by destruct (fr _). Qed.

Lemma firing_skip st1 i v fr p r q st :
  firing st1 i v fr p (r :: q) st -> fr r = false -> firing st1 i v fr (p ++ [r]) q st.
Proof.
  intros [F1 F2 F3 F4 F5 F6 F7 F8 F9] Hr.
  assert (Ea : fired_awaits fr (p ++ [r]) = fired_awaits fr p).
  { rewrite fired_awaits_snoc. destruct r; [by rewrite app_nil_r|]. by rewrite Hr, app_nil_r. }
  split; try done.
  - destruct F2 as (o & pre & Ho & Hl). exists o, (pre ++ [r]). by rewrite <- app_assoc.
  - intros r' Hr'. apply F3. by right.
  - intros u. by rewrite Ea.
  - intros a. rewrite F5. destruct (decide (r = TAlarm a)) as [->|Hne].
    + by rewrite Hr, !andb_false_r.
    + by rewrite (bool_decide_ext (TAlarm a ∈ p ++ [r]) (TAlarm a ∈ p)) by set_solver.
  - intros c Hc. rewrite Ea. by apply F8.
  - destruct F9 as (ls & H1 & H2). exists ls. split; [|done].
    rewrite filter_app, filter_cons_False by (by rewrite Hr). by rewrite filter_nil, app_nil_r.
Qed.

Lemma fired_out st1 v fr p r st ls l :
  fr r = true -> trigger_sends st1 v r l ->
  Forall2 (trigger_sends st1 v) (filter (fun r => fr r = true) p) ls -> out st = out st1 ++ mjoin ls ->
  exists ls', Forall2 (trigger_sends st1 v) (filter (fun r => fr r = true) (p ++ [r])) ls' /\
    out st ++ l = out st1 ++ mjoin ls'.
Proof.
  intros Hr Hs Hls Ho. exists (ls ++ [l]). split.
  - rewrite filter_app, filter_cons_True, filter_nil by done. apply Forall2_app; [done|]. by repeat constructor.
  - rewrite Ho, <- app_assoc. f_equal. rewrite join_app. cbn. by rewrite app_nil_r.
Qed.

Lemma firing_alarm st1 i v fr p a q st A :
  firing st1 i v fr p (TAlarm a :: q) st -> fr (TAlarm a) = true ->
  TAlarm a ∉ p -> TAlarm a ∉ q -> alarms st !! a = Some A ->
  firing st1 i v fr (p ++ [TAlarm a]) q
    (set_alarm st a (alarm_after A v) <| out ::= fun l => l ++ alarm_sends a A v |>).
Proof.
  intros [F1 F2 F3 F4 F5 F6 F7 F8 F9] Hr Hp Hq Ha.
  assert (HA : alarms st1 !! a = Some A).
  { rewrite F5 in Ha. rewrite bool_decide_false in Ha by done. cbn in Ha. by destruct (alarms st1 !! a). }
  assert (Ea : fired_awaits fr (p ++ [TAlarm a]) = fired_awaits fr p).
  { by rewrite fired_awaits_snoc, app_nil_r. }
  assert (Hok : alarm_ok A) by (by apply (wf_alarm _ _ F1 a A Ha)).
  split; try done.
  - eapply sync_wf_ext; [..|eapply (set_alarm_wf None st a A (alarm_after A v)); [done|done|by apply alarm_after_like]]; done.
  - destruct F2 as (o & pre & Ho & Hl). exists o, (pre ++ [TAlarm a]). by rewrite <- app_assoc.
  - intros r' Hr'. transitivity (get_trigger (set_alarm st a (alarm_after A v)) r'); [done|].
    rewrite set_alarm_get, decide_False by (by intros ->). apply F3. by right.
  - intros u. by rewrite Ea, F4.
  - intros a'. cbn [set_alarm alarms set_field eta_of eta_state]. destruct (decide (a = a')) as [<-|Hne].
    + rewrite lookup_insert_eq, HA. rewrite snoc_here. by rewrite Hr.
    + rewrite lookup_insert_ne by done. rewrite F5.
      by rewrite snoc_other by congruence.
  - intros c Hc. rewrite Ea. by apply F8.
  - destruct F9 as (ls & H1 & H2). apply (fired_out st1 v fr p (TAlarm a) st ls); try done. by exists A.
Qed.

Lemma attended_snoc st c us u un :
  awaits st !! u = Some un ->
  attended st c (us ++ [u]) = attended st c us + (if decide (hd_client un = c) then 1 else 0).
Proof.
  intros Hu. unfold attended. rewrite filter_app, length_app. destruct (decide (hd_client un = c)) as [E|E].
  - rewrite filter_cons_True by (rewrite Hu; cbn; congruence). rewrite filter_nil. cbn. lia.
  - rewrite filter_cons_False by (rewrite Hu; cbn; congruence). rewrite filter_nil. cbn. lia.
Qed.

Lemma firing_await st1 i v fr p u k q st un st' :
  firing st1 i v fr p (TAwait u k :: q) st -> fr (TAwait u k) = true ->
  awaits st !! u = Some un -> unblocked None u un st st' ->
  firing st1 i v fr (p ++ [TAwait u k]) q st'.
Proof.
  intros [F1 F2 F3 F4 F5 F6 F7 F8 F9] Hr Hu [Hg Hi Ho].
  assert (Hu1 : awaits st1 !! u = Some un /\ u ∉ fired_awaits fr p).
  { rewrite F4 in Hu. by case_bool_decide. }
  destruct Hu1 as [Hu1 Hnf].
  assert (Ea : fired_awaits fr (p ++ [TAwait u k]) = fired_awaits fr p ++ [u]).
  { by rewrite fired_awaits_snoc, Hr. }
  destruct F2 as (o & pre & Hob & Hl).
  assert (Hq : forall r', r' ∈ q -> of_await u r' = false).
  { intros [a|u' k'] Hr'; [done|]. cbn. apply bool_decide_eq_false. intros ->.
    assert (k = k') as <-.
    { apply (wf_once _ _ F1 i o u k k' Hob); [done| |]; rewrite Hl; set_solver. }
    pose proof (ls_nodup _ _ (wf_listed _ _ F1) i o Hob) as Hn. rewrite Hl in Hn.
    apply NoDup_app in Hn as (_ & _ & Hn). by apply NoDup_cons in Hn as [Hn _]. }
  split.
  - by eapply await_gone_wf.
  - destruct (lists_object' _ _ _ _ _ (ag_objects _ _ _ _ Hg) Hob) as (o' & Ho' & Hf).
    eexists o', _. split; [done|]. rewrite (same_list _ _ Hf). cbn. rewrite Hl, filter_app.
    rewrite filter_cons_False, (filter_keep _ q); [reflexivity| |].
    + intros x Hx. by rewrite (Hq x Hx), bool_decide_false.
    + rewrite bool_decide_false by done. cbn. by rewrite bool_decide_true.
  - intros r' Hr'. rewrite (await_gone_get _ _ _ _ _ Hg), (Hq r' Hr'). apply F3. by right.
  - intros u'. rewrite Ea, (ag_awaits _ _ _ _ Hg). destruct (decide (u = u')) as [<-|Hne].
    + by rewrite lookup_delete_eq, snoc_here.
    + by rewrite lookup_delete_ne, F4, snoc_other.
  - intros a. rewrite (ag_alarms _ _ _ _ Hg), F5.
    by rewrite snoc_other by congruence.
  - intros j. by rewrite (await_gone_views _ _ _ _ Hg), F6.
  - by rewrite (ag_gone _ _ _ _ Hg).
  - intros c Hc. rewrite Ea, (attended_snoc _ _ _ _ un Hu1). rewrite Hi. unfold AttendClient. rewrite F7.
    case_bool_decide as Hgone.
    + rewrite F8 by done. case_decide as E; [subst c; done|lia].
    + cbn. destruct (decide (hd_client un = c)) as [->|Hne].
      * rewrite lookup_insert_eq. cbn. rewrite F8 by done. lia.
      * rewrite lookup_insert_ne by done. rewrite F8 by done. lia.
  - destruct F9 as (ls & H1 & H2). destruct Ho as (ws & l & Hgen & Hl' & Hout).
    rewrite (generating_views _ _ _ F6) in Hgen. rewrite (counter_notifies_views _ _ _ _ F6) in Hl'.
    destruct Hout as [->|[-> Hno]].
    + apply (fired_out st1 v fr p (TAwait u k) st ls l); try done. exists un, ws, l. split_and!; try done. by left.
    + rewrite <- (app_nil_r (out st)).
      apply (fired_out st1 v fr p (TAwait u k) st ls []); try done. exists un, ws, l. split_and!; try done. right.
      split; [done|]. by rewrite <- F7.
Qed.

(** One turn of the loop that looks at [r], whose check gives [fr r]. *)
Lemma fire_step_gen st1 i v fr old p r q st o t :
  firing st1 i v fr p (r :: q) st -> NoDup (p ++ r :: q) ->
  objects st !! i = Some o -> value o = v -> get_trigger st r = Some t -> check_trigger st t old = Ret (fr r) ->
  (forall a, r = TAlarm a -> fr r = true -> so_type o = SYNC_COUNTER /\
     forall f, CheckTrigger t = Some f -> is_comparison f = true -> compare f v (test_value t) v = true) ->
  exists st', fire_step al (FreeResource al) i old (st, Some r) = inl (st', head q) /\
    firing st1 i v fr (p ++ [r]) q st'.
Proof.
  intros Hf Hnd Ho Hv Ht Hck Hal. pose proof Hf as [F1 (o' & pre & Ho' & Hl) F3 _ _ F6 _ _ _].
  rewrite Ho in Ho'. injection Ho' as <-.
  destruct (ls_live _ _ (wf_listed _ _ F1) i o r Ho ltac:(done)) as (t' & Ht' & Hp & f & Hfn & _); [rewrite Hl; set_solver|].
  rewrite Ht in Ht'. injection Ht' as <-.
  unfold fire_step. rewrite Ho. cbn [obind_opt].
  assert (Hnext : next_of (pTriglist o) r = Some (head q)).
  { rewrite Hl. apply next_of_app. pose proof (ls_nodup _ _ (wf_listed _ _ F1) i o Ho) as Hn. rewrite Hl in Hn.
    apply NoDup_app in Hn as (_ & Hn & _). intros Hin. apply (Hn r Hin). left. }
  rewrite Hnext. cbn [obind_opt]. rewrite Ht. cbn [obind_opt]. rewrite Hck. cbn [obind].
  assert (Hpq : r ∉ p /\ r ∉ q).
  { apply NoDup_app in Hnd as (_ & Hd & Hn). apply NoDup_cons in Hn as [Hn _]. split; [|done]. intros Hin.
    apply (Hd r Hin). left. }
  destruct (fr r) eqn:Hr; [|exists st; split; [reflexivity|]; by apply firing_skip].
  destruct r as [a|u k]; cbn [TriggerFired].
  - destruct (Hal a eq_refl eq_refl) as [Hty Hcmp]. cbn in Ht. destruct (alarms st !! a) as [A|] eqn:Ha; [|done].
    cbn in Ht. injection Ht as <-. destruct (wf_alarm _ _ F1 a A Ha) as (_ & Hok & _ & _).
    destruct (alarm_fired st a A i o f Ha Hok Hp Ho Hty) as (st' & -> & ->); [by apply (wf_value _ _ F1 i)|done| |].
    + rewrite Hv. by apply Hcmp.
    + cbn [obind]. eexists. split; [reflexivity|]. rewrite Hv. destruct Hpq. by apply firing_alarm.
  - cbn in Ht. destruct (awaits st !! u) as [un|] eqn:Hu; [|done].
    destruct (SyncAwaitTriggerFired_spec None st u un 1 F1 Hu) as (st' & He & Hub).
    unfold FreeResource. rewrite He. cbn [obind]. exists st'. split; [reflexivity|]. by apply (firing_await st1 i v fr p u k q st un).
Qed.

Lemma fire_loop_gen st1 i v fr old o :
  sync_wf None st1 -> objects st1 !! i = Some o -> Z.of_nat (length (pTriglist o)) < Zpos TURNS ->
  (forall p r q st, firing st1 i v fr p (r :: q) st -> NoDup (p ++ r :: q) ->
     exists st', fire_step al (FreeResource al) i old (st, Some r) = inl (st', head q) /\
       firing st1 i v fr (p ++ [r]) q st') ->
  exists st', run_loop (fire_step al (FreeResource al) i old) TURNS (st1, head (pTriglist o)) = Ret st' /\
    firing st1 i v fr (pTriglist o) [] st'.
Proof.
  intros Hwf Ho Hlen Hstep. pose proof (ls_nodup _ _ (wf_listed _ _ Hwf) i o Ho) as Hnd.
  apply (run_loop_ranked (fire_step al (FreeResource al) i old)
    (fun n s => exists p q, pTriglist o = p ++ q /\ n = length q /\ s.2 = head q /\ firing st1 i v fr p q s.1)
    (fun st' => firing st1 i v fr (pTriglist o) [] st') TURNS (length (pTriglist o)) (st1, head (pTriglist o))).
  - intros n [st ptl] (p & q & Hl & -> & Hptl & Hf). cbn [fst snd] in *. subst ptl. destruct q as [|r q].
    + cbn. rewrite app_nil_r in Hl. by rewrite Hl.
    + change (head (r :: q)) with (Some r).
      destruct (Hstep p r q st Hf) as (st' & -> & Hf'); [by rewrite <- Hl|].
      exists (length q). split; [cbn; lia|]. exists (p ++ [r]), q. by rewrite <- app_assoc.
  - exists [], (pTriglist o). split_and!; try done. split; try done.
    + by exists o, [].
    + intros a. cbn. by destruct (alarms st1 !! a).
    + intros c _. unfold attended. cbn. lia.
    + exists []. split; [constructor|]. by rewrite app_nil_r.
  - done.
Qed.

Lemma fire_loop st1 i v old o :
  sync_wf None st1 -> objects st1 !! i = Some o -> value o = v -> so_type o = SYNC_COUNTER ->
  Z.of_nat (length (pTriglist o)) < Zpos TURNS ->
  exists st', run_loop (fire_step al (FreeResource al) i old) TURNS (st1, head (pTriglist o)) = Ret st' /\
    firing st1 i v (ref_fires st1 v old) (pTriglist o) [] st'.
Proof.
  intros Hwf Ho1 Hv1 Hty1 Hlen. apply (fire_loop_gen st1 i v _ old o Hwf Ho1 Hlen).
  intros p r q st Hf Hnd. pose proof Hf as [F1 (o2 & pre & Ho & Hl) F3 _ _ F6 _ _ _].
  destruct (same_views_object _ _ _ _ F6 Ho1) as (o2' & Ho' & E). rewrite Ho in Ho'. injection Ho' as <-.
  unfold view in E. injection E as Hty Hv _ _. rewrite Hty1 in Hty. rewrite Hv1 in Hv.
  destruct (ls_live _ _ (wf_listed _ _ F1) i o2 r Ho ltac:(done)) as (t & Ht & Hp & f & Hfn & Hfit); [rewrite Hl; set_solver|].
  assert (Hnf : f <> SyncCheckTriggerFence) by (intros ->; rewrite Hty in Hfit; discriminate (proj1 Hfit eq_refl)).
  assert (Hrf : ref_fires st1 v old r = compare f v (test_value t) old).
  { unfold ref_fires. rewrite <- (F3 r) by left. rewrite Ht. unfold fires. by rewrite Hfn. }
  apply (fire_step_gen st1 i v _ old p r q st o2 t); try done.
  - rewrite (check_counter st t i o2 f old Hfn Hnf Hp Ho Hty). by rewrite Hrf, Hv.
  - intros a _ Hr. split; [done|]. intros f' Hf' Hcmp. rewrite Hfn in Hf'. injection Hf' as <-. rewrite Hrf in Hr.
    destruct f; cbn in Hcmp, Hr |- *; done.
Qed.

(** Triggering a fence unblocks every await on it. *)
Lemma fence_loop st1 i o :
  sync_wf None st1 -> objects st1 !! i = Some o -> so_type o = SYNC_FENCE -> triggered o = true ->
  Z.of_nat (length (pTriglist o)) < Zpos TURNS ->
  exists st', run_loop (fire_step al (FreeResource al) i 0) TURNS (st1, head (pTriglist o)) = Ret st' /\
    firing st1 i (value o) (fun _ => true) (pTriglist o) [] st'.
Proof.
  intros Hwf Ho1 Hty1 Htr1 Hlen. apply (fire_loop_gen st1 i (value o) _ 0 o Hwf Ho1 Hlen).
  intros p r q st Hf Hnd. pose proof Hf as [F1 (o2 & pre & Ho & Hl) F3 _ _ F6 _ _ _].
  destruct (same_views_object _ _ _ _ F6 Ho1) as (o2' & Ho' & E). rewrite Ho in Ho'. injection Ho' as <-.
  unfold view in E. injection E as Hty Hv _ Htr. rewrite Hty1 in Hty. rewrite Htr1 in Htr.
  destruct (ls_live _ _ (wf_listed _ _ F1) i o2 r Ho ltac:(done)) as (t & Ht & Hp & f & Hfn & Hfit); [rewrite Hl; set_solver|].
  assert (f = SyncCheckTriggerFence) as -> by (by apply Hfit).
  apply (fire_step_gen st1 i _ _ 0 p r q st o2 t); try done.
  - unfold check_trigger. rewrite Hfn. cbn [obind_opt]. rewrite Hp, Ho. cbn [obind_opt]. by rewrite Htr.
  - intros a -> _. cbn in Ht. destruct (alarms st !! a) as [A|] eqn:Ha; [|done]. cbn in Ht. injection Ht as <-.
    destruct (wf_alarm _ _ F1 a A Ha) as (_ & _ & _ & Hc). specialize (Hc i o2 Hp Ho). congruence.
Qed.

Lemma quiet_wf D st st' : quiet st st' -> sync_wf D st -> sync_wf D st'.
Proof.
  intros Hq [L H1 H2 H3 H4 H5 H6 H7 H8].
  split.
  - eapply listed_relisted; [by apply quiet_relisted|done].
  - intros i o' Hi. destruct (quiet_object _ _ _ _ Hq Hi) as (o & Hi' & Hs). rewrite (same_value _ _ Hs). by apply (H1 i).
  - intros r t i. rewrite (quiet_get _ _ _ Hq). intros Hr Hp. destruct (H2 r t i Hr Hp) as (o & Hi & Hin).
    destruct (quiet_object' _ _ _ _ Hq Hi) as (o' & Hi' & Hs). exists o'. by rewrite (same_list _ _ Hs).
  - intros i o' u k Hi. destruct (quiet_object _ _ _ _ Hq Hi) as (o & Hi' & Hs). rewrite (same_list _ _ Hs), (q_awaits _ _ Hq).
    by apply H3.
  - intros i o' u k k' Hi. destruct (quiet_object _ _ _ _ Hq Hi) as (o & Hi' & Hs). rewrite (same_list _ _ Hs). by apply H4.
  - intros u un. rewrite (q_awaits _ _ Hq), (q_resources _ _ Hq). apply H5.
  - intros a A. rewrite (q_alarms _ _ Hq), (q_resources _ _ Hq). intros Ha. destruct (H6 a A Ha) as (R1 & R2 & R3 & R4).
    split_and!; try done. intros i o' Hp Hi. destruct (quiet_object _ _ _ _ Hq Hi) as (o & Hi' & Hs).
    rewrite (same_type _ _ Hs). by apply (R4 i).
  - intros i o' Hi HD. destruct (quiet_object _ _ _ _ Hq Hi) as (o & Hi' & Hs). rewrite (q_resources _ _ Hq).
    unfold type_of_object. rewrite (same_type _ _ Hs). by apply H7.
  - intros id rt p. rewrite (q_resources _ _ Hq). intros Hr. specialize (H8 id rt p Hr).
    destruct rt; rewrite ?(q_alarms _ _ Hq), ?(q_awaits _ _ Hq); try done.
    + destruct H8 as (-> & o & Hi & Ht & HD). split; [done|]. destruct (quiet_object' _ _ _ _ Hq Hi) as (o' & Hi' & Hs).
      exists o'. by rewrite (same_type _ _ Hs).
    + destruct H8 as (-> & o & Hi & Ht & HD). split; [done|]. destruct (quiet_object' _ _ _ _ Hq Hi) as (o' & Hi' & Hs).
      exists o'. by rewrite (same_type _ _ Hs).
Qed.

(** Changing what the links do not depend on: the value and the state of a fence. *)
Lemma set_object_wf D st i o o' :
  sync_wf D st -> objects st !! i = Some o -> is_int64 (value o') ->
  so_client o' = so_client o -> pTriglist o' = pTriglist o -> so_type o' = so_type o -> initialized o' = initialized o ->
  beingDestroyed o' = beingDestroyed o -> pSysCounterInfo o' = pSysCounterInfo o ->
  sync_wf D (set_object st i o').
Proof.
  intros [[L1 L2 L3 L4 L5] H1 H2 H3 H4 H5 H6 H7 H8] Ho Hv E1 E2 E3 E4 E5 E6.
  assert (Hb : forall j x', objects (set_object st i o') !! j = Some x' -> exists x, objects st !! j = Some x /\
    so_client x' = so_client x /\ pTriglist x' = pTriglist x /\ so_type x' = so_type x /\ initialized x' = initialized x /\
    beingDestroyed x' = beingDestroyed x /\ pSysCounterInfo x' = pSysCounterInfo x /\ (is_int64 (value x) -> is_int64 (value x'))).
  { intros j x' Hj. cbn in Hj. destruct (decide (i = j)) as [<-|Hne].
    - rewrite lookup_insert_eq in Hj. injection Hj as <-. exists o. by split_and!.
    - rewrite lookup_insert_ne in Hj by done. exists x'. by split_and!. }
  assert (Hf : forall j x, objects st !! j = Some x -> exists x', objects (set_object st i o') !! j = Some x' /\
    pTriglist x' = pTriglist x /\ so_type x' = so_type x).
  { intros j x Hj. cbn. destruct (decide (i = j)) as [<-|Hne].
    - rewrite lookup_insert_eq. rewrite Ho in Hj. injection Hj as <-. by exists o'.
    - rewrite lookup_insert_ne by done. by exists x. }
  assert (Hg : forall r, get_trigger (set_object st i o') r = get_trigger st r) by done.
  split; [split|..]; try done.
  - intros j x' Hj. destruct (Hb j x' Hj) as (x & Hx & X1 & X2 & X3 & X4 & X5 & X6 & X7). rewrite X2. by apply (L1 j).
  - intros j x' Hj. destruct (Hb j x' Hj) as (x & Hx & X1 & X2 & X3 & X4 & X5 & X6 & X7). unfold IsSystemCounter.
    rewrite X1, X3, X6. by apply (L2 j).
  - intros j x' Hj. destruct (Hb j x' Hj) as (x & Hx & X1 & X2 & X3 & X4 & X5 & X6 & X7). rewrite X4. by apply (L3 j).
  - intros j x' Hj. destruct (Hb j x' Hj) as (x & Hx & X1 & X2 & X3 & X4 & X5 & X6 & X7). rewrite X5. by apply (L4 j).
  - intros j x' r Hj. destruct (Hb j x' Hj) as (x & Hx & X1 & X2 & X3 & X4 & X5 & X6 & X7). rewrite X2, Hg.
    unfold check_fits. rewrite X3. by apply L5.
  - intros j x' Hj. destruct (Hb j x' Hj) as (x & Hx & X1 & X2 & X3 & X4 & X5 & X6 & X7). by apply X7, (H1 j).
  - intros r t j. rewrite Hg. intros Hr Hp. destruct (H2 r t j Hr Hp) as (x & Hj & Hin).
    destruct (Hf j x Hj) as (x' & Hx' & X1 & X2). exists x'. by rewrite X1.
  - intros j x' u k Hj. destruct (Hb j x' Hj) as (x & Hx & X1 & X2 & X3 & X4 & X5 & X6 & X7). rewrite X2. by apply H3.
  - intros j x' u k k' Hj. destruct (Hb j x' Hj) as (x & Hx & X1 & X2 & X3 & X4 & X5 & X6 & X7). rewrite X2. by apply H4.
  - intros a A Ha. destruct (H6 a A Ha) as (R1 & R2 & R3 & R4). split_and!; try done. intros j x' Hp Hj.
    destruct (Hb j x' Hj) as (x & Hx & X1 & X2 & X3 & X4 & X5 & X6 & X7). rewrite X3. by apply (R4 j).
  - intros j x' Hj HD. destruct (Hb j x' Hj) as (x & Hx & X1 & X2 & X3 & X4 & X5 & X6 & X7).
    unfold type_of_object. rewrite X3. by apply (H7 j).
  - intros id rt p Hr. specialize (H8 id rt p Hr). destruct rt; try done.
    + destruct H8 as (-> & x & Hi & Ht & HD). split; [done|]. destruct (Hf _ _ Hi) as (x' & Hi' & _ & X). exists x'. by rewrite X.
    + destruct H8 as (-> & x & Hi & Ht & HD). split; [done|]. destruct (Hf _ _ Hi) as (x' & Hi' & _ & X). exists x'. by rewrite X.
Qed.

(** What changing a counter does. *)
Definition change_post st (i newval : Z) o st' : Prop :=
  let st1 := set_object st i (o <| value := newval |>) in
  let fire := ref_fires st newval (value o) in
  let us := fired_awaits fire (pTriglist o) in
  sync_wf None st' /\
  (forall j, value <$> objects st' !! j = if decide (j = i) then Some newval else value <$> objects st !! j) /\
  (forall u, awaits st' !! u = if bool_decide (u ∈ us) then None else awaits st !! u) /\
  (forall a, alarms st' !! a =
     (if bool_decide (TAlarm a ∈ pTriglist o) && fire (TAlarm a) then fun A => alarm_after A newval else id)
       <$> alarms st !! a) /\
  (forall c, c ∉ clientGone st ->
     default 0 (ignoreCount st' !! c) = default 0 (ignoreCount st !! c) - attended st c us) /\
  (exists ls, Forall2 (trigger_sends st1 newval) (filter (fun r => fire r = true) (pTriglist o)) ls /\
     out st' = out st ++ mjoin ls) /\
  clientGone st' = clientGone st.

Lemma SyncChangeCounter_spec st i o newval :
  sync_wf None st -> objects st !! i = Some o -> so_type o = SYNC_COUNTER -> is_int64 newval ->
  Z.of_nat (length (pTriglist o)) < Zpos TURNS ->
  exists st', SyncChangeCounter al (FreeResource al) st i newval = Ret st' /\ change_post st i newval o st'.
Proof.
  intros Hwf Ho Hty Hv Hlen. unfold SyncChangeCounter, SyncUpdateCounter. rewrite Ho. cbn [obind_opt obind].
  set (o1 := o <| value := newval |>). set (st1 := set_object st i o1).
  assert (Ho1 : objects st1 !! i = Some o1) by (cbn; by rewrite lookup_insert_eq).
  assert (Hwf1 : sync_wf None st1) by (by apply (set_object_wf None st i o o1)).
  rewrite Ho1. cbn [obind_opt].
  destruct (fire_loop st1 i newval (value o) o1 Hwf1 Ho1 eq_refl Hty Hlen) as (st2 & -> & Hf). cbn [obind].
  destruct Hf as [F1 (o2 & pre & Ho2 & Hl2) F3 F4 F5 F6 F7 F8 F9]. rewrite Ho2. cbn [obind_opt].
  assert (Hfin : exists st3, (if IsSystemCounter o2 then SyncComputeBracketValues st2 i else Ret st2) = Ret st3 /\ quiet st2 st3).
  { destruct (IsSystemCounter o2) eqn:Hs; [|by eexists].
    apply (SyncComputeBracketValues_quiet st2 i o2 Ho2).
    - apply (ls_sys _ _ (wf_listed _ _ F1) i o2 Ho2); [|done].
      destruct (same_views_object _ _ _ _ F6 Ho1) as (o2' & Ho2' & E). rewrite Ho2 in Ho2'. injection Ho2' as <-.
      unfold view in E. injection E as -> _ _. done.
    - apply (listed_alive None); [apply F1|done]. }
  destruct Hfin as (st3 & -> & Hq). exists st3. split; [reflexivity|]. unfold change_post. cbv zeta.
  fold o1. fold st1. split_and!.
  - by eapply quiet_wf.
  - intros j. transitivity (value <$> objects st1 !! j).
    + destruct (objects st1 !! j) as [x|] eqn:Hx.
      * destruct (same_views_object _ _ _ _ F6 Hx) as (x2 & Hx2 & E). destruct (quiet_object' _ _ _ _ Hq Hx2) as (x3 & -> & Hs).
        cbn. rewrite (same_value _ _ Hs). unfold view in E. by injection E as _ -> _ _.
      * pose proof (same_views_none _ _ _ F6 Hx) as Hx2. pose proof (q_objects _ _ Hq j) as E. rewrite Hx2 in E.
        by destruct (objects st3 !! j).
    + cbn. case_decide as E; [subst j; by rewrite lookup_insert_eq|by rewrite lookup_insert_ne].
  - intros u. rewrite (q_awaits _ _ Hq). apply F4.
  - intros a. rewrite (q_alarms _ _ Hq). apply F5.
  - intros c Hc. rewrite (q_ignore _ _ Hq). by apply F8.
  - destruct F9 as (ls & H1 & H2). exists ls. rewrite (q_out _ _ Hq). done.
  - by rewrite (q_gone _ _ Hq), F7.
Qed.

(** ** Destroying an object *)

(** An alarm whose counter is gone. *)
Definition alarm_orphan (A : SyncAlarm) : SyncAlarm :=
  A <| al_state := XSyncAlarmInactive |> <| al_trigger ::= fun t => t <| pSync := None |> |>.

Lemma emit_app st (b : bool) e l :
  (if b then emit st e else st) <| out ::= fun x => x ++ l |> =
  st <| out ::= fun x => x ++ ((if b then [e] else []) ++ l) |>.
Proof. destruct b, st; cbn; [|done]. by rewrite <- app_assoc. Qed.

Lemma notify_total st a A :
  alarms st !! a = Some A -> (forall i, pSync (al_trigger A) = Some i -> is_Some (objects st !! i)) ->
  exists l, SyncSendAlarmNotifyEvents st a = Ret (st <| out ::= fun x => x ++ l |>).
Proof.
  intros Ha Hi. unfold SyncSendAlarmNotifyEvents, SyncCheckWarnIsCounter, counter_value. rewrite Ha. cbn [obind_opt].
  assert (Hnil : st = st <| out ::= fun x => x ++ [] |>) by (destruct st; cbn; by rewrite app_nil_r).
  destruct (pSync (al_trigger A)) as [i|].
  - destruct (Hi i eq_refl) as [o ->]. cbn [obind_opt obind]. case_bool_decide; cbn [negb obind].
    + rewrite emit_app. by eexists.
    + exists []. by rewrite <- Hnil.
  - cbn [obind negb]. rewrite emit_app. by eexists.
Qed.

Lemma alarm_destroyed_spec st a A :
  alarms st !! a = Some A -> (forall i, pSync (al_trigger A) = Some i -> is_Some (objects st !! i)) ->
  exists l, SyncAlarmCounterDestroyed st a = Ret (set_alarm st a (alarm_orphan A) <| out ::= fun x => x ++ l |>).
Proof.
  intros Ha Hi. unfold SyncAlarmCounterDestroyed. rewrite Ha. cbn [obind_opt].
  set (A1 := A <| al_state := XSyncAlarmInactive |>). set (st1 := on_alarm st a _).
  assert (Ha1 : alarms st1 = <[a := A1]> (alarms st))
    by exact (alter_Some (alarms st) (fun x => x <| al_state := XSyncAlarmInactive |>) a A Ha).
  destruct (notify_total st1 a A1) as [l ->]; [by rewrite Ha1, lookup_insert_eq|done|]. cbn [obind].
  exists l. f_equal. unfold on_alarm, set_alarm. subst st1. destruct st. cbn in *. f_equal.
  rewrite Ha1, (alter_Some _ _ _ A1) by (by rewrite lookup_insert_eq). by rewrite insert_insert_eq.
Qed.

(** An alarm may lose a counter that is being destroyed. *)
Lemma orphan_wf i st a A :
  sync_wf (Some i) st -> alarms st !! a = Some A -> pSync (al_trigger A) = Some i ->
  sync_wf (Some i) (set_alarm st a (alarm_orphan A)).
Proof.
  intros [[L1 L2 L3 L4 L5] H1 H2 H3 H4 H5 H6 H7 H8] Ha Hp.
  split; [split; try done|..]; try done.
  - intros j o r Hj HD Hr. destruct (L5 j o r Hj HD Hr) as (t & Ht & Hpt & Hc). rewrite set_alarm_get.
    case_decide as E; [|by exists t]. subst r. cbn in Ht. rewrite Ha in Ht. injection Ht as <-. congruence.
  - intros r t j. rewrite set_alarm_get. case_decide as E; [|apply H2]. by intros [= <-].
  - intros a' B Hb. cbn in Hb. destruct (decide (a' = a)) as [->|Hne].
    + rewrite lookup_insert_eq in Hb. injection Hb as <-. by destruct (H6 a A Ha) as (R1 & R2 & R3 & R4).
    + rewrite lookup_insert_ne in Hb by done. by apply H6.
  - intros id rt p Hr. specialize (H8 id rt p Hr). destruct rt; try done.
    + destruct H8 as [-> Hs]. split; [done|]. cbn. destruct (decide (id = a)) as [->|Hne].
      * rewrite lookup_insert_eq. by eexists.
      * by rewrite lookup_insert_ne.
    + destruct H8 as (B & c & Hb & Hin). cbn. destruct (decide (p = a)) as [->|Hne].
      * rewrite lookup_insert_eq. rewrite Ha in Hb. injection Hb as <-. by exists (alarm_orphan A), c.
      * rewrite lookup_insert_ne by done. eauto.
Qed.

(** The triggers [p] of the dying object [i] were told, [q] are left. *)
Record dying st1 (i : Z) (p q : list trigger_ref) st : Prop := {
  dy_wf : sync_wf (Some i) st;
  dy_object : exists o pre, objects st !! i = Some o /\ pTriglist o = pre ++ q;
  dy_live : forall r, r ∈ q -> exists t, get_trigger st r = Some t /\ pSync t = Some i;
  dy_only : forall r t, get_trigger st r = Some t -> pSync t = Some i -> r ∈ q;
  dy_once : forall u k k', TAwait u k ∈ q -> TAwait u k' ∈ q -> k = k';
  dy_awaits : forall u, awaits st !! u =
    if bool_decide (u ∈ fired_awaits (fun _ => true) p) then None else awaits st1 !! u;
  dy_alarms : forall a, alarms st !! a = (if bool_decide (TAlarm a ∈ p) then alarm_orphan else id) <$> alarms st1 !! a;
  dy_values : forall j, value <$> objects st !! j = value <$> objects st1 !! j;
  dy_gone : clientGone st = clientGone st1;
  dy_ignore : forall c, c ∉ clientGone st1 -> default 0 (ignoreCount st !! c) =
    default 0 (ignoreCount st1 !! c) - attended st1 c (fired_awaits (fun _ => true) p)
}.

Lemma destroyed_step_spec st1 i p r q st :
  dying st1 i p (r :: q) st -> NoDup (p ++ r :: q) ->
  exists st', destroyed_step al (FreeResource_rec al 1) i (st, Some r) = inl (st', head q) /\
    dying st1 i (p ++ [r]) q st'.
Proof.
  intros [D1 (o & pre & Ho & Hl) D3 D4 D5 D6 D7 D8 D9 D10] Hnd.
  destruct (D3 r ltac:(left)) as (t & Ht & Hp). unfold destroyed_step. rewrite Ht. cbn [obind_opt].
  assert (Hnext : next_of (pTriglist o) r = Some (head q)).
  { rewrite Hl. apply next_of_app. pose proof (ls_nodup _ _ (wf_listed _ _ D1) i o Ho) as Hn. rewrite Hl in Hn.
    apply NoDup_app in Hn as (_ & Hn & _). intros Hin. apply (Hn r Hin). left. }
  assert (Hpq : r ∉ p /\ r ∉ q).
  { apply NoDup_app in Hnd as (_ & Hd & Hn). apply NoDup_cons in Hn as [Hn _]. split; [|done]. intros Hin.
    apply (Hd r Hin). left. }
  destruct Hpq as [Hrp Hrq]. destruct r as [a|u k]; cbn [CounterDestroyed].
  - cbn in Ht. destruct (alarms st !! a) as [A|] eqn:Ha; [|done]. cbn in Ht. injection Ht as <-.
    destruct (alarm_destroyed_spec st a A Ha) as [l ->]; [intros j Hj; rewrite Hp in Hj; injection Hj as <-; by eexists|].
    cbn [obind]. set (st' := set_alarm st a (alarm_orphan A) <| out ::= fun x => x ++ l |>).
    assert (Ho' : objects st' !! i = Some o) by done. rewrite Ho'. cbn [obind_opt]. rewrite Hnext. cbn [obind_opt].
    exists st'. split; [reflexivity|].
    assert (Hg : forall r, get_trigger st' r = if decide (r = TAlarm a) then Some (al_trigger (alarm_orphan A)) else get_trigger st r)
      by (intros r; apply (set_alarm_get st a (alarm_orphan A))).
    assert (Ea : fired_awaits (fun _ => true) (p ++ [TAlarm a]) = fired_awaits (fun _ => true) p)
      by (by rewrite fired_awaits_snoc, app_nil_r).
    split; try done.
    + by eapply sync_wf_ext; [..|apply (orphan_wf i st a A)].
    + exists o, (pre ++ [TAlarm a]). by rewrite <- app_assoc.
    + intros r Hr. rewrite Hg, decide_False by (by intros ->). apply D3. by right.
    + intros r t' Hr Hp'. rewrite Hg in Hr. case_decide as E; [by injection Hr as <-|]. specialize (D4 r t' Hr Hp').
      apply elem_of_cons in D4 as [->|?]; done.
    + intros v k k' Hk Hk'. apply (D5 v); by right.
    + intros v. by rewrite Ea, <- D6.
    + intros a'. cbn [st' set_alarm alarms set_field eta_of eta_state]. destruct (decide (a = a')) as [<-|Hne].
      * rewrite lookup_insert_eq, snoc_here. rewrite D7 in Ha. rewrite bool_decide_false in Ha by done.
        cbn in Ha. destruct (alarms st1 !! a) as [B|]; [|done]. cbn in Ha. by injection Ha as ->.
      * rewrite lookup_insert_ne by done. rewrite D7.
        by rewrite snoc_other by congruence.
    + intros c Hc. rewrite Ea. by apply D10.
  - cbn in Ht. destruct (awaits st !! u) as [un|] eqn:Hu; [|done].
    destruct (SyncAwaitTriggerFired_spec (Some i) st u un 0 D1 Hu) as (st' & -> & [Hg Hi _]). cbn [obind].
    destruct (lists_object' _ _ _ _ _ (ag_objects _ _ _ _ Hg) Ho) as (o' & Ho' & Hf). rewrite Ho'. cbn [obind_opt].
    assert (Hl' : pTriglist o' = pTriglist o).
    { rewrite (same_list _ _ Hf). cbn. apply filter_keep. intros x _. by rewrite bool_decide_true. }
    rewrite Hl', Hnext. cbn [obind_opt]. exists st'. split; [reflexivity|].
    assert (Hu1 : awaits st1 !! u = Some un /\ u ∉ fired_awaits (fun _ => true) p).
    { rewrite D6 in Hu. destruct (bool_decide (u ∈ fired_awaits (fun _ => true) p)) eqn:E; [done|].
      by apply bool_decide_eq_false in E. }
    destruct Hu1 as [Hu1 Hnf].
    assert (Ea : fired_awaits (fun _ => true) (p ++ [TAwait u k]) = fired_awaits (fun _ => true) p ++ [u])
      by apply fired_awaits_snoc.
    assert (Hq : forall r', r' ∈ q -> of_await u r' = false).
    { intros [a|u' k'] Hr'; [done|]. cbn. apply bool_decide_eq_false. intros ->.
      assert (k = k') as <- by (apply (D5 u); [left|by right]). done. }
    split.
    + by eapply await_gone_wf.
    + exists o', (pre ++ [TAwait u k]). by rewrite Hl', Hl, <- app_assoc.
    + intros r' Hr'. rewrite (await_gone_get _ _ _ _ _ Hg), (Hq r' Hr'). apply D3. by right.
    + intros r' t' Hr' Hp'. rewrite (await_gone_get _ _ _ _ _ Hg) in Hr'. destruct (of_await u r') eqn:E; [done|].
      specialize (D4 r' t' Hr' Hp'). apply elem_of_cons in D4 as [->|?]; [|done]. cbn in E.
      by rewrite bool_decide_true in E.
    + intros v m m' Hm Hm'. apply (D5 v); by right.
    + intros u'. rewrite Ea, (ag_awaits _ _ _ _ Hg). destruct (decide (u = u')) as [<-|Hne].
      * by rewrite lookup_delete_eq, snoc_here.
      * by rewrite lookup_delete_ne, D6, snoc_other.
    + intros a. rewrite (ag_alarms _ _ _ _ Hg), D7.
      by rewrite snoc_other by congruence.
    + intros j. rewrite <- D8. pose proof (await_gone_views _ _ _ _ Hg j) as E.
      destruct (objects st !! j), (objects st' !! j); try done. cbn in E |- *. apply (inj Some) in E. unfold view in E.
      by injection E as _ -> _ _.
    + by rewrite (ag_gone _ _ _ _ Hg).
    + intros c Hc. rewrite Ea, (attended_snoc _ _ _ _ un Hu1). rewrite Hi. unfold AttendClient. rewrite D9.
      clear Hf. case_bool_decide as Hgone.
      * rewrite D10 by done. case_decide as E; [subst c; done|lia].
      * cbn. destruct (decide (hd_client un = c)) as [->|Hne].
        -- rewrite lookup_insert_eq. cbn. rewrite D10 by done. lia.
        -- rewrite lookup_insert_ne by done. rewrite D10 by done. lia.
Qed.

Lemma destroyed_loop st1 i o :
  sync_wf (Some i) st1 -> objects st1 !! i = Some o -> NoDup (pTriglist o) ->
  (forall r, r ∈ pTriglist o -> exists t, get_trigger st1 r = Some t /\ pSync t = Some i) ->
  (forall u k k', TAwait u k ∈ pTriglist o -> TAwait u k' ∈ pTriglist o -> k = k') ->
  Z.of_nat (length (pTriglist o)) < Zpos TURNS ->
  exists st', run_loop (destroyed_step al (FreeResource_rec al 1) i) TURNS (st1, head (pTriglist o)) = Ret st' /\
    dying st1 i (pTriglist o) [] st'.
Proof.
  intros Hwf Ho Hnd Hlive Honce Hlen.
  apply (run_loop_ranked (destroyed_step al (FreeResource_rec al 1) i)
    (fun n s => exists p q, pTriglist o = p ++ q /\ n = length q /\ s.2 = head q /\ dying st1 i p q s.1)
    (fun st' => dying st1 i (pTriglist o) [] st') TURNS (length (pTriglist o)) (st1, head (pTriglist o))).
  - intros n [st ptl] (p & q & Hl & -> & Hptl & Hf). cbn [fst snd] in *. subst ptl. destruct q as [|r q].
    + cbn. rewrite app_nil_r in Hl. by rewrite Hl.
    + change (head (r :: q)) with (Some r).
      destruct (destroyed_step_spec st1 i p r q st Hf) as (st' & -> & Hf'); [by rewrite <- Hl|].
      exists (length q). split; [cbn; lia|]. exists (p ++ [r]), q. by rewrite <- app_assoc.
  - exists [], (pTriglist o). split_and!; try done. split; try done.
    + by exists o, [].
    + intros r t Hr Hp. destruct (wf_back _ _ Hwf r t i Hr Hp) as (o' & Ho' & Hin). rewrite Ho in Ho'. by injection Ho' as <-.
    + intros a. cbn. by destruct (alarms st1 !! a).
    + intros c _. unfold attended. cbn. lia.
  - done.
Qed.

(** An object leaves the database and starts to be destroyed. *)
Lemma start_destroying_wf st i o :
  sync_wf None st -> objects st !! i = Some o ->
  sync_wf (Some i) (set_object (st <| resources ::= delete i |>) i (o <| beingDestroyed := true |>)).
Proof.
  intros [[L1 L2 L3 L4 L5] H1 H2 H3 H4 H5 H6 H7 H8] Ho.
  pose proof (H7 i o Ho ltac:(done)) as Hri.
  set (st1 := set_object _ _ _).
  assert (Hb : forall j x', objects st1 !! j = Some x' -> exists x, objects st !! j = Some x /\
    x' = if decide (i = j) then x <| beingDestroyed := true |> else x).
  { intros j x' Hj. cbn in Hj. destruct (decide (i = j)) as [<-|Hne].
    - rewrite lookup_insert_eq in Hj. injection Hj as <-. by exists o.
    - rewrite lookup_insert_ne in Hj by done. by exists x'. }
  assert (Hf : forall j x, objects st !! j = Some x -> exists x', objects st1 !! j = Some x' /\
    pTriglist x' = pTriglist x /\ so_type x' = so_type x).
  { intros j x Hj. cbn. destruct (decide (i = j)) as [<-|Hne].
    - rewrite lookup_insert_eq. rewrite Ho in Hj. injection Hj as <-. by eexists.
    - rewrite lookup_insert_ne by done. by exists x. }
  assert (Hres : forall id rt p, resources st !! id = Some (rt, p) -> rt <> type_of_object o -> resources st1 !! id = Some (rt, p)).
  { intros id rt p Hr Hne. cbn. rewrite lookup_delete_ne; [done|]. intros ->. congruence. }
  assert (Hty : RTAwait <> type_of_object o /\ RTAlarm <> type_of_object o /\ RTAlarmClient <> type_of_object o)
    by (unfold type_of_object; by destruct (so_type o)).
  destruct Hty as (Hty1 & Hty2 & Hty3).
  split; [split|..].
  - intros j x' Hj. destruct (Hb j x' Hj) as (x & Hx & ->). case_decide; exact (L1 j x Hx).
  - intros j x' Hj. destruct (Hb j x' Hj) as (x & Hx & ->). case_decide; exact (L2 j x Hx).
  - intros j x' Hj. destruct (Hb j x' Hj) as (x & Hx & ->). case_decide; exact (L3 j x Hx).
  - intros j x' Hj. destruct (Hb j x' Hj) as (x & Hx & ->). case_decide as E.
    + subst j. by rewrite bool_decide_true.
    + rewrite bool_decide_false by congruence. by apply (L4 j).
  - intros j x' r Hj HD. destruct (Hb j x' Hj) as (x & Hx & ->). rewrite decide_False by congruence. by apply (L5 j).
  - intros j x' Hj. destruct (Hb j x' Hj) as (x & Hx & ->). case_decide; exact (H1 j x Hx).
  - intros r t j Hr Hp. destruct (H2 r t j Hr Hp) as (x & Hx & Hin). destruct (Hf j x Hx) as (x' & Hx' & E & _).
    exists x'. by rewrite E.
  - intros j x' u k Hj HD. destruct (Hb j x' Hj) as (x & Hx & ->). rewrite decide_False by congruence. by apply (H3 j).
  - intros j x' u k k' Hj HD. destruct (Hb j x' Hj) as (x & Hx & ->). rewrite decide_False by congruence. by apply (H4 j).
  - intros u un Hu. destruct (H5 u un Hu) as (R1 & R2 & R3). split; [by apply Hres|done].
  - intros a A Ha. destruct (H6 a A Ha) as (R1 & R2 & R3 & R4). split_and!; [by apply Hres|done| |].
    + intros c id Hin. apply Hres; [exact (R3 c id Hin)|done].
    + intros j x' Hp Hj. destruct (Hb j x' Hj) as (x & Hx & ->). case_decide; exact (R4 j x Hp Hx).
  - intros j x' Hj HD. destruct (Hb j x' Hj) as (x & Hx & ->). cbn. rewrite lookup_delete_ne by congruence.
    rewrite decide_False by congruence. by apply (H7 j).
  - intros id rt p Hr. cbn in Hr. apply lookup_delete_Some in Hr as [Hne Hr]. specialize (H8 id rt p Hr). destruct rt; try done.
    + destruct H8 as (-> & x & Hx & Ht & _). split; [done|]. destruct (Hf _ _ Hx) as (x' & Hx' & _ & E). exists x'.
      split_and!; congruence.
    + destruct H8 as (-> & x & Hx & Ht & _). split; [done|]. destruct (Hf _ _ Hx) as (x' & Hx' & _ & E). exists x'.
      split_and!; congruence.
Qed.

(** The object is freed when no trigger waits for it any more. *)
Lemma delete_object_wf st i :
  sync_wf (Some i) st -> (forall r t, get_trigger st r = Some t -> pSync t <> Some i) ->
  sync_wf None (st <| objects ::= delete i |>).
Proof.
  intros [[L1 L2 L3 L4 L5] H1 H2 H3 H4 H5 H6 H7 H8] Hno.
  assert (Hb : forall j x, objects (st <| objects ::= delete i |>) !! j = Some x -> objects st !! j = Some x /\ Some i <> Some j).
  { intros j x Hj. cbn in Hj. apply lookup_delete_Some in Hj as [Hne Hj]. split; congruence. }
  split; [split|..]; try done.
  - intros j x Hj. destruct (Hb j x Hj). by apply (L1 j).
  - intros j x Hj. destruct (Hb j x Hj). by apply (L2 j).
  - intros j x Hj. destruct (Hb j x Hj). by apply (L3 j).
  - intros j x Hj. destruct (Hb j x Hj) as [Hx Hne]. rewrite (L4 j x Hx). by rewrite !bool_decide_false.
  - intros j x r Hj _. destruct (Hb j x Hj). by apply (L5 j).
  - intros j x Hj. destruct (Hb j x Hj). by apply (H1 j).
  - intros r t j Hr Hp. destruct (H2 r t j Hr Hp) as (x & Hx & Hin). exists x. split; [|done]. cbn.
    rewrite lookup_delete_ne; [done|]. intros <-. by apply (Hno r t).
  - intros j x u k Hj _. destruct (Hb j x Hj). by apply (H3 j).
  - intros j x u k k' Hj _. destruct (Hb j x Hj). by apply (H4 j).
  - intros a A Ha. destruct (H6 a A Ha) as (R1 & R2 & R3 & R4). split_and!; try done.
    intros j x Hp Hj. destruct (Hb j x Hj). by apply (R4 j).
  - intros j x Hj _. destruct (Hb j x Hj). by apply (H7 j).
  - intros id rt p Hr. specialize (H8 id rt p Hr). destruct rt; try done.
    + destruct H8 as (-> & x & Hx & Ht & HD). split; [done|]. exists x. split_and!; try done. cbn.
      rewrite lookup_delete_ne; [done|]. congruence.
    + destruct H8 as (-> & x & Hx & Ht & HD). split; [done|]. exists x. split_and!; try done. cbn.
      rewrite lookup_delete_ne; [done|]. congruence.
Qed.

(** What destroying an object does. *)
Definition destroy_post st (i : Z) o st' : Prop :=
  let us := fired_awaits (fun _ => true) (pTriglist o) in
  sync_wf None st' /\
  (forall j, value <$> objects st' !! j = if decide (j = i) then None else value <$> objects st !! j) /\
  (forall u, awaits st' !! u = if bool_decide (u ∈ us) then None else awaits st !! u) /\
  (forall a, alarms st' !! a = (if bool_decide (TAlarm a ∈ pTriglist o) then alarm_orphan else id) <$> alarms st !! a) /\
  (forall c, c ∉ clientGone st ->
     default 0 (ignoreCount st' !! c) = default 0 (ignoreCount st !! c) - attended st c us) /\
  clientGone st' = clientGone st.

Lemma dying_done st i o st2 l :
  sync_wf None st -> objects st !! i = Some o ->
  dying (set_object (st <| resources ::= delete i |>) i (o <| beingDestroyed := true |>)) i (pTriglist o) [] st2 ->
  destroy_post st i o (st2 <| SysCounterList := l |> <| objects ::= delete i |>).
Proof.
  intros Hwf Ho [D1 _ _ D4 _ D6 D7 D8 D9 D10]. unfold destroy_post. cbv zeta. split_and!; try done.
  - apply delete_object_wf; [by eapply sync_wf_ext; [..|exact D1]|]. intros r t Hr Hp.
    specialize (D4 r t Hr Hp). by apply not_elem_of_nil in D4.
  - intros j. cbn. case_decide as E; [subst j; by rewrite lookup_delete_eq|]. rewrite lookup_delete_ne by done.
    rewrite D8. cbn. by rewrite lookup_insert_ne.
Qed.

Lemma FreeResource_found st i rt p :
  resources st !! i = Some (rt, p) ->
  FreeResource al st i = delete_resource al (FreeResource_rec al 1) (st <| resources ::= delete i |>) rt p i.
Proof. intros Hr. unfold FreeResource. cbn [FreeResource_rec]. by rewrite Hr. Qed.

Lemma free_object_spec st i o :
  sync_wf None st -> objects st !! i = Some o -> Z.of_nat (length (pTriglist o)) < Zpos TURNS ->
  exists st', FreeResource al st i = Ret st' /\ destroy_post st i o st'.
Proof.
  intros Hwf Ho Hlen. rewrite (FreeResource_found _ _ _ _ (wf_objects _ _ Hwf i o Ho ltac:(done))).
  set (st0 := st <| resources ::= delete i |>). set (st1 := set_object st0 i (o <| beingDestroyed := true |>)).
  assert (Hwf1 : sync_wf (Some i) st1) by by apply start_destroying_wf.
  assert (Ho1 : objects st1 !! i = Some (o <| beingDestroyed := true |>)) by (cbn; by rewrite lookup_insert_eq).
  destruct (destroyed_loop st1 i (o <| beingDestroyed := true |>) Hwf1 Ho1) as (st2 & Hrun & Hd).
  { exact (ls_nodup _ _ (wf_listed _ _ Hwf) i o Ho). }
  { intros r Hr. destruct (ls_live _ _ (wf_listed _ _ Hwf) i o r Ho ltac:(done) Hr) as (t & Ht & Hp & _). by exists t. }
  { intros u k k'. by apply (wf_once _ _ Hwf i o). }
  { done. }
  change (pTriglist (o <| beingDestroyed := true |>)) with (pTriglist o) in Hrun.
  assert (Hpost1 : destroy_post st i o (st2 <| objects ::= delete i |>)).
  { pose proof (dying_done st i o st2 (SysCounterList st2) Hwf Ho Hd) as Hp. clear -Hp. by destruct st2. }
  pose proof (dying_done st i o st2 (filter (fun x => x <> i) (SysCounterList st2)) Hwf Ho Hd) as Hpost2.
  assert (Hinit : initialized o = true) by exact (ls_init _ _ (wf_listed _ _ Hwf) i o Ho).
  unfold type_of_object. destruct (so_type o) eqn:Hty; cbn [delete_resource].
  - unfold FreeCounter. replace (objects st0 !! i) with (Some o) by done. cbn [obind_opt]. rewrite Hinit. fold st1.
    rewrite Hrun. cbn [obind].
    destruct (IsSystemCounter o) eqn:Hs; [|cbn [obind]; by eexists].
    destruct (ls_sys _ _ (wf_listed _ _ Hwf) i o Ho Hty Hs) as [psci ->]. cbn [obind_opt obind].
    eexists. split; [reflexivity|]. done.
  - unfold miSyncDestroyFence. replace (objects st0 !! i) with (Some o) by done. cbn [obind_opt]. rewrite Hinit. fold st1.
    rewrite Hrun. cbn [obind]. by eexists.
Qed.
End Safe.
