(* ===== verification/SyncLive.v ===== *)
(** * SyncLive: what waiting clients can rely on

    The claims about the whole SYNC component: a counter that changes fires
    exactly the triggers that became true, a fence that is triggered and an
    object that is destroyed leave nobody waiting; and the ways in which a
    request can break the links of SyncSafe.v. *)

From S2P Require Import Prelude.
From S2P Require Import Wire.
From S2P Require Import Request.
From S2P Require Import Sync.
From S2P Require Import SyncRequest.
From S2P Require Import SyncAlarm.
From S2P Require Import SyncSafe.

(** A server with one screen's worth of policy: every access is allowed, ids
    carry their client in the upper bits. *)
#[local] Instance demo_env : SyncEnv := {
  CLIENT_ID id := Z.shiftr id 21;
  legal_range id c := true;
  xace _ _ _ := Success;
  owner_access _ _ _ := Success;
  FakeClientID used _ := fresh (used ∪ {[None_]});
  fake_fresh used c := conj (fun H => is_fresh (used ∪ {[None_]}) (elem_of_union_l _ _ _ H))
    (fun E => is_fresh (used ∪ {[None_]}) (elem_of_union_r _ _ _ (proj2 (elem_of_singleton _ _) E)));
  lookup_drawable _ _ := Success;
  SyncErrorBase := 134
}.

(** Counter 5 is at 100; alarm 7 waits for 110 and client 4 is blocked until
    the counter gets to 150 or fence 6 is triggered. *)
Definition demo_alarm2 : SyncAlarm :=
  MkAlarm (MkTrig (Some 5) 110 XSyncAbsolute XSyncPositiveComparison 110 (Some SyncCheckTriggerPositiveComparison))
    3 7 1 XSyncAlarmActive [(4, 90)].
Definition demo_union : SyncAwaitUnion :=
  MkUnion 4 2 [
    MkAwait (MkTrig (Some 5) 150 XSyncAbsolute XSyncPositiveComparison 150 (Some SyncCheckTriggerPositiveComparison)) 0;
    MkAwait (MkTrig (Some 6) 0 XSyncAbsolute 0 0 (Some SyncCheckTriggerFence)) 0].
Definition demo_counter2 : SyncObject :=
  MkSync (Some 3) [TAwait 20 0; TAlarm 7] SYNC_COUNTER true false 100 None false.
Definition demo_fence : SyncObject := MkSync (Some 3) [TAwait 20 1] SYNC_FENCE true false 0 None false.
Definition demo_wait : SyncState :=
  MkState {[5 := demo_counter2; 6 := demo_fence]} {[7 := demo_alarm2]} {[20 := demo_union]}
    {[5 := (RTCounter, 5); 6 := (RTFence, 6); 7 := (RTAlarm, 7); 20 := (RTAwait, 20); 90 := (RTAlarmClient, 7)]}
    [] {[4 := 1]} ∅ ∅ ∅ [] [] 0 false None false 0 ∅ ∅ 0.

(** The entries of a literal map. *)
Ltac entries H :=
  cbn in H;
  repeat match type of H with
  | <[_ := _]> _ !! _ = Some _ => apply lookup_insert_Some in H as [[<- <-]|[_ H]]
  | {[_ := _]} !! _ = Some _ => apply lookup_singleton_Some in H as [<- <-]
  end.
Ltac members H := repeat (apply elem_of_cons in H as [H|H]); [try done..|by apply not_elem_of_nil in H].

Lemma demo_wait_wf : sync_wf None demo_wait.
Proof.
  split; [split|..].
  - intros i o Ho. entries Ho; cbn; by repeat constructor; set_solver.
  - intros i o Ho. by entries Ho.
  - intros i o Ho. by entries Ho.
  - intros i o Ho. by entries Ho.
  - intros i o r Ho _ Hr. entries Ho; cbn in Hr; members Hr; subst r; eexists; (split; [reflexivity|]); (split; [done|]);
      eexists; (split; [reflexivity|]); done.
  - intros i o Ho. by entries Ho.
  - intros [a|u k] t i Hr Hp; cbn in Hr.
    + destruct (_ !! a) as [A|] eqn:Ha; [|done]. entries Ha. injection Hr as <-. injection Hp as <-.
      eexists. split; [reflexivity|]. cbn. set_solver.
    + destruct (_ !! u) as [un|] eqn:Hu; [|done]. entries Hu.
      destruct k as [|[|k]]; [..|by destruct k]; injection Hr as <-; injection Hp as <-;
        (eexists; split; [reflexivity|]; cbn; set_solver).
  - intros i o u k Ho _ Hr. entries Ho; cbn in Hr; members Hr; injection Hr as -> ->; eexists; (split; [reflexivity|]); cbn; lia.
  - intros i o u k k' Ho _ Hr Hr'. entries Ho; cbn in Hr, Hr'; members Hr; members Hr'; congruence.
  - intros u un Hu. entries Hu. split_and!; [done|done|]. intros k w Hw. destruct k as [|[|k]]; [..|by destruct k];
      injection Hw as <-; by eexists.
  - intros a A Ha. entries Ha. split_and!; [done| | |].
    + split_and!; try done; [|cbn; apply NoDup_singleton]. eexists. split; [reflexivity|]. split; [reflexivity|]. done.
    + intros c id Hin. cbn in Hin. members Hin. by injection Hin as -> ->.
    + intros i o Hp Ho. injection Hp as <-. by injection Ho as <-.
  - intros i o Ho _. by entries Ho.
  - intros id rt p Hr. remember (rt, p) as x eqn:E. entries Hr; injection E as <- <-; cbn; try (split; [done|]); try by eexists.
    eexists _, 4. split; [reflexivity|]. left.
Qed.

Section Live.
Context `{SyncEnv} (al : allocator).
Implicit Types (st : SyncState) (o : SyncObject).

(** ** Counters change *)

(** C23: in a state that satisfies [sync_wf] (links lead to live cells, no await
    has two conditions on one counter, alarms have the check function of their test
    type and a delta that moves them on; [refused_ChangeAlarm_hangs] and [await_twice_uses_freed_memory]
    show requests that break it), setting a counter to a new value terminates and
    fires exactly the triggers that became true: the clients whose await had a
    condition that came true are attended to once per await and the await is gone,
    the alarms that fired have moved on, all other awaits and alarms are as before,
    the events are sent in the order of the trigger list, no other counter changes,
    and the links between triggers and objects stay sound. *)
Theorem SyncChangeCounter_fires st i o newval :
  sync_wf None st -> objects st !! i = Some o -> so_type o = SYNC_COUNTER -> is_int64 newval ->
  Z.of_nat (length (pTriglist o)) < Zpos TURNS ->
  exists st', SyncChangeCounter al (FreeResource al) st i newval = Ret st' /\ change_post al st i newval o st'.
Proof. apply SyncChangeCounter_spec. Qed.

(** ** Nobody waits for what is gone *)

(** A trigger of an await that waits for an object is on its list. *)
Lemma waits_listed st i o u un k w :
  sync_wf None st -> objects st !! i = Some o -> awaits st !! u = Some un -> conditions un !! k = Some w ->
  pSync (aw_trigger w) = Some i -> TAwait u k ∈ pTriglist o.
Proof.
  intros Hwf Ho Hu Hk Hp. destruct (wf_back _ _ Hwf (TAwait u k) (aw_trigger w) i) as (o' & Ho' & Hin).
  - cbn. rewrite Hu. cbn. by rewrite Hk.
  - done.
  - rewrite Ho in Ho'. by injection Ho' as <-.
Qed.
Lemma fired_all l u k : TAwait u k ∈ l -> u ∈ fired_awaits (fun _ => true) l.
Proof. intros Hin. unfold fired_awaits. apply list_elem_of_omap. by exists (TAwait u k). Qed.

(** C24: in a state that satisfies [sync_wf] (in particular no await has two
    conditions on one object; an accepted Await can break this,
    [await_twice_uses_freed_memory]), destroying a counter or a fence, by its
    owner or because the owner is gone, terminates and leaves no client blocked on
    it: every await with a condition on the object is gone and its client is
    attended to again once for each of them, alarms on it have become inactive and
    refer to nothing, and nothing in the server refers to the freed object. *)
Theorem destroyed_object_unblocks st i o :
  sync_wf None st -> objects st !! i = Some o -> Z.of_nat (length (pTriglist o)) < Zpos TURNS ->
  exists st', FreeResource al st i = Ret st' /\ destroy_post st i o st' /\
    (forall u un k w, awaits st !! u = Some un -> conditions un !! k = Some w ->
       pSync (aw_trigger w) = Some i -> awaits st' !! u = None) /\
    (forall r t, get_trigger st' r = Some t -> pSync t <> Some i).
Proof.
  intros Hwf Ho Hlen. destruct (free_object_spec al st i o Hwf Ho Hlen) as (st' & Hf & Hpost).
  exists st'. split; [done|]. split; [done|]. destruct Hpost as (Hwf' & Hv & Ha & _). split.
  - intros u un k w Hu Hk Hp. rewrite Ha. rewrite bool_decide_true; [done|].
    exact (fired_all _ u k (waits_listed st i o u un k w Hwf Ho Hu Hk Hp)).
  - intros r t Hr Hp. destruct (wf_back _ _ Hwf' r t i Hr Hp) as (o' & Ho' & _). specialize (Hv i).
    rewrite Ho', decide_True in Hv by done. done.
Qed.

Lemma miSyncTriggerFence_spec st i o :
  sync_wf None st -> objects st !! i = Some o -> so_type o = SYNC_FENCE ->
  Z.of_nat (length (pTriglist o)) < Zpos TURNS ->
  let us := fired_awaits (fun _ => true) (pTriglist o) in
  exists st', miSyncTriggerFence al (FreeResource al) st i = Ret st' /\ sync_wf None st' /\
    (triggered <$> objects st' !! i) = Some true /\
    (forall u un k w, awaits st !! u = Some un -> conditions un !! k = Some w ->
       pSync (aw_trigger w) = Some i -> awaits st' !! u = None) /\
    (forall u, u ∉ us -> awaits st' !! u = awaits st !! u) /\ alarms st' = alarms st /\
    (forall c, c ∉ clientGone st ->
       default 0 (ignoreCount st' !! c) = default 0 (ignoreCount st !! c) - attended st c us).
Proof.
  intros Hwf Ho Hty Hlen us. unfold miSyncTriggerFence. rewrite Ho. cbn [obind_opt].
  set (o1 := o <| triggered := true |>). set (st1 := set_object st i o1).
  assert (Hwf1 : sync_wf None st1)
    by (apply (set_object_wf None st i o o1); try done; exact (wf_value _ _ Hwf i o Ho)).
  assert (Ho1 : objects st1 !! i = Some o1) by (cbn; by rewrite lookup_insert_eq).
  destruct (fence_loop al st1 i o1 Hwf1 Ho1 Hty eq_refl Hlen) as (st2 & Hrun & [F1 _ _ F4 F5 F6 F7 F8 _]).
  exists st2. split; [exact Hrun|]. split_and!; try done.
  - destruct (same_views_object _ _ _ _ F6 Ho1) as (o2 & -> & E). unfold view in E. cbn. injection E as _ _ _ ->. done.
  - intros u un k w Hu Hk Hp. rewrite F4, bool_decide_true; [done|]. exact (fired_all _ u k (waits_listed st i o u un k w Hwf Ho Hu Hk Hp)).
  - intros u Hu. rewrite F4. by rewrite bool_decide_false.
  - apply map_eq. intros a. rewrite F5. change (pTriglist o1) with (pTriglist o). change (alarms st1) with (alarms st).
    destruct (bool_decide (TAlarm a ∈ pTriglist o)) eqn:Hin; cbn [andb]; [|by destruct (alarms st !! a)].
    apply bool_decide_eq_true in Hin.
    destruct (ls_live _ _ (wf_listed _ _ Hwf) i o (TAlarm a) Ho ltac:(done) Hin) as (t & Ht & Hp & _). cbn in Ht.
    destruct (alarms st !! a) as [A|] eqn:Ha; [|done]. cbn in Ht. injection Ht as <-.
    destruct (wf_alarm _ _ Hwf a A Ha) as (_ & _ & _ & Hc). specialize (Hc i o Hp Ho). congruence.
Qed.

(** triggering a fence terminates and unblocks everybody: every await
    with a condition on the fence is gone, its client is attended to once for
    each, and every other await and all alarms are as before. *)
Theorem miSyncTriggerFence_unblocks st i o :
  sync_wf None st -> objects st !! i = Some o -> so_type o = SYNC_FENCE ->
  Z.of_nat (length (pTriglist o)) < Zpos TURNS ->
  let us := fired_awaits (fun _ => true) (pTriglist o) in
  exists st', miSyncTriggerFence al (FreeResource al) st i = Ret st' /\ sync_wf None st' /\
    (triggered <$> objects st' !! i) = Some true /\
    (forall u un k w, awaits st !! u = Some un -> conditions un !! k = Some w ->
       pSync (aw_trigger w) = Some i -> awaits st' !! u = None) /\
    (forall u, u ∉ us -> awaits st' !! u = awaits st !! u) /\ alarms st' = alarms st /\
    (forall c, c ∉ clientGone st ->
       default 0 (ignoreCount st' !! c) = default 0 (ignoreCount st !! c) - attended st c us).
Proof. apply miSyncTriggerFence_spec. Qed.

(** ** Requests that break the links *)

Lemma lookup_found st id rt client mode p :
  resources st !! id = Some (rt, p) -> xace client id mode = Success ->
  lookup_resource st id rt client mode = (Success, Some p, set_error st client id).
Proof.
  intros Hr Hx. unfold lookup_resource. replace (resources (set_error st client id) !! id) with (Some (rt, p)) by done.
  rewrite decide_True by done. by rewrite Hx.
Qed.

(** The value list [value_type := 7; test_type := PositiveTransition; delta := 0]
    of a ChangeAlarm request, and its mask. *)
Definition bad_values : list Z := [7; 0; 0; 0;  0; 0; 0; 0;  0; 0; 0; 0;  0; 0; 0; 0].
Definition bad_mask : Z := XSyncCAValueType + XSyncCATestType + XSyncCADelta.

Definition bad_trigger (t : SyncTrigger) : SyncTrigger :=
  t <| value_type := 7 |> <| test_type := XSyncPositiveTransition |>.
Lemma bad_values_read c t d :
  alarm_values 33 bad_mask (words32 bad_values) (MkAttrs c t d None) = Ret (inl (MkAttrs c (bad_trigger t) 0 None)).
Proof. destruct t. vm_compute. reflexivity. Qed.

(** The alarm loop with increment zero. *)
Lemma alarm_stuck st t v p :
  check_trigger st t v = Ret true -> is_int64 (test_value t) ->
  run_loop (alarm_step st t 0 v) p (test_value t) = Diverge.
Proof.
  intros Hc Htv. apply run_loop_stuck. unfold alarm_step.
  destruct (checked_add_spec (test_value t) 0 Htv ltac:(done)) as [[_ ->]|[Hn _]]; [|by rewrite Z.add_0_r in Hn].
  rewrite Z.add_0_r. assert (E : t <| test_value := test_value t |> = t) by by destruct t. by rewrite E, Hc.
Qed.

Lemma refused_init st client r t i o c x rt :
  get_trigger st r = Some t -> pSync t = Some i -> value_type t = 7 ->
  objects st !! i = Some o -> so_type o = SYNC_COUNTER -> so_client o = Some c ->
  SyncInitTrigger al st client r x rt (Z.land bad_mask XSyncCAAllTrigger) = Ret (BadValue, set_error st client 7).
Proof.
  intros Ht Hp Hv Ho Hty Hc. unfold SyncInitTrigger. rewrite Ht. cbn [obind_opt].
  change (has (Z.land bad_mask XSyncCAAllTrigger) XSyncCACounter) with false. cbv iota. rewrite Hp.
  cbn [Z.eqb Success negb]. rewrite Ho. cbn [obind_opt]. rewrite decide_True by done. unfold IsSystemCounter.
  rewrite bool_decide_false by congruence. cbn [obind]. rewrite Hv. reflexivity.
Qed.

Definition half_changed (t : SyncTrigger) (A : SyncAlarm) : SyncAlarm := A <| delta := 0 |> <| al_trigger := bad_trigger t |>.
Lemma refused_attributes st client a A i o c :
  alarms st !! a = Some A -> pSync (al_trigger A) = Some i ->
  objects st !! i = Some o -> so_type o = SYNC_COUNTER -> so_client o = Some c ->
  SyncChangeAlarmAttributes al st client a bad_mask (words32 bad_values) =
    Ret (BadValue, set_error (on_alarm st a (half_changed (al_trigger A))) client 7).
Proof.
  intros Ha Hp Ho Hty Hcl. unfold SyncChangeAlarmAttributes. rewrite Ha. cbn [obind_opt]. rewrite bad_values_read.
  cbn [obind at_select at_trigger at_delta at_counter]. change (Success =? Success) with true. cbn [negb].
  change (has bad_mask _ && bad_delta (test_type (bad_trigger (al_trigger A))) 0) with false. cbv iota zeta.
  fold (half_changed (al_trigger A)).
  rewrite (refused_init _ client (TAlarm a) (bad_trigger (al_trigger A)) i o c); try done.
  unfold on_alarm. cbn. by rewrite lookup_alter_eq, Ha.
Qed.

Lemma zero_delta_hangs st a A i o rest v :
  alarms st !! a = Some A -> al_state A = XSyncAlarmActive -> pSync (al_trigger A) = Some i ->
  CheckTrigger (al_trigger A) = Some SyncCheckTriggerPositiveComparison -> is_int64 (test_value (al_trigger A)) ->
  delta A = 0 -> test_type (al_trigger A) = XSyncPositiveTransition ->
  objects st !! i = Some o -> so_type o = SYNC_COUNTER -> pTriglist o = TAlarm a :: rest ->
  test_value (al_trigger A) <= v -> SyncChangeCounter al (FreeResource al) st i v = Diverge.
Proof.
  intros Ha Hact Hp Hc Htv Hd Htt Ho Hty Hl Hv. unfold SyncChangeCounter, SyncUpdateCounter. rewrite Ho. cbn [obind_opt obind].
  set (st1 := set_object st i (o <| value := v |>)).
  assert (Ho1 : objects st1 !! i = Some (o <| value := v |>)) by (cbn; by rewrite lookup_insert_eq).
  assert (Hck : forall old, check_trigger st1 (al_trigger A) old = Ret true).
  { intros old. rewrite (check_counter st1 _ i (o <| value := v |>) SyncCheckTriggerPositiveComparison old) by done.
    cbn. f_equal. apply Z.geb_le. lia. }
  rewrite Ho1. cbn [obind_opt]. change (pTriglist (o <| value := v |>)) with (pTriglist o).
  rewrite (run_loop_stop _ TURNS _ Diverge); [done|].
  unfold fire_step. rewrite Hl. cbn [head]. rewrite Ho1. cbn [obind_opt]. change (pTriglist (o <| value := v |>)) with (pTriglist o).
  rewrite Hl. cbn [next_of]. rewrite decide_True by done. cbn [obind_opt get_trigger].
  change (alarms st1) with (alarms st). rewrite Ha. cbn [fmap option_fmap option_map obind_opt]. rewrite Hck.
  cbn [obind TriggerFired]. unfold SyncAlarmTriggerFired, SyncCheckWarnIsCounter, counter_value.
  change (alarms st1) with (alarms st). rewrite Ha. cbn [obind_opt]. rewrite Hp, Ho1. cbn [obind_opt obind].
  rewrite bool_decide_true by done. cbn [negb]. rewrite Hact, Hd, Htt. cbn -[TURNS alarm_step]. 
  by rewrite (alarm_stuck st1 _ v TURNS (Hck v) Htv).
Qed.

(** C37: a ChangeAlarm request that is refused with BadValue for its value
    type has already stored the new test type and increment, but not the new
    check function.  The alarm that compares now has increment zero and the
    test type of a transition: when its counter reaches the threshold, the
    loop that moves the threshold on never ends, for any number of turns, and
    the server hangs. *)
Theorem refused_ChangeAlarm_hangs st client a A i o c rest :
  alarms st !! a = Some A -> resources st !! a = Some (RTAlarm, a) -> xace client a DixWriteAccess = Success ->
  al_state A = XSyncAlarmActive -> pSync (al_trigger A) = Some i ->
  CheckTrigger (al_trigger A) = Some SyncCheckTriggerPositiveComparison -> is_int64 (test_value (al_trigger A)) ->
  objects st !! i = Some o -> so_type o = SYNC_COUNTER -> so_client o = Some c -> pTriglist o = TAlarm a :: rest ->
  exists st', ProcSyncChangeAlarm al st client false 7 a bad_mask bad_values = Ret (BadValue, st') /\
    forall v, test_value (al_trigger A) <= v -> SyncChangeCounter al (FreeResource al) st' i v = Diverge.
Proof.
  intros Ha Hr Hx Hact Hp Hc Htv Ho Hty Hcl Hl.
  unfold ProcSyncChangeAlarm. change (too_short 12 7) with false. cbn [swapl]. cbv iota zeta.
  rewrite (lookup_found st a RTAlarm client DixWriteAccess a Hr Hx).
  change (i32 (7 - 3) =? value_list_length bad_mask) with true. cbn [negb].
  rewrite (refused_attributes _ client a A i o c) by done. cbn [obind]. change (BadValue =? Success) with false. cbn [negb].
  eexists. split; [reflexivity|]. intros v Hv.
  apply (zero_delta_hangs _ a (half_changed (al_trigger A) A) i o rest); try done.
  cbn. by rewrite lookup_alter_eq, Ha.
Qed.
End Live.

(** Client 4 is no longer blocked when the counter gets to 150. *)
Lemma SyncChangeCounter_fires_witness :
  exists st', SyncChangeCounter always (FreeResource always) demo_wait 5 150 = Ret st' /\
    awaits st' !! 20 = None /\ ignoreCount st' !! 4 = Some 0 /\ (test_value ∘ al_trigger <$> alarms st' !! 7) = Some 152.
Proof.
  destruct (SyncChangeCounter_fires always demo_wait 5 demo_counter2 150 demo_wait_wf eq_refl eq_refl ltac:(done) ltac:(done))
    as (st' & Hs & _). revert Hs. vm_compute. intros [= <-]. by eexists.
Defined.
Lemma destroyed_object_unblocks_witness :
  exists st', FreeResource always demo_wait 5 = Ret st' /\ awaits st' !! 20 = None /\
    (pSync ∘ al_trigger <$> alarms st' !! 7) = Some None.
Proof.
  destruct (destroyed_object_unblocks always demo_wait 5 demo_counter2 demo_wait_wf eq_refl ltac:(done))
    as (st' & Hs & _). revert Hs. vm_compute. intros [= <-]. by eexists.
Defined.
Lemma miSyncTriggerFence_unblocks_witness :
  exists st', miSyncTriggerFence always (FreeResource always) demo_wait 6 = Ret st' /\ awaits st' !! 20 = None.
Proof.
  destruct (miSyncTriggerFence_unblocks always demo_wait 6 demo_fence demo_wait_wf eq_refl eq_refl ltac:(done))
    as (st' & Hs & _). revert Hs. vm_compute. intros [= <-]. by eexists.
Defined.
Lemma refused_ChangeAlarm_hangs_witness :
  exists st', ProcSyncChangeAlarm always demo_state 3 false 7 7 bad_mask bad_values = Ret (BadValue, st') /\
    SyncChangeCounter always (FreeResource always) st' 5 10 = Diverge.
Proof.
  destruct (refused_ChangeAlarm_hangs (H := demo_env) always demo_state 3 7 demo_alarm 5 demo_counter 3 [] eq_refl eq_refl eq_refl
    eq_refl eq_refl eq_refl ltac:(done) eq_refl eq_refl eq_refl eq_refl) as (st' & H1 & H2).
  exists st'. split; [exact H1|]. by apply H2.
Defined.

(** Counter 5 is at 0; client 4 asks to wait for it to reach 150 or 200. *)
Definition demo_idle : SyncState :=
  MkState {[5 := MkSync (Some 3) [] SYNC_COUNTER true false 0 None false]} ∅ ∅ {[5 := (RTCounter, 5)]}
    [] ∅ ∅ ∅ ∅ [] [] 0 false None false 0 ∅ ∅ 0.
Definition demo_condition (threshold : Z) : list Z :=
  [5; 0; 0; 0;  0; 0; 0; 0;  0; 0; 0; 0;  threshold; 0; 0; 0;  XSyncPositiveComparison; 0; 0; 0;
   0; 0; 0; 0;  0; 0; 0; 0].

(** C38: an Await request may name the same counter twice.  It is accepted and
    the client is blocked; when the counter then gets to a value at which the
    trigger in front of the list comes true, the await is freed together with
    the next node of the list that is being walked, and the server uses freed
    memory.  Below that value it goes on as it should. *)
Theorem await_twice_uses_freed_memory :
  exists st1, ProcSyncAwait always demo_idle 4 false 15 (demo_condition 150 ++ demo_condition 200) = Ret (Success, st1) /\
    ignoreCount st1 !! 4 = Some 1 /\
    (forall v, 200 <= v < 256 -> ProcSyncSetCounter always st1 3 false 4 5 0 v = Undefined) /\
    (exists st2, ProcSyncSetCounter always st1 3 false 4 5 0 149 = Ret (Success, st2)).
Proof.
  eexists. split; [vm_compute; reflexivity|]. split; [vm_compute; reflexivity|]. split.
  - intros v Hv. match goal with |- ProcSyncSetCounter _ ?s _ _ _ _ _ _ = _ =>
      assert (Hall : Forall (fun v => ProcSyncSetCounter always s 3 false 4 5 0 v = Undefined) (seqZ 200 56))
        by (repeat (constructor; [vm_compute; reflexivity|]); constructor) end.
    rewrite Forall_forall in Hall. apply Hall, elem_of_seqZ. lia.
  - eexists. vm_compute. reflexivity.
Qed.

(** ** Creating a system counter without memory *)

Section NoMemory.
Context `{SyncEnv} (al : allocator).

Lemma SyncCreateCounter_ok st client id initial :
  al (allocs st) 64 = true -> al (S (allocs st)) 32 = true ->
  exists st', SyncCreateCounter al st client id initial = Ret (true, st') /\
    objects st' !! id = Some (MkSync client [] SYNC_COUNTER true false initial None false) /\
    resources st' !! id = Some (RTCounter, id) /\ allocs st' = S (S (allocs st)).
Proof.
  intros H1 H2. unfold SyncCreateCounter, SyncCreate, AddResource, calloc. cbn. rewrite H1. cbn. rewrite H2. cbn.
  eexists. split; [reflexivity|]. cbn. by rewrite !lookup_alter_eq, !lookup_insert_eq.
Qed.

Lemma FreeResource_bare st id initial :
  objects st !! id = Some (MkSync None [] SYNC_COUNTER true false initial None false) ->
  resources st !! id = Some (RTCounter, id) -> FreeResource al st id = Undefined.
Proof.
  intros Ho Hr. rewrite (FreeResource_found al st id RTCounter id Hr). cbn [delete_resource]. unfold FreeCounter.
  replace (objects (st <| resources ::= delete id |>) !! id) with (objects st !! id) by done. rewrite Ho. cbn [obind_opt].
  cbn [initialized pTriglist head].
  match goal with |- context [run_loop ?f TURNS (?s, None)] =>
    by rewrite (run_loop_stop f TURNS (s, None) (Ret s) eq_refl) end.
Qed.

(** When there is no memory for the data of a new system counter, its
    counter is freed again; but a counter without owner is taken for a
    complete system counter, so that the server follows the null pointer in
    place of returning no counter. *)
Theorem SyncCreateSystemCounter_no_memory st name initial resolution ct f :
  al (allocs st) 64 = true -> al (S (allocs st)) 32 = true -> al (S (S (allocs st))) 80 = false ->
  SyncCreateSystemCounter al st name initial resolution ct f = Undefined.
Proof.
  intros H1 H2 H3. unfold SyncCreateSystemCounter.
  destruct (SyncCreateCounter_ok st None (fake_id st 0) initial H1 H2) as (st' & -> & Ho & Hr & Hal).
  cbn [obind negb]. unfold calloc. rewrite Hal, H3. cbn [negb]. by rewrite (FreeResource_bare _ _ initial).
Qed.
End NoMemory.
Lemma SyncCreateSystemCounter_no_memory_witness :
  SyncCreateSystemCounter (fun n _ => n <? 2)%nat demo_idle [] 0 4 XSyncCounterUnrestricted IdleTime = Undefined.
Proof. by apply (SyncCreateSystemCounter_no_memory (fun n _ => n <? 2)%nat demo_idle). Defined.
