(* ===== verification/SyncTyped.v ===== *)
(** * SyncTyped: the requests keep the links

    The invariant of SyncSafe.v says which cell every id and every link leads
    to.  From a state that satisfies it, the requests that do not set up a
    trigger run without undefined behaviour and lead to such a state again. *)

From S2P Require Import Prelude.
From S2P Require Import Wire.
From S2P Require Import Request.
From S2P Require Import Sync.
From S2P Require Import SyncRequest.
From S2P Require Import SyncAlarm.
From S2P Require Import SyncSafe.
From S2P Require Import SyncLive.

Section Typed.
Context `{SyncEnv} (al : allocator).
Implicit Types (st : SyncState) (o : SyncObject).



(** ** Looking up *)




(** ** New objects *)









(** ** Freeing an alarm *)










(** ** The requests *)










End Typed.

