(* ===== verification/Region.v ===== *)
(** * Region: the banded rectangle lists of [dix/region.c]

    A region is a set of points kept as a list of disjoint boxes in bands, with
    the smallest box around them.  The list is either in the region itself
    (a single box, the extents), in allocated memory, or one of two static
    values, for the empty region and for one that was lost to a failed
    allocation.

    The union, intersection and subtraction of the server are pixman's; this
    file has its own union only to make a region of a random list of boxes. *)

From S2P Require Import Prelude.

(** ** Data *)

(** [BoxRec] is pixman's box of 16-bit integers; a point is inside when it is
    not left of or above the box and left of [x2] and above [y2]. *)
Record BoxRec := MkBox { x1 : Z; y1 : Z; x2 : Z; y2 : Z }.
#[export] Instance eta_box : Settable BoxRec := fun b => MkBox (x1 b) (y1 b) (x2 b) (y2 b).
#[export] Instance box_eq : EqDecision BoxRec.
Proof. solve_decision. Defined.

(** What [reg->data] points to: nothing, [RegionEmptyData], [RegionBrokenData],
    or memory for [size] boxes of which the list is in use. *)
Inductive RegData := Null | EmptyData | BrokenData | Heap (size : Z) (rects : list BoxRec).
#[export] Instance regdata_eq : EqDecision RegData.
Proof. solve_decision. Defined.

Record RegionRec := MkRegion { extents : BoxRec; data : RegData }.
#[export] Instance eta_region : Settable RegionRec := fun r => MkRegion (extents r) (data r).

(** [dix/region.c: RegionEmptyBox 224-224] *)
Definition RegionEmptyBox : BoxRec := MkBox 0 0 0 0.
Definition INT_MAX : Z := 2147483647.
Definition MAXSHORT : Z := 32767.
Definition CT_YXBANDED : Z := 18.

(** [include/regionstr.h: RegionNar] *)
Definition RegionNar (r : RegionRec) : bool := bool_decide (data r = BrokenData).
(** [include/regionstr.h: RegionNumRects] *)
Definition RegionNumRects (r : RegionRec) : nat :=
  match data r with Null => 1 | Heap _ l => length l | _ => 0 end.
(** [include/regionstr.h: RegionSize] *)
Definition RegionSize (r : RegionRec) : Z := match data r with Heap s _ => s | _ => 0 end.
(** [include/regionstr.h: RegionRects] *)
Definition RegionRects (r : RegionRec) : list BoxRec :=
  match data r with Null => [extents r] | Heap _ l => l | _ => [] end.
(** The bytes for [n] boxes, or 0 when they are too many.
    [include/regionstr.h: RegionSizeof] *)
Definition RegionSizeof (n : Z) : Z := if n <? (INT_MAX - 16) / 8 then 16 + n * 8 else 0.

(** [dix/region.c: RegionBreak] *)
Definition RegionBreak (r : RegionRec) : RegionRec := MkRegion RegionEmptyBox BrokenData.

Section Region.
Context (al : allocator).
Implicit Types (b : BoxRec) (l : list BoxRec).

(** ** Memory *)

(** A call of [calloc] or [realloc] for [n] boxes; [k] counts the calls. *)
Definition box_alloc (k : nat) (n : Z) : bool * nat :=
  if RegionSizeof n >? 0 then (al k (RegionSizeof n), S k) else (false, k).

(** [dix/region.c: RegionRectAlloc] *)
Definition RegionRectAlloc (k : nat) (r : RegionRec) (n : Z) : bool * RegionRec * nat :=
  let '(n, l) :=
    match data r with
    | Null => (n + 1, [extents r])
    | Heap size l =>
        if size =? 0 then (n, [])
        else
          let m := Z.of_nat (length l) in
          ((if n =? 1 then if m >? 500 then 250 else m else n) + m, l)
    | _ => (n, [])
    end in
  let '(ok, k) := box_alloc k n in
  if ok then (true, r <| data := Heap n l |>, k) else (false, RegionBreak r, k).

(** Room for [n] more boxes.
    [dix/region.c: RECTALLOC 185-187] *)
Definition RECTALLOC (k : nat) (r : RegionRec) (n : Z) : bool * RegionRec * nat :=
  if bool_decide (data r = Null) || (Z.of_nat (RegionNumRects r) + n >? RegionSize r)
  then RegionRectAlloc k r n else (true, r, k).

(** Boxes written behind the last one; there must be memory. *)
Definition push (r : RegionRec) l : outcome RegionRec :=
  match data r with
  | Heap size l0 => Ret (r <| data := Heap size (l0 ++ l) |>)
  | _ => Undefined
  end.

(** What the procedures that build a region change: the region, the number of
    calls of the allocator, and [*pOverlap]. *)
Record building := MkBuild { reg : RegionRec; calls : nat; overlap : bool }.
#[export] Instance eta_building : Settable building := fun s => MkBuild (reg s) (calls s) (overlap s).
Implicit Types (s : building).

(** [dix/region.c: NEWRECT 198-209] *)
Definition NEWRECT s b : outcome (bool * building) :=
  let '(ok, r, k) :=
    if bool_decide (data (reg s) = Null) || (Z.of_nat (RegionNumRects (reg s)) =? RegionSize (reg s))
    then RegionRectAlloc (calls s) (reg s) 1 else (true, reg s, calls s) in
  if negb ok then Ret (false, MkBuild r k (overlap s))
  else r <-- push r [b]; Ret (true, MkBuild r k (overlap s)).

(** ** Bands *)

(** The boxes that begin at the same height as the first, and the others.
    [dix/region.c: FindBand 518-525] *)
Fixpoint same_top (y : Z) l : list BoxRec * list BoxRec :=
  match l with
  | [] => ([], [])
  | b :: l' => if y1 b =? y then let '(band, rest) := same_top y l' in (b :: band, rest) else ([], l)
  end.
Definition FindBand l : option (Z * list BoxRec * list BoxRec) :=
  match l with
  | [] => None
  | b :: l => let '(band, rest) := same_top (y1 b) l in Some (y1 b, b :: band, rest)
  end.

(** Whether two bands have boxes in the same places. *)
Fixpoint same_places (p c : list BoxRec) : bool :=
  match p, c with
  | [], _ => true
  | _, [] => false
  | bp :: p, bc :: c => (x1 bp =? x1 bc) && (x2 bp =? x2 bc) && same_places p c
  end.

(** The list and the start of the band to go on with: the last band is merged
    with the one before it when they touch and have boxes in the same places.
    [dix/region.c: RegionCoalesce] *)
Definition RegionCoalesce l (prevStart curStart : nat) : list BoxRec * nat :=
  let numRects := (curStart - prevStart)%nat in
  let prev := take numRects (drop prevStart l) in
  let cur := take numRects (drop curStart l) in
  match prev, cur with
  | bp :: _, bc :: _ =>
      if negb (y2 bp =? y1 bc) then (l, curStart)
      else if negb (same_places prev cur) then (l, curStart)
      else (take prevStart l ++ map (fun b => b <| y2 := y2 bc |>) prev
              ++ drop numRects (drop curStart l), prevStart)
  | _, _ => (l, curStart)
  end.

(** The start of the band to go on with, and the region.
    [dix/region.c: Coalesce 471-476] *)
Definition Coalesce (r : RegionRec) (prevBand curBand : nat) : RegionRec * nat :=
  let n := Z.of_nat (RegionNumRects r) in
  if (Z.of_nat curBand - Z.of_nat prevBand =? n - Z.of_nat curBand) then
    match data r with
    | Heap size l => let '(l, p) := RegionCoalesce l prevBand curBand in (r <| data := Heap size l |>, p)
    | _ => (r, curBand)
    end
  else (r, curBand).

(** [dix/region.c: RegionAppendNonO] *)
Definition RegionAppendNonO s l (top bot : Z) : outcome (bool * building) :=
  let '(ok, r, k) := RECTALLOC (calls s) (reg s) (Z.of_nat (length l)) in
  if negb ok then Ret (false, MkBuild r k (overlap s))
  else
    r <-- push r (map (fun b => MkBox (x1 b) top (x2 b) bot) l);
    Ret (true, MkBuild r k (overlap s)).

(** [dix/region.c: AppendRegions 527-536] *)
Definition AppendRegions s l : outcome (bool * building) :=
  match l with
  | [] => Ret (true, s)
  | _ =>
      let '(ok, r, k) := RECTALLOC (calls s) (reg s) (Z.of_nat (length l)) in
      if negb ok then Ret (false, MkBuild r k (overlap s))
      else r <-- push r l; Ret (true, MkBuild r k (overlap s))
  end.

(** ** The union of two bands *)

(** The next box from the left, and what is left of the lists. *)
Definition next_rect (r1 r2 : list BoxRec) : option (BoxRec * list BoxRec * list BoxRec) :=
  match r1, r2 with
  | [], [] => None
  | b1 :: r1', [] => Some (b1, r1', [])
  | [], b2 :: r2' => Some (b2, [], r2')
  | b1 :: r1', b2 :: r2' => if x1 b1 <? x1 b2 then Some (b1, r1', r2) else Some (b2, r1, r2')
  end.

(** Box [b] is merged with the current one, which reaches from [cx1] to [cx2],
    or becomes the current one.
    [dix/region.c: MERGERECT 865-876] *)
Definition MERGERECT s (cx1 cx2 top bot : Z) b : outcome (bool * building * Z * Z) :=
  if x1 b <=? cx2 then
    Ret (true, s <| overlap := overlap s || (x1 b <? cx2) |>, cx1, if cx2 <? x2 b then x2 b else cx2)
  else
    '(ok, s) <-- NEWRECT s (MkBox cx1 top cx2 bot);
    Ret (ok, s, x1 b, x2 b).

(** The turns: every one takes a box off one of the lists.
    [dix/region.c: RegionUnionO 921-944] *)
Fixpoint union_loop (n : nat) s (r1 r2 : list BoxRec) (cx1 cx2 top bot : Z) : outcome (bool * building) :=
  match next_rect r1 r2 with
  | None => NEWRECT s (MkBox cx1 top cx2 bot)
  | Some (b, r1, r2) =>
      match n with
      | O => Diverge
      | S n =>
          '(ok, s, cx1, cx2) <-- MERGERECT s cx1 cx2 top bot b;
          if negb ok then Ret (false, s) else union_loop n s r1 r2 cx1 cx2 top bot
      end
  end.

(** [dix/region.c: RegionUnionO 896-947] *)
Definition RegionUnionO s (r1 r2 : list BoxRec) (top bot : Z) : outcome (bool * building) :=
  match next_rect r1 r2 with
  | None => Undefined
  | Some (b, r1, r2) => union_loop (length r1 + length r2) s r1 r2 (x1 b) (x2 b) top bot
  end.

(** ** The generic operator *)

Section Op.
Context (overlapFunc : building -> list BoxRec -> list BoxRec -> Z -> Z -> outcome (bool * building))
        (appendNon1 appendNon2 : bool).

(** A band of one region alone, clipped to [top] and [bot].  The result of
    [RegionAppendNonO] is not looked at. *)
Definition op_alone s (append : bool) (prevBand : nat) band (top bot : Z) : outcome (building * nat) :=
  if append && negb (top =? bot) then
    let curBand := RegionNumRects (reg s) in
    '(_, s) <-- RegionAppendNonO s band top bot;
    let '(r, p) := Coalesce (reg s) prevBand curBand in Ret (s <| reg := r |>, p)
  else Ret (s, prevBand).

(** One turn over the bands at the heads of the lists.
    [dix/region.c: RegionOp 685-743] *)
Definition op_turn s (r1 r2 : list BoxRec) (ybot : Z) (prevBand : nat)
  : outcome (building * list BoxRec * list BoxRec * Z * nat) :=
  match FindBand r1, FindBand r2, r1, r2 with
  | Some (r1y1, band1, rest1), Some (r2y1, band2, rest2), b1 :: _, b2 :: _ =>
      '(s, prevBand, ytop) <--
        (if r1y1 <? r2y1 then
           '(s, p) <-- op_alone s appendNon1 prevBand band1 (Z.max r1y1 ybot) (Z.min (y2 b1) r2y1);
           Ret (s, p, r2y1)
         else if r2y1 <? r1y1 then
           '(s, p) <-- op_alone s appendNon2 prevBand band2 (Z.max r2y1 ybot) (Z.min (y2 b2) r1y1);
           Ret (s, p, r1y1)
         else Ret (s, prevBand, r1y1));
      let ybot := Z.min (y2 b1) (y2 b2) in
      '(s, prevBand) <--
        (if ybot >? ytop then
           let curBand := RegionNumRects (reg s) in
           '(_, s) <-- overlapFunc s band1 band2 ytop ybot;
           let '(r, p) := Coalesce (reg s) prevBand curBand in Ret (s <| reg := r |>, p)
         else Ret (s, prevBand));
      Ret (s, (if y2 b1 =? ybot then rest1 else r1), (if y2 b2 =? ybot then rest2 else r2), ybot, prevBand)
  | _, _, _, _ => Undefined
  end.

(** Every turn takes a band off one of the lists. *)
Fixpoint op_loop (n : nat) s (r1 r2 : list BoxRec) (ybot : Z) (prevBand : nat)
  : outcome (building * list BoxRec * list BoxRec * Z * nat) :=
  match n with
  | O => Diverge
  | S n =>
      '(s, r1, r2, ybot, prevBand) <-- op_turn s r1 r2 ybot prevBand;
      match r1, r2 with
      | _ :: _, _ :: _ => op_loop n s r1 r2 ybot prevBand
      | _, _ => Ret (s, r1, r2, ybot, prevBand)
      end
  end.

(** What is left of one region.  [false] when the rest did not fit.
    [dix/region.c: RegionOp 755-773] *)
Definition op_rest s l (ybot : Z) (prevBand : nat) : outcome (bool * building) :=
  match FindBand l, l with
  | Some (ry1, band, rest), b :: _ =>
      let curBand := RegionNumRects (reg s) in
      '(_, s) <-- RegionAppendNonO s band (Z.max ry1 ybot) (y2 b);
      let '(r, _) := Coalesce (reg s) prevBand curBand in
      AppendRegions (s <| reg := r |>) rest
  | _, _ => Undefined
  end.

(** [dix/region.c: DOWNSIZE 211-222] *)
Definition DOWNSIZE (k : nat) (r : RegionRec) (numRects : nat) : RegionRec * nat :=
  match data r with
  | Heap size l =>
      if (Z.of_nat numRects <? Z.shiftr size 1) && (size >? 50) then
        let '(ok, k) := box_alloc k (Z.of_nat numRects) in
        (if ok then r <| data := Heap (Z.of_nat numRects) l |> else r, k)
      else (r, k)
  | _ => (r, k)
  end.

(** The form of the region suits the number of its boxes.
    [dix/region.c: RegionOp 777-788] *)
Definition op_finish s : outcome building :=
  match data (reg s), RegionRects (reg s) with
  | Null, _ => Undefined
  | _, [] => Ret (s <| reg ::= fun r => r <| data := EmptyData |> |>)
  | _, [b] => Ret (s <| reg := MkRegion b Null |>)
  | _, l => let '(r, k) := DOWNSIZE (calls s) (reg s) (length l) in Ret (s <| reg := r |> <| calls := k |>)
  end.

(** The new region is emptied and gets room.  [alias1] and [alias2] tell
    whether it is one of the sources: their boxes are saved when there are
    several; a source that has its only box in memory would be overwritten
    while it is read.
    [dix/region.c: RegionOp 629-645] *)
Definition op_start s (alias1 alias2 : bool) (n1 n2 : nat) : outcome (bool * building) :=
  let saved := (alias1 && (1 <? n1)%nat) || (alias2 && (1 <? n2)%nat) in
  let in_place := (alias1 || alias2) && negb saved in
  let newSize := 2 * Z.max (Z.of_nat n1) (Z.of_nat n2) in
  let d := if saved then EmptyData else data (reg s) in
  match d with
  | Heap size l => if in_place && negb (size =? 0) then Undefined else
      let d := if size =? 0 then Heap size l else Heap size [] in
      if newSize >? size then
        let '(ok, r, k) := RegionRectAlloc (calls s) (reg s <| data := d |>) newSize in
        Ret (ok, s <| reg := r |> <| calls := k |>)
      else Ret (true, s <| reg ::= fun r => r <| data := d |> |>)
  | d =>
      let d := match d with Null => EmptyData | _ => d end in
      if newSize >? 0 then
        let '(ok, r, k) := RegionRectAlloc (calls s) (reg s <| data := d |>) newSize in
        Ret (ok, s <| reg := r |> <| calls := k |>)
      else Ret (true, s <| reg ::= fun r => r <| data := d |> |>)
  end.

(** [dix/region.c: RegionOp] *)
Definition RegionOp s (alias1 alias2 : bool) (reg1 reg2 : RegionRec) : outcome (bool * building) :=
  if RegionNar reg1 || RegionNar reg2 then Ret (false, s <| reg ::= RegionBreak |>)
  else
    let r1 := RegionRects reg1 in
    let r2 := RegionRects reg2 in
    '(ok, s) <-- op_start s alias1 alias2 (length r1) (length r2);
    if negb ok then Ret (false, s)
    else
      match r1, r2 with
      | b1 :: _, b2 :: _ =>
          '(s, r1, r2, ybot, prevBand) <--
            op_loop (length r1 + length r2) s r1 r2 (Z.min (y1 b1) (y1 b2)) 0;
          '(ok, s) <--
            match r1, r2 with
            | _ :: _, _ => if appendNon1 then op_rest s r1 ybot prevBand else Ret (true, s)
            | [], _ :: _ => if appendNon2 then op_rest s r2 ybot prevBand else Ret (true, s)
            | [], [] => Ret (true, s)
            end;
          if negb ok then Ret (false, s) else s <-- op_finish s; Ret (true, s)
      | _, _ => Undefined
      end.
End Op.

(** The smallest box around the boxes of the region.
    [dix/region.c: RegionSetExtents] *)
Definition RegionSetExtents (r : RegionRec) : outcome RegionRec :=
  match data r with
  | Null => Ret r
  | Heap size l =>
      if size =? 0 then Ret (r <| extents ::= fun e => e <| x2 := x1 e |> <| y2 := y1 e |> |>)
      else
        match l, last l with
        | b :: _, Some e =>
            let box := MkBox (x1 b) (y1 b) (x2 e) (y2 e) in
            Ret (r <| extents := fold_left (fun box b =>
              box <| x1 := if x1 b <? x1 box then x1 b else x1 box |>
                  <| x2 := if x2 b >? x2 box then x2 b else x2 box |>) l box |>)
        | _, _ => Undefined
        end
  | _ => Ret (r <| extents ::= fun e => e <| x2 := x1 e |> <| y2 := y1 e |> |>)
  end.

(** ** Batch union *)

(** The conditions under which boxes are known to follow in order: a box that
    begins below [last], or in the same band to the right of it. *)
Definition follows (first last : BoxRec) : bool :=
  (y1 first >? y2 last)
  || ((y1 first =? y1 last) && (y2 first =? y2 last) && (x1 first >? x2 last)).

(** The boxes of [rgn] are put behind or before those of [dst]; when the order
    is not known the extents of [dst] are made empty as a mark.
    [dix/region.c: RegionAppend] *)
Definition RegionAppend (k : nat) (dst rgn : RegionRec) : outcome (bool * RegionRec * nat) :=
  if RegionNar rgn then Ret (false, RegionBreak dst, k)
  else if bool_decide (data rgn = Null) && bool_decide (data dst = EmptyData) then
    Ret (true, MkRegion (extents rgn) Null, k)
  else
    let numRects := RegionNumRects rgn in
    if (numRects =? 0)%nat then Ret (true, dst, k)
    else
      let dnumRects := RegionNumRects dst in
      let size := Z.of_nat numRects in
      let size := if (dnumRects =? 0)%nat && (size <? 200) then 200 else size in
      let '(ok, dst, k) := RECTALLOC k dst size in
      if negb ok then Ret (false, dst, k)
      else
        let old := RegionRects rgn in
        let dold := RegionRects dst in
        let e := extents dst in
        let grow e := e <| x1 := if x1 (extents rgn) <? x1 e then x1 (extents rgn) else x1 e |>
                        <| x2 := if x2 (extents rgn) >? x2 e then x2 (extents rgn) else x2 e |> in
        '(prepend, e) <--
          (if (dnumRects =? 0)%nat then Ret (false, extents rgn)
           else if x2 e >? x1 e then
             match old, last dold, dold, last old with
             | ofirst :: _, Some dlast, dfirst :: _, Some olast =>
                 if follows ofirst dlast then Ret (false, grow e <| y2 := y2 (extents rgn) |>)
                 else if follows dfirst olast then Ret (true, grow e <| y1 := y1 (extents rgn) |>)
                 else Ret (false, e <| x2 := x1 e |>)
             | _, _, _, _ => Undefined
             end
           else Ret (false, e));
        match data dst with
        | Heap size l => Ret (true, MkRegion e (Heap size (if prepend : bool then old ++ l else l ++ old)), k)
        | _ => Undefined
        end.

(** ** Sorting *)

(** Two boxes of the array change places.
    [dix/region.c: ExchangeRects 1048-1054] *)
Definition ExchangeRects l (i j : nat) : outcome (list BoxRec) :=
  a <-? l !! i; b <-? l !! j; Ret (<[j := a]> (<[i := b]> l)).

(** The order of the array: by the top, then by the left side. *)
Definition before b c : bool := (y1 b <? y1 c) || ((y1 b =? y1 c) && (x1 b <? x1 c)).

(** [i] goes up to a box that is not before the partition element [p], or to
    the end; [j] goes down to one that is not after it.
    [dix/region.c: QuickSortRects 1083-1093] *)
Definition scan_up l p (i : nat) : nat + outcome nat :=
  let i := S i in
  if (i =? length l)%nat then inr (Ret i)
  else match l !! i with
       | Some b => if before b p then inl i else inr (Ret i)
       | None => inr Undefined
       end.
Definition scan_down l p (j : nat) : nat + outcome nat :=
  match j with
  | O => inr Undefined
  | S j =>
      match l !! j with
      | Some b => if before p b then inl j else inr (Ret j)
      | None => inr Undefined
      end
  end.

(** The loop that partitions the array; the result is the array and the last
    place of the lower part.
    [dix/region.c: QuickSortRects 1079-1096] *)
Definition partition_step p (s : list BoxRec * nat * nat)
  : (list BoxRec * nat * nat) + outcome (list BoxRec * nat) :=
  let '(l, i, j) := s in
  match (i <-- run_loop (scan_up l p) TURNS i;
         j <-- run_loop (scan_down l p) TURNS j;
         l <-- (if (i <? j)%nat then ExchangeRects l i j else Ret l);
         Ret (l, i, j)) with
  | Ret (l, i, j) => if (i <? j)%nat then inl (l, i, j) else inr (Ret (l, j))
  | FatalError => inr FatalError
  | Undefined => inr Undefined
  | Diverge => inr Diverge
  end.

(** The array of the call is the whole list; the upper part is sorted by the
    recursive call, the lower by the next turn.  Each call has a smaller array,
    so that its length bounds the depth.
    [dix/region.c: QuickSortRects] *)
Fixpoint QuickSortRects (fuel : nat) l : outcome (list BoxRec) :=
  match fuel with
  | O => Diverge
  | S fuel =>
      let numRects := length l in
      if (numRects =? 2)%nat then
        match l with
        | [a; b] => if before b a then Ret [b; a] else Ret [a; b]
        | _ => Undefined
        end
      else
        l <-- ExchangeRects l 0 (numRects / 2);
        p <-? head l;
        '(l, j) <-- run_loop (partition_step p) TURNS (l, 0%nat, numRects);
        l <-- ExchangeRects l 0 j;
        upper <-- (if (1 <? numRects - j - 1)%nat then QuickSortRects fuel (drop (S j) l) else Ret (drop (S j) l));
        lower <-- (if (1 <? j)%nat then QuickSortRects fuel (take j l) else Ret (take j l));
        Ret (lower ++ take 1 (drop j l) ++ upper)
  end.

(** ** A region of a random list *)

(** [dix/region.c: RegionValidate 1144-1148] *)
Record RegionInfo := MkRI { ri_reg : RegionRec; prevBand : nat; curBand : nat }.

(** Whether box [b] fits behind the last box of a region under construction:
    in its band, or in a new one.  A box that does not fit leaves the region
    as it is, [None].
    [dix/region.c: RegionValidate 1214-1246] *)
Definition scatter_fit (k : nat) (ov : bool) (rit : RegionInfo) b
  : outcome (option (bool * RegionInfo * bool * nat)) :=
  let r := ri_reg rit in
  match data r with
  | Heap size l =>
      match last l with
      | None => Undefined
      | Some riBox =>
          if (y1 b =? y1 riBox) && (y2 b =? y2 riBox) then
            if x1 b <=? x2 riBox then
              let riBox' := riBox <| x2 := if x2 b >? x2 riBox then x2 b else x2 riBox |> in
              Ret (Some (true, MkRI (r <| data := Heap size (removelast l ++ [riBox']) |>) (prevBand rit) (curBand rit),
                         ov || (x1 b <? x2 riBox), k))
            else
              let '(ok, r, k) := RECTALLOC k r 1 in
              if negb ok then Ret (Some (false, MkRI r (prevBand rit) (curBand rit), ov, k))
              else r <-- push r [b]; Ret (Some (true, MkRI r (prevBand rit) (curBand rit), ov, k))
          else if y1 b >=? y2 riBox then
            let r := r <| extents ::= fun e =>
                       e <| x2 := if x2 e <? x2 riBox then x2 riBox else x2 e |>
                         <| x1 := if x1 e >? x1 b then x1 b else x1 e |> |> in
            let '(r, p) := Coalesce r (prevBand rit) (curBand rit) in
            let c := RegionNumRects r in
            let '(ok, r, k) := RECTALLOC k r 1 in
            if negb ok then Ret (Some (false, MkRI r p c, ov, k))
            else r <-- push r [b]; Ret (Some (true, MkRI r p c, ov, k))
          else Ret None
      end
  | _ => Undefined
  end.

(** The first region that takes the box; [None] when there is none. *)
Fixpoint scatter_box (k : nat) (ov : bool) (ri : list RegionInfo) b
  : outcome (option (bool * list RegionInfo * bool * nat)) :=
  match ri with
  | [] => Ret None
  | rit :: ri =>
      fit <-- scatter_fit k ov rit b;
      match fit with
      | Some (ok, rit, ov, k) => Ret (Some (ok, rit :: ri, ov, k))
      | None =>
          o <-- scatter_box k ov ri b;
          match o with
          | Some (ok, ri, ov, k) => Ret (Some (ok, rit :: ri, ov, k))
          | None => Ret None
          end
      end
  end.

(** The boxes after the first, in order; as many as [i] are left.  A box that
    no region takes begins a new one.  [None] is the jump to [bail].
    [dix/region.c: RegionValidate 1209-1267] *)
Fixpoint scatter (k : nat) (ov : bool) (sizeRI : Z) (ri : list RegionInfo) l
  : outcome (option (list RegionInfo * bool) * nat) :=
  match l with
  | [] => Ret (Some (ri, ov), k)
  | b :: rest =>
      o <-- scatter_box k ov ri b;
      match o with
      | Some (ok, ri, ov, k) => if negb ok then Ret (None, k) else scatter k ov sizeRI ri rest
      | None =>
          let numRI := Z.of_nat (length ri) in
          let '(ok, k, sizeRI) :=
            if sizeRI =? numRI then (al k (2 * sizeRI * 24), S k, 2 * sizeRI) else (true, k, sizeRI) in
          if negb ok then Ret (None, k)
          else
            let '(ok, r, k) := RegionRectAlloc k (MkRegion b Null) ((Z.of_nat (length l) + (numRI + 1)) / (numRI + 1)) in
            if negb ok then Ret (None, k) else scatter k ov sizeRI (ri ++ [MkRI r 0 0]) rest
      end
  end.

(** The last band of each region is coalesced and the extents are completed.
    [dix/region.c: RegionValidate 1272-1284] *)
Definition scatter_finish (rit : RegionInfo) : outcome RegionRec :=
  match data (ri_reg rit) with
  | Heap size l =>
      riBox <-? last l;
      let r := ri_reg rit <| extents ::= fun e =>
                 e <| y2 := y2 riBox |> <| x2 := if x2 e <? x2 riBox then x2 riBox else x2 e |> |> in
      let '(r, _) := Coalesce r (prevBand rit) (curBand rit) in
      if (RegionNumRects r =? 1)%nat then Ret (r <| data := Null |>) else Ret r
  | _ => Undefined
  end.

Fixpoint mapO {A B} (f : A -> outcome B) (l : list A) : outcome (list B) :=
  match l with [] => Ret [] | a :: l => b <-- f a; l <-- mapO f l; Ret (b :: l) end.

(** Region [reg] becomes its union with [hreg].
    [dix/region.c: RegionValidate 1291-1303] *)
Definition validate_union (k : nat) (ov ret : bool) (r h : RegionRec) : outcome (RegionRec * bool * bool * nat) :=
  '(ok, s) <-- RegionOp RegionUnionO true true (MkBuild r k ov) true false r h;
  let e := extents (reg s) in
  let e := MkBox (Z.min (x1 (extents h)) (x1 e)) (Z.min (y1 (extents h)) (y1 e))
                 (Z.max (x2 (extents h)) (x2 e)) (Z.max (y2 (extents h)) (y2 e)) in
  Ret (reg s <| extents := e |>, overlap s, ret && ok, calls s).

Fixpoint validate_pairs (k : nat) (ov ret : bool) (rs hs : list RegionRec)
  : outcome (list RegionRec * bool * bool * nat) :=
  match rs, hs with
  | r :: rs, h :: hs =>
      '(r, ov, ret, k) <-- validate_union k ov ret r h;
      '(rs, ov, ret, k) <-- validate_pairs k ov ret rs hs;
      Ret (r :: rs, ov, ret, k)
  | _, _ => Ret ([], ov, ret, k)
  end.

(** The regions are united in pairs until one is left; each turn halves their
    number.
    [dix/region.c: RegionValidate 1286-1306] *)
Fixpoint validate_merge (fuel : nat) (k : nat) (ov ret : bool) (rs : list RegionRec)
  : outcome (RegionRec * bool * bool * nat) :=
  match rs, fuel with
  | [], _ => Undefined
  | [r], _ => Ret (r, ov, ret, k)
  | _, O => Diverge
  | _, S fuel =>
      let numRI := length rs in
      let half := (numRI / 2)%nat in
      let odd := (numRI mod 2)%nat in
      '(us, ov, ret, k) <-- validate_pairs k ov ret (take half (drop odd rs)) (drop (odd + half) rs);
      validate_merge fuel k ov ret (take odd rs ++ us)
  end.

(** The region that is made of a list of boxes that is not in order, which
    empty extents mark; with it whether it was successful and [*pOverlap].  The
    first region under construction has the array that is being read; it never
    gets ahead of the reading, so that it has a list of its own here.  At
    [bail] the array is freed as that region's and again as [badreg]'s.
    [dix/region.c: RegionValidate] *)
Definition RegionValidate (k : nat) (badreg : RegionRec) : outcome (bool * RegionRec * bool * nat) :=
  match data badreg with
  | Null => Ret (true, badreg, false, k)
  | BrokenData => Ret (false, badreg, false, k)
  | EmptyData => Ret (true, badreg, false, k)
  | Heap size [] => Ret (true, badreg, false, k)
  | Heap size l =>
      if x1 (extents badreg) <? x2 (extents badreg) then
        if (length l =? 1)%nat then Ret (true, badreg <| data := Null |>, false, k)
        else let '(r, k) := DOWNSIZE k badreg (length l) in Ret (true, r, false, k)
      else
        l <-- QuickSortRects (length l) l;
        let '(ok, k) := (al k (4 * 24), S k) in
        if negb ok then Ret (false, RegionBreak badreg, false, k)
        else
          match l with
          | [] => Undefined
          | box :: rest =>
              '(o, k) <-- scatter k false 4 [MkRI (MkRegion box (Heap size [box])) 0 0] rest;
              match o with
              | None => Undefined
              | Some (ri, ov) =>
                  rs <-- mapO scatter_finish ri;
                  '(r, ov, ret, k) <-- validate_merge (length rs) k ov true rs;
                  Ret (ret, r, ov, k)
              end
          end
  end.

(** ** Regions of rectangles *)

(** [include/regionstr.h: RegionInit] *)
Definition RegionInit (k : nat) (rect : option BoxRec) (size : Z) : RegionRec * nat :=
  match rect with
  | Some b => (MkRegion b Null, k)
  | None =>
      if (size >? 1) && (RegionSizeof size >? 0) then
        (MkRegion RegionEmptyBox (if al k (RegionSizeof size) then Heap size [] else EmptyData), S k)
      else (MkRegion RegionEmptyBox EmptyData, k)
  end.

(** Without memory the static broken region.
    [dix/region.c: RegionCreate] *)
Definition RegionCreate (k : nat) (rect : option BoxRec) (size : Z) : RegionRec * nat :=
  if al k 16 then RegionInit (S k) rect size else (MkRegion RegionEmptyBox BrokenData, S k).

(** [pixman_region_copy] is the parameter [RegionCopy].
    [dix/region.c: RegionDuplicate] *)
Definition RegionDuplicate (RegionCopy : nat -> RegionRec -> RegionRec -> bool * RegionRec * nat)
    (k : nat) (old : RegionRec) : option RegionRec * nat :=
  let '(new, k) := RegionCreate k (Some (extents old)) 0 in
  let '(ok, new, k) := RegionCopy k new old in
  (if ok then Some new else None, k).

Record xRectangle := MkRect { rx : Z; ry : Z; rwidth : Z; rheight : Z }.

(** The box of a rectangle, cut off at the largest coordinate; an empty one has
    none.
    [dix/region.c: RegionFromRects 1358-1368] *)
Definition rect_box (q : xRectangle) : option BoxRec :=
  let x2 := Z.min (rx q + rwidth q) MAXSHORT in
  let y2 := Z.min (ry q + rheight q) MAXSHORT in
  if negb (rx q =? x2) && negb (ry q =? y2) then Some (MkBox (rx q) (ry q) x2 y2) else None.

(** [dix/region.c: RegionFromRects] *)
Definition RegionFromRects (k : nat) (prect : list xRectangle) (ctype : Z) : outcome (RegionRec * nat) :=
  let '(rgn, k) := RegionCreate k None 0 in
  if RegionNar rgn then Ret (rgn, k)
  else
    match prect with
    | [] => Ret (rgn, k)
    | [q] => Ret (match rect_box q with Some b => MkRegion b Null | None => rgn end, k)
    | _ =>
        let nrects := Z.of_nat (length prect) in
        let '(ok, k) := box_alloc k nrects in
        if negb ok then Ret (RegionBreak rgn, k)
        else
          match omap rect_box prect with
          | [] => Ret (rgn, k)
          | l =>
              let rgn := rgn <| data := Heap nrects l |> in
              if negb (ctype =? CT_YXBANDED) then
                '(_, rgn, _, k) <-- RegionValidate k (rgn <| extents ::= fun e => e <| x1 := 0 |> <| x2 := 0 |> |>);
                Ret (rgn, k)
              else rgn <-- RegionSetExtents rgn; Ret (rgn, k)
          end
    end.

(** The check that debugging builds make.
    [dix/region.c: RegionIsValid 316-331] *)
Fixpoint valid_from b l (box : BoxRec) : option BoxRec :=
  match l with
  | [] => Some box
  | n :: l =>
      if (x1 n >=? x2 n) || (y1 n >=? y2 n) then None
      else
        let box := box <| x1 := if x1 n <? x1 box then x1 n else x1 box |>
                       <| x2 := if x2 n >? x2 box then x2 n else x2 box |> in
        if (y1 n <? y1 b) || ((y1 n =? y1 b) && ((x1 n <? x2 b) || negb (y2 n =? y2 b))) then None
        else valid_from n l box
  end.

(** [dix/region.c: RegionIsValid] *)
Definition RegionIsValid (r : RegionRec) : bool :=
  let e := extents r in
  if (x1 e >? x2 e) || (y1 e >? y2 e) then false
  else
    match RegionRects r, last (RegionRects r) with
    | [], _ => (x1 e =? x2 e) && (y1 e =? y2 e) &&
               (negb (RegionSize r =? 0) || bool_decide (data r = EmptyData))
    | [_], _ => bool_decide (data r = Null)
    | b :: l, Some z =>
        match valid_from b l (b <| y2 := y2 z |>) with
        | None => false
        | Some box => bool_decide (box = e)
        end
    | _, None => false
    end.
End Region.
