(* ===== verification/RegionSort.v ===== *)
(** * RegionSort: the array sort of [dix/region.c]

    [QuickSortRects] of Region.v ends with the array in order, without leaving
    it. *)

From S2P Require Import Prelude.
From S2P Require Import Region.
From Stdlib Require Import Sorting.Sorted Permutation.

(** ** The order *)

(** Not after: the order of the array. *)
Definition box_le (b c : BoxRec) : Prop := before c b = false.

Lemma box_le_spec b c : box_le b c <-> y1 b < y1 c \/ (y1 b = y1 c /\ x1 b <= x1 c).
Proof.
  unfold box_le, before. destruct (Z.ltb_spec (y1 c) (y1 b)), (Z.eqb_spec (y1 c) (y1 b)), (Z.ltb_spec (x1 c) (x1 b)); cbn;
    split; try done; try lia.
Qed.
Lemma before_spec b c : before b c = true <-> y1 b < y1 c \/ (y1 b = y1 c /\ x1 b < x1 c).
Proof.
  unfold before. destruct (Z.ltb_spec (y1 b) (y1 c)), (Z.eqb_spec (y1 b) (y1 c)), (Z.ltb_spec (x1 b) (x1 c)); cbn;
    split; try done; try lia.
Qed.
Lemma before_le b c : before b c = true -> box_le b c.
Proof. rewrite before_spec, box_le_spec. lia. Qed.
#[export] Instance box_le_trans : Transitive box_le.
Proof. intros a b c. rewrite !box_le_spec. lia. Qed.
#[export] Instance box_le_refl : Reflexive box_le.
Proof. intros a. rewrite box_le_spec. lia. Qed.

(** ** Exchanging *)

Lemma ExchangeRects_spec l i j :
  (i < length l)%nat -> (j < length l)%nat ->
  exists l', ExchangeRects l i j = Ret l' /\ l' ≡ₚ l /\
    forall k, l' !! k = if decide (k = j) then l !! i else if decide (k = i) then l !! j else l !! k.
Proof.
  intros Hi Hj. destruct (lookup_lt_is_Some_2 l i Hi) as [a Ha]. destruct (lookup_lt_is_Some_2 l j Hj) as [b Hb].
  unfold ExchangeRects. rewrite Ha. cbn [obind_opt]. rewrite Hb. cbn [obind_opt]. eexists. split; [reflexivity|]. split.
  - apply Permutation_inj. split; [by rewrite !length_insert|].
    exists (fun k => if decide (k = j) then i else if decide (k = i) then j else k). split.
    + intros x y. repeat case_decide; congruence.
    + intros k. repeat case_decide; subst.
      * by rewrite list_lookup_insert_eq, Ha by (rewrite length_insert; done).
      * rewrite list_lookup_insert_ne by done. by rewrite list_lookup_insert_eq, Hb.
      * by rewrite !list_lookup_insert_ne.
  - intros k. repeat case_decide; subst.
    + by rewrite list_lookup_insert_eq by (rewrite length_insert; done).
    + rewrite list_lookup_insert_ne by done. by rewrite list_lookup_insert_eq.
    + by rewrite !list_lookup_insert_ne.
Qed.

(** ** Scanning *)

Lemma scan_up_spec l p i :
  (i < length l)%nat -> Z.of_nat (length l) < Zpos TURNS ->
  exists i', run_loop (scan_up l p) TURNS i = Ret i' /\ (i < i' <= length l)%nat /\
    (forall k b, (i < k < i')%nat -> l !! k = Some b -> before b p = true) /\
    (forall b, l !! i' = Some b -> before b p = false).
Proof.
  intros Hi Hlen.
  destruct (run_loop_ranked (scan_up l p)
    (fun n i0 => n = (length l - i0)%nat /\ (i <= i0 < length l)%nat /\
       forall k b, (i < k <= i0)%nat -> l !! k = Some b -> before b p = true)
    (fun i' => (i < i' <= length l)%nat /\
       (forall k b, (i < k < i')%nat -> l !! k = Some b -> before b p = true) /\
       (forall b, l !! i' = Some b -> before b p = false))
    TURNS (length l - i) i) as (i' & Hr & Hp); [| |lia|by exists i'].
  - intros n i0 (-> & Hi0 & Hk). unfold scan_up. destruct (Nat.eqb_spec (S i0) (length l)) as [E|E].
    + split; [lia|]. split.
      * intros k b Hkk Hb. apply (Hk k b); [lia|done].
      * intros b Hb. apply lookup_lt_Some in Hb. lia.
    + destruct (lookup_lt_is_Some_2 l (S i0)) as [b Hb]; [lia|]. rewrite Hb. destruct (before b p) eqn:Hbp.
      * exists (length l - S i0)%nat. split; [lia|]. split; [done|]. split; [lia|].
        intros k b' Hkk Hb'. destruct (decide (k = S i0)) as [->|]; [congruence|]. apply (Hk k b'); [lia|done].
      * split; [lia|]. split.
        -- intros k b' Hkk Hb'. apply (Hk k b'); [lia|done].
        -- intros b' Hb'. congruence.
  - split; [done|]. split; [lia|]. intros k b Hk. lia.
Qed.

Lemma scan_down_spec l p j :
  (0 < j <= length l)%nat -> Z.of_nat (length l) < Zpos TURNS -> l !! 0%nat = Some p ->
  exists j', run_loop (scan_down l p) TURNS j = Ret j' /\ (j' < j)%nat /\
    (forall k b, (j' < k < j)%nat -> l !! k = Some b -> before p b = true) /\
    (forall b, l !! j' = Some b -> before p b = false).
Proof.
  intros Hj Hlen Hp.
  destruct (run_loop_ranked (scan_down l p)
    (fun n j0 => n = j0 /\ (0 < j0 <= j)%nat /\ forall k b, (j0 <= k < j)%nat -> l !! k = Some b -> before p b = true)
    (fun j' => (j' < j)%nat /\ (forall k b, (j' < k < j)%nat -> l !! k = Some b -> before p b = true) /\
       (forall b, l !! j' = Some b -> before p b = false))
    TURNS j j) as (j' & Hr & Hpost); [| |lia|by exists j'].
  - intros n j0 (-> & Hj0 & Hk). destruct j0 as [|j0]; [lia|]. unfold scan_down.
    destruct (lookup_lt_is_Some_2 l j0) as [b Hb]; [lia|]. rewrite Hb. destruct (before p b) eqn:Hbp.
    + exists j0. split; [lia|]. split; [done|]. split.
      * split; [|lia]. destruct j0; [|lia]. rewrite Hp in Hb. injection Hb as <-. exfalso.
        apply before_spec in Hbp. lia.
      * intros k b' Hkk Hb'. destruct (decide (k = j0)) as [->|]; [congruence|]. apply (Hk k b'); [lia|done].
    + split; [lia|]. split.
      * intros k b' Hkk Hb'. apply (Hk k b'); [lia|done].
      * intros b' Hb'. congruence.
  - split; [done|]. split; [lia|]. intros k b Hkk. lia.
Qed.

(** ** Partitioning *)

(** The places up to [i] are not after the partition element, those from [j]
    on not before it. *)
Record parted (l0 : list BoxRec) (p : BoxRec) (l : list BoxRec) (i j : nat) : Prop := {
  pt_perm : l ≡ₚ l0;
  pt_zero : l !! 0%nat = Some p;
  pt_low : forall k b, (1 <= k <= i)%nat -> l !! k = Some b -> box_le b p;
  pt_high : forall k b, (j <= k)%nat -> l !! k = Some b -> box_le p b
}.

Lemma partition_turn l0 p l i j :
  parted l0 p l i j -> (i < j <= length l)%nat -> Z.of_nat (length l) < Zpos TURNS ->
  match partition_step p (l, i, j) with
  | inl (l', i', j') => parted l0 p l' i' j' /\ (i' < j' < j)%nat
  | inr (Ret (l', j')) => parted l0 p l' j' (S j') /\ (j' < length l)%nat
  | _ => False
  end.
Proof.
  intros [Hperm Hz Hlow Hhigh] Hij Hlen. unfold partition_step.
  destruct (scan_up_spec l p i ltac:(lia) Hlen) as (i' & -> & Hi & Hup & Hi'). cbn [obind].
  destruct (scan_down_spec l p j ltac:(lia) Hlen Hz) as (j' & -> & Hj & Hdown & Hj'). cbn [obind].
  destruct (Nat.ltb_spec i' j') as [Hlt|Hge]; cbn [obind].
  - destruct (ExchangeRects_spec l i' j' ltac:(lia) ltac:(lia)) as (l' & -> & Hp' & Hk). cbn [obind].
    destruct (Nat.ltb_spec i' j'); [|lia]. split; [|lia]. split.
    + by rewrite Hp'.
    + rewrite Hk. by rewrite !decide_False by lia.
    + intros k b Hki. rewrite Hk, decide_False by lia. case_decide as E; [intros Hb; by apply Hj'|].
      intros Hb. destruct (decide (k <= i)%nat); [by apply (Hlow k); [lia|]|]. apply before_le, (Hup k); [lia|done].
    + intros k b Hkj. rewrite Hk. case_decide as E; [intros Hb; by apply Hi'|]. rewrite decide_False by lia.
      intros Hb. destruct (decide (j <= k)%nat); [by apply (Hhigh k); [lia|]|]. apply before_le, (Hdown k); [lia|done].
  - destruct (Nat.ltb_spec i' j'); [lia|]. split; [|lia]. split; try done.
    + intros k b Hkj Hb. destruct (decide (k <= i)%nat); [by apply (Hlow k); [lia|]|].
      destruct (decide (k < i')%nat); [apply before_le, (Hup k); [lia|done]|]. assert (k = j') as -> by lia. by apply Hj'.
    + intros k b Hkj Hb. destruct (decide (j <= k)%nat); [by apply (Hhigh k); [lia|]|].
      apply before_le, (Hdown k); [lia|done].
Qed.

Lemma partition_spec l p :
  l !! 0%nat = Some p -> Z.of_nat (length l) < Zpos TURNS ->
  exists l' j, run_loop (partition_step p) TURNS (l, 0%nat, length l) = Ret (l', j) /\
    parted l p l' j (S j) /\ (j < length l)%nat.
Proof.
  intros Hz Hlen.
  destruct (run_loop_ranked (partition_step p)
    (fun n '(l', i, j) => n = j /\ parted l p l' i j /\ (i < j <= length l)%nat)
    (fun '(l', j) => parted l p l' j (S j) /\ (j < length l)%nat) TURNS (length l) (l, 0%nat, length l))
    as ([l' j] & Hr & Hp); [| |lia|by exists l', j].
  - intros n [[l' i] j] (-> & Hpt & Hij). pose proof (Permutation_length (pt_perm _ _ _ _ _ Hpt)) as El.
    pose proof (partition_turn l p l' i j Hpt ltac:(lia) ltac:(lia)) as Ht.
    destruct (partition_step p (l', i, j)) as [[[l1 i1] j1]|[[l1 j1]| | |]]; try done.
    + destruct Ht as [Ht1 Ht2]. exists j1. split; [lia|]. split; [done|]. split; [done|]. lia.
    + destruct Ht as [Ht1 Ht2]. split; [done|]. lia.
  - apply lookup_lt_Some in Hz as Hl. split; [done|]. split; [|lia]. split; try done.
    + intros k b Hk. lia.
    + intros k b Hk Hb. apply lookup_lt_Some in Hb. lia.
Qed.

(** ** Sorting *)

Lemma quick_spec fuel l :
  (length l <= fuel)%nat -> l <> [] -> Z.of_nat (length l) < Zpos TURNS ->
  exists l', QuickSortRects fuel l = Ret l' /\ l' ≡ₚ l /\ StronglySorted box_le l'.
Proof.
  revert l. induction fuel as [|fuel IH]; intros l Hf Hne Hlen; [by destruct l; [|cbn in Hf; lia]|].
  cbn [QuickSortRects]. destruct (Nat.eqb_spec (length l) 2) as [E2|E2].
  { destruct l as [|a [|b [|]]]; try done. destruct (before b a) eqn:Hb; eexists; (split; [reflexivity|]); split;
      [constructor|by repeat constructor; apply before_le|done|by repeat constructor]. }
  assert (Hpos : (0 < length l)%nat) by (destruct l; [done|cbn; lia]).
  assert (Hmid : (length l / 2 < length l)%nat) by (apply Nat.div_lt; lia).
  destruct (ExchangeRects_spec l 0 (length l / 2) Hpos Hmid) as (l1 & -> & Hp1 & _). cbn [obind].
  pose proof (Permutation_length Hp1) as El1. rewrite <- El1.
  destruct l1 as [|p l1']; [cbn in El1; lia|]. cbn [head obind_opt].
  destruct (partition_spec (p :: l1') p eq_refl ltac:(lia)) as (l2 & j & -> & [Hp2 Hz Hlow Hhigh] & Hj). cbn [obind].
  pose proof (Permutation_length Hp2) as El2.
  destruct (ExchangeRects_spec l2 0 j ltac:(lia) ltac:(lia)) as (l3 & -> & Hp3 & Hk). cbn [obind].
  pose proof (Permutation_length Hp3) as El3.
  assert (Hlo : Forall (fun b => box_le b p) (take j l3)).
  { apply Forall_forall. intros b Hb. apply list_elem_of_lookup in Hb as [k Hb]. apply lookup_take_Some in Hb as [Hb Hkj].
    rewrite Hk, decide_False in Hb by lia. case_decide as E0.
    - apply (Hlow j b); [lia|done].
    - apply (Hlow k b); [lia|done]. }
  assert (Hhi : Forall (box_le p) (drop (S j) l3)).
  { apply Forall_forall. intros b Hb. apply list_elem_of_lookup in Hb as [k Hb]. rewrite lookup_drop in Hb.
    rewrite Hk, !decide_False in Hb by lia. apply (Hhigh (S j + k)%nat b); [lia|done]. }
  assert (Hat : l3 !! j = Some p) by (by rewrite Hk, decide_True).
  assert (Esplit : l3 = take j l3 ++ p :: drop (S j) l3) by (symmetry; by apply take_drop_middle).
  assert (Hsort : forall m, (length m < length l)%nat -> exists m', (if (1 <? length m)%nat then QuickSortRects fuel m else Ret m) = Ret m'
    /\ m' ≡ₚ m /\ StronglySorted box_le m').
  { intros m Hm. destruct (Nat.ltb_spec 1 (length m)) as [Hm1|Hm1].
    - destruct (IH m) as (m' & -> & Hpm & Hsm); [lia|intros ->; cbn in Hm1; lia|lia|]. by exists m'.
    - exists m. split; [done|]. split; [done|]. destruct m as [|a [|]]; [constructor|by repeat constructor|cbn in Hm1; lia]. }
  assert (Hsu := Hsort (drop (S j) l3)). rewrite length_drop in Hsu. rewrite El3, El2 in Hsu.
  replace (length (p :: l1') - j - 1)%nat with (length (p :: l1') - S j)%nat by lia.
  destruct (Hsu ltac:(lia)) as (up & -> & Hpu & Hsu'). cbn [obind].
  assert (Hsl := Hsort (take j l3)). rewrite length_take_le in Hsl by lia.
  destruct (Hsl ltac:(lia)) as (lo & -> & Hpl & Hsl'). cbn [obind].
  assert (Emid : take 1 (drop j l3) = [p]) by (by rewrite (drop_S l3 p j Hat)).
  rewrite Emid. eexists. split; [reflexivity|]. split.
  - rewrite Hpl, Hpu. change ([p] ++ drop (S j) l3) with (p :: drop (S j) l3). rewrite <- Esplit. by rewrite Hp3, Hp2.
  - rewrite <- Hpl in Hlo. rewrite <- Hpu in Hhi. clear -Hsl' Hsu' Hlo Hhi.
    induction lo as [|b lo IHl]; cbn; [by constructor|]. inversion_clear Hsl' as [|? ? Hs Hb]. inversion_clear Hlo as [|? ? Hbp Hlo'].
    constructor; [by apply IHl|]. apply Forall_app. split; [done|]. constructor; [done|].
    eapply Forall_impl; [exact Hhi|]. intros c Hc. by transitivity p.
Qed.
