(* ===== verification/RegionBand.v ===== *)
(** * RegionBand: bands, spans and the points they cover

    The abstract view of a region: bands from top to bottom, each with the
    spans that its boxes cover.  A region in order is the only one of its set
    of points. *)

From S2P Require Import Prelude.
From S2P Require Import Region.

(** ** Points *)

Definition inside (b : BoxRec) (x y : Z) : bool := (x1 b <=? x) && (x <? x2 b) && (y1 b <=? y) && (y <? y2 b).
(** How many boxes a point is in. *)
Definition mult (l : list BoxRec) (x y : Z) : nat := length (filter (fun b => inside b x y = true) l).

#[global] Arguments mult : simpl never.
Lemma mult_nil x y : mult [] x y = 0%nat.
Proof. done. Qed.
Lemma mult_app l l' x y : mult (l ++ l') x y = (mult l x y + mult l' x y)%nat.
Proof. unfold mult. by rewrite filter_app, length_app. Qed.
Lemma mult_cons b l x y : mult (b :: l) x y = ((if inside b x y then 1 else 0) + mult l x y)%nat.
Proof. unfold mult. rewrite filter_cons. destruct (inside b x y) eqn:E; [by rewrite decide_True|by rewrite decide_False]. Qed.
#[export] Instance mult_perm : Proper (Permutation ==> eq ==> eq ==> eq) mult.
Proof. intros l l' Hl x ? <- y ? <-. unfold mult. by rewrite Hl. Qed.

(** ** Spans *)

Notation span := (Z * Z)%type.
Definition in_span (s : span) (x : Z) : bool := (s.1 <=? x) && (x <? s.2).
Definition smult (l : list span) (x : Z) : nat := length (filter (fun s => in_span s x = true) l).

#[global] Arguments smult : simpl never.
Lemma smult_nil x : smult [] x = 0%nat.
Proof. done. Qed.
Lemma smult_app l l' x : smult (l ++ l') x = (smult l x + smult l' x)%nat.
Proof. unfold smult. by rewrite filter_app, length_app. Qed.
Lemma smult_cons s l x : smult (s :: l) x = ((if in_span s x then 1 else 0) + smult l x)%nat.
Proof. unfold smult. rewrite filter_cons. destruct (in_span s x) eqn:E; [by rewrite decide_True|by rewrite decide_False]. Qed.
#[export] Instance smult_perm : Proper (Permutation ==> eq ==> eq) smult.
Proof. intros l l' Hl x ? <-. unfold smult. by rewrite Hl. Qed.

Lemma in_span_spec s x : in_span s x = true <-> s.1 <= x < s.2.
Proof. unfold in_span. rewrite andb_true_iff, Z.leb_le, Z.ltb_lt. done. Qed.
Lemma in_span_false s x : in_span s x = false <-> ~ s.1 <= x < s.2.
Proof. rewrite <- in_span_spec. by destruct (in_span s x). Qed.

(** Spans from left to right with space between them, all right of [lo]. *)
Fixpoint separated (lo : Z) (l : list span) : Prop :=
  match l with [] => True | s :: l => lo < s.1 /\ s.1 < s.2 /\ separated s.2 l end.

Lemma separated_weaken lo lo' l : lo' <= lo -> separated lo l -> separated lo' l.
Proof. destruct l as [|s l]; [done|]. cbn. intros ? (?&?&?). split; [lia|done]. Qed.

Lemma separated_right lo l x : separated lo l -> x <= lo -> smult l x = 0%nat.
Proof.
  revert lo. induction l as [|s l IH]; intros lo; [done|]. cbn. intros (H1 & H2 & H3) Hx. rewrite smult_cons.
  rewrite (proj2 (in_span_false s x)) by lia. cbn. apply (IH s.2); [done|lia].
Qed.
Lemma separated_once lo l x : separated lo l -> (smult l x <= 1)%nat.
Proof.
  revert lo. induction l as [|s l IH]; intros lo; [rewrite smult_nil; lia|]. cbn. intros (H1 & H2 & H3). rewrite smult_cons.
  destruct (in_span s x) eqn:E; [|by apply (IH s.2)].
  apply in_span_spec in E. rewrite (separated_right s.2 l x H3); lia.
Qed.

(** Separated spans are determined by their points. *)
Lemma separated_unique lo lo' l l' :
  separated lo l -> separated lo' l' -> (forall x, smult l x = smult l' x) -> l = l'.
Proof.
  revert lo lo' l'. induction l as [|[a b] l IH]; intros lo lo' [|[a' b'] l'] H H' E; [done|..].
  - cbn in H'. specialize (E a'). rewrite smult_cons, (proj2 (in_span_spec _ a')) in E by (cbn; lia). done.
  - cbn in H. specialize (E a). rewrite smult_cons, (proj2 (in_span_spec _ a)) in E by (cbn; lia). done.
  - cbn in H, H'. destruct H as (H1 & H2 & H3), H' as (H1' & H2' & H3').
    assert (Ea : a = a').
    { destruct (Z.lt_trichotomy a a') as [Hlt|[?|Hlt]]; [|done|]; exfalso.
      - specialize (E a). rewrite !smult_cons, (proj2 (in_span_spec (a, b) a)), (proj2 (in_span_false (a', b') a)) in E by (cbn; lia).
        rewrite (separated_right b' l' a H3') in E by lia. done.
      - specialize (E a'). rewrite !smult_cons, (proj2 (in_span_spec (a', b') a')), (proj2 (in_span_false (a, b) a')) in E by (cbn; lia).
        rewrite (separated_right b l a' H3) in E by lia. done. }
    subst a'.
    assert (Eb : b = b').
    { destruct (Z.lt_trichotomy b b') as [Hlt|[?|Hlt]]; [|done|]; exfalso.
      - specialize (E b). rewrite !smult_cons, (proj2 (in_span_spec (a, b') b)), (proj2 (in_span_false (a, b) b)) in E by (cbn; lia).
        rewrite (separated_right b l b H3) in E by lia. done.
      - specialize (E b'). rewrite !smult_cons, (proj2 (in_span_spec (a, b) b')), (proj2 (in_span_false (a, b') b')) in E by (cbn; lia).
        rewrite (separated_right b' l' b' H3') in E by lia. done. }
    subst b'. f_equal. apply (IH b b); try done. intros x. specialize (E x). rewrite !smult_cons in E. lia.
Qed.

(** ** Bands *)

Record band := MkBand { top : Z; bot : Z; spans : list span }.
#[export] Instance eta_band : Settable band := fun b => MkBand (top b) (bot b) (spans b).

Definition box_of (t b : Z) (s : span) : BoxRec := MkBox s.1 t s.2 b.
Definition boxes (d : band) : list BoxRec := map (box_of (top d) (bot d)) (spans d).
Definition rects (ds : list band) : list BoxRec := mjoin (boxes <$> ds).

Lemma rects_app ds ds' : rects (ds ++ ds') = rects ds ++ rects ds'.
Proof. unfold rects. by rewrite fmap_app, join_app. Qed.
Lemma rects_snoc ds d : rects (ds ++ [d]) = rects ds ++ boxes d.
Proof. rewrite rects_app. unfold rects. cbn. by rewrite app_nil_r. Qed.

Lemma rects_elem ds b : b ∈ rects ds <-> exists d s, d ∈ ds /\ s ∈ spans d /\ b = box_of (top d) (bot d) s.
Proof.
  unfold rects. rewrite list_elem_of_join. split.
  - intros (l & Hb & Hl). apply list_elem_of_fmap in Hl as (d & -> & Hd). unfold boxes in Hb.
    apply list_elem_of_fmap in Hb as (s & -> & Hs). by exists d, s.
  - intros (d & s & Hd & Hs & ->). exists (boxes d). split; [|by apply list_elem_of_fmap; exists d].
    apply list_elem_of_fmap. by exists s.
Qed.

Definition band_ok (d : band) : Prop := top d < bot d /\ spans d <> [] /\ exists lo, separated lo (spans d).
(** How a band follows the one before it: below it, and not such that the two
    could be one. *)
Definition linked (p : option band) (d : band) : Prop :=
  match p with Some p => bot p <= top d /\ (bot p = top d -> spans p <> spans d) | None => True end.
Fixpoint bands_ok (p : option band) (ds : list band) : Prop :=
  match ds with [] => True | d :: ds => linked p d /\ band_ok d /\ bands_ok (Some d) ds end.

Definition last_or (p : option band) (ds : list band) : option band :=
  match last ds with Some d => Some d | None => p end.
Lemma last_or_cons p d ds : last_or p (d :: ds) = last_or (Some d) ds.
Proof. unfold last_or. rewrite last_cons. by destruct (last ds). Qed.
Lemma last_or_snoc p ds d : last_or p (ds ++ [d]) = Some d.
Proof. unfold last_or. by rewrite last_snoc. Qed.

Lemma bands_ok_app p ds ds' : bands_ok p (ds ++ ds') <-> bands_ok p ds /\ bands_ok (last_or p ds) ds'.
Proof.
  revert p. induction ds as [|d ds IH]; intros p; cbn; [tauto|]. rewrite IH, last_or_cons. tauto.
Qed.
Lemma bands_ok_snoc p ds d : bands_ok p (ds ++ [d]) <-> bands_ok p ds /\ linked (last_or p ds) d /\ band_ok d.
Proof. rewrite bands_ok_app. cbn. tauto. Qed.
Lemma bands_ok_any p ds : bands_ok p ds -> bands_ok None ds.
Proof. destruct ds as [|d ds]; [done|]. cbn. tauto. Qed.

Lemma bands_ok_below p d ds : bands_ok (Some p) ds -> d ∈ ds -> bot p <= top d.
Proof.
  revert p. induction ds as [|d' ds IH]; intros p; cbn; [by intros _ ?%not_elem_of_nil|].
  intros ((Hl & _) & (Hb & _) & Hds) [->|Hin]%elem_of_cons; [done|]. specialize (IH d' Hds Hin). lia.
Qed.

(** The spans at a height. *)
Fixpoint at_y (ds : list band) (y : Z) : list span :=
  match ds with
  | [] => []
  | d :: ds => if (top d <=? y) && (y <? bot d) then spans d else at_y ds y
  end.

Definition covers_y (d : band) (y : Z) : bool := (top d <=? y) && (y <? bot d).
Lemma covers_y_spec d y : covers_y d y = true <-> top d <= y < bot d.
Proof. unfold covers_y. by rewrite andb_true_iff, Z.leb_le, Z.ltb_lt. Qed.

Lemma at_y_out ds y : (forall d, d ∈ ds -> ~ top d <= y < bot d) -> at_y ds y = [].
Proof.
  induction ds as [|d ds IH]; intros Hd; [done|]. cbn. fold (covers_y d y). destruct (covers_y d y) eqn:E.
  - apply covers_y_spec in E. exfalso. by apply (Hd d); [left|].
  - apply IH. intros d' Hd'. apply Hd. by right.
Qed.
Lemma at_y_app ds ds' y : at_y (ds ++ ds') y = if decide (Exists (fun d => covers_y d y = true) ds) then at_y ds y else at_y ds' y.
Proof.
  induction ds as [|d ds IH]; cbn; [rewrite decide_False; [done|]; intros Hn; inversion Hn|].
  fold (covers_y d y). destruct (covers_y d y) eqn:E.
  - by rewrite decide_True by by left.
  - rewrite IH. case_decide as H1; case_decide as H2; try done.
    + exfalso. apply H2. by right.
    + exfalso. apply Exists_cons in H2 as [?|?]; congruence.
Qed.
Lemma at_y_in p ds d y : bands_ok p ds -> d ∈ ds -> top d <= y < bot d -> at_y ds y = spans d.
Proof.
  revert p. induction ds as [|d' ds IH]; intros p; [by intros _ ?%not_elem_of_nil|]. cbn.
  intros (_ & Hok & Hds) Hin Hy. fold (covers_y d' y). apply elem_of_cons in Hin as [->|Hin].
  - by rewrite (proj2 (covers_y_spec d' y) Hy).
  - destruct (covers_y d' y) eqn:E; [|by apply (IH (Some d'))].
    apply covers_y_spec in E. pose proof (bands_ok_below d' d ds Hds Hin). lia.
Qed.

Lemma mult_boxes d x y : mult (boxes d) x y = if covers_y d y then smult (spans d) x else 0%nat.
Proof.
  unfold boxes. induction (spans d) as [|s l IH]; cbn [map]; [by destruct (covers_y d y)|].
  rewrite mult_cons, IH, smult_cons. unfold inside, in_span, covers_y. cbn.
  destruct (s.1 <=? x), (x <? s.2), (top d <=? y), (y <? bot d); done.
Qed.

(** The points of a region in bands. *)
Lemma mult_rects p ds x y : bands_ok p ds -> mult (rects ds) x y = smult (at_y ds y) x.
Proof.
  revert p. induction ds as [|d ds IH]; intros p; [done|]. cbn [bands_ok at_y]. intros (_ & _ & Hds).
  change (rects (d :: ds)) with (boxes d ++ rects ds). rewrite mult_app, mult_boxes, (IH (Some d) Hds).
  fold (covers_y d y). destruct (covers_y d y) eqn:E; [|done]. apply covers_y_spec in E.
  rewrite (at_y_out ds y); [rewrite smult_nil; lia|]. intros d' Hin Hy. pose proof (bands_ok_below d d' ds Hds Hin). lia.
Qed.

Lemma at_y_separated p ds y : bands_ok p ds -> exists lo, separated lo (at_y ds y).
Proof.
  revert p. induction ds as [|d ds IH]; intros p; cbn; [by exists 0|]. intros (_ & (_ & _ & Hs) & Hds).
  destruct (_ && _); [done|]. by apply (IH (Some d)).
Qed.
Lemma mult_once p ds x y : bands_ok p ds -> (mult (rects ds) x y <= 1)%nat.
Proof.
  intros Hok. rewrite (mult_rects p) by done. destruct (at_y_separated p ds y Hok) as [lo Hlo]. by apply (separated_once lo).
Qed.

(** ** Uniqueness *)

Lemma at_y_first p d ds : bands_ok p (d :: ds) -> at_y (d :: ds) (top d) = spans d.
Proof. cbn. intros (_ & (Hlt & _) & _). rewrite (proj2 (Z.leb_le _ _)), (proj2 (Z.ltb_lt _ _)) by lia. done. Qed.
Lemma at_y_above p d ds y : bands_ok p (d :: ds) -> y < top d -> at_y (d :: ds) y = [].
Proof.
  intros Hok Hy. apply at_y_out. intros d' [->|Hin]%elem_of_cons; [lia|]. destruct Hok as (_ & (Hlt & _) & Hds).
  pose proof (bands_ok_below d d' ds Hds Hin). lia.
Qed.
Lemma at_y_next d ds p : bands_ok p (d :: ds) -> at_y (d :: ds) (bot d) <> spans d.
Proof.
  intros (_ & (Hlt & Hne & _) & Hds). cbn. fold (covers_y d (bot d)).
  destruct (covers_y d (bot d)) eqn:E; [apply covers_y_spec in E; lia|]. destruct ds as [|d' ds]; [cbn; congruence|].
  cbn. fold (covers_y d' (bot d)). destruct (covers_y d' (bot d)) eqn:E'.
  - apply covers_y_spec in E'. destruct Hds as ((Hl1 & Hl2) & _). apply not_eq_sym, Hl2. lia.
  - rewrite at_y_out; [congruence|]. intros d'' Hin Hy. destruct Hds as (Hl & (Hlt' & _) & Hds').
    pose proof (bands_ok_below d' d'' ds Hds' Hin). destruct Hl as [Hl _].
    apply andb_false_iff in E' as [E'|E']; [apply Z.leb_gt in E'|apply Z.ltb_ge in E']; lia.
Qed.

(** A band that begins a region cannot reach further down in another one with
    the same points. *)
Lemma first_bot p p' d ds d' ds' :
  bands_ok p (d :: ds) -> bands_ok p' (d' :: ds') -> (forall y, at_y (d :: ds) y = at_y (d' :: ds') y) ->
  top d = top d' -> spans d = spans d' -> bot d' <= bot d.
Proof.
  intros H H' E Et Es. destruct (Z.le_gt_cases (bot d') (bot d)) as [|Hgt]; [done|]. exfalso.
  apply (at_y_next d ds p H). rewrite E, Es. apply (at_y_in p' _ d' (bot d) H'); [left|]. destruct H as (_ & (Hlt & _) & _). lia.
Qed.

Theorem bands_unique p p' ds ds' :
  bands_ok p ds -> bands_ok p' ds' -> (forall y, at_y ds y = at_y ds' y) -> ds = ds'.
Proof.
  revert p p' ds'. induction ds as [|d ds IH]; intros p p' [|d' ds'] H H' E; [done|..].
  - specialize (E (top d')). rewrite (at_y_first p' d' ds' H') in E. by destruct H' as (_ & (_ & Hne & _) & _).
  - specialize (E (top d)). rewrite (at_y_first p d ds H) in E. by destruct H as (_ & (_ & Hne & _) & _).
  - assert (Et : top d = top d').
    { destruct (Z.lt_trichotomy (top d) (top d')) as [Hlt|[?|Hlt]]; [|done|]; exfalso.
      - specialize (E (top d)). rewrite (at_y_first p d ds H), (at_y_above p' d' ds' _ H' Hlt) in E.
        by destruct H as (_ & (_ & Hne & _) & _).
      - specialize (E (top d')). rewrite (at_y_first p' d' ds' H'), (at_y_above p d ds _ H Hlt) in E.
        by destruct H' as (_ & (_ & Hne & _) & _). }
    assert (Es : spans d = spans d').
    { pose proof (E (top d)) as E1. rewrite (at_y_first p d ds H), Et in E1. by rewrite (at_y_first p' d' ds' H') in E1. }
    assert (Eb : bot d = bot d').
    { pose proof (first_bot p p' d ds d' ds' H H' E Et Es).
      pose proof (first_bot p' p d' ds' d ds H' H (fun y => eq_sym (E y)) (eq_sym Et) (eq_sym Es)). lia. }
    assert (d = d') as <- by (destruct d, d'; cbn in *; by subst). f_equal.
    apply (IH (Some d) (Some d)); [by destruct H as (_ & _ & ?)|by destruct H' as (_ & _ & ?)|].
    intros y. specialize (E y). cbn in E. fold (covers_y d y) in E. destruct (covers_y d y) eqn:Ey; [|done].
    apply covers_y_spec in Ey. rewrite !at_y_out; try done; intros d0 Hin Hy.
    + destruct H' as (_ & _ & Hds). pose proof (bands_ok_below d d0 ds' Hds Hin). lia.
    + destruct H as (_ & _ & Hds). pose proof (bands_ok_below d d0 ds Hds Hin). lia.
Qed.

(** Regions in bands with the same points have the same boxes. *)
Theorem rects_unique ds ds' :
  bands_ok None ds -> bands_ok None ds' ->
  (forall x y, (0 < mult (rects ds) x y)%nat <-> (0 < mult (rects ds') x y)%nat) -> ds = ds'.
Proof.
  intros H H' E. apply (bands_unique None None ds ds' H H'). intros y.
  destruct (at_y_separated None ds y H) as [lo Hlo]. destruct (at_y_separated None ds' y H') as [lo' Hlo'].
  apply (separated_unique lo lo'); try done. intros x. specialize (E x y).
  rewrite !(mult_rects None) in E by done. pose proof (separated_once lo _ x Hlo). pose proof (separated_once lo' _ x Hlo'). lia.
Qed.
