(* ===== verification/RegionUnion.v ===== *)
(** * RegionUnion: the union of two regions in bands

    With memory, [RegionOp] with [RegionUnionO] builds the region in bands of
    the points of both: first for spans in a band, then for the appended and
    coalesced bands, then for the turns over both lists. *)

From S2P Require Import Prelude.
From S2P Require Import Region.
From S2P Require Import RegionBand.

(** ** The union of spans *)

Definition next_span (l1 l2 : list span) : option (span * list span * list span) :=
  match l1, l2 with
  | [], [] => None
  | s1 :: l1', [] => Some (s1, l1', [])
  | [], s2 :: l2' => Some (s2, [], l2')
  | s1 :: l1', s2 :: l2' => if s1.1 <? s2.1 then Some (s1, l1', l2) else Some (s2, l1, l2')
  end.
(** The spans of both lists from left to right. *)
Fixpoint pick_spans (n : nat) (l1 l2 : list span) : list span :=
  match n, next_span l1 l2 with
  | S n, Some (s, l1, l2) => s :: pick_spans n l1 l2
  | _, _ => []
  end.
(** Merging a list of spans in order into the span [c]; whether any overlapped. *)
Fixpoint fold_spans (c : span) (l : list span) : list span :=
  match l with
  | [] => [c]
  | s :: l => if s.1 <=? c.2 then fold_spans (c.1, if c.2 <? s.2 then s.2 else c.2) l else c :: fold_spans s l
  end.
Fixpoint fold_over (c : span) (l : list span) : bool :=
  match l with
  | [] => false
  | s :: l =>
      if s.1 <=? c.2 then (s.1 <? c.2) || fold_over (c.1, if c.2 <? s.2 then s.2 else c.2) l else fold_over s l
  end.
Definition span_union (l1 l2 : list span) : list span :=
  match pick_spans (length l1 + length l2) l1 l2 with [] => [] | c :: l => fold_spans c l end.
Definition span_over (l1 l2 : list span) : bool :=
  match pick_spans (length l1 + length l2) l1 l2 with [] => false | c :: l => fold_over c l end.

(** Spans that begin in order from [lo] on. *)
Fixpoint in_order (lo : Z) (l : list span) : Prop :=
  match l with [] => True | s :: l => lo <= s.1 /\ s.1 < s.2 /\ in_order s.1 l end.

Lemma in_order_weaken lo lo' l : lo' <= lo -> in_order lo l -> in_order lo' l.
Proof. destruct l as [|s l]; [done|]. cbn. intros ? (?&?&?). split; [lia|done]. Qed.
Lemma separated_in_order lo l : separated lo l -> in_order lo l.
Proof.
  revert lo. induction l as [|s l IH]; intros lo; [done|]. cbn. intros (H1 & H2 & H3). split_and!; [lia|done|].
  apply (in_order_weaken s.2); [lia|]. by apply IH.
Qed.

Lemma pick_spans_perm n l1 l2 : (length l1 + length l2 <= n)%nat -> pick_spans n l1 l2 ≡ₚ l1 ++ l2.
Proof.
  revert l1 l2. induction n as [|n IH]; intros l1 l2 Hn.
  - destruct l1, l2; cbn in Hn; try lia. done.
  - destruct l1 as [|s1 l1], l2 as [|s2 l2]; cbn; [done|..].
    + rewrite IH by (cbn in *; lia). done.
    + rewrite IH by (cbn in *; lia). by rewrite app_nil_r.
    + destruct (_ <? _); rewrite IH by (cbn in *; lia); [done|]. change (s1 :: l1 ++ s2 :: l2) with ((s1 :: l1) ++ s2 :: l2).
      by rewrite <- Permutation_middle.
Qed.
Lemma pick_spans_order n lo l1 l2 :
  in_order lo l1 -> in_order lo l2 -> in_order lo (pick_spans n l1 l2).
Proof.
  revert lo l1 l2. induction n as [|n IH]; intros lo l1 l2 H1 H2; [done|].
  destruct l1 as [|s1 l1], l2 as [|s2 l2]; cbn in *; [done|..].
  - destruct H2 as (?&?&?). split_and!; [done..|]. by apply IH.
  - destruct H1 as (?&?&?). split_and!; [done..|]. by apply IH.
  - destruct H1 as (?&?&?), H2 as (?&?&?). destruct (Z.ltb_spec s1.1 s2.1); split_and!; try done; apply IH; cbn; try done;
      split_and!; try done; lia.
Qed.

Lemma fold_spans_points c l :
  c.1 < c.2 -> in_order c.1 l ->
  separated (c.1 - 1) (fold_spans c l) /\
  (forall x, (0 < smult (fold_spans c l) x)%nat <-> (0 < smult (c :: l) x)%nat) /\
  (if fold_over c l then exists x, (2 <= smult (c :: l) x)%nat else forall x, smult (fold_spans c l) x = smult (c :: l) x).
Proof.
  revert c. induction l as [|s l IH]; intros [a b] Hc Hl; cbn [fold_spans fold_over].
  { cbn in *. split; [lia|]. done. }
  destruct s as [a' b']. cbn [fst snd] in *. destruct Hl as (Ha & Hb & Hl). cbn [fst snd] in *.
  set (m := if b <? b' then b' else b).
  assert (Hm : m = Z.max b b') by (subst m; destruct (Z.ltb_spec b b'); lia).
  destruct (Z.leb_spec a' b) as [Hle|Hgt].
  - destruct (IH (a, m)) as (H1 & H2 & H3); [cbn; lia|apply (in_order_weaken a'); [cbn; lia|done]|]. cbn [fst snd] in *.
    split; [done|].
    assert (Hspan : forall x, ((if in_span (a, m) x then 1 else 0) <= (if in_span (a, b) x then 1 else 0) + (if in_span (a', b') x then 1 else 0))%nat /\
      (in_span (a, m) x = in_span (a, b) x || in_span (a', b') x)).
    { intros x. unfold in_span. cbn. destruct (Z.leb_spec a x), (Z.leb_spec a' x), (Z.ltb_spec x m), (Z.ltb_spec x b), (Z.ltb_spec x b'); cbn;
        split; try lia; try done; exfalso; lia. }
    split.
    + intros x. rewrite H2, !smult_cons. destruct (Hspan x) as [_ ->]. destruct (in_span (a, b) x), (in_span (a', b') x); cbn; lia.
    + destruct (Z.ltb_spec a' b) as [Hov|Hno]; cbn [orb].
      * exists a'. rewrite !smult_cons. rewrite (proj2 (in_span_spec (a, b) a')), (proj2 (in_span_spec (a', b') a')) by (cbn; lia). lia.
      * destruct (fold_over (a, m) l).
        -- destruct H3 as [x Hx]. exists x. rewrite !smult_cons in *. destruct (Hspan x) as [Hs _]. lia.
        -- intros x. rewrite H3, !smult_cons. assert (a' = b) as -> by lia.
           unfold in_span. cbn. destruct (Z.leb_spec a x), (Z.leb_spec b x), (Z.ltb_spec x m), (Z.ltb_spec x b), (Z.ltb_spec x b'); cbn;
             try lia; exfalso; lia.
  - destruct (IH (a', b')) as (H1 & H2 & H3); [done|done|]. cbn [fst snd] in *. split; [|split].
    + cbn. split_and!; [lia|done|]. apply (separated_weaken (a' - 1)); [lia|done].
    + intros x. rewrite !(smult_cons (a, b)). specialize (H2 x). destruct (in_span (a, b) x); [split; intros; lia|exact H2].
    + destruct (fold_over (a', b') l).
      * destruct H3 as [x Hx]. exists x. rewrite (smult_cons (a, b)). lia.
      * intros x. by rewrite !(smult_cons (a, b)), H3.
Qed.

Lemma fold_spans_id lo c l : separated lo (c :: l) -> fold_spans c l = c :: l /\ fold_over c l = false.
Proof.
  revert lo c. induction l as [|s l IH]; intros lo c; [done|]. cbn. intros (H1 & H2 & H3 & H4 & H5).
  rewrite (proj2 (Z.leb_gt _ _)) by lia. destruct (IH c.2 s) as [-> ->]; [by cbn|]. done.
Qed.
Lemma fold_spans_starts c l s : s ∈ fold_spans c l -> s.1 ∈ (c :: l).*1.
Proof.
  revert c. induction l as [|t l IH]; intros c; cbn [fold_spans].
  - intros ->%list_elem_of_singleton. left.
  - destruct (t.1 <=? c.2).
    + intros Hs. apply IH in Hs. cbn in Hs |- *. apply elem_of_cons in Hs as [->|Hs]; [left|by do 2 right].
    + intros [->|Hs]%elem_of_cons; [left|]. right. by apply IH.
Qed.

(** The union of the spans of two bands. *)
Lemma span_union_points lo l1 l2 :
  separated lo l1 -> separated lo l2 ->
  (exists lo', separated lo' (span_union l1 l2)) /\
  (forall x, (0 < smult (span_union l1 l2) x)%nat <-> (0 < smult l1 x + smult l2 x)%nat) /\
  (if span_over l1 l2 then exists x, (2 <= smult l1 x + smult l2 x)%nat
   else forall x, smult (span_union l1 l2) x = (smult l1 x + smult l2 x)%nat).
Proof.
  intros H1 H2. unfold span_union, span_over.
  pose proof (pick_spans_perm (length l1 + length l2) l1 l2 ltac:(lia)) as Hp.
  pose proof (pick_spans_order (length l1 + length l2) lo l1 l2 (separated_in_order _ _ H1) (separated_in_order _ _ H2)) as Ho.
  assert (Hs : forall x, smult (pick_spans (length l1 + length l2) l1 l2) x = (smult l1 x + smult l2 x)%nat)
    by (intros x; by rewrite Hp, smult_app).
  destruct (pick_spans _ l1 l2) as [|c l].
  - split; [by exists 0|]. split; intros x; by rewrite <- Hs.
  - destruct Ho as (Hc1 & Hc2 & Hl). destruct (fold_spans_points c l Hc2 Hl) as (F1 & F2 & F3).
    split; [by exists (c.1 - 1)|]. split; [intros x; by rewrite F2, Hs|]. destruct (fold_over c l).
    + destruct F3 as [x Hx]. exists x. by rewrite <- Hs.
    + intros x. by rewrite F3, Hs.
Qed.

Lemma pick_spans_left n l : (length l <= n)%nat -> pick_spans n l [] = l.
Proof.
  revert l. induction n as [|n IH]; intros [|s l] Hn; cbn in *; try done; [lia|]. f_equal. apply IH. lia.
Qed.
Lemma pick_spans_right n l : (length l <= n)%nat -> pick_spans n [] l = l.
Proof.
  revert l. induction n as [|n IH]; intros [|s l] Hn; cbn in *; try done; [lia|]. f_equal. apply IH. lia.
Qed.
Lemma span_union_nil_r lo l : separated lo l -> span_union l [] = l /\ span_over l [] = false.
Proof.
  intros H. unfold span_union, span_over. rewrite pick_spans_left by lia. destruct l as [|c l]; [done|].
  by apply (fold_spans_id lo).
Qed.
Lemma span_union_nil_l lo l : separated lo l -> span_union [] l = l /\ span_over [] l = false.
Proof.
  intros H. unfold span_union, span_over. rewrite pick_spans_right by (cbn; lia). destruct l as [|c l]; [done|].
  by apply (fold_spans_id lo).
Qed.
Lemma span_union_ne l1 l2 : l1 <> [] \/ l2 <> [] -> span_union l1 l2 <> [].
Proof.
  intros Hne. unfold span_union. pose proof (pick_spans_perm (length l1 + length l2) l1 l2 ltac:(lia)) as Hp.
  destruct (pick_spans _ l1 l2) as [|c l].
  - apply Permutation_nil_l in Hp. symmetry in Hp. apply app_eq_nil in Hp as [-> ->]. by destruct Hne.
  - clear Hp Hne. revert c. induction l as [|s l IH]; intros c; cbn; [done|]. destruct (_ <=? _); [apply IH|done].
Qed.
