(* ===== verification/RegionJoin.v ===== *)
(** * RegionJoin: the union of two regions, from the memory up

    With memory for the boxes the procedures that build a region append what
    RegionUnion.v says; the turns of [RegionOp] go down both regions and leave
    the bands of the union. *)

From S2P Require Import Prelude.
From S2P Require Import Region.
From S2P Require Import RegionBand.
From S2P Require Import RegionUnion.

(** The region has the boxes [l] in memory. *)
Definition holds (r : RegionRec) (l : list BoxRec) : Prop := exists size, data r = Heap size l /\ 0 < size.

(** [s'] is [s] with the boxes [l'], and with [ov] as the overlap found. *)
Record grown (s s' : building) (l' : list BoxRec) (ov : bool) : Prop := {
  gr_holds : holds (reg s') l';
  gr_overlap : overlap s' = overlap s || ov;
  gr_extents : extents (reg s') = extents (reg s)
}.

(** ** Coalescing *)

(** Band [d] below the bands [os]: one band with the last when they touch and
    have the same spans. *)
Definition add_band (os : list band) (d : band) : list band :=
  match last os with
  | Some p =>
      if (bot p =? top d) && bool_decide (spans p = spans d)
      then removelast os ++ [p <| bot := bot d |>] else os ++ [d]
  | None => [d]
  end.
(** Where the boxes of the last band begin. *)
Definition prev_of (os : list band) : nat := length (rects (removelast os)).

Lemma length_boxes d : length (boxes d) = length (spans d).
Proof. apply length_map. Qed.

Lemma same_places_spec t b t' b' l l' :
  length l = length l' ->
  same_places (map (box_of t b) l) (map (box_of t' b') l') = bool_decide (l = l').
Proof.
  revert l'. induction l as [|[u v] l IH]; intros [|[u' v'] l'] Hl; try done. cbn [map same_places].
  rewrite IH by (cbn in Hl; lia). unfold box_of. cbn. destruct (Z.eqb_spec u u') as [->|]; cbn.
  2: { rewrite bool_decide_false; [done|congruence]. }
  destruct (Z.eqb_spec v v') as [->|]; cbn.
  2: { rewrite bool_decide_false; [done|congruence]. }
  apply bool_decide_ext. split; congruence.
Qed.

Lemma RegionCoalesce_spec os p d :
  spans p <> [] -> length (spans p) = length (spans d) ->
  RegionCoalesce (rects (os ++ [p]) ++ boxes d) (length (rects os)) (length (rects (os ++ [p]))) =
    (rects (add_band (os ++ [p]) d), prev_of (add_band (os ++ [p]) d)).
Proof.
  intros Hne Hlen. unfold RegionCoalesce. rewrite rects_snoc.
  assert (En : (length (rects os ++ boxes p) - length (rects os))%nat = length (boxes p)) by (rewrite length_app; lia).
  assert (El : length (boxes p) = length (boxes d)) by by rewrite !length_boxes.
  assert (E1 : take (length (boxes p)) (drop (length (rects os)) ((rects os ++ boxes p) ++ boxes d)) = boxes p)
    by by rewrite <- app_assoc, drop_app_length, take_app_length.
  assert (E2 : drop (length (rects os ++ boxes p)) ((rects os ++ boxes p) ++ boxes d) = boxes d) by by rewrite drop_app_length.
  assert (E3 : take (length (boxes p)) (boxes d) = boxes d) by (apply take_ge; lia).
  assert (E4 : drop (length (boxes p)) (boxes d) = []) by (apply drop_ge; lia).
  assert (E5 : take (length (rects os)) ((rects os ++ boxes p) ++ boxes d) = rects os)
    by by rewrite <- app_assoc, take_app_length.
  rewrite En, E1, E2, E3, E4, E5. clear En El E1 E2 E3 E4 E5.
  unfold add_band. rewrite last_snoc, removelast_last.
  assert (Hd : spans d <> []) by (intros E; rewrite E in Hlen; by destruct (spans p)).
  unfold boxes. destruct (spans p) as [|sp lp] eqn:Ep; [done|]. destruct (spans d) as [|sd ld] eqn:Ed; [done|].
  cbn [map]. unfold box_of at 1 2. cbn [y2 y1]. destruct (Z.eqb_spec (bot p) (top d)) as [E|E]; cbn [negb andb].
  - change (box_of (top p) (bot p) sp :: map (box_of (top p) (bot p)) lp) with (map (box_of (top p) (bot p)) (sp :: lp)).
    change (box_of (top d) (bot d) sd :: map (box_of (top d) (bot d)) ld) with (map (box_of (top d) (bot d)) (sd :: ld)).
    rewrite same_places_spec by done. case_bool_decide as Es; cbn [negb].
    + rewrite app_nil_r, rects_snoc. f_equal; [f_equal|].
      * unfold boxes. cbn. rewrite Ep. cbn. f_equal. rewrite map_map. done.
      * unfold prev_of. by rewrite removelast_last.
    + rewrite !rects_snoc. unfold boxes. rewrite Ep, Ed. unfold prev_of. rewrite removelast_last, rects_snoc. unfold boxes.
      by rewrite Ep.
  - rewrite !rects_snoc. unfold boxes. rewrite Ep, Ed. unfold prev_of. rewrite removelast_last, rects_snoc. unfold boxes.
    by rewrite Ep.
Qed.

Lemma Coalesce_spec r os d :
  holds r (rects os ++ boxes d) -> Forall (fun p => spans p <> []) os -> spans d <> [] ->
  exists r', Coalesce r (prev_of os) (length (rects os)) = (r', prev_of (add_band os d)) /\
    holds r' (rects (add_band os d)) /\ extents r' = extents r.
Proof.
  intros (size & Hr & Hs) Hos Hd. unfold Coalesce. unfold RegionNumRects. rewrite Hr.
  assert (Hn : (0 < length (boxes d))%nat) by (rewrite length_boxes; destruct (spans d); [done|cbn; lia]).
  destruct os as [|p os _] using rev_ind.
  - cbn [rects fmap list_fmap mjoin list_join app length prev_of removelast]. rewrite (proj2 (Z.eqb_neq _ _)) by lia.
    exists r. split; [done|]. split; [|done]. exists size. unfold rects, add_band. cbn. by rewrite app_nil_r.
  - assert (Eprev : prev_of (os ++ [p]) = length (rects os)) by (unfold prev_of; by rewrite removelast_last).
    rewrite Eprev. apply Forall_app in Hos as [_ Hp]. apply Forall_cons in Hp as [Hp _].
    destruct (Z.eqb_spec (Z.of_nat (length (rects (os ++ [p]))) - Z.of_nat (length (rects os)))
      (Z.of_nat (length (rects (os ++ [p]) ++ boxes d)) - Z.of_nat (length (rects (os ++ [p]))))) as [E|E];
      rewrite rects_snoc, !length_app, !length_boxes in E.
    + rewrite RegionCoalesce_spec by (done || lia). eexists. split; [reflexivity|]. split; [|done]. by exists size.
    + exists r. assert (Hadd : add_band (os ++ [p]) d = (os ++ [p]) ++ [d]).
      { unfold add_band. rewrite last_snoc, bool_decide_false, andb_false_r; [done|]. intros Es. rewrite Es in E. lia. }
      rewrite Hadd. split; [|split; [|done]].
      * unfold prev_of. by rewrite removelast_last.
      * exists size. by rewrite rects_snoc.
Qed.

Lemma bands_ends p os q d : bands_ok p os -> last os = Some q -> d ∈ os -> bot d <= bot q.
Proof.
  revert q d. induction os as [|o os IH] using rev_ind; intros q d; [done|]. rewrite last_snoc, bands_ok_snoc.
  intros (Hos & Hl & (Ho & _)) [= ->] [Hin| ->%list_elem_of_singleton]%elem_of_app; [|lia].
  unfold last_or in Hl. destruct (last os) as [o'|] eqn:E.
  - specialize (IH o' d Hos eq_refl Hin). destruct Hl as [Hl _]. lia.
  - apply last_None in E as ->. by apply not_elem_of_nil in Hin.
Qed.
Lemma at_y_snoc os p y : bands_ok None (os ++ [p]) -> at_y (os ++ [p]) y = if covers_y p y then spans p else at_y os y.
Proof.
  intros Hok. destruct (covers_y p y) eqn:E.
  - apply covers_y_spec in E. apply (at_y_in None _ p y Hok); [|done]. apply elem_of_app. right. left.
  - rewrite at_y_app. case_decide as He; [done|]. cbn. fold (covers_y p y). rewrite E. symmetry. apply at_y_out.
    intros d Hd Hy. apply He, Exists_exists. exists d. split; [done|]. by apply covers_y_spec.
Qed.

Lemma add_band_ok os d :
  bands_ok None os -> band_ok d -> (forall p, last os = Some p -> bot p <= top d) ->
  bands_ok None (add_band os d) /\
  (exists p, last (add_band os d) = Some p /\ bot p = bot d /\ spans p = spans d) /\
  (forall y, at_y (add_band os d) y = if covers_y d y then spans d else at_y os y).
Proof.
  intros Hos Hd Hl. destruct os as [|p os _] using rev_ind.
  { cbn. split_and!; try done. by exists d. }
  unfold add_band. rewrite last_snoc, removelast_last. specialize (Hl p (last_snoc _ _)).
  assert (Hsnoc : (bot p = top d -> spans p <> spans d) -> bands_ok None ((os ++ [p]) ++ [d])).
  { intros Hne. apply bands_ok_snoc. split; [done|]. rewrite last_or_snoc. done. }
  assert (Hplain : (bot p = top d -> spans p <> spans d) -> bands_ok None ((os ++ [p]) ++ [d]) /\
    (exists p', last ((os ++ [p]) ++ [d]) = Some p' /\ bot p' = bot d /\ spans p' = spans d) /\
    (forall y, at_y ((os ++ [p]) ++ [d]) y = if covers_y d y then spans d else at_y (os ++ [p]) y)).
  { intros Hne. specialize (Hsnoc Hne). split; [done|]. split; [exists d; by rewrite last_snoc|].
    intros y. by apply at_y_snoc. }
  destruct (Z.eqb_spec (bot p) (top d)) as [E|E]; cbn [andb]; [|by apply Hplain].
  case_bool_decide as Es; [|by apply Hplain]. clear Hsnoc Hplain.
  pose proof Hos as Hos'. apply bands_ok_snoc in Hos as (Hos & Hlink & (Hp1 & Hp2 & Hp3)). destruct Hd as (Hd1 & Hd2 & Hd3).
  assert (Hnew : bands_ok None (os ++ [p <| bot := bot d |>])).
  { apply bands_ok_snoc. split; [done|]. split; [by destruct (last_or None os)|]. split_and!; cbn; [lia|done|done]. }
  split; [done|]. split; [eexists; by rewrite last_snoc|]. intros y. rewrite at_y_snoc, at_y_snoc by done.
  unfold covers_y. cbn. destruct (Z.leb_spec (top p) y), (Z.ltb_spec y (bot p)), (Z.ltb_spec y (bot d)), (Z.leb_spec (top d) y);
    cbn; try done; try lia.
Qed.

(** ** Appending with memory *)

Section Memory.
Context (al : allocator) (Hal : forall n z, al n z = true) (B : Z) (HB : 0 <= B /\ 4 * B + 4 < 268435453).

Lemma box_alloc_ok k n : 0 <= n <= 2 * B + 2 -> (box_alloc al k n).1 = true.
Proof.
  intros Hn. unfold box_alloc, RegionSizeof. change ((INT_MAX - 16) / 8) with 268435453.
  rewrite (proj2 (Z.ltb_lt _ _)) by lia. rewrite (proj2 (Z.gtb_lt _ _)) by lia. cbn. apply Hal.
Qed.

Lemma RegionRectAlloc_ok k r l n :
  holds r l -> Z.of_nat (length l) <= B -> 0 <= n <= B ->
  exists r' k', RegionRectAlloc al k r n = (true, r', k') /\ (1 <= n -> 0 < Z.of_nat (length l) \/ 1 < n -> holds r' l) /\
    extents r' = extents r.
Proof.
  intros (size & Hr & Hs) Hl Hn. unfold RegionRectAlloc. rewrite Hr. rewrite (proj2 (Z.eqb_neq _ _)) by lia.
  match goal with |- context [box_alloc al k ?m] => set (m' := m) end.
  assert (Hm : 0 <= m' <= 2 * B + 2 /\ (1 <= n -> 0 < Z.of_nat (length l) \/ 1 < n -> 0 < m')).
  { subst m'. destruct (Z.eqb_spec n 1); [|lia]. destruct (Z.gtb_spec (Z.of_nat (length l)) 500); lia. }
  pose proof (box_alloc_ok k m' (proj1 Hm)) as Hok. destruct (box_alloc al k m') as [ok k']. cbn in Hok. subst ok.
  eexists _, _. split; [reflexivity|]. split; [|done]. intros H1 H2. exists m'. split; [done|]. by apply Hm.
Qed.

(** [RECTALLOC] before something is appended. *)
Lemma RECTALLOC_ok k r l n :
  holds r l -> Z.of_nat (length l) <= B -> 1 <= n <= B ->
  exists r' k', RECTALLOC al k r n = (true, r', k') /\ holds r' l /\ extents r' = extents r.
Proof.
  intros Hr Hl Hn. unfold RECTALLOC. destruct (_ || _) eqn:E; [|by exists r, k].
  destruct (RegionRectAlloc_ok k r l n Hr Hl ltac:(lia)) as (r' & k' & -> & Hh & He). exists r', k'. split; [done|]. split; [|done].
  apply Hh; [lia|]. destruct Hr as (size & Hr & Hs). rewrite Hr in E. unfold RegionNumRects, RegionSize in E. rewrite Hr in E.
  rewrite bool_decide_false in E by done. cbn in E. apply Z.gtb_lt in E. lia.
Qed.

Lemma push_ok r l m : holds r l -> exists r', push r m = Ret r' /\ holds r' (l ++ m) /\ extents r' = extents r.
Proof.
  intros (size & Hr & Hs). unfold push. rewrite Hr. eexists. split; [reflexivity|]. split; [|done]. by exists size.
Qed.

Lemma NEWRECT_ok s l b :
  holds (reg s) l -> Z.of_nat (length l) < B ->
  exists s', NEWRECT al s b = Ret (true, s') /\ grown s s' (l ++ [b]) false.
Proof.
  intros Hr Hl. unfold NEWRECT.
  assert (Ha : exists r' k', (if bool_decide (data (reg s) = Null) || (Z.of_nat (RegionNumRects (reg s)) =? RegionSize (reg s))
    then RegionRectAlloc al (calls s) (reg s) 1 else (true, reg s, calls s)) = (true, r', k') /\ holds r' l /\
    extents r' = extents (reg s)).
  { destruct (_ || _) eqn:E; [|by eexists _, _].
    destruct (RegionRectAlloc_ok (calls s) (reg s) l 1 Hr ltac:(lia) ltac:(lia)) as (r' & k' & -> & Hh & He).
    exists r', k'. split; [done|]. split; [|done]. apply Hh; [lia|]. left. destruct Hr as (size & Hr & Hs).
    unfold RegionNumRects, RegionSize in E. rewrite Hr in E. rewrite bool_decide_false in E by done. cbn in E.
    apply Z.eqb_eq in E. lia. }
  destruct Ha as (r' & k' & -> & Hh & He). cbn [negb]. destruct (push_ok r' l [b] Hh) as (r2 & -> & Hh2 & He2). cbn [obind].
  eexists. split; [reflexivity|]. split; cbn; [done|by rewrite orb_false_r|congruence].
Qed.

Lemma RegionAppendNonO_ok s l t b t' b' (ss : list span) :
  holds (reg s) l -> Z.of_nat (length l) <= B -> ss <> [] -> Z.of_nat (length ss) <= B ->
  exists s', RegionAppendNonO al s (map (box_of t b) ss) t' b' = Ret (true, s') /\
    grown s s' (l ++ map (box_of t' b') ss) false.
Proof.
  intros Hr Hl Hne Hs. unfold RegionAppendNonO. rewrite length_map.
  assert (1 <= Z.of_nat (length ss)) by (destruct ss; [done|cbn; lia]).
  destruct (RECTALLOC_ok (calls s) (reg s) l (Z.of_nat (length ss)) Hr Hl ltac:(lia)) as (r' & k' & -> & Hh & He). cbn [negb].
  rewrite map_map.
  destruct (push_ok r' l (map (fun x => MkBox (x1 (box_of t b x)) t' (x2 (box_of t b x)) b') ss) Hh) as (r2 & -> & Hh2 & He2).
  cbn [obind]. eexists. split; [reflexivity|]. split; cbn; [done|by rewrite orb_false_r|congruence].
Qed.

Lemma AppendRegions_ok s l m :
  holds (reg s) l -> Z.of_nat (length l) <= B -> Z.of_nat (length m) <= B ->
  exists s', AppendRegions al s m = Ret (true, s') /\ grown s s' (l ++ m) false.
Proof.
  intros Hr Hl Hm. unfold AppendRegions. destruct m as [|b m].
  { exists s. split; [done|]. split; [by rewrite app_nil_r|by rewrite orb_false_r|done]. }
  destruct (RECTALLOC_ok (calls s) (reg s) l (Z.of_nat (length (b :: m))) Hr Hl) as (r' & k' & -> & Hh & He); [cbn in *; lia|].
  cbn [negb]. destruct (push_ok r' l (b :: m) Hh) as (r2 & -> & Hh2 & He2). cbn [obind].
  eexists. split; [reflexivity|]. split; cbn; [done|by rewrite orb_false_r|congruence].
Qed.

(** ** The union of two bands *)

Lemma grown_trans s1 s2 s3 l2 l3 o o' : grown s1 s2 l2 o -> grown s2 s3 l3 o' -> grown s1 s3 l3 (o || o').
Proof. intros [A1 A2 A3] [B1 B2 B3]. split; [done| |congruence]. by rewrite B2, A2, orb_assoc. Qed.

Lemma next_rect_spans t b t' b' l1 l2 :
  match next_span l1 l2, next_rect (map (box_of t b) l1) (map (box_of t' b') l2) with
  | None, None => True
  | Some (s, l1', l2'), Some (bx, r1', r2') =>
      x1 bx = s.1 /\ x2 bx = s.2 /\ r1' = map (box_of t b) l1' /\ r2' = map (box_of t' b') l2'
  | _, _ => False
  end.
Proof.
  destruct l1 as [|s1 l1], l2 as [|s2 l2]; cbn; try done. destruct (_ <? _); done.
Qed.

Lemma union_loop_ok n s l t b t' b' l1 l2 c1 c2 ct cb :
  holds (reg s) l -> (length l1 + length l2 <= n)%nat -> Z.of_nat (length l) + Z.of_nat n < B ->
  exists s', union_loop al n s (map (box_of t b) l1) (map (box_of t' b') l2) c1 c2 ct cb = Ret (true, s') /\
    grown s s' (l ++ map (box_of ct cb) (fold_spans (c1, c2) (pick_spans n l1 l2)))
      (fold_over (c1, c2) (pick_spans n l1 l2)).
Proof.
  revert s l l1 l2 c1 c2. induction n as [|n IH]; intros s l l1 l2 c1 c2 Hr Hn Hl.
  - destruct l1, l2; cbn in Hn; try lia. cbn. apply NEWRECT_ok; [done|lia].
  - cbn [union_loop pick_spans]. pose proof (next_rect_spans t b t' b' l1 l2) as Hnext.
    destruct (next_span l1 l2) as [[[sp l1'] l2']|] eqn:En.
    2: { destruct (next_rect _ _); [done|]. cbn. apply NEWRECT_ok; [done|lia]. }
    destruct (next_rect _ _) as [[[bx r1'] r2']|]; [|done]. destruct Hnext as (Hx1 & Hx2 & -> & ->).
    assert (Hlen : (length l1' + length l2' <= n)%nat).
    { destruct l1 as [|? ?], l2 as [|? ?]; cbn in En; try done; [..|destruct (_ <? _)]; injection En as <- <- <-; cbn in *; lia. }
    unfold MERGERECT. rewrite Hx1, Hx2. cbn [fold_spans fold_over fst snd]. destruct (sp.1 <=? c2).
    + cbn [obind negb]. match goal with |- context [union_loop al n ?s1 _ _ ?a ?b _ _] =>
        destruct (IH s1 l l1' l2' a b Hr Hlen ltac:(lia)) as (s' & -> & [G1 G2 G3]) end.
      exists s'. split; [done|]. split; [done| |done]. rewrite G2. cbn. by rewrite orb_assoc.
    + destruct (NEWRECT_ok s l (MkBox c1 ct c2 cb) Hr ltac:(lia)) as (s1 & -> & Hg). cbn [obind negb].
      destruct (IH s1 (l ++ [MkBox c1 ct c2 cb]) l1' l2' sp.1 sp.2) as (s' & -> & Hg'); [apply Hg|done|rewrite length_app; cbn; lia|].
      exists s'. split; [done|]. rewrite <- app_assoc in Hg'. destruct sp. exact (grown_trans _ _ _ _ _ _ _ Hg Hg').
Qed.

Lemma RegionUnionO_ok s l t b t' b' l1 l2 ct cb :
  holds (reg s) l -> l1 <> [] -> Z.of_nat (length l) + Z.of_nat (length l1 + length l2) < B ->
  exists s', RegionUnionO al s (map (box_of t b) l1) (map (box_of t' b') l2) ct cb = Ret (true, s') /\
    grown s s' (l ++ map (box_of ct cb) (span_union l1 l2)) (span_over l1 l2).
Proof.
  intros Hr Hne Hl. unfold RegionUnionO, span_union, span_over.
  pose proof (next_rect_spans t b t' b' l1 l2) as Hnext.
  destruct (next_span l1 l2) as [[[sp l1'] l2']|] eqn:En.
  2: { by destruct l1, l2; cbn in En; try (destruct (_ <? _)). }
  destruct (next_rect _ _) as [[[bx r1'] r2']|]; [|done]. destruct Hnext as (Hx1 & Hx2 & -> & ->).
  assert (Hlen : (length l1 + length l2 = S (length l1' + length l2'))%nat).
  { destruct l1 as [|? ?], l2 as [|? ?]; cbn in En; try done; [..|destruct (_ <? _)]; injection En as <- <- <-; cbn in *; lia. }
  rewrite Hlen. cbn [pick_spans]. rewrite En, !length_map, Hx1, Hx2.
  destruct (union_loop_ok (length l1' + length l2') s l t b t' b' l1' l2' sp.1 sp.2 ct cb Hr ltac:(lia) ltac:(lia)) as (s' & -> & Hg).
  exists s'. split; [done|]. by destruct sp.
Qed.

(** ** The turns over both regions *)

(** Heights and sides that occur. *)
Definition within (X Y : list Z) (ds : list band) : Prop :=
  Forall (fun d => top d ∈ Y /\ bot d ∈ Y /\ Forall (fun s : span => s.1 ∈ X) (spans d)) ds.

Lemma starts_nodup lo (l : list span) : separated lo l -> NoDup l.*1 /\ Forall (fun a => lo < a) l.*1.
Proof.
  revert lo. induction l as [|s l IH]; intros lo; [by repeat constructor|]. cbn. intros (H1 & H2 & H3).
  destruct (IH _ H3) as [IH1 IH2]. split.
  - constructor; [|done]. intros Hin. rewrite Forall_forall in IH2. specialize (IH2 _ Hin). lia.
  - constructor; [done|]. eapply Forall_impl; [exact IH2|]. cbn. lia.
Qed.

(** The corners of the boxes differ, so that there are no more boxes than
    pairs of sides and heights. *)
Lemma count_bound p ds X Y : bands_ok p ds -> within X Y ds -> (length (rects ds) <= length X * length Y)%nat.
Proof.
  intros Hok Hw. set (corners := map (fun b => (x1 b, y1 b)) (rects ds)).
  assert (Hnd : NoDup corners /\ forall c, c ∈ corners -> exists d, d ∈ ds /\ c.2 = top d).
  { subst corners. clear Hw. revert p Hok. induction ds as [|d ds IH]; intros p; cbn [bands_ok].
    { intros _. split; [constructor|]. by intros c ?%not_elem_of_nil. }
    intros (_ & (Hlt & _ & lo & Hs) & Hds). change (rects (d :: ds)) with (boxes d ++ rects ds).
    destruct (IH _ Hds) as [IH1 IH2]. rewrite map_app. unfold boxes. rewrite map_map. cbn.
    destruct (starts_nodup _ _ Hs) as [Hs1 _]. split.
    - apply NoDup_app. split_and!; [| |done].
      + assert (E : map (fun s : span => (s.1, top d)) (spans d) = map (fun a => (a, top d)) (spans d).*1) by by rewrite map_map.
        rewrite E. apply NoDup_fmap_2; [|done]. by intros a b [= ->].
      + intros c Hc Hc'. apply list_elem_of_fmap in Hc as (s & -> & Hin). destruct (IH2 _ Hc') as (d' & Hd' & E). cbn in E.
        pose proof (bands_ok_below d d' ds Hds Hd'). lia.
    - intros c [Hc|Hc]%elem_of_app.
      + apply list_elem_of_fmap in Hc as (s & -> & Hin). exists d. split; [left|done].
      + destruct (IH2 _ Hc) as (d' & Hd' & E). exists d'. split; [by right|done]. }
  assert (Hin : forall c, c ∈ corners -> c ∈ list_prod X Y).
  { intros c Hc. subst corners. apply list_elem_of_fmap in Hc as (b & -> & Hb).
    apply rects_elem in Hb as (d & sp & Hd & Hsp & ->). cbn.
    unfold within in Hw. rewrite Forall_forall in Hw. destruct (Hw d Hd) as (Ht & _ & Hx). rewrite Forall_forall in Hx.
    apply list_elem_of_In, in_prod; apply list_elem_of_In; [by apply Hx|done]. }
  rewrite <- length_prod. replace (length (rects ds)) with (length corners) by apply length_map.
  apply submseteq_length, NoDup_submseteq; [apply Hnd|done].
Qed.

Lemma same_top_spec t b l r :
  match r with [] => True | c :: _ => y1 c <> t end ->
  same_top t (map (box_of t b) l ++ r) = (map (box_of t b) l, r).
Proof.
  intros Hr. induction l as [|s l IH]; cbn.
  - destruct r as [|c r]; [done|]. cbn. by rewrite (proj2 (Z.eqb_neq _ _)).
  - by rewrite Z.eqb_refl, IH.
Qed.
Lemma FindBand_rects p d ds : bands_ok p (d :: ds) -> FindBand (rects (d :: ds)) = Some (top d, boxes d, rects ds).
Proof.
  cbn [bands_ok]. intros (_ & (Hlt & Hne & _) & Hds). change (rects (d :: ds)) with (boxes d ++ rects ds). unfold boxes.
  destruct (spans d) as [|s l]; [done|]. cbn [map app FindBand]. change (y1 (box_of (top d) (bot d) s)) with (top d).
  rewrite same_top_spec; [done|]. destruct ds as [|d' ds]; [done|]. cbn [bands_ok] in Hds.
  destruct Hds as ((Hl & _) & (Hlt' & Hne' & _) & _). change (rects (d' :: ds)) with (boxes d' ++ rects ds). unfold boxes.
  destruct (spans d') as [|s' l']; [done|]. cbn. lia.
Qed.
Lemma rects_head p d ds : bands_ok p (d :: ds) -> exists b r, rects (d :: ds) = b :: r /\ y1 b = top d /\ y2 b = bot d.
Proof.
  cbn [bands_ok]. intros (_ & (Hlt & Hne & _) & _). change (rects (d :: ds)) with (boxes d ++ rects ds). unfold boxes.
  destruct (spans d) as [|s l]; [done|]. by eexists _, _.
Qed.
End Memory.
