(* ===== verification/RegionLoop.v ===== *)
(** * RegionLoop: the turns of [RegionOp]

    What [RegionOp] has built when it has come down to a height: the bands of
    the union above it.  The turns move the height down until one region is at
    its end. *)

From S2P Require Import Prelude.
From S2P Require Import Region.
From S2P Require Import RegionBand.
From S2P Require Import RegionUnion.
From S2P Require Import RegionJoin.

Lemma at_y_split yb os l y :
  (forall d, d ∈ os -> bot d <= yb) -> (forall d, d ∈ l -> yb <= top d) ->
  at_y (os ++ l) y = if y <? yb then at_y os y else at_y l y.
Proof.
  intros Hos Hl. rewrite at_y_app. destruct (Z.ltb_spec y yb) as [Hy|Hy].
  - case_decide as He; [done|]. rewrite !at_y_out; [done|..].
    + intros d Hd Hin. apply He, Exists_exists. exists d. split; [done|]. by apply covers_y_spec.
    + intros d Hd. specialize (Hl d Hd). lia.
  - rewrite decide_False; [done|]. intros (d & Hd & Hc)%Exists_exists. apply covers_y_spec in Hc. specialize (Hos d Hd). lia.
Qed.

Lemma boxes_ne d : band_ok d -> boxes d <> [].
Proof. intros (_ & Hne & _). unfold boxes. by destruct (spans d). Qed.
Lemma rects_length p ds : bands_ok p ds -> (length ds <= length (rects ds))%nat.
Proof.
  revert p. induction ds as [|d ds IH]; intros p; [done|]. intros (_ & Hd & Hds).
  change (rects (d :: ds)) with (boxes d ++ rects ds). rewrite length_app. specialize (IH _ Hds).
  pose proof (boxes_ne d Hd). destruct (boxes d); [done|]. cbn. lia.
Qed.
Lemma within_app X Y ds ds' : within X Y (ds ++ ds') <-> within X Y ds /\ within X Y ds'.
Proof. apply Forall_app. Qed.
Lemma within_spans X Y ds d : within X Y ds -> d ∈ ds -> band_ok d -> (length (spans d) <= length X)%nat.
Proof.
  unfold within. rewrite Forall_forall. intros Hw Hd (_ & _ & lo & Hs). destruct (Hw d Hd) as (_ & _ & Hx).
  destruct (starts_nodup lo (spans d) Hs) as [Hnd _]. rewrite <- (length_fmap fst (spans d)).
  apply submseteq_length, NoDup_submseteq; [done|]. intros a Ha. apply list_elem_of_fmap in Ha as (sp & -> & Hsp).
  rewrite Forall_forall in Hx. by apply Hx.
Qed.
Lemma bands_ok_in p ds d : bands_ok p ds -> d ∈ ds -> band_ok d.
Proof.
  revert p. induction ds as [|d' ds IH]; intros p; [by intros _ ?%not_elem_of_nil|].
  intros (_ & Hd & Hds) [->|Hin]%elem_of_cons; [done|]. by apply (IH (Some d')).
Qed.
Lemma add_band_within X Y os d :
  within X Y os -> top d ∈ Y -> bot d ∈ Y -> Forall (fun s : span => s.1 ∈ X) (spans d) -> within X Y (add_band os d).
Proof.
  intros Hos Ht Hb Hx. unfold add_band. destruct os as [|p os _] using rev_ind; [by repeat constructor|].
  rewrite last_snoc, removelast_last. apply within_app in Hos as [Hos Hp].
  destruct (_ && _).
  - apply within_app. split; [done|]. apply Forall_cons in Hp as [(?&?&?) _]. by repeat constructor.
  - apply within_app. split; [by apply within_app|]. by repeat constructor.
Qed.

Section Loop.
Context (al : allocator) (Hal : forall n z, al n z = true) (B : Z) (HB : 0 <= B /\ 4 * B + 4 < 268435453).
Context (ds1 ds2 : list band) (H1 : bands_ok None ds1) (H2 : bands_ok None ds2).
Context (X Y : list Z) (HW1 : within X Y ds1) (HW2 : within X Y ds2).
Context (Hroom : Z.of_nat (length X * length Y + 2 * length X) < B).
Context (ov0 : bool) (e0 : BoxRec).

(** The spans of the union at a height, and whether spans of the two overlap. *)
Definition union_at (y : Z) : list span := span_union (at_y ds1 y) (at_y ds2 y).
Definition over_at (y : Z) : bool := span_over (at_y ds1 y) (at_y ds2 y).

(** What is built down to height [yb]. *)
Record built (yb : Z) (os : list band) (s : building) : Prop := {
  b_holds : holds (reg s) (rects os);
  b_ok : bands_ok None os;
  b_last : forall p, last os = Some p -> bot p <= yb;
  b_at : forall y, at_y os y = if y <? yb then union_at y else [];
  b_over : overlap s = true <-> ov0 = true \/ exists y, y < yb /\ over_at y = true;
  b_extents : extents (reg s) = e0;
  b_within : within X Y os
}.

Lemma built_room yb os s : built yb os s -> Z.of_nat (length (rects os)) + 2 * Z.of_nat (length X) < B.
Proof. intros Hb. pose proof (count_bound None os X Y (b_ok _ _ _ Hb) (b_within _ _ _ Hb)). lia. Qed.

(** Nothing is between the heights. *)
Lemma built_skip yb yb' os s :
  built yb os s -> yb <= yb' -> (forall y, yb <= y < yb' -> union_at y = [] /\ over_at y = false) -> built yb' os s.
Proof.
  intros [A1 A2 A3 A4 A5 A6 A7] Hle Hs. split; try done.
  - intros p Hp. specialize (A3 p Hp). lia.
  - intros y. rewrite A4. destruct (Z.ltb_spec y yb), (Z.ltb_spec y yb'); try done; [lia|]. by rewrite (proj1 (Hs y ltac:(lia))).
  - rewrite A5. split; (intros [?|(y & Hy & Ho)]; [by left|right; exists y; split; [|done]]); [lia|].
    destruct (Z.lt_ge_cases y yb) as [|Hge]; [done|]. rewrite (proj2 (Hs y ltac:(lia))) in Ho. done.
Qed.

(** A band that was appended is coalesced. *)
Lemma built_add yb os s s1 d o :
  built yb os s -> grown s s1 (rects os ++ boxes d) o ->
  band_ok d -> yb <= top d ->
  (forall y, yb <= y < top d -> union_at y = [] /\ over_at y = false) ->
  (forall y, top d <= y < bot d -> union_at y = spans d /\ over_at y = o) ->
  top d ∈ Y -> bot d ∈ Y -> Forall (fun s : span => s.1 ∈ X) (spans d) ->
  exists r', Coalesce (reg s1) (prev_of os) (length (rects os)) = (r', prev_of (add_band os d)) /\
    built (bot d) (add_band os d) (s1 <| reg := r' |>).
Proof.
  intros [A1 A2 A3 A4 A5 A6 A7] [G1 G2 G3] Hd Hle Hskip Hin Ht Hb Hx.
  destruct (Coalesce_spec (reg s1) os d G1) as (r' & Hc & Hr' & He').
  { apply Forall_forall. intros p Hp. by apply (bands_ok_in None os p A2) in Hp as (_ & ? & _). }
  { by destruct Hd as (_ & ? & _). }
  exists r'. split; [done|]. destruct (add_band_ok os d A2 Hd) as (B1 & (p & B2 & B3 & _) & B4).
  { intros p Hp. specialize (A3 p Hp). lia. }
  destruct Hd as (Hlt & _). split; cbn; try done.
  - intros p'. rewrite B2. intros [= <-]. lia.
  - intros y. rewrite B4, A4. unfold covers_y.
    destruct (Z.leb_spec (top d) y), (Z.ltb_spec y (bot d)), (Z.ltb_spec y yb); cbn; try done; try lia.
    + by rewrite (proj1 (Hin y ltac:(lia))).
    + by rewrite (proj1 (Hskip y ltac:(lia))).
  - rewrite G2, orb_true_iff, A5. split.
    + intros [[?|(y & Hy & Ho)]|Ho]; [by left|right; exists y; split; [lia|done]|right; exists (top d); split; [lia|]].
      by rewrite (proj2 (Hin (top d) ltac:(lia))).
    + intros [?|(y & Hy & Ho)]; [by left; left|]. destruct (Z.lt_ge_cases y yb); [by left; right; exists y|].
      destruct (Z.lt_ge_cases y (top d)); [rewrite (proj2 (Hskip y ltac:(lia))) in Ho; done|].
      right. by rewrite <- (proj2 (Hin y ltac:(lia))).
  - congruence.
  - by apply add_band_within.
Qed.

(** A band of one region alone. *)
Lemma op_alone_ok yb os s d t b :
  built yb os s -> band_ok d -> (length (spans d) <= length X)%nat -> Forall (fun s : span => s.1 ∈ X) (spans d) ->
  yb <= t <= b -> t ∈ Y -> b ∈ Y ->
  (forall y, yb <= y < t -> union_at y = [] /\ over_at y = false) ->
  (forall y, t <= y < b -> union_at y = spans d /\ over_at y = false) ->
  exists s' os', op_alone al s true (prev_of os) (boxes d) t b = Ret (s', prev_of os') /\ built b os' s'.
Proof.
  intros Hbl Hd Hlen Hx Hle Ht Hb Hskip Hin. unfold op_alone. destruct (Z.eqb_spec t b) as [->|Hne]; cbn [andb negb].
  { exists s, os. split; [done|]. apply (built_skip yb); [done|lia|done]. }
  pose proof (built_room _ _ _ Hbl) as Hr. destruct Hd as (_ & Hd2 & Hd3).
  destruct (RegionAppendNonO_ok al Hal B HB s (rects os) (top d) (bot d) t b (spans d) (b_holds _ _ _ Hbl)) as (s1 & Happ & Hg);
    [lia|done|lia|].
  change (map (box_of (top d) (bot d)) (spans d)) with (boxes d) in Happ. rewrite Happ. cbn [obind].
  destruct (built_add yb os s s1 (MkBand t b (spans d)) false Hbl Hg) as (r' & Hc & Hbl'); cbn; try done; try lia.
  { split; [cbn; lia|]. by split. }
  pose proof (b_holds _ _ _ Hbl) as (size & Hdata & _).
  unfold RegionNumRects at 1. rewrite Hdata, Hc. by eexists _, _.
Qed.

(** A band of both. *)
Lemma op_both_ok yb os s d1 d2 t b :
  built yb os s -> band_ok d1 -> band_ok d2 ->
  (length (spans d1) <= length X)%nat -> (length (spans d2) <= length X)%nat ->
  Forall (fun s : span => s.1 ∈ X) (spans d1) -> Forall (fun s : span => s.1 ∈ X) (spans d2) ->
  yb <= t < b -> t ∈ Y -> b ∈ Y ->
  (forall y, yb <= y < t -> union_at y = [] /\ over_at y = false) ->
  (forall y, t <= y < b -> at_y ds1 y = spans d1 /\ at_y ds2 y = spans d2) ->
  exists s1 r' os', RegionUnionO al s (boxes d1) (boxes d2) t b = Ret (true, s1) /\
    Coalesce (reg s1) (prev_of os) (RegionNumRects (reg s)) = (r', prev_of os') /\ built b os' (s1 <| reg := r' |>).
Proof.
  intros Hbl Hd1 Hd2 Hl1 Hl2 Hx1 Hx2 Hle Ht Hb Hskip Hin. pose proof (built_room _ _ _ Hbl) as Hr.
  destruct Hd1 as (_ & Hn1 & lo1 & Hs1), Hd2 as (_ & Hn2 & lo2 & Hs2).
  destruct (RegionUnionO_ok al Hal B HB s (rects os) (top d1) (bot d1) (top d2) (bot d2) (spans d1) (spans d2) t b
    (b_holds _ _ _ Hbl) Hn1) as (s1 & HO & Hg); [lia|].
  change (map (box_of (top d1) (bot d1)) (spans d1)) with (boxes d1) in HO.
  change (map (box_of (top d2) (bot d2)) (spans d2)) with (boxes d2) in HO.
  destruct (built_add yb os s s1 (MkBand t b (span_union (spans d1) (spans d2))) (span_over (spans d1) (spans d2)) Hbl Hg)
    as (r' & Hc & Hbl'); cbn; try done; try lia.
  - split; [cbn; lia|]. split; [apply span_union_ne; by left|]. cbn.
    apply (span_union_points (Z.min lo1 lo2)); [apply (separated_weaken lo1)|apply (separated_weaken lo2)]; done || lia.
  - intros y Hy. unfold union_at, over_at. by destruct (Hin y Hy) as [-> ->].
  - apply Forall_forall. intros sp Hsp. unfold span_union in Hsp.
    pose proof (pick_spans_perm (length (spans d1) + length (spans d2)) (spans d1) (spans d2) ltac:(lia)) as Hp.
    destruct (pick_spans _ (spans d1) (spans d2)) as [|c l]; [by apply not_elem_of_nil in Hsp|].
    apply fold_spans_starts in Hsp. rewrite Hp in Hsp. apply list_elem_of_fmap in Hsp as (sp' & -> & Hsp').
    rewrite Forall_forall in Hx1, Hx2. apply elem_of_app in Hsp' as [?|?]; [by apply Hx1|by apply Hx2].
  - pose proof (b_holds _ _ _ Hbl) as (size & Hdata & _). exists s1, r'. eexists. split; [done|].
    unfold RegionNumRects at 1. by rewrite Hdata, Hc.
Qed.

(** The bands that a height has not passed. *)
Record rest_of (yb : Z) (ds l : list band) : Prop := {
  t_suffix : exists os, ds = os ++ l /\ forall d, d ∈ os -> bot d <= yb;
  t_below : forall d, d ∈ l -> yb < bot d
}.

Lemma rest_at yb ds l y : rest_of yb ds l -> yb <= y -> at_y ds y = at_y l y.
Proof.
  clear Hroom. intros [(os & -> & Hos) _] Hy. rewrite at_y_app, decide_False; [done|].
  intros (d & Hd & Hc)%Exists_exists. apply covers_y_spec in Hc. specialize (Hos d Hd). lia.
Qed.
Lemma rest_ok yb ds l : bands_ok None ds -> rest_of yb ds l -> bands_ok None l.
Proof. intros Hok [(os & -> & _) _]. apply bands_ok_app in Hok as [_ Hok]. by apply bands_ok_any in Hok. Qed.
Lemma rest_within yb ds l : within X Y ds -> rest_of yb ds l -> within X Y l.
Proof. intros Hw [(os & -> & _) _]. by apply within_app in Hw as [_ ?]. Qed.

Lemma rest_next yb yb' ds d l :
  bands_ok None ds -> rest_of yb ds (d :: l) -> yb <= yb' <= bot d ->
  rest_of yb' ds (if bot d =? yb' then l else d :: l).
Proof.
  intros Hok Hrest Hle. pose proof (rest_ok _ _ _ Hok Hrest) as Hdl. destruct Hrest as [(os & -> & Hos) Hb].
  destruct Hdl as (_ & Hd & Hl).
  assert (Hlow : forall d', d' ∈ l -> bot d < bot d').
  { intros d' Hin. pose proof (bands_ok_below d d' l Hl Hin). destruct (bands_ok_in _ _ _ Hl Hin) as (? & _). lia. }
  destruct (Z.eqb_spec (bot d) yb') as [<-|Hne].
  - split; [|done]. exists (os ++ [d]). split; [by rewrite <- app_assoc|].
    intros d' [Hin| ->%list_elem_of_singleton]%elem_of_app; [specialize (Hos d' Hin); lia|lia].
  - split; [exists os; split; [done|]; intros d' Hin; specialize (Hos d' Hin); lia|].
    intros d' [->|Hin]%elem_of_cons; [lia|]. specialize (Hlow d' Hin). lia.
Qed.
Lemma rest_rects yb' d l :
  bands_ok None (d :: l) -> (if bot d =? yb' then rects l else rects (d :: l)) = rects (if bot d =? yb' then l else d :: l).
Proof. by destruct (_ =? _). Qed.

Lemma union_nil y : at_y ds1 y = [] -> at_y ds2 y = [] -> union_at y = [] /\ over_at y = false.
Proof. unfold union_at, over_at. by intros -> ->. Qed.
Lemma union_left y d : band_ok d -> at_y ds1 y = spans d -> at_y ds2 y = [] -> union_at y = spans d /\ over_at y = false.
Proof. unfold union_at, over_at. intros (_ & _ & lo & Hs) -> ->. by apply (span_union_nil_r lo). Qed.
Lemma union_right y d : band_ok d -> at_y ds1 y = [] -> at_y ds2 y = spans d -> union_at y = spans d /\ over_at y = false.
Proof. unfold union_at, over_at. intros (_ & _ & lo & Hs) -> ->. by apply (span_union_nil_l lo). Qed.

(** At the heads of the lists. *)
Lemma rest_gap yb ds d l y : bands_ok None ds -> rest_of yb ds (d :: l) -> yb <= y < top d -> at_y ds y = [].
Proof.
  intros Hok Hr Hy. rewrite (rest_at yb ds (d :: l)) by (done || lia). apply (at_y_above None); [|lia]. by apply (rest_ok yb ds).
Qed.
Lemma rest_band yb ds d l y : bands_ok None ds -> rest_of yb ds (d :: l) -> yb <= y -> top d <= y < bot d -> at_y ds y = spans d.
Proof.
  intros Hok Hr Hle Hy. rewrite (rest_at yb ds (d :: l)) by done. apply (at_y_in None _ d); [by apply (rest_ok yb ds)|left|done].
Qed.

(** The start of a turn at height [yb]. *)
Record turn (yb : Z) (os : list band) (s : building) (l1 l2 : list band) : Prop := {
  tn_built : built yb os s;
  tn_rest1 : rest_of yb ds1 l1;
  tn_rest2 : rest_of yb ds2 l2;
  tn_height : yb ∈ Y;
  tn_heads : match l1, l2 with d1 :: _, d2 :: _ => yb <= Z.max (top d1) (top d2) | _, _ => True end
}.

Section Heads.
Context (yb : Z) (os : list band) (s : building) (d1 d2 : band) (l1 l2 : list band).
Context (Ht : turn yb os s (d1 :: l1) (d2 :: l2)).

Lemma heads_ok : band_ok d1 /\ band_ok d2 /\ yb < bot d1 /\ yb < bot d2.
Proof.
  destruct Ht as [_ R1 R2 _ _]. split_and!.
  - by apply (rest_ok _ _ _ H1) in R1 as (_ & ? & _).
  - by apply (rest_ok _ _ _ H2) in R2 as (_ & ? & _).
  - apply R1. left.
  - apply R2. left.
Qed.
Lemma heads_within :
  (top d1 ∈ Y /\ bot d1 ∈ Y /\ Forall (fun s : span => s.1 ∈ X) (spans d1) /\ (length (spans d1) <= length X)%nat) /\
  (top d2 ∈ Y /\ bot d2 ∈ Y /\ Forall (fun s : span => s.1 ∈ X) (spans d2) /\ (length (spans d2) <= length X)%nat).
Proof.
  destruct Ht as [_ R1 R2 _ _]. destruct heads_ok as (O1 & O2 & _).
  pose proof (rest_within _ _ _ HW1 R1) as W1. pose proof (rest_within _ _ _ HW2 R2) as W2. split.
  - pose proof (within_spans X Y _ d1 W1 ltac:(left) O1). apply Forall_cons in W1 as [(?&?&?) _]. done.
  - pose proof (within_spans X Y _ d2 W2 ltac:(left) O2). apply Forall_cons in W2 as [(?&?&?) _]. done.
Qed.

(** Down to the height at which both begin, or the first of them ends. *)
Lemma turn_upper :
  exists s1 os1,
    (if top d1 <? top d2 then
       '(s, p) <-- op_alone al s true (prev_of os) (boxes d1) (Z.max (top d1) yb) (Z.min (bot d1) (top d2));
       Ret (s, p, top d2)
     else if top d2 <? top d1 then
       '(s, p) <-- op_alone al s true (prev_of os) (boxes d2) (Z.max (top d2) yb) (Z.min (bot d2) (top d1));
       Ret (s, p, top d1)
     else Ret (s, prev_of os, top d1)) = Ret (s1, prev_of os1, Z.max (top d1) (top d2)) /\
    built (Z.min (Z.max (top d1) (top d2)) (Z.min (bot d1) (bot d2))) os1 s1.
Proof.
  destruct heads_ok as (O1 & O2 & Hb1 & Hb2). destruct heads_within as ((T1 & Bt1 & X1 & L1) & (T2 & Bt2 & X2 & L2)).
  destruct Ht as [Hbl R1 R2 Hy Hh]. pose proof (proj1 O1). pose proof (proj1 O2).
  assert (HminY : forall a b, a ∈ Y -> b ∈ Y -> Z.min a b ∈ Y) by (intros a b ? ?; destruct (Z.min_spec a b) as [[_ ->]|[_ ->]]; done).
  assert (HmaxY : forall a b, a ∈ Y -> b ∈ Y -> Z.max a b ∈ Y) by (intros a b ? ?; destruct (Z.max_spec a b) as [[_ ->]|[_ ->]]; done).
  destruct (Z.ltb_spec (top d1) (top d2)) as [Hlt|Hge]; [|destruct (Z.ltb_spec (top d2) (top d1)) as [Hlt|Hge']].
  - destruct (op_alone_ok yb os s d1 (Z.max (top d1) yb) (Z.min (bot d1) (top d2)) Hbl O1 L1 X1) as (s1 & os1 & -> & Hb');
      [lia|by apply HmaxY|by apply HminY| | |].
    + intros y ?. apply union_nil; [apply (rest_gap yb ds1 d1 l1)|apply (rest_gap yb ds2 d2 l2)]; done || lia.
    + intros y ?. apply union_left; [done|apply (rest_band yb ds1 d1 l1)|apply (rest_gap yb ds2 d2 l2)]; done || lia.
    + cbn [obind]. exists s1, os1. split; [repeat f_equal; lia|]. by replace (Z.min (Z.max _ _) _) with (Z.min (bot d1) (top d2)) by lia.
  - destruct (op_alone_ok yb os s d2 (Z.max (top d2) yb) (Z.min (bot d2) (top d1)) Hbl O2 L2 X2) as (s1 & os1 & -> & Hb');
      [lia|by apply HmaxY|by apply HminY| | |].
    + intros y ?. apply union_nil; [apply (rest_gap yb ds1 d1 l1)|apply (rest_gap yb ds2 d2 l2)]; done || lia.
    + intros y ?. apply union_right; [done|apply (rest_gap yb ds1 d1 l1)|apply (rest_band yb ds2 d2 l2)]; done || lia.
    + cbn [obind]. exists s1, os1. split; [repeat f_equal; lia|]. by replace (Z.min (Z.max _ _) _) with (Z.min (bot d2) (top d1)) by lia.
  - exists s, os. split; [repeat f_equal; lia|]. apply (built_skip yb); [done|lia|].
    intros y ?. apply union_nil; [apply (rest_gap yb ds1 d1 l1)|apply (rest_gap yb ds2 d2 l2)]; done || lia.
Qed.

Lemma op_turn_ok :
  let yb' := Z.min (bot d1) (bot d2) in
  let l1' := if bot d1 =? yb' then l1 else d1 :: l1 in
  let l2' := if bot d2 =? yb' then l2 else d2 :: l2 in
  exists s' os',
    op_turn al (RegionUnionO al) true true s (rects (d1 :: l1)) (rects (d2 :: l2)) yb (prev_of os) =
      Ret (s', rects l1', rects l2', yb', prev_of os') /\
    turn yb' os' s' l1' l2'.
Proof.
  intros yb' l1' l2'. destruct turn_upper as (s1 & os1 & Hup & Hbl1).
  destruct heads_ok as (O1 & O2 & Hb1 & Hb2). destruct heads_within as ((T1 & Bt1 & X1 & L1) & (T2 & Bt2 & X2 & L2)).
  destruct Ht as [Hbl R1 R2 Hy Hh]. pose proof (proj1 O1). pose proof (proj1 O2).
  pose proof (rest_ok _ _ _ H1 R1) as K1. pose proof (rest_ok _ _ _ H2 R2) as K2.
  unfold op_turn. rewrite (FindBand_rects None d1 l1), (FindBand_rects None d2 l2) by done.
  destruct (rects_head None d1 l1 K1) as (b1 & r1 & E1 & Et1 & Eb1). destruct (rects_head None d2 l2 K2) as (b2 & r2 & E2 & Et2 & Eb2).
  rewrite E1, E2, Eb1, Eb2, Hup. cbn [obind]. rewrite <- E1, <- E2, !rest_rects by done. fold yb' l1' l2'.
  assert (HyY : yb' ∈ Y) by (subst yb'; destruct (Z.min_spec (bot d1) (bot d2)) as [[_ ->]|[_ ->]]; done).
  assert (Hn : forall os' s', built yb' os' s' -> turn yb' os' s' l1' l2').
  { intros os' s' Hb'. split; [done|apply (rest_next yb); done || lia|apply (rest_next yb); done || lia|done|].
    subst l1' l2'. destruct K1 as (_ & _ & K1), K2 as (_ & _ & K2).
    destruct (Z.eqb_spec (bot d1) yb'), (Z.eqb_spec (bot d2) yb'); try lia.
    - destruct l1, l2; try done. destruct K1 as ((? & _) & _). lia.
    - destruct l1; [done|]. destruct K1 as ((? & _) & _). lia.
    - destruct l2; [done|]. destruct K2 as ((? & _) & _). lia. }
  destruct (yb' >? Z.max (top d1) (top d2)) eqn:E; [apply Z.gtb_lt in E|apply Z.gtb_ltb, Z.ltb_ge in E || (rewrite Z.gtb_ltb in E; apply Z.ltb_ge in E)].
  - rewrite Z.min_l in Hbl1 by done || lia.
    destruct (op_both_ok (Z.max (top d1) (top d2)) os1 s1 d1 d2 (Z.max (top d1) (top d2)) yb' Hbl1 O1 O2 L1 L2 X1 X2)
      as (s2 & r' & os' & -> & Hc & Hb'); [lia| |done|lia| |].
    + destruct (Z.max_spec (top d1) (top d2)) as [[_ ->]|[_ ->]]; done.
    + intros y ?. split; [apply (rest_band yb ds1 d1 l1)|apply (rest_band yb ds2 d2 l2)]; done || lia.
    + cbn [obind]. rewrite Hc. cbn [obind]. eexists _, os'. split; [reflexivity|]. by apply Hn.
  - cbn [obind]. exists s1, os1. split; [done|]. apply Hn. by rewrite Z.min_r in Hbl1 by lia.
Qed.
End Heads.

Lemma op_loop_ok n yb os s l1 l2 :
  turn yb os s l1 l2 -> l1 <> [] -> l2 <> [] -> (length l1 + length l2 <= n)%nat ->
  exists s' l1' l2' yb' os',
    op_loop al (RegionUnionO al) true true n s (rects l1) (rects l2) yb (prev_of os) =
      Ret (s', rects l1', rects l2', yb', prev_of os') /\
    turn yb' os' s' l1' l2' /\ (l1' = [] \/ l2' = []).
Proof.
  revert yb os s l1 l2. induction n as [|n IH]; intros yb os s l1 l2 Ht Hn1 Hn2 Hlen.
  { destruct l1; [done|]. cbn in Hlen. lia. }
  destruct l1 as [|d1 l1]; [done|]. destruct l2 as [|d2 l2]; [done|]. cbn [op_loop].
  destruct (op_turn_ok yb os s d1 d2 l1 l2 Ht) as (s' & os' & -> & Ht'). cbn [obind].
  set (yb' := Z.min (bot d1) (bot d2)) in *.
  assert (Hless : (length (if (bot d1 =? yb')%Z then l1 else d1 :: l1) + length (if (bot d2 =? yb')%Z then l2 else d2 :: l2) <= n)%nat).
  { cbn in Hlen. destruct (Z.eqb_spec (bot d1) yb'), (Z.eqb_spec (bot d2) yb'); cbn; lia. }
  revert Ht' Hless. generalize (if bot d1 =? yb' then l1 else d1 :: l1) (if bot d2 =? yb' then l2 else d2 :: l2).
  intros l1' l2' Ht' Hless.
  destruct (decide (l1' = [])) as [->|Hn1'].
  { exists s', [], l2', yb', os'. split; [done|]. split; [done|by left]. }
  destruct (decide (l2' = [])) as [->|Hn2'].
  { exists s', l1', [], yb', os'. split; [by destruct (rects l1')|]. split; [done|by right]. }
  pose proof (rects_length None l1' (rest_ok _ _ _ H1 (tn_rest1 _ _ _ _ _ Ht'))) as G1.
  pose proof (rects_length None l2' (rest_ok _ _ _ H2 (tn_rest2 _ _ _ _ _ Ht'))) as G2.
  destruct (IH yb' os' s' l1' l2' Ht' Hn1' Hn2' Hless) as (s2 & m1 & m2 & yb2 & os2 & E & Ht2 & Hend).
  exists s2, m1, m2, yb2, os2. split; [|done]. rewrite <- E.
  destruct (rects l1') as [|b1 r1]; [by destruct l1'; cbn in G1; try lia|].
  destruct (rects l2') as [|b2 r2]; [by destruct l2'; cbn in G2; try lia|]. done.
Qed.

(** The region is built: at every height it has the spans of the union. *)
Record united (os : list band) (s : building) : Prop := {
  u_holds : holds (reg s) (rects os);
  u_ok : bands_ok None os;
  u_at : forall y, at_y os y = union_at y;
  u_over : overlap s = true <-> ov0 = true \/ exists y, over_at y = true;
  u_extents : extents (reg s) = e0;
  u_within : within X Y os
}.

(** The rest of the only region that is left. *)
Lemma op_rest_ok yb os s d l :
  built yb os s -> bands_ok None (d :: l) -> yb < bot d -> yb ∈ Y -> within X Y (d :: l) ->
  (forall y, yb <= y -> union_at y = at_y (d :: l) y /\ over_at y = false) ->
  exists s' os', op_rest al s (rects (d :: l)) yb (prev_of os) = Ret (true, s') /\ united os' s'.
Proof.
  intros Hbl Hok Hlt Hy Hw Hu. unfold op_rest. rewrite (FindBand_rects None d l) by done.
  destruct (rects_head None d l Hok) as (b & r & E & Et & Eb). rewrite E, Eb.
  pose proof (built_room _ _ _ Hbl) as Hr. pose proof Hok as (_ & Hd & Hl). pose proof Hd as (Hd1 & Hd2 & Hd3).
  pose proof (within_spans X Y _ d Hw ltac:(left) Hd) as Hlen.
  destruct (RegionAppendNonO_ok al Hal B HB s (rects os) (top d) (bot d) (Z.max (top d) yb) (bot d) (spans d)
    (b_holds _ _ _ Hbl)) as (s1 & Happ & Hg); [lia|done|lia|].
  change (map (box_of (top d) (bot d)) (spans d)) with (boxes d) in Happ. rewrite Happ. cbn [obind].
  set (d' := MkBand (Z.max (top d) yb) (bot d) (spans d)).
  apply Forall_cons in Hw as [(Hty & Hby & Hxs) Hwl].
  destruct (built_add yb os s s1 d' false Hbl Hg) as (r' & Hc & Hbl'); subst d'; cbn [top bot spans]; try done; try lia.
  { split; [cbn; lia|]. by split. }
  { intros y ?. destruct (Hu y ltac:(lia)) as [-> ->]. split; [|done]. apply (at_y_above None); [done|lia]. }
  { intros y ?. destruct (Hu y ltac:(lia)) as [-> ->]. split; [|done]. apply (at_y_in None _ d); [done|left|lia]. }
  { destruct (Z.max_spec (top d) yb) as [[_ ->]|[_ ->]]; done. }
  pose proof (b_holds _ _ _ Hbl) as (size & Hdata & _). unfold RegionNumRects at 1. rewrite Hdata, Hc.
  set (os1 := add_band os (MkBand (Z.max (top d) yb) (bot d) (spans d))) in *.
  pose proof (built_room _ _ _ Hbl') as Hr1.
  pose proof (count_bound (Some d) l X Y Hl Hwl) as Hrl.
  destruct (AppendRegions_ok al Hal B HB _ (rects os1) (rects l) (b_holds _ _ _ Hbl')) as (s2 & -> & [G1 G2 G3]); [lia|lia|].
  exists s2, (os1 ++ l). split; [done|]. rewrite <- rects_app in G1. destruct Hbl' as [B1' B2' B3' B4' B5' B6' B7'].
  assert (Hbelow : forall d', d' ∈ l -> bot d <= top d') by (intros d' Hin; by apply (bands_ok_below d d' l)).
  assert (Hlast : exists p, last os1 = Some p /\ bot p = bot d /\ spans p = spans d).
  { destruct (add_band_ok os (MkBand (Z.max (top d) yb) (bot d) (spans d)) (b_ok _ _ _ Hbl)) as (_ & Hp & _); cbn; [|intros p Hp|done].
    - split; [cbn; lia|]. by split.
    - pose proof (b_last _ _ _ Hbl p Hp). lia. }
  destruct Hlast as (p & Hp1 & Hp2 & Hp3). split.
  - done.
  - apply bands_ok_app. split; [done|]. unfold last_or. rewrite Hp1. destruct l as [|d2 l]; [done|].
    destruct Hl as (Hl1 & Hl2). split; [|done]. unfold linked in *. by rewrite Hp2, Hp3.
  - intros y. rewrite (at_y_split (bot d)); [|intros d' Hin; pose proof (bands_ends None os1 p d' B2' Hp1 Hin); lia|done].
    destruct (Z.ltb_spec y (bot d)) as [Hyd|Hyd].
    + rewrite B4'. by rewrite (proj2 (Z.ltb_lt _ _)).
    + rewrite (proj1 (Hu y ltac:(lia))). cbn. rewrite (proj2 (Z.ltb_ge y (bot d))) by done. by rewrite andb_false_r.
  - rewrite G2, orb_false_r, B5'. split; (intros [?|(y & Ho)]; [by left|right]); [exists y; by destruct Ho|].
    exists y. split; [|done]. destruct (Z.lt_ge_cases y (bot d)); [done|]. rewrite (proj2 (Hu y ltac:(lia))) in Ho. done.
  - by rewrite G3.
  - by apply within_app.
Qed.
End Loop.

(** ** The union of two regions *)

(** The form in which a region keeps its boxes. *)
Definition stored (r : RegionRec) (l : list BoxRec) : Prop :=
  match data r with
  | Null => l = [extents r]
  | Heap size l' => l' = l /\ (2 <= length l)%nat /\ 0 < size
  | _ => False
  end.

Lemma stored_rects r l : stored r l -> RegionRects r = l /\ RegionNar r = false /\ RegionNumRects r = length l.
Proof.
  unfold stored, RegionRects, RegionNar, RegionNumRects. destruct (data r); try done.
  - by intros ->.
  - by intros (-> & _).
Qed.

Section Union.
Context (al : allocator) (Hal : forall n z, al n z = true) (B : Z) (HB : 0 <= B /\ 4 * B + 4 < 268435453).

(** The room for the boxes when the new region is the first source. *)
Lemma op_start_ok s l n2 :
  stored (reg s) l -> (1 <= n2)%nat -> Z.of_nat (length l) <= B -> Z.of_nat n2 <= B ->
  exists s', op_start al s true false (length l) n2 = Ret (true, s') /\
    holds (reg s') [] /\ overlap s' = overlap s /\ extents (reg s') = extents (reg s).
Proof.
  intros Hs Hn2 Hl Hn. unfold op_start, stored in *. cbn [andb orb].
  assert (E : exists d, (if (1 <? length l)%nat || false then EmptyData else data (reg s)) = d /\ (d = EmptyData \/ d = Null)).
  { destruct (Nat.ltb_spec 1 (length l)); cbn [orb]; [by eexists; split; [|left]|]. destruct (data (reg s)) as [| | |size l']; try done.
    - by eexists; split; [|right].
    - destruct Hs as (_ & ? & _). lia. }
  destruct E as (d & -> & Hd).
  assert (Hsz : 2 * Z.max (Z.of_nat (length l)) (Z.of_nat n2) >? 0 = true) by (apply Z.gtb_lt; lia).
  assert (Hgoal : exists s',
    (let '(ok, r, k) := RegionRectAlloc al (calls s) (reg s <| data := EmptyData |>)
        (2 * Z.max (Z.of_nat (length l)) (Z.of_nat n2)) in
     Ret (ok, s <| reg := r |> <| calls := k |>)) = Ret (true, s') /\
    holds (reg s') [] /\ overlap s' = overlap s /\ extents (reg s') = extents (reg s)).
  { unfold RegionRectAlloc. cbn -[box_alloc Z.mul Z.max Z.of_nat].
    match goal with |- context [box_alloc al ?k ?m] =>
      pose proof (box_alloc_ok al Hal B HB k m ltac:(cbn; lia)) as Ha; destruct (box_alloc al k m) as [ok k'] end.
    cbn in Ha. subst ok. cbn. eexists. split; [reflexivity|]. cbn. split_and!; try done. eexists. split; [reflexivity|]. lia. }
  destruct Hd as [-> | ->]; rewrite Hsz; exact Hgoal.
Qed.

Lemma op_finish_ok s l :
  holds (reg s) l -> l <> [] -> Z.of_nat (length l) <= B ->
  exists s', op_finish al s = Ret s' /\ stored (reg s') l /\ overlap s' = overlap s /\
    (data (reg s') = Null \/ extents (reg s') = extents (reg s)).
Proof.
  intros (size & Hd & Hs) Hne Hl. unfold op_finish, RegionRects. rewrite Hd.
  destruct l as [|b [|c l]]; [done|..].
  - eexists. split; [reflexivity|]. cbn. split_and!; try done. by left.
  - unfold DOWNSIZE. rewrite Hd.
    destruct ((Z.of_nat (length (b :: c :: l)) <? Z.shiftr size 1) && (size >? 50)).
    + pose proof (box_alloc_ok al Hal B HB (calls s) (Z.of_nat (length (b :: c :: l))) ltac:(lia)) as Ha.
      destruct (box_alloc al (calls s) (Z.of_nat (length (b :: c :: l)))) as [ok k']. cbn in Ha. subst ok.
      eexists. split; [reflexivity|]. cbn. split_and!; try done; try lia. by right.
    + eexists. split; [reflexivity|]. unfold stored. cbn. rewrite Hd. cbn. split_and!; try done; try lia. by right.
Qed.

Context (ds1 ds2 : list band) (H1 : bands_ok None ds1) (H2 : bands_ok None ds2).
Context (X Y : list Z) (HW1 : within X Y ds1) (HW2 : within X Y ds2).
Context (Hroom : Z.of_nat (length X * length Y + 2 * length X) < B).

Lemma op_bands_ok s d1 l1 d2 l2 :
  ds1 = d1 :: l1 -> ds2 = d2 :: l2 -> holds (reg s) [] ->
  exists s' os,
    ('(s, r1, r2, ybot, prevBand) <--
       op_loop al (RegionUnionO al) true true (length (rects ds1) + length (rects ds2)) s (rects ds1) (rects ds2)
         (Z.min (top d1) (top d2)) 0;
     match r1, r2 with
     | _ :: _, _ => op_rest al s r1 ybot prevBand
     | [], _ :: _ => op_rest al s r2 ybot prevBand
     | [], [] => Ret (true, s)
     end) = Ret (true, s') /\
    united ds1 ds2 X Y (overlap s) (extents (reg s)) os s'.
Proof.
  intros E1 E2 Hh. pose proof H1 as K1. pose proof H2 as K2. rewrite E1 in K1. rewrite E2 in K2.
  pose proof K1 as (_ & O1 & L1). pose proof K2 as (_ & O2 & L2).
  set (yb := Z.min (top d1) (top d2)).
  assert (Habove : forall y, y < yb -> union_at ds1 ds2 y = [] /\ over_at ds1 ds2 y = false).
  { intros y Hy. apply union_nil; [rewrite E1|rewrite E2]; apply (at_y_above None); done || lia. }
  assert (Hturn : turn ds1 ds2 X Y (overlap s) (extents (reg s)) yb [] s ds1 ds2).
  { split.
    - split; try done.
      + intros y. cbn. destruct (Z.ltb_spec y yb); [|done]. by rewrite (proj1 (Habove y ltac:(lia))).
      + split; [by left|]. intros [?|(y & Hy & Ho)]; [done|]. rewrite (proj2 (Habove y Hy)) in Ho. done.
      + constructor.
    - split; [by exists []; split; [|intros d ?%not_elem_of_nil]|]. rewrite E1. intros d [->|Hin]%elem_of_cons; [destruct O1; lia|].
      pose proof (bands_ok_below d1 d l1 L1 Hin). destruct O1, (bands_ok_in _ _ _ L1 Hin). lia.
    - split; [by exists []; split; [|intros d ?%not_elem_of_nil]|]. rewrite E2. intros d [->|Hin]%elem_of_cons; [destruct O2; lia|].
      pose proof (bands_ok_below d2 d l2 L2 Hin). destruct O2, (bands_ok_in _ _ _ L2 Hin). lia.
    - rewrite E1 in HW1. rewrite E2 in HW2. apply Forall_cons in HW1 as [(? & _) _], HW2 as [(? & _) _].
      subst yb. destruct (Z.min_spec (top d1) (top d2)) as [[_ ->]|[_ ->]]; done.
    - rewrite E1, E2. lia. }
  destruct (op_loop_ok al Hal B HB ds1 ds2 H1 H2 X Y HW1 HW2 Hroom (overlap s) (extents (reg s))
    (length (rects ds1) + length (rects ds2)) yb [] s ds1 ds2 Hturn) as (s1 & m1 & m2 & yb1 & os1 & Eloop & Ht1 & Hend).
  { by rewrite E1. }
  { by rewrite E2. }
  { pose proof (rects_length _ _ H1). pose proof (rects_length _ _ H2). lia. }
  change (prev_of []) with 0%nat in Eloop. rewrite Eloop. cbn [obind].
  destruct Ht1 as [Hb R1 R2 Hy1 _]. pose proof (rest_ok _ _ _ H1 R1) as M1. pose proof (rest_ok _ _ _ H2 R2) as M2.
  destruct m1 as [|e1 m1]; [destruct m2 as [|e2 m2]|].
  - cbn [rects]. exists s1, os1. split; [done|]. destruct Hb as [B1' B2' B3' B4' B5' B6' B7'].
    assert (Hlow : forall y, yb1 <= y -> union_at ds1 ds2 y = [] /\ over_at ds1 ds2 y = false).
    { intros y Hy. apply union_nil; [by rewrite (rest_at _ _ _ _ R1 Hy)|by rewrite (rest_at _ _ _ _ R2 Hy)]. }
    split; try done.
    + intros y. rewrite B4'. destruct (Z.ltb_spec y yb1); [done|]. by rewrite (proj1 (Hlow y ltac:(lia))).
    + rewrite B5'. split; (intros [?|(y & Ho)]; [by left|right; exists y]); [by destruct Ho|]. split; [|done].
      destruct (Z.lt_ge_cases y yb1) as [|Hge]; [done|]. rewrite (proj2 (Hlow y Hge)) in Ho. done.
  - destruct (rects_head None e2 m2 M2) as (b & r & Er & _). change (rects []) with (@nil BoxRec). rewrite Er, <- Er.
    apply (op_rest_ok al Hal B HB ds1 ds2 X Y Hroom (overlap s) (extents (reg s)) yb1 os1 s1 e2 m2 Hb M2); try done.
    + apply R2. left.
    + by apply (rest_within X Y _ _ _ HW2 R2).
    + intros y Hy. unfold union_at, over_at. rewrite (rest_at _ _ _ _ R1 Hy), (rest_at _ _ _ _ R2 Hy).
      destruct (at_y_separated None (e2 :: m2) y M2) as [lo Hlo]. by apply (span_union_nil_l lo).
  - assert (m2 = []) as -> by by destruct Hend.
    destruct (rects_head None e1 m1 M1) as (b & r & Er & _). rewrite Er, <- Er.
    apply (op_rest_ok al Hal B HB ds1 ds2 X Y Hroom (overlap s) (extents (reg s)) yb1 os1 s1 e1 m1 Hb M1); try done.
    + apply R1. left.
    + by apply (rest_within X Y _ _ _ HW1 R1).
    + intros y Hy. unfold union_at, over_at. rewrite (rest_at _ _ _ _ R1 Hy), (rest_at _ _ _ _ R2 Hy).
      destruct (at_y_separated None (e1 :: m1) y M1) as [lo Hlo]. by apply (span_union_nil_r lo).
Qed.

(** The region [os] that [RegionOp] leaves. *)
Record joined (s s' : building) (os : list band) : Prop := {
  j_stored : stored (reg s') (rects os);
  j_ok : bands_ok None os;
  j_ne : os <> [];
  j_at : forall y, at_y os y = union_at ds1 ds2 y;
  j_over : overlap s' = true <-> overlap s = true \/ exists y, over_at ds1 ds2 y = true;
  j_extents : data (reg s') = Null \/ extents (reg s') = extents (reg s);
  j_within : within X Y os
}.

Lemma RegionOp_ok s r2 :
  stored (reg s) (rects ds1) -> stored r2 (rects ds2) -> ds1 <> [] -> ds2 <> [] ->
  exists s' os, RegionOp al (RegionUnionO al) true true s true false (reg s) r2 = Ret (true, s') /\ joined s s' os.
Proof.
  intros S1 S2 N1 N2. unfold RegionOp.
  destruct (stored_rects _ _ S1) as (-> & -> & _). destruct (stored_rects _ _ S2) as (-> & -> & _). cbn [orb].
  assert (exists d1 l1, ds1 = d1 :: l1) as (d1 & l1 & E1) by (clear -N1; destruct ds1; [done|by eexists _, _]).
  assert (exists d2 l2, ds2 = d2 :: l2) as (d2 & l2 & E2) by (clear -N2; destruct ds2; [done|by eexists _, _]).
  pose proof (count_bound None ds1 X Y H1 HW1) as C1. pose proof (count_bound None ds2 X Y H2 HW2) as C2.
  pose proof (rects_length _ _ H2) as G2.
  assert (1 <= length (rects ds2))%nat by (rewrite E2 in G2 at 1; cbn in G2; lia).
  destruct (op_start_ok s (rects ds1) (length (rects ds2)) S1) as (s0 & -> & Hh & Ho & He); [lia|lia|lia|]. cbn [obind negb].
  destruct (op_bands_ok s0 d1 l1 d2 l2 E1 E2 Hh) as (s1 & os & Hop & Hu).
  pose proof H1 as K1. rewrite E1 in K1. pose proof H2 as K2. rewrite E2 in K2.
  destruct (rects_head None d1 l1 K1) as (b1 & r1 & R1 & T1 & _). destruct (rects_head None d2 l2 K2) as (b2 & r2' & R2 & T2 & _).
  rewrite <- E1 in R1. rewrite <- E2 in R2. rewrite <- T1, <- T2 in Hop. revert Hop. rewrite R1, R2. intros Hop.
  assert (Hne : os <> []).
  { intros ->. pose proof (u_at _ _ _ _ _ _ _ _ Hu (top d1)) as Hat. symmetry in Hat. revert Hat. apply span_union_ne.
    left. rewrite E1, (at_y_first None) by done. by destruct K1 as (_ & (_ & ? & _) & _). }
  destruct (op_finish_ok s1 (rects os)) as (s2 & Hf & Hst & Ho2 & He2).
  { apply Hu. }
  { pose proof (rects_length _ _ (u_ok _ _ _ _ _ _ _ _ Hu)). intros Hnil. rewrite Hnil in *. by destruct os; cbn in *; try lia. }
  { pose proof (count_bound None os X Y (u_ok _ _ _ _ _ _ _ _ Hu) (u_within _ _ _ _ _ _ _ _ Hu)). lia. }
  exists s2, os. split.
  - destruct (op_loop al (RegionUnionO al) true true _ s0 (b1 :: r1) (b2 :: r2') _ 0) as [[[[[sx m1] m2] yx] px]| | |]; try done.
    cbn [obind] in *. destruct m1 as [|c1 m1]; [destruct m2 as [|c2 m2]|]; rewrite Hop; cbn [obind negb]; by rewrite Hf.
  - destruct Hu as [U1 U2 U3 U4 U5 U6]. split; try done.
    + by rewrite Ho2, U4, Ho.
    + destruct He2 as [?|He2]; [by left|right; congruence].
Qed.
End Union.
