(* ===== verification/RegionScatter.v ===== *)
(** * RegionScatter: boxes in order are put into regions under construction

    The scattering of [RegionValidate]: every box goes to the first region that
    it fits behind, or begins a new one.  What the regions have is what the
    boxes cover, and the flag is exact. *)

From S2P Require Import Prelude.
From S2P Require Import Region.
From S2P Require Import RegionSort.
From S2P Require Import RegionBand.
From S2P Require Import RegionUnion.
From S2P Require Import RegionJoin.
From S2P Require Import RegionLoop.
From Stdlib Require Import Sorting.Sorted.

(** ** Lists of boxes with the same points *)

(** The boxes [outs] in place of [ins]: the points are the same, and the flag
    tells whether a point was in several boxes that were merged. *)
Record unites (ov0 : bool) (ins : list BoxRec) (ov : bool) (outs : list BoxRec) : Prop := {
  un_points : forall x y, (0 < mult outs x y)%nat <-> (0 < mult ins x y)%nat;
  un_less : forall x y, (mult outs x y <= mult ins x y)%nat;
  un_over :
    if ov then ov0 = true \/ exists x y, (2 <= mult ins x y)%nat
    else ov0 = false /\ forall x y, mult outs x y = mult ins x y
}.

Lemma unites_same ov ins outs : (forall x y, mult outs x y = mult ins x y) -> unites ov ins ov outs.
Proof. intros E. split; [intros x y; by rewrite E|intros x y; rewrite E; lia|]. destruct ov; [by left|done]. Qed.
Lemma unites_trans ov1 ov2 ov3 l1 l2 l3 : unites ov1 l1 ov2 l2 -> unites ov2 l2 ov3 l3 -> unites ov1 l1 ov3 l3.
Proof.
  intros [A1 A2 A3] [B1 B2 B3]. split.
  - intros x y. by rewrite B1, A1.
  - intros x y. specialize (A2 x y). specialize (B2 x y). lia.
  - destruct ov3.
    + destruct B3 as [->|(x & y & Hxy)]; [done|]. right. exists x, y. specialize (A2 x y). lia.
    + destruct B3 as [-> B3]. destruct A3 as [-> A3]. split; [done|]. intros x y. by rewrite B3, A3.
Qed.
Lemma unites_frame ov ov' ins outs l : unites ov ins ov' outs -> unites ov (ins ++ l) ov' (outs ++ l).
Proof.
  intros [A1 A2 A3]. split.
  - intros x y. rewrite !mult_app. specialize (A1 x y). lia.
  - intros x y. rewrite !mult_app. specialize (A2 x y). lia.
  - destruct ov'.
    + destruct A3 as [->|(x & y & Hxy)]; [by left|]. right. exists x, y. rewrite mult_app. lia.
    + destruct A3 as [-> A3]. split; [done|]. intros x y. by rewrite !mult_app, A3.
Qed.
#[export] Instance unites_perm : Proper (eq ==> Permutation ==> eq ==> Permutation ==> iff) unites.
Proof.
  intros ov ? <- i i' Hi ov' ? <- o o' Ho.
  assert (Hm : forall x y, mult i x y = mult i' x y /\ mult o x y = mult o' x y) by (intros x y; by rewrite Hi, Ho).
  split; intros [A1 A2 A3]; split; intros; try (specialize (Hm x y) as [E1 E2]; specialize (A1 x y); specialize (A2 x y); lia).
  - destruct ov'.
    + destruct A3 as [->|(x & y & Hxy)]; [by left|]. right. exists x, y. rewrite <- (proj1 (Hm x y)). done.
    + destruct A3 as [-> A3]. split; [done|]. intros x y. destruct (Hm x y) as [<- <-]. apply A3.
  - destruct ov'.
    + destruct A3 as [->|(x & y & Hxy)]; [by left|]. right. exists x, y. rewrite (proj1 (Hm x y)). done.
    + destruct A3 as [-> A3]. split; [done|]. intros x y. destruct (Hm x y) as [-> ->]. apply A3.
Qed.

(** ** The smallest box around a set of points *)

Definition proper (b : BoxRec) : Prop := x1 b < x2 b /\ y1 b < y2 b.
Record hull (e : BoxRec) (f : Z -> Z -> Prop) : Prop := {
  h_in : forall x y, f x y -> x1 e <= x < x2 e /\ y1 e <= y < y2 e;
  h_left : exists y, f (x1 e) y;
  h_right : exists y, f (x2 e - 1) y;
  h_top : exists x, f x (y1 e);
  h_bot : exists x, f x (y2 e - 1)
}.

Lemma hull_unique e e' f : hull e f -> hull e' f -> e = e'.
Proof.
  intros [A1 [ya A2] [yb A3] [xa A4] [xb A5]] [B1 [yc B2] [yd B3] [xc B4] [xd B5]].
  pose proof (A1 _ _ B2). pose proof (A1 _ _ B3). pose proof (A1 _ _ B4). pose proof (A1 _ _ B5).
  pose proof (B1 _ _ A2). pose proof (B1 _ _ A3). pose proof (B1 _ _ A4). pose proof (B1 _ _ A5).
  destruct e, e'; cbn in *. f_equal; lia.
Qed.
Lemma hull_iff e f f' : (forall x y, f x y <-> f' x y) -> hull e f -> hull e f'.
Proof.
  intros E [A1 [ya A2] [yb A3] [xa A4] [xb A5]]. split; [|by eexists; apply E|by eexists; apply E|by eexists; apply E|by eexists; apply E].
  intros x y Hf. by apply A1, E.
Qed.
Lemma hull_join e1 e2 f1 f2 :
  hull e1 f1 -> hull e2 f2 ->
  hull (MkBox (Z.min (x1 e2) (x1 e1)) (Z.min (y1 e2) (y1 e1)) (Z.max (x2 e2) (x2 e1)) (Z.max (y2 e2) (y2 e1)))
    (fun x y => f1 x y \/ f2 x y).
Proof.
  intros [A1 [ya A2] [yb A3] [xa A4] [xb A5]] [B1 [yc B2] [yd B3] [xc B4] [xd B5]]. split; cbn.
  - intros x y [Hf|Hf]; [apply A1 in Hf|apply B1 in Hf]; lia.
  - destruct (Z.min_spec (x1 e2) (x1 e1)) as [[_ ->]|[_ ->]]; eauto.
  - destruct (Z.max_spec (x2 e2) (x2 e1)) as [[_ ->]|[_ ->]]; eauto.
  - destruct (Z.min_spec (y1 e2) (y1 e1)) as [[_ ->]|[_ ->]]; eauto.
  - destruct (Z.max_spec (y2 e2) (y2 e1)) as [[_ ->]|[_ ->]]; eauto.
Qed.

Definition covers (l : list BoxRec) (x y : Z) : Prop := (0 < mult l x y)%nat.
Lemma covers_both l l' x y : covers (l ++ l') x y <-> covers l x y \/ covers l' x y.
Proof. unfold covers. rewrite mult_app. lia. Qed.
Lemma inside_spec b x y : inside b x y = true <-> x1 b <= x < x2 b /\ y1 b <= y < y2 b.
Proof. unfold inside. rewrite !andb_true_iff, !Z.leb_le, !Z.ltb_lt. tauto. Qed.
Lemma covers_one b x y : covers [b] x y <-> x1 b <= x < x2 b /\ y1 b <= y < y2 b.
Proof.
  unfold covers. rewrite mult_cons, mult_nil, <- inside_spec. destruct (inside b x y); split; intros; try done; try lia.
Qed.
Lemma covers_in l b x y : b ∈ l -> covers [b] x y -> covers l x y.
Proof. intros (l1 & l2 & ->)%list_elem_of_split Hb. rewrite covers_both. right. change (b :: l2) with ([b] ++ l2). apply covers_both. by left. Qed.
Lemma covers_elem l x y : covers l x y <-> exists b, b ∈ l /\ covers [b] x y.
Proof.
  split; [|by intros (b & Hb & Hc); apply (covers_in l b)]. induction l as [|b l IH].
  - unfold covers. rewrite mult_nil. lia.
  - change (b :: l) with ([b] ++ l). rewrite covers_both. intros [Hc|Hc]; [exists b; split; [left|done]|].
    destruct (IH Hc) as (b' & Hb' & ?). exists b'. split; [by right|done].
Qed.
Lemma hull_one e b : proper b -> hull e (covers [b]) -> e = b.
Proof.
  intros [Hx Hy] He. apply (hull_unique e b _ He). split.
  - intros x y. by rewrite covers_one.
  - exists (y1 b). apply covers_one. lia.
  - exists (y1 b). apply covers_one. lia.
  - exists (x1 b). apply covers_one. lia.
  - exists (x1 b). apply covers_one. lia.
Qed.

(** ** Regions under construction *)

Lemma mult_add_band os d x y :
  bands_ok None os -> band_ok d -> (forall p, last os = Some p -> bot p <= top d) ->
  mult (rects (add_band os d)) x y = mult (rects os ++ boxes d) x y.
Proof.
  intros Hos Hd Hl. destruct (add_band_ok os d Hos Hd Hl) as (Hok & _ & Hat).
  rewrite (mult_rects None), Hat, mult_app, mult_boxes, (mult_rects None) by done.
  destruct (covers_y d y) eqn:E; [|lia]. apply covers_y_spec in E. rewrite (at_y_out os y); [done|].
  intros d' Hin. destruct (last os) as [p|] eqn:Ep; [|apply last_None in Ep as ->; by apply not_elem_of_nil in Hin].
  pose proof (bands_ends None os p d' Hos Ep Hin). specialize (Hl p eq_refl). lia.
Qed.

Lemma separated_snoc lo l s : separated lo (l ++ [s]) <-> separated lo l /\ (forall t, t ∈ l -> t.2 < s.1) /\ lo < s.1 < s.2.
Proof.
  revert lo. induction l as [|t l IH]; intros lo; cbn.
  - split; [intros (?&?&_); split_and!; try done; by intros t ?%not_elem_of_nil|]. tauto.
  - rewrite IH. split.
    + intros (A1 & A2 & A3 & A4 & A5). split_and!; try done; try lia. intros t' [->|Hin]%elem_of_cons; [lia|by apply A4].
    + intros ((A1 & A2 & A3) & A4 & A5). split_and!; try done; try lia.
      * intros t' Hin. apply A4. by right.
      * by apply A4; left.
Qed.

Section Scatter.
Context (al : allocator) (Hal : forall n z, al n z = true) (B : Z) (HB : 0 <= B /\ 4 * B + 4 < 268435453).
Context (X Y : list Z) (Hroom : Z.of_nat (length X * length Y + 2 * length X) < B).

(** The extents while a region grows: [right] is what they take in on the
    right, the bands before the last. *)
Record extends (e : BoxRec) (f right : Z -> Z -> Prop) : Prop := {
  e_left : forall x y, f x y -> x1 e <= x;
  e_left_at : exists y, f (x1 e) y;
  e_top : forall x y, f x y -> y1 e <= y;
  e_top_at : exists x, f x (y1 e);
  e_right : forall x y, right x y -> x < x2 e;
  e_right_at : exists x y, f x y /\ x2 e <= x + 1
}.

(** A region with the bands [os] and below them a band from [t] to [b] with the
    spans [ss] and, last, [sp]. *)
Definition lowest (t b : Z) (ss : list span) (sp : span) : band := MkBand t b (ss ++ [sp]).
Record growing (rit : RegionInfo) (os : list band) (t b : Z) (ss : list span) (sp : span) : Prop := {
  g_holds : holds (ri_reg rit) (rects os ++ boxes (lowest t b ss sp));
  g_prev : prevBand rit = prev_of os;
  g_cur : curBand rit = length (rects os);
  g_ok : bands_ok None os;
  g_band : band_ok (lowest t b ss sp);
  g_last : forall p, last os = Some p -> bot p <= t;
  g_within : within X Y os;
  g_inside : t ∈ Y /\ b ∈ Y /\ Forall (fun s : span => s.1 ∈ X) (ss ++ [sp]);
  g_extents : extends (extents (ri_reg rit)) (covers (rects os ++ boxes (lowest t b ss sp))) (covers (rects os))
}.
Definition grown_boxes os t b ss sp : list BoxRec := rects os ++ boxes (lowest t b ss sp).

Lemma boxes_lowest t b ss sp : boxes (lowest t b ss sp) = map (box_of t b) ss ++ [box_of t b sp].
Proof. unfold boxes, lowest. cbn. by rewrite map_app. Qed.

Lemma growing_room rit os t b ss sp :
  growing rit os t b ss sp -> Z.of_nat (length (rects os ++ boxes (lowest t b ss sp))) < B.
Proof.
  intros Hg. pose proof (count_bound None os X Y (g_ok _ _ _ _ _ _ Hg) (g_within _ _ _ _ _ _ Hg)) as Hc.
  destruct Hg as [_ _ _ _ Gb _ _ (Ht & Hb & Hx) _].
  pose proof (within_spans X Y [lowest t b ss sp] (lowest t b ss sp)) as Hs.
  rewrite length_app, length_boxes. assert (length (spans (lowest t b ss sp)) <= length X)%nat; [|lia].
  apply Hs; [|left|done]. repeat constructor; done.
Qed.

(** What a box adds to the extents when it is not left of them or above. *)
Lemma extends_more e (f f' right : Z -> Z -> Prop) b :
  (forall x y, f' x y <-> f x y \/ covers [b] x y) -> x1 e <= x1 b -> y1 e <= y1 b -> extends e f right -> extends e f' right.
Proof.
  intros Hf Hx Hy [A1 [ya A2] A3 [xa A4] A5 (xb & yb & A6 & A7)]. split; try done.
  - intros x y [?|Hc]%Hf; [by apply (A1 x y)|]. apply covers_one in Hc. lia.
  - exists ya. apply Hf. by left.
  - intros x y [?|Hc]%Hf; [by apply (A3 x y)|]. apply covers_one in Hc. lia.
  - exists xa. apply Hf. by left.
  - exists xb, yb. split; [apply Hf; by left|done].
Qed.

Lemma extends_corner rit os t b ss sp :
  growing rit os t b ss sp -> x1 (extents (ri_reg rit)) <= sp.1 /\ y1 (extents (ri_reg rit)) <= t.
Proof.
  intros [_ _ _ _ (Hb1 & _ & lo & Hs) _ _ _ [E1 _ E3 _ _ _]]. cbn in Hb1, Hs. apply separated_snoc in Hs as (_ & _ & Hs).
  assert (Hc : covers (rects os ++ boxes (lowest t b ss sp)) sp.1 t).
  { rewrite boxes_lowest, !covers_both. right. right. apply covers_one. cbn. lia. }
  split; [by apply (E1 _ _ Hc)|by apply (E3 _ _ Hc)].
Qed.

(** A box beside the last one. *)
Lemma growing_merge rit os t b ss sp bx r :
  growing rit os t b ss sp -> proper bx -> y1 bx = t -> y2 bx = b -> sp.1 <= x1 bx <= sp.2 ->
  let sp' := (sp.1, if x2 bx >? sp.2 then x2 bx else sp.2) in
  holds r (grown_boxes os t b ss sp') -> extents r = extents (ri_reg rit) ->
  growing (MkRI r (prevBand rit) (curBand rit)) os t b ss sp' /\
  forall ov, unites ov (grown_boxes os t b ss sp ++ [bx]) (ov || (x1 bx <? sp.2)) (grown_boxes os t b ss sp').
Proof.
  intros Hg [Hp1 Hp2] Ht Hb Hx sp' Hr He. pose proof (extends_corner _ _ _ _ _ _ Hg) as [Hc1 Hc2].
  destruct Hg as [_ G2 G3 G4 (G5a & _ & lo & G5c) G6 G7 (G8a & G8b & G8c) G9]. cbn in G5a, G5c.
  assert (Hsp : sp'.2 = Z.max (x2 bx) sp.2) by (subst sp'; cbn; destruct (Z.gtb_spec (x2 bx) sp.2); lia).
  assert (Hm : forall x y, mult (grown_boxes os t b ss sp' ) x y = (mult (rects os ++ map (box_of t b) ss) x y + mult [box_of t b sp'] x y)%nat /\
    mult (grown_boxes os t b ss sp) x y = (mult (rects os ++ map (box_of t b) ss) x y + mult [box_of t b sp] x y)%nat).
  { intros x y. unfold grown_boxes. rewrite !boxes_lowest, !app_assoc, !(mult_app _ [_]). done. }
  assert (Hone : forall x y, (mult [box_of t b sp'] x y <= mult [box_of t b sp] x y + mult [bx] x y)%nat /\
    ((0 < mult [box_of t b sp'] x y)%nat <-> (0 < mult [box_of t b sp] x y + mult [bx] x y)%nat) /\
    (sp.2 <= x1 bx -> mult [box_of t b sp'] x y = (mult [box_of t b sp] x y + mult [bx] x y)%nat)).
  { intros x y. rewrite !mult_cons, !mult_nil. unfold inside, box_of. cbn [x1 x2 y1 y2]. rewrite Ht, Hb, Hsp. change sp'.1 with sp.1.
    destruct (Z.leb_spec t y), (Z.ltb_spec y b), (Z.leb_spec sp.1 x), (Z.leb_spec (x1 bx) x), (Z.ltb_spec x (x2 bx)),
      (Z.ltb_spec x sp.2), (Z.ltb_spec x (Z.max (x2 bx) sp.2)); cbn; repeat split; intros; lia. }
  split.
  - split; cbn; try done.
    + split; [done|]. split; [by destruct ss|]. exists lo. cbn. apply separated_snoc in G5c as (S1 & S2 & S3).
      apply separated_snoc. split_and!; [done|done|cbn; lia|]. rewrite Hsp. cbn. lia.
    + split_and!; try done. apply Forall_app in G8c as [? Hs1]. apply Forall_cons in Hs1 as [Hs1 _]. apply Forall_app. split; [done|].
      by repeat constructor.
    + rewrite He. apply (extends_more _ (covers (grown_boxes os t b ss sp)) (covers (grown_boxes os t b ss sp')) _ bx); [|lia|lia|done].
      intros x y. unfold covers. destruct (Hm x y) as [-> ->], (Hone x y) as (_ & Hpos & _). lia.
  - intros ov. split.
    + intros x y. rewrite mult_app. destruct (Hm x y) as [-> ->], (Hone x y) as (_ & Hpos & _). lia.
    + intros x y. rewrite mult_app. destruct (Hm x y) as [-> ->], (Hone x y) as (Hle & _ & _). lia.
    + destruct (Z.ltb_spec (x1 bx) sp.2) as [Hlt|Hge]; rewrite ?orb_true_r, ?orb_false_r.
      * right. exists (x1 bx), t. rewrite mult_app, (proj2 (Hm _ _)).
        assert (Hin1 : covers [box_of t b sp] (x1 bx) t) by (apply covers_one; cbn; lia).
        assert (Hin2 : covers [bx] (x1 bx) t) by (apply covers_one; lia). unfold covers in *. lia.
      * assert (E : forall x y, mult (grown_boxes os t b ss sp') x y = mult (grown_boxes os t b ss sp ++ [bx]) x y).
        { intros x y. rewrite mult_app. destruct (Hm x y) as [-> ->], (Hone x y) as (_ & _ & Heq). rewrite Heq by done. lia. }
        destruct ov; [by left|done].
Qed.

(** A box to the right of the last one. *)
Lemma growing_push rit os t b ss sp bx r :
  growing rit os t b ss sp -> proper bx -> y1 bx = t -> y2 bx = b -> sp.2 < x1 bx -> x1 bx ∈ X ->
  holds r (grown_boxes os t b ss sp ++ [bx]) -> extents r = extents (ri_reg rit) ->
  growing (MkRI r (prevBand rit) (curBand rit)) os t b (ss ++ [sp]) (x1 bx, x2 bx) /\
  grown_boxes os t b (ss ++ [sp]) (x1 bx, x2 bx) = grown_boxes os t b ss sp ++ [bx].
Proof.
  intros Hg [Hp1 Hp2] Ht Hb Hx HxX Hr He. pose proof (extends_corner _ _ _ _ _ _ Hg) as [Hc1 Hc2].
  destruct Hg as [_ G2 G3 G4 (G5a & _ & lo & G5c) G6 G7 (G8a & G8b & G8c) G9]. cbn in G5a, G5c.
  assert (Hsp : sp.1 < sp.2) by (apply separated_snoc in G5c; tauto).
  assert (E : grown_boxes os t b (ss ++ [sp]) (x1 bx, x2 bx) = grown_boxes os t b ss sp ++ [bx]).
  { unfold grown_boxes. rewrite !boxes_lowest, map_app, <- !app_assoc. cbn. do 3 f_equal.
    subst t b. unfold box_of. cbn. by destruct bx. }
  split; [|done]. split; cbn; try done.
  - change (holds r (grown_boxes os t b (ss ++ [sp]) (x1 bx, x2 bx))). by rewrite E.
  - split; [done|]. split; [by destruct ss|]. exists lo. cbn. apply separated_snoc. split; [done|].
    apply separated_snoc in G5c as (S1 & S2 & S3). cbn. split; [|split; [|done]].
    + intros u [Hu| ->%list_elem_of_singleton]%elem_of_app; [specialize (S2 u Hu); lia|done].
    + lia.
  - split_and!; try done. apply Forall_app. split; [done|]. by repeat constructor.
  - rewrite He. apply (extends_more _ (covers (grown_boxes os t b ss sp)) (covers (grown_boxes os t b (ss ++ [sp]) (x1 bx, x2 bx))) _ bx);
      [|lia|lia|done].
    intros x y. rewrite E. apply covers_both.
Qed.

Definition wider (e bx last : BoxRec) : BoxRec :=
  e <| x2 := if x2 e <? x2 last then x2 last else x2 e |> <| x1 := if x1 e >? x1 bx then x1 bx else x1 e |>.

Lemma boxes_right t b ss sp x y :
  band_ok (lowest t b ss sp) -> covers (boxes (lowest t b ss sp)) x y -> x < sp.2 /\ t <= y < b.
Proof.
  clear HB Hroom. intros (_ & _ & lo & Hs) (bx & Hbx & Hc)%covers_elem. apply covers_one in Hc. cbn in Hs. apply separated_snoc in Hs as (_ & Hs & Hsp).
  unfold boxes in Hbx. apply list_elem_of_fmap in Hbx as (s & -> & Hin). cbn in *.
  apply elem_of_app in Hin as [Hin| ->%list_elem_of_singleton]; [specialize (Hs s Hin)|]; lia.
Qed.
Lemma boxes_last t b ss sp : band_ok (lowest t b ss sp) -> covers (boxes (lowest t b ss sp)) (sp.2 - 1) (b - 1).
Proof.
  clear HB Hroom. intros (Hlt & _ & lo & Hs). cbn in Hlt, Hs. apply separated_snoc in Hs as (_ & _ & Hs). rewrite boxes_lowest, covers_both. right.
  apply covers_one. cbn. lia.
Qed.

(** A box below the last band, which is coalesced with the one before it. *)
Lemma growing_below rit os t b ss sp bx r r' :
  growing rit os t b ss sp -> proper bx -> b <= y1 bx -> x1 bx ∈ X -> y1 bx ∈ Y -> y2 bx ∈ Y ->
  holds r (rects (add_band os (lowest t b ss sp))) -> extents r = wider (extents (ri_reg rit)) bx (box_of t b sp) ->
  holds r' (rects (add_band os (lowest t b ss sp)) ++ [bx]) -> extents r' = extents r ->
  let os' := add_band os (lowest t b ss sp) in
  growing (MkRI r' (prev_of os') (length (rects os'))) os' (y1 bx) (y2 bx) [] (x1 bx, x2 bx) /\
  forall x y, mult (grown_boxes os' (y1 bx) (y2 bx) [] (x1 bx, x2 bx)) x y = mult (grown_boxes os t b ss sp ++ [bx]) x y.
Proof.
  intros Hg [Hp1 Hp2] Hb HxX Ht' Hb' Hr He Hr' He' os'. pose proof (extends_corner _ _ _ _ _ _ Hg) as [Hc1 Hc2].
  destruct Hg as [_ G2 G3 G4 G5 G6 G7 (G8a & G8b & G8c) [E1 [ya E2] E3 [xa E4] E5 (xb & yb & E6 & E7)]].
  pose proof (proj1 G5) as Hlt. cbn in Hlt.
  destruct (add_band_ok os (lowest t b ss sp) G4 G5 G6) as (Hok & (p & Hp & Hpb & _) & _). fold os' in Hok, Hp.
  assert (Ebx : boxes (lowest (y1 bx) (y2 bx) [] (x1 bx, x2 bx)) = [bx]) by by destruct bx.
  assert (Hm : forall x y, mult (rects os') x y = mult (rects os ++ boxes (lowest t b ss sp)) x y) by (intros; by apply mult_add_band).
  assert (Hf : forall x y, covers (rects os') x y <-> covers (rects os ++ boxes (lowest t b ss sp)) x y) by (intros; unfold covers; by rewrite Hm).
  assert (Hf' : forall x y, covers (rects os' ++ [bx]) x y <-> covers (rects os ++ boxes (lowest t b ss sp)) x y \/ covers [bx] x y)
    by (intros; by rewrite covers_both, Hf).
  assert (Hx1 : x1 (extents r) = Z.min (x1 (extents (ri_reg rit))) (x1 bx)).
  { rewrite He. unfold wider. cbn. destruct (Z.gtb_spec (x1 (extents (ri_reg rit))) (x1 bx)); lia. }
  assert (Hx2 : x2 (extents r) = Z.max (x2 (extents (ri_reg rit))) sp.2).
  { rewrite He. unfold wider. cbn. destruct (Z.ltb_spec (x2 (extents (ri_reg rit))) sp.2); lia. }
  assert (Hy1 : y1 (extents r) = y1 (extents (ri_reg rit))) by by rewrite He.
  pose proof (boxes_last _ _ _ _ G5) as Hlast. split.
  2: { intros x y. unfold grown_boxes. rewrite Ebx, !mult_app, Hm, mult_app. done. }
  split; try done.
  - rewrite Ebx. exact Hr'.
  - split; [done|]. split; [done|]. exists (x1 bx - 1). cbn. lia.
  - intros p'. rewrite Hp. intros [= <-]. rewrite Hpb. done.
  - by apply add_band_within.
  - split_and!; try done. by repeat constructor.
  - rewrite Ebx. cbn [ri_reg]. rewrite He'. split.
    + intros x y [Hc|Hc]%Hf'; rewrite Hx1; [specialize (E1 _ _ Hc)|apply covers_one in Hc]; lia.
    + rewrite Hx1. destruct (Z.min_spec (x1 (extents (ri_reg rit))) (x1 bx)) as [[_ ->]|[_ ->]].
      * exists ya. apply Hf'. by left.
      * exists (y1 bx). apply Hf'. right. apply covers_one. lia.
    + intros x y [Hc|Hc]%Hf'; rewrite Hy1; [by apply (E3 x y)|]. apply covers_one in Hc. lia.
    + rewrite Hy1. exists xa. apply Hf'. by left.
    + intros x y Hc%Hf. rewrite Hx2. apply covers_both in Hc as [Hc|Hc]; [specialize (E5 _ _ Hc); lia|].
      apply (boxes_right _ _ _ _ _ _ G5) in Hc. lia.
    + rewrite Hx2. destruct (Z.max_spec (x2 (extents (ri_reg rit))) sp.2) as [[_ ->]|[_ ->]].
      * exists (sp.2 - 1), (b - 1). split; [|lia]. apply Hf'. left. apply covers_both. by right.
      * exists xb, yb. split; [|done]. apply Hf'. by left.
Qed.

(** ** Scattering *)

(** A region under construction with the boxes [l], none of them after [bx]. *)
Definition under (bx : BoxRec) (rit : RegionInfo) (l : list BoxRec) : Prop :=
  exists os t b ss sp, growing rit os t b ss sp /\ l = grown_boxes os t b ss sp /\ box_le (box_of t b sp) bx.
(** The sides of a box are among those that occur. *)
Definition placed (bx : BoxRec) : Prop := proper bx /\ x1 bx ∈ X /\ y1 bx ∈ Y /\ y2 bx ∈ Y.

Lemma under_later bx bx' rit l : box_le bx bx' -> under bx rit l -> under bx' rit l.
Proof. intros Hle (os & t & b & ss & sp & Hg & Hl & Hs). exists os, t, b, ss, sp. split_and!; try done. by transitivity bx. Qed.

Lemma scatter_fit_ok k ov rit l bx :
  under bx rit l -> placed bx ->
  scatter_fit al k ov rit bx = Ret None \/
  exists rit' ov' k' l', scatter_fit al k ov rit bx = Ret (Some (true, rit', ov', k')) /\
    under bx rit' l' /\ unites ov (l ++ [bx]) ov' l'.
Proof.
  intros (os & t & b & ss & sp & Hg & -> & Hle) (Hp & HxX & HyY & HyY').
  pose proof Hg as [(size & Hd & Hs) G2 G3 G4 G5 G6 _ _ _]. pose proof (growing_room _ _ _ _ _ _ Hg) as Hr.
  fold (grown_boxes os t b ss sp) in Hd, Hr. apply box_le_spec in Hle. cbn in Hle.
  assert (Esnoc : exists l0, forall s, grown_boxes os t b ss s = l0 ++ [box_of t b s]).
  { exists (rects os ++ map (box_of t b) ss). intros s. unfold grown_boxes. by rewrite boxes_lowest, app_assoc. }
  destruct Esnoc as [l0 Esnoc].
  unfold scatter_fit. rewrite Hd, Esnoc, last_snoc, removelast_last. cbn [box_of x1 x2 y1 y2].
  destruct ((y1 bx =? t) && (y2 bx =? b)) eqn:Esame; [apply andb_true_iff in Esame as [Et%Z.eqb_eq Eb%Z.eqb_eq];
    destruct (Z.leb_spec (x1 bx) sp.2) as [Hx|Hx]|destruct (Z.geb_spec (y1 bx) b) as [Hb|Hb]].
  - right. destruct (growing_merge rit os t b ss sp bx
      (ri_reg rit <| data := Heap size (l0 ++ [box_of t b (sp.1, if x2 bx >? sp.2 then x2 bx else sp.2)]) |>) Hg Hp Et Eb ltac:(lia))
      as [Hg' Hu].
    { exists size. by rewrite Esnoc. }
    { done. }
    eexists _, _, _, _. split; [reflexivity|]. split; [|rewrite <- Esnoc; apply Hu].
    eexists _, _, _, _, _. split; [exact Hg'|]. split; [done|]. apply box_le_spec. cbn. lia.
  - right.
    assert (Hh : holds (ri_reg rit) (grown_boxes os t b ss sp)) by by exists size.
    destruct (RECTALLOC_ok al Hal B HB k (ri_reg rit) _ 1 Hh ltac:(lia)) as (r1 & k1 & -> & Hh1 & He1); [lia|]. cbn [negb].
    destruct (push_ok r1 _ [bx] Hh1) as (r2 & -> & Hh2 & He2). cbn [obind].
    destruct (growing_push rit os t b ss sp bx r2 Hg Hp Et Eb Hx HxX Hh2 ltac:(congruence)) as [Hg' E].
    eexists _, _, _, (grown_boxes os t b (ss ++ [sp]) (x1 bx, x2 bx)). split; [reflexivity|]. split.
    + eexists _, _, _, _, _. split; [exact Hg'|]. split; [done|]. apply box_le_spec. cbn. lia.
    + rewrite E, Esnoc. by apply unites_same.
  - right. set (r1 := ri_reg rit <| extents ::= _ |>).
    assert (Hr1 : holds r1 (rects os ++ boxes (lowest t b ss sp)) /\ extents r1 = wider (extents (ri_reg rit)) bx (box_of t b sp)).
    { split; [by exists size|]. done. }
    destruct Hr1 as [Hr1 Hr1e]. clearbody r1. rewrite G2, G3.
    destruct (Coalesce_spec r1 os (lowest t b ss sp) Hr1) as (r2 & -> & Hr2 & Hr2e).
    { apply Forall_forall. intros p Hin. by apply (bands_ok_in None os p G4) in Hin as (_ & ? & _). }
    { by destruct G5 as (_ & ? & _). }
    set (os' := add_band os (lowest t b ss sp)) in *.
    assert (Hnum : RegionNumRects r2 = length (rects os')) by (destruct Hr2 as (sz & Hr2 & _); unfold RegionNumRects; by rewrite Hr2).
    rewrite Hnum.
    assert (Hlen : Z.of_nat (length (rects os')) <= B).
    { pose proof (add_band_ok os (lowest t b ss sp) G4 G5 G6) as (Hok' & _). destruct Hg as [_ _ _ _ _ _ Gw (Gt & Gb & Gx) _].
      pose proof (count_bound None os' X Y Hok' (add_band_within X Y _ (lowest t b ss sp) Gw Gt Gb Gx)). lia. }
    destruct (RECTALLOC_ok al Hal B HB k r2 _ 1 Hr2 Hlen) as (r3 & k3 & -> & Hh3 & He3); [lia|]. cbn [negb].
    destruct (push_ok r3 _ [bx] Hh3) as (r4 & -> & Hh4 & He4). cbn [obind].
    destruct (growing_below rit os t b ss sp bx r2 r4 Hg Hp ltac:(lia) HxX HyY HyY' Hr2 ltac:(congruence) Hh4 ltac:(congruence)) as [Hg' Hm].
    fold os' in Hg', Hm. eexists _, _, _, _. split; [reflexivity|]. split.
    + eexists _, _, _, _, _. split; [exact Hg'|]. split; [done|]. apply box_le_spec. cbn. lia.
    + rewrite <- Esnoc. by apply unites_same.
  - by left.
Qed.

Lemma scatter_box_ok k ov ri ls bx :
  Forall2 (under bx) ri ls -> placed bx ->
  scatter_box al k ov ri bx = Ret None \/
  exists ri' ov' k' ls', scatter_box al k ov ri bx = Ret (Some (true, ri', ov', k')) /\
    Forall2 (under bx) ri' ls' /\ unites ov (mjoin ls ++ [bx]) ov' (mjoin ls').
Proof.
  intros Hri Hb. induction Hri as [|rit l ri ls Hu Hri IH]; [by left|]. cbn [scatter_box].
  destruct (scatter_fit_ok k ov rit l bx Hu Hb) as [-> | (rit' & ov' & k' & l' & -> & Hu' & Hun)]; cbn [obind].
  - destruct IH as [-> | (ri' & ov' & k' & ls' & -> & Hu' & Hun)]; cbn [obind]; [by left|]. right.
    eexists _, _, _, (l :: ls'). split; [reflexivity|]. split; [by constructor|].
    change (mjoin (l :: ls)) with (l ++ mjoin ls). change (mjoin (l :: ls')) with (l ++ mjoin ls').
    rewrite <- app_assoc, (Permutation_app_comm l (mjoin ls ++ [bx])), (Permutation_app_comm l (mjoin ls')). by apply unites_frame.
  - right. eexists _, _, _, (l' :: ls). split; [reflexivity|]. split; [by constructor|].
    change (mjoin (l :: ls)) with (l ++ mjoin ls). change (mjoin (l' :: ls)) with (l' ++ mjoin ls).
    rewrite <- app_assoc, (Permutation_app_comm (mjoin ls) [bx]), app_assoc. by apply unites_frame.
Qed.

Lemma growing_one bx n : proper bx -> x1 bx ∈ X -> y1 bx ∈ Y -> y2 bx ∈ Y -> 0 < n ->
  under bx (MkRI (MkRegion bx (Heap n [bx])) 0 0) [bx].
Proof.
  clear HB Hroom. intros [Hp1 Hp2] HxX HyY HyY' Hn.
  assert (E : boxes (lowest (y1 bx) (y2 bx) [] (x1 bx, x2 bx)) = [bx]) by by destruct bx.
  exists [], (y1 bx), (y2 bx), [], (x1 bx, x2 bx). split; [|split].
  - split; try done.
    + rewrite E. by exists n.
    + split; [done|]. split; [done|]. exists (x1 bx - 1). cbn. lia.
    + constructor.
    + split_and!; try done. by repeat constructor.
    + rewrite E. change (rects [] ++ [bx]) with [bx]. split; cbn.
      * intros x y Hc%covers_one. lia.
      * exists (y1 bx). apply covers_one. lia.
      * intros x y Hc%covers_one. lia.
      * exists (x1 bx). apply covers_one. lia.
      * intros x y. unfold covers. rewrite mult_nil. lia.
      * exists (x2 bx - 1), (y1 bx). rewrite covers_one. lia.
  - unfold grown_boxes. by rewrite E.
  - apply box_le_spec. cbn. lia.
Qed.

Lemma scatter_ok k ov sizeRI ri ls b0 l :
  Forall2 (under b0) ri ls -> StronglySorted box_le (b0 :: l) -> Forall placed l -> Z.of_nat (length l) <= B ->
  exists ri' ov' k' ls' b1, scatter al k ov sizeRI ri l = Ret (Some (ri', ov'), k') /\
    Forall2 (under b1) ri' ls' /\ unites ov (mjoin ls ++ l) ov' (mjoin ls').
Proof.
  revert k ov sizeRI ri ls b0. induction l as [|bx l IH]; intros k ov sizeRI ri ls b0 Hri Hsort Hpl Hlen.
  { eexists _, _, _, ls, b0. split; [reflexivity|]. split; [done|]. rewrite app_nil_r. by apply unites_same. }
  inversion Hsort as [|? ? Hsort' Hb0]; subst. apply Forall_cons in Hb0 as [Hb0 _]. apply Forall_cons in Hpl as [Hbx Hpl].
  assert (Hri' : Forall2 (under bx) ri ls) by (eapply Forall2_impl; [exact Hri|]; intros; by apply (under_later b0)).
  cbn [scatter]. destruct (scatter_box_ok k ov ri ls bx Hri' Hbx) as [-> | (ri1 & ov1 & k1 & ls1 & -> & Hri1 & Hun1)]; cbn [obind negb].
  - match goal with |- context [if ?c then (al ?a ?b, ?d, ?e) else ?f] =>
      assert (Ha : exists k2 sz2, (if c then (al a b, d, e) else f) = (true, k2, sz2)) by (destruct c; [rewrite Hal|]; by eexists _, _);
      destruct Ha as (k2 & sz2 & ->) end.
    cbn [negb]. unfold RegionRectAlloc. cbn [data extents].
    match goal with |- context [box_alloc al ?a ?n] =>
      assert (Hn : 0 < n <= 2 * B + 2); [|pose proof (box_alloc_ok al Hal B HB a n ltac:(lia)) as Hok; destruct (box_alloc al a n) as [ok k3];
        revert Hn Hok; generalize n; intros n' Hn Hok] end.
    { set (c := Z.of_nat (length ri) + 1). assert (0 < c) by (subst c; lia). cbn [length] in *. split.
      - assert (0 <= (Z.of_nat (S (length l)) + c) / c); [|lia]. apply Z.div_pos; lia.
      - assert ((Z.of_nat (S (length l)) + c) / c <= Z.of_nat (S (length l)) + 1); [|lia]. apply Z.div_le_upper_bound; nia. }
    cbn [fst] in Hok. subst ok. cbn [negb]. destruct Hbx as (Hp & HxX & HyY & HyY').
    destruct (IH k3 ov sz2 (ri ++ [MkRI (MkRegion bx (Heap n' [bx])) 0 0]) (ls ++ [[bx]]) bx) as (ri' & ov' & k' & ls' & b1 & E & Hri2 & Hun).
    + apply Forall2_app; [done|]. constructor; [|constructor]. by apply growing_one; try lia.
    + done.
    + done.
    + cbn in Hlen. lia.
    + exists ri', ov', k', ls', b1. split; [exact E|]. split; [done|].
      rewrite join_app in Hun. cbn in Hun. by rewrite <- app_assoc in Hun.
  - destruct (IH k1 ov1 sizeRI ri1 ls1 bx Hri1 Hsort' Hpl) as (ri' & ov' & k' & ls' & b1 & E & Hri2 & Hun); [cbn in Hlen; lia|].
    exists ri', ov', k', ls', b1. split; [exact E|]. split; [done|].
    apply (unites_trans ov ov1 ov' _ (mjoin ls1 ++ l)); [|done].
    change (mjoin ls ++ bx :: l) with (mjoin ls ++ [bx] ++ l). rewrite app_assoc. by apply unites_frame.
Qed.
End Scatter.
