(* ===== verification/RegionValid.v ===== *)
(** * RegionValid: [RegionValidate] makes a region of any boxes

    The regions under construction are finished and united in pairs; the region
    that is left has the points of the boxes, in bands, with the smallest box
    around it, and the flag tells whether boxes overlapped. *)

From stdpp Require Import sorting.
From Stdlib Require Import Sorting.Sorted.
From S2P Require Import Prelude.
From S2P Require Import Region.
From S2P Require Import RegionSort.
From S2P Require Import RegionBand.
From S2P Require Import RegionUnion.
From S2P Require Import RegionJoin.
From S2P Require Import RegionLoop.
From S2P Require Import RegionScatter.

(** A region in order: its bands are [ds]. *)
Record in_bands (r : RegionRec) (ds : list band) : Prop := {
  ib_stored : stored r (rects ds);
  ib_ok : bands_ok None ds;
  ib_ne : ds <> [];
  ib_hull : hull (extents r) (covers (rects ds))
}.

Lemma box_proper p ds b : bands_ok p ds -> b ∈ rects ds -> proper b.
Proof.
  intros Hok Hb. apply rects_elem in Hb as (d & s & Hd & Hs & ->). destruct (bands_ok_in p ds d Hok Hd) as (Hlt & _ & lo & Hsep).
  split; [|done]. cbn. clear -Hs Hsep. revert lo Hsep. induction (spans d) as [|t l IH]; intros lo; [by apply not_elem_of_nil in Hs|].
  intros (_ & Ht & Hl). apply elem_of_cons in Hs as [->|Hs]; [done|]. by apply (IH Hs t.2).
Qed.
Lemma rects_ne p ds : bands_ok p ds -> ds <> [] -> rects ds <> [].
Proof. intros Hok Hne Hnil. pose proof (rects_length _ _ Hok) as Hl. rewrite Hnil in Hl. by destruct ds; cbn in Hl; try lia. Qed.

(** A region of one box has no memory, and the box is its extents. *)
Lemma stored_hull r l : stored r l -> proper (extents r) -> data r = Null -> hull (extents r) (covers l).
Proof.
  unfold stored. intros Hs [Hp1 Hp2] Hd. rewrite Hd in Hs. rewrite Hs. split.
  - intros x y. by rewrite covers_one.
  - exists (y1 (extents r)). apply covers_one. lia.
  - exists (y1 (extents r)). apply covers_one. lia.
  - exists (x1 (extents r)). apply covers_one. lia.
  - exists (x1 (extents r)). apply covers_one. lia.
Qed.

Section Valid.
Context (al : allocator) (Hal : forall n z, al n z = true) (B : Z) (HB : 0 <= B /\ 4 * B + 4 < 268435453).
Context (X Y : list Z) (Hroom : Z.of_nat (length X * length Y + 2 * length X) < B).

(** ** Finishing *)

Lemma scatter_finish_ok bx rit l :
  under X Y bx rit l ->
  exists r ds, scatter_finish rit = Ret r /\ in_bands r ds /\ within X Y ds /\
    (forall x y, mult (rects ds) x y = mult l x y).
Proof.
  clear HB Hroom. intros (os & t & b & ss & sp & Hg & -> & _). pose proof Hg as [(size & Hd & Hs) G2 G3 G4 G5 G6 G7 (G8a & G8b & G8c) G9].
  unfold scatter_finish. rewrite Hd. rewrite boxes_lowest, app_assoc, last_snoc. cbn [obind_opt box_of y2 x2].
  rewrite G2, G3.
  match goal with |- context [Coalesce ?r _ _] => set (r1 := r) end.
  assert (Hr1 : holds r1 (rects os ++ boxes (lowest t b ss sp))) by by exists size.
  set (e := extents (ri_reg rit)) in *.
  assert (He1 : extents r1 = MkBox (x1 e) (y1 e) (Z.max (x2 e) sp.2) b).
  { subst r1. cbn. fold e. f_equal. destruct (Z.ltb_spec (x2 e) sp.2); lia. }
  clearbody r1.
  destruct (Coalesce_spec r1 os (lowest t b ss sp) Hr1) as (r2 & -> & Hr2 & He2).
  { apply Forall_forall. intros p Hin. by apply (bands_ok_in None os p G4) in Hin as (_ & ? & _). }
  { by destruct G5 as (_ & ? & _). }
  set (ds := add_band os (lowest t b ss sp)) in *.
  destruct (add_band_ok os (lowest t b ss sp) G4 G5 G6) as (Hok & (p & Hp & Hpb & _) & _). fold ds in Hok, Hp.
  assert (Hm : forall x y, mult (rects ds) x y = mult (grown_boxes os t b ss sp) x y) by (intros; by apply mult_add_band).
  assert (Hc : forall x y, covers (rects ds) x y <-> covers (rects os ++ boxes (lowest t b ss sp)) x y)
    by (intros; unfold covers; by rewrite Hm).
  assert (Hne : ds <> []) by (intros E; by rewrite E in Hp).
  assert (Hhull : hull (extents r2) (covers (rects ds))).
  { apply (hull_iff _ (covers (rects os ++ boxes (lowest t b ss sp)))); [intros; by rewrite Hc|]. rewrite He2, He1.
    pose proof (boxes_last _ _ _ _ G5) as Hlast.
    destruct G9 as [E1 [ya E2] E3 [xa E4] E5 (xb & yb & E6 & E7)]. split; cbn.
    - intros x y Hxy. pose proof (E1 _ _ Hxy). pose proof (E3 _ _ Hxy).
      apply covers_both in Hxy as [Hxy|Hxy]; [|apply (boxes_right _ _ _ _ _ _ G5) in Hxy; lia]. pose proof (E5 _ _ Hxy).
      assert (y < t); [|pose proof (proj1 G5); cbn in *; lia].
      apply covers_elem in Hxy as (c & Hc1 & Hc2%covers_one). apply rects_elem in Hc1 as (d & u & Hd1 & _ & ->). cbn in Hc2.
      destruct (last os) as [q|] eqn:Eq; [|apply last_None in Eq as ->; by apply not_elem_of_nil in Hd1].
      pose proof (bands_ends None os q d G4 Eq Hd1). specialize (G6 q eq_refl). cbn in G6. lia.
    - by exists ya.
    - destruct (Z.max_spec (x2 e) sp.2) as [[_ ->]|[Hle ->]].
      + exists (b - 1). apply covers_both. by right.
      + exists yb. assert (x2 e - 1 = xb) as ->; [|done]. apply covers_both in E6 as [E6|E6]; [specialize (E5 _ _ E6); lia|].
        apply (boxes_right _ _ _ _ _ _ G5) in E6. lia.
    - by exists xa.
    - exists (sp.2 - 1). apply covers_both. by right. }
  destruct Hr2 as (sz & Hr2 & Hsz).
  assert (Hnum : RegionNumRects r2 = length (rects ds)) by (unfold RegionNumRects; by rewrite Hr2). rewrite Hnum.
  pose proof (rects_ne _ _ Hok Hne) as Hrne.
  assert (Hw : within X Y ds) by by apply add_band_within.
  destruct (Nat.eqb_spec (length (rects ds)) 1) as [E|E].
  - eexists _, ds. split; [reflexivity|]. split; [|done].
    destruct (rects ds) as [|c [|? ?]] eqn:Er; try done. split; try done; cbn; rewrite Er; [|done].
    unfold stored. cbn. f_equal. symmetry. apply hull_one; [|done]. apply (box_proper None ds); [done|]. rewrite Er. left.
  - eexists _, ds. split; [reflexivity|]. split; [|done]. split; try done. unfold stored. rewrite Hr2. split; [done|]. split; [|done].
    destruct (rects ds) as [|c [|? ?]]; cbn in *; try done; lia.
Qed.

Lemma finish_all bx ri ls :
  Forall2 (under X Y bx) ri ls ->
  exists rs dss, mapO scatter_finish ri = Ret rs /\ Forall2 in_bands rs dss /\ Forall (within X Y) dss /\
    (forall x y, mult (mjoin (rects <$> dss)) x y = mult (mjoin ls) x y).
Proof.
  induction 1 as [|rit l ri ls Hu Hri (rs & dss & IH1 & IH2 & IH3 & IH4)]; [by exists [], []|]. cbn [mapO].
  destruct (scatter_finish_ok bx rit l Hu) as (r & ds & -> & Hin & Hw & Hm). cbn [obind]. rewrite IH1. cbn [obind].
  exists (r :: rs), (ds :: dss). split; [done|]. split; [by constructor|]. split; [by constructor|]. intros x y. cbn.
  rewrite !mult_app, Hm. f_equal. apply IH4.
Qed.

(** ** Uniting in pairs *)

Lemma joined_unites s s' ds hs os :
  bands_ok None ds -> bands_ok None hs -> joined ds hs X Y s s' os ->
  unites (overlap s) (rects ds ++ rects hs) (overlap s') (rects os).
Proof.
  clear HB Hroom. intros Hds Hhs [J1 J2 J3 J4 J5 J6 J7].
  assert (Hsp : forall y, (forall x, (0 < smult (union_at ds hs y) x)%nat <-> (0 < smult (at_y ds y) x + smult (at_y hs y) x)%nat) /\
    (if over_at ds hs y then exists x, (2 <= smult (at_y ds y) x + smult (at_y hs y) x)%nat
     else forall x, smult (union_at ds hs y) x = (smult (at_y ds y) x + smult (at_y hs y) x)%nat)).
  { intros y. destruct (at_y_separated None ds y Hds) as [lo1 L1]. destruct (at_y_separated None hs y Hhs) as [lo2 L2].
    apply (span_union_points (Z.min lo1 lo2)); [apply (separated_weaken lo1)|apply (separated_weaken lo2)]; done || lia. }
  assert (Hm : forall x y, mult (rects os) x y = smult (union_at ds hs y) x /\
    mult (rects ds ++ rects hs) x y = (smult (at_y ds y) x + smult (at_y hs y) x)%nat).
  { intros x y. rewrite mult_app, !(mult_rects None) by done. by rewrite J4. }
  split.
  - intros x y. destruct (Hm x y) as [-> ->]. apply (proj1 (Hsp y)).
  - intros x y. destruct (Hm x y) as [E ->]. pose proof (mult_once None os x y J2) as H1. rewrite E in *.
    pose proof (proj1 (Hsp y) x). lia.
  - destruct (overlap s') eqn:Eo.
    + destruct (proj1 J5 eq_refl) as [?|(y & Hy)]; [by left|right]. pose proof (proj2 (Hsp y)) as H2. rewrite Hy in H2.
      destruct H2 as [x Hx]. exists x, y. by rewrite (proj2 (Hm x y)).
    + assert (Hn : ~ (overlap s = true \/ exists y, over_at ds hs y = true)) by (intros Hn; by apply J5 in Hn).
      split; [destruct (overlap s); [exfalso; apply Hn; by left|done]|]. intros x y. destruct (Hm x y) as [-> ->].
      pose proof (proj2 (Hsp y)) as H2. destruct (over_at ds hs y) eqn:Ey; [exfalso; apply Hn; right; by exists y|]. apply H2.
Qed.

Lemma validate_union_ok k ov ret r h ds hs :
  in_bands r ds -> in_bands h hs -> within X Y ds -> within X Y hs ->
  exists r' os ov' k', validate_union al k ov ret r h = Ret (r', ov', ret, k') /\
    in_bands r' os /\ within X Y os /\ unites ov (rects ds ++ rects hs) ov' (rects os).
Proof.
  intros [A1 A2 A3 A4] [B1 B2 B3 B4] Wd Wh. unfold validate_union.
  destruct (RegionOp_ok al Hal B HB ds hs A2 B2 X Y Wd Wh Hroom (MkBuild r k ov) h A1 B1 A3 B3) as (s' & os & E & Hj).
  cbn [reg] in E. rewrite E. clear E. cbn [obind]. rewrite andb_true_r. pose proof (joined_unites _ _ _ _ _ A2 B2 Hj) as Hun. destruct Hj as [J1 J2 J3 J4 J5 J6 J7].
  eexists _, os, _, _. split; [reflexivity|]. split; [|done]. cbn [overlap reg] in *.
  assert (Hc : forall x y, covers (rects os) x y <-> covers (rects ds) x y \/ covers (rects hs) x y).
  { intros x y. rewrite <- covers_both. unfold covers. by rewrite (un_points _ _ _ _ Hun). }
  assert (Hj : hull (MkBox (Z.min (x1 (extents h)) (x1 (extents (reg s')))) (Z.min (y1 (extents h)) (y1 (extents (reg s'))))
                 (Z.max (x2 (extents h)) (x2 (extents (reg s')))) (Z.max (y2 (extents h)) (y2 (extents (reg s')))))
               (covers (rects os))).
  { destruct J6 as [Hnull|He].
    - pose proof J1 as Hst. unfold stored in Hst. rewrite Hnull in Hst.
      assert (Hp : proper (extents (reg s'))) by (apply (box_proper None os); [done|]; rewrite Hst; left).
      apply (hull_iff _ (fun x y => covers (rects os) x y \/ covers (rects hs) x y)); [intros x y; rewrite Hc; tauto|].
      apply hull_join; [|done]. by apply stored_hull.
    - apply (hull_iff _ (fun x y => covers (rects ds) x y \/ covers (rects hs) x y)); [intros x y; by rewrite Hc|].
      rewrite He. by apply hull_join. }
  split; try done. unfold stored in *. cbn. destruct (data (reg s')) as [| | |size l] eqn:Ed; try done. rewrite J1. f_equal. symmetry.
  apply hull_one; [apply (box_proper None os); [done|]; rewrite J1; left|]. by rewrite J1 in Hj.
Qed.

Notation all dss := (mjoin (rects <$> dss)).

Lemma validate_pairs_ok k ov ret rs hs dss hss :
  Forall2 in_bands rs dss -> Forall2 in_bands hs hss -> Forall (within X Y) dss -> Forall (within X Y) hss ->
  length rs = length hs ->
  exists us uss ov' k', validate_pairs al k ov ret rs hs = Ret (us, ov', ret, k') /\
    Forall2 in_bands us uss /\ Forall (within X Y) uss /\ length us = length rs /\
    unites ov (all dss ++ all hss) ov' (all uss).
Proof.
  intros Hrs. revert k ov hs hss. induction Hrs as [|r ds rs dss Hr Hrs IH]; intros k ov hs hss Hhs Wd Wh Hlen.
  { destruct Hhs; [|done]. eexists [], [], _, _. split; [reflexivity|]. split_and!; try done. by apply unites_same. }
  destruct Hhs as [|h hd hs hss Hh Hhs]; [done|]. apply Forall_cons in Wd as [Wd Wds], Wh as [Wh Whs]. cbn [validate_pairs].
  destruct (validate_union_ok k ov ret r h ds hd Hr Hh Wd Wh) as (u & ud & ov1 & k1 & -> & Hu & Wu & Hun). cbn [obind].
  destruct (IH k1 ov1 hs hss Hhs Wds Whs ltac:(cbn in Hlen; lia)) as (us & uss & ov2 & k2 & -> & Hus & Wus & Hl & Huns). cbn [obind].
  eexists (u :: us), (ud :: uss), _, _. split; [reflexivity|]. split; [by constructor|]. split; [by constructor|].
  split; [cbn; lia|]. cbn [fmap list_fmap mjoin list_join] in *.
  apply (unites_trans ov ov1 ov2 _ (rects ud ++ (all dss ++ all hss))).
  - assert (E : (rects ds ++ all dss) ++ rects hd ++ all hss ≡ₚ (rects ds ++ rects hd) ++ (all dss ++ all hss)) by solve_Permutation.
    cbn [fmap list_fmap mjoin list_join] in E. rewrite E. by apply unites_frame.
  - rewrite (Permutation_app_comm (rects ud)), (Permutation_app_comm (rects ud)). by apply unites_frame.
Qed.

Lemma validate_merge_ok fuel k ov ret rs dss :
  Forall2 in_bands rs dss -> Forall (within X Y) dss -> rs <> [] -> (length rs <= fuel)%nat ->
  exists r ds ov' k', validate_merge al fuel k ov ret rs = Ret (r, ov', ret, k') /\
    in_bands r ds /\ within X Y ds /\ unites ov (all dss) ov' (rects ds).
Proof.
  revert k ov rs dss. induction fuel as [|fuel IH]; intros k ov rs dss Hrs Wd Hne Hlen; [destruct rs; cbn in Hlen; [done|lia]|].
  destruct Hrs as [|r ds [|r' rs] dss Hr Hrs]; [done|..].
  { destruct dss; [|by apply Forall2_nil_cons_inv in Hrs]. cbn. apply Forall_cons in Wd as [Wd _].
    eexists _, ds, _, _. split; [reflexivity|]. split; [done|]. split; [done|]. rewrite app_nil_r. by apply unites_same. }
  assert (Hall : Forall2 in_bands (r :: r' :: rs) (ds :: dss)) by by constructor.
  cbn [validate_merge]. clear Hr Hrs Hne. revert Hall Wd Hlen. generalize (ds :: dss). intros dl.
  remember (r :: r' :: rs) as rl eqn:Erl. assert (H2 : (2 <= length rl)%nat) by (subst; cbn; lia). clear Erl r r' rs ds dss.
  intros Hall Wd Hlen. set (half := (length rl / 2)%nat). set (odd := (length rl mod 2)%nat).
  assert (Hlr : length rl = (odd + half + half)%nat) by (subst half odd; pose proof (Nat.div_mod_eq (length rl) 2); lia).
  assert (Hodd : (odd < 2)%nat) by (subst odd; apply Nat.mod_upper_bound; lia).
  clearbody half odd. pose proof (Forall2_length _ _ _ Hall) as Hll.
  destruct (validate_pairs_ok k ov ret (take half (drop odd rl)) (drop (odd + half) rl) (take half (drop odd dl)) (drop (odd + half) dl))
    as (us & uss & ov1 & k1 & -> & Hus & Wus & Hl & Hun).
  { by apply Forall2_take, Forall2_drop. }
  { by apply Forall2_drop. }
  { by apply Forall_take, Forall_drop. }
  { by apply Forall_drop. }
  { rewrite length_take, !length_drop. lia. }
  cbn [obind]. rewrite length_take, length_drop in Hl.
  destruct (IH k1 ov1 (take odd rl ++ us) (take odd dl ++ uss)) as (r & ds & ov2 & k2 & -> & Hr & Wr & Hun2).
  { apply Forall2_app; [by apply Forall2_take|done]. }
  { apply Forall_app. split; [by apply Forall_take|done]. }
  { intros Hnil. apply app_eq_nil in Hnil as [_ Hnil]. subst us. cbn in Hl. lia. }
  { rewrite length_app, length_take. lia. }
  eexists _, ds, _, _. split; [reflexivity|]. split; [done|]. split; [done|].
  apply (unites_trans ov ov1 ov2 _ (all (take odd dl ++ uss))); [|done].
  assert (E : dl = take odd dl ++ take half (drop odd dl) ++ drop (odd + half) dl).
  { by rewrite <- drop_drop, take_drop, take_drop. }
  rewrite E at 1. rewrite !fmap_app, !join_app.
  rewrite (Permutation_app_comm (all (take odd dl))), (Permutation_app_comm (all (take odd dl))). by apply unites_frame.
Qed.
End Valid.

(** ** The check of debugging builds *)

(** A box behind [b] in the order that [RegionIsValid] wants. *)
Fixpoint chain (b : BoxRec) (l : list BoxRec) : Prop :=
  match l with
  | [] => True
  | n :: l => proper n /\ (y1 b < y1 n \/ (y1 n = y1 b /\ y2 n = y2 b /\ x2 b <= x1 n)) /\ chain n l
  end.

(** Below, or to the right in the same band. *)
Definition apart (b n : BoxRec) : Prop :=
  proper n /\ (y2 b <= y1 n \/ (y1 n = y1 b /\ y2 n = y2 b /\ x2 b <= x1 n)).
#[export] Instance apart_trans : Transitive apart.
Proof. unfold apart, proper. intros a b c. lia. Qed.

Lemma apart_chain b l : proper b -> StronglySorted apart (b :: l) -> chain b l.
Proof.
  revert b. induction l as [|n l IH]; intros b [Hb1 Hb2] Hs; [done|]. inversion Hs as [|? ? Hs' Hb]; subst.
  apply Forall_cons in Hb as [(Hn & Hbn) _]. cbn. split; [done|]. split; [lia|]. by apply IH.
Qed.
Lemma apart_once l x y : StronglySorted apart l -> (mult l x y <= 1)%nat.
Proof.
  induction 1 as [|b l Hs IH Hb]; [rewrite mult_nil; lia|]. rewrite mult_cons. destruct (inside b x y) eqn:E; [|done].
  destruct (Nat.eq_0_gt_0_cases (mult l x y)) as [->|Hc]; [done|]. exfalso.
  apply (covers_elem l) in Hc as (n & Hn & Hc%covers_one). apply inside_spec in E. rewrite Forall_forall in Hb.
  destruct (Hb n Hn) as (_ & Ha). lia.
Qed.

Lemma spans_apart t b lo l : t < b -> separated lo l -> StronglySorted apart (map (box_of t b) l).
Proof.
  intros Hlt. revert lo. induction l as [|s l IH]; intros lo; [constructor|]. intros (H1 & H2 & H3). cbn. constructor; [by apply (IH s.2)|].
  clear IH. apply Forall_forall. intros n Hn. apply list_elem_of_fmap in Hn as (u & -> & Hu).
  assert (Hus : s.2 < u.1 < u.2).
  { revert Hu H3. generalize s.2. clear H2. induction l as [|v l IH]; intros hi Hu Hsep; [by apply not_elem_of_nil in Hu|].
    destruct Hsep as (G1 & G2 & G3). apply elem_of_cons in Hu as [->|Hu]; [lia|].
    specialize (IH _ Hu G3). lia. }
  split; [split; cbn; lia|]. right. cbn. lia.
Qed.
Lemma rects_apart p ds : bands_ok p ds -> StronglySorted apart (rects ds).
Proof.
  revert p. induction ds as [|d ds IH]; intros p; [constructor|]. intros (_ & (Hlt & _ & lo & Hsep) & Hds).
  change (rects (d :: ds)) with (boxes d ++ rects ds). apply StronglySorted_app. split_and!.
  - intros b n Hb Hn. split; [by apply (box_proper (Some d) ds)|]. left. apply rects_elem in Hn as (d' & s & Hd' & _ & ->).
    unfold boxes in Hb. apply list_elem_of_fmap in Hb as (u & -> & _). by apply (bands_ok_below d d' ds).
  - by apply (spans_apart _ _ lo).
  - by apply (IH (Some d)).
Qed.

Lemma valid_from_ok b l box :
  chain b l ->
  exists box', valid_from b l box = Some box' /\ y1 box' = y1 box /\ y2 box' = y2 box /\
    (x1 box' <= x1 box /\ forall n, n ∈ l -> x1 box' <= x1 n) /\ (x1 box' = x1 box \/ exists n, n ∈ l /\ x1 box' = x1 n) /\
    (x2 box <= x2 box' /\ forall n, n ∈ l -> x2 n <= x2 box') /\ (x2 box' = x2 box \/ exists n, n ∈ l /\ x2 box' = x2 n).
Proof.
  revert b box. induction l as [|n l IH]; intros b box.
  { intros _. exists box. split_and!; try done; try lia; try (by left); by intros n ?%not_elem_of_nil. }
  intros ([Hp1 Hp2] & Hn & Hl). cbn [valid_from].
  assert (E1 : (x1 n >=? x2 n) || (y1 n >=? y2 n) = false) by lia.
  assert (E2 : (y1 n <? y1 b) || ((y1 n =? y1 b) && ((x1 n <? x2 b) || negb (y2 n =? y2 b))) = false).
  { destruct Hn as [Hn|(Ha & Hb & Hc)]; [lia|]. rewrite Ha, Hb, Z.ltb_irrefl, !Z.eqb_refl. cbn. lia. }
  rewrite E1, E2.
  set (box1 := box <| x1 := _ |> <| x2 := _ |>).
  assert (Hx1 : x1 box1 = Z.min (x1 n) (x1 box)) by (subst box1; cbn; destruct (Z.ltb_spec (x1 n) (x1 box)); lia).
  assert (Hx2 : x2 box1 = Z.max (x2 n) (x2 box)) by (subst box1; cbn; destruct (Z.gtb_spec (x2 n) (x2 box)); lia).
  assert (Hy : y1 box1 = y1 box /\ y2 box1 = y2 box) by done. clearbody box1.
  destruct (IH n box1 Hl) as (box' & -> & A1 & A2 & (A3 & A4) & A5 & (A6 & A7) & A8). exists box'. split; [done|].
  split_and!; try lia.
  - intros m [->|Hm]%elem_of_cons; [lia|by apply A4].
  - destruct A5 as [A5|(m & Hm & A5)]; [|right; exists m; split; [by right|done]].
    destruct (Z.min_spec (x1 n) (x1 box)) as [[_ E]|[_ E]]; [right; exists n; split; [left|lia]|left; lia].
  - intros m [->|Hm]%elem_of_cons; [lia|by apply A7].
  - destruct A8 as [A8|(m & Hm & A8)]; [|right; exists m; split; [by right|done]].
    destruct (Z.max_spec (x2 n) (x2 box)) as [[_ E]|[_ E]]; [left; lia|right; exists n; split; [left|lia]].
Qed.

Lemma chain_tops b l n : chain b l -> n ∈ l -> y1 b <= y1 n.
Proof.
  revert b. induction l as [|m l IH]; intros b; [by intros _ ?%not_elem_of_nil|]. intros (_ & Hm & Hl) [->|Hn]%elem_of_cons; [lia|].
  specialize (IH m Hl Hn). lia.
Qed.

(** A list that is in order with the smallest box around it is valid. *)
Lemma apart_valid size b c l e :
  0 < size -> proper b -> StronglySorted apart (b :: c :: l) ->
  hull e (covers (b :: c :: l)) -> RegionIsValid (MkRegion e (Heap size (b :: c :: l))) = true.
Proof.
  intros Hsize Hb Hsort He. pose proof (apart_chain _ _ Hb Hsort) as Hch.
  destruct (last (b :: c :: l)) as [z|] eqn:Hz; [|by apply last_None in Hz].
  assert (Hbot : forall n, n ∈ b :: c :: l -> y2 n <= y2 z).
  { intros n Hn. apply last_Some in Hz as [k Hk]. rewrite Hk in Hsort, Hn. apply StronglySorted_app in Hsort as (Hkz & _ & _).
    apply elem_of_app in Hn as [Hn| ->%list_elem_of_singleton]; [|lia]. destruct (Hkz n z Hn ltac:(left)) as ([_ ?] & ?). lia. }
  pose proof He as [Hin [ya Ha] _ _ _]. specialize (Hin _ _ Ha).
  unfold RegionIsValid. cbn [extents data RegionRects]. rewrite Hz.
  assert (E : (x1 e >? x2 e) || (y1 e >? y2 e) = false) by lia. rewrite E.
  destruct (valid_from_ok b (c :: l) (b <| y2 := y2 z |>) Hch) as (box & -> & Y1 & Y2 & (A1 & A2) & A3 & (A4 & A5) & A6).
  apply bool_decide_eq_true. apply (hull_unique _ _ (covers (b :: c :: l))); [|done]. cbn in Y1, Y2, A1, A3, A4, A6.
  assert (Hprop : forall n, n ∈ b :: c :: l -> proper n).
  { intros n [->|Hn]%elem_of_cons; [done|]. clear -Hch Hn. revert b Hch. induction (c :: l) as [|m k IH]; intros b; [by apply not_elem_of_nil in Hn|].
    intros (Hm & _ & Hk). apply elem_of_cons in Hn as [->|Hn]; [done|]. by apply (IH Hn m). }
  assert (Hall : forall n, n ∈ b :: c :: l -> x1 box <= x1 n /\ x2 n <= x2 box /\ y1 box <= y1 n /\ y2 n <= y2 box).
  { intros n Hn. specialize (Hbot n Hn). apply elem_of_cons in Hn as [->|Hn]; [lia|]. specialize (A2 n Hn). specialize (A5 n Hn).
    pose proof (chain_tops _ _ _ Hch Hn). lia. }
  assert (Hex1 : exists n, n ∈ b :: c :: l /\ x1 box = x1 n).
  { destruct A3 as [?|(n & Hn & ?)]; [exists b; split; [left|done]|exists n; split; [by right|done]]. }
  assert (Hex2 : exists n, n ∈ b :: c :: l /\ x2 box = x2 n).
  { destruct A6 as [?|(n & Hn & ?)]; [exists b; split; [left|done]|exists n; split; [by right|done]]. }
  assert (Hpt : forall n x y, n ∈ b :: c :: l -> x1 n <= x < x2 n -> y1 n <= y < y2 n -> covers (b :: c :: l) x y).
  { intros n x y Hn Hx Hy. apply (covers_in _ n); [done|]. by apply covers_one. }
  assert (Hzin : z ∈ b :: c :: l) by (apply last_Some in Hz as [k Hk]; rewrite Hk; apply elem_of_app; right; left).
  split.
  - intros x y (n & Hn & Hc)%covers_elem. apply covers_one in Hc. specialize (Hall n Hn). lia.
  - destruct Hex1 as (n & Hn & ->). destruct (Hprop n Hn). exists (y1 n). apply (Hpt n); done || lia.
  - destruct Hex2 as (n & Hn & ->). destruct (Hprop n Hn). exists (y1 n). apply (Hpt n); done || lia.
  - exists (x1 b). destruct Hb. rewrite Y1. apply (Hpt b); [left|lia|lia].
  - exists (x1 z). destruct (Hprop z Hzin). rewrite Y2. apply (Hpt z); done || lia.
Qed.

Theorem in_bands_valid r ds : in_bands r ds -> RegionIsValid r = true.
Proof.
  intros [Hst Hok Hne He]. destruct r as [e d]. unfold stored in Hst. cbn in Hst, He. destruct d as [| | |size l]; try done.
  - pose proof He as [Hin [ya Ha] _ _ _]. specialize (Hin _ _ Ha). unfold RegionIsValid. cbn.
    assert (E : (x1 e >? x2 e) || (y1 e >? y2 e) = false) by lia. by rewrite E.
  - destruct Hst as (-> & Hlen & Hs). pose proof (fun n => box_proper None ds n Hok) as Hprop.
    pose proof (rects_apart None ds Hok) as Hsort. destruct (rects ds) as [|b [|c l]]; cbn in Hlen; try lia.
    apply apart_valid; try done. apply Hprop. left.
Qed.

(** Regions of the same points are the same. *)
Lemma in_bands_unique r ds r' ds' :
  in_bands r ds -> in_bands r' ds' -> (forall x y, covers (rects ds) x y <-> covers (rects ds') x y) ->
  ds = ds' /\ extents r = extents r' /\ RegionRects r = RegionRects r'.
Proof.
  intros [A1 A2 A3 A4] [B1 B2 B3 B4] E. pose proof (rects_unique ds ds' A2 B2 E) as <-. split; [done|]. split.
  - by apply (hull_unique _ _ _ A4).
  - destruct (stored_rects _ _ A1) as [-> _], (stored_rects _ _ B1) as [-> _]. done.
Qed.

(** ** RegionValidate *)

(** With memory, a list of boxes with the mark becomes the region of their
    points. *)
Lemma RegionValidate_spec al k e size l :
  (forall n z, al n z = true) -> x2 e <= x1 e -> 0 < size -> l <> [] -> Forall proper l -> Z.of_nat (length l) <= 5792 ->
  exists r ds ov k', RegionValidate al k (MkRegion e (Heap size l)) = Ret (true, r, ov, k') /\
    in_bands r ds /\ unites false l ov (rects ds).
Proof.
  intros Hal He Hs Hne Hp Hlen. unfold RegionValidate. cbn [data extents].
  assert (Hx : x1 e <? x2 e = false) by lia. rewrite Hx.
  destruct (quick_spec (length l) l) as (l' & Hq & Hperm & Hsort); [lia|done|unfold TURNS; lia|].
  destruct l as [|b0 l0] eqn:El; [done|]. rewrite <- El in *. rewrite Hq. cbn [obind]. rewrite Hal. cbn [negb].
  set (X := map x1 l). set (Y := map y1 l ++ map y2 l). set (N := Z.of_nat (length l)).
  set (B := 2 * N * N + 2 * N + 1).
  assert (HB : 0 <= B /\ 4 * B + 4 < 268435453) by (subst B N; nia).
  assert (Hroom : Z.of_nat (length X * length Y + 2 * length X) < B).
  { subst X Y B N. rewrite length_app, !length_map. nia. }
  assert (Hpl : Forall (placed X Y) l').
  { rewrite Hperm. apply Forall_forall. intros b Hb. rewrite Forall_forall in Hp. split_and!; [by apply Hp|..].
    - apply list_elem_of_fmap. by exists b.
    - apply elem_of_app. left. apply list_elem_of_fmap. by exists b.
    - apply elem_of_app. right. apply list_elem_of_fmap. by exists b. }
  pose proof (Permutation_length Hperm) as Hl'. destruct l' as [|box rest]; [rewrite El in Hl'; done|].
  apply Forall_cons in Hpl as [(Hb1 & Hb2 & Hb3 & Hb4) Hpl].
  destruct (scatter_ok al Hal B HB X Y Hroom (S k) false 4 [MkRI (MkRegion box (Heap size [box])) 0 0] [[box]] box rest)
    as (ri & ov & k1 & ls & b1 & -> & Hri & Hun); [|done|done| |].
  { constructor; [by apply growing_one|constructor]. }
  { cbn in Hl'. subst B N. nia. }
  cbn [obind]. change (mjoin [[box]] ++ rest) with (box :: rest) in Hun. rewrite Hperm in Hun.
  destruct (finish_all X Y b1 ri ls Hri) as (rs & dss & -> & Hrs & Hw & Hm). cbn [obind].
  assert (Hun' : unites false l ov (mjoin (rects <$> dss))).
  { apply (unites_trans false ov ov _ (mjoin ls)); [done|]. by apply unites_same. }
  assert (Hrsne : rs <> []).
  { intros ->. destruct dss; [|by apply Forall2_nil_cons_inv in Hrs]. pose proof (un_points _ _ _ _ Hun' (x1 box) (y1 box)) as Hpt.
    change (mult _ (x1 box) (y1 box)) with 0%nat in Hpt at 1. assert (Hc : covers l (x1 box) (y1 box)).
    { apply (covers_in l box); [rewrite <- Hperm; left|]. apply covers_one. destruct Hb1. lia. }
    apply Hpt in Hc. lia. }
  destruct (validate_merge_ok al Hal B HB X Y Hroom (length rs) k1 ov true rs dss Hrs Hw Hrsne ltac:(lia))
    as (r & ds & ov2 & k2 & -> & Hr & _ & Hun2). cbn [obind].
  exists r, ds, ov2, k2. split; [done|]. split; [done|]. by apply (unites_trans false ov ov2 _ (mjoin (rects <$> dss))).
Qed.
