(* ===== verification/RegionMake.v ===== *)
(** * RegionMake: regions from rectangles and from other regions

    What the callers of [dix/region.c] get: a region of a list of rectangles, a
    batch of regions put together, and what happens without memory. *)

From stdpp Require Import sorting.
From Stdlib Require Import Sorting.Sorted.
From S2P Require Import Prelude.
From S2P Require Import Region.
From S2P Require Import RegionSort.
From S2P Require Import RegionBand.
From S2P Require Import RegionUnion.
From S2P Require Import RegionJoin.
From S2P Require Import RegionLoop.
From S2P Require Import RegionScatter.
From S2P Require Import RegionValid.

(** ** The batch union *)

Lemma stored_RECTALLOC al k r l n :
  (forall n z, al n z = true) -> stored r l -> 1 <= n <= 60000000 -> Z.of_nat (length l) <= 60000000 ->
  exists r' k', RECTALLOC al k r n = (true, r', k') /\ holds r' l /\ extents r' = extents r.
Proof.
  intros Hal Hs Hn Hl. assert (HB : 0 <= 60000000 /\ 4 * 60000000 + 4 < 268435453) by lia.
  destruct (decide (data r = Null)) as [Hd|Hd].
  - unfold RECTALLOC. rewrite bool_decide_true by done. cbn [orb]. unfold RegionRectAlloc, stored in *. rewrite Hd in *.
    pose proof (box_alloc_ok al Hal _ HB k (n + 1) ltac:(lia)) as Ha. destruct (box_alloc al k (n + 1)) as [ok k']. cbn in Ha. subst ok.
    eexists _, _. split; [reflexivity|]. split; [|done]. exists (n + 1). rewrite Hs. split; [done|lia].
  - apply (RECTALLOC_ok al Hal _ HB); [|done|done]. unfold stored in Hs. destruct (data r) as [| | |size l'] eqn:E; try done.
    destruct Hs as (-> & _ & ?). by exists size.
Qed.

(** Boxes in order that all follow in order: one list in order. *)
Lemma follows_apart l1 l2 f z :
  StronglySorted apart l1 -> StronglySorted apart l2 -> Forall proper l2 -> head l2 = Some f -> last l1 = Some z ->
  follows f z = true -> StronglySorted apart (l1 ++ l2).
Proof.
  intros S1 S2 P2 Hf Hz Hfol. destruct l2 as [|f' l2]; [done|]. injection Hf as ->. apply Forall_cons in P2 as [Hp _].
  assert (Hzf : apart z f) by (unfold follows in Hfol; split; [done|lia]). apply StronglySorted_app. split_and!; [|done|done].
  intros a b Ha Hb. assert (Haz : a = z \/ apart a z).
  { apply last_Some in Hz as [k ->]. apply StronglySorted_app in S1 as (Hk & _ & _).
    apply elem_of_app in Ha as [Ha| ->%list_elem_of_singleton]; [|by left]. right. apply Hk; [done|left]. }
  assert (Hfb : b = f \/ apart f b).
  { apply elem_of_cons in Hb as [->|Hb]; [by left|]. right. apply StronglySorted_cons in S2 as [Hall _]. rewrite Forall_forall in Hall. by apply Hall. }
  assert (Hzb : apart z b) by (destruct Hfb as [->|Hfb]; [done|by transitivity f]).
  destruct Haz as [->|Haz]; [done|by transitivity z].
Qed.

Lemma stored_proper r ds : in_bands r ds -> Forall proper (rects ds) /\ StronglySorted apart (rects ds) /\ rects ds <> [].
Proof.
  intros [_ Hok Hne _]. split; [|split; [by apply (rects_apart None)|by apply (rects_ne None)]].
  apply Forall_forall. intros b Hb. by apply (box_proper None ds).
Qed.
Lemma hull_proper e (f : Z -> Z -> Prop) : hull e f -> proper e.
Proof. intros [Hin [ya Ha] _ _ _]. specialize (Hin _ _ Ha). unfold proper. lia. Qed.

(** The smallest box when one region is before the other. *)
Lemma hull_beside e1 e2 l1 l2 :
  hull e1 (covers l1) -> hull e2 (covers l2) -> Forall proper l1 -> StronglySorted apart (l1 ++ l2) ->
  hull (MkBox (Z.min (x1 e2) (x1 e1)) (y1 e1) (Z.max (x2 e2) (x2 e1)) (y2 e2)) (covers (l1 ++ l2)).
Proof.
  intros H1 H2 Hp Hs. pose proof (hull_join _ _ _ _ H1 H2) as Hj. apply StronglySorted_app in Hs as (Hs & _ & _).
  assert (Hb : forall x y x' y', covers l1 x y -> covers l2 x' y' -> y1 e1 <= y' /\ y < y2 e2).
  { intros x y x' y' (a & Ha & Hca)%covers_elem (b & Hb & Hcb)%covers_elem. rewrite Forall_forall in Hp.
    destruct (Hp a Ha), (Hs a b Ha Hb) as ([? ?] & Hab). apply covers_one in Hca, Hcb.
    assert (Ca : covers l1 (x1 a) (y1 a)) by (apply (covers_in l1 a); [done|]; apply covers_one; lia).
    assert (Cb : covers l2 (x1 b) (y2 b - 1)) by (apply (covers_in l2 b); [done|]; apply covers_one; lia).
    apply H1 in Ca. apply H2 in Cb. lia. }
  destruct H1 as [_ [ya A2] _ [xa A4] [xb A5]], H2 as [_ [yc B2] _ [xc B4] [xd B5]].
  pose proof (Hb _ _ _ _ A2 B4) as [? _]. pose proof (Hb _ _ _ _ A5 B2) as [_ ?].
  replace (y1 e1) with (Z.min (y1 e2) (y1 e1)) by lia. replace (y2 e2) with (Z.max (y2 e2) (y2 e1)) by lia.
  apply (hull_iff _ _ _ (fun x y => iff_sym (covers_both l1 l2 x y)) Hj).
Qed.

(** [RegionAppend] of two regions: their boxes in order with the smallest box,
    or the mark. *)
Lemma RegionAppend_spec al k dst rgn ds rs :
  (forall n z, al n z = true) -> in_bands dst ds -> in_bands rgn rs ->
  Z.of_nat (length (rects ds)) <= 60000000 -> Z.of_nat (length (rects rs)) <= 60000000 ->
  exists r k' size l, RegionAppend al k dst rgn = Ret (true, r, k') /\ data r = Heap size l /\ 0 < size /\
    l ≡ₚ rects ds ++ rects rs /\
    (x2 (extents r) <= x1 (extents r) \/ StronglySorted apart l /\ hull (extents r) (covers l)).
Proof.
  intros Hal Hd Hr Hdl Hrl. destruct (stored_proper _ _ Hd) as (Dp & Ds & Dn), (stored_proper _ _ Hr) as (Rp & Rs & Rn).
  destruct Hd as [D1 D2 D3 D4], Hr as [R1 R2 R3 R4].
  destruct (stored_rects _ _ D1) as (_ & _ & Dnum), (stored_rects _ _ R1) as (Ro & Rnar & Rnum).
  unfold RegionAppend. rewrite Rnar, Rnum, Dnum. rewrite (bool_decide_false (data dst = EmptyData)) by (intros E; unfold stored in D1; by rewrite E in D1).
  rewrite andb_false_r. rewrite (proj2 (Nat.eqb_neq (length (rects rs)) 0)) by by destruct (rects rs).
  rewrite (proj2 (Nat.eqb_neq (length (rects ds)) 0)) by by destruct (rects ds). cbn [andb].
  destruct (stored_RECTALLOC al k dst (rects ds) (Z.of_nat (length (rects rs))) Hal D1) as (r & k' & -> & (size & Hh & Hs) & He);
    [destruct (rects rs); cbn in *; [done|lia]|done|]. cbn [negb].
  assert (Hro : RegionRects r = rects ds) by (unfold RegionRects; by rewrite Hh). rewrite Hro, Ro, He.
  destruct (hull_proper _ _ D4) as [Dx Dy]. rewrite (proj2 (Z.gtb_lt _ _)) by done.
  destruct (rects rs) as [|rf rl] eqn:Er; [done|]. destruct (rects ds) as [|df dl] eqn:Ed; [done|].
  destruct (last (df :: dl)) as [dz|] eqn:Edz; [|by apply last_None in Edz].
  destruct (last (rf :: rl)) as [oz|] eqn:Eoz; [|by apply last_None in Eoz].
  assert (Hgrow : (if x1 (extents rgn) <? x1 (extents dst) then x1 (extents rgn) else x1 (extents dst)) = Z.min (x1 (extents rgn)) (x1 (extents dst)) /\
    (if x2 (extents rgn) >? x2 (extents dst) then x2 (extents rgn) else x2 (extents dst)) = Z.max (x2 (extents rgn)) (x2 (extents dst))).
  { destruct (Z.ltb_spec (x1 (extents rgn)) (x1 (extents dst))), (Z.gtb_spec (x2 (extents rgn)) (x2 (extents dst))); lia. }
  destruct Hgrow as [G1 G2].
  destruct (follows rf dz) eqn:F1; [|destruct (follows df oz) eqn:F2]; cbn [obind]; rewrite Hh; eexists _, _, size, _;
    (split; [reflexivity|]); (split; [reflexivity|]); (split; [done|]).
  - split; [done|]. right.
    assert (Hs' : StronglySorted apart ((df :: dl) ++ rf :: rl)) by by apply (follows_apart _ _ rf dz).
    split; [done|]. pose proof (hull_beside (extents dst) (extents rgn) _ _ D4 R4 Dp Hs') as Hb. rewrite <- G1, <- G2 in Hb.
    exact Hb.
  - split; [by rewrite Permutation_app_comm|]. right.
    assert (Hs' : StronglySorted apart ((rf :: rl) ++ df :: dl)) by by apply (follows_apart _ _ df oz).
    split; [done|]. pose proof (hull_beside (extents rgn) (extents dst) _ _ R4 D4 Rp Hs') as Hb.
    rewrite (Z.min_comm (x1 (extents dst))), (Z.max_comm (x2 (extents dst))) in Hb. rewrite <- G1, <- G2 in Hb. exact Hb.
  - split; [done|]. left. cbn. lia.
Qed.

(** ** Theorems *)

Lemma always_ok n z : always n z = true.
Proof. done. Qed.

Lemma unites_flag ov0 ins ov outs :
  unites ov0 ins ov outs -> (forall x y, (mult outs x y <= 1)%nat) ->
  ov = true <-> ov0 = true \/ exists x y, (2 <= mult ins x y)%nat.
Proof.
  intros [_ _ H] H1. destruct ov; [tauto|]. destruct H as [-> H]. split; [done|]. intros [?|(x & y & Hxy)]; [done|].
  specialize (H x y). specialize (H1 x y). lia.
Qed.

(** A region that is in order, as its users see it. *)
Record good_region (r : RegionRec) : Prop := {
  gd_bands : exists ds, bands_ok None ds /\ RegionRects r = rects ds;
  gd_hull : hull (extents r) (covers (RegionRects r));
  gd_valid : RegionIsValid r = true
}.
Lemma in_bands_good r ds : in_bands r ds -> RegionRects r = rects ds /\ good_region r.
Proof.
  intros Hin. pose proof (in_bands_valid r ds Hin) as Hv. destruct Hin as [Hs Hok Hne Hh].
  destruct (stored_rects _ _ Hs) as [E _]. split; [done|]. split; [by exists ds|by rewrite E|done].
Qed.

(** [QuickSortRects] ends with the boxes of the array ordered by their tops
    and left sides. *)
Theorem QuickSortRects_sorts l :
  l <> [] -> Z.of_nat (length l) < Zpos TURNS ->
  exists l', QuickSortRects (length l) l = Ret l' /\ l' ≡ₚ l /\
    StronglySorted (fun b c => y1 b < y1 c \/ (y1 b = y1 c /\ x1 b <= x1 c)) l'.
Proof.
  intros Hne Hlen. destruct (quick_spec (length l) l ltac:(lia) Hne Hlen) as (l' & E & Hp & Hs).
  exists l'. split; [done|]. split; [done|]. induction Hs as [|b l0 Hs IH Hb]; constructor.
  - clear -Hs. induction Hs as [|b l0 Hs IH Hb]; constructor; [done|]. eapply Forall_impl; [exact Hb|]. intros c. apply box_le_spec.
  - eapply Forall_impl; [exact Hb|]. intros c. apply box_le_spec.
Qed.
Lemma QuickSortRects_sorts_witness :
  exists l', QuickSortRects 4 [MkBox 5 0 6 1; MkBox 0 3 1 4; MkBox 2 0 3 1; MkBox 0 0 1 1] = Ret l' /\
    l' ≡ₚ [MkBox 5 0 6 1; MkBox 0 3 1 4; MkBox 2 0 3 1; MkBox 0 0 1 1] /\
    StronglySorted (fun b c => y1 b < y1 c \/ (y1 b = y1 c /\ x1 b <= x1 c)) l'.
Proof. apply (QuickSortRects_sorts [MkBox 5 0 6 1; MkBox 0 3 1 4; MkBox 2 0 3 1; MkBox 0 0 1 1]); [done|reflexivity]. Defined.

(** C4: When every allocation succeeds, [RegionValidate] makes of a list of at
    most 5792 boxes that are not empty, in whatever order and overlapping or not
    (the extents say that it is unsorted), the region of the points of the boxes,
    in bands with the smallest box around it, and tells exactly when two of the
    boxes have a point in common.  When an allocation fails it can lose points
    ([RegionValidate_loses_points]). *)
Theorem RegionValidate_region al k e size l :
  (forall n z, al n z = true) -> x2 e <= x1 e -> 0 < size -> l <> [] ->
  Forall (fun b => x1 b < x2 b /\ y1 b < y2 b) l -> Z.of_nat (length l) <= 5792 ->
  exists r ov k', RegionValidate al k (MkRegion e (Heap size l)) = Ret (true, r, ov, k') /\ good_region r /\
    (forall x y, covers (RegionRects r) x y <-> exists b, b ∈ l /\ x1 b <= x < x2 b /\ y1 b <= y < y2 b) /\
    (ov = true <-> exists x y, (2 <= mult l x y)%nat).
Proof.
  intros Hal He Hs Hne Hp Hlen. destruct (RegionValidate_spec al k e size l Hal He Hs Hne Hp Hlen) as (r & ds & ov & k' & E & Hin & Hu).
  destruct (in_bands_good r ds Hin) as [Er Hg]. exists r, ov, k'. split; [done|]. split; [done|]. rewrite Er. split.
  - intros x y. transitivity (covers l x y); [apply Hu|]. rewrite covers_elem.
    split; intros (b & Hb & Hc); exists b; (split; [done|]); by apply covers_one.
  - rewrite (unites_flag _ _ _ _ Hu); [|intros x y; apply (mult_once None), Hin]. split; [by intros [?|?]|by right].
Qed.
Lemma RegionValidate_region_witness :
  exists r ov k', RegionValidate always 0 (MkRegion (MkBox 0 0 0 0) (Heap 3 [MkBox 4 0 9 5; MkBox 0 1 2 3; MkBox 1 2 5 7])) = Ret (true, r, ov, k') /\
    good_region r /\
    (forall x y, covers (RegionRects r) x y <->
       exists b, b ∈ [MkBox 4 0 9 5; MkBox 0 1 2 3; MkBox 1 2 5 7] /\ x1 b <= x < x2 b /\ y1 b <= y < y2 b) /\
    (ov = true <-> exists x y, (2 <= mult [MkBox 4 0 9 5; MkBox 0 1 2 3; MkBox 1 2 5 7] x y)%nat).
Proof.
  apply (RegionValidate_region always 0 (MkBox 0 0 0 0) 3 [MkBox 4 0 9 5; MkBox 0 1 2 3; MkBox 1 2 5 7]).
  - apply always_ok.
  - reflexivity || (cbn; lia).
  - lia.
  - done.
  - repeat constructor.
  - cbn. lia.
Defined.

(** C5: When every allocation succeeds, the region that [RegionValidate] makes of
    lists of at most 5792 boxes, each marked as unsorted by its extents ([x2 <=
    x1]), depends only on the points: two lists of boxes that cover the same
    points, in any order and cut in any way, give the same boxes and the same
    extents.  Without the mark it takes the boxes for sorted and can leave
    bands apart ([RegionAppend_not_coalesced]). *)
Theorem RegionValidate_canonical al k e size l k2 e2 size2 l2 :
  (forall n z, al n z = true) -> x2 e <= x1 e -> 0 < size -> l <> [] -> x2 e2 <= x1 e2 -> 0 < size2 -> l2 <> [] ->
  Forall (fun b => x1 b < x2 b /\ y1 b < y2 b) (l ++ l2) ->
  Z.of_nat (length l) <= 5792 -> Z.of_nat (length l2) <= 5792 ->
  (forall x y, (0 < mult l x y)%nat <-> (0 < mult l2 x y)%nat) ->
  exists r ov k' r2 ov2 k2', RegionValidate al k (MkRegion e (Heap size l)) = Ret (true, r, ov, k') /\
    RegionValidate al k2 (MkRegion e2 (Heap size2 l2)) = Ret (true, r2, ov2, k2') /\
    RegionRects r = RegionRects r2 /\ extents r = extents r2.
Proof.
  intros Hal He Hs Hne He2 Hs2 Hne2 [Hp Hp2]%Forall_app Hlen Hlen2 Hpts.
  destruct (RegionValidate_spec al k e size l Hal He Hs Hne Hp Hlen) as (r & ds & ov & k' & E & Hin & Hu).
  destruct (RegionValidate_spec al k2 e2 size2 l2 Hal He2 Hs2 Hne2 Hp2 Hlen2) as (r2 & ds2 & ov2 & k2' & E2 & Hin2 & Hu2).
  exists r, ov, k', r2, ov2, k2'. split; [done|]. split; [done|].
  destruct (in_bands_unique r ds r2 ds2 Hin Hin2) as (_ & ? & ?); [|done].
  intros x y. unfold covers. by rewrite (un_points _ _ _ _ Hu), (un_points _ _ _ _ Hu2).
Qed.
Lemma RegionValidate_canonical_witness :
  exists r ov k' r2 ov2 k2',
    RegionValidate always 0 (MkRegion RegionEmptyBox (Heap 2 [MkBox 0 0 4 2; MkBox 0 2 2 4])) = Ret (true, r, ov, k') /\
    RegionValidate always 0 (MkRegion RegionEmptyBox (Heap 3 [MkBox 2 0 4 2; MkBox 0 1 2 4; MkBox 0 0 3 2])) = Ret (true, r2, ov2, k2') /\
    RegionRects r = RegionRects r2 /\ extents r = extents r2.
Proof.
  apply (RegionValidate_canonical always 0 RegionEmptyBox 2 [MkBox 0 0 4 2; MkBox 0 2 2 4]
    0 RegionEmptyBox 3 [MkBox 2 0 4 2; MkBox 0 1 2 4; MkBox 0 0 3 2]); try done; try (cbn; lia); try apply always_ok.
  - repeat constructor.
  - intros x y. rewrite !mult_cons, !mult_nil. unfold inside. cbn.
    destruct (Z.leb_spec 0 x), (Z.leb_spec 2 x), (Z.ltb_spec x 4), (Z.ltb_spec x 3), (Z.ltb_spec x 2), (Z.leb_spec 0 y), (Z.leb_spec 1 y),
      (Z.leb_spec 2 y), (Z.ltb_spec y 2), (Z.ltb_spec y 4); cbn; try lia; split; lia.
Defined.

(** The sides and heights of the boxes of a region. *)
Lemma within_boxes ds l : bands_ok None ds -> (forall b, b ∈ rects ds -> b ∈ l) -> within (map x1 l) (map y1 l ++ map y2 l) ds.
Proof.
  intros Hok Hl. apply Forall_forall. intros d Hd.
  assert (Hin : forall s, s ∈ spans d -> box_of (top d) (bot d) s ∈ l) by (intros s Hs; apply Hl, rects_elem; by exists d, s).
  destruct (bands_ok_in None ds d Hok Hd) as (_ & Hne & _). destruct (spans d) as [|s0 l0] eqn:E; [done|].
  pose proof (Hin s0 ltac:(left)) as H0. split_and!.
  - apply elem_of_app. left. apply list_elem_of_fmap. by exists (box_of (top d) (bot d) s0).
  - apply elem_of_app. right. apply list_elem_of_fmap. by exists (box_of (top d) (bot d) s0).
  - apply Forall_forall. intros s Hs. apply list_elem_of_fmap. exists (box_of (top d) (bot d) s). split; [done|by apply Hin].
Qed.

Definition one_band (b : BoxRec) : list band := [MkBand (y1 b) (y2 b) [(x1 b, x2 b)]].
Lemma in_bands_one b : proper b -> in_bands (MkRegion b Null) (one_band b).
Proof.
  intros [Hx Hy]. assert (E : rects (one_band b) = [b]) by by destruct b. split; [|split; [done|split; [|done]]|done|].
  - by rewrite E.
  - split; [done|]. split; [done|]. exists (x1 b - 1). cbn. lia.
  - rewrite E. by apply (stored_hull (MkRegion b Null)).
Qed.

(** C6: When every allocation succeeds and the two regions have at most 5792
    boxes together, [RegionOp] with [RegionUnionO] puts the union of two banded
    regions in the place of the first: its points are those of both, its boxes
    are in bands, and the overlap flag is raised exactly when the regions meet. *)
Theorem RegionOp_union al k ov r1 ds1 r2 ds2 :
  (forall n z, al n z = true) -> in_bands r1 ds1 -> in_bands r2 ds2 ->
  Z.of_nat (length (RegionRects r1) + length (RegionRects r2)) <= 5792 ->
  exists s' ds, RegionOp al (RegionUnionO al) true true (MkBuild r1 k ov) true false r1 r2 = Ret (true, s') /\
    RegionRects (reg s') = rects ds /\ bands_ok None ds /\
    (forall x y, covers (RegionRects (reg s')) x y <-> covers (RegionRects r1) x y \/ covers (RegionRects r2) x y) /\
    (overlap s' = true <-> ov = true \/ exists x y, covers (RegionRects r1) x y /\ covers (RegionRects r2) x y).
Proof.
  intros Hal I1 I2 Hlen. destruct (in_bands_good _ _ I1) as [E1 _], (in_bands_good _ _ I2) as [E2 _]. rewrite E1, E2 in *.
  destruct I1 as [S1 O1 N1 _], I2 as [S2 O2 N2 _].
  set (l := rects ds1 ++ rects ds2). set (X := map x1 l). set (Y := map y1 l ++ map y2 l).
  set (N := Z.of_nat (length l)). set (B := 2 * N * N + 2 * N + 1).
  assert (HN : 0 <= N <= 5792) by (subst N l; rewrite length_app; lia).
  assert (HB : 0 <= B /\ 4 * B + 4 < 268435453) by (subst B; nia).
  assert (Hroom : Z.of_nat (length X * length Y + 2 * length X) < B).
  { subst X Y B N. rewrite length_app, !length_map. nia. }
  assert (W1 : within X Y ds1) by (apply within_boxes; [done|]; intros b Hb; apply elem_of_app; by left).
  assert (W2 : within X Y ds2) by (apply within_boxes; [done|]; intros b Hb; apply elem_of_app; by right).
  destruct (RegionOp_ok al Hal B HB ds1 ds2 O1 O2 X Y W1 W2 Hroom (MkBuild r1 k ov) r2 S1 S2 N1 N2) as (s' & ds & E & Hj).
  exists s', ds. split; [exact E|]. destruct (stored_rects _ _ (j_stored _ _ _ _ _ _ _ Hj)) as [Er _]. rewrite Er. split; [done|].
  pose proof (j_ok _ _ _ _ _ _ _ Hj) as Hok. split; [done|].
  pose proof (joined_unites X Y (MkBuild r1 k ov) s' ds1 ds2 ds O1 O2 Hj) as Hu. split.
  - intros x y. rewrite <- covers_both. apply Hu.
  - rewrite (unites_flag _ _ _ _ Hu); [|intros x y; by apply (mult_once None)]. cbn [overlap].
    assert (H2 : forall x y, (2 <= mult (rects ds1 ++ rects ds2) x y)%nat <-> covers (rects ds1) x y /\ covers (rects ds2) x y).
    { intros x y. rewrite mult_app. unfold covers. pose proof (mult_once None ds1 x y O1). pose proof (mult_once None ds2 x y O2). lia. }
    by setoid_rewrite H2.
Qed.
Lemma RegionOp_union_witness :
  exists s' ds, RegionOp always (RegionUnionO always) true true (MkBuild (MkRegion (MkBox 0 0 2 2) Null) 0 false) true false
      (MkRegion (MkBox 0 0 2 2) Null) (MkRegion (MkBox 1 1 3 3) Null) = Ret (true, s') /\
    RegionRects (reg s') = rects ds /\ bands_ok None ds /\
    (forall x y, covers (RegionRects (reg s')) x y <-> covers [MkBox 0 0 2 2] x y \/ covers [MkBox 1 1 3 3] x y) /\
    (overlap s' = true <-> false = true \/ exists x y, covers [MkBox 0 0 2 2] x y /\ covers [MkBox 1 1 3 3] x y).
Proof.
  apply (RegionOp_union always 0 false (MkRegion (MkBox 0 0 2 2) Null) (one_band (MkBox 0 0 2 2))
    (MkRegion (MkBox 1 1 3 3) Null) (one_band (MkBox 1 1 3 3))).
  - apply always_ok.
  - by apply in_bands_one.
  - by apply in_bands_one.
  - cbn. lia.
Defined.

(** What a caller gets from [RegionAppend] and [RegionValidate]. *)
Lemma RegionValidate_marked al k r size l :
  (forall n z, al n z = true) -> data r = Heap size l -> 0 < size -> (2 <= length l)%nat -> Forall proper l -> Z.of_nat (length l) <= 5792 ->
  (x2 (extents r) <= x1 (extents r) \/ StronglySorted apart l /\ hull (extents r) (covers l)) ->
  exists r' ov k', RegionValidate al k r = Ret (true, r', ov, k') /\ RegionIsValid r' = true /\
    (forall x y, covers (RegionRects r') x y <-> covers l x y) /\
    (ov = true <-> exists x y, (2 <= mult l x y)%nat).
Proof.
  intros Hal Hd Hs Hlen Hp Hmax [He|[Hsort Hh]].
  - destruct r as [e d]. cbn in Hd, He. subst d. assert (Hne : l <> []) by (intros ->; cbn in Hlen; lia).
    destruct (RegionValidate_spec al k e size l Hal He Hs Hne Hp Hmax) as (r' & ds & ov & k' & E & Hin & Hu).
    exists r', ov, k'. split; [done|]. split; [by apply (in_bands_valid r' ds)|]. destruct (in_bands_good _ _ Hin) as [-> _]. split.
    + intros x y. apply Hu.
    + rewrite (unites_flag _ _ _ _ Hu); [|intros x y; apply (mult_once None), Hin]. split; [by intros [?|?]|by right].
  - unfold RegionValidate. rewrite Hd. destruct l as [|b [|c l]]; cbn in Hlen; try lia.
    assert (Hx : x1 (extents r) <? x2 (extents r) = true) by (destruct (hull_proper _ _ Hh); lia). rewrite Hx.
    assert (Hdown : exists size' k', DOWNSIZE al k r (length (b :: c :: l)) = (r <| data := Heap size' (b :: c :: l) |>, k') /\ 0 < size').
    { unfold DOWNSIZE. rewrite Hd. assert (Er : r = r <| data := Heap size (b :: c :: l) |>) by (destruct r; cbn in *; by subst).
      destruct (_ && _); [|exists size, k; split; [exact (f_equal (fun q => (q, k)) Er)|done]].
      destruct (box_alloc al k (Z.of_nat (length (b :: c :: l)))) as [[] k']; [|exists size, k'; split; [exact (f_equal (fun q => (q, k')) Er)|done]].
      eexists _, _. split; [reflexivity|]. cbn. lia. }
    destruct Hdown as (size' & k' & -> & Hs'). cbn [length Nat.eqb]. eexists _, _, _. split; [reflexivity|]. destruct r as [e d]. cbn in *. split; [|split].
    + apply apart_valid; try done. by apply Forall_cons in Hp as [? _].
    + done.
    + split; [done|]. intros (x & y & Hxy). pose proof (apart_once _ x y Hsort). lia.
Qed.

(** A batch of two regions put together with [RegionAppend] and then
    validated is a valid region with the points of both, and the flag tells
    whether they meet, also when [RegionAppend] could put the boxes in order
    and [RegionValidate] leaves them as they are. *)
Theorem RegionAppend_batch al k dst rgn ds rs :
  (forall n z, al n z = true) -> in_bands dst ds -> in_bands rgn rs ->
  Z.of_nat (length (RegionRects dst) + length (RegionRects rgn)) <= 5792 ->
  exists mid k1, RegionAppend al k dst rgn = Ret (true, mid, k1) /\
  exists r ov k2, RegionValidate al k1 mid = Ret (true, r, ov, k2) /\ RegionIsValid r = true /\
    (forall x y, covers (RegionRects r) x y <-> covers (RegionRects dst) x y \/ covers (RegionRects rgn) x y) /\
    (ov = true <-> exists x y, covers (RegionRects dst) x y /\ covers (RegionRects rgn) x y).
Proof.
  intros Hal Id Ir Hlen. destruct (in_bands_good _ _ Id) as [Ed _], (in_bands_good _ _ Ir) as [Er _]. rewrite Ed, Er in *.
  destruct (stored_proper _ _ Id) as (Pd & _ & Nd), (stored_proper _ _ Ir) as (Pr & _ & Nr).
  destruct (RegionAppend_spec al k dst rgn ds rs Hal Id Ir) as (mid & k1 & size & l & E & Hd & Hs & Hp & Hc); [lia|lia|].
  exists mid, k1. split; [done|]. pose proof (Permutation_length Hp) as Hl. rewrite length_app in Hl.
  assert (2 <= length l)%nat by (destruct (rects ds), (rects rs); try done; cbn in Hl; lia).
  destruct (RegionValidate_marked al k1 mid size l Hal Hd Hs) as (r & ov & k2 & Ev & Hv & Hpts & Hov); try done; [|lia|].
  { rewrite Hp. by apply Forall_app. }
  exists r, ov, k2. split; [done|]. split; [done|].
  assert (Hm : forall x y, mult l x y = (mult (rects ds) x y + mult (rects rs) x y)%nat) by (intros; by rewrite Hp, mult_app).
  split.
  - intros x y. rewrite Hpts. unfold covers. rewrite Hm. lia.
  - rewrite Hov. split; intros (x & y & Hxy); exists x, y; specialize (Hm x y); unfold covers in *;
      pose proof (mult_once None ds x y (ib_ok _ _ Id)); pose proof (mult_once None rs x y (ib_ok _ _ Ir)); lia.
Qed.
Lemma RegionAppend_batch_witness :
  exists mid k1, RegionAppend always 0 (MkRegion (MkBox 0 0 2 2) Null) (MkRegion (MkBox 1 1 3 3) Null) = Ret (true, mid, k1) /\
  exists r ov k2, RegionValidate always k1 mid = Ret (true, r, ov, k2) /\ RegionIsValid r = true /\
    (forall x y, covers (RegionRects r) x y <-> covers [MkBox 0 0 2 2] x y \/ covers [MkBox 1 1 3 3] x y) /\
    (ov = true <-> exists x y, covers [MkBox 0 0 2 2] x y /\ covers [MkBox 1 1 3 3] x y).
Proof.
  apply (RegionAppend_batch always 0 (MkRegion (MkBox 0 0 2 2) Null) (MkRegion (MkBox 1 1 3 3) Null)
    (one_band (MkBox 0 0 2 2)) (one_band (MkBox 1 1 3 3))).
  - apply always_ok.
  - by apply in_bands_one.
  - by apply in_bands_one.
  - cbn. lia.
Defined.

(** ** Rectangles *)

(** The fields of a rectangle of the protocol, and its points: it is cut off at
    the largest coordinate. *)
Definition rect_range (q : xRectangle) : Prop :=
  -32768 <= rx q <= 32767 /\ -32768 <= ry q <= 32767 /\ 0 <= rwidth q <= 65535 /\ 0 <= rheight q <= 65535.
Definition in_rect (q : xRectangle) (x y : Z) : Prop :=
  rx q <= x < Z.min (rx q + rwidth q) MAXSHORT /\ ry q <= y < Z.min (ry q + rheight q) MAXSHORT.

Lemma rect_box_spec q :
  rect_range q ->
  match rect_box q with
  | Some b => proper b /\ forall x y, covers [b] x y <-> in_rect q x y
  | None => forall x y, ~ in_rect q x y
  end.
Proof.
  intros (Hx & Hy & Hw & Hh). unfold rect_box, in_rect, MAXSHORT.
  destruct (Z.eqb_spec (rx q) (Z.min (rx q + rwidth q) 32767)), (Z.eqb_spec (ry q) (Z.min (ry q + rheight q) 32767)); cbn [negb andb].
  1-3: intros x y; lia.
  split; [unfold proper; cbn; lia|]. intros x y. rewrite covers_one. done.
Qed.

Lemma rects_boxes prect :
  Forall rect_range prect ->
  Forall proper (omap rect_box prect) /\
  (forall x y, covers (omap rect_box prect) x y <-> exists q, q ∈ prect /\ in_rect q x y).
Proof.
  induction 1 as [|q prect Hq Hp [IH1 IH2]].
  { split; [constructor|]. intros x y. split; [unfold covers; cbn; rewrite mult_nil; lia|]. by intros (q & ?%not_elem_of_nil & _). }
  pose proof (rect_box_spec q Hq) as Hb. 
  assert (E : omap rect_box (q :: prect) = match rect_box q with Some b => [b] ++ omap rect_box prect | None => omap rect_box prect end) by done.
  rewrite E. destruct (rect_box q) as [b|].
  - destruct Hb as [Hb1 Hb2]. split; [by constructor|]. intros x y.
    rewrite covers_both, Hb2, IH2. split.
    + intros [?|(r & ? & ?)]; [exists q; split; [left|done]|exists r; split; [by right|done]].
    + intros (r & [->|Hr]%elem_of_cons & ?); [by left|right; by exists r].
  - split; [done|]. intros x y. rewrite IH2. split; intros (r & Hr & Hin); [exists r; split; [by right|done]|].
    apply elem_of_cons in Hr as [->|Hr]; [by apply Hb in Hin|by exists r].
Qed.

(** With memory [RegionFromRects] makes of unordered rectangles a valid
    region with exactly the points of the rectangles, cut off at the largest
    coordinate; empty rectangles add nothing. *)
Theorem RegionFromRects_points al k prect ctype :
  (forall n z, al n z = true) -> Forall rect_range prect -> ctype <> CT_YXBANDED -> Z.of_nat (length prect) <= 5792 ->
  exists r k', RegionFromRects al k prect ctype = Ret (r, k') /\ RegionIsValid r = true /\
    (forall x y, covers (RegionRects r) x y <-> exists q, q ∈ prect /\ in_rect q x y).
Proof.
  intros Hal Hr Hct Hlen. destruct (rects_boxes prect Hr) as [Hp Hpts].
  unfold RegionFromRects, RegionCreate. rewrite Hal. cbn [RegionInit andb Z.gtb]. change (0 >? 1) with false. cbn [andb].
  change (RegionNar (MkRegion RegionEmptyBox EmptyData)) with false. cbv iota.
  assert (Hempty : forall k', (forall x y, ~ exists q, q ∈ prect /\ in_rect q x y) ->
    exists r (k2 : nat), Ret (MkRegion RegionEmptyBox EmptyData, k') = Ret (r, k2) /\ RegionIsValid r = true /\
      (forall x y, covers (RegionRects r) x y <-> exists q, q ∈ prect /\ in_rect q x y)).
  { intros k' Hn. eexists _, _. split; [reflexivity|]. split; [done|]. intros x y. specialize (Hn x y).
    unfold covers. cbn. rewrite mult_nil. split; [lia|done]. }
  destruct prect as [|q [|q2 prect]].
  - apply Hempty. by intros x y (q & ?%not_elem_of_nil & _).
  - apply Forall_cons in Hr as [Hq _]. pose proof (rect_box_spec q Hq) as Hb. destruct (rect_box q) as [b|].
    + destruct Hb as [Hb1 Hb2]. eexists _, _. split; [reflexivity|].
      split; [apply (in_bands_valid _ (one_band b)); by apply in_bands_one|]. intros x y. cbn [RegionRects data extents]. rewrite Hb2.
      split; [intros ?; exists q; split; [left|done]|]. by intros (r & ->%list_elem_of_singleton & ?).
    + apply Hempty. intros x y (r & ->%list_elem_of_singleton & Hin). by apply Hb in Hin.
  - set (l := q :: q2 :: prect) in *. set (n := Z.of_nat (length l)) in *.
    assert (Hn : 2 <= n <= 5792) by (subst n l; cbn; cbn in Hlen; lia).
    pose proof (box_alloc_ok al Hal 5792 ltac:(lia) (S k) n ltac:(lia)) as Ha.
    destruct (box_alloc al (S k) n) as [ok k1]. cbn in Ha. subst ok. cbn [negb].
    destruct (omap rect_box l) as [|b bs] eqn:Eb.
    { apply Hempty. intros x y Hin. apply Hpts in Hin. unfold covers in Hin. rewrite mult_nil in Hin. lia. }
    rewrite (proj2 (Z.eqb_neq _ _)) by done. cbn [negb].
    assert (Hbl : Z.of_nat (length (b :: bs)) <= 5792).
    { rewrite <- Eb. assert (length (omap rect_box l) <= length l)%nat; [|subst n; lia].
      clear. clearbody l. induction l as [|u l IH]; cbn; [lia|]. destruct (rect_box u); cbn; lia. }
    destruct (RegionValidate_spec al k1 (MkBox 0 0 0 0) n (b :: bs) Hal) as (r & ds & ov & k2 & E & Hin & Hu); try done; try lia.
    match goal with |- context [RegionValidate al k1 ?r0] => change r0 with (MkRegion (MkBox 0 0 0 0) (Heap n (b :: bs))) end.
    rewrite E. cbn [obind]. exists r, k2. split; [done|]. destruct (in_bands_good _ _ Hin) as [-> [_ _ Hv]]. split; [done|].
    intros x y. rewrite <- Hpts. apply Hu.
Qed.
Lemma RegionFromRects_points_witness :
  exists r k', RegionFromRects always 0 [MkRect 3 4 10 2; MkRect 30000 0 9000 7; MkRect 1 1 0 5] 0 = Ret (r, k') /\ RegionIsValid r = true /\
    (forall x y, covers (RegionRects r) x y <->
       exists q, q ∈ [MkRect 3 4 10 2; MkRect 30000 0 9000 7; MkRect 1 1 0 5] /\ in_rect q x y).
Proof.
  apply (RegionFromRects_points always 0 [MkRect 3 4 10 2; MkRect 30000 0 9000 7; MkRect 1 1 0 5] 0).
  - apply always_ok.
  - repeat (constructor; [unfold rect_range; cbn; lia|]). constructor.
  - done.
  - cbn. lia.
Defined.

(** ** Without memory *)

(** The allocator that fails at call [n] only. *)
Definition fails_at (n : nat) : allocator := fun k _ => negb (Nat.eqb k n).

(** C35: [RegionOp] does not look at the results of [RegionAppendNonO] and of
    the overlap procedure, and the next box that is appended makes a broken
    region usable again: when the fourth allocation of a call of
    [RegionValidate] fails, it answers [TRUE] with a region that has lost points
    of the boxes and is not valid. *)
Theorem RegionValidate_loses_points :
  let l := [MkBox 0 0 1 9; MkBox 4 0 5 9; MkBox 2 1 3 2; MkBox 2 3 3 4; MkBox 2 7 3 8] in
  exists r ov k, RegionValidate (fails_at 3) 0 (MkRegion RegionEmptyBox (Heap 5 l)) = Ret (true, r, ov, k) /\
    covers l 0 0 /\ ~ covers (RegionRects r) 0 0 /\ RegionIsValid r = false.
Proof.
  intros l. eexists _, _, _. split; [vm_compute; reflexivity|]. split; [apply (Nat.lt_0_1)|]. split; [|reflexivity].
  unfold covers. intros H. vm_compute in H. lia.
Qed.

(** [RegionAppend] knows two boxes side by side in one band to be in order
    and [RegionValidate] then leaves them: a band is left that could be one with
    the band above it, so that the region is not in the form that
    [RegionValidate] makes of the same boxes. *)
Theorem RegionAppend_not_coalesced :
  let left := MkRegion (MkBox 0 0 4 3) (Heap 3 [MkBox 0 0 1 2; MkBox 3 0 4 2; MkBox 0 2 1 3]) in
  let right := MkRegion (MkBox 3 2 4 3) Null in
  RegionIsValid left = true /\ RegionIsValid right = true /\
  exists mid k r ov k' r' ov' k2,
    RegionAppend always 0 left right = Ret (true, mid, k) /\ RegionValidate always k mid = Ret (true, r, ov, k') /\
    RegionRects r = [MkBox 0 0 1 2; MkBox 3 0 4 2; MkBox 0 2 1 3; MkBox 3 2 4 3] /\
    RegionValidate always 0 (MkRegion RegionEmptyBox (Heap 4 (RegionRects r))) = Ret (true, r', ov', k2) /\
    RegionRects r' = [MkBox 0 0 1 3; MkBox 3 0 4 3].
Proof.
  split; [reflexivity|]. split; [reflexivity|]. eexists _, _, _, _, _, _, _, _.
  split; [vm_compute; reflexivity|]. split; [vm_compute; reflexivity|]. split; [reflexivity|]. split; [vm_compute; reflexivity|reflexivity].
Qed.
