(* ===== verification/Grabs.v ===== *)
(** * Grabs: the passive grabs of [dix/grabs.c]

    A window has a list of passive grabs.  Each names keys or buttons and
    modifiers, exactly or as "any but these": the exceptions are the clear bits
    of a mask.  A client takes some of the combinations back by ungrabbing
    them, which splits grabs.

    The grabs are cells of a heap, so that a cell that is used after it was
    freed shows as [Undefined]; the list of a window is the list of its cells. *)

From S2P Require Import Prelude.
From S2P Require Import Resource.

(** ** Data *)

(** [include/input.h: InputLevel 143-147] *)
Inductive InputLevel := CORE | XI | XI2.
#[export] Instance level_eq : EqDecision InputLevel.
Proof. solve_decision. Defined.

(** The protocol's constants. *)
Definition AnyKey : Z := 0.
Definition XIAnyKeycode : Z := 0.
Definition AnyModifier : Z := 32768.
Definition XIAnyModifier : Z := 2147483648.
Definition AllModifiersMask : Z := 255.
Definition GrabModeSync : Z := 0.
Definition GrabModeAsync : Z := 1.
Definition XIGrabModeTouch : Z := 2.
Definition KeyPress : Z := 2.
Definition ButtonPress : Z := 4.
Definition XI_KeyPress : Z := 2.
Definition XI_ButtonPress : Z := 4.
Definition KeyPressMask : Z := 1.
Definition KeyReleaseMask : Z := 2.
Definition DixGrabAccess : Z := Z.shiftl 1 17.
Definition DixFreezeAccess : Z := Z.shiftl 1 18.

(** [include/inputstr.h: _DetailRec 157-160] *)
Record DetailRec := MkDetail { exact : Z; pMask : option (list Z) }.
#[export] Instance detail_eq : EqDecision DetailRec.
Proof. solve_decision. Defined.

(** A byte for each event type of each device.
    [include/inputstr.h: _XI2Mask 668-672] *)
Record XI2Mask := MkXI2Mask { masks : list (list Z); mask_size : Z }.
#[export] Instance xi2mask_eq : EqDecision XI2Mask.
Proof. solve_decision. Defined.

(** [include/inputstr.h: EMASKSIZE 64-64] *)
Definition EMASKSIZE : Z := 256 + 2.
Definition XI_GestureSwipeEnd : Z := 32.
(** [include/inputstr.h: XI2MASKSIZE 70-71] *)
Definition XI2MASKSIZE : Z := Z.shiftr XI_GestureSwipeEnd 3 + 1.

(** Pointers are addresses; [next] is the order of the window's list.  The
    three flags have one bit.
    [include/inputstr.h: _GrabRec 181-200] *)
Record GrabRec := MkGrab {
  resource : Z; device : Z; window : Z;
  ownerEvents : Z; keyboardMode : Z; pointerMode : Z;
  grabtype : InputLevel; type : Z;
  modifiersDetail : DetailRec; modifierDevice : Z; detail : DetailRec;
  confineTo : option Z; cursor : option Z;
  eventMask : Z; deviceMask : Z; xi2mask : XI2Mask }.
#[export] Instance eta_grab : Settable GrabRec := fun g =>
  MkGrab (resource g) (device g) (window g) (ownerEvents g) (keyboardMode g) (pointerMode g) (grabtype g) (type g)
    (modifiersDetail g) (modifierDevice g) (detail g) (confineTo g) (cursor g) (eventMask g) (deviceMask g) (xi2mask g).
#[export] Instance eta_detail : Settable DetailRec := fun d => MkDetail (exact d) (pMask d).

(** What grabs use of a window: whether it has its optional record, whether
    anything else in there keeps it, and the passive grabs, which are part of
    it. *)
Record WinRec := MkWin { optional : bool; other_need : bool; passiveGrabs : list Z }.
#[export] Instance eta_win : Settable WinRec := fun w => MkWin (optional w) (other_need w) (passiveGrabs w).

(** The heap of grabs, the windows, the passive grab resources, the reference
    counts of the cursors, the ids that were given out, and the number of
    allocations. *)
Record GrabState := MkGS {
  grabs : gmap Z GrabRec; windows : gmap Z WinRec; resources : gmap Z Z; cursors : gmap Z Z;
  issued : gset Z; allocs : nat }.
#[export] Instance eta_gs : Settable GrabState := fun s =>
  MkGS (grabs s) (windows s) (resources s) (cursors s) (issued s) (allocs s).

(** What is read here of the parameters.
    [dix/exevents_priv.h: GrabParameters 22-31] *)
Record GrabParameters := MkParams {
  p_ownerEvents : Z; this_device_mode : Z; other_devices_mode : Z; modifiers : Z }.

(** The union: what was stored in it.
    [include/inputstr.h: _GrabMask 162-166] *)
Inductive GrabMask := MaskCore (m : Z) | MaskXI2 (m : XI2Mask).

(** What the file uses of the rest of the server: the limit of clients that
    fixes the client part of an id, ids of a client that are neither in use nor
    given out before, the devices, and the answer of the access hook. *)
Class GrabEnv := {
  LimitClients : Z;
  FakeClientID : gset Z -> Z -> Z;
  fake_fresh : forall used c, FakeClientID used c ∉ used;
  fake_owner : forall used id, let c := dixClientIdForXID LimitClients id in dixClientIdForXID LimitClients (FakeClientID used c) = c;
  all_devices : Z;
  all_master_devices : Z;
  InputDevIsMaster : Z -> bool;
  dixCallDeviceAccessCallback : Z -> Z -> Z -> Z
}.

Section Grabs.
Context `{GrabEnv} (al : allocator).
Implicit Types (st : GrabState) (g : GrabRec) (d : DetailRec).

Definition owner g : Z := dixClientIdForXID LimitClients (resource g).

(** ** Memory *)

Definition calloc st (n : Z) : bool * GrabState := (al (allocs st) n, st <| allocs ::= S |>).
Definition sizeof_GrabRec : Z := 128.

(** ** XI2 masks *)

(** [dix/inpututils.c: xi2mask_new_with_size] *)
Definition xi2mask_new_with_size st (nmasks size : Z) : option XI2Mask * GrabState :=
  let '(ok, st) := calloc st (24 + nmasks * 8 + nmasks * size) in
  (if ok then Some (MkXI2Mask (replicate (Z.to_nat nmasks) (replicate (Z.to_nat size) 0)) size) else None, st).
(** [dix/inpututils.c: xi2mask_new] *)
Definition xi2mask_new st : option XI2Mask * GrabState := xi2mask_new_with_size st EMASKSIZE XI2MASKSIZE.

(** A negative device id clears all masks.
    [dix/inpututils.c: xi2mask_zero] *)
Definition xi2mask_zero (m : XI2Mask) (deviceid : Z) : outcome XI2Mask :=
  if 0 <=? deviceid then
    row <-? masks m !! Z.to_nat deviceid;
    Ret (MkXI2Mask (<[Z.to_nat deviceid := replicate (length row) 0]> (masks m)) (mask_size m))
  else Ret (MkXI2Mask (map (fun row => replicate (length row) 0) (masks m)) (mask_size m)).

Fixpoint merge_row (a b : list Z) : list Z :=
  match a, b with x :: a, y :: b => Z.lor x y :: merge_row a b | _, _ => a end.
Fixpoint merge_rows (a b : list (list Z)) : list (list Z) :=
  match a, b with x :: a, y :: b => merge_row x y :: merge_rows a b | _, _ => a end.
(** [dix/inpututils.c: xi2mask_merge] *)
Definition xi2mask_merge (dest source : XI2Mask) : XI2Mask :=
  MkXI2Mask (merge_rows (masks dest) (masks source)) (mask_size dest).

(** ** Making and freeing *)

(** [dix/cursor.c: RefCursor] *)
Definition RefCursor st (c : option Z) : outcome GrabState :=
  match c with
  | None => Ret st
  | Some c => n <-? cursors st !! c; Ret (st <| cursors ::= <[c := n + 1]> |>)
  end.
(** The last reference frees the cursor.
    [dix/cursor.c: FreeCursor 108-128] *)
Definition FreeCursor st (c : Z) : outcome GrabState :=
  n <-? cursors st !! c;
  Ret (st <| cursors ::= if n - 1 =? 0 then delete c else <[c := n - 1]> |>).

Definition null_detail : DetailRec := MkDetail 0 None.

(** [dix/grabs.c: CopyGrab] *)
Definition CopyGrab st (dst : Z) (src : GrabRec) : outcome (bool * GrabState) :=
  let '(ok, st) := match pMask (modifiersDetail src) with Some _ => calloc st 64 | None => (true, st) end in
  if negb ok then Ret (false, st)
  else
    let '(ok, st) := match pMask (detail src) with Some _ => calloc st 64 | None => (true, st) end in
    if negb ok then Ret (false, st)
    else
      d <-? grabs st !! dst;
      zeroed <-- xi2mask_zero (xi2mask d) (-1);
      st <-- RefCursor st (cursor src);
      Ret (true, st <| grabs ::= <[dst := src <| xi2mask := xi2mask_merge zeroed (xi2mask src) |>]> |>).

(** The record that [calloc] gives, with its mask.
    [dix/grabs.c: AllocGrab] *)
Definition AllocGrab st (src : option GrabRec) : outcome (option Z * GrabState) :=
  let '(ok, st) := calloc st sizeof_GrabRec in
  if negb ok then Ret (None, st)
  else
    let '(m, st) := xi2mask_new st in
    match m with
    | None => Ret (None, st)
    | Some m =>
        let grab := fresh (dom (grabs st)) in
        let st := st <| grabs ::= <[grab := MkGrab 0 0 0 0 0 0 CORE 0 null_detail 0 null_detail None None 0 0 m]> |> in
        match src with
        | None => Ret (Some grab, st)
        | Some src =>
            '(ok, st) <-- CopyGrab st grab src;
            if ok : bool then Ret (Some grab, st) else Ret (None, st <| grabs ::= delete grab |>)
        end
    end.

(** A core mask that is read as the pointer of an XI2 mask is not one.
    [dix/grabs.c: CreateGrab] *)
Definition CreateGrab st (client device_ modDevice window_ : Z) (level : InputLevel) (mask : GrabMask)
    (param : GrabParameters) (eventType keybut : Z) (confineTo_ cursor_ : option Z) : outcome (option Z * GrabState) :=
  '(grab, st) <-- AllocGrab st None;
  match grab with
  | None => Ret (None, st)
  | Some grab =>
      g <-? grabs st !! grab;
      core <-- match level, mask with
               | XI2, _ => Ret 0
               | _, MaskCore m => Ret m
               | _, MaskXI2 _ => Undefined
               end;
      let id := FakeClientID (dom (resources st) ∪ issued st) client in
      let st := st <| issued ::= union {[id]} |> in
      st <-- RefCursor st cursor_;
      xi2 <-- match level, mask with
              | XI2, MaskXI2 m => Ret (xi2mask_merge (xi2mask g) m)
              | XI2, MaskCore _ => Undefined
              | _, _ => Ret (xi2mask g)
              end;
      Ret (Some grab, st <| grabs ::= <[grab :=
        MkGrab id device_ window_ (Z.land (p_ownerEvents param) 1) (Z.land (this_device_mode param) 1)
          (Z.land (other_devices_mode param) 1) level (u8 eventType) (MkDetail (modifiers param) None) modDevice
          (MkDetail keybut None) confineTo_ cursor_ core 0 xi2]> |>)
  end.

(** [dix/grabs.c: FreeGrab] *)
Definition FreeGrab st (grab : Z) : outcome GrabState :=
  g <-? grabs st !! grab;
  st <-- match cursor g with Some c => FreeCursor st c | None => Ret st end;
  Ret (st <| grabs ::= delete grab |>).

(** The optional record of a window goes when nothing needs it.
    [dix/window.c: CheckWindowOptionalNeed 3307-3322] *)
Definition CheckWindowOptionalNeed (w : WinRec) : WinRec :=
  if negb (other_need w) && bool_decide (passiveGrabs w = []) then w <| optional := false |> else w.

(** [dix/window.c: MakeWindowOptional 3364-3377] *)
Definition MakeWindowOptional st (window_ : Z) : outcome (bool * GrabState) :=
  w <-? windows st !! window_;
  if optional w then Ret (true, st)
  else
    let '(ok, st) := calloc st 136 in
    if ok then Ret (true, st <| windows ::= <[window_ := MkWin true (other_need w) []]> |>) else Ret (false, st).

(** The list, without the optional record an empty one.
    [dix/window_priv.h: wPassiveGrabs 29-29] *)
Definition wPassiveGrabs st (window_ : Z) : outcome (list Z) :=
  w <-? windows st !! window_; Ret (if optional w then passiveGrabs w else []).

(** The grab leaves the list of its window, if it is in it, and is freed.
    [dix/grabs.c: DeletePassiveGrab] *)
Definition DeletePassiveGrab st (grab : Z) : outcome GrabState :=
  g <-? grabs st !! grab;
  l <-- wPassiveGrabs st (window g);
  w <-? windows st !! window g;
  let st :=
    if bool_decide (grab ∈ l) then
      let l := filter (fun x => x <> grab) l in
      let w := w <| passiveGrabs := l |> in
      st <| windows ::= <[window g := if bool_decide (l = []) then CheckWindowOptionalNeed w else w]> |>
    else st in
  FreeGrab st grab.

(** [AddResource] and [FreeResource] of dix/resource.c for passive grabs: each
    has one resource, and a resource that cannot be added is deleted.
    Resource.v models them in full. *)
Definition AddResource st (id grab : Z) : outcome (bool * GrabState) :=
  let '(ok, st) := calloc st 32 in
  if ok then Ret (true, st <| resources ::= <[id := grab]> |>)
  else st <-- DeletePassiveGrab st grab; Ret (false, st).
Definition FreeResource st (id : Z) : outcome GrabState :=
  match resources st !! id with
  | None => Ret st
  | Some grab => DeletePassiveGrab (st <| resources ::= delete id |>) grab
  end.

(** ** Details *)

(** Eight words for 256 details; the words are 64 bits wide, but only 32 are
    used.
    [dix/grabs.c: MasksPerDetailMask 72-74] *)
Definition MasksPerDetailMask : Z := 8.
(** [dix/grabs.c: BITMASK 76-76] *)
Definition BITMASK (i : Z) : Z := Z.shiftl 1 (Z.land i 31).
(** [dix/grabs.c: MASKIDX 77-78] *)
Definition MASKIDX (i : Z) : Z := Z.shiftr i 5.
(** Outside the words there is nothing to be read.
    [dix/grabs.c: GETBIT 81-81] *)
Definition GETBIT (buf : list Z) (i : Z) : outcome bool :=
  w <-? buf !! Z.to_nat (MASKIDX i); Ret (negb (Z.land w (BITMASK i) =? 0)).
(** [dix/grabs.c: BITCLEAR 80-80] *)
Definition BITCLEAR (buf : list Z) (i : Z) : outcome (list Z) :=
  w <-? buf !! Z.to_nat (MASKIDX i); Ret (<[Z.to_nat (MASKIDX i) := Z.land w (u64 (Z.lnot (BITMASK i)))]> buf).

(** [dix/grabs.c: DeleteDetailFromMask] *)
Definition DeleteDetailFromMask st (pDetailMask : option (list Z)) (detail_ : Z)
  : outcome (option (list Z) * GrabState) :=
  let '(ok, st) := calloc st 64 in
  if negb ok then Ret (None, st)
  else
    let mask := match pDetailMask with Some m => m | None => replicate 8 (u64 (Z.lnot 0)) end in
    mask <-- BITCLEAR mask detail_;
    Ret (Some mask, st).

(** [dix/grabs.c: IsInGrabMask] *)
Definition IsInGrabMask (first second : DetailRec) (exception : Z) : outcome bool :=
  if exact first =? exception then
    match pMask first with
    | None => Ret true
    | Some m => if exact second =? exception then Ret false else GETBIT m (exact second)
    end
  else Ret false.

(** [dix/grabs.c: IdenticalExactDetails] *)
Definition IdenticalExactDetails (firstExact secondExact exception : Z) : bool :=
  if (firstExact =? exception) || (secondExact =? exception) then false else firstExact =? secondExact.

(** [dix/grabs.c: DetailSupersedesSecond] *)
Definition DetailSupersedesSecond (first second : DetailRec) (exception : Z) : outcome bool :=
  b <-- IsInGrabMask first second exception;
  if b : bool then Ret true else Ret (IdenticalExactDetails (exact first) (exact second) exception).

(** The conjunctions and disjunctions of C: the second is looked at only when
    it is needed. *)
Definition andO (a b : outcome bool) : outcome bool := x <-- a; if x : bool then b else Ret false.
Definition orO (a b : outcome bool) : outcome bool := x <-- a; if x : bool then Ret true else b.

Definition any_modifier g : Z := if bool_decide (grabtype g = XI2) then XIAnyModifier else AnyModifier.
Definition any_key g : Z := if bool_decide (grabtype g = XI2) then XIAnyKeycode else AnyKey.

(** [dix/grabs.c: GrabSupersedesSecond] *)
Definition GrabSupersedesSecond (first second : GrabRec) : outcome bool :=
  andO (DetailSupersedesSecond (modifiersDetail first) (modifiersDetail second) (any_modifier first))
       (DetailSupersedesSecond (detail first) (detail second) AnyKey).

(** The devices of the grabs are compatible; for XI2 "all devices" goes with
    every device and "all master devices" with every master.
    [dix/grabs.c: GrabMatchesSecond 444-466] *)
Definition same_devices (first second : GrabRec) (ignoreDevice : bool) : bool :=
  if bool_decide (grabtype first = XI2) then
    if (device first =? all_devices) || (device second =? all_devices) then true
    else if device first =? all_master_devices then
      negb (negb (device second =? all_master_devices) && negb (InputDevIsMaster (device second)))
    else if device second =? all_master_devices then
      negb (negb (device first =? all_master_devices) && negb (InputDevIsMaster (device first)))
    else device second =? device first
  else
    negb (negb ignoreDevice &&
          (negb (device first =? device second) || negb (modifierDevice first =? modifierDevice second))).

(** [dix/grabs.c: GrabMatchesSecond] *)
Definition GrabMatchesSecond (first second : GrabRec) (ignoreDevice : bool) : outcome bool :=
  if negb (bool_decide (grabtype first = grabtype second)) then Ret false
  else if negb (same_devices first second ignoreDevice) then Ret false
  else if negb (type first =? type second) then Ret false
  else
    orO (orO (GrabSupersedesSecond first second) (GrabSupersedesSecond second first))
    (orO (andO (DetailSupersedesSecond (detail second) (detail first) AnyKey)
               (DetailSupersedesSecond (modifiersDetail first) (modifiersDetail second) (any_modifier first)))
         (andO (DetailSupersedesSecond (detail first) (detail second) AnyKey)
               (DetailSupersedesSecond (modifiersDetail second) (modifiersDetail first) (any_modifier first)))).

(** [dix/grabs.c: GrabsAreIdentical] *)
Definition GrabsAreIdentical (first second : GrabRec) : outcome bool :=
  if negb (bool_decide (grabtype first = grabtype second)) then Ret false
  else if negb (device first =? device second) || negb (modifierDevice first =? modifierDevice second)
          || negb (type first =? type second) then Ret false
  else
    andO (andO (DetailSupersedesSecond (detail first) (detail second) AnyKey)
               (DetailSupersedesSecond (detail second) (detail first) AnyKey))
         (andO (DetailSupersedesSecond (modifiersDetail first) (modifiersDetail second) (any_modifier first))
               (DetailSupersedesSecond (modifiersDetail second) (modifiersDetail first) (any_modifier first))).

(** ** Ungrabbing *)

(** Which of the masks of a grab is replaced. *)
Inductive mask_field := FieldDetail | FieldModifiers.
Definition field_mask (f : mask_field) g : option (list Z) :=
  match f with FieldDetail => pMask (detail g) | FieldModifiers => pMask (modifiersDetail g) end.
Definition set_field_mask (f : mask_field) (m : list Z) g : GrabRec :=
  match f with
  | FieldDetail => g <| detail ::= fun d => d <| pMask := Some m |> |>
  | FieldModifiers => g <| modifiersDetail ::= fun d => d <| pMask := Some m |> |>
  end.

(** What is to be done when all memory is there: grabs to delete, grabs to add
    and masks to replace. *)
Record plan := MkPlan { deletes : list Z; adds : list Z; updates : list (Z * mask_field * list Z) }.
#[export] Instance eta_plan : Settable plan := fun p => MkPlan (deletes p) (adds p) (updates p).

(** [dix/grabs.c: DeletePassiveGrabFromList 586-590] *)
Definition UPDATE st (p : plan) (grab : Z) g (f : mask_field) (exact_ : Z) : outcome (bool * GrabState * plan) :=
  '(m, st) <-- DeleteDetailFromMask st (field_mask f g) exact_;
  match m with
  | None => Ret (false, st, p)
  | Some m => Ret (true, st, p <| updates ::= fun l => l ++ [(grab, f, m)] |>)
  end.

(** A grab of any key with any modifiers loses one combination: the key is
    taken out and gets a grab of its own without the modifiers.  The event mask
    of the grab is passed as if it were the union of masks.
    [dix/grabs.c: DeletePassiveGrabFromList 632-667] *)
Definition split_grab st (p : plan) (grab : Z) g (minuend : GrabRec) : outcome (bool * GrabState * plan) :=
  '(ok, st, p) <-- UPDATE st p grab g FieldDetail (exact (detail minuend));
  let param := MkParams (ownerEvents g) (keyboardMode g) (pointerMode g) (any_modifier minuend) in
  '(new, st) <-- CreateGrab st (owner g) (device g) (modifierDevice g) (window g) (grabtype g)
                   (MaskCore (eventMask g)) param (type g) (exact (detail minuend)) (confineTo g) (cursor g);
  match new with
  | None => Ret (false, st, p)
  | Some new =>
      n <-? grabs st !! new;
      '(m, st) <-- DeleteDetailFromMask st (pMask (modifiersDetail g)) (exact (modifiersDetail minuend));
      let n := n <| modifiersDetail ::= fun d => d <| pMask := m |> |> in
      let st := st <| grabs ::= <[new := n]> |> in
      '(made, st) <-- (if bool_decide (m = None) then Ret (false, st) else MakeWindowOptional st (window n));
      if negb made then st <-- FreeGrab st new; Ret (false, st, p)
      else
        '(added, st) <-- AddResource st (resource n) new;
        if negb added then Ret (false, st, p) else Ret (ok, st, p <| adds ::= fun l => l ++ [new] |>)
  end.

(** [dix/grabs.c: DeletePassiveGrabFromList 615-675] *)
Definition ungrab_one st (p : plan) (minuend : GrabRec) (grab : Z) : outcome (bool * GrabState * plan) :=
  g <-? grabs st !! grab;
  matches <-- (if negb (owner g =? owner minuend) then Ret false
               else GrabMatchesSecond g minuend (bool_decide (grabtype g = CORE)));
  if negb matches then Ret (true, st, p)
  else
    supersedes <-- GrabSupersedesSecond minuend g;
    if supersedes : bool then Ret (true, st, p <| deletes ::= fun l => l ++ [grab] |>)
    else if (exact (detail g) =? any_key minuend) && negb (exact (modifiersDetail g) =? any_modifier minuend) then
      UPDATE st p grab g FieldDetail (exact (detail minuend))
    else if (exact (modifiersDetail g) =? any_modifier minuend) && negb (exact (detail g) =? any_key minuend) then
      UPDATE st p grab g FieldModifiers (exact (modifiersDetail minuend))
    else if negb (exact (detail minuend) =? any_key minuend)
            && negb (exact (modifiersDetail minuend) =? any_modifier minuend) then
      split_grab st p grab g minuend
    else if exact (detail minuend) =? any_key minuend then
      UPDATE st p grab g FieldModifiers (exact (modifiersDetail minuend))
    else UPDATE st p grab g FieldDetail (exact (detail minuend)).

(** [dix/grabs.c: DeletePassiveGrabFromList 614-616] *)
Fixpoint ungrab_scan st (p : plan) (minuend : GrabRec) (l : list Z) : outcome (bool * GrabState * plan) :=
  match l with
  | [] => Ret (true, st, p)
  | grab :: l =>
      '(ok, st, p) <-- ungrab_one st p minuend grab;
      if negb ok then Ret (false, st, p) else ungrab_scan st p minuend l
  end.

(** [FreeResource] of the grabs, in order.
    [dix/grabs.c: DeletePassiveGrabFromList 677-685] *)
Fixpoint free_grabs st (l : list Z) : outcome GrabState :=
  match l with
  | [] => Ret st
  | grab :: l => g <-? grabs st !! grab; st <-- FreeResource st (resource g); free_grabs st l
  end.
(** The new grabs go to the head of the list.
    [dix/grabs.c: DeletePassiveGrabFromList 686-690] *)
Fixpoint link_grabs st (l : list Z) : outcome GrabState :=
  match l with
  | [] => Ret st
  | grab :: l =>
      g <-? grabs st !! grab;
      w <-? windows st !! window g;
      if negb (optional w) then Undefined
      else link_grabs (st <| windows ::= <[window g := w <| passiveGrabs ::= cons grab |>]> |>) l
  end.
(** [dix/grabs.c: DeletePassiveGrabFromList 691-694] *)
Fixpoint apply_updates st (l : list (Z * mask_field * list Z)) : outcome GrabState :=
  match l with
  | [] => Ret st
  | (grab, f, m) :: l =>
      g <-? grabs st !! grab;
      apply_updates (st <| grabs ::= <[grab := set_field_mask f m g]> |>) l
  end.

(** The combinations of [minuend], which need not be in the list, are taken
    from the grabs of its client.  The four arrays are allocated first.
    [dix/grabs.c: DeletePassiveGrabFromList] *)
Definition DeletePassiveGrabFromList st (minuend : Z) : outcome (bool * GrabState) :=
  m <-? grabs st !! minuend;
  l <-- wPassiveGrabs st (window m);
  match l with
  | [] => Ret (true, st)
  | _ =>
      let n := Z.of_nat (length l) * 8 in
      let '(ok1, st) := calloc st n in
      let '(ok2, st) := calloc st n in
      let '(ok3, st) := calloc st n in
      let '(ok4, st) := calloc st n in
      if negb (ok1 && ok2 && ok3 && ok4) then Ret (false, st)
      else
        '(ok, st, p) <-- ungrab_scan st (MkPlan [] [] []) m l;
        if negb ok then st <-- free_grabs st (adds p); Ret (false, st)
        else
          st <-- free_grabs st (deletes p);
          st <-- link_grabs st (adds p);
          st <-- apply_updates st (updates p);
          Ret (true, st)
  end.

(** ** Grabbing *)

(** A grab of another client that has combinations in common.
    [dix/grabs.c: AddPassiveGrabToList 536-543] *)
Fixpoint foreign_grab st (pGrab : GrabRec) (l : list Z) : outcome bool :=
  match l with
  | [] => Ret false
  | grab :: l =>
      g <-? grabs st !! grab;
      m <-- GrabMatchesSecond pGrab g (bool_decide (grabtype pGrab = CORE));
      if m && negb (owner pGrab =? owner g) then Ret true else foreign_grab st pGrab l
  end.
(** The first grab that is the same is ungrabbed.
    [dix/grabs.c: AddPassiveGrabToList 552-558] *)
Fixpoint delete_identical st (pGrab : GrabRec) (l : list Z) : outcome GrabState :=
  match l with
  | [] => Ret st
  | grab :: l =>
      g <-? grabs st !! grab;
      same <-- GrabsAreIdentical pGrab g;
      if same : bool then '(_, st) <-- DeletePassiveGrabFromList st grab; Ret st
      else delete_identical st pGrab l
  end.

(** When the access hook refuses, the grab is not freed.
    [dix/grabs.c: AddPassiveGrabToList] *)
Definition AddPassiveGrabToList st (client pGrab : Z) : outcome (Z * GrabState) :=
  g <-? grabs st !! pGrab;
  l <-- wPassiveGrabs st (window g);
  foreign <-- foreign_grab st g l;
  if foreign : bool then st <-- FreeGrab st pGrab; Ret (BadAccess, st)
  else
    let access_mode :=
      if (keyboardMode g =? GrabModeSync) || (pointerMode g =? GrabModeSync)
      then Z.lor DixGrabAccess DixFreezeAccess else DixGrabAccess in
    let rc := dixCallDeviceAccessCallback client (device g) access_mode in
    if negb (rc =? Success) then Ret (rc, st)
    else
      st <-- delete_identical st g l;
      '(made, st) <-- MakeWindowOptional st (window g);
      if negb made then st <-- FreeGrab st pGrab; Ret (BadAlloc, st)
      else
        w <-? windows st !! window g;
        let st := st <| windows ::= <[window g := w <| passiveGrabs ::= cons pGrab |>]> |> in
        '(added, st) <-- AddResource st (resource g) pGrab;
        Ret (if added : bool then Success else BadAlloc, st).
End Grabs.
