(* ===== verification/GrabSets.v ===== *)
(** * GrabSets: the combinations that a grab has

    The sets of keys and modifiers that details stand for, and what the
    comparisons of [dix/grabs.c] say about them when one of the two grabs has no
    exceptions, which is so at every call. *)

From S2P Require Import Prelude.
From S2P Require Import Resource.
From S2P Require Import Grabs.

(** ** Bits *)

Definition has_bit (m : list Z) (x : Z) : bool :=
  match m !! Z.to_nat (MASKIDX x) with Some w => Z.testbit w (Z.land x 31) | None => false end.
(** The eight words of a mask. *)
Definition mask_ok (m : list Z) : Prop := length m = 8%nat /\ Forall (fun w => 0 <= w < 2 ^ 64) m.
Definition ranged (x : Z) : Prop := 0 <= x < 256.

Lemma word_index x : ranged x -> (Z.to_nat (MASKIDX x) < 8)%nat /\ 0 <= Z.land x 31 < 32.
Proof.
  unfold ranged, MASKIDX. intros Hx. rewrite Z.shiftr_div_pow2 by lia. change (2 ^ 5) with 32.
  change 31 with (Z.ones 5). rewrite Z.land_ones by lia. change (2 ^ 5) with 32.
  split; [|apply Z.mod_pos_bound; lia]. assert (x / 32 < 8) by (apply Z.div_lt_upper_bound; lia).
  assert (0 <= x / 32) by (apply Z.div_pos; lia). lia.
Qed.
Lemma same_bit x y : ranged x -> ranged y -> MASKIDX x = MASKIDX y -> Z.land x 31 = Z.land y 31 -> x = y.
Proof.
  unfold ranged, MASKIDX. intros Hx Hy. rewrite !Z.shiftr_div_pow2 by lia. change (2 ^ 5) with 32.
  change 31 with (Z.ones 5). rewrite !Z.land_ones by lia. change (2 ^ 5) with 32. intros H1 H2.
  rewrite (Z.div_mod x 32), (Z.div_mod y 32) by lia. congruence.
Qed.
Lemma mask_word m x : mask_ok m -> ranged x -> exists w, m !! Z.to_nat (MASKIDX x) = Some w /\ 0 <= w < 2 ^ 64.
Proof.
  intros [Hlen Hw] Hx. destruct (word_index x Hx) as [Hi _]. destruct (lookup_lt_is_Some_2 m (Z.to_nat (MASKIDX x))) as [w E]; [lia|].
  exists w. split; [done|]. rewrite Forall_forall in Hw. apply Hw. by apply list_elem_of_lookup_2 in E.
Qed.

Lemma GETBIT_spec m x : mask_ok m -> ranged x -> GETBIT m x = Ret (has_bit m x).
Proof.
  intros Hm Hx. destruct (mask_word m x Hm Hx) as (w & E & Hw). destruct (word_index x Hx) as [_ Hb].
  unfold GETBIT, has_bit. rewrite E. cbn [obind_opt]. f_equal. unfold BITMASK. rewrite Z.shiftl_1_l.
  destruct (Z.testbit w (Z.land x 31)) eqn:Et.
  - destruct (Z.eqb_spec (Z.land w (2 ^ Z.land x 31)) 0) as [E0|]; [|done]. exfalso.
    assert (Hbit : Z.testbit (Z.land w (2 ^ Z.land x 31)) (Z.land x 31) = true).
    { by rewrite Z.land_spec, Et, Z.pow2_bits_true by lia. }
    rewrite E0, Z.bits_0 in Hbit. done.
  - assert (E0 : Z.land w (2 ^ Z.land x 31) = 0); [|by rewrite E0]. apply Z.bits_inj'. intros n Hn.
    rewrite Z.land_spec, Z.bits_0. destruct (Z.eq_dec n (Z.land x 31)) as [->|Hne]; [by rewrite Et|].
    rewrite Z.pow2_bits_false by lia. apply andb_false_r.
Qed.

Lemma BITCLEAR_spec m x :
  mask_ok m -> ranged x ->
  exists m', BITCLEAR m x = Ret m' /\ mask_ok m' /\ forall y, ranged y -> has_bit m' y = has_bit m y && negb (y =? x).
Proof.
  intros Hm Hx. destruct (mask_word m x Hm Hx) as (w & E & Hw). destruct (word_index x Hx) as [Hi Hb].
  unfold BITCLEAR. rewrite E. cbn [obind_opt]. eexists. split; [reflexivity|]. pose proof Hm as [Hlen Hall].
  set (c := Z.land w (u64 (Z.lnot (BITMASK x)))).
  assert (Hbits : forall n, 0 <= n < 64 -> Z.testbit c n = Z.testbit w n && negb (n =? Z.land x 31)).
  { intros n Hn. subst c. rewrite Z.land_spec. f_equal. unfold u64, BITMASK. rewrite Z.shiftl_1_l.
    change 18446744073709551616 with (2 ^ 64). rewrite Z.mod_pow2_bits_low by lia.
    rewrite Z.lnot_spec by lia. f_equal. destruct (Z.eqb_spec n (Z.land x 31)) as [->|]; [apply Z.pow2_bits_true; lia|].
    apply Z.pow2_bits_false. lia. }
  assert (Hc : 0 <= c < 2 ^ 64).
  { subst c. unfold u64. split; [apply Z.land_nonneg; lia|]. apply Z.log2_lt_cancel.
    rewrite Z.log2_pow2 by lia. eapply Z.le_lt_trans; [apply Z.log2_land; [lia|apply Z.mod_pos_bound; lia]|].
    apply Z.min_lt_iff. left. destruct (Z.eq_dec w 0) as [->|]; [done|]. apply Z.log2_lt_pow2; lia. }
  split; [split; [by rewrite length_insert|by apply Forall_insert]|].
  intros y Hy. unfold has_bit. destruct (word_index y Hy) as [Hiy Hby].
  destruct (Nat.eq_dec (Z.to_nat (MASKIDX y)) (Z.to_nat (MASKIDX x))) as [Ei|Ei].
  - rewrite Ei, list_lookup_insert_eq, E by lia. rewrite Hbits by lia. f_equal. f_equal.
    destruct (Z.eqb_spec (Z.land y 31) (Z.land x 31)) as [E2|E2], (Z.eqb_spec y x) as [->|]; try done. exfalso.
    assert (MASKIDX y = MASKIDX x).
    { assert (0 <= MASKIDX y /\ 0 <= MASKIDX x) by (unfold MASKIDX; split; apply Z.shiftr_nonneg; unfold ranged in *; lia). lia. }
    by apply same_bit in E2.
  - rewrite list_lookup_insert_ne by done. destruct (Z.eqb_spec y x) as [->|]; [done|]. by rewrite andb_true_r.
Qed.

Lemma full_mask_ok : mask_ok (replicate 8 (u64 (Z.lnot 0))) /\ forall x, ranged x -> has_bit (replicate 8 (u64 (Z.lnot 0))) x = true.
Proof.
  split; [split; [done|]; by repeat constructor|]. intros x Hx. unfold has_bit. destruct (word_index x Hx) as [Hi Hb].
  rewrite lookup_replicate_2 by done. unfold u64. change 18446744073709551616 with (2 ^ 64).
  rewrite Z.mod_pow2_bits_low by lia. by rewrite Z.lnot_spec, Z.bits_0 by lia.
Qed.

(** ** Details *)

(** A detail where [any] stands for all. *)
Definition in_detail (any : Z) (d : DetailRec) (x : Z) : Prop :=
  if exact d =? any then match pMask d with None => True | Some m => has_bit m x = true end else exact d = x.
Record detail_ok (any : Z) (d : DetailRec) : Prop := {
  dt_mask : forall m, pMask d = Some m -> exact d = any /\ mask_ok m;
  dt_exact : exact d <> any -> ranged (exact d)
}.
Definition plain (d : DetailRec) : Prop := pMask d = None.

(** What [DetailSupersedesSecond] compares. *)
Definition supersedes (any : Z) (f s : DetailRec) : bool :=
  if exact f =? any then
    match pMask f with
    | None => true
    | Some m => negb (exact s =? any) && has_bit m (exact s)
    end
  else exact f =? exact s.

Lemma DetailSupersedesSecond_spec any f s :
  detail_ok any f -> detail_ok any s -> DetailSupersedesSecond f s any = Ret (supersedes any f s).
Proof.
  intros Hf Hs. unfold DetailSupersedesSecond, IsInGrabMask, IdenticalExactDetails, supersedes.
  destruct (Z.eqb_spec (exact f) any) as [E|E]; cbn [orb obind].
  - destruct (pMask f) as [m|] eqn:Em; [|done]. destruct (Z.eqb_spec (exact s) any) as [Es|Es]; cbn [obind negb andb]; [done|].
    rewrite GETBIT_spec; [|by apply Hf|by apply Hs]. cbn [obind]. by destruct (has_bit m (exact s)).
  - destruct (Z.eqb_spec (exact s) any) as [Es|Es]; [|done]. destruct (Z.eqb_spec (exact f) (exact s)); [congruence|done].
Qed.

(** A detail and a plain one have something in common. *)
Definition meets (any : Z) (d p : DetailRec) : Prop := exact p = any \/ in_detail any d (exact p).
Lemma meets_spec any d p :
  detail_ok any d -> plain p -> meets any d p <-> supersedes any d p || supersedes any p d = true.
Proof.
  intros Hd Hp. unfold meets, in_detail, supersedes. rewrite Hp. destruct (Z.eqb_spec (exact p) any) as [E|E].
  - rewrite orb_true_r. split; [done|by left].
  - destruct (Z.eqb_spec (exact d) any) as [Ed|Ed].
    + assert (exact p =? exact d = false) as -> by (apply Z.eqb_neq; congruence). destruct (pMask d) as [m|]; cbn; rewrite ?orb_false_r.
      * split; [by intros [?|?]|by right].
      * split; [done|by right].
    + rewrite orb_true_iff, !Z.eqb_eq. split; [intros [?|?]; [done|by left]|intros [?|?]; right; congruence].
Qed.
Lemma meets_common any d p x : plain p -> in_detail any d x -> in_detail any p x -> meets any d p.
Proof.
  unfold meets, in_detail at 2. intros ->. destruct (Z.eqb_spec (exact p) any); [by left|]. intros Hd <-. by right.
Qed.

(** ** Grabs *)

Definition hits (g : GrabRec) (d m : Z) : Prop :=
  in_detail AnyKey (detail g) d /\ in_detail (any_modifier g) (modifiersDetail g) m.
Record grab_ok (g : GrabRec) : Prop := {
  go_detail : detail_ok AnyKey (detail g);
  go_modifiers : detail_ok (any_modifier g) (modifiersDetail g)
}.
Definition plain_grab (g : GrabRec) : Prop := plain (detail g) /\ plain (modifiersDetail g).

Lemma any_key_any g : any_key g = AnyKey.
Proof. unfold any_key. by case_bool_decide. Qed.

Section Compare.
Context `{GrabEnv}.

Lemma GrabSupersedesSecond_spec f s :
  grab_ok f -> grab_ok s -> any_modifier f = any_modifier s ->
  GrabSupersedesSecond f s =
    Ret (supersedes (any_modifier f) (modifiersDetail f) (modifiersDetail s) && supersedes AnyKey (detail f) (detail s)).
Proof.
  intros [F1 F2] [S1 S2] E. unfold GrabSupersedesSecond, andO. rewrite E in F2 |- *. rewrite !DetailSupersedesSecond_spec by done. cbn [obind].
  by destruct (supersedes (any_modifier s) _ _).
Qed.

(** The grabs are of one kind: level, event type and devices. *)
Definition concerns (f s : GrabRec) (ignoreDevice : bool) : bool :=
  bool_decide (grabtype f = grabtype s) && same_devices f s ignoreDevice && (type f =? type s).

Lemma GrabMatchesSecond_spec f s ign :
  grab_ok f -> grab_ok s ->
  GrabMatchesSecond f s ign =
    Ret (concerns f s ign &&
         (supersedes AnyKey (detail f) (detail s) || supersedes AnyKey (detail s) (detail f)) &&
         (supersedes (any_modifier f) (modifiersDetail f) (modifiersDetail s) ||
          supersedes (any_modifier f) (modifiersDetail s) (modifiersDetail f))).
Proof.
  intros Hf Hs. unfold GrabMatchesSecond, concerns. destruct (bool_decide (grabtype f = grabtype s)) eqn:Et; cbn [negb andb]; [|done].
  destruct (same_devices f s ign); cbn [negb andb]; [|done]. destruct (type f =? type s); cbn [negb andb]; [|done].
  apply bool_decide_eq_true in Et. assert (Em : any_modifier f = any_modifier s) by (unfold any_modifier; by rewrite Et).
  rewrite !GrabSupersedesSecond_spec by done. destruct Hf as [F1 F2], Hs as [S1 S2]. rewrite <- Em in S2 |- *.
  rewrite !DetailSupersedesSecond_spec by done. unfold andO, orO. cbn [obind].
  destruct (supersedes AnyKey (detail f) (detail s)), (supersedes AnyKey (detail s) (detail f)),
    (supersedes (any_modifier f) (modifiersDetail f) (modifiersDetail s)),
    (supersedes (any_modifier f) (modifiersDetail s) (modifiersDetail f)); done.
Qed.

(** Grabs match when they are of one kind and meet in both details. *)
Lemma GrabMatchesSecond_meets g p ign :
  grab_ok g -> grab_ok p -> plain_grab p ->
  exists b, GrabMatchesSecond g p ign = Ret b /\
    (b = true <-> concerns g p ign = true /\ meets AnyKey (detail g) (detail p) /\
                  meets (any_modifier g) (modifiersDetail g) (modifiersDetail p)).
Proof.
  intros Hg Hp [P1 P2]. rewrite GrabMatchesSecond_spec by done. eexists. split; [reflexivity|].
  rewrite !andb_true_iff, <- (meets_spec AnyKey (detail g) (detail p) (go_detail _ Hg) P1),
    <- (meets_spec (any_modifier g) _ _ (go_modifiers _ Hg) P2). tauto.
Qed.
End Compare.
