(* ===== verification/GrabHeap.v ===== *)
(** * GrabHeap: making and freeing grabs

    The cells of grabs and the reference counts of cursors: the count of a
    cursor less the grabs that use it is never changed, and a grab that could
    not be made leaves nothing behind. *)

From S2P Require Import Prelude.
From S2P Require Import Resource.
From S2P Require Import Grabs.

(** ** Cursors *)

Definition uses (c : Z) (kv : Z * GrabRec) : Prop := cursor kv.2 = Some c.
#[export] Instance uses_dec c kv : Decision (uses c kv).
Proof. unfold uses. apply _. Defined.
Definition live (m : gmap Z GrabRec) (c : Z) : Z := Z.of_nat (size (filter (uses c) m)).
Definition count (st : GrabState) (c : Z) : Z := default 0 (cursors st !! c).
Definition used (g : GrabRec) (c : Z) : Z := if decide (cursor g = Some c) then 1 else 0.
(** References that are not those of grabs. *)
Definition spare (st : GrabState) (c : Z) : Z := count st c - live (grabs st) c.
Record cursors_ok (st : GrabState) : Prop := {
  cu_positive : forall c n, cursors st !! c = Some n -> 0 < n;
  cu_spare : forall c, 0 <= spare st c
}.

Lemma live_insert m x g c : m !! x = None -> live (<[x := g]> m) c = live m c + used g c.
Proof.
  intros Hx. unfold live, used, uses. case_decide as Hc.
  - rewrite map_filter_insert_True by done. rewrite map_size_insert_None; [lia|]. apply map_lookup_filter_None. by left.
  - rewrite map_filter_insert_False by done. rewrite delete_id by done. lia.
Qed.
Lemma live_delete m x g c : m !! x = Some g -> live (delete x m) c = live m c - used g c.
Proof.
  intros Hx. rewrite <- (insert_delete_id m x g Hx) at 2. rewrite live_insert by apply lookup_delete_eq. lia.
Qed.
Lemma live_replace m x g g' c : m !! x = Some g -> cursor g' = cursor g -> live (<[x := g']> m) c = live m c.
Proof.
  intros Hx Hc. rewrite <- (insert_delete_eq m x g'), live_insert by apply lookup_delete_eq. rewrite (live_delete m x g c Hx).
  unfold used. rewrite Hc. lia.
Qed.
Lemma live_positive m x g c : m !! x = Some g -> cursor g = Some c -> 0 < live m c.
Proof.
  intros Hx Hc. pose proof (live_delete m x g c Hx) as E. unfold used in E. rewrite decide_True in E by done.
  assert (0 <= live (delete x m) c) by (unfold live; lia). lia.
Qed.
(** The cursor of a grab exists. *)
Lemma cursor_lives st x g c : cursors_ok st -> grabs st !! x = Some g -> cursor g = Some c -> exists n, cursors st !! c = Some n.
Proof.
  intros [_ Hs] Hx Hc. specialize (Hs c). pose proof (live_positive _ _ _ _ Hx Hc) as Hl. unfold spare, count in Hs.
  destruct (cursors st !! c) as [n|]; [by exists n|]. cbn in Hs. lia.
Qed.

Section Heap.
Context `{GrabEnv} (al : allocator).

(** ** Freeing *)

(** [st'] is [st] without the cell [x]. *)
Record freed (st st' : GrabState) (x : Z) : Prop := {
  fr_grabs : grabs st' = delete x (grabs st);
  fr_windows : windows st' = windows st;
  fr_resources : resources st' = resources st;
  fr_issued : issued st' = issued st;
  fr_cursors : cursors_ok st';
  fr_spare : forall c, spare st' c = spare st c
}.

Lemma FreeGrab_ok st x g :
  cursors_ok st -> grabs st !! x = Some g -> exists st', FreeGrab st x = Ret st' /\ freed st st' x.
Proof.
  intros Hok Hx. unfold FreeGrab. rewrite Hx. cbn [obind_opt]. destruct (cursor g) as [c|] eqn:Ec.
  - destruct (cursor_lives st x g c Hok Hx Ec) as [n Hn]. unfold FreeCursor. rewrite Hn. cbn [obind_opt obind].
    pose proof (cu_positive _ Hok c n Hn) as Hpos. pose proof (live_positive _ _ _ _ Hx Ec) as Hl.
    eexists. split; [reflexivity|]. set (st' := _ <| grabs ::= _ |>).
    assert (Hc : forall c', count st' c' = count st c' - used g c').
    { intros c'. unfold count, used. subst st'. cbn. rewrite Ec. destruct (Z.eqb_spec (n - 1) 0) as [E|E].
      - destruct (decide (c' = c)) as [->|Hne]; [rewrite lookup_delete_eq, Hn, decide_True by done; cbn; lia|].
        rewrite lookup_delete_ne, decide_False by congruence. lia.
      - destruct (decide (c' = c)) as [->|Hne]; [rewrite lookup_insert_eq, Hn, decide_True by done; cbn; lia|].
        rewrite lookup_insert_ne, decide_False by congruence. lia. }
    assert (Hsp : forall c', spare st' c' = spare st c').
    { intros c'. unfold spare. rewrite Hc. change (grabs st') with (delete x (grabs st)). rewrite (live_delete _ x g) by done. lia. }
    split; try done. split; [|intros c'; rewrite Hsp; apply Hok].
    intros c' n'. subst st'. cbn. destruct (Z.eqb_spec (n - 1) 0).
    + intros [_ Hc']%lookup_delete_Some. by apply (cu_positive _ Hok) in Hc'.
    + intros [[<- <-]|[_ Hc']]%lookup_insert_Some; [lia|]. by apply (cu_positive _ Hok) in Hc'.
  - cbn [obind]. eexists. split; [reflexivity|]. set (st' := _ <| grabs ::= _ |>).
    assert (Hsp : forall c', spare st' c' = spare st c').
    { intros c'. unfold spare. change (grabs st') with (delete x (grabs st)). rewrite (live_delete _ x g) by done.
      unfold used. rewrite Ec, decide_False by done. change (count st' c') with (count st c'). lia. }
    split; try done. split; [apply Hok|intros c'; rewrite Hsp; apply Hok].
Qed.

(** ** Making *)

(** Nothing but the number of allocations and the ids that were given out is
    different. *)
Definition same (st st' : GrabState) : Prop := exists k i, issued st ⊆ i /\ st' = st <| allocs := k |> <| issued := i |>.
Lemma same_refl st : same st st.
Proof. exists (allocs st), (issued st). by destruct st. Qed.
Lemma same_trans st1 st2 st3 : same st1 st2 -> same st2 st3 -> same st1 st3.
Proof. intros (k & i & Hi & ->) (k' & i' & Hi' & ->). exists k', i'. split; [|done]. by transitivity i. Qed.
Lemma same_alloc st k : same st (st <| allocs := k |>).
Proof. exists k, (issued st). by destruct st. Qed.

Definition zero_xi2 : XI2Mask :=
  MkXI2Mask (replicate (Z.to_nat EMASKSIZE) (replicate (Z.to_nat XI2MASKSIZE) 0)) XI2MASKSIZE.
Definition blank_grab : GrabRec := MkGrab 0 0 0 0 0 0 CORE 0 null_detail 0 null_detail None None 0 0 zero_xi2.

Lemma AllocGrab_None st :
  (exists st', AllocGrab al st None = Ret (None, st') /\ same st st' /\ exists k z, al k z = false) \/
  (exists k x, AllocGrab al st None = Ret (Some x, st <| allocs := k |> <| grabs ::= <[x := blank_grab]> |>) /\ grabs st !! x = None).
Proof.
  unfold AllocGrab, xi2mask_new, xi2mask_new_with_size, calloc. destruct (al (allocs st) sizeof_GrabRec) eqn:E1; cbn [negb].
  2: { left. eexists. split; [reflexivity|]. split; [exact (same_alloc st _)|by eexists _, _]. }
  match goal with |- context [al ?k ?z] => destruct (al k z) eqn:E2 end.
  2: { left. eexists. split; [reflexivity|]. split; [exact (same_alloc st _)|by eexists _, _]. }
  right. eexists _, _. split; [reflexivity|]. cbn. apply not_elem_of_dom, is_fresh.
Qed.

Lemma RefCursor_ok st c :
  cursors_ok st -> (forall c', c = Some c' -> exists n, cursors st !! c' = Some n) ->
  exists m, RefCursor st c = Ret (st <| cursors := m |>) /\ (forall c' n, m !! c' = Some n -> 0 < n) /\
    forall c', default 0 (m !! c') = count st c' + (if decide (c = Some c') then 1 else 0).
Proof.
  intros Hok Hc. destruct c as [c|]; cbn [RefCursor].
  - destruct (Hc c eq_refl) as [n Hn]. rewrite Hn. cbn [obind_opt]. eexists. split; [reflexivity|]. split.
    + intros c' n' [[<- <-]|[_ Hc']]%lookup_insert_Some; [|by apply (cu_positive _ Hok) in Hc'].
      apply (cu_positive _ Hok) in Hn. lia.
    + intros c'. unfold count. destruct (decide (c = c')) as [->|Hne].
      * rewrite lookup_insert_eq, Hn, decide_True by done. done.
      * rewrite lookup_insert_ne, decide_False by congruence. lia.
  - exists (cursors st). split; [by destruct st|]. split; [apply Hok|]. intros c'. rewrite decide_False by done. unfold count. lia.
Qed.

(** [st'] is [st] with the new cell [x]. *)
Record made (st st' : GrabState) (x : Z) (g : GrabRec) : Prop := {
  ma_fresh : grabs st !! x = None;
  ma_grabs : grabs st' = <[x := g]> (grabs st);
  ma_windows : windows st' = windows st;
  ma_issued : issued st ⊆ issued st';
  ma_resources : resources st' = resources st;
  ma_cursors : cursors_ok st';
  ma_spare : forall c, spare st' c = spare st c
}.

(** The grab that the arguments ask for. *)
Definition grab_of (id dev mdev win : Z) (level : InputLevel) (param : GrabParameters) (eventType keybut : Z)
    (conf cur : option Z) (core : Z) (xi2 : XI2Mask) : GrabRec :=
  MkGrab id dev win (Z.land (p_ownerEvents param) 1) (Z.land (this_device_mode param) 1)
    (Z.land (other_devices_mode param) 1) level (u8 eventType) (MkDetail (modifiers param) None) mdev
    (MkDetail keybut None) conf cur core 0 xi2.

Lemma CreateGrab_ok st client dev mdev win level mask param eventType keybut conf cur :
  cursors_ok st -> (forall c, cur = Some c -> exists n, cursors st !! c = Some n) ->
  match level, mask with XI2, MaskXI2 _ => True | XI2, _ => False | _, MaskCore _ => True | _, _ => False end ->
  (exists st', CreateGrab al st client dev mdev win level mask param eventType keybut conf cur = Ret (None, st') /\ same st st' /\
     exists k z, al k z = false) \/
  (exists st' x core xi2, CreateGrab al st client dev mdev win level mask param eventType keybut conf cur = Ret (Some x, st') /\
     made st st' x (grab_of (FakeClientID (dom (resources st) ∪ issued st) client) dev mdev win level param eventType keybut conf cur core xi2) /\
     FakeClientID (dom (resources st) ∪ issued st) client ∈ issued st' /\
     match level, mask with
     | XI2, MaskXI2 m => core = 0 /\ xi2 = xi2mask_merge zero_xi2 m
     | _, MaskCore m => core = m /\ xi2 = zero_xi2
     | _, _ => False
     end).
Proof.
  intros Hok Hcur Hmask. unfold CreateGrab.
  destruct (AllocGrab_None st) as [(st' & -> & Hs & Hal)|(k & x & -> & Hx)]; cbn [obind].
  { left. by exists st'. }
  right. rewrite (lookup_insert_eq (grabs st) x blank_grab : grabs (st <| allocs := k |> <| grabs ::= <[x := blank_grab]> |>) !! x = Some _).
  cbn [obind_opt]. set (st1 := st <| allocs := k |> <| grabs ::= <[x := blank_grab]> |>).
  assert (Hb : forall c, used blank_grab c = 0) by done.
  assert (Hok1 : cursors_ok st1).
  { split; [apply Hok|]. intros c. unfold spare. subst st1. cbn. rewrite live_insert by done. rewrite Hb.
    change (count _ c) with (count st c). pose proof (cu_spare _ Hok c) as Hs. unfold spare in Hs. lia. }
  change (dom (resources st1) ∪ issued st1) with (dom (resources st) ∪ issued st).
  set (id := FakeClientID (dom (resources st) ∪ issued st) client). set (st2 := st1 <| issued ::= union {[id]} |>).
  assert (Hok2 : cursors_ok st2) by (by destruct Hok1).
  destruct (RefCursor_ok st2 cur Hok2 Hcur) as (m & Href & Hpos & Hcnt).
  assert (Hgoal : forall core xi2, exists st',
    Ret (Some x, st2 <| cursors := m |> <| grabs ::= <[x := grab_of id dev mdev win level param eventType
      keybut conf cur core xi2]> |>) = Ret (Some x, st') /\
    made st st' x (grab_of id dev mdev win level param eventType keybut conf cur core xi2) /\ id ∈ issued st').
  { intros core xi2. eexists. split; [reflexivity|].
    assert (Hsp : forall c, spare (st2 <| cursors := m |> <| grabs ::= <[x := grab_of id dev mdev win level
      param eventType keybut conf cur core xi2]> |>) c = spare st c).
    { intros c. unfold spare, count. subst st2 st1. cbn. rewrite insert_insert_eq, live_insert by done. rewrite Hcnt.
      change (count _ c) with (count st c). unfold used. cbn. unfold count. lia. }
    split; [|by apply elem_of_union; left; apply elem_of_singleton].
    split; try done; cbn; [by rewrite insert_insert_eq|set_solver|]. split; [exact Hpos|]. intros c. rewrite Hsp. apply Hok. }
  destruct level, mask as [m0|m0]; try done; cbn [obind]; rewrite Href; cbn [obind].
  1,2: destruct (Hgoal m0 zero_xi2) as (st' & E & Hm & Hi); exists st', x, m0, zero_xi2; by split_and!.
  destruct (Hgoal 0 (xi2mask_merge zero_xi2 m0)) as (st' & E & Hm & Hi). exists st', x, 0, (xi2mask_merge zero_xi2 m0). by split_and!.
Qed.
End Heap.
