(* ===== verification/GrabAction.v ===== *)
(** * GrabAction: what ungrabbing does to one grab

    Ungrabbing combinations deletes a grab, takes a key or modifiers out of one
    of its masks, or splits it; each is the subtraction of the combinations. *)

From S2P Require Import Prelude.
From S2P Require Import Resource.
From S2P Require Import Grabs.
From S2P Require Import GrabSets.
From S2P Require Import GrabHeap.

Inductive action := Keep | Delete | Clear (f : mask_field) (x : Z) | Split (d m : Z).

Section Action.
Context `{GrabEnv}.

(** What [ungrab_one] does with [g] when [p] is ungrabbed. *)
Definition action_of (g p : GrabRec) : action :=
  if negb (owner g =? owner p) || negb (concerns g p (bool_decide (grabtype g = CORE))) ||
     negb (supersedes AnyKey (detail g) (detail p) || supersedes AnyKey (detail p) (detail g)) ||
     negb (supersedes (any_modifier g) (modifiersDetail g) (modifiersDetail p) ||
           supersedes (any_modifier g) (modifiersDetail p) (modifiersDetail g)) then Keep
  else if supersedes (any_modifier g) (modifiersDetail p) (modifiersDetail g) && supersedes AnyKey (detail p) (detail g) then Delete
  else if (exact (detail g) =? AnyKey) && negb (exact (modifiersDetail g) =? any_modifier g) then
    Clear FieldDetail (exact (detail p))
  else if (exact (modifiersDetail g) =? any_modifier g) && negb (exact (detail g) =? AnyKey) then
    Clear FieldModifiers (exact (modifiersDetail p))
  else if negb (exact (detail p) =? AnyKey) && negb (exact (modifiersDetail p) =? any_modifier g) then
    Split (exact (detail p)) (exact (modifiersDetail p))
  else if exact (detail p) =? AnyKey then Clear FieldModifiers (exact (modifiersDetail p))
  else Clear FieldDetail (exact (detail p)).

(** The combinations of [g] that are left after an action. *)
Definition left_after (a : action) (g : GrabRec) (d m : Z) : Prop :=
  match a with
  | Keep => hits g d m
  | Delete => False
  | Clear FieldDetail x => hits g d m /\ d <> x
  | Clear FieldModifiers x => hits g d m /\ m <> x
  | Split x y => hits g d m /\ ~ (d = x /\ m = y)
  end.

(** Whether [p] takes combinations from [g]. *)
Definition takes_from (p g : GrabRec) : Prop :=
  owner g = owner p /\ concerns g p (bool_decide (grabtype g = CORE)) = true.

Lemma concerns_level g p i : concerns g p i = true -> grabtype g = grabtype p /\ any_modifier g = any_modifier p.
Proof.
  unfold concerns. rewrite !andb_true_iff, bool_decide_eq_true. intros [[E _] _]. split; [done|]. unfold any_modifier. by rewrite E.
Qed.

(** A detail against a plain one, for each form. *)
Lemma in_plain any p x : plain p -> in_detail any p x <-> exact p = any \/ (exact p <> any /\ exact p = x).
Proof. unfold plain, in_detail. intros ->. destruct (Z.eqb_spec (exact p) any); tauto. Qed.
Lemma supersedes_plain any p d : plain p -> supersedes any p d = (exact p =? any) || (exact p =? exact d).
Proof. unfold plain, supersedes. intros ->. by destruct (exact p =? any). Qed.

(** If they meet and the plain one does not have all of the detail, then the
    detail is a set of several and the plain one is one of them. *)
Lemma meets_part any d p :
  plain p -> supersedes any d p || false = true -> supersedes any p d = false ->
  exact d = any /\ exact p <> any /\ in_detail any d (exact p).
Proof.
  intros Hp Hm Hs. rewrite orb_false_r in Hm. rewrite supersedes_plain in Hs by done. apply orb_false_iff in Hs as [Hs1 Hs2].
  apply Z.eqb_neq in Hs1, Hs2. unfold supersedes in Hm. unfold in_detail. destruct (Z.eqb_spec (exact d) any) as [E|E].
  - split; [done|]. split; [done|]. destruct (pMask d); [|done]. by apply andb_true_iff in Hm as [_ ?].
  - apply Z.eqb_eq in Hm. congruence.
Qed.
(** If the plain one has all of the detail, every element of the detail is in
    it. *)
Lemma supersedes_all any d p x : plain p -> supersedes any p d = true -> in_detail any d x -> in_detail any p x.
Proof.
  intros Hp Hs Hx. rewrite supersedes_plain in Hs by done. apply in_plain; [done|]. apply orb_true_iff in Hs as [Hs%Z.eqb_eq|Hs%Z.eqb_eq]; [by left|].
  destruct (Z.eq_dec (exact p) any) as [?|Hne]; [by left|right]. split; [done|]. unfold in_detail in Hx.
  destruct (Z.eqb_spec (exact d) any); congruence.
Qed.
(** If they do not meet, no element is in both. *)
Lemma not_meets any d p x :
  detail_ok any d -> plain p -> supersedes any d p || supersedes any p d = false -> in_detail any d x -> ~ in_detail any p x.
Proof.
  intros Hd Hp Hm Hx Hpx. assert (Hme : meets any d p) by by apply (meets_common any d p x). apply meets_spec in Hme; [congruence|done|done].
Qed.

(** Ungrabbing is subtraction. *)
Lemma action_subtracts g p d m :
  grab_ok g -> plain_grab p ->
  left_after (action_of g p) g d m <-> hits g d m /\ ~ (takes_from p g /\ hits p d m).
Proof.
  intros [G1 G2] [P1 P2]. unfold action_of, takes_from.
  destruct (Z.eqb_spec (owner g) (owner p)) as [Eo|Eo]; cbn [negb orb]; [|cbn; tauto].
  destruct (concerns g p (bool_decide (grabtype g = CORE))) eqn:Ec; cbn [negb orb]; [|cbn; split; [intros ?; split; [done|intros [[_ ?] _]; done]|tauto]].
  destruct (concerns_level _ _ _ Ec) as [_ Em]. unfold hits. rewrite <- Em.
  destruct (supersedes AnyKey (detail g) (detail p) || supersedes AnyKey (detail p) (detail g)) eqn:Md; cbn [negb orb].
  2: { cbn. unfold hits. split; [|tauto]. intros [Hd Hm]. split; [done|]. intros (_ & Hp & _). by apply (not_meets _ _ _ _ G1 P1 Md Hd). }
  destruct (supersedes (any_modifier g) (modifiersDetail g) (modifiersDetail p) ||
    supersedes (any_modifier g) (modifiersDetail p) (modifiersDetail g)) eqn:Mm; cbn [negb orb].
  2: { cbn. unfold hits. split; [|tauto]. intros [Hd Hm]. split; [done|]. intros (_ & _ & Hp). by apply (not_meets _ _ _ _ G2 P2 Mm Hm). }
  destruct (supersedes (any_modifier g) (modifiersDetail p) (modifiersDetail g)) eqn:Sm;
    destruct (supersedes AnyKey (detail p) (detail g)) eqn:Sd; cbn [andb].
  - cbn. split; [done|]. intros [[Hd Hm] Hn]. apply Hn. split; [done|].
    split; [by apply (supersedes_all _ _ _ _ P1 Sd)|by apply (supersedes_all _ _ _ _ P2 Sm)].
  - (* the key is one of several *)
    destruct (meets_part _ _ _ P1 Md Sd) as (D1 & D2 & D3). rewrite D1, Z.eqb_refl. cbn [andb].
    assert (Hin : forall y, in_detail AnyKey (detail p) y <-> y = exact (detail p)) by (intros y; rewrite in_plain by done; split; [intros [?|[_ ?]]; congruence|intros ->; by right]).
    assert (Hres : hits g d m /\ d <> exact (detail p) <->
      hits g d m /\ ~ ((owner g = owner p /\ true = true) /\ in_detail AnyKey (detail p) d /\ in_detail (any_modifier g) (modifiersDetail p) m)).
    { rewrite Hin. split; [intros [? ?]; split; [done|]; intros (_ & ? & _); done|]. intros [[Hd Hm] Hn]. split; [done|]. intros ->. apply Hn.
      split; [done|]. split; [done|]. by apply (supersedes_all _ _ _ _ P2 Sm). }
    destruct (Z.eqb_spec (exact (modifiersDetail g)) (any_modifier g)) as [Eg|Eg]; cbn [negb andb]; [|exact Hres].
    destruct (Z.eqb_spec (exact (detail p)) AnyKey) as [|_]; [done|]. cbn [negb andb].
    destruct (Z.eqb_spec (exact (modifiersDetail p)) (any_modifier g)) as [Ep|Ep]; cbn [negb andb]; [exact Hres|].
    exfalso. rewrite supersedes_plain in Sm by done. apply orb_true_iff in Sm as [Sm%Z.eqb_eq|Sm%Z.eqb_eq]; congruence.
  - (* the modifiers are one set of several *)
    destruct (meets_part _ _ _ P2 Mm Sm) as (D1 & D2 & D3). rewrite D1, Z.eqb_refl. cbn [andb negb].
    assert (Hin : forall y, in_detail (any_modifier g) (modifiersDetail p) y <-> y = exact (modifiersDetail p))
      by (intros y; rewrite in_plain by done; split; [intros [?|[_ ?]]; congruence|intros ->; by right]).
    assert (Hres : hits g d m /\ m <> exact (modifiersDetail p) <->
      hits g d m /\ ~ ((owner g = owner p /\ true = true) /\ in_detail AnyKey (detail p) d /\ in_detail (any_modifier g) (modifiersDetail p) m)).
    { rewrite Hin. split; [intros [? ?]; split; [done|]; intros (_ & _ & ?); done|]. intros [[Hd Hm] Hn]. split; [done|]. intros ->. apply Hn.
      split; [done|]. split; [|done]. by apply (supersedes_all _ _ _ _ P1 Sd). }
    rewrite andb_false_r. destruct (Z.eqb_spec (exact (detail g)) AnyKey) as [Eg|Eg]; cbn [negb andb]; [|exact Hres].
    destruct (Z.eqb_spec (exact (detail p)) AnyKey) as [Ep|Ep]; cbn [negb andb]; [exact Hres|].
    exfalso. rewrite supersedes_plain in Sd by done. apply orb_true_iff in Sd as [Sd%Z.eqb_eq|Sd%Z.eqb_eq]; congruence.
  - (* one combination of many *)
    destruct (meets_part _ _ _ P1 Md Sd) as (D1 & D2 & D3). destruct (meets_part _ _ _ P2 Mm Sm) as (E1 & E2 & E3).
    rewrite D1, E1, !Z.eqb_refl. cbn [andb negb]. rewrite (proj2 (Z.eqb_neq _ _) D2), (proj2 (Z.eqb_neq _ _) E2). cbn [negb andb left_after].
    assert (Hin : forall y, in_detail AnyKey (detail p) y <-> y = exact (detail p)) by (intros y; rewrite in_plain by done; split; [intros [?|[_ ?]]; congruence|intros ->; by right]).
    assert (Hin2 : forall y, in_detail (any_modifier g) (modifiersDetail p) y <-> y = exact (modifiersDetail p))
      by (intros y; rewrite in_plain by done; split; [intros [?|[_ ?]]; congruence|intros ->; by right]).
    rewrite Hin, Hin2. unfold hits. tauto.
Qed.

(** The field that an action clears a bit in. *)
Definition clears (a : action) (f : mask_field) (x : Z) : Prop :=
  match a with
  | Clear f' x' => f = f' /\ x = x'
  | Split d _ => f = FieldDetail /\ x = d
  | _ => False
  end.
Definition field_detail (f : mask_field) (g : GrabRec) : DetailRec :=
  match f with FieldDetail => detail g | FieldModifiers => modifiersDetail g end.
Definition field_any (f : mask_field) (g : GrabRec) : Z :=
  match f with FieldDetail => AnyKey | FieldModifiers => any_modifier g end.

(** A bit is only cleared in a mask of exceptions, for a value in range. *)
Lemma action_clears g p f x :
  grab_ok p -> plain_grab p -> clears (action_of g p) f x ->
  exact (field_detail f g) = field_any f g /\ ranged x /\ x = exact (field_detail f p) /\ any_modifier g = any_modifier p.
Proof.
  intros [K1 K2] [P1 P2]. unfold action_of.
  destruct (Z.eqb_spec (owner g) (owner p)) as [Eo|Eo]; cbn [negb orb]; [|done].
  destruct (concerns g p (bool_decide (grabtype g = CORE))) eqn:Ec; cbn [negb orb]; [|done].
  destruct (concerns_level _ _ _ Ec) as [_ Em]. rewrite <- Em in K2.
  destruct (supersedes AnyKey (detail g) (detail p) || supersedes AnyKey (detail p) (detail g)) eqn:Md; cbn [negb orb]; [|done].
  destruct (supersedes (any_modifier g) (modifiersDetail g) (modifiersDetail p) ||
    supersedes (any_modifier g) (modifiersDetail p) (modifiersDetail g)) eqn:Mm; cbn [negb orb]; [|done].
  destruct (supersedes (any_modifier g) (modifiersDetail p) (modifiersDetail g)) eqn:Sm;
    destruct (supersedes AnyKey (detail p) (detail g)) eqn:Sd; cbn [andb]; [done| | |].
  - destruct (meets_part _ _ _ P1 Md Sd) as (D1 & D2 & D3). rewrite D1, Z.eqb_refl. cbn [andb negb].
    pose proof (dt_exact _ _ K1 D2) as Hr. rewrite (proj2 (Z.eqb_neq _ _) D2). cbn [negb andb].
    destruct (exact (modifiersDetail g) =? any_modifier g) eqn:Eg; cbn [negb andb]; [|by intros [-> ->]].
    destruct (Z.eqb_spec (exact (modifiersDetail p)) (any_modifier g)) as [Ep|Ep]; cbn [negb andb]; by intros [-> ->].
  - destruct (meets_part _ _ _ P2 Mm Sm) as (D1 & D2 & D3). rewrite D1, Z.eqb_refl. cbn [andb negb]. rewrite andb_false_r.
    pose proof (dt_exact _ _ K2 D2) as Hr. rewrite (proj2 (Z.eqb_neq _ _) D2). cbn [negb andb]. rewrite andb_true_r.
    rewrite supersedes_plain in Sd by done.
    destruct (Z.eqb_spec (exact (detail g)) AnyKey) as [Eg|Eg]; cbn [negb andb]; [|by intros [-> ->]].
    destruct (Z.eqb_spec (exact (detail p)) AnyKey) as [Ep|Ep]; cbn [negb andb orb] in *; [by intros [-> ->]|].
    apply Z.eqb_eq in Sd. congruence.
  - destruct (meets_part _ _ _ P1 Md Sd) as (D1 & D2 & D3). destruct (meets_part _ _ _ P2 Mm Sm) as (E1 & E2 & E3).
    rewrite D1, E1, !Z.eqb_refl. cbn [andb negb]. rewrite (proj2 (Z.eqb_neq _ _) D2), (proj2 (Z.eqb_neq _ _) E2). cbn [negb andb].
    intros [-> ->]. pose proof (dt_exact _ _ K1 D2). done.
Qed.
Lemma action_split g p d m :
  grab_ok p -> plain_grab p -> action_of g p = Split d m ->
  exact (detail g) = AnyKey /\ exact (modifiersDetail g) = any_modifier g /\ d = exact (detail p) /\ m = exact (modifiersDetail p) /\
  ranged d /\ ranged m /\ d <> AnyKey /\ m <> any_modifier g /\ any_modifier g = any_modifier p /\
  in_detail AnyKey (detail g) d /\ grabtype g = grabtype p.
Proof.
  intros [K1 K2] [P1 P2]. unfold action_of.
  destruct (Z.eqb_spec (owner g) (owner p)) as [Eo|Eo]; cbn [negb orb]; [|done].
  destruct (concerns g p (bool_decide (grabtype g = CORE))) eqn:Ec; cbn [negb orb]; [|done].
  destruct (concerns_level _ _ _ Ec) as [El Em]. rewrite <- Em in K2.
  destruct (supersedes AnyKey (detail g) (detail p) || supersedes AnyKey (detail p) (detail g)) eqn:Md; cbn [negb orb]; [|done].
  destruct (supersedes (any_modifier g) (modifiersDetail g) (modifiersDetail p) ||
    supersedes (any_modifier g) (modifiersDetail p) (modifiersDetail g)) eqn:Mm; cbn [negb orb]; [|done].
  destruct (_ && _) eqn:Es; [done|].
  destruct (Z.eqb_spec (exact (detail g)) AnyKey) as [Eg|Eg], (Z.eqb_spec (exact (modifiersDetail g)) (any_modifier g)) as [Eh|Eh];
    cbn [andb negb]; try done.
  - destruct (Z.eqb_spec (exact (detail p)) AnyKey) as [Ep|Ep], (Z.eqb_spec (exact (modifiersDetail p)) (any_modifier g)) as [Eq|Eq];
      cbn [andb negb]; try done.
    intros [= <- <-]. pose proof (dt_exact _ _ K1 Ep). pose proof (dt_exact _ _ K2 Eq). split_and!; try done.
    unfold in_detail. rewrite Eg, Z.eqb_refl. unfold supersedes in Md. rewrite P1, Eg, Z.eqb_refl in Md.
    rewrite (proj2 (Z.eqb_neq _ _) Ep) in Md. destruct (pMask (detail g)); [|done]. cbn in Md. by rewrite orb_false_r in Md.
  - destruct (Z.eqb_spec (exact (detail p)) AnyKey), (Z.eqb_spec (exact (modifiersDetail p)) (any_modifier g)); cbn [andb negb]; try done.
    exfalso. unfold supersedes in Md, Mm, Es.
    rewrite ?(proj2 (Z.eqb_neq _ _) Eg), ?(proj2 (Z.eqb_neq _ _) Eh), P1, P2 in *.
    rewrite ?(proj2 (Z.eqb_neq (exact (detail p)) AnyKey)), ?(proj2 (Z.eqb_neq (exact (modifiersDetail p)) (any_modifier g))) in * by done.
    rewrite (Z.eqb_sym (exact (detail p))), orb_diag in Md. rewrite (Z.eqb_sym (exact (modifiersDetail p))), orb_diag in Mm.
    rewrite (Z.eqb_sym (exact (detail p))), Md, (Z.eqb_sym (exact (modifiersDetail p))), Mm in Es. done.
Qed.
End Action.
