(* ===== verification/GrabDelete.v ===== *)
(** * GrabDelete: ungrabbing is subtraction, or nothing

    [DeletePassiveGrabFromList] goes over the grabs of a window with a plan of
    what to do; only when all memory is there is the plan carried out. *)

From S2P Require Import Prelude.
From S2P Require Import Resource.
From S2P Require Import Grabs.
From S2P Require Import GrabSets.
From S2P Require Import GrabHeap.
From S2P Require Import GrabAction.

(** A grab as [CreateGrab] makes it: flags of one bit, a type of a byte. *)
Record created (g : GrabRec) : Prop := {
  cr_owner : Z.land (ownerEvents g) 1 = ownerEvents g;
  cr_keyboard : Z.land (keyboardMode g) 1 = keyboardMode g;
  cr_pointer : Z.land (pointerMode g) 1 = pointerMode g;
  cr_type : u8 (type g) = type g;
  cr_device : deviceMask g = 0;
  cr_xi2 : grabtype g <> XI2 -> xi2mask g = zero_xi2
}.

Section Delete.
Context `{GrabEnv} (al : allocator).

(** What a grab does, aside from its combinations: the client, the devices, the
    modes, the event masks and the rest. *)
Definition effect (g : GrabRec) : GrabRec :=
  g <| resource := owner g |> <| modifiersDetail := null_detail |> <| detail := null_detail |>.

(** ** One grab *)

Lemma ungrab_one_action st p m x g :
  grabs st !! x = Some g -> grab_ok g -> grab_ok m -> plain_grab m ->
  ungrab_one al st p m x =
    match action_of g m with
    | Keep => Ret (true, st, p)
    | Delete => Ret (true, st, p <| deletes ::= fun l => l ++ [x] |>)
    | Clear f y => UPDATE al st p x g f y
    | Split _ _ => split_grab al st p x g m
    end.
Proof.
  intros Hx Hg Hm Hp. unfold ungrab_one, action_of. rewrite Hx. cbn [obind_opt].
  destruct (owner g =? owner m); cbn [negb orb obind]; [|done]. rewrite GrabMatchesSecond_spec by done. cbn [obind].
  destruct (concerns g m (bool_decide (grabtype g = CORE))) eqn:Ec; cbn [negb orb andb]; [|done].
  destruct (concerns_level _ _ _ Ec) as [El Em]. rewrite GrabSupersedesSecond_spec by done. rewrite any_key_any, <- Em. cbn [obind].
  destruct (supersedes AnyKey (detail g) (detail m) || supersedes AnyKey (detail m) (detail g)); cbn [negb orb andb]; [|done].
  destruct (supersedes (any_modifier g) (modifiersDetail g) (modifiersDetail m) ||
    supersedes (any_modifier g) (modifiersDetail m) (modifiersDetail g)); cbn [negb orb andb]; [|done].
  by repeat case_match.
Qed.

(** The value that a detail has without its mask. *)
Definition bit_of (f : mask_field) (g : GrabRec) (x : Z) : bool :=
  match pMask (field_detail f g) with None => true | Some m => has_bit m x end.
(** A new mask is the old one without [x]. *)
Definition cleared (f : mask_field) (g : GrabRec) (x : Z) (m : list Z) : Prop :=
  mask_ok m /\ forall y, ranged y -> has_bit m y = bit_of f g y && negb (y =? x).

Lemma field_mask_detail f g : field_mask f g = pMask (field_detail f g).
Proof. by destruct f. Qed.
Lemma field_ok f g : grab_ok g -> detail_ok (field_any f g) (field_detail f g).
Proof. intros [? ?]. by destruct f. Qed.

Lemma DeleteDetailFromMask_ok st f g x :
  grab_ok g -> ranged x ->
  exists k,
    (DeleteDetailFromMask al st (field_mask f g) x = Ret (None, st <| allocs := k |>) /\ exists k z, al k z = false) \/
    exists m, DeleteDetailFromMask al st (field_mask f g) x = Ret (Some m, st <| allocs := k |>) /\ cleared f g x m.
Proof.
  intros Hg Hx. unfold DeleteDetailFromMask, calloc. exists (S (allocs st)).
  destruct (al (allocs st) 64) eqn:E; cbn [negb]; [|left; split; [done|by eexists _, _]]. right. rewrite field_mask_detail.
  pose proof (field_ok f g Hg) as [Hmask _]. destruct (pMask (field_detail f g)) as [m|] eqn:Em.
  - destruct (Hmask m eq_refl) as [_ Hm]. destruct (BITCLEAR_spec m x Hm Hx) as (m' & -> & Hm' & Hb). exists m'.
    split; [done|]. split; [done|]. intros y Hy. unfold bit_of. by rewrite Em, Hb.
  - destruct full_mask_ok as [Hf Hfb]. destruct (BITCLEAR_spec _ x Hf Hx) as (m' & -> & Hm' & Hb). exists m'.
    split; [done|]. split; [done|]. intros y Hy. unfold bit_of. by rewrite Em, Hb, Hfb.
Qed.

(** A grab with a mask replaced has what the old one had without [x]. *)
Lemma cleared_hits f g x m d md :
  exact (field_detail f g) = field_any f g -> cleared f g x m -> ranged d -> ranged md ->
  hits (set_field_mask f m g) d md <-> hits g d md /\ (match f with FieldDetail => d | FieldModifiers => md end) <> x.
Proof.
  intros Hany [Hm Hb] Hd Hmd.
  assert (Hone : forall y, ranged y -> in_detail (field_any f g) (MkDetail (exact (field_detail f g)) (Some m)) y <->
    in_detail (field_any f g) (field_detail f g) y /\ y <> x).
  { intros y Hy. unfold in_detail. cbn. rewrite Hany, Z.eqb_refl, (Hb y Hy). unfold bit_of. rewrite andb_true_iff, negb_true_iff, Z.eqb_neq.
    destruct (pMask (field_detail f g)); tauto. }
  unfold hits. destruct f; cbn in *.
  - pose proof (Hone d Hd) as E. unfold any_modifier in *. cbn. tauto.
  - pose proof (Hone md Hmd) as E. unfold any_modifier in *. cbn. tauto.
Qed.
Lemma cleared_ok f g x m : grab_ok g -> exact (field_detail f g) = field_any f g -> cleared f g x m -> grab_ok (set_field_mask f m g).
Proof.
  intros [G1 G2] Hany [Hm _]. destruct f; cbn in *; split; cbn; try done.
  - split; cbn; [|done]. by intros m' [= <-].
  - split; cbn; [|apply G2]. by intros m' [= <-].
Qed.

(** The grab that a split makes: one key, and all modifiers of the old one but
    one set. *)
Record split_of (g m n : GrabRec) : Prop := {
  so_effect : effect n = effect g;
  so_window : window n = window g;
  so_ok : grab_ok n;
  so_created : created n;
  so_cursor : cursor n = cursor g;
  so_hits : forall d md, ranged d -> ranged md ->
    hits n d md <-> d = exact (detail m) /\ in_detail (any_modifier g) (modifiersDetail g) md /\ md <> exact (modifiersDetail m)
}.

Lemma split_hits g m n f d md x y :
  action_of g m = Split x y -> grab_ok g -> grab_ok m -> plain_grab m -> split_of g m n -> cleared FieldDetail g x f -> ranged d -> ranged md ->
  hits (set_field_mask FieldDetail f g) d md \/ hits n d md <-> left_after (Split x y) g d md.
Proof.
  intros Ha Hg Hm Hp Hn Hf Hd Hmd. destruct (action_split g m x y Hm Hp Ha) as (D1 & D2 & -> & -> & R1 & R2 & N1 & N2 & Em & Hin & _).
  rewrite (cleared_hits FieldDetail g _ f) by done. rewrite (so_hits _ _ _ Hn) by done. cbn [left_after]. unfold hits.
  split.
  - intros [[[? ?] ?]|(-> & ? & ?)]; [split; [done|tauto]|]. split; [done|tauto].
  - intros [[H1 H2] Hn2]. destruct (Z.eq_dec d (exact (detail m))) as [->|]; [right|by left]. tauto.
Qed.

(** The new grab with the new mask is one that a split makes. *)
Lemma split_of_made g m x y mm id :
  action_of g m = Split x y -> grab_ok g -> grab_ok m -> plain_grab m -> created g -> grabtype g <> XI2 ->
  cleared FieldModifiers g y mm -> dixClientIdForXID LimitClients id = owner g ->
  split_of g m (grab_of id (device g) (modifierDevice g) (window g) (grabtype g)
    (MkParams (ownerEvents g) (keyboardMode g) (pointerMode g) (any_modifier m)) (type g) (exact (detail m)) (confineTo g) (cursor g)
    (eventMask g) zero_xi2 <| modifiersDetail ::= fun d => d <| pMask := Some mm |> |>).
Proof.
  intros Ha Hg Hm Hp [C1 C2 C3 C4 C5 C6] Hl Hmm Hid. destruct (action_split g m x y Hm Hp Ha) as (D1 & D2 & -> & -> & R1 & R2 & N1 & N2 & Em & _).
  set (n := grab_of _ _ _ _ _ _ _ _ _ _ _ _ <| modifiersDetail ::= _ |>).
  assert (Hany : any_modifier n = any_modifier g) by done.
  assert (Hmd : modifiersDetail n = modifiersDetail (set_field_mask FieldModifiers mm g)).
  { subst n. cbn. rewrite <- Em, <- D2. done. }
  split; try done.
  - unfold effect. subst n. cbn. unfold owner at 1. cbn. rewrite C1, C2, C3, C4, Hid. destruct g; cbn in *. rewrite C5, C6; done.
  - split; [by split; cbn|]. rewrite Hmd, Hany. by apply (cleared_ok FieldModifiers g (exact (modifiersDetail m)) mm).
  - subst n. split; cbn; rewrite ?C1, ?C2, ?C3, ?C4; done.
  - intros d md Hd Hmdr. unfold hits. rewrite Hany, Hmd.
    pose proof (cleared_hits FieldModifiers g _ mm 0 md D2 Hmm ltac:(done) Hmdr) as Hc. unfold hits in Hc.
    assert (Hdet : in_detail AnyKey (detail n) d <-> d = exact (detail m)).
    { unfold in_detail. subst n. cbn. rewrite (proj2 (Z.eqb_neq _ _) N1). split; congruence. }
    rewrite Hdet. clear Hc. unfold in_detail at 1. cbn. rewrite D2, Z.eqb_refl. destruct Hmm as [_ Hb]. rewrite (Hb md Hmdr).
    unfold bit_of, in_detail. cbn. rewrite D2, Z.eqb_refl, andb_true_iff, negb_true_iff, Z.eqb_neq.
    destruct (pMask (modifiersDetail g)); tauto.
Qed.
End Delete.
