(* ===== verification/GrabPlan.v ===== *)
(** * GrabPlan: grabs that are made ahead

    While [DeletePassiveGrabFromList] goes over a list, the grabs that splits
    make are resources already but in no list.  When memory fails they are freed,
    and nothing is left of them. *)

From S2P Require Import Prelude.
From S2P Require Import Resource.
From S2P Require Import Grabs.
From S2P Require Import GrabSets.
From S2P Require Import GrabHeap.
From S2P Require Import GrabAction.
From S2P Require Import GrabDelete.

Section Plan.
Context `{GrabEnv} (al : allocator).

(** ** Steps *)

Lemma cursors_equal st st' :
  cursors_ok st -> cursors_ok st' -> grabs st' = grabs st -> (forall c, spare st' c = spare st c) -> cursors st' = cursors st.
Proof.
  intros [P1 _] [P2 _] Eg Es. apply map_eq. intros c. specialize (Es c). unfold spare in Es. rewrite Eg in Es.
  assert (E : count st' c = count st c) by lia. unfold count in E.
  destruct (cursors st' !! c) as [n'|] eqn:E2, (cursors st !! c) as [n|] eqn:E1; cbn in E; try apply P1 in E1; try apply P2 in E2; try done.
  - by subst.
  - lia.
  - lia.
Qed.
(** What is made and freed again leaves nothing. *)
Lemma same_state st st' :
  cursors_ok st -> cursors_ok st' -> grabs st' = grabs st -> windows st' = windows st -> resources st' = resources st ->
  issued st ⊆ issued st' -> (forall c, spare st' c = spare st c) -> same st st'.
Proof.
  intros H1 H2 Eg Ew Er Ei Es. pose proof (cursors_equal st st' H1 H2 Eg Es) as Ec. exists (allocs st'), (issued st'). split; [done|].
  destruct st, st'; cbn in *. by subst.
Qed.
Lemma same_ok st st' : same st st' -> cursors_ok st -> cursors_ok st'.
Proof. by intros (k & i & _ & ->) [? ?]. Qed.
Lemma same_spare st st' c : same st st' -> spare st' c = spare st c.
Proof. by intros (k & i & _ & ->). Qed.

(** A grab with its resource, in the list of its window or in none, is freed. *)
Lemma FreeResource_step st x g W :
  cursors_ok st -> resources st !! resource g = Some x -> grabs st !! x = Some g -> windows st !! window g = Some W ->
  (passiveGrabs W <> [] -> optional W = true) ->
  exists st' W', FreeResource st (resource g) = Ret st' /\
    grabs st' = delete x (grabs st) /\ resources st' = delete (resource g) (resources st) /\
    windows st' = <[window g := W']> (windows st) /\
    passiveGrabs W' = filter (fun y => y <> x) (passiveGrabs W) /\ other_need W' = other_need W /\
    (passiveGrabs W' <> [] -> optional W' = true) /\ (x ∉ passiveGrabs W -> W' = W) /\
    cursors_ok st' /\ (forall c, spare st' c = spare st c) /\ issued st' = issued st.
Proof.
  intros Hok Hr Hg Hw Hopt. unfold FreeResource. rewrite Hr. set (st0 := st <| resources ::= _ |>). unfold DeletePassiveGrab.
  change (grabs st0) with (grabs st). rewrite Hg. cbn [obind_opt]. unfold wPassiveGrabs. change (windows st0) with (windows st).
  rewrite Hw. cbn [obind_opt obind].
  assert (Hl : (if optional W then passiveGrabs W else []) = passiveGrabs W).
  { destruct (optional W) eqn:Eo; [done|]. destruct (passiveGrabs W); [done|]. by discriminate Hopt. }
  rewrite Hl. clear Hl. case_bool_decide as Hin.
  - set (W1 := W <| passiveGrabs := _ |>). set (W' := if bool_decide _ then _ else W1).
    set (st1 := st0 <| windows ::= _ |>). destruct (FreeGrab_ok st1 x g) as (st' & -> & [F1 F2 F3 F4 F5 F6]); [by destruct Hok|done|].
    exists st', W'. split_and!; try done.
    + subst W'. unfold CheckWindowOptionalNeed. by repeat case_match.
    + subst W'. unfold CheckWindowOptionalNeed. by repeat case_match.
    + assert (optional W = true) as Ho by (apply Hopt; by intros E; rewrite E in Hin; apply not_elem_of_nil in Hin).
      subst W'. case_bool_decide as El; [|done]. intros Hne. exfalso. apply Hne. unfold CheckWindowOptionalNeed. by case_match.
  - destruct (FreeGrab_ok st0 x g) as (st' & -> & [F1 F2 F3 F4 F5 F6]); [by destruct Hok|done|]. exists st', W. split_and!; try done.
    + rewrite F2. by rewrite insert_id.
    + symmetry. apply filter_keep. by intros y Hy ->.
Qed.

(** ** Grabs in no list *)

(** [st'] is [st] with the new grab [y], which is a resource. *)
Record drafted (st st' : GrabState) (y : Z) (n : GrabRec) : Prop := {
  dr_cell : grabs st !! y = None;
  dr_id : resources st !! resource n = None;
  dr_new : resource n ∉ issued st;
  dr_issued : issued st ⊆ issued st';
  dr_grabs : grabs st' = <[y := n]> (grabs st);
  dr_resources : resources st' = <[resource n := y]> (resources st);
  dr_windows : windows st' = windows st;
  dr_cursors : cursors_ok st';
  dr_spare : forall c, spare st' c = spare st c
}.

(** [st] is [st0] with the new grabs [A]. *)
Record grown (st0 : GrabState) (A : list Z) (st : GrabState) : Prop := {
  gr_nodup : NoDup A;
  gr_new : forall x, x ∈ A -> grabs st0 !! x = None /\
    exists n, grabs st !! x = Some n /\ resources st0 !! resource n = None /\ resources st !! resource n = Some x /\ is_Some (windows st0 !! window n);
  gr_old : forall x, x ∉ A -> grabs st !! x = grabs st0 !! x;
  gr_res : forall r, resources st !! r = resources st0 !! r \/ exists x n, x ∈ A /\ grabs st !! x = Some n /\ resource n = r;
  gr_ids : forall x n, x ∈ A -> grabs st !! x = Some n -> resource n ∉ issued st0;
  gr_issued : issued st0 ⊆ issued st;
  gr_windows : windows st = windows st0;
  gr_cursors : cursors_ok st;
  gr_spare : forall c, spare st c = spare st0 c
}.

(** The windows' lists have grabs. *)
Definition lists_live (st : GrabState) : Prop :=
  forall w W, windows st !! w = Some W ->
    (passiveGrabs W <> [] -> optional W = true) /\ forall x, x ∈ passiveGrabs W -> is_Some (grabs st !! x).

Lemma grown_nil st0 st : cursors_ok st0 -> grown st0 [] st <-> same st0 st.
Proof.
  intros Hok. split.
  - intros [_ _ Ho Hr _ Hi Hw Hc Hs]. apply same_state; try done.
    + apply map_eq. intros x. apply Ho. by intros ?%not_elem_of_nil.
    + apply map_eq. intros r. destruct (Hr r) as [?|(x & n & Hx & _)]; [done|]. by apply not_elem_of_nil in Hx.
  - intros (k & i & Hi & ->). split; cbn; try done.
    + constructor.
    + by intros x ?%not_elem_of_nil.
    + intros r. by left.
    + by intros x n ?%not_elem_of_nil.
    + by destruct Hok.
Qed.
Lemma grown_same st0 A st st' : grown st0 A st -> same st st' -> grown st0 A st'.
Proof. intros [G1 G2 G3 G4 G8 G9 G5 [? ?] G7] (k & i & ? & ->). split; try done. by transitivity (issued st). Qed.
Lemma grown_more st0 A st st' y n :
  grown st0 A st -> drafted st st' y n -> is_Some (windows st0 !! window n) -> grown st0 (A ++ [y]) st'.
Proof.
  intros [G1 G2 G3 G4 G8 G9 G5 G6 G7] [D1 D2 D8 D9 D3 D4 D5 D6 D7] Hw.
  assert (HyA : y ∉ A).
  { intros Hy. destruct (G2 y Hy) as (_ & n' & Hn' & _). congruence. }
  assert (Hr0 : resources st0 !! resource n = None).
  { destruct (G4 (resource n)) as [E|(x & n' & Hx & Hn' & Er)]; [congruence|]. destruct (G2 x Hx) as (_ & n2 & Hn2 & _ & Hr & _).
    rewrite Hn' in Hn2. injection Hn2 as <-. rewrite Er, D2 in Hr. done. }
  assert (Hkeep : forall x n', x ∈ A -> grabs st !! x = Some n' -> grabs st' !! x = Some n').
  { intros x n' Hx Hn'. rewrite D3, lookup_insert_ne; [done|]. by intros ->. }
  split.
  - apply NoDup_app. split; [done|]. split; [|apply NoDup_singleton]. by intros x Hx ->%list_elem_of_singleton.
  - intros x [Hx| ->%list_elem_of_singleton]%elem_of_app.
    + destruct (G2 x Hx) as (H1 & n' & Hn' & H2 & H3 & H4). split; [done|]. exists n'. split_and!; try done; [by apply Hkeep|].
      rewrite D4, lookup_insert_ne; [done|]. intros E. rewrite <- E, D2 in H3. done.
    + split; [by rewrite <- (G3 y HyA)|]. exists n. rewrite D3, D4, !lookup_insert_eq. done.
  - intros x Hx. rewrite not_elem_of_app, list_elem_of_singleton in Hx. destruct Hx as [Hx1 Hx2]. rewrite D3, lookup_insert_ne by done. by apply G3.
  - intros r. rewrite D4. destruct (Z.eq_dec (resource n) r) as [<-|Hne].
    + right. exists y, n. rewrite D3, lookup_insert_eq, elem_of_app, list_elem_of_singleton. tauto.
    + rewrite lookup_insert_ne by done. destruct (G4 r) as [E|(x & n' & Hx & Hn' & Er)]; [by left|]. right. exists x, n'.
      rewrite elem_of_app. split; [by left|]. split; [by apply Hkeep|done].
  - intros x n' [Hx| ->%list_elem_of_singleton]%elem_of_app.
    + destruct (G2 x Hx) as (_ & n2 & Hn2 & _). rewrite (Hkeep x n2 Hx Hn2). intros [= <-]. by apply (G8 x).
    + rewrite D3, lookup_insert_eq. intros [= <-] Hi. by apply D8, G9.
  - by transitivity (issued st).
  - congruence.
  - done.
  - intros c. by rewrite D7, G7.
Qed.

(** The first of the new grabs is freed. *)
Lemma grown_less st0 y A st :
  lists_live st0 -> grown st0 (y :: A) st ->
  exists n st', grabs st !! y = Some n /\ FreeResource st (resource n) = Ret st' /\ grown st0 A st'.
Proof.
  intros Hlive [G1 G2 G3 G4 G8 G9 G5 G6 G7]. apply NoDup_cons in G1 as [Hy G1].
  destruct (G2 y) as (H1 & n & Hn & H2 & H3 & [W HW]); [by left|].
  destruct (Hlive _ _ HW) as [Hopt Hin].
  assert (Hnot : y ∉ passiveGrabs W). { intros [? E]%Hin. congruence. }
  destruct (FreeResource_step st y n W G6 H3 Hn) as (st' & W' & E & E1 & E2 & E3 & _ & _ & _ & E4 & E5 & E6 & E7); [by rewrite G5|done|].
  exists n, st'. split_and!; try done. rewrite (E4 Hnot), insert_id in E3 by (by rewrite G5).
  assert (Hres : forall x n', x ∈ A -> grabs st !! x = Some n' -> resource n' <> resource n).
  { intros x n' Hx Hn' Er. destruct (G2 x) as (_ & n2 & Hn2 & _ & Hr & _); [by right|]. rewrite Hn' in Hn2. injection Hn2 as <-.
    rewrite Er, H3 in Hr. by injection Hr as ->. }
  split.
  - done.
  - intros x Hx. destruct (G2 x) as (? & n' & Hn' & ? & Hr & ?); [by right|]. split; [done|]. exists n'.
    rewrite E1, E2, !lookup_delete_ne; [done|by intros Er; apply (Hres x n')|by intros ->].
  - intros x Hx. rewrite E1. destruct (Z.eq_dec x y) as [->|Hne]; [by rewrite lookup_delete_eq|].
    rewrite lookup_delete_ne by done. apply G3. by rewrite not_elem_of_cons.
  - intros r. rewrite E2. destruct (Z.eq_dec (resource n) r) as [<-|Hne]; [left; by rewrite lookup_delete_eq|].
    rewrite lookup_delete_ne by done. destruct (G4 r) as [?|(x & n' & [->|Hx]%elem_of_cons & Hn' & Er)]; [by left| |].
    + rewrite Hn in Hn'. by injection Hn' as ->.
    + right. exists x, n'. split; [done|]. split; [|done]. rewrite E1, lookup_delete_ne; [done|by intros ->].
  - intros x n' Hx. rewrite E1. intros [_ Hn']%lookup_delete_Some. apply (G8 x); [by right|done].
  - by rewrite E7.
  - congruence.
  - done.
  - intros c. by rewrite E6.
Qed.
(** Rolling back leaves nothing. *)
Lemma rollback st0 A : forall st, lists_live st0 -> cursors_ok st0 -> grown st0 A st -> exists st', free_grabs st A = Ret st' /\ same st0 st'.
Proof.
  induction A as [|y A IH]; intros st Hl Hok Hg.
  - exists st. split; [done|]. by apply grown_nil.
  - destruct (grown_less st0 y A st Hl Hg) as (n & st' & Hn & E & Hg'). cbn [free_grabs]. rewrite Hn. cbn [obind_opt]. rewrite E.
    by apply IH.
Qed.
End Plan.
