(* ===== verification/GrabScan.v ===== *)
(** * GrabScan: the plan of ungrabbing

    Going over the list of a window, every grab gets a verdict, the one of its
    action; the plan is the collection of the verdicts. *)

From S2P Require Import Prelude.
From S2P Require Import Resource.
From S2P Require Import Grabs.
From S2P Require Import GrabSets.
From S2P Require Import GrabHeap.
From S2P Require Import GrabAction.
From S2P Require Import GrabDelete.
From S2P Require Import GrabPlan.

(** What is to be done with a grab: a new mask, or a new mask and a new grab. *)
Inductive verdict := Kept | Deleted | Cleared (f : mask_field) (m : list Z) | Added (m : list Z) (n : Z).
Definition deleted (xv : Z * verdict) : option Z := match xv.2 with Deleted => Some xv.1 | _ => None end.
Definition added (xv : Z * verdict) : option Z := match xv.2 with Added _ n => Some n | _ => None end.
Definition updated (xv : Z * verdict) : option (Z * mask_field * list Z) :=
  match xv.2 with
  | Cleared f m => Some (xv.1, f, m)
  | Added m _ => Some (xv.1, FieldDetail, m)
  | _ => None
  end.
Definition plan_of (rs : list (Z * verdict)) : plan := MkPlan (omap deleted rs) (omap added rs) (omap updated rs).

Section Scan.
Context `{GrabEnv} (al : allocator).

(** An allocation failed. *)
Definition failure : Prop := exists k z, al k z = false.

(** The verdict is the one that ungrabbing [m] gives [g]. *)
Definition fits (st : GrabState) (m g : GrabRec) (v : verdict) : Prop :=
  match action_of g m, v with
  | Keep, Kept | Delete, Deleted => True
  | Clear f y, Cleared f' mk => f' = f /\ cleared f g y mk
  | Split y _, Added mk n => cleared FieldDetail g y mk /\ exists r, grabs st !! n = Some r /\ split_of g m r
  | _, _ => False
  end.

Lemma UPDATE_ok st p x g f y :
  grab_ok g -> ranged y ->
  exists st', same st st' /\
    ((UPDATE al st p x g f y = Ret (false, st', p) /\ failure) \/
     exists mk, UPDATE al st p x g f y = Ret (true, st', p <| updates ::= fun l => l ++ [(x, f, mk)] |>) /\ cleared f g y mk).
Proof.
  intros Hg Hy. destruct (DeleteDetailFromMask_ok al st f g y Hg Hy) as (k & [[E Hf]|(mk & E & Hc)]);
    exists (st <| allocs := k |>); (split; [exact (same_alloc st k)|]);
    unfold UPDATE; rewrite E; cbn [obind]; [by left|right]. by exists mk.
Qed.

(** A draft that gets no resource is freed. *)
Lemma undone st st1 st2 y n : cursors_ok st -> made st st1 y n -> grabs st2 = delete y (grabs st1) -> windows st2 = windows st1 ->
  resources st2 = resources st1 -> issued st2 = issued st1 -> cursors_ok st2 -> (forall c, spare st2 c = spare st1 c) -> same st st2.
Proof.
  intros Hok [M1 M2 M3 M7 M4 M5 M6] Eg Ew Er Ei Hc Hs. apply same_state; try done; try congruence.
  - rewrite Eg, M2. by apply delete_insert_id.
  - by rewrite Ei.
Qed.

(** The four things that a split needs, after the mask. *)
Definition split_rest (st : GrabState) (p : plan) (ok : bool) (g minuend : GrabRec) : outcome (bool * GrabState * plan) :=
  let param := MkParams (ownerEvents g) (keyboardMode g) (pointerMode g) (any_modifier minuend) in
  '(new, st) <-- CreateGrab al st (owner g) (device g) (modifierDevice g) (window g) (grabtype g)
                   (MaskCore (eventMask g)) param (type g) (exact (detail minuend)) (confineTo g) (cursor g);
  match new with
  | None => Ret (false, st, p)
  | Some new =>
      n <-? grabs st !! new;
      '(m, st) <-- DeleteDetailFromMask al st (pMask (modifiersDetail g)) (exact (modifiersDetail minuend));
      let n := n <| modifiersDetail ::= fun d => d <| pMask := m |> |> in
      let st := st <| grabs ::= <[new := n]> |> in
      '(made, st) <-- (if bool_decide (m = None) then Ret (false, st) else MakeWindowOptional al st (window n));
      if negb made then st <-- FreeGrab st new; Ret (false, st, p)
      else
        '(added, st) <-- AddResource al st (resource n) new;
        if negb added then Ret (false, st, p) else Ret (ok, st, p <| adds ::= fun l => l ++ [new] |>)
  end.

Lemma made_cell st st1 y n n' k :
  made st st1 y n -> cursor n' = cursor n ->
  made st (st1 <| allocs := k |> <| grabs ::= <[y := n']> |>) y n'.
Proof.
  intros [M1 M2 M3 M7 M4 M5 M6] Hc.
  assert (Hsp : forall c, spare (st1 <| allocs := k |> <| grabs ::= <[y := n']> |>) c = spare st1 c).
  { intros c. unfold spare. cbn. rewrite (live_replace _ y n n') by (rewrite ?M2, ?lookup_insert_eq; done). done. }
  split; try done.
  - cbn. by rewrite M2, insert_insert_eq.
  - split; [apply M5|]. intros c. rewrite Hsp. apply M5.
  - intros c. by rewrite Hsp.
Qed.

Lemma DeletePassiveGrab_draft st st1 y n W :
  cursors_ok st -> made st st1 y n -> windows st !! window n = Some W -> optional W = true -> y ∉ passiveGrabs W ->
  exists st', DeletePassiveGrab st1 y = Ret st' /\ same st st'.
Proof.
  intros Hok Hm Hw Ho Hy. unfold DeletePassiveGrab. assert (Hn : grabs st1 !! y = Some n) by (rewrite (ma_grabs _ _ _ _ Hm); apply lookup_insert_eq).
  rewrite Hn. cbn [obind_opt]. unfold wPassiveGrabs. rewrite (ma_windows _ _ _ _ Hm), Hw. cbn [obind_opt obind]. rewrite Ho, bool_decide_false by done.
  destruct (FreeGrab_ok st1 y n) as (st' & E & [F1 F2 F3 F4 F5 F6]); [apply Hm|done|]. exists st'. split; [done|].
  by apply (undone st st1 st' y n).
Qed.

Lemma split_rest_ok st p ok g m x y W :
  action_of g m = Split x y -> grab_ok g -> grab_ok m -> plain_grab m -> created g -> grabtype g <> XI2 ->
  cursors_ok st -> (forall c, cursor g = Some c -> exists n, cursors st !! c = Some n) ->
  windows st !! window g = Some W -> optional W = true -> (forall z, z ∈ passiveGrabs W -> is_Some (grabs st !! z)) ->
  exists b st' p', split_rest st p ok g m = Ret (b, st', p') /\
    ((b = false /\ failure /\ same st st' /\ p' = p) \/
     (b = ok /\ exists z n, drafted st st' z n /\ split_of g m n /\ p' = p <| adds ::= fun l => l ++ [z] |>)).
Proof.
  intros Ha Hg Hm Hp Hc Ht Hok Hcur Hw Ho Hlive. unfold split_rest.
  destruct (CreateGrab_ok al st (owner g) (device g) (modifierDevice g) (window g) (grabtype g) (MaskCore (eventMask g))
    (MkParams (ownerEvents g) (keyboardMode g) (pointerMode g) (any_modifier m)) (type g) (exact (detail m)) (confineTo g) (cursor g) Hok Hcur)
    as [(st' & -> & Hs & Hf)|(st1 & z & core & xi2 & -> & Hmade & _ & Hmask)].
  { by destruct (grabtype g). }
  { cbn [obind]. exists false, st', p. split; [done|]. by left. }
  cbn [obind]. assert (core = eventMask g /\ xi2 = zero_xi2) as [-> ->] by (by destruct (grabtype g)). clear Hmask.
  rewrite (ma_grabs _ _ _ _ Hmade), lookup_insert_eq. cbn [obind_opt]. set (n0 := grab_of _ _ _ _ _ _ _ _ _ _ _ _) in *.
  destruct (action_split g m x y Hm Hp Ha) as (D1 & D2 & -> & -> & R1 & R2 & _).
  destruct (DeleteDetailFromMask_ok al st1 FieldModifiers g (exact (modifiersDetail m)) Hg R2) as (k & [[E Hf]|(mk & E & Hmk)]);
    cbn [field_mask] in E; rewrite E; cbn [obind].
  - rewrite bool_decide_true by done. cbn [obind negb].
    pose proof (made_cell st st1 z n0 (n0 <| modifiersDetail ::= fun d => d <| pMask := None |> |>) k Hmade ltac:(by subst n0)) as Hmade2.
    set (n := n0 <| modifiersDetail ::= _ |>) in *. set (st3 := st1 <| allocs := k |> <| grabs ::= _ |>) in *.
    assert (Hz : grabs st3 !! z = Some n) by (rewrite (ma_grabs _ _ _ _ Hmade2); apply lookup_insert_eq).
    destruct (FreeGrab_ok st3 z n (ma_cursors _ _ _ _ Hmade2) Hz) as (st' & -> & [F1 F2 F3 F4 F5 F6]). cbn [obind].
    exists false, st', p. split; [done|]. left. split_and!; try done. by apply (undone st st3 st' z n).
  - rewrite bool_decide_false by done.
    pose proof (made_cell st st1 z n0 (n0 <| modifiersDetail ::= fun d => d <| pMask := Some mk |> |>) k Hmade ltac:(by subst n0)) as Hmade2.
    assert (Hsplit : split_of g m (n0 <| modifiersDetail ::= fun d => d <| pMask := Some mk |> |>)).
    { subst n0. exact (split_of_made g m _ _ mk _ Ha Hg Hm Hp Hc Ht Hmk (fake_owner _ (resource g))). }
    assert (Hid : resource (n0 <| modifiersDetail ::= fun d => d <| pMask := Some mk |> |>) ∉ dom (resources st) ∪ issued st).
    { apply fake_fresh. }
    apply not_elem_of_union in Hid as [Hid%not_elem_of_dom Hnew].
    assert (Hwin : windows st !! window (n0 <| modifiersDetail ::= fun d => d <| pMask := Some mk |> |>) = Some W) by done.
    set (n := n0 <| modifiersDetail ::= _ |>) in *. set (st3 := st1 <| allocs := k |> <| grabs ::= _ |>) in *.
    assert (Hw3 : windows st3 !! window n = Some W) by (by rewrite (ma_windows _ _ _ _ Hmade2)).
    assert (Hz : z ∉ passiveGrabs W). { intros [? Hz]%Hlive. rewrite (ma_fresh _ _ _ _ Hmade) in Hz. done. }
    unfold MakeWindowOptional. rewrite Hw3. cbn [obind_opt]. rewrite Ho. cbn [obind negb]. unfold AddResource, calloc.
    destruct (al (allocs st3) 32) eqn:Eal.
    + cbn [obind negb]. eexists ok, _, _. split; [reflexivity|]. right. split; [done|]. exists z, n. split; [|done].
      destruct Hmade2 as [M1 M2 M3 M7 M4 [M5 M5'] M6]. split; try done. by rewrite <- M4.
    + set (st4 := st3 <| allocs ::= S |>).
      assert (Hmade4 : made st st4 z n) by (destruct Hmade2 as [M1 M2 M3 M7 M4 [M5 M5'] M6]; by split).
      destruct (DeletePassiveGrab_draft st st4 z n W Hok Hmade4 Hwin Ho Hz) as (st' & -> & Hs). cbn [obind negb].
      exists false, st', p. split; [done|]. left. split_and!; try done. by eexists _, _.
Qed.

Lemma split_grab_rest st p x g m :
  split_grab al st p x g m = ('(ok, st, p) <-- UPDATE al st p x g FieldDetail (exact (detail m)); split_rest st p ok g m).
Proof. reflexivity. Qed.

(** ** The whole list *)

(** A grab that can be in the list of the window [w], from which [m] can be
    taken: not by a split when it is of XI2. *)
Record listed (m : GrabRec) (w : Z) (g : GrabRec) : Prop := {
  li_window : window g = w;
  li_ok : grab_ok g;
  li_created : created g;
  li_split : forall d md, action_of g m = Split d md -> grabtype g <> XI2
}.
(** The verdicts of the grabs that were looked at. *)
Definition fitted (st0 st : GrabState) (m : GrabRec) (rs : list (Z * verdict)) : Prop :=
  forall x v, (x, v) ∈ rs -> exists g, grabs st0 !! x = Some g /\ fits st m g v.

Lemma fits_more st st' m g v : (forall y n, grabs st !! y = Some n -> grabs st' !! y = Some n) -> fits st m g v -> fits st' m g v.
Proof.
  intros Hm. unfold fits. destruct (action_of g m), v; try done. intros (? & r & Hr & ?). split; [done|]. exists r. split; [by apply Hm|done].
Qed.
Lemma plan_of_app rs x v :
  plan_of (rs ++ [(x, v)]) =
    match v with
    | Kept => plan_of rs
    | Deleted => plan_of rs <| deletes ::= fun l => l ++ [x] |>
    | Cleared f m => plan_of rs <| updates ::= fun l => l ++ [(x, f, m)] |>
    | Added m n => plan_of rs <| updates ::= fun l => l ++ [(x, FieldDetail, m)] |> <| adds ::= fun l => l ++ [n] |>
    end.
Proof. unfold plan_of. rewrite !omap_app. destruct v; cbn; by rewrite ?app_nil_r. Qed.
Lemma grown_keeps st0 A st x g : grown st0 A st -> grabs st0 !! x = Some g -> grabs st !! x = Some g.
Proof. intros [_ G2 G3 _ _ _ _ _ _] Hx. rewrite G3; [done|]. intros Hin. destruct (G2 x Hin) as [? _]. congruence. Qed.
Lemma same_grabs st st' y n : same st st' -> grabs st !! y = Some n -> grabs st' !! y = Some n.
Proof. by intros (k & i & _ & ->). Qed.

Section List.
Context (st0 : GrabState) (m : GrabRec) (W : WinRec).
Context (Hm : grab_ok m) (Hp : plain_grab m) (Hok : cursors_ok st0) (Hlive : lists_live st0).
Context (HW : windows st0 !! window m = Some W) (Hopt : optional W = true).

Lemma ungrab_one_ok st rs x g :
  grown st0 (adds (plan_of rs)) st -> grabs st0 !! x = Some g -> listed m (window m) g ->
  exists ok st' p', ungrab_one al st (plan_of rs) m x = Ret (ok, st', p') /\ grown st0 (adds p') st' /\
    (forall y n, grabs st !! y = Some n -> grabs st' !! y = Some n) /\
    (ok = false -> failure) /\ (ok = true -> exists v, p' = plan_of (rs ++ [(x, v)]) /\ fits st' m g v).
Proof.
  intros Hgr Hx [L1 L2 L3 L4]. pose proof (grown_keeps _ _ _ _ _ Hgr Hx) as Hx'.
  rewrite (ungrab_one_action al st _ m x g Hx' L2 Hm Hp). unfold fits. destruct (action_of g m) as [| |f y|y z] eqn:Ea.
  - eexists _, _, _. split; [reflexivity|]. split_and!; try done. exists Kept. by rewrite plan_of_app.
  - eexists _, _, _. split; [reflexivity|]. split_and!; try done. exists Deleted. by rewrite plan_of_app.
  - destruct (action_clears g m f y Hm Hp) as (_ & Hy & _); [by rewrite Ea|].
    destruct (UPDATE_ok st (plan_of rs) x g f y L2 Hy) as (st' & Hs & [[E Hf]|(mk & E & Hc)]); rewrite E; eexists _, _, _; (split; [reflexivity|]).
    + split_and!; try done; [by apply (grown_same _ _ st)|intros ? ?; by apply same_grabs].
    + split_and!; try done; [by apply (grown_same _ _ st)|intros ? ?; by apply same_grabs|]. exists (Cleared f mk). by rewrite plan_of_app.
  - destruct (action_split g m y z Hm Hp Ea) as (_ & _ & Ey & Ez & Hy & _). rewrite split_grab_rest, <- Ey.
    destruct (UPDATE_ok st (plan_of rs) x g FieldDetail y L2 Hy) as (st1 & Hs & HU).
    assert (Hok1 : cursors_ok st1) by (apply (same_ok st); [done|apply Hgr]).
    assert (Hcur : forall c, cursor g = Some c -> exists n, cursors st1 !! c = Some n).
    { intros c. apply (cursor_lives st1 x); [done|]. by apply (same_grabs st). }
    assert (HW1 : windows st1 !! window g = Some W) by (destruct Hs as (k & i & _ & ->); cbn; by rewrite (gr_windows _ _ _ Hgr), L1).
    assert (Hlive1 : forall u, u ∈ passiveGrabs W -> is_Some (grabs st1 !! u)).
    { intros u Hu. destruct (Hlive _ _ HW) as [_ Hl]. destruct (Hl u Hu) as [n Hn]. exists n. apply (same_grabs st); [done|].
      by apply (grown_keeps st0 (adds (plan_of rs))). }
    assert (Hgr1 : grown st0 (adds (plan_of rs)) st1) by by apply (grown_same _ _ st).
    assert (Hmono : forall st' u r, drafted st1 st' u r -> forall v n, grabs st !! v = Some n -> grabs st' !! v = Some n).
    { intros st' u r Hd v n Hv. apply (same_grabs _ st1) in Hv; [|done]. rewrite (dr_grabs _ _ _ _ Hd), lookup_insert_ne; [done|].
      intros ->. rewrite (dr_cell _ _ _ _ Hd) in Hv. done. }
    assert (Hwin : forall r, split_of g m r -> is_Some (windows st0 !! window r)).
    { intros r Hr. rewrite (so_window _ _ _ Hr), L1, HW. done. }
    destruct HU as [[E Hf]|(mk & E & Hc)]; rewrite E; cbn [obind].
    + destruct (split_rest_ok st1 (plan_of rs) false g m y z W Ea L2 Hm Hp L3 (L4 _ _ eq_refl) Hok1 Hcur HW1 Hopt Hlive1)
        as (b & st2 & p2 & -> & [(-> & _ & Hs2 & ->)|(-> & u & r & Hd & Hr & ->)]); eexists _, _, _; (split; [reflexivity|]).
      * split_and!; try done; [by apply (grown_same _ _ st1)|]. intros v n Hv. by apply (same_grabs st1), (same_grabs st).
      * split_and!; try done; [|by apply (Hmono st2 u r)]. apply (grown_more st0 _ st1 st2 u r); [done|done|by apply Hwin].
    + set (p1 := plan_of rs <| updates ::= _ |>).
      destruct (split_rest_ok st1 p1 true g m y z W Ea L2 Hm Hp L3 (L4 _ _ eq_refl) Hok1 Hcur HW1 Hopt Hlive1)
        as (b & st2 & p2 & -> & [(-> & Hf & Hs2 & ->)|(-> & u & r & Hd & Hr & ->)]); eexists _, _, _; (split; [reflexivity|]).
      * split_and!; try done; [by apply (grown_same _ _ st1)|]. intros v n Hv. by apply (same_grabs st1), (same_grabs st).
      * split_and!; try done; [|by apply (Hmono st2 u r)|].
        -- apply (grown_more st0 _ st1 st2 u r); [done|done|by apply Hwin].
        -- intros _. exists (Added mk u). rewrite plan_of_app. split; [done|]. split; [done|]. exists r.
           by rewrite (dr_grabs _ _ _ _ Hd), lookup_insert_eq.
Qed.

(** The whole list: every grab has its verdict, or memory fails. *)
Lemma ungrab_scan_ok l : forall st rs,
  grown st0 (adds (plan_of rs)) st -> fitted st0 st m rs ->
  (forall x, x ∈ l -> exists g, grabs st0 !! x = Some g /\ listed m (window m) g) ->
  exists ok st' p', ungrab_scan al st (plan_of rs) m l = Ret (ok, st', p') /\ grown st0 (adds p') st' /\
    (ok = false -> failure) /\ (ok = true -> exists rs', p' = plan_of rs' /\ rs'.*1 = rs.*1 ++ l /\ fitted st0 st' m rs').
Proof.
  induction l as [|x l IH]; intros st rs Hgr Hfit Hl; cbn [ungrab_scan].
  - eexists _, _, _. split; [reflexivity|]. split_and!; try done. exists rs. by rewrite app_nil_r.
  - destruct (Hl x) as (g & Hx & Hg); [by left|].
    destruct (ungrab_one_ok st rs x g Hgr Hx Hg) as (ok & st1 & p1 & -> & Hgr1 & Hmono & Hf & Hv). cbn [obind].
    destruct ok; cbn [negb]; [|eexists _, _, _; split; [reflexivity|]; by split_and!].
    destruct (Hv eq_refl) as (v & -> & Hfv).
    destruct (IH st1 (rs ++ [(x, v)]) Hgr1) as (ok & st2 & p2 & E & Hgr2 & Hf2 & Hr).
    + intros y u [Hy|Hy]%elem_of_app.
      * destruct (Hfit y u Hy) as (g' & Hg' & Hu). exists g'. split; [done|]. by apply (fits_more st).
      * apply list_elem_of_singleton in Hy. injection Hy as -> ->. by exists g.
    + intros y Hy. apply Hl. by right.
    + exists ok, st2, p2. split; [done|]. split_and!; try done. intros E1. destruct (Hr E1) as (rs' & -> & Ers & Hfit').
      exists rs'. split; [done|]. split; [|done]. rewrite Ers, fmap_app, <- app_assoc. done.
Qed.
End List.
End Scan.
