(* ===== verification/GrabUngrab.v ===== *)
(** * GrabUngrab: the plan is carried out

    The grabs to delete are freed, the new ones are put at the head of the list
    and the masks are replaced. *)

From S2P Require Import Prelude.
From S2P Require Import Resource.
From S2P Require Import Grabs.
From S2P Require Import GrabSets.
From S2P Require Import GrabHeap.
From S2P Require Import GrabAction.
From S2P Require Import GrabDelete.
From S2P Require Import GrabPlan.
From S2P Require Import GrabScan.

Section Ungrab.
Context `{GrabEnv} (al : allocator).

(** ** Deleting *)

(** The resources are those of grabs. *)
Definition res_back (st : GrabState) : Prop :=
  forall r x, resources st !! r = Some x -> exists g, grabs st !! x = Some g /\ resource g = r.

(** [st'] is [st] without the grabs [dl] of the window [w]. *)
Record pruned (w : Z) (st : GrabState) (dl : list Z) (st' : GrabState) : Prop := {
  pr_grabs : forall x, grabs st' !! x = if bool_decide (x ∈ dl) then None else grabs st !! x;
  pr_res : forall r x, resources st' !! r = Some x <-> resources st !! r = Some x /\ x ∉ dl;
  pr_other : forall v, v <> w -> windows st' !! v = windows st !! v;
  pr_window : forall W, windows st !! w = Some W -> exists W', windows st' !! w = Some W' /\
    passiveGrabs W' = filter (fun y => y ∉ dl) (passiveGrabs W) /\ other_need W' = other_need W /\ (passiveGrabs W' <> [] -> optional W' = true);
  pr_cursors : cursors_ok st';
  pr_spare : forall c, spare st' c = spare st c
}.

Lemma prune w dl : forall st W,
  cursors_ok st -> res_back st -> NoDup dl -> windows st !! w = Some W -> (passiveGrabs W <> [] -> optional W = true) ->
  (forall x, x ∈ dl -> exists g, grabs st !! x = Some g /\ window g = w /\ resources st !! resource g = Some x) ->
  exists st', free_grabs st dl = Ret st' /\ pruned w st dl st'.
Proof.
  induction dl as [|x dl IH]; intros st W Hok Hback Hnd HW Hopt Hdl; cbn [free_grabs].
  - exists st. split; [done|]. split; try done.
    + intros r y. split; [|by intros [? _]]. intros Hy. split; [done|]. by intros ?%not_elem_of_nil.
    + intros W0 HW0. rewrite HW in HW0. injection HW0 as <-. exists W. split_and!; try done.
      symmetry. apply filter_keep. by intros y _ ?%not_elem_of_nil.
  - apply NoDup_cons in Hnd as [Hx Hnd]. destruct (Hdl x) as (g & Hg & Hw & Hr); [by left|]. rewrite Hg. cbn [obind_opt].
    destruct (FreeResource_step st x g W Hok Hr Hg) as (st1 & W1 & -> & E1 & E2 & E3 & E4 & E5 & E6 & _ & E8 & E9 & E10); [by rewrite Hw|done|].
    cbn [obind]. rewrite Hw in E3.
    assert (Hback1 : res_back st1).
    { intros r y. rewrite E2, lookup_delete_Some. intros [Hne Hy]. destruct (Hback r y Hy) as (n & Hn & <-). exists n. split; [|done].
      rewrite E1, lookup_delete_ne; [done|]. intros <-. rewrite Hg in Hn. by injection Hn as ->. }
    destruct (IH st1 W1 E8 Hback1 Hnd) as (st' & E & [P1 P2 P3 P4 P5 P6]); [by rewrite E3, lookup_insert_eq|done| |].
    { intros y Hy. destruct (Hdl y) as (n & Hn & Hwn & Hrn); [by right|]. exists n. rewrite E1, E2, !lookup_delete_ne; [done| |by intros ->].
      intros Er. rewrite Er, Hrn in Hr. by injection Hr as ->. }
    exists st'. split; [done|]. split; try done.
    + intros y. rewrite P1, E1. destruct (decide (y = x)) as [->|Hne].
      * rewrite lookup_delete_eq, (bool_decide_true (x ∈ x :: dl)) by by left. by case_bool_decide.
      * rewrite lookup_delete_ne by done. by rewrite (bool_decide_ext (y ∈ x :: dl) (y ∈ dl)) by set_solver.
    + intros r y. rewrite P2, E2, lookup_delete_Some, not_elem_of_cons. split; [|].
      * intros [[Hne Hy] Hin]. split; [done|]. split; [|done]. intros ->. destruct (Hback _ _ Hy) as (n & Hn & <-). rewrite Hg in Hn. by injection Hn as ->.
      * intros (Hy & Hne & Hin). split; [|done]. split; [|done]. intros <-. rewrite Hr in Hy. by injection Hy as ->.
    + intros v Hv. rewrite P3, E3, lookup_insert_ne by done. done.
    + intros W0 HW0. rewrite HW in HW0. injection HW0 as <-. destruct (P4 W1) as (W' & HW' & F1 & F2 & F3); [by rewrite E3, lookup_insert_eq|].
      exists W'. split; [done|]. split; [|by rewrite F2, E5]. rewrite F1, E4, list_filter_filter. apply list_filter_iff. intros y.
      rewrite not_elem_of_cons. tauto.
    + intros c. by rewrite P6, E9.
Qed.

(** ** Adding and replacing masks *)

Lemma link_ok w A : forall st W,
  windows st !! w = Some W -> (A <> [] -> optional W = true) ->
  (forall x, x ∈ A -> exists n, grabs st !! x = Some n /\ window n = w) ->
  link_grabs st A = Ret (st <| windows ::= <[w := W <| passiveGrabs := reverse A ++ passiveGrabs W |>]> |>).
Proof.
  induction A as [|x A IH]; intros st W HW Hopt HA; cbn [link_grabs].
  - f_equal. destruct st, W; cbn in *. by rewrite insert_id.
  - destruct (HA x) as (n & Hn & Hw); [by left|]. rewrite Hn. cbn [obind_opt]. rewrite Hw, HW. cbn [obind_opt]. rewrite Hopt by done. cbn [negb].
    rewrite (IH _ (W <| passiveGrabs ::= cons x |>)).
    + rewrite reverse_cons, <- app_assoc. f_equal. cbn. by rewrite insert_insert_eq.
    + cbn. by rewrite lookup_insert_eq.
    + intros _. by apply Hopt.
    + intros y Hy. apply HA. by right.
Qed.

Lemma updates_ok us : forall st,
  NoDup (us.*1.*1) -> (forall x f mk, (x, f, mk) ∈ us -> is_Some (grabs st !! x)) ->
  exists gm, apply_updates st us = Ret (st <| grabs := gm |>) /\
    (forall x, x ∉ us.*1.*1 -> gm !! x = grabs st !! x) /\
    (forall x f mk g, (x, f, mk) ∈ us -> grabs st !! x = Some g -> gm !! x = Some (set_field_mask f mk g)) /\
    forall c, live gm c = live (grabs st) c.
Proof.
  induction us as [|[[x f] mk] us IH]; intros st Hnd Hus; cbn [apply_updates].
  - exists (grabs st). split; [by destruct st|]. split; [done|]. split; [by intros ? ? ? ? ?%not_elem_of_nil|done].
  - cbn in Hnd. apply NoDup_cons in Hnd as [Hx Hnd]. destruct (Hus x f mk) as [g Hg]; [by left|]. rewrite Hg. cbn [obind_opt].
    destruct (IH (st <| grabs ::= <[x := set_field_mask f mk g]> |>) Hnd) as (gm & -> & H1 & H2 & H3).
    { intros y f' mk' Hy. cbn. destruct (decide (y = x)) as [->|Hne]; [by rewrite lookup_insert_eq|]. rewrite lookup_insert_ne by done.
      apply (Hus y f' mk'). by right. }
    exists gm. split; [done|]. split_and!.
    + intros y. cbn. rewrite not_elem_of_cons. intros [Hne Hy]. rewrite H1 by done. by apply lookup_insert_ne.
    + intros y f' mk' g' [[= -> -> ->]|Hy]%elem_of_cons Hg'.
      * rewrite H1 by done. cbn. rewrite lookup_insert_eq. rewrite Hg in Hg'. by injection Hg' as ->.
      * apply H2; [done|]. cbn. rewrite lookup_insert_ne; [done|]. intros <-. apply Hx. apply list_elem_of_fmap. exists (x, f').
        split; [done|]. apply list_elem_of_fmap. by exists (x, f', mk').
    + intros c. rewrite H3. cbn. apply (live_replace _ x g); [done|by destruct f].
Qed.

(** ** The verdicts *)

Lemma deleted_in (rs : list (Z * verdict)) (x : Z) : x ∈ omap deleted rs <-> (x, Deleted) ∈ rs.
Proof.
  rewrite list_elem_of_omap. split; [|intros Hx; by exists (x, Deleted)]. intros ([y v] & Hy & E). destruct v; try done.
  by injection E as ->.
Qed.
Lemma added_in (rs : list (Z * verdict)) (x : Z) : x ∈ omap added rs <-> exists y mk, (y, Added mk x) ∈ rs.
Proof.
  rewrite list_elem_of_omap. split; [|intros (y & mk & Hx); by exists (y, Added mk x)]. intros ([y v] & Hy & E). destruct v; try done.
  injection E as ->. by exists y, m.
Qed.
Lemma updated_in (rs : list (Z * verdict)) x f mk : (x, f, mk) ∈ omap updated rs <-> (x, Cleared f mk) ∈ rs \/ f = FieldDetail /\ exists n, (x, Added mk n) ∈ rs.
Proof.
  rewrite list_elem_of_omap. split.
  - intros ([y v] & Hy & E). destruct v; try done; injection E as -> -> ->; [by left|]. right. split; [done|]. by exists n.
  - intros [Hx|(-> & n & Hx)]; by eexists.
Qed.
Lemma key_in (rs : list (Z * verdict)) x v : (x, v) ∈ rs -> x ∈ rs.*1.
Proof. intros Hx. apply list_elem_of_fmap. by exists (x, v). Qed.
Lemma one_verdict (rs : list (Z * verdict)) x v v' : NoDup (rs.*1) -> (x, v) ∈ rs -> (x, v') ∈ rs -> v = v'.
Proof.
  induction rs as [|[y u] rs IH]; [by intros _ ?%not_elem_of_nil|]. cbn. intros [Hy Hnd]%NoDup_cons.
  intros [E|Hx]%elem_of_cons [E'|Hx']%elem_of_cons; [congruence| | |by apply IH].
  - injection E as -> ->. by apply key_in in Hx'.
  - injection E' as -> ->. by apply key_in in Hx.
Qed.
Lemma deleted_nodup (rs : list (Z * verdict)) : NoDup (rs.*1) -> NoDup (omap deleted rs).
Proof.
  induction rs as [|[x v] rs IH]; [constructor|]. cbn. intros [Hx Hnd]%NoDup_cons. destruct v; cbn; try by apply IH.
  apply NoDup_cons. split; [|by apply IH]. by intros ?%deleted_in%key_in.
Qed.
Lemma updated_nodup (rs : list (Z * verdict)) : NoDup (rs.*1) -> NoDup ((omap updated rs).*1.*1).
Proof.
  induction rs as [|[x v] rs IH]; [constructor|]. cbn in *. intros [Hx Hnd]%NoDup_cons.
  assert (Hk' : forall y, y ∈ (omap updated rs).*1.*1 -> y ∈ rs.*1).
  { intros y ([y0 f] & -> & ([[y' f'] mk] & [= <- <-] & Hy)%list_elem_of_fmap)%list_elem_of_fmap. cbn.
    apply updated_in in Hy as [?%key_in|(_ & n & ?%key_in)]; done. }
  destruct v; cbn; try by apply IH. all: apply NoDup_cons; split; [by intros ?%Hk'|by apply IH].
Qed.

(** ** The plan *)

(** What is so between requests: the grabs of a window's list are live, of that
    window and resources; the resources are the grabs of the lists. *)
Record grabs_ok (st : GrabState) : Prop := {
  ok_list : forall w W, windows st !! w = Some W ->
    NoDup (passiveGrabs W) /\ (passiveGrabs W <> [] -> optional W = true) /\
    forall x, x ∈ passiveGrabs W -> exists g, grabs st !! x = Some g /\ window g = w /\ grab_ok g /\ created g /\ resources st !! resource g = Some x;
  ok_res : forall r x, resources st !! r = Some x ->
    exists g W, grabs st !! x = Some g /\ resource g = r /\ windows st !! window g = Some W /\ x ∈ passiveGrabs W;
  ok_cursors : cursors_ok st
}.

Definition after_verdict (v : verdict) (g : GrabRec) : option GrabRec :=
  match v with
  | Kept => Some g
  | Deleted => None
  | Cleared f mk => Some (set_field_mask f mk g)
  | Added mk _ => Some (set_field_mask FieldDetail mk g)
  end.

(** [st'] is [st0] after the plan, of which [st] has the new grabs. *)
Record carried (st0 st : GrabState) (w : Z) (W : WinRec) (rs : list (Z * verdict)) (st' : GrabState) : Prop := {
  ca_windows : forall v, v <> w -> windows st' !! v = windows st0 !! v;
  ca_window : exists W', windows st' !! w = Some W' /\
    passiveGrabs W' = reverse (omap added rs) ++ filter (fun x => x ∉ omap deleted rs) (passiveGrabs W) /\
    other_need W' = other_need W /\ (passiveGrabs W' <> [] -> optional W' = true);
  ca_verdict : forall x v g, (x, v) ∈ rs -> grabs st0 !! x = Some g -> grabs st' !! x = after_verdict v g;
  ca_added : forall x, x ∈ omap added rs -> grabs st' !! x = grabs st !! x;
  ca_rest : forall x, x ∉ rs.*1 -> x ∉ omap added rs -> grabs st' !! x = grabs st0 !! x;
  ca_res : forall r x, resources st' !! r = Some x <-> resources st !! r = Some x /\ x ∉ omap deleted rs;
  ca_cursors : cursors_ok st';
  ca_spare : forall c, spare st' c = spare st0 c
}.

Lemma grown_back st0 A st : grabs_ok st0 -> grown st0 A st -> res_back st.
Proof.
  intros Hok Hgr r x Hr. destruct (gr_res _ _ _ Hgr r) as [E|(y & n & Hy & Hn & En)].
  - rewrite E in Hr. destruct (ok_res _ Hok _ _ Hr) as (g & W & Hg & Eg & _). exists g. split; [|done]. by apply (grown_keeps st0 A).
  - destruct (gr_new _ _ _ Hgr y Hy) as (_ & n' & Hn' & _ & Hrn & _). rewrite Hn in Hn'. injection Hn' as <-.
    rewrite En, Hr in Hrn. injection Hrn as ->. by exists n.
Qed.
Lemma grown_res st0 A st r x : grown st0 A st -> resources st0 !! r = Some x -> resources st !! r = Some x.
Proof.
  intros Hgr Hr. destruct (gr_res _ _ _ Hgr r) as [E|(y & n & Hy & Hn & En)]; [by rewrite E|].
  destruct (gr_new _ _ _ Hgr y Hy) as (_ & n' & Hn' & Hr0 & _). rewrite Hn in Hn'. injection Hn' as <-. congruence.
Qed.
Lemma grabs_ok_live st : grabs_ok st -> lists_live st.
Proof.
  intros Hok w W HW. destruct (ok_list _ Hok w W HW) as (_ & Ho & Hl). split; [done|]. intros x Hx. destruct (Hl x Hx) as (g & Hg & _). by exists g.
Qed.

Section Carry.
Context (st0 st : GrabState) (m : GrabRec) (W : WinRec) (rs : list (Z * verdict)).
Context (Hok : grabs_ok st0) (HW : windows st0 !! window m = Some W) (Hkeys : rs.*1 = passiveGrabs W).
Context (Hgr : grown st0 (omap added rs) st) (Hfit : fitted st0 st m rs).

Lemma keys_nodup : NoDup (rs.*1).
Proof. rewrite Hkeys. by destruct (ok_list _ Hok _ _ HW). Qed.
Lemma key_grab x v : (x, v) ∈ rs ->
  exists g, grabs st0 !! x = Some g /\ fits st m g v /\ window g = window m /\ grab_ok g /\ created g /\ resources st0 !! resource g = Some x /\
    x ∈ passiveGrabs W.
Proof.
  intros Hx. pose proof (key_in _ _ _ Hx) as Hk. rewrite Hkeys in Hk. destruct (ok_list _ Hok _ _ HW) as (_ & _ & Hl).
  destruct (Hl x Hk) as (g & Hg & Hrest). destruct (Hfit x v Hx) as (g' & Hg' & Hf). rewrite Hg in Hg'. injection Hg' as <-.
  exists g. split; [done|]. split; [done|]. tauto.
Qed.
Lemma added_grab y : y ∈ omap added rs ->
  exists n x g mk, grabs st !! y = Some n /\ (x, Added mk y) ∈ rs /\ grabs st0 !! x = Some g /\ split_of g m n /\ window n = window m /\ grabs st0 !! y = None.
Proof.
  intros Hy. destruct (proj1 (added_in _ _) Hy) as (x & mk & Hx). destruct (key_grab x _ Hx) as (g & Hg & Hf & Hw & _). unfold fits in Hf.
  destruct (action_of g m); try done. destruct Hf as (_ & n & Hn & Hs). exists n, x, g, mk. split_and!; try done.
  - by rewrite (so_window _ _ _ Hs).
  - by destruct (gr_new _ _ _ Hgr y Hy).
Qed.

Lemma carry_out : exists st',
  (st1 <-- free_grabs st (omap deleted rs); st2 <-- link_grabs st1 (omap added rs); apply_updates st2 (omap updated rs)) = Ret st' /\
  carried st0 st (window m) W rs st'.
Proof.
  pose proof keys_nodup as Hnd. destruct (ok_list _ Hok _ _ HW) as (_ & Hopt & _).
  assert (HWst : windows st !! window m = Some W) by (by rewrite (gr_windows _ _ _ Hgr)).
  destruct (prune (window m) (omap deleted rs) st W (gr_cursors _ _ _ Hgr) (grown_back _ _ _ Hok Hgr) (deleted_nodup _ Hnd) HWst Hopt)
    as (st1 & -> & [P1 P2 P3 P4 P5 P6]).
  { intros x Hx%deleted_in. destruct (key_grab x _ Hx) as (g & Hg & _ & Hw & _ & _ & Hr & _). exists g.
    split; [by apply (grown_keeps st0 (omap added rs))|]. split; [done|]. by apply (grown_res st0 (omap added rs)). }
  cbn [obind]. destruct (P4 W HWst) as (W1 & HW1 & E1 & E2 & E3).
  assert (Hadd : forall x, x ∈ omap added rs -> grabs st1 !! x = grabs st !! x).
  { intros x Hx. rewrite P1. case_bool_decide as Hd; [|done]. apply deleted_in, key_grab in Hd as (g & Hg & _).
    destruct (gr_new _ _ _ Hgr x Hx) as [? _]. congruence. }
  assert (Ho1 : omap added rs <> [] -> optional W1 = true).
  { destruct (omap added rs) as [|a l] eqn:Ea; [done|]. intros _. apply E3. rewrite E1. assert (Ha : a ∈ omap added rs) by (rewrite Ea; by left).
    apply added_in in Ha as (x & mk & Hx). destruct (key_grab x _ Hx) as (g & _ & _ & _ & _ & _ & _ & Hin).
    assert (Hf : x ∈ filter (fun y => y ∉ omap deleted rs) (passiveGrabs W)).
    { apply list_elem_of_filter. split; [|done]. intros Hd%deleted_in. by pose proof (one_verdict _ _ _ _ Hnd Hx Hd). }
    intros E0. rewrite E0 in Hf. by apply not_elem_of_nil in Hf. }
  rewrite (link_ok (window m) (omap added rs) st1 W1 HW1 Ho1).
  2: { intros x Hx. destruct (added_grab x Hx) as (n & _ & _ & _ & Hn & _ & _ & _ & Hw & _). exists n. by rewrite Hadd. }
  cbn [obind]. set (st2 := st1 <| windows ::= _ |>).
  assert (Hkey1 : forall x v, (x, v) ∈ rs -> v <> Deleted -> grabs st1 !! x = grabs st0 !! x).
  { intros x v Hx Hv. rewrite P1, bool_decide_false by (intros Hd%deleted_in; by pose proof (one_verdict _ _ _ _ Hnd Hx Hd)).
    destruct (key_grab x _ Hx) as (g & Hg & _). rewrite Hg. by apply (grown_keeps st0 (omap added rs)). }
  destruct (updates_ok (omap updated rs) st2 (updated_nodup _ Hnd)) as (gm & -> & U1 & U2 & U3).
  { intros x f mk [Hx|(_ & n & Hx)]%updated_in; destruct (key_grab x _ Hx) as (g & Hg & _); exists g; change (grabs st2) with (grabs st1);
      by rewrite (Hkey1 _ _ Hx). }
  assert (Hnot : forall x, (forall f mk, (x, Cleared f mk) ∉ rs) -> (forall mk n, (x, Added mk n) ∉ rs) -> gm !! x = grabs st1 !! x).
  { intros x N1 N2. apply U1. intros ([y f] & -> & ([[y' f'] mk] & [= <- <-] & Hy)%list_elem_of_fmap)%list_elem_of_fmap. cbn in *.
    apply updated_in in Hy as [Hy|(_ & n & Hy)]; [by apply N1 in Hy|by apply N2 in Hy]. }
  assert (Hsp : forall c, spare (st2 <| grabs := gm |>) c = spare st c).
  { intros c. unfold spare. cbn. rewrite U3. change (grabs st2) with (grabs st1). specialize (P6 c). unfold spare in P6. done. }
  eexists. split; [reflexivity|]. split.
  - intros v Hv. cbn. rewrite lookup_insert_ne, P3 by done. by rewrite (gr_windows _ _ _ Hgr).
  - eexists. split; [cbn; apply lookup_insert_eq|]. cbn. rewrite E1. split; [done|]. split; [done|].
    destruct (omap added rs) as [|a l]; [|intros _; by apply Ho1]. cbn. by rewrite E1 in E3.
  - intros x v g Hx Hg. cbn. destruct v as [| |f mk|mk n]; cbn [after_verdict].
    + rewrite Hnot, (Hkey1 _ _ Hx) by (try done; intros ? ? Hy; by pose proof (one_verdict _ _ _ _ Hnd Hx Hy)). done.
    + rewrite Hnot by (intros ? ? Hy; by pose proof (one_verdict _ _ _ _ Hnd Hx Hy)). rewrite P1, bool_decide_true; [done|]. by apply deleted_in.
    + apply U2; [apply updated_in; by left|]. change (grabs st2) with (grabs st1). by rewrite (Hkey1 _ _ Hx).
    + apply U2; [apply updated_in; right; by eauto|]. change (grabs st2) with (grabs st1). by rewrite (Hkey1 _ _ Hx).
  - intros x Hx. cbn. rewrite Hnot; [by apply Hadd| |]; intros ? ? Hy; destruct (key_grab x _ Hy) as (g & Hg & _);
      destruct (gr_new _ _ _ Hgr x Hx) as [? _]; congruence.
  - intros x Hx1 Hx2. cbn. rewrite Hnot by (intros ? ? Hy; apply Hx1; by apply key_in in Hy). rewrite P1, bool_decide_false.
    + by apply (gr_old _ _ _ Hgr).
    + intros Hd%deleted_in%key_in. done.
  - intros r x. cbn. apply P2.
  - split; [cbn; apply P5|]. intros c. rewrite Hsp. apply (gr_cursors _ _ _ Hgr).
  - intros c. rewrite Hsp. apply (gr_spare _ _ _ Hgr).
Qed.
End Carry.
End Ungrab.
