(* ===== verification/GrabSubtract.v ===== *)
(** * GrabSubtract: ungrabbing is subtraction, or nothing

    What [DeletePassiveGrabFromList] and [AddPassiveGrabToList] promise: the
    combinations that the clients have on the windows, and that the state is
    as it has to be. *)

From S2P Require Import Prelude.
From S2P Require Import Resource.
From S2P Require Import Grabs.
From S2P Require Import GrabSets.
From S2P Require Import GrabHeap.
From S2P Require Import GrabAction.
From S2P Require Import GrabDelete.
From S2P Require Import GrabPlan.
From S2P Require Import GrabScan.
From S2P Require Import GrabUngrab.

Section Subtract.
Context `{GrabEnv} (al : allocator).

(** On the window [w] there is a grab with effect [e] that has the combination
    of [d] and [md]. *)
Definition granted (st : GrabState) (w : Z) (e : GrabRec) (d md : Z) : Prop :=
  exists W x g, windows st !! w = Some W /\ x ∈ passiveGrabs W /\ grabs st !! x = Some g /\ effect g = e /\ hits g d md.
(** [m] has the combination, and takes it from grabs with effect [e]. *)
Definition takes (m e : GrabRec) (d md : Z) : Prop :=
  resource e = owner m /\ concerns e m (bool_decide (grabtype e = CORE)) = true /\ hits m d md.

Lemma takes_effect m g d md : takes m (effect g) d md <-> takes_from m g /\ hits m d md.
Proof.
  unfold takes, takes_from. change (concerns (effect g) m) with (concerns g m). change (grabtype (effect g)) with (grabtype g).
  change (resource (effect g)) with (owner g). tauto.
Qed.
Lemma effect_mask f mk g : effect (set_field_mask f mk g) = effect g.
Proof. by destruct f. Qed.
Lemma resource_mask f mk g : resource (set_field_mask f mk g) = resource g.
Proof. by destruct f. Qed.
Lemma window_of_mask f mk g : window (set_field_mask f mk g) = window g.
Proof. by destruct f. Qed.
Lemma created_mask f mk g : created g -> created (set_field_mask f mk g).
Proof. intros [? ? ? ? ? ?]. by destruct f. Qed.

(** A grab that is in no list. *)
Definition unlisted (st : GrabState) (y : Z) : Prop := forall w W, windows st !! w = Some W -> y ∉ passiveGrabs W.
(** What does not change for those who are not concerned: grabs that are in no
    list, windows, and ids that were given out but are not used. *)
Record kept (st st' : GrabState) : Prop := {
  ke_cells : forall y g, grabs st !! y = Some g -> unlisted st y -> grabs st' !! y = Some g /\ unlisted st' y;
  ke_windows : forall v W, windows st !! v = Some W -> exists W', windows st' !! v = Some W';
  ke_ids : forall r, r ∈ issued st -> resources st !! r = None -> resources st' !! r = None;
  ke_spare : forall c, spare st' c = spare st c
}.
Lemma same_kept st st' : same st st' -> kept st st'.
Proof. intros (k & i & _ & ->). split; cbn; try done. intros v W HW. by exists W. Qed.
Lemma same_grabs_ok st st' : same st st' -> grabs_ok st -> grabs_ok st'.
Proof. intros (k & i & _ & ->) [H1 H2 [H3 H4]]. by split. Qed.

Section Carried.
Context (st0 st : GrabState) (m : GrabRec) (W : WinRec) (rs : list (Z * verdict)) (st' : GrabState).
Context (Hok : grabs_ok st0) (HW : windows st0 !! window m = Some W) (Hkeys : rs.*1 = passiveGrabs W).
Context (Hgr : grown st0 (omap added rs) st) (Hfit : fitted st0 st m rs).
Context (Hm : grab_ok m) (Hp : plain_grab m) (Hca : carried st0 st (window m) W rs st').

(** What is in the list afterwards. *)
Lemma after_in x g' : grabs st' !! x = Some g' -> (exists W', windows st' !! window m = Some W' /\ x ∈ passiveGrabs W') <->
  (exists v g, (x, v) ∈ rs /\ v <> Deleted /\ grabs st0 !! x = Some g /\ after_verdict v g = Some g') \/
  x ∈ omap added rs.
Proof.
  intros Hx. destruct (ca_window _ _ _ _ _ _ Hca) as (W' & HW' & El & _). split.
  - intros (W1 & HW1 & Hin). rewrite HW' in HW1. injection HW1 as <-. rewrite El, elem_of_app, elem_of_reverse, list_elem_of_filter in Hin.
    destruct Hin as [Hin|[Hd Hin]]; [by right|left]. rewrite <- Hkeys in Hin. apply list_elem_of_fmap in Hin as ([y v] & -> & Hv). cbn in *.
    destruct (key_grab st0 st m W rs Hok HW Hkeys Hfit y v Hv) as (g & Hg & _). exists v, g. split; [done|]. split; [intros ->; apply Hd; by apply deleted_in|].
    split; [done|]. rewrite <- Hx. symmetry. by apply (ca_verdict _ _ _ _ _ _ Hca).
  - intros Hin. exists W'. split; [done|]. rewrite El, elem_of_app, elem_of_reverse, list_elem_of_filter.
    destruct Hin as [(v & g & Hv & Hne & _)|Hin]; [right|by left]. pose proof (key_in _ _ _ Hv) as Hk. rewrite Hkeys in Hk. split; [|done].
    intros Hd%deleted_in. by pose proof (one_verdict _ _ _ _ (keys_nodup st0 m W rs Hok HW Hkeys) Hv Hd).
Qed.

(** The combinations that a verdict leaves are those that the action leaves. *)
Lemma verdict_left x v g e d md :
  (x, v) ∈ rs -> grabs st0 !! x = Some g -> ranged d -> ranged md ->
  ((exists g', after_verdict v g = Some g' /\ effect g' = e /\ hits g' d md) \/
   (exists mk n r, v = Added mk n /\ grabs st !! n = Some r /\ effect r = e /\ hits r d md)) <->
  effect g = e /\ left_after (action_of g m) g d md.
Proof.
  intros Hx Hg Hd Hmd. destruct (key_grab st0 st m W rs Hok HW Hkeys Hfit x v Hx) as (g0 & Hg0 & Hf & Hw & Hgok & _).
  rewrite Hg in Hg0. injection Hg0 as <-. unfold fits in Hf. destruct (action_of g m) as [| |f y|y z] eqn:Ea, v as [| |f' mk|mk n]; try done; cbn [after_verdict].
  - split; [intros [(g' & [= <-] & ? & ?)|(? & ? & ? & ? & _)]; done|]. intros [? ?]. left. by exists g.
  - split; [intros [(g' & ? & _)|(? & ? & ? & ? & _)]; done|]. by intros [_ []].
  - destruct Hf as [-> Hc]. destruct (action_clears g m f y Hm Hp) as (Hany & _); [by rewrite Ea|].
    assert (Hh : hits (set_field_mask f mk g) d md <-> left_after (Clear f y) g d md).
    { rewrite (cleared_hits f g y mk d md Hany Hc Hd Hmd). by destruct f. }
    split; [intros [(g' & [= <-] & <- & ?)|(? & ? & ? & ? & _)]; [|done]|intros [<- ?]; left; eexists; split; [done|]].
    + rewrite effect_mask. split; [done|]. by apply Hh.
    + rewrite effect_mask. split; [done|]. by apply Hh.
  - destruct Hf as [Hc (r & Hr & Hs)]. pose proof (split_hits g m r mk d md y z Ea Hgok Hm Hp Hs Hc Hd Hmd) as Hh.
    split; [intros [(g' & E & <- & Hg')|(? & ? & r' & [= <- <-] & Hr' & <- & Hh')]|intros [<- Hl]].
    + assert (g' = set_field_mask FieldDetail mk g) as -> by congruence. rewrite effect_mask. split; [done|]. apply Hh. by left.
    + rewrite Hr in Hr'. injection Hr' as <-. split; [by rewrite (so_effect _ _ _ Hs)|]. apply Hh. by right.
    + apply Hh in Hl as [Hl|Hl]; [left; eexists; split; [done|]; by rewrite effect_mask|right; exists mk, n, r].
      split; [done|]. split; [done|]. by rewrite (so_effect _ _ _ Hs).
Qed.

Lemma carried_here e d md : ranged d -> ranged md ->
  granted st' (window m) e d md <-> granted st0 (window m) e d md /\ ~ takes m e d md.
Proof.
  intros Hd Hmd. split.
  - intros (W' & x & g' & HW' & Hx & Hg' & He & Hh).
    assert (Hv : exists y v g, (y, v) ∈ rs /\ grabs st0 !! y = Some g /\ effect g = e /\ left_after (action_of g m) g d md).
    { destruct (proj1 (after_in x g' Hg')) as [(v & g & Hv & _ & Hg & Ha)|Ha]; [by exists W'| |].
      - exists x, v, g. split; [done|]. split; [done|]. apply (verdict_left x v g e d md); try done. left. by exists g'.
      - destruct (added_grab st0 st m W rs Hok HW Hkeys Hgr Hfit x Ha) as (r & y & g & mk & Hr & Hv & Hg & _).
        rewrite (ca_added _ _ _ _ _ _ Hca) in Hg' by done. rewrite Hr in Hg'. injection Hg' as <-.
        exists y, (Added mk x), g. split; [done|]. split; [done|]. apply (verdict_left y (Added mk x) g e d md); try done. right. by exists mk, x, r. }
    destruct Hv as (y & v & g & Hv & Hg & <- & Hl). destruct (key_grab st0 st m W rs Hok HW Hkeys Hfit y v Hv) as (g0 & Hg0 & _ & _ & Hgok & _ & _ & Hin).
    rewrite Hg in Hg0. injection Hg0 as <-. apply (action_subtracts g m d md Hgok Hp) in Hl as [Hl Hn]. split; [by exists W, y, g|].
    by rewrite takes_effect.
  - intros [(W0 & x & g & HW0 & Hx & Hg & <- & Hh) Hn]. rewrite HW in HW0. injection HW0 as <-. rewrite takes_effect in Hn.
    rewrite <- Hkeys in Hx. apply list_elem_of_fmap in Hx as ([y v] & -> & Hv). cbn in *.
    destruct (key_grab st0 st m W rs Hok HW Hkeys Hfit y v Hv) as (g0 & Hg0 & _ & _ & Hgok & _). rewrite Hg in Hg0. injection Hg0 as <-.
    destruct (proj2 (verdict_left y v g (effect g) d md Hv Hg Hd Hmd)) as [(g' & Ha & He & Hh')|(mk & n & r & -> & Hr & He & Hh')].
    + split; [done|]. by apply action_subtracts.
    + assert (Hg' : grabs st' !! y = Some g') by (rewrite <- Ha; by apply (ca_verdict _ _ _ _ _ _ Hca)).
      destruct (proj2 (after_in y g' Hg')) as (W' & HW' & Hin); [left; exists v, g; split_and!; try done; by intros ->|]. by exists W', y, g'.
    + assert (Ha : n ∈ omap added rs) by (apply added_in; by eauto).
      assert (Hg' : grabs st' !! n = Some r) by by rewrite (ca_added _ _ _ _ _ _ Hca).
      destruct (proj2 (after_in n r Hg')) as (W' & HW' & Hin); [by right|]. by exists W', n, r.
Qed.

(** The grabs of other windows' lists are as they were. *)
Lemma elsewhere v W0 x : v <> window m -> windows st0 !! v = Some W0 -> x ∈ passiveGrabs W0 ->
  grabs st' !! x = grabs st0 !! x /\ x ∉ omap deleted rs.
Proof.
  intros Hne HW0 Hx. destruct (ok_list _ Hok v W0 HW0) as (_ & _ & Hl). destruct (Hl x Hx) as (g & Hg & Hw & _).
  assert (Hk : x ∉ rs.*1).
  { intros ([y u] & -> & Hy)%list_elem_of_fmap. destruct (key_grab st0 st m W rs Hok HW Hkeys Hfit y u Hy) as (g0 & Hg0 & _ & Hw0 & _).
    cbn in *. congruence. }
  split; [|by intros ?%deleted_in%key_in]. apply (ca_rest _ _ _ _ _ _ Hca); [done|]. intros Ha. destruct (gr_new _ _ _ Hgr x Ha) as [? _]. congruence.
Qed.
Lemma carried_elsewhere v e d md : v <> window m -> granted st' v e d md <-> granted st0 v e d md.
Proof.
  intros Hne. pose proof (ca_windows _ _ _ _ _ _ Hca v Hne) as Ew. split; intros (W0 & x & g & HW0 & Hx & Hg & Hrest).
  - rewrite Ew in HW0. destruct (elsewhere v W0 x Hne HW0 Hx) as [E _]. rewrite E in Hg. by exists W0, x, g.
  - destruct (elsewhere v W0 x Hne HW0 Hx) as [E _]. exists W0, x, g. by rewrite Ew, E.
Qed.

(** A grab of the list afterwards is as it has to be. *)
Lemma after_good x W' : windows st' !! window m = Some W' -> x ∈ passiveGrabs W' ->
  exists g', grabs st' !! x = Some g' /\ window g' = window m /\ grab_ok g' /\ created g' /\ resources st' !! resource g' = Some x.
Proof.
  intros HW' Hin. destruct (ca_window _ _ _ _ _ _ Hca) as (W1 & HW1 & El & _). rewrite HW' in HW1. injection HW1 as <-.
  rewrite El, elem_of_app, elem_of_reverse, list_elem_of_filter in Hin. destruct Hin as [Ha|[Hd Hin]].
  - destruct (added_grab st0 st m W rs Hok HW Hkeys Hgr Hfit x Ha) as (n & y & g & mk & Hn & Hv & Hg & Hs & Hw & H0).
    exists n. rewrite (ca_added _ _ _ _ _ _ Hca) by done. destruct (gr_new _ _ _ Hgr x Ha) as (_ & n' & Hn' & _ & Hr & _).
    rewrite Hn in Hn'. injection Hn' as <-. split; [done|]. split; [done|]. split; [apply Hs|]. split; [apply Hs|].
    apply (ca_res _ _ _ _ _ _ Hca). split; [done|]. intros Hd%deleted_in.
    destruct (key_grab st0 st m W rs Hok HW Hkeys Hfit x _ Hd) as (g0 & Hg0 & _). congruence.
  - rewrite <- Hkeys in Hin. apply list_elem_of_fmap in Hin as ([y v] & -> & Hv). cbn in *.
    destruct (key_grab st0 st m W rs Hok HW Hkeys Hfit y v Hv) as (g & Hg & Hf & Hw & Hgok & Hcr & Hr & _).
    pose proof (ca_verdict _ _ _ _ _ _ Hca y v g Hv Hg) as Hg'.
    assert (Hr' : resources st' !! resource g = Some y).
    { apply (ca_res _ _ _ _ _ _ Hca). split; [by apply (grown_res st0 (omap added rs))|done]. }
    unfold fits in Hf. destruct (action_of g m) as [| |f z|z u] eqn:Ea, v as [| |f' mk|mk n]; try done; cbn [after_verdict] in Hg'.
    + by exists g.
    + destruct Hd. by apply deleted_in.
    + destruct Hf as [-> Hc]. destruct (action_clears g m f z Hm Hp) as (Hany & _); [by rewrite Ea|].
      eexists. split; [exact Hg'|]. rewrite window_of_mask, resource_mask. split_and!; try done; [by apply (cleared_ok f g z)|by apply created_mask].
    + destruct Hf as [Hc _]. destruct (action_split g m z u Hm Hp Ea) as (Hany & _).
      eexists. split; [exact Hg'|]. rewrite window_of_mask, resource_mask. split_and!; try done; [by apply (cleared_ok FieldDetail g z)|by apply created_mask].
Qed.

Lemma carried_ok : grabs_ok st'.
Proof.
  destruct (ca_window _ _ _ _ _ _ Hca) as (W1 & HW1 & El & _ & Ho). split.
  - intros v W' HW'. destruct (Z.eq_dec v (window m)) as [->|Hne].
    + rewrite HW1 in HW'. injection HW' as <-. split; [|split; [done|intros x Hx; by apply (after_good x W1)]].
      rewrite El. apply NoDup_app. split; [rewrite reverse_Permutation; by apply (gr_nodup _ _ _ Hgr)|].
      split; [|apply NoDup_filter; by destruct (ok_list _ Hok _ _ HW)].
      intros x Ha [_ Hin]%list_elem_of_filter. rewrite elem_of_reverse in Ha. destruct (ok_list _ Hok _ _ HW) as (_ & _ & Hl).
      destruct (Hl x Hin) as (g & Hg & _). destruct (gr_new _ _ _ Hgr x Ha) as [? _]. congruence.
    + rewrite (ca_windows _ _ _ _ _ _ Hca v Hne) in HW'. destruct (ok_list _ Hok v W' HW') as (Hnd & Hopt & Hl).
      split; [done|]. split; [done|]. intros x Hx. destruct (Hl x Hx) as (g & Hg & Hw & Hgok & Hcr & Hr).
      destruct (elsewhere v W' x Hne HW' Hx) as [E Hd]. exists g. rewrite E. split_and!; try done.
      apply (ca_res _ _ _ _ _ _ Hca). split; [by apply (grown_res st0 (omap added rs))|done].
  - intros r x [Hr Hd]%(ca_res _ _ _ _ _ _ Hca).
    assert (Hhere : (exists W', windows st' !! window m = Some W' /\ x ∈ passiveGrabs W') -> (forall g', grabs st' !! x = Some g' -> resource g' = r) ->
      exists g' W', grabs st' !! x = Some g' /\ resource g' = r /\ windows st' !! window g' = Some W' /\ x ∈ passiveGrabs W').
    { intros (W' & HW' & Hin) Hres. destruct (after_good x W' HW' Hin) as (g' & Hg' & Hw & _). exists g', W'. rewrite Hw. split_and!; try done. by apply Hres. }
    destruct (gr_res _ _ _ Hgr r) as [E|(y & n & Ha & Hn & En)].
    + rewrite E in Hr. destruct (ok_res _ Hok r x Hr) as (g & W0 & Hg & Er & HW0 & Hx). destruct (Z.eq_dec (window g) (window m)) as [Ew|Hne].
      * rewrite Ew, HW in HW0. injection HW0 as <-. rewrite <- Hkeys in Hx. apply list_elem_of_fmap in Hx as ([y v] & -> & Hv). cbn in *.
        pose proof (ca_verdict _ _ _ _ _ _ Hca y v g Hv Hg) as Hg'. destruct (after_verdict v g) as [g'|] eqn:Ea; [|by destruct v, Hd; apply deleted_in].
        apply Hhere; [apply (after_in y g' Hg'); left; exists v, g; split_and!; try done; by intros ->|].
        intros g2 Hg2. rewrite Hg' in Hg2. injection Hg2 as <-. destruct v; cbn in Ea; try done; injection Ea as <-; by rewrite ?resource_mask.
      * destruct (elsewhere _ _ _ Hne HW0 Hx) as [Eg _]. exists g, W0. rewrite Eg, (ca_windows _ _ _ _ _ _ Hca) by done. done.
    + destruct (gr_new _ _ _ Hgr y Ha) as (_ & n' & Hn' & _ & Hrn & _). rewrite Hn in Hn'. injection Hn' as <-.
      rewrite En, Hr in Hrn. injection Hrn as <-. assert (Hg' : grabs st' !! x = Some n) by by rewrite (ca_added _ _ _ _ _ _ Hca).
      apply Hhere; [apply (after_in x n Hg'); by right|]. intros g2 Hg2. congruence.
  - apply (ca_cursors _ _ _ _ _ _ Hca).
Qed.
Lemma carried_kept : kept st0 st'.
Proof.
  destruct (ca_window _ _ _ _ _ _ Hca) as (W1 & HW1 & El & _ & Ho). split.
  - intros y g Hg Hy.
    assert (Hk : y ∉ rs.*1) by (rewrite Hkeys; by apply (Hy (window m))).
    assert (Ha : y ∉ omap added rs) by (intros Ha; destruct (gr_new _ _ _ Hgr y Ha) as [? _]; congruence).
    split; [by rewrite (ca_rest _ _ _ _ _ _ Hca)|]. intros w W' HW'. destruct (Z.eq_dec w (window m)) as [->|Hne].
    + rewrite HW1 in HW'. injection HW' as <-. rewrite El, elem_of_app, elem_of_reverse, list_elem_of_filter, <- Hkeys. tauto.
    + rewrite (ca_windows _ _ _ _ _ _ Hca) in HW' by done. by apply (Hy w).
  - intros v W' HW'. destruct (Z.eq_dec v (window m)) as [->|Hne]; [by exists W1|]. exists W'. by rewrite (ca_windows _ _ _ _ _ _ Hca).
  - intros r Hr Hn. destruct (resources st' !! r) as [x|] eqn:E; [|done]. apply (ca_res _ _ _ _ _ _ Hca) in E as [E _].
    destruct (gr_res _ _ _ Hgr r) as [E2|(y & n & Hy & Hyn & En)]; [congruence|]. destruct (gr_ids _ _ _ Hgr y n Hy Hyn). by rewrite En.
  - apply (ca_spare _ _ _ _ _ _ Hca).
Qed.
End Carried.

(** ** Ungrabbing *)

(** No grab of XI2 has to be split. *)
Definition no_xi2_split (st : GrabState) (m : GrabRec) (W : WinRec) : Prop :=
  forall x g, x ∈ passiveGrabs W -> grabs st !! x = Some g -> forall d md, action_of g m = Split d md -> grabtype g <> XI2.

Lemma DeletePassiveGrabFromList_spec st x0 m W :
  grabs_ok st -> grabs st !! x0 = Some m -> grab_ok m -> plain_grab m -> windows st !! window m = Some W -> no_xi2_split st m W ->
  exists b st', DeletePassiveGrabFromList al st x0 = Ret (b, st') /\ grabs_ok st' /\ kept st st' /\
    (b = false -> failure al /\ same st st') /\
    (b = true -> forall w e d md, ranged d -> ranged md ->
       granted st' w e d md <-> granted st w e d md /\ ~ (w = window m /\ takes m e d md)).
Proof.
  intros Hok Hx Hm Hp HW Hx2. destruct (ok_list _ Hok _ _ HW) as (Hnd & Hopt & Hl).
  unfold DeletePassiveGrabFromList. rewrite Hx. cbn [obind_opt]. unfold wPassiveGrabs. rewrite HW. cbn [obind_opt obind].
  assert (El : (if optional W then passiveGrabs W else []) = passiveGrabs W).
  { destruct (passiveGrabs W); [by destruct (optional W)|]. by rewrite Hopt. }
  rewrite El. destruct (passiveGrabs W) as [|a l] eqn:Ea.
  { exists true, st. split; [done|]. split; [done|]. split; [apply same_kept, same_refl|]. split; [done|]. intros _ w e d md _ _.
    split; [|tauto]. intros Hg. split; [done|]. intros [-> _]. destruct Hg as (W0 & x & g & HW0 & Hin & _). rewrite HW in HW0.
    injection HW0 as <-. rewrite Ea in Hin. by apply not_elem_of_nil in Hin. }
  rewrite <- Ea in *. unfold calloc. set (n := Z.of_nat _ * 8). set (st1 := st <| allocs ::= S |> <| allocs ::= S |> <| allocs ::= S |> <| allocs ::= S |>).
  assert (Hs1 : same st st1) by exact (same_alloc st _).
  destruct (negb _) eqn:Eal.
  { exists false, st1. split; [done|]. split; [by apply (same_grabs_ok st)|]. split; [by apply same_kept|]. split; [|done]. intros _. split; [|done].
    apply negb_true_iff, andb_false_iff in Eal as [Eal|Eal]; [|by eexists _, _].
    apply andb_false_iff in Eal as [Eal|Eal]; [|by eexists _, _]. apply andb_false_iff in Eal as [Eal|Eal]; by eexists _, _. }
  clear Eal. change (MkPlan [] [] []) with (plan_of []).
  assert (Hgr1 : grown st (adds (plan_of [])) st1) by by apply grown_nil; [apply Hok|].
  destruct (ungrab_scan_ok al st m W Hm Hp (grabs_ok_live _ Hok) HW) with (l := passiveGrabs W) (st := st1) (rs := @nil (Z * verdict))
    as (ok & st2 & p2 & -> & Hgr2 & Hf & Hr); try done.
  { apply Hopt. by rewrite Ea. }
  { by intros x v ?%not_elem_of_nil. }
  { intros x Hin. destruct (Hl x Hin) as (g & Hg & Hw & Hgok & Hcr & _). exists g. split; [done|]. split; try done. by apply (Hx2 x). }
  cbn [obind]. destruct ok; cbn [negb].
  - destruct (Hr eq_refl) as (rs & -> & Hkeys & Hfit). cbn [fmap list_fmap] in Hkeys. cbn [plan_of adds deletes updates] in *.
    destruct (carry_out st st2 m W rs Hok HW Hkeys Hgr2 Hfit) as (st' & E & Hca).
    destruct (free_grabs st2 (omap deleted rs)) as [st3| | |]; cbn [obind] in E |- *; try done.
    destruct (link_grabs st3 (omap added rs)) as [st4| | |]; cbn [obind] in E |- *; try done. rewrite E. cbn [obind].
    exists true, st'. split; [done|]. split; [by apply (carried_ok st st2 m W rs st')|]. split; [by apply (carried_kept st st2 m W rs st')|].
    split; [done|]. intros _ w e d md Hd Hmd. destruct (Z.eq_dec w (window m)) as [->|Hne].
    + rewrite (carried_here st st2 m W rs st' Hok HW Hkeys Hgr2 Hfit Hm Hp Hca e d md Hd Hmd). tauto.
    + rewrite (carried_elsewhere st st2 m W rs st' Hok HW Hkeys Hgr2 Hfit Hca w e d md Hne). tauto.
  - destruct (rollback st (adds p2) st2 (grabs_ok_live _ Hok) (ok_cursors _ Hok) Hgr2) as (st' & -> & Hs). cbn [obind].
    exists false, st'. split; [done|]. split; [by apply (same_grabs_ok st)|]. split; [by apply same_kept|]. split; [|done]. intros _. split; [by apply Hf|done].
Qed.
End Subtract.
