(* ===== verification/GrabAdd.v ===== *)
(** * GrabAdd: grabbing, unless another client has some of it

    [AddPassiveGrabToList]: a grab that meets one of another client is refused
    and freed, another one becomes the first of its window's list. *)

From S2P Require Import Prelude.
From S2P Require Import Resource.
From S2P Require Import Grabs.
From S2P Require Import GrabSets.
From S2P Require Import GrabHeap.
From S2P Require Import GrabAction.
From S2P Require Import GrabDelete.
From S2P Require Import GrabPlan.
From S2P Require Import GrabScan.
From S2P Require Import GrabUngrab.
From S2P Require Import GrabSubtract.

Section Add.
Context `{GrabEnv} (al : allocator).

(** ** Comparing *)

(** What keeps the client of [g] from having it: a grab of another client of
    the same kind that meets it. *)
Definition in_conflict (g g' : GrabRec) : Prop :=
  owner g' <> owner g /\ concerns g g' (bool_decide (grabtype g = CORE)) = true /\
  meets AnyKey (detail g') (detail g) /\ meets (any_modifier g) (modifiersDetail g') (modifiersDetail g).
Definition conflict (st : GrabState) (g : GrabRec) (l : list Z) : Prop :=
  exists x g', x ∈ l /\ grabs st !! x = Some g' /\ in_conflict g g'.
(** The grabs of a list are there. *)
Definition all_good (st : GrabState) (l : list Z) : Prop := forall x, x ∈ l -> exists g, grabs st !! x = Some g /\ grab_ok g.

Lemma foreign_grab_ok st g l :
  grab_ok g -> plain_grab g -> all_good st l ->
  exists b, foreign_grab st g l = Ret b /\ (b = true <-> conflict st g l).
Proof.
  intros Hg [P1 P2]. induction l as [|x l IH]; intros Hl; cbn [foreign_grab].
  - exists false. split; [done|]. split; [done|]. by intros (x & g' & ?%not_elem_of_nil & _).
  - destruct (Hl x) as (g' & Hx & Hg'); [by left|]. rewrite Hx. cbn [obind_opt]. rewrite GrabMatchesSecond_spec by done. cbn [obind].
    destruct IH as (b & E & Hb). { intros y Hy. apply Hl. by right. }
    set (i := bool_decide (grabtype g = CORE)).
    assert (Hiff : concerns g g' i && (supersedes AnyKey (detail g) (detail g') || supersedes AnyKey (detail g') (detail g)) &&
      (supersedes (any_modifier g) (modifiersDetail g) (modifiersDetail g') || supersedes (any_modifier g) (modifiersDetail g') (modifiersDetail g)) &&
      negb (owner g =? owner g') = true <-> in_conflict g g').
    { unfold in_conflict. fold i. rewrite !andb_true_iff, negb_true_iff, Z.eqb_neq.
      destruct (concerns g g' i) eqn:Ec; [|split; [by intros [[[? _] _] _]|intros (_ & ? & _); done]]. destruct (concerns_level _ _ _ Ec) as [_ Em].
      rewrite (orb_comm (supersedes AnyKey (detail g) _)), (orb_comm (supersedes (any_modifier g) (modifiersDetail g) _)).
      rewrite <- (meets_spec AnyKey (detail g') (detail g) (go_detail _ Hg') P1).
      rewrite <- (meets_spec (any_modifier g) (modifiersDetail g') (modifiersDetail g)); [|rewrite Em; apply Hg'|done]. split;
        [intros [[[_ ?] ?] ?]|intros (? & _ & ? & ?)]; split_and!; try done; congruence. }
    destruct (_ && negb (owner g =? owner g')) eqn:Eb.
    + exists true. split; [done|]. split; [|done]. intros _. exists x, g'. split; [by left|]. split; [done|]. by apply Hiff.
    + exists b. split; [done|]. rewrite Hb. split; intros (y & g2 & Hy & Hg2 & Hc); [exists y, g2; split; [by right|done]|].
      apply elem_of_cons in Hy as [->|Hy]; [|by exists y, g2]. rewrite Hx in Hg2. injection Hg2 as <-. apply Hiff in Hc. congruence.
Qed.

(** Grabs that are the same but for their modes, masks and clients. *)
Record identical (g g' : GrabRec) : Prop := {
  id_type : grabtype g' = grabtype g;
  id_device : device g' = device g;
  id_modifierDevice : modifierDevice g' = modifierDevice g;
  id_event : type g' = type g;
  id_plain : plain_grab g';
  id_detail : exact (detail g') = exact (detail g);
  id_modifiers : exact (modifiersDetail g') = exact (modifiersDetail g)
}.
Lemma supersedes_both any p s : plain p -> supersedes any p s && supersedes any s p = true -> plain s /\ exact s = exact p \/ exact p <> any /\ exact s = exact p.
Proof.
  unfold plain, supersedes. intros ->. destruct (Z.eqb_spec (exact p) any) as [Ep|Ep]; cbn [andb].
  - destruct (Z.eqb_spec (exact s) any) as [Es|Es]; [|intros ?%Z.eqb_eq; congruence]. destruct (pMask s) as [k|]; [done|].
    intros _. left. split; [done|congruence].
  - intros [E%Z.eqb_eq _]%andb_true_iff. by right.
Qed.
Lemma same_detail any p s : detail_ok any s -> plain p -> supersedes any p s && supersedes any s p = true -> plain s /\ exact s = exact p.
Proof.
  intros [Hm _] Hp Hs. destruct (supersedes_both any p s Hp Hs) as [?|[Hne E]]; [done|]. split; [|done]. unfold plain.
  destruct (pMask s) as [k|] eqn:Ek; [|done]. destruct (Hm k eq_refl). congruence.
Qed.
Lemma GrabsAreIdentical_ok g g' :
  grab_ok g -> plain_grab g -> grab_ok g' -> exists b, GrabsAreIdentical g g' = Ret b /\ (b = true -> identical g g').
Proof.
  intros [G1 G2] [P1 P2] [K1 K2]. unfold GrabsAreIdentical. case_bool_decide as Et; cbn [negb]; [|by exists false].
  destruct (Z.eqb_spec (device g) (device g')), (Z.eqb_spec (modifierDevice g) (modifierDevice g')), (Z.eqb_spec (type g) (type g'));
    cbn [negb orb]; try by exists false.
  assert (Em : any_modifier g' = any_modifier g) by (unfold any_modifier; by rewrite Et). rewrite Em in K2.
  rewrite !DetailSupersedesSecond_spec by done. unfold andO. cbn [obind].
  exists (supersedes AnyKey (detail g) (detail g') && supersedes AnyKey (detail g') (detail g) &&
    (supersedes (any_modifier g) (modifiersDetail g) (modifiersDetail g') && supersedes (any_modifier g) (modifiersDetail g') (modifiersDetail g))).
  split.
  { destruct (supersedes AnyKey (detail g) (detail g')), (supersedes AnyKey (detail g') (detail g)),
      (supersedes (any_modifier g) (modifiersDetail g) (modifiersDetail g')), (supersedes (any_modifier g) (modifiersDetail g') (modifiersDetail g)); done. }
  intros [E1 E2]%andb_true_iff. destruct (same_detail _ _ _ K1 P1 E1) as [? ?], (same_detail _ _ _ K2 P2 E2) as [? ?]. by split.
Qed.

(** Identical grabs of one client take the same. *)
Lemma identical_takes g g' e d md : identical g g' -> plain_grab g -> owner g' = owner g -> takes g' e d md <-> takes g e d md.
Proof.
  intros [I1 I2 I3 I4 [Q1 Q2] I6 I7] [P1 P2] Ho. unfold takes, concerns, same_devices, hits, in_detail, any_modifier.
  by rewrite Ho, I1, I2, I3, I4, I6, I7, P1, P2, Q1, Q2.
Qed.
(** An identical grab of another client is in conflict. *)
Lemma identical_conflict g g' : identical g g' -> plain_grab g -> owner g' <> owner g -> in_conflict g g'.
Proof.
  intros [I1 I2 I3 I4 [Q1 Q2] I6 I7] [P1 P2] Ho. split; [done|]. split.
  - unfold concerns, same_devices. rewrite I1, I2, I3, I4, !Z.eqb_refl, (bool_decide_true (grabtype g = grabtype g)) by done. cbn [andb negb orb].
    rewrite !andb_true_r, !andb_false_r. case_bool_decide; [|done].
    destruct (device g =? all_devices); [done|]. cbn [orb]. by destruct (device g =? all_master_devices).
  - unfold meets, in_detail. rewrite I6, I7, Q1, Q2. split.
    + destruct (Z.eqb_spec (exact (detail g)) AnyKey); [by left|by right].
    + destruct (Z.eqb_spec (exact (modifiersDetail g)) (any_modifier g)); [by left|by right].
Qed.
Lemma identical_action g g' a : identical g g' -> plain_grab g -> owner g' = owner g -> action_of a g' = action_of a g.
Proof.
  intros [I1 I2 I3 I4 [Q1 Q2] I6 I7] [P1 P2] Ho. unfold action_of, concerns, same_devices, supersedes.
  by rewrite Ho, I1, I2, I3, I4, I6, I7, P1, P2, Q1, Q2.
Qed.

(** ** Adding *)

(** From [st] to [st'] only combinations that [g] takes are lost, if any. *)
Definition only_loses (st st' : GrabState) (g : GrabRec) : Prop :=
  forall w e d md, ranged d -> ranged md ->
    (granted st' w e d md -> granted st w e d md) /\
    (granted st w e d md -> ~ (w = window g /\ takes g e d md) -> granted st' w e d md).
Lemma only_loses_refl st g : only_loses st st g.
Proof. by intros w e d md _ _. Qed.
(** The same grabs in the same lists. *)
Definition same_lists (st st' : GrabState) : Prop :=
  forall w x, (exists W, windows st' !! w = Some W /\ x ∈ passiveGrabs W) <-> (exists W, windows st !! w = Some W /\ x ∈ passiveGrabs W).
Lemma same_granted st st' : same_lists st st' -> (forall x, ~ unlisted st x -> grabs st' !! x = grabs st !! x) ->
  forall w e d md, granted st' w e d md <-> granted st w e d md.
Proof.
  intros Hl Hg w e d md. split; intros (W & x & g & HW & Hx & Hgx & Hrest).
  - destruct (proj1 (Hl w x)) as (W0 & HW0 & Hx0); [by exists W|]. rewrite Hg in Hgx by (intros Hu; by apply (Hu w W0 HW0)).
    by exists W0, x, g.
  - assert (Hu : ~ unlisted st x) by (intros Hu; by apply (Hu w W HW)). destruct (proj2 (Hl w x)) as (W0 & HW0 & Hx0); [by exists W|].
    exists W0, x, g. by rewrite Hg.
Qed.

Lemma delete_identical_ok st g W l :
  grabs_ok st -> grab_ok g -> plain_grab g -> windows st !! window g = Some W -> no_xi2_split st g W ->
  (forall x, x ∈ l -> x ∈ passiveGrabs W) -> ~ conflict st g (passiveGrabs W) ->
  exists st', delete_identical al st g l = Ret st' /\ grabs_ok st' /\ kept st st' /\ only_loses st st' g.
Proof.
  intros Hok Hg Hp HW Hx2 Hl Hc. induction l as [|x l IH]; cbn [delete_identical].
  - exists st. split; [done|]. split; [done|]. split; [apply same_kept, same_refl|apply only_loses_refl].
  - destruct (ok_list _ Hok _ _ HW) as (_ & _ & Hlist). destruct (Hlist x) as (g' & Hx & Hw & Hg' & _); [apply Hl; by left|].
    rewrite Hx. cbn [obind_opt]. destruct (GrabsAreIdentical_ok g g' Hg Hp Hg') as (b & -> & Hb). cbn [obind].
    destruct b; [|apply IH; intros y Hy; apply Hl; by right]. specialize (Hb eq_refl).
    assert (Ho : owner g' = owner g).
    { destruct (Z.eq_dec (owner g') (owner g)) as [|Hne]; [done|]. destruct Hc. exists x, g'. split; [apply Hl; by left|]. split; [done|].
      by apply identical_conflict. }
    destruct (DeletePassiveGrabFromList_spec al st x g' W Hok Hx Hg' (id_plain _ _ Hb)) as (b & st' & -> & Hok' & Hk & Hf & Ht).
    { by rewrite Hw. }
    { intros y a Hy Ha d md Hsp. rewrite (identical_action g g') in Hsp by done. by apply (Hx2 y a Hy Ha d md). }
    cbn [obind]. exists st'. split; [done|]. split; [done|]. split; [done|]. intros w e d md Hd Hmd. destruct b.
    + rewrite (Ht eq_refl w e d md Hd Hmd), Hw, (identical_takes g g' e d md Hb Hp Ho). tauto.
    + destruct (Hf eq_refl) as [_ (k & i & _ & ->)]. done.
Qed.

(** A grab in no list is freed. *)
Lemma FreeGrab_unlisted st x g :
  grabs_ok st -> grabs st !! x = Some g -> unlisted st x ->
  exists st', FreeGrab st x = Ret st' /\ freed st st' x /\ grabs_ok st' /\ forall w e d md, granted st' w e d md <-> granted st w e d md.
Proof.
  intros Hok Hx Hu. destruct (FreeGrab_ok st x g (ok_cursors _ Hok) Hx) as (st' & E & Hf). pose proof Hf as [F1 F2 F3 F4 F5 F6].
  exists st'. split; [done|]. split; [done|]. split.
  - split; [|rewrite F3; intros r y Hr|done].
    + intros w W. rewrite F2. intros HW. destruct (ok_list _ Hok w W HW) as (Hnd & Ho & Hl). split; [done|]. split; [done|]. intros y Hy.
      rewrite F1, F3. rewrite lookup_delete_ne; [by apply Hl|]. intros <-. by apply (Hu w W).
    + destruct (ok_res _ Hok r y Hr) as (n & W & Hn & ? & HW & Hin). exists n, W. rewrite F1, F2, lookup_delete_ne; [done|].
      intros <-. by apply (Hu _ _ HW).
  - apply same_granted; [intros w y; by rewrite F2|]. intros y Hy. rewrite F1, lookup_delete_ne; [done|]. by intros <-.
Qed.

(** The same lists in windows with or without an optional record. *)
Record relisted (st st' : GrabState) : Prop := {
  re_grabs : grabs st' = grabs st;
  re_resources : resources st' = resources st;
  re_cursors : cursors st' = cursors st;
  re_lists : forall v, passiveGrabs <$> windows st' !! v = passiveGrabs <$> windows st !! v;
  re_optional : forall v W, windows st' !! v = Some W -> passiveGrabs W <> [] -> optional W = true
}.
Lemma relisted_lists st st' : relisted st st' -> same_lists st st'.
Proof.
  intros [_ _ _ Hl _] w x. specialize (Hl w). destruct (windows st' !! w) as [W'|] eqn:E', (windows st !! w) as [W|] eqn:E; cbn in Hl; try done.
  injection Hl as El. split; intros (W0 & E0 & Hx); [exists W|exists W']; split; congruence.
Qed.
Lemma relisted_unlisted st st' x : relisted st st' -> unlisted st x -> unlisted st' x.
Proof. intros Hr Hu w W HW Hin. destruct (proj1 (relisted_lists _ _ Hr w x)) as (W0 & HW0 & Hin0); [by exists W|]. by apply (Hu w W0). Qed.
Lemma relisted_ok st st' : grabs_ok st -> relisted st st' -> grabs_ok st'.
Proof.
  intros Hok Hre. pose proof (relisted_lists _ _ Hre) as Hl. destruct Hre as [R1 R2 R3 R4 R5]. split.
  - intros w W HW. specialize (R4 w). rewrite HW in R4. destruct (windows st !! w) as [W0|] eqn:E; [|done]. injection R4 as El.
    destruct (ok_list _ Hok w W0 E) as (Hnd & _ & Hin). rewrite El. split; [done|]. split; [rewrite <- El; by apply (R5 w)|].
    rewrite R1, R2. exact Hin.
  - intros r x. rewrite R2. intros Hr. destruct (ok_res _ Hok r x Hr) as (g & W & Hg & ? & HW & Hin).
    destruct (proj2 (Hl (window g) x)) as (W' & HW' & Hin'); [by exists W|]. exists g, W'. by rewrite R1.
  - destruct (ok_cursors _ Hok) as [C1 C2]. split; [by rewrite R3|]. intros c. specialize (C2 c). unfold spare, count in *. by rewrite R1, R3.
Qed.

Lemma MakeWindowOptional_ok st w W :
  grabs_ok st -> windows st !! w = Some W ->
  exists b st', MakeWindowOptional al st w = Ret (b, st') /\ relisted st st' /\
    if b then exists W', windows st' !! w = Some W' /\ optional W' = true else failure al.
Proof.
  intros Hok HW. assert (Hall : forall v W', windows st !! v = Some W' -> passiveGrabs W' <> [] -> optional W' = true).
  { intros v W' HW'. by destruct (ok_list _ Hok v W' HW') as (_ & ? & _). }
  unfold MakeWindowOptional, calloc. rewrite HW. cbn [obind_opt]. destruct (optional W) eqn:Eo.
  { exists true, st. split; [done|]. split; [by split|by exists W]. }
  destruct (al (allocs st) 136) eqn:Ea.
  - eexists true, _. split; [reflexivity|]. split; [|eexists; split; [cbn; apply lookup_insert_eq|done]].
    assert (El : passiveGrabs W = []).
    { destruct (passiveGrabs W) eqn:E; [done|]. exfalso. assert (optional W = true); [|congruence]. apply (Hall w W HW). congruence. }
    split; try done; cbn; intros v.
    + destruct (Z.eq_dec v w) as [->|Hne]; [by rewrite lookup_insert_eq, HW; cbn; rewrite El|by rewrite lookup_insert_ne].
    + intros W'. destruct (Z.eq_dec v w) as [->|Hne]; [rewrite lookup_insert_eq; by intros [= <-]|rewrite lookup_insert_ne by done; apply Hall].
  - eexists false, _. split; [reflexivity|]. split; [|by eexists _, _]. by split.
Qed.

(** The grab is put first. *)
Definition put_first (st : GrabState) (x : Z) (g : GrabRec) (W : WinRec) : GrabState :=
  st <| windows ::= <[window g := W <| passiveGrabs ::= cons x |>]> |>.
Definition new_grant (g : GrabRec) (w : Z) (e : GrabRec) (d md : Z) : Prop := w = window g /\ e = effect g /\ hits g d md.

Lemma put_first_ok st x g W k :
  grabs_ok st -> grabs st !! x = Some g -> unlisted st x -> grab_ok g -> created g -> windows st !! window g = Some W -> optional W = true ->
  resources st !! resource g = None ->
  let st' := put_first st x g W <| allocs := k |> <| resources ::= <[resource g := x]> |> in
  grabs_ok st' /\ forall w e d md, granted st' w e d md <-> granted st w e d md \/ new_grant g w e d md.
Proof.
  intros Hok Hx Hu Hg Hc HW Ho Hr st'.
  assert (HW' : windows st' !! window g = Some (W <| passiveGrabs ::= cons x |>)) by apply lookup_insert_eq.
  assert (Hw : forall v, v <> window g -> windows st' !! v = windows st !! v) by (intros v Hv; by apply lookup_insert_ne).
  assert (Hres : forall r y, resources st !! r = Some y -> resources st' !! r = Some y).
  { intros r y Hy. subst st'. cbn. rewrite lookup_insert_ne; [done|]. intros <-. congruence. }
  split; [split|].
  - intros w W0. destruct (Z.eq_dec w (window g)) as [->|Hne].
    + rewrite HW'. intros [= <-]. destruct (ok_list _ Hok _ _ HW) as (Hnd & _ & Hl). cbn. split; [apply NoDup_cons; split; [by apply (Hu _ _ HW)|done]|].
      split; [done|]. intros y [->|Hy]%elem_of_cons.
      * exists g. split_and!; try done. apply lookup_insert_eq.
      * destruct (Hl y Hy) as (n & ? & ? & ? & ? & ?). exists n. split_and!; try done. by apply Hres.
    + rewrite Hw by done. intros HW0. destruct (ok_list _ Hok w W0 HW0) as (Hnd & ? & Hl). split; [done|]. split; [done|].
      intros y Hy. destruct (Hl y Hy) as (n & ? & ? & ? & ? & ?). exists n. split_and!; try done. by apply Hres.
  - intros r y Hy. change (resources st') with (<[resource g := x]> (resources st)) in Hy. apply lookup_insert_Some in Hy as [[<- <-]|[_ Hy]].
    + exists g, (W <| passiveGrabs ::= cons x |>). split_and!; try done. by left.
    + destruct (ok_res _ Hok r y Hy) as (n & W0 & Hn & ? & HW0 & Hin). destruct (Z.eq_dec (window n) (window g)) as [E|Hne].
      * exists n, (W <| passiveGrabs ::= cons x |>). rewrite E. split_and!; try done. right. rewrite E, HW in HW0. by injection HW0 as <-.
      * exists n, W0. by rewrite Hw.
  - by destruct (ok_cursors _ Hok).
  - intros w e d md. split.
    + intros (W0 & y & n & HW0 & Hy & Hn & He & Hh). destruct (Z.eq_dec w (window g)) as [->|Hne].
      * rewrite HW' in HW0. injection HW0 as <-. cbn in Hy. apply elem_of_cons in Hy as [->|Hy]; [|left; by exists W, y, n].
        change (grabs st') with (grabs st) in Hn. rewrite Hx in Hn. injection Hn as <-. right. by split.
      * rewrite Hw in HW0 by done. left. by exists W0, y, n.
    + intros [(W0 & y & n & HW0 & Hy & Hrest)|(-> & -> & Hh)].
      * destruct (Z.eq_dec w (window g)) as [->|Hne]; [|exists W0, y, n; by rewrite Hw].
        rewrite HW in HW0. injection HW0 as <-. exists (W <| passiveGrabs ::= cons x |>), y, n. split; [done|]. split; [by right|done].
      * exists (W <| passiveGrabs ::= cons x |>), x, g. split; [done|]. split; [by left|done].
Qed.

Lemma DeletePassiveGrab_first st x g W :
  grabs_ok st -> grabs st !! x = Some g -> unlisted st x -> windows st !! window g = Some W -> optional W = true ->
  exists st4, DeletePassiveGrab (put_first st x g W <| allocs ::= S |>) x = FreeGrab st4 x /\ relisted st st4.
Proof.
  intros Hok Hx Hu HW Ho. unfold DeletePassiveGrab. set (st3 := put_first st x g W <| allocs ::= S |>).
  change (grabs st3) with (grabs st). rewrite Hx. cbn [obind_opt]. unfold wPassiveGrabs.
  assert (HW3 : windows st3 !! window g = Some (W <| passiveGrabs ::= cons x |>)) by apply lookup_insert_eq.
  rewrite HW3. cbn [obind_opt obind]. change (optional (W <| passiveGrabs ::= cons x |>)) with (optional W). rewrite Ho.
  change (passiveGrabs (W <| passiveGrabs ::= cons x |>)) with (x :: passiveGrabs W). cbn [obind]. rewrite bool_decide_true by by left.
  rewrite filter_cons_False, filter_keep by (try (by intros ?); intros y Hy ->; by apply (Hu _ _ HW)).
  eexists. split; [reflexivity|]. set (W4 := if bool_decide _ then _ else _).
  assert (E4 : passiveGrabs W4 = passiveGrabs W /\ (passiveGrabs W <> [] -> optional W4 = true)).
  { subst W4. unfold CheckWindowOptionalNeed. case_bool_decide; cbn; [|by split]. rewrite bool_decide_true by done.
    by destruct (negb (other_need W)). }
  destruct E4 as [E4 E5]. split; try done; cbn; intros v; (destruct (Z.eq_dec v (window g)) as [->|Hne];
    [rewrite lookup_insert_eq|rewrite lookup_insert_ne by done; unfold st3, put_first; cbn; rewrite lookup_insert_ne by done]).
  - rewrite HW. cbn. by rewrite E4.
  - done.
  - intros W' [= <-]. rewrite E4. exact E5.
  - intros W' HW'. by destruct (ok_list _ Hok v W' HW') as (_ & ? & _).
Qed.

(** What the access hook answers to [client]. *)
Definition access (client : Z) (g : GrabRec) : Z :=
  dixCallDeviceAccessCallback client (device g)
    (if (keyboardMode g =? GrabModeSync) || (pointerMode g =? GrabModeSync) then Z.lor DixGrabAccess DixFreezeAccess else DixGrabAccess).

(** The windows are there, and the references to cursors that are not those of
    grabs are as many as before. *)
Record framed (st st' : GrabState) : Prop := {
  fm_windows : forall v W, windows st !! v = Some W -> exists W', windows st' !! v = Some W';
  fm_spare : forall c, spare st' c = spare st c
}.
Lemma framed_trans st1 st2 st3 : framed st1 st2 -> framed st2 st3 -> framed st1 st3.
Proof.
  intros [W1 S1] [W2 S2]. split; [|intros c; by rewrite S2]. intros v W HW. destruct (W1 v W HW) as [W' HW']. by apply (W2 v W').
Qed.
Lemma kept_framed st st' : kept st st' -> framed st st'.
Proof. intros [_ ? _ ?]. by split. Qed.
Lemma freed_framed st st' x : freed st st' x -> framed st st'.
Proof. intros [_ Ew _ _ _ Es]. split; [|done]. intros v W HW. exists W. by rewrite Ew. Qed.
Lemma relisted_framed st st' : relisted st st' -> framed st st'.
Proof.
  intros [Eg _ Ec Hl _]. split; [|intros c; unfold spare, count; by rewrite Eg, Ec]. intros v W HW. specialize (Hl v). rewrite HW in Hl.
  destruct (windows st' !! v) as [W'|]; [by exists W'|done].
Qed.
Lemma put_first_framed st x g W k r : framed st (put_first st x g W <| allocs := k |> <| resources ::= r |>).
Proof.
  split; [|done]. intros v W0 HW0. cbn. destruct (Z.eq_dec v (window g)) as [->|Hne]; [rewrite lookup_insert_eq; by eexists|].
  rewrite lookup_insert_ne by done. by exists W0.
Qed.

Lemma AddPassiveGrabToList_spec st client x g W :
  grabs_ok st -> grabs st !! x = Some g -> unlisted st x -> grab_ok g -> plain_grab g -> created g -> windows st !! window g = Some W ->
  resource g ∈ issued st -> resources st !! resource g = None -> no_xi2_split st g W ->
  exists rc st', AddPassiveGrabToList al st client x = Ret (rc, st') /\ grabs_ok st' /\ framed st st' /\
    ((conflict st g (passiveGrabs W) /\ rc = BadAccess /\ freed st st' x) \/
     (~ conflict st g (passiveGrabs W) /\
       ((access client g <> Success /\ rc = access client g /\ st' = st) \/
        (access client g = Success /\ rc = Success /\
          (exists W' l, windows st' !! window g = Some W' /\ passiveGrabs W' = x :: l) /\ grabs st' !! x = Some g /\
          forall w e d md, ranged d -> ranged md ->
            (granted st' w e d md -> granted st w e d md \/ new_grant g w e d md) /\
            (granted st w e d md -> ~ (w = window g /\ takes g e d md) -> granted st' w e d md) /\
            (new_grant g w e d md -> granted st' w e d md)) \/
        (access client g = Success /\ rc = BadAlloc /\ failure al /\ grabs st' !! x = None /\ only_loses st st' g)))).
Proof.
  intros Hok Hx Hu Hg Hp Hc HW Hi Hr Hx2. unfold AddPassiveGrabToList. rewrite Hx. cbn [obind_opt]. unfold wPassiveGrabs. rewrite HW.
  cbn [obind_opt obind]. destruct (ok_list _ Hok _ _ HW) as (_ & Hopt & Hl).
  assert (El : (if optional W then passiveGrabs W else []) = passiveGrabs W).
  { destruct (passiveGrabs W); [by destruct (optional W)|]. by rewrite Hopt. }
  rewrite El. destruct (foreign_grab_ok st g (passiveGrabs W) Hg Hp) as (b & -> & Hb).
  { intros y Hy. destruct (Hl y Hy) as (n & ? & _ & ? & _). by exists n. }
  cbn [obind]. destruct b.
  { destruct (FreeGrab_unlisted st x g Hok Hx Hu) as (st' & -> & Hf & Hok' & _). cbn [obind]. exists BadAccess, st'. split; [done|].
    split; [done|]. split; [by apply (freed_framed _ _ x)|]. left. split; [by apply Hb|done]. }
  assert (Hnc : ~ conflict st g (passiveGrabs W)) by (intros Hcf; by apply Hb in Hcf). clear Hb.
  fold (access client g). destruct (Z.eqb_spec (access client g) Success) as [Ea|Ea]; cbn [negb].
  2: { exists (access client g), st. split; [done|]. split; [done|]. split; [by split; [intros v W' HW'; exists W'|]|]. right. split; [done|]. by left. }
  destruct (delete_identical_ok st g W (passiveGrabs W) Hok Hg Hp HW Hx2) as (st1 & -> & Hok1 & Hk & Hlose); [done|done|].
  cbn [obind]. destruct (ke_cells _ _ Hk x g Hx Hu) as [Hx1 Hu1]. destruct (ke_windows _ _ Hk _ _ HW) as [W1 HW1].
  pose proof (ke_ids _ _ Hk _ Hi Hr) as Hr1.
  destruct (MakeWindowOptional_ok st1 (window g) W1 Hok1 HW1) as (b & st2 & -> & Hre & Hmade). cbn [obind].
  pose proof (relisted_ok _ _ Hok1 Hre) as Hok2. pose proof (relisted_unlisted _ _ x Hre Hu1) as Hu2.
  assert (Hx2' : grabs st2 !! x = Some g) by (by rewrite (re_grabs _ _ Hre)).
  assert (Hgr2 : forall w e d md, granted st2 w e d md <-> granted st1 w e d md).
  { apply same_granted; [by apply relisted_lists|]. intros y _. by rewrite (re_grabs _ _ Hre). }
  pose proof (framed_trans _ _ _ (kept_framed _ _ Hk) (relisted_framed _ _ Hre)) as Hfr2.
  assert (Hfree : forall st4, relisted st2 st4 -> failure al -> exists st', FreeGrab st4 x = Ret st' /\ grabs_ok st' /\ framed st st' /\
    grabs st' !! x = None /\ only_loses st st' g).
  { intros st4 Hre4 _. assert (Hx4 : grabs st4 !! x = Some g) by (by rewrite (re_grabs _ _ Hre4)).
    destruct (FreeGrab_unlisted st4 x g (relisted_ok _ _ Hok2 Hre4) Hx4 (relisted_unlisted _ _ x Hre4 Hu2)) as (st' & E & Hf & Hok' & Hgr').
    exists st'. split; [done|]. split; [done|].
    split; [by apply (framed_trans _ _ _ Hfr2), (framed_trans _ st4); [apply relisted_framed|apply (freed_framed _ _ x)]|]. split; [rewrite (fr_grabs _ _ _ Hf); apply lookup_delete_eq|].
    intros w e d md Hd Hmd. rewrite Hgr'. rewrite (same_granted st2 st4); [|by apply relisted_lists|by intros y _; rewrite (re_grabs _ _ Hre4)].
    rewrite Hgr2. by apply Hlose. }
  assert (Hre2 : relisted st2 st2).
  { split; try done. intros v W' HW'. by destruct (ok_list _ Hok2 v W' HW') as (_ & ? & _). }
  destruct b; cbn [negb].
  2: { destruct (Hfree st2 Hre2 Hmade) as (st' & -> & Hok' & Hfr' & Hx' & Hl'). cbn [obind]. exists BadAlloc, st'. split; [done|]. split; [done|].
       split; [done|]. right. split; [done|]. right. right. done. }
  destruct Hmade as (W2 & HW2 & Ho2). rewrite HW2. cbn [obind_opt]. fold (put_first st2 x g W2). unfold AddResource, calloc.
  destruct (al (allocs (put_first st2 x g W2)) 32) eqn:Eal; cbn [obind].
  - set (k := S (allocs (put_first st2 x g W2))).
    destruct (put_first_ok st2 x g W2 k Hok2 Hx2' Hu2 Hg Hc HW2 Ho2) as [Hok3 Hgr3]; [by rewrite (re_resources _ _ Hre)|].
    eexists Success, _. split; [reflexivity|]. split; [exact Hok3|]. split; [exact (framed_trans _ _ _ Hfr2 (put_first_framed st2 x g W2 _ _))|]. right. split; [done|]. right. left. split_and!; try done.
    + exists (W2 <| passiveGrabs ::= cons x |>), (passiveGrabs W2). split; [apply lookup_insert_eq|done].
    + intros w e d md Hd Hmd. rewrite (Hgr3 w e d md), Hgr2. destruct (Hlose w e d md Hd Hmd) as [? ?]. tauto.
  - destruct (DeletePassiveGrab_first st2 x g W2 Hok2 Hx2' Hu2 HW2 Ho2) as (st4 & E4 & Hre4).
    rewrite E4. destruct (Hfree st4 Hre4) as (st' & -> & Hok' & Hfr' & Hx' & Hl'); [by eexists _, _|]. cbn [obind].
    exists BadAlloc, st'. split; [done|]. split; [done|]. split; [done|]. right. split; [done|]. right. right. split_and!; try done. by eexists _, _.
Qed.
End Add.
