(* ===== verification/GrabRequest.v ===== *)
(** * GrabRequest: the requests that set and remove passive grabs

    [GrabKey], [UngrabKey], [GrabButton] and [UngrabButton] of [dix/events.c],
    the functions of [Xi/exevents.c] that do it for the input extension, and
    [ProcXIPassiveUngrabDevice] of [Xi/xipassivegrab.c].  A handler gives the status, the value that is reported with an
    error, and the state. *)

From S2P Require Import Prelude.
From S2P Require Import Resource.
From S2P Require Import DixUtils.
From S2P Require Import Grabs.
From S2P Require Import GrabSets.
From S2P Require Import GrabHeap.
From S2P Require Import GrabAction.
From S2P Require Import GrabDelete.
From S2P Require Import GrabPlan.
From S2P Require Import GrabScan.
From S2P Require Import GrabUngrab.
From S2P Require Import GrabSubtract.
From S2P Require Import GrabAdd.

(** ** What the requests use *)

Definition DixSetAttrAccess : Z := Z.shiftl 1 5.
Definition DixForceAccess : Z := Z.shiftl 1 19.
Definition BadImplementation : Z := 17.
Definition DeviceKeyPress (XIEventBase : Z) : Z := XIEventBase + 1.
Definition DeviceButtonPress (XIEventBase : Z) : Z := XIEventBase + 3.
Definition XI_Enter : Z := 7.
Definition XI_FocusIn : Z := 9.
Definition XI_TouchBegin : Z := 18.
Definition XI_GesturePinchBegin : Z := 27.
Definition XI_GestureSwipeBegin : Z := 30.
Definition XIGrabtypeButton : Z := 0.
Definition XIGrabtypeKeycode : Z := 1.
Definition XIGrabtypeEnter : Z := 2.
Definition XIGrabtypeFocusIn : Z := 3.
Definition XIGrabtypeTouchBegin : Z := 4.
Definition XIGrabtypeGesturePinchBegin : Z := 5.
Definition XIGrabtypeGestureSwipeBegin : Z := 6.
Definition XIAllDevices : Z := 0.
Definition XIAllMasterDevices : Z := 1.

(** [dix/events.c: PointerGrabMask 171-182] *)
Definition PointerGrabMask : Z := 0x7ffc.

(** The rest of the parameters of a grab: what level, and the ids of the window
    to confine to and of the cursor. *)
Record GrabRequest := MkGR { g_param : GrabParameters; g_grabtype : option InputLevel; g_window : Z; g_confineTo : Z; g_cursor : Z }.

(** The devices of a client, the master keyboard of a device, the smallest and
    the largest key code of a device that has keys, the lookups of cursors and
    devices, and which devices float. *)
Class GrabDevices := {
  PickKeyboard : Z -> Z;
  PickPointer : Z -> Z;
  master_keyboard : Z -> Z;
  key_codes : Z -> option (Z * Z);
  lookup_cursor : Z -> Z -> Z * Z;
  lookup_device : Z -> Z -> Z * Z;
  InputDevIsFloating : Z -> bool;
  XIEventBase : Z
}.

(** Status, value of the error, state. *)
Definition result : Type := outcome (Z * option Z * GrabState).

Section Requests.
Context `{GrabEnv} `{WindowLookup} `{GrabDevices} (al : allocator).
Implicit Types (st : GrabState).

Definition done_with (rc : Z) st : result := Ret (rc, None, st).
Definition bad_value (v : Z) st : result := Ret (BadValue, Some v, st).

(** [dix/dispatch.c: InitClient 3753-3753] *)
Definition clientAsMask (client : Z) : Z := Z.shiftl client (CLIENTOFFSET LimitClients).

Definition bad_mode (m : Z) : bool := negb (m =? GrabModeSync) && negb (m =? GrabModeAsync) && negb (m =? XIGrabModeTouch).
(** The status and the value that is wrong, if any.
    [Xi/exevents.c: CheckGrabValues] *)
Definition CheckGrabValues (grabtype_ : option InputLevel) (param : GrabParameters) : Z * option Z :=
  match grabtype_ with
  | None => (BadImplementation, None)
  | Some _ =>
      if bad_mode (this_device_mode param) then (BadValue, Some (this_device_mode param))
      else if bad_mode (other_devices_mode param) then (BadValue, Some (other_devices_mode param))
      else if negb (modifiers param =? AnyModifier) && negb (modifiers param =? XIAnyModifier)
              && negb (Z.land (modifiers param) (u32 (Z.lnot AllModifiersMask)) =? 0) then (BadValue, Some (modifiers param))
      else if negb (p_ownerEvents param =? 0) && negb (p_ownerEvents param =? 1) then (BadValue, Some (p_ownerEvents param))
      else (Success, None)
  end.

(** A key code that no key of the device can have. *)
Definition bad_key (key : Z) (codes : Z * Z) : bool := ((codes.2 <? key) || (key <? codes.1)) && negb (key =? AnyKey).
Definition bad_modifiers (m : Z) : bool := negb (m =? AnyModifier) && negb (Z.land m (u16 (Z.lnot AllModifiersMask)) =? 0).

(** The end of every handler that grabs. *)
Definition create_and_add st (client device_ modDevice window_ : Z) (level : InputLevel) (mask : GrabMask) (param : GrabParameters)
    (eventType keybut : Z) (confineTo_ cursor_ : option Z) : result :=
  '(grab, st) <-- CreateGrab al st client device_ modDevice window_ level mask param eventType keybut confineTo_ cursor_;
  match grab with
  | None => done_with BadAlloc st
  | Some grab => '(rc, st) <-- AddPassiveGrabToList al st client grab; done_with rc st
  end.

(** The end of the handlers that ungrab: a grab for the comparison is filled
    in, used and freed. *)
Definition ungrab_temp st (fill : GrabRec -> GrabRec) : result :=
  '(tempGrab, st) <-- AllocGrab al st None;
  match tempGrab with
  | None => done_with BadAlloc st
  | Some t =>
      g <-? grabs st !! t;
      '(ok, st) <-- DeletePassiveGrabFromList al (st <| grabs ::= <[t := fill g]> |>) t;
      st <-- FreeGrab st t;
      done_with (if ok : bool then Success else BadAlloc) st
  end.
Definition fill_temp (id device_ window_ : Z) (level : InputLevel) (type_ mods modDevice keybut : Z) (g : GrabRec) : GrabRec :=
  g <| resource := id |> <| device := device_ |> <| window := window_ |> <| grabtype := level |> <| type := type_ |>
    <| modifiersDetail := MkDetail mods None |> <| modifierDevice := modDevice |> <| detail := MkDetail keybut None |>.

(** ** Keys *)

Record xGrabKeyReq := { k_ownerEvents : Z; k_grabWindow : Z; k_modifiers : Z; k_key : Z; k_pointerMode : Z; k_keyboardMode : Z }.

(** [dix/events.c: ProcGrabKey] *)
Definition ProcGrabKey st (client : Z) (stuff : xGrabKeyReq) : result :=
  let keybd := PickKeyboard client in
  let param := MkParams (k_ownerEvents stuff) (k_keyboardMode stuff) (k_pointerMode stuff) (k_modifiers stuff) in
  let '(rc, bad) := CheckGrabValues (Some CORE) param in
  if negb (rc =? Success) then Ret (rc, bad, st)
  else
    codes <-? key_codes keybd;
    if bad_key (k_key stuff) codes then bad_value (k_key stuff) st
    else
      let rc := window_rc (k_grabWindow stuff) client DixSetAttrAccess in
      if negb (rc =? Success) then done_with rc st
      else
        create_and_add st client keybd keybd (k_grabWindow stuff) CORE (MaskCore (Z.lor KeyPressMask KeyReleaseMask)) param
          KeyPress (k_key stuff) None None.

Record xUngrabKeyReq := { u_key : Z; u_grabWindow : Z; u_modifiers : Z }.

(** [dix/events.c: ProcUngrabKey] *)
Definition ProcUngrabKey st (client : Z) (stuff : xUngrabKeyReq) : result :=
  let keybd := PickKeyboard client in
  let rc := window_rc (u_grabWindow stuff) client DixGetAttrAccess in
  if negb (rc =? Success) then done_with rc st
  else
    codes <-? key_codes keybd;
    if bad_key (u_key stuff) codes then bad_value (u_key stuff) st
    else if bad_modifiers (u_modifiers stuff) then bad_value (u_modifiers stuff) st
    else
      ungrab_temp st (fill_temp (clientAsMask client) keybd (u_grabWindow stuff) CORE KeyPress (u_modifiers stuff) keybd (u_key stuff)).

(** ** Buttons *)

Record xGrabButtonReq := {
  b_ownerEvents : Z; b_grabWindow : Z; b_eventMask : Z; b_pointerMode : Z; b_keyboardMode : Z;
  b_confineTo : Z; b_cursor : Z; b_button : Z; b_modifiers : Z }.

Definition core_mode_bad (m : Z) : bool := negb (m =? GrabModeSync) && negb (m =? GrabModeAsync).

(** [dix/events.c: ProcGrabButton] *)
Definition ProcGrabButton st (client : Z) (stuff : xGrabButtonReq) : result :=
  if core_mode_bad (b_pointerMode stuff) then bad_value (b_pointerMode stuff) st
  else if core_mode_bad (b_keyboardMode stuff) then bad_value (b_keyboardMode stuff) st
  else if bad_modifiers (b_modifiers stuff) then bad_value (b_modifiers stuff) st
  else if negb (b_ownerEvents stuff =? 0) && negb (b_ownerEvents stuff =? 1) then bad_value (b_ownerEvents stuff) st
  else if negb (Z.land (b_eventMask stuff) (u16 (Z.lnot PointerGrabMask)) =? 0) then bad_value (b_eventMask stuff) st
  else
    let rc := window_rc (b_grabWindow stuff) client DixSetAttrAccess in
    if negb (rc =? Success) then done_with rc st
    else
      let rc := if b_confineTo stuff =? 0 then Success else window_rc (b_confineTo stuff) client DixSetAttrAccess in
      if negb (rc =? Success) then done_with rc st
      else
        let confineTo_ := if b_confineTo stuff =? 0 then None else Some (b_confineTo stuff) in
        let '(rc, cur) := if b_cursor stuff =? 0 then (Success, 0) else lookup_cursor (b_cursor stuff) client in
        if negb (rc =? Success) then Ret (rc, Some (b_cursor stuff), st)
        else
          let cursor_ := if b_cursor stuff =? 0 then None else Some cur in
          let access_mode := if b_cursor stuff =? 0 then DixGrabAccess else Z.lor DixGrabAccess DixForceAccess in
          let ptr := PickPointer client in
          let access_mode :=
            if (b_pointerMode stuff =? GrabModeSync) || (b_keyboardMode stuff =? GrabModeSync)
            then Z.lor access_mode DixFreezeAccess else access_mode in
          let rc := dixCallDeviceAccessCallback client ptr access_mode in
          if negb (rc =? Success) then done_with rc st
          else
            let param := MkParams (b_ownerEvents stuff) (b_keyboardMode stuff) (b_pointerMode stuff) (b_modifiers stuff) in
            create_and_add st client ptr (master_keyboard ptr) (b_grabWindow stuff) CORE (MaskCore (b_eventMask stuff)) param
              ButtonPress (b_button stuff) confineTo_ cursor_.

Record xUngrabButtonReq := { v_button : Z; v_grabWindow : Z; v_modifiers : Z }.

(** [dix/events.c: ProcUngrabButton] *)
Definition ProcUngrabButton st (client : Z) (stuff : xUngrabButtonReq) : result :=
  if bad_modifiers (v_modifiers stuff) then bad_value (v_modifiers stuff) st
  else
    let rc := window_rc (v_grabWindow stuff) client DixReadAccess in
    if negb (rc =? Success) then done_with rc st
    else
      let ptr := PickPointer client in
      ungrab_temp st (fill_temp (clientAsMask client) ptr (v_grabWindow stuff) CORE ButtonPress (v_modifiers stuff)
                        (master_keyboard ptr) (v_button stuff)).

(** ** The input extension *)

(** The cursor of the parameters, and what access it asks for. *)
Definition param_cursor (client : Z) (req : GrabRequest) : Z * option Z * Z :=
  if g_cursor req =? 0 then (Success, None, DixGrabAccess)
  else let '(rc, cur) := lookup_cursor (g_cursor req) client in (rc, Some cur, Z.lor DixGrabAccess DixForceAccess).
Definition frozen_access (req : GrabRequest) (access_mode : Z) : Z :=
  if (this_device_mode (g_param req) =? GrabModeSync) || (other_devices_mode (g_param req) =? GrabModeSync)
  then Z.lor access_mode DixFreezeAccess else access_mode.

(** [Xi/exevents.c: GrabButton] *)
Definition GrabButton st (client dev modifier_device button : Z) (req : GrabRequest) (grabtype_ : InputLevel) (mask : GrabMask) : result :=
  let '(rc, bad) := CheckGrabValues (g_grabtype req) (g_param req) in
  if negb (rc =? Success) then Ret (rc, bad, st)
  else
    let rc := if g_confineTo req =? 0 then Success else window_rc (g_confineTo req) client DixSetAttrAccess in
    if negb (rc =? Success) then done_with rc st
    else
      let confineTo_ := if g_confineTo req =? 0 then None else Some (g_confineTo req) in
      let '(rc, cursor_, access_mode) := param_cursor client req in
      if negb (rc =? Success) then Ret (rc, Some (g_cursor req), st)
      else
        let rc := dixCallDeviceAccessCallback client dev (frozen_access req access_mode) in
        if negb (rc =? Success) then done_with rc st
        else
          let rc := window_rc (g_window req) client DixSetAttrAccess in
          if negb (rc =? Success) then done_with rc st
          else
            let type_ := match grabtype_ with XI => DeviceButtonPress XIEventBase | XI2 => XI_ButtonPress | CORE => -1 end in
            create_and_add st client dev modifier_device (g_window req) grabtype_ mask (g_param req) type_ button confineTo_ cursor_.

(** [Xi/exevents.c: GrabKey] *)
Definition GrabKey st (client dev modifier_device key : Z) (req : GrabRequest) (grabtype_ : InputLevel) (mask : GrabMask) : result :=
  let '(rc, bad) := CheckGrabValues (g_grabtype req) (g_param req) in
  if negb (rc =? Success) then Ret (rc, bad, st)
  else if negb (dev =? all_devices) && negb (dev =? all_master_devices) && bool_decide (key_codes dev = None) then done_with BadMatch st
  else
    wrong <-- match grabtype_ with
              | XI => codes <-? key_codes dev; Ret (bad_key key codes)
              | _ => Ret false
              end;
    if wrong : bool then bad_value key st
    else
      let type_ := match grabtype_ with XI => DeviceKeyPress XIEventBase | XI2 => XI_KeyPress | CORE => -1 end in
      let rc := window_rc (g_window req) client DixSetAttrAccess in
      if negb (rc =? Success) then done_with rc st
      else
        let rc := dixCallDeviceAccessCallback client dev (frozen_access req DixGrabAccess) in
        if negb (rc =? Success) then done_with rc st
        else create_and_add st client dev modifier_device (g_window req) grabtype_ mask (g_param req) type_ key None None.

(** [Xi/exevents.c: GrabWindow] *)
Definition GrabWindow st (client dev type_ : Z) (req : GrabRequest) (mask : GrabMask) : result :=
  let '(rc, bad) := CheckGrabValues (g_grabtype req) (g_param req) in
  if negb (rc =? Success) then Ret (rc, bad, st)
  else
    let rc := window_rc (g_window req) client DixSetAttrAccess in
    if negb (rc =? Success) then done_with rc st
    else
      let '(rc, cursor_, access_mode) := param_cursor client req in
      if negb (rc =? Success) then Ret (rc, Some (g_cursor req), st)
      else
        let rc := dixCallDeviceAccessCallback client dev (frozen_access req access_mode) in
        if negb (rc =? Success) then done_with rc st
        else
          create_and_add st client dev dev (g_window req) XI2 mask (g_param req)
            (if type_ =? XIGrabtypeEnter then XI_Enter else XI_FocusIn) 0 None cursor_.

(** [Xi/exevents.c: GrabTouchOrGesture] *)
Definition GrabTouchOrGesture st (client dev mod_dev type_ : Z) (req : GrabRequest) (mask : GrabMask) : result :=
  let '(rc, bad) := CheckGrabValues (g_grabtype req) (g_param req) in
  if negb (rc =? Success) then Ret (rc, bad, st)
  else
    let rc := window_rc (g_window req) client DixSetAttrAccess in
    if negb (rc =? Success) then done_with rc st
    else
      let rc := dixCallDeviceAccessCallback client dev DixGrabAccess in
      if negb (rc =? Success) then done_with rc st
      else create_and_add st client dev mod_dev (g_window req) XI2 mask (g_param req) type_ 0 None None.

(** The modifiers of the request, which are not checked; that a grab could not
    be taken back is not reported.
    [Xi/xipassivegrab.c: ProcXIPassiveUngrabDevice 353-356] *)
Fixpoint ungrab_modifiers st (t : Z) (l : list Z) : outcome GrabState :=
  match l with
  | [] => Ret st
  | m :: l =>
      g <-? grabs st !! t;
      '(_, st) <-- DeletePassiveGrabFromList al (st <| grabs ::= <[t := g <| modifiersDetail ::= fun d => d <| exact := m |> |>]> |>) t;
      ungrab_modifiers st t l
  end.

Record xXIPassiveUngrabDeviceReq := {
  x_grab_window : Z; x_detail : Z; x_deviceid : Z; x_grab_type : Z; x_modifiers : list Z }.

(** The event of a type of grabs.
    [Xi/xipassivegrab.c: ProcXIPassiveUngrabDevice 323-345] *)
Definition grab_event (grab_type : Z) : Z :=
  if grab_type =? XIGrabtypeButton then XI_ButtonPress
  else if grab_type =? XIGrabtypeKeycode then XI_KeyPress
  else if grab_type =? XIGrabtypeEnter then XI_Enter
  else if grab_type =? XIGrabtypeFocusIn then XI_FocusIn
  else if grab_type =? XIGrabtypeTouchBegin then XI_TouchBegin
  else if grab_type =? XIGrabtypeGesturePinchBegin then XI_GesturePinchBegin
  else XI_GestureSwipeBegin.

(** After the length is checked and the request swapped.
    [Xi/xipassivegrab.c: ProcXIPassiveUngrabDevice] *)
Definition ProcXIPassiveUngrabDevice st (client : Z) (stuff : xXIPassiveUngrabDeviceReq) : result :=
  let '(rc, dev) :=
    if x_deviceid stuff =? XIAllDevices then (Success, all_devices)
    else if x_deviceid stuff =? XIAllMasterDevices then (Success, all_master_devices)
    else lookup_device (x_deviceid stuff) client in
  let t := x_grab_type stuff in
  if negb (rc =? Success) then done_with rc st
  else if (t <? XIGrabtypeButton) || (XIGrabtypeGestureSwipeBegin <? t) then bad_value t st
  else if ((t =? XIGrabtypeEnter) || (t =? XIGrabtypeFocusIn) || (t =? XIGrabtypeTouchBegin)) && negb (x_detail stuff =? 0)
  then bad_value (x_detail stuff) st
  else if 255 <? x_detail stuff then bad_value (x_detail stuff) st
  else
    let rc := window_rc (x_grab_window stuff) client DixSetAttrAccess in
    if negb (rc =? Success) then done_with rc st
    else
      let mod_dev := if InputDevIsFloating dev then dev else master_keyboard dev in
      '(tempGrab, st) <-- AllocGrab al st None;
      match tempGrab with
      | None => done_with BadAlloc st
      | Some t =>
          g <-? grabs st !! t;
          let g := fill_temp (clientAsMask client) dev (x_grab_window stuff) XI2 (grab_event (x_grab_type stuff)) 0 mod_dev (x_detail stuff) g in
          st <-- ungrab_modifiers (st <| grabs ::= <[t := g]> |>) t (x_modifiers stuff);
          st <-- FreeGrab st t;
          done_with Success st
      end.
End Requests.
