(* ===== verification/GrabClient.v ===== *)
(** * GrabClient: what the core requests do for a client

    Grabbing and ungrabbing keys and buttons never goes wrong, whatever grabs
    there are: ungrabbing takes exactly the combinations of the request from the
    client, and nothing is changed by a request that fails. *)

From S2P Require Import Prelude.
From S2P Require Import Resource.
From S2P Require Import DixUtils.
From S2P Require Import Grabs.
From S2P Require Import GrabSets.
From S2P Require Import GrabHeap.
From S2P Require Import GrabAction.
From S2P Require Import GrabDelete.
From S2P Require Import GrabPlan.
From S2P Require Import GrabScan.
From S2P Require Import GrabUngrab.
From S2P Require Import GrabSubtract.
From S2P Require Import GrabAdd.
From S2P Require Import GrabRequest.

(** Modifiers that have no other bits than those of modifiers. *)
Lemma small_modifiers m k : 8 <= k -> 0 <= m < 2 ^ k -> Z.land m (2 ^ k - 256) = 0 -> m < 256.
Proof.
  intros Hk Hm Hz. assert (E : Z.shiftr (Z.land m (2 ^ k - 256)) 8 = Z.shiftr m 8).
  { rewrite Z.shiftr_land. assert (Ek : Z.shiftr (2 ^ k - 256) 8 = Z.ones (k - 8)).
    { rewrite Z.shiftr_div_pow2 by lia. change 256 with (2 ^ 8). replace (2 ^ k - 2 ^ 8) with ((2 ^ (k - 8) - 1) * 2 ^ 8).
      - rewrite Z.div_mul by lia. by rewrite Z.ones_equiv, Z.sub_1_r.
      - rewrite Z.mul_sub_distr_r, <- Z.pow_add_r by lia. replace (k - 8 + 8) with k by lia. lia. }
    rewrite Ek, Z.land_ones by lia. apply Z.mod_small. rewrite Z.shiftr_div_pow2 by lia. split; [apply Z.div_pos; lia|].
    apply Z.div_lt_upper_bound; [lia|]. rewrite <- Z.pow_add_r by lia. replace (8 + (k - 8)) with k by lia. lia. }
  rewrite Hz, Z.shiftr_0_l in E. rewrite Z.shiftr_div_pow2 in E by lia. symmetry in E. apply Z.div_small_iff in E; lia.
Qed.
Lemma bad_modifiers_ranged m : 0 <= m < 65536 -> bad_modifiers m = false -> m <> AnyModifier -> ranged m.
Proof.
  unfold bad_modifiers, ranged. intros Hm Hb Hne. rewrite (proj2 (Z.eqb_neq _ _) Hne) in Hb. cbn [negb andb] in Hb.
  apply negb_false_iff, Z.eqb_eq in Hb. pose proof (small_modifiers m 16) as Hs. change (2 ^ 16 - 256) with (u16 (Z.lnot AllModifiersMask)) in Hs.
  change (2 ^ 16) with 65536 in Hs. specialize (Hs ltac:(lia) Hm Hb). lia.
Qed.
Lemma CheckGrabValues_modifiers param :
  0 <= modifiers param < 65536 -> (CheckGrabValues (Some CORE) param).1 = Success -> modifiers param <> AnyModifier -> ranged (modifiers param).
Proof.
  unfold CheckGrabValues. intros Hm Hc Hne. destruct (bad_mode (this_device_mode param)); [done|]. destruct (bad_mode (other_devices_mode param)); [done|].
  rewrite (proj2 (Z.eqb_neq _ _) Hne) in Hc. assert (E : (modifiers param =? XIAnyModifier) = false) by (apply Z.eqb_neq; unfold XIAnyModifier; lia).
  rewrite E in Hc. cbn [negb andb] in Hc. destruct (Z.eqb_spec (Z.land (modifiers param) (u32 (Z.lnot AllModifiersMask))) 0) as [Hz|]; [|done].
  pose proof (small_modifiers (modifiers param) 32) as Hs. change (2 ^ 32 - 256) with (u32 (Z.lnot AllModifiersMask)) in Hs.
  change (2 ^ 32) with 4294967296 in Hs. specialize (Hs ltac:(lia) ltac:(lia) Hz). split; lia.
Qed.

Section Client.
Context `{GrabEnv} `{WindowLookup} `{GrabDevices} (al : allocator).

(** What the handlers rely on: windows and cursors that are looked up are
    there, and the keyboards have keys. *)
Record served (st : GrabState) : Prop := {
  sv_window : forall id client access, window_rc id client access = Success -> exists W, windows st !! id = Some W;
  sv_cursor : forall id client cur, lookup_cursor id client = (Success, cur) -> 1 <= spare st cur;
  sv_keys : forall client, exists codes, key_codes (PickKeyboard client) = Some codes
}.
Lemma framed_served st st' : framed st st' -> served st -> served st'.
Proof.
  intros [Hw Hs] [S1 S2 S3]. split; [|intros id c cur E; rewrite Hs; by apply (S2 id c)|done].
  intros id c a E. destruct (S1 id c a E) as [W HW]. by apply (Hw id W).
Qed.
(** The client part of the mask is the client. *)
Definition valid_client (client : Z) : Prop := dixClientIdForXID LimitClients (clientAsMask client) = client.

(** ** A grab of a core request *)

Definition core_detail (any x : Z) : Prop := x <> any -> ranged x.
Lemma core_detail_ok any x : core_detail any x -> detail_ok any (MkDetail x None).
Proof. intros Hx. split; [done|exact Hx]. Qed.

Lemma land_one x : Z.land (Z.land x 1) 1 = Z.land x 1.
Proof. by rewrite <- Z.land_assoc. Qed.
Lemma u8_u8 x : u8 (u8 x) = u8 x.
Proof. unfold u8. by rewrite Z.mod_mod. Qed.

Lemma core_grab_of id dev mdev win param eventType keybut conf cur core :
  core_detail AnyKey keybut -> core_detail AnyModifier (modifiers param) ->
  let g := grab_of id dev mdev win CORE param eventType keybut conf cur core zero_xi2 in
  grab_ok g /\ plain_grab g /\ created g.
Proof.
  intros Hk Hm g. split; [|split; [done|]].
  - split; cbn; by apply core_detail_ok.
  - split; cbn; rewrite ?land_one, ?u8_u8; done.
Qed.
(** A core grab never splits a grab of XI2. *)
Lemma core_no_split st m W : grab_ok m -> plain_grab m -> grabtype m = CORE -> no_xi2_split st m W.
Proof.
  intros Hm Hp Ht x g _ _ d md Ha. destruct (action_split g m d md Hm Hp Ha) as (_ & _ & _ & _ & _ & _ & _ & _ & _ & _ & E). congruence.
Qed.

(** A new cell that is in no list changes nothing for the others. *)
Lemma made_ok st st1 x g :
  grabs_ok st -> made st st1 x g -> grabs_ok st1 /\ unlisted st1 x /\ framed st st1 /\ forall w e d md, granted st1 w e d md <-> granted st w e d md.
Proof.
  intros Hok [M1 M2 M3 _ M4 M5 M6].
  assert (Hu : forall w W, windows st !! w = Some W -> x ∉ passiveGrabs W).
  { intros w W HW Hin. destruct (ok_list _ Hok w W HW) as (_ & _ & Hl). destruct (Hl x Hin) as (n & Hn & _). congruence. }
  assert (Hkeep : forall y n, grabs st !! y = Some n -> grabs st1 !! y = Some n).
  { intros y n Hy. rewrite M2, lookup_insert_ne; [done|]. intros ->. congruence. }
  split; [split|split; [|split]].
  - intros w W. rewrite M3. intros HW. destruct (ok_list _ Hok w W HW) as (? & ? & Hl). split; [done|]. split; [done|].
    intros y Hy. destruct (Hl y Hy) as (n & ? & ? & ? & ? & ?). exists n. rewrite M4. split_and!; try done. by apply Hkeep.
  - intros r y. rewrite M4. intros Hr. destruct (ok_res _ Hok r y Hr) as (n & W & ? & ? & ? & ?). exists n, W. rewrite M3. split_and!; try done. by apply Hkeep.
  - done.
  - intros w W. rewrite M3. apply Hu.
  - split; [|done]. intros v W HW. exists W. by rewrite M3.
  - apply same_granted; [intros w y; by rewrite M3|]. intros y Hy. rewrite M2, lookup_insert_ne; [done|]. intros <-. apply Hy. exact Hu.
Qed.
Lemma same_framed st st' : same st st' -> framed st st'.
Proof. intros Hs. apply kept_framed. by apply same_kept. Qed.
Lemma same_grants st st' w e d md : same st st' -> granted st' w e d md <-> granted st w e d md.
Proof. by intros (k & i & _ & ->). Qed.

(** What became of the request. *)
Definition add_result (st st' : GrabState) (client : Z) (g : GrabRec) (rc : Z) : Prop :=
  (rc = Success /\ (forall W, windows st !! window g = Some W -> ~ conflict st g (passiveGrabs W)) /\
   forall w e d md, ranged d -> ranged md ->
     (granted st' w e d md -> granted st w e d md \/ new_grant g w e d md) /\
     (granted st w e d md -> ~ (w = window g /\ takes g e d md) -> granted st' w e d md) /\
     (new_grant g w e d md -> granted st' w e d md)) \/
  (rc = BadAccess /\ (exists W, windows st !! window g = Some W /\ conflict st g (passiveGrabs W)) /\
     forall w e d md, granted st' w e d md <-> granted st w e d md) \/
  (rc <> Success /\ rc = access client g /\ forall w e d md, granted st' w e d md <-> granted st w e d md) \/
  (rc = BadAlloc /\ failure al /\ only_loses st st' g).

Lemma create_and_add_ok st client dev mdev win core param eventType keybut conf cur W :
  grabs_ok st -> valid_client client -> windows st !! win = Some W -> (forall c, cur = Some c -> 1 <= spare st c) ->
  core_detail AnyKey keybut -> core_detail AnyModifier (modifiers param) ->
  exists rc st' id, create_and_add al st client dev mdev win CORE (MaskCore core) param eventType keybut conf cur = Ret (rc, None, st') /\
    grabs_ok st' /\ framed st st' /\ dixClientIdForXID LimitClients id = client /\
    add_result st st' client (grab_of id dev mdev win CORE param eventType keybut conf cur core zero_xi2) rc.
Proof.
  intros Hok Hv HW Hcur Hk Hm. unfold create_and_add.
  assert (Hcur' : forall c, cur = Some c -> exists n, cursors st !! c = Some n).
  { intros c Hc. specialize (Hcur c Hc). unfold spare, count in Hcur. destruct (cursors st !! c) as [n|]; [by exists n|]. cbn in Hcur.
    assert (0 <= live (grabs st) c) by (unfold live; lia). lia. }
  destruct (CreateGrab_ok al st client dev mdev win CORE (MaskCore core) param eventType keybut conf cur (ok_cursors _ Hok) Hcur' I)
    as [(st' & -> & Hs & Hf)|(st1 & x & core' & xi2 & -> & Hmade & Hid & [-> ->])]; cbn [obind].
  { exists BadAlloc, st', (clientAsMask client). split; [done|]. split; [by apply (same_grabs_ok st)|]. split; [by apply same_framed|]. split; [done|].
    right. right. right. split; [done|]. split; [done|]. intros w e d md _ _. rewrite same_grants by done. tauto. }
  set (id := FakeClientID (dom (resources st) ∪ issued st) client) in *.
  destruct (core_grab_of id dev mdev win param eventType keybut conf cur core Hk Hm) as (Hg & Hp & Hc).
  set (g := grab_of id _ _ _ _ _ _ _ _ _ _ _) in *.
  destruct (made_ok st st1 x g Hok Hmade) as (Hok1 & Hu & Hfr & Hgr).
  assert (HW1 : windows st1 !! window g = Some W) by (by rewrite (ma_windows _ _ _ _ Hmade)).
  assert (Hx : grabs st1 !! x = Some g) by (rewrite (ma_grabs _ _ _ _ Hmade); apply lookup_insert_eq).
  assert (Hr : resources st1 !! resource g = None).
  { rewrite (ma_resources _ _ _ _ Hmade). pose proof (fake_fresh (dom (resources st) ∪ issued st) client) as Hf.
    apply not_elem_of_union in Hf as [Hf%not_elem_of_dom _]. exact Hf. }
  destruct (AddPassiveGrabToList_spec al st1 client x g W Hok1 Hx Hu Hg Hp Hc HW1 Hid Hr (core_no_split st1 g W Hg Hp eq_refl))
    as (rc & st' & -> & Hok' & Hfr' & Hres). cbn [obind]. exists rc, st', id. split; [done|]. split; [done|].
  split; [by apply (framed_trans _ st1)|]. split.
  { pose proof (fake_owner (dom (resources st) ∪ issued st) (clientAsMask client)) as Hfo. cbv zeta in Hfo. unfold valid_client in Hv. by rewrite Hv in Hfo. }
  assert (Hcf1 : forall l, conflict st g l -> conflict st1 g l).
  { intros l (y & n & Hy & Hn & Hcf). exists y, n. split; [done|]. split; [|done]. rewrite (ma_grabs _ _ _ _ Hmade), lookup_insert_ne; [done|].
    intros <-. rewrite (ma_fresh _ _ _ _ Hmade) in Hn. done. }
  destruct Hres as [(Hcf & -> & Hf)|[Hncf [(Hne & -> & ->)|[(_ & -> & _ & _ & Hgr')|(_ & -> & Hf & _ & Hl)]]]].
  - right. left. split; [done|]. split.
    + exists W. rewrite <- (ma_windows _ _ _ _ Hmade). split; [done|]. destruct Hcf as (y & n & Hy & Hn & Hcf). exists y, n. split; [done|].
      split; [|done]. rewrite (ma_grabs _ _ _ _ Hmade) in Hn. rewrite lookup_insert_ne in Hn; [done|]. intros <-. by apply (Hu _ _ HW1).
    + intros w e d md. rewrite <- Hgr. apply same_granted; [intros v y; by rewrite (fr_windows _ _ _ Hf)|].
      intros y Hy. rewrite (fr_grabs _ _ _ Hf), lookup_delete_ne; [done|]. by intros <-.
  - right. right. left. done.
  - left. split; [done|]. split; [|intros w e d md Hd Hmd; rewrite <- Hgr; by apply Hgr'].
    intros W0 HW0 Hcf. assert (E : Some W = Some W0) by (rewrite <- HW; exact HW0). injection E as <-. by apply Hncf, Hcf1.
  - right. right. right. split; [done|]. split; [done|]. intros w e d md Hd Hmd. rewrite <- Hgr. by apply Hl.
Qed.

(** ** Ungrabbing *)

(** The combinations of a request for keys or buttons. *)
Definition requested (keybut mods d md : Z) : Prop := (keybut = AnyKey \/ d = keybut) /\ (mods = AnyModifier \/ md = mods).
(** A grant of the client for a core event. *)
Definition core_grant (client event : Z) (e : GrabRec) : Prop := resource e = client /\ grabtype e = CORE /\ type e = event.

Definition temp_grab (client dev win event mods mdev keybut : Z) : GrabRec :=
  fill_temp (clientAsMask client) dev win CORE event mods mdev keybut blank_grab.

Lemma in_exact any x y : in_detail any (MkDetail x None) y <-> x = any \/ y = x.
Proof. unfold in_detail. cbn. destruct (Z.eqb_spec x any) as [->|Hne]; [tauto|]. split; [by right|intros [?|?]; congruence]. Qed.
(** A grab of the client for the combinations of a request. *)
Record asks (g : GrabRec) (client event keybut mods : Z) : Prop := {
  as_owner : owner g = client;
  as_type : grabtype g = CORE;
  as_event : type g = event;
  as_detail : detail g = MkDetail keybut None;
  as_modifiers : modifiersDetail g = MkDetail mods None
}.
Lemma asks_hits g client event keybut mods d md : asks g client event keybut mods -> hits g d md <-> requested keybut mods d md.
Proof. intros [_ Et _ Ed Em]. unfold hits, requested, any_modifier. by rewrite Et, Ed, Em, !in_exact. Qed.
Lemma asks_concerns g client event keybut mods e :
  asks g client event keybut mods -> concerns e g (bool_decide (grabtype e = CORE)) = true <-> grabtype e = CORE /\ type e = event.
Proof.
  intros [_ Et Ee _ _]. unfold concerns, same_devices. rewrite Et, Ee. destruct (decide (grabtype e = CORE)) as [E|E].
  - rewrite E. cbn. destruct (Z.eqb_spec (type e) event) as [E2|E2]; cbn; split; try tauto; done.
  - rewrite bool_decide_false by done. cbn. split; [done|tauto].
Qed.
Lemma asks_takes g client event keybut mods e d md :
  asks g client event keybut mods -> takes g e d md <-> core_grant client event e /\ requested keybut mods d md.
Proof.
  intros Ha. unfold takes, core_grant. rewrite (asks_hits _ _ _ _ _ d md Ha), (asks_concerns _ _ _ _ _ e Ha), (as_owner _ _ _ _ _ Ha). tauto.
Qed.
(** A grant of another client for one of the combinations is a conflict. *)
Lemma asks_conflict st g client event keybut mods W e d md :
  asks g client event keybut mods -> windows st !! window g = Some W -> granted st (window g) e d md ->
  grabtype e = CORE -> type e = event -> requested keybut mods d md -> resource e <> client -> conflict st g (passiveGrabs W).
Proof.
  intros Ha HW (W0 & x & g' & HW0 & Hx & Hg' & <- & [Hd Hm]) Et Ee Hr Ho. rewrite HW in HW0. injection HW0 as <-.
  exists x, g'. split; [done|]. split; [done|]. pose proof Ha as [A1 A2 A3 A4 A5]. change (grabtype (effect g')) with (grabtype g') in Et.
  change (type (effect g')) with (type g') in Ee. change (resource (effect g')) with (owner g') in Ho. split; [congruence|].
  assert (Em : any_modifier g' = any_modifier g) by (unfold any_modifier; by rewrite Et, A2). split.
  - unfold concerns, same_devices. rewrite A2, A3, Et, Ee. cbn. by rewrite Z.eqb_refl.
  - rewrite A4, A5. rewrite Em in Hm. assert (Ey : any_modifier g = AnyModifier) by (unfold any_modifier; by rewrite A2). destruct Hr as [R1 R2]. split.
    + apply (meets_common _ _ _ d); [done|done|]. by apply in_exact.
    + apply (meets_common _ _ _ md); [done|done|]. apply in_exact. by rewrite Ey.
Qed.
Lemma temp_asks client dev win event mods mdev keybut :
  valid_client client -> asks (temp_grab client dev win event mods mdev keybut) client event keybut mods.
Proof. intros Hv. by split. Qed.

Lemma ungrab_temp_ok st client dev win event mods mdev keybut W :
  grabs_ok st -> valid_client client -> windows st !! win = Some W ->
  core_detail AnyKey keybut -> core_detail AnyModifier mods ->
  exists rc st', ungrab_temp al st (fill_temp (clientAsMask client) dev win CORE event mods mdev keybut) = Ret (rc, None, st') /\
    grabs_ok st' /\ framed st st' /\
    ((rc = BadAlloc /\ failure al /\ forall w e d md, granted st' w e d md <-> granted st w e d md) \/
     (rc = Success /\ forall w e d md, ranged d -> ranged md ->
        granted st' w e d md <-> granted st w e d md /\ ~ (w = win /\ core_grant client event e /\ requested keybut mods d md))).
Proof.
  intros Hok Hv HW Hk Hm. unfold ungrab_temp.
  destruct (AllocGrab_None al st) as [(st' & -> & Hs & Hf)|(k & x & -> & Hx)]; cbn [obind].
  { exists BadAlloc, st'. split; [done|]. split; [by apply (same_grabs_ok st)|]. split; [by apply same_framed|]. left.
    split; [done|]. split; [done|]. intros w e d md. by apply same_grants. }
  set (m := temp_grab client dev win event mods mdev keybut).
  set (st1 := st <| allocs := k |> <| grabs ::= <[x := blank_grab]> |>).
  assert (Eb : grabs st1 !! x = Some blank_grab) by apply lookup_insert_eq. rewrite Eb. cbn [obind_opt].
  change (fill_temp (clientAsMask client) dev win CORE event mods mdev keybut blank_grab) with m.
  set (st2 := st1 <| grabs ::= <[x := m]> |>).
  assert (Hmade : made st st2 x m).
  { assert (Hsp : forall c, spare st2 c = spare st c).
    { intros c. unfold spare, count. subst st2 st1. cbn. rewrite insert_insert_eq, live_insert by done. unfold used. rewrite decide_False by done. lia. }
    split; try done.
    - subst st2 st1. cbn. by rewrite insert_insert_eq.
    - split; [apply (ok_cursors _ Hok)|]. intros c. rewrite Hsp. apply (ok_cursors _ Hok). }
  destruct (made_ok st st2 x m Hok Hmade) as (Hok2 & Hu & Hfr & Hgr).
  assert (Hg : grab_ok m) by (split; cbn; by apply core_detail_ok).
  destruct (DeletePassiveGrabFromList_spec al st2 x m W Hok2) as (b & st3 & -> & Hok3 & Hkept & Hf & Ht); try done.
  { apply lookup_insert_eq. }
  { by apply core_no_split. }
  cbn [obind]. destruct (ke_cells _ _ Hkept x m) as [Hx3 Hu3]; [apply lookup_insert_eq|done|].
  destruct (FreeGrab_unlisted st3 x m Hok3 Hx3 Hu3) as (st' & -> & Hfreed & Hok' & Hgr'). cbn [obind].
  exists (if b then Success else BadAlloc), st'. split; [done|]. split; [done|].
  split; [apply (framed_trans _ st2), (framed_trans _ st3); [done|by apply kept_framed|by apply (freed_framed _ _ x)]|].
  destruct b.
  - right. split; [done|]. intros w e d md Hd Hmd. rewrite Hgr', (Ht eq_refl w e d md Hd Hmd), Hgr.
    by rewrite (asks_takes m client event keybut mods e d md (temp_asks client dev win event mods mdev keybut Hv)).
  - left. destruct (Hf eq_refl) as [Hfail Hs]. split; [done|]. split; [done|]. intros w e d md. rewrite Hgr', (same_grants st2 st3) by done. apply Hgr.
Qed.

(** ** The requests *)

(** The fields have the widths of the protocol. *)
Definition key_request_ok (key mods : Z) : Prop := 0 <= key < 256 /\ 0 <= mods < 65536.

(** Any one of the four requests. *)
Inductive core_request :=
  | GrabKeyReq (client : Z) (stuff : xGrabKeyReq)
  | UngrabKeyReq (client : Z) (stuff : xUngrabKeyReq)
  | GrabButtonReq (client : Z) (stuff : xGrabButtonReq)
  | UngrabButtonReq (client : Z) (stuff : xUngrabButtonReq).
Definition request_client (r : core_request) : Z :=
  match r with GrabKeyReq c _ | UngrabKeyReq c _ | GrabButtonReq c _ | UngrabButtonReq c _ => c end.
Definition request_ok (r : core_request) : Prop :=
  valid_client (request_client r) /\
  match r with
  | GrabKeyReq _ q => key_request_ok (k_key q) (k_modifiers q)
  | UngrabKeyReq _ q => key_request_ok (u_key q) (u_modifiers q)
  | GrabButtonReq _ q => key_request_ok (b_button q) (b_modifiers q)
  | UngrabButtonReq _ q => key_request_ok (v_button q) (v_modifiers q)
  end.
Definition handle (st : GrabState) (r : core_request) : result :=
  match r with
  | GrabKeyReq c q => ProcGrabKey al st c q
  | UngrabKeyReq c q => ProcUngrabKey al st c q
  | GrabButtonReq c q => ProcGrabButton al st c q
  | UngrabButtonReq c q => ProcUngrabButton al st c q
  end.

Lemma ranged_detail any key : 0 <= key < 256 -> core_detail any key.
Proof. by intros ? _. Qed.

Lemma ProcUngrabKey_spec st client q :
  grabs_ok st -> served st -> valid_client client -> key_request_ok (u_key q) (u_modifiers q) ->
  exists rc bad st', ProcUngrabKey al st client q = Ret (rc, bad, st') /\ grabs_ok st' /\ framed st st' /\
    ((rc <> Success /\ forall w e d md, granted st' w e d md <-> granted st w e d md) \/
     (rc = Success /\ forall w e d md, ranged d -> ranged md ->
        granted st' w e d md <-> granted st w e d md /\
          ~ (w = u_grabWindow q /\ core_grant client KeyPress e /\ requested (u_key q) (u_modifiers q) d md))).
Proof.
  intros Hok Hs Hv [Hk Hm]. unfold ProcUngrabKey, done_with, bad_value.
  assert (Hself : framed st st) by (split; [intros v W HW; by exists W|done]).
  destruct (Z.eqb_spec (window_rc (u_grabWindow q) client DixGetAttrAccess) Success) as [E|E]; cbn [negb].
  2: { eexists _, _, _. split; [reflexivity|]. split; [done|]. split; [done|]. by left. }
  destruct (sv_window _ Hs _ _ _ E) as [W HW]. destruct (sv_keys _ Hs client) as [codes ->]. cbn [obind_opt].
  destruct (bad_key (u_key q) codes); [eexists _, _, _; split; [reflexivity|]; split; [done|]; split; [done|]; by left|].
  destruct (bad_modifiers (u_modifiers q)) eqn:Eb; [eexists _, _, _; split; [reflexivity|]; split; [done|]; split; [done|]; by left|].
  destruct (ungrab_temp_ok st client (PickKeyboard client) (u_grabWindow q) KeyPress (u_modifiers q) (PickKeyboard client) (u_key q) W Hok Hv HW)
    as (rc & st' & E2 & Hok' & Hfr & Hres); [by apply ranged_detail|by intros ?; apply bad_modifiers_ranged|].
  exists rc, None, st'. split; [done|]. split; [done|]. split; [done|]. destruct Hres as [(-> & _ & Hg)|(-> & Hg)]; [left|right]; by split.
Qed.
Lemma ProcUngrabButton_spec st client q :
  grabs_ok st -> served st -> valid_client client -> key_request_ok (v_button q) (v_modifiers q) ->
  exists rc bad st', ProcUngrabButton al st client q = Ret (rc, bad, st') /\ grabs_ok st' /\ framed st st' /\
    ((rc <> Success /\ forall w e d md, granted st' w e d md <-> granted st w e d md) \/
     (rc = Success /\ forall w e d md, ranged d -> ranged md ->
        granted st' w e d md <-> granted st w e d md /\
          ~ (w = v_grabWindow q /\ core_grant client ButtonPress e /\ requested (v_button q) (v_modifiers q) d md))).
Proof.
  intros Hok Hs Hv [Hk Hm]. unfold ProcUngrabButton, done_with, bad_value.
  assert (Hself : framed st st) by (split; [intros v W HW; by exists W|done]).
  destruct (bad_modifiers (v_modifiers q)) eqn:Eb; [eexists _, _, _; split; [reflexivity|]; split; [done|]; split; [done|]; by left|].
  destruct (Z.eqb_spec (window_rc (v_grabWindow q) client DixReadAccess) Success) as [E|E]; cbn [negb].
  2: { eexists _, _, _. split; [reflexivity|]. split; [done|]. split; [done|]. by left. }
  destruct (sv_window _ Hs _ _ _ E) as [W HW].
  destruct (ungrab_temp_ok st client (PickPointer client) (v_grabWindow q) ButtonPress (v_modifiers q) (master_keyboard (PickPointer client))
    (v_button q) W Hok Hv HW) as (rc & st' & E2 & Hok' & Hfr & Hres); [by apply ranged_detail|by intros ?; apply bad_modifiers_ranged|].
  exists rc, None, st'. split; [done|]. split; [done|]. split; [done|]. destruct Hres as [(-> & _ & Hg)|(-> & Hg)]; [left|right]; by split.
Qed.

(** The client has the combinations, alone; it lost no others, and no other
    client lost anything. *)
Record grabbed (st st' : GrabState) (client win event keybut mods : Z) : Prop := {
  gb_has : exists e, core_grant client event e /\ forall d md, ranged d -> ranged md -> requested keybut mods d md -> granted st' win e d md;
  gb_new : forall w e d md, ranged d -> ranged md -> granted st' w e d md ->
    granted st w e d md \/ w = win /\ core_grant client event e /\ requested keybut mods d md;
  gb_old : forall w e d md, ranged d -> ranged md -> granted st w e d md ->
    ~ (w = win /\ core_grant client event e /\ requested keybut mods d md) -> granted st' w e d md;
  gb_alone : forall e d md, granted st win e d md -> grabtype e = CORE -> type e = event -> requested keybut mods d md -> resource e = client
}.
(** The request failed; when memory did, the client may have lost combinations
    of it that it had. *)
Definition not_grabbed (st st' : GrabState) (client win event keybut mods rc : Z) : Prop :=
  rc <> Success /\
  ((forall w e d md, granted st' w e d md <-> granted st w e d md) \/
   (rc = BadAlloc /\ failure al /\ forall w e d md, ranged d -> ranged md ->
     (granted st' w e d md -> granted st w e d md) /\
     (granted st w e d md -> ~ (w = win /\ core_grant client event e /\ requested keybut mods d md) -> granted st' w e d md))).

Lemma add_result_grabs st st' client g event keybut mods W rc :
  asks g client event keybut mods -> windows st !! window g = Some W -> add_result st st' client g rc ->
  (rc = Success /\ grabbed st st' client (window g) event keybut mods) \/ not_grabbed st st' client (window g) event keybut mods rc.
Proof.
  intros Ha HW [(-> & Hcf & Hg)|[(-> & _ & Hg)|[(Hne & _ & Hg)|(-> & Hf & Hg)]]].
  - left. split; [done|]. assert (Hcg : core_grant client event (effect g)) by (destruct Ha as [A1 A2 A3 _ _]; by split).
    split.
    + exists (effect g). split; [done|]. intros d md Hd Hmd Hr. apply (Hg (window g) (effect g) d md Hd Hmd). split; [done|]. split; [done|].
      by apply (asks_hits _ _ _ _ _ d md Ha).
    + intros w e d md Hd Hmd Hgr. destruct (proj1 (Hg w e d md Hd Hmd) Hgr) as [?|(-> & -> & Hh)]; [by left|right]. split; [done|]. split; [done|].
      by apply (asks_hits _ _ _ _ _ d md Ha).
    + intros w e d md Hd Hmd Hgr Hn. destruct (Hg w e d md Hd Hmd) as (_ & Hold & _). apply Hold; [done|]. by rewrite (asks_takes _ _ _ _ _ e d md Ha).
    + intros e d md Hgr Et Ee Hr. destruct (Z.eq_dec (resource e) client) as [|Hne]; [done|]. exfalso. apply (Hcf W HW).
      by apply (asks_conflict st g client event keybut mods W e d md).
  - right. split; [done|]. by left.
  - right. split; [done|]. by left.
  - right. split; [done|]. right. split; [done|]. split; [done|]. intros w e d md Hd Hmd. destruct (Hg w e d md Hd Hmd) as [? ?].
    split; [done|]. by rewrite <- (asks_takes _ _ _ _ _ e d md Ha).
Qed.

Lemma create_grabs st client dev mdev win core param event keybut conf cur W :
  grabs_ok st -> valid_client client -> windows st !! win = Some W -> (forall c, cur = Some c -> 1 <= spare st c) ->
  core_detail AnyKey keybut -> core_detail AnyModifier (modifiers param) -> u8 event = event ->
  exists rc st', create_and_add al st client dev mdev win CORE (MaskCore core) param event keybut conf cur = Ret (rc, None, st') /\
    grabs_ok st' /\ framed st st' /\
    ((rc = Success /\ grabbed st st' client win event keybut (modifiers param)) \/
     not_grabbed st st' client win event keybut (modifiers param) rc).
Proof.
  intros Hok Hv HW Hcur Hk Hm He.
  destruct (create_and_add_ok st client dev mdev win core param event keybut conf cur W Hok Hv HW Hcur Hk Hm)
    as (rc & st' & id & E & Hok' & Hfr & Hid & Hres). exists rc, st'. split; [done|]. split; [done|]. split; [done|].
  apply (add_result_grabs st st' client (grab_of id dev mdev win CORE param event keybut conf cur core zero_xi2) event keybut (modifiers param) W);
    [by split|done|done].
Qed.

Lemma ProcGrabKey_spec st client q :
  grabs_ok st -> served st -> valid_client client -> key_request_ok (k_key q) (k_modifiers q) ->
  exists rc bad st', ProcGrabKey al st client q = Ret (rc, bad, st') /\ grabs_ok st' /\ framed st st' /\
    ((rc = Success /\ grabbed st st' client (k_grabWindow q) KeyPress (k_key q) (k_modifiers q)) \/
     not_grabbed st st' client (k_grabWindow q) KeyPress (k_key q) (k_modifiers q) rc).
Proof.
  intros Hok Hs Hv [Hk Hm]. unfold ProcGrabKey, done_with, bad_value.
  assert (Hself : framed st st) by (split; [intros v W HW; by exists W|done]).
  set (param := MkParams _ _ _ _). pose proof (CheckGrabValues_modifiers param Hm) as Hcm. destruct (CheckGrabValues (Some CORE) param) as [rc bad].
  cbn [fst] in Hcm. destruct (Z.eqb_spec rc Success) as [->|E]; cbn [negb].
  2: { exists rc, bad, st. split; [done|]. split; [done|]. split; [done|]. right. split; [done|by left]. }
  destruct (sv_keys _ Hs client) as [codes ->]. cbn [obind_opt].
  destruct (bad_key (k_key q) codes); [eexists _, _, _; split; [reflexivity|]; split; [done|]; split; [done|]; right; split; [done|by left]|].
  destruct (Z.eqb_spec (window_rc (k_grabWindow q) client DixSetAttrAccess) Success) as [E|E]; cbn [negb].
  2: { eexists _, _, _. split; [reflexivity|]. split; [done|]. split; [done|]. right. split; [done|by left]. }
  destruct (sv_window _ Hs _ _ _ E) as [W HW].
  destruct (create_grabs st client (PickKeyboard client) (PickKeyboard client) (k_grabWindow q) (Z.lor KeyPressMask KeyReleaseMask) param
    KeyPress (k_key q) None None W Hok Hv HW) as (rc & st' & E2 & Hok' & Hfr & Hres);
    [done|by apply ranged_detail|by intros ?; apply Hcm|done|].
  exists rc, None, st'. by split_and!.
Qed.
Lemma ProcGrabButton_spec st client q :
  grabs_ok st -> served st -> valid_client client -> key_request_ok (b_button q) (b_modifiers q) ->
  exists rc bad st', ProcGrabButton al st client q = Ret (rc, bad, st') /\ grabs_ok st' /\ framed st st' /\
    ((rc = Success /\ grabbed st st' client (b_grabWindow q) ButtonPress (b_button q) (b_modifiers q)) \/
     not_grabbed st st' client (b_grabWindow q) ButtonPress (b_button q) (b_modifiers q) rc).
Proof.
  intros Hok Hs Hv [Hk Hm]. unfold ProcGrabButton, done_with, bad_value.
  assert (Hself : framed st st) by (split; [intros v W HW; by exists W|done]).
  assert (Hfail : forall rc (bad : option Z), rc <> Success -> exists rc' bad' st', Ret (rc, bad, st) = Ret (rc', bad', st') /\ grabs_ok st' /\ framed st st' /\
    ((rc' = Success /\ grabbed st st' client (b_grabWindow q) ButtonPress (b_button q) (b_modifiers q)) \/
     not_grabbed st st' client (b_grabWindow q) ButtonPress (b_button q) (b_modifiers q) rc')).
  { intros rc bad Hne. exists rc, bad, st. split; [done|]. split; [done|]. split; [done|]. right. split; [done|by left]. }
  destruct (core_mode_bad (b_pointerMode q)); [by apply Hfail|]. destruct (core_mode_bad (b_keyboardMode q)); [by apply Hfail|].
  destruct (bad_modifiers (b_modifiers q)) eqn:Eb; [by apply Hfail|]. destruct (_ && _); [by apply Hfail|].
  destruct (negb (Z.land (b_eventMask q) _ =? 0)); [by apply Hfail|].
  destruct (Z.eqb_spec (window_rc (b_grabWindow q) client DixSetAttrAccess) Success) as [E|E]; cbn [negb]; [|by apply Hfail].
  destruct (sv_window _ Hs _ _ _ E) as [W HW].
  match goal with |- context [negb (?rc =? Success)] => destruct (Z.eqb_spec rc Success) as [E2|E2] end; cbn [negb]; [|by apply Hfail].
  set (cursor_rc := if b_cursor q =? 0 then (Success, 0) else lookup_cursor (b_cursor q) client). destruct cursor_rc as [rc cur] eqn:Ec.
  destruct (Z.eqb_spec rc Success) as [->|E3]; cbn [negb]; [|by apply Hfail].
  match goal with |- context [dixCallDeviceAccessCallback ?a ?b ?c] =>
    destruct (Z.eqb_spec (dixCallDeviceAccessCallback a b c) Success) as [E3|E3] end; cbn [negb]; [|by apply Hfail].
  match goal with |- context [create_and_add al st client ?a ?b ?c CORE (MaskCore ?d) ?e ?f ?g ?h ?i] =>
    destruct (create_grabs st client a b c d e f g h i W Hok Hv HW) as (rc & st' & E4 & Hok' & Hfr & Hres) end.
  - intros c. subst cursor_rc. destruct (b_cursor q =? 0); [done|]. intros [= ->]. by apply (sv_cursor _ Hs (b_cursor q) client).
  - by apply ranged_detail.
  - intros ?. by apply bad_modifiers_ranged.
  - done.
  - exists rc, None, st'. by split_and!.
Qed.
End Client.
