(* ===== verification/GrabPolicy.v ===== *)
(** * GrabPolicy: passive grabs as the clients see them

    No two clients ever have the same combination of a key or button and
    modifiers on a window through core grabs.  Ungrabbing is subtraction at all
    levels, with two exceptions of XI2, which bring the server down. *)

From S2P Require Import Prelude.
From S2P Require Import Resource.
From S2P Require Import DixUtils.
From S2P Require Import Grabs.
From S2P Require Import GrabSets.
From S2P Require Import GrabHeap.
From S2P Require Import GrabAction.
From S2P Require Import GrabDelete.
From S2P Require Import GrabPlan.
From S2P Require Import GrabScan.
From S2P Require Import GrabUngrab.
From S2P Require Import GrabSubtract.
From S2P Require Import GrabAdd.
From S2P Require Import GrabRequest.
From S2P Require Import GrabClient.

(** ** Exclusion *)

Section Exclusion.
Context `{GrabEnv} `{WindowLookup} `{GrabDevices} (al : allocator).

Definition exclusive (st : GrabState) : Prop :=
  forall w e e' d md, ranged d -> ranged md -> granted st w e d md -> granted st w e' d md ->
    grabtype e = CORE -> grabtype e' = CORE -> type e' = type e -> resource e' = resource e.

Lemma exclusive_less st st' :
  exclusive st -> (forall w e d md, ranged d -> ranged md -> granted st' w e d md -> granted st w e d md) -> exclusive st'.
Proof. intros Hx Hl w e e' d md Hd Hmd G1 G2. apply (Hx w e e' d md Hd Hmd); by apply Hl. Qed.
Lemma exclusive_grabbed st st' client win event keybut mods :
  exclusive st -> grabbed st st' client win event keybut mods -> exclusive st'.
Proof.
  intros Hx [_ Hn _ Ha] w e e' d md Hd Hmd G1 G2 T1 T2 Ee.
  destruct (Hn w e d md Hd Hmd G1) as [O1|(-> & (R1 & _ & E1) & Q)], (Hn _ e' d md Hd Hmd G2) as [O2|(Ew & (R2 & _ & E2) & Q2)].
  - by apply (Hx w e e' d md).
  - subst w. rewrite R2. symmetry. apply (Ha e d md); try done. congruence.
  - rewrite R1. apply (Ha e' d md); try done. congruence.
  - congruence.
Qed.

(** What is so between requests. *)
Record quiet (st : GrabState) : Prop := { qu_ok : grabs_ok st; qu_served : served st; qu_exclusive : exclusive st }.

Lemma handle_quiet st r : quiet st -> request_ok r -> exists rc bad st', handle al st r = Ret (rc, bad, st') /\ quiet st'.
Proof.
  intros [Hok Hs Hx] [Hv Hr]. destruct r as [c q|c q|c q|c q]; cbn [handle request_client request_ok] in *.
  - destruct (ProcGrabKey_spec al st c q Hok Hs Hv Hr) as (rc & bad & st' & E & Hok' & Hfr & Hres). exists rc, bad, st'. split; [done|].
    split; [done|by apply (framed_served st)|]. destruct Hres as [[_ Hg]|[_ [Hg|(_ & _ & Hg)]]].
    + by apply (exclusive_grabbed st st' _ _ _ _ _ Hx Hg).
    + apply (exclusive_less st); [done|]. intros w e d md _ _. apply Hg.
    + apply (exclusive_less st); [done|]. intros w e d md Hd Hmd. by apply Hg.
  - destruct (ProcUngrabKey_spec al st c q Hok Hs Hv Hr) as (rc & bad & st' & E & Hok' & Hfr & Hres). exists rc, bad, st'. split; [done|].
    split; [done|by apply (framed_served st)|]. apply (exclusive_less st); [done|]. intros w e d md Hd Hmd.
    destruct Hres as [[_ Hg]|[_ Hg]]; [apply Hg|]. rewrite Hg by done. tauto.
  - destruct (ProcGrabButton_spec al st c q Hok Hs Hv Hr) as (rc & bad & st' & E & Hok' & Hfr & Hres). exists rc, bad, st'. split; [done|].
    split; [done|by apply (framed_served st)|]. destruct Hres as [[_ Hg]|[_ [Hg|(_ & _ & Hg)]]].
    + by apply (exclusive_grabbed st st' _ _ _ _ _ Hx Hg).
    + apply (exclusive_less st); [done|]. intros w e d md _ _. apply Hg.
    + apply (exclusive_less st); [done|]. intros w e d md Hd Hmd. by apply Hg.
  - destruct (ProcUngrabButton_spec al st c q Hok Hs Hv Hr) as (rc & bad & st' & E & Hok' & Hfr & Hres). exists rc, bad, st'. split; [done|].
    split; [done|by apply (framed_served st)|]. apply (exclusive_less st); [done|]. intros w e d md Hd Hmd.
    destruct Hres as [[_ Hg]|[_ Hg]]; [apply Hg|]. rewrite Hg by done. tauto.
Qed.

(** The requests are handled one after the other. *)
Fixpoint handle_all (st : GrabState) (l : list core_request) : outcome GrabState :=
  match l with
  | [] => Ret st
  | r :: l => '(_, _, st) <-- handle al st r; handle_all st l
  end.
Lemma handle_all_quiet l : forall st, quiet st -> Forall request_ok l -> exists st', handle_all st l = Ret st' /\ quiet st'.
Proof.
  induction l as [|r l IH]; intros st Hq Hl; cbn [handle_all]; [by exists st|]. apply Forall_cons in Hl as [Hr Hl].
  destruct (handle_quiet st r Hq Hr) as (rc & bad & st1 & -> & Hq1). cbn [obind]. by apply IH.
Qed.
End Exclusion.

(** ** Two requests that bring the server down *)

Section Crashes.
Context `{GrabEnv} `{WindowLookup} `{GrabDevices} (al : allocator).

Lemma DetailSupersedesSecond_plain any f s : plain f -> DetailSupersedesSecond f s any = Ret (supersedes any f s).
Proof.
  unfold plain, DetailSupersedesSecond, IsInGrabMask, IdenticalExactDetails, supersedes. intros ->.
  destruct (Z.eqb_spec (exact f) any) as [E|E]; cbn [obind orb]; [done|]. destruct (Z.eqb_spec (exact s) any); [|done].
  destruct (Z.eqb_spec (exact f) (exact s)); [congruence|done].
Qed.

(** The client [client] has one grab [g] on the window of the request [q], of a
    key of XI2, without exceptions; the request is for its device, and all
    memory is there. *)
Record one_xi2_grab (st : GrabState) (client : Z) (q : xXIPassiveUngrabDeviceReq) (x : Z) (g : GrabRec) (dev : Z) : Prop := {
  og_client : valid_client client;
  og_device : lookup_device (x_deviceid q) client = (Success, dev);
  og_deviceid : x_deviceid q <> XIAllDevices /\ x_deviceid q <> XIAllMasterDevices;
  og_window : window_rc (x_grab_window q) client DixSetAttrAccess = Success;
  og_key : x_grab_type q = XIGrabtypeKeycode /\ 0 < x_detail q < 256;
  og_list : exists W, windows st !! x_grab_window q = Some W /\ optional W = true /\ passiveGrabs W = [x];
  og_grab : grabs st !! x = Some g;
  og_kind : owner g = client /\ grabtype g = XI2 /\ device g = dev /\ type g = XI_KeyPress;
  og_plain : plain_grab g;
  og_memory : forall k z, al k z = true
}.

(** What the request comes to. *)
Definition xi2_temp (client dev win mods mod_dev keybut : Z) : GrabRec :=
  fill_temp (clientAsMask client) dev win XI2 XI_KeyPress 0 mod_dev keybut blank_grab <| modifiersDetail ::= fun d => d <| exact := mods |> |>.
Lemma one_grab_request st client q x g dev md l :
  one_xi2_grab st client q x g dev -> x_modifiers q = md :: l ->
  exists st' m, grabs st' !! x = Some g /\
    owner m = client /\ grabtype m = XI2 /\ device m = dev /\ type m = XI_KeyPress /\
    detail m = MkDetail (x_detail q) None /\ modifiersDetail m = MkDetail md None /\
    (ungrab_one al st' (MkPlan [] [] []) m x = Undefined -> ProcXIPassiveUngrabDevice al st client q = Undefined).
Proof.
  intros [Hv Hdev [Hd1 Hd2] Hwin [Hkey Hdet] (W & HW & Ho & Hl) Hx _ _ Hmem] Hq.
  destruct (AllocGrab_None al st) as [(st' & _ & _ & k & z & Hf)|(k & t & Ea & Ht)]; [by rewrite Hmem in Hf|].
  set (mod_dev := if InputDevIsFloating dev then dev else master_keyboard dev).
  set (m := xi2_temp client dev (x_grab_window q) md mod_dev (x_detail q)).
  set (n := Z.of_nat 1 * 8).
  set (st1 := st <| allocs := k |> <| grabs ::= <[t := blank_grab]> |>).
  set (st2 := st1 <| grabs ::= <[t := fill_temp (clientAsMask client) dev (x_grab_window q) XI2 XI_KeyPress 0 mod_dev (x_detail q) blank_grab]> |>).
  set (st3 := st2 <| grabs ::= <[t := m]> |>).
  set (st4 := st3 <| allocs ::= S |> <| allocs ::= S |> <| allocs ::= S |> <| allocs ::= S |>).
  exists st4, m. assert (Hxt : t <> x) by (intros ->; congruence). split.
  { subst st4 st3 st2 st1. cbn. by rewrite !lookup_insert_ne. }
  split; [done|]. do 5 (split; [done|]). intros Hu. unfold ProcXIPassiveUngrabDevice.
  rewrite (proj2 (Z.eqb_neq _ _) Hd1), (proj2 (Z.eqb_neq _ _) Hd2), Hdev, Hkey. cbn [negb].
  change (negb (Success =? Success)) with false. cbn match.
  change ((XIGrabtypeKeycode <? XIGrabtypeButton) || (XIGrabtypeGestureSwipeBegin <? XIGrabtypeKeycode)) with false. cbn match.
  change (((XIGrabtypeKeycode =? XIGrabtypeEnter) || (XIGrabtypeKeycode =? XIGrabtypeFocusIn) || (XIGrabtypeKeycode =? XIGrabtypeTouchBegin)) &&
    negb (x_detail q =? 0)) with false. cbn match.
  rewrite (proj2 (Z.ltb_ge 255 (x_detail q))) by lia. rewrite Hwin. change (negb (Success =? Success)) with false. cbn match.
  rewrite Ea. cbn [obind]. fold st1. assert (E1 : grabs st1 !! t = Some blank_grab) by apply lookup_insert_eq. rewrite E1. cbn [obind_opt].
  change (grab_event XIGrabtypeKeycode) with XI_KeyPress. fold mod_dev st2. rewrite Hq. cbn [ungrab_modifiers].
  assert (E2 : grabs st2 !! t = Some (fill_temp (clientAsMask client) dev (x_grab_window q) XI2 XI_KeyPress 0 mod_dev (x_detail q) blank_grab))
    by apply lookup_insert_eq. rewrite E2. cbn [obind_opt].
  change (fill_temp _ _ _ _ _ _ _ _ _ <| modifiersDetail ::= _ |>) with m. fold st3.
  assert (Edel : DeletePassiveGrabFromList al st3 t = Undefined); [|by rewrite Edel].
  unfold DeletePassiveGrabFromList. assert (E3 : grabs st3 !! t = Some m) by apply lookup_insert_eq. rewrite E3. cbn [obind_opt].
  unfold wPassiveGrabs. change (windows st3) with (windows st). change (window m) with (x_grab_window q). rewrite HW. cbn [obind_opt obind].
  rewrite Ho, Hl. unfold calloc. rewrite !Hmem. cbn [andb negb]. fold st4. cbn [ungrab_scan]. by rewrite Hu.
Qed.

Lemma same_xi2 g m : grabtype g = XI2 -> grabtype m = XI2 -> device m = device g -> type m = type g -> concerns g m (bool_decide (grabtype g = CORE)) = true.
Proof.
  intros Hg Hm Hd Ht. unfold concerns, same_devices. rewrite Hg, Hm, Hd, Ht, !Z.eqb_refl. cbn. rewrite andb_true_r.
  destruct (device g =? all_devices); [done|]. by destruct (device g =? all_master_devices).
Qed.

Lemma memory_grab st : (forall k z, al k z = true) ->
  exists k t, AllocGrab al st None = Ret (Some t, st <| allocs := k |> <| grabs ::= <[t := blank_grab]> |>).
Proof.
  intros Hmem. destruct (AllocGrab_None al st) as [(st' & _ & _ & k & z & Hf)|(k & t & E & _)]; [by rewrite Hmem in Hf|]. by exists k, t.
Qed.
(** A mask that is not one is read. *)
Lemma CreateGrab_core_for_XI2 st client dev mdev win m param ev keybut conf cur :
  (forall k z, al k z = true) -> CreateGrab al st client dev mdev win XI2 (MaskCore m) param ev keybut conf cur = Undefined.
Proof.
  intros Hmem. unfold CreateGrab. destruct (memory_grab st Hmem) as (k & t & ->). cbn [obind].
  match goal with |- context [(grabs ?s !! t)] => assert (E : grabs s !! t = Some blank_grab) by apply lookup_insert_eq end.
  rewrite E. cbn [obind_opt obind]. unfold RefCursor. destruct cur as [c|]; [|done]. by destruct (cursors _ !! c).
Qed.

Lemma xi2_split_crashes_spec st client q x g dev md l :
  one_xi2_grab st client q x g dev -> exact (detail g) = AnyKey -> exact (modifiersDetail g) = XIAnyModifier ->
  x_modifiers q = md :: l -> ranged md ->
  ProcXIPassiveUngrabDevice al st client q = Undefined.
Proof.
  intros Hog Hgd Hgm Hq Hmd. destruct (one_grab_request st client q x g dev md l Hog Hq) as (st' & m & Hx & M1 & M2 & M3 & M4 & M5 & M6 & Hu).
  apply Hu. clear Hu. destruct Hog as [_ _ _ _ [_ Hdet] _ _ (K1 & K2 & K3 & K4) [P1 P2] Hmem].
  assert (Ag : any_modifier g = XIAnyModifier) by (unfold any_modifier; by rewrite K2).
  assert (Am : any_modifier m = XIAnyModifier) by (unfold any_modifier; by rewrite M2).
  assert (Hg : grab_ok g) by (split; rewrite ?Ag; (split; [intros k Hk; by rewrite ?P1, ?P2 in Hk|congruence])).
  assert (Hm : grab_ok m) by (split; rewrite ?Am, ?M5, ?M6; (split; [done|intros _; cbn]); [unfold ranged; lia|done]).
  assert (Hp : plain_grab m) by (split; rewrite ?M5, ?M6; done).
  assert (Ea : action_of g m = Split (x_detail q) md).
  { unfold action_of. rewrite K1, M1, Z.eqb_refl, (same_xi2 g m) by congruence. cbn [negb orb]. unfold supersedes.
    rewrite Ag, M5, M6, Hgd, Hgm, P1, P2. cbn [exact pMask]. rewrite !Z.eqb_refl. cbn [negb orb].
    assert (E1 : (md =? XIAnyModifier) = false) by (apply Z.eqb_neq; unfold ranged, XIAnyModifier in *; lia).
    assert (E2 : (x_detail q =? AnyKey) = false) by (apply Z.eqb_neq; unfold AnyKey; lia). rewrite E1, E2. done. }
  rewrite (ungrab_one_action al st' _ m x g Hx Hg Hm Hp), Ea, split_grab_rest, M5. cbn [exact].
  destruct (UPDATE_ok al st' (MkPlan [] [] []) x g FieldDetail (x_detail q) Hg) as (st1 & _ & [[_ (k & z & Hf)]|(mk & -> & _)]);
    [unfold ranged; lia|by rewrite Hmem in Hf|].
  cbn [obind]. unfold split_rest. rewrite K2. by rewrite CreateGrab_core_for_XI2.
Qed.

Lemma unchecked_modifiers_spec st client q x g dev md l :
  one_xi2_grab st client q x g dev -> exact (detail g) = x_detail q -> exact (modifiersDetail g) = XIAnyModifier ->
  x_modifiers q = md :: l -> 256 <= md -> md <> XIAnyModifier ->
  ProcXIPassiveUngrabDevice al st client q = Undefined.
Proof.
  intros Hog Hgd Hgm Hq Hmd Hne. destruct (one_grab_request st client q x g dev md l Hog Hq) as (st' & m & Hx & M1 & M2 & M3 & M4 & M5 & M6 & Hu).
  apply Hu. clear Hu. destruct Hog as [_ _ _ _ [_ Hdet] _ _ (K1 & K2 & K3 & K4) [P1 P2] Hmem].
  assert (Ag : any_modifier g = XIAnyModifier) by (unfold any_modifier; by rewrite K2).
  assert (Am : any_modifier m = XIAnyModifier) by (unfold any_modifier; by rewrite M2).
  assert (E0 : (x_detail q =? AnyKey) = false) by (apply Z.eqb_neq; unfold AnyKey; lia).
  assert (E1 : (md =? XIAnyModifier) = false) by by apply Z.eqb_neq.
  unfold ungrab_one. rewrite Hx. cbn [obind_opt]. rewrite K1, M1, Z.eqb_refl. cbn [negb].
  pose proof (same_xi2 g m K2 M2 ltac:(congruence) ltac:(congruence)) as Hc. unfold concerns in Hc. apply andb_true_iff in Hc as [Hc Hc3].
  apply andb_true_iff in Hc as [Hc1 Hc2]. unfold GrabMatchesSecond. rewrite Hc1, Hc2, Hc3. cbn [negb].
  assert (Hp1 : plain (detail m)) by by rewrite M5. assert (Hp2 : plain (modifiersDetail m)) by by rewrite M6.
  unfold GrabSupersedesSecond. rewrite !DetailSupersedesSecond_plain by done. unfold supersedes. rewrite Ag, Am, M5, M6, Hgd, Hgm, P1, P2.
  cbn [exact pMask]. rewrite E0, E1, !Z.eqb_refl. cbn [andO orO obind negb]. unfold any_key. rewrite M2. cbn [bool_decide].
  change (if bool_decide (XI2 = XI2) then XIAnyKeycode else AnyKey) with AnyKey. rewrite ?E0, ?Z.eqb_refl. cbn [negb andb].
  unfold UPDATE, DeleteDetailFromMask, calloc. rewrite Hmem. cbn [negb field_mask]. rewrite P2. unfold BITCLEAR.
  assert (Ei : replicate 8 (u64 (Z.lnot 0)) !! Z.to_nat (MASKIDX md) = None).
  { apply lookup_ge_None_2. rewrite length_replicate. unfold MASKIDX. rewrite Z.shiftr_div_pow2 by lia. change (2 ^ 5) with 32.
    assert (8 <= md / 32) by (apply Z.div_le_lower_bound; lia). lia. }
  by rewrite Ei.
Qed.
End Crashes.

(** ** A server to try it on *)

(** The client part of an id is in the bits from 21 on; every larger multiple
    of [2 ^ 29] gives another id of the client. *)
Definition demo_id (used : gset Z) (client : Z) : Z :=
  Z.shiftl client 21 + 2 ^ 29 * (1 + foldr (fun x acc => Z.max acc (Z.abs x)) 0 (base.elements used)).
Lemma demo_fresh used client : 0 <= client -> demo_id used client ∉ used.
Proof.
  intros Hc Hin. apply elem_of_elements in Hin. unfold demo_id in Hin. set (l := base.elements used) in *.
  assert (Hmax : forall x, x ∈ l -> x <= foldr (fun x acc => Z.max acc (Z.abs x)) 0 l).
  { clear. induction l as [|y l IH]; [by intros x ?%not_elem_of_nil|]. intros x [->|Hx]%elem_of_cons; cbn; [lia|]. specialize (IH x Hx). lia. }
  assert (Hpos : 0 <= foldr (fun x acc => Z.max acc (Z.abs x)) 0 l) by (clear; induction l; cbn; lia).
  apply Hmax in Hin. rewrite Z.shiftl_mul_pow2 in Hin by lia. nia.
Qed.
Lemma demo_owner used id : let c := dixClientIdForXID 256 id in dixClientIdForXID 256 (demo_id used c) = c.
Proof.
  intros c. assert (E : forall x, dixClientIdForXID 256 x = (x / 2 ^ 21) mod 2 ^ 8).
  { intros x. unfold dixClientIdForXID, CLIENT_BITS. change (RESOURCE_CLIENT_MASK 256) with (Z.shiftl (Z.ones 8) 21).
    change (CLIENTOFFSET 256) with 21. rewrite Z.shiftr_land, Z.shiftr_shiftl_l by lia. change (21 - 21) with 0. rewrite Z.shiftl_0_r, Z.land_ones by lia.
    rewrite Z.shiftr_div_pow2 by lia. unfold u16. apply Z.mod_small.
    assert (0 <= (x / 2 ^ 21) mod 2 ^ 8 < 2 ^ 8) by (apply Z.mod_pos_bound; lia). lia. }
  assert (Hc : 0 <= c < 2 ^ 8) by (subst c; rewrite E; apply Z.mod_pos_bound; lia). clearbody c. rewrite E. unfold demo_id.
  generalize (foldr (fun x acc => Z.max acc (Z.abs x)) 0 (base.elements used)). intros k. rewrite Z.shiftl_mul_pow2 by lia.
  replace (c * 2 ^ 21 + 2 ^ 29 * (1 + k)) with ((c + (1 + k) * 2 ^ 8) * 2 ^ 21) by lia. rewrite Z.div_mul by lia.
  rewrite Z.mod_add by lia. by apply Z.mod_small.
Qed.
Lemma demo_id_fresh used client : demo_id used (Z.abs client) ∉ used.
Proof. apply demo_fresh. lia. Qed.
Lemma demo_id_owner used id : let c := dixClientIdForXID 256 id in dixClientIdForXID 256 (demo_id used (Z.abs c)) = c.
Proof.
  intros c. rewrite Z.abs_eq; [apply demo_owner|]. subst c. unfold dixClientIdForXID, u16. apply Z.mod_pos_bound. lia.
Qed.

(** Device 2 is the pointer and 3 the keyboard, 0 and 1 stand for all devices
    and all masters; windows 100 and 200; cursor 70 has the id 7. *)
Definition demo_env : GrabEnv := {|
  LimitClients := 256;
  FakeClientID := fun used c => demo_id used (Z.abs c);
  fake_fresh := demo_id_fresh;
  fake_owner := demo_id_owner;
  all_devices := 0;
  all_master_devices := 1;
  InputDevIsMaster := fun d => (d =? 2) || (d =? 3);
  dixCallDeviceAccessCallback := fun client dev mode => Success
|}.
Definition demo_windows : WindowLookup := fun id client access => if (id =? 100) || (id =? 200) then Success else BadWindow.
Definition demo_devices : GrabDevices := {|
  PickKeyboard := fun c => 3;
  PickPointer := fun c => 2;
  master_keyboard := fun d => 3;
  key_codes := fun d => if d =? 3 then Some (8, 255) else None;
  lookup_cursor := fun id c => if id =? 7 then (Success, 70) else (BadValue, 0);
  lookup_device := fun id c => (Success, id);
  InputDevIsFloating := fun d => false;
  XIEventBase := 66
|}.
Definition demo_state : GrabState := MkGS ∅ {[ 100 := MkWin false false []; 200 := MkWin false true [] ]} ∅ {[ 70 := 1 ]} ∅ 0.

Lemma demo_window w W : windows demo_state !! w = Some W -> passiveGrabs W = [].
Proof.
  cbn. rewrite lookup_insert_Some, lookup_singleton_Some. by intros [[_ <-]|[_ [_ <-]]].
Qed.
Lemma demo_grabs_ok : grabs_ok demo_state.
Proof.
  split.
  - intros w W HW. apply demo_window in HW. rewrite HW. split; [constructor|]. split; [done|]. by intros x ?%not_elem_of_nil.
  - by intros r x.
  - split; [|intros c; unfold spare, live; cbn; rewrite map_filter_empty, map_size_empty; unfold count; cbn].
    + intros c n. cbn. rewrite lookup_singleton_Some. by intros [_ <-].
    + destruct (decide (70 = c)) as [<-|Hne]; [by rewrite lookup_singleton_eq|by rewrite lookup_singleton_ne].
Qed.
Lemma demo_quiet : quiet (H := demo_env) (H0 := demo_windows) (H1 := demo_devices) demo_state.
Proof.
  split; [exact demo_grabs_ok|split|].
  - intros id c a. unfold window_rc, demo_windows. destruct (Z.eqb_spec id 100) as [->|]; [by exists (MkWin false false [])|].
    destruct (Z.eqb_spec id 200) as [->|]; [by exists (MkWin false true [])|done].
  - intros id c cur. cbn. destruct (id =? 7); [|done]. by intros [= <-].
  - intros c. by exists (8, 255).
  - intros w e e' d md _ _ (W & x & g & HW & Hx & _). rewrite (demo_window w W HW) in Hx. by apply not_elem_of_nil in Hx.
Qed.

(** ** What the requests promise *)

Section Promises.
Context {GE : GrabEnv} {WL : WindowLookup} {GD : GrabDevices} (al : allocator).

(** C2: whatever core requests any clients make for passive grabs of keys and
    buttons, and whatever memory does, the server handles them all: no freed
    grab, missing window or mask is ever used, the lists, the resources and the
    cursor references stay as they have to be, and no two clients ever have the
    same combination of a key or button and modifiers on a window. *)
Theorem core_requests_exclusive st l :
  quiet st -> Forall request_ok l ->
  exists st', handle_all al st l = Ret st' /\ grabs_ok st' /\ exclusive st'.
Proof.
  intros Hq Hl. destruct (handle_all_quiet al l st Hq Hl) as (st' & E & [? _ ?]). by exists st'.
Qed.

(** C20: [GrabKey] gives the client all combinations it asks for and nobody else
    anything, and it succeeds only when no other client has one of them; no
    other combination is lost.  When it fails, nothing changes, but a client for
    which memory fails may have lost what it asked for. *)
Theorem GrabKey_grants st client q :
  grabs_ok st -> served st -> valid_client client -> key_request_ok (k_key q) (k_modifiers q) ->
  exists rc bad st', ProcGrabKey al st client q = Ret (rc, bad, st') /\ grabs_ok st' /\
    ((rc = Success /\ grabbed st st' client (k_grabWindow q) KeyPress (k_key q) (k_modifiers q)) \/
     not_grabbed al st st' client (k_grabWindow q) KeyPress (k_key q) (k_modifiers q) rc).
Proof.
  intros Hok Hs Hv Hq. destruct (ProcGrabKey_spec al st client q Hok Hs Hv Hq) as (rc & bad & st' & E & Hok' & _ & Hres). by exists rc, bad, st'.
Qed.

(** C21: [UngrabKey] takes exactly the combinations of the request from what the
    client has through core grabs of keys on the window, splitting grabs where
    it has to; when it does not succeed nothing changes. *)
Theorem UngrabKey_subtracts st client q :
  grabs_ok st -> served st -> valid_client client -> key_request_ok (u_key q) (u_modifiers q) ->
  exists rc bad st', ProcUngrabKey al st client q = Ret (rc, bad, st') /\ grabs_ok st' /\
    ((rc <> Success /\ forall w e d md, granted st' w e d md <-> granted st w e d md) \/
     (rc = Success /\ forall w e d md, ranged d -> ranged md ->
        granted st' w e d md <-> granted st w e d md /\
          ~ (w = u_grabWindow q /\ core_grant client KeyPress e /\ requested (u_key q) (u_modifiers q) d md))).
Proof.
  intros Hok Hs Hv Hq. destruct (ProcUngrabKey_spec al st client q Hok Hs Hv Hq) as (rc & bad & st' & E & Hok' & _ & Hres). by exists rc, bad, st'.
Qed.

(** C3: in a well-formed state, and unless a grab of XI2 would have to be split
    ([no_xi2_split]; that split is undefined, see [XI2_split_undefined]),
    [DeletePassiveGrabFromList], for a grab as requests make it (without masks,
    [plain_grab]), implements the subtraction of sets of combinations, by deleting grabs, clearing bits of their masks and splitting
    them, or it answers that memory failed and has changed nothing. *)
Theorem DeletePassiveGrabFromList_subtracts st x0 m W :
  grabs_ok st -> grabs st !! x0 = Some m -> grab_ok m -> plain_grab m -> windows st !! window m = Some W -> no_xi2_split st m W ->
  exists b st', DeletePassiveGrabFromList al st x0 = Ret (b, st') /\ grabs_ok st' /\
    if b then forall w e d md, ranged d -> ranged md ->
      granted st' w e d md <-> granted st w e d md /\ ~ (w = window m /\ takes m e d md)
    else failure al /\ same st st'.
Proof.
  intros Hok Hx Hm Hp HW Hs. destruct (DeletePassiveGrabFromList_spec al st x0 m W Hok Hx Hm Hp HW Hs) as (b & st' & E & Hok' & _ & Hf & Ht).
  exists b, st'. split; [done|]. split; [done|]. destruct b; [by apply Ht|by apply Hf].
Qed.

(** C36: a client that has grabbed any key with any modifiers through XI2 and
    ungrabs one key with one set of modifiers makes the server read memory that
    is not a mask: the grab that the split makes gets the core event mask where
    the pointer to the XI2 mask has to be. *)
Theorem XI2_split_undefined st client q x g dev md l :
  one_xi2_grab al st client q x g dev -> exact (detail g) = AnyKey -> exact (modifiersDetail g) = XIAnyModifier ->
  x_modifiers q = md :: l -> ranged md ->
  ProcXIPassiveUngrabDevice al st client q = Undefined.
Proof. intros H1 H2 H3 H4 H5. by apply (xi2_split_crashes_spec al st client q x g dev md l). Qed.

(** [ProcXIPassiveUngrabDevice] does not check the modifiers: those of 256
    and more are a bit outside the mask of a grab with any modifiers, and the
    server writes there. *)
Theorem XI2_modifiers_out_of_bounds st client q x g dev md l :
  one_xi2_grab al st client q x g dev -> exact (detail g) = x_detail q -> exact (modifiersDetail g) = XIAnyModifier ->
  x_modifiers q = md :: l -> 256 <= md -> md <> XIAnyModifier ->
  ProcXIPassiveUngrabDevice al st client q = Undefined.
Proof. intros H1 H2 H3 H4 H5 H6. by apply (unchecked_modifiers_spec al st client q x g dev md l). Qed.
End Promises.

(** ** At concrete states *)

(** Client 1 takes every key of window 100 and gives key 38 with modifiers 4
    back, which splits its grab, so that client 2 can have it. *)
Definition demo_requests : list core_request := [
  GrabKeyReq 1 {| k_ownerEvents := 1; k_grabWindow := 100; k_modifiers := AnyModifier; k_key := AnyKey; k_pointerMode := 1; k_keyboardMode := 1 |};
  GrabKeyReq 2 {| k_ownerEvents := 1; k_grabWindow := 100; k_modifiers := 4; k_key := 38; k_pointerMode := 1; k_keyboardMode := 1 |};
  UngrabKeyReq 1 {| u_key := 38; u_grabWindow := 100; u_modifiers := 4 |};
  GrabKeyReq 2 {| k_ownerEvents := 1; k_grabWindow := 100; k_modifiers := 4; k_key := 38; k_pointerMode := 1; k_keyboardMode := 1 |};
  GrabButtonReq 2 {| b_ownerEvents := 0; b_grabWindow := 200; b_eventMask := 4; b_pointerMode := 0; b_keyboardMode := 1;
    b_confineTo := 0; b_cursor := 7; b_button := 1; b_modifiers := 0 |};
  UngrabButtonReq 2 {| v_button := 0; v_grabWindow := 200; v_modifiers := AnyModifier |} ].
Definition plenty : allocator := fun _ _ => true.

Lemma core_requests_exclusive_witness :
  exists st', handle_all (H := demo_env) (H0 := demo_windows) (H1 := demo_devices) plenty demo_state demo_requests = Ret st' /\
    grabs_ok st' /\ exclusive (H := demo_env) st'.
Proof.
  apply (core_requests_exclusive (GE := demo_env) (WL := demo_windows) (GD := demo_devices) plenty demo_state demo_requests demo_quiet).
  repeat constructor; vm_compute; by intros.
Defined.

Definition demo_grab_key : xGrabKeyReq :=
  {| k_ownerEvents := 1; k_grabWindow := 100; k_modifiers := AnyModifier; k_key := AnyKey; k_pointerMode := 1; k_keyboardMode := 1 |}.
Lemma GrabKey_grants_witness :
  exists rc bad st', ProcGrabKey (H := demo_env) (H0 := demo_windows) (H1 := demo_devices) plenty demo_state 1 demo_grab_key = Ret (rc, bad, st') /\
    grabs_ok st' /\
    ((rc = Success /\ grabbed (H := demo_env) demo_state st' 1 100 KeyPress AnyKey AnyModifier) \/
     not_grabbed (H := demo_env) plenty demo_state st' 1 100 KeyPress AnyKey AnyModifier rc).
Proof.
  apply (GrabKey_grants (GE := demo_env) (WL := demo_windows) (GD := demo_devices) plenty demo_state 1 demo_grab_key demo_grabs_ok
    (qu_served (H := demo_env) (H0 := demo_windows) (H1 := demo_devices) demo_state demo_quiet)); vm_compute; [done|by repeat split].
Defined.

(** After that request. *)
Definition demo_grabbed : GrabState :=
  match handle_all (H := demo_env) (H0 := demo_windows) (H1 := demo_devices) plenty demo_state [GrabKeyReq 1 demo_grab_key] with
  | Ret st => st
  | _ => demo_state
  end.
Lemma demo_grabbed_quiet : quiet (H := demo_env) (H0 := demo_windows) (H1 := demo_devices) demo_grabbed.
Proof.
  unfold demo_grabbed.
  destruct (handle_all_quiet (H := demo_env) (H0 := demo_windows) (H1 := demo_devices) plenty [GrabKeyReq 1 demo_grab_key] demo_state demo_quiet)
    as (st' & -> & Hq); [by repeat constructor; vm_compute|done].
Qed.
Definition demo_ungrab_key : xUngrabKeyReq := {| u_key := 38; u_grabWindow := 100; u_modifiers := 4 |}.
Lemma UngrabKey_subtracts_witness :
  exists rc bad st', ProcUngrabKey (H := demo_env) (H0 := demo_windows) (H1 := demo_devices) plenty demo_grabbed 1 demo_ungrab_key = Ret (rc, bad, st') /\
    grabs_ok st' /\
    ((rc <> Success /\ forall w e d md, granted (H := demo_env) st' w e d md <-> granted (H := demo_env) demo_grabbed w e d md) \/
     (rc = Success /\ forall w e d md, ranged d -> ranged md ->
        granted (H := demo_env) st' w e d md <-> granted (H := demo_env) demo_grabbed w e d md /\
          ~ (w = 100 /\ core_grant 1 KeyPress e /\ requested 38 4 d md))).
Proof.
  apply (UngrabKey_subtracts (GE := demo_env) (WL := demo_windows) (GD := demo_devices) plenty demo_grabbed 1 demo_ungrab_key
    (qu_ok (H := demo_env) (H0 := demo_windows) (H1 := demo_devices) demo_grabbed demo_grabbed_quiet)
    (qu_served (H := demo_env) (H0 := demo_windows) (H1 := demo_devices) demo_grabbed demo_grabbed_quiet)); vm_compute; [done|by repeat split].
Defined.

Definition demo_cell : Z := match map_to_list (grabs demo_grabbed) with (x, _) :: _ => x | [] => 0 end.
Definition demo_grab : GrabRec := default blank_grab (grabs demo_grabbed !! demo_cell).
Definition demo_win : WinRec := default (MkWin false false []) (windows demo_grabbed !! 100).
Lemma DeletePassiveGrabFromList_subtracts_witness :
  exists b st', DeletePassiveGrabFromList (H := demo_env) plenty demo_grabbed demo_cell = Ret (b, st') /\ grabs_ok st' /\
    if b then forall w e d md, ranged d -> ranged md ->
      granted (H := demo_env) st' w e d md <->
      granted (H := demo_env) demo_grabbed w e d md /\ ~ (w = window demo_grab /\ takes (H := demo_env) demo_grab e d md)
    else failure plenty /\ same demo_grabbed st'.
Proof.
  assert (E1 : detail demo_grab = MkDetail AnyKey None) by (vm_compute; reflexivity).
  assert (E2 : modifiersDetail demo_grab = MkDetail AnyModifier None) by (vm_compute; reflexivity).
  assert (E3 : grabtype demo_grab = CORE) by (vm_compute; reflexivity).
  assert (Hg : grab_ok demo_grab) by (split; unfold any_modifier; rewrite ?E1, ?E2, ?E3; by split).
  assert (Hp : plain_grab demo_grab) by (by split; rewrite ?E1, ?E2).
  apply (DeletePassiveGrabFromList_subtracts (GE := demo_env) plenty demo_grabbed demo_cell demo_grab demo_win
    (qu_ok (H := demo_env) (H0 := demo_windows) (H1 := demo_devices) demo_grabbed demo_grabbed_quiet)).
  - vm_compute; reflexivity.
  - exact Hg.
  - exact Hp.
  - vm_compute; reflexivity.
  - by apply (core_no_split (H := demo_env)).
Defined.

(** Client 1 has one grab of XI2 on window 100. *)
Definition demo_xi2_grab (key : Z) : GrabRec :=
  MkGrab (Z.shiftl 1 21 + 5) 3 100 0 1 1 XI2 XI_KeyPress (MkDetail XIAnyModifier None) 3 (MkDetail key None) None None 0 0 zero_xi2.
Definition demo_xi2 (key : Z) : GrabState :=
  MkGS {[ 1 := demo_xi2_grab key ]} {[ 100 := MkWin true false [1] ]} {[ Z.shiftl 1 21 + 5 := 1 ]} ∅ {[ Z.shiftl 1 21 + 5 ]} 0.
Definition demo_ungrab (mods : Z) : xXIPassiveUngrabDeviceReq :=
  {| x_grab_window := 100; x_detail := 38; x_deviceid := 3; x_grab_type := XIGrabtypeKeycode; x_modifiers := [mods] |}.
Lemma demo_one_xi2 key mods :
  one_xi2_grab (H := demo_env) (H0 := demo_windows) (H1 := demo_devices) plenty (demo_xi2 key) 1 (demo_ungrab mods) 1 (demo_xi2_grab key) 3.
Proof. split; try done. by exists (MkWin true false [1]). Qed.

Lemma XI2_split_undefined_witness :
  ProcXIPassiveUngrabDevice (H := demo_env) (H0 := demo_windows) (H1 := demo_devices) plenty (demo_xi2 AnyKey) 1 (demo_ungrab 4) = Undefined.
Proof.
  apply (XI2_split_undefined (GE := demo_env) (WL := demo_windows) (GD := demo_devices) plenty (demo_xi2 AnyKey) 1 (demo_ungrab 4) 1
    (demo_xi2_grab AnyKey) 3 4 [] (demo_one_xi2 AnyKey 4)); try done.
Defined.
Lemma XI2_modifiers_out_of_bounds_witness :
  ProcXIPassiveUngrabDevice (H := demo_env) (H0 := demo_windows) (H1 := demo_devices) plenty (demo_xi2 38) 1 (demo_ungrab 4096) = Undefined.
Proof.
  apply (XI2_modifiers_out_of_bounds (GE := demo_env) (WL := demo_windows) (GD := demo_devices) plenty (demo_xi2 38) 1 (demo_ungrab 4096) 1
    (demo_xi2_grab 38) 3 4096 [] (demo_one_xi2 38 4096)); try done.
Defined.
