(* ===== verification/GrabEvent.v ===== *)
(** * GrabEvent: which passive grab an event activates

    The search of [dix/events.c] for a passive grab of an event on a window:
    every grab of the list is compared with a temporary one, at each level of
    input, and the first that matches and can be activated is taken. *)

From S2P Require Import Prelude.
From S2P Require Import Resource.
From S2P Require Import DixUtils.
From S2P Require Import EventQueue.
From S2P Require Import Grabs.
From S2P Require Import GrabSets.
From S2P Require Import GrabHeap.
From S2P Require Import GrabAction.
From S2P Require Import GrabDelete.
From S2P Require Import GrabPlan.
From S2P Require Import GrabScan.
From S2P Require Import GrabUngrab.
From S2P Require Import GrabSubtract.
From S2P Require Import GrabAdd.
From S2P Require Import GrabRequest.
From S2P Require Import GrabClient.
From S2P Require Import GrabPolicy.

(** ** Types of events *)

Definition ET_Enter : Z := 11.
Definition ET_Leave : Z := 12.
Definition ET_FocusIn : Z := 13.
Definition ET_FocusOut : Z := 14.
Definition KeyRelease : Z := 3.
Definition ButtonRelease : Z := 5.
Definition MotionNotify : Z := 6.
Definition GenericEvent : Z := 35.

Section Types.
Context `{GrabDevices}.

(** The first entry of a table for a type, or 0. *)
Fixpoint lookup_type (l : list (Z * Z)) (t : Z) : Z :=
  match l with [] => 0 | (a, b) :: l => if t =? a then b else lookup_type l t end.

(** [dix/eventconvert.c: GetCoreType] *)
Definition GetCoreType (type : Z) : Z :=
  lookup_type [(ET_Motion, MotionNotify); (ET_ButtonPress, ButtonPress); (ET_ButtonRelease, ButtonRelease);
    (ET_KeyPress, KeyPress); (ET_KeyRelease, KeyRelease)] type.

(** The numbers of the extension's events follow its first one.
    [dix/eventconvert.c: GetXIType] *)
Definition GetXIType (type : Z) : Z :=
  lookup_type [(ET_Motion, XIEventBase + 5); (ET_ButtonPress, DeviceButtonPress XIEventBase); (ET_ButtonRelease, XIEventBase + 4);
    (ET_KeyPress, DeviceKeyPress XIEventBase); (ET_KeyRelease, XIEventBase + 2);
    (ET_ProximityIn, XIEventBase + 8); (ET_ProximityOut, XIEventBase + 9)] type.

(** With the numbers of XI2.h.
    [dix/eventconvert.c: GetXI2Type] *)
Definition GetXI2Type (type : Z) : Z :=
  lookup_type [(ET_Motion, 6); (ET_ButtonPress, XI_ButtonPress); (ET_ButtonRelease, 5); (ET_KeyPress, XI_KeyPress); (ET_KeyRelease, 3);
    (ET_Enter, XI_Enter); (ET_Leave, 8); (ET_Hierarchy, 11); (ET_DeviceChanged, 1);
    (ET_RawKeyPress, 13); (ET_RawKeyRelease, 14); (ET_RawButtonPress, 15); (ET_RawButtonRelease, 16); (ET_RawMotion, 17);
    (ET_RawTouchBegin, 22); (ET_RawTouchUpdate, 23); (ET_RawTouchEnd, 24); (ET_FocusIn, XI_FocusIn); (ET_FocusOut, 10);
    (ET_TouchBegin, XI_TouchBegin); (ET_TouchEnd, 20); (ET_TouchUpdate, 19); (ET_TouchOwnership, 21);
    (ET_BarrierHit, 25); (ET_BarrierLeave, 26);
    (ET_GesturePinchBegin, XI_GesturePinchBegin); (ET_GesturePinchUpdate, 28); (ET_GesturePinchEnd, 29);
    (ET_GestureSwipeBegin, XI_GestureSwipeBegin); (ET_GestureSwipeUpdate, 31); (ET_GestureSwipeEnd, 32)] type.

(** [dix/touch.c: TouchGetPointerEventType] *)
Definition TouchGetPointerEventType (type : Z) : Z :=
  lookup_type [(ET_TouchBegin, ET_ButtonPress); (ET_TouchUpdate, ET_Motion); (ET_TouchEnd, ET_ButtonRelease)] type.
End Types.

(** What is read of an event: the type, the key or button, and whether it is a
    touch that also moves the pointer. *)
Record GrabEvent := MkGE { e_type : Z; e_detail : Z; pointer_emulated : bool }.

(** The rest of the input devices: the keyboard that the core protocol takes
    modifiers from, the modifiers of a keyboard (a byte, 0 without keys), what
    kind a device is, the grabs that are active on devices, windows that can
    confine the pointer of a device, and the answer of [ActivatePassiveGrab]
    for a grab on a device. *)
Class EventDevices := {
  keyboard_or_float : Z -> Z;
  grab_mods : Z -> Z;
  grab_mods_byte : forall d, 0 <= grab_mods d < 256;
  IsPointerDevice : Z -> bool;
  IsKeyboardDevice : Z -> bool;
  active_grabs : list (option GrabRec);
  can_confine : Z -> Z -> bool;
  ActivatePassiveGrab : Z -> Z -> bool
}.

Section Search.
Context `{GrabEnv} `{GrabDevices} `{EventDevices} (al : allocator).
Implicit Types (st : GrabState) (g tmp : GrabRec) (ev : GrabEvent).

(** [Xi/exevents.c: IsTouchEvent] *)
Definition IsTouchEvent (type : Z) : bool := (type =? ET_TouchBegin) || (type =? ET_TouchUpdate) || (type =? ET_TouchEnd).

(** A client that already has a core grab of the same kind of device.
    [dix/events.c: CoreGrabInterferes] *)
Definition CoreGrabInterferes g : bool :=
  existsb (fun o => match o with
                    | Some og =>
                        bool_decide (grabtype og = CORE) && (owner g =? owner og) &&
                        ((IsPointerDevice (device g) && IsPointerDevice (device og)) || (IsKeyboardDevice (device g) && IsKeyboardDevice (device og)))
                    | None => false
                    end) active_grabs.

Definition type_at (level : InputLevel) (t : Z) : Z :=
  match level with XI2 => GetXI2Type t | XI => GetXIType t | CORE => GetCoreType t end.

(** Whether it matches, and the temporary grab.
    [dix/events.c: MatchForType] *)
Definition MatchForType g tmp (level : InputLevel) (event_type : Z) : outcome (bool * GrabRec) :=
  let evtype := type_at level event_type in
  let tmp := tmp <| grabtype := level |> <| type := evtype |> in
  if evtype =? 0 then Ret (false, tmp)
  else b <-- GrabMatchesSecond tmp g (bool_decide (level = CORE)); Ret (b, tmp).

(** The next comparison, when there was no match yet and [c] holds. *)
Definition or_match (o : outcome (bool * GrabRec)) (c : bool) g (level : InputLevel) (event_type : Z) : outcome (bool * GrabRec) :=
  '(m, tmp) <-- o; if negb m && c then MatchForType g tmp level event_type else Ret (m, tmp).

(** [dix/events.c: CheckPassiveGrab 3970-3981] *)
Definition modifier_keyboard (device_ : Z) g : Z :=
  match grabtype g with
  | CORE => keyboard_or_float device_
  | XI => modifierDevice g
  | XI2 => if negb (InputDevIsMaster (device g)) && negb (InputDevIsFloating device_) then master_keyboard device_ else modifierDevice g
  end.

(** The grab of a core event goes to the device that it comes from.
    [dix/events.c: CheckPassiveGrab 4028-4031] *)
Definition redevice (device_ : Z) g : GrabRec :=
  if type g <? GenericEvent then g <| device := device_ |> <| modifierDevice := master_keyboard device_ |> else g.

(** [dix/events.c: CheckPassiveGrab] *)
Definition CheckPassiveGrab st (device_ x : Z) ev (checkCore : bool) tmp : outcome (bool * GrabState * GrabRec) :=
  g <-? grabs st !! x;
  let tmp := tmp <| modifierDevice := modifierDevice g |> <| modifiersDetail ::= fun d => d <| exact := grab_mods (modifier_keyboard device_ g) |> |> in
  let emulated := IsTouchEvent (e_type ev) && pointer_emulated ev in
  let emulated_type := TouchGetPointerEventType (e_type ev) in
  let o := MatchForType g tmp XI2 (e_type ev) in
  let o := or_match o emulated g XI2 emulated_type in
  let o := or_match o true g XI (e_type ev) in
  let o := or_match o emulated g XI emulated_type in
  let o := or_match o checkCore g CORE (e_type ev) in
  let o := or_match o (checkCore && emulated) g CORE emulated_type in
  '(m, tmp) <-- o;
  let confined := match confineTo g with Some w => can_confine device_ w | None => true end in
  if negb m || negb confined then Ret (false, st, tmp)
  else
    if bool_decide (grabtype g = CORE) then
      let g := redevice device_ g in
      Ret (negb (CoreGrabInterferes g), st <| grabs ::= <[x := g]> |>, tmp)
    else Ret (true, st, tmp).

(** [dix/events.c: CheckPassiveGrabsOnWindow 4091-4099] *)
Fixpoint check_grabs st (device_ : Z) ev (checkCore activate : bool) tmp (l : list Z) : outcome (option Z * GrabState) :=
  match l with
  | [] => Ret (None, st)
  | x :: l =>
      '(ok, st, tmp) <-- CheckPassiveGrab st device_ x ev checkCore tmp;
      if negb ok then check_grabs st device_ ev checkCore activate tmp l
      else if activate && negb (ActivatePassiveGrab device_ x) then check_grabs st device_ ev checkCore activate tmp l
      else Ret (Some x, st)
  end.

(** [dix/events.c: CheckPassiveGrabsOnWindow 4070-4084] *)
Definition event_detail ev : Z :=
  if bool_decide (e_type ev ∈ [ET_KeyPress; ET_KeyRelease; ET_ButtonPress; ET_ButtonRelease; ET_TouchBegin; ET_TouchEnd]) then e_detail ev else 0.

(** The temporary grab is only seen here; its record is passed along and its
    cell freed.
    [dix/events.c: CheckPassiveGrabsOnWindow] *)
Definition CheckPassiveGrabsOnWindow st (pWin device_ : Z) ev (checkCore activate : bool) : outcome (option Z * GrabState) :=
  l <-- wPassiveGrabs st pWin;
  match l with
  | [] => Ret (None, st)
  | _ =>
      '(tempGrab, st) <-- AllocGrab al st None;
      match tempGrab with
      | None => Ret (None, st)
      | Some t =>
          g <-? grabs st !! t;
          let tmp := g <| detail := MkDetail (event_detail ev) None |> <| window := pWin |> <| device := device_ |>
                       <| modifiersDetail ::= fun d => d <| pMask := None |> |> in
          '(grab, st) <-- check_grabs st device_ ev checkCore activate tmp l;
          st <-- FreeGrab st t;
          Ret (grab, st)
      end
  end.
End Search.

(** ** What the search finds *)

Section Find.
Context `{GrabEnv} `{GrabDevices} `{EventDevices} (al : allocator).

(** A device of an event and one of a grab of the same level. *)
Definition device_fits (device_ : Z) (g : GrabRec) : bool :=
  match grabtype g with
  | CORE => true
  | XI => device_ =? device g
  | XI2 =>
      if (device_ =? all_devices) || (device g =? all_devices) then true
      else if device_ =? all_master_devices then (device g =? all_master_devices) || InputDevIsMaster (device g)
      else if device g =? all_master_devices then (device_ =? all_master_devices) || InputDevIsMaster device_
      else device g =? device_
  end.
Definition type_fits (g : GrabRec) (t : Z) : Prop := type_at (grabtype g) t = type g /\ type g <> 0.
Definition emulated_press (ev : GrabEvent) : bool := IsTouchEvent (e_type ev) && pointer_emulated ev.
Definition event_mods (device_ : Z) (g : GrabRec) : Z := grab_mods (modifier_keyboard device_ g).

(** The grab is for the event. *)
Definition for_event (device_ : Z) (ev : GrabEvent) (checkCore : bool) (g : GrabRec) : Prop :=
  (type_fits g (e_type ev) \/ emulated_press ev = true /\ type_fits g (TouchGetPointerEventType (e_type ev))) /\
  (grabtype g = CORE -> checkCore = true) /\ device_fits device_ g = true /\ hits g (event_detail ev) (event_mods device_ g).
(** It can be activated. *)
Definition activatable (device_ : Z) (ev : GrabEvent) (checkCore : bool) (g : GrabRec) : Prop :=
  for_event device_ ev checkCore g /\ (forall w, confineTo g = Some w -> can_confine device_ w = true) /\
  (grabtype g = CORE -> CoreGrabInterferes (redevice device_ g) = false).
Definition taken (device_ : Z) (ev : GrabEvent) (checkCore activate : bool) (x : Z) (g : GrabRec) : Prop :=
  activatable device_ ev checkCore g /\ (activate = true -> ActivatePassiveGrab device_ x = true).

(** *** One comparison *)

Record temp_ok (device_ d m mdev : Z) (tmp : GrabRec) : Prop := {
  to_device : device tmp = device_;
  to_detail : detail tmp = MkDetail d None;
  to_modifiers : modifiersDetail tmp = MkDetail m None;
  to_modifierDevice : modifierDevice tmp = mdev
}.
Lemma one_meets any d x : x <> any -> meets any d (MkDetail x None) <-> in_detail any d x.
Proof. intros Hne. unfold meets. cbn. tauto. Qed.

Lemma MatchForType_spec g tmp level t device_ d m :
  grab_ok g -> temp_ok device_ d m (modifierDevice g) tmp -> ranged d -> d <> AnyKey -> ranged m ->
  exists b tmp', MatchForType g tmp level t = Ret (b, tmp') /\ temp_ok device_ d m (modifierDevice g) tmp' /\
    (b = true <-> grabtype g = level /\ type_fits g t /\ device_fits device_ g = true /\ hits g d m).
Proof.
  intros Hg [T1 T2 T3 T4] Hd Hd0 Hm. unfold MatchForType. set (tmp' := tmp <| grabtype := level |> <| type := type_at level t |>).
  assert (Ht : temp_ok device_ d m (modifierDevice g) tmp') by by split. unfold type_fits.
  destruct (Z.eqb_spec (type_at level t) 0) as [E0|E0].
  { exists false, tmp'. split; [done|]. split; [done|]. split; [done|]. intros (<- & [E ?] & _). congruence. }
  assert (Hany : m <> any_modifier tmp').
  { unfold any_modifier, ranged, XIAnyModifier, AnyModifier in *. case_bool_decide; lia. }
  assert (Hok : grab_ok tmp').
  { split; [change (detail tmp') with (detail tmp); rewrite T2|change (modifiersDetail tmp') with (modifiersDetail tmp); rewrite T3]; by split. }
  rewrite GrabMatchesSecond_spec by done. cbn [obind]. eexists _, tmp'. split; [reflexivity|]. split; [done|].
  rewrite (orb_comm (supersedes AnyKey (detail tmp') _)), (orb_comm (supersedes (any_modifier tmp') (modifiersDetail tmp') _)).
  rewrite !andb_true_iff. change (detail tmp') with (detail tmp). change (modifiersDetail tmp') with (modifiersDetail tmp). rewrite T2, T3.
  rewrite <- (meets_spec AnyKey (detail g) (MkDetail d None)) by (try apply Hg; done). rewrite one_meets by done.
  unfold concerns. change (grabtype tmp') with level. change (type tmp') with (type_at level t). rewrite !andb_true_iff, bool_decide_eq_true, Z.eqb_eq.
  destruct (decide (grabtype g = level)) as [El|El]; [|split; [intros [[[[E _] _] _] _]; congruence|intros [E _]; congruence]].
  assert (Ea : any_modifier tmp' = any_modifier g) by (unfold any_modifier; change (grabtype tmp') with level; by rewrite El).
  rewrite Ea in *. rewrite <- (meets_spec (any_modifier g) (modifiersDetail g) (MkDetail m None)) by (try apply Hg; done). rewrite one_meets by done.
  unfold hits, type_fits. rewrite El.
  assert (Hdev : same_devices tmp' g (bool_decide (level = CORE)) = device_fits device_ g).
  { unfold same_devices, device_fits. change (grabtype tmp') with level. change (device tmp') with (device tmp). change (modifierDevice tmp') with (modifierDevice tmp).
    rewrite T1, T4, El. destruct level; cbn; [done| |].
    - rewrite Z.eqb_refl. by destruct (device_ =? device g).
    - destruct (device_ =? all_devices), (device g =? all_devices), (device_ =? all_master_devices), (device g =? all_master_devices),
        (InputDevIsMaster (device g)), (InputDevIsMaster device_); done. }
  rewrite Hdev. split.
  - intros [[[[_ Hf] Ety] K1] K2]. split; [done|]. split; [split; [done|congruence]|]. by split.
  - intros (_ & [Ety _] & Hf & K1 & K2). by split_and!.
Qed.

(** The result of the comparisons so far. *)
Definition matched_so_far (device_ d m mdev : Z) (o : outcome (bool * GrabRec)) (P : Prop) : Prop :=
  exists b tmp, o = Ret (b, tmp) /\ temp_ok device_ d m mdev tmp /\ (b = true <-> P).
Lemma or_match_ok g device_ d m o P c level t :
  grab_ok g -> ranged d -> d <> AnyKey -> ranged m ->
  matched_so_far device_ d m (modifierDevice g) o P ->
  matched_so_far device_ d m (modifierDevice g) (or_match o c g level t)
    (P \/ c = true /\ grabtype g = level /\ type_fits g t /\ device_fits device_ g = true /\ hits g d m).
Proof.
  intros Hg Hd Hd0 Hm (b & tmp & -> & Ht & Hb). unfold or_match. cbn [obind]. destruct b; cbn [negb andb].
  { exists true, tmp. split; [done|]. split; [done|]. split; [|done]. intros _. left. by apply Hb. }
  destruct c; cbn [andb].
  - destruct (MatchForType_spec g tmp level t device_ d m Hg Ht Hd Hd0 Hm) as (b & tmp' & -> & Ht' & Hb'). exists b, tmp'. split; [done|]. split; [done|].
    rewrite Hb'. split; [by right|]. intros [HP|[_ ?]]; [by apply Hb in HP|done].
  - exists false, tmp. split; [done|]. split; [done|]. split; [done|]. intros [HP|[? _]]; [by apply Hb|done].
Qed.

(** *** One grab *)

(** Some core grabs were given other devices. *)
Record redeviced (st st' : GrabState) : Prop := {
  rd_windows : windows st' = windows st;
  rd_resources : resources st' = resources st;
  rd_cursors : cursors st' = cursors st;
  rd_grabs : forall x, grabs st' !! x = grabs st !! x \/
    exists g device_, grabs st !! x = Some g /\ grabtype g = CORE /\ grabs st' !! x = Some (redevice device_ g)
}.
Lemma redevice_twice d1 d2 g : redevice d2 (redevice d1 g) = redevice d2 g.
Proof. unfold redevice. destruct (type g <? GenericEvent) eqn:E; [|by rewrite E]. cbn. by rewrite E. Qed.
Lemma redeviced_trans st1 st2 st3 : redeviced st1 st2 -> redeviced st2 st3 -> redeviced st1 st3.
Proof.
  intros [A1 A2 A3 A4] [B1 B2 B3 B4]. split; try congruence. intros x. destruct (B4 x) as [E|(g & dv & Eg & Et & E)].
  - rewrite E. apply A4.
  - destruct (A4 x) as [F|(g0 & dv0 & Fg & Ft & F)].
    + right. exists g, dv. by rewrite <- F.
    + right. exists g0, dv. split; [done|]. split; [done|]. rewrite F in Eg. injection Eg as <-. by rewrite E, redevice_twice.
Qed.
Lemma redeviced_refl st : redeviced st st.
Proof. split; try done. by left. Qed.

Lemma CheckPassiveGrab_spec st device_ x ev checkCore tmp g m0 mdev0 :
  grabs st !! x = Some g -> grab_ok g -> ranged (event_detail ev) -> event_detail ev <> AnyKey ->
  temp_ok device_ (event_detail ev) m0 mdev0 tmp ->
  exists b st' tmp' m1 mdev1, CheckPassiveGrab st device_ x ev checkCore tmp = Ret (b, st', tmp') /\
    temp_ok device_ (event_detail ev) m1 mdev1 tmp' /\ redeviced st st' /\ (forall y, y <> x -> grabs st' !! y = grabs st !! y) /\
    (b = true <-> activatable device_ ev checkCore g).
Proof.
  intros Hx Hg Hd Hd0 [T1 T2 T3 T4]. unfold CheckPassiveGrab. rewrite Hx. cbn [obind_opt].
  set (m := grab_mods (modifier_keyboard device_ g)). set (tmp1 := tmp <| modifierDevice := _ |> <| modifiersDetail ::= _ |>).
  assert (Ht : temp_ok device_ (event_detail ev) m (modifierDevice g) tmp1).
  { split; try done. subst tmp1. cbn. by rewrite T3. }
  assert (Hm : ranged m) by apply grab_mods_byte.
  assert (K1 : matched_so_far device_ (event_detail ev) m (modifierDevice g) (MatchForType g tmp1 XI2 (e_type ev))
    (grabtype g = XI2 /\ type_fits g (e_type ev) /\ device_fits device_ g = true /\ hits g (event_detail ev) m)).
  { destruct (MatchForType_spec g tmp1 XI2 (e_type ev) device_ (event_detail ev) m Hg Ht Hd Hd0 Hm) as (b & tmp' & E & ? & ?). by exists b, tmp'. }
  fold (emulated_press ev). set (t2 := TouchGetPointerEventType (e_type ev)).
  pose proof (fun o P c l t => or_match_ok g device_ (event_detail ev) m o P c l t Hg Hd Hd0 Hm) as Hor.
  apply (Hor _ _ (emulated_press ev) XI2 t2) in K1. apply (Hor _ _ true XI (e_type ev)) in K1. apply (Hor _ _ (emulated_press ev) XI t2) in K1.
  apply (Hor _ _ checkCore CORE (e_type ev)) in K1. apply (Hor _ _ (checkCore && emulated_press ev) CORE t2) in K1. clear Hor.
  destruct K1 as (b & tmp' & -> & Ht' & Hb). cbn [obind].
  assert (Hfe : b = true <-> for_event device_ ev checkCore g).
  { rewrite Hb. unfold for_event, event_mods. fold m t2. rewrite andb_true_iff. destruct (grabtype g) eqn:Eg; intuition congruence. }
  clear Hb. set (confined := match confineTo g with Some w => can_confine device_ w | None => true end).
  assert (Hcf : confined = true <-> forall w, confineTo g = Some w -> can_confine device_ w = true).
  { subst confined. destruct (confineTo g) as [w|]; [|done]. split; [by intros ? w' [= <-]|intros Hw; by apply Hw]. }
  unfold activatable. destruct (negb b || negb confined) eqn:En.
  { exists false, st, tmp', m, (modifierDevice g). split; [done|]. split; [done|]. split; [apply redeviced_refl|]. split; [done|]. split; [done|].
    intros (Hf & Hc & _). apply Hfe in Hf. apply Hcf in Hc. by rewrite Hf, Hc in En. }
  apply orb_false_iff in En as [En1%negb_false_iff En2%negb_false_iff]. case_bool_decide as Ec.
  - eexists _, _, tmp', m, (modifierDevice g). split; [reflexivity|]. split; [done|]. split; [|split].
    + split; try done. intros y. cbn. destruct (Z.eq_dec x y) as [<-|Hne]; [right|left; by apply lookup_insert_ne].
      exists g, device_. by rewrite lookup_insert_eq.
    + intros y Hne. cbn. by apply lookup_insert_ne.
    + rewrite negb_true_iff, <- Hfe, <- Hcf. tauto.
  - exists true, st, tmp', m, (modifierDevice g). split; [done|]. split; [done|]. split; [apply redeviced_refl|]. split; [done|].
    rewrite <- Hfe, <- Hcf. tauto.
Qed.

(** *** The list *)

(** The first of the list that is taken. *)
Definition first_taken (st : GrabState) (device_ : Z) (ev : GrabEvent) (checkCore activate : bool) (l : list Z) (r : option Z) : Prop :=
  match r with
  | Some x => exists l1 l2 g, l = l1 ++ x :: l2 /\ grabs st !! x = Some g /\ taken device_ ev checkCore activate x g /\
      forall y g', y ∈ l1 -> grabs st !! y = Some g' -> ~ taken device_ ev checkCore activate y g'
  | None => forall y g', y ∈ l -> grabs st !! y = Some g' -> ~ taken device_ ev checkCore activate y g'
  end.
Lemma first_taken_skip st device_ ev checkCore activate x g l r :
  grabs st !! x = Some g -> ~ taken device_ ev checkCore activate x g ->
  first_taken st device_ ev checkCore activate l r -> first_taken st device_ ev checkCore activate (x :: l) r.
Proof.
  intros Hx Hn. assert (Hskip : forall l' y g', (forall y g', y ∈ l' -> grabs st !! y = Some g' -> ~ taken device_ ev checkCore activate y g') ->
    y ∈ x :: l' -> grabs st !! y = Some g' -> ~ taken device_ ev checkCore activate y g').
  { intros l' y g' Hl [->|Hy]%elem_of_cons Hg; [|by apply (Hl y)]. rewrite Hx in Hg. by injection Hg as <-. }
  destruct r as [z|]; cbn.
  - intros (l1 & l2 & gz & -> & Hz & Ht & Hl). exists (x :: l1), l2, gz. split_and!; try done. intros y g' Hy. by apply (Hskip l1).
  - intros Hl y g' Hy. by apply (Hskip l).
Qed.
Lemma first_taken_same st st' device_ ev checkCore activate l r :
  (forall y, y ∈ l -> grabs st' !! y = grabs st !! y) ->
  first_taken st' device_ ev checkCore activate l r -> first_taken st device_ ev checkCore activate l r.
Proof.
  intros Hs. destruct r as [x|]; cbn.
  - intros (l1 & l2 & g & -> & Hx & Ht & Hl). exists l1, l2, g. rewrite <- Hs by (apply elem_of_app; right; left). split_and!; try done.
    intros y g' Hy Hg. apply (Hl y g' Hy). rewrite Hs; [done|]. apply elem_of_app. by left.
  - intros Hl y g' Hy Hg. apply (Hl y g' Hy). by rewrite Hs.
Qed.

Lemma check_grabs_spec device_ ev checkCore activate l : forall st tmp m0 mdev0,
  NoDup l -> all_good st l -> ranged (event_detail ev) -> event_detail ev <> AnyKey -> temp_ok device_ (event_detail ev) m0 mdev0 tmp ->
  exists r st', check_grabs st device_ ev checkCore activate tmp l = Ret (r, st') /\ redeviced st st' /\
    (forall y, y ∉ l -> grabs st' !! y = grabs st !! y) /\ first_taken st device_ ev checkCore activate l r.
Proof.
  induction l as [|x l IH]; intros st tmp m0 mdev0 Hnd Hl Hd Hd0 Ht; cbn [check_grabs].
  - exists None, st. split; [done|]. split; [apply redeviced_refl|]. split; [done|]. by intros y g' ?%not_elem_of_nil.
  - apply NoDup_cons in Hnd as [Hxl Hnd]. destruct (Hl x) as (g & Hx & Hg); [by left|].
    destruct (CheckPassiveGrab_spec st device_ x ev checkCore tmp g m0 mdev0 Hx Hg Hd Hd0 Ht)
      as (b & st1 & tmp1 & m1 & mdev1 & -> & Ht1 & Hre & Hother & Hb). cbn [obind].
    assert (Hsame : forall y, y ∈ l -> grabs st1 !! y = grabs st !! y) by (intros y Hy; apply Hother; by intros ->).
    assert (Hgo : ~ taken device_ ev checkCore activate x g -> exists r st', check_grabs st1 device_ ev checkCore activate tmp1 l = Ret (r, st') /\
      redeviced st st' /\ (forall y, y ∉ x :: l -> grabs st' !! y = grabs st !! y) /\ first_taken st device_ ev checkCore activate (x :: l) r).
    { intros Hn. destruct (IH st1 tmp1 m1 mdev1 Hnd) as (r & st' & E & Hre' & Hout & Hft); try done.
      { intros y Hy. rewrite (Hsame y Hy). apply Hl. by right. }
      exists r, st'. split; [done|]. split; [by apply (redeviced_trans _ st1)|]. split.
      - intros y Hy. rewrite not_elem_of_cons in Hy. rewrite Hout by tauto. apply Hother; tauto.
      - apply (first_taken_skip _ _ _ _ _ _ g); [done|done|]. by apply (first_taken_same st st1). }
    unfold taken in Hgo at 1. destruct b; cbn [negb].
    + destruct (activate && negb (ActivatePassiveGrab device_ x)) eqn:Ea.
      * apply Hgo. intros [_ Hact]. apply andb_true_iff in Ea as [-> Ea]. by rewrite Hact in Ea.
      * exists (Some x), st1. split; [done|]. split; [done|]. split; [intros y Hy; apply Hother; rewrite not_elem_of_cons in Hy; tauto|].
        exists [], l, g. split; [done|]. split; [done|]. split; [|by intros y g' ?%not_elem_of_nil]. split; [by apply Hb|].
        intros ->. by apply andb_false_iff in Ea as [?|Ea%negb_false_iff].
    + apply Hgo. intros [Hact _]. by apply Hb in Hact.
Qed.

(** The state stays as it has to be, and the grants what they were but for
    devices. *)
Lemma redevice_same d g : resource (redevice d g) = resource g /\ window (redevice d g) = window g /\ grabtype (redevice d g) = grabtype g /\
  type (redevice d g) = type g /\ cursor (redevice d g) = cursor g /\ (grab_ok g -> grab_ok (redevice d g)) /\ (created g -> created (redevice d g)) /\
  (forall x y, hits (redevice d g) x y <-> hits g x y).
Proof. unfold redevice. destruct (type g <? GenericEvent); [|done]. split_and!; try done; by intros []. Qed.
Lemma redeviced_back st st' x g' : redeviced st st' -> grabs st' !! x = Some g' ->
  exists g, grabs st !! x = Some g /\ (g' = g \/ exists d, g' = redevice d g).
Proof.
  intros Hre Hx. destruct (rd_grabs _ _ Hre x) as [E|(g & d & Hg & _ & E)]; [exists g'; split; [congruence|by left]|].
  exists g. split; [done|]. right. exists d. congruence.
Qed.
Lemma redeviced_forth st st' x g : redeviced st st' -> grabs st !! x = Some g ->
  exists g', grabs st' !! x = Some g' /\ (g' = g \/ exists d, g' = redevice d g).
Proof.
  intros Hre Hx. destruct (rd_grabs _ _ Hre x) as [E|(g0 & d & Hg & _ & E)]; [exists g; split; [congruence|by left]|].
  rewrite Hx in Hg. injection Hg as <-. exists (redevice d g). split; [done|]. right. by exists d.
Qed.
Lemma redeviced_live st st' c : redeviced st st' -> live (grabs st') c = live (grabs st) c.
Proof.
  intros Hre. unfold live. f_equal. rewrite <- !(size_dom (D := gset Z)). f_equal. apply set_eq. intros x. rewrite !elem_of_dom. unfold is_Some.
  setoid_rewrite map_lookup_filter_Some. unfold uses. cbn. split; intros (g & Hg & Hc).
  - destruct (redeviced_back st st' x g Hre Hg) as (g0 & Hg0 & [->|[d ->]]); [by exists g0|]. exists g0. split; [done|].
    destruct (redevice_same d g0) as (_ & _ & _ & _ & E & _). congruence.
  - destruct (redeviced_forth st st' x g Hre Hg) as (g0 & Hg0 & [->|[d ->]]); [by exists g|]. exists (redevice d g). split; [done|].
    destruct (redevice_same d g) as (_ & _ & _ & _ & E & _). congruence.
Qed.
Lemma redeviced_ok st st' : grabs_ok st -> redeviced st st' -> grabs_ok st'.
Proof.
  intros Hok Hre. pose proof Hre as [R1 R2 R3 R4]. split.
  - intros w W. rewrite R1. intros HW. destruct (ok_list _ Hok w W HW) as (? & ? & Hl). split; [done|]. split; [done|]. intros x Hx.
    destruct (Hl x Hx) as (g & Hg & Hw & Hgok & Hc & Hr). destruct (redeviced_forth st st' x g Hre Hg) as (g' & Hg' & [->|[d ->]]).
    + exists g. rewrite R2. done.
    + destruct (redevice_same d g) as (E1 & E2 & _ & _ & _ & E3 & E4 & _). exists (redevice d g). rewrite R2, E1, E2. split_and!; try done; [by apply E3|by apply E4].
  - intros r x. rewrite R2. intros Hr. destruct (ok_res _ Hok r x Hr) as (g & W & Hg & Er & HW & Hx).
    destruct (redeviced_forth st st' x g Hre Hg) as (g' & Hg' & [->|[d ->]]); [exists g, W; by rewrite R1|].
    destruct (redevice_same d g) as (E1 & E2 & _). exists (redevice d g), W. rewrite R1, E1, E2. done.
  - destruct (ok_cursors _ Hok) as [C1 C2]. split; [by rewrite R3|]. intros c. specialize (C2 c). unfold spare, count in *.
    by rewrite R3, (redeviced_live st st' c Hre).
Qed.
Lemma redeviced_granted st st' w e d md : redeviced st st' -> granted st' w e d md ->
  exists e0, granted st w e0 d md /\ resource e0 = resource e /\ grabtype e0 = grabtype e /\ type e0 = type e.
Proof.
  intros Hre (W & x & g' & HW & Hx & Hg' & <- & Hh). rewrite (rd_windows _ _ Hre) in HW.
  destruct (redeviced_back st st' x g' Hre Hg') as (g & Hg & [->|[dv ->]]); [exists (effect g); split; [by exists W, x, g|done]|].
  destruct (redevice_same dv g) as (E1 & _ & E3 & E4 & _ & _ & _ & E5). exists (effect g). split; [|cbn; unfold owner; by rewrite E1, E3, E4].
  exists W, x, g. split_and!; try done. by apply E5.
Qed.
Lemma redeviced_exclusive st st' : exclusive st -> redeviced st st' -> exclusive st'.
Proof.
  intros Hx Hre w e e' d md Hd Hmd G1 G2 T1 T2 Ty.
  destruct (redeviced_granted st st' w e d md Hre G1) as (a & Ha & A1 & A2 & A3).
  destruct (redeviced_granted st st' w e' d md Hre G2) as (b & Hb & B1 & B2 & B3).
  rewrite <- A1, <- B1. apply (Hx w a b d md); congruence.
Qed.

Lemma CheckPassiveGrabsOnWindow_spec st w W device_ ev checkCore activate :
  grabs_ok st -> windows st !! w = Some W -> ranged (event_detail ev) -> event_detail ev <> AnyKey ->
  exists r st', CheckPassiveGrabsOnWindow al st w device_ ev checkCore activate = Ret (r, st') /\ grabs_ok st' /\
    (exclusive st -> exclusive st') /\
    (first_taken st device_ ev checkCore activate (passiveGrabs W) r \/ r = None /\ failure al).
Proof.
  intros Hok HW Hd Hd0. destruct (ok_list _ Hok w W HW) as (Hnd & Hopt & Hl). unfold CheckPassiveGrabsOnWindow, wPassiveGrabs.
  rewrite HW. cbn [obind_opt obind].
  assert (El : (if optional W then passiveGrabs W else []) = passiveGrabs W).
  { destruct (passiveGrabs W); [by destruct (optional W)|]. by rewrite Hopt. }
  rewrite El. destruct (passiveGrabs W) as [|a l0] eqn:Ea.
  { exists None, st. split; [done|]. split; [done|]. split; [done|]. left. by intros y g' ?%not_elem_of_nil. }
  rewrite <- Ea in *. clear El l0 Ea.
  destruct (AllocGrab_None al st) as [(st1 & -> & Hs & Hf)|(k & t & -> & Ht)]; cbn [obind].
  { exists None, st1. split; [done|]. split; [by apply (same_grabs_ok st)|]. split; [|by right].
    intros Hx. apply (exclusive_less st); [done|]. intros v e d md _ _. by rewrite (same_grants st st1 v e d md Hs). }
  set (st1 := st <| allocs := k |> <| grabs ::= <[t := blank_grab]> |>).
  assert (Et : grabs st1 !! t = Some blank_grab) by apply lookup_insert_eq. rewrite Et. cbn [obind_opt].
  assert (Hmade : made st st1 t blank_grab).
  { assert (Hsp : forall c, spare st1 c = spare st c).
    { intros c. unfold spare, count. subst st1. cbn. rewrite live_insert by done. unfold used. rewrite decide_False by done. lia. }
    split; try done. split; [apply (ok_cursors _ Hok)|]. intros c. rewrite Hsp. apply (ok_cursors _ Hok). }
  destruct (made_ok st st1 t blank_grab Hok Hmade) as (Hok1 & Hu & _ & Hgr).
  assert (Hlist : forall y, y ∈ passiveGrabs W -> grabs st1 !! y = grabs st !! y).
  { intros y Hy. apply lookup_insert_ne. intros <-. destruct (Hl t Hy) as (g & Hg & _). congruence. }
  set (tmp := blank_grab <| detail := _ |> <| window := _ |> <| device := _ |> <| modifiersDetail ::= _ |>).
  destruct (check_grabs_spec device_ ev checkCore activate (passiveGrabs W) st1 tmp 0 0 Hnd) as (r & st2 & -> & Hre & Hout & Hft); try done.
  { intros y Hy. rewrite (Hlist y Hy). destruct (Hl y Hy) as (g & Hg & _ & Hgok & _). by exists g. }
  cbn [obind]. assert (Et2 : grabs st2 !! t = Some blank_grab) by (rewrite Hout; [done|by apply (Hu w)]).
  assert (Hu2 : unlisted st2 t) by (intros v W'; rewrite (rd_windows _ _ Hre); apply Hu).
  destruct (FreeGrab_unlisted st2 t blank_grab (redeviced_ok _ _ Hok1 Hre) Et2 Hu2) as (st' & -> & _ & Hok' & Hgr'). cbn [obind].
  exists r, st'. split; [done|]. split; [done|]. split; [|left; by apply (first_taken_same st st1)].
  intros Hx. apply (exclusive_less st2); [|intros v e d md _ _; apply Hgr']. apply (redeviced_exclusive st1); [|done].
  apply (exclusive_less st); [done|]. intros v e d md _ _. apply Hgr.
Qed.

(** C22: the search for a passive grab of a key or button event on a window finds
    the first grab of the list whose keys and modifiers have those of the
    event, whose level, type and device are those of the event, that can
    confine the pointer, that does not interfere with a core grab its client has
    already, and that could be activated; it finds none when there is none or
    there was no memory.  If it is a core grab, no other client has the
    combination.  The state stays as it has to be. *)
Theorem CheckPassiveGrabsOnWindow_first st w W device_ ev checkCore activate :
  grabs_ok st -> exclusive st -> windows st !! w = Some W -> ranged (event_detail ev) -> event_detail ev <> AnyKey ->
  exists r st', CheckPassiveGrabsOnWindow al st w device_ ev checkCore activate = Ret (r, st') /\ grabs_ok st' /\ exclusive st' /\
    (first_taken st device_ ev checkCore activate (passiveGrabs W) r \/ r = None /\ failure al) /\
    forall x g, r = Some x -> grabs st !! x = Some g -> grabtype g = CORE ->
      forall e, granted st w e (event_detail ev) (event_mods device_ g) -> grabtype e = CORE -> type e = type g -> resource e = owner g.
Proof.
  intros Hok Hx HW Hd Hd0.
  destruct (CheckPassiveGrabsOnWindow_spec st w W device_ ev checkCore activate Hok HW Hd Hd0) as (r & st' & E & Hok' & Hx' & Hft).
  exists r, st'. split; [done|]. split; [done|]. split; [by apply Hx'|]. split; [done|]. intros x g -> Hg Et e He Ete Ety.
  destruct Hft as [(l1 & l2 & g0 & El & Hg0 & [[(_ & _ & _ & Hh) _] _] & _)|[? _]]; [|done]. rewrite Hg in Hg0. injection Hg0 as <-.
  apply (Hx w (effect g) e (event_detail ev) (event_mods device_ g)); try done; [apply grab_mods_byte|].
  exists W, x, g. split; [done|]. split; [rewrite El; apply elem_of_app; right; left|done].
Qed.
End Find.

(** *** At a concrete state *)

Definition demo_mods (d : Z) : Z := if d =? 3 then 4 else 0.
Lemma demo_mods_byte d : 0 <= demo_mods d < 256.
Proof. unfold demo_mods. destruct (d =? 3); lia. Qed.
(** The keyboard has modifiers 4 down and no grab is active. *)
Definition demo_event_devices : EventDevices := {|
  keyboard_or_float := fun d => 3;
  grab_mods := demo_mods;
  grab_mods_byte := demo_mods_byte;
  IsPointerDevice := fun d => d =? 2;
  IsKeyboardDevice := fun d => d =? 3;
  active_grabs := [];
  can_confine := fun d w => true;
  ActivatePassiveGrab := fun d x => true
|}.
Lemma CheckPassiveGrabsOnWindow_first_witness :
  exists r st', CheckPassiveGrabsOnWindow (H := demo_env) (H0 := demo_devices) (H1 := demo_event_devices)
      plenty demo_grabbed 100 3 (MkGE ET_KeyPress 38 false) true true = Ret (r, st') /\
    grabs_ok st' /\ exclusive (H := demo_env) st' /\
    (first_taken (H := demo_env) (H0 := demo_devices) (H1 := demo_event_devices) demo_grabbed 3 (MkGE ET_KeyPress 38 false) true true
       (passiveGrabs demo_win) r \/ r = None /\ failure plenty) /\
    forall x g, r = Some x -> grabs demo_grabbed !! x = Some g -> grabtype g = CORE ->
      forall e, granted (H := demo_env) demo_grabbed 100 e 38 (event_mods (H := demo_env) (H0 := demo_devices) (H1 := demo_event_devices) 3 g) ->
        grabtype e = CORE -> type e = type g -> resource e = owner (H := demo_env) g.
Proof.
  apply (CheckPassiveGrabsOnWindow_first (H := demo_env) (H0 := demo_devices) (H1 := demo_event_devices) plenty demo_grabbed 100 demo_win 3
    (MkGE ET_KeyPress 38 false) true true
    (qu_ok (H := demo_env) (H0 := demo_windows) (H1 := demo_devices) demo_grabbed demo_grabbed_quiet)
    (qu_exclusive (H := demo_env) (H0 := demo_windows) (H1 := demo_devices) demo_grabbed demo_grabbed_quiet)).
  - vm_compute. reflexivity.
  - vm_compute. by split.
  - by vm_compute.
Defined.
