(* ===== verification/Privates.v ===== *)
(** * Private storage of the server's objects (dix/privates.c, include/privates.h)

    Extensions and drivers keep data of their own in the server's objects: a
    key names a place in the private storage of all objects of a type.  Keys
    are records of their owners, linked into one list per type, and one per
    type and screen; the storage of a few objects that exist before all keys do
    is grown, and moved, when a key is registered. *)

From S2P Require Import Prelude Wire Resource.

(** ** Types of objects *)

(** [include/privates.h: DevPrivateType 32-68] *)
Inductive DevPrivateType :=
  | PRIVATE_XSELINUX
  | PRIVATE_SCREEN
  | PRIVATE_EXTENSION
  | PRIVATE_COLORMAP
  | PRIVATE_DEVICE
  | PRIVATE_CLIENT
  | PRIVATE_PROPERTY
  | PRIVATE_SELECTION
  | PRIVATE_WINDOW
  | PRIVATE_PIXMAP
  | PRIVATE_GC
  | PRIVATE_CURSOR
  | PRIVATE_CURSOR_BITS
  | PRIVATE_GLYPH
  | PRIVATE_GLYPHSET
  | PRIVATE_PICTURE
  | PRIVATE_SYNC_FENCE.

#[export] Instance DevPrivateType_eq : EqDecision DevPrivateType.
Proof. solve_decision. Defined.

(** From [PRIVATE_XSELINUX] to below [PRIVATE_LAST], as the loops go. *)
Definition private_types : list DevPrivateType :=
  [PRIVATE_XSELINUX; PRIVATE_SCREEN; PRIVATE_EXTENSION; PRIVATE_COLORMAP; PRIVATE_DEVICE;
   PRIVATE_CLIENT; PRIVATE_PROPERTY; PRIVATE_SELECTION; PRIVATE_WINDOW; PRIVATE_PIXMAP;
   PRIVATE_GC; PRIVATE_CURSOR; PRIVATE_CURSOR_BITS; PRIVATE_GLYPH; PRIVATE_GLYPHSET;
   PRIVATE_PICTURE; PRIVATE_SYNC_FENCE].

(** [dix/privates.c: xselinux_private 71-85] *)
Definition xselinux_private (t : DevPrivateType) : bool :=
  match t with
  | PRIVATE_SCREEN | PRIVATE_CLIENT | PRIVATE_WINDOW | PRIVATE_PIXMAP | PRIVATE_GC
  | PRIVATE_CURSOR | PRIVATE_COLORMAP | PRIVATE_DEVICE | PRIVATE_EXTENSION
  | PRIVATE_SELECTION | PRIVATE_PROPERTY | PRIVATE_PICTURE | PRIVATE_GLYPHSET => true
  | _ => false
  end.

(** [dix/privates.c: screen_specific_private 116-130] *)
Definition screen_specific_private (t : DevPrivateType) : bool :=
  match t with
  | PRIVATE_WINDOW | PRIVATE_PIXMAP | PRIVATE_GC | PRIVATE_PICTURE => true
  | _ => false
  end.

(** The types with a function that visits the objects there are already.
    [dix/privates.c: allocated_early 282-288] *)
Definition allocated_early (t : DevPrivateType) : bool :=
  match t with
  | PRIVATE_SCREEN | PRIVATE_CLIENT | PRIVATE_EXTENSION | PRIVATE_COLORMAP
  | PRIVATE_DEVICE => true
  | _ => false
  end.

(** ** Data *)

(** [include/privates.h: DevPrivateKeyRec 70-77] *)
Record DevPrivateKeyRec := KeyRec {
  k_offset : Z;
  k_size : Z;
  k_initialized : bool;
  k_allocated : bool;
  k_type : DevPrivateType;
  k_next : Z;
}.
#[export] Instance KeyRec_eta : Settable _ := fun k =>
  KeyRec (k_offset k) (k_size k) (k_initialized k) (k_allocated k) (k_type k) (k_next k).

(** [include/privates.h: DevPrivateSetRec 79-84] *)
Record DevPrivateSetRec := SetRec {
  s_key : Z;
  s_offset : Z;
  s_created : Z;
  s_allocated : Z;
}.
#[export] Instance SetRec_eta : Settable _ := fun s =>
  SetRec (s_key s) (s_offset s) (s_created s) (s_allocated s).

(** A table with one set per type. *)
Definition DevPrivateSets := DevPrivateType -> DevPrivateSetRec.
Definition set_of (t : DevPrivateType) (f : DevPrivateSetRec -> DevPrivateSetRec)
    (ss : DevPrivateSets) : DevPrivateSets :=
  fun t' => if decide (t' = t) then f (ss t') else ss t'.

(** The storage of an object: where it is, 0 for none, and its bytes. *)
Record Privates := Priv { p_addr : Z; p_data : list Z }.
#[export] Instance Privates_eta : Settable _ := fun p => Priv (p_addr p) (p_data p).
Definition p_len (p : Privates) : Z := Z.of_nat (length (p_data p)).
Definition no_privates : Privates := Priv 0 [].

(** A screen: its storage, its sets, and what the look up of its default
    colormap finds, which is the colormap's storage. *)
Record ScreenRec := Screen {
  devPrivates : Privates;
  screenSpecificPrivates : DevPrivateSets;
  defColormap : option Privates;
}.
#[export] Instance Screen_eta : Settable _ := fun s =>
  Screen (devPrivates s) (screenSpecificPrivates s) (defColormap s).

(** An object that is allocated together with its storage; the storage of some
    types depends on the object's screen. *)
Record Object := Obj { o_type : DevPrivateType; o_screen : option (bool * nat); o_privates : Privates }.
#[export] Instance Object_eta : Settable _ := fun o => Obj (o_type o) (o_screen o) (o_privates o).

(** ** Memory

    Key records are cells by address.  Every allocation gets a range of
    addresses of its own, [BLOCK] apart, in which it can also be resized in
    place; sizes are of 32 bits, so that no two allocations meet.  The
    allocator, which is not part of the server, decides whether an allocation
    succeeds, whether memory is resized in place, and what fresh memory holds. *)
Definition BLOCK : Z := 4294967296.

Record heap_env := HeapEnv {
  he_alloc : allocator;
  he_inplace : nat -> bool;
  he_fill : nat -> Z -> Z;
}.

Record Memory := Mem {
  m_keys : gmap Z DevPrivateKeyRec;
  m_brk : Z;
  m_count : nat;
}.
#[export] Instance Memory_eta : Settable _ := fun m => Mem (m_keys m) (m_brk m) (m_count m).

(** The cells in [len] bytes from [old] go away, those in the first [keep] of
    them to [new]. *)
Definition relocate (old len keep new : Z) (keys : gmap Z DevPrivateKeyRec) :
    gmap Z DevPrivateKeyRec :=
  kmap (Z.add (new - old)) (filter (fun '(a, _) => old <= a < old + keep) keys)
  ∪ filter (fun '(a, _) => ~ (old <= a < old + len)) keys.

(** [realloc]; a size of 0 has no defined meaning. *)
Definition mem_realloc (env : heap_env) (m : Memory) (p : Privates) (n : Z) :
    outcome (Memory * option Privates) :=
  if n <=? 0 then Undefined else
  let k := m_count m in
  let m1 := m <| m_count := S k |> in
  if negb (he_alloc env k n) then Ret (m1, None) else
  let data := take (Z.to_nat n) (p_data p) ++ (he_fill env k <$> seqZ (p_len p) (n - p_len p)) in
  let inplace := (he_inplace env k && negb (p_addr p =? 0))%bool in
  let new := if inplace then p_addr p else m_brk m in
  let keys := relocate (p_addr p) (p_len p) (n `min` p_len p) new (m_keys m) in
  Ret (m1 <| m_keys := keys |>
          <| m_brk := if inplace then m_brk m else m_brk m + BLOCK |>,
       Some (Priv new data)).

(** [calloc] of [n] bytes: their address. *)
Definition mem_calloc (env : heap_env) (m : Memory) (n : Z) : Memory * option Z :=
  let k := m_count m in
  let m1 := m <| m_count := S k |> in
  if he_alloc env k n then (m1 <| m_brk := m_brk m + BLOCK |>, Some (m_brk m)) else (m1, None).

(** [free] of [n] bytes. *)
Definition mem_free (m : Memory) (a n : Z) : Memory :=
  m <| m_keys ::= filter (fun '(a', _) => ~ (a <= a' < a + n)) |>.

Definition zeros (n : Z) : list Z := repeat 0 (Z.to_nat n).

(** ** State *)

(** The sets of all types, the lists of screens, and the other objects that are
    visited when a key is registered: the server's client, the extensions and
    the lists of devices.  [ps_objects] are the objects whose storage is part of
    them, by address. *)
Record PrivState := PS {
  ps_mem : Memory;
  global_keys : DevPrivateSets;
  ps_screens : list ScreenRec;
  ps_gpuscreens : list ScreenRec;
  serverClient : option Privates;
  ps_extensions : list Privates;
  ps_devices : list Privates;
  ps_off_devices : list Privates;
  ps_objects : gmap Z Object;
}.
#[export] Instance PrivState_eta : Settable _ := fun st =>
  PS (ps_mem st) (global_keys st) (ps_screens st) (ps_gpuscreens st) (serverClient st)
    (ps_extensions st) (ps_devices st) (ps_off_devices st) (ps_objects st).

(** A loop over a list that threads a state; and one that also changes the
    elements and stops when one of them answers FALSE. *)
Fixpoint for_each {S A} (f : S -> A -> outcome S) (s : S) (l : list A) : outcome S :=
  match l with
  | [] => Ret s
  | x :: l' => s' <-- f s x; for_each f s' l'
  end.
Fixpoint visit {S A} (f : S -> A -> outcome (S * A * bool)) (s : S) (l : list A) :
    outcome (S * list A * bool) :=
  match l with
  | [] => Ret (s, [], true)
  | x :: l' =>
      '(s1, x1, ok) <-- f s x;
      if ok then '(s2, l2, ok2) <-- visit f s1 l'; Ret (s2, x1 :: l2, ok2)
      else Ret (s1, x1 :: l', false)
  end.

(** ** Growing and moving storage *)

Section Privates.
Context (env : heap_env).

(** [dix/privates.c: FixupType 134-134] *)
Inductive FixupFunc := Fixup_dixReallocPrivates | Fixup_dixMovePrivates.

(** [dix/privates.c: dixReallocPrivates] *)
Definition dixReallocPrivates (m : Memory) (p : Privates) (old_offset bytes : Z) :
    outcome (Memory * Privates * bool) :=
  let n := u32 (old_offset + bytes) in
  '(m1, r) <-- mem_realloc env m p n;
  match r with
  | None => Ret (m1, p, false)
  | Some q =>
      if (old_offset <? 0) || (n <? old_offset + bytes) then Undefined else
      Ret (m1, q <| p_data := take (Z.to_nat old_offset) (p_data q) ++ zeros bytes |>, true)
  end.

(** [dix/privates.c: dixMovePrivates] *)
Definition dixMovePrivates (m : Memory) (p : Privates) (new_offset bytes : Z) :
    outcome (Memory * Privates * bool) :=
  if negb ((bytes <=? new_offset) && (new_offset <=? p_len p)) then Undefined else
  let n := new_offset - bytes in
  let m1 := m <| m_keys ::= relocate (p_addr p) new_offset n (p_addr p + bytes) |> in
  Ret (m1, p <| p_data ::= fun d =>
         zeros bytes ++ take (Z.to_nat n) d ++ drop (Z.to_nat new_offset) d |>, true).

Definition fixup (f : FixupFunc) : Memory -> Privates -> Z -> Z -> outcome (Memory * Privates * bool) :=
  match f with
  | Fixup_dixReallocPrivates => dixReallocPrivates
  | Fixup_dixMovePrivates => dixMovePrivates
  end.

(** [*keyp]: the list's head at first, then the link of the key that was just
    looked at. *)
Definition keyp_read (m : Memory) (head : Z) (keyp : option Z) : option Z :=
  match keyp with None => Some head | Some a => k_next <$> m_keys m !! a end.
Definition keyp_write (m : Memory) (head : Z) (keyp : option Z) (key : Z) : Memory * Z :=
  match keyp with
  | None => (m, key)
  | Some a => (m <| m_keys ::= alter (fun k => k <| k_next := key |>) a |>, head)
  end.

(** One turn of the walk that patches the links into storage that was moved.
    [dix/privates.c: fixupOneScreen 190-208] *)
Definition patch_step (old size new : Z) (s : Memory * Z * option Z) :
    Memory * Z * option Z + outcome (Memory * Z) :=
  let '(m, head, keyp) := s in
  match keyp_read m head keyp with
  | None => inr Undefined
  | Some key =>
      if key =? 0 then inr (Ret (m, head)) else
      if (old <=? key) && (key <? old + size) then
        let key' := new + (key - old) in
        let '(m', head') := keyp_write m head keyp key' in
        inl (m', head', Some key')
      else inl (m, head, Some key)
  end.

(** The walk over one set of the screen.
    [dix/privates.c: fixupOneScreen 190-208] *)
Definition patch_set (old size new : Z) (s : Memory * DevPrivateSets) (t : DevPrivateType) :
    outcome (Memory * DevPrivateSets) :=
  let '(m, ss) := s in
  '(m', head) <-- run_loop (patch_step old size new) TURNS (m, s_key (ss t), None);
  Ret (m', set_of t (fun set => set <| s_key := head |>) ss).

(** [dix/privates.c: fixupOneScreen] *)
Definition fixupOneScreen (f : FixupFunc) (gk : DevPrivateSets) (bytes : Z)
    (m : Memory) (s : ScreenRec) : outcome (Memory * ScreenRec * bool) :=
  let old := p_addr (devPrivates s) in
  let size := i32 (s_offset (gk PRIVATE_SCREEN)) in
  '(m1, p, ok) <-- fixup f m (devPrivates s) size bytes;
  if negb ok then Ret (m1, s <| devPrivates := p |>, false) else
  let new := match f with
             | Fixup_dixMovePrivates => p_addr p + bytes
             | Fixup_dixReallocPrivates => p_addr p
             end in
  if new =? old then Ret (m1, s <| devPrivates := p |>, true) else
  '(m2, ss) <-- for_each (patch_set old size new) (m1, screenSpecificPrivates s) private_types;
  Ret (m2, s <| devPrivates := p |> <| screenSpecificPrivates := ss |>, true).

(** [dix/privates.c: fixupScreens] *)
Definition fixupScreens (f : FixupFunc) (bytes : Z) (st : PrivState) : outcome (PrivState * bool) :=
  let gk := global_keys st in
  '(m1, l1, ok1) <-- visit (fixupOneScreen f gk bytes) (ps_mem st) (ps_screens st);
  let st1 := st <| ps_mem := m1 |> <| ps_screens := l1 |> in
  if negb ok1 then Ret (st1, false) else
  '(m2, l2, ok2) <-- visit (fixupOneScreen f gk bytes) m1 (ps_gpuscreens st);
  Ret (st1 <| ps_mem := m2 |> <| ps_gpuscreens := l2 |>, ok2).

(** [dix/privates.c: fixupServerClient] *)
Definition fixupServerClient (f : FixupFunc) (bytes : Z) (st : PrivState) : outcome (PrivState * bool) :=
  match serverClient st with
  | Some p =>
      '(m1, q, ok) <-- fixup f (ps_mem st) p (i32 (s_offset (global_keys st PRIVATE_CLIENT))) bytes;
      Ret (st <| ps_mem := m1 |> <| serverClient := Some q |>, ok)
  | None => Ret (st, true)
  end.

(** [dix/privates.c: fixupExtensions] *)
Definition fixupExtensions (f : FixupFunc) (bytes : Z) (st : PrivState) : outcome (PrivState * bool) :=
  let offset := i32 (s_offset (global_keys st PRIVATE_EXTENSION)) in
  '(m1, l1, ok) <-- visit (fun m p => fixup f m p offset bytes) (ps_mem st) (ps_extensions st);
  Ret (st <| ps_mem := m1 |> <| ps_extensions := l1 |>, ok).

(** [dix/privates.c: fixupDefaultColormaps 252-260] *)
Definition fixupDefaultColormap (f : FixupFunc) (bytes : Z) (m : Memory) (s : ScreenRec) :
    outcome (Memory * ScreenRec * bool) :=
  match defColormap s with
  | Some cmap =>
      '(m1, q, ok) <-- fixup f m cmap
          (i32 (s_offset (screenSpecificPrivates s PRIVATE_COLORMAP))) bytes;
      Ret (m1, s <| defColormap := Some q |>, ok)
  | None => Ret (m, s, true)
  end.

(** [dix/privates.c: fixupDefaultColormaps] *)
Definition fixupDefaultColormaps (f : FixupFunc) (bytes : Z) (st : PrivState) :
    outcome (PrivState * bool) :=
  '(m1, l1, ok) <-- visit (fixupDefaultColormap f bytes) (ps_mem st) (ps_screens st);
  Ret (st <| ps_mem := m1 |> <| ps_screens := l1 |>, ok).

(** [dix/privates.c: fixupDeviceList] *)
Definition fixupDeviceList (f : FixupFunc) (bytes : Z) (gk : DevPrivateSets) (m : Memory)
    (l : list Privates) : outcome (Memory * list Privates * bool) :=
  visit (fun m p => fixup f m p (i32 (s_offset (gk PRIVATE_DEVICE))) bytes) m l.

(** [dix/privates.c: fixupDevices] *)
Definition fixupDevices (f : FixupFunc) (bytes : Z) (st : PrivState) : outcome (PrivState * bool) :=
  '(m1, l1, ok1) <-- fixupDeviceList f bytes (global_keys st) (ps_mem st) (ps_devices st);
  let st1 := st <| ps_mem := m1 |> <| ps_devices := l1 |> in
  if negb ok1 then Ret (st1, false) else
  '(m2, l2, ok2) <-- fixupDeviceList f bytes (global_keys st) m1 (ps_off_devices st);
  Ret (st1 <| ps_mem := m2 |> <| ps_off_devices := l2 |>, ok2).

(** The call through the table of functions.
    [dix/privates.c: allocated_early 282-288] *)
Definition fixup_early (t : DevPrivateType) (f : FixupFunc) (bytes : Z) (st : PrivState) :
    outcome (PrivState * bool) :=
  match t with
  | PRIVATE_SCREEN => fixupScreens f bytes st
  | PRIVATE_CLIENT => fixupServerClient f bytes st
  | PRIVATE_EXTENSION => fixupExtensions f bytes st
  | PRIVATE_COLORMAP => fixupDefaultColormaps f bytes st
  | PRIVATE_DEVICE => fixupDevices f bytes st
  | _ => Undefined
  end.

(** ** Registering keys *)

(** One turn of the walk along a set's keys.
    [dix/privates.c: grow_private_set 293-294] *)
Definition grow_step (bytes : Z) (s : gmap Z DevPrivateKeyRec * Z) :
    gmap Z DevPrivateKeyRec * Z + outcome (gmap Z DevPrivateKeyRec) :=
  let '(keys, k) := s in
  if k =? 0 then inr (Ret keys) else
  match keys !! k with
  | None => inr Undefined
  | Some r => inl (<[k := r <| k_offset := i32 (k_offset r + bytes) |>]> keys, k_next r)
  end.

(** [dix/privates.c: grow_private_set] *)
Definition grow_private_set (bytes : Z) (m : Memory) (set : DevPrivateSetRec) :
    outcome (Memory * DevPrivateSetRec) :=
  keys <-- run_loop (grow_step bytes) TURNS (m_keys m, s_key set);
  Ret (m <| m_keys := keys |>, set <| s_offset := u32 (s_offset set + bytes) |>).

(** [dix/privates.c: grow_screen_specific_set 302-307] *)
Definition grow_screen (t : DevPrivateType) (bytes : Z) (m : Memory) (s : ScreenRec) :
    outcome (Memory * ScreenRec * bool) :=
  '(m1, set) <-- grow_private_set bytes m (screenSpecificPrivates s t);
  Ret (m1, s <| screenSpecificPrivates ::= set_of t (fun _ => set) |>, true).

(** [dix/privates.c: grow_screen_specific_set] *)
Definition grow_screen_specific_set (t : DevPrivateType) (bytes : Z) (st : PrivState) :
    outcome PrivState :=
  '(m1, l1, _) <-- visit (grow_screen t bytes) (ps_mem st) (ps_screens st);
  '(m2, l2, _) <-- visit (grow_screen t bytes) m1 (ps_gpuscreens st);
  Ret (st <| ps_mem := m2 |> <| ps_screens := l1 |> <| ps_gpuscreens := l2 |>).

Definition sizeof_pointer : Z := 8.

(** The space of a key: a pointer's if no size is asked for, and whole
    pointers; the sum has 64 bits, the result 32.
    [dix/privates.c: dixRegisterPrivateKey 321-327] *)
Definition key_bytes (size : Z) : Z :=
  let bytes := if size =? 0 then sizeof_pointer else size in
  u32 (Z.ldiff (u64 (bytes + sizeof_pointer - 1)) (sizeof_pointer - 1)).

(** Making room in the objects of a type, or seeing that there are none: FALSE
    when memory fails.
    [dix/privates.c: dixRegisterPrivateKey 361-365] *)
Definition make_room (t : DevPrivateType) (bytes : Z) (st : PrivState) : outcome (PrivState * bool) :=
  if allocated_early t then fixup_early t Fixup_dixReallocPrivates bytes st
  else if negb (s_created (global_keys st t) =? 0) then FatalError
  else Ret (st, true).

(** [dix/privates.c: dixRegisterPrivateKey 337-343] *)
Fixpoint make_room_all (l : list DevPrivateType) (bytes : Z) (st : PrivState) :
    outcome (PrivState * bool) :=
  match l with
  | [] => Ret (st, true)
  | t :: l' =>
      if xselinux_private t then
        '(st1, ok) <-- make_room t bytes st;
        if ok then make_room_all l' bytes st1 else Ret (st1, false)
      else make_room_all l' bytes st
  end.

(** [dix/privates.c: dixRegisterPrivateKey 348-356] *)
Definition move_up (bytes : Z) (st : PrivState) (t : DevPrivateType) : outcome PrivState :=
  if xselinux_private t then
    '(m1, set) <-- grow_private_set bytes (ps_mem st) (global_keys st t);
    let st1 := st <| ps_mem := m1 |> <| global_keys ::= set_of t (fun _ => set) |> in
    st2 <-- grow_screen_specific_set t bytes st1;
    if allocated_early t then
      '(st3, _) <-- fixup_early t Fixup_dixMovePrivates bytes st2; Ret st3
    else Ret st2
  else Ret st.

(** [dix/privates.c: dixRegisterPrivateKey 371-378] *)
Definition setup_key (key : Z) (t : DevPrivateType) (size offset : Z) (st : PrivState) :
    outcome PrivState :=
  match m_keys (ps_mem st) !! key with
  | None => Undefined
  | Some _ =>
      let r := KeyRec offset (i32 size) true false t (s_key (global_keys st t)) in
      Ret (st <| ps_mem ::= fun m => m <| m_keys ::= insert key r |> |>
              <| global_keys ::= set_of t (fun set => set <| s_key := key |>) |>)
  end.

(** [dix/privates.c: dixRegisterPrivateKey] *)
Definition dixRegisterPrivateKey (st : PrivState) (key : Z) (type : DevPrivateType) (size : Z) :
    outcome (PrivState * bool) :=
  r <-? m_keys (ps_mem st) !! key;
  if k_initialized r then
    if negb (size =? u32 (k_size r)) then FatalError else Ret (st, true)
  else
  let bytes := key_bytes size in
  if decide (type = PRIVATE_XSELINUX) then
    '(st1, ok) <-- make_room_all private_types bytes st;
    if negb ok then Ret (st1, false) else
    st2 <-- for_each (move_up bytes) st1 private_types;
    st3 <-- setup_key key type size 0 st2;
    Ret (st3, true)
  else
    '(st1, ok) <-- make_room type bytes st;
    if negb ok then Ret (st1, false) else
    let offset := s_offset (global_keys st1 type) in
    let st2 := st1 <| global_keys ::= set_of type (fun set =>
                        set <| s_offset := u32 (offset + bytes) |>) |> in
    st3 <-- grow_screen_specific_set type bytes st2;
    st4 <-- setup_key key type size (i32 offset) st3;
    Ret (st4, true).

(** ** Access to the storage of an object (include/privates.h) *)

(** The inverse of [le64]. *)
Fixpoint from_le (l : list Z) : Z :=
  match l with [] => 0 | b :: l' => b + 256 * from_le l' end.

(** The key record at an address. *)
Definition key_at (m : Memory) (key : Z) : option DevPrivateKeyRec := m_keys m !! key.

(** Where in the storage; the pointer itself is [p_addr] more.
    [include/privates.h: dixGetPrivateAddr 135-140] *)
Definition dixGetPrivateAddr (m : Memory) (key : Z) : outcome Z :=
  k <-? key_at m key;
  if negb (k_initialized k) then FatalError else Ret (k_offset k).

(** [include/privates.h: dixGetPrivate 149-154] *)
Definition dixGetPrivate (m : Memory) (p : Privates) (key : Z) : outcome Z :=
  k <-? key_at m key;
  if negb (k_size k =? 0) then FatalError else
  offset <-- dixGetPrivateAddr m key;
  if (offset <? 0) || (p_len p <? offset + sizeof_pointer) then Undefined else
  Ret (from_le (take 8 (drop (Z.to_nat offset) (p_data p)))).

(** [include/privates.h: dixSetPrivate 160-165] *)
Definition dixSetPrivate (m : Memory) (p : Privates) (key val : Z) : outcome Privates :=
  k <-? key_at m key;
  if negb (k_size k =? 0) then FatalError else
  offset <-- dixGetPrivateAddr m key;
  if (offset <? 0) || (p_len p <? offset + sizeof_pointer) then Undefined else
  Ret (p <| p_data ::= fun d =>
         take (Z.to_nat offset) d ++ le64 val ++ drop (Z.to_nat (offset + sizeof_pointer)) d |>).

(** [include/privates.h: dixLookupPrivate 177-184] *)
Definition dixLookupPrivate (m : Memory) (p : Privates) (key : Z) : outcome Z :=
  k <-? key_at m key;
  if negb (k_size k =? 0) then
    offset <-- dixGetPrivateAddr m key; Ret (p_addr p + offset)
  else dixGetPrivate m p key.

(** [include/privates.h: dixLookupPrivateAddr 192-197] *)
Definition dixLookupPrivateAddr (m : Memory) (p : Privates) (key : Z) : outcome Z :=
  k <-? key_at m key;
  if negb (k_size k =? 0) then FatalError else
  offset <-- dixGetPrivateAddr m key; Ret (p_addr p + offset).

(** [include/privates.h: dixPrivateKeyRegistered 123-127] *)
Definition dixPrivateKeyRegistered (m : Memory) (key : Z) : outcome bool :=
  k <-? key_at m key; Ret (k_initialized k).

(** ** Keys per screen *)

Definition screen_at (st : PrivState) (gpu : bool) (i : nat) : option ScreenRec :=
  (if gpu then ps_gpuscreens st else ps_screens st) !! i.
Definition set_screen (st : PrivState) (gpu : bool) (i : nat) (s : ScreenRec) : PrivState :=
  if gpu then st <| ps_gpuscreens ::= <[i := s]> |> else st <| ps_screens ::= <[i := s]> |>.

Definition sizeof_DevPrivateKeyRec : Z := 32.

(** A key of which there is one per screen, in its own allocation; the screen's
    storage holds the pointer.  [screenKey] is the address of the key of the
    pointer.
    [dix/privates.c: dixRegisterScreenPrivateKey] *)
Definition dixRegisterScreenPrivateKey (st : PrivState) (screenKey : Z) (gpu : bool) (i : nat)
    (type : DevPrivateType) (size : Z) : outcome (PrivState * bool) :=
  '(st1, ok) <-- dixRegisterPrivateKey st screenKey PRIVATE_SCREEN 0;
  if negb ok then Ret (st1, false) else
  s <-? screen_at st1 gpu i;
  key <-- dixGetPrivate (ps_mem st1) (devPrivates s) screenKey;
  if negb (key =? 0) then
    k <-? key_at (ps_mem st1) key;
    if negb (u32 (k_size k) =? size) then FatalError else
    if negb (bool_decide (k_type k = type)) then FatalError else Ret (st1, true)
  else
  let '(m2, r) := mem_calloc env (ps_mem st1) sizeof_DevPrivateKeyRec in
  match r with
  | None => Ret (st1 <| ps_mem := m2 |>, false)
  | Some key =>
      let zero := KeyRec 0 0 false false PRIVATE_XSELINUX 0 in
      let st2 := st1 <| ps_mem := m2 <| m_keys ::= insert key zero |> |> in
      '(st3, ok) <-- dixRegisterPrivateKey st2 key type size;
      if negb ok then
        Ret (st3 <| ps_mem ::= fun m => mem_free m key sizeof_DevPrivateKeyRec |>, false)
      else
      k <-? key_at (ps_mem st3) key;
      let m4 := ps_mem st3 <| m_keys ::= insert key (k <| k_allocated := true |>) |> in
      s3 <-? screen_at st3 gpu i;
      p <-- dixSetPrivate m4 (devPrivates s3) screenKey key;
      Ret (set_screen (st3 <| ps_mem := m4 |>) gpu i (s3 <| devPrivates := p |>), true)
  end.

(** [dix/privates.c: _dixGetScreenPrivateKey] *)
Definition _dixGetScreenPrivateKey (st : PrivState) (screenKey : Z) (s : ScreenRec) : outcome Z :=
  dixGetPrivate (ps_mem st) (devPrivates s) screenKey.

(** [include/privates.h: dixGetScreenPrivate 214-219] *)
Definition dixGetScreenPrivate (st : PrivState) (p : Privates) (screenKey : Z) (s : ScreenRec) :
    outcome Z :=
  key <-- _dixGetScreenPrivateKey st screenKey s; dixGetPrivate (ps_mem st) p key.

(** [include/privates.h: dixSetScreenPrivate 221-226] *)
Definition dixSetScreenPrivate (st : PrivState) (p : Privates) (screenKey : Z) (s : ScreenRec)
    (val : Z) : outcome Privates :=
  key <-- _dixGetScreenPrivateKey st screenKey s; dixSetPrivate (ps_mem st) p key val.

(** [include/privates.h: dixLookupScreenPrivate 228-233] *)
Definition dixLookupScreenPrivate (st : PrivState) (p : Privates) (screenKey : Z) (s : ScreenRec) :
    outcome Z :=
  key <-- _dixGetScreenPrivateKey st screenKey s; dixLookupPrivate (ps_mem st) p key.

(** [dix/privates.c: dixRegisterScreenSpecificPrivateKey] *)
Definition dixRegisterScreenSpecificPrivateKey (st : PrivState) (gpu : bool) (i : nat) (key : Z)
    (type : DevPrivateType) (size : Z) : outcome (PrivState * bool) :=
  if negb (screen_specific_private type) then FatalError else
  r <-? key_at (ps_mem st) key;
  if k_initialized r then
    if negb (size =? u32 (k_size r)) then FatalError else Ret (st, true)
  else
  let bytes := key_bytes size in
  s <-? screen_at st gpu i;
  let set := screenSpecificPrivates s type in
  if allocated_early type then FatalError else
  if negb (s_created set =? 0) then FatalError else
  let offset := s_offset set in
  let r' := KeyRec (i32 offset) (i32 size) true false type (s_key set) in
  let s' := s <| screenSpecificPrivates ::= set_of type (fun set =>
                   set <| s_offset := u32 (offset + bytes) |> <| s_key := key |>) |> in
  Ret (set_screen (st <| ps_mem ::= fun m => m <| m_keys ::= insert key r' |> |>) gpu i s', true).

(** The walk that takes the registration off the keys of a set.
    [dix/privates.c: dixFreeScreenSpecificPrivates 628-630] *)
Definition unregister_step (s : gmap Z DevPrivateKeyRec * Z) :
    gmap Z DevPrivateKeyRec * Z + outcome (gmap Z DevPrivateKeyRec) :=
  let '(keys, k) := s in
  if k =? 0 then inr (Ret keys) else
  match keys !! k with
  | None => inr Undefined
  | Some r => inl (<[k := r <| k_initialized := false |>]> keys, k_next r)
  end.

(** [dix/privates.c: dixFreeScreenSpecificPrivates] *)
Definition dixFreeScreenSpecificPrivates (m : Memory) (s : ScreenRec) : outcome Memory :=
  for_each (fun m t =>
      keys <-- run_loop unregister_step TURNS (m_keys m, s_key (screenSpecificPrivates s t));
      Ret (m <| m_keys := keys |>))
    m private_types.

(** [dix/privates.c: dixInitScreenSpecificPrivates] *)
Definition dixInitScreenSpecificPrivates (gk : DevPrivateSets) (s : ScreenRec) : ScreenRec :=
  s <| screenSpecificPrivates ::= fun ss t => ss t <| s_offset := s_offset (gk t) |> |>.

(** ** Objects *)

(** One object more, or one less.
    [dix/privates.c: _dixInitPrivates 423-425] *)
Definition count_created (t : DevPrivateType) (d : Z) (gk : DevPrivateSets) : DevPrivateSets :=
  let more := fun set => set <| s_created ::= Z.add d |> in
  let gk1 := set_of t more gk in
  if xselinux_private t then set_of PRIVATE_XSELINUX more gk1 else gk1.

(** [memset] at an address behind which there are [room] bytes; none if there
    is nothing to store.
    [dix/privates.c: _dixInitPrivates 426-430] *)
Definition clear_privates (addr room offset : Z) : outcome Privates :=
  let addr := if offset =? 0 then 0 else addr in
  if addr =? 0 then Ret no_privates else
  if room <? offset then Undefined else Ret (Priv addr (zeros offset)).

(** [dix/privates.c: _dixInitPrivates] *)
Definition _dixInitPrivates (st : PrivState) (addr room : Z) (type : DevPrivateType) :
    outcome (PrivState * Privates) :=
  if screen_specific_private type then FatalError else
  let st1 := st <| global_keys ::= count_created type 1 |> in
  p <-- clear_privates addr room (s_offset (global_keys st1 type));
  Ret (st1, p).

(** [dix/privates.c: _dixFiniPrivates] *)
Definition _dixFiniPrivates (st : PrivState) (type : DevPrivateType) : PrivState :=
  st <| global_keys ::= count_created type (-1) |>.

(** Objects are aligned to pointers.
    [dix/privates.c: _dixAllocateObjectWithPrivates 462-463] *)
Definition align_base (baseSize : Z) : Z :=
  u32 (Z.ldiff (u64 (baseSize + sizeof_pointer - 1)) (sizeof_pointer - 1)).

(** [dix/privates.c: _dixAllocateObjectWithPrivates] *)
Definition _dixAllocateObjectWithPrivates (st : PrivState) (baseSize clear : Z)
    (type : DevPrivateType) : outcome (PrivState * option Z) :=
  if bool_decide (type = PRIVATE_XSELINUX \/ type = PRIVATE_SCREEN) then FatalError else
  if screen_specific_private type then FatalError else
  let baseSize := align_base baseSize in
  let totalSize := u32 (baseSize + s_offset (global_keys st type)) in
  let '(m1, r) := mem_calloc env (ps_mem st) totalSize in
  let st1 := st <| ps_mem := m1 |> in
  match r with
  | None => Ret (st1, None)
  | Some object =>
      if totalSize <? clear then Undefined else
      '(st2, p) <-- _dixInitPrivates st1 (object + baseSize) (totalSize - baseSize) type;
      Ret (st2 <| ps_objects ::= insert object (Obj type None p) |>, Some object)
  end.

(** Storage of an object's own: its memory is part of the answer.
    [dix/privates.c: dixAllocatePrivates] *)
Definition dixAllocatePrivates (st : PrivState) (type : DevPrivateType) :
    outcome (PrivState * option Privates) :=
  if bool_decide (type = PRIVATE_XSELINUX) then FatalError else
  if screen_specific_private type then FatalError else
  let size := s_offset (global_keys st type) in
  let '(m1, r) :=
    if size =? 0 then (ps_mem st, Some 0) else mem_calloc env (ps_mem st) size in
  let st1 := st <| ps_mem := m1 |> in
  match r with
  | None => Ret (st1, None)
  | Some a =>
      '(st2, p) <-- _dixInitPrivates st1 a size type;
      Ret (st2 <| global_keys ::= set_of type (fun set => set <| s_allocated ::= Z.add 1 |>) |>,
           Some p)
  end.

(** [dix/privates.c: _dixFreeObjectWithPrivates] *)
Definition _dixFreeObjectWithPrivates (st : PrivState) (object : Z) (type : DevPrivateType) :
    outcome PrivState :=
  _ <-? ps_objects st !! object;
  Ret (_dixFiniPrivates st type <| ps_objects ::= delete object |>
         <| ps_mem ::= fun m => mem_free m object BLOCK |>).

(** [dix/privates.c: dixFreePrivates] *)
Definition dixFreePrivates (st : PrivState) (p : Privates) (type : DevPrivateType) : PrivState :=
  if p_addr p =? 0 then st else
  let st1 := _dixFiniPrivates st type in
  st1 <| global_keys ::= set_of type (fun set => set <| s_allocated ::= Z.add (-1) |>) |>
      <| ps_mem ::= fun m => mem_free m (p_addr p) (p_len p) |>.

(** [dix/privates.c: dixPrivatesSize] *)
Definition dixPrivatesSize (st : PrivState) (type : DevPrivateType) : outcome Z :=
  if bool_decide (type = PRIVATE_XSELINUX) then FatalError else
  if screen_specific_private type then FatalError else
  Ret (i32 (s_offset (global_keys st type))).

(** The size of the storage of objects of a screen, which may be none.
    [dix/privates.c: _dixInitScreenPrivates 649-654] *)
Definition screen_privates_size (st : PrivState) (s : option (bool * nat))
    (type : DevPrivateType) : outcome Z :=
  match s with
  | Some (gpu, i) =>
      s <-? screen_at st gpu i; Ret (i32 (s_offset (screenSpecificPrivates s type)))
  | None => Ret (i32 (s_offset (global_keys st type)))
  end.

(** [dix/privates.c: _dixInitScreenPrivates] *)
Definition _dixInitScreenPrivates (st : PrivState) (pScreen : option (bool * nat))
    (addr room : Z) (type : DevPrivateType) : outcome (PrivState * Privates) :=
  if negb (screen_specific_private type) then FatalError else
  size <-- screen_privates_size st pScreen type;
  let st1 :=
    match pScreen with
    | Some (gpu, i) =>
        let more := fun s => s <| screenSpecificPrivates ::=
              set_of type (fun set => set <| s_created ::= Z.add 1 |>) |> in
        if gpu then st <| ps_gpuscreens ::= alter more i |> else st <| ps_screens ::= alter more i |>
    | None => st
    end in
  let st2 := st1 <| global_keys ::= count_created type 1 |> in
  p <-- clear_privates addr room size;
  Ret (st2, p).

(** [dix/privates.c: _dixAllocateScreenObjectWithPrivates] *)
Definition _dixAllocateScreenObjectWithPrivates (st : PrivState) (pScreen : option (bool * nat))
    (baseSize : Z) (type : DevPrivateType) : outcome (PrivState * option Z) :=
  if bool_decide (type = PRIVATE_XSELINUX \/ type = PRIVATE_SCREEN) then FatalError else
  if negb (screen_specific_private type) then FatalError else
  size <-- screen_privates_size st pScreen type;
  let baseSize := align_base baseSize in
  let totalSize := u32 (baseSize + size) in
  let '(m1, r) := mem_calloc env (ps_mem st) totalSize in
  let st1 := st <| ps_mem := m1 |> in
  match r with
  | None => Ret (st1, None)
  | Some object =>
      '(st2, p) <-- _dixInitScreenPrivates st1 pScreen (object + baseSize) (totalSize - baseSize) type;
      Ret (st2 <| ps_objects ::= insert object (Obj type pScreen p) |>, Some object)
  end.

(** [dix/privates.c: dixScreenSpecificPrivatesSize] *)
Definition dixScreenSpecificPrivatesSize (st : PrivState) (s : ScreenRec) (type : DevPrivateType) :
    outcome Z :=
  if bool_decide (type = PRIVATE_XSELINUX) then FatalError else
  Ret (i32 (s_offset (if screen_specific_private type then screenSpecificPrivates s type
                      else global_keys st type))).

(** [dix/privates.c: dixPrivatesCreated] *)
Definition dixPrivatesCreated (st : PrivState) (type : DevPrivateType) : bool :=
  negb (s_created (global_keys st type) =? 0).

(** ** The end of a server generation *)

(** One key: what follows it is read before it may be freed.
    [dix/privates.c: dixResetPrivates 737-745] *)
Definition reset_step (s : Memory * Z) : Memory * Z + outcome Memory :=
  let '(m, key) := s in
  if key =? 0 then inr (Ret m) else
  match m_keys m !! key with
  | None => inr Undefined
  | Some k =>
      let k' := k <| k_offset := 0 |> <| k_initialized := false |> <| k_size := 0 |>
                  <| k_type := PRIVATE_XSELINUX |> in
      let m1 := m <| m_keys ::= insert key k' |> in
      inl (if k_allocated k then mem_free m1 key sizeof_DevPrivateKeyRec else m1, k_next k)
  end.

(** [dix/privates.c: dixResetPrivates] *)
Definition dixResetPrivates (st : PrivState) : outcome PrivState :=
  for_each (fun st t =>
      m <-- run_loop reset_step TURNS (ps_mem st, s_key (global_keys st t));
      Ret (st <| ps_mem := m |> <| global_keys ::= set_of t (fun _ => SetRec 0 0 0 0) |>))
    st private_types.
End Privates.

(** The part of [init_screen] that sets the private storage of a new screen up.
    [dix/dispatch.c: init_screen 4074-4080] *)
Definition init_screen (env : heap_env) (st : PrivState) : outcome (PrivState * option ScreenRec) :=
  let s := Screen no_privates (fun _ => SetRec 0 0 0 0) None in
  let s1 := dixInitScreenSpecificPrivates (global_keys st) s in
  '(st1, r) <-- dixAllocatePrivates env st PRIVATE_SCREEN;
  match r with
  | None => Ret (st1, None)
  | Some p => Ret (st1, Some (s1 <| devPrivates := p |>))
  end.

(** ** The place of the storage in an object *)

Section Offsets.
(** The compiler's [offsetof] for the [devPrivates] of each structure, and the
    mask of resource types (dix/resource.c). *)
Context (o_WindowRec o_PixmapRec o_GCRec o_CursorRec o_ColormapRec TypeMask : Z).

(** [dix/privates.c: offsets 549-557] *)
Definition offsets : list Z :=
  [-1; o_WindowRec; o_PixmapRec; o_GCRec; -1; o_CursorRec; o_ColormapRec].

(** [dix/privates.c: dixLookupPrivateOffset] *)
Definition dixLookupPrivateOffset (type : Z) : outcome Z :=
  if negb (Z.land type RC_DRAWABLE =? 0) then
    if type =? X11_RESTYPE_WINDOW then
      r <-? znth offsets (Z.land X11_RESTYPE_WINDOW TypeMask); Ret r
    else r <-? znth offsets (Z.land X11_RESTYPE_PIXMAP TypeMask); Ret r
  else
  let type := Z.land type TypeMask in
  if type <? 7 then r <-? znth offsets type; Ret r else Ret (-1).
End Offsets.
