(* ===== verification/PrivateLayout.v ===== *)
(** * The lists of private keys and the ranges they name

    The walks of dix/privates.c along the links of key records, and what they
    do to a list whose keys tile a range of the storage.  Storage that moves
    takes the key records in it along. *)

From S2P Require Import Prelude Wire Resource Privates.

(** ** Sizes *)

Lemma key_bytes_bounds size :
  0 <= size <= 2147483640 -> 8 <= key_bytes size <= 2147483640 /\ size <= key_bytes size.
Proof.
  intros Hs. unfold key_bytes, sizeof_pointer. change (8 - 1) with (Z.ones 3).
  rewrite Z.ldiff_ones_r, Z.shiftr_div_pow2, Z.shiftl_mul_pow2 by lia.
  change (2 ^ 3) with 8. destruct (Z.eqb_spec size 0); word.
Qed.

(** ** Memory that moves *)

#[export] Instance Z_add_inj (d : Z) : Inj (=) (=) (Z.add d).
Proof. intros a b. lia. Qed.

Lemma relocate_in old len keep new keys a :
  old <= a < old + keep -> relocate old len keep new keys !! (new + (a - old)) = keys !! a \/
  keys !! a = None.
Proof.
  intros Ha. unfold relocate. destruct (keys !! a) as [r|] eqn:E; [left|by right].
  apply lookup_union_Some_l. replace (new + (a - old)) with (new - old + a) by lia.
  rewrite lookup_kmap by apply _. by apply map_lookup_filter_Some.
Qed.

Lemma relocate_out old len keep new keys a :
  ~ (old <= a < old + len) -> ~ (new <= a < new + keep) ->
  relocate old len keep new keys !! a = keys !! a.
Proof.
  intros Ho Hn. unfold relocate. rewrite lookup_union_r.
  - rewrite map_lookup_filter. destruct (keys !! a) as [r|]; [|done]. simpl.
    by rewrite option_guard_True by done.
  - apply lookup_kmap_None; [apply _|]. intros a' ->.
    apply map_lookup_filter_None. right. intros r _ Hin. apply Hn. lia.
Qed.

Lemma relocate_Some old len keep new keys a r :
  keys !! a = Some r -> old <= a < old + keep ->
  relocate old len keep new keys !! (new + (a - old)) = Some r.
Proof. intros E Ha. destruct (relocate_in old len keep new keys a Ha); congruence. Qed.

(** ** Links *)

Notation keymap := (gmap Z DevPrivateKeyRec).

(** From [p] on, the links lead through [l] and end there. *)
Fixpoint linked (keys : keymap) (p : Z) (l : list Z) : Prop :=
  match l with
  | [] => p = 0
  | a :: l' => p = a /\ a <> 0 /\ exists r, keys !! a = Some r /\ linked keys (k_next r) l'
  end.

Lemma linked_unique keys p l1 l2 : linked keys p l1 -> linked keys p l2 -> l1 = l2.
Proof.
  revert p l2. induction l1 as [|a l1 IH]; intros p [|b l2]; cbn; try done.
  - intros -> (-> & H & _). done.
  - intros (-> & H & _) ->. done.
  - intros (-> & _ & r & Hr & H1) (-> & _ & r' & Hr' & H2).
    rewrite Hr in Hr'. injection Hr' as ->. f_equal. by eapply IH.
Qed.

Lemma linked_app keys p l1 a l2 : linked keys p (l1 ++ a :: l2) -> linked keys a (a :: l2).
Proof.
  revert p. induction l1 as [|b l1 IH]; intros p; cbn.
  - intros (-> & H). by split.
  - intros (_ & _ & r & _ & H). by eapply IH.
Qed.

Lemma linked_NoDup keys p l : linked keys p l -> NoDup l.
Proof.
  revert p. induction l as [|a l IH]; intros p Hl; [constructor|].
  pose proof Hl as (-> & _ & r & _ & Hr). constructor; [|by eapply IH].
  intros (l1 & l2 & ->)%list_elem_of_split.
  assert (a :: l1 ++ a :: l2 = a :: l2) as [= E].
  { eapply linked_unique; [exact Hl|]. eapply (linked_app keys a (a :: l1)). exact Hl. }
  apply (f_equal length) in E. rewrite length_app in E. cbn in E. lia.
Qed.

Lemma linked_ne keys p l a : linked keys p l -> a ∈ l -> a <> 0.
Proof.
  revert p. induction l as [|b l IH]; intros p; [by intros _ ?%not_elem_of_nil|].
  intros (_ & Hb & r & _ & H) [->|Ha]%elem_of_cons; [done|]. by eapply IH.
Qed.

Lemma linked_cell keys p l a : linked keys p l -> a ∈ l -> exists r, keys !! a = Some r.
Proof.
  revert p. induction l as [|b l IH]; intros p; [by intros _ ?%not_elem_of_nil|].
  intros (_ & Hb & r & Hr & H) [->|Ha]%elem_of_cons; [by exists r|]. by eapply IH.
Qed.

(** Only the links of the list matter. *)
Lemma linked_next (keys keys' : keymap) p l :
  (forall a, a ∈ l -> k_next <$> keys' !! a = k_next <$> keys !! a) ->
  linked keys p l -> linked keys' p l.
Proof.
  revert p. induction l as [|a l IH]; intros p Hn; cbn; [done|].
  intros (-> & Ha & r & Hr & H). split_and!; [done..|].
  pose proof (Hn a ltac:(left)) as Ea. rewrite Hr in Ea.
  destruct (keys' !! a) as [r'|] eqn:Er'; [|done]. cbn in Ea. injection Ea as Ea.
  exists r'. split; [done|]. rewrite Ea. apply IH; [|done]. intros b Hb. apply Hn. by right.
Qed.

(** ** Ranges *)

(** The registered keys of type [t] in [l], newest first, name adjacent ranges
    that make up the bytes from [lo] to [hi]. *)
Fixpoint tiled (keys : keymap) (t : DevPrivateType) (hi : Z) (l : list Z) (lo : Z) : Prop :=
  match l with
  | [] => hi = lo
  | a :: l' => exists r, keys !! a = Some r /\ k_initialized r = true /\ k_type r = t /\
      0 <= k_size r <= 2147483640 /\ k_offset r + key_bytes (k_size r) = hi /\
      tiled keys t (k_offset r) l' lo
  end.

Lemma tiled_le keys t hi l lo : tiled keys t hi l lo -> lo + 8 * Z.of_nat (length l) <= hi.
Proof.
  revert hi. induction l as [|a l IH]; intros hi; cbn [tiled length]; [lia|].
  intros (r & _ & _ & _ & Hs & <- & H%IH). pose proof (key_bytes_bounds _ Hs). lia.
Qed.

Lemma tiled_mono keys t hi l lo : tiled keys t hi l lo -> lo <= hi.
Proof. intros H%tiled_le. lia. Qed.

Lemma tiled_ext (keys keys' : keymap) t hi l lo :
  (forall a, a ∈ l -> keys' !! a = keys !! a) -> tiled keys t hi l lo -> tiled keys' t hi l lo.
Proof.
  revert hi. induction l as [|a l IH]; intros hi He; [done|]. cbn.
  intros (r & Hr & Hi & Ht & Hs & Hh & H). exists r. rewrite He by left. split_and!; try (done || lia).
  apply IH; [|done]. intros b Hb. apply He. by right.
Qed.

Lemma tiled_key keys t hi l lo a : tiled keys t hi l lo -> a ∈ l ->
  exists r, keys !! a = Some r /\ k_initialized r = true /\ k_type r = t /\
    0 <= k_size r <= 2147483640 /\ lo <= k_offset r /\ k_offset r + key_bytes (k_size r) <= hi.
Proof.
  revert hi. induction l as [|b l IH]; intros hi; [by intros _ ?%not_elem_of_nil|]. cbn.
  intros (r & Hr & Hi & Ht & Hs & <- & H) [->|Ha]%elem_of_cons.
  - exists r. split_and!; try done; try lia. by eapply tiled_mono.
  - destruct (IH _ H Ha) as (r' & Hr' & Hi' & Ht' & Hs' & Hlo & Hhi).
    exists r'. split_and!; try done; try lia. pose proof (key_bytes_bounds _ Hs). lia.
Qed.

(** Two keys of a tiled list do not share a byte. *)
Lemma tiled_apart keys t hi l lo a b ra rb :
  tiled keys t hi l lo -> a ∈ l -> b ∈ l -> a <> b ->
  keys !! a = Some ra -> keys !! b = Some rb ->
  k_offset ra + key_bytes (k_size ra) <= k_offset rb \/
  k_offset rb + key_bytes (k_size rb) <= k_offset ra.
Proof.
  revert hi. induction l as [|c l IH]; intros hi; [by intros _ ?%not_elem_of_nil|]. cbn.
  intros (r & Hr & _ & _ & _ & _ & H) Ha Hb Hne Ea Eb.
  apply elem_of_cons in Ha as [->|Ha]; apply elem_of_cons in Hb as [->|Hb]; [done|..].
  - destruct (tiled_key _ _ _ _ _ _ H Hb) as (r' & Hr' & _ & _ & _ & _ & Hhi).
    assert (r = ra) as -> by congruence. assert (r' = rb) as -> by congruence. lia.
  - destruct (tiled_key _ _ _ _ _ _ H Ha) as (r' & Hr' & _ & _ & _ & _ & Hhi).
    assert (r = rb) as -> by congruence. assert (r' = ra) as -> by congruence. lia.
  - by eapply IH.
Qed.

(** ** Walks that change every key of a list *)

Definition update_step (f : DevPrivateKeyRec -> DevPrivateKeyRec) (s : keymap * Z) :
    keymap * Z + outcome keymap :=
  let '(keys, k) := s in
  if k =? 0 then inr (Ret keys) else
  match keys !! k with
  | None => inr Undefined
  | Some r => inl (<[k := f r]> keys, k_next r)
  end.

(** The keys of [l] changed by [f]. *)
Definition updated (f : DevPrivateKeyRec -> DevPrivateKeyRec) (l : list Z) (keys keys' : keymap) : Prop :=
  forall a, keys' !! a = if decide (a ∈ l) then f <$> keys !! a else keys !! a.

Lemma update_walk f keys p l :
  linked keys p l -> Z.of_nat (length l) < Zpos TURNS ->
  exists keys', run_loop (update_step f) TURNS (keys, p) = Ret keys' /\ updated f l keys keys'.
Proof.
  intros Hl Hn. pose proof (linked_NoDup _ _ _ Hl) as Hnd.
  apply (run_loop_ranked (update_step f) (fun n s => exists l1 l2, l = l1 ++ l2 /\
    n = length l2 /\ linked keys (snd s) l2 /\ updated f l1 keys (fst s)) _ TURNS (length l));
    [|exists [], l; split_and!; try done; intros a; by rewrite decide_False by apply not_elem_of_nil|done].
  intros n [m k] (l1 & l2 & -> & -> & Hk & Hu). cbn [fst snd update_step] in *.
  destruct l2 as [|a l2]; cbn in Hk.
  - subst k. by rewrite app_nil_r.
  - destruct Hk as (-> & Ha & r & Hr & Hk). rewrite (proj2 (Z.eqb_neq a 0) Ha).
    pose proof (proj1 (proj1 (NoDup_app _ _) Hnd)) as _.
    apply NoDup_app in Hnd as (_ & Hdis & _).
    assert (a ∉ l1) as Hal by (intros Hin; apply (Hdis a Hin); left).
    pose proof (Hu a) as Ea. rewrite decide_False in Ea by done. rewrite Ea, Hr.
    exists (length l2). split; [cbn; lia|]. exists (l1 ++ [a]), l2. cbn [fst snd].
    split_and!; [by rewrite <- app_assoc|done|done|]. intros b. rewrite lookup_insert.
    destruct (decide (a = b)) as [<-|Hab].
    + rewrite decide_True by (apply elem_of_app; right; left). by rewrite Hr.
    + rewrite Hu. destruct (decide (b ∈ l1)).
      * rewrite decide_True; [done|set_solver].
      * rewrite decide_False; [done|set_solver].
Qed.

Lemma updated_linked f keys keys' p l l0 :
  (forall r, k_next (f r) = k_next r) -> updated f l0 keys keys' -> linked keys p l -> linked keys' p l.
Proof.
  intros Hf Hu. apply linked_next. intros a _. rewrite Hu. case_decide; [|done].
  destruct (keys !! a); cbn; [by rewrite Hf|done].
Qed.

Lemma updated_other f keys keys' l a : updated f l keys keys' -> a ∉ l -> keys' !! a = keys !! a.
Proof. intros Hu Ha. by rewrite Hu, decide_False. Qed.

(** A key whose range moves up. *)
Definition grown (bytes : Z) (r : DevPrivateKeyRec) : DevPrivateKeyRec :=
  r <| k_offset := i32 (k_offset r + bytes) |>.

Lemma tiled_grown bytes keys keys' t hi l lo l0 :
  updated (grown bytes) l0 keys keys' -> (forall a, a ∈ l -> a ∈ l0) ->
  0 <= lo -> 0 <= bytes -> hi + bytes < 2147483648 ->
  tiled keys t hi l lo -> tiled keys' t (hi + bytes) l (lo + bytes).
Proof.
  intros Hu. revert hi. induction l as [|a l IH]; intros hi Hin Hlo Hb Hhi; cbn; [by intros ->|].
  intros (r & Hr & Hi & Ht & Hs & <- & H). pose proof (tiled_mono _ _ _ _ _ H).
  pose proof (key_bytes_bounds _ Hs).
  exists (grown bytes r). rewrite Hu, decide_True, Hr by (apply Hin; left). cbn.
  rewrite i32_small by lia. split_and!; try (done || lia).
  apply IH; try lia; [|done]. intros b Hbl. apply Hin. by right.
Qed.

(** [grow_private_set] on a list that tiles a range. *)
Lemma grow_private_set_spec bytes m set l t lo :
  linked (m_keys m) (s_key set) l -> tiled (m_keys m) t (s_offset set) l lo ->
  0 <= lo -> 0 <= bytes -> s_offset set + bytes < 2147483648 ->
  exists keys', grow_private_set bytes m set =
      Ret (m <| m_keys := keys' |>, set <| s_offset := s_offset set + bytes |>) /\
    updated (grown bytes) l (m_keys m) keys'.
Proof.
  intros Hl Ht Hlo Hb Hhi. pose proof (tiled_le _ _ _ _ _ Ht).
  destruct (update_walk (grown bytes) _ _ _ Hl) as (keys' & E & Hu).
  { change (Zpos TURNS) with 18446744073709551616. lia. }
  exists keys'. split; [|done]. unfold grow_private_set.
  change (grow_step bytes) with (update_step (grown bytes)). rewrite E. cbn [obind].
  by rewrite u32_small by lia.
Qed.

(** ** The walk that follows links into storage that has moved *)

(** Where a key is after [size] bytes from [old] have gone to [new]. *)
Definition shifted (old size new a : Z) : Z :=
  if (old <=? a) && (a <? old + size) then new + (a - old) else a.

Definition erase_next (r : DevPrivateKeyRec) : DevPrivateKeyRec := r <| k_next := 0 |>.

(** The two agree but for links. *)
Definition same_keys (keys keys' : keymap) : Prop :=
  forall a, erase_next <$> keys' !! a = erase_next <$> keys !! a.

Lemma erase_Some (x : option DevPrivateKeyRec) y r :
  erase_next <$> x = erase_next <$> y -> y = Some r ->
  exists r', x = Some r' /\ erase_next r' = erase_next r.
Proof. intros E ->. destruct x as [r'|]; [|done]. cbn in E. exists r'. split; [done|congruence]. Qed.

Lemma tiled_moved (f : Z -> Z) keys keys' t hi l lo :
  (forall a, a ∈ l -> erase_next <$> keys' !! f a = erase_next <$> keys !! a) ->
  tiled keys t hi l lo -> tiled keys' t hi (f <$> l) lo.
Proof.
  revert hi. induction l as [|a l IH]; intros hi He; [done|]. cbn.
  intros (r & Hr & Hi & Ht & Hs & Hh & H).
  destruct (erase_Some _ _ _ (He a ltac:(left)) Hr) as (r' & Hr' & E).
  destruct r as [o s i al ty n], r' as [o' s' i' al' ty' n']. cbn in *. injection E as -> -> -> -> ->.
  eexists. split; [exact Hr'|]. cbn. split_and!; try (done || lia).
  apply IH; [|done]. intros b Hb. apply He. by right.
Qed.

(** A part of a list, whose last link is [q]. *)
Fixpoint lseg (keys : keymap) (p : Z) (l : list Z) (q : Z) : Prop :=
  match l with
  | [] => p = q
  | a :: l' => p = a /\ a <> 0 /\ exists r, keys !! a = Some r /\ lseg keys (k_next r) l' q
  end.

Lemma lseg_end keys p l : lseg keys p l 0 -> linked keys p l.
Proof.
  revert p. induction l as [|a l IH]; intros p; [done|]. cbn.
  intros (-> & Ha & r & Hr & H). split_and!; [done..|]. exists r. by split; [|apply IH].
Qed.

Lemma lseg_snoc keys p l a r :
  lseg keys p l a -> a <> 0 -> keys !! a = Some r -> lseg keys p (l ++ [a]) (k_next r).
Proof.
  revert p. induction l as [|b l IH]; intros p; cbn.
  - intros -> Ha Hr. split_and!; [done..|]. by exists r.
  - intros (-> & Hb & r' & Hr' & H) Ha Hr. split_and!; [done..|]. exists r'. split; [done|]. by apply IH.
Qed.

(** The last link is [q'] now. *)
Lemma lseg_write keys p l b q q' :
  lseg keys p (l ++ [b]) q -> NoDup (l ++ [b]) ->
  lseg (alter (fun r => r <| k_next := q' |>) b keys) p (l ++ [b]) q'.
Proof.
  revert p. induction l as [|c l IH]; intros p; cbn.
  - intros (-> & Hb & r & Hr & _) _. split_and!; [done..|].
    exists (r <| k_next := q' |>). by rewrite lookup_alter_eq, Hr.
  - intros (-> & Hc & r & Hr & H) [Hnin Hnd]%NoDup_cons. split_and!; [done..|].
    exists r. split; [|by apply IH]. rewrite lookup_alter_ne; [done|]. intros ->. apply Hnin. set_solver.
Qed.

Lemma lseg_read m head l q : lseg (m_keys m) head l q -> keyp_read m head (last l) = Some q.
Proof.
  destruct l as [|b l _] using rev_ind; cbn; [by intros ->|].
  rewrite last_snoc. cbn. revert head. induction l as [|c l IH]; intros head; cbn.
  - intros (_ & _ & r & -> & <-). done.
  - intros (_ & _ & r & _ & H). by eapply IH.
Qed.

(** The link that was just read is set. *)
Lemma keyp_write_seg m head ls a x :
  lseg (m_keys m) head ls a -> NoDup ls ->
  let '(m', head') := keyp_write m head (last ls) x in
  lseg (m_keys m') head' ls x /\ m' = m <| m_keys := m_keys m' |> /\
  same_keys (m_keys m) (m_keys m') /\ (forall b, b ∉ ls -> m_keys m' !! b = m_keys m !! b).
Proof.
  intros Hseg Hn. destruct ls as [|b ls _] using rev_ind; cbn.
  - split_and!; try done. by destruct m.
  - rewrite last_snoc. cbn. split_and!; [by eapply lseg_write|done|..].
    + intros c. cbn. destruct (decide (b = c)) as [->|].
      * rewrite lookup_alter_eq. by destruct (m_keys m !! c).
      * by rewrite lookup_alter_ne.
    + intros c Hc. rewrite lookup_alter_ne; [done|]. intros ->. apply Hc.
      apply elem_of_app. right. left.
Qed.

Section Patch.
Context (old size new : Z) (keys0 : keymap) (l : list Z) (m0 : Memory).
Notation sh := (shifted old size new).
Context (Hmoved : forall a, a ∈ l -> m_keys m0 !! sh a = keys0 !! a)
  (Hnd : NoDup (sh <$> l)) (Hne : forall a, a ∈ l -> sh a <> 0).

(** The walk has been through [l1]. *)
Definition patching (l1 l2 : list Z) (s : Memory * Z * option Z) : Prop :=
  let '(m, head, keyp) := s in
  l = l1 ++ l2 /\ keyp = last (sh <$> l1) /\
  (exists q, lseg (m_keys m) head (sh <$> l1) q /\ linked keys0 q l2) /\
  m = m0 <| m_keys := m_keys m |> /\ same_keys (m_keys m0) (m_keys m) /\
  (forall a, a ∉ sh <$> l1 -> m_keys m !! a = m_keys m0 !! a).

Lemma patch_end s l1 : patching l1 [] s ->
  exists m head, patch_step old size new s = inr (Ret (m, head)) /\ s.1 = (m, head).
Proof.
  destruct s as [[m head] keyp]. intros (_ & -> & (q & Hseg & Hq) & _).
  cbn in Hq. subst q. exists m, head. cbn. by rewrite (lseg_read _ _ _ _ Hseg).
Qed.

Lemma patch_next s l1 a l2 : patching l1 (a :: l2) s ->
  exists s', patch_step old size new s = inl s' /\ patching (l1 ++ [a]) l2 s'.
Proof.
  destruct s as [[m head] keyp]. intros (El & -> & (q & Hseg & Hq) & Em & Hsame & Hout).
  cbn in Hq. destruct Hq as (-> & Ha & r & Hr & Hq).
  assert (a ∈ l) as Hal by (rewrite El; set_solver).
  pose proof Hnd as Hnd'. rewrite El, fmap_app in Hnd'. apply NoDup_app in Hnd' as (Hn1 & Hdis & _). cbn in Hdis.
  assert (sh a ∉ sh <$> l1) as Hna by (intros Hin; apply (Hdis _ Hin); left).
  assert (exists s', patch_step old size new (m, head, last (sh <$> l1)) = inl s' /\
    let '(m', head', keyp') := s' in keyp' = Some (sh a) /\
    lseg (m_keys m') head' (sh <$> l1) (sh a) /\ m' = m <| m_keys := m_keys m' |> /\
    same_keys (m_keys m) (m_keys m') /\
    (forall b, b ∉ sh <$> l1 -> m_keys m' !! b = m_keys m !! b)) as (s' & E & Hs').
  { unfold patch_step. rewrite (lseg_read _ _ _ _ Hseg), (proj2 (Z.eqb_neq a 0) Ha).
    destruct ((old <=? a) && (a <? old + size)) eqn:Ein.
    - assert (sh a = new + (a - old)) as Es by (unfold shifted; by rewrite Ein). rewrite <- Es.
      pose proof (keyp_write_seg _ _ _ _ (sh a) Hseg Hn1) as Hw.
      destruct (keyp_write _ _ _ _) as [m' head']. eexists. by split.
    - assert (sh a = a) as Es by (unfold shifted; by rewrite Ein). rewrite Es.
      eexists. split; [done|]. split_and!; try done. by destruct m. }
  exists s'. split; [done|]. destruct s' as [[m' head'] keyp'].
  destruct Hs' as (-> & Hseg' & Em' & Hsame' & Hout').
  assert (m_keys m' !! sh a = Some r) as Hr'.
  { rewrite Hout', Hout by done. by rewrite Hmoved. }
  unfold patching. rewrite fmap_app. cbn [fmap list_fmap].
  split_and!; [by rewrite <- app_assoc|by rewrite last_snoc|..].
  - exists (k_next r). split; [|done]. apply lseg_snoc; [done| |done]. by apply Hne.
  - rewrite Em', Em. done.
  - intros b. by rewrite Hsame', Hsame.
  - intros b Hb. rewrite Hout', Hout; [done|set_solver..].
Qed.

Lemma patch_walk p :
  linked keys0 p l -> Z.of_nat (length l) < Zpos TURNS ->
  exists m' head', run_loop (patch_step old size new) TURNS (m0, p, None) = Ret (m', head') /\
    linked (m_keys m') head' (sh <$> l) /\ m' = m0 <| m_keys := m_keys m' |> /\
    same_keys (m_keys m0) (m_keys m') /\
    (forall a, a ∉ sh <$> l -> m_keys m' !! a = m_keys m0 !! a).
Proof.
  intros Hp Hlen.
  destruct (run_loop_ranked (patch_step old size new)
    (fun n s => exists l1 l2, n = length l2 /\ patching l1 l2 s)
    (fun r => patching l [] (r, last (sh <$> l))) TURNS (length l) (m0, p, None))
    as ([m' head'] & E & _ & _ & (q & Hseg & Hq) & Em & Hs & Ho); [| |done|].
  - intros n s (l1 & l2 & -> & Hs). destruct l2 as [|a l2].
    + destruct (patch_end _ _ Hs) as (m & head & -> & Es). destruct s as [sh' kp]. cbn in Es. subst sh'.
      pose proof Hs as (-> & -> & _). by rewrite app_nil_r in *.
    + destruct (patch_next _ _ _ _ Hs) as (s' & -> & Hs'). exists (length l2). split; [cbn; lia|].
      by eexists _, _.
  - exists [], l. split; [done|]. split_and!; try done; [by exists p|by destruct m0].
  - exists m', head'. split; [done|]. cbn in Hq. subst q. split_and!; try done. by apply lseg_end.
Qed.
End Patch.
