(* ===== verification/PrivateState.v ===== *)
(** * What is true of the private storage at all times

    The objects that are visited when a key is registered are named by slots.
    [wf] says how keys, sets and storage fit together, also between the steps of
    a registration, for which a [ghost] records which keys are where, where the
    ranges start, and what storage holds. *)

From S2P Require Import Prelude Wire Resource Privates PrivateLayout.

(** ** Objects that are visited *)

Inductive slot :=
  | ScreenSlot (gpu : bool) (i : nat)
  | ClientSlot
  | ExtensionSlot (i : nat)
  | ColormapSlot (i : nat)
  | DeviceSlot (off : bool) (i : nat).

#[export] Instance slot_eq : EqDecision slot.
Proof. solve_decision. Defined.

Definition slot_type (sl : slot) : DevPrivateType :=
  match sl with
  | ScreenSlot _ _ => PRIVATE_SCREEN
  | ClientSlot => PRIVATE_CLIENT
  | ExtensionSlot _ => PRIVATE_EXTENSION
  | ColormapSlot _ => PRIVATE_COLORMAP
  | DeviceSlot _ _ => PRIVATE_DEVICE
  end.

(** The storage of an object. *)
Definition slot_get (st : PrivState) (sl : slot) : option Privates :=
  match sl with
  | ScreenSlot gpu i => devPrivates <$> screen_at st gpu i
  | ClientSlot => serverClient st
  | ExtensionSlot i => ps_extensions st !! i
  | ColormapSlot i => ps_screens st !! i ≫= defColormap
  | DeviceSlot off i => (if off then ps_off_devices st else ps_devices st) !! i
  end.

Definition sets_at (st : PrivState) (gpu : bool) (i : nat) : option DevPrivateSets :=
  screenSpecificPrivates <$> screen_at st gpu i.

(** ** The ghost *)

(** Whose list a key is in: that of all objects, or that of a screen. *)
Definition owner := (option (bool * nat) * DevPrivateType)%type.

(** The lists, where the ranges of the global keys and of the screens' keys
    start, and per object: where the storage of the
    global keys starts and what it holds; and the space of the security
    extension's keys. *)
Record ghost := Ghost {
  g_keys : owner -> list Z;
  g_base : DevPrivateType -> Z;
  g_low : bool * nat -> DevPrivateType -> Z;
  g_pos : slot -> Z;
  g_data : slot -> list Z;
  g_total : Z;
}.
#[export] Instance ghost_eta : Settable _ := fun v =>
  Ghost (g_keys v) (g_base v) (g_low v) (g_pos v) (g_data v) (g_total v).

(** Where the known storage of an object ends. *)
Definition g_end (v : ghost) (sl : slot) : Z := g_pos v sl + Z.of_nat (length (g_data v sl)).

(** The address lies in the addresses of the storage's allocation. *)
Definition in_block (p : Privates) (a : Z) : Prop := p_addr p <> 0 /\ p_addr p <= a < p_addr p + BLOCK.

(** The keys that move with a slot's storage: those of the screen. *)
Definition owns (sl : slot) (o : owner) : Prop :=
  match sl with ScreenSlot gpu i => fst o = Some (gpu, i) | _ => False end.

#[export] Instance owns_dec sl o : Decision (owns sl o).
Proof. destruct sl; cbn; apply _. Defined.

Lemma owns_global sl t : ~ owns sl (None, t).
Proof. destruct sl; cbn; intros H; congruence || done. Qed.

(** Keys of all object types of the security extension have offset 0; [total]
    is the space that was made for them. *)
Fixpoint flat (keys : keymap) (l : list Z) (total : Z) : Prop :=
  match l with
  | [] => total = 0
  | a :: l' => exists r, keys !! a = Some r /\ k_initialized r = true /\
      k_type r = PRIVATE_XSELINUX /\ 0 <= k_size r <= 2147483640 /\ k_offset r = 0 /\
      flat keys l' (total - key_bytes (k_size r))
  end.

Lemma flat_le keys l total : flat keys l total -> 8 * Z.of_nat (length l) <= total.
Proof.
  revert total. induction l as [|a l IH]; intros total; cbn [flat length]; [lia|].
  intros (r & _ & _ & _ & Hs & _ & H%IH). pose proof (key_bytes_bounds _ Hs). lia.
Qed.

Lemma flat_ext (keys keys' : keymap) l total :
  (forall a, a ∈ l -> keys' !! a = keys !! a) -> flat keys l total -> flat keys' l total.
Proof.
  revert total. induction l as [|a l IH]; intros total He; [done|]. cbn.
  intros (r & Hr & Hi & Ht & Hs & Hh & H). exists r. rewrite He by left. split_and!; try (done || lia).
  apply IH; [|done]. intros b Hb. apply He. by right.
Qed.

(** The storage of a slot is its own allocation. *)
Definition block_ok (brk : Z) (p : Privates) : Prop :=
  p = no_privates \/ (0 < p_addr p < brk /\ (BLOCK | p_addr p) /\ p_len p <= BLOCK).

Section Wf.
Context (st : PrivState) (v : ghost).
Notation keys := (m_keys (ps_mem st)).
Notation brk := (m_brk (ps_mem st)).
Notation gk := (global_keys st).

Record wf : Prop := Wf {
  wf_global t : t <> PRIVATE_XSELINUX ->
    linked keys (s_key (gk t)) (g_keys v (None, t)) /\
    tiled keys t (s_offset (gk t)) (g_keys v (None, t)) (g_base v t);
  wf_selinux : linked keys (s_key (gk PRIVATE_XSELINUX)) (g_keys v (None, PRIVATE_XSELINUX)) /\
    flat keys (g_keys v (None, PRIVATE_XSELINUX)) (g_total v) /\ s_offset (gk PRIVATE_XSELINUX) = 0;
  wf_screen gpu i ss t : sets_at st gpu i = Some ss ->
    linked keys (s_key (ss t)) (g_keys v (Some (gpu, i), t)) /\
    tiled keys t (s_offset (ss t)) (g_keys v (Some (gpu, i), t)) (g_low v (gpu, i) t);
  wf_specific gpu i t : screen_specific_private t = false -> g_keys v (Some (gpu, i), t) = [];
  wf_disjoint o1 o2 a : a ∈ g_keys v o1 -> a ∈ g_keys v o2 -> o1 = o2;
  wf_brk : 0 < brk /\ (BLOCK | brk);
  wf_low t : 0 <= g_base v t /\ forall gi, 0 <= g_low v gi t;
  wf_small : g_total v < 2147483648 /\ (forall t, s_offset (gk t) < 2147483648) /\
    forall gpu i ss t, sets_at st gpu i = Some ss -> s_offset (ss t) < 2147483648;
  wf_place o a : a ∈ g_keys v o -> 0 < a < brk /\
    forall sl p, slot_get st sl = Some p -> in_block p a ->
      owns sl o /\ a < p_addr p + g_end v sl;
  wf_block sl p : slot_get st sl = Some p -> block_ok brk p;
  wf_slots sl1 sl2 p1 p2 : slot_get st sl1 = Some p1 -> slot_get st sl2 = Some p2 ->
    p_addr p1 = p_addr p2 -> p_addr p1 <> 0 -> sl1 = sl2;
  wf_data sl p : slot_get st sl = Some p ->
    0 <= g_pos v sl /\ g_end v sl <= p_len p /\
    take (length (g_data v sl)) (drop (Z.to_nat (g_pos v sl)) (p_data p)) = g_data v sl;
}.
End Wf.

(** ** One object's storage changes, and the keys in it move *)

Section Reslot.
Context (st st' : PrivState) (v v' : ghost) (sl : slot) (p p' : Privates) (sh : Z -> Z).
Notation keys := (m_keys (ps_mem st)).
Notation keys' := (m_keys (ps_mem st')).
Notation brk := (m_brk (ps_mem st)).
Notation brk' := (m_brk (ps_mem st')).
Context (Hwf : wf st v).
Context (Hget : slot_get st sl = Some p) (Hget' : slot_get st' sl = Some p')
  (Hothers : forall sl', sl' <> sl -> slot_get st' sl' = slot_get st sl')
  (Hgk : global_keys st' = global_keys st).
Context (Hbrk : brk <= brk' /\ (BLOCK | brk'))
  (Haddr : p_addr p' = p_addr p \/ brk <= p_addr p' < brk')
  (Hblock : block_ok brk' p').
Context (Hv_base : g_base v' = g_base v) (Hv_low : g_low v' = g_low v) (Hv_total : g_total v' = g_total v)
  (Hv_keys : forall o, g_keys v' o = if decide (owns sl o) then sh <$> g_keys v o else g_keys v o)
  (Hv_others : forall sl', sl' <> sl ->
     g_pos v' sl' = g_pos v sl' /\ g_data v' sl' = g_data v sl')
  (Hv_data : 0 <= g_pos v' sl /\ g_end v' sl <= p_len p' /\
    take (length (g_data v' sl)) (drop (Z.to_nat (g_pos v' sl)) (p_data p')) = g_data v' sl).
Context (Hstay : forall o a, ~ owns sl o -> a ∈ g_keys v o -> keys' !! a = keys !! a)
  (Hsets : forall gpu i ss', sets_at st' gpu i = Some ss' ->
     exists ss, sets_at st gpu i = Some ss /\
       forall t, s_offset (ss' t) = s_offset (ss t) /\
         (if decide (owns sl (Some (gpu, i), t)) then linked keys' (s_key (ss' t)) (sh <$> g_keys v (Some (gpu, i), t))
          else s_key (ss' t) = s_key (ss t)))
  (Hmoved : forall o a, owns sl o -> a ∈ g_keys v o ->
     erase_next <$> keys' !! sh a = erase_next <$> keys !! a /\
     (sh a = a /\ (in_block p' a -> a < p_addr p' + g_end v' sl) \/
      in_block p a /\ in_block p' (sh a) /\ sh a < p_addr p' + g_end v' sl))
  (Hinj : forall o1 o2 a b, owns sl o1 -> owns sl o2 -> a ∈ g_keys v o1 -> b ∈ g_keys v o2 ->
     sh a = sh b -> a = b).

Lemma reslot_block_range : p_addr p' <> 0 -> 0 < p_addr p' /\ p_addr p' + BLOCK <= brk'.
Proof.
  intros Hne. destruct Hblock as [->|([H1 H2] & [c Hc] & H3)]; [done|].
  destruct Hbrk as [_ [d Hd]]. split; [done|]. unfold BLOCK in *. lia.
Qed.

(** The new addresses were nobody else's. *)
Lemma reslot_apart o a : ~ owns sl o -> a ∈ g_keys v o -> ~ in_block p' a.
Proof.
  intros Ho Ha [Hne Hin]. destruct (wf_place _ _ Hwf o a Ha) as [Hr Hp].
  destruct Haddr as [E|E]; [|lia]. apply Ho. apply (Hp sl p Hget). unfold in_block. rewrite <- E. done.
Qed.

Lemma reslot_blocks sl' q : sl' <> sl -> slot_get st sl' = Some q -> p_addr q <> 0 ->
  p_addr q <> p_addr p' /\ forall a, in_block p' a -> ~ in_block q a.
Proof.
  intros Hne Hq Hq0.
  assert (p_addr q <> p_addr p') as Hd.
  { intros E. destruct Haddr as [E'|E'].
    - apply Hne. eapply (wf_slots _ _ Hwf); [done|exact Hget| |done]. congruence.
    - destruct (wf_block _ _ Hwf _ _ Hq) as [->|([H1 H2] & _)]; [done|lia]. }
  split; [done|]. intros a [H1 H2] [H3 H4].
  destruct (wf_block _ _ Hwf _ _ Hq) as [->|(_ & [c Hc] & _)]; [done|].
  destruct Hblock as [->|(_ & [d Hd'] & _)]; [done|]. unfold BLOCK in *. nia.
Qed.

Lemma reslot_place o a : a ∈ g_keys v' o -> 0 < a < brk' /\
  forall sl2 p2, slot_get st' sl2 = Some p2 -> in_block p2 a -> owns sl2 o /\ a < p_addr p2 + g_end v' sl2.
Proof.
  rewrite Hv_keys. case_decide as Ho.
  - intros (b & -> & Hb)%list_elem_of_fmap. destruct (wf_place _ _ Hwf o b Hb) as [Hr Hp].
    destruct (Hmoved o b Ho Hb) as [_ Hb']. split.
    + destruct Hb' as [[-> _]|(_ & [H1 H2] & _)]; [lia|].
      pose proof (reslot_block_range H1). lia.
    + intros sl2 p2 Hp2 Hin. destruct (decide (sl2 = sl)) as [->|Hne].
      * rewrite Hget' in Hp2. injection Hp2 as <-. split; [done|].
        destruct Hb' as [[E Hlt]|(_ & _ & Hlt)]; [|done]. rewrite E in *. auto.
      * rewrite Hothers in Hp2 by done. destruct (Hv_others _ Hne) as (E1 & E2).
        unfold g_end. rewrite E1, E2. fold (g_end v sl2).
        destruct Hb' as [[E _]|(_ & Hin' & _)]; [rewrite E in *; by apply Hp|].
        exfalso. by apply (proj2 (reslot_blocks _ _ Hne Hp2 (proj1 Hin)) _ Hin').
  - intros Ha. destruct (wf_place _ _ Hwf o a Ha) as [Hr Hp]. split; [lia|].
    intros sl2 p2 Hp2 Hin. destruct (decide (sl2 = sl)) as [->|Hne].
    + rewrite Hget' in Hp2. injection Hp2 as <-. exfalso. by eapply reslot_apart.
    + rewrite Hothers in Hp2 by done. destruct (Hv_others _ Hne) as (E1 & E2).
      unfold g_end. rewrite E1, E2. fold (g_end v sl2). by apply Hp.
Qed.

Lemma reslot_disjoint o1 o2 a : a ∈ g_keys v' o1 -> a ∈ g_keys v' o2 -> o1 = o2.
Proof.
  assert (Hcase : forall o1 o2, owns sl o1 -> ~ owns sl o2 -> a ∈ sh <$> g_keys v o1 -> a ∈ g_keys v o2 -> o1 = o2).
  { intros q1 q2 Hq1 Hq2 (b & -> & Hb)%list_elem_of_fmap Hb2.
    destruct (Hmoved _ _ Hq1 Hb) as [_ [[E _]|(_ & Hin & _)]].
    - rewrite E in Hb2. by eapply (wf_disjoint _ _ Hwf).
    - exfalso. by eapply reslot_apart. }
  rewrite !Hv_keys. case_decide as H1; case_decide as H2.
  - intros (b & -> & Hb)%list_elem_of_fmap (c & Ec & Hc)%list_elem_of_fmap.
    assert (b = c) as <- by by eapply (Hinj o1 o2). by eapply (wf_disjoint _ _ Hwf).
  - by apply Hcase.
  - intros Ha1 Ha2. symmetry. by apply Hcase.
  - by apply (wf_disjoint _ _ Hwf).
Qed.

Lemma reslot_global_list t : g_keys v' (None, t) = g_keys v (None, t).
Proof. rewrite Hv_keys, decide_False by apply owns_global. done. Qed.

Lemma reslot_global_stay t a : a ∈ g_keys v (None, t) -> keys' !! a = keys !! a.
Proof. apply Hstay, owns_global. Qed.

Lemma reslot_wf : wf st' v'.
Proof.
  split.
  - intros t Ht. rewrite Hgk, reslot_global_list, Hv_base. destruct (wf_global _ _ Hwf t Ht) as [Hl Hti].
    split; [|by eapply tiled_ext, Hti; intros; eapply reslot_global_stay].
    eapply linked_next, Hl. intros a Ha. by rewrite (reslot_global_stay t).
  - rewrite Hgk, reslot_global_list, Hv_total. destruct (wf_selinux _ _ Hwf) as (Hl & Hf & E).
    split_and!; [|by eapply flat_ext, Hf; intros; eapply reslot_global_stay|done].
    eapply linked_next, Hl. intros a Ha. by rewrite (reslot_global_stay PRIVATE_XSELINUX).
  - intros gpu i ss' t Hss'. destruct (Hsets _ _ _ Hss') as (ss & Hss & Ht).
    destruct (Ht t) as [Eo Hk]. destruct (wf_screen _ _ Hwf _ _ _ t Hss) as [Hl Hti].
    rewrite Hv_keys, Hv_low, Eo. case_decide as Ho.
    + split; [done|]. eapply tiled_moved, Hti. intros a Ha. by apply (Hmoved _ _ Ho Ha).
    + rewrite Hk. split; [eapply linked_next, Hl|eapply tiled_ext, Hti]; intros a Ha;
        by rewrite (Hstay _ _ Ho Ha).
  - intros gpu i t Ht. rewrite Hv_keys, (wf_specific _ _ Hwf) by done. by case_decide.
  - apply reslot_disjoint.
  - destruct (wf_brk _ _ Hwf). split; [lia|tauto].
  - rewrite Hv_base, Hv_low. apply (wf_low _ _ Hwf).
  - rewrite Hgk, Hv_total. destruct (wf_small _ _ Hwf) as (H1 & H2 & H3). split_and!; [done..|].
    intros gpu i ss' t Hss'. destruct (Hsets _ _ _ Hss') as (ss & Hss & Ht).
    destruct (Ht t) as [-> _]. by eapply H3.
  - apply reslot_place.
  - intros sl2 p2 Hp2. destruct (decide (sl2 = sl)) as [->|Hne].
    + rewrite Hget' in Hp2. by injection Hp2 as <-.
    + rewrite Hothers in Hp2 by done. destruct (wf_block _ _ Hwf _ _ Hp2) as [->|(H1 & H2 & H3)]; [by left|].
      right. split_and!; [lia..|done|done].
  - intros s1 s2 p1 p2 H1 H2 E Hne0. destruct (decide (s1 = sl)) as [->|N1], (decide (s2 = sl)) as [->|N2]; [done|..].
    + rewrite Hget' in H1. injection H1 as <-. rewrite Hothers in H2 by done. exfalso.
      assert (p_addr p2 <> 0) as H0 by congruence. by apply (proj1 (reslot_blocks _ _ N2 H2 H0)).
    + rewrite Hget' in H2. injection H2 as <-. rewrite Hothers in H1 by done. exfalso.
      by apply (proj1 (reslot_blocks _ _ N1 H1 Hne0)).
    + rewrite Hothers in H1, H2 by done. by eapply (wf_slots _ _ Hwf).
  - intros sl2 p2 Hp2. destruct (decide (sl2 = sl)) as [->|Hne].
    + rewrite Hget' in Hp2. injection Hp2 as <-. done.
    + rewrite Hothers in Hp2 by done. destruct (Hv_others _ Hne) as (E1 & E2).
      unfold g_end. rewrite E1, E2. by apply (wf_data _ _ Hwf).
Qed.
End Reslot.
