(* ===== verification/PrivateFixup.v ===== *)
(** * Growing and moving the storage of one object *)

From S2P Require Import Prelude Wire Resource Privates PrivateLayout PrivateState.

(** ** What the two functions do to memory *)

Lemma zeros_length n : 0 <= n -> Z.of_nat (length (zeros n)) = n.
Proof. intros. unfold zeros. rewrite repeat_length. lia. Qed.

Section Fixup.
Context (env : heap_env).

(** [dixReallocPrivates] keeps the bytes that are known, adds zeros, and takes
    the keys in the storage along. *)
Lemma dixReallocPrivates_spec m p off bytes :
  0 <= off <= p_len p -> 0 < bytes -> off + bytes < 2147483648 ->
  0 < m_brk m /\ (BLOCK | m_brk m) -> block_ok (m_brk m) p ->
  exists m' p' ok, dixReallocPrivates env m p off bytes = Ret (m', p', ok) /\
    m_brk m <= m_brk m' /\ (BLOCK | m_brk m') /\
    if ok : bool then
      p_data p' = take (Z.to_nat off) (p_data p) ++ zeros bytes /\
      (p_addr p' = p_addr p /\ p_addr p <> 0 \/ p_addr p' = m_brk m /\ m_brk m < m_brk m') /\
      block_ok (m_brk m') p' /\
      m_keys m' = relocate (p_addr p) (p_len p) ((off + bytes) `min` p_len p) (p_addr p') (m_keys m)
    else p' = p /\ m_keys m' = m_keys m /\ m_brk m' = m_brk m /\ exists n, he_alloc env (m_count m) n = false.
Proof.
  intros Hoff Hb Hn [Hbrk Hd] Hblk. unfold dixReallocPrivates, mem_realloc.
  rewrite u32_small by lia. rewrite (proj2 (Z.leb_gt _ _)) by lia.
  destruct (he_alloc env (m_count m) (off + bytes)) eqn:Ealloc; cbn [negb obind].
  2:{ eexists _, _, false. split; [reflexivity|]. split_and!; try (by eexists); try done; cbn; lia. }
  rewrite (proj2 (Z.ltb_ge off 0)) by lia. rewrite Z.ltb_irrefl. cbn [orb].
  set (data := take (Z.to_nat (off + bytes)) (p_data p) ++ _).
  assert (take (Z.to_nat off) data = take (Z.to_nat off) (p_data p)) as Edata.
  { unfold data, p_len in *. rewrite take_app_le.
    - rewrite take_take. f_equal. lia.
    - rewrite length_take. lia. }
  assert (block_ok (m_brk m) p -> p_addr p <> 0 ->
    0 < p_addr p < m_brk m /\ (BLOCK | p_addr p)) as Hp by (intros [->|(H1 & H2 & _)]; done).
  assert (Z.of_nat (length (take (Z.to_nat off) data ++ zeros bytes)) = off + bytes) as Hlen.
  { rewrite Edata, length_app, length_take. unfold zeros, p_len in *. rewrite repeat_length. lia. }
  unfold p_len in *. destruct (he_inplace env (m_count m) && negb (p_addr p =? 0))%bool eqn:E; cbn.
  - breflect. eexists _, _, true. split; [reflexivity|]. cbn. rewrite Edata in *.
    split_and!; try done; try lia. right. cbn. unfold p_len. cbn. rewrite Hlen.
    destruct (Hp Hblk ltac:(done)). split_and!; try (done || lia). unfold BLOCK. lia.
  - eexists _, _, true. split; [reflexivity|]. cbn. rewrite Edata in *. unfold BLOCK in *.
    split_and!; try done; try lia; [by apply Z.divide_add_r; [|exists 1]|].
    right. cbn. unfold p_len. cbn. rewrite Hlen. unfold BLOCK.
    split_and!; try (done || lia).
Qed.

(** [dixMovePrivates] moves the bytes and the keys up. *)
Lemma dixMovePrivates_spec m p k bytes :
  0 <= k -> 0 <= bytes -> k + bytes <= p_len p ->
  dixMovePrivates m p (k + bytes) bytes =
  Ret (m <| m_keys ::= relocate (p_addr p) (k + bytes) k (p_addr p + bytes) |>,
       p <| p_data := zeros bytes ++ take (Z.to_nat k) (p_data p) ++
                      drop (Z.to_nat (k + bytes)) (p_data p) |>, true).
Proof.
  intros Hk Hb Hle. unfold dixMovePrivates. rewrite (proj2 (Z.leb_le bytes _)) by lia.
  rewrite (proj2 (Z.leb_le (k + bytes) _)) by lia. cbn [andb negb].
  by replace (k + bytes - bytes) with k by lia.
Qed.
End Fixup.

(** ** Keys that move with the storage *)

Lemma slot_null st v sl p : wf st v -> slot_get st sl = Some p -> p_addr p = 0 -> p_len p = 0.
Proof. intros Hwf Hget E. destruct (wf_block _ _ Hwf _ _ Hget) as [->|(H & _)]; [done|lia]. Qed.

Lemma slot_len st v sl p : wf st v -> slot_get st sl = Some p -> p_len p <= BLOCK.
Proof. intros Hwf Hget. destruct (wf_block _ _ Hwf _ _ Hget) as [->|(_ & _ & H)]; [done|done]. Qed.

Section Moving.
Context (st : PrivState) (v : ghost) (sl : slot) (p p' : Privates) (len keep size new : Z) (brk' : Z).
Notation keys := (m_keys (ps_mem st)).
Notation brk := (m_brk (ps_mem st)).
Notation sh := (shifted (p_addr p) size new).
Notation keys' := (relocate (p_addr p) len keep new keys).
Context (Hwf : wf st v) (Hget : slot_get st sl = Some p)
  (Hkeep : 0 <= g_end v sl <= keep) (Hlen : keep <= len <= p_len p)
  (Hsize : g_end v sl <= size <= p_len p)
  (Hnew : p_addr p' <= new) (Hnew' : new + keep <= p_addr p' + BLOCK)
  (Haddr : p_addr p' = p_addr p /\ p_addr p <> 0 \/ p_addr p' = brk).

Lemma moving_brk : 0 < brk.
Proof. apply (wf_brk _ _ Hwf). Qed.

Lemma moving_range a n : p_addr p <= a < p_addr p + n -> n <= p_len p -> in_block p a.
Proof.
  intros Ha Hn. pose proof (slot_len _ _ _ _ Hwf Hget). split; [|lia].
  intros E. pose proof (slot_null _ _ _ _ Hwf Hget E). lia.
Qed.

(** A key outside the storage keeps its place. *)
Lemma moving_out a : 0 < a < brk -> ~ in_block p a ->
  keys' !! a = keys !! a /\ sh a = a /\ ~ in_block p' a.
Proof.
  intros Ha Hout.
  assert (~ in_block p' a) as Hout'.
  { intros [H1 H2]. destruct Haddr as [[E E0]|E]; [|lia]. apply Hout. split; [done|]. by rewrite <- E. }
  assert (~ (p_addr p <= a < p_addr p + size)) as Hs by (intros Hin; apply Hout, (moving_range a size Hin); lia).
  split_and!; [|unfold shifted; case_bool; [breflect; lia|done]|done].
  apply relocate_out.
  - intros Hin. apply Hout, (moving_range a len Hin). lia.
  - intros Hin. apply Hout'. pose proof moving_brk. split; [|lia].
    destruct Haddr as [[E E0]|E]; lia.
Qed.

Lemma moving_stay o a : ~ owns sl o -> a ∈ g_keys v o -> keys' !! a = keys !! a.
Proof.
  intros Ho Ha. destruct (wf_place _ _ Hwf _ _ Ha) as [Hr Hp]. apply moving_out; [done|].
  intros Hin. apply Ho. by apply (Hp sl p Hget).
Qed.

Lemma moving_in a : in_block p a -> a < p_addr p + g_end v sl -> is_Some (keys !! a) ->
  keys' !! sh a = keys !! a /\ sh a = new + (a - p_addr p) /\ in_block p' (sh a).
Proof.
  intros [H1 H2] Hlt [r Hr].
  assert (sh a = new + (a - p_addr p)) as E by (unfold shifted; case_bool; [done|]; lia).
  rewrite E. split_and!; [rewrite Hr; apply relocate_Some; [done|lia]|done|].
  pose proof moving_brk. split; [destruct Haddr as [[-> _]|]; lia|lia].
Qed.

Lemma moving_place o a : owns sl o -> a ∈ g_keys v o ->
  ~ in_block p a \/ in_block p a /\ a < p_addr p + g_end v sl.
Proof.
  intros Ho Ha. destruct (wf_place _ _ Hwf _ _ Ha) as [Hr Hp].
  destruct (decide (p_addr p <> 0 /\ p_addr p <= a < p_addr p + BLOCK)) as [Hin|Hin]; [right|by left].
  split; [done|]. by apply (Hp sl p Hget).
Qed.

Lemma moving_moved o a : owns sl o -> a ∈ g_keys v o -> is_Some (keys !! a) ->
  keys' !! sh a = keys !! a /\
  (sh a = a /\ ~ in_block p' a \/ in_block p a /\ in_block p' (sh a) /\ sh a < new + g_end v sl).
Proof.
  intros Ho Ha Hs. destruct (wf_place _ _ Hwf _ _ Ha) as [Hr _].
  destruct (moving_place _ _ Ho Ha) as [Hout|[Hin Hlt]].
  - destruct (moving_out a Hr Hout) as (E1 & E2 & E3). rewrite E2. split; [done|]. by left.
  - destruct (moving_in a Hin Hlt Hs) as (E1 & E2 & E3). split; [done|]. right. split_and!; try done. lia.
Qed.

Lemma moving_inj o1 o2 a b : owns sl o1 -> owns sl o2 -> a ∈ g_keys v o1 -> b ∈ g_keys v o2 ->
  is_Some (keys !! a) -> is_Some (keys !! b) -> sh a = sh b -> a = b.
Proof.
  intros Ho1 Ho2 Ha Hb Sa Sb E.
  destruct (wf_place _ _ Hwf _ _ Ha) as [Ra _], (wf_place _ _ Hwf _ _ Hb) as [Rb _].
  destruct (moving_place _ _ Ho1 Ha) as [Oa|[Ia La]], (moving_place _ _ Ho2 Hb) as [Ob|[Ib Lb]].
  - destruct (moving_out a Ra Oa) as (_ & E1 & _), (moving_out b Rb Ob) as (_ & E2 & _). congruence.
  - destruct (moving_out a Ra Oa) as (_ & E1 & N), (moving_in b Ib Lb Sb) as (_ & _ & I). congruence.
  - destruct (moving_in a Ia La Sa) as (_ & _ & I), (moving_out b Rb Ob) as (_ & E1 & N). congruence.
  - destruct (moving_in a Ia La Sa) as (_ & E1 & _), (moving_in b Ib Lb Sb) as (_ & E2 & _). lia.
Qed.
End Moving.

(** ** One object *)

(** How far the known storage goes up. *)
Definition moves (f : FixupFunc) (bytes : Z) : Z :=
  match f with Fixup_dixMovePrivates => bytes | Fixup_dixReallocPrivates => 0 end.

(** Why a visit can stop: an allocation fails.  Moving allocates nothing. *)
Definition no_memory (env : heap_env) : Prop := exists k n, he_alloc env k n = false.
Definition may_fail (env : heap_env) (f : FixupFunc) : Prop :=
  f = Fixup_dixReallocPrivates /\ no_memory env.

(** The ghost afterwards. *)
Definition slot_moved (sl : slot) (d : Z) (v : ghost) : ghost :=
  v <| g_pos ::= fun pos sl' => if decide (sl' = sl) then pos sl' + d else pos sl' |>.

Lemma slot_moved_end sl d v : g_end (slot_moved sl d v) sl = g_end v sl + d.
Proof. unfold g_end. cbn. rewrite decide_True by done. lia. Qed.

Lemma drop_zeros_app n (l : list Z) : 0 <= n -> drop (Z.to_nat n) (zeros n ++ l) = l.
Proof. intros. apply drop_app_length'. unfold zeros. by rewrite repeat_length. Qed.

Lemma take_zeros n l : take (Z.to_nat n) (zeros n ++ l) = zeros n.
Proof. apply take_app_length'. unfold zeros. by rewrite repeat_length. Qed.

Lemma zeros_behind k n (d : list Z) : 0 <= k <= Z.of_nat (length d) ->
  take (Z.to_nat n) (drop (Z.to_nat k) (take (Z.to_nat k) d ++ zeros n)) = zeros n.
Proof.
  intros Hk. rewrite drop_app_length' by (rewrite length_take; lia).
  rewrite <- (app_nil_r (zeros n)) at 1. apply take_zeros.
Qed.

(** What is known stays, if all of it is taken along. *)
Lemma kept_data (pos k : Z) (R d : list Z) :
  0 <= pos -> pos + Z.of_nat (length R) <= k -> take (length R) (drop (Z.to_nat pos) d) = R ->
  forall rest, take (length R) (drop (Z.to_nat pos) (take (Z.to_nat k) d ++ rest)) = R.
Proof.
  intros Hpos Hk E rest. rewrite <- E at 2.
  apply list_eq. intros i. destruct (decide (i < length R)%nat) as [Hi|Hi].
  2:{ rewrite !lookup_take_ge by lia. done. }
  rewrite !lookup_take_lt, !lookup_drop by lia.
  assert (is_Some (d !! (Z.to_nat pos + i)%nat)) as [x Hx].
  { rewrite <- lookup_drop. assert (is_Some (R !! i)) as [x Hx] by by apply lookup_lt_is_Some.
    rewrite <- E in Hx. rewrite lookup_take_lt in Hx by done. by exists x. }
  rewrite lookup_app_l; [by rewrite lookup_take_lt by lia|].
  rewrite length_take. apply lookup_lt_Some in Hx. lia.
Qed.

Section OneSlot.
Context (f : FixupFunc) (bytes : Z) (st : PrivState) (v : ghost) (sl : slot) (p : Privates).
Notation v' := (slot_moved sl (moves f bytes) v).

(** The bytes that are zero afterwards: behind what is known, or before it. *)
Definition cleared_data (k : Z) (d : list Z) : Prop :=
  take (Z.to_nat bytes) (drop (Z.to_nat (match f with Fixup_dixReallocPrivates => k | Fixup_dixMovePrivates => 0 end)) d)
  = zeros bytes.

(** The storage afterwards. *)
Record fixed (m' : Memory) (p' : Privates) (len keep new : Z) : Prop := Fixed {
  fx_brk : m_brk (ps_mem st) <= m_brk m' /\ (BLOCK | m_brk m');
  fx_addr : p_addr p' = p_addr p /\ p_addr p <> 0 \/
            p_addr p' = m_brk (ps_mem st) /\ m_brk (ps_mem st) < m_brk m';
  fx_block : block_ok (m_brk m') p';
  fx_keys : m_keys m' = relocate (p_addr p) len keep new (m_keys (ps_mem st));
  fx_keep : 0 <= g_end v sl <= keep /\ keep <= len <= p_len p;
  fx_new : new = p_addr p' + moves f bytes /\ new + keep <= p_addr p' + BLOCK;
  fx_data : 0 <= g_pos v' sl /\ g_end v' sl <= p_len p' /\
    take (length (g_data v' sl)) (drop (Z.to_nat (g_pos v' sl)) (p_data p')) = g_data v' sl;
  fx_clear : cleared_data (g_end v' sl) (p_data p');
}.

End OneSlot.

Lemma fixup_spec env f bytes st v sl p :
  wf st v -> slot_get st sl = Some p -> 0 < bytes -> g_end v sl + bytes < 2147483648 ->
  (f = Fixup_dixMovePrivates -> g_end v sl + bytes <= p_len p) ->
  exists m' p' ok, fixup env f (ps_mem st) p (g_end v sl + moves f bytes) bytes = Ret (m', p', ok) /\
    if ok : bool then exists len keep new, fixed f bytes st v sl p m' p' len keep new
    else may_fail env f /\ p' = p /\ m_keys m' = m_keys (ps_mem st) /\
         m_brk m' = m_brk (ps_mem st).
Proof.
  intros Hwf Hget Hbytes Hend Hroom. destruct (wf_data _ _ Hwf _ _ Hget) as (Hpos & Hle & Hdata).
  assert (0 <= g_end v sl) as H0 by (unfold g_end in *; lia).
  pose proof (slot_len _ _ _ _ Hwf Hget) as Hlen.
  destruct f; cbn [fixup moves].
  - destruct (dixReallocPrivates_spec env (ps_mem st) p (g_end v sl) bytes) as (m' & p' & ok & E & Hb & Hd & Hok);
      [lia..|apply (wf_brk _ _ Hwf)|by apply (wf_block _ _ Hwf sl)|].
    rewrite Z.add_0_r. exists m', p', ok. split; [done|].
    destruct ok; [|by destruct Hok as (H1 & H2 & H3 & n & Hn); repeat split; [by eexists _, n|..]].
    destruct Hok as (Ed & Ha & Hblk & Ek).
    assert (p_len p' = g_end v sl + bytes) as El.
    { unfold p_len in *. rewrite Ed, length_app, length_take. unfold zeros. rewrite repeat_length. lia. }
    eexists _, _, _. split; try done; cbn [moves]; rewrite ?slot_moved_end;
      unfold BLOCK in *; try lia.
    + split_and!; cbn; rewrite ?decide_True by done; [lia..|]. rewrite Z.add_0_r, Ed.
      by apply kept_data.
    + unfold cleared_data. rewrite Ed, Z.add_0_r. apply zeros_behind. unfold p_len in *. lia.
  - specialize (Hroom eq_refl). rewrite dixMovePrivates_spec by lia.
    eexists _, _, true. split; [reflexivity|].
    assert (p_addr p <> 0) as Hp0.
    { intros E. pose proof (slot_null _ _ _ _ Hwf Hget E). lia. }
    eexists _, _, _. split; cbn -[BLOCK]; rewrite ?decide_True by done; rewrite ?slot_moved_end; try (done || lia).
    + destruct (wf_brk _ _ Hwf). split; [lia|done].
    + destruct (wf_block _ _ Hwf _ _ Hget) as [->|(H1 & H2 & H3)]; [done|]. right.
      split; [done|]. split; [done|]. unfold p_len in *. cbn [p_data].
      rewrite !length_app, length_take, length_drop. unfold zeros. rewrite repeat_length. lia.
    + split_and!; [lia| |].
      * unfold p_len, moves in *. cbn [p_data]. rewrite !length_app, length_take, length_drop. unfold zeros.
        rewrite repeat_length. lia.
      * replace (Z.to_nat (g_pos v sl + bytes)) with (Z.to_nat bytes + Z.to_nat (g_pos v sl))%nat by lia.
        rewrite <- drop_drop, drop_zeros_app by lia. by apply kept_data.
    + unfold cleared_data. cbn [drop p_data]. apply take_zeros.
Qed.
