(* ===== verification/PrivateVisit.v ===== *)
(** * Visiting the objects of a type *)

From S2P Require Import Prelude Wire Resource Privates PrivateLayout PrivateState PrivateFixup.

(** ** What a visit keeps *)

(** An address in none of the storage that is visited, and of no screen's key. *)
Definition static (st : PrivState) (v : ghost) (a : Z) : Prop :=
  0 < a < m_brk (ps_mem st) /\ (forall sl p, slot_get st sl = Some p -> ~ in_block p a) /\
  forall gpu i t, a ∉ g_keys v (Some (gpu, i), t).

(** Keys that are not of a screen are in none. *)
Lemma static_global st v t a : wf st v -> a ∈ g_keys v (None, t) -> static st v a.
Proof.
  intros Hwf Ha. destruct (wf_place _ _ Hwf _ _ Ha) as [H1 H2]. split_and!; [lia..| |].
  - intros sl p Hp Hin. by destruct (owns_global sl t), (H2 sl p Hp Hin).
  - intros gpu i t' Ha'. by assert ((None, t) = (Some (gpu, i), t')) by by eapply (wf_disjoint _ _ Hwf).
Qed.

(** The slots of [V] are visited, and what is known of them goes up by [d]. *)
Record kept (d : Z) (V : slot -> Prop) (st : PrivState) (v : ghost) (st' : PrivState) (v' : ghost) : Prop := Kept {
  kp_gk : global_keys st' = global_keys st;
  kp_objects : ps_objects st' = ps_objects st;
  kp_ghost : g_base v' = g_base v /\ g_low v' = g_low v /\ g_data v' = g_data v /\ g_total v' = g_total v;
  kp_global t : g_keys v' (None, t) = g_keys v (None, t);
  kp_static a : static st v a -> static st' v' a /\ m_keys (ps_mem st') !! a = m_keys (ps_mem st) !! a;
  kp_sets gpu i ss' : sets_at st' gpu i = Some ss' -> exists ss, sets_at st gpu i = Some ss /\
    forall t, s_offset (ss' t) = s_offset (ss t) /\ s_created (ss' t) = s_created (ss t);
  kp_dom sl : is_Some (slot_get st' sl) <-> is_Some (slot_get st sl);
  kp_out sl : ~ V sl -> slot_get st' sl = slot_get st sl /\ g_pos v' sl = g_pos v sl;
  kp_in sl : V sl -> g_pos v' sl = g_pos v sl + d;
  kp_brk : m_brk (ps_mem st) <= m_brk (ps_mem st');
}.

Lemma visit_kept_refl d st v : kept d (fun _ => False) st v st v.
Proof. split; try done. intros gpu i ss H. by exists ss. Qed.

Lemma visit_kept_trans d V1 V2 st v st1 v1 st2 v2 :
  kept d V1 st v st1 v1 -> kept d V2 st1 v1 st2 v2 -> (forall sl, V1 sl -> ~ V2 sl) ->
  kept d (fun sl => V1 sl \/ V2 sl) st v st2 v2.
Proof.
  intros [A1 A2 A3 A4 A5 A6 A7 A8 A9 A10] [B1 B2 B3 B4 B5 B6 B7 B8 B9 B10] HV. split.
  - congruence.
  - congruence.
  - destruct A3 as (-> & -> & -> & ->) in B3. done.
  - intros t. by rewrite B4.
  - intros a Ha. destruct (A5 a Ha) as [Ha1 E1]. destruct (B5 a Ha1) as [Ha2 E2]. split; [done|congruence].
  - intros gpu i ss H. destruct (B6 _ _ _ H) as (ss1 & H1 & E1). destruct (A6 _ _ _ H1) as (ss0 & H0 & E0).
    exists ss0. split; [done|]. intros t. destruct (E1 t) as [-> ->]. apply E0.
  - intros sl. by rewrite B7.
  - intros sl Hsl. destruct (A8 sl) as [E1 E2]; [tauto|]. destruct (B8 sl) as [E3 E4]; [tauto|].
    split; congruence.
  - intros sl [H|H].
    + destruct (B8 sl (HV _ H)) as [_ E]. rewrite E. by apply A9.
    + rewrite (B9 sl H). f_equal. apply A8. intros H1. by apply (HV sl).
  - lia.
Qed.

(** Only membership in the visited slots matters. *)
Lemma kept_iff d V V' st v st' v' : (forall sl, V sl <-> V' sl) -> kept d V st v st' v' -> kept d V' st v st' v'.
Proof.
  intros HV [A1 A2 A3 A4 A5 A6 A7 A8 A9 A10]. split; try done.
  - intros sl H. apply A8. by rewrite HV.
  - intros sl H. apply A9. by rewrite HV.
Qed.

(** Slots that nothing is in count as visited or not. *)
Lemma kept_still (V : slot -> Prop) st v st' v' : kept 0 (fun _ => False) st v st' v' ->
  kept 0 V st v st' v'.
Proof.
  intros [A1 A2 A3 A4 A5 A6 A7 A8 A9 A10]. split; try done.
  - intros sl _. apply A8. tauto.
  - intros sl _. destruct (A8 sl) as [_ ->]; [tauto|]. lia.
Qed.

(** Nothing but the count of allocations changes: a failed allocation. *)
Definition same_mem (m m' : Memory) : Prop := m_keys m' = m_keys m /\ m_brk m' = m_brk m.

Lemma wf_same st st' v :
  same_mem (ps_mem st) (ps_mem st') -> global_keys st' = global_keys st ->
  (forall sl, slot_get st' sl = slot_get st sl) ->
  (forall gpu i, sets_at st' gpu i = sets_at st gpu i) -> wf st v -> wf st' v.
Proof.
  intros [Ek Eb] Eg Es Et Hwf. split; rewrite ?Ek, ?Eb, ?Eg.
  - apply (wf_global _ _ Hwf).
  - apply (wf_selinux _ _ Hwf).
  - intros gpu i ss t. rewrite Et. apply (wf_screen _ _ Hwf).
  - apply (wf_specific _ _ Hwf).
  - apply (wf_disjoint _ _ Hwf).
  - apply (wf_brk _ _ Hwf).
  - apply (wf_low _ _ Hwf).
  - destruct (wf_small _ _ Hwf) as (H1 & H2 & H3). split_and!; [done..|].
    intros gpu i ss t. rewrite Et. apply H3.
  - intros o a Ha. destruct (wf_place _ _ Hwf o a Ha) as [H1 H2]. split; [done|].
    intros sl p. rewrite Es. apply H2.
  - intros sl p. rewrite Es. apply (wf_block _ _ Hwf).
  - intros s1 s2 p1 p2. rewrite !Es. apply (wf_slots _ _ Hwf).
  - intros sl p. rewrite Es. apply (wf_data _ _ Hwf).
Qed.

Lemma kept_same st st' v :
  same_mem (ps_mem st) (ps_mem st') -> global_keys st' = global_keys st -> ps_objects st' = ps_objects st ->
  (forall sl, slot_get st' sl = slot_get st sl) ->
  (forall gpu i, sets_at st' gpu i = sets_at st gpu i) -> kept 0 (fun _ => False) st v st' v.
Proof.
  intros [Ek Eb] Eg Eo Es Et. split; try done.
  - intros a (H1 & H2 & H3). rewrite Ek. split; [|done]. split; [by rewrite Eb|]. split; [|done].
    intros sl p. rewrite Es. apply H2.
  - intros gpu i ss H. rewrite Et in H. by exists ss.
  - intros sl. by rewrite Es.
  - by rewrite Eb.
Qed.

(** ** One slot *)

Section OneVisit.
Context (f : FixupFunc) (bytes : Z) (st st' : PrivState) (v v' : ghost) (sl : slot) (p p' : Privates).
Context (m' : Memory) (len keep new : Z).
Context (Hwf : wf st v) (Hget : slot_get st sl = Some p) (Hbytes : 0 < bytes)
  (Hfix : fixed f bytes st v sl p m' p' len keep new).
Context (Hget' : slot_get st' sl = Some p')
  (Hothers : forall sl', sl' <> sl -> slot_get st' sl' = slot_get st sl')
  (Hgk : global_keys st' = global_keys st) (Hobj : ps_objects st' = ps_objects st)
  (Hbrk' : m_brk (ps_mem st') = m_brk m').

Lemma fixed_addr : p_addr p' = p_addr p /\ p_addr p <> 0 \/ p_addr p' = m_brk (ps_mem st).
Proof. destruct (fx_addr _ _ _ _ _ _ _ _ _ _ _ Hfix) as [H|[H _]]; tauto. Qed.

Lemma fixed_new_le : p_addr p' <= new.
Proof. destruct (fx_new _ _ _ _ _ _ _ _ _ _ _ Hfix) as [-> _]. destruct f; cbn; lia. Qed.

Lemma fixed_stay o a : ~ owns sl o -> a ∈ g_keys v o -> m_keys m' !! a = m_keys (ps_mem st) !! a.
Proof.
  intros Ho Ha. rewrite (fx_keys _ _ _ _ _ _ _ _ _ _ _ Hfix).
  destruct (fx_keep _ _ _ _ _ _ _ _ _ _ _ Hfix), (fx_new _ _ _ _ _ _ _ _ _ _ _ Hfix).
  pose proof fixed_new_le. pose proof fixed_addr.
  eapply (moving_stay st v sl p p' len keep (p_len p) new); try (done || lia).
Qed.

Lemma fixed_static a : static st v a ->
  m_keys m' !! a = m_keys (ps_mem st) !! a /\ ~ in_block p' a.
Proof.
  intros (Ha & Hs & _). rewrite (fx_keys _ _ _ _ _ _ _ _ _ _ _ Hfix).
  destruct (fx_keep _ _ _ _ _ _ _ _ _ _ _ Hfix), (fx_new _ _ _ _ _ _ _ _ _ _ _ Hfix).
  pose proof fixed_new_le. pose proof fixed_addr.
  edestruct (moving_out st v sl p p' len keep (p_len p) new) with (a := a) as (E & _ & E'); try (done || lia).
  by apply (Hs sl p Hget).
Qed.

Context (Hghost : g_base v' = g_base v /\ g_low v' = g_low v /\ g_data v' = g_data v /\ g_total v' = g_total v)
  (Hpos : g_pos v' = g_pos (slot_moved sl (moves f bytes) v)).

Lemma fixed_end : g_end v' sl = g_end v sl + moves f bytes.
Proof.
  unfold g_end. destruct Hghost as (_ & _ & -> & _). rewrite Hpos. cbn. rewrite decide_True by done. lia.
Qed.

Context (Hstatic : forall a, static st v a -> m_keys (ps_mem st') !! a = m_keys m' !! a /\
    forall gpu i t, a ∉ g_keys v' (Some (gpu, i), t))
  (Hkeys : forall o, ~ owns sl o -> g_keys v' o = g_keys v o)
  (Hsets : forall gpu i ss', sets_at st' gpu i = Some ss' -> exists ss, sets_at st gpu i = Some ss /\
    forall t, s_offset (ss' t) = s_offset (ss t) /\ s_created (ss' t) = s_created (ss t)).

Lemma fixed_kept : kept (moves f bytes) (eq sl) st v st' v'.
Proof.
  split; try done.
  - intros t. apply Hkeys, owns_global.
  - intros a Ha. destruct (fixed_static a Ha) as [E Hout]. destruct (Hstatic a Ha) as [-> Hscr].
    split; [|done]. destruct Ha as (Ha & Hs & _). split_and!; [lia..| | |done].
    + rewrite Hbrk'. destruct (fx_brk _ _ _ _ _ _ _ _ _ _ _ Hfix). lia.
    + intros sl' q Hq. destruct (decide (sl' = sl)) as [->|Hne].
      * rewrite Hget' in Hq. by injection Hq as <-.
      * rewrite Hothers in Hq by done. by apply (Hs sl').
  - intros sl'. destruct (decide (sl' = sl)) as [->|Hne]; [|by rewrite Hothers].
    rewrite Hget, Hget'. by split.
  - intros sl' Hne. rewrite Hothers by done. rewrite Hpos. cbn. by rewrite decide_False by congruence.
  - intros sl' <-. rewrite Hpos. cbn. by rewrite decide_True.
  - rewrite Hbrk'. apply (fx_brk _ _ _ _ _ _ _ _ _ _ _ Hfix).
Qed.
End OneVisit.

(** A slot whose storage holds no keys. *)
Lemma plain_wf f bytes st st' v sl p p' m' len keep new :
  wf st v -> slot_get st sl = Some p -> 0 < bytes -> fixed f bytes st v sl p m' p' len keep new ->
  slot_get st' sl = Some p' -> (forall sl', sl' <> sl -> slot_get st' sl' = slot_get st sl') ->
  global_keys st' = global_keys st -> ps_mem st' = m' ->
  (forall gpu i, sets_at st' gpu i = sets_at st gpu i) -> (forall o, ~ owns sl o) ->
  wf st' (slot_moved sl (moves f bytes) v).
Proof.
  intros Hwf Hget Hbytes Hfix Hget' Hothers Hgk Hm Hsets Hno.
  apply (reslot_wf st st' v _ sl p p' (fun a => a)); rewrite ?Hm; try done.
  - by eapply fx_brk.
  - destruct (fx_addr _ _ _ _ _ _ _ _ _ _ _ Hfix) as [[H _]|[-> H]]; [by left|right; lia].
  - by eapply fx_block.
  - intros o. by rewrite decide_False.
  - intros sl' Hne. cbn. by rewrite decide_False.
  - by eapply fx_data.
  - intros o a Ho. by eapply fixed_stay.
  - intros gpu i ss. rewrite Hsets. intros H. exists ss. split; [done|]. intros t.
    by rewrite decide_False.
  - intros o a Ho. by apply Hno in Ho.
Qed.

(** The object at a slot other than a screen gets other storage. *)
Definition with_slot (st : PrivState) (sl : slot) (m : Memory) (p : Privates) : PrivState :=
  let st1 := st <| ps_mem := m |> in
  match sl with
  | ScreenSlot _ _ => st1
  | ClientSlot => st1 <| serverClient := Some p |>
  | ExtensionSlot i => st1 <| ps_extensions ::= <[i := p]> |>
  | ColormapSlot i => st1 <| ps_screens ::= alter (fun s => s <| defColormap := Some p |>) i |>
  | DeviceSlot false i => st1 <| ps_devices ::= <[i := p]> |>
  | DeviceSlot true i => st1 <| ps_off_devices ::= <[i := p]> |>
  end.

Definition screen_slot (sl : slot) : Prop := match sl with ScreenSlot _ _ => True | _ => False end.

Section WithSlot.
Context (st : PrivState) (sl : slot) (m : Memory) (p' : Privates).
Notation st' := (with_slot st sl m p').

Lemma with_slot_mem : ps_mem st' = m.
Proof. destruct sl as [| | | |[]]; reflexivity. Qed.
Lemma with_slot_gk : global_keys st' = global_keys st.
Proof. destruct sl as [| | | |[]]; reflexivity. Qed.
Lemma with_slot_objects : ps_objects st' = ps_objects st.
Proof. destruct sl as [| | | |[]]; reflexivity. Qed.

Context (Hns : ~ screen_slot sl).

Lemma screen_at_colormap (i j : nat) gpu q :
  screen_at (with_slot st (ColormapSlot i) m q) gpu j =
  (if decide (gpu = false /\ j = i) then fun s => s <| defColormap := Some q |> else id) <$> screen_at st gpu j.
Proof.
  unfold screen_at. destruct gpu; cbn; [by rewrite option_fmap_id|].
  destruct (decide (j = i)) as [->|Hne].
  - rewrite decide_True by done. by rewrite list_lookup_alter_eq.
  - rewrite decide_False by tauto. rewrite list_lookup_alter_ne by done. by rewrite option_fmap_id.
Qed.

Lemma with_slot_sets gpu i : sets_at st' gpu i = sets_at st gpu i.
Proof.
  unfold sets_at. destruct sl as [g j| |j|j|[] j]; try reflexivity; try done.
  rewrite screen_at_colormap. destruct (screen_at st gpu i); [|done]. cbn. by case_decide.
Qed.

Lemma with_slot_get p : slot_get st sl = Some p -> slot_get st' sl = Some p'.
Proof.
  intros Hget. destruct sl as [g j| |j|j|[] j]; cbn in *; try done; try (by apply list_lookup_insert_eq; eapply lookup_lt_Some).
  rewrite list_lookup_alter_eq. destruct (ps_screens st !! j); [|done]. done.
Qed.

Lemma with_slot_other sl' : sl' <> sl -> slot_get st' sl' = slot_get st sl'.
Proof.
  intros Hne. destruct sl as [g j| |j|j|o j]; [done|..].
  - destruct sl' as [g' j'| |j'|j'|[] j']; done.
  - destruct sl' as [g' j'| |j'|j'|[] j']; try done. cbn. rewrite list_lookup_insert_ne; [done|congruence].
  - destruct sl' as [g' j'| |j'|j'|[] j']; try done.
    + cbn [slot_get]. rewrite screen_at_colormap. destruct (screen_at st g' j'); [|done]. cbn. by case_decide.
    + cbn. rewrite list_lookup_alter_ne; [done|congruence].
  - destruct o; destruct sl' as [g' j'| |j'|j'|[] j']; try done; cbn;
      (rewrite list_lookup_insert_ne; [done|congruence]).
Qed.
End WithSlot.

(** The visit of one object that is not a screen. *)
Lemma slot_visit env f bytes st v sl p :
  wf st v -> slot_get st sl = Some p -> ~ screen_slot sl ->
  0 < bytes -> g_end v sl + bytes < 2147483648 ->
  (f = Fixup_dixMovePrivates -> g_end v sl + bytes <= p_len p) ->
  exists m' p' ok v', fixup env f (ps_mem st) p (g_end v sl + moves f bytes) bytes = Ret (m', p', ok) /\
    wf (with_slot st sl m' p') v' /\ kept (moves f bytes) (eq sl) st v (with_slot st sl m' p') v' /\
    (ok = false -> may_fail env f) /\
    (ok = true -> cleared_data f bytes (g_end v' sl) (p_data p')).
Proof.
  intros Hwf Hget Hns Hb Hend Hroom.
  destruct (fixup_spec env f bytes st v sl p Hwf Hget Hb Hend Hroom) as (m' & p' & ok & E & Hok).
  assert (forall o, ~ owns sl o) as Hno by (intros o; destruct sl; cbn in *; tauto).
  destruct ok.
  - destruct Hok as (len & keep & new & Hfix).
    exists m', p', true, (slot_moved sl (moves f bytes) v). split; [done|].
    split_and!; [..|done|intros _].
    + eapply plain_wf; try done; [by eapply with_slot_get|intros; by apply with_slot_other|apply with_slot_gk|
        apply with_slot_mem|intros; by apply with_slot_sets].
    + eapply fixed_kept; try done; [by eapply with_slot_get|intros; by apply with_slot_other|apply with_slot_gk|
        apply with_slot_objects|by rewrite with_slot_mem|
        intros a Ha; rewrite with_slot_mem; split; [done|apply Ha]|].
      intros gpu i ss. rewrite with_slot_sets by done. intros H. by exists ss.
    + by eapply fx_clear.
  - destruct Hok as ([-> Hfail] & -> & Ek & Eb). exists m', p, false, v. split; [done|].
    assert (forall sl', slot_get (with_slot st sl m' p) sl' = slot_get st sl') as Es.
    { intros sl'. destruct (decide (sl' = sl)) as [->|Hne]; [|by apply with_slot_other].
      rewrite Hget. by eapply with_slot_get. }
    split_and!; try done.
    + eapply wf_same, Hwf; [split; by rewrite with_slot_mem|apply with_slot_gk|done|intros; by apply with_slot_sets].
    + apply kept_still, kept_same; [split; by rewrite with_slot_mem|apply with_slot_gk|apply with_slot_objects|done|].
      intros; by apply with_slot_sets.
Qed.
