(* ===== verification/PrivateScreen.v ===== *)
(** * Visiting a screen

    The lists of keys of a screen may run through the screen's own storage;
    when it moves, [fixupOneScreen] follows them and sets the links right. *)

From S2P Require Import Prelude Wire Resource Privates PrivateLayout PrivateState PrivateFixup PrivateVisit.

(** ** All lists of a screen *)

Section PatchSets.
Context (old size new : Z) (keys0 : keymap) (L : DevPrivateType -> list Z).
Notation sh := (shifted old size new).
Context (Hinj : forall t1 t2 a b, a ∈ L t1 -> b ∈ L t2 -> sh a = sh b -> a = b)
  (Hdis : forall t1 t2 a, a ∈ L t1 -> a ∈ L t2 -> t1 = t2)
  (Hne : forall t a, a ∈ L t -> sh a <> 0)
  (Hlen : forall t, Z.of_nat (length (L t)) < Zpos TURNS).

Lemma sh_apart t1 t2 a : t1 <> t2 -> a ∈ sh <$> L t1 -> a ∉ sh <$> L t2.
Proof.
  intros Ht (b & -> & Hb)%list_elem_of_fmap (c & Ec & Hc)%list_elem_of_fmap.
  apply Ht, (Hdis t1 t2 b); [done|]. by rewrite (Hinj t1 t2 b c).
Qed.

Lemma sh_NoDup t p : linked keys0 p (L t) -> NoDup (sh <$> L t).
Proof.
  intros Hl%linked_NoDup. apply NoDup_fmap_2_strong; [|done]. intros a b Ha Hb. by apply (Hinj t t).
Qed.

(** The sets after the patching of those in [ts]. *)
Definition sets_patched (ts : list DevPrivateType) (m m' : Memory) (ss ss' : DevPrivateSets) : Prop :=
  (forall t, t ∈ ts -> linked (m_keys m') (s_key (ss' t)) (sh <$> L t)) /\
  (forall t, t ∉ ts -> ss' t = ss t) /\
  (forall t, s_offset (ss' t) = s_offset (ss t) /\ s_created (ss' t) = s_created (ss t)) /\
  m' = m <| m_keys := m_keys m' |> /\ same_keys (m_keys m) (m_keys m') /\
  (forall a, (forall t, t ∈ ts -> a ∉ sh <$> L t) -> m_keys m' !! a = m_keys m !! a).

Lemma patch_set_spec m ss t :
  (forall a, a ∈ L t -> m_keys m !! sh a = keys0 !! a) -> linked keys0 (s_key (ss t)) (L t) ->
  exists m' ss', patch_set old size new (m, ss) t = Ret (m', ss') /\ sets_patched [t] m m' ss ss'.
Proof.
  intros Hm Hl.
  destruct (patch_walk old size new keys0 (L t) m Hm) with (p := s_key (ss t))
    as (m' & head & E & Hl' & Em & Hs & Ho); try done; [by eapply sh_NoDup|by apply Hne|].
  exists m', (set_of t (fun set => set <| s_key := head |>) ss).
  split; [unfold patch_set; by rewrite E|]. unfold set_of. split_and!; try done.
  - intros t' ->%list_elem_of_singleton. by rewrite decide_True.
  - intros t' Ht'. rewrite decide_False; [done|]. intros ->. by apply Ht', list_elem_of_singleton.
  - intros t'. by case_decide as H; [subst|].
  - intros a Ha. apply Ho, Ha. by apply list_elem_of_singleton.
Qed.

Lemma patch_sets ts : NoDup ts -> forall m ss,
  (forall t a, t ∈ ts -> a ∈ L t -> m_keys m !! sh a = keys0 !! a) ->
  (forall t, t ∈ ts -> linked keys0 (s_key (ss t)) (L t)) ->
  exists m' ss', for_each (patch_set old size new) (m, ss) ts = Ret (m', ss') /\
    sets_patched ts m m' ss ss'.
Proof.
  induction 1 as [|t ts Ht Hnd IH]; intros m ss Hm Hl.
  - exists m, ss. split; [done|]. split_and!; try done; [by intros t ?%not_elem_of_nil|by destruct m].
  - destruct (patch_set_spec m ss t) as (m1 & ss1 & E1 & A1 & A2 & A3 & A4 & A5 & A6);
      [intros; by apply (Hm t); [left|]|apply Hl; left|].
    assert (forall t', t' ∈ ts -> t' <> t) as Hts by (intros t' H ->; done).
    destruct (IH m1 ss1) as (m2 & ss2 & E2 & B1 & B2 & B3 & B4 & B5 & B6).
    { intros t' a Ht' Ha. rewrite A6; [by apply (Hm t'); [right|]|].
      intros t'' ->%list_elem_of_singleton. apply (sh_apart t' t); [by apply Hts|]. by apply list_elem_of_fmap_2. }
    { intros t' Ht'. rewrite A2 by (rewrite list_elem_of_singleton; by apply Hts). apply Hl. by right. }
    exists m2, ss2. split; [cbn [for_each]; rewrite E1; exact E2|]. split_and!.
    + intros t' [->|H]%elem_of_cons; [|by apply B1]. rewrite B2 by done.
      eapply linked_next, A1, list_elem_of_singleton; [|done]. intros a Ha. rewrite B6; [done|].
      intros t' Ht'. apply (sh_apart t t'); [|done]. by apply not_eq_sym, Hts.
    + intros t' [H1 H2]%not_elem_of_cons. rewrite B2, A2 by (by rewrite ?list_elem_of_singleton). done.
    + intros t'. destruct (A3 t') as [<- <-]. apply B3.
    + rewrite B4, A4. done.
    + intros a. by rewrite B5, A5.
    + intros a Ha. rewrite B6, A6; [done|..].
      * intros t' ->%list_elem_of_singleton. apply Ha. left.
      * intros t' Ht'. apply Ha. by right.
Qed.
End PatchSets.

Lemma private_types_all t : t ∈ private_types.
Proof. destruct t; unfold private_types; set_solver. Qed.
Lemma private_types_NoDup : NoDup private_types.
Proof. apply (bool_decide_unpack _). by vm_compute. Qed.

(** ** One screen *)

Definition with_screen (st : PrivState) (gpu : bool) (i : nat) (m : Memory) (s : ScreenRec) : PrivState :=
  set_screen (st <| ps_mem := m |>) gpu i s.

Section WithScreen.
Context (st : PrivState) (gpu : bool) (i : nat) (m : Memory) (s s' : ScreenRec).
Notation st' := (with_screen st gpu i m s').

Lemma with_screen_mem : ps_mem st' = m.
Proof. destruct gpu; reflexivity. Qed.
Lemma with_screen_gk : global_keys st' = global_keys st.
Proof. destruct gpu; reflexivity. Qed.
Lemma with_screen_objects : ps_objects st' = ps_objects st.
Proof. destruct gpu; reflexivity. Qed.

Context (Hs : screen_at st gpu i = Some s).

Lemma with_screen_at g j :
  screen_at st' g j = if decide (g = gpu /\ j = i) then Some s' else screen_at st g j.
Proof using Hs.
  unfold with_screen, set_screen, screen_at in *. case_decide as H.
  - destruct H as [-> ->]. destruct gpu; cbn in *; apply list_lookup_insert_eq; by eapply lookup_lt_Some.
  - destruct gpu, g; cbn; try done; rewrite list_lookup_insert_ne; try done; intros ->; by apply H.
Qed.

Lemma with_screen_get : slot_get st' (ScreenSlot gpu i) = Some (devPrivates s').
Proof using Hs. cbn [slot_get]. rewrite with_screen_at. by rewrite decide_True. Qed.

Lemma with_screen_other sl' : defColormap s' = defColormap s -> sl' <> ScreenSlot gpu i ->
  slot_get st' sl' = slot_get st sl'.
Proof using Hs.
  intros Ec Hne. destruct sl' as [g j| |j|j|o j].
  - cbn [slot_get]. rewrite with_screen_at. rewrite decide_False; [done|]. intros [-> ->]. done.
  - by destruct gpu.
  - by destruct gpu.
  - pose proof (with_screen_at false j) as E. unfold screen_at in E. cbn [slot_get]. rewrite E.
    case_decide as H; [|done]. destruct H as [<- ->]. unfold screen_at in Hs. by rewrite Hs.
  - by destruct gpu.
Qed.

Lemma with_screen_sets g j ss' : sets_at st' g j = Some ss' ->
  if decide (g = gpu /\ j = i) then ss' = screenSpecificPrivates s' else sets_at st g j = Some ss'.
Proof using Hs.
  unfold sets_at. rewrite with_screen_at. case_decide; [|done]. cbn. congruence.
Qed.
End WithScreen.

(** ** The keys of a screen move with its storage *)

Section ScreenKeys.
Context (f : FixupFunc) (bytes : Z) (st : PrivState) (v : ghost) (gpu : bool) (i : nat) (p p' : Privates).
Context (ss : DevPrivateSets) (m1 : Memory) (len keep new : Z).
Notation sl := (ScreenSlot gpu i).
Notation L := (fun t => g_keys v (Some (gpu, i), t)).
Notation sh := (shifted (p_addr p) (g_end v sl + moves f bytes) new).
Context (Hwf : wf st v) (Hget : slot_get st sl = Some p) (Hsets : sets_at st gpu i = Some ss)
  (Hbytes : 0 < bytes) (Hroom : f = Fixup_dixMovePrivates -> g_end v sl + bytes <= p_len p)
  (Hfix : fixed f bytes st v sl p m1 p' len keep new).

Lemma screen_cell t a : a ∈ L t -> is_Some (m_keys (ps_mem st) !! a).
Proof using Hwf Hsets.
  intros Ha. destruct (wf_screen _ _ Hwf _ _ _ t Hsets) as [Hl _].
  destruct (linked_cell _ _ _ _ Hl Ha) as [r Hr]. by exists r.
Qed.

Lemma screen_size : g_end v sl <= g_end v sl + moves f bytes <= p_len p.
Proof.
  pose proof (wf_data _ _ Hwf _ _ Hget). pose proof Hroom as Hr.
  destruct f; cbn; [lia|]. specialize (Hr eq_refl). lia.
Qed.

Lemma screen_moved t a : a ∈ L t ->
  m_keys m1 !! sh a = m_keys (ps_mem st) !! a /\
  (sh a = a /\ ~ in_block p' a \/
   in_block p a /\ in_block p' (sh a) /\ sh a < p_addr p' + (g_end v sl + moves f bytes)).
Proof.
  intros Ha. rewrite (fx_keys _ _ _ _ _ _ _ _ _ _ _ Hfix).
  destruct (fx_keep _ _ _ _ _ _ _ _ _ _ _ Hfix), (fx_new _ _ _ _ _ _ _ _ _ _ _ Hfix) as [En Hn].
  pose proof (fixed_new_le _ _ _ _ _ _ _ _ _ _ _ Hbytes Hfix).
  pose proof (fixed_addr _ _ _ _ _ _ _ _ _ _ _ Hfix). pose proof screen_size.
  destruct (moving_moved st v sl p p' len keep (g_end v sl + moves f bytes) new)
    with (o := (Some (gpu, i), t)) (a := a) as [E Hc]; try (done || lia); [exact (screen_cell t a Ha)|].
  split; [done|]. destruct Hc as [Hc|(Hi1 & Hi2 & Hi3)]; [by left|right].
  split_and!; try done. lia.
Qed.

Lemma screen_inj t1 t2 a b : a ∈ L t1 -> b ∈ L t2 -> sh a = sh b -> a = b.
Proof.
  intros Ha Hb.
  destruct (fx_keep _ _ _ _ _ _ _ _ _ _ _ Hfix), (fx_new _ _ _ _ _ _ _ _ _ _ _ Hfix) as [En Hn].
  pose proof (fixed_new_le _ _ _ _ _ _ _ _ _ _ _ Hbytes Hfix).
  pose proof (fixed_addr _ _ _ _ _ _ _ _ _ _ _ Hfix). pose proof screen_size.
  apply (moving_inj st v sl p p' len keep (g_end v sl + moves f bytes) new)
    with (o1 := (Some (gpu, i), t1)) (o2 := (Some (gpu, i), t2)); try (done || lia);
    [exact (screen_cell t1 a Ha)|exact (screen_cell t2 b Hb)].
Qed.

Lemma screen_nonzero t a : a ∈ L t -> sh a <> 0.
Proof.
  intros Ha. destruct (wf_place _ _ Hwf _ _ Ha) as [Hr _].
  destruct (screen_moved t a Ha) as [_ [[-> _]|(_ & [H1 H2] & _)]]; [lia|].
  destruct (fx_block _ _ _ _ _ _ _ _ _ _ _ Hfix) as [->|H]; [done|]. lia.
Qed.

Lemma screen_length t : Z.of_nat (length (L t)) < Zpos TURNS.
Proof using Hwf Hsets.
  destruct (wf_screen _ _ Hwf _ _ _ t Hsets) as [_ H%tiled_le].
  destruct (wf_low _ _ Hwf t) as [_ Hlow]. specialize (Hlow (gpu, i)).
  destruct (wf_small _ _ Hwf) as (_ & _ & Hs). specialize (Hs _ _ _ t Hsets).
  change (Zpos TURNS) with 18446744073709551616. lia.
Qed.

(** Nobody else's key is where they come to be. *)
Lemma screen_other o a t : ~ owns sl o -> a ∈ g_keys v o -> a ∉ sh <$> L t.
Proof.
  intros Ho Ha (b & -> & Hb)%list_elem_of_fmap.
  destruct (screen_moved t b Hb) as [_ [[E Hn]|(_ & Hin & _)]].
  - apply Ho. rewrite E in Ha. by rewrite (wf_disjoint _ _ Hwf _ _ _ Ha Hb).
  - destruct (wf_place _ _ Hwf _ _ Ha) as [Hr Hp].
    destruct (fixed_addr _ _ _ _ _ _ _ _ _ _ _ Hfix) as [[E1 E2]|E1].
    + apply Ho. apply (Hp sl p Hget). destruct Hin as [H1 H2]. split; [done|lia].
    + destruct Hin as [_ H2]. lia.
Qed.

Lemma screen_static a t : static st v a -> a ∉ sh <$> L t.
Proof.
  intros Hs (b & -> & Hb)%list_elem_of_fmap.
  destruct (fixed_static _ _ _ _ _ _ _ _ _ _ _ Hwf Hget Hbytes Hfix _ Hs) as [_ Hout].
  destruct (screen_moved t b Hb) as [_ [[E _]|(_ & Hin & _)]]; [|done].
  destruct Hs as (_ & _ & Hs). apply (Hs gpu i t). by rewrite E.
Qed.
End ScreenKeys.

(** ** The visit of a screen *)

Definition screen_ghost (sl : slot) (sh : Z -> Z) (v : ghost) : ghost :=
  v <| g_keys ::= fun keys o => if decide (owns sl o) then sh <$> keys o else keys o |>.

(** The lists after the storage has moved: patched, unless it is where it was. *)
Lemma fixupOneScreen_lists env f bytes st v gpu i s :
  wf st v -> screen_at st gpu i = Some s ->
  i32 (s_offset (global_keys st PRIVATE_SCREEN)) = g_end v (ScreenSlot gpu i) + moves f bytes ->
  0 < bytes -> g_end v (ScreenSlot gpu i) + bytes < 2147483648 ->
  (f = Fixup_dixMovePrivates -> g_end v (ScreenSlot gpu i) + bytes <= p_len (devPrivates s)) ->
  exists m' s' ok, fixupOneScreen env f (global_keys st) bytes (ps_mem st) s = Ret (m', s', ok) /\
    if ok : bool then
      exists m1 p' len keep new ss', fixed f bytes st v (ScreenSlot gpu i) (devPrivates s) m1 p' len keep new /\
        s' = s <| devPrivates := p' |> <| screenSpecificPrivates := ss' |> /\
        sets_patched (p_addr (devPrivates s)) (g_end v (ScreenSlot gpu i) + moves f bytes) new
          (fun t => g_keys v (Some (gpu, i), t)) private_types m1 m' (screenSpecificPrivates s) ss'
    else may_fail env f /\ s' = s /\ same_mem (ps_mem st) m'.
Proof.
  intros Hwf Hs Hsize Hb Hend Hroom.
  assert (slot_get st (ScreenSlot gpu i) = Some (devPrivates s)) as Hget by (cbn; by rewrite Hs).
  assert (sets_at st gpu i = Some (screenSpecificPrivates s)) as Hsets by (unfold sets_at; by rewrite Hs).
  destruct (fixup_spec env f bytes st v _ _ Hwf Hget Hb Hend Hroom) as (m1 & p' & ok & E & Hok).
  unfold fixupOneScreen. rewrite Hsize, E. cbn [obind]. destruct ok; cbn [negb].
  2:{ destruct Hok as (Hf & -> & Ek & Eb). eexists m1, _, false. split; [done|]. split_and!; try done. by destruct s. }
  destruct Hok as (len & keep & new & Hfix).
  replace (match f with Fixup_dixReallocPrivates => p_addr p' | Fixup_dixMovePrivates => p_addr p' + bytes end)
    with new by (destruct (fx_new _ _ _ _ _ _ _ _ _ _ _ Hfix) as [-> _]; destruct f; cbn; lia).
  destruct (Z.eqb_spec new (p_addr (devPrivates s))) as [En|Hne].
  - eexists m1, _, true. split; [done|]. exists m1, p', len, keep, new, (screenSpecificPrivates s).
    split; [done|]. split; [by destruct s|].
    assert (forall t, shifted (p_addr (devPrivates s)) (g_end v (ScreenSlot gpu i) + moves f bytes) new
      <$> g_keys v (Some (gpu, i), t) = g_keys v (Some (gpu, i), t)) as Esh.
    { intros t. rewrite <- (list_fmap_id (g_keys v (Some (gpu, i), t))) at 2. apply list_fmap_ext.
      intros _ a _. unfold shifted. case_bool; [|done]. cbn. lia. }
    split_and!; try done; [|by destruct m1]. intros t _. rewrite Esh.
    destruct (wf_screen _ _ Hwf _ _ _ t Hsets) as [Hl _]. eapply linked_next, Hl. intros a Ha.
    destruct (screen_moved f bytes st v gpu i _ p' _ m1 len keep new Hwf Hget Hsets Hb Hroom Hfix t a Ha) as [Ek _].
    rewrite <- Ek. do 2 f_equal. rewrite <- (Esh t) in Ha. unfold shifted. case_bool; [|done]. lia.
  - destruct (patch_sets (p_addr (devPrivates s)) (g_end v (ScreenSlot gpu i) + moves f bytes) new
      (m_keys (ps_mem st)) (fun t => g_keys v (Some (gpu, i), t))) with (ts := private_types) (m := m1)
      (ss := screenSpecificPrivates s) as (m2 & ss2 & E2 & Hp).
    + intros t1 t2 a b. by eapply screen_inj.
    + intros t1 t2 a H1 H2. pose proof (wf_disjoint _ _ Hwf _ _ _ H1 H2). congruence.
    + intros t a. by eapply screen_nonzero.
    + intros t. by eapply screen_length.
    + apply private_types_NoDup.
    + intros t a _ Ha. by eapply screen_moved.
    + intros t _. by apply (wf_screen _ _ Hwf _ _ _ t Hsets).
    + eexists m2, _, true. split.
      { etransitivity; [exact (f_equal (fun o => obind o _) E2)|reflexivity]. }
      by exists m1, p', len, keep, new, ss2.
Qed.

Section ScreenVisit.
Context (f : FixupFunc) (bytes : Z) (st : PrivState) (v : ghost) (gpu : bool) (i : nat) (s s' : ScreenRec).
Context (m' m1 : Memory) (p' : Privates) (len keep new : Z) (ss' : DevPrivateSets).
Notation sl := (ScreenSlot gpu i).
Notation p := (devPrivates s).
Notation sh := (shifted (p_addr p) (g_end v sl + moves f bytes) new).
Notation v' := (screen_ghost sl sh (slot_moved sl (moves f bytes) v)).
Notation st' := (with_screen st gpu i m' s').
Context (Hwf : wf st v) (Hs : screen_at st gpu i = Some s) (Hb : 0 < bytes)
  (Hroom : f = Fixup_dixMovePrivates -> g_end v sl + bytes <= p_len p)
  (Hfix : fixed f bytes st v sl p m1 p' len keep new)
  (Es : s' = s <| devPrivates := p' |> <| screenSpecificPrivates := ss' |>)
  (Hp : sets_patched (p_addr p) (g_end v sl + moves f bytes) new
     (fun t => g_keys v (Some (gpu, i), t)) private_types m1 m' (screenSpecificPrivates s) ss').

Lemma screen_get : slot_get st sl = Some p.
Proof using Hs. cbn. by rewrite Hs. Qed.
Lemma screen_sets : sets_at st gpu i = Some (screenSpecificPrivates s).
Proof using Hs. unfold sets_at. by rewrite Hs. Qed.

Lemma patched_brk : m_brk m' = m_brk m1.
Proof using Hp. destruct Hp as (_ & _ & _ & -> & _). done. Qed.

Lemma patched_other o a : ~ owns sl o -> a ∈ g_keys v o -> m_keys m' !! a = m_keys (ps_mem st) !! a.
Proof.
  intros Ho Ha. destruct Hp as (_ & _ & _ & _ & _ & Hout). rewrite Hout.
  - by eapply fixed_stay; [exact Hwf|exact screen_get|exact Hb|exact Hfix| |].
  - intros t _. eapply screen_other; try done; [exact screen_get|exact screen_sets].
Qed.

Lemma patched_static a : static st v a ->
  m_keys m' !! a = m_keys m1 !! a /\ forall g j t, a ∉ g_keys v' (Some (g, j), t).
Proof.
  intros Ha. destruct Hp as (_ & _ & _ & _ & _ & Hout). split.
  - apply Hout. intros t _. eapply screen_static; try done; [exact screen_get|exact screen_sets].
  - intros g j t. cbn. case_decide as Ho; [|apply Ha].
    injection Ho as -> ->. eapply screen_static; try done; [exact screen_get|exact screen_sets].
Qed.

Lemma screen_visit_sets g j ss2 : sets_at st' g j = Some ss2 ->
  exists ss, sets_at st g j = Some ss /\ forall t, s_offset (ss2 t) = s_offset (ss t) /\
    s_created (ss2 t) = s_created (ss t) /\
    if decide (owns sl (Some (g, j), t)) then linked (m_keys m') (s_key (ss2 t)) (sh <$> g_keys v (Some (g, j), t))
    else s_key (ss2 t) = s_key (ss t).
Proof using Hs Es Hp.
  intros H%(with_screen_sets _ _ _ _ s); [|exact Hs]. cbn [owns fst]. case_decide as Hd.
  - destruct Hd as [-> ->]. rewrite Es in H. cbn in H. subst ss2.
    exists (screenSpecificPrivates s). split; [exact screen_sets|]. intros t. rewrite decide_True by done.
    destruct Hp as (H1 & _ & H3 & _). destruct (H3 t) as [-> ->]. split_and!; [done..|].
    apply H1, private_types_all.
  - exists ss2. split; [done|]. intros t. rewrite decide_False; [done|]. intros [= -> ->]. by apply Hd.
Qed.

Lemma screen_visit_wf : wf st' v'.
Proof.
  pose proof screen_get as Hget. pose proof screen_sets as Hsets.
  assert (Hmem : ps_mem st' = m') by apply with_screen_mem.
  assert (Hend : g_end v' sl = g_end v sl + moves f bytes).
  { transitivity (g_end (slot_moved sl (moves f bytes) v) sl); [done|]. apply slot_moved_end. }
  apply (reslot_wf st st' v v' sl p p' sh); rewrite ?Hmem, ?patched_brk, ?Hend; try done.
  - rewrite (with_screen_get _ _ _ _ _ _ Hs). by rewrite Es.
  - intros sl' Hne. eapply with_screen_other; [exact Hs|by rewrite Es|done].
  - apply with_screen_gk.
  - by eapply fx_brk.
  - destruct (fx_addr _ _ _ _ _ _ _ _ _ _ _ Hfix) as [[H _]|[-> H]]; [by left|right; lia].
  - by eapply fx_block.
  - intros sl' Hne. cbn. by rewrite decide_False.
  - rewrite <- Hend. by eapply fx_data.
  - apply patched_other.
  - intros g j ss2 H. destruct (screen_visit_sets _ _ _ H) as (ss & H1 & H2). exists ss. split; [done|].
    intros t. destruct (H2 t) as (E1 & E2 & E3). done.
  - intros [o t] a Ho Ha. cbn in Ho. subst o. destruct Hp as (_ & _ & _ & _ & Hsame & _).
    destruct (screen_moved f bytes st v gpu i p p' _ m1 len keep new Hwf Hget Hsets Hb Hroom Hfix t a Ha) as [E Hc].
    rewrite Hsame, E. split; [done|]. destruct Hc as [[H1 H2]|H]; [left|by right]. by split.
  - intros [o1 t1] [o2 t2] a b H1 H2. cbn in H1, H2. subst o1 o2.
    exact (screen_inj f bytes st v gpu i p p' _ m1 len keep new Hwf Hget Hsets Hb Hroom Hfix t1 t2 a b).
Qed.

Lemma screen_visit_kept : kept (moves f bytes) (eq sl) st v st' v'.
Proof.
  eapply (fixed_kept f bytes st st' v v' sl p p' m1 len keep new Hwf screen_get Hb Hfix); try done.
  - rewrite (with_screen_get _ _ _ _ _ _ Hs). by rewrite Es.
  - intros sl' Hne. eapply with_screen_other; [exact Hs|by rewrite Es|done].
  - apply with_screen_gk.
  - apply with_screen_objects.
  - by rewrite with_screen_mem, patched_brk.
  - intros a Ha. rewrite with_screen_mem. by apply patched_static.
  - intros o Ho. cbn. by rewrite decide_False.
  - intros g j ss2 H. destruct (screen_visit_sets _ _ _ H) as (ss & H1 & H2). exists ss. split; [done|].
    intros t. destruct (H2 t) as (E1 & E2 & E3). done.
Qed.
End ScreenVisit.

(** The visit of a screen, as that of other objects in [slot_visit]. *)
Lemma screen_visit env f bytes st v gpu i s :
  wf st v -> screen_at st gpu i = Some s ->
  i32 (s_offset (global_keys st PRIVATE_SCREEN)) = g_end v (ScreenSlot gpu i) + moves f bytes ->
  0 < bytes -> g_end v (ScreenSlot gpu i) + bytes < 2147483648 ->
  (f = Fixup_dixMovePrivates -> g_end v (ScreenSlot gpu i) + bytes <= p_len (devPrivates s)) ->
  exists m' s' ok v', fixupOneScreen env f (global_keys st) bytes (ps_mem st) s = Ret (m', s', ok) /\
    wf (with_screen st gpu i m' s') v' /\
    kept (moves f bytes) (eq (ScreenSlot gpu i)) st v (with_screen st gpu i m' s') v' /\
    (ok = false -> may_fail env f) /\
    (ok = true -> cleared_data f bytes (g_end v' (ScreenSlot gpu i)) (p_data (devPrivates s'))).
Proof.
  intros Hwf Hs Hsize Hb Hend Hroom.
  destruct (fixupOneScreen_lists env f bytes st v gpu i s Hwf Hs Hsize Hb Hend Hroom)
    as (m' & s' & ok & E & Hok).
  exists m', s', ok. destruct ok.
  - destruct Hok as (m1 & p' & len & keep & new & ss' & Hfix & Es & Hp).
    eexists. split; [done|]. split_and!; [by eapply screen_visit_wf|by eapply screen_visit_kept|done|].
    intros _. rewrite Es. apply (fx_clear _ _ _ _ _ _ _ _ _ _ _ Hfix).
  - destruct Hok as ([-> Hfail] & -> & Hm). exists v. split; [done|].
    assert (forall g j, screen_at (with_screen st gpu i m' s) g j = screen_at st g j) as Esc.
    { intros g j. rewrite (with_screen_at _ _ _ _ s) by done. case_decide as H; [|done]. by destruct H as [-> ->]. }
    assert (forall sl', slot_get (with_screen st gpu i m' s) sl' = slot_get st sl') as Eg.
    { intros sl'. destruct (decide (sl' = ScreenSlot gpu i)) as [->|Hne]; [cbn; by rewrite Esc|].
      by eapply with_screen_other. }
    assert (forall g j, sets_at (with_screen st gpu i m' s) g j = sets_at st g j) as Et
      by (intros g j; unfold sets_at; by rewrite Esc).
    split_and!; try done.
    + eapply wf_same, Hwf; [by rewrite with_screen_mem|apply with_screen_gk|done..].
    + apply kept_still, kept_same; [by rewrite with_screen_mem|apply with_screen_gk|apply with_screen_objects|done..].
Qed.
