(* ===== verification/PrivatePhase.v ===== *)
(** * Visiting all objects of a type *)

From S2P Require Import Prelude Wire Resource Privates PrivateLayout PrivateState PrivateFixup.
From S2P Require Import PrivateVisit PrivateScreen.

(** ** Loops over lists of objects *)

Lemma visit_spec {S A} (P : nat -> S -> list A -> Prop) (F : S -> list A -> Prop)
    (f : S -> A -> outcome (S * A * bool)) l s :
  (forall i s l x, P i s l -> l !! i = Some x -> exists s' x' ok, f s x = Ret (s', x', ok) /\
     if ok : bool then P (Datatypes.S i) s' (<[i := x']> l) else F s' (<[i := x']> l)) ->
  P 0%nat s l ->
  exists s' l' ok, visit f s l = Ret (s', l', ok) /\
    if ok : bool then P (length l) s' l' else F s' l'.
Proof.
  intros Hf HP. enough (forall rest done s, P (length done) s (done ++ rest) ->
    exists s' l' ok, visit f s rest = Ret (s', l', ok) /\
      if ok : bool then P (length (done ++ rest)) s' (done ++ l') else F s' (done ++ l')) as H.
  { by apply (H l []). }
  clear s l HP. induction rest as [|x rest IH]; intros done s HP.
  - eexists s, [], true. split; [done|]. by rewrite app_nil_r in *.
  - destruct (Hf _ _ _ x HP) as (s1 & x1 & ok & E & Hok); [by apply list_lookup_middle|].
    rewrite insert_app_r_alt, Nat.sub_diag in Hok by done. cbn [visit]. rewrite E. cbn [obind].
    destruct ok; [|by eexists _, _, false].
    destruct (IH (done ++ [x1]) s1) as (s2 & l2 & ok2 & E2 & Hok2).
    { rewrite length_app, Nat.add_1_r, <- app_assoc. exact Hok. }
    rewrite E2. cbn [obind]. eexists s2, _, ok2. split; [done|].
    destruct ok2; rewrite <- !app_assoc in Hok2; [|done].
    by replace (length (done ++ x :: rest)) with (length (done ++ [x1] ++ rest)) by (rewrite !length_app; done).
Qed.

(** ** What a visit needs of an object, and what it leaves *)

(** The offset that the code passes. *)
Definition code_offset (st : PrivState) (sl : slot) : Z :=
  match sl with
  | ColormapSlot i =>
      match sets_at st false i with Some ss => s_offset (ss PRIVATE_COLORMAP) | None => 0 end
  | _ => s_offset (global_keys st (slot_type sl))
  end.

Definition ready (f : FixupFunc) (bytes : Z) (st : PrivState) (v : ghost) (sl : slot) : Prop :=
  forall p, slot_get st sl = Some p ->
    i32 (code_offset st sl) = g_end v sl + moves f bytes /\
    g_end v sl + bytes < 2147483648 /\
    (f = Fixup_dixMovePrivates -> g_end v sl + bytes <= p_len p).

Definition cleared (f : FixupFunc) (bytes : Z) (st : PrivState) (v : ghost) (sl : slot) : Prop :=
  forall p, slot_get st sl = Some p -> cleared_data f bytes (g_end v sl) (p_data p).

Lemma kept_end d V st v st' v' sl : kept d V st v st' v' -> ~ V sl -> g_end v' sl = g_end v sl.
Proof.
  intros H Hn. unfold g_end. destruct (kp_out _ _ _ _ _ _ H sl Hn) as [_ ->].
  by destruct (kp_ghost _ _ _ _ _ _ H) as (_ & _ & -> & _).
Qed.

Lemma kept_cleared f bytes d V st v st' v' sl : kept d V st v st' v' -> ~ V sl ->
  cleared f bytes st v sl -> cleared f bytes st' v' sl.
Proof.
  intros H Hn Hr p. rewrite (kept_end _ _ _ _ _ _ _ H Hn).
  destruct (kp_out _ _ _ _ _ _ H sl Hn) as [-> _]. apply Hr.
Qed.

Lemma kept_ready f bytes d V st v st' v' sl : kept d V st v st' v' -> ~ V sl ->
  ready f bytes st v sl -> ready f bytes st' v' sl.
Proof.
  intros H Hn Hr p Hp. rewrite (kept_end _ _ _ _ _ _ _ H Hn).
  destruct (kp_out _ _ _ _ _ _ H sl Hn) as [E _]. pose proof Hp as Hp'. rewrite E in Hp'.
  destruct (Hr p Hp') as (H1 & H2 & H3). split_and!; try done. rewrite <- H1. f_equal.
  destruct sl as [| | |i|]; try (cbn; by rewrite (kp_gk _ _ _ _ _ _ H)).
  cbn [code_offset]. destruct (sets_at st' false i) as [ss'|] eqn:Es.
  - destruct (kp_sets _ _ _ _ _ _ H _ _ _ Es) as (ss & -> & Ht). apply Ht.
  - cbn in Hp. unfold sets_at, screen_at in Es. by destruct (ps_screens st' !! i).
Qed.

Lemma kept_widen (V V' : slot -> Prop) st v st' v' :
  kept 0 V st v st' v' -> (forall sl, V sl -> V' sl) -> (forall sl, V sl \/ ~ V sl) -> kept 0 V' st v st' v'.
Proof.
  intros [A1 A2 A3 A4 A5 A6 A7 A8 A9 A10] HV Hdec. split; try done.
  - intros sl H. apply A8. auto.
  - intros sl _. destruct (Hdec sl) as [H|H]; [by apply A9|]. destruct (A8 sl H) as [_ ->]. lia.
Qed.

(** ** The objects of one list *)

Section Family.
Context {A : Type} (env : heap_env) (f : FixupFunc) (bytes : Z) (step : Memory -> A -> outcome (Memory * A * bool)).
Context (put : Memory -> list A -> PrivState) (slots : nat -> slot).

(** The visit of one of them. *)
Definition good_step : Prop := forall m l i x v,
  wf (put m l) v -> l !! i = Some x -> ready f bytes (put m l) v (slots i) ->
  exists m' x' ok v', step m x = Ret (m', x', ok) /\
    wf (put m' (<[i := x']> l)) v' /\
    kept (moves f bytes) (fun sl => sl = slots i /\ is_Some (slot_get (put m l) sl))
      (put m l) v (put m' (<[i := x']> l)) v' /\
    (ok = false -> may_fail env f) /\
    (ok = true -> cleared f bytes (put m' (<[i := x']> l)) v' (slots i)).

Context (Hinj : forall i j, slots i = slots j -> i = j) (Hstep : good_step).

(** Those before position [n]. *)
Definition visited (st : PrivState) (n : nat) (sl : slot) : Prop :=
  (exists j, (j < n)%nat /\ sl = slots j) /\ is_Some (slot_get st sl).

Lemma visited_dec st n sl : visited st n sl \/ ~ visited st n sl.
Proof using Type.
  assert ((exists j, (j < n)%nat /\ sl = slots j) \/ ~ (exists j, (j < n)%nat /\ sl = slots j)) as [H|H].
  { induction n as [|n [(j & H1 & H2)|IH]].
    - right. intros (j & H & _). lia.
    - left. exists j. split; [lia|done].
    - destruct (decide (sl = slots n)) as [->|Hne]; [left; exists n; split; [lia|done]|].
      right. intros (j & H1 & H2). destruct (decide (j = n)) as [->|]; [done|]. apply IH. exists j. split; [lia|done]. }
  - unfold visited. destruct (slot_get st sl) as [p|]; [left|right]; [split; [done|by eexists]|].
    intros [_ [x Hx]]. done.
  - right. intros [H' _]. done.
Qed.

Lemma family_visit m l v :
  wf (put m l) v -> (forall i, ready f bytes (put m l) v (slots i)) ->
  exists m' l' ok v', visit step m l = Ret (m', l', ok) /\ wf (put m' l') v' /\
    kept (moves f bytes) (visited (put m l) (length l)) (put m l) v (put m' l') v' /\
    (ok = false -> may_fail env f) /\
    (ok = true ->
       forall i, (i < length l)%nat -> cleared f bytes (put m' l') v' (slots i)).
Proof.
  intros Hwf Hready. set (st := put m l) in *.
  destruct (visit_spec
    (fun n m' l' => length l' = length l /\ exists v', wf (put m' l') v' /\
       kept (moves f bytes) (visited st n) st v (put m' l') v' /\
       (forall i, (i < n)%nat -> cleared f bytes (put m' l') v' (slots i)))
    (fun m' l' => may_fail env f /\ exists v', wf (put m' l') v' /\
       kept (moves f bytes) (visited st (length l)) st v (put m' l') v')
    step l m) as (m' & l' & ok & E & Hok).
  - intros n m1 l1 x (Hlen & v1 & Hwf1 & Hk1 & Hr1) Hx. apply lookup_lt_Some in Hx as Hlt.
    assert (Hn : ~ visited st n (slots n)).
    { intros [(j & Hj & Ej%Hinj) _]. lia. }
    destruct (Hstep m1 l1 n x v1 Hwf1 Hx) as (m2 & x2 & ok & v2 & E & Hwf2 & Hk2 & Hmove & Hroom).
    { eapply kept_ready; [exact Hk1|done|apply Hready]. }
    exists m2, x2, ok. split; [done|].
    assert (kept (moves f bytes) (visited st (S n)) st v (put m2 (<[n:=x2]> l1)) v2) as Hk.
    { eapply kept_iff; [|eapply visit_kept_trans; [exact Hk1|exact Hk2|]]; cbn beta.
      - intros sl. cbn beta. rewrite (kp_dom _ _ _ _ _ _ Hk1). unfold visited. split.
        + intros [[(j & Hj & ->) Hs]|[-> Hs]]; (split; [eexists; split; [|done]; lia|done]).
        + intros [(j & Hj & ->) Hs]. destruct (decide (j = n)) as [->|]; [by right|left].
          split; [|done]. exists j. split; [lia|done].
      - intros sl H1 [-> _]. done. }
    destruct ok.
    + split; [by rewrite length_insert|]. exists v2. split_and!; [done..|]. intros i Hi.
      destruct (decide (i = n)) as [->|Hne]; [by apply Hroom|].
      eapply kept_cleared; [exact Hk2|intros [->%Hinj _]; done|]. apply Hr1; lia.
    + specialize (Hmove eq_refl). destruct Hmove as [-> Hfail]. split; [by split|]. exists v2. split; [done|].
      eapply kept_widen; [exact Hk| |apply visited_dec].
      intros sl [(j & Hj & ->) Hs]. split; [|done]. exists j. split; [lia|done].
  - split; [done|]. exists v. split_and!; [done| |intros; lia].
    eapply kept_iff, visit_kept_refl. intros sl. split; [done|]. intros [(j & Hj & _) _]. lia.
  - exists m', l', ok. destruct ok.
    + destruct Hok as (_ & v' & H1 & H2 & H3). by exists v'.
    + destruct Hok as (Hf & v' & H1 & H2). by exists v'.
Qed.
End Family.

(** ** The lists of the server *)

Section Lists.
Context (env : heap_env) (f : FixupFunc) (bytes : Z) (Hb : 0 < bytes).

(** A list of objects with nothing but their storage. *)
Lemma list_good_step put slots off :
  (forall i, ~ screen_slot (slots i)) -> (forall m l i, slot_get (put m l) (slots i) = l !! i) ->
  (forall m l, ps_mem (put m l) = m) -> (forall m l i, code_offset (put m l) (slots i) = off) ->
  (forall m l i m' p, with_slot (put m l) (slots i) m' p = put m' (<[i := p]> l)) ->
  good_step env f bytes (fun m p => fixup env f m p (i32 off) bytes) put slots.
Proof using Hb.
  intros Hns Hget Hmem Hoff Hput m l i p v Hwf Hp Hready.
  rewrite <- (Hget m l i) in Hp. destruct (Hready p Hp) as (E & Hend & Hroom). rewrite Hoff in E.
  destruct (slot_visit env f bytes _ v _ p Hwf Hp (Hns i) Hb Hend Hroom)
    as (m' & p' & ok & v' & Ef & Hwf' & Hk & Hmove & Hok).
  rewrite Hput in *. rewrite Hmem in Ef. exists m', p', ok, v'. rewrite E.
  split_and!; try done.
  - eapply kept_iff, Hk. intros sl. split; [|by intros [-> _]]. intros <-. split; [done|]. by eexists.
  - intros H1 q. rewrite Hget. intros Hq. specialize (Hok H1).
    rewrite list_lookup_insert_eq in Hq; [by injection Hq as <-|].
    rewrite Hget in Hp. by eapply lookup_lt_Some.
Qed.

Definition put_extensions (st : PrivState) (m : Memory) (l : list Privates) : PrivState :=
  st <| ps_mem := m |> <| ps_extensions := l |>.
Definition put_devices (off : bool) (st : PrivState) (m : Memory) (l : list Privates) : PrivState :=
  if off then st <| ps_mem := m |> <| ps_off_devices := l |> else st <| ps_mem := m |> <| ps_devices := l |>.
Definition put_screens (gpu : bool) (st : PrivState) (m : Memory) (l : list ScreenRec) : PrivState :=
  if gpu then st <| ps_mem := m |> <| ps_gpuscreens := l |> else st <| ps_mem := m |> <| ps_screens := l |>.

Lemma extensions_step st :
  good_step env f bytes (fun m p => fixup env f m p (i32 (s_offset (global_keys st PRIVATE_EXTENSION))) bytes)
    (put_extensions st) ExtensionSlot.
Proof using Hb. apply list_good_step; try done. by intros i []. Qed.

Lemma devices_step off st :
  good_step env f bytes (fun m p => fixup env f m p (i32 (s_offset (global_keys st PRIVATE_DEVICE))) bytes)
    (put_devices off st) (DeviceSlot off).
Proof using Hb. apply list_good_step; destruct off; try done; by intros i []. Qed.

Lemma screens_step gpu st :
  good_step env f bytes (fixupOneScreen env f (global_keys st) bytes) (put_screens gpu st) (ScreenSlot gpu).
Proof using Hb.
  intros m l i s v Hwf Hs Hready.
  assert (screen_at (put_screens gpu st m l) gpu i = Some s) as Hs' by (by destruct gpu).
  assert (slot_get (put_screens gpu st m l) (ScreenSlot gpu i) = Some (devPrivates s)) as Hget
    by (cbn [slot_get]; by rewrite Hs').
  destruct (Hready _ Hget) as (E & Hend & Hroom).
  destruct (screen_visit env f bytes _ v gpu i s Hwf Hs' E Hb Hend Hroom)
    as (m' & s' & ok & v' & Ef & Hwf' & Hk & Hmove & Hok).
  assert (with_screen (put_screens gpu st m l) gpu i m' s' = put_screens gpu st m' (<[i:=s']> l)) as Ep
    by (by destruct gpu). rewrite Ep in *.
  exists m', s', ok, v'. split; [rewrite <- Ef; destruct gpu; reflexivity|]. split_and!; try done.
  - eapply kept_iff, Hk. intros sl. split; [|by intros [-> _]]. intros <-. split; [done|]. by eexists.
  - intros H1 q Hq. specialize (Hok H1). rewrite <- Ep in Hq.
    rewrite (with_screen_get _ _ _ _ _ _ Hs') in Hq. by injection Hq as <-.
Qed.

Lemma colormaps_step st :
  good_step env f bytes (fixupDefaultColormap env f bytes) (put_screens false st) ColormapSlot.
Proof using Hb.
  intros m l i s v Hwf Hs Hready. unfold fixupDefaultColormap.
  assert (slot_get (put_screens false st m l) (ColormapSlot i) = defColormap s) as Hget by (cbn; by rewrite Hs).
  destruct (defColormap s) as [p|] eqn:Ec.
  - destruct (Hready _ Hget) as (E & Hend & Hroom).
    assert (code_offset (put_screens false st m l) (ColormapSlot i) =
      s_offset (screenSpecificPrivates s PRIVATE_COLORMAP)) as Eo by (cbn; unfold sets_at, screen_at; cbn; by rewrite Hs).
    rewrite Eo in E. rewrite E.
    destruct (slot_visit env f bytes _ v _ p Hwf Hget (fun H => H) Hb Hend Hroom)
      as (m' & p' & ok & v' & Ef & Hwf' & Hk & Hmove & Hok).
    assert (with_slot (put_screens false st m l) (ColormapSlot i) m' p' =
      put_screens false st m' (<[i := s <| defColormap := Some p' |>]> l)) as Ep.
    { cbn. do 2 f_equal. apply list_eq. intros j. destruct (decide (i = j)) as [<-|Hne].
      - rewrite list_lookup_alter_eq, list_lookup_insert_eq by (by eapply lookup_lt_Some). by rewrite Hs.
      - by rewrite list_lookup_alter_ne, list_lookup_insert_ne. }
    rewrite Ep in *. change (ps_mem (put_screens false st m l)) with m in Ef. rewrite Ef.
    eexists m', _, ok, v'. split; [reflexivity|]. split_and!; try done.
    + eapply kept_iff, Hk. intros sl. split; [|by intros [-> _]]. intros <-. split; [done|]. rewrite Hget. by eexists.
    + intros H1 q Hq. specialize (Hok H1). cbn in Hq.
      rewrite list_lookup_insert_eq in Hq by (by eapply lookup_lt_Some). by injection Hq as <-.
  - exists m, s, true, v. rewrite list_insert_id by done. split_and!; try done.
    + eapply kept_iff, visit_kept_refl. intros sl. split; [done|]. intros [-> H]. rewrite Hget in H. by destruct H.
    + intros _ q. by rewrite Hget.
Qed.
End Lists.

(** ** All objects of a type *)

(** The outcome of visiting the objects [V] of a state. *)
Definition visit_result (env : heap_env) (f : FixupFunc) (bytes : Z) (V : slot -> Prop) (st : PrivState) (v : ghost)
    (o : outcome (PrivState * bool)) : Prop :=
  exists st' ok v', o = Ret (st', ok) /\ wf st' v' /\
    kept (moves f bytes) (fun sl => V sl /\ is_Some (slot_get st sl)) st v st' v' /\
    (ok = false -> may_fail env f) /\
    (ok = true -> forall sl, V sl -> cleared f bytes st' v' sl).

Lemma family_all {A} env f bytes step (put : Memory -> list A -> PrivState) slots st v m l :
  (forall i j, slots i = slots j -> i = j) -> good_step env f bytes step put slots ->
  (forall m l i, is_Some (slot_get (put m l) (slots i)) -> (i < length l)%nat) ->
  put m l = st -> wf st v -> (forall i, ready f bytes st v (slots i)) ->
  exists m' l' ok, visit step m l = Ret (m', l', ok) /\
    visit_result env f bytes (fun sl => exists i, sl = slots i) st v (Ret (put m' l', ok)).
Proof.
  intros Hinj Hstep Hdom <- Hwf Hready.
  destruct (family_visit env f bytes step put slots Hinj Hstep m l v Hwf Hready)
    as (m' & l' & ok & v' & E & Hwf' & Hk & Hmove & Hroom).
  exists m', l', ok. split; [exact E|]. exists (put m' l'), ok, v'. split; [done|]. split_and!; try done.
  - eapply kept_iff, Hk. intros sl. unfold visited. split.
    + intros [(j & _ & ->) H]. split; [by eexists|done].
    + intros [(j & ->) H]. split; [|done]. exists j. split; [by eapply Hdom|done].
  - intros H1 sl [i ->] p Hp. apply (Hroom H1 i); [|done]. apply (Hdom m l).
    apply (kp_dom _ _ _ _ _ _ Hk). by eexists.
Qed.

(** Two lists, one after the other. *)
Lemma visit_result_seq env f bytes V1 V2 st v o1 k :
  visit_result env f bytes V1 st v o1 -> (forall sl, V1 sl -> ~ V2 sl) ->
  (forall sl, V2 sl -> ready f bytes st v sl) ->
  (forall st1 v1, global_keys st1 = global_keys st -> wf st1 v1 ->
     (forall sl, V2 sl -> ready f bytes st1 v1 sl) -> visit_result env f bytes V2 st1 v1 (k st1)) ->
  visit_result env f bytes (fun sl => V1 sl \/ V2 sl) st v
    ('(st1, ok) <-- o1; if negb ok then Ret (st1, false) else k st1).
Proof.
  intros (st1 & ok & v1 & -> & Hwf1 & Hk1 & Hm1 & Hr1) Hdis Hready Hk. cbn [obind].
  destruct ok; cbn [negb].
  - destruct (Hk st1 v1) as (st2 & ok2 & v2 & -> & Hwf2 & Hk2 & Hm2 & Hr2).
    + by apply (kp_gk _ _ _ _ _ _ Hk1).
    + done.
    + intros sl Hsl. eapply kept_ready; [exact Hk1| |].
      * intros [H _]. by apply (Hdis sl).
      * by apply Hready.
    + exists st2, ok2, v2. split; [done|]. split_and!; try done.
      * eapply kept_iff; [|eapply visit_kept_trans; [exact Hk1|exact Hk2|]]; cbn beta.
        -- intros sl. cbn beta. rewrite (kp_dom _ _ _ _ _ _ Hk1). tauto.
        -- intros sl [H1 _] [H2 _]. by apply (Hdis sl).
      * intros H1 sl [Hsl|Hsl]; [|by apply Hr2]. eapply kept_cleared; [exact Hk2| |by apply Hr1].
        intros [H _]. by apply (Hdis sl).
  - destruct (Hm1 eq_refl) as [-> Hfail]. exists st1, false, v1. split; [done|]. split_and!; try done.
    destruct Hk1 as [A1 A2 A3 A4 A5 A6 A7 A8 A9 A10]. split; try done.
    + intros sl H. apply A8. tauto.
    + intros sl [[H|H] Hs]; [by apply A9|]. destruct (A8 sl) as [_ ->]; [|cbn; lia].
      intros [H' _]. by apply (Hdis sl).
Qed.

Lemma visit_result_iff env f bytes V V' st v o : (forall sl, V sl <-> V' sl) ->
  visit_result env f bytes V st v o -> visit_result env f bytes V' st v o.
Proof.
  intros HV (st' & ok & v' & E & Hwf & Hk & Hm & Hr). exists st', ok, v'. split_and!; try done.
  - eapply kept_iff, Hk. intros sl. cbn. by rewrite HV.
  - intros H1 sl Hsl. apply Hr; [done..|]. by apply HV.
Qed.

Section Types.
Context (env : heap_env) (f : FixupFunc) (bytes : Z) (Hb : 0 < bytes).

Lemma fixupExtensions_spec st v :
  wf st v -> (forall i, ready f bytes st v (ExtensionSlot i)) ->
  visit_result env f bytes (fun sl => slot_type sl = PRIVATE_EXTENSION) st v (fixupExtensions env f bytes st).
Proof using Hb.
  intros Hwf Hready. unfold fixupExtensions.
  destruct (family_all env f bytes _ _ ExtensionSlot st v (ps_mem st) (ps_extensions st)
    ltac:(by intros ? ? [= ]) (extensions_step env f bytes Hb st))
    as (m' & l' & ok & E & Hres); [|by destruct st|done..|].
  { intros m l i [p Hp]. by eapply lookup_lt_Some. }
  rewrite E. eapply visit_result_iff, Hres. intros sl. destruct sl; split; try done; try (by intros [? [= ]]); by eexists.
Qed.

Lemma fixupDeviceList_spec off st v :
  wf st v -> (forall i, ready f bytes st v (DeviceSlot off i)) ->
  exists m' l' ok,
    fixupDeviceList env f bytes (global_keys st) (ps_mem st) (if off then ps_off_devices st else ps_devices st) = Ret (m', l', ok) /\
    visit_result env f bytes (fun sl => exists i, sl = DeviceSlot off i) st v (Ret (put_devices off st m' l', ok)).
Proof using Hb.
  intros Hwf Hready.
  apply (family_all env f bytes _ _ (DeviceSlot off) st v (ps_mem st) _
    ltac:(by intros ? ? [= ]) (devices_step env f bytes Hb off st)); [|by destruct off, st|done..].
  intros m l i [p Hp]. destruct off; by eapply lookup_lt_Some.
Qed.

Lemma fixupDevices_spec st v :
  wf st v -> (forall off i, ready f bytes st v (DeviceSlot off i)) ->
  visit_result env f bytes (fun sl => slot_type sl = PRIVATE_DEVICE) st v (fixupDevices env f bytes st).
Proof using Hb.
  intros Hwf Hready. destruct (fixupDeviceList_spec false st v Hwf (Hready false)) as (m1 & l1 & ok1 & E1 & Hres1).
  eapply (visit_result_iff _ _ _ (fun sl => (exists i, sl = DeviceSlot false i) \/ (exists i, sl = DeviceSlot true i))).
  { intros sl. destruct sl as [| | | |[] i]; split; try done; try (by intros [[? [= ]]|[? [= ]]]); eauto. }
  assert (fixupDevices env f bytes st =
    '(st1, ok) <-- Ret (put_devices false st m1 l1, ok1);
    if negb ok then Ret (st1, false) else
    '(m2, l2, ok2) <-- fixupDeviceList env f bytes (global_keys st1) (ps_mem st1) (ps_off_devices st1);
    Ret (put_devices true st1 m2 l2, ok2)) as ->.
  { unfold fixupDevices. rewrite E1. reflexivity. }
  eapply visit_result_seq; [exact Hres1| | |].
  - by intros sl [i ->] [j [= ]].
  - intros sl [i ->]. apply Hready.
  - intros st1 v1 _ Hwf1 Hr1.
    destruct (fixupDeviceList_spec true st1 v1 Hwf1) as (m2 & l2 & ok2 & -> & Hres2); [|exact Hres2].
    intros i. apply Hr1. by eexists.
Qed.

Lemma screen_list_spec gpu st v :
  wf st v -> (forall i, ready f bytes st v (ScreenSlot gpu i)) ->
  exists m' l' ok,
    visit (fixupOneScreen env f (global_keys st) bytes) (ps_mem st) (if gpu then ps_gpuscreens st else ps_screens st) = Ret (m', l', ok) /\
    visit_result env f bytes (fun sl => exists i, sl = ScreenSlot gpu i) st v (Ret (put_screens gpu st m' l', ok)).
Proof using Hb.
  intros Hwf Hready.
  apply (family_all env f bytes _ _ (ScreenSlot gpu) st v (ps_mem st) _
    ltac:(by intros ? ? [= ]) (screens_step env f bytes Hb gpu st)); [|by destruct gpu, st|done..].
  intros m l i [p Hp]. cbn [slot_get] in Hp. destruct (screen_at (put_screens gpu st m l) gpu i) eqn:E; [|done].
  destruct gpu; by eapply lookup_lt_Some.
Qed.

Lemma fixupScreens_spec st v :
  wf st v -> (forall gpu i, ready f bytes st v (ScreenSlot gpu i)) ->
  visit_result env f bytes (fun sl => slot_type sl = PRIVATE_SCREEN) st v (fixupScreens env f bytes st).
Proof using Hb.
  intros Hwf Hready. destruct (screen_list_spec false st v Hwf (Hready false)) as (m1 & l1 & ok1 & E1 & Hres1).
  eapply (visit_result_iff _ _ _ (fun sl => (exists i, sl = ScreenSlot false i) \/ (exists i, sl = ScreenSlot true i))).
  { intros sl. destruct sl as [[] i| | | |]; split; try done; try (by intros [[? [= ]]|[? [= ]]]); eauto. }
  assert (fixupScreens env f bytes st =
    '(st1, ok) <-- Ret (put_screens false st m1 l1, ok1);
    if negb ok then Ret (st1, false) else
    '(m2, l2, ok2) <-- visit (fixupOneScreen env f (global_keys st1) bytes) (ps_mem st1) (ps_gpuscreens st1);
    Ret (put_screens true st1 m2 l2, ok2)) as ->.
  { unfold fixupScreens. rewrite E1. reflexivity. }
  eapply visit_result_seq; [exact Hres1| | |].
  - by intros sl [i ->] [j [= ]].
  - intros sl [i ->]. apply Hready.
  - intros st1 v1 _ Hwf1 Hr1.
    destruct (screen_list_spec true st1 v1 Hwf1) as (m2 & l2 & ok2 & -> & Hres2); [|exact Hres2].
    intros i. apply Hr1. by eexists.
Qed.

Lemma fixupDefaultColormaps_spec st v :
  wf st v -> (forall i, ready f bytes st v (ColormapSlot i)) ->
  visit_result env f bytes (fun sl => slot_type sl = PRIVATE_COLORMAP) st v (fixupDefaultColormaps env f bytes st).
Proof using Hb.
  intros Hwf Hready. unfold fixupDefaultColormaps.
  destruct (family_all env f bytes _ _ ColormapSlot st v (ps_mem st) (ps_screens st)
    ltac:(by intros ? ? [= ]) (colormaps_step env f bytes Hb st))
    as (m' & l' & ok & E & Hres); [|by destruct st|done..|].
  { intros m l i [p Hp]. cbn in Hp. destruct (l !! i) eqn:E; [by eapply lookup_lt_Some|done]. }
  rewrite E. eapply visit_result_iff, Hres. intros sl. destruct sl; split; try done; try (by intros [? [= ]]); by eexists.
Qed.

Lemma fixupServerClient_spec st v :
  wf st v -> ready f bytes st v ClientSlot ->
  visit_result env f bytes (fun sl => slot_type sl = PRIVATE_CLIENT) st v (fixupServerClient env f bytes st).
Proof using Hb.
  intros Hwf Hready. unfold fixupServerClient. destruct (serverClient st) as [p|] eqn:Ec.
  - assert (slot_get st ClientSlot = Some p) as Hget by done.
    destruct (Hready p Hget) as (E & Hend & Hroom). cbn in E. rewrite E.
    destruct (slot_visit env f bytes st v ClientSlot p Hwf Hget (fun H => H) Hb Hend Hroom)
      as (m' & p' & ok & v' & -> & Hwf' & Hk & Hm & Hr).
    eexists _, ok, v'. split; [reflexivity|]. split_and!; try done.
    + eapply kept_iff, Hk. intros sl. split; [intros <-; split; [done|by eexists]|].
      intros [Ht _]. by destruct sl.
    + intros H1 sl Ht q Hq. destruct sl; try done. cbn in Hq. injection Hq as <-. by apply Hr.
  - exists st, true, v. split; [done|]. split_and!; try done.
    + eapply kept_iff, visit_kept_refl. intros sl. split; [done|]. intros [Ht [p Hp]]. destruct sl; try done. cbn in Hp. congruence.
    + intros _ sl Ht q Hq. destruct sl; try done. cbn in Hq. congruence.
Qed.

Lemma fixup_early_spec t st v :
  allocated_early t = true -> wf st v -> (forall sl, slot_type sl = t -> ready f bytes st v sl) ->
  visit_result env f bytes (fun sl => slot_type sl = t) st v (fixup_early env t f bytes st).
Proof using Hb.
  intros Ht Hwf Hready. destruct t; try done; cbn [fixup_early].
  - apply fixupScreens_spec; [done|]. intros gpu i. by apply Hready.
  - apply fixupExtensions_spec; [done|]. intros i. by apply Hready.
  - apply fixupDefaultColormaps_spec; [done|]. intros i. by apply Hready.
  - apply fixupDevices_spec; [done|]. intros off i. by apply Hready.
  - apply fixupServerClient_spec; [done|]. by apply Hready.
Qed.
End Types.
