(* ===== verification/PrivateGrow.v ===== *)
(** * Moving the ranges of the keys of a type *)

From S2P Require Import Prelude Wire Resource Privates PrivateLayout PrivateState PrivateFixup.
From S2P Require Import PrivateVisit PrivateScreen PrivatePhase.

(** ** One list *)

(** The list of owner [o0] is grown, which other lists do not see. *)
Section Grown.
Context (st : PrivState) (v : ghost) (o0 : owner) (bytes : Z) (keys' : keymap).
Notation keys := (m_keys (ps_mem st)).
Context (Hwf : wf st v) (Hu : updated (grown bytes) (g_keys v o0) keys keys').

Lemma grown_linked p l : linked keys p l -> linked keys' p l.
Proof using Hu. by apply updated_linked with (f := grown bytes) (l0 := g_keys v o0). Qed.

Lemma grown_other o a : o <> o0 -> a ∈ g_keys v o -> keys' !! a = keys !! a.
Proof using Hwf Hu.
  intros Hne Ha. eapply updated_other; [exact Hu|]. intros Ha'. apply Hne. by eapply (wf_disjoint _ _ Hwf).
Qed.

Lemma grown_tiled o t hi lo : o <> o0 -> tiled keys t hi (g_keys v o) lo -> tiled keys' t hi (g_keys v o) lo.
Proof using Hwf Hu. intros Hne. apply tiled_ext. intros a Ha. by apply (grown_other o). Qed.

Lemma grown_tiled_same t hi lo : 0 <= lo -> 0 <= bytes -> hi + bytes < 2147483648 ->
  tiled keys t hi (g_keys v o0) lo -> tiled keys' t (hi + bytes) (g_keys v o0) (lo + bytes).
Proof using Hu. intros. by apply tiled_grown with (keys := keys) (l0 := g_keys v o0). Qed.

Lemma grown_flat : o0 <> (None, PRIVATE_XSELINUX) ->
  flat keys (g_keys v (None, PRIVATE_XSELINUX)) (g_total v) ->
  flat keys' (g_keys v (None, PRIVATE_XSELINUX)) (g_total v).
Proof using Hwf Hu. intros Hne. apply flat_ext. intros a Ha. by apply (grown_other (None, PRIVATE_XSELINUX)). Qed.
End Grown.

(** ** The global keys of a type *)

(** The ghost after the global keys of [t] were moved up. *)
Definition base_up (t : DevPrivateType) (bytes : Z) (v : ghost) : ghost :=
  v <| g_base ::= fun base t' => if decide (t' = t) then base t' + bytes else base t' |>.

Lemma grow_global_spec st v t bytes :
  wf st v -> t <> PRIVATE_XSELINUX -> 0 <= bytes -> s_offset (global_keys st t) + bytes < 2147483648 ->
  exists keys' set,
    grow_private_set bytes (ps_mem st) (global_keys st t) = Ret (ps_mem st <| m_keys := keys' |>, set) /\
    set = global_keys st t <| s_offset := s_offset (global_keys st t) + bytes |> /\
    updated (grown bytes) (g_keys v (None, t)) (m_keys (ps_mem st)) keys' /\
    wf (st <| ps_mem := ps_mem st <| m_keys := keys' |> |> <| global_keys ::= set_of t (fun _ => set) |>)
      (base_up t bytes v).
Proof.
  intros Hwf Ht Hb Hn. destruct (wf_global _ _ Hwf t Ht) as [Hl Hti]. destruct (wf_low _ _ Hwf t) as [Hbase _].
  destruct (grow_private_set_spec bytes _ _ _ _ _ Hl Hti Hbase Hb Hn) as (keys' & E & Hu).
  eexists keys', _. split; [exact E|]. split; [done|]. split; [done|].
  split; cbn -[flat linked tiled]; unfold set_of.
  - intros t' Ht'. case_decide as Hd.
    + subst t'. cbn. split; [by eapply grown_linked, Hl|]. by eapply grown_tiled_same.
    + destruct (wf_global _ _ Hwf t' Ht') as [Hl' Hti']. split; [by eapply grown_linked, Hl'|].
      eapply grown_tiled, Hti'; [done..|congruence].
  - rewrite decide_False by congruence. destruct (wf_selinux _ _ Hwf) as (H1 & H2 & H3).
    split_and!; [by eapply grown_linked, H1| |done]. eapply grown_flat; [done..| |done]. congruence.
  - intros gpu i ss t' Hss. destruct (wf_screen _ _ Hwf gpu i ss t' Hss) as [H1 H2].
    split; [by eapply grown_linked, H1|]. by eapply grown_tiled, H2.
  - apply (wf_specific _ _ Hwf).
  - apply (wf_disjoint _ _ Hwf).
  - apply (wf_brk _ _ Hwf).
  - intros t'. destruct (wf_low _ _ Hwf t'). case_decide; split; try done; lia.
  - destruct (wf_small _ _ Hwf) as (H1 & H2 & H3). split_and!; [done| |done].
    intros t'. case_decide as Hd; [by subst t'|apply H2].
  - apply (wf_place _ _ Hwf).
  - apply (wf_block _ _ Hwf).
  - apply (wf_slots _ _ Hwf).
  - apply (wf_data _ _ Hwf).
Qed.

(** ** The keys of a type on one screen *)

Definition low_up (gi : bool * nat) (t : DevPrivateType) (bytes : Z) (v : ghost) : ghost :=
  v <| g_low ::= fun low gi' t' => if decide (gi' = gi /\ t' = t) then low gi' t' + bytes else low gi' t' |>.

(** What growing the sets of [t] of the screens [V] changes. *)
Record raised (bytes : Z) (t : DevPrivateType) (V : bool * nat -> Prop)
    (st : PrivState) (v : ghost) (st' : PrivState) (v' : ghost) : Prop := Raised {
  ra_gk : global_keys st' = global_keys st;
  ra_objects : ps_objects st' = ps_objects st;
  ra_slots sl : slot_get st' sl = slot_get st sl;
  ra_brk : m_brk (ps_mem st') = m_brk (ps_mem st);
  ra_ghost : v' = v <| g_low := g_low v' |>;
  ra_keys a : (forall gpu i, a ∉ g_keys v (Some (gpu, i), t)) ->
    m_keys (ps_mem st') !! a = m_keys (ps_mem st) !! a;
  ra_sets gpu i ss' : sets_at st' gpu i = Some ss' -> exists ss, sets_at st gpu i = Some ss /\
    (forall t', s_created (ss' t') = s_created (ss t') /\ (t' <> t -> ss' t' = ss t')) /\ (~ V (gpu, i) -> ss' = ss);
  ra_out gi t' : ~ (V gi /\ t' = t) -> g_low v' gi t' = g_low v gi t';
  ra_in gi : V gi -> g_low v' gi t = g_low v gi t + bytes;
}.

Lemma raised_refl bytes t st v : raised bytes t (fun _ => False) st v st v.
Proof. split; try done; [by destruct v|]. intros gpu i ss H. by exists ss. Qed.

Lemma raised_trans bytes t V1 V2 st v st1 v1 st2 v2 :
  raised bytes t V1 st v st1 v1 -> raised bytes t V2 st1 v1 st2 v2 -> (forall gi, V1 gi -> ~ V2 gi) ->
  raised bytes t (fun gi => V1 gi \/ V2 gi) st v st2 v2.
Proof.
  intros [A1 A2 A3 A4 A5 A6 A7 A8 A9] [B1 B2 B3 B4 B5 B6 B7 B8 B9] HV. split.
  - congruence.
  - congruence.
  - intros sl. by rewrite B3.
  - congruence.
  - rewrite B5, A5. done.
  - intros a Ha. rewrite B6, A6; [done|done|]. intros gpu i. rewrite A5. apply Ha.
  - intros gpu i ss H. destruct (B7 _ _ _ H) as (ss1 & H1 & E1 & F1). destruct (A7 _ _ _ H1) as (ss0 & H0 & E0 & F0).
    exists ss0. split; [done|]. split; [intros t'; destruct (E1 t') as [-> F], (E0 t') as [-> G]; split; [done|]; intros Ht; by rewrite F, G|]. intros Hn. rewrite F1, F0 by tauto. done.
  - intros gi t' H. rewrite B8, A8; [done|tauto..].
  - intros gi [H|H].
    + rewrite B8 by (intros [H' _]; by apply (HV gi)). by apply A9.
    + rewrite B9, A8; [done| |done]. intros [H' _]. by apply (HV gi).
Qed.

Lemma raised_iff bytes t V V' st v st' v' :
  (forall gi, V gi <-> V' gi) -> raised bytes t V st v st' v' -> raised bytes t V' st v st' v'.
Proof.
  intros HV [A1 A2 A3 A4 A5 A6 A7 A8 A9]. split; try done.
  - intros gpu i ss H. destruct (A7 _ _ _ H) as (ss0 & H0 & E0 & F0). exists ss0. split_and!; [done..|].
    intros Hn. apply F0. by rewrite HV.
  - intros gi t' H. apply A8. by rewrite HV.
  - intros gi H. apply A9. by rewrite HV.
Qed.

Lemma grow_one_screen st v gpu i s t bytes :
  wf st v -> screen_at st gpu i = Some s -> 0 <= bytes ->
  s_offset (screenSpecificPrivates s t) + bytes < 2147483648 ->
  exists m' s', grow_screen t bytes (ps_mem st) s = Ret (m', s', true) /\
    wf (with_screen st gpu i m' s') (low_up (gpu, i) t bytes v) /\
    raised bytes t (eq (gpu, i)) st v (with_screen st gpu i m' s') (low_up (gpu, i) t bytes v).
Proof.
  intros Hwf Hs Hb Hn. assert (sets_at st gpu i = Some (screenSpecificPrivates s)) as Hss by (unfold sets_at; by rewrite Hs).
  destruct (wf_screen _ _ Hwf gpu i _ t Hss) as [Hl Hti]. destruct (wf_low _ _ Hwf t) as [_ Hlow].
  destruct (grow_private_set_spec bytes _ _ _ _ _ Hl Hti (Hlow (gpu, i)) Hb Hn) as (keys' & E & Hu).
  unfold grow_screen. rewrite E. cbn [obind].
  set (set' := screenSpecificPrivates s t <| s_offset := _ |>).
  set (s' := s <| screenSpecificPrivates ::= set_of t (fun _ => set') |>).
  eexists _, s'. split; [reflexivity|].
  set (st' := with_screen st gpu i _ s').
  assert (Hmem : ps_mem st' = ps_mem st <| m_keys := keys' |>) by apply with_screen_mem.
  assert (Hget : forall sl, slot_get st' sl = slot_get st sl).
  { intros sl. destruct (decide (sl = ScreenSlot gpu i)) as [->|Hne].
    - unfold st'. rewrite (with_screen_get _ _ _ _ s) by done. cbn. by rewrite Hs.
    - by eapply with_screen_other. }
  assert (Hsets : forall g j ss', sets_at st' g j = Some ss' -> exists ss, sets_at st g j = Some ss /\
    forall t', ss' t' = if decide ((g, j) = (gpu, i) /\ t' = t) then set' else ss t').
  { intros g j ss' H%(with_screen_sets _ _ _ _ s); [|done]. case_decide as Hd.
    - destruct Hd as [-> ->]. eexists. split; [exact Hss|]. intros t'. rewrite H. cbn. unfold set_of.
      case_decide; case_decide; try done; tauto.
    - exists ss'. split; [done|]. intros t'. rewrite decide_False; [done|]. intros [[= -> ->] _]. by apply Hd. }
  assert (Hgk : global_keys st' = global_keys st) by apply with_screen_gk.
  split.
  - split; rewrite ?Hmem, ?Hgk; cbn -[flat linked tiled].
    + intros t' Ht'. destruct (wf_global _ _ Hwf t' Ht') as [H1 H2].
      split; [by eapply grown_linked, H1|]. by eapply grown_tiled, H2.
    + destruct (wf_selinux _ _ Hwf) as (H1 & H2 & H3). split_and!; [by eapply grown_linked, H1| |done].
      by eapply grown_flat.
    + intros g j ss' t' H. destruct (Hsets _ _ _ H) as (ss & H0 & Et). rewrite Et.
      destruct (wf_screen _ _ Hwf g j ss t' H0) as [H1 H2].
      destruct (decide ((g, j) = (gpu, i) /\ t' = t)) as [[Eg ->]|Hd].
      * injection Eg as -> ->. rewrite Hss in H0. injection H0 as <-. cbn.
        split; [by eapply grown_linked, H1|]. eapply grown_tiled_same; try done.
      * split; [by eapply grown_linked, H1|]. eapply grown_tiled, H2; [done..|]. intros [= -> -> ->]. by apply Hd.
    + apply (wf_specific _ _ Hwf).
    + apply (wf_disjoint _ _ Hwf).
    + apply (wf_brk _ _ Hwf).
    + intros t'. destruct (wf_low _ _ Hwf t') as [H1 H2]. split; [done|]. intros gi.
      specialize (H2 gi). destruct (decide (gi = (gpu, i) /\ t' = t)); lia.
    + destruct (wf_small _ _ Hwf) as (H1 & H2 & H3). split_and!; [done..|]. intros g j ss' t' H.
      destruct (Hsets _ _ _ H) as (ss & H0 & Et). rewrite Et.
      destruct (decide ((g, j) = (gpu, i) /\ t' = t)) as [[Eg ->]|Hd]; [exact Hn|by eapply H3].
    + intros o a Ha. destruct (wf_place _ _ Hwf o a Ha) as [H1 H2]. split; [done|]. intros sl p. rewrite Hget. apply H2.
    + intros sl p. rewrite Hget. apply (wf_block _ _ Hwf).
    + intros s1 s2 p1 p2. rewrite !Hget. apply (wf_slots _ _ Hwf).
    + intros sl p. rewrite Hget. apply (wf_data _ _ Hwf).
  - split; rewrite ?Hmem; try done.
    + apply with_screen_objects.
    + intros a Ha. cbn. by eapply updated_other.
    + intros g j ss' H. destruct (Hsets _ _ _ H) as (ss & H0 & Et). exists ss. split; [done|]. split.
      * intros t'. rewrite Et. destruct (decide ((g, j) = (gpu, i) /\ t' = t)) as [[Eg ->]|Hd]; [|done].
        injection Eg as -> ->. rewrite Hss in H0. injection H0 as <-. by split.
      * intros Hne. apply (with_screen_sets _ _ _ _ s) in H; [|done].
        rewrite decide_False in H; [congruence|]. intros [-> ->]. by apply Hne.
    + intros gi t' H. cbn. rewrite decide_False; [done|]. intros [-> ->]. by apply H.
    + intros gi <-. cbn. by rewrite decide_True.
Qed.

(** All screens of one list, then of both. *)
Lemma grow_screens gpu st v t bytes :
  wf st v -> 0 <= bytes ->
  (forall i ss, sets_at st gpu i = Some ss -> s_offset (ss t) + bytes < 2147483648) ->
  exists m' l' v',
    visit (grow_screen t bytes) (ps_mem st) (if gpu then ps_gpuscreens st else ps_screens st) = Ret (m', l', true) /\
    wf (put_screens gpu st m' l') v' /\
    raised bytes t (fun gi => gi.1 = gpu /\ is_Some (screen_at st gpu gi.2)) st v (put_screens gpu st m' l') v'.
Proof.
  intros Hwf Hb Hn. set (l := if gpu then ps_gpuscreens st else ps_screens st).
  assert (Hput : forall m l' i, screen_at (put_screens gpu st m l') gpu i = l' !! i) by (intros; by destruct gpu).
  assert (Hst : put_screens gpu st (ps_mem st) l = st) by (by destruct gpu, st).
  set (V n := fun gi : bool * nat => gi.1 = gpu /\ (gi.2 < n)%nat).
  destruct (visit_spec
    (fun n m' l' => length l' = length l /\ exists v', wf (put_screens gpu st m' l') v' /\
       raised bytes t (V n) st v (put_screens gpu st m' l') v')
    (fun _ _ => False) (grow_screen t bytes) l (ps_mem st)) as (m' & l' & ok & E & Hok).
  - intros n m1 l1 s (Hlen & v1 & Hwf1 & Hr1) Hs. apply lookup_lt_Some in Hs as Hlt.
    rewrite <- (Hput m1) in Hs.
    destruct (ra_sets _ _ _ _ _ _ _ Hr1 gpu n (screenSpecificPrivates s)) as (ss & Hss & _ & Ess).
    { unfold sets_at. by rewrite Hs. }
    destruct (grow_one_screen _ v1 gpu n s t bytes Hwf1 Hs Hb) as (m2 & s2 & E & Hwf2 & Hr2).
    { rewrite Ess; [by eapply Hn|]. intros [_ H]. cbn in H. lia. }
    assert (with_screen (put_screens gpu st m1 l1) gpu n m2 s2 = put_screens gpu st m2 (<[n:=s2]> l1)) as Ep
      by (by destruct gpu). rewrite Ep in *.
    exists m2, s2, true. split; [rewrite <- E; by destruct gpu|]. split; [by rewrite length_insert|].
    eexists. split; [exact Hwf2|].
    eapply raised_iff; [|eapply raised_trans; [exact Hr1|exact Hr2|]]; unfold V.
    + intros [g j]. cbn. split; [intros [[-> H]|[= <- <-]]; split; [done|lia|done|lia]|].
      intros [-> H]. destruct (decide (j = n)) as [->|]; [by right|left]. split; [done|lia].
    + intros gi [H1 H2] <-. cbn in H2. lia.
  - split; [done|]. exists v. rewrite Hst. split; [done|]. eapply raised_iff, raised_refl.
    intros gi. unfold V. split; [done|lia].
  - destruct ok; [|done]. destruct Hok as (Hlen & v' & Hwf' & Hr). exists m', l', v'. split_and!; try done.
    eapply raised_iff, Hr. intros [g j]. unfold V. cbn -[screen_at].
    assert (screen_at st gpu j = l !! j) as -> by (by destruct gpu). by rewrite lookup_lt_is_Some.
Qed.

Lemma grow_screen_specific_set_spec st v t bytes :
  wf st v -> 0 <= bytes ->
  (forall gpu i ss, sets_at st gpu i = Some ss -> s_offset (ss t) + bytes < 2147483648) ->
  exists st' v', grow_screen_specific_set t bytes st = Ret st' /\ wf st' v' /\
    raised bytes t (fun gi => is_Some (screen_at st gi.1 gi.2)) st v st' v'.
Proof.
  intros Hwf Hb Hn. unfold grow_screen_specific_set.
  destruct (grow_screens false st v t bytes Hwf Hb (Hn false)) as (m1 & l1 & v1 & -> & Hwf1 & Hr1). cbn [obind].
  set (st1 := put_screens false st m1 l1) in *.
  destruct (grow_screens true st1 v1 t bytes Hwf1 Hb) as (m2 & l2 & v2 & E2 & Hwf2 & Hr2).
  { intros i ss H. destruct (ra_sets _ _ _ _ _ _ _ Hr1 _ _ _ H) as (ss0 & H0 & _ & Es).
    rewrite Es; [by eapply Hn|]. by intros [[=] _]. }
  change (ps_mem st1) with m1 in E2. change (ps_gpuscreens st1) with (ps_gpuscreens st) in E2. cbn [put_screens] in E2.
  rewrite E2. cbn [obind]. eexists _, v2. split; [reflexivity|]. split; [exact Hwf2|].
  eapply raised_iff; [|eapply raised_trans; [exact Hr1|exact Hr2|]]; cbn beta.
  - intros [g j]. cbn. destruct g; split; try (intros H; by (left + right)); try (by intros [[? ?]|[? ?]]).
  - intros gi [H1 _] [H2 _]. congruence.
Qed.
