(* ===== verification/PrivateRegister.v ===== *)
(** * Registering a key *)

From S2P Require Import Prelude Wire Resource Privates PrivateLayout PrivateState PrivateFixup.
From S2P Require Import PrivateVisit PrivateScreen PrivatePhase PrivateGrow.

(** ** Between operations

    Keys of the security extension take the first [g_total] bytes of the
    storage of some types, the other global keys follow, and on a screen its own
    keys after them; what is known of an object is all of its global keys'
    storage. *)
Record stable (st : PrivState) (v : ghost) : Prop := Stable {
  sb_wf : wf st v;
  sb_base t : t <> PRIVATE_XSELINUX -> g_base v t = if xselinux_private t then g_total v else 0;
  sb_low gpu i t : is_Some (sets_at st gpu i) -> g_low v (gpu, i) t = s_offset (global_keys st t);
  sb_data sl p : slot_get st sl = Some p ->
    g_pos v sl = g_base v (slot_type sl) /\ g_end v sl = s_offset (global_keys st (slot_type sl));
}.

Lemma slot_type_regular sl : slot_type sl <> PRIVATE_XSELINUX.
Proof. by destruct sl. Qed.

(** Sets of a screen with no keys of their own have the size of the global set. *)
Lemma stable_sets st v gpu i ss t : stable st v -> sets_at st gpu i = Some ss ->
  screen_specific_private t = false -> s_offset (ss t) = s_offset (global_keys st t).
Proof.
  intros Hst Hss Ht. destruct (wf_screen _ _ (sb_wf _ _ Hst) _ _ _ t Hss) as [_ H].
  rewrite (wf_specific _ _ (sb_wf _ _ Hst)) in H by done. cbn in H. rewrite H.
  apply (sb_low _ _ Hst). by exists ss.
Qed.

Lemma global_offset_range st v t : wf st v -> 0 <= s_offset (global_keys st t) < 2147483648.
Proof.
  intros Hwf. destruct (wf_small _ _ Hwf) as (_ & Hs & _). split; [|apply Hs].
  destruct (decide (t = PRIVATE_XSELINUX)) as [->|Ht].
  - by destruct (wf_selinux _ _ Hwf) as (_ & _ & ->).
  - destruct (wf_global _ _ Hwf t Ht) as [_ H%tiled_mono]. destruct (wf_low _ _ Hwf t). lia.
Qed.

(** The code's offset is where the storage of the global keys ends. *)
Lemma stable_code_offset st v sl p : stable st v -> slot_get st sl = Some p ->
  code_offset st sl = g_end v sl.
Proof.
  intros Hst Hp. destruct (sb_data _ _ Hst _ _ Hp) as [_ ->]. destruct sl as [| | |i|]; try done.
  cbn [code_offset slot_type]. destruct (sets_at st false i) as [ss|] eqn:E.
  - by eapply stable_sets.
  - cbn in Hp. unfold sets_at, screen_at in E. by destruct (ps_screens st !! i).
Qed.

Lemma stable_ready bytes st v sl : stable st v ->
  s_offset (global_keys st (slot_type sl)) + bytes < 2147483648 ->
  ready Fixup_dixReallocPrivates bytes st v sl.
Proof.
  intros Hst Hn p Hp. rewrite (stable_code_offset _ _ _ _ Hst Hp).
  destruct (sb_data _ _ Hst _ _ Hp) as [_ E]. rewrite E.
  destruct (global_offset_range st v (slot_type sl) (sb_wf _ _ Hst)).
  split_and!; [|lia|done]. cbn. rewrite i32_small; lia.
Qed.

(** Growing storage leaves everything else. *)
Lemma stable_kept V st v st' v' : stable st v -> wf st' v' -> kept 0 V st v st' v' ->
  (forall sl, V sl \/ ~ V sl) -> stable st' v'.
Proof.
  intros Hst Hwf' Hk Hdec. destruct (kp_ghost _ _ _ _ _ _ Hk) as (Eb & El & Ed & Et).
  split; [done|..].
  - intros t Ht. rewrite Eb, Et. by apply (sb_base _ _ Hst).
  - intros gpu i t [ss' Hss']. destruct (kp_sets _ _ _ _ _ _ Hk _ _ _ Hss') as (ss & Hss & _).
    rewrite El, (kp_gk _ _ _ _ _ _ Hk). apply (sb_low _ _ Hst). by exists ss.
  - intros sl p' Hp'. destruct (proj1 (kp_dom _ _ _ _ _ _ Hk sl) (ex_intro _ _ Hp')) as [p Hp].
    destruct (sb_data _ _ Hst _ _ Hp) as [E1 E2]. rewrite (kp_gk _ _ _ _ _ _ Hk), Eb.
    assert (g_pos v' sl = g_pos v sl) as Epos.
    { destruct (Hdec sl) as [H|H]; [rewrite (kp_in _ _ _ _ _ _ Hk _ H); lia|by apply (kp_out _ _ _ _ _ _ Hk)]. }
    unfold g_end in *. by rewrite Epos, Ed.
Qed.

Lemma type_slots_dec t st sl :
  (slot_type sl = t /\ is_Some (slot_get st sl)) \/ ~ (slot_type sl = t /\ is_Some (slot_get st sl)).
Proof.
  destruct (decide (slot_type sl = t)); [|by right; intros [? _]].
  destruct (slot_get st sl); [left; split; [done|by eexists]|right; by intros [_ [? [=]]]].
Qed.

Lemma set_of_eq t f ss : set_of t f ss t = f (ss t).
Proof. unfold set_of. by rewrite decide_True. Qed.

(** ** Making room *)

Section MakeRoom.
Context (env : heap_env) (bytes : Z) (Hb : 0 < bytes).

(** Room in the objects of [t] was made, or memory failed. *)
Definition room_made (t : DevPrivateType) (st : PrivState) (v : ghost) (st' : PrivState) (v' : ghost) (ok : bool) : Prop :=
  stable st' v' /\ kept 0 (fun sl => slot_type sl = t /\ is_Some (slot_get st sl)) st v st' v' /\
  (ok = true -> forall sl, slot_type sl = t -> cleared Fixup_dixReallocPrivates bytes st' v' sl) /\
  (ok = false -> no_memory env).

Lemma make_room_spec st v t :
  stable st v -> allocated_early t = true \/ s_created (global_keys st t) = 0 ->
  s_offset (global_keys st t) + bytes < 2147483648 ->
  exists st' ok v', make_room env t bytes st = Ret (st', ok) /\ room_made t st v st' v' ok.
Proof using Hb.
  intros Hst Ht Hn. unfold make_room. destruct (allocated_early t) eqn:Et.
  - destruct (fixup_early_spec env Fixup_dixReallocPrivates bytes Hb t st v Et (sb_wf _ _ Hst))
      as (st' & ok & v' & -> & Hwf' & Hk & Hf & Hr).
    { intros sl <-. by apply stable_ready. }
    exists st', ok, v'. split; [done|]. split_and!; try done; [|by intros [_ ?]%Hf].
    eapply stable_kept; [exact Hst|done|exact Hk|]. intros sl. apply type_slots_dec.
  - destruct Ht as [|Hc]; [done|]. rewrite (proj2 (Z.eqb_eq _ _) Hc). cbn [negb].
    exists st, true, v. split; [done|]. split_and!; [done| | |done].
    + apply kept_still, visit_kept_refl.
    + intros _ sl Hsl. exfalso. by destruct sl; subst t.
Qed.
End MakeRoom.

(** ** Adding the key *)

(** The ghost with the new key: its storage is known to hold zeros. *)
Definition key_added (t : DevPrivateType) (key bytes : Z) (v : ghost) : ghost :=
  v <| g_keys ::= fun keys o => if decide (o = (None, t)) then key :: keys o else keys o |>
    <| g_data ::= fun data sl => if decide (slot_type sl = t) then data sl ++ zeros bytes else data sl |>.

(** The state with the new key: [offset] is where its storage starts. *)
Definition with_key (t : DevPrivateType) (key size : Z) (st : PrivState) : PrivState :=
  let set := global_keys st t in
  st <| ps_mem ::= fun m => m <| m_keys ::= insert key
          (KeyRec (s_offset set) size true false t (s_key set)) |> |>
     <| global_keys ::= set_of t (fun set' => set' <| s_offset := s_offset set + key_bytes size |>) |>
     <| global_keys ::= set_of t (fun set' => set' <| s_key := key |>) |>.

Lemma with_key_gk t key size st t' : global_keys (with_key t key size st) t' =
  if decide (t' = t) then
    global_keys st t <| s_offset := s_offset (global_keys st t) + key_bytes size |> <| s_key := key |>
  else global_keys st t'.
Proof. cbn. unfold set_of. case_decide as H; [by subst|done]. Qed.

(** No list has the key. *)
Lemma unlisted st v key r o : wf st v -> (forall gpu i t, o = (Some (gpu, i), t) -> is_Some (sets_at st gpu i)) ->
  m_keys (ps_mem st) !! key = Some r -> k_initialized r = false -> key ∉ g_keys v o.
Proof.
  intros Hwf Ho Hr Hi Hin. destruct o as [[[gpu i]|] t].
  - destruct (Ho gpu i t eq_refl) as [ss Hss]. destruct (wf_screen _ _ Hwf _ _ _ t Hss) as [_ Ht].
    destruct (tiled_key _ _ _ _ _ _ Ht Hin) as (r' & Hr' & Hi' & _). congruence.
  - destruct (decide (t = PRIVATE_XSELINUX)) as [->|Hne].
    + destruct (wf_selinux _ _ Hwf) as (_ & Hf & _). revert Hf Hin. generalize (g_total v).
      induction (g_keys v (None, PRIVATE_XSELINUX)) as [|a l IH]; intros total; [by intros _ ?%not_elem_of_nil|].
      cbn. intros (r' & Hr' & Hi' & _ & _ & _ & Hf) [->|Hin]%elem_of_cons; [congruence|]. by eapply IH.
    + destruct (wf_global _ _ Hwf t Hne) as [_ Ht].
      destruct (tiled_key _ _ _ _ _ _ Ht Hin) as (r' & Hr' & Hi' & _). congruence.
Qed.

Section AddKey.
Context (st : PrivState) (v : ghost) (t : DevPrivateType) (key size : Z).
Notation bytes := (key_bytes size).
Notation st' := (with_key t key size st).
Notation v' := (key_added t key bytes v).
Notation keys := (m_keys (ps_mem st)).
Context (Hwf : wf st v) (Ht : t <> PRIVATE_XSELINUX) (Hkey : static st v key)
  (Hnew : forall t', key ∉ g_keys v (None, t')) (Hsize : 0 <= size <= 2147483640)
  (Hn : s_offset (global_keys st t) + bytes < 2147483648)
  (Hpos : forall sl p, slot_get st sl = Some p -> slot_type sl = t ->
     cleared Fixup_dixReallocPrivates bytes st v sl).

Lemma added_unlisted o : key ∉ g_keys v o.
Proof using Hkey Hnew. destruct o as [[[gpu i]|] t']; [apply Hkey|apply Hnew]. Qed.

Lemma added_cell o a : a ∈ g_keys v o -> m_keys (ps_mem st') !! a = keys !! a.
Proof using Hkey Hnew. intros Ha. cbn. rewrite lookup_insert_ne; [done|].
  intros E. apply (added_unlisted o). by rewrite E. Qed.

Lemma added_linked o p : linked keys p (g_keys v o) -> linked (m_keys (ps_mem st')) p (g_keys v o).
Proof using Hkey Hnew. apply linked_next. intros a Ha. by rewrite (added_cell o). Qed.

Lemma added_tiled o t' hi lo : tiled keys t' hi (g_keys v o) lo -> tiled (m_keys (ps_mem st')) t' hi (g_keys v o) lo.
Proof using Hkey Hnew. apply tiled_ext. intros a Ha. by apply (added_cell o). Qed.

Lemma added_keys o : g_keys v' o = if decide (o = (None, t)) then key :: g_keys v o else g_keys v o.
Proof using Type. reflexivity. Qed.

Lemma added_elem o a : a ∈ g_keys v' o -> a ∈ g_keys v o \/ (a = key /\ o = (None, t)).
Proof using Type.
  rewrite added_keys. case_decide as H; [|by left]. intros [->|Ha]%elem_of_cons; [by right|by left].
Qed.

(** What is known of an object goes on with the zeros behind it. *)
Lemma added_data sl p : slot_get st sl = Some p ->
  0 <= g_pos v' sl /\ g_end v' sl <= p_len p /\
  take (length (g_data v' sl)) (drop (Z.to_nat (g_pos v' sl)) (p_data p)) = g_data v' sl.
Proof using Hwf Hpos Hsize.
  intros Hp. destruct (wf_data _ _ Hwf _ _ Hp) as (H1 & H2 & H3). unfold g_end in *. cbn.
  case_decide as Hd; [|done]. pose proof (Hpos sl p Hp Hd p Hp) as Hc. unfold cleared_data, g_end in Hc.
  destruct (key_bytes_bounds _ Hsize) as [Hb _].
  assert (Z.of_nat (length (zeros bytes)) = bytes) as Hz by (apply zeros_length; lia).
  split; [done|]. rewrite length_app. split.
  - apply (f_equal length) in Hc. rewrite length_take, length_drop in Hc. unfold p_len in *. lia.
  - rewrite <- take_take_drop, H3. f_equal. rewrite <- Hc at 2. rewrite drop_drop.
    replace (length (zeros bytes)) with (Z.to_nat bytes) by lia. do 2 f_equal. lia.
Qed.

Lemma added_wf : wf st' v'.
Proof.
  destruct (key_bytes_bounds _ Hsize) as [Hb _].
  assert (Hother : forall o p, o <> (None, t) -> linked keys p (g_keys v o) ->
    linked (m_keys (ps_mem st')) p (g_keys v' o)).
  { intros o p Hne Hl. rewrite added_keys, decide_False by done. by apply added_linked. }
  assert (Htile : forall o t' hi lo, o <> (None, t) -> tiled keys t' hi (g_keys v o) lo ->
    tiled (m_keys (ps_mem st')) t' hi (g_keys v' o) lo).
  { intros o t' hi lo Hne Hl. rewrite added_keys, decide_False by done. by apply added_tiled. }
  split.
  - intros t' Ht'. destruct (wf_global _ _ Hwf t' Ht') as [Hl Hti].
    rewrite with_key_gk. case_decide as Hd.
    + subst t'. rewrite added_keys, decide_True by done. cbn [s_key s_offset]. split.
      * split_and!; [done|by destruct Hkey as ([? ?] & _); lia|].
        eexists. split; [cbn; apply lookup_insert_eq|]. cbn [k_next]. by apply added_linked.
      * eexists. split; [cbn; apply lookup_insert_eq|]. cbn [k_initialized k_type k_size k_offset].
        do 2 (split; [done|]). split; [exact Hsize|]. split; [done|]. by apply added_tiled.
    + split; [apply Hother|apply Htile]; congruence || done.
  - rewrite with_key_gk, decide_False by done.
    destruct (wf_selinux _ _ Hwf) as (H1 & H2 & H3). split_and!; [apply Hother; congruence || done| |done].
    rewrite added_keys, decide_False by congruence. eapply flat_ext, H2. intros a. apply added_cell.
  - intros gpu i ss t' Hss. destruct (wf_screen _ _ Hwf gpu i ss t' Hss) as [H1 H2].
    split; [by apply Hother|by apply Htile].
  - intros gpu i t' H. rewrite added_keys, decide_False by done. by apply (wf_specific _ _ Hwf).
  - intros o1 o2 a [H1|[-> ->]]%added_elem [H2|[E ->]]%added_elem.
    + by eapply (wf_disjoint _ _ Hwf).
    + subst a. by apply added_unlisted in H1.
    + by apply added_unlisted in H2.
    + done.
  - apply (wf_brk _ _ Hwf).
  - apply (wf_low _ _ Hwf).
  - destruct (wf_small _ _ Hwf) as (H1 & H2 & H3). split_and!; [done| |done].
    intros t'. rewrite with_key_gk. case_decide as Hd; [by subst t'|apply H2].
  - intros o a [Ha|[-> ->]]%added_elem.
    + destruct (wf_place _ _ Hwf _ _ Ha) as [H1 H2]. split; [done|]. intros sl p Hp Hin.
      destruct (H2 sl p Hp Hin) as [H3 H4]. split; [done|]. unfold g_end in *. cbn.
      case_decide; [rewrite length_app|]; lia.
    + destruct Hkey as (H1 & H2 & _). split; [done|]. intros sl p Hp Hin. by destruct (H2 sl p Hp).
  - apply (wf_block _ _ Hwf).
  - apply (wf_slots _ _ Hwf).
  - apply added_data.
Qed.
End AddKey.

(** ** The walk over the screens does not look at the global sets *)

Lemma grow_screen_specific_gk t bytes F st st' :
  grow_screen_specific_set t bytes st = Ret st' ->
  grow_screen_specific_set t bytes (st <| global_keys ::= F |>) = Ret (st' <| global_keys ::= F |>).
Proof.
  unfold grow_screen_specific_set. cbn [ps_mem ps_screens ps_gpuscreens set_field].
  intros ([[m1 l1] b1] & E1 & H)%obind_Ret. cbn in E1 |- *. rewrite E1. cbn [obind] in *.
  apply obind_Ret in H as ([[m2 l2] b2] & E2 & H). rewrite E2. cbn [obind] in *. by injection H as <-.
Qed.

(** ** Registering a key for one type *)

Lemma raised_static bytes t V st v st' v' a :
  raised bytes t V st v st' v' -> static st v a ->
  static st' v' a /\ m_keys (ps_mem st') !! a = m_keys (ps_mem st) !! a.
Proof.
  intros Hr (H1 & H2 & H3). split.
  - split_and!; rewrite ?(ra_brk _ _ _ _ _ _ _ Hr); [lia..| |].
    + intros sl p. rewrite (ra_slots _ _ _ _ _ _ _ Hr). apply H2.
    + intros gpu i t'. rewrite (ra_ghost _ _ _ _ _ _ _ Hr). apply H3.
  - apply (ra_keys _ _ _ _ _ _ _ Hr). intros gpu i. apply H3.
Qed.

(** The screens' sets count the same objects, and of types other than [D] they
    have the same size. *)
Definition screens_same (D : DevPrivateType -> Prop) (st st' : PrivState) : Prop :=
  forall gpu i ss', sets_at st' gpu i = Some ss' -> exists ss, sets_at st gpu i = Some ss /\
    forall t, s_created (ss' t) = s_created (ss t) /\ (~ D t -> s_offset (ss' t) = s_offset (ss t)).

Lemma screens_same_mono (D D' : DevPrivateType -> Prop) st st' : (forall t, D t -> D' t) ->
  screens_same D st st' -> screens_same D' st st'.
Proof.
  intros HD H gpu i ss' Hss'. destruct (H _ _ _ Hss') as (ss & Hss & F). exists ss. split; [done|].
  intros t. destruct (F t) as [E F']. split; [done|]. intros Hn. apply F'. auto.
Qed.

Lemma kept_screens d V st v st' v' D : kept d V st v st' v' -> screens_same D st st'.
Proof.
  intros Hk gpu i ss' Hss'. destruct (kp_sets _ _ _ _ _ _ Hk _ _ _ Hss') as (ss & Hss & F).
  exists ss. split; [done|]. intros t. by destruct (F t).
Qed.

(** What a successful registration for [t] does. *)
Record key_registered (t : DevPrivateType) (key size : Z) (st : PrivState) (v : ghost)
    (st' : PrivState) (v' : ghost) : Prop := KeyRegistered {
  kr_stable : stable st' v';
  kr_dom sl : is_Some (slot_get st' sl) <-> is_Some (slot_get st sl);
  kr_objects : ps_objects st' = ps_objects st;
  kr_keys t' : g_keys v' (None, t') = if decide (t' = t) then key :: g_keys v (None, t') else g_keys v (None, t');
  kr_new : m_keys (ps_mem st') !! key =
    Some (KeyRec (s_offset (global_keys st t)) size true false t (s_key (global_keys st t)));
  kr_old t' a : a ∈ g_keys v (None, t') -> m_keys (ps_mem st') !! a = m_keys (ps_mem st) !! a;
  kr_base : g_base v' = g_base v;
  kr_data sl : g_data v' sl = if decide (slot_type sl = t) then g_data v sl ++ zeros (key_bytes size) else g_data v sl;
  kr_sets t' : s_offset (global_keys st' t') =
      (if decide (t' = t) then s_offset (global_keys st t) + key_bytes size else s_offset (global_keys st t')) /\
    s_created (global_keys st' t') = s_created (global_keys st t');
  kr_screens : screens_same (eq t) st st';
  kr_brk : m_brk (ps_mem st) <= m_brk (ps_mem st');
}.

(** What a failed one does. *)
Record room_failed (st : PrivState) (v : ghost) (st' : PrivState) (v' : ghost) : Prop := RoomFailed {
  rf_stable : stable st' v';
  rf_gk : global_keys st' = global_keys st;
  rf_objects : ps_objects st' = ps_objects st;
  rf_dom sl : is_Some (slot_get st' sl) <-> is_Some (slot_get st sl);
  rf_keys t' : g_keys v' (None, t') = g_keys v (None, t');
  rf_old a : static st v a -> m_keys (ps_mem st') !! a = m_keys (ps_mem st) !! a;
  rf_base : g_base v' = g_base v;
  rf_data : g_data v' = g_data v;
  rf_screens D : screens_same D st st';
  rf_brk : m_brk (ps_mem st) <= m_brk (ps_mem st');
}.

(** The new key fits in once the ranges of the screens' keys have moved. *)
Lemma register_stable t key size st1 v1 st2 v2 :
  stable st1 v1 -> t <> PRIVATE_XSELINUX -> 0 <= size <= 2147483640 ->
  s_offset (global_keys st1 t) + key_bytes size < 2147483648 ->
  wf st2 v2 -> raised (key_bytes size) t (fun gi => is_Some (screen_at st1 gi.1 gi.2)) st1 v1 st2 v2 ->
  static st2 v2 key -> (forall t', key ∉ g_keys v2 (None, t')) ->
  (forall sl, slot_type sl = t -> cleared Fixup_dixReallocPrivates (key_bytes size) st1 v1 sl) ->
  stable (with_key t key size st2) (key_added t key (key_bytes size) v2).
Proof.
  intros Hst1 Ht Hsize Hn Hwf2 Hra Hkey Hunl Hroom.
  pose proof (ra_ghost _ _ _ _ _ _ _ Hra) as Eg. pose proof (ra_gk _ _ _ _ _ _ _ Hra) as Egk.
  destruct (key_bytes_bounds _ Hsize) as [Hb _]. split.
  - apply added_wf; try done; [by rewrite Egk|]. intros sl p Hp Hsl q Hq.
    rewrite (ra_slots _ _ _ _ _ _ _ Hra) in Hq. rewrite Eg. by apply (Hroom sl Hsl).
  - intros t' Ht'. rewrite Eg. by apply (sb_base _ _ Hst1).
  - intros gpu i t' [ss Hss]. change (g_low (key_added t key (key_bytes size) v2)) with (g_low v2).
    change (sets_at st2 gpu i = Some ss) in Hss.
    destruct (ra_sets _ _ _ _ _ _ _ Hra _ _ _ Hss) as (ss1 & Hss1 & _).
    assert (is_Some (sets_at st1 gpu i)) as Hs1 by by exists ss1.
    rewrite with_key_gk, Egk. case_decide as Hd.
    + subst t'. rewrite (ra_in _ _ _ _ _ _ _ Hra (gpu, i)).
      * cbn. by rewrite (sb_low _ _ Hst1).
      * unfold sets_at in Hss1. cbn -[screen_at]. destruct (screen_at st1 gpu i); [by eexists|done].
    + rewrite (ra_out _ _ _ _ _ _ _ Hra) by tauto. by apply (sb_low _ _ Hst1).
  - intros sl p Hp. change (slot_get st2 sl = Some p) in Hp. rewrite (ra_slots _ _ _ _ _ _ _ Hra) in Hp.
    destruct (sb_data _ _ Hst1 _ _ Hp) as [E1 E2]. rewrite with_key_gk, Egk. unfold g_end in *. rewrite Eg. cbn.
    split; [done|]. case_decide as Hd; [|done]. rewrite Hd in E2. cbn.
    rewrite length_app, Nat2Z.inj_add, zeros_length by lia. lia.
Qed.

Section RegisterOne.
Context (env : heap_env) (st : PrivState) (v : ghost) (key : Z) (r : DevPrivateKeyRec)
  (t : DevPrivateType) (size : Z).
Context (Hst : stable st v) (Ht : t <> PRIVATE_XSELINUX)
  (Hr : m_keys (ps_mem st) !! key = Some r) (Hi : k_initialized r = false) (Hkey : static st v key)
  (Hsize : 0 <= size <= 2147483640)
  (Hn : s_offset (global_keys st t) + key_bytes size < 2147483648)
  (Hns : forall gpu i ss, sets_at st gpu i = Some ss -> s_offset (ss t) + key_bytes size < 2147483648)
  (Hearly : allocated_early t = true \/ s_created (global_keys st t) = 0).

Lemma register_one : exists st' ok v',
  dixRegisterPrivateKey env st key t size = Ret (st', ok) /\
  if ok : bool then key_registered t key size st v st' v' else room_failed st v st' v' /\ no_memory env.
Proof.
  destruct (key_bytes_bounds _ Hsize) as [Hb _].
  unfold dixRegisterPrivateKey. rewrite Hr. cbn [obind_opt]. rewrite Hi, decide_False by done.
  destruct (make_room_spec env (key_bytes size) ltac:(lia) st v t Hst Hearly Hn)
    as (st1 & ok & v1 & -> & Hst1 & Hk1 & Hroom & Hmem). cbn [obind].
  assert (forall t' a, a ∈ g_keys v (None, t') -> m_keys (ps_mem st1) !! a = m_keys (ps_mem st) !! a) as Hcells.
  { intros t' a Ha. apply (kp_static _ _ _ _ _ _ Hk1). by eapply static_global; [apply Hst|]. }
  destruct (kp_ghost _ _ _ _ _ _ Hk1) as (Eb & El & Ed & Et).
  destruct ok; cbn [negb].
  2:{ exists st1, false, v1. split; [done|]. split; [split; try done; try apply Hk1; intros D; by eapply kept_screens|by apply Hmem]. }
  destruct (kp_static _ _ _ _ _ _ Hk1 _ Hkey) as [Hkey1 Hr1]. rewrite Hr in Hr1.
  destruct (grow_screen_specific_set_spec st1 v1 t (key_bytes size) (sb_wf _ _ Hst1) ltac:(lia))
    as (st2 & v2 & Eg & Hwf2 & Hra).
  { intros gpu i ss Hss. destruct (kp_sets _ _ _ _ _ _ Hk1 _ _ _ Hss) as (ss0 & H0 & E0).
    destruct (E0 t) as [-> _]. by eapply Hns. }
  destruct (raised_static _ _ _ _ _ _ _ _ Hra Hkey1) as [Hkey2 Hr2]. rewrite Hr1 in Hr2.
  pose proof (ra_ghost _ _ _ _ _ _ _ Hra) as Eg2. pose proof (ra_gk _ _ _ _ _ _ _ Hra) as Egk2.
  pose proof (kp_gk _ _ _ _ _ _ Hk1) as Egk1.
  erewrite grow_screen_specific_gk by exact Eg. cbn [obind].
  unfold setup_key. cbn [ps_mem set_field]. rewrite Hr2. cbn [obind].
  match goal with |- exists st' ok v', Ret (?s, true) = _ /\ _ => assert (s = with_key t key size st2) as -> end.
  { unfold with_key. rewrite Egk1, !(i32_small size), (i32_small (s_offset _)), (u32_small (s_offset _ + _))
      by (destruct (global_offset_range _ _ t (sb_wf _ _ Hst)); lia).
    cbn. rewrite set_of_eq. cbn. by rewrite Egk2, Egk1. }
  eexists _, true, (key_added t key (key_bytes size) v2). split; [reflexivity|].
  assert (Hunl : forall t', key ∉ g_keys v (None, t')).
  { intros t'. eapply (unlisted st); [apply Hst|by intros ??? [=]|exact Hr|done]. }
  assert (Hk2 : forall t', g_keys v2 (None, t') = g_keys v (None, t')).
  { intros t'. rewrite Eg2. apply (kp_global _ _ _ _ _ _ Hk1). }
  assert (Hdom : forall sl, is_Some (slot_get st2 sl) <-> is_Some (slot_get st sl)).
  { intros sl. rewrite (ra_slots _ _ _ _ _ _ _ Hra). apply (kp_dom _ _ _ _ _ _ Hk1). }
  split.
  - apply register_stable with (st1 := st1) (v1 := v1); try done; [by rewrite Egk1|intros t'; by rewrite Hk2|by apply Hroom].
  - exact Hdom.
  - cbn. by rewrite (ra_objects _ _ _ _ _ _ _ Hra), (kp_objects _ _ _ _ _ _ Hk1).
  - intros t'. rewrite added_keys, Hk2. by case_decide; case_decide; try congruence.
  - cbn. rewrite lookup_insert_eq. by rewrite Egk2, Egk1.
  - intros t' a Ha. rewrite (added_cell st2 v2 t key size Hkey2) with (o := (None, t')).
    + rewrite (ra_keys _ _ _ _ _ _ _ Hra); [by eapply Hcells|]. intros gpu i.
      assert (static st v a) as Hsa by by eapply static_global; [apply Hst|].
      apply (kp_static _ _ _ _ _ _ Hk1) in Hsa as [Hsa _]. apply Hsa.
    + intros t''. by rewrite Hk2.
    + by rewrite Hk2.
  - cbn. by rewrite Eg2.
  - intros sl. cbn. rewrite Eg2. cbn. by rewrite Ed.
  - intros t'. rewrite with_key_gk, Egk2, Egk1. by case_decide; [subst|].
  - intros gpu i ss2 Hss2. change (sets_at st2 gpu i = Some ss2) in Hss2.
    destruct (ra_sets _ _ _ _ _ _ _ Hra _ _ _ Hss2) as (ss1 & H1 & F1 & _).
    destruct (kp_sets _ _ _ _ _ _ Hk1 _ _ _ H1) as (ss0 & H0 & F0). exists ss0. split; [done|].
    intros t'. destruct (F1 t') as [-> F], (F0 t') as [Eo ->]. split; [done|]. intros Hne. rewrite F; [done|congruence].
  - etransitivity; [exact (kp_brk _ _ _ _ _ _ Hk1)|]. rewrite <- (ra_brk _ _ _ _ _ _ _ Hra). done.
Qed.
End RegisterOne.
