(* ===== verification/PrivateMove.v ===== *)
(** * Registering a key of the security extension

    Such a key takes space in the objects of many types: there everything else
    moves up. *)

From S2P Require Import Prelude Wire Resource Privates PrivateLayout PrivateState PrivateFixup.
From S2P Require Import PrivateVisit PrivateScreen PrivatePhase PrivateGrow PrivateRegister.

Lemma slot_type_selinux sl : xselinux_private (slot_type sl) = true.
Proof. by destruct sl. Qed.

(** ** Making room in all types *)

Section MakeRoomAll.
Context (env : heap_env) (bytes : Z) (Hb : 0 < bytes).

Lemma make_room_all_spec l : NoDup l -> forall st v, stable st v ->
  (forall t, t ∈ l -> xselinux_private t = true -> allocated_early t = true \/ s_created (global_keys st t) = 0) ->
  (forall t, s_offset (global_keys st t) + bytes < 2147483648) ->
  exists st' ok v', make_room_all env l bytes st = Ret (st', ok) /\ stable st' v' /\
    kept 0 (fun sl => slot_type sl ∈ l /\ is_Some (slot_get st sl)) st v st' v' /\
    (ok = true -> forall sl, slot_type sl ∈ l -> cleared Fixup_dixReallocPrivates bytes st' v' sl) /\
    (ok = false -> no_memory env).
Proof using Hb.
  induction 1 as [|t l Ht Hnd IH]; intros st v Hst Hearly Hn.
  { exists st, true, v. split; [done|]. split_and!; [done| |by intros _ sl ?%not_elem_of_nil|done].
    eapply kept_iff, visit_kept_refl. intros sl. split; [done|]. by intros [?%not_elem_of_nil _]. }
  cbn [make_room_all]. destruct (xselinux_private t) eqn:Ex.
  - destruct (make_room_spec env bytes Hb st v t Hst) as (st1 & ok1 & v1 & -> & Hst1 & Hk1 & Hr1 & Hm1);
      [apply Hearly; [left|done]|done|]. cbn [obind].
    pose proof (kp_gk _ _ _ _ _ _ Hk1) as Egk.
    destruct ok1.
    + destruct (IH st1 v1 Hst1) as (st2 & ok2 & v2 & -> & Hst2 & Hk2 & Hr2 & Hm2).
      { intros t' Ht'. rewrite Egk. apply Hearly. by right. }
      { intros t'. rewrite Egk. apply Hn. }
      exists st2, ok2, v2. split; [done|]. split_and!; [done| | |done].
      * eapply kept_iff; [|eapply visit_kept_trans; [exact Hk1|exact Hk2|]]; cbn beta.
        -- intros sl. cbn beta. rewrite (kp_dom _ _ _ _ _ _ Hk1), elem_of_cons. tauto.
        -- intros sl [<- _] [H _]. done.
      * intros Hok sl [Hsl|Hsl]%elem_of_cons; [|by apply Hr2].
        eapply kept_cleared; [exact Hk2| |by apply Hr1]. intros [H _]. by rewrite Hsl in H.
    + exists st1, false, v1. split; [done|]. split_and!; [done| |done|done].
      eapply kept_widen; [exact Hk1| |intros sl; apply type_slots_dec].
      intros sl [<- H]. split; [left|done].
  - destruct (IH st v Hst) as (st2 & ok2 & v2 & -> & Hst2 & Hk2 & Hr2 & Hm2); [|done|].
    { intros t' Ht'. apply Hearly. by right. }
    assert (forall sl, slot_type sl <> t) as Hne.
    { intros sl <-. rewrite slot_type_selinux in Ex. done. }
    exists st2, ok2, v2. split; [done|]. split_and!; [done| | |done].
    + eapply kept_iff, Hk2. intros sl. cbn. rewrite elem_of_cons. specialize (Hne sl). tauto.
    + intros Hok sl [Hsl|Hsl]%elem_of_cons; [by apply Hne in Hsl|by apply Hr2].
Qed.
End MakeRoomAll.

(** ** Moving up *)

(** Everything of the types [D] has moved, of others nothing has. *)
Record moved_up (bytes : Z) (D : list DevPrivateType) (st1 : PrivState) (v1 : ghost)
    (st : PrivState) (v : ghost) : Prop := MovedUp {
  mu_wf : wf st v;
  mu_gk t : global_keys st t =
    global_keys st1 t <| s_offset := s_offset (global_keys st1 t) + (if decide (t ∈ D) then bytes else 0) |>;
  mu_objects : ps_objects st = ps_objects st1;
  mu_base t : g_base v t = g_base v1 t + (if decide (t ∈ D) then bytes else 0);
  mu_low gpu i t : is_Some (sets_at st gpu i) ->
    g_low v (gpu, i) t = g_low v1 (gpu, i) t + (if decide (t ∈ D) then bytes else 0);
  mu_same : g_total v = g_total v1 /\ g_data v = g_data v1;
  mu_pos sl p : slot_get st sl = Some p ->
    g_pos v sl = g_pos v1 sl + (if decide (slot_type sl ∈ D) then bytes else 0);
  mu_keys t : g_keys v (None, t) = g_keys v1 (None, t);
  mu_cells t a : a ∈ g_keys v1 (None, t) ->
    m_keys (ps_mem st) !! a = (if decide (t ∈ D) then grown bytes else id) <$> m_keys (ps_mem st1) !! a;
  mu_static a : static st1 v1 a -> static st v a /\
    ((forall t, a ∉ g_keys v1 (None, t)) -> m_keys (ps_mem st) !! a = m_keys (ps_mem st1) !! a);
  mu_brk : m_brk (ps_mem st1) <= m_brk (ps_mem st);
  mu_dom sl : is_Some (slot_get st sl) <-> is_Some (slot_get st1 sl);
  mu_sets gpu i ss : sets_at st gpu i = Some ss -> exists ss1, sets_at st1 gpu i = Some ss1 /\
    forall t, s_created (ss t) = s_created (ss1 t) /\ (t ∉ D -> s_offset (ss t) = s_offset (ss1 t));
  mu_todo sl : slot_type sl ∉ D -> slot_get st sl = slot_get st1 sl;
  mu_done sl p : slot_type sl ∈ D -> slot_get st sl = Some p ->
    take (Z.to_nat bytes) (p_data p) = zeros bytes;
}.

Lemma moved_up_start bytes st v : wf st v -> moved_up bytes [] st v st v.
Proof.
  assert (forall (t : DevPrivateType) x, x + (if decide (t ∈ []) then bytes else 0) = x) as E.
  { intros t x. rewrite decide_False by apply not_elem_of_nil. lia. }
  intros Hwf. split; try done.
  - intros t. rewrite E. by destruct (global_keys st t).
  - intros t a _. rewrite decide_False by apply not_elem_of_nil. by rewrite option_fmap_id.
  - intros gpu i ss H. by exists ss.
  - by intros sl p ?%not_elem_of_nil.
Qed.

(** ** One type *)

Section MoveType.
Context (env : heap_env) (bytes : Z) (Hb : 0 < bytes).

(** The keys and the ranges of one type moved up; the objects have not yet. *)
Lemma grow_type st v t :
  wf st v -> t <> PRIVATE_XSELINUX -> s_offset (global_keys st t) + bytes < 2147483648 ->
  (forall gpu i ss, sets_at st gpu i = Some ss -> s_offset (ss t) + bytes < 2147483648) ->
  exists keys' set st2 v2,
    grow_private_set bytes (ps_mem st) (global_keys st t) = Ret (ps_mem st <| m_keys := keys' |>, set) /\
    set = global_keys st t <| s_offset := s_offset (global_keys st t) + bytes |> /\
    updated (grown bytes) (g_keys v (None, t)) (m_keys (ps_mem st)) keys' /\
    let st1 := st <| ps_mem := ps_mem st <| m_keys := keys' |> |> <| global_keys ::= set_of t (fun _ => set) |> in
    grow_screen_specific_set t bytes st1 = Ret st2 /\ wf st2 v2 /\
    raised bytes t (fun gi => is_Some (screen_at st gi.1 gi.2)) st1 (base_up t bytes v) st2 v2.
Proof using Hb.
  intros Hwf Ht Hn Hns. destruct (grow_global_spec st v t bytes Hwf Ht ltac:(lia) Hn) as (keys' & set & E & Es & Hu & Hwf1).
  destruct (grow_screen_specific_set_spec _ _ t bytes Hwf1 ltac:(lia)) as (st2 & v2 & E2 & Hwf2 & Hra); [exact Hns|].
  by exists keys', set, st2, v2.
Qed.

Section Step.
Context (D : list DevPrivateType) (st1 : PrivState) (v1 : ghost) (st : PrivState) (v : ghost) (t : DevPrivateType).
Context (Hst1 : stable st1 v1) (Hmu : moved_up bytes D st1 v1 st v) (Ht : t ∉ D) (Htx : t <> PRIVATE_XSELINUX)
  (Hn : s_offset (global_keys st1 t) + bytes < 2147483648)
  (Hns : forall gpu i ss, sets_at st1 gpu i = Some ss -> s_offset (ss t) + bytes < 2147483648).

(** The state when the sets are grown, before the objects move. *)
Record ranges_moved (st2 : PrivState) (v2 : ghost) : Prop := RangesMoved {
  rm_wf : wf st2 v2;
  rm_gk t' : global_keys st2 t' = (if decide (t' = t) then
      global_keys st t <| s_offset := s_offset (global_keys st t) + bytes |> else global_keys st t');
  rm_objects : ps_objects st2 = ps_objects st;
  rm_slots sl : slot_get st2 sl = slot_get st sl;
  rm_ghost : g_total v2 = g_total v /\ g_data v2 = g_data v /\ g_pos v2 = g_pos v /\
    g_keys v2 = g_keys v;
  rm_base t' : g_base v2 t' = g_base v t' + (if decide (t' = t) then bytes else 0);
  rm_low gpu i t' : is_Some (sets_at st2 gpu i) ->
    g_low v2 (gpu, i) t' = g_low v (gpu, i) t' + (if decide (t' = t) then bytes else 0);
  rm_sets gpu i ss2 : sets_at st2 gpu i = Some ss2 -> exists ss, sets_at st gpu i = Some ss /\
    forall t', s_created (ss2 t') = s_created (ss t') /\ (t' <> t -> s_offset (ss2 t') = s_offset (ss t'));
  rm_cells t' a : a ∈ g_keys v (None, t') ->
    m_keys (ps_mem st2) !! a = (if decide (t' = t) then grown bytes else id) <$> m_keys (ps_mem st) !! a;
  rm_brk : m_brk (ps_mem st2) = m_brk (ps_mem st);
  rm_static a : static st v a -> static st2 v2 a /\
    ((forall t', a ∉ g_keys v (None, t')) -> m_keys (ps_mem st2) !! a = m_keys (ps_mem st) !! a);
}.

Lemma move_ranges : exists keys' set st2 v2,
  grow_private_set bytes (ps_mem st) (global_keys st t) = Ret (ps_mem st <| m_keys := keys' |>, set) /\
  grow_screen_specific_set t bytes
    (st <| ps_mem := ps_mem st <| m_keys := keys' |> |> <| global_keys ::= set_of t (fun _ => set) |>) = Ret st2 /\
  ranges_moved st2 v2.
Proof.
  assert (s_offset (global_keys st t) = s_offset (global_keys st1 t)) as Eo.
  { rewrite (mu_gk _ _ _ _ _ _ Hmu), decide_False by done. cbn. lia. }
  destruct (grow_type st v t (mu_wf _ _ _ _ _ _ Hmu) Htx) as (keys' & set & st2 & v2 & E1 & Es & Hu & E2 & Hwf2 & Hra).
  { by rewrite Eo. }
  { intros gpu i ss Hss. destruct (mu_sets _ _ _ _ _ _ Hmu _ _ _ Hss) as (ss1 & H1 & Ho).
    destruct (Ho t) as [_ ->]; [|done]. by eapply Hns. }
  exists keys', set, st2, v2. split; [done|]. split; [done|].
  pose proof (ra_ghost _ _ _ _ _ _ _ Hra) as Eg. split.
  - done.
  - intros t'. rewrite (ra_gk _ _ _ _ _ _ _ Hra). cbn. unfold set_of. by rewrite Es.
  - by rewrite (ra_objects _ _ _ _ _ _ _ Hra).
  - intros sl. apply (ra_slots _ _ _ _ _ _ _ Hra).
  - by rewrite Eg.
  - intros t'. rewrite Eg. cbn. case_decide; [done|lia].
  - intros gpu i t' [ss2 H2]. destruct (ra_sets _ _ _ _ _ _ _ Hra _ _ _ H2) as (ss & Hss & _).
    case_decide as Hd.
    + subst t'. rewrite (ra_in _ _ _ _ _ _ _ Hra (gpu, i)); [done|].
      unfold sets_at in Hss. cbn -[screen_at]. change (screen_at st gpu i) with (screen_at (st <| ps_mem := ps_mem st <| m_keys := keys' |> |> <| global_keys ::= set_of t (fun _ => set) |>) gpu i).
      destruct (screen_at _ gpu i); [by eexists|done].
    + rewrite (ra_out _ _ _ _ _ _ _ Hra) by tauto. cbn. lia.
  - intros gpu i ss2 H2. destruct (ra_sets _ _ _ _ _ _ _ Hra _ _ _ H2) as (ss & Hss & Hs & _).
    exists ss. split; [exact Hss|]. intros t'. destruct (Hs t') as [Ec F]. split; [done|]. intros Hne. by rewrite F.
  - intros t' a Ha. rewrite (ra_keys _ _ _ _ _ _ _ Hra).
    + cbn. destruct (decide (t' = t)) as [->|Hne].
      * rewrite Hu. by rewrite decide_True.
      * rewrite (updated_other _ _ _ _ _ Hu); [by rewrite option_fmap_id|].
        intros Ha'. apply Hne. pose proof (wf_disjoint _ _ (mu_wf _ _ _ _ _ _ Hmu) _ _ _ Ha Ha'). congruence.
    + intros gpu i Ha'. by pose proof (wf_disjoint _ _ (mu_wf _ _ _ _ _ _ Hmu) _ _ _ Ha Ha').
  - by rewrite (ra_brk _ _ _ _ _ _ _ Hra).
  - intros a Ha. assert (static (st <| ps_mem := ps_mem st <| m_keys := keys' |> |> <| global_keys ::= set_of t (fun _ => set) |>)
      (base_up t bytes v) a) as Ha' by exact Ha.
    destruct (raised_static _ _ _ _ _ _ _ _ Hra Ha') as [H1 H2]. split; [done|]. intros Hun.
    rewrite H2. cbn. by eapply updated_other.
Qed.

Context (Hclear : forall sl, slot_type sl = t -> cleared Fixup_dixReallocPrivates bytes st1 v1 sl).

(** The objects of the type are as they were, and there is room in them. *)
Lemma move_ready st2 v2 sl : ranges_moved st2 v2 -> slot_type sl = t ->
  ready Fixup_dixMovePrivates bytes st2 v2 sl.
Proof.
  intros Hrm Hsl p Hp. rewrite (rm_slots _ _ Hrm) in Hp. pose proof Hp as Hp1.
  rewrite (mu_todo _ _ _ _ _ _ Hmu) in Hp1 by by rewrite Hsl.
  assert (g_end v2 sl = g_end v1 sl) as Ee.
  { destruct (rm_ghost _ _ Hrm) as (_ & Ed & Ep & _), (mu_same _ _ _ _ _ _ Hmu) as [_ Ed'].
    unfold g_end. rewrite Ed, Ep, Ed', (mu_pos _ _ _ _ _ _ Hmu _ _ Hp), decide_False by by rewrite Hsl. lia. }
  destruct (sb_data _ _ Hst1 _ _ Hp1) as [_ Eo]. rewrite Hsl in Eo.
  pose proof (Hclear sl Hsl p Hp1) as Hc.
  pose proof (wf_data _ _ (sb_wf _ _ Hst1) _ _ Hp1) as (Hpos & _ & _).
  assert (g_end v1 sl + bytes <= p_len p) as Hroom.
  { unfold cleared_data in Hc. apply (f_equal length) in Hc. rewrite length_take, length_drop in Hc.
    unfold zeros in Hc. rewrite repeat_length in Hc. unfold p_len, g_end in *. lia. }
  pose proof (global_offset_range _ _ t (sb_wf _ _ Hst1)).
  assert (code_offset st2 sl = s_offset (global_keys st1 t) + bytes) as ->.
  { assert (s_offset (global_keys st2 t) = s_offset (global_keys st1 t) + bytes) as Eg.
    { rewrite (rm_gk _ _ Hrm), decide_True by done. cbn.
      rewrite (mu_gk _ _ _ _ _ _ Hmu), decide_False by done. cbn. lia. }
    destruct sl as [| | |i|]; cbn [slot_type] in Hsl; try (cbn [code_offset slot_type]; by rewrite Hsl).
    cbn [code_offset]. destruct (sets_at st2 false i) as [ss2|] eqn:Es2.
    - destruct (wf_screen _ _ (rm_wf _ _ Hrm) _ _ _ PRIVATE_COLORMAP Es2) as [_ Hti].
      rewrite (wf_specific _ _ (rm_wf _ _ Hrm)) in Hti by done. cbn in Hti. rewrite Hti, Hsl.
      rewrite (rm_low _ _ Hrm) by by eexists. rewrite decide_True by done.
      destruct (rm_sets _ _ Hrm _ _ _ Es2) as (ss & Ess & _).
      rewrite (mu_low _ _ _ _ _ _ Hmu) by by eexists. rewrite decide_False by done.
      destruct (mu_sets _ _ _ _ _ _ Hmu _ _ _ Ess) as (ss1 & Ess1 & _).
      rewrite (sb_low _ _ Hst1) by by eexists. lia.
    - rewrite <- (rm_slots _ _ Hrm) in Hp. cbn in Hp. unfold sets_at, screen_at in Es2.
      by destruct (ps_screens st2 !! i). }
  rewrite Ee. cbn [moves]. split_and!; try lia. rewrite i32_small; lia.
Qed.

Lemma decide_cons (t' : DevPrivateType) {A} (x y : A) :
  (if decide (t' ∈ t :: D) then x else y) = if decide (t' = t) then x else if decide (t' ∈ D) then x else y.
Proof using Type.
  destruct (decide (t' = t)) as [->|Hne]; [by rewrite decide_True by left|].
  apply decide_ext. rewrite elem_of_cons. tauto.
Qed.

(** The objects have moved, too. *)
Lemma move_objects st2 v2 st3 v3 :
  ranges_moved st2 v2 -> wf st3 v3 ->
  kept bytes (fun sl => slot_type sl = t /\ is_Some (slot_get st2 sl)) st2 v2 st3 v3 ->
  (forall sl, slot_type sl = t -> cleared Fixup_dixMovePrivates bytes st3 v3 sl) ->
  moved_up bytes (t :: D) st1 v1 st3 v3.
Proof.
  intros Hrm Hwf3 Hk Hcl. destruct (kp_ghost _ _ _ _ _ _ Hk) as (Eb & El & Ed & Et).
  destruct (rm_ghost _ _ Hrm) as (Rt & Rd & Rp & Rk), (mu_same _ _ _ _ _ _ Hmu) as [Mt Md].
  assert (Hdom : forall sl, is_Some (slot_get st3 sl) <-> is_Some (slot_get st sl)).
  { intros sl. by rewrite (kp_dom _ _ _ _ _ _ Hk), (rm_slots _ _ Hrm). }
  split.
  - done.
  - intros t'. rewrite (kp_gk _ _ _ _ _ _ Hk), (rm_gk _ _ Hrm), decide_cons.
    destruct (decide (t' = t)) as [->|Hne]; [|apply (mu_gk _ _ _ _ _ _ Hmu)].
    rewrite (mu_gk _ _ _ _ _ _ Hmu), decide_False by done. cbn. by rewrite Z.add_0_r.
  - by rewrite (kp_objects _ _ _ _ _ _ Hk), (rm_objects _ _ Hrm), (mu_objects _ _ _ _ _ _ Hmu).
  - intros t'. rewrite Eb, (rm_base _ _ Hrm), (mu_base _ _ _ _ _ _ Hmu), decide_cons.
    destruct (decide (t' = t)) as [->|Hne]; [rewrite decide_False by done|]; lia.
  - intros gpu i t' [ss3 Hss3]. destruct (kp_sets _ _ _ _ _ _ Hk _ _ _ Hss3) as (ss2 & Hss2 & _).
    destruct (rm_sets _ _ Hrm _ _ _ Hss2) as (ss & Hss & _).
    rewrite El, (rm_low _ _ Hrm), (mu_low _ _ _ _ _ _ Hmu), decide_cons by by eexists.
    destruct (decide (t' = t)) as [->|Hne]; [rewrite decide_False by done|]; lia.
  - split; congruence.
  - intros sl p3 Hp3. destruct (proj1 (Hdom sl) (ex_intro _ _ Hp3)) as [p Hp]. rewrite decide_cons.
    destruct (decide (slot_type sl = t)) as [Hsl|Hne].
    + rewrite (kp_in _ _ _ _ _ _ Hk) by (split; [done|rewrite (rm_slots _ _ Hrm); by eexists]).
      rewrite Rp, (mu_pos _ _ _ _ _ _ Hmu _ _ Hp), decide_False by by rewrite Hsl. lia.
    + destruct (kp_out _ _ _ _ _ _ Hk sl) as [_ ->]; [by intros [? _]|]. by rewrite Rp, (mu_pos _ _ _ _ _ _ Hmu _ _ Hp).
  - intros t'. by rewrite (kp_global _ _ _ _ _ _ Hk), Rk, (mu_keys _ _ _ _ _ _ Hmu).
  - intros t' a Ha. rewrite <- (mu_keys _ _ _ _ _ _ Hmu) in Ha.
    assert (static st2 v2 a) as Hs2 by (eapply static_global; [apply (rm_wf _ _ Hrm)|by rewrite Rk]).
    destruct (kp_static _ _ _ _ _ _ Hk _ Hs2) as [_ ->]. rewrite (rm_cells _ _ Hrm _ _ Ha), decide_cons.
    rewrite (mu_keys _ _ _ _ _ _ Hmu) in Ha. rewrite (mu_cells _ _ _ _ _ _ Hmu _ _ Ha).
    destruct (decide (t' = t)) as [->|Hne]; [rewrite decide_False by done|]; by rewrite option_fmap_id.
  - intros a Ha. destruct (mu_static _ _ _ _ _ _ Hmu _ Ha) as [Hs E1]. destruct (rm_static _ _ Hrm _ Hs) as [Hs2 E2].
    destruct (kp_static _ _ _ _ _ _ Hk _ Hs2) as [Hs3 E3]. split; [done|]. intros Hun.
    rewrite E3, E2, E1; [done|done|]. intros t'. rewrite (mu_keys _ _ _ _ _ _ Hmu). apply Hun.
  - pose proof (kp_brk _ _ _ _ _ _ Hk) as H. rewrite (rm_brk _ _ Hrm) in H. pose proof (mu_brk _ _ _ _ _ _ Hmu). lia.
  - intros sl. by rewrite Hdom, (mu_dom _ _ _ _ _ _ Hmu).
  - intros gpu i ss3 Hss3. destruct (kp_sets _ _ _ _ _ _ Hk _ _ _ Hss3) as (ss2 & Hss2 & F2).
    destruct (rm_sets _ _ Hrm _ _ _ Hss2) as (ss & Hss & F1).
    destruct (mu_sets _ _ _ _ _ _ Hmu _ _ _ Hss) as (ss1 & Hss1 & F0). exists ss1. split; [done|].
    intros t'. destruct (F2 t') as [-> ->], (F1 t') as [-> F1'], (F0 t') as [-> F0']. split; [done|].
    intros [Hne HD]%not_elem_of_cons. by rewrite F1', F0'.
  - intros sl [Hne HD]%not_elem_of_cons. destruct (kp_out _ _ _ _ _ _ Hk sl) as [-> _]; [by intros [? _]|].
    rewrite (rm_slots _ _ Hrm). by apply (mu_todo _ _ _ _ _ _ Hmu).
  - intros sl p Hsl Hp. destruct (decide (slot_type sl = t)) as [E|Hne].
    + exact (Hcl sl E p Hp).
    + apply elem_of_cons in Hsl as [?|Hsl]; [done|].
      destruct (kp_out _ _ _ _ _ _ Hk sl) as [E _]; [by intros [? _]|]. rewrite E, (rm_slots _ _ Hrm) in Hp.
      by eapply (mu_done _ _ _ _ _ _ Hmu).
Qed.

Lemma move_type_spec : xselinux_private t = true ->
  exists st3 v3, move_up env bytes st t = Ret st3 /\ moved_up bytes (t :: D) st1 v1 st3 v3.
Proof.
  intros Ex. destruct move_ranges as (keys' & set & st2 & v2 & E1 & E2 & Hrm).
  unfold move_up. rewrite Ex, E1. cbn [obind]. rewrite E2. cbn [obind].
  destruct (allocated_early t) eqn:Ee.
  - destruct (fixup_early_spec env Fixup_dixMovePrivates bytes Hb t st2 v2 Ee (rm_wf _ _ Hrm))
      as (st3 & ok & v3 & -> & Hwf3 & Hk & Hmove & Hcl); [intros sl; by apply move_ready|].
    cbn [obind]. exists st3, v3. split; [done|]. eapply move_objects; try done. apply Hcl. destruct ok; [done|]. by destruct (Hmove eq_refl).
  - assert (forall sl, slot_type sl <> t) as Hno by (intros [] <-; done).
    exists st2, v2. split; [done|]. eapply move_objects; [done|apply Hrm| |].
    + eapply kept_iff, visit_kept_refl. intros sl. split; [done|]. intros [E _]. by apply Hno in E.
    + intros sl E. by apply Hno in E.
Qed.
End Step.
End MoveType.

Section MoveAll.
Context (env : heap_env) (bytes : Z) (Hb : 0 < bytes).

Lemma moves_up_spec st1 v1 ts : NoDup ts -> forall D st v,
  stable st1 v1 -> moved_up bytes D st1 v1 st v -> (forall t, t ∈ ts -> t ∉ D) ->
  (forall t, s_offset (global_keys st1 t) + bytes < 2147483648) ->
  (forall gpu i ss t, sets_at st1 gpu i = Some ss -> s_offset (ss t) + bytes < 2147483648) ->
  (forall sl, cleared Fixup_dixReallocPrivates bytes st1 v1 sl) ->
  exists D' st' v', for_each (move_up env bytes) st ts = Ret st' /\ moved_up bytes D' st1 v1 st' v' /\
    forall t, t ∈ D' <-> t ∈ D \/ (t ∈ ts /\ xselinux_private t = true).
Proof using Hb.
  induction 1 as [|t ts Ht Hnd IH]; intros D st v Hst Hmu HD Hn Hns Hcl.
  { exists D, st, v. split_and!; [done..|]. intros t. split; [by left|]. by intros [?|[?%not_elem_of_nil _]]. }
  cbn [for_each]. destruct (xselinux_private t) eqn:Ex.
  - destruct (move_type_spec env bytes Hb D st1 v1 st v t Hst Hmu) as (st2 & v2 & -> & Hmu2); try done.
    { apply HD. left. } { by intros ->. } { intros gpu i ss. apply Hns. }
    cbn [obind]. destruct (IH (t :: D) st2 v2) as (D' & st' & v' & -> & Hmu' & HD'); try done.
    { intros t' Ht' [->|H]%elem_of_cons; [done|]. by apply (HD t'); [right|]. }
    exists D', st', v'. split_and!; [done..|]. intros t'. rewrite HD', !elem_of_cons. split.
    + intros [[->|H]|[H1 H2]]; [by right; split; [left|]|by left|by right; split; [right|]].
    + intros [H|[[->|H1] H2]]; [by left; right|by left; left|by right].
  - unfold move_up at 1. rewrite Ex. cbn [obind].
    destruct (IH D st v) as (D' & st' & v' & -> & Hmu' & HD'); try done.
    { intros t' Ht'. apply HD. by right. }
    exists D', st', v'. split_and!; [done..|]. intros t'. rewrite HD', !elem_of_cons. split.
    + intros [H|[H1 H2]]; [by left|by right; split; [right|]].
    + intros [H|[[->|H1] H2]]; [by left|congruence|by right].
Qed.
End MoveAll.

(** ** The key *)

Definition selinux_added (key bytes : Z) (v : ghost) : ghost :=
  v <| g_keys ::= fun keys o => if decide (o = (None, PRIVATE_XSELINUX)) then key :: keys o else keys o |>
    <| g_total ::= fun total => total + bytes |>.

Definition with_selinux (key size : Z) (st : PrivState) : PrivState :=
  st <| ps_mem ::= fun m => m <| m_keys ::= insert key
          (KeyRec 0 size true false PRIVATE_XSELINUX (s_key (global_keys st PRIVATE_XSELINUX))) |> |>
     <| global_keys ::= set_of PRIVATE_XSELINUX (fun set => set <| s_key := key |>) |>.

Section AddSelinux.
Context (st : PrivState) (v : ghost) (key size : Z).
Notation st' := (with_selinux key size st).
Notation v' := (selinux_added key (key_bytes size) v).
Notation keys := (m_keys (ps_mem st)).
Context (Hwf : wf st v) (Hkey : static st v key) (Hnew : forall t', key ∉ g_keys v (None, t'))
  (Hsize : 0 <= size <= 2147483640) (Hn : g_total v + key_bytes size < 2147483648).

Lemma selinux_cell o a : a ∈ g_keys v o -> m_keys (ps_mem st') !! a = keys !! a.
Proof using Hkey Hnew.
  intros Ha. cbn. rewrite lookup_insert_ne; [done|].
  intros E. eapply (added_unlisted st v key Hkey Hnew o). by rewrite E.
Qed.

Lemma selinux_wf : wf st' v'.
Proof.
  assert (Hl : forall o p, linked keys p (g_keys v o) -> linked (m_keys (ps_mem st')) p (g_keys v o)).
  { intros o p. apply linked_next. intros a Ha. by rewrite (selinux_cell o). }
  assert (Hti : forall o t hi lo, tiled keys t hi (g_keys v o) lo -> tiled (m_keys (ps_mem st')) t hi (g_keys v o) lo).
  { intros o t hi lo. apply tiled_ext. intros a Ha. by apply (selinux_cell o). }
  assert (Hgk : forall t, t <> PRIVATE_XSELINUX -> global_keys st' t = global_keys st t)
    by (intros t Ht; cbn; unfold set_of; by rewrite decide_False).
  assert (Hk : forall o, o <> (None, PRIVATE_XSELINUX) -> g_keys v' o = g_keys v o)
    by (intros o Ho; cbn; by rewrite decide_False).
  assert (Hel : forall o a, a ∈ g_keys v' o -> a ∈ g_keys v o \/ (a = key /\ o = (None, PRIVATE_XSELINUX))).
  { intros o a. cbn. case_decide; [|by left]. intros [->|Ha]%elem_of_cons; [by right|by left]. }
  assert (Hgo : forall t, s_offset (global_keys st' t) = s_offset (global_keys st t))
    by (intros t; cbn; unfold set_of; by case_decide).
  split.
  - intros t Ht. rewrite Hgk, Hk by (done || congruence). destruct (wf_global _ _ Hwf t Ht). split; [by apply Hl|by apply Hti].
  - destruct (wf_selinux _ _ Hwf) as (H1 & H2 & H3). rewrite Hgo. cbn -[linked flat]. rewrite set_of_eq.
    split_and!; [|..|done].
    + split_and!; [done|by destruct Hkey as ([? ?] & _); lia|].
      eexists. split; [apply lookup_insert_eq|]. by apply Hl.
    + eexists. split; [apply lookup_insert_eq|]. cbn [k_initialized k_type k_size k_offset].
      do 2 (split; [done|]). split; [exact Hsize|]. split; [done|].
      eapply flat_ext; [intros a Ha; by apply (selinux_cell _ _ Ha)|].
      by replace (g_total v + key_bytes size - key_bytes size) with (g_total v) by lia.
  - intros gpu i ss t Hss. destruct (wf_screen _ _ Hwf gpu i ss t Hss). rewrite Hk by done. split; [by apply Hl|by apply Hti].
  - intros gpu i t H. rewrite Hk by done. by apply (wf_specific _ _ Hwf).
  - intros o1 o2 a [H1|[-> ->]]%Hel [H2|[E ->]]%Hel.
    + by eapply (wf_disjoint _ _ Hwf).
    + subst a. by eapply (added_unlisted st v key) in H1.
    + by eapply (added_unlisted st v key) in H2.
    + done.
  - apply (wf_brk _ _ Hwf).
  - apply (wf_low _ _ Hwf).
  - destruct (wf_small _ _ Hwf) as (H1 & H2 & H3). split_and!; [done| |done]. intros t. by rewrite Hgo.
  - intros o a [Ha|[-> ->]]%Hel; [by apply (wf_place _ _ Hwf)|].
    destruct Hkey as (H1 & H2 & _). split; [done|]. intros sl p Hp Hin. by destruct (H2 sl p Hp).
  - apply (wf_block _ _ Hwf).
  - apply (wf_slots _ _ Hwf).
  - apply (wf_data _ _ Hwf).
Qed.
End AddSelinux.

(** What a successful registration of a key of the security extension does. *)
Record selinux_registered (key size : Z) (st : PrivState) (v : ghost) (st' : PrivState) (v' : ghost) : Prop := SelinuxRegistered {
  sr_stable : stable st' v';
  sr_dom sl : is_Some (slot_get st' sl) <-> is_Some (slot_get st sl);
  sr_objects : ps_objects st' = ps_objects st;
  sr_keys t : g_keys v' (None, t) =
    if decide (t = PRIVATE_XSELINUX) then key :: g_keys v (None, t) else g_keys v (None, t);
  sr_new : exists next, m_keys (ps_mem st') !! key = Some (KeyRec 0 size true false PRIVATE_XSELINUX next);
  sr_old t a : a ∈ g_keys v (None, t) -> m_keys (ps_mem st') !! a =
    (if xselinux_private t then grown (key_bytes size) else id) <$> m_keys (ps_mem st) !! a;
  sr_base t : g_base v' t = g_base v t + (if xselinux_private t then key_bytes size else 0);
  sr_data : g_data v' = g_data v;
  sr_head sl p : slot_get st' sl = Some p -> take (Z.to_nat (key_bytes size)) (p_data p) = zeros (key_bytes size);
  sr_sets t : s_offset (global_keys st' t) =
      s_offset (global_keys st t) + (if xselinux_private t then key_bytes size else 0) /\
    s_created (global_keys st' t) = s_created (global_keys st t);
  sr_screens : screens_same (fun t => xselinux_private t = true) st st';
  sr_brk : m_brk (ps_mem st) <= m_brk (ps_mem st');
}.

Section RegisterSelinux.
Context (env : heap_env) (st : PrivState) (v : ghost) (key : Z) (r : DevPrivateKeyRec) (size : Z).
Notation bytes := (key_bytes size).
Context (Hst : stable st v)
  (Hr : m_keys (ps_mem st) !! key = Some r) (Hi : k_initialized r = false) (Hkey : static st v key)
  (Hsize : 0 <= size <= 2147483640)
  (Hn : forall t, s_offset (global_keys st t) + bytes < 2147483648)
  (Hns : forall gpu i ss t, sets_at st gpu i = Some ss -> s_offset (ss t) + bytes < 2147483648)
  (Htotal : g_total v + bytes < 2147483648)
  (Hearly : forall t, xselinux_private t = true -> allocated_early t = true \/ s_created (global_keys st t) = 0).

(** The state when everything has moved, with the new key. *)
Lemma selinux_stable D st1 v1 st2 v2 :
  stable st1 v1 -> moved_up bytes D st1 v1 st2 v2 -> (forall t, t ∈ D <-> xselinux_private t = true) ->
  static st2 v2 key -> (forall t, key ∉ g_keys v2 (None, t)) -> g_total v1 + bytes < 2147483648 ->
  stable (with_selinux key size st2) (selinux_added key bytes v2).
Proof using Hsize.
  intros Hst1 Hmu HD Hkey2 Hun Ht.
  assert (forall t, (if decide (t ∈ D) then bytes else 0) = if xselinux_private t then bytes else 0) as ED.
  { intros t. destruct (xselinux_private t) eqn:E; [by rewrite decide_True by by apply HD|].
    rewrite decide_False; [done|]. rewrite HD. congruence. }
  destruct (mu_same _ _ _ _ _ _ Hmu) as [Et Ed].
  assert (Hgo : forall t, s_offset (global_keys (with_selinux key size st2) t) =
    s_offset (global_keys st1 t) + if xselinux_private t then bytes else 0).
  { intros t. transitivity (s_offset (global_keys st2 t)); [cbn; unfold set_of; by case_decide|].
    rewrite (mu_gk _ _ _ _ _ _ Hmu), <- ED. done. }
  split.
  - apply selinux_wf; try done; [apply Hmu|by rewrite Et].
  - intros t Hne. cbn. rewrite (mu_base _ _ _ _ _ _ Hmu), ED, Et, (sb_base _ _ Hst1) by done.
    by destruct (xselinux_private t).
  - intros gpu i t Hs. change (is_Some (sets_at st2 gpu i)) in Hs. rewrite Hgo. cbn.
    rewrite (mu_low _ _ _ _ _ _ Hmu), ED by done. destruct Hs as [ss Hss].
    destruct (mu_sets _ _ _ _ _ _ Hmu _ _ _ Hss) as (ss1 & H1 & _). by rewrite (sb_low _ _ Hst1) by by eexists.
  - intros sl p Hp. change (slot_get st2 sl = Some p) in Hp. rewrite Hgo. unfold g_end. cbn.
    rewrite (mu_pos _ _ _ _ _ _ Hmu _ _ Hp), (mu_base _ _ _ _ _ _ Hmu), !ED, Ed.
    destruct (proj1 (mu_dom _ _ _ _ _ _ Hmu sl) (ex_intro _ _ Hp)) as [p1 Hp1].
    destruct (sb_data _ _ Hst1 _ _ Hp1) as [E1 E2]. unfold g_end in E2. split; lia.
Qed.

Lemma register_selinux : exists st' ok v',
  dixRegisterPrivateKey env st key PRIVATE_XSELINUX size = Ret (st', ok) /\
  if ok : bool then selinux_registered key size st v st' v' else room_failed st v st' v' /\ no_memory env.
Proof.
  destruct (key_bytes_bounds _ Hsize) as [Hb _].
  unfold dixRegisterPrivateKey. rewrite Hr. cbn [obind_opt]. rewrite Hi, decide_True by done.
  destruct (make_room_all_spec env bytes ltac:(lia) private_types private_types_NoDup st v Hst)
    as (st1 & ok & v1 & -> & Hst1 & Hk1 & Hroom & Hmem); [intros t _; apply Hearly|done|]. cbn [obind].
  destruct (kp_ghost _ _ _ _ _ _ Hk1) as (Eb & El & Ed & Et). pose proof (kp_gk _ _ _ _ _ _ Hk1) as Egk.
  destruct ok; cbn [negb].
  2:{ exists st1, false, v1. split; [done|]. split; [split; try done; try apply Hk1; intros D; by eapply kept_screens|by apply Hmem]. }
  destruct (kp_static _ _ _ _ _ _ Hk1 _ Hkey) as [Hkey1 Hr1]. rewrite Hr in Hr1.
  assert (Hunl : forall t, key ∉ g_keys v1 (None, t)).
  { intros t. rewrite (kp_global _ _ _ _ _ _ Hk1). eapply (unlisted st); [apply Hst|by intros ??? [=]|exact Hr|done]. }
  destruct (moves_up_spec env bytes ltac:(lia) st1 v1 private_types private_types_NoDup [] st1 v1 Hst1)
    as (D & st2 & v2 & E2 & Hmu & HD).
  { apply moved_up_start, Hst1. } { intros t _. apply not_elem_of_nil. } { intros t. by rewrite Egk. }
  { intros gpu i ss t Hss. destruct (kp_sets _ _ _ _ _ _ Hk1 _ _ _ Hss) as (ss0 & H0 & E0).
    destruct (E0 t) as [-> _]. by eapply Hns. }
  { intros sl. apply Hroom; [done|apply private_types_all]. }
  assert (HD' : forall t, t ∈ D <-> xselinux_private t = true).
  { intros t. rewrite HD. split; [by intros [?%not_elem_of_nil|[_ ?]]|]. intros H. right. split; [apply private_types_all|done]. }
  destruct (mu_static _ _ _ _ _ _ Hmu _ Hkey1) as [Hkey2 Hr2]. specialize (Hr2 Hunl). rewrite Hr1 in Hr2.
  rewrite E2. cbn [obind]. unfold setup_key. rewrite Hr2. cbn [obind]. rewrite (i32_small size) by lia.
  eexists (with_selinux key size st2), true, (selinux_added key bytes v2). split; [reflexivity|].
  assert (Hunl2 : forall t, key ∉ g_keys v2 (None, t)) by (intros t; by rewrite (mu_keys _ _ _ _ _ _ Hmu)).
  assert (Hgk0 : forall t, global_keys (with_selinux key size st2) t =
     if decide (t = PRIVATE_XSELINUX) then global_keys st2 t <| s_key := key |> else global_keys st2 t) by done.
  split.
  - eapply selinux_stable; try done. by rewrite Et.
  - intros sl. transitivity (is_Some (slot_get st2 sl)); [done|].
    by rewrite (mu_dom _ _ _ _ _ _ Hmu), (kp_dom _ _ _ _ _ _ Hk1).
  - transitivity (ps_objects st2); [done|]. by rewrite (mu_objects _ _ _ _ _ _ Hmu), (kp_objects _ _ _ _ _ _ Hk1).
  - intros t. cbn. rewrite (mu_keys _ _ _ _ _ _ Hmu), (kp_global _ _ _ _ _ _ Hk1).
    case_decide; case_decide; try congruence.
  - eexists. cbn. by rewrite lookup_insert_eq.
  - intros t a Ha. assert (static st v a) as Hsa by by eapply static_global; [apply Hst|].
    destruct (kp_static _ _ _ _ _ _ Hk1 _ Hsa) as [_ E1]. rewrite <- E1.
    rewrite <- (kp_global _ _ _ _ _ _ Hk1) in Ha. pose proof Ha as Ha1. rewrite <- (mu_keys _ _ _ _ _ _ Hmu) in Ha.
    rewrite (selinux_cell st2 v2 key size Hkey2 Hunl2 _ _ Ha), (mu_cells _ _ _ _ _ _ Hmu _ _ Ha1).
    destruct (xselinux_private t) eqn:E; [by rewrite decide_True by by apply HD'|].
    rewrite decide_False; [done|]. rewrite HD'. congruence.
  - intros t. cbn. rewrite (mu_base _ _ _ _ _ _ Hmu), Eb. f_equal.
    destruct (xselinux_private t) eqn:E; [by rewrite decide_True by by apply HD'|].
    rewrite decide_False; [done|]. rewrite HD'. congruence.
  - cbn. destruct (mu_same _ _ _ _ _ _ Hmu) as [_ ->]. done.
  - intros sl p Hp. eapply (mu_done _ _ _ _ _ _ Hmu sl); [|exact Hp]. apply HD', slot_type_selinux.
  - intros t. assert (s_offset (global_keys (with_selinux key size st2) t) = s_offset (global_keys st2 t) /\
      s_created (global_keys (with_selinux key size st2) t) = s_created (global_keys st2 t)) as [-> ->]
      by (rewrite Hgk0; by case_decide).
    rewrite (mu_gk _ _ _ _ _ _ Hmu), Egk. split; [|done]. cbn. f_equal.
    destruct (xselinux_private t) eqn:E; [by rewrite decide_True by by apply HD'|].
    rewrite decide_False; [done|]. rewrite HD'. congruence.
  - intros gpu i ss Hss. change (sets_at st2 gpu i = Some ss) in Hss.
    destruct (mu_sets _ _ _ _ _ _ Hmu _ _ _ Hss) as (ss1 & H1 & F1).
    destruct (kp_sets _ _ _ _ _ _ Hk1 _ _ _ H1) as (ss0 & H0 & F0). exists ss0. split; [done|].
    intros t. destruct (F1 t) as [-> F], (F0 t) as [Eo ->]. split; [done|]. intros Hx. rewrite F; [done|]. by rewrite HD'.
  - etransitivity; [exact (kp_brk _ _ _ _ _ _ Hk1)|]. apply (mu_brk _ _ _ _ _ _ Hmu).
Qed.
End RegisterSelinux.
