(* ===== verification/PrivateUse.v ===== *)
(** * Keys and the storage of objects, as their users see them

    Between operations the private storage is in a state of [priv_ok].  The keys
    that are registered for a type have a range of the storage of each object of
    the type, of their own: what is stored through one is not seen by others,
    and stays when keys are registered. *)

From S2P Require Import Prelude Wire Resource Privates PrivateLayout PrivateState PrivateFixup.
From S2P Require Import PrivateVisit PrivateScreen PrivatePhase PrivateGrow PrivateRegister PrivateMove.

Definition priv_ok (st : PrivState) : Prop := exists v, stable st v.

(** The key is in the list of keys of all objects of the type. *)
Definition registered (st : PrivState) (t : DevPrivateType) (a : Z) : Prop :=
  exists l, linked (m_keys (ps_mem st)) (s_key (global_keys st t)) l /\ a ∈ l.

(** Objects of type [t'] have storage for the keys of [t]. *)
Definition serves (t t' : DevPrivateType) : Prop :=
  t' = t \/ t = PRIVATE_XSELINUX /\ xselinux_private t' = true.

(** What an object holds for a key. *)
Definition key_data (r : DevPrivateKeyRec) (p : Privates) : list Z :=
  take (Z.to_nat (key_bytes (k_size r))) (drop (Z.to_nat (k_offset r)) (p_data p)).
Definition private_of (st : PrivState) (sl : slot) (a : Z) : option (list Z) :=
  p ← slot_get st sl; r ← key_at (ps_mem st) a; Some (key_data r p).

(** ** Keys that are registered *)

Lemma global_linked st v t : wf st v -> linked (m_keys (ps_mem st)) (s_key (global_keys st t)) (g_keys v (None, t)).
Proof.
  intros Hwf. destruct (decide (t = PRIVATE_XSELINUX)) as [->|Ht].
  - apply (wf_selinux _ _ Hwf).
  - by apply (wf_global _ _ Hwf).
Qed.

Lemma registered_elem st v t a : wf st v -> registered st t a <-> a ∈ g_keys v (None, t).
Proof.
  intros Hwf. split.
  - intros (l & Hl & Ha). by rewrite (linked_unique _ _ _ _ (global_linked _ _ t Hwf) Hl).
  - intros Ha. eexists. split; [by apply global_linked|done].
Qed.

(** A key's record and its range: that of the security extension's keys starts
    at 0, that of others is behind theirs. *)
Record key_placed (st : PrivState) (v : ghost) (t : DevPrivateType) (r : DevPrivateKeyRec) : Prop := KeyPlaced {
  pl_init : k_initialized r = true;
  pl_type : k_type r = t;
  pl_size : 0 <= k_size r <= 2147483640;
  pl_range : if decide (t = PRIVATE_XSELINUX) then k_offset r = 0 /\ key_bytes (k_size r) <= g_total v
    else g_base v t <= k_offset r /\ k_offset r + key_bytes (k_size r) <= s_offset (global_keys st t);
}.

Lemma flat_key keys l total a : flat keys l total -> a ∈ l ->
  exists r, keys !! a = Some r /\ k_initialized r = true /\ k_type r = PRIVATE_XSELINUX /\
    0 <= k_size r <= 2147483640 /\ k_offset r = 0 /\ key_bytes (k_size r) <= total.
Proof.
  revert total. induction l as [|b l IH]; intros total; [by intros _ ?%not_elem_of_nil|]. cbn.
  intros (r & Hr & Hi & Ht & Hs & Ho & Hf) [->|Ha]%elem_of_cons.
  - exists r. split_and!; try done; [lia..|]. pose proof (flat_le _ _ _ Hf). lia.
  - destruct (IH _ Hf Ha) as (r' & H1 & H2 & H3 & H4 & H5 & H6). exists r'. split_and!; try done; try lia.
    pose proof (key_bytes_bounds _ Hs). lia.
Qed.

Lemma registered_key st v t a : wf st v -> registered st t a ->
  exists r, m_keys (ps_mem st) !! a = Some r /\ key_placed st v t r.
Proof.
  intros Hwf Ha%(registered_elem _ _ _ _ Hwf). destruct (decide (t = PRIVATE_XSELINUX)) as [->|Ht].
  - destruct (wf_selinux _ _ Hwf) as (_ & Hf & _).
    destruct (flat_key _ _ _ _ Hf Ha) as (r & Hr & Hi & Hx & Hs & Ho & Hb).
    exists r. split; [done|]. by split.
  - destruct (wf_global _ _ Hwf t Ht) as [_ Hti].
    destruct (tiled_key _ _ _ _ _ _ Hti Ha) as (r & Hr & Hi & Hx & Hs & Hlo & Hhi).
    exists r. split; [done|]. split; try done. by rewrite decide_False.
Qed.

(** The space of the security extension's keys in an object. *)
Lemma slot_base st v sl p : stable st v -> slot_get st sl = Some p ->
  g_pos v sl = g_total v /\ g_end v sl = s_offset (global_keys st (slot_type sl)) /\
  0 <= g_total v <= g_end v sl /\ g_end v sl <= p_len p.
Proof.
  intros Hst Hp. destruct (sb_data _ _ Hst _ _ Hp) as [E1 E2].
  destruct (wf_data _ _ (sb_wf _ _ Hst) _ _ Hp) as (H1 & H2 & _).
  rewrite (sb_base _ _ Hst), slot_type_selinux in E1 by apply slot_type_regular.
  unfold g_end in *. split_and!; try done; lia.
Qed.

(** The range of a key that an object serves is in its storage. *)
Lemma key_in_slot st v t sl p r : stable st v -> key_placed st v t r -> serves t (slot_type sl) ->
  slot_get st sl = Some p -> 0 <= k_offset r /\ k_offset r + key_bytes (k_size r) <= p_len p.
Proof.
  intros Hst [_ _ Hs Hr] Hserve Hp. destruct (slot_base _ _ _ _ Hst Hp) as (E1 & E2 & [H1 H2] & H3).
  pose proof (key_bytes_bounds _ Hs). case_decide as Ht; [lia|].
  destruct Hserve as [<-|[? _]]; [|done]. destruct (sb_data _ _ Hst _ _ Hp) as [E _]. lia.
Qed.

(** What is known of an object covers the storage of its type's keys. *)
Lemma key_data_ghost st v sl p r : stable st v -> key_placed st v (slot_type sl) r -> slot_get st sl = Some p ->
  key_data r p = take (Z.to_nat (key_bytes (k_size r))) (drop (Z.to_nat (k_offset r - g_pos v sl)) (g_data v sl)).
Proof.
  intros Hst [_ _ Hs Hr] Hp. rewrite decide_False in Hr by apply slot_type_regular.
  destruct (sb_data _ _ Hst _ _ Hp) as [E1 E2]. destruct (wf_data _ _ (sb_wf _ _ Hst) _ _ Hp) as (H1 & H2 & H3).
  pose proof (key_bytes_bounds _ Hs). unfold key_data, g_end in *. rewrite <- H3 at 1.
  rewrite skipn_firstn_comm, drop_drop, firstn_firstn.
  rewrite Nat.min_l by lia. do 2 f_equal. lia.
Qed.

(** ** What a registration needs *)

(** The key's record is not registered yet and is in none of the storage; no
    offset gets past [INT_MAX]; and objects that take part are of types that are
    visited, or there are none.  Some of it the code asserts, some it relies on. *)
Record may_register (st : PrivState) (key : Z) (t : DevPrivateType) (size : Z) : Prop := MayRegister {
  mr_key : exists r, key_at (ps_mem st) key = Some r /\ k_initialized r = false;
  mr_place : 0 < key < m_brk (ps_mem st) /\ forall sl p, slot_get st sl = Some p -> ~ in_block p key;
  mr_size : 0 <= size <= 2147483640;
  mr_fits t' : s_offset (global_keys st t') + key_bytes size < 2147483648;
  mr_fits_screen gpu i ss t' : sets_at st gpu i = Some ss -> s_offset (ss t') + key_bytes size < 2147483648;
  mr_early t' : serves t t' -> allocated_early t' = true \/ s_created (global_keys st t') = 0;
}.

(** Lists of screens that are not there can be taken to be empty. *)
Definition no_ghost_screens (st : PrivState) (v : ghost) : ghost :=
  v <| g_keys ::= fun keys o =>
         match o with
         | (Some (gpu, i), _) => match sets_at st gpu i with Some _ => keys o | None => [] end
         | _ => keys o
         end |>.

Lemma no_ghost_elem st v o a : a ∈ g_keys (no_ghost_screens st v) o -> a ∈ g_keys v o.
Proof.
  destruct o as [[[gpu i]|] t]; cbn; [|done]. by destruct (sets_at st gpu i); [|intros ?%not_elem_of_nil].
Qed.

Lemma no_ghost_stable st v : stable st v -> stable st (no_ghost_screens st v).
Proof.
  intros [Hwf H1 H2 H3]. split; try done. split; try apply Hwf.
  - intros gpu i ss t Hss. cbn. rewrite Hss. by apply (wf_screen _ _ Hwf).
  - intros gpu i t Ht. cbn. destruct (sets_at st gpu i); [by apply (wf_specific _ _ Hwf)|done].
  - intros o1 o2 a Ha1%no_ghost_elem Ha2%no_ghost_elem. by eapply (wf_disjoint _ _ Hwf).
  - intros o a Ha%no_ghost_elem. apply (wf_place _ _ Hwf _ _ Ha).
Qed.

Lemma unregistered_static st v key t size : stable st v -> may_register st key t size ->
  static st (no_ghost_screens st v) key.
Proof.
  intros Hst Hm. destruct (mr_key _ _ _ _ Hm) as (r & Hr & Hi), (mr_place _ _ _ _ Hm) as [Hkey Hout].
  split_and!; [lia..|done|]. intros gpu i t' Ha. destruct (sets_at st gpu i) as [ss|] eqn:Es.
  - eapply (unlisted st _ key r (Some (gpu, i), t')); [by apply no_ghost_stable| |exact Hr|done|exact Ha].
    intros g j t2 [= <- <- <-]. by exists ss.
  - cbn in Ha. rewrite Es in Ha. by apply not_elem_of_nil in Ha.
Qed.

(** ** Registering *)

(** What is the same after a registration, in terms of the ghosts: [d] is how
    far a type's keys moved up. *)
Record carried (d : DevPrivateType -> Z) (st : PrivState) (v : ghost) (st' : PrivState) (v' : ghost) : Prop := Carried {
  ca_stable : stable st' v';
  ca_dom sl : is_Some (slot_get st' sl) <-> is_Some (slot_get st sl);
  ca_cell t a r : m_keys (ps_mem st) !! a = Some r -> key_placed st v t r -> a ∈ g_keys v (None, t) ->
    exists r', m_keys (ps_mem st') !! a = Some r' /\ k_size r' = k_size r /\ key_placed st' v' t r' /\
      k_offset r' = k_offset r + d t;
  ca_base t : g_base v' t = g_base v t + d t;
  ca_data sl : exists more, g_data v' sl = g_data v sl ++ more;
}.

Lemma carried_private d st v st' v' sl a : stable st v -> carried d st v st' v' ->
  registered st (slot_type sl) a -> private_of st' sl a = private_of st sl a.
Proof.
  intros Hst Hc Ha. destruct (registered_key _ _ _ _ (sb_wf _ _ Hst) Ha) as (r & Hr & Hpl).
  apply (registered_elem _ _ _ _ (sb_wf _ _ Hst)) in Ha.
  destruct (ca_cell _ _ _ _ _ Hc _ _ _ Hr Hpl Ha) as (r' & Hr' & Es & Hpl' & Eo).
  unfold private_of, key_at. rewrite Hr, Hr'.
  destruct (slot_get st' sl) as [p'|] eqn:Hp'.
  - destruct (proj1 (ca_dom _ _ _ _ _ Hc sl) (ex_intro _ _ Hp')) as [p Hp]. rewrite Hp. cbn. f_equal.
    rewrite (key_data_ghost _ _ _ _ _ (ca_stable _ _ _ _ _ Hc) Hpl' Hp'), (key_data_ghost _ _ _ _ _ Hst Hpl Hp), Es.
    destruct (sb_data _ _ (ca_stable _ _ _ _ _ Hc) _ _ Hp') as [-> _], (sb_data _ _ Hst _ _ Hp) as [E1 E2].
    rewrite (ca_base _ _ _ _ _ Hc), Eo, E1.
    destruct (ca_data _ _ _ _ _ Hc sl) as [more ->]. pose proof (pl_range _ _ _ _ Hpl) as Hrg.
    rewrite decide_False in Hrg by apply slot_type_regular. pose proof (key_bytes_bounds _ (pl_size _ _ _ _ Hpl)).
    unfold g_end in *. rewrite skipn_app, firstn_app, length_drop.
    replace (_ - (_ - _))%nat with 0%nat by lia. rewrite firstn_O, app_nil_r. do 2 f_equal. lia.
  - destruct (slot_get st sl) as [p|] eqn:Hp; [|done].
    destruct (proj2 (ca_dom _ _ _ _ _ Hc sl) (ex_intro _ _ Hp)) as [p' H]. congruence.
Qed.

Lemma carried_size d st v st' v' t a : stable st v -> carried d st v st' v' -> registered st t a ->
  k_size <$> key_at (ps_mem st') a = k_size <$> key_at (ps_mem st) a.
Proof.
  intros Hst Hc Ha. destruct (registered_key _ _ _ _ (sb_wf _ _ Hst) Ha) as (r & Hr & Hpl).
  apply (registered_elem _ _ _ _ (sb_wf _ _ Hst)) in Ha.
  destruct (ca_cell _ _ _ _ _ Hc _ _ _ Hr Hpl Ha) as (r' & Hr' & Es & _).
  unfold key_at. rewrite Hr, Hr'. cbn. by rewrite Es.
Qed.

Lemma elem_placed st v t a r : wf st v -> a ∈ g_keys v (None, t) -> m_keys (ps_mem st) !! a = Some r ->
  key_placed st v t r.
Proof.
  intros Hwf Ha Hr. apply (registered_elem _ _ _ _ Hwf) in Ha.
  destruct (registered_key _ _ _ _ Hwf Ha) as (r' & Hr' & H). congruence.
Qed.

Lemma room_failed_carried st v st' v' : stable st v -> room_failed st v st' v' -> carried (fun _ => 0) st v st' v'.
Proof.
  intros Hst H. split; try apply H.
  - intros t a r Hr Hpl Ha. exists r. assert (m_keys (ps_mem st') !! a = Some r) as Hr'.
    { rewrite (rf_old _ _ _ _ H); [done|]. by eapply static_global; [apply Hst|]. }
    split_and!; [done..| |lia]. eapply elem_placed; [apply (rf_stable _ _ _ _ H)|by rewrite (rf_keys _ _ _ _ H)|done].
  - intros t. rewrite (rf_base _ _ _ _ H). lia.
  - intros sl. exists []. by rewrite (rf_data _ _ _ _ H), app_nil_r.
Qed.

Lemma key_registered_carried t key size st v st' v' : stable st v ->
  key_registered t key size st v st' v' -> carried (fun _ => 0) st v st' v'.
Proof.
  intros Hst H. split; try apply H.
  - intros t' a r Hr Hpl Ha. exists r. assert (m_keys (ps_mem st') !! a = Some r) as Hr'.
    { by rewrite (kr_old _ _ _ _ _ _ _ H _ _ Ha). }
    split_and!; [done..| |lia]. eapply elem_placed; [apply (kr_stable _ _ _ _ _ _ _ H)| |done].
    rewrite (kr_keys _ _ _ _ _ _ _ H). case_decide; [by right|done].
  - intros t'. rewrite (kr_base _ _ _ _ _ _ _ H). lia.
  - intros sl. rewrite (kr_data _ _ _ _ _ _ _ H). case_decide; [by eexists|exists []; by rewrite app_nil_r].
Qed.

Lemma selinux_registered_carried key size st v st' v' : stable st v -> 0 <= size <= 2147483640 ->
  (forall t, s_offset (global_keys st t) + key_bytes size < 2147483648) ->
  selinux_registered key size st v st' v' ->
  carried (fun t => if xselinux_private t then key_bytes size else 0) st v st' v'.
Proof.
  intros Hst Hsize Hn H. split; try apply H.
  - intros t a r Hr Hpl Ha. pose proof (sr_old _ _ _ _ _ _ H _ _ Ha) as Hr'. rewrite Hr in Hr'.
    pose proof (key_bytes_bounds _ Hsize). pose proof (key_bytes_bounds _ (pl_size _ _ _ _ Hpl)).
    pose proof (pl_range _ _ _ _ Hpl) as Hrg.
    assert (Ha' : a ∈ g_keys v' (None, t)).
    { rewrite (sr_keys _ _ _ _ _ _ H). case_decide; [by right|done]. }
    destruct (xselinux_private t) eqn:E; cbn in Hr'; eexists; (split; [exact Hr'|]).
    + split; [done|]. split; [eapply elem_placed; [apply (sr_stable _ _ _ _ _ _ H)|done..]|]. cbn.
      rewrite decide_False in Hrg by (intros ->; done). destruct (wf_low _ _ (sb_wf _ _ Hst) t).
      rewrite i32_small; [done|]. specialize (Hn t). lia.
    + split; [done|]. split; [eapply elem_placed; [apply (sr_stable _ _ _ _ _ _ H)|done..]|]. cbn. lia.
  - intros sl. exists []. by rewrite (sr_data _ _ _ _ _ _ H), app_nil_r.
Qed.

(** What a registration does, for those who use private storage. *)
Record registers (env : heap_env) (st : PrivState) (key : Z) (t : DevPrivateType) (size : Z)
    (st' : PrivState) (ok : bool) : Prop := Registers {
  rg_ok : priv_ok st';
  rg_memory : ok = false -> no_memory env;
  rg_keys t' a : registered st' t' a <-> registered st t' a \/ ok = true /\ t' = t /\ a = key;
  rg_record : ok = true -> exists r, key_at (ps_mem st') key = Some r /\
    k_initialized r = true /\ k_allocated r = false /\ k_type r = t /\ k_size r = size;
  rg_dom sl : is_Some (slot_get st' sl) <-> is_Some (slot_get st sl);
  rg_size t' a : registered st t' a -> k_size <$> key_at (ps_mem st') a = k_size <$> key_at (ps_mem st) a;
  rg_old sl a : registered st (slot_type sl) a -> private_of st' sl a = private_of st sl a;
  rg_new sl : ok = true -> serves t (slot_type sl) -> is_Some (slot_get st' sl) ->
    private_of st' sl key = Some (zeros (key_bytes size));
  rg_objects : ps_objects st' = ps_objects st;
  rg_created t' : s_created (global_keys st' t') = s_created (global_keys st t');
  rg_offset t' : s_offset (global_keys st' t') = s_offset (global_keys st t') +
    (if ok && bool_decide (t' = t /\ t <> PRIVATE_XSELINUX \/ t = PRIVATE_XSELINUX /\ xselinux_private t' = true)
     then key_bytes size else 0);
  rg_screens : screens_same (serves t) st st';
  rg_brk : m_brk (ps_mem st) <= m_brk (ps_mem st');
}.

Lemma private_of_zeros st v sl p t key r : stable st v -> slot_get st sl = Some p ->
  key_at (ps_mem st) key = Some r -> key_placed st v t r ->
  take (Z.to_nat (key_bytes (k_size r))) (drop (Z.to_nat (k_offset r)) (p_data p)) = zeros (key_bytes (k_size r)) ->
  private_of st sl key = Some (zeros (key_bytes (k_size r))).
Proof. intros Hst Hp Hr Hpl E. unfold private_of, key_data. rewrite Hp, Hr. cbn. by rewrite E. Qed.

Section Register.
Context (env : heap_env) (st : PrivState) (v : ghost) (key : Z) (t : DevPrivateType) (size : Z).
Context (Hst : stable st v) (Hm : may_register st key t size).

Lemma failed_registers st' v' : room_failed st v st' v' -> no_memory env -> registers env st key t size st' false.
Proof using Hst.
  intros H Hmem. pose proof (room_failed_carried _ _ _ _ Hst H) as Hc. split; try done.
  - by exists v'; apply (rf_stable _ _ _ _ H).
  - intros t' a. rewrite (registered_elem st v) by apply Hst.
    rewrite (registered_elem st' v'), (rf_keys _ _ _ _ H) by apply (rf_stable _ _ _ _ H).
    split; [by left|by intros [?|[? _]]].
  - apply (rf_dom _ _ _ _ H).
  - intros t' a. by eapply carried_size.
  - intros sl a. by eapply carried_private.
  - apply (rf_objects _ _ _ _ H).
  - intros t'. by rewrite (rf_gk _ _ _ _ H).
  - intros t'. rewrite (rf_gk _ _ _ _ H). cbn. lia.
  - apply (rf_screens _ _ _ _ H).
  - apply (rf_brk _ _ _ _ H).
Qed.

Lemma regular_registers st' v' : t <> PRIVATE_XSELINUX ->
  key_registered t key size st v st' v' -> registers env st key t size st' true.
Proof using Hst Hm.
  intros Ht H. pose proof (key_registered_carried _ _ _ _ _ _ _ Hst H) as Hc.
  pose proof (kr_stable _ _ _ _ _ _ _ H) as Hst'. pose proof (kr_new _ _ _ _ _ _ _ H) as Hnew. split; try done.
  - by exists v'.
  - intros t' a. rewrite (registered_elem st v), (registered_elem st' v') by (apply Hst || apply Hst').
    rewrite (kr_keys _ _ _ _ _ _ _ H). case_decide as E; rewrite ?elem_of_cons; naive_solver.
  - intros _. eexists. split; [exact Hnew|done].
  - apply (kr_dom _ _ _ _ _ _ _ H).
  - intros t' a. by eapply carried_size.
  - intros sl a. by eapply carried_private.
  - intros sl _ [Hsl|[? _]] [p' Hp']; [|done].
    assert (Hpl : key_placed st' v' t (KeyRec (s_offset (global_keys st t)) size true false t (s_key (global_keys st t)))).
    { eapply elem_placed; [apply Hst'| |exact Hnew]. rewrite (kr_keys _ _ _ _ _ _ _ H), decide_True by done. left. }
    destruct (proj1 (kr_dom _ _ _ _ _ _ _ H sl) (ex_intro _ _ Hp')) as [p Hp].
    apply (private_of_zeros _ _ _ _ _ _ _ Hst' Hp' Hnew Hpl).
    rewrite <- Hsl in Hpl. pose proof (key_data_ghost _ _ _ _ _ Hst' Hpl Hp') as E. unfold key_data in E.
    rewrite Hsl in E. etransitivity; [exact E|].
    rewrite (kr_data _ _ _ _ _ _ _ H), decide_True by done. cbn [k_offset k_size].
    destruct (sb_data _ _ Hst' _ _ Hp') as [E1 _], (sb_data _ _ Hst _ _ Hp) as [E2 E3].
    rewrite E1, (kr_base _ _ _ _ _ _ _ H). rewrite Hsl in *.
    unfold g_end in E3. rewrite skipn_app, drop_ge by lia. cbn [app].
    pose proof (key_bytes_bounds _ (mr_size _ _ _ _ Hm)).
    replace (_ - _)%nat with 0%nat by lia. rewrite drop_0, firstn_all2; [done|].
    unfold zeros. rewrite repeat_length. lia.
  - apply (kr_objects _ _ _ _ _ _ _ H).
  - intros t'. apply (kr_sets _ _ _ _ _ _ _ H).
  - intros t'. destruct (kr_sets _ _ _ _ _ _ _ H t') as [-> _]. cbn [andb]. case_decide as E.
    + subst. rewrite bool_decide_true by (by left). done.
    + rewrite bool_decide_false by tauto. lia.
  - eapply screens_same_mono, (kr_screens _ _ _ _ _ _ _ H). intros t' <-. by left.
  - apply (kr_brk _ _ _ _ _ _ _ H).
Qed.

Lemma selinux_registers st' v' : t = PRIVATE_XSELINUX ->
  selinux_registered key size st v st' v' -> registers env st key t size st' true.
Proof using Hst Hm.
  intros -> H. pose proof (selinux_registered_carried _ _ _ _ _ _ Hst (mr_size _ _ _ _ Hm) (mr_fits _ _ _ _ Hm) H) as Hc.
  pose proof (sr_stable _ _ _ _ _ _ H) as Hst'. destruct (sr_new _ _ _ _ _ _ H) as [next Hnew]. split; try done.
  - by exists v'.
  - intros t' a. rewrite (registered_elem st v), (registered_elem st' v') by (apply Hst || apply Hst').
    rewrite (sr_keys _ _ _ _ _ _ H). case_decide as E; rewrite ?elem_of_cons; naive_solver.
  - intros _. eexists. split; [exact Hnew|done].
  - apply (sr_dom _ _ _ _ _ _ H).
  - intros t' a. by eapply carried_size.
  - intros sl a. by eapply carried_private.
  - intros sl _ _ [p' Hp'].
    assert (Hpl : key_placed st' v' PRIVATE_XSELINUX (KeyRec 0 size true false PRIVATE_XSELINUX next)).
    { eapply elem_placed; [apply Hst'| |exact Hnew]. rewrite (sr_keys _ _ _ _ _ _ H), decide_True by done. left. }
    apply (private_of_zeros _ _ _ _ _ _ _ Hst' Hp' Hnew Hpl). apply (sr_head _ _ _ _ _ _ H _ _ Hp').
  - apply (sr_objects _ _ _ _ _ _ H).
  - intros t'. apply (sr_sets _ _ _ _ _ _ H).
  - intros t'. destruct (sr_sets _ _ _ _ _ _ H t') as [-> _]. cbn [andb].
    destruct (xselinux_private t') eqn:E.
    + rewrite bool_decide_true by (by right). done.
    + rewrite bool_decide_false; [done|]. by intros [[_ ?]|[_ ?]].
  - eapply screens_same_mono, (sr_screens _ _ _ _ _ _ H). intros t' Hx. by right.
  - apply (sr_brk _ _ _ _ _ _ H).
Qed.

(** The space of the security extension's keys is at the start of screens. *)
Lemma total_small : g_total v + key_bytes size < 2147483648.
Proof.
  destruct (wf_global _ _ (sb_wf _ _ Hst) PRIVATE_SCREEN) as [_ Hti%tiled_mono]; [done|].
  rewrite (sb_base _ _ Hst) in Hti by done. cbn in Hti. pose proof (mr_fits _ _ _ _ Hm PRIVATE_SCREEN). lia.
Qed.
End Register.

Lemma register_spec env st key t size : priv_ok st -> may_register st key t size ->
  exists st' ok, dixRegisterPrivateKey env st key t size = Ret (st', ok) /\ registers env st key t size st' ok.
Proof.
  intros [v0 H0] Hm. pose proof (no_ghost_stable _ _ H0) as Hst.
  pose proof (unregistered_static _ _ _ _ _ H0 Hm) as Hstat. destruct (mr_key _ _ _ _ Hm) as (r & Hr & Hi).
  destruct (decide (t = PRIVATE_XSELINUX)) as [->|Ht].
  - destruct (register_selinux env _ _ key r size Hst Hr Hi Hstat (mr_size _ _ _ _ Hm) (mr_fits _ _ _ _ Hm))
      as (st' & ok & v' & E & Hok).
    { intros gpu i ss t. apply (mr_fits_screen _ _ _ _ Hm). } { by apply (total_small st _ key PRIVATE_XSELINUX). }
    { intros t Ht. apply (mr_early _ _ _ _ Hm). by right. }
    exists st', ok. split; [done|]. destruct ok; [by eapply selinux_registers|].
    destruct Hok as [Hf Hmem]. by eapply failed_registers.
  - destruct (register_one env _ _ key r t size Hst Ht Hr Hi Hstat (mr_size _ _ _ _ Hm) (mr_fits _ _ _ _ Hm t))
      as (st' & ok & v' & E & Hok).
    { intros gpu i ss. apply (mr_fits_screen _ _ _ _ Hm). } { apply (mr_early _ _ _ _ Hm). by left. }
    exists st', ok. split; [done|]. destruct ok; [by eapply regular_registers|].
    destruct Hok as [Hf Hmem]. by eapply failed_registers.
Qed.

(** C7: Registering a new key answers, without undefined behaviour or a failed
    assertion, and FALSE only when an allocation failed.  Then exactly this key
    is registered more, for its type and with its size, the objects are the
    same, also if their storage is elsewhere now; in every object, what it has
    for each key of its type that was registered before is as it was, and what
    it has for the new key is zeros.  The security extension's keys go into all
    its types' objects at once, where all other keys move up. *)
Theorem dixRegisterPrivateKey_keeps env st key t size :
  priv_ok st -> may_register st key t size ->
  exists st' ok, dixRegisterPrivateKey env st key t size = Ret (st', ok) /\
    priv_ok st' /\ (ok = false -> no_memory env) /\
    (forall t' a, registered st' t' a <-> registered st t' a \/ ok = true /\ t' = t /\ a = key) /\
    (ok = true -> exists r, key_at (ps_mem st') key = Some r /\
       k_initialized r = true /\ k_type r = t /\ k_size r = size) /\
    (forall sl, is_Some (slot_get st' sl) <-> is_Some (slot_get st sl)) /\
    (forall sl a, registered st (slot_type sl) a -> private_of st' sl a = private_of st sl a) /\
    (ok = true -> forall sl, serves t (slot_type sl) -> is_Some (slot_get st' sl) ->
       private_of st' sl key = Some (zeros (key_bytes size))).
Proof.
  intros Hok Hm. destruct (register_spec env _ _ _ _ Hok Hm) as (st' & ok & E & H).
  exists st', ok. split; [exact E|]. split_and!; try apply H.
  - intros Ht. destruct (rg_record _ _ _ _ _ _ _ H Ht) as (r & Hr & Hi & _ & Hx & Hs). by exists r.
  - intros Ht sl. by apply (rg_new _ _ _ _ _ _ _ H).
Qed.
