(* ===== verification/PrivateAccess.v ===== *)
(** * Storing and reading through a key

    [dixSetPrivate] and [dixGetPrivate] (include/privates.h): what is read is
    what was stored last through the same key; and the end of the independence
    of keys, the keys of the security extension. *)

From S2P Require Import Prelude Wire Resource Privates PrivateLayout PrivateState PrivateFixup.
From S2P Require Import PrivateVisit PrivateScreen PrivatePhase PrivateGrow PrivateRegister PrivateMove PrivateUse.

(** ** Bytes of a pointer *)

Lemma length_le64 x : length (le64 x) = 8%nat.
Proof. done. Qed.

Lemma from_le_le64 x : from_le (le64 x) = u64 x.
Proof.
  assert (forall i, 0 <= i -> Z.land (Z.shiftr x (8 * i)) 255 = (x / 2 ^ (8 * i)) mod 256) as E.
  { intros i Hi. rewrite Z.shiftr_div_pow2 by lia. apply (Z.land_ones _ 8). lia. }
  unfold le64. cbn [fmap list_fmap from_le]. rewrite !E by lia. cbn [Z.mul Pos.mul].
  unfold u64. word.
Qed.

(** ** The storage of one object is replaced *)

Definition write_slot (st : PrivState) (sl : slot) (p : Privates) : PrivState :=
  match sl with
  | ScreenSlot gpu i =>
      match screen_at st gpu i with
      | Some s => with_screen st gpu i (ps_mem st) (s <| devPrivates := p |>)
      | None => st
      end
  | _ => with_slot st sl (ps_mem st) p
  end.

(** Nothing else changes. *)
Record written (st : PrivState) (sl : slot) (p' : Privates) (st' : PrivState) : Prop := Written {
  wn_mem : ps_mem st' = ps_mem st;
  wn_gk : global_keys st' = global_keys st;
  wn_objects : ps_objects st' = ps_objects st;
  wn_get : slot_get st' sl = Some p';
  wn_other sl' : sl' <> sl -> slot_get st' sl' = slot_get st sl';
  wn_sets gpu i : sets_at st' gpu i = sets_at st gpu i;
}.

Lemma with_slot_written st sl p p' : ~ screen_slot sl -> slot_get st sl = Some p ->
  written st sl p' (with_slot st sl (ps_mem st) p').
Proof.
  intros Hns Hp. split.
  - apply with_slot_mem.
  - apply with_slot_gk.
  - apply with_slot_objects.
  - by eapply with_slot_get.
  - intros sl' Hne. by apply with_slot_other.
  - intros gpu i. by apply with_slot_sets.
Qed.

Lemma with_screen_written st gpu i s p' : screen_at st gpu i = Some s ->
  written st (ScreenSlot gpu i) p' (with_screen st gpu i (ps_mem st) (s <| devPrivates := p' |>)).
Proof.
  intros Hs. split.
  - apply with_screen_mem.
  - apply with_screen_gk.
  - apply with_screen_objects.
  - by erewrite with_screen_get.
  - intros sl' Hne. by eapply with_screen_other.
  - intros g j. unfold sets_at. erewrite with_screen_at by exact Hs. case_decide as H; [|done].
    destruct H as [-> ->]. by rewrite Hs.
Qed.

Lemma write_slot_written st sl p p' : slot_get st sl = Some p -> written st sl p' (write_slot st sl p').
Proof.
  intros Hp. destruct sl as [gpu i| |i|i|off i].
  - cbn in Hp. unfold write_slot. destruct (screen_at st gpu i) as [s|] eqn:Hs; [|done]. by apply with_screen_written.
  - exact (with_slot_written st ClientSlot p p' (fun H => H) Hp).
  - exact (with_slot_written st (ExtensionSlot i) p p' (fun H => H) Hp).
  - exact (with_slot_written st (ColormapSlot i) p p' (fun H => H) Hp).
  - exact (with_slot_written st (DeviceSlot off i) p p' (fun H => H) Hp).
Qed.

(** What is known of the object is what its storage now holds. *)
Definition relearn (sl : slot) (p' : Privates) (v : ghost) : ghost :=
  v <| g_data ::= fun data sl' => if decide (sl' = sl) then
         take (length (data sl)) (drop (Z.to_nat (g_pos v sl)) (p_data p')) else data sl' |>.

Lemma written_stable st v sl p p' st' : stable st v -> slot_get st sl = Some p ->
  p_addr p' = p_addr p -> p_len p' = p_len p -> written st sl p' st' -> stable st' (relearn sl p' v).
Proof.
  intros Hst Hp Ha Hl Hw. destruct (wf_data _ _ (sb_wf _ _ Hst) _ _ Hp) as (H1 & H2 & H3).
  assert (Hlen : length (g_data (relearn sl p' v) sl) = length (g_data v sl)).
  { cbn. rewrite decide_True by done. rewrite length_take, length_drop. unfold g_end, p_len in *. lia. }
  assert (Hend : forall sl', g_end (relearn sl p' v) sl' = g_end v sl').
  { intros sl'. unfold g_end. destruct (decide (sl' = sl)) as [->|Hne]; [by rewrite Hlen|].
    cbn. by rewrite decide_False. }
  split.
  - apply (reslot_wf st st' v (relearn sl p' v) sl p p' id); rewrite ?(wn_mem _ _ _ _ Hw); try apply Hw; try done.
    + apply Hst.
    + destruct (wf_brk _ _ (sb_wf _ _ Hst)). split; [lia|done].
    + by left.
    + destruct (wf_block _ _ (sb_wf _ _ Hst) _ _ Hp) as [->|(B1 & B2 & B3)].
      * left. unfold no_privates, p_len in *. destruct p' as [a d]; cbn in *. destruct d; [congruence|cbn in Hl; lia].
      * right. by rewrite Ha, Hl.
    + intros o. cbn. case_decide; [by rewrite list_fmap_id|done].
    + intros sl' Hne. cbn. by rewrite decide_False.
    + rewrite Hend, Hl. split_and!; [done..|]. rewrite Hlen. cbn. by rewrite decide_True.
    + intros gpu i ss Hss. rewrite (wn_sets _ _ _ _ Hw) in Hss. exists ss. split; [done|]. intros t. split; [done|].
      case_decide; [|done]. rewrite list_fmap_id. by apply (wf_screen _ _ (sb_wf _ _ Hst)).
    + intros o a Ho Hin. split; [done|]. left. split; [done|]. intros Hb.
      destruct (wf_place _ _ (sb_wf _ _ Hst) _ _ Hin) as [_ Hpl]. unfold in_block in *. rewrite Ha in *.
      rewrite Hend. by apply (Hpl sl p Hp).
  - apply (sb_base _ _ Hst).
  - intros gpu i t Hs. rewrite (wn_sets _ _ _ _ Hw) in Hs. rewrite (wn_gk _ _ _ _ Hw). by apply (sb_low _ _ Hst).
  - intros sl' q Hq. rewrite Hend, (wn_gk _ _ _ _ Hw). cbn.
    destruct (decide (sl' = sl)) as [->|Hne]; [by apply (sb_data _ _ Hst _ p)|].
    rewrite (wn_other _ _ _ _ Hw) in Hq by done. by apply (sb_data _ _ Hst _ q).
Qed.

(** ** Eight bytes at an offset *)

Definition store8 (off : Z) (val : Z) (d : list Z) : list Z :=
  take (Z.to_nat off) d ++ le64 val ++ drop (Z.to_nat (off + sizeof_pointer)) d.

Section Store.
Context (off val : Z) (d : list Z).
Context (Hoff : 0 <= off) (Hin : off + 8 <= Z.of_nat (length d)).

Lemma store8_take : length (take (Z.to_nat off) d) = Z.to_nat off.
Proof using Hoff Hin. rewrite length_take. lia. Qed.

Lemma store8_length : length (store8 off val d) = length d.
Proof using Hoff Hin.
  unfold store8, sizeof_pointer. rewrite !length_app, store8_take, length_le64, length_drop. lia.
Qed.

Lemma store8_same : take 8 (drop (Z.to_nat off) (store8 off val d)) = le64 val.
Proof using Hoff Hin.
  unfold store8. rewrite drop_app_length' by (symmetry; apply store8_take). by rewrite take_app_length'.
Qed.

Lemma store8_other o n : 0 <= o -> 0 <= n -> o + n <= off \/ off + 8 <= o ->
  take (Z.to_nat n) (drop (Z.to_nat o) (store8 off val d)) = take (Z.to_nat n) (drop (Z.to_nat o) d).
Proof using Hoff Hin.
  intros Ho Hn [H|H].
  - unfold store8. rewrite skipn_app, firstn_app, length_drop, store8_take.
    replace (Z.to_nat n - _)%nat with 0%nat by lia. rewrite firstn_O, app_nil_r.
    rewrite skipn_firstn_comm, firstn_firstn. f_equal. lia.
  - unfold store8, sizeof_pointer. rewrite drop_app_ge by (rewrite store8_take; lia).
    rewrite drop_app_ge by (rewrite store8_take, length_le64; lia).
    rewrite store8_take, length_le64, drop_drop. do 2 f_equal. lia.
Qed.
End Store.

(** ** Storing and reading *)

Section SetGet.
Context (m : Memory) (p : Privates) (key : Z) (r : DevPrivateKeyRec).
Context (Hr : key_at m key = Some r) (Hi : k_initialized r = true) (Hs : k_size r = 0)
  (Hlo : 0 <= k_offset r) (Hhi : k_offset r + 8 <= p_len p).

Lemma key_in_bounds : ((k_offset r <? 0) || (p_len p <? k_offset r + sizeof_pointer))%bool = false.
Proof using Hlo Hhi. unfold sizeof_pointer. apply orb_false_intro; apply Z.ltb_ge; lia. Qed.

Lemma dixSetPrivate_spec val :
  dixSetPrivate m p key val = Ret (p <| p_data := store8 (k_offset r) val (p_data p) |>).
Proof using Type*.
  unfold dixSetPrivate, dixGetPrivateAddr. rewrite Hr. cbn [obind_opt]. rewrite Hs, Hi. cbn [Z.eqb negb obind].
  by rewrite key_in_bounds.
Qed.

Lemma dixGetPrivate_spec :
  dixGetPrivate m p key = Ret (from_le (take 8 (drop (Z.to_nat (k_offset r)) (p_data p)))).
Proof using Type*.
  unfold dixGetPrivate, dixGetPrivateAddr. rewrite Hr. cbn [obind_opt]. rewrite Hs, Hi. cbn [Z.eqb negb obind].
  by rewrite key_in_bounds.
Qed.
End SetGet.

(** Ranges of two keys of the objects' type do not meet. *)
Lemma keys_apart st v t sl a b ra rb : stable st v ->
  registered st t a -> serves t (slot_type sl) -> registered st (slot_type sl) b -> b <> a ->
  key_at (ps_mem st) a = Some ra -> key_at (ps_mem st) b = Some rb ->
  k_offset rb + key_bytes (k_size rb) <= k_offset ra \/ k_offset ra + key_bytes (k_size ra) <= k_offset rb.
Proof.
  intros Hst Ha Hserve Hb Hne Hra Hrb. pose proof (sb_wf _ _ Hst) as Hwf.
  destruct (registered_key _ _ _ _ Hwf Ha) as (ra' & Hra' & Hpa). assert (ra' = ra) as -> by (unfold key_at in *; congruence).
  destruct (registered_key _ _ _ _ Hwf Hb) as (rb' & Hrb' & Hpb). assert (rb' = rb) as -> by (unfold key_at in *; congruence).
  apply (registered_elem _ _ _ _ Hwf) in Ha, Hb.
  destruct (decide (t = PRIVATE_XSELINUX)) as [->|Ht].
  - right. pose proof (pl_range _ _ _ _ Hpa) as H1. rewrite decide_True in H1 by done.
    pose proof (pl_range _ _ _ _ Hpb) as H2. rewrite decide_False in H2 by apply slot_type_regular.
    rewrite (sb_base _ _ Hst), slot_type_selinux in H2 by apply slot_type_regular. lia.
  - destruct Hserve as [E|[? _]]; [|done]. rewrite E in Hb. destruct (wf_global _ _ Hwf t Ht) as [_ Hti].
    by apply (tiled_apart _ _ _ _ _ b a _ _ Hti).
Qed.

Lemma private_of_written st sl p p' st' a r : written st sl p' st' -> slot_get st sl = Some p ->
  key_at (ps_mem st) a = Some r -> key_data r p' = key_data r p -> private_of st' sl a = private_of st sl a.
Proof.
  intros Hw Hp Hr E. unfold private_of. rewrite (wn_get _ _ _ _ Hw), (wn_mem _ _ _ _ Hw), Hp, Hr. cbn. by rewrite E.
Qed.

Lemma store_spec st t key r sl p val :
  priv_ok st -> slot_get st sl = Some p -> registered st t key -> serves t (slot_type sl) ->
  key_at (ps_mem st) key = Some r -> k_size r = 0 ->
  exists p', dixSetPrivate (ps_mem st) p key val = Ret p' /\
    dixGetPrivate (ps_mem st) p' key = Ret (u64 val) /\
    priv_ok (write_slot st sl p') /\
    (forall a, registered st (slot_type sl) a -> a <> key ->
       private_of (write_slot st sl p') sl a = private_of st sl a) /\
    (forall sl' a, sl' <> sl -> private_of (write_slot st sl p') sl' a = private_of st sl' a).
Proof.
  intros [v Hst] Hp Hreg Hserve Hr Hs.
  destruct (registered_key _ _ _ _ (sb_wf _ _ Hst) Hreg) as (r' & Hr' & Hpl).
  assert (r' = r) as -> by (unfold key_at in *; congruence).
  destruct (key_in_slot _ _ _ _ _ _ Hst Hpl Hserve Hp) as [H1 H2]. rewrite Hs in H2. change (key_bytes 0) with 8 in H2.
  set (p' := p <| p_data := store8 (k_offset r) val (p_data p) |>).
  pose proof (write_slot_written st sl p p' Hp) as Hw.
  assert (p_len p' = p_len p) as El by (unfold p_len; cbn; by rewrite store8_length).
  exists p'. split_and!.
  - exact (dixSetPrivate_spec _ p _ _ Hr (pl_init _ _ _ _ Hpl) Hs H1 H2 val).
  - erewrite dixGetPrivate_spec by (rewrite ?El; try exact Hr; try apply Hpl; done).
    cbn [p_data set_field p']. by rewrite store8_same, from_le_le64.
  - exact (ex_intro _ _ (written_stable st v sl p p' _ Hst Hp eq_refl El Hw)).
  - intros a Ha Hne. destruct (registered_key _ _ _ _ (sb_wf _ _ Hst) Ha) as (ra & Hra & Hpla).
    eapply private_of_written; [done..|]. unfold key_data. cbn [p_data set_field p'].
    pose proof (key_bytes_bounds _ (pl_size _ _ _ _ Hpla)).
    destruct (key_in_slot _ _ _ _ _ _ Hst Hpla (or_introl eq_refl) Hp).
    apply store8_other; [done..|lia|].
    pose proof (keys_apart _ _ _ _ _ _ _ _ Hst Hreg Hserve Ha Hne Hr Hra) as Hap.
    rewrite Hs in Hap. exact Hap.
  - intros sl' a Hne. unfold private_of. by rewrite (wn_other _ _ _ _ Hw _ Hne), (wn_mem _ _ _ _ Hw).
Qed.

(** C9: Storing through a key of pointer size succeeds in every object that has
    storage for the key's type, without a store out of bounds; the same key then
    reads the pointer back; what any other key that is registered for the object's own
    type, or for all types, has there is as before, as is everything in other
    objects; and private storage is as it should be.  The keys of the security
    extension are not among those: they share their bytes
    ([xselinux_keys_overlap]). *)
Theorem dixSetPrivate_frame st t key r sl p val :
  priv_ok st -> slot_get st sl = Some p -> registered st t key -> serves t (slot_type sl) ->
  key_at (ps_mem st) key = Some r -> k_size r = 0 ->
  exists p', dixSetPrivate (ps_mem st) p key val = Ret p' /\
    dixGetPrivate (ps_mem st) p' key = Ret (u64 val) /\
    priv_ok (write_slot st sl p') /\
    (forall a, registered st (slot_type sl) a -> a <> key ->
       private_of (write_slot st sl p') sl a = private_of st sl a) /\
    (forall sl' a, sl' <> sl -> private_of (write_slot st sl p') sl' a = private_of st sl' a).
Proof. apply store_spec. Qed.

(** ** The keys of the security extension *)

Lemma take_zeros_le n k : n <= k -> take (Z.to_nat n) (zeros k) = zeros n.
Proof.
  intros H. unfold zeros. replace (Z.to_nat k) with (Z.to_nat n + (Z.to_nat k - Z.to_nat n))%nat by lia.
  rewrite repeat_app. apply take_app_length'. by rewrite repeat_length.
Qed.

(** C40: Whenever a second key of the security extension is registered, the two
    keys name the same storage: both have offset 0 in every object, although
    each was given space of its own, and what objects had stored for the first
    key now reads as zeros through it.  Other keys' storage is kept, see
    [dixRegisterPrivateKey_keeps]. *)
Theorem xselinux_keys_overlap env st a ra key size :
  priv_ok st -> registered st PRIVATE_XSELINUX a -> key_at (ps_mem st) a = Some ra ->
  key_bytes (k_size ra) <= key_bytes size -> may_register st key PRIVATE_XSELINUX size ->
  exists st' ok, dixRegisterPrivateKey env st key PRIVATE_XSELINUX size = Ret (st', ok) /\
    (ok = true -> dixGetPrivateAddr (ps_mem st') a = Ret 0 /\ dixGetPrivateAddr (ps_mem st') key = Ret 0 /\
       forall sl, is_Some (slot_get st' sl) ->
         private_of st' sl a = Some (zeros (key_bytes (k_size ra)))).
Proof.
  intros Hpok Ha Hra Hle Hm. destruct (register_spec env _ _ _ _ Hpok Hm) as (st' & ok & E & H).
  exists st', ok. split; [exact E|]. intros ->. destruct (rg_ok _ _ _ _ _ _ _ H) as [v' Hst'].
  pose proof (sb_wf _ _ Hst') as Hwf'.
  assert (Hkey' : registered st' PRIVATE_XSELINUX key) by (apply (rg_keys _ _ _ _ _ _ _ H); by right).
  assert (Ha' : registered st' PRIVATE_XSELINUX a) by (apply (rg_keys _ _ _ _ _ _ _ H); by left).
  pose proof (rg_size _ _ _ _ _ _ _ H _ _ Ha) as Es. rewrite Hra in Es.
  destruct (registered_key _ _ _ _ Hwf' Hkey') as (rk & Hrk & [Hik _ Hsk [Hok _]]).
  destruct (registered_key _ _ _ _ Hwf' Ha') as (ra' & Hra' & [Hia _ Hsa [Hoa _]]).
  unfold key_at in Es. rewrite Hra' in Es. injection Es as Es.
  unfold dixGetPrivateAddr, key_at. rewrite Hrk, Hra'. cbn [obind_opt]. rewrite Hik, Hia, Hok, Hoa. cbn [negb].
  split_and!; [done..|]. intros sl Hsl.
  destruct (rg_record _ _ _ _ _ _ _ H eq_refl) as (r2 & Hr2 & _ & _ & _ & Er2).
  assert (r2 = rk) as -> by (unfold key_at in *; congruence).
  pose proof (rg_new _ _ _ _ _ _ _ H sl eq_refl (or_intror (conj eq_refl (slot_type_selinux sl))) Hsl) as Hnew.
  unfold private_of, key_data, key_at in *. destruct Hsl as [p Hp]. rewrite Hp, Hrk in Hnew. rewrite Hp, Hra'.
  cbn in Hnew |- *. rewrite Hok, Er2 in Hnew. rewrite Hoa, Es. injection Hnew as Hnew. f_equal.
  apply (f_equal (take (Z.to_nat (key_bytes (k_size ra))))) in Hnew. rewrite firstn_firstn, Nat.min_l in Hnew by lia.
  by rewrite Hnew, take_zeros_le.
Qed.
