(* ===== verification/PrivateObjects.v ===== *)
(** * Objects that are allocated with their private storage

    Windows, pixmaps and the like are not visited when a key is registered: the
    code counts them instead, and a key is registered only while there are none.
    So an object has storage for all keys at all times. *)

From S2P Require Import Prelude Wire Resource Privates PrivateLayout PrivateState PrivateFixup.
From S2P Require Import PrivateVisit PrivateScreen PrivatePhase PrivateGrow PrivateRegister PrivateMove PrivateUse PrivateAccess.

(** ** Memory that has nothing to do with keys *)

(** A key in a list, of all objects or of a screen. *)
Definition listed (st : PrivState) (a : Z) : Prop :=
  (exists t, registered st t a) \/
  exists gpu i t ss l, sets_at st gpu i = Some ss /\ linked (m_keys (ps_mem st)) (s_key (ss t)) l /\ a ∈ l.

Lemma ghost_listed st v o a : wf st v -> a ∈ g_keys (no_ghost_screens st v) o -> listed st a.
Proof.
  intros Hwf. destruct o as [[[gpu i]|] t]; cbn.
  - destruct (sets_at st gpu i) as [ss|] eqn:E; [|by intros ?%not_elem_of_nil]. intros Ha. right.
    destruct (wf_screen _ _ Hwf _ _ _ t E) as [Hl _]. by exists gpu, i, t, ss, (g_keys v (Some (gpu, i), t)).
  - intros Ha. left. exists t. by apply (registered_elem _ _ _ _ Hwf).
Qed.

(** The two states differ in memory and in counts, and agree on the cells of
    keys in lists. *)
Record same_keys_state (v : ghost) (st st' : PrivState) : Prop := SameKeysState {
  sk_cells o a : a ∈ g_keys v o -> m_keys (ps_mem st') !! a = m_keys (ps_mem st) !! a;
  sk_brk : m_brk (ps_mem st) <= m_brk (ps_mem st') /\ (BLOCK | m_brk (ps_mem st'));
  sk_global t : s_key (global_keys st' t) = s_key (global_keys st t) /\
    s_offset (global_keys st' t) = s_offset (global_keys st t);
  sk_slots sl : slot_get st' sl = slot_get st sl;
  sk_sets gpu i ss' : sets_at st' gpu i = Some ss' -> exists ss, sets_at st gpu i = Some ss /\
    forall t, s_key (ss' t) = s_key (ss t) /\ s_offset (ss' t) = s_offset (ss t);
}.

Lemma same_keys_stable v st st' : stable st v -> same_keys_state v st st' -> stable st' v.
Proof.
  intros Hst [Hc Hb Hg Hsl Hse]. pose proof (sb_wf _ _ Hst) as Hwf.
  assert (Hl : forall o p, linked (m_keys (ps_mem st)) p (g_keys v o) -> linked (m_keys (ps_mem st')) p (g_keys v o)).
  { intros o p. apply linked_next. intros a Ha. by rewrite (Hc o). }
  assert (Ht : forall o t hi lo, tiled (m_keys (ps_mem st)) t hi (g_keys v o) lo -> tiled (m_keys (ps_mem st')) t hi (g_keys v o) lo).
  { intros o t hi lo. apply tiled_ext. intros a Ha. by rewrite (Hc o). }
  split.
  - split.
    + intros t Hne. destruct (wf_global _ _ Hwf t Hne), (Hg t) as [-> ->]. split; [by apply Hl|by apply Ht].
    + destruct (wf_selinux _ _ Hwf) as (H1 & H2 & H3), (Hg PRIVATE_XSELINUX) as [-> ->].
      split_and!; [by apply Hl| |done]. eapply flat_ext, H2. intros a. apply Hc.
    + intros gpu i ss' t Hss'. destruct (Hse _ _ _ Hss') as (ss & Hss & E). destruct (E t) as [-> ->].
      destruct (wf_screen _ _ Hwf _ _ _ t Hss). split; [by apply Hl|by apply Ht].
    + apply (wf_specific _ _ Hwf).
    + apply (wf_disjoint _ _ Hwf).
    + destruct (wf_brk _ _ Hwf). split; [lia|apply Hb].
    + apply (wf_low _ _ Hwf).
    + destruct (wf_small _ _ Hwf) as (H1 & H2 & H3). split_and!; [done| |].
      * intros t. destruct (Hg t) as [_ ->]. apply H2.
      * intros gpu i ss' t Hss'. destruct (Hse _ _ _ Hss') as (ss & Hss & E). destruct (E t) as [_ ->]. by eapply H3.
    + intros o a Ha. destruct (wf_place _ _ Hwf _ _ Ha) as [H1 H2]. split; [lia|].
      intros sl p. rewrite Hsl. apply H2.
    + intros sl p. rewrite Hsl. intros Hp. destruct (wf_block _ _ Hwf _ _ Hp) as [->|(H1 & H2 & H3)]; [by left|].
      right. split_and!; [lia..|done|done].
    + intros s1 s2 p1 p2. rewrite !Hsl. apply (wf_slots _ _ Hwf).
    + intros sl p. rewrite Hsl. apply (wf_data _ _ Hwf).
  - apply (sb_base _ _ Hst).
  - intros gpu i t [ss' Hss']. destruct (Hse _ _ _ Hss') as (ss & Hss & _), (Hg t) as [_ ->].
    apply (sb_low _ _ Hst). by exists ss.
  - intros sl p. rewrite Hsl. destruct (Hg (slot_type sl)) as [_ ->]. apply (sb_data _ _ Hst).
Qed.

(** ** Counting objects *)

Section Count.
Context (P : Object -> Prop) {HP : forall o, Decision (P o)}.

Definition count (m : gmap Z Object) : Z := Z.of_nat (base.size (filter (fun '(_, o) => P o) m)).

Lemma count_insert m a o : m !! a = None -> count (<[a := o]> m) = count m + (if decide (P o) then 1 else 0).
Proof.
  intros Ha. unfold count. case_decide as H.
  - rewrite map_filter_insert_True by done. rewrite map_size_insert_None; [lia|].
    apply map_lookup_filter_None. by left.
  - rewrite map_filter_insert_not' by (try done; intros y Hy; congruence). lia.
Qed.

Lemma count_delete m a o : m !! a = Some o -> count (delete a m) = count m - (if decide (P o) then 1 else 0).
Proof.
  intros Ha. unfold count. rewrite map_filter_delete. case_decide as H.
  - rewrite map_size_delete_Some by (eexists; by apply map_lookup_filter_Some).
    assert (base.size (filter (fun '(_, o) => P o) m) <> 0%nat); [|lia].
    intros E%map_size_empty_inv. apply (f_equal (lookup a)) in E. rewrite lookup_empty in E.
    eapply map_lookup_filter_None in E as [E|E]; [congruence|]. by apply (E o).
  - rewrite delete_id; [lia|]. apply map_lookup_filter_None. right. intros y Hy. congruence.
Qed.

Lemma count_pos m a o : m !! a = Some o -> P o -> 0 < count m.
Proof.
  intros Ha H. pose proof (count_delete _ _ _ Ha) as E. rewrite decide_True in E by done. unfold count in *. lia.
Qed.
End Count.

Definition of_type (t : DevPrivateType) (o : Object) : Prop := o_type o = t.
Definition of_screen (gi : bool * nat) (t : DevPrivateType) (o : Object) : Prop := o_type o = t /\ o_screen o = Some gi.
#[export] Instance of_type_dec t o : Decision (of_type t o).
Proof. unfold of_type. apply _. Defined.
#[export] Instance of_screen_dec gi t o : Decision (of_screen gi t o).
Proof. unfold of_screen. apply _. Defined.

(** ** What is true of them *)

(** The size of the storage of an object that is allocated now. *)
Definition size_for (st : PrivState) (t : DevPrivateType) (s : option (bool * nat)) : option Z :=
  match s with
  | Some (gpu, i) => (fun ss => s_offset (ss t)) <$> sets_at st gpu i
  | None => Some (s_offset (global_keys st t))
  end.

(** Of the types that are not visited, objects have storage of the size that new
    objects have, and the counts are right; a screen's may be too high, since it
    is not lowered. *)
Record objects_ok (st : PrivState) : Prop := ObjectsOk {
  ob_type a o : ps_objects st !! a = Some o -> o_type o <> PRIVATE_XSELINUX /\ a < m_brk (ps_mem st);
  ob_size a o : ps_objects st !! a = Some o -> allocated_early (o_type o) = false ->
    size_for st (o_type o) (o_screen o) = Some (p_len (o_privates o));
  ob_count t : allocated_early t = false -> t <> PRIVATE_XSELINUX ->
    s_created (global_keys st t) = count (of_type t) (ps_objects st);
  ob_screen gpu i ss t : sets_at st gpu i = Some ss ->
    count (of_screen (gpu, i) t) (ps_objects st) <= s_created (ss t);
}.

(** Sizes and objects are the same, for types that have objects, and counts. *)
Lemma objects_same st st' : objects_ok st -> ps_objects st' = ps_objects st ->
  m_brk (ps_mem st) <= m_brk (ps_mem st') ->
  (forall t, s_created (global_keys st' t) = s_created (global_keys st t)) ->
  (forall gpu i, is_Some (sets_at st' gpu i) <-> is_Some (sets_at st gpu i)) ->
  (forall gpu i ss', sets_at st' gpu i = Some ss' -> exists ss, sets_at st gpu i = Some ss /\
     forall t, s_created (ss' t) = s_created (ss t)) ->
  (forall t s, allocated_early t = false ->
     (exists a o, ps_objects st !! a = Some o /\ o_type o = t /\ o_screen o = s) ->
     is_Some (size_for st' t s) -> size_for st' t s = size_for st t s) ->
  objects_ok st'.
Proof.
  intros [H1 H2 H3 H4] Eo Hb Hc Hd Hs Hz. split.
  - intros a o. rewrite Eo. intros Ha. destruct (H1 a o Ha). split; [done|lia].
  - intros a o. rewrite Eo. intros Ha He. rewrite Hz; [by apply (H2 a)|done|by exists a, o|].
    specialize (H2 a o Ha He). destruct (o_screen o) as [[gpu i]|]; cbn in *; [|by eexists].
    destruct (sets_at st gpu i) as [ss|] eqn:E; [|done].
    destruct (proj2 (Hd gpu i) (ex_intro _ _ E)) as [ss' ->]. by eexists.
  - intros t He Ht. rewrite Hc, Eo. by apply H3.
  - intros gpu i ss' t Hss'. destruct (Hs _ _ _ Hss') as (ss & Hss & E). rewrite E, Eo. by apply H4.
Qed.

(** While there are objects of a type that is not visited, no key can be
    registered that they would have to have storage for. *)
Lemma object_unserved st key t size a o : objects_ok st -> may_register st key t size ->
  ps_objects st !! a = Some o -> allocated_early (o_type o) = false -> ~ serves t (o_type o).
Proof.
  intros Hob Hm Ha He Hs. destruct (ob_type _ Hob _ _ Ha) as [Hx _].
  destruct (mr_early _ _ _ _ Hm _ Hs) as [?|Hc]; [congruence|].
  rewrite (ob_count _ Hob) in Hc by done.
  pose proof (count_pos (of_type (o_type o)) _ _ _ Ha eq_refl). lia.
Qed.

Lemma slots_sets st st' : (forall sl, is_Some (slot_get st' sl) <-> is_Some (slot_get st sl)) ->
  forall gpu i, is_Some (sets_at st' gpu i) <-> is_Some (sets_at st gpu i).
Proof.
  intros H gpu i. specialize (H (ScreenSlot gpu i)). cbn [slot_get] in H. unfold sets_at.
  by rewrite !fmap_is_Some in *.
Qed.

Lemma register_objects env st key t size st' ok : objects_ok st -> may_register st key t size ->
  registers env st key t size st' ok -> objects_ok st'.
Proof.
  intros Hob Hm Hr. apply (objects_same st); try apply Hr; try done.
  - apply slots_sets, Hr.
  - intros gpu i ss' Hss'. destruct (rg_screens _ _ _ _ _ _ _ Hr _ _ _ Hss') as (ss & Hss & E).
    exists ss. split; [done|]. intros t'. apply E.
  - intros t' s He (a & o & Ha & <- & <-) Hs'. pose proof (object_unserved _ _ _ _ _ _ Hob Hm Ha He) as Hn.
    unfold size_for in *. destruct (o_screen o) as [[gpu i]|].
    + destruct (sets_at st' gpu i) as [ss'|] eqn:E; [|by destruct Hs'].
      destruct (rg_screens _ _ _ _ _ _ _ Hr _ _ _ E) as (ss & -> & F). cbn. f_equal. by apply F.
    + f_equal. rewrite (rg_offset _ _ _ _ _ _ _ Hr), bool_decide_false; [rewrite andb_false_r; lia|].
      intros [[E _]|[E Hx]]; apply Hn; [by left|by right].
Qed.

(** ** Allocating *)

Lemma align_base_bounds size : 0 <= size <= 2147483640 -> size <= align_base size <= 2147483640.
Proof.
  intros Hs. unfold align_base, sizeof_pointer. change (8 - 1) with (Z.ones 3).
  rewrite Z.ldiff_ones_r, Z.shiftr_div_pow2, Z.shiftl_mul_pow2 by lia.
  change (2 ^ 3) with 8. word.
Qed.

Lemma count_created_spec t d gk t' :
  s_key (count_created t d gk t') = s_key (gk t') /\ s_offset (count_created t d gk t') = s_offset (gk t') /\
  (t' <> PRIVATE_XSELINUX -> s_created (count_created t d gk t') = s_created (gk t') + (if decide (t' = t) then d else 0)).
Proof.
  unfold count_created, set_of. destruct (xselinux_private t).
  - destruct (decide (t' = PRIVATE_XSELINUX)), (decide (t' = t)); cbn; split_and!; try done; intros; lia || done.
  - destruct (decide (t' = t)); cbn; split_and!; try done; intros; lia.
Qed.

Lemma clear_privates_spec addr room n : 0 < addr -> 0 <= n <= room ->
  exists p, clear_privates addr room n = Ret p /\ p_data p = zeros n /\ p_len p = n.
Proof.
  intros Ha Hn. unfold clear_privates. destruct (Z.eqb_spec n 0) as [->|Hne]; cbn [Z.eqb].
  - by exists no_privates.
  - rewrite (proj2 (Z.eqb_neq addr 0)), (proj2 (Z.ltb_ge room n)) by lia.
    eexists. split; [reflexivity|]. split; [done|]. unfold p_len. cbn. apply zeros_length. lia.
Qed.

(** [calloc], which leaves the cells of keys. *)
Lemma mem_calloc_spec env m n : (BLOCK | m_brk m) -> exists m' r, mem_calloc env m n = (m', r) /\
  m_keys m' = m_keys m /\ m_brk m <= m_brk m' /\ (BLOCK | m_brk m') /\
  match r with Some a => a = m_brk m /\ m_brk m' = m_brk m + BLOCK | None => no_memory env end.
Proof.
  intros Hd. unfold mem_calloc. destruct (he_alloc env (m_count m) n) eqn:E.
  - eexists _, _. split; [done|]. cbn. unfold BLOCK in *. split_and!; try done; [lia|].
    by apply Z.divide_add_r; [|exists 1].
  - eexists _, _. split; [done|]. split_and!; try done. by eexists _, _.
Qed.

(** A state with other memory and counts. *)
Lemma recount_stable st v m gk : stable st v -> m_keys m = m_keys (ps_mem st) ->
  m_brk (ps_mem st) <= m_brk m -> (BLOCK | m_brk m) ->
  (forall t, s_key (gk t) = s_key (global_keys st t) /\ s_offset (gk t) = s_offset (global_keys st t)) ->
  stable (st <| ps_mem := m |> <| global_keys := gk |>) v.
Proof.
  intros Hst Hk Hb Hd Hg. eapply same_keys_stable; [exact Hst|]. split.
  - intros o a _. cbn. by rewrite Hk.
  - done.
  - exact Hg.
  - by intros [].
  - intros gpu i ss H. exists ss. by split.
Qed.

(** One object more. *)
Lemma objects_insert st st' a o d : objects_ok st -> o_type o <> PRIVATE_XSELINUX ->
  a = m_brk (ps_mem st) -> a < m_brk (ps_mem st') -> ps_objects st' = <[a := o]> (ps_objects st) ->
  (forall t, s_offset (global_keys st' t) = s_offset (global_keys st t) /\
     (t <> PRIVATE_XSELINUX -> s_created (global_keys st' t) = s_created (global_keys st t) + (if decide (t = o_type o) then 1 else 0))) ->
  (forall gpu i ss', sets_at st' gpu i = Some ss' -> exists ss, sets_at st gpu i = Some ss /\
     forall t, s_offset (ss' t) = s_offset (ss t) /\
       s_created (ss' t) = s_created (ss t) + (if decide (of_screen (gpu, i) t o) then 1 else 0)) ->
  (forall gpu i, is_Some (sets_at st' gpu i) <-> is_Some (sets_at st gpu i)) ->
  size_for st (o_type o) (o_screen o) = Some d -> p_len (o_privates o) = d -> objects_ok st'.
Proof.
  intros Hob Hx -> Hlt Eo Hg Hs Hd Hz Hl.
  assert (Hfresh : ps_objects st !! m_brk (ps_mem st) = None).
  { destruct (_ !! _) as [o'|] eqn:E; [|done]. destruct (ob_type _ Hob _ _ E). lia. }
  assert (Hsz : forall t s, size_for st' t s = size_for st t s).
  { intros t [[gpu i]|]; cbn.
    - destruct (sets_at st' gpu i) as [ss'|] eqn:E.
      + destruct (Hs _ _ _ E) as (ss & -> & F). cbn. by destruct (F t) as [-> _].
      + destruct (sets_at st gpu i) as [ss|] eqn:E2; [|done].
        destruct (proj2 (Hd gpu i) (ex_intro _ _ E2)) as [? ?]. congruence.
    - by destruct (Hg t) as [-> _]. }
  split.
  - intros a o'. rewrite Eo. intros [[<- <-]|[_ Ha]]%lookup_insert_Some; [done|].
    destruct (ob_type _ Hob _ _ Ha). split; [done|lia].
  - intros a o'. rewrite Eo. intros [[<- <-]|[_ Ha]]%lookup_insert_Some He; rewrite Hsz; [by rewrite Hl|].
    by apply (ob_size _ Hob a).
  - intros t He Ht. rewrite Eo, count_insert by done. destruct (Hg t) as [_ ->]; [|done].
    rewrite (ob_count _ Hob) by done. f_equal. apply decide_ext. unfold of_type. split; congruence.
  - intros gpu i ss' t Hss'. destruct (Hs _ _ _ Hss') as (ss & Hss & F). destruct (F t) as [_ ->].
    rewrite Eo, count_insert by done. pose proof (ob_screen _ Hob _ _ _ t Hss). lia.
Qed.

(** What an allocation with private storage does: the new object has zeros for
    all keys; there is none if memory fails. *)
Definition allocates (env : heap_env) (t : DevPrivateType) (s : option (bool * nat))
    (st st' : PrivState) (r : option Z) : Prop :=
  match r with
  | Some a => exists p d, ps_objects st !! a = None /\ ps_objects st' = <[a := Obj t s p]> (ps_objects st) /\
      size_for st t s = Some d /\ p_data p = zeros d
  | None => ps_objects st' = ps_objects st /\ no_memory env
  end.

Lemma no_object st : objects_ok st -> ps_objects st !! m_brk (ps_mem st) = None.
Proof. intros Hob. destruct (_ !! _) as [o'|] eqn:E; [|done]. destruct (ob_type _ Hob _ _ E). lia. Qed.

Lemma allocate_object_spec env st v baseSize clear t :
  stable st v -> objects_ok st -> t <> PRIVATE_XSELINUX -> t <> PRIVATE_SCREEN -> screen_specific_private t = false ->
  0 <= baseSize <= 2147483640 -> clear <= baseSize ->
  exists st' r, _dixAllocateObjectWithPrivates env st baseSize clear t = Ret (st', r) /\
    stable st' v /\ objects_ok st' /\ allocates env t None st st' r.
Proof.
  intros Hst Hob Hx Hsc Hsp Hbase Hclear. unfold _dixAllocateObjectWithPrivates.
  rewrite bool_decide_false by tauto. rewrite Hsp.
  pose proof (align_base_bounds _ Hbase) as Hal. pose proof (global_offset_range _ _ t (sb_wf _ _ Hst)) as Ho.
  rewrite u32_small by lia. destruct (wf_brk _ _ (sb_wf _ _ Hst)) as [Hb0 Hb1].
  destruct (mem_calloc_spec env (ps_mem st) (align_base baseSize + s_offset (global_keys st t)) Hb1)
    as (m & r & -> & Hk & Hle & Hd & Hr).
  destruct r as [a|].
  - destruct Hr as [-> Hb]. rewrite (proj2 (Z.ltb_ge _ clear)) by lia.
    unfold _dixInitPrivates. rewrite Hsp.
    change (s_offset (global_keys (st <| ps_mem := m |> <| global_keys ::= count_created t 1 |>) t))
      with (s_offset (count_created t 1 (global_keys st) t)).
    destruct (count_created_spec t 1 (global_keys st) t) as (_ & -> & _).
    destruct (clear_privates_spec (m_brk (ps_mem st) + align_base baseSize)
      (align_base baseSize + s_offset (global_keys st t) - align_base baseSize) (s_offset (global_keys st t)))
      as (p & -> & Hp & Hl); [lia..|].
    eexists _, _. split; [reflexivity|]. split_and!.
    + eapply same_keys_stable; [exact Hst|]. split.
      * intros o a _. cbn. by rewrite Hk.
      * done.
      * intros t'. destruct (count_created_spec t 1 (global_keys st) t') as (E1 & E2 & _). by split.
      * by intros [].
      * intros gpu i ss H. exists ss. by split.
    + eapply (objects_insert st _ (m_brk (ps_mem st)) (Obj t None p)); try done; cbn.
      * rewrite Hb. unfold BLOCK. lia.
      * intros t'. destruct (count_created_spec t 1 (global_keys st) t') as (_ & E2 & E3). by split.
      * intros gpu i ss H. exists ss. split; [done|]. intros t'. split; [done|].
        rewrite decide_False by (by intros [_ [=]]). lia.
    + exists p, (s_offset (global_keys st t)). by split_and!; [apply no_object| | |].
  - eexists _, None. split; [reflexivity|]. split_and!; [| |done].
    + eapply same_keys_stable; [exact Hst|]. split; try done.
      * intros o a _. cbn. by rewrite Hk.
      * intros gpu i ss H. exists ss. by split.
    + eapply objects_same; try done. intros gpu i ss H. by exists ss.
Qed.

(** ** Objects of screens *)

Section CountScreen.
Context (gpu : bool) (i : nat) (t : DevPrivateType) (st : PrivState).

(** The screen counts one object more. *)
Definition counted_screen : PrivState :=
  let more := fun s => s <| screenSpecificPrivates ::= set_of t (fun set => set <| s_created ::= Z.add 1 |>) |> in
  if gpu then st <| ps_gpuscreens ::= alter more i |> else st <| ps_screens ::= alter more i |>.

Lemma counted_screen_at g j : screen_at counted_screen g j =
  (if decide ((g, j) = (gpu, i)) then
     fun s => s <| screenSpecificPrivates ::= set_of t (fun set => set <| s_created ::= Z.add 1 |>) |>
   else id) <$> screen_at st g j.
Proof.
  unfold counted_screen, screen_at. destruct gpu, g; cbn;
    try (rewrite decide_False by congruence; by rewrite option_fmap_id);
    (destruct (decide (j = i)) as [->|Hne];
      [rewrite decide_True by done; by rewrite list_lookup_alter_eq|
       rewrite decide_False by congruence; rewrite option_fmap_id; by apply list_lookup_alter_ne]).
Qed.

Lemma counted_screen_slots sl : slot_get counted_screen sl = slot_get st sl.
Proof.
  assert (Ho : serverClient counted_screen = serverClient st /\ ps_extensions counted_screen = ps_extensions st /\
    ps_devices counted_screen = ps_devices st /\ ps_off_devices counted_screen = ps_off_devices st)
    by (unfold counted_screen; by destruct gpu).
  destruct Ho as (H1 & H2 & H3 & H4). destruct sl as [g j| |j|j|[] j]; cbn [slot_get]; try congruence.
  - rewrite counted_screen_at. destruct (screen_at st g j) as [s|]; cbn; [|done]. by destruct (decide _).
  - pose proof (counted_screen_at false j) as E. unfold screen_at in E. rewrite E.
    destruct (ps_screens st !! j) as [s|]; cbn; [|done]. by destruct (decide _).
Qed.

Lemma counted_screen_sets g j ss' : sets_at counted_screen g j = Some ss' ->
  exists ss, sets_at st g j = Some ss /\ forall t', s_key (ss' t') = s_key (ss t') /\ s_offset (ss' t') = s_offset (ss t') /\
    s_created (ss' t') = s_created (ss t') + (if decide (t = t' /\ Some (gpu, i) = Some (g, j)) then 1 else 0).
Proof.
  unfold sets_at. rewrite counted_screen_at. destruct (screen_at st g j) as [s|]; [|done]. cbn. intros [= <-].
  exists (screenSpecificPrivates s). split; [done|]. intros t'.
  destruct (decide ((g, j) = (gpu, i))) as [E|E]; cbn.
  - unfold set_of. destruct (decide (t' = t)) as [->|Hne]; cbn.
    + rewrite decide_True by (split; [done|congruence]). split_and!; try done. lia.
    + rewrite decide_False by (intros [? _]; congruence). split_and!; try done. lia.
  - rewrite decide_False by (intros [_ ?]; congruence). split_and!; try done. lia.
Qed.
End CountScreen.

(** The size of the storage of a screen's objects, as the code reads it. *)
Lemma screen_privates_size_spec st v s t d : stable st v -> size_for st t s = Some d ->
  screen_privates_size st s t = Ret d /\ 0 <= d < 2147483648.
Proof.
  intros Hst Hd. unfold screen_privates_size. destruct s as [[gpu i]|]; unfold size_for, sets_at in Hd.
  - destruct (screen_at st gpu i) as [s|] eqn:Es; [|done]. cbn in Hd |- *. injection Hd as <-.
    assert (sets_at st gpu i = Some (screenSpecificPrivates s)) as Hss by (unfold sets_at; by rewrite Es).
    destruct (wf_small _ _ (sb_wf _ _ Hst)) as (_ & _ & H3). specialize (H3 _ _ _ t Hss).
    destruct (wf_screen _ _ (sb_wf _ _ Hst) _ _ _ t Hss) as [_ Hti%tiled_mono].
    destruct (wf_low _ _ (sb_wf _ _ Hst) t) as [_ Hlow]. specialize (Hlow (gpu, i)).
    rewrite i32_small by lia. split; [done|lia].
  - injection Hd as <-. pose proof (global_offset_range _ _ t (sb_wf _ _ Hst)). by rewrite i32_small by lia.
Qed.

Lemma allocate_screen_object_spec env st v s baseSize t d :
  stable st v -> objects_ok st -> screen_specific_private t = true -> size_for st t s = Some d ->
  0 <= baseSize <= 2147483640 ->
  exists st' r, _dixAllocateScreenObjectWithPrivates env st s baseSize t = Ret (st', r) /\
    stable st' v /\ objects_ok st' /\ allocates env t s st st' r.
Proof.
  intros Hst Hob Hsp Hd Hbase. unfold _dixAllocateScreenObjectWithPrivates.
  assert (Hx : t <> PRIVATE_XSELINUX /\ t <> PRIVATE_SCREEN) by (split; intros ->; done).
  rewrite bool_decide_false by tauto. rewrite Hsp. cbn [negb].
  destruct (screen_privates_size_spec _ _ _ _ _ Hst Hd) as [Es Hr]. rewrite Es. cbn [obind].
  pose proof (align_base_bounds _ Hbase) as Hal. rewrite u32_small by lia.
  destruct (wf_brk _ _ (sb_wf _ _ Hst)) as [Hb0 Hb1].
  destruct (mem_calloc_spec env (ps_mem st) (align_base baseSize + d) Hb1) as (m & r & -> & Hk & Hle & Hdv & Hres).
  destruct r as [a|].
  2:{ eexists _, None. split; [reflexivity|]. split_and!; [| |done].
    - eapply same_keys_stable; [exact Hst|]. split; try done.
      + intros o a _. cbn. by rewrite Hk.
      + intros gpu i ss H. exists ss. by split.
    - eapply objects_same; try done. intros gpu i ss H. by exists ss. }
  destruct Hres as [-> Hb]. unfold _dixInitScreenPrivates. rewrite Hsp. cbn [negb].
  assert (screen_privates_size (st <| ps_mem := m |>) s t = Ret d) as -> by (rewrite <- Es; by destruct s as [[[] i]|]).
  cbn [obind]. set (st1 := match s with Some _ => _ | None => _ end).
  assert (H1 : ps_mem st1 = m /\ global_keys st1 = global_keys st /\ ps_objects st1 = ps_objects st /\
    (forall sl, slot_get st1 sl = slot_get st sl) /\
    (forall gpu i ss', sets_at st1 gpu i = Some ss' -> exists ss, sets_at st gpu i = Some ss /\
       forall t', s_key (ss' t') = s_key (ss t') /\ s_offset (ss' t') = s_offset (ss t') /\
         s_created (ss' t') = s_created (ss t') + (if decide (of_screen (gpu, i) t' (Obj t s no_privates)) then 1 else 0))).
  { unfold st1. destruct s as [[gpu i]|].
    - fold (counted_screen gpu i t (st <| ps_mem := m |>)). split_and!; [by destruct gpu..| |].
      + intros sl. rewrite counted_screen_slots. by destruct sl.
      + exact (counted_screen_sets gpu i t (st <| ps_mem := m |>)).
    - split_and!; [done..|]. intros gpu i ss H. exists ss. split; [done|]. intros t'. split_and!; [done..|].
      rewrite decide_False by (by intros [_ [=]]). lia. }
  destruct H1 as (Em & Eg & Eo & Esl & Ess).
  destruct (clear_privates_spec (m_brk (ps_mem st) + align_base baseSize) (align_base baseSize + d - align_base baseSize) d)
    as (p & -> & Hp & Hl); [lia..|]. cbn [obind].
  eexists _, _. split; [reflexivity|]. split_and!.
  - eapply same_keys_stable; [exact Hst|]. split.
    + intros o a _. cbn. by rewrite Em, Hk.
    + cbn. by rewrite Em.
    + intros t'. cbn. rewrite Eg. destruct (count_created_spec t 1 (global_keys st) t') as (E1 & E2 & _). by split.
    + exact Esl.
    + intros gpu i ss' H. destruct (Ess gpu i ss' H) as (ss & Hss & F). exists ss. split; [done|].
      intros t'. by destruct (F t') as (? & ? & _).
  - eapply (objects_insert st _ (m_brk (ps_mem st)) (Obj t s p)); try done; cbn; rewrite ?Em, ?Eg, ?Eo.
    + apply Hx.
    + rewrite Hb. unfold BLOCK. lia.
    + done.
    + intros t'. destruct (count_created_spec t 1 (global_keys st) t') as (_ & E2 & E3). by split.
    + intros gpu i ss' H. destruct (Ess gpu i ss' H) as (ss & Hss & F). exists ss. split; [done|].
      intros t'. destruct (F t') as (_ & H2 & H3). by split.
    + apply slots_sets. intros sl. change (is_Some (slot_get st1 sl) <-> is_Some (slot_get st sl)). by rewrite Esl.
  - exists p, d. cbn. rewrite Eo. split_and!; try done. by apply no_object.
Qed.

(** ** Freeing *)

Lemma free_privates_spec st v a o : stable st v -> objects_ok st ->
  ps_objects st !! a = Some o -> (forall k, listed st k -> ~ a <= k < a + BLOCK) ->
  exists st', _dixFreeObjectWithPrivates st a (o_type o) = Ret st' /\ priv_ok st' /\ objects_ok st' /\
    ps_objects st' = delete a (ps_objects st).
Proof.
  intros H0 Hob Ha Hfree. pose proof (no_ghost_stable _ _ H0) as Hst. unfold _dixFreeObjectWithPrivates. rewrite Ha. cbn [obind_opt].
  eexists. split; [reflexivity|]. pose proof (ob_type _ Hob _ _ Ha) as [Hx Hlt]. split_and!; [| |done].
  - exists (no_ghost_screens st v). eapply same_keys_stable; [exact Hst|]. split.
    + intros ow k Hk. apply ghost_listed in Hk; [|apply H0]. specialize (Hfree k Hk). cbn.
      apply option_eq. intros r. rewrite map_lookup_filter_Some. naive_solver.
    + cbn. split; [done|apply (wf_brk _ _ (sb_wf _ _ Hst))].
    + intros t. cbn. destruct (count_created_spec (o_type o) (-1) (global_keys st) t) as (E1 & E2 & _). by split.
    + by intros [].
    + intros gpu i ss H. exists ss. by split.
  - split.
    + intros b o'. cbn. intros [_ Hb]%lookup_delete_Some. by apply (ob_type _ Hob).
    + intros b o'. cbn. intros [_ Hb]%lookup_delete_Some He.
      destruct (count_created_spec (o_type o) (-1) (global_keys st) (o_type o')) as (_ & E2 & _).
      rewrite <- (ob_size _ Hob _ _ Hb He). destruct (o_screen o') as [[gpu i]|]; [done|]. cbn. by rewrite E2.
    + intros t He Ht. cbn. destruct (count_created_spec (o_type o) (-1) (global_keys st) t) as (_ & _ & E3).
      rewrite E3, (ob_count _ Hob) by done. rewrite (count_delete _ _ _ _ Ha).
      destruct (decide (t = o_type o)), (decide (of_type t o)); unfold of_type in *; lia || congruence.
    + intros gpu i ss t Hss. cbn. rewrite (count_delete _ _ _ _ Ha). pose proof (ob_screen _ Hob gpu i ss t Hss).
      case_decide; lia.
Qed.

(** ** Keys of one screen *)

(** What the registration of a screen's key needs.  The key's record may be in
    the screen's own storage. *)
Record may_register_screen (st : PrivState) (gpu : bool) (i : nat) (key : Z) (t : DevPrivateType) (size : Z) : Prop :=
  MayRegisterScreen {
    ms_type : screen_specific_private t = true;
    ms_key : exists r, key_at (ps_mem st) key = Some r /\ k_initialized r = false;
    ms_place : 0 < key < m_brk (ps_mem st) /\ forall sl p, slot_get st sl = Some p -> in_block p key ->
      sl = ScreenSlot gpu i /\ key < p_addr p + s_offset (global_keys st PRIVATE_SCREEN);
    ms_size : 0 <= size <= 2147483640;
    ms_screen : exists ss, sets_at st gpu i = Some ss /\ s_created (ss t) = 0 /\
      s_offset (ss t) + key_bytes size < 2147483648;
  }.

Section ScreenKey.
Context (st : PrivState) (v : ghost) (gpu : bool) (i : nat) (s : ScreenRec) (t : DevPrivateType) (key size : Z).
Notation o1 := (Some (gpu, i), t).
Notation set1 := (screenSpecificPrivates s t).
Definition screen_key_added : ghost :=
  v <| g_keys ::= fun keys o => if decide (o = o1) then key :: keys o else keys o |>.
Definition screen_key_mem : Memory :=
  ps_mem st <| m_keys := <[key := KeyRec (s_offset set1) size true false t (s_key set1)]> (m_keys (ps_mem st)) |>.
Definition with_screen_key : PrivState := with_screen st gpu i screen_key_mem
    (s <| screenSpecificPrivates ::= set_of t (fun set => set <| s_offset := s_offset set1 + key_bytes size |> <| s_key := key |>) |>).
Context (Hs : screen_at st gpu i = Some s).

Lemma screen_key_slots sl : slot_get with_screen_key sl = slot_get st sl.
Proof using Hs.
  destruct (decide (sl = ScreenSlot gpu i)) as [->|Hne].
  - unfold with_screen_key. rewrite (with_screen_get st gpu i _ _ _ Hs). cbn. by rewrite Hs.
  - by apply (with_screen_other st gpu i _ _ _ Hs).
Qed.

Lemma screen_key_sets g j ss' : sets_at with_screen_key g j = Some ss' ->
  exists ss, sets_at st g j = Some ss /\ forall t', ss' t' =
    if decide ((Some (g, j), t') = o1) then set1 <| s_offset := s_offset set1 + key_bytes size |> <| s_key := key |> else ss t'.
Proof using Hs.
  intros H%(with_screen_sets _ _ _ _ s); [|exact Hs]. case_decide as Hd.
  - destruct Hd as [-> ->]. subst ss'. unfold sets_at. rewrite Hs. exists (screenSpecificPrivates s). split; [done|].
    intros t'. cbn. unfold set_of. destruct (decide (t' = t)) as [->|Hne]; [by rewrite decide_True|].
    by rewrite decide_False by congruence.
  - exists ss'. split; [done|]. intros t'. rewrite decide_False; [done|]. intros [= -> -> _]. by apply Hd.
Qed.

Context (Hst : stable st v) (Hm : may_register_screen st gpu i key t size)
  (Hnew : forall o, key ∉ g_keys v o).
Notation st' := with_screen_key.
Notation v' := screen_key_added.

Lemma screen_key_cell o a : a ∈ g_keys v o -> m_keys (ps_mem st') !! a = m_keys (ps_mem st) !! a.
Proof using Hnew.
  intros Ha. unfold with_screen_key. rewrite with_screen_mem. cbn. rewrite lookup_insert_ne; [done|].
  intros E. apply (Hnew o). by rewrite E.
Qed.

Lemma screen_key_set : sets_at st gpu i = Some (screenSpecificPrivates s) /\
  s_created set1 = 0 /\ s_offset set1 + key_bytes size < 2147483648.
Proof using Hs Hm.
  destruct (ms_screen _ _ _ _ _ _ Hm) as (ss & Hss & H). unfold sets_at in *. rewrite Hs in *.
  injection Hss as <-. done.
Qed.

Lemma screen_key_stable : stable st' v'.
Proof.
  pose proof (sb_wf _ _ Hst) as Hwf. destruct screen_key_set as (Hset & Hc & Hn).
  destruct (key_bytes_bounds _ (ms_size _ _ _ _ _ _ Hm)) as [Hb _].
  assert (Hmem : m_brk (ps_mem st') = m_brk (ps_mem st)) by (unfold with_screen_key; by rewrite with_screen_mem).
  assert (Hgk : global_keys st' = global_keys st) by apply with_screen_gk.
  assert (Hl : forall o p, linked (m_keys (ps_mem st)) p (g_keys v o) -> linked (m_keys (ps_mem st')) p (g_keys v o)).
  { intros o p. apply linked_next. intros a Ha. by rewrite (screen_key_cell o). }
  assert (Ht : forall o t' hi lo, tiled (m_keys (ps_mem st)) t' hi (g_keys v o) lo -> tiled (m_keys (ps_mem st')) t' hi (g_keys v o) lo).
  { intros o t' hi lo. apply tiled_ext. intros a Ha. by rewrite (screen_key_cell o). }
  assert (Hk : forall o, o <> o1 -> g_keys v' o = g_keys v o) by (intros o Ho; cbn; by rewrite decide_False).
  assert (Hel : forall o a, a ∈ g_keys v' o -> a ∈ g_keys v o \/ (a = key /\ o = o1)).
  { intros o a. cbn. case_decide; [|by left]. intros [->|Ha]%elem_of_cons; [by right|by left]. }
  assert (Hrec : m_keys (ps_mem st') !! key = Some (KeyRec (s_offset set1) size true false t (s_key set1))).
  { unfold with_screen_key. rewrite with_screen_mem. apply lookup_insert_eq. }
  split.
  - split; rewrite ?Hgk, ?Hmem; try apply Hwf.
    + intros t' Ht'. rewrite Hk by done. destruct (wf_global _ _ Hwf t' Ht'). split; [by apply Hl|by apply Ht].
    + rewrite Hk by done. destruct (wf_selinux _ _ Hwf) as (H1 & H2 & H3). split_and!; [by apply Hl| |done].
      eapply flat_ext, H2. intros a. apply screen_key_cell.
    + intros g j ss' t' Hss'. destruct (screen_key_sets _ _ _ Hss') as (ss & Hss & E). rewrite E.
      case_decide as Hd.
      * injection Hd as -> -> ->. destruct (wf_screen _ _ Hwf _ _ _ t Hset) as [H1 H2].
        cbn [g_keys screen_key_added set_field s_key s_offset]. cbn. rewrite decide_True by done. split.
        -- split_and!; [done|by destruct (ms_place _ _ _ _ _ _ Hm); lia|].
           eexists. split; [exact Hrec|]. by apply Hl.
        -- eexists. split; [exact Hrec|]. cbn [k_initialized k_type k_size k_offset].
           do 2 (split; [done|]). split; [apply (ms_size _ _ _ _ _ _ Hm)|]. split; [done|]. by apply Ht.
      * destruct (wf_screen _ _ Hwf _ _ _ t' Hss). rewrite Hk by done. split; [by apply Hl|by apply Ht].
    + intros g j t' Hsp. rewrite Hk; [by apply (wf_specific _ _ Hwf)|].
      intros [= -> -> ->]. pose proof (ms_type _ _ _ _ _ _ Hm). congruence.
    + intros q1 q2 a [H1|[-> ->]]%Hel [H2|[E ->]]%Hel; [by eapply (wf_disjoint _ _ Hwf)|subst a; by apply Hnew in H1|by apply Hnew in H2|done].
    + destruct (wf_small _ _ Hwf) as (H1 & H2 & H3). split_and!; [done..|].
      intros g j ss' t' Hss'. destruct (screen_key_sets _ _ _ Hss') as (ss & Hss & E). rewrite E.
      case_decide; [done|by eapply H3].
    + intros o a [Ha|[-> ->]]%Hel.
      * destruct (wf_place _ _ Hwf _ _ Ha) as [H1 H2]. split; [done|]. intros sl p. rewrite screen_key_slots. apply H2.
      * destruct (ms_place _ _ _ _ _ _ Hm) as [H1 H2]. split; [done|]. intros sl p. rewrite screen_key_slots. intros Hp Hin.
        destruct (H2 sl p Hp Hin) as [-> Hlt]. split; [done|]. change (g_end v' (ScreenSlot gpu i)) with (g_end v (ScreenSlot gpu i)).
        by destruct (sb_data _ _ Hst _ _ Hp) as [_ ->].
    + intros sl p. rewrite screen_key_slots. apply (wf_block _ _ Hwf).
    + intros s1 s2 p1 p2. rewrite !screen_key_slots. apply (wf_slots _ _ Hwf).
    + intros sl p. rewrite screen_key_slots. apply (wf_data _ _ Hwf).
  - apply (sb_base _ _ Hst).
  - intros g j t' [ss' Hss']. destruct (screen_key_sets _ _ _ Hss') as (ss & Hss & _). rewrite Hgk.
    apply (sb_low _ _ Hst). by exists ss.
  - intros sl p. rewrite screen_key_slots, Hgk. apply (sb_data _ _ Hst).
Qed.

Lemma screen_key_objects : objects_ok st -> objects_ok st'.
Proof using Hs Hm.
  intros Hob. destruct screen_key_set as (Hset & Hc & Hn).
  assert (Hgk : global_keys st' = global_keys st) by apply with_screen_gk.
  apply (objects_same st); try done.
  - apply with_screen_objects.
  - unfold with_screen_key. by rewrite with_screen_mem.
  - intros t'. by rewrite Hgk.
  - apply slots_sets. intros sl. by rewrite screen_key_slots.
  - intros g j ss' Hss'. destruct (screen_key_sets _ _ _ Hss') as (ss & Hss & E). exists ss. split; [done|].
    intros t'. rewrite E. case_decide as Hd; [|done]. injection Hd as -> -> ->. rewrite Hset in Hss. by injection Hss as <-.
  - intros t' sc He (a & o & Ha & <- & <-) Hsz. unfold size_for in *. destruct (o_screen o) as [[g j]|] eqn:Eo; [|by rewrite Hgk].
    destruct (sets_at st' g j) as [ss'|] eqn:E; [|by destruct Hsz].
    destruct (screen_key_sets _ _ _ E) as (ss & Hss & F). rewrite Hss. cbn. f_equal. rewrite F.
    case_decide as Hd; [|done]. exfalso. injection Hd as -> -> Et.
    pose proof (count_pos (of_screen (gpu, i) t) _ _ _ Ha (conj Et Eo)) as Hp.
    pose proof (ob_screen _ Hob _ _ _ t Hset). lia.
Qed.
End ScreenKey.

Lemma early_not_specific t : screen_specific_private t = true -> allocated_early t = false.
Proof. by destruct t. Qed.

(** A screen's key is registered: it gets the range behind the others. *)
Lemma register_screen_spec st v gpu i key t size :
  stable st v -> objects_ok st -> may_register_screen st gpu i key t size ->
  exists s, screen_at st gpu i = Some s /\
    dixRegisterScreenSpecificPrivateKey st gpu i key t size = Ret (with_screen_key st gpu i s t key size, true) /\
    priv_ok (with_screen_key st gpu i s t key size) /\ objects_ok (with_screen_key st gpu i s t key size).
Proof.
  intros H0 Hob Hm. pose proof (no_ghost_stable _ _ H0) as Hst.
  destruct (ms_screen _ _ _ _ _ _ Hm) as (ss & Hss & Hc & Hn). pose proof Hss as Hss'. unfold sets_at in Hss.
  destruct (screen_at st gpu i) as [s|] eqn:Hs; [|done]. injection Hss as <-. exists s. split; [done|].
  destruct (ms_key _ _ _ _ _ _ Hm) as (r & Hr & Hi).
  assert (Hnew : forall o, key ∉ g_keys (no_ghost_screens st v) o).
  { intros o Ho. destruct o as [[[g j]|] t'] eqn:Eo.
    - destruct (sets_at st g j) as [ss|] eqn:E.
      + eapply (unlisted st _ key r (Some (g, j), t')); [apply Hst| |exact Hr|done|exact Ho].
        intros g2 j2 t2 [= <- <- <-]. by exists ss.
      + cbn in Ho. rewrite E in Ho. by apply not_elem_of_nil in Ho.
    - eapply (unlisted st _ key r (None, t')); [apply Hst|by intros ??? [=]|exact Hr|done|exact Ho]. }
  split; [|split].
  - unfold dixRegisterScreenSpecificPrivateKey. rewrite (ms_type _ _ _ _ _ _ Hm). cbn [negb].
    rewrite Hr. cbn [obind_opt]. rewrite Hi, Hs. cbn [obind_opt].
    rewrite (early_not_specific t) by apply Hm. rewrite Hc. cbn [Z.eqb negb].
    pose proof (ms_size _ _ _ _ _ _ Hm) as Hsz. destruct (key_bytes_bounds _ Hsz).
    pose proof (proj2 (screen_privates_size_spec st _ (Some (gpu, i)) t _ Hst (f_equal (fmap (fun ss => s_offset (ss t))) Hss'))) as Ho.
    rewrite !i32_small, u32_small by lia. reflexivity.
  - exists (screen_key_added (no_ghost_screens st v) gpu i t key). by eapply screen_key_stable.
  - by eapply screen_key_objects.
Qed.

(** ** Private storage over time *)

(** What the server does with it. *)
Inductive priv_step (env : heap_env) (st : PrivState) : PrivState -> Prop :=
  | StepRegister key t size st' ok :
      may_register st key t size ->
      dixRegisterPrivateKey env st key t size = Ret (st', ok) -> priv_step env st st'
  | StepRegisterScreen gpu i key t size st' ok :
      may_register_screen st gpu i key t size ->
      dixRegisterScreenSpecificPrivateKey st gpu i key t size = Ret (st', ok) -> priv_step env st st'
  | StepAllocate baseSize clear t st' r :
      t <> PRIVATE_XSELINUX -> t <> PRIVATE_SCREEN -> screen_specific_private t = false ->
      0 <= baseSize <= 2147483640 -> clear <= baseSize ->
      _dixAllocateObjectWithPrivates env st baseSize clear t = Ret (st', r) -> priv_step env st st'
  | StepAllocateScreen s baseSize t st' r :
      screen_specific_private t = true -> is_Some (size_for st t s) -> 0 <= baseSize <= 2147483640 ->
      _dixAllocateScreenObjectWithPrivates env st s baseSize t = Ret (st', r) -> priv_step env st st'
  | StepFree object o st' :
      ps_objects st !! object = Some o -> (forall k, listed st k -> ~ object <= k < object + BLOCK) ->
      _dixFreeObjectWithPrivates st object (o_type o) = Ret st' -> priv_step env st st'
  | StepStore sl p t key r val p' :
      slot_get st sl = Some p -> registered st t key -> serves t (slot_type sl) ->
      key_at (ps_mem st) key = Some r -> k_size r = 0 ->
      dixSetPrivate (ps_mem st) p key val = Ret p' -> priv_step env st (write_slot st sl p').

(** When a server starts: no keys, no storage, no objects. *)
Record fresh (st : PrivState) : Prop := Fresh {
  fr_sets t : global_keys st t = SetRec 0 0 0 0;
  fr_screens gpu i ss t : sets_at st gpu i = Some ss -> ss t = SetRec 0 0 0 0;
  fr_slots sl p : slot_get st sl = Some p -> p = no_privates;
  fr_objects : ps_objects st = ∅;
  fr_brk : 0 < m_brk (ps_mem st) /\ (BLOCK | m_brk (ps_mem st));
}.

Definition no_keys : ghost := Ghost (fun _ => []) (fun _ => 0) (fun _ _ => 0) (fun _ => 0) (fun _ => []) 0.

Lemma fresh_stable st : fresh st -> stable st no_keys.
Proof.
  intros [H1 H2 H3 H4 H5]. split; try done.
  - split; try done.
    + intros t _. by rewrite H1.
    + by rewrite H1.
    + intros gpu i ss t Hss. by rewrite (H2 _ _ _ t Hss).
    + intros o1 o2 a ?%not_elem_of_nil. done.
    + split_and!; [done| |].
      * intros t. by rewrite H1.
      * intros gpu i ss t Hss. by rewrite (H2 _ _ _ t Hss).
    + intros o a ?%not_elem_of_nil. done.
    + intros sl p Hp. left. by eapply H3.
    + intros s1 s2 p1 p2 Hp1. by rewrite (H3 _ _ Hp1).
    + intros sl p Hp. rewrite (H3 _ _ Hp). done.
  - intros t _. by destruct (xselinux_private t).
  - intros gpu i t _. by rewrite H1.
  - intros sl p Hp. by rewrite H1.
Qed.

Lemma fresh_objects st : fresh st -> objects_ok st.
Proof.
  intros [H1 H2 H3 H4 H5]. split.
  - intros a o. rewrite H4. by rewrite lookup_empty.
  - intros a o. rewrite H4. by rewrite lookup_empty.
  - intros t _ _. by rewrite H1, H4.
  - intros gpu i ss t Hss. by rewrite (H2 _ _ _ t Hss), H4.
Qed.

Lemma write_objects st sl p p' : slot_get st sl = Some p -> objects_ok st -> objects_ok (write_slot st sl p').
Proof.
  intros Hp Hob. pose proof (write_slot_written st sl p p' Hp) as [Em Eg Eo _ _ Es].
  apply (objects_same st); try done.
  - by rewrite Em.
  - intros t. by rewrite Eg.
  - intros gpu i. by rewrite Es.
  - intros gpu i ss Hss. rewrite Es in Hss. by exists ss.
  - intros t [[gpu i]|] _ _ _; cbn; [by rewrite Es|by rewrite Eg].
Qed.

Lemma step_ok env st st' : priv_step env st st' -> priv_ok st /\ objects_ok st -> priv_ok st' /\ objects_ok st'.
Proof.
  intros Hstep [Hp Hob]. pose proof Hp as [v Hst].
  destruct Hstep as [key t size st1 ok Hm E|gpu i key t size st1 ok Hm E|baseSize clear t st1 r Hx Hsc Hsp Hb Hc E|
    s baseSize t st1 r Hsp [d Hd] Hb E|object o st1 Ho Hfree E|sl p t key r val p' Hget Hreg Hserve Hr Hs E].
  - destruct (register_spec env st key t size Hp Hm) as (st2 & ok2 & E2 & Hres). rewrite E in E2. injection E2 as <- <-.
    split; [apply Hres|by eapply register_objects].
  - destruct (register_screen_spec st v gpu i key t size Hst Hob Hm) as (s & _ & E2 & Hres). rewrite E in E2.
    by injection E2 as -> ->.
  - destruct (allocate_object_spec env st v baseSize clear t Hst Hob Hx Hsc Hsp Hb Hc) as (st2 & r2 & E2 & Hst2 & Hob2 & _).
    rewrite E in E2. injection E2 as <- <-. split; [by exists v|done].
  - destruct (allocate_screen_object_spec env st v s baseSize t d Hst Hob Hsp Hd Hb) as (st2 & r2 & E2 & Hst2 & Hob2 & _).
    rewrite E in E2. injection E2 as <- <-. split; [by exists v|done].
  - destruct (free_privates_spec st v object o Hst Hob Ho Hfree) as (st2 & E2 & Hst2 & Hob2 & _).
    rewrite E in E2. by injection E2 as <-.
  - destruct (store_spec st t key r sl p val Hp Hget Hreg Hserve Hr Hs) as (p2 & E2 & _ & Hok2 & _).
    rewrite E in E2. injection E2 as <-. split; [done|by eapply write_objects].
Qed.

Lemma reachable_ok env st0 st : fresh st0 -> rtc (priv_step env) st0 st -> priv_ok st /\ objects_ok st.
Proof.
  intros Hf. apply (rtc_ind_r (fun st => priv_ok st /\ objects_ok st) st0).
  - split; [exists no_keys; by apply fresh_stable|by apply fresh_objects].
  - intros st1 st2 _. apply step_ok.
Qed.

(** ** The keys of an object *)

(** The key has a range in the storage of the object: it is one of all objects of
    its type, or of those of its screen. *)
Definition key_of (st : PrivState) (o : Object) (k : Z) : Prop :=
  registered st (o_type o) k \/
  exists gpu i ss l, o_screen o = Some (gpu, i) /\ sets_at st gpu i = Some ss /\
    linked (m_keys (ps_mem st)) (s_key (ss (o_type o))) l /\ k ∈ l.

Section ObjectKeys.
Context (st : PrivState) (v : ghost) (a : Z) (o : Object).
Context (Hst : stable st v) (Hob : objects_ok st) (Ha : ps_objects st !! a = Some o)
  (Hlate : allocated_early (o_type o) = false).
Notation t := (o_type o).

Lemma object_type : t <> PRIVATE_XSELINUX.
Proof using Hob Ha. by destruct (ob_type _ Hob _ _ Ha). Qed.

(** A screen's keys follow those of all objects. *)
Lemma object_size : s_offset (global_keys st t) <= p_len (o_privates o) /\
  forall gpu i ss, o_screen o = Some (gpu, i) -> sets_at st gpu i = Some ss -> s_offset (ss t) = p_len (o_privates o).
Proof using Hst Hob Ha Hlate.
  pose proof (ob_size _ Hob _ _ Ha Hlate) as Hsz. unfold size_for in Hsz.
  destruct (o_screen o) as [[gpu i]|].
  - destruct (sets_at st gpu i) as [ss|] eqn:E; [|done]. cbn in Hsz. injection Hsz as Hsz. split.
    + destruct (wf_screen _ _ (sb_wf _ _ Hst) _ _ _ t E) as [_ Hti%tiled_mono].
      rewrite (sb_low _ _ Hst) in Hti by by exists ss. lia.
    + intros g j ss' [= <- <-] E'. rewrite E in E'. by injection E' as <-.
  - injection Hsz as Hsz. split; [lia|]. done.
Qed.

Inductive key_where (k : Z) (r : DevPrivateKeyRec) : Prop :=
  | key_global : k ∈ g_keys v (None, t) -> k_offset r + key_bytes (k_size r) <= s_offset (global_keys st t) -> key_where k r
  | key_screen gpu i : o_screen o = Some (gpu, i) -> is_Some (sets_at st gpu i) -> k ∈ g_keys v (Some (gpu, i), t) ->
      s_offset (global_keys st t) <= k_offset r -> key_where k r.

Lemma key_of_where k : key_of st o k -> exists r, key_at (ps_mem st) k = Some r /\ k_initialized r = true /\
  0 <= k_size r <= 2147483640 /\ g_base v t <= k_offset r /\ k_offset r + key_bytes (k_size r) <= p_len (o_privates o) /\ key_where k r.
Proof using Hst Hob Ha Hlate.
  pose proof (sb_wf _ _ Hst) as Hwf. destruct object_size as [Hg Hs].
  destruct (wf_global _ _ Hwf t object_type) as [Hl Hti]. intros [Hk|(gpu & i & ss & l & Eo & Hss & Hll & Hk)].
  - apply (registered_elem _ _ _ _ Hwf) in Hk.
    destruct (tiled_key _ _ _ _ _ _ Hti Hk) as (r & Hr & Hi & _ & Hsz & Hlo & Hhi).
    exists r. split_and!; try done; try lia. by apply key_global.
  - destruct (wf_screen _ _ Hwf _ _ _ t Hss) as [Hl2 Ht2]. rewrite (linked_unique _ _ _ _ Hll Hl2) in Hk.
    destruct (tiled_key _ _ _ _ _ _ Ht2 Hk) as (r & Hr & Hi & _ & Hsz & Hlo & Hhi).
    rewrite (sb_low _ _ Hst) in Hlo by by exists ss. rewrite (Hs _ _ _ Eo Hss) in Hhi.
    apply tiled_mono in Hti. exists r. split_and!; try done; try lia.
    eapply key_screen; try done.
Qed.

Lemma object_keys_apart k1 k2 r1 r2 : key_of st o k1 -> key_of st o k2 -> k1 <> k2 ->
  key_at (ps_mem st) k1 = Some r1 -> key_at (ps_mem st) k2 = Some r2 ->
  k_offset r1 + key_bytes (k_size r1) <= k_offset r2 \/ k_offset r2 + key_bytes (k_size r2) <= k_offset r1.
Proof using Hst Hob Ha Hlate.
  intros H1 H2 Hne E1 E2. pose proof (sb_wf _ _ Hst) as Hwf.
  destruct (key_of_where _ H1) as (r1' & F1 & _ & _ & _ & _ & W1). destruct (key_of_where _ H2) as (r2' & F2 & _ & _ & _ & _ & W2).
  rewrite E1 in F1. injection F1 as <-. rewrite E2 in F2. injection F2 as <-.
  destruct W1 as [M1 O1|g1 i1 S1 [ss Hss] M1 O1], W2 as [M2 O2|g2 i2 S2 Hs2 M2 O2]; [|lia|lia|].
  - destruct (wf_global _ _ Hwf t object_type) as [_ Hti]. by apply (tiled_apart _ _ _ _ _ k1 k2 _ _ Hti).
  - rewrite S1 in S2. injection S2 as <- <-. destruct (wf_screen _ _ Hwf _ _ _ t Hss) as [_ Hti].
    by apply (tiled_apart _ _ _ _ _ k1 k2 _ _ Hti).
Qed.
End ObjectKeys.

(** C8: At any time, whatever keys were registered, objects allocated and freed
    and pointers stored before: an object of a type for which keys are only
    registered while there are no objects ([allocated_early] is false; clients,
    colormaps, devices, extensions and screens are the other types) has, in its storage, a range for every key of its type, of all
    objects and of its own screen, no two of which meet, and, behind none of
    them, space for the security extension's keys if its type has them.  Of the
    other types the objects that registrations visit are the matter of
    [dixRegisterPrivateKey_keeps]. *)
Theorem reachable_objects_fit env st0 st a o :
  fresh st0 -> rtc (priv_step env) st0 st -> ps_objects st !! a = Some o -> allocated_early (o_type o) = false ->
  (forall k, key_of st o k -> exists r, key_at (ps_mem st) k = Some r /\ k_initialized r = true /\
     0 <= k_offset r /\ k_offset r + key_bytes (k_size r) <= p_len (o_privates o)) /\
  (forall k1 k2 r1 r2, key_of st o k1 -> key_of st o k2 -> k1 <> k2 ->
     key_at (ps_mem st) k1 = Some r1 -> key_at (ps_mem st) k2 = Some r2 ->
     k_offset r1 + key_bytes (k_size r1) <= k_offset r2 \/ k_offset r2 + key_bytes (k_size r2) <= k_offset r1) /\
  (forall k r k1 r1, xselinux_private (o_type o) = true -> registered st PRIVATE_XSELINUX k ->
     key_at (ps_mem st) k = Some r -> key_of st o k1 -> key_at (ps_mem st) k1 = Some r1 ->
     k_offset r = 0 /\ key_bytes (k_size r) <= k_offset r1).
Proof.
  intros Hf Hreach Ha He. destruct (reachable_ok _ _ _ Hf Hreach) as [[v Hst] Hob]. split_and!.
  - intros k Hk. destruct (key_of_where _ _ _ _ Hst Hob Ha He _ Hk) as (r & Hr & Hi & _ & Hlo & Hhi & _).
    exists r. split_and!; try done. destruct (wf_low _ _ (sb_wf _ _ Hst) (o_type o)). lia.
  - apply (object_keys_apart _ _ _ _ Hst Hob Ha He).
  - intros k r k1 r1 Hx Hk Hr Hk1 Hr1.
    destruct (registered_key _ _ _ _ (sb_wf _ _ Hst) Hk) as (r' & Hr' & Hpl).
    assert (r' = r) as -> by (unfold key_at in *; congruence).
    destruct (pl_range _ _ _ _ Hpl) as [Ho Hb]. split; [done|].
    destruct (key_of_where _ _ _ _ Hst Hob Ha He _ Hk1) as (r1' & Hr1' & _ & _ & Hlo & _).
    rewrite Hr1 in Hr1'. injection Hr1' as <-.
    rewrite (sb_base _ _ Hst), Hx in Hlo by (by destruct (ob_type _ Hob _ _ Ha)). lia.
Qed.

Lemma zeros_slice off n d : 0 <= off -> 0 <= n -> off + n <= d ->
  take (Z.to_nat n) (drop (Z.to_nat off) (zeros d)) = zeros n.
Proof.
  intros H1 H2 H3. replace (zeros d) with (zeros off ++ zeros (d - off)).
  - rewrite drop_zeros_app by done. apply take_zeros_le. lia.
  - unfold zeros. rewrite <- repeat_app. f_equal. lia.
Qed.

(** C10: Allocating an object with private storage answers, at any time, with a new
    object through every key of which NULL is read, or with NULL if the
    allocation failed; it never runs into undefined behaviour or a failed
    assertion. *)
Theorem allocation_reads_zero env st0 st s baseSize clear t :
  fresh st0 -> rtc (priv_step env) st0 st -> allocated_early t = false -> t <> PRIVATE_XSELINUX ->
  is_Some (size_for st t s) -> (screen_specific_private t = false -> s = None) ->
  0 <= baseSize <= 2147483640 -> clear <= baseSize ->
  exists st' r, (if screen_specific_private t then _dixAllocateScreenObjectWithPrivates env st s baseSize t
      else _dixAllocateObjectWithPrivates env st baseSize clear t) = Ret (st', r) /\
    match r with
    | Some a => exists o, ps_objects st !! a = None /\ ps_objects st' = <[a := o]> (ps_objects st) /\
        o_type o = t /\ o_screen o = s /\
        forall k rk, key_of st' o k -> key_at (ps_mem st') k = Some rk -> k_size rk = 0 ->
          dixGetPrivate (ps_mem st') (o_privates o) k = Ret 0
    | None => ps_objects st' = ps_objects st /\ no_memory env
    end.
Proof.
  intros Hf Hreach He Hx [d Hd] Hs Hbase Hclear. destruct (reachable_ok _ _ _ Hf Hreach) as [[v Hst] Hob].
  assert (exists st' r, (if screen_specific_private t then _dixAllocateScreenObjectWithPrivates env st s baseSize t
    else _dixAllocateObjectWithPrivates env st baseSize clear t) = Ret (st', r) /\
    stable st' v /\ objects_ok st' /\ allocates env t s st st' r) as (st' & r & E & Hst' & Hob' & Hr).
  { destruct (screen_specific_private t) eqn:Esp.
    - by eapply allocate_screen_object_spec.
    - rewrite (Hs eq_refl). apply allocate_object_spec; try done. by intros ->. }
  exists st', r. split; [exact E|]. destruct r as [a|]; [|done].
  destruct Hr as (p & d' & Hn & Eo & _ & Hp). exists (Obj t s p). split_and!; try done.
  intros k rk Hk Hrk Hsz. assert (Ha' : ps_objects st' !! a = Some (Obj t s p)) by (rewrite Eo; apply lookup_insert_eq).
  destruct (key_of_where _ _ _ _ Hst' Hob' Ha' He _ Hk) as (r' & Hr' & Hi & _ & Hlo & Hhi & _).
  rewrite Hrk in Hr'. injection Hr' as <-. rewrite Hsz in Hhi. change (key_bytes 0) with 8 in Hhi. cbn [o_privates] in *.
  destruct (wf_low _ _ (sb_wf _ _ Hst') t) as [Hb _]. cbn [o_type] in Hlo.
  rewrite (dixGetPrivate_spec _ _ _ _ Hrk Hi Hsz) by lia. rewrite Hp.
  assert (p_len p <= d' \/ d' < 0) as Hl by (unfold p_len; rewrite Hp; unfold zeros; rewrite repeat_length; lia).
  assert (0 <= d') by (unfold p_len in *; rewrite Hp in Hhi; unfold zeros in Hhi; rewrite repeat_length in Hhi; lia).
  change 8%nat with (Z.to_nat 8). rewrite (zeros_slice (k_offset rk) 8 d') by lia. done.
Qed.

(** While there is an object of a type that is not visited, the registration
    of one more key for the type is not carried out: the server stops at an
    assertion, before anything has changed. *)
Theorem late_registration_stops env st0 st a o key r size :
  fresh st0 -> rtc (priv_step env) st0 st -> ps_objects st !! a = Some o -> allocated_early (o_type o) = false ->
  key_at (ps_mem st) key = Some r -> k_initialized r = false ->
  dixRegisterPrivateKey env st key (o_type o) size = FatalError.
Proof.
  intros Hf Hreach Ha He Hr Hi. destruct (reachable_ok _ _ _ Hf Hreach) as [_ Hob].
  destruct (ob_type _ Hob _ _ Ha) as [Hx _].
  pose proof (count_pos (of_type (o_type o)) _ _ _ Ha eq_refl) as Hp. rewrite <- (ob_count _ Hob) in Hp by done.
  unfold dixRegisterPrivateKey, make_room. change (m_keys (ps_mem st) !! key) with (key_at (ps_mem st) key).
  rewrite Hr. cbn [obind_opt]. rewrite Hi, decide_False, He, (proj2 (Z.eqb_neq _ 0)) by (done || lia). done.
Qed.
