(* ===== verification/PrivateExample.v ===== *)
(** * A server that uses private storage

    A concrete run, from the start of a server with a screen: keys are
    registered, storage is allocated and moves, a window is created.  The
    theorems on private storage are applied to it. *)

From S2P Require Import Prelude Wire Resource Privates PrivateLayout PrivateState PrivateFixup.
From S2P Require Import PrivateVisit PrivateScreen PrivatePhase PrivateGrow PrivateRegister PrivateMove PrivateUse PrivateAccess.
From S2P Require Import PrivateObjects.

(** ** What a registration needs, decided *)

(** The slots there are. *)
Definition slots (st : PrivState) : list slot :=
  (ScreenSlot false <$> seq 0 (length (ps_screens st))) ++ (ScreenSlot true <$> seq 0 (length (ps_gpuscreens st))) ++
  ClientSlot :: (ExtensionSlot <$> seq 0 (length (ps_extensions st))) ++
  (ColormapSlot <$> seq 0 (length (ps_screens st))) ++
  (DeviceSlot false <$> seq 0 (length (ps_devices st))) ++ (DeviceSlot true <$> seq 0 (length (ps_off_devices st))).

Lemma slots_spec st sl p : slot_get st sl = Some p -> sl ∈ slots st.
Proof.
  assert (forall {A} (l : list A) i x, l !! i = Some x -> i ∈ seq 0 (length l)) as Hseq.
  { intros A l i x H%lookup_lt_Some. apply elem_of_seq. lia. }
  intros H. unfold slots. rewrite !elem_of_app, elem_of_cons, !elem_of_app, !list_elem_of_fmap.
  destruct sl as [[] i| |i|i|[] i]; unfold slot_get, screen_at in H; [| | |eauto 10| |eauto 20|eauto 20].
  - destruct (ps_gpuscreens st !! i) eqn:E; [eauto 10|done].
  - destruct (ps_screens st !! i) eqn:E; [eauto 10|done].
  - auto.
  - destruct (ps_screens st !! i) eqn:E; [eauto 20|done].
Qed.

Definition screen_sets (st : PrivState) : list DevPrivateSets :=
  screenSpecificPrivates <$> (ps_screens st ++ ps_gpuscreens st).

Lemma screen_sets_spec st gpu i ss : sets_at st gpu i = Some ss -> ss ∈ screen_sets st.
Proof.
  unfold sets_at, screen_at, screen_sets. destruct gpu; intros (s & Hs & ->)%fmap_Some;
    apply list_elem_of_fmap_2, elem_of_app; [right|left]; by eapply list_elem_of_lookup_2.
Qed.

#[export] Instance serves_dec t t' : Decision (serves t t').
Proof. unfold serves. apply _. Defined.

Definition may_register_b (st : PrivState) (key : Z) (t : DevPrivateType) (size : Z) : bool :=
  match key_at (ps_mem st) key with Some r => negb (k_initialized r) | None => false end &&
  (0 <? key) && (key <? m_brk (ps_mem st)) && (0 <=? size) && (size <=? 2147483640) &&
  forallb (fun sl => match slot_get st sl with
                     | Some p => (p_addr p =? 0) || (key <? p_addr p) || (p_addr p + BLOCK <=? key)
                     | None => true
                     end) (slots st) &&
  forallb (fun t' => (s_offset (global_keys st t') + key_bytes size <? 2147483648) &&
     forallb (fun ss : DevPrivateSets => s_offset (ss t') + key_bytes size <? 2147483648) (screen_sets st) &&
     (negb (bool_decide (serves t t')) || allocated_early t' || (s_created (global_keys st t') =? 0))) private_types.

Lemma may_register_dec st key t size : may_register_b st key t size = true -> may_register st key t size.
Proof.
  unfold may_register_b. rewrite !andb_true_iff, !forallb_forall.
  intros ((((((H1 & H2) & H3) & H4) & H5) & H6) & H7).
  assert (H7' : forall t', s_offset (global_keys st t') + key_bytes size < 2147483648 /\
    (forall ss, ss ∈ screen_sets st -> s_offset (ss t') + key_bytes size < 2147483648) /\
    (serves t t' -> allocated_early t' = true \/ s_created (global_keys st t') = 0)).
  { intros t'. specialize (H7 t'). rewrite !andb_true_iff, forallb_forall in H7.
    destruct H7 as [[F1 F2] F3]; [apply list_elem_of_In, private_types_all|]. split_and!.
    - by apply Z.ltb_lt.
    - intros ss Hss. apply Z.ltb_lt. apply F2. by apply list_elem_of_In.
    - intros Hs. rewrite bool_decide_true in F3 by done. cbn in F3.
      apply orb_true_iff in F3 as [?|?%Z.eqb_eq]; [by left|by right]. }
  split.
  - destruct (key_at (ps_mem st) key) as [r|]; [|done]. exists r. split; [done|by destruct (k_initialized r)].
  - split; [lia|]. intros sl p Hp [Hne Hin]. specialize (H6 sl). rewrite Hp in H6.
    assert (In sl (slots st)) as Hin' by (by eapply list_elem_of_In, slots_spec).
    specialize (H6 Hin'). rewrite !orb_true_iff in H6. lia.
  - lia.
  - intros t'. by destruct (H7' t').
  - intros gpu i ss t' Hss. destruct (H7' t') as (_ & F & _). by eapply F, screen_sets_spec.
  - intros t'. by destruct (H7' t') as (_ & _ & F).
Qed.

(** ** The run *)

(** Memory never fails, storage always moves when it grows, and fresh memory
    holds rubbish. *)
Definition example_env : heap_env := HeapEnv (fun _ _ => true) (fun _ => false) (fun _ _ => 170).
Definition unregistered : DevPrivateKeyRec := KeyRec 0 0 false false PRIVATE_XSELINUX 0.

(** A screen with a default colormap, the server's client and a device; eight
    keys in the memory of extensions. *)
Definition start : PrivState :=
  PS (Mem (list_to_map ((fun i => (16 + 32 * Z.of_nat i, unregistered)) <$> seq 0 8)) BLOCK 0)
    (fun _ => SetRec 0 0 0 0) [Screen no_privates (fun _ => SetRec 0 0 0 0) (Some no_privates)] []
    (Some no_privates) [] [no_privates] [] ∅.

Lemma start_fresh : fresh start.
Proof.
  split; try done.
  - intros [] [|i] ss t H; cbn in H; try done. by injection H as <-.
  - intros [[] [|i]| |[|i]|[|i]|[] [|i]] p H; cbn in H; try done; by injection H as <-.
Qed.

Lemma start_ok : priv_ok start.
Proof. exists no_keys. apply fresh_stable, start_fresh. Qed.

Definition state_of {A} (o : outcome (PrivState * A)) : PrivState :=
  match o with Ret (st, _) => st | _ => start end.

(** Registers a key, if that is possible. *)
Definition register (st : PrivState) (key : Z) (t : DevPrivateType) (size : Z) : PrivState :=
  state_of (dixRegisterPrivateKey example_env st key t size).

Lemma register_step st key t size : priv_ok st -> may_register_b st key t size = true ->
  priv_step example_env st (register st key t size).
Proof.
  intros Hok Hm%may_register_dec. destruct (register_spec example_env st key t size Hok Hm) as (st' & ok & E & _).
  unfold register. rewrite E. by eapply StepRegister.
Qed.

Lemma register_ok st key t size : priv_ok st -> may_register_b st key t size = true ->
  priv_ok (register st key t size).
Proof.
  intros Hok Hm%may_register_dec. destruct (register_spec example_env st key t size Hok Hm) as (st' & ok & E & Hr).
  unfold register. rewrite E. apply Hr.
Qed.

Lemma register_registered st key t size : priv_ok st -> may_register_b st key t size = true ->
  registered (register st key t size) t key.
Proof.
  intros Hok Hm%may_register_dec. destruct (register_spec example_env st key t size Hok Hm) as (st' & ok & E & Hr).
  unfold register. rewrite E. cbn. apply (rg_keys _ _ _ _ _ _ _ Hr). right. split; [|done].
  destruct ok; [done|]. by destruct (rg_memory _ _ _ _ _ _ _ Hr eq_refl) as (k & n & ?).
Qed.

(** A key for screens, one of the security extension, one for windows. *)
Definition run1 : PrivState := register start 16 PRIVATE_SCREEN 0.
Definition run2 : PrivState := register run1 48 PRIVATE_XSELINUX 12.
Definition run3 : PrivState := register run2 80 PRIVATE_WINDOW 0.

Lemma run1_ok : priv_ok run1.
Proof. apply register_ok; [apply start_ok|by vm_compute]. Qed.
Lemma run2_ok : priv_ok run2.
Proof. apply register_ok; [apply run1_ok|by vm_compute]. Qed.
Lemma run3_ok : priv_ok run3.
Proof. apply register_ok; [apply run2_ok|by vm_compute]. Qed.

(** A window on the screen. *)
Definition run4 : PrivState :=
  state_of (_dixAllocateScreenObjectWithPrivates example_env run3 (Some (false, 0%nat)) 100 PRIVATE_WINDOW).

Lemma run3_reachable : rtc (priv_step example_env) start run3.
Proof.
  eapply rtc_l; [apply (register_step start 16 PRIVATE_SCREEN 0); [apply start_ok|by vm_compute]|].
  eapply rtc_l; [apply (register_step run1 48 PRIVATE_XSELINUX 12); [apply run1_ok|by vm_compute]|].
  apply rtc_once, (register_step run2 80 PRIVATE_WINDOW 0); [apply run2_ok|by vm_compute].
Qed.

Lemma run4_reachable : rtc (priv_step example_env) start run4.
Proof.
  eapply rtc_r; [apply run3_reachable|].
  apply (StepAllocateScreen _ _ (Some (false, 0%nat)) 100 PRIVATE_WINDOW _ (Some (m_brk (ps_mem run3)))).
  - done.
  - eexists. by vm_compute.
  - lia.
  - unfold run4. destruct (_dixAllocateScreenObjectWithPrivates _ _ _ _ _) as [[st r]| | |] eqn:E; [|exfalso|exfalso|exfalso].
    2-4: apply (f_equal (fun o => match o with Ret _ => true | _ => false end)) in E; vm_compute in E; discriminate.
    cbn. f_equal. f_equal. apply (f_equal (fun o => match o with Ret (_, r) => r | _ => None end)) in E.
    vm_compute in E. rewrite <- E. by vm_compute.
Qed.

(** ** The theorems at work *)

(** The security extension's second key, when the first and keys of screens and
    windows are registered. *)
Lemma dixRegisterPrivateKey_keeps_witness : priv_ok run3 /\ may_register run3 112 PRIVATE_XSELINUX 24 /\
  exists st' ok, dixRegisterPrivateKey example_env run3 112 PRIVATE_XSELINUX 24 = Ret (st', ok) /\ priv_ok st'.
Proof.
  assert (may_register run3 112 PRIVATE_XSELINUX 24) as Hm by (apply may_register_dec; by vm_compute).
  split; [apply run3_ok|]. split; [exact Hm|].
  destruct (dixRegisterPrivateKey_keeps example_env run3 112 PRIVATE_XSELINUX 24 run3_ok Hm) as (st' & ok & E & Hok & _).
  exists st', ok. split; [exact E|exact Hok].
Defined.

Definition key_rec (st : PrivState) (k : Z) : DevPrivateKeyRec := default unregistered (key_at (ps_mem st) k).
Definition storage (st : PrivState) (sl : slot) : Privates := default no_privates (slot_get st sl).

(** A pointer of the screen, in storage that has moved twice. *)
Lemma dixSetPrivate_frame_witness : key_at (ps_mem run3) 16 = Some (key_rec run3 16) /\
  exists p', dixSetPrivate (ps_mem run3) (storage run3 (ScreenSlot false 0)) 16 (-2) = Ret p' /\
    dixGetPrivate (ps_mem run3) p' 16 = Ret 18446744073709551614.
Proof.
  assert (key_at (ps_mem run3) 16 = Some (key_rec run3 16)) as Hr by (vm_compute; reflexivity).
  split; [exact Hr|].
  assert (registered run3 PRIVATE_SCREEN 16) as Hreg.
  { exists [16]. split; [|left]. split_and!; [by vm_compute|done|]. eexists. split; [exact Hr|]. by vm_compute. }
  destruct (dixSetPrivate_frame run3 PRIVATE_SCREEN 16 (key_rec run3 16) (ScreenSlot false 0)
    (storage run3 (ScreenSlot false 0)) (-2) run3_ok) as (p' & H1 & H2 & _);
    [vm_compute; reflexivity|exact Hreg|by left|exact Hr|vm_compute; reflexivity|].
  exists p'. split; [exact H1|exact H2].
Defined.

Lemma xselinux_keys_overlap_witness : may_register run2 80 PRIVATE_XSELINUX 24 /\
  exists st' ok, dixRegisterPrivateKey example_env run2 80 PRIVATE_XSELINUX 24 = Ret (st', ok) /\
    (ok = true -> dixGetPrivateAddr (ps_mem st') 48 = Ret 0 /\ dixGetPrivateAddr (ps_mem st') 80 = Ret 0).
Proof.
  assert (may_register run2 80 PRIVATE_XSELINUX 24) as Hm by (apply may_register_dec; by vm_compute).
  split; [exact Hm|].
  assert (registered run2 PRIVATE_XSELINUX 48) as Hreg.
  { apply register_registered; [apply run1_ok|by vm_compute]. }
  destruct (xselinux_keys_overlap example_env run2 48 (key_rec run2 48) 80 24 run2_ok Hreg) as (st' & ok & E & H);
    [vm_compute; reflexivity|by vm_compute|exact Hm|].
  exists st', ok. split; [exact E|]. intros Hok. destruct (H Hok) as (H1 & H2 & _). by split.
Defined.

Definition window : Object := default (Obj PRIVATE_WINDOW None no_privates) (ps_objects run4 !! m_brk (ps_mem run3)).

Lemma reachable_objects_fit_witness : ps_objects run4 !! m_brk (ps_mem run3) = Some window /\
  forall k, key_of run4 window k -> exists r, key_at (ps_mem run4) k = Some r /\ k_initialized r = true /\
    0 <= k_offset r /\ k_offset r + key_bytes (k_size r) <= p_len (o_privates window).
Proof.
  assert (ps_objects run4 !! m_brk (ps_mem run3) = Some window) as Hw by (vm_compute; reflexivity).
  split; [exact Hw|].
  apply (reachable_objects_fit example_env start run4 (m_brk (ps_mem run3)) window start_fresh run4_reachable Hw).
  vm_compute; reflexivity.
Defined.

Lemma allocation_reads_zero_witness : exists st' r,
  _dixAllocateScreenObjectWithPrivates example_env run3 (Some (false, 0%nat)) 100 PRIVATE_WINDOW = Ret (st', r).
Proof.
  destruct (allocation_reads_zero example_env start run3 (Some (false, 0%nat)) 100 0 PRIVATE_WINDOW
    start_fresh run3_reachable) as (st' & r & E & _); [done|done|eexists; by vm_compute|done|lia|lia|].
  exists st', r. exact E.
Defined.

Lemma window_stops_registration :
  dixRegisterPrivateKey example_env run4 112 (o_type window) 8 = FatalError.
Proof.
  apply (late_registration_stops example_env start run4 (m_brk (ps_mem run3)) window 112 unregistered 8
    start_fresh run4_reachable); vm_compute; reflexivity.
Qed.
