(* ===== verification/Glyphs.v ===== *)
(** * Glyph sets (render/glyph.c, render/glyphstr_priv.h, render/render.c)

    Clients of the RENDER extension put images of characters into glyph sets,
    under ids of theirs.  Images that are the same, by their hash, are kept once
    for all sets of a depth.  Sets and the tables of all images are hash tables
    with open addressing, whose deleted entries are marked. *)

From S2P Require Import Prelude.

(** ** Data *)

(** Sizes of hash tables: [hs_entries] of [hs_size] slots may be in use.
    [render/glyphstr_priv.h: GlyphHashSetRec 27-31] *)
Record GlyphHashSetRec := HashSet { hs_entries : Z; hs_size : Z; hs_rehash : Z }.
#[export] Instance GlyphHashSet_eq : EqDecision GlyphHashSetRec.
Proof. solve_decision. Defined.

(** [render/glyph.c: glyphHashSets 53-79] *)
Definition glyphHashSets : list GlyphHashSetRec :=
  [HashSet 32 43 41; HashSet 64 73 71; HashSet 128 151 149; HashSet 256 283 281; HashSet 512 571 569;
   HashSet 1024 1153 1151; HashSet 2048 2269 2267; HashSet 4096 4519 4517; HashSet 8192 9013 9011;
   HashSet 16384 18043 18041; HashSet 32768 36109 36107; HashSet 65536 72091 72089;
   HashSet 131072 144409 144407; HashSet 262144 288361 288359; HashSet 524288 576883 576881;
   HashSet 1048576 1153459 1153457; HashSet 2097152 2307163 2307161; HashSet 4194304 4613893 4613891;
   HashSet 8388608 9227641 9227639; HashSet 16777216 18455029 18455027; HashSet 33554432 36911011 36911009;
   HashSet 67108864 73819861 73819859; HashSet 134217728 147639589 147639587;
   HashSet 268435456 295279081 295279079; HashSet 536870912 590559793 590559791].

(** A slot: a null glyph marks one that was never in use, [DeletedGlyph] one
    that no longer is.
    [render/glyphstr_priv.h: DeletedGlyph 25-25] *)
Definition DeletedGlyph : Z := 1.
(** [render/glyphstr_priv.h: GlyphRefRec 20-23] *)
Record GlyphRefRec := Ref { r_signature : Z; r_glyph : Z }.

(** [render/glyphstr_priv.h: GlyphHashRec 33-37] *)
Record GlyphHashRec := Hash {
  table : option (list GlyphRefRec);
  hashSet : option GlyphHashSetRec;
  tableEntries : Z;
}.
#[export] Instance Hash_eta : Settable _ := fun h => Hash (table h) (hashSet h) (tableEntries h).

(** What a client says of an image (the protocol's structure). *)
Record xGlyphInfo := GlyphInfo { gi_width : Z; gi_height : Z; gi_x : Z; gi_y : Z; gi_xOff : Z; gi_yOff : Z }.

(** [gl_pictures] are the glyph's pictures on the screens, 0 for none.  Nothing
    reads its [size].
    [render/glyphstr.h: GlyphRec 41-48] *)
Record GlyphRec := Glyph {
  gl_refcnt : Z;
  gl_sha1 : list Z;
  gl_info : xGlyphInfo;
  gl_pictures : list Z;
}.
#[export] Instance Glyph_eta : Settable _ := fun g =>
  Glyph (gl_refcnt g) (gl_sha1 g) (gl_info g) (gl_pictures g).

(** How many depths there are.
    [render/glyphstr.h: GlyphFormatNum 39-39] *)
Definition GlyphFormatNum : Z := 5.

(** Of picture formats (render/picturestr.h), what glyph sets use. *)
Record PictFormatRec := PictFormat { pf_type : Z; pf_depth : Z }.

(** [render/glyphstr_priv.h: GlyphSetRec 39-45] *)
Record GlyphSetRec := GlyphSet {
  gs_refcnt : Z;
  gs_fdepth : Z;
  gs_format : PictFormatRec;
  gs_hash : GlyphHashRec;
}.
#[export] Instance GlyphSet_eta : Settable _ := fun s =>
  GlyphSet (gs_refcnt s) (gs_fdepth s) (gs_format s) (gs_hash s).

(** What screens are told, and pictures that are made and given back. *)
Inductive GlyphEvent :=
  | EvRealizeGlyph (screen : nat) (glyph : Z)
  | EvUnrealizeGlyph (screen : nat) (glyph : Z)
  | EvPicture (picture : Z)
  | EvFreePicture (picture : Z).

(** Glyphs and glyph sets are cells by address; [gm_ids] are the resources of
    type glyph set; [created_glyphs] and [created_sets] are the counts that
    private storage keeps of them (dix/privates.c).
    [render/glyph.c: globalGlyphs 83-83] *)
Record GlyphState := GS {
  gm_cells : gmap Z GlyphRec;
  gm_sets : gmap Z GlyphSetRec;
  gm_global : list GlyphHashRec;
  gm_ids : gmap Z Z;
  gm_next : Z;
  gm_count : nat;
  created_glyphs : Z;
  created_sets : Z;
  gm_log : list GlyphEvent;
  gm_errorValue : Z;
}.
#[export] Instance GlyphState_eta : Settable _ := fun st =>
  GS (gm_cells st) (gm_sets st) (gm_global st) (gm_ids st) (gm_next st) (gm_count st) (created_glyphs st)
    (created_sets st) (gm_log st) (gm_errorValue st).

(** The world: which allocations succeed; which screens draw glyphs, and whether
    they accept one and a picture of it can be made; the hash of images, which
    is the system's SHA-1 and may fail; and the sizes of private storage of
    glyphs and of sets. *)
Record glyph_env := GlyphEnv {
  ge_alloc : allocator;
  ge_screens : list bool;
  ge_realize : nat -> nat -> bool;
  ge_picture : nat -> nat -> option Z;
  ge_sha1 : list Z -> option (list Z);
  ge_privates : Z * Z;
}.

Definition global_hash (st : GlyphState) (f : Z) : option GlyphHashRec := gm_global st !! Z.to_nat f.
Definition set_global (f : Z) (h : GlyphHashRec) (st : GlyphState) : GlyphState :=
  st <| gm_global ::= <[Z.to_nat f := h]> |>.
Definition set_hash (s : Z) (h : GlyphHashRec) (st : GlyphState) : GlyphState :=
  st <| gm_sets ::= alter (fun gs => gs <| gs_hash := h |>) s |>.
Definition set_refcnt (g : Z) (f : Z -> Z) (st : GlyphState) : GlyphState :=
  st <| gm_cells ::= alter (fun c => c <| gl_refcnt ::= f |>) g |>.

(** [*(CARD32 * ) sha1]. *)
Fixpoint first_bytes (n : nat) (l : list Z) : Z :=
  match n, l with S n', b :: l' => b + 256 * first_bytes n' l' | _, _ => 0 end.
Definition first_word (sha1 : list Z) : Z := first_bytes 4 sha1.

Definition is_live (g : Z) : bool := negb (g =? 0) && negb (g =? DeletedGlyph).

(** ** The hash tables *)

(** [render/glyph.c: FindGlyphHashSet] *)
Definition FindGlyphHashSet (filled : Z) : option GlyphHashSetRec :=
  find (fun hs => filled <=? hs_entries hs) glyphHashSets.

(** The glyph in use of a slot is the one that is looked for: by signature, and
    with [match] by hash.
    [render/glyph.c: FindGlyphRef 152-153] *)
Definition ref_matches (cells : gmap Z GlyphRec) (signature : Z) (sha1 : option (list Z))
    (r : GlyphRefRec) : outcome bool :=
  if negb (r_signature r =? signature) then Ret false else
  match sha1 with
  | None => Ret true
  | Some sha => g <-? cells !! r_glyph r; Ret (bool_decide (gl_sha1 g = sha))
  end.

(** The next slot to look at.
    [render/glyph.c: FindGlyphRef 156-163] *)
Definition probe (hs : GlyphHashSetRec) (signature elt step : Z) : Z * Z :=
  let step := if step =? 0 then
                let s := signature mod hs_rehash hs in if s =? 0 then 1 else s
              else step in
  let elt := u32 (elt + step) in
  (if hs_size hs <=? elt then elt - hs_size hs else elt, step).

(** One turn of the loop; [del] is the first deleted slot.
    [render/glyph.c: FindGlyphRef 137-164] *)
Definition find_step (cells : gmap Z GlyphRec) (hs : GlyphHashSetRec) (t : list GlyphRefRec)
    (signature : Z) (sha1 : option (list Z)) (s : Z * Z * option Z) :
    Z * Z * option Z + outcome Z :=
  let '(elt, step, del) := s in
  let next d := let '(elt', step') := probe hs signature elt step in inl (elt', step', d) in
  match t !! Z.to_nat elt with
  | None => inr Undefined
  | Some gr =>
      if r_glyph gr =? 0 then inr (Ret (default elt del)) else
      if r_glyph gr =? DeletedGlyph then
        match del with
        | None => next (Some elt)
        | Some d => if elt =? d then inr (Ret elt) else next del
        end
      else
        match ref_matches cells signature sha1 gr with
        | Ret true => inr (Ret elt)
        | Ret false => next del
        | FatalError => inr FatalError
        | Undefined => inr Undefined
        | Diverge => inr Diverge
        end
  end.

(** The slot of a glyph, or where it would go: an index in the table.  [sha1] is
    given with [match].
    [render/glyph.c: FindGlyphRef] *)
Definition FindGlyphRef (cells : gmap Z GlyphRec) (hash : GlyphHashRec) (signature : Z)
    (sha1 : option (list Z)) : outcome (option Z) :=
  match hashSet hash with
  | None => Ret None
  | Some hs =>
      t <-? table hash;
      if hs_size hs =? 0 then Undefined else
      i <-- run_loop (find_step cells hs t signature sha1) TURNS (signature mod hs_size hs, 0, None);
      Ret (Some i)
  end.

(** The slot itself; the null pointer has none. *)
Definition read_ref (hash : GlyphHashRec) (gr : option Z) : outcome GlyphRefRec :=
  i <-? gr; t <-? table hash; r <-? t !! Z.to_nat i; Ret r.
Definition write_ref (gr : Z) (r : GlyphRefRec) (hash : GlyphHashRec) : GlyphHashRec :=
  hash <| table ::= fmap (fun t => <[Z.to_nat gr := r]> t) |>.

Section Glyphs.
Context (env : glyph_env).

(** [calloc] and the like: whether it succeeds; the count makes each call one of
    its own. *)
Definition gl_alloc (st : GlyphState) (n : Z) : bool * GlyphState :=
  (ge_alloc env (gm_count st) n, st <| gm_count ::= S |>).

(** [render/glyph.c: AllocateGlyphHash] *)
Definition AllocateGlyphHash (st : GlyphState) (hs : option GlyphHashSetRec) :
    outcome (GlyphState * option GlyphHashRec) :=
  match hs with
  | None => FatalError
  | Some s =>
      let '(ok, st1) := gl_alloc st (16 * hs_size s) in
      if ok then Ret (st1, Some (Hash (Some (replicate (Z.to_nat (hs_size s)) (Ref 0 0))) (Some s) 0))
      else Ret (st1, None)
  end.

(** One slot of the old table.
    [render/glyph.c: ResizeGlyphHash 418-426] *)
Definition resize_ref (cells : gmap Z GlyphRec) (global : bool) (h : GlyphHashRec) (r : GlyphRefRec) :
    outcome GlyphHashRec :=
  if negb (is_live (r_glyph r)) then Ret h else
  sha1 <-- (if global then g <-? cells !! r_glyph r; Ret (Some (gl_sha1 g)) else Ret None);
  gr <-- FindGlyphRef cells h (r_signature r) sha1;
  let h1 := match gr with Some i => write_ref i r h | None => h end in
  Ret (h1 <| tableEntries ::= fun n => u32 (n + 1) |>).
Fixpoint resize_refs (cells : gmap Z GlyphRec) (global : bool) (h : GlyphHashRec) (l : list GlyphRefRec) :
    outcome GlyphHashRec :=
  match l with
  | [] => Ret h
  | r :: l' => h1 <-- resize_ref cells global h r; resize_refs cells global h1 l'
  end.

(** [render/glyph.c: ResizeGlyphHash] *)
Definition ResizeGlyphHash (st : GlyphState) (hash : GlyphHashRec) (change : Z) (global : bool) :
    outcome (GlyphState * GlyphHashRec * bool) :=
  let hs := FindGlyphHashSet (u32 (tableEntries hash + change)) in
  if bool_decide (hs = hashSet hash) then Ret (st, hash, true) else
  '(st1, r) <-- AllocateGlyphHash st hs;
  match r with
  | None => Ret (st1, hash, false)
  | Some newHash =>
      match table hash with
      | None => Ret (st1, newHash, true)
      | Some t =>
          old <-? hashSet hash;
          if Z.of_nat (length t) <? hs_size old then Undefined else
          h <-- resize_refs (gm_cells st) global newHash (take (Z.to_nat (hs_size old)) t);
          Ret (st1, h, true)
      end
  end.

(** [render/glyph.c: ResizeGlyphSet] *)
Definition ResizeGlyphSet (st : GlyphState) (glyphSet change : Z) : outcome (GlyphState * bool) :=
  gs <-? gm_sets st !! glyphSet;
  '(st1, h, ok) <-- ResizeGlyphHash st (gs_hash gs) change false;
  let st2 := set_hash glyphSet h st1 in
  if negb ok then Ret (st2, false) else
  g <-? global_hash st2 (gs_fdepth gs);
  '(st3, h3, ok3) <-- ResizeGlyphHash st2 g change true;
  Ret (set_global (gs_fdepth gs) h3 st3, ok3).

(** ** Glyphs *)

(** [render/glyph.c: FreeGlyphPicture] *)
Definition FreeGlyphPicture (glyph : Z) (c : GlyphRec) (st : GlyphState) : GlyphState :=
  st <| gm_log ::= fun l => l ++ mjoin (imap (fun i (ps : bool) =>
          (match gl_pictures c !! i with
           | Some p => if p =? 0 then [] else [EvFreePicture p]
           | None => []
           end) ++ (if ps then [EvUnrealizeGlyph i glyph] else [])) (ge_screens env)) |>.

(** The glyph's slot, looked up by hash, is marked deleted.  The walk over the
    whole table before that looks for duplicates, and only reports them.
    [render/glyph.c: FreeGlyph 258-274] *)
Definition forget_glyph (cells : gmap Z GlyphRec) (h : GlyphHashRec) (sha1 : list Z) : outcome GlyphHashRec :=
  hs <-? hashSet h;
  t <-? table h;
  if Z.of_nat (length t) <? hs_size hs then Undefined else
  gr <-- FindGlyphRef cells h (first_word sha1) (Some sha1);
  match gr with
  | None => Ret h
  | Some i =>
      r <-? t !! Z.to_nat i;
      if is_live (r_glyph r) then
        Ret (write_ref i (Ref 0 DeletedGlyph) h <| tableEntries ::= fun n => u32 (n - 1) |>)
      else Ret h
  end.

(** [render/glyph.c: FreeGlyph] *)
Definition FreeGlyph (st : GlyphState) (glyph format : Z) : outcome GlyphState :=
  c <-? gm_cells st !! glyph;
  if gl_refcnt c =? 0 then Ret st else
  let st1 := set_refcnt glyph (fun n => n - 1) st in
  if negb (gl_refcnt c - 1 =? 0) then Ret st1 else
  h <-? global_hash st1 format;
  h1 <-- forget_glyph (gm_cells st1) h (gl_sha1 c);
  Ret (FreeGlyphPicture glyph c (set_global format h1 st1) <| gm_cells ::= delete glyph |>
         <| created_glyphs ::= fun n => n - 1 |>).

(** [render/glyph.c: FindGlyphByHash] *)
Definition FindGlyphByHash (st : GlyphState) (sha1 : list Z) (format : Z) : outcome Z :=
  h <-? global_hash st format;
  match hashSet h with
  | None => Ret 0
  | Some _ =>
      gr <-- FindGlyphRef (gm_cells st) h (first_word sha1) (Some sha1);
      r <-- read_ref h gr;
      Ret (if is_live (r_glyph r) then r_glyph r else 0)
  end.

(** The glyph of the same image that all sets share, or this one from now on.
    [render/glyph.c: AddGlyph 288-299] *)
Definition share_glyph (st : GlyphState) (format glyph : Z) : outcome (GlyphState * Z) :=
  c <-? gm_cells st !! glyph;
  h <-? global_hash st format;
  let signature := first_word (gl_sha1 c) in
  gr <-- FindGlyphRef (gm_cells st) h signature (Some (gl_sha1 c));
  r <-- read_ref h gr;
  if is_live (r_glyph r) && negb (r_glyph r =? glyph) then Ret (st, r_glyph r) else
  if r_glyph r =? glyph then Ret (st, glyph) else
  i <-? gr;
  Ret (set_global format (write_ref i (Ref signature glyph) h <| tableEntries ::= fun n => u32 (n + 1) |>) st, glyph).

(** [render/glyph.c: AddGlyph] *)
Definition AddGlyph (st : GlyphState) (glyphSet glyph id : Z) : outcome GlyphState :=
  gs <-? gm_sets st !! glyphSet;
  '(st1, glyph) <-- share_glyph st (gs_fdepth gs) glyph;
  gr <-- FindGlyphRef (gm_cells st1) (gs_hash gs) id None;
  _ <-? gm_cells st1 !! glyph;
  let st2 := set_refcnt glyph (fun n => u32 (n + 1)) st1 in
  r <-- read_ref (gs_hash gs) gr;
  '(st3, h) <--
    (if is_live (r_glyph r) then st3 <-- FreeGlyph st2 (r_glyph r) (gs_fdepth gs); Ret (st3, gs_hash gs)
     else Ret (st2, gs_hash gs <| tableEntries ::= fun n => u32 (n + 1) |>));
  i <-? gr;
  Ret (set_hash glyphSet (write_ref i (Ref id glyph) h) st3).

(** [render/glyph.c: DeleteGlyph] *)
Definition DeleteGlyph (st : GlyphState) (glyphSet id : Z) : outcome (GlyphState * bool) :=
  gs <-? gm_sets st !! glyphSet;
  gr <-- FindGlyphRef (gm_cells st) (gs_hash gs) id None;
  r <-- read_ref (gs_hash gs) gr;
  if is_live (r_glyph r) then
    i <-? gr;
    let h := write_ref i (Ref (r_signature r) DeletedGlyph) (gs_hash gs) <| tableEntries ::= fun n => u32 (n - 1) |> in
    st1 <-- FreeGlyph (set_hash glyphSet h st) (r_glyph r) (gs_fdepth gs);
    Ret (st1, true)
  else Ret (st, false).

(** [render/glyph.c: FindGlyph] *)
Definition FindGlyph (st : GlyphState) (glyphSet id : Z) : outcome Z :=
  gs <-? gm_sets st !! glyphSet;
  gr <-- FindGlyphRef (gm_cells st) (gs_hash gs) id None;
  r <-- read_ref (gs_hash gs) gr;
  Ret (if r_glyph r =? DeletedGlyph then 0 else r_glyph r).

(** The screens before the one that refused are told, from the last.
    [render/glyph.c: AllocateGlyph 372-377] *)
Fixpoint unrealize (glyph : Z) (i : nat) (st : GlyphState) : GlyphState :=
  match i with
  | O => st
  | S i' =>
      unrealize glyph i' (if default false (ge_screens env !! i')
                          then st <| gm_log ::= fun l => l ++ [EvUnrealizeGlyph i' glyph] |> else st)
  end.

(** [render/glyph.c: AllocateGlyph 358-381] *)
Fixpoint realize (glyph : Z) (i : nat) (screens : list bool) (st : GlyphState) : GlyphState * Z :=
  match screens with
  | [] => (st, glyph)
  | ps :: l =>
      if ps then
        let st1 := st <| gm_count ::= S |> in
        if ge_realize env (gm_count st) i
        then realize glyph (S i) l (st1 <| gm_log ::= fun l => l ++ [EvRealizeGlyph i glyph] |>)
        else (unrealize glyph i st1 <| gm_cells ::= delete glyph |> <| created_glyphs ::= fun n => n - 1 |>, 0)
      else realize glyph (S i) l st
  end.

(** [render/glyph.c: AllocateGlyph] *)
Definition AllocateGlyph (st : GlyphState) (gi : xGlyphInfo) : GlyphState * Z :=
  let n := Z.of_nat (length (ge_screens env)) in
  let '(ok, st1) := gl_alloc st (56 + 8 * n + (ge_privates env).1) in
  if negb ok then (st1, 0) else
  let glyph := gm_next st1 in
  realize glyph 0 (ge_screens env)
    (st1 <| gm_next ::= fun a => a + 1 |> <| created_glyphs ::= fun n => n + 1 |>
         <| gm_cells ::= <[glyph := Glyph 1 (replicate 20 0) gi (replicate (length (ge_screens env)) 0)]> |>).

(** ** Glyph sets *)

(** A set whose table cannot be had is freed without telling private storage.
    [render/glyph.c: AllocateGlyphSet] *)
Definition AllocateGlyphSet (st : GlyphState) (fdepth : Z) (format : PictFormatRec) : outcome (GlyphState * Z) :=
  g <-? global_hash st fdepth;
  '(st1, ok) <--
    (match hashSet g with
     | Some _ => Ret (st, true)
     | None =>
         '(st1, r) <-- AllocateGlyphHash st (head glyphHashSets);
         match r with
         | None => Ret (st1, false)
         | Some h => Ret (set_global fdepth h st1, true)
         end
     end);
  if negb ok then Ret (st1, 0) else
  let '(ok2, st2) := gl_alloc st1 (48 + (ge_privates env).2) in
  if negb ok2 then Ret (st2, 0) else
  let st3 := st2 <| created_sets ::= fun n => n + 1 |> in
  '(st4, r) <-- AllocateGlyphHash st3 (head glyphHashSets);
  match r with
  | None => Ret (st4, 0)
  | Some h =>
      let s := gm_next st4 in
      Ret (st4 <| gm_next ::= fun a => a + 1 |> <| gm_sets ::= <[s := GlyphSet 1 fdepth format h]> |>, s)
  end.

(** [render/glyph.c: FreeGlyphSet 477-481] *)
Fixpoint free_refs (l : list GlyphRefRec) (fdepth : Z) (st : GlyphState) : outcome GlyphState :=
  match l with
  | [] => Ret st
  | r :: l' =>
      st1 <-- (if is_live (r_glyph r) then FreeGlyph st (r_glyph r) fdepth else Ret st);
      free_refs l' fdepth st1
  end.

(** [render/glyph.c: FreeGlyphSet] *)
Definition FreeGlyphSet (st : GlyphState) (s : Z) : outcome GlyphState :=
  gs <-? gm_sets st !! s;
  let n := u32 (gs_refcnt gs - 1) in
  if negb (n =? 0) then Ret (st <| gm_sets ::= <[s := gs <| gs_refcnt := n |>]> |>) else
  hs <-? hashSet (gs_hash gs);
  t <-? table (gs_hash gs);
  if Z.of_nat (length t) <? hs_size hs then Undefined else
  st1 <-- free_refs (take (Z.to_nat (hs_size hs)) t) (gs_fdepth gs) st;
  g <-? global_hash st1 (gs_fdepth gs);
  st2 <--
    (if tableEntries g =? 0 then Ret (set_global (gs_fdepth gs) (Hash None None 0) st1)
     else '(st2, g2, _) <-- ResizeGlyphHash st1 g 0 true; Ret (set_global (gs_fdepth gs) g2 st2));
  Ret (st2 <| gm_sets ::= delete s |> <| created_sets ::= fun n => n - 1 |>).

(** One slot of a table of all images when a screen goes away.  A GPU screen has
    no pictures of glyphs.
    [render/glyph.c: GlyphUninit 96-105] *)
Definition uninit_ref (screen : nat) (gpu : bool) (r : GlyphRefRec) (st : GlyphState) : outcome GlyphState :=
  if negb (is_live (r_glyph r)) then Ret st else
  c <-? gm_cells st !! r_glyph r;
  let p := if gpu then 0 else default 0 (gl_pictures c !! screen) in
  let st1 := if p =? 0 then st else
    st <| gm_log ::= fun l => l ++ [EvFreePicture p] |>
       <| gm_cells ::= <[r_glyph r := c <| gl_pictures ::= <[screen := 0]> |>]> |> in
  Ret (st1 <| gm_log ::= fun l => l ++ [EvUnrealizeGlyph screen (r_glyph r)] |>).
Fixpoint uninit_refs (screen : nat) (gpu : bool) (l : list GlyphRefRec) (st : GlyphState) : outcome GlyphState :=
  match l with
  | [] => Ret st
  | r :: l' => st1 <-- uninit_ref screen gpu r st; uninit_refs screen gpu l' st1
  end.
Fixpoint uninit_depths (screen : nat) (gpu : bool) (l : list GlyphHashRec) (st : GlyphState) : outcome GlyphState :=
  match l with
  | [] => Ret st
  | g :: l' =>
      st1 <-- (match hashSet g with
               | None => Ret st
               | Some hs =>
                   t <-? table g;
                   if Z.of_nat (length t) <? hs_size hs then Undefined else
                   uninit_refs screen gpu (take (Z.to_nat (hs_size hs)) t) st
               end);
      uninit_depths screen gpu l' st1
  end.

(** [render/glyph.c: GlyphUninit] *)
Definition GlyphUninit (st : GlyphState) (screen : nat) (gpu : bool) : outcome GlyphState :=
  uninit_depths screen gpu (take (Z.to_nat GlyphFormatNum) (gm_global st)) st.
End Glyphs.
