(* ===== verification/GlyphRequest.v ===== *)
(** * Requests on glyph sets (render/render.c)

    A request to add glyphs first collects a glyph for each image, shared or
    new, and then puts them all into the set; what it has collected it gives up
    again when a later image is wrong or memory is short. *)

From S2P Require Import Prelude Wire Request Glyphs.

(** ** The world of requests *)

(** How the rows of a pixmap of a depth are padded.
    [include/servermd.h: PaddingInfo 84-91] *)
Record PaddingInfo := Padding {
  padRoundUp : Z;
  padPixelsLog2 : Z;
  padBytesLog2 : Z;
  notPower2 : bool;
  bytesPerPixel : Z;
}.

(** Which ids a client may give to resources, its access to them, picture
    formats by id or the error of their lookup, and whether the resource
    database has memory. *)
Record render_env := RenderEnv {
  re_glyphs : glyph_env;
  re_padding : Z -> PaddingInfo;
  re_legal : Z -> bool;
  re_format : Z -> Z + PictFormatRec;
  re_access : Z -> Z -> Z;
  re_add : Z -> bool;
  RenderErrBase : Z;
}.

Definition BadGlyphSet : Z := 3.
Definition BadGlyph : Z := 4.
Definition PictTypeDirect : Z := 1.
Definition DixDestroyAccess : Z := Z.shiftl 1 2.
Definition DixCreateAccess : Z := Z.shiftl 1 3.
Definition DixGetAttrAccess : Z := Z.shiftl 1 4.
Definition DixAddAccess : Z := Z.shiftl 1 12.
Definition DixRemoveAccess : Z := Z.shiftl 1 13.

(** A client's request: its length in words, its byte order, and what follows
    the fixed part. *)
Record glyph_req := GlyphReq { gr_swapped : bool; gr_req_len : Z; gr_rest : list Z }.

(** A glyph that a request adds.
    [render/render.c: GlyphNewRec 804-809] *)
Record GlyphNewRec := GlyphNew { gn_id : Z; gn_glyph : Z; gn_found : bool; gn_sha1 : list Z }.

(** [render/render.c: ProcRenderCreateGlyphSet 717-735] *)
Definition format_of_depth (depth : Z) : option Z :=
  if depth =? 1 then Some 0 else if depth =? 4 then Some 1 else if depth =? 8 then Some 2 else
  if depth =? 16 then Some 3 else if depth =? 32 then Some 4 else None.

Section Requests.
Context (env : render_env).

Definition swapl (req : glyph_req) (x : Z) : Z := if gr_swapped req then bswap_32 x else x.

(** [include/servermd.h: PixmapWidthInPadUnits 97-103] *)
Definition PixmapWidthInPadUnits (w d : Z) : Z :=
  let p := re_padding env d in
  if notPower2 p then Z.shiftr (i32 (w * bytesPerPixel p + bytesPerPixel p)) (padBytesLog2 p)
  else Z.shiftr (i32 (w + padRoundUp p)) (padPixelsLog2 p).

(** [include/servermd.h: PixmapBytePad 109-110] *)
Definition PixmapBytePad (w d : Z) : Z := i32 (Z.shiftl (PixmapWidthInPadUnits w d) (padBytesLog2 (re_padding env d))).

(** [dixLookupResourceByType] for glyph sets: the set's address, or an error.
    The error value is the id in every case. *)
Definition lookup_set (st : GlyphState) (id mode : Z) : GlyphState * (Z + Z) :=
  (st <| gm_errorValue := id |>,
   match gm_ids st !! id with
   | None => inl (RenderErrBase env + BadGlyphSet)
   | Some s => let rc := re_access env id mode in
               if rc =? BadValue then inl (RenderErrBase env + BadGlyphSet) else
               if rc =? Success then inr s else inl rc
   end).

(** [LEGAL_NEW_RESOURCE]: of a client's ids one that names no resource. *)
Definition LegalNewID (st : GlyphState) (id : Z) : bool :=
  re_legal env id && bool_decide (gm_ids st !! id = None).

(** [AddResource], which frees what it cannot add. *)
Definition AddGlyphSet (st : GlyphState) (id s : Z) : outcome (GlyphState * Z) :=
  if re_add env id then Ret (st <| gm_ids ::= <[id := s]> |>, Success)
  else st1 <-- FreeGlyphSet (re_glyphs env) st s; Ret (st1, BadAlloc).

(** ** Glyph sets *)

(** The set stays allocated when the client may not create it.
    [render/render.c: ProcRenderCreateGlyphSet] *)
Definition ProcRenderCreateGlyphSet (st : GlyphState) (req : glyph_req) (gsid format : Z) :
    outcome (GlyphState * Z) :=
  if size_mismatch 12 (gr_req_len req) then Ret (st, BadLength) else
  let gsid := swapl req gsid in
  let format := swapl req format in
  if negb (LegalNewID st gsid) then Ret (st <| gm_errorValue := gsid |>, BadIDChoice) else
  let st1 := st <| gm_errorValue := format |> in
  match re_format env format with
  | inl rc => Ret (st1, rc)
  | inr pf =>
      match format_of_depth (pf_depth pf) with
      | None => Ret (st1, BadMatch)
      | Some f =>
          if negb (pf_type pf =? PictTypeDirect) then Ret (st1, BadMatch) else
          '(st2, s) <-- AllocateGlyphSet (re_glyphs env) st1 f pf;
          if s =? 0 then Ret (st2, BadAlloc) else
          let rc := re_access env gsid DixCreateAccess in
          if negb (rc =? Success) then Ret (st2, rc) else AddGlyphSet st2 gsid s
      end
  end.

(** [render/render.c: ProcRenderReferenceGlyphSet] *)
Definition ProcRenderReferenceGlyphSet (st : GlyphState) (req : glyph_req) (gsid existing : Z) :
    outcome (GlyphState * Z) :=
  if size_mismatch 12 (gr_req_len req) then Ret (st, BadLength) else
  let gsid := swapl req gsid in
  let existing := swapl req existing in
  if negb (LegalNewID st gsid) then Ret (st <| gm_errorValue := gsid |>, BadIDChoice) else
  match lookup_set st existing DixGetAttrAccess with
  | (st1, inl rc) => Ret (st1, rc)
  | (st1, inr s) =>
      gs <-? gm_sets st1 !! s;
      AddGlyphSet (st1 <| gm_sets ::= <[s := gs <| gs_refcnt ::= fun n => u32 (n + 1) |>]> |>) gsid s
  end.

(** [FreeResource] of a glyph set. *)
Definition free_set_id (st : GlyphState) (id : Z) : outcome GlyphState :=
  match gm_ids st !! id with
  | None => Ret st
  | Some s => FreeGlyphSet (re_glyphs env) (st <| gm_ids ::= delete id |>) s
  end.

(** [render/render.c: ProcRenderFreeGlyphSet] *)
Definition ProcRenderFreeGlyphSet (st : GlyphState) (req : glyph_req) (glyphset : Z) : outcome (GlyphState * Z) :=
  if size_mismatch 8 (gr_req_len req) then Ret (st, BadLength) else
  let glyphset := swapl req glyphset in
  match lookup_set st glyphset DixDestroyAccess with
  | (st1, inl rc) => Ret (st1, rc)
  | (st1, inr _) => st2 <-- free_set_id st1 glyphset; Ret (st2, Success)
  end.

(** ** Adding glyphs *)

(** One image's description: twelve bytes. *)
Definition read_info (bytes : list Z) : option xGlyphInfo :=
  match words16 (take 12 bytes) with
  | [w; h; x; y; xo; yo] => Some (GlyphInfo w h (s16 x) (s16 y) (s16 xo) (s16 yo))
  | _ => None
  end.

(** The pictures of a new glyph.  Drawing the image on a screen takes four
    objects of the drawing code, any of which may fail; what is kept is the
    picture.  Glyphs that cannot be seen have none.
    [render/render.c: ProcRenderAddGlyphs 934-996] *)
Fixpoint draw_glyph (glyph : Z) (gi : xGlyphInfo) (i : nat) (screens : list bool) (st : GlyphState) :
    GlyphState * bool :=
  match screens with
  | [] => (st, true)
  | _ :: l =>
      if (gi_width gi =? 0) || (gi_height gi =? 0) then (st, true) else
      let st1 := st <| gm_count ::= S |> in
      match ge_picture (re_glyphs env) (gm_count st) i with
      | None => (st1, false)
      | Some p =>
          draw_glyph glyph gi (S i) l
            (st1 <| gm_cells ::= alter (fun c => c <| gl_pictures ::= <[i := p]> |>) glyph |>
                 <| gm_log ::= fun l => l ++ [EvPicture p] |>)
      end
  end.

(** The size of an image in bytes, unless it does not fit 32 bits.
    [render/render.c: ProcRenderAddGlyphs 904-910] *)
Definition image_size (gi : xGlyphInfo) (depth : Z) : option Z :=
  let padded_width := u64 (PixmapBytePad (gi_width gi) depth) in
  if negb (gi_height gi =? 0) && (padded_width >? (UINT32_MAX - 56) / gi_height gi) then None
  else Some (u32 (gi_height gi * padded_width)).

(** The glyph of an image: a known one or a new one, whose hash is set when its
    pictures are there.  Without success the glyph is 0 or one to be freed.
    [render/render.c: ProcRenderAddGlyphs 914-999] *)
Definition collect_glyph (st : GlyphState) (id : Z) (gi : xGlyphInfo) (fdepth : Z) (image : list Z) :
    outcome (GlyphState * GlyphNewRec * bool) :=
  match ge_sha1 (re_glyphs env) image with
  | None => Ret (st, GlyphNew 0 0 false [], false)
  | Some sha1 =>
      g <-- FindGlyphByHash st sha1 fdepth;
      if is_live g then Ret (set_refcnt g (fun n => u32 (n + 1)) st, GlyphNew id g true sha1, true) else
      let '(st1, glyph) := AllocateGlyph (re_glyphs env) st gi in
      if glyph =? 0 then Ret (st1, GlyphNew 0 0 false sha1, false) else
      let '(st2, ok) := draw_glyph glyph gi 0 (ge_screens (re_glyphs env)) st1 in
      if negb ok then Ret (st2, GlyphNew 0 glyph false sha1, false) else
      Ret (st2 <| gm_cells ::= alter (fun c => c <| gl_sha1 := sha1 |>) glyph |>, GlyphNew id glyph false sha1, true)
  end.

(** The loop over the images: [gids] and [infos] are what is left of the arrays
    of the request, [bits] of the images; the last number is what is left of the
    request.  The result says what was collected, what is left, and an error.
    [render/render.c: ProcRenderAddGlyphs 899-1007] *)
Fixpoint collect_glyphs (st : GlyphState) (fdepth depth : Z) (n : nat) (gids infos bits : list Z) (remain : Z)
    (acc : list GlyphNewRec) : outcome (GlyphState * list GlyphNewRec * Z * option Z) :=
  match n with
  | O => Ret (st, acc, remain, None)
  | S n' =>
      gi <-? read_info infos;
      match image_size gi depth with
      | None => Ret (st, acc, remain, Some BadLength)
      | Some size =>
          if u32 remain <? size then Ret (st, acc, remain, Some BadLength) else
          id <-? head (words32 (take 4 gids));
          '(st1, e, ok) <-- collect_glyph st id gi fdepth (take 12 infos ++ take (Z.to_nat size) bits);
          if negb ok then Ret (st1, acc ++ [e], remain, Some BadAlloc) else
          let size' := if Z.land size 3 =? 0 then size else u32 (size + (4 - Z.land size 3)) in
          collect_glyphs st1 fdepth depth n' (drop 4 gids) (drop 12 infos) (drop (Z.to_nat size') bits)
            (i32 (remain - size')) (acc ++ [e])
      end
  end.

(** [render/render.c: ProcRenderAddGlyphs 1016-1019] *)
Fixpoint add_glyphs (s fdepth : Z) (l : list GlyphNewRec) (st : GlyphState) : outcome GlyphState :=
  match l with
  | [] => Ret st
  | e :: l' =>
      st1 <-- AddGlyph (re_glyphs env) st s (gn_glyph e) (gn_id e);
      st2 <-- FreeGlyph (re_glyphs env) st1 (gn_glyph e) fdepth;
      add_glyphs s fdepth l' st2
  end.

(** New glyphs are only given back to the C library.
    [render/render.c: ProcRenderAddGlyphs 1024-1031] *)
Fixpoint bail (l : list GlyphNewRec) (st : GlyphState) : outcome GlyphState :=
  match l with
  | [] => Ret st
  | e :: l' =>
      if gn_glyph e =? 0 then bail l' st else
      _ <-? gm_cells st !! gn_glyph e;
      let st1 := set_refcnt (gn_glyph e) (fun n => u32 (n - 1)) st in
      bail l' (if gn_found e then st1 else st1 <| gm_cells ::= delete (gn_glyph e) |>)
  end.

(** The images are all there and there is space, or nothing is added.
    [render/render.c: ProcRenderAddGlyphs 1008-1034] *)
Definition finish_glyphs (st : GlyphState) (s fdepth n : Z) (l : list GlyphNewRec) (remain : Z) (err : option Z) :
    outcome (GlyphState * Z) :=
  let fail st err := st2 <-- bail l st; Ret (st2, err) in
  match err with
  | Some e => fail st e
  | None =>
      if negb (remain =? 0) then fail st BadLength else
      '(st2, ok2) <-- ResizeGlyphSet (re_glyphs env) st s n;
      if negb ok2 then fail st2 BadAlloc else
      st3 <-- add_glyphs s fdepth l st2; Ret (st3, Success)
  end.

(** The arrays of a request from a client of the other byte order.
    [render/render.c: ProcRenderAddGlyphs 831-839] *)
Definition swap_arrays (nglyphs : Z) (rest : list Z) : list Z :=
  let gids := take (Z.to_nat (4 * nglyphs)) rest in
  let infos := take (Z.to_nat (12 * nglyphs)) (drop (Z.to_nat (4 * nglyphs)) rest) in
  SwapRestL gids ++ SwapRestS infos ++ drop (Z.to_nat (16 * nglyphs)) rest.

(** The request after its byte order is that of the server.
    [render/render.c: ProcRenderAddGlyphs 842-1007] *)
Definition AddGlyphs_native (st : GlyphState) (req_len glyphset nglyphs : Z) (rest : list Z) :
    outcome (GlyphState * Z) :=
  match lookup_set st glyphset DixAddAccess with
  | (st, inl rc) => Ret (st, rc)
  | (st, inr s) =>
      gs <-? gm_sets st !! s;
      let n := i32 nglyphs in
      if u64 n >? UINT32_MAX / 40 then Ret (st, BadAlloc) else
      let '(ok, st) := if n <=? 256 then (true, st) else gl_alloc (re_glyphs env) st (40 * n) in
      if negb ok then Ret (st, BadAlloc) else
      if (12 + 4 * n >? 4 * req_len) || (12 + 16 * n >? 4 * req_len) then Ret (st, BadLength) else
      let bits := drop (Z.to_nat (16 * n)) rest in
      '(st1, l, remain, err) <--
        collect_glyphs st (gs_fdepth gs) (pf_depth (gs_format gs)) (Z.to_nat n) rest
          (drop (Z.to_nat (4 * n)) rest) bits (4 * req_len - 12 - 16 * n) [];
      finish_glyphs st1 s (gs_fdepth gs) n l remain err
  end.

(** [render/render.c: ProcRenderAddGlyphs] *)
Definition ProcRenderAddGlyphs (st : GlyphState) (req : glyph_req) (glyphset nglyphs : Z) : outcome (GlyphState * Z) :=
  if too_short 12 (gr_req_len req) then Ret (st, BadLength) else
  let glyphset := swapl req glyphset in
  let nglyphs := swapl req nglyphs in
  if gr_swapped req then
    if negb (Z.land nglyphs 0xe0000000 =? 0) then Ret (st, BadLength) else
    if (12 + 4 * nglyphs >? 4 * gr_req_len req) || (12 + 16 * nglyphs >? 4 * gr_req_len req)
    then Ret (st, BadLength)
    else AddGlyphs_native st (gr_req_len req) glyphset nglyphs (swap_arrays nglyphs (gr_rest req))
  else AddGlyphs_native st (gr_req_len req) glyphset nglyphs (gr_rest req).

(** ** Freeing glyphs *)

(** [render/render.c: ProcRenderFreeGlyphs 1062-1069] *)
Fixpoint free_glyphs (s : Z) (gids : list Z) (st : GlyphState) : outcome (GlyphState * Z) :=
  match gids with
  | [] => Ret (st, Success)
  | glyph :: gids' =>
      '(st1, ok) <-- DeleteGlyph (re_glyphs env) st s glyph;
      if ok then free_glyphs s gids' st1
      else Ret (st1 <| gm_errorValue := glyph |>, RenderErrBase env + BadGlyph)
  end.

(** [render/render.c: ProcRenderFreeGlyphs] *)
Definition ProcRenderFreeGlyphs (st : GlyphState) (req : glyph_req) (glyphset : Z) : outcome (GlyphState * Z) :=
  if too_short 8 (gr_req_len req) then Ret (st, BadLength) else
  let glyphset := swapl req glyphset in
  let rest := if gr_swapped req then SwapRestL (gr_rest req) else gr_rest req in
  match lookup_set st glyphset DixRemoveAccess with
  | (st1, inl rc) => Ret (st1, rc)
  | (st1, inr s) =>
      let nglyph := bytes_to_int32 (4 * gr_req_len req - 8) in
      free_glyphs s (take (Z.to_nat nglyph) (words32 rest)) st1
  end.
End Requests.
