(* ===== verification/GlyphProbe.v ===== *)
(** * The search in a hash table (render/glyph.c, FindGlyphRef)

    The sizes of the tables are prime, so that a search that does not stop comes
    to every slot, whatever its step: it ends in a table that is not full, at the
    key's slot or at one where the key can be put. *)

From S2P Require Import Prelude Glyphs.
From Stdlib Require Import Znumtheory.

(** ** The sizes are prime *)

(** Trial division by the numbers from [2] to [n + 1]. *)
Fixpoint no_divisor (n : nat) (d p : Z) : bool :=
  match n with O => true | S n' => negb (p mod d =? 0) && no_divisor n' (d + 1) p end.
Definition prime_test (p : Z) : bool :=
  let n := Z.to_nat (Z.sqrt p) in (1 <? p) && no_divisor n 2 p.

Lemma no_divisor_spec n d p k : no_divisor n d p = true -> 2 <= d -> d <= k < d + Z.of_nat n -> ~ (k | p).
Proof.
  revert d. induction n as [|n IH]; intros d H Hd Hk; [lia|]. cbn in H. apply andb_true_iff in H as [H1 H2].
  destruct (decide (k = d)) as [->|Hne]; [|apply (IH (d + 1)); [done|lia..]].
  intros Hdiv. apply Z.mod_divide in Hdiv; [|lia]. by rewrite Hdiv in H1.
Qed.

Lemma prime_test_coprime p a : prime_test p = true -> 0 < a < p -> rel_prime p a.
Proof.
  intros H Ha. apply andb_true_iff in H as [Hp H]. apply Z.ltb_lt in Hp.
  pose proof (Z.sqrt_spec p ltac:(lia)) as Hs. pose proof (Z.sqrt_nonneg p) as Hs0.
  assert (Hno : forall k, 2 <= k <= Z.sqrt p -> ~ (k | p)).
  { intros k Hk. apply (no_divisor_spec _ 2 p k H); lia. }
  apply Zgcd_1_rel_prime. set (g := Z.gcd p a).
  assert (0 <= g) by apply Z.gcd_nonneg. destruct (Z.gcd_divide_l p a) as [q Hq]. fold g in Hq.
  destruct (Z.gcd_divide_r p a) as [q' Hq']. fold g in Hq'.
  assert (Hga : (g | a)) by apply Z.gcd_divide_r. clearbody g.
  destruct (decide (g = 1)) as [|Hne]; [done|exfalso].
  assert (2 <= g) by (destruct (decide (g = 0)); nia).
  assert (g <= a) by (by apply Z.divide_pos_le; [lia|]).
  assert (2 <= q) by (destruct (decide (q <= 0)); [|destruct (decide (q = 1))]; nia).
  destruct (Z.le_gt_cases g (Z.sqrt p)).
  - apply (Hno g); [lia|]. by exists q.
  - apply (Hno q); [|exists g; rewrite Hq at 1; ring]. split; [done|].
    destruct (Z.le_gt_cases q (Z.sqrt p)); [done|exfalso]. assert (Hm : Z.succ (Z.sqrt p) * Z.succ (Z.sqrt p) <= q * g).
    { apply Z.mul_le_mono_nonneg; lia. } unfold Z.succ in *. lia.
Qed.

(** What the entries of [glyphHashSets] promise. *)
Definition sized (hs : GlyphHashSetRec) : Prop :=
  prime_test (hs_size hs) = true /\ hs_rehash hs = hs_size hs - 2 /\ 32 <= hs_entries hs < hs_size hs /\
  hs_size hs < 2147483648.
#[export] Instance sized_dec hs : Decision (sized hs).
Proof. unfold sized. apply _. Defined.

Lemma glyphHashSets_sized hs : hs ∈ glyphHashSets -> sized hs.
Proof.
  assert (H : bool_decide (Forall sized glyphHashSets) = true) by (vm_compute; done).
  apply bool_decide_eq_true in H. rewrite Forall_forall in H. apply H.
Qed.

(** ** The way of a search *)

Section Path.
Context (hs : GlyphHashSetRec) (signature : Z).

Definition stride : Z :=
  let s := signature mod hs_rehash hs in if s =? 0 then 1 else s.
(** The slot that is looked at in turn [j]. *)
Definition path (j : nat) : nat := Z.to_nat ((signature + Z.of_nat j * stride) mod hs_size hs).

Hypothesis Hs : sized hs.

Lemma sized_pos : 32 < hs_size hs < 2147483648.
Proof. destruct Hs as (_ & _ & ? & ?). lia. Qed.
Lemma stride_range : 0 < stride < hs_size hs.
Proof.
  pose proof sized_pos. destruct Hs as (_ & Hr & _). unfold stride.
  pose proof (Z.mod_pos_bound signature (hs_rehash hs) ltac:(lia)). case_match; breflect; lia.
Qed.

Lemma path_Z j : Z.of_nat (path j) = (signature + Z.of_nat j * stride) mod hs_size hs.
Proof. pose proof sized_pos. unfold path. rewrite Z2Nat.id; [done|]. apply Z.mod_pos_bound. lia. Qed.
Lemma path_lt j : Z.of_nat (path j) < hs_size hs.
Proof. pose proof sized_pos. rewrite path_Z. apply Z.mod_pos_bound. lia. Qed.
Lemma path_0 : Z.of_nat (path 0) = signature mod hs_size hs.
Proof. rewrite path_Z. by rewrite Z.mul_0_l, Z.add_0_r. Qed.

Lemma probe_path j step :
  step = 0 \/ step = stride -> probe hs signature (Z.of_nat (path j)) step = (Z.of_nat (path (S j)), stride).
Proof.
  intros H. pose proof sized_pos. pose proof stride_range as Hr. pose proof (path_lt j).
  unfold probe. fold stride. replace (if step =? 0 then _ else _) with stride.
  2: { destruct H as [->| ->]; [done|]. case_match; breflect; [lia|done]. }
  rewrite u32_small by lia. f_equal. rewrite (path_Z (S j)).
  replace (signature + Z.of_nat (S j) * stride) with ((signature + Z.of_nat j * stride) + stride) by lia.
  rewrite <- Zplus_mod_idemp_l, <- path_Z. case_match; breflect.
  - f_equal. apply (Z.mod_unique_pos _ _ 1); lia.
  - by rewrite Z.mod_small by lia.
Qed.

(** Two turns at one slot are a round apart. *)
Lemma path_same j k : path j = path k -> (hs_size hs | Z.of_nat k - Z.of_nat j).
Proof.
  intros E. apply (f_equal Z.of_nat) in E. rewrite !path_Z in E. pose proof sized_pos. pose proof stride_range.
  apply (Gauss _ stride).
  - apply Z.mod_divide; [lia|].
    replace (stride * _) with ((signature + Z.of_nat k * stride) - (signature + Z.of_nat j * stride)) by lia.
    rewrite Zminus_mod, E, Z.sub_diag. apply Z.mod_0_l. lia.
  - apply prime_test_coprime; [apply Hs|done].
Qed.
Lemma path_inj j k : path j = path k -> (j < k)%nat -> (j + Z.to_nat (hs_size hs) <= k)%nat.
Proof. intros E Hjk. pose proof sized_pos. destruct (path_same j k E) as [q Hq].
  assert (1 <= q) by (destruct (decide (q <= 0)); nia). nia. Qed.
Lemma path_round j : path (j + Z.to_nat (hs_size hs)) = path j.
Proof.
  pose proof sized_pos. unfold path. f_equal.
  replace (signature + _) with (signature + Z.of_nat j * stride + stride * hs_size hs) by lia.
  apply Z.mod_add. lia.
Qed.

(** A round comes to every slot. *)
Lemma path_onto i : Z.of_nat i < hs_size hs -> exists j, Z.of_nat j < hs_size hs /\ path j = i.
Proof.
  intros Hi. pose proof sized_pos. pose proof stride_range as Hr.
  destruct (rel_prime_bezout _ _ (prime_test_coprime _ _ (proj1 Hs) Hr)) as [u v Huv].
  set (n := (v * (Z.of_nat i - signature)) mod hs_size hs).
  pose proof (Z.mod_pos_bound (v * (Z.of_nat i - signature)) (hs_size hs) ltac:(lia)) as Hn. fold n in Hn.
  exists (Z.to_nat n). split; [lia|]. apply Nat2Z.inj. rewrite path_Z, Z2Nat.id by lia.
  unfold n. rewrite <- Zplus_mod_idemp_r, Zmult_mod_idemp_l, Zplus_mod_idemp_r.
  symmetry. apply (Z.mod_unique_pos _ _ (- u * (Z.of_nat i - signature))); [lia|].
  replace (v * (Z.of_nat i - signature) * stride) with ((v * stride) * (Z.of_nat i - signature)) by ring.
  replace (v * stride) with (1 - u * hs_size hs) by lia. ring.
Qed.
End Path.

(** ** Tables *)

Section Search.
Context {K : Type} `{EqDecision K} (key : GlyphRefRec -> K) (sig : K -> Z).

Definition ref_live (r : GlyphRefRec) : Prop := is_live (r_glyph r) = true.
#[export] Instance ref_live_dec r : Decision (ref_live r).
Proof. unfold ref_live. apply _. Defined.

(** Every slot that a search comes to before this turn was in use once. *)
Definition passable (hs : GlyphHashSetRec) (t : list GlyphRefRec) (k : K) (j : nat) : Prop :=
  forall j', (j' < j)%nat -> exists r, t !! path hs (sig k) j' = Some r /\ r_glyph r <> 0.

(** A table of keys: no key twice, each where a search for it comes to. *)
Record table_ok (hs : GlyphHashSetRec) (t : list GlyphRefRec) : Prop := {
  tok_length : Z.of_nat (length t) = hs_size hs;
  tok_sig : forall i r, t !! i = Some r -> ref_live r -> r_signature r = sig (key r);
  tok_unique : forall i j r r', t !! i = Some r -> t !! j = Some r' -> ref_live r -> ref_live r' ->
    key r = key r' -> i = j;
  tok_placed : forall i r, t !! i = Some r -> ref_live r ->
    exists j, path hs (sig (key r)) j = i /\ passable hs t (key r) j;
}.

(** Where a search for [k] may end. *)
Definition found_at (hs : GlyphHashSetRec) (t : list GlyphRefRec) (k : K) (i : nat) : Prop :=
  exists r j, t !! i = Some r /\ path hs (sig k) j = i /\ passable hs t k j /\
    if decide (ref_live r) then key r = k
    else forall i' r', t !! i' = Some r' -> ref_live r' -> key r' <> k.

Lemma not_live r : ~ ref_live r -> r_glyph r = 0 \/ r_glyph r = DeletedGlyph.
Proof. unfold ref_live, is_live. destruct (Z.eqb_spec (r_glyph r) 0), (Z.eqb_spec (r_glyph r) DeletedGlyph); cbn; auto. done. Qed.
Lemma live_not r : ref_live r -> r_glyph r <> 0 /\ r_glyph r <> DeletedGlyph.
Proof. unfold ref_live, is_live. destruct (Z.eqb_spec (r_glyph r) 0), (Z.eqb_spec (r_glyph r) DeletedGlyph); done. Qed.

Context (hs : GlyphHashSetRec) (t : list GlyphRefRec) (k : K) (cells : gmap Z GlyphRec) (sha1 : option (list Z)).
Context (Hs : sized hs) (Ht : table_ok hs t).
Hypothesis (Hmatch : forall i r, t !! i = Some r -> ref_live r ->
  ref_matches cells (sig k) sha1 r = Ret (bool_decide (key r = k))).
Hypothesis (Hroom : exists i r, t !! i = Some r /\ ~ ref_live r).

Notation way := (path hs (sig k)).

(** After [j] turns nothing has been found; the first deleted slot is known. *)
Record searching (j : nat) (s : Z * Z * option Z) : Prop := {
  sg_elt : s.1.1 = Z.of_nat (way j);
  sg_step : s.1.2 = 0 \/ s.1.2 = stride hs (sig k);
  sg_pass : passable hs t k j;
  sg_none : forall j' r, (j' < j)%nat -> t !! way j' = Some r -> ref_live r -> key r <> k;
  sg_del : match s.2 with
           | None => forall j' r, (j' < j)%nat -> t !! way j' = Some r -> ref_live r
           | Some d => exists jd r, (jd < j <= jd + Z.to_nat (hs_size hs))%nat /\ Z.of_nat jd < hs_size hs /\
               d = Z.of_nat (way jd) /\ t !! way jd = Some r /\ r_glyph r = DeletedGlyph
           end;
}.

Lemma way_lookup j : exists r, t !! way j = Some r.
Proof.
  apply lookup_lt_is_Some. pose proof (path_lt hs (sig k) Hs j). pose proof (tok_length _ _ Ht). lia.
Qed.

(** A search that has not met a deleted slot is still in its first round. *)
Lemma searching_bound j s : searching j s -> (j < 2 * Z.to_nat (hs_size hs))%nat.
Proof.
  intros [_ _ Hp _ Hd]. pose proof (sized_pos _ Hs). destruct s.2 as [d|].
  { destruct Hd as (jd & r & ? & ? & _). lia. }
  destruct Hroom as (i & r & Hi & Hr). pose proof (tok_length _ _ Ht). apply lookup_lt_Some in Hi as Hlt.
  destruct (path_onto hs (sig k) Hs i ltac:(lia)) as (j0 & Hj0 & Hj0i).
  destruct (decide (j0 < j)%nat); [|lia]. subst i. exfalso. apply Hr. by eapply Hd.
Qed.

(** Nobody has the key when a search comes to a slot that was never used, or has
    made a round. *)
Lemma searching_free j s :
  searching j s ->
  (exists r, t !! way j = Some r /\ r_glyph r = 0) \/ (Z.to_nat (hs_size hs) <= j)%nat ->
  forall i' r', t !! i' = Some r' -> ref_live r' -> key r' <> k.
Proof.
  intros Hsg Hcase i' r' Hi' Hl Hk. destruct Hcase as [(r & Hr & Hn)|Hround].
  - destruct (tok_placed _ _ Ht i' r' Hi' Hl) as (j' & Hj' & Hp). rewrite Hk in Hj', Hp. subst i'.
    destruct (lt_eq_lt_dec j' j) as [[Hlt| ->]|Hgt].
    + by apply (sg_none _ _ Hsg j' r').
    + apply live_not in Hl. simplify_eq. tauto.
    + destruct (Hp j Hgt) as (r2 & Hr2 & ?). simplify_eq.
  - apply lookup_lt_Some in Hi' as Hlt. pose proof (tok_length _ _ Ht).
    destruct (path_onto hs (sig k) Hs i' ltac:(lia)) as (j0 & Hj0 & <-).
    apply (sg_none _ _ Hsg j0 r'); [lia|done..].
Qed.

Lemma searching_next j s r d :
  searching j s -> t !! way j = Some r -> r_glyph r <> 0 -> (ref_live r -> key r <> k) ->
  (s.2 = d /\ (ref_live r \/ exists e, s.2 = Some e /\ e <> Z.of_nat (way j)) \/
   s.2 = None /\ d = Some (Z.of_nat (way j)) /\ r_glyph r = DeletedGlyph) ->
  searching (S j) (Z.of_nat (way (S j)), stride hs (sig k), d).
Proof.
  intros Hsg Hr Hnz Hk Hd. pose proof (searching_bound j s Hsg) as Hb. destruct Hsg as [_ _ Hp Hn Hdel].
  assert (Hsplit : forall j', (j' < S j)%nat -> (j' < j)%nat \/ j' = j) by lia.
  constructor; cbn; [done|by right| | |].
  - intros j' Hj'. destruct (Hsplit j' Hj') as [?| ->]; [by apply Hp|by exists r].
  - intros j' r' Hj' Hr' Hl. destruct (Hsplit j' Hj') as [?| ->]; [by eapply Hn|simplify_eq; by apply Hk].
  - destruct Hd as [(Hd & Hl)|(Hd & -> & Hdg)].
    + rewrite Hd in Hdel, Hl. destruct d as [d|].
      * destruct Hdel as (jd & r' & Hj & Hjs & -> & Hr' & Hg). exists jd, r'. split; [|done]. split; [lia|].
        destruct (decide (j = jd + Z.to_nat (hs_size hs))%nat) as [->|]; [exfalso|lia].
        rewrite (path_round _ _ Hs) in Hr, Hl. simplify_eq. destruct Hl as [Hl|(e & [= <-] & ?)]; [|done].
        apply live_not in Hl. tauto.
      * intros j' r' Hj' Hr'. destruct Hl as [Hl|(? & ? & _)]; [|done].
        destruct (Hsplit j' Hj') as [?| ->]; [by eapply Hdel|by simplify_eq].
    + exists j, r. rewrite Hd in Hdel. split; [pose proof (sized_pos _ Hs); lia|]. split; [|done].
      destruct Hroom as (i & r0 & Hi & Hr0). apply lookup_lt_Some in Hi as Hlt. pose proof (tok_length _ _ Ht).
      destruct (path_onto hs (sig k) Hs i ltac:(lia)) as (j0 & Hj0 & <-).
      destruct (decide (j0 < j)%nat); [|lia]. exfalso. apply Hr0. by eapply Hdel.
Qed.

(** The slot of turn [j] is the answer. *)
Lemma found_here j r :
  passable hs t k j -> t !! way j = Some r ->
  (if decide (ref_live r) then key r = k
   else forall i' r', t !! i' = Some r' -> ref_live r' -> key r' <> k) ->
  exists i, Z.of_nat (way j) = Z.of_nat i /\ found_at hs t k i.
Proof. intros. exists (way j). split; [done|]. by exists r, j. Qed.
Lemma found_free j r :
  passable hs t k j -> t !! way j = Some r -> ~ ref_live r ->
  (forall i' r', t !! i' = Some r' -> ref_live r' -> key r' <> k) ->
  exists i, Z.of_nat (way j) = Z.of_nat i /\ found_at hs t k i.
Proof. intros. apply (found_here j r); [done..|]. by rewrite decide_False. Qed.

Lemma search_turn j s :
  searching j s ->
  match find_step cells hs t (sig k) sha1 s with
  | inl s' => searching (S j) s'
  | inr (Ret a) => exists i, a = Z.of_nat i /\ found_at hs t k i
  | inr _ => False
  end.
Proof.
  destruct s as [[elt step] del]. intros Hsg. pose proof (sg_elt _ _ Hsg) as E. cbn in E. subst elt.
  destruct (way_lookup j) as [r Hr]. unfold find_step. rewrite Nat2Z.id, Hr.
  rewrite (probe_path hs (sig k) Hs j step (sg_step _ _ Hsg)). pose proof (sg_del _ _ Hsg) as Hd. cbn in Hd.
  destruct (Z.eqb_spec (r_glyph r) 0) as [H0|H0].
  { assert (Hfree := searching_free j _ Hsg ltac:(left; eauto)). destruct del as [d|]; cbn.
    - destruct Hd as (jd & r' & Hj & _ & -> & Hr' & Hg). apply (found_free jd r'); [|done|intros Hl%live_not; tauto|done].
      intros j' Hj'. apply (sg_pass _ _ Hsg). lia.
    - apply (found_free j r); [apply (sg_pass _ _ Hsg)|done|intros Hl%live_not; tauto|done]. }
  destruct (Z.eqb_spec (r_glyph r) DeletedGlyph) as [HD|HD].
  { assert (Hnl : ~ ref_live r) by (intros Hl%live_not; tauto).
    destruct del as [d|]; [|apply (searching_next j _ r _ Hsg Hr H0); [done|by right]].
    destruct (Z.eqb_spec (Z.of_nat (way j)) d) as [E|Hne].
    - apply (found_free j r); [apply (sg_pass _ _ Hsg)|done..|]. apply (searching_free j _ Hsg). right.
      destruct Hd as (jd & r' & Hj & _ & Hdj & _). rewrite Hdj in E. apply Nat2Z.inj in E.
      pose proof (path_inj hs (sig k) Hs jd j ltac:(done)). lia.
    - apply (searching_next j _ r _ Hsg Hr H0); [done|left]. split; [done|]. right. eauto. }
  assert (Hl : ref_live r) by (unfold ref_live, is_live; by apply Z.eqb_neq in H0, HD; rewrite H0, HD).
  rewrite (Hmatch _ r Hr Hl). case_bool_decide as Hk.
  - apply (found_here j r); [apply (sg_pass _ _ Hsg)|done|by rewrite decide_True].
  - apply (searching_next j _ r _ Hsg Hr H0); [done|left]. split; [done|by left].
Qed.

(** The search ends, within two rounds. *)
Lemma search_spec :
  exists i, run_loop (find_step cells hs t (sig k) sha1) TURNS (sig k mod hs_size hs, 0, None) = Ret (Z.of_nat i) /\
    found_at hs t k i.
Proof.
  pose proof (sized_pos _ Hs).
  destruct (run_loop_ranked (find_step cells hs t (sig k) sha1)
    (fun n s => exists j, n = (2 * Z.to_nat (hs_size hs) - j)%nat /\ searching j s)
    (fun a => exists i, a = Z.of_nat i /\ found_at hs t k i) TURNS (2 * Z.to_nat (hs_size hs))
    (sig k mod hs_size hs, 0, None)) as (a & Ha & i & -> & Hi).
  - intros n s (j & -> & Hsg). pose proof (search_turn j s Hsg) as Hst. pose proof (searching_bound j s Hsg).
    destruct (find_step _ _ _ _ _ s) as [s'|]; [|done]. eexists. split; [|by exists (S j)]. lia.
  - exists 0%nat. split; [lia|]. constructor; cbn; [by rewrite (path_0 _ _ Hs)|by left|intros ??; lia..].
  - unfold TURNS. lia.
  - by exists i.
Qed.
End Search.
