(* ===== verification/GlyphTable.v ===== *)
(** * Hash tables of glyphs as maps (render/glyph.c)

    A table stands for the map of its slots in use.  The same tables are keyed
    by the ids of clients, in a glyph set, and by the hashes of images, in the
    table of all glyphs of a depth: the class [GlyphKeys] is what they share.
    Storing, deleting and resizing are the operations of maps. *)

From S2P Require Import Prelude Glyphs GlyphProbe.

(** ** Keys *)

(** How a slot's key is found and looked for; [gk_valid] is what a search needs
    to be able to compare. *)
Class GlyphKeys (K : Type) := {
  gk_key : GlyphRefRec -> K;
  gk_sig : K -> Z;
  gk_sha1 : K -> option (list Z);
  gk_valid : GlyphRefRec -> Prop;
  gk_global : bool;
}.

(** The comparison is that of the keys, and moving a slot to another table looks
    for its key. *)
Class LawfulKeys (cells : gmap Z GlyphRec) (K : Type) `{EqDecision K} `{GlyphKeys K} : Prop := {
  gk_matches k r : gk_valid r -> r_signature r = gk_sig (gk_key r) ->
    ref_matches cells (gk_sig k) (gk_sha1 k) r = Ret (bool_decide (gk_key r = k));
  gk_moves r : gk_valid r ->
    (if gk_global then g <-? cells !! r_glyph r; Ret (Some (gl_sha1 g)) else Ret None) = Ret (gk_sha1 (gk_key r));
}.

(** The ids of a glyph set. *)
#[export] Instance id_keys : GlyphKeys Z :=
  {| gk_key := r_signature; gk_sig := fun id => id; gk_sha1 := fun _ => None; gk_valid := fun _ => True;
     gk_global := false |}.
#[export] Instance id_keys_lawful cells : LawfulKeys cells Z.
Proof.
  split; [|done]. intros k r _ _. unfold ref_matches. cbn.
  destruct (Z.eqb_spec (r_signature r) k); cbn; [by rewrite bool_decide_true|by rewrite bool_decide_false].
Qed.

(** The hashes of images: those of the glyphs in the slots. *)
Definition sha_of (cells : gmap Z GlyphRec) (g : Z) : list Z := from_option gl_sha1 [] (cells !! g).
Definition image_keys (cells : gmap Z GlyphRec) : GlyphKeys (list Z) :=
  {| gk_key := fun r => sha_of cells (r_glyph r); gk_sig := first_word; gk_sha1 := Some;
     gk_valid := fun r => is_Some (cells !! r_glyph r); gk_global := true |}.
Lemma image_keys_lawful cells : @LawfulKeys cells (list Z) _ (image_keys cells).
Proof.
  split; [|intros r [c Hc]; cbn; unfold sha_of; by rewrite Hc].
  intros k r [c Hc] Hsig. unfold ref_matches. cbn [gk_key gk_sig gk_sha1 image_keys] in *.
  unfold sha_of in *. rewrite Hc in *. cbn [from_option] in *. rewrite Hsig. cbn [obind_opt].
  destruct (Z.eqb_spec (first_word (gl_sha1 c)) (first_word k)) as [E|E]; [done|].
  rewrite bool_decide_false; [done|]. intros Heq. by rewrite Heq in E.
Qed.

(** ** Slots in use *)

Definition live_count (t : list GlyphRefRec) : nat := length (filter ref_live t).

Lemma live_count_app t t' : live_count (t ++ t') = (live_count t + live_count t')%nat.
Proof. unfold live_count. by rewrite filter_app, length_app. Qed.
Lemma live_count_cons r t : live_count (r :: t) = ((if decide (ref_live r) then 1 else 0) + live_count t)%nat.
Proof. unfold live_count. rewrite filter_cons. by destruct (decide (ref_live r)). Qed.
Lemma live_count_insert t i r r' :
  t !! i = Some r ->
  (live_count (<[i := r']> t) + (if decide (ref_live r) then 1 else 0) =
   live_count t + (if decide (ref_live r') then 1 else 0))%nat.
Proof.
  intros Hi. rewrite insert_take_drop by (by eapply lookup_lt_Some).
  rewrite <- (take_drop_middle t i r Hi) at 3. rewrite !live_count_app, !live_count_cons. lia.
Qed.
Lemma live_count_room t : (live_count t < length t)%nat -> exists i r, t !! i = Some r /\ ~ ref_live r.
Proof.
  intros H. destruct (decide (Forall ref_live t)) as [Hall|Hno].
  - unfold live_count in H. rewrite filter_keep in H; [lia|]. by rewrite Forall_forall in Hall.
  - apply not_Forall_Exists in Hno; [|apply _]. apply Exists_exists in Hno as (r & Hr & ?).
    apply list_elem_of_lookup in Hr as [i ?]. eauto.
Qed.
Lemma live_count_zero t i r : live_count t = 0%nat -> t !! i = Some r -> ~ ref_live r.
Proof.
  intros H0 Hi Hl. apply length_zero_iff_nil in H0. apply list_elem_of_lookup_2 in Hi.
  assert (Hr : r ∈ filter ref_live t) by (by apply list_elem_of_filter). rewrite H0 in Hr.
  by apply not_elem_of_nil in Hr.
Qed.

Section Tables.
Context {K : Type} `{Countable K} `{KK : GlyphKeys K}.
Implicit Types (t : list GlyphRefRec) (m : gmap K Z) (h : GlyphHashRec).
Notation ok := (table_ok gk_key gk_sig).

(** What a table stands for. *)
Definition contents t : gmap K Z := list_to_map ((fun r => (gk_key r, r_glyph r)) <$> filter ref_live t).

Definition slot t (k : K) (g : Z) : Prop :=
  exists i r, t !! i = Some r /\ ref_live r /\ gk_key r = k /\ r_glyph r = g.

Lemma contents_elem t k g : (k, g) ∈ ((fun r => (gk_key r, r_glyph r)) <$> filter ref_live t) <-> slot t k g.
Proof.
  rewrite list_elem_of_fmap. split.
  - intros (r & [= -> ->] & Hr). apply list_elem_of_filter in Hr as [Hl Hr]. apply list_elem_of_lookup in Hr as [i Hi].
    by exists i, r.
  - intros (i & r & Hi & Hl & <- & <-). exists r. split; [done|]. apply list_elem_of_filter. split; [done|].
    by eapply list_elem_of_lookup_2.
Qed.

Lemma contents_lookup hs t k g : ok hs t -> contents t !! k = Some g <-> slot t k g.
Proof.
  intros Hok. split.
  - intros Hc. apply contents_elem. by apply elem_of_list_to_map_2.
  - intros Hs. apply elem_of_list_to_map_1'; [|by apply contents_elem].
    intros g' Hg'%contents_elem. destruct Hs as (i & r & Hi & Hl & Hk & <-), Hg' as (i' & r' & Hi' & Hl' & Hk' & <-).
    assert (i = i') as -> by (eapply (tok_unique _ _ _ _ Hok); try done; congruence). by simplify_eq.
Qed.

Lemma contents_None hs t k : ok hs t -> contents t !! k = None <-> forall i r, t !! i = Some r -> ref_live r -> gk_key r <> k.
Proof.
  intros Hok. rewrite eq_None_not_Some. split.
  - intros Hn i r Hi Hl Hk. apply Hn. exists (r_glyph r). apply (contents_lookup hs); [done|]. by exists i, r.
  - intros Hn [g (i & r & Hi & Hl & Hk & _)%(contents_lookup hs)]; [|done]. by apply (Hn i r).
Qed.

(** ** Writing a slot *)

Lemma passable_insert hs t k j i r :
  r_glyph r <> 0 -> passable gk_sig hs t k j -> passable gk_sig hs (<[i := r]> t) k j.
Proof.
  intros Hr Hp j' Hj'. destruct (Hp j' Hj') as (r' & Hr' & Hnz).
  destruct (decide (path hs (gk_sig k) j' = i)) as [Heq|Hne].
  - exists r. split; [|done]. rewrite Heq in *. apply list_lookup_insert_eq. by eapply lookup_lt_Some.
  - exists r'. by rewrite list_lookup_insert_ne.
Qed.

(** The glyph of a key is stored where a search for the key ended. *)
Lemma table_store hs t k i g :
  ok hs t -> found_at gk_key gk_sig hs t k i -> is_live g = true -> gk_key (Ref (gk_sig k) g) = k ->
  ok hs (<[i := Ref (gk_sig k) g]> t) /\ contents (<[i := Ref (gk_sig k) g]> t) = <[k := g]> (contents t).
Proof.
  intros Hok (r & j & Hi & Hj & Hp & Hf) Hg Hk. set (r1 := Ref (gk_sig k) g) in *.
  assert (Hlen : (i < length t)%nat) by (by eapply lookup_lt_Some).
  assert (Hnz : r_glyph r1 <> 0) by (by apply (live_not r1)).
  assert (Hl1 : ref_live r1) by done.
  assert (Hcase : forall i' r', <[i := r1]> t !! i' = Some r' -> i' = i /\ r' = r1 \/ i' <> i /\ t !! i' = Some r').
  { intros i' r' Hi'. destruct (decide (i' = i)) as [->|]; [left|right].
    - rewrite list_lookup_insert_eq in Hi' by done. by simplify_eq.
    - by rewrite list_lookup_insert_ne in Hi'. }
  assert (Hother : forall i' r', i' <> i -> t !! i' = Some r' -> ref_live r' -> gk_key r' <> k).
  { intros i' r' Hne Hi' Hl' Hk'. case_decide as Hl; [|by eapply Hf]. apply Hne.
    eapply (tok_unique _ _ _ _ Hok); try done. congruence. }
  assert (Hok' : ok hs (<[i := r1]> t)).
  { constructor.
    - rewrite length_insert. apply (tok_length _ _ _ _ Hok).
    - intros i' r' [[-> ->]|[_ Hi']]%Hcase Hl; [by rewrite Hk|by eapply (tok_sig _ _ _ _ Hok)].
    - intros i1 i2 r2 r3 [[-> ->]|[Hn1 H1]]%Hcase [[-> ->]|[Hn2 H2]]%Hcase Hl2 Hl3 E; [done|exfalso|exfalso|].
      + apply (Hother i2 r3); [done..|congruence].
      + apply (Hother i1 r2); [done..|congruence].
      + by eapply (tok_unique _ _ _ _ Hok).
    - intros i' r' [[-> ->]|[_ Hi']]%Hcase Hl.
      + exists j. rewrite Hk. split; [done|]. by apply passable_insert.
      + destruct (tok_placed _ _ _ _ Hok i' r' Hi' Hl) as (j' & ? & ?). exists j'. split; [done|]. by apply passable_insert. }
  split; [done|]. apply map_eq. intros k'. apply option_eq. intros g'. rewrite (contents_lookup hs) by done.
  destruct (decide (k = k')) as [<-|Hne].
  - rewrite lookup_insert_eq. split.
    + intros (i' & r' & [[-> ->]|[Hn Hi']]%Hcase & Hl & Hk' & <-); [done|]. exfalso. by apply (Hother i' r').
    + intros [= <-]. exists i, r1. by rewrite list_lookup_insert_eq.
  - rewrite lookup_insert_ne by done. rewrite (contents_lookup hs) by done. split.
    + intros (i' & r' & [[-> ->]|[Hn Hi']]%Hcase & Hl & Hk' & <-); [congruence|by exists i', r'].
    + intros (i' & r' & Hi' & Hl & Hk' & <-). exists i', r'. split; [|done]. rewrite list_lookup_insert_ne; [done|].
      intros ->. simplify_eq. rewrite decide_True in Hf by done. congruence.
Qed.

(** A slot in use is marked deleted. *)
Lemma table_delete hs t i r s :
  ok hs t -> t !! i = Some r -> ref_live r ->
  ok hs (<[i := Ref s DeletedGlyph]> t) /\ contents (<[i := Ref s DeletedGlyph]> t) = delete (gk_key r) (contents t).
Proof.
  intros Hok Hi Hl. set (r1 := Ref s DeletedGlyph).
  assert (Hlen : (i < length t)%nat) by (by eapply lookup_lt_Some).
  assert (Hl1 : ~ ref_live r1) by done.
  assert (Hcase : forall i' r', <[i := r1]> t !! i' = Some r' -> ref_live r' -> i' <> i /\ t !! i' = Some r').
  { intros i' r' Hi' Hl'. destruct (decide (i' = i)) as [->|].
    - rewrite list_lookup_insert_eq in Hi' by done. by simplify_eq.
    - by rewrite list_lookup_insert_ne in Hi'. }
  assert (Hok' : ok hs (<[i := r1]> t)).
  { constructor.
    - rewrite length_insert. apply (tok_length _ _ _ _ Hok).
    - intros i' r' Hi' Hl'. destruct (Hcase _ _ Hi' Hl') as [_ ?]. by eapply (tok_sig _ _ _ _ Hok).
    - intros i1 i2 r2 r3 H1 H2 Hl2 Hl3 E. destruct (Hcase _ _ H1 Hl2) as [_ ?], (Hcase _ _ H2 Hl3) as [_ ?].
      by eapply (tok_unique _ _ _ _ Hok).
    - intros i' r' Hi' Hl'. destruct (Hcase _ _ Hi' Hl') as [_ Hi2].
      destruct (tok_placed _ _ _ _ Hok i' r' Hi2 Hl') as (j' & ? & ?). exists j'. split; [done|]. by apply passable_insert. }
  split; [done|]. apply map_eq. intros k'. apply option_eq. intros g'. rewrite (contents_lookup hs) by done.
  rewrite lookup_delete_Some, (contents_lookup hs) by done. split.
  - intros (i' & r' & Hi' & Hl' & <- & <-). destruct (Hcase _ _ Hi' Hl') as [Hne ?]. split; [|by exists i', r'].
    intros E. apply Hne. by eapply (tok_unique _ _ _ _ Hok).
  - intros (Hne & i' & r' & Hi' & Hl' & <- & <-). exists i', r'. split; [|done]. rewrite list_lookup_insert_ne; [done|].
    intros ->. by simplify_eq.
Qed.
End Tables.
