(* ===== verification/GlyphHash.v ===== *)
(** * The operations of the tables of glyphs (render/glyph.c)

    [models h m]: the table [h] stands for the map [m].  Under it a search
    returns the slot of its key, storing and deleting change the map at the key,
    and resizing keeps the map. *)

From S2P Require Import Prelude Glyphs GlyphProbe GlyphTable.

(** The largest table. *)
Definition MAX_ENTRIES : Z := 536870912.

Lemma FindGlyphHashSet_spec filled :
  filled <= MAX_ENTRIES -> exists hs, FindGlyphHashSet filled = Some hs /\ hs ∈ glyphHashSets /\ filled <= hs_entries hs.
Proof.
  intros Hf. unfold FindGlyphHashSet. destruct (find _ glyphHashSets) as [hs|] eqn:E.
  - apply List.find_some in E as [Hin Hle]. apply Z.leb_le in Hle. exists hs. split; [done|]. split; [|done].
    by apply list_elem_of_In.
  - exfalso. pose proof (List.find_none _ _ E (HashSet 536870912 590559793 590559791)) as H.
    cbn in H. unfold MAX_ENTRIES in Hf. apply Z.leb_le in Hf. rewrite Hf in H. discriminate H. do 24 right. by left.
Qed.

Lemma NoDup_keys {A B} (P : A -> Prop) `{!forall x, Decision (P x)} (f : A -> B) (t : list A) :
  (forall i j x y, t !! i = Some x -> t !! j = Some y -> P x -> P y -> f x = f y -> i = j) ->
  NoDup (f <$> filter P t).
Proof.
  induction t as [|x t IH]; intros Hu; [constructor|]. rewrite filter_cons.
  assert (Hrest : NoDup (f <$> filter P t)).
  { apply IH. intros i j y z Hi Hj ? ? E. specialize (Hu (S i) (S j) y z Hi Hj). naive_solver. }
  case_decide as Hx; [|done]. apply NoDup_cons. split; [|done].
  intros (y & E & [Hy Hin]%list_elem_of_filter)%list_elem_of_fmap. apply list_elem_of_lookup in Hin as [i Hi].
  specialize (Hu 0%nat (S i) x y eq_refl Hi Hx Hy E). done.
Qed.

Section Hash.
Context {K : Type} `{Countable K} `{KK : GlyphKeys K}.
Implicit Types (t : list GlyphRefRec) (m : gmap K Z) (h : GlyphHashRec).
Notation ok := (table_ok gk_key gk_sig).

(** ** Tables and maps *)

Definition models h m : Prop :=
  exists hs t, h = Hash (Some t) (Some hs) (Z.of_nat (live_count t)) /\ hs ∈ glyphHashSets /\ ok hs t /\
    (forall i r, t !! i = Some r -> ref_live r -> gk_valid r) /\ Z.of_nat (live_count t) <= hs_entries hs /\
    contents t = m.

(** [n] more entries do not fill the table. *)
Definition room h (n : Z) : Prop := exists hs, hashSet h = Some hs /\ tableEntries h + n <= hs_entries hs.

(** The slot at which a search for [k] ends. *)
Definition answer h (k : K) (i : nat) (r : GlyphRefRec) : Prop :=
  exists hs t n, h = Hash (Some t) (Some hs) n /\ found_at gk_key gk_sig hs t k i /\ t !! i = Some r.

Lemma read_answer h k i r : answer h k i r -> read_ref h (Some (Z.of_nat i)) = Ret r.
Proof. intros (hs & t & n & -> & _ & Hi). cbn. by rewrite Nat2Z.id, Hi. Qed.

Lemma models_entries h m : models h m -> 0 <= tableEntries h < 2147483648.
Proof.
  intros (hs & t & -> & Hhs & _ & _ & Hn & _). cbn. destruct (glyphHashSets_sized hs Hhs) as (_ & _ & ? & ?). lia.
Qed.

(** A table without slots in use. *)
Lemma fresh_models hs :
  hs ∈ glyphHashSets -> models (Hash (Some (replicate (Z.to_nat (hs_size hs)) (Ref 0 0))) (Some hs) 0) ∅.
Proof.
  intros Hhs. destruct (glyphHashSets_sized hs Hhs) as (_ & _ & ? & ?). set (t := replicate _ _).
  assert (Hnl : forall i r, t !! i = Some r -> ~ ref_live r) by (by intros i r [-> _]%lookup_replicate).
  assert (Hf : filter ref_live t = []) by (by apply filter_none; intros r [i ?]%list_elem_of_lookup; eapply Hnl).
  exists hs, t. unfold live_count, contents. rewrite Hf. split; [done|]. split; [done|]. split.
  - constructor; [unfold t; rewrite length_replicate; lia|..].
    + intros i r Hi Hl. by destruct (Hnl i r).
    + intros i j r r' Hi _ Hl. by destruct (Hnl i r).
    + intros i r Hi Hl. by destruct (Hnl i r).
  - split; [intros i r Hi Hl; by destruct (Hnl i r)|]. split; [cbn; lia|done].
Qed.

(** A table without entries stands for the empty map. *)
Lemma models_empty h m : models h m -> tableEntries h = 0 -> m = ∅.
Proof.
  intros (hs & t & -> & _ & _ & _ & _ & <-) H0. cbn in H0. unfold contents, live_count in *.
  assert (filter ref_live t = []) as -> by (apply length_zero_iff_nil; lia). done.
Qed.

Section Cells.
Context (cells : gmap Z GlyphRec) `{LK : !LawfulKeys cells K}.

Lemma FindGlyphRef_models h m k :
  models h m ->
  exists i r, FindGlyphRef cells h (gk_sig k) (gk_sha1 k) = Ret (Some (Z.of_nat i)) /\ answer h k i r /\
    m !! k = (if decide (ref_live r) then Some (r_glyph r) else None).
Proof.
  intros (hs & t & -> & Hhs & Hok & Hv & Hn & <-). pose proof (glyphHashSets_sized hs Hhs) as Hsz.
  pose proof (sized_pos hs Hsz). destruct Hsz as (? & ? & ? & ?).
  destruct (search_spec gk_key gk_sig hs t k cells (gk_sha1 k) ltac:(done) Hok) as (i & Hrun & Hf).
  - intros i r Hi Hl. apply gk_matches; [by eapply Hv|]. by eapply (tok_sig _ _ _ _ Hok).
  - apply live_count_room. pose proof (tok_length _ _ _ _ Hok). lia.
  - destruct Hf as (r & j & Hi & Hrest). exists i, r. split; [|split].
    + unfold FindGlyphRef. cbn. destruct (Z.eqb_spec (hs_size hs) 0); [lia|]. by rewrite Hrun.
    + exists hs, t, (Z.of_nat (live_count t)). split; [done|]. split; [|done]. by exists r, j.
    + destruct Hrest as (_ & _ & Hc). case_decide as Hl.
      * apply (contents_lookup hs); [done|]. by exists i, r.
      * by apply (contents_None hs).
Qed.
End Cells.

(** ** Changing a slot *)

Lemma answer_slot h m k i r :
  models h m -> answer h k i r ->
  exists hs t, h = Hash (Some t) (Some hs) (Z.of_nat (live_count t)) /\ hs ∈ glyphHashSets /\ ok hs t /\
    (forall i r, t !! i = Some r -> ref_live r -> gk_valid r) /\ Z.of_nat (live_count t) <= hs_entries hs /\
    contents t = m /\ found_at gk_key gk_sig hs t k i /\ t !! i = Some r.
Proof.
  intros (hs & t & -> & ? & ? & ? & ? & ?) (hs' & t' & n & [= <- <- <-] & ? & ?). by exists hs, t.
Qed.

Lemma valid_insert t i r1 :
  (ref_live r1 -> gk_valid r1) -> (forall i r, t !! i = Some r -> ref_live r -> gk_valid r) ->
  forall i' r, <[i := r1]> t !! i' = Some r -> ref_live r -> gk_valid r.
Proof. intros H1 Ht i' r [(-> & -> & _)|[_ ?]]%list_lookup_insert_Some Hl; [by apply H1|by eapply Ht]. Qed.

Definition live_entry (r : GlyphRefRec) : Z := if decide (ref_live r) then 1 else 0.

(** The glyph of a key is replaced or added. *)
Lemma store_models h m k i r g :
  models h m -> answer h k i r -> room h (1 - live_entry r) ->
  is_live g = true -> gk_key (Ref (gk_sig k) g) = k -> gk_valid (Ref (gk_sig k) g) ->
  models (write_ref (Z.of_nat i) (Ref (gk_sig k) g) h <| tableEntries ::= fun n => u32 (n + (1 - live_entry r)) |>)
    (<[k := g]> m).
Proof.
  intros Hm Ha Hroom Hg Hk Hv. destruct (answer_slot h m k i r Hm Ha) as (hs & t & -> & Hhs & Hok & Hva & Hn & <- & Hf & Hi).
  destruct Hroom as (hs' & [= <-] & Hroom). cbn in Hroom.
  destruct (glyphHashSets_sized hs Hhs) as (_ & _ & ? & ?).
  destruct (table_store hs t k i g Hok Hf Hg Hk) as [Hok' Hc].
  pose proof (live_count_insert t i r (Ref (gk_sig k) g) Hi) as Hcount.
  rewrite (decide_True (P := ref_live (Ref _ _))) in Hcount by done.
  exists hs, (<[i := Ref (gk_sig k) g]> t). cbn. rewrite Nat2Z.id. unfold live_entry in *.
  split; [f_equal; rewrite u32_small; case_decide; lia|]. split; [done|]. split; [done|].
  split; [by apply valid_insert|]. split; [case_decide; lia|done].
Qed.

(** A key is deleted. *)
Lemma delete_models h m k i r s :
  models h m -> answer h k i r -> ref_live r ->
  models (write_ref (Z.of_nat i) (Ref s DeletedGlyph) h <| tableEntries ::= fun n => u32 (n - 1) |>) (delete k m).
Proof.
  intros Hm Ha Hl. destruct (answer_slot h m k i r Hm Ha) as (hs & t & -> & Hhs & Hok & Hva & Hn & <- & Hf & Hi).
  destruct (glyphHashSets_sized hs Hhs) as (_ & _ & ? & ?).
  destruct (table_delete hs t i r s Hok Hi Hl) as [Hok' Hc].
  destruct Hf as (r' & j & Hi' & _ & _ & Hk). assert (r' = r) as -> by congruence. rewrite decide_True in Hk by done. rewrite Hk in Hc.
  pose proof (live_count_insert t i r (Ref s DeletedGlyph) Hi) as Hcount.
  rewrite (decide_True (P := ref_live r)), (decide_False (P := ref_live (Ref _ _))) in Hcount by done.
  exists hs, (<[i := Ref s DeletedGlyph]> t). cbn. rewrite Nat2Z.id.
  split; [f_equal; rewrite u32_small; lia|]. split; [done|]. split; [done|].
  split; [by apply valid_insert|]. split; [lia|done].
Qed.
End Hash.

(** ** Resizing *)

Section Resize.
Context (cells : gmap Z GlyphRec) {K : Type} `{Countable K} `{KK : GlyphKeys K} `{LK : !LawfulKeys cells K}.
Implicit Types (t l : list GlyphRefRec) (m : gmap K Z) (h : GlyphHashRec).

Lemma contents_cons_live r l : ref_live r -> contents (r :: l) = <[gk_key r := r_glyph r]> (contents l).
Proof. intros Hl. unfold contents. by rewrite filter_cons_True. Qed.
Lemma contents_cons_free r l : ~ ref_live r -> contents (r :: l) = contents l.
Proof. intros Hl. unfold contents. by rewrite filter_cons_False. Qed.

(** One slot goes to the new table. *)
Lemma resize_ref_models h m r :
  models h m -> room h 1 -> ref_live r -> gk_valid r -> r_signature r = gk_sig (gk_key r) -> m !! gk_key r = None ->
  exists h', resize_ref cells gk_global h r = Ret h' /\ models h' (<[gk_key r := r_glyph r]> m) /\
    hashSet h' = hashSet h /\ tableEntries h' = tableEntries h + 1.
Proof.
  intros Hm Hroom Hl Hv Hs Hnone. unfold resize_ref. rewrite (gk_moves (cells := cells)) by done.
  unfold ref_live in Hl. rewrite Hl. cbn [negb obind]. rewrite Hs.
  destruct (FindGlyphRef_models cells h m (gk_key r) Hm) as (i & r0 & -> & Ha & Hr0). cbn [obind].
  rewrite Hnone in Hr0. destruct (decide (ref_live r0)) as [?|Hnl]; [done|].
  assert (Hle : live_entry r0 = 0) by (unfold live_entry; by rewrite decide_False).
  pose proof (store_models h m (gk_key r) i r0 (r_glyph r) Hm Ha) as Hst. rewrite Hle in Hst.
  pose proof (models_entries h m Hm).
  eexists. split; [|split; [apply Hst|]]; rewrite <- ?Hs; destruct r; cbn in *; [|done..|].
  - by rewrite Hs.
  - split; [done|]. rewrite u32_small; lia.
Qed.

Lemma resize_refs_models l h m :
  models h m -> room h (Z.of_nat (live_count l)) ->
  (forall r, r ∈ l -> ref_live r -> gk_valid r /\ r_signature r = gk_sig (gk_key r) /\ m !! gk_key r = None) ->
  NoDup (gk_key <$> filter ref_live l) ->
  exists h', resize_refs cells gk_global h l = Ret h' /\ models h' (m ∪ contents l) /\
    hashSet h' = hashSet h /\ tableEntries h' = tableEntries h + Z.of_nat (live_count l).
Proof.
  revert h m. induction l as [|r l IH]; intros h m Hm Hroom Hl Hd.
  { exists h. cbn. replace (m ∪ contents []) with m by (unfold contents; cbn; by rewrite (right_id_L ∅ (∪))). split; [done|]. split; [done|].
    split; [done|]. unfold live_count. cbn. lia. }
  cbn [resize_refs]. rewrite live_count_cons in *. destruct (decide (ref_live r)) as [Hr|Hr].
  - destruct (Hl r ltac:(left) Hr) as (Hv & Hs & Hnone).
    rewrite filter_cons_True, fmap_cons, NoDup_cons in Hd by done. destruct Hd as [Hnin Hd].
    destruct (resize_ref_models h m r Hm) as (h1 & -> & Hm1 & Hhs1 & Hn1); try done.
    { destruct Hroom as (hs & ? & ?). exists hs. split; [done|lia]. }
    cbn [obind]. destruct (IH h1 _ Hm1) as (h2 & -> & Hm2 & Hhs2 & Hn2).
    + destruct Hroom as (hs & ? & ?). exists hs. rewrite Hhs1, Hn1. split; [done|lia].
    + intros r' Hin Hl'. destruct (Hl r' ltac:(by right) Hl') as (? & ? & ?). split; [done|]. split; [done|].
      rewrite lookup_insert_ne; [done|]. intros E. apply Hnin. rewrite E. apply list_elem_of_fmap_2.
      by apply list_elem_of_filter.
    + done.
    + exists h2. split; [done|]. rewrite contents_cons_live by done.
      rewrite <- insert_union_r, insert_union_l by done. split; [done|]. split; [congruence|lia].
  - assert (Hskip : resize_ref cells gk_global h r = Ret h).
    { unfold resize_ref. unfold ref_live in Hr. apply not_true_is_false in Hr. by rewrite Hr. }
    rewrite Hskip. cbn [obind]. rewrite contents_cons_free by done. rewrite filter_cons_False in Hd by done.
    apply IH; [done|done| |done]. intros r' Hin. apply Hl. by right.
Qed.

Context (env : glyph_env).

(** Space in proportion to the entries, as far as memory allows; what the table
    stands for stays. *)
Lemma ResizeGlyphHash_models st h m change :
  gm_cells st = cells -> models h m -> 0 <= change -> tableEntries h + change <= MAX_ENTRIES ->
  exists h' ok k, ResizeGlyphHash env st h change gk_global = Ret (st <| gm_count := k |>, h', ok) /\
    models h' m /\ tableEntries h' = tableEntries h /\ if ok : bool then room h' change else h' = h.
Proof.
  intros Hcells Hm Hc Hmax. pose proof (models_entries h m Hm). unfold ResizeGlyphHash.
  rewrite u32_small by (unfold MAX_ENTRIES in *; lia).
  destruct (FindGlyphHashSet_spec _ Hmax) as (hs' & -> & Hin & Hle). case_bool_decide as E.
  { exists h, true, (gm_count st). split; [by destruct st|]. split; [done|]. split; [done|]. by exists hs'. }
  unfold AllocateGlyphHash, gl_alloc. destruct (ge_alloc env (gm_count st) (16 * hs_size hs')); cbn [obind].
  2: { by exists h, false, (S (gm_count st)). }
  pose proof Hm as (hs & t & -> & Hhs & Hok & Hv & Hn & Hcont). cbn [table hashSet obind_opt tableEntries] in *.
  pose proof (tok_length _ _ _ _ Hok) as Hlen. destruct (Z.ltb_spec (Z.of_nat (length t)) (hs_size hs)); [lia|].
  rewrite take_ge by lia. rewrite Hcells.
  destruct (resize_refs_models t _ ∅ (fresh_models hs' Hin)) as (h' & Hrun & Hm' & Hhs' & Hn').
  - exists hs'. cbn. split; [done|lia].
  - intros r [i Hi]%list_elem_of_lookup Hl. split; [by eapply Hv|]. split; [by eapply (tok_sig _ _ _ _ Hok)|done].
  - apply NoDup_keys. intros i j x y Hx Hy Hlx Hly Ek. by eapply (tok_unique _ _ _ _ Hok).
  - exists h', true, (S (gm_count st)). cbn in Hrun. rewrite Hrun. cbn. rewrite (left_id_L ∅ (∪)), Hcont in Hm'.
    split; [done|]. split; [done|]. cbn in Hn', Hhs'. split; [done|]. exists hs'. split; [done|]. lia.
Qed.
End Resize.
