(* ===== verification/GlyphInv.v ===== *)
(** * The invariant of glyph sets (render/glyph.c)

    The state is described by the glyphs of each set, by id, and those of each
    depth, by image.  A glyph's reference count is the number of entries of sets
    that name it, plus the references that a request in progress holds; every
    glyph of a set is the one that the table of its depth has for its image. *)

From stdpp Require Import functions.
From S2P Require Import Prelude Glyphs GlyphProbe GlyphTable GlyphHash.

(** ** Occurrences *)

Definition occ (g : Z) (l : list Z) : Z := Z.of_nat (length (filter (fun x => x = g) l)).

Lemma occ_nil g : occ g [] = 0.
Proof. done. Qed.
Lemma occ_cons g x l : occ g (x :: l) = (if decide (x = g) then 1 else 0) + occ g l.
Proof. unfold occ. rewrite filter_cons. case_decide; cbn [length]; lia. Qed.
Lemma occ_app g l l' : occ g (l ++ l') = occ g l + occ g l'.
Proof. unfold occ. rewrite filter_app, length_app. lia. Qed.
#[export] Instance occ_perm g : Proper ((≡ₚ) ==> eq) (occ g).
Proof. intros l l' E. unfold occ. by rewrite E. Qed.
Lemma occ_nonneg g l : 0 <= occ g l.
Proof. unfold occ. lia. Qed.
Lemma occ_le g l : occ g l <= Z.of_nat (length l).
Proof. unfold occ. pose proof (length_filter (fun x => x = g) l). lia. Qed.
Lemma occ_pos g l : 0 < occ g l <-> g ∈ l.
Proof.
  unfold occ. split.
  - intros Hp. destruct (filter _ l) as [|x l'] eqn:E; [done|].
    assert (Hx : x ∈ filter (fun x => x = g) l) by (rewrite E; left). by apply list_elem_of_filter in Hx as [-> ?].
  - intros Hg. assert (Hx : g ∈ filter (fun x => x = g) l) by by apply list_elem_of_filter.
    destruct (filter _ l); [by apply not_elem_of_nil in Hx|]. cbn. lia.
Qed.

(** ** What sets hold *)

(** The glyphs of a set by id. *)
Definition ids_of (gs : GlyphSetRec) : gmap Z Z := from_option contents ∅ (table (gs_hash gs)).
Definition values (m : gmap Z Z) : list Z := (map_to_list m).*2.
(** One occurrence for every entry of every set. *)
Definition holders (sets : gmap Z GlyphSetRec) : list Z := mjoin ((fun p => values (ids_of p.2)) <$> map_to_list sets).

Lemma values_empty : values ∅ = [].
Proof. unfold values. by rewrite map_to_list_empty. Qed.
Lemma values_insert m k g : m !! k = None -> values (<[k := g]> m) ≡ₚ g :: values m.
Proof. intros Hk. unfold values. by rewrite map_to_list_insert. Qed.
Lemma values_delete m k g : m !! k = Some g -> values m ≡ₚ g :: values (delete k m).
Proof. intros Hk. rewrite <- (insert_delete_id m k g) at 1 by done. apply values_insert. by rewrite lookup_delete_eq. Qed.
Lemma values_elem m g : g ∈ values m <-> exists k, m !! k = Some g.
Proof.
  unfold values. rewrite list_elem_of_fmap. split.
  - intros ([k x] & -> & Hx%elem_of_map_to_list). eauto.
  - intros (k & Hk). exists (k, g). split; [done|]. by apply elem_of_map_to_list.
Qed.

Lemma holders_insert sets s gs : sets !! s = None -> holders (<[s := gs]> sets) ≡ₚ values (ids_of gs) ++ holders sets.
Proof. intros Hs. unfold holders. by rewrite map_to_list_insert. Qed.
Lemma holders_split sets s gs : sets !! s = Some gs -> holders sets ≡ₚ values (ids_of gs) ++ holders (delete s sets).
Proof. intros Hs. rewrite <- (insert_delete_id sets s gs) at 1 by done. apply holders_insert. by rewrite lookup_delete_eq. Qed.
Lemma holders_change sets s gs gs' :
  sets !! s = Some gs ->
  values (ids_of gs) ++ holders (<[s := gs']> sets) ≡ₚ values (ids_of gs') ++ holders sets.
Proof.
  intros Hs. rewrite (holders_split sets s gs), (holders_split (<[s := gs']> sets) s gs') by (done || apply lookup_insert_eq).
  rewrite delete_insert_eq. rewrite !(app_assoc _ _ (holders _)). by rewrite (Permutation_app_comm (values (ids_of gs))).
Qed.
Lemma holders_same sets s gs gs' :
  sets !! s = Some gs -> ids_of gs' = ids_of gs -> holders (<[s := gs']> sets) ≡ₚ holders sets.
Proof. intros Hs E. pose proof (holders_change sets s gs gs' Hs) as Hc. rewrite E in Hc. by apply Permutation_app_inv_l in Hc. Qed.
(** A new entry, one that replaces another, and one that goes. *)
Lemma holders_add sets s gs gs' id g :
  sets !! s = Some gs -> ids_of gs' = <[id := g]> (ids_of gs) -> ids_of gs !! id = None ->
  holders (<[s := gs']> sets) ≡ₚ g :: holders sets.
Proof.
  intros Hs E Hid. pose proof (holders_change sets s gs gs' Hs) as Hc. rewrite E, values_insert in Hc by done.
  apply (Permutation_app_inv_l (values (ids_of gs))). rewrite Hc. cbn. by rewrite Permutation_middle.
Qed.
Lemma holders_remove sets s gs gs' id g :
  sets !! s = Some gs -> ids_of gs' = delete id (ids_of gs) -> ids_of gs !! id = Some g ->
  holders sets ≡ₚ g :: holders (<[s := gs']> sets).
Proof.
  intros Hs E Hid. pose proof (holders_change sets s gs gs' Hs) as Hc. rewrite E, (values_delete _ id g) in Hc by done.
  apply (Permutation_app_inv_l (values (delete id (ids_of gs)))). rewrite <- Hc. cbn. by rewrite Permutation_middle.
Qed.
Lemma holders_replace sets s gs gs' id g g0 :
  sets !! s = Some gs -> ids_of gs' = <[id := g]> (ids_of gs) -> ids_of gs !! id = Some g0 ->
  g0 :: holders (<[s := gs']> sets) ≡ₚ g :: holders sets.
Proof.
  intros Hs E Hid. pose proof (holders_change sets s gs gs' Hs) as Hc.
  rewrite E, <- (insert_delete_eq (ids_of gs)) in Hc.
  rewrite values_insert, (values_delete _ id g0) in Hc by (done || apply lookup_delete_eq).
  apply (Permutation_app_inv_l (values (delete id (ids_of gs)))). rewrite <- !Permutation_middle. exact Hc.
Qed.
Lemma holders_elem sets g : g ∈ holders sets <-> exists s gs id, sets !! s = Some gs /\ ids_of gs !! id = Some g.
Proof.
  unfold holders. rewrite list_elem_of_join. split.
  - intros (l & Hg & ([s gs] & -> & Hs%elem_of_map_to_list)%list_elem_of_fmap). apply values_elem in Hg as [id Hid].
    by exists s, gs, id.
  - intros (s & gs & id & Hs & Hid). exists (values (ids_of gs)). split; [apply values_elem; eauto|].
    apply list_elem_of_fmap. exists (s, gs). split; [done|]. by apply elem_of_map_to_list.
Qed.

(** ** The tables of all images *)

(** A depth's table may be missing. *)
Definition stands (cells : gmap Z GlyphRec) (h : GlyphHashRec) (m : gmap (list Z) Z) : Prop :=
  models (KK := image_keys cells) h m \/ h = Hash None None 0 /\ m = ∅.

(** A glyph of a table has the hash under which it is found. *)
Lemma models_cell cells h m k g :
  models (KK := image_keys cells) h m -> m !! k = Some g -> exists c, cells !! g = Some c /\ gl_sha1 c = k.
Proof.
  intros (hs & t & -> & _ & Hok & Hv & _ & <-) (i & r & Hi & Hl & <- & <-)%(contents_lookup hs _ _ _ Hok).
  destruct (Hv i r Hi Hl) as [c Hc]. exists c. split; [done|]. cbn. unfold sha_of. by rewrite Hc.
Qed.
Lemma stands_cell cells h m k g : stands cells h m -> m !! k = Some g -> exists c, cells !! g = Some c /\ gl_sha1 c = k.
Proof. intros [Hm|[-> ->]]; [by eapply models_cell|by rewrite lookup_empty]. Qed.
Lemma stands_models cells h m k g : stands cells h m -> m !! k = Some g -> models (KK := image_keys cells) h m.
Proof. intros [Hm|[-> ->]]; [done|by rewrite lookup_empty]. Qed.

Lemma table_ok_ext {K} (key key' : GlyphRefRec -> K) sig hs t :
  (forall i r, t !! i = Some r -> ref_live r -> key' r = key r) ->
  table_ok key sig hs t -> table_ok key' sig hs t.
Proof.
  intros E [Hlen Hsig Huni Hpl]. constructor; [done|..].
  - intros i r Hi Hl. rewrite (E i r) by done. by eapply Hsig.
  - intros i j r r' Hi Hj Hl Hl'. rewrite (E i r), (E j r') by done. by apply Huni.
  - intros i r Hi Hl. rewrite (E i r) by done. by eapply Hpl.
Qed.

(** A table does not see changes of cells that keep the hashes of its glyphs. *)
Lemma models_cells cells cells' h m :
  (forall k g c, m !! k = Some g -> cells !! g = Some c -> exists c', cells' !! g = Some c' /\ gl_sha1 c' = gl_sha1 c) ->
  models (KK := image_keys cells) h m -> models (KK := image_keys cells') h m.
Proof.
  intros E (hs & t & -> & Hhs & Hok & Hv & Hn & <-). exists hs, t.
  assert (Hsame : forall i r, t !! i = Some r -> ref_live r ->
    is_Some (cells' !! r_glyph r) /\ sha_of cells' (r_glyph r) = sha_of cells (r_glyph r)).
  { intros i r Hi Hl. destruct (Hv i r Hi Hl) as [c Hc].
    destruct (E (sha_of cells (r_glyph r)) (r_glyph r) c) as (c' & Hc' & Hs); [|done|].
    - apply (contents_lookup hs _ _ _ Hok). by exists i, r.
    - split; [done|]. unfold sha_of. by rewrite Hc, Hc'. }
  assert (Hok' : @table_ok _ (@gk_key _ (image_keys cells')) first_word hs t).
  { apply (table_ok_ext (@gk_key _ (image_keys cells))); [|done]. intros i r Hi Hl. by apply (Hsame i r). }
  split; [done|]. split; [done|]. split; [done|]. split; [intros i r Hi Hl; by apply (Hsame i r)|]. split; [done|].
  apply map_eq. intros k. apply option_eq. intros g.
  rewrite (contents_lookup hs) by exact Hok'. rewrite (contents_lookup hs) by exact Hok.
  unfold slot. split; intros (i & r & Hi & Hl & Hk & Hg); exists i, r; destruct (Hsame i r Hi Hl) as [_ Es]; cbn in *; by rewrite <- Hk, Es.
Qed.
Lemma stands_cells cells cells' h m :
  (forall k g c, m !! k = Some g -> cells !! g = Some c -> exists c', cells' !! g = Some c' /\ gl_sha1 c' = gl_sha1 c) ->
  stands cells h m -> stands cells' h m.
Proof. intros E [Hm|?]; [left; by eapply models_cells|by right]. Qed.

(** ** The invariant *)

(** The glyphs of each depth by the hash of their image. *)
Notation gallery := (Z -> gmap (list Z) Z).
Definition depth_ok (f : Z) : Prop := 0 <= f < 5.

(** References that resource ids hold to a set. *)
Definition names_of (ids : gmap Z Z) (s : Z) : Z := occ s (values ids).

(** [P] are references that a request holds. *)
Record glyphs_ok (st : GlyphState) (I : gallery) (P : list Z) : Prop := {
  go_next : 2 <= gm_next st;
  go_cell_addr : forall g c, gm_cells st !! g = Some c -> 2 <= g < gm_next st;
  go_set_addr : forall s gs, gm_sets st !! s = Some gs -> 2 <= s < gm_next st;
  go_sets : forall s gs, gm_sets st !! s = Some gs -> depth_ok (gs_fdepth gs) /\ models (gs_hash gs) (ids_of gs);
  go_global : forall f, depth_ok f -> exists h, global_hash st f = Some h /\ stands (gm_cells st) h (I f);
  go_refs : forall g c, gm_cells st !! g = Some c -> gl_refcnt c = occ g (holders (gm_sets st) ++ P);
  go_cells : forall g, g ∈ holders (gm_sets st) ++ P -> is_Some (gm_cells st !! g);
  go_shared : forall s gs id g, gm_sets st !! s = Some gs -> ids_of gs !! id = Some g ->
    I (gs_fdepth gs) !! sha_of (gm_cells st) g = Some g;
  go_used : forall f k g, depth_ok f -> I f !! k = Some g -> g ∈ holders (gm_sets st) ++ P;
  go_depth : forall f f' k k' g, depth_ok f -> depth_ok f' -> I f !! k = Some g -> I f' !! k' = Some g -> f = f';
  go_held : forall g, is_Some (gm_cells st !! g) -> g ∈ holders (gm_sets st) ++ P;
}.

(** Glyphs that can be given up and glyphs that are new. *)
Definition shared (st : GlyphState) (I : gallery) (f g : Z) : Prop := I f !! sha_of (gm_cells st) g = Some g.
Definition fresh (I : gallery) (g : Z) : Prop := forall f k, depth_ok f -> I f !! k <> Some g.
