(* ===== verification/GlyphFree.v ===== *)
(** * Giving up a glyph (render/glyph.c, FreeGlyph)

    A reference less, and with the last one the glyph and its entry in the table
    of its depth. *)

From stdpp Require Import functions.
From S2P Require Import Prelude Glyphs GlyphProbe GlyphTable GlyphHash GlyphInv.

(** ** References *)

(** Cells may change in all but their hashes. *)
Definition same_images (cells cells' : gmap Z GlyphRec) : Prop :=
  forall g, match cells !! g with
            | Some c => exists c', cells' !! g = Some c' /\ gl_sha1 c' = gl_sha1 c
            | None => cells' !! g = None
            end.

Lemma same_images_sha cells cells' g : same_images cells cells' -> sha_of cells' g = sha_of cells g.
Proof.
  intros E. specialize (E g). unfold sha_of. destruct (cells !! g); [|by rewrite E].
  destruct E as (c' & Hc' & Es). rewrite Hc'. exact Es.
Qed.
Lemma same_images_back cells cells' g c' :
  same_images cells cells' -> cells' !! g = Some c' -> exists c, cells !! g = Some c.
Proof. intros E Hc. specialize (E g). destruct (cells !! g); [by eexists|congruence]. Qed.
Lemma same_images_on cells cells' g : same_images cells cells' -> is_Some (cells !! g) -> is_Some (cells' !! g).
Proof. intros E [c Hc]. specialize (E g). rewrite Hc in E. destruct E as (c' & -> & _). done. Qed.

Lemma alter_images cells g (f : GlyphRec -> GlyphRec) :
  (forall c, gl_sha1 (f c) = gl_sha1 c) -> same_images cells (alter f g cells).
Proof.
  intros Hf x. destruct (decide (x = g)) as [->|Hne].
  - rewrite lookup_alter_eq. destruct (cells !! g) as [c|]; cbn; [|done]. by exists (f c).
  - rewrite lookup_alter_ne by done. destruct (cells !! x) as [c|]; [|done]. by exists c.
Qed.

Lemma cells_ok st I P cells P' :
  glyphs_ok st I P -> same_images (gm_cells st) cells ->
  (forall g c, cells !! g = Some c -> gl_refcnt c = occ g (holders (gm_sets st) ++ P')) ->
  (forall g, g ∈ holders (gm_sets st) ++ P' <-> g ∈ holders (gm_sets st) ++ P) ->
  glyphs_ok (st <| gm_cells := cells |>) I P'.
Proof.
  intros Hok E Hr HP. constructor; cbn.
  - apply (go_next _ _ _ Hok).
  - intros g c' Hc'. destruct (same_images_back _ _ _ _ E Hc') as [c Hc]. by apply (go_cell_addr _ _ _ Hok g c).
  - apply (go_set_addr _ _ _ Hok).
  - apply (go_sets _ _ _ Hok).
  - intros f Hf. destruct (go_global _ _ _ Hok f Hf) as (h & Hh & Hst). exists h. split; [done|].
    eapply stands_cells; [|done]. intros k g c _ Hc. specialize (E g). by rewrite Hc in E.
  - done.
  - intros g Hg%HP. eapply same_images_on; [done|]. by apply (go_cells _ _ _ Hok).
  - intros s gs id g Hs Hid. rewrite (same_images_sha _ _ _ E). by apply (go_shared _ _ _ Hok s gs id).
  - intros f k g Hf Hk. apply HP. by apply (go_used _ _ _ Hok f k).
  - apply (go_depth _ _ _ Hok).
  - intros g [c' Hc']. apply HP. apply (go_held _ _ _ Hok). destruct (same_images_back _ _ _ _ E Hc') as [c ?]. by exists c.
Qed.

Lemma set_refcnt_ok st I P P' g (f : Z -> Z) :
  glyphs_ok st I P ->
  (forall c, gm_cells st !! g = Some c -> f (gl_refcnt c) = occ g (holders (gm_sets st) ++ P')) ->
  (forall x, x <> g -> occ x P' = occ x P) -> g ∈ holders (gm_sets st) ++ P -> g ∈ holders (gm_sets st) ++ P' ->
  glyphs_ok (set_refcnt g f st) I P'.
Proof.
  intros Hok Hf Hocc Hg Hg'. unfold set_refcnt.
  apply (cells_ok st I P _ P' Hok); [by apply alter_images| |].
  - intros x c Hc. destruct (decide (x = g)) as [->|Hne].
    + rewrite lookup_alter_eq in Hc. destruct (gm_cells st !! g) as [c0|] eqn:E; [|done]. injection Hc as <-. cbn. by apply Hf.
    + rewrite lookup_alter_ne in Hc by done. rewrite (go_refs _ _ _ Hok x c Hc), !occ_app, Hocc by done. done.
  - intros x. destruct (decide (x = g)) as [->|Hne]; [done|]. rewrite <- !occ_pos, !occ_app, Hocc by done. done.
Qed.

(** Another reference of the request. *)
Lemma take_ref_ok st I P g :
  glyphs_ok st I P -> g ∈ holders (gm_sets st) ++ P ->
  Z.of_nat (length (holders (gm_sets st) ++ P)) < UINT32_MAX ->
  glyphs_ok (set_refcnt g (fun n => u32 (n + 1)) st) I (g :: P).
Proof.
  intros Hok Hg Hlen. unfold UINT32_MAX in Hlen. apply (set_refcnt_ok st I P (g :: P) g _ Hok).
  - intros c Hc. rewrite (go_refs _ _ _ Hok g c Hc). pose proof (occ_nonneg g (holders (gm_sets st) ++ P)).
    pose proof (occ_le g (holders (gm_sets st) ++ P)). rewrite u32_small by lia.
    rewrite !occ_app, occ_cons, decide_True by done. lia.
  - intros x Hx. by rewrite occ_cons, decide_False.
  - done.
  - rewrite <- Permutation_middle. by left.
Qed.
(** One that is not the last goes. *)
Lemma drop_ref_ok st I P g (f : Z -> Z) :
  glyphs_ok st I (g :: P) -> g ∈ holders (gm_sets st) ++ P -> (forall n, 0 < n < UINT32_MAX -> f n = n - 1) ->
  Z.of_nat (length (holders (gm_sets st) ++ P)) < UINT32_MAX - 1 ->
  glyphs_ok (set_refcnt g f st) I P.
Proof.
  intros Hok Hg Hf Hlen. apply (set_refcnt_ok st I (g :: P) P g _ Hok).
  - intros c Hc. rewrite (go_refs _ _ _ Hok g c Hc).
    assert (E : occ g (holders (gm_sets st) ++ g :: P) = occ g (holders (gm_sets st) ++ P) + 1)
      by (rewrite !occ_app, occ_cons, decide_True by done; lia).
    pose proof (occ_le g (holders (gm_sets st) ++ P)). pose proof (occ_nonneg g (holders (gm_sets st) ++ P)).
    rewrite E, Hf by lia. lia.
  - intros x Hx. by rewrite occ_cons, decide_False.
  - rewrite <- Permutation_middle. by left.
  - done.
Qed.

(** ** The entry of the image *)

Lemma forget_glyph_models cells h m sha1 g :
  models (KK := image_keys cells) h m -> m !! sha1 = Some g ->
  exists h', forget_glyph cells h sha1 = Ret h' /\ models (KK := image_keys cells) h' (delete sha1 m) /\
    forall n, room h n -> room h' n.
Proof.
  intros Hm Hg. pose proof (image_keys_lawful cells).
  destruct (FindGlyphRef_models (KK := image_keys cells) cells h m sha1 Hm) as (i & r & Hfind & Ha & Hr).
  rewrite Hg in Hr. destruct (decide (ref_live r)) as [Hl|]; [|done].
  pose proof (delete_models (KK := image_keys cells) h m sha1 i r 0 Hm Ha Hl) as Hd.
  pose proof (models_entries _ _ Hd) as Hn.
  destruct (answer_slot (KK := image_keys cells) h m sha1 i r Hm Ha) as (hs & t & -> & Hhs & Hok & _ & Hle & _ & _ & Hi).
  eexists. split; [|split; [exact Hd|]].
  - unfold forget_glyph. cbn [hashSet table obind_opt]. pose proof (tok_length _ _ _ _ Hok) as Hlen.
    destruct (Z.ltb_spec (Z.of_nat (length t)) (hs_size hs)); [lia|].
    cbn [gk_sig gk_sha1 image_keys] in Hfind. rewrite Hfind. cbn [obind]. rewrite Nat2Z.id, Hi. cbn [obind_opt].
    unfold ref_live in Hl. by rewrite Hl.
  - intros n (hs' & E & Hroom). exists hs'. split; [done|]. cbn in *. injection E as <-.
    assert (1 <= Z.of_nat (live_count t)).
    { pose proof (live_count_insert t i r (Ref 0 DeletedGlyph) Hi) as Hc.
      rewrite (decide_True (P := ref_live r)), (decide_False (P := ref_live (Ref _ _))) in Hc by done. lia. }
    destruct (glyphHashSets_sized hs Hhs) as (_ & _ & ? & ?). rewrite u32_small by lia. lia.
Qed.

(** ** FreeGlyph *)

(** What giving up glyphs keeps: sets, names, and the hashes of the glyphs that
    are left. *)
Record frees (st st' : GlyphState) : Prop := {
  fr_sets : gm_sets st' = gm_sets st;
  fr_ids : gm_ids st' = gm_ids st;
  fr_next : gm_next st' = gm_next st;
  fr_sha : forall g c', gm_cells st' !! g = Some c' -> exists c, gm_cells st !! g = Some c /\ gl_sha1 c' = gl_sha1 c;
  fr_room : forall f h n, global_hash st f = Some h -> room h n -> exists h', global_hash st' f = Some h' /\ room h' n;
}.
#[export] Instance frees_preorder : PreOrder frees.
Proof.
  split.
  - intros st. split; [done..|eauto|eauto].
  - intros st1 st2 st3 [] []. split; [congruence..| |].
    + intros g c3 H3. destruct (fr_sha1 g c3 H3) as (c2 & H2 & ?). destruct (fr_sha0 g c2 H2) as (c1 & ? & ?).
      exists c1. split; [done|congruence].
    + intros f h n Hh Hr. destruct (fr_room0 f h n Hh Hr) as (h2 & H2 & Hr2). by apply (fr_room1 f h2).
Qed.

(** Images go only with their last reference. *)
Record shrinks (I I' : gallery) (L : list Z) : Prop := {
  sk_sub : forall f k g, I' f !! k = Some g -> I f !! k = Some g;
  sk_keep : forall f k g, g ∈ L -> I f !! k = Some g -> I' f !! k = Some g;
}.
Lemma shrinks_refl I L : shrinks I I L.
Proof. by split. Qed.

Lemma frees_sha st st' g c : frees st st' -> gm_cells st' !! g = Some c -> sha_of (gm_cells st') g = sha_of (gm_cells st) g.
Proof. intros Hf Hc. destruct (fr_sha _ _ Hf g c Hc) as (c0 & Hc0 & E). unfold sha_of. by rewrite Hc, Hc0. Qed.

(** [set_global] and [global_hash]. *)
Lemma set_global_eq st f h h0 : depth_ok f -> global_hash st f = Some h0 -> global_hash (set_global f h st) f = Some h.
Proof. intros _ Hh. unfold global_hash, set_global in *. cbn. apply list_lookup_insert_eq. by eapply lookup_lt_Some. Qed.
Lemma set_global_ne st f f' h : depth_ok f -> depth_ok f' -> f <> f' -> global_hash (set_global f h st) f' = global_hash st f'.
Proof. unfold depth_ok. intros. unfold global_hash, set_global. cbn. apply list_lookup_insert_ne. lia. Qed.

Section Last.
Context (env : glyph_env) (st : GlyphState) (I : gallery) (P : list Z) (f g : Z) (c : GlyphRec) (h h1 : GlyphHashRec).
Hypothesis (Hok : glyphs_ok st I (g :: P)) (Hf : depth_ok f) (Hsh : shared st I f g).
Hypothesis (Hlast : g ∉ holders (gm_sets st) ++ P) (Hc : gm_cells st !! g = Some c) (Hh : global_hash st f = Some h).
Hypothesis (Hh1 : models (KK := image_keys (gm_cells st)) h1 (delete (gl_sha1 c) (I f))).

Definition without : gallery := <[f := delete (gl_sha1 c) (I f)]> I.

Lemma sha_c : sha_of (gm_cells st) g = gl_sha1 c.
Proof. unfold sha_of. by rewrite Hc. Qed.
Lemma without_lookup f' k x : depth_ok f' -> without f' !! k = Some x <-> I f' !! k = Some x /\ x <> g.
Proof.
  intros Hf'. unfold without. pose proof Hsh as Hg. unfold shared in Hg. rewrite sha_c in Hg.
  destruct (decide (f = f')) as [<-|Hne].
  - rewrite fn_lookup_insert, lookup_delete_Some. split.
    + intros [Hk Hx]. split; [done|]. intros ->.
      destruct (go_global _ _ _ Hok f Hf) as (h0 & _ & Hst). destruct (stands_cell _ _ _ _ _ Hst Hx) as (c0 & Hc0 & E).
      apply Hk. congruence.
    + intros [Hx Hne]. split; [|done]. intros <-. congruence.
  - rewrite fn_lookup_insert_ne by done. split; [|by intros []]. intros Hx. split; [done|]. intros ->.
    apply Hne. by apply (go_depth _ _ _ Hok f f' (gl_sha1 c) k g).
Qed.

Lemma last_ref_ok st' :
  gm_cells st' = delete g (gm_cells st) -> gm_sets st' = gm_sets st -> gm_next st' = gm_next st ->
  gm_global st' = gm_global (set_global f h1 st) -> glyphs_ok st' without P.
Proof.
  intros Ec Es En Eg.
  assert (Hout : forall x, x ∈ holders (gm_sets st) ++ g :: P -> x <> g -> x ∈ holders (gm_sets st) ++ P).
  { intros x. rewrite !elem_of_app, elem_of_cons. tauto. }
  assert (Hcells : forall f' k x c', depth_ok f' -> without f' !! k = Some x -> gm_cells st !! x = Some c' ->
    exists c2, gm_cells st' !! x = Some c2 /\ gl_sha1 c2 = gl_sha1 c').
  { intros f' k x c' Hf' [_ Hne]%without_lookup Hx; [|done]. exists c'. split; [|done]. by rewrite Ec, lookup_delete_ne. }
  constructor; rewrite ?Es, ?En.
  - apply (go_next _ _ _ Hok).
  - intros x cx Hx. rewrite Ec in Hx. apply lookup_delete_Some in Hx as [_ Hx]. by apply (go_cell_addr _ _ _ Hok x cx).
  - apply (go_set_addr _ _ _ Hok).
  - apply (go_sets _ _ _ Hok).
  - intros f' Hf'. unfold global_hash. rewrite Eg. change (exists h0, global_hash (set_global f h1 st) f' = Some h0 /\ stands (gm_cells st') h0 (without f')).
    destruct (decide (f = f')) as [<-|Hne].
    + exists h1. split; [by apply (set_global_eq _ _ _ h)|]. left.
      apply (models_cells (gm_cells st)); [intros k x c' Hk; by apply (Hcells f k)|].
      unfold without. by rewrite fn_lookup_insert.
    + destruct (go_global _ _ _ Hok f' Hf') as (h' & Hh' & Hst). exists h'.
      rewrite set_global_ne by done. split; [done|]. unfold without. rewrite fn_lookup_insert_ne by done.
      apply (stands_cells (gm_cells st)); [|done]. intros k x c' Hk. apply (Hcells f' k); [done|].
      apply without_lookup; [done|]. split; [done|]. intros ->. apply Hne.
      by apply (go_depth _ _ _ Hok f f' (sha_of (gm_cells st) g) k g).
  - intros x cx Hx. rewrite Ec in Hx. apply lookup_delete_Some in Hx as [Hne Hx].
    rewrite (go_refs _ _ _ Hok x cx Hx), !occ_app, occ_cons, decide_False by done. lia.
  - intros x Hx. assert (Hne : x <> g) by (by intros ->). rewrite Ec, lookup_delete_ne by done.
    apply (go_cells _ _ _ Hok). rewrite elem_of_app, elem_of_cons in *. tauto.
  - intros s gs id x Hs Hid.
    assert (Hne : x <> g).
    { intros ->. apply Hlast, elem_of_app. left. apply holders_elem. by exists s, gs, id. }
    apply without_lookup; [by apply (go_sets _ _ _ Hok s)|]. split; [|done].
    unfold sha_of. rewrite Ec, lookup_delete_ne by done. by apply (go_shared _ _ _ Hok s gs id x).
  - intros f' k x Hf' [Hk Hne]%without_lookup; [|done]. apply Hout; [|done]. by apply (go_used _ _ _ Hok f' k).
  - intros f1 f2 k1 k2 x H1 H2 [Hk1 _]%without_lookup [Hk2 _]%without_lookup; try done.
    by apply (go_depth _ _ _ Hok f1 f2 k1 k2 x).
  - intros x [cx Hx]. rewrite Ec in Hx. apply lookup_delete_Some in Hx as [Hne Hx]. apply Hout; [|done].
    apply (go_held _ _ _ Hok). by exists cx.
Qed.
End Last.

Lemma FreeGlyph_ok env st I P f g :
  glyphs_ok st I (g :: P) -> depth_ok f -> shared st I f g ->
  Z.of_nat (length (holders (gm_sets st) ++ P)) < UINT32_MAX - 1 ->
  exists st' I', FreeGlyph env st g f = Ret st' /\ glyphs_ok st' I' P /\ frees st st' /\
    shrinks I I' (holders (gm_sets st) ++ P).
Proof.
  intros Hok Hf Hsh Hlen. unfold FreeGlyph.
  destruct (go_cells _ _ _ Hok g) as [c Hc]; [rewrite <- Permutation_middle; by left|]. rewrite Hc. cbn [obind_opt].
  assert (Href : gl_refcnt c = occ g (holders (gm_sets st) ++ P) + 1).
  { rewrite (go_refs _ _ _ Hok g c Hc), !occ_app, occ_cons, decide_True by done. lia. }
  pose proof (occ_nonneg g (holders (gm_sets st) ++ P)) as H0.
  destruct (Z.eqb_spec (gl_refcnt c) 0) as [|_]; [lia|].
  assert (Himg : same_images (gm_cells st) (gm_cells (set_refcnt g (fun n => n - 1) st))) by by apply alter_images.
  destruct (Z.eqb_spec (gl_refcnt c - 1) 0) as [E|E]; cbn [negb].
  2: { assert (Hin : g ∈ holders (gm_sets st) ++ P) by (apply occ_pos; lia).
       exists (set_refcnt g (fun n => n - 1) st), I. split; [done|]. split; [by apply drop_ref_ok|].
       split; [|apply shrinks_refl]. split; [done..| |eauto].
       intros x c' Hx. destruct (same_images_back _ _ _ _ Himg Hx) as [c0 Hc0]. exists c0. split; [done|].
       specialize (Himg x). rewrite Hc0 in Himg. destruct Himg as (c2 & ? & ?). congruence. }
  assert (Hlast : g ∉ holders (gm_sets st) ++ P) by (rewrite <- occ_pos; lia).
  destruct (go_global _ _ _ Hok f Hf) as (h & Hh & Hst).
  change (global_hash (set_refcnt g (fun n => n - 1) st) f) with (global_hash st f). rewrite Hh. cbn [obind_opt].
  pose proof (stands_models _ _ _ _ _ Hst Hsh) as Hm. unfold shared in Hsh. rewrite (sha_c st g c Hc) in Hsh.
  destruct (forget_glyph_models (gm_cells (set_refcnt g (fun n => n - 1) st)) h (I f) (gl_sha1 c) g) as (h1 & -> & Hm1 & Hr1); [|done|].
  { eapply models_cells; [|done]. intros k x c0 _ Hx. specialize (Himg x). by rewrite Hx in Himg. }
  cbn [obind]. assert (Hm1' : models (KK := image_keys (gm_cells st)) h1 (delete (gl_sha1 c) (I f))).
  { eapply models_cells; [|done]. intros k x c' _ Hx. destruct (same_images_back _ _ _ _ Himg Hx) as [c0 Hc0].
    exists c0. split; [done|]. specialize (Himg x). rewrite Hc0 in Himg. destruct Himg as (c2 & ? & ?). congruence. }
  eexists _, (without I f c). split; [reflexivity|].
  assert (Ecells : delete g (alter (fun c0 => c0 <| gl_refcnt ::= fun n => n - 1 |>) g (gm_cells st)) = delete g (gm_cells st))
    by apply delete_alter_eq.
  assert (Hsh' : shared st I f g) by (unfold shared; by rewrite (sha_c st g c Hc)).
  split; [by apply (last_ref_ok st I P f g c h h1 Hok Hf Hsh' Hlast Hc Hh Hm1')|]. split; [split; cbn; try done|split].
  - intros x c' Hx. assert (Hx' : delete g (gm_cells st) !! x = Some c') by (rewrite <- Ecells; exact Hx).
    apply lookup_delete_Some in Hx' as [_ Hx']. eauto.
  - intros f' h0 n Hh0 Hr0. unfold global_hash in *. cbn. destruct (decide (Z.to_nat f = Z.to_nat f')) as [Ef|Ef].
    + rewrite <- Ef, list_lookup_insert_eq by (by eapply lookup_lt_Some). exists h1. split; [done|].
      rewrite <- Ef in Hh0. apply Hr1. congruence.
    + rewrite list_lookup_insert_ne by done. eauto.
  - intros f' k x. unfold without. destruct (decide (f = f')) as [<-|Hne].
    + rewrite fn_lookup_insert. by intros [_ ?]%lookup_delete_Some.
    + by rewrite fn_lookup_insert_ne.
  - intros f' k x Hx Hk. unfold without. destruct (decide (f = f')) as [<-|Hne].
    + rewrite fn_lookup_insert. apply lookup_delete_Some. split; [|done]. intros <-. congruence.
    + by rewrite fn_lookup_insert_ne.
Qed.
