(* ===== verification/GlyphAdd.v ===== *)
(** * Entries of glyph sets (render/glyph.c, AddGlyph and DeleteGlyph)

    A glyph that is put into a set is shared from then on by all sets of its
    depth; the one whose place it takes loses a reference. *)

From stdpp Require Import functions.
From S2P Require Import Prelude Glyphs GlyphProbe GlyphTable GlyphHash GlyphInv GlyphFree.

(** ** Changing a set *)

Lemma FreeGlyph_sets env st g f sets :
  FreeGlyph env (st <| gm_sets := sets |>) g f = (st1 <-- FreeGlyph env st g f; Ret (st1 <| gm_sets := sets |>)).
Proof.
  unfold FreeGlyph. cbn. destruct (gm_cells st !! g) as [c|]; [|done]. cbn.
  destruct (gl_refcnt c =? 0); [done|]. destruct (negb _); [done|].
  change (global_hash (set_refcnt g (fun n => n - 1) (st <| gm_sets := sets |>)) f)
    with (global_hash (set_refcnt g (fun n => n - 1) st) f).
  destruct (global_hash _ f) as [h|]; [|done]. cbn. by destruct (forget_glyph _ h (gl_sha1 c)).
Qed.

Lemma set_hash_sets st s gs h :
  gm_sets st !! s = Some gs -> set_hash s h st = st <| gm_sets := <[s := gs <| gs_hash := h |>]> (gm_sets st) |>.
Proof.
  intros Hs. unfold set_hash. cbn. f_equal. apply map_eq. intros x. destruct (decide (x = s)) as [->|Hne].
  - by rewrite lookup_alter_eq, lookup_insert_eq, Hs.
  - by rewrite lookup_alter_ne, lookup_insert_ne by done.
Qed.

Lemma ids_models gs m : models (gs_hash gs) m -> ids_of gs = m.
Proof. intros (hs & t & E & _ & _ & _ & _ & <-). unfold ids_of. by rewrite E. Qed.

Lemma occ_elem l l' x : occ x l = occ x l' -> x ∈ l <-> x ∈ l'.
Proof. intros E. by rewrite <- !occ_pos, E. Qed.

Lemma sets_ok st I P P' s gs gs' :
  glyphs_ok st I P -> gm_sets st !! s = Some gs -> gs_fdepth gs' = gs_fdepth gs ->
  models (gs_hash gs') (ids_of gs') ->
  (forall x, occ x (holders (<[s := gs']> (gm_sets st)) ++ P') = occ x (holders (gm_sets st) ++ P)) ->
  (forall id x, ids_of gs' !! id = Some x -> ids_of gs !! id = Some x \/ shared st I (gs_fdepth gs) x) ->
  glyphs_ok (st <| gm_sets := <[s := gs']> (gm_sets st) |>) I P'.
Proof.
  intros Hok Hs Hd Hm Hocc Hids. constructor; cbn.
  - apply (go_next _ _ _ Hok).
  - apply (go_cell_addr _ _ _ Hok).
  - intros s' gs0 [[<- <-]|[_ H']]%lookup_insert_Some; [by apply (go_set_addr _ _ _ Hok s gs)|by apply (go_set_addr _ _ _ Hok s' gs0)].
  - intros s' gs0 [[<- <-]|[_ H']]%lookup_insert_Some; [|by apply (go_sets _ _ _ Hok s')].
    rewrite Hd. split; [by apply (go_sets _ _ _ Hok s)|done].
  - apply (go_global _ _ _ Hok).
  - intros x c Hx. rewrite Hocc. by apply (go_refs _ _ _ Hok).
  - intros x Hx. apply (go_cells _ _ _ Hok). by apply (occ_elem _ _ x (Hocc x)).
  - intros s' gs0 id x [[<- <-]|[_ H']]%lookup_insert_Some Hid; [|by apply (go_shared _ _ _ Hok s' gs0 id)].
    rewrite Hd. destruct (Hids id x Hid) as [Hold|]; [by apply (go_shared _ _ _ Hok s gs id)|done].
  - intros f k x Hf Hk. apply (occ_elem _ _ x (Hocc x)). by apply (go_used _ _ _ Hok f k).
  - apply (go_depth _ _ _ Hok).
  - intros x Hx. apply (occ_elem _ _ x (Hocc x)). by apply (go_held _ _ _ Hok).
Qed.

(** ** Sharing *)

(** A new glyph, whose image the table of its depth does not have. *)
Definition unknown (st : GlyphState) (I : gallery) (f g : Z) : Prop := fresh I g /\ I f !! sha_of (gm_cells st) g = None.

(** The gallery with one more glyph. *)
Definition with_image (st : GlyphState) (I : gallery) (f g : Z) : gallery :=
  <[f := <[sha_of (gm_cells st) g := g]> (I f)]> I.

Lemma with_image_lookup st I f g f' k x :
  with_image st I f g f' !! k = Some x ->
  f' = f /\ k = sha_of (gm_cells st) g /\ x = g \/ I f' !! k = Some x.
Proof.
  unfold with_image. destruct (decide (f = f')) as [<-|Hne].
  - rewrite fn_lookup_insert. intros [[<- <-]|[_ ?]]%lookup_insert_Some; [by left|by right].
  - rewrite fn_lookup_insert_ne by done. by right.
Qed.
Lemma with_image_keep st I f g f' k x :
  I f !! sha_of (gm_cells st) g = None -> I f' !! k = Some x -> with_image st I f g f' !! k = Some x.
Proof.
  intros Hn Hk. unfold with_image. destruct (decide (f = f')) as [<-|Hne].
  - rewrite fn_lookup_insert, lookup_insert_ne; [done|]. intros E. congruence.
  - by rewrite fn_lookup_insert_ne.
Qed.

Lemma with_image_ok st I P f g h h1 :
  glyphs_ok st I (g :: P) -> depth_ok f -> unknown st I f g -> global_hash st f = Some h ->
  models (KK := image_keys (gm_cells st)) h1 (<[sha_of (gm_cells st) g := g]> (I f)) ->
  glyphs_ok (set_global f h1 st) (with_image st I f g) (g :: P).
Proof.
  intros Hok Hf [Hfresh Hnone] Hh Hm. constructor; cbn.
  - apply (go_next _ _ _ Hok).
  - apply (go_cell_addr _ _ _ Hok).
  - apply (go_set_addr _ _ _ Hok).
  - apply (go_sets _ _ _ Hok).
  - intros f' Hf'. destruct (decide (f = f')) as [<-|Hne].
    + exists h1. split; [by apply (set_global_eq _ _ _ h)|]. left. unfold with_image. by rewrite fn_lookup_insert.
    + destruct (go_global _ _ _ Hok f' Hf') as (h' & Hh' & Hst). exists h'. rewrite set_global_ne by done. split; [done|].
      unfold with_image. by rewrite fn_lookup_insert_ne.
  - apply (go_refs _ _ _ Hok).
  - apply (go_cells _ _ _ Hok).
  - intros s gs id x Hs Hid. apply with_image_keep; [done|]. by apply (go_shared _ _ _ Hok s gs id).
  - intros f' k x Hf' [(-> & -> & ->)|Hk]%with_image_lookup; [rewrite <- Permutation_middle; by left|].
    by apply (go_used _ _ _ Hok f' k).
  - intros f1 f2 k1 k2 x H1 H2 [(E1 & _ & Ex)|Hk1]%with_image_lookup [(E2 & _ & Ey)|Hk2]%with_image_lookup.
    + congruence.
    + rewrite Ex in Hk2. by destruct (Hfresh f2 k2 H2).
    + rewrite Ey in Hk1. by destruct (Hfresh f1 k1 H1).
    + by apply (go_depth _ _ _ Hok f1 f2 k1 k2 x).
  - apply (go_held _ _ _ Hok).
Qed.

Lemma stands_room cells h m n : stands cells h m -> room h n -> models (KK := image_keys cells) h m.
Proof. intros [Hm|[-> _]] (hs & ? & _); done. Qed.

(** The outcome of looking for a glyph's image: it is its own from then on. *)
Lemma share_glyph_ok st I P f g h n :
  glyphs_ok st I (g :: P) -> depth_ok f -> shared st I f g \/ unknown st I f g ->
  global_hash st f = Some h -> room h (n + 1) -> 0 <= n ->
  exists h' I', share_glyph st f g = Ret (set_global f h' st, g) /\ glyphs_ok (set_global f h' st) I' (g :: P) /\
    shared st I' f g /\ room h' n /\
    (forall f' k x, I f' !! k = Some x -> I' f' !! k = Some x) /\
    (forall f' k x, I' f' !! k = Some x -> f' = f /\ k = sha_of (gm_cells st) g /\ x = g \/ I f' !! k = Some x).
Proof.
  intros Hok Hf Hg Hh Hroom Hn0. unfold share_glyph.
  destruct (go_cells _ _ _ Hok g) as [c Hc]; [rewrite <- Permutation_middle; by left|].
  pose proof (sha_c st g c Hc) as Esha. rewrite Hc, Hh. cbn [obind_opt].
  pose proof (go_global _ _ _ Hok f Hf) as (h0 & Hh0 & Hst). assert (h0 = h) as -> by congruence.
  pose proof (stands_room _ _ _ _ Hst Hroom) as Hm. pose proof (image_keys_lawful (gm_cells st)).
  destruct (FindGlyphRef_models (KK := image_keys (gm_cells st)) (gm_cells st) h (I f) (gl_sha1 c) Hm)
    as (i & r & Hfind & Ha & Hr). cbn [gk_sig gk_sha1 image_keys] in Hfind. rewrite Hfind. cbn [obind].
  rewrite (read_answer (KK := image_keys (gm_cells st)) h _ i r Ha). cbn [obind].
  pose proof (go_cell_addr _ _ _ Hok g c Hc) as Hgaddr. destruct Hg as [Hg|Hg].
  - unfold shared in Hg. rewrite Esha in Hg. rewrite Hg in Hr. destruct (decide (ref_live r)) as [Hl|]; [|done].
    injection Hr as Hr. rewrite <- Hr, Z.eqb_refl, andb_false_r. exists h, I.
    assert (Eset : set_global f h st = st).
    { unfold set_global, global_hash in *. destruct st; cbn in *. f_equal. by apply list_insert_id. }
    rewrite Eset. split; [done|]. split; [done|]. split; [unfold shared; by rewrite Esha|].
    split; [|split; [done|by right]]. destruct Hroom as (hs & ? & ?). exists hs. split; [done|lia].
  - pose proof Hg as [Hfresh Hnone]. rewrite Esha in Hnone. rewrite Hnone in Hr.
    destruct (decide (ref_live r)) as [|Hl]; [done|].
    assert (Hnl : is_live (r_glyph r) = false) by by apply not_true_is_false.
    rewrite Hnl. cbn [andb]. destruct (Z.eqb_spec (r_glyph r) g) as [E|_].
    { apply not_live in Hl. unfold DeletedGlyph in Hl. lia. }
    cbn [obind_opt]. eexists _, (with_image st I f g). split; [reflexivity|].
    assert (Hle : live_entry r = 0) by (unfold live_entry; by rewrite decide_False).
    pose proof (store_models (KK := image_keys (gm_cells st)) h (I f) (gl_sha1 c) i r g Hm Ha) as Hst'. rewrite Hle in Hst'.
    cbn [gk_sig image_keys] in Hst'. assert (Hm1 := Hst' ltac:(destruct Hroom as (hs & ? & ?); exists hs; split; [done|lia])
      ltac:(unfold is_live, DeletedGlyph; destruct (Z.eqb_spec g 0), (Z.eqb_spec g 1); done || lia)
      Esha ltac:(cbn; by exists c)).
    split; [apply (with_image_ok st I P f g h); [done..|by rewrite Esha]|].
    split; [unfold shared, with_image; by rewrite fn_lookup_insert, lookup_insert_eq|]. split.
    + destruct Hroom as (hs & Ehs & Hle2). exists hs. split; [by destruct h|]. pose proof (models_entries _ _ Hm).
      cbn. rewrite u32_small; lia.
    + split; [intros f' k x; apply with_image_keep; by rewrite Esha|apply with_image_lookup].
Qed.

(** ** AddGlyph *)

(** Addresses are those of glyphs. *)
Lemma addr_live g : 2 <= g -> is_live g = true.
Proof. intros. unfold is_live, DeletedGlyph. destruct (Z.eqb_spec g 0), (Z.eqb_spec g 1); done || lia. Qed.

Lemma FreeGlyph_keeps_sets env st g f st' : FreeGlyph env st g f = Ret st' -> gm_sets st' = gm_sets st.
Proof.
  intros E. pose proof (FreeGlyph_sets env st g f (gm_sets st)) as Hs.
  replace (st <| gm_sets := gm_sets st |>) with st in Hs by by destruct st.
  rewrite E in Hs. cbn in Hs. injection Hs as Hs. by rewrite Hs.
Qed.

(** A glyph is given up while a set is being changed. *)
Lemma FreeGlyph_later env st sets g f st3 :
  FreeGlyph env (st <| gm_sets := sets |>) g f = Ret st3 ->
  exists st', FreeGlyph env st g f = Ret st' /\ st3 = st' <| gm_sets := sets |> /\ gm_sets st' = gm_sets st.
Proof.
  rewrite FreeGlyph_sets. intros (st' & E & [= <-])%obind_Ret. exists st'. split; [done|]. split; [done|].
  by eapply FreeGlyph_keeps_sets.
Qed.

(** Glyphs keep their hashes. *)
Definition keeps_sha (st st' : GlyphState) : Prop :=
  forall g c', gm_cells st' !! g = Some c' -> exists c, gm_cells st !! g = Some c /\ gl_sha1 c' = gl_sha1 c.
Lemma keeps_sha_trans st1 st2 st3 : keeps_sha st1 st2 -> keeps_sha st2 st3 -> keeps_sha st1 st3.
Proof.
  intros H1 H2 g c3 Hc3. destruct (H2 g c3 Hc3) as (c2 & Hc2 & E2). destruct (H1 g c2 Hc2) as (c1 & Hc1 & E1).
  exists c1. split; [done|congruence].
Qed.
Lemma same_images_keeps st st' : same_images (gm_cells st) (gm_cells st') -> keeps_sha st st'.
Proof.
  intros E g c' Hc'. destruct (same_images_back _ _ _ _ E Hc') as [c Hc]. exists c. split; [done|].
  specialize (E g). rewrite Hc in E. destruct E as (c2 & ? & ?). congruence.
Qed.
Lemma same_images_refl cells : same_images cells cells.
Proof. intros x. destruct (cells !! x) as [c|]; [by exists c|done]. Qed.

(** What adding and deleting entries keeps of the references [L] of a request. *)
Record adds (st st' : GlyphState) (I I' : gallery) (L : list Z) (new : Z -> list Z -> Z -> Prop) : Prop := {
  ad_sha : forall x, x ∈ L -> sha_of (gm_cells st') x = sha_of (gm_cells st) x;
  ad_keep : forall f k x, x ∈ L -> I f !! k = Some x -> I' f !! k = Some x;
  ad_new : forall f k x, I' f !! k = Some x -> new f k x \/ I f !! k = Some x;
  ad_ids : gm_ids st' = gm_ids st;
  ad_next : gm_next st' = gm_next st;
  ad_cells : keeps_sha st st';
}.

Definition no_image (f : Z) (k : list Z) (x : Z) : Prop := False.

Lemma frees_adds st st' I I' P L :
  glyphs_ok st' I' P -> frees st st' -> shrinks I I' L -> (forall x, x ∈ L -> x ∈ holders (gm_sets st') ++ P) ->
  adds st st' I I' L no_image.
Proof.
  intros Hok Hf Hs Hin. split; [|apply Hs| |apply Hf|apply Hf|exact (fr_sha _ _ Hf)].
  - intros x Hx. destruct (go_cells _ _ _ Hok x (Hin x Hx)) as [c Hc]. by apply (frees_sha _ _ _ c).
  - intros f k x Hk. right. by apply (sk_sub _ _ _ Hs).
Qed.

(** The entry's room is that of one more, or of one that was there. *)
Lemma store_room {K} `{Countable K} `{GlyphKeys K} h (m : gmap K Z) i r r0 n :
  models h m -> room h (n + 1) -> 0 <= n ->
  room (write_ref (Z.of_nat i) r h <| tableEntries ::= fun x => u32 (x + (1 - live_entry r0)) |>) n.
Proof.
  intros Hm (hs & Hhs & Hn) Hn0. pose proof (models_entries h m Hm). exists hs. split; [by destruct h|].
  destruct Hm as (hs' & t & -> & Hin & _). cbn in *. destruct (glyphHashSets_sized hs' Hin) as (_ & _ & _ & ?).
  injection Hhs as <-. rewrite u32_small; unfold live_entry; case_decide; destruct (glyphHashSets_sized hs' Hin) as (_ & _ & ? & ?); lia.
Qed.

Section Add.
Context (env : glyph_env) (st : GlyphState) (I : gallery) (P : list Z) (s g id : Z) (gs : GlyphSetRec) (n : Z).
Hypothesis (Hs : gm_sets st !! s = Some gs) (Hn : 0 <= n) (Hroom : room (gs_hash gs) (n + 1)).
Hypothesis (Hlen : Z.of_nat (length (holders (gm_sets st) ++ P)) < UINT32_MAX - 8).

(** The glyph of an entry that is replaced is given up. *)
Lemma replace_entry_ok gs' g0 :
  glyphs_ok st I (g :: g :: P) -> shared st I (gs_fdepth gs) g -> gs_fdepth gs' = gs_fdepth gs ->
  models (gs_hash gs') (ids_of gs') -> ids_of gs' = <[id := g]> (ids_of gs) -> ids_of gs !! id = Some g0 ->
  exists st4 I', FreeGlyph env st g0 (gs_fdepth gs) = Ret st4 /\ gm_sets st4 = gm_sets st /\
    let st' := st4 <| gm_sets := <[s := gs']> (gm_sets st) |> in
    glyphs_ok st' I' (g :: P) /\ adds st st' I I' (g :: P) no_image /\
    (forall f h m, global_hash st f = Some h -> room h m -> exists h2, global_hash st' f = Some h2 /\ room h2 m).
Proof using Hs Hlen.
  intros Hok Hsh Hd Hm' Eids Hid. destruct (go_sets _ _ _ Hok s gs Hs) as [Hf _].
  pose proof (holders_replace (gm_sets st) s gs gs' id g g0 Hs Eids Hid) as Hp.
  assert (Hokx : glyphs_ok (st <| gm_sets := <[s := gs']> (gm_sets st) |>) I (g0 :: g :: P)).
  { apply (sets_ok st I (g :: g :: P) _ s gs gs' Hok Hs Hd Hm').
    - intros x. apply (occ_perm x) in Hp. rewrite !occ_cons in Hp. rewrite !occ_app, !occ_cons. lia.
    - rewrite Eids. intros k x [[<- <-]|[_ ?]]%lookup_insert_Some; [by right|by left]. }
  assert (Hshx : shared (st <| gm_sets := <[s := gs']> (gm_sets st) |>) I (gs_fdepth gs) g0)
    by by apply (go_shared _ _ _ Hok s gs id).
  destruct (FreeGlyph_ok env _ I (g :: P) (gs_fdepth gs) g0 Hokx Hf Hshx) as (st3 & I3 & Hfree & Hok3 & Hfr & Hsk).
  { apply Permutation_length in Hp. cbn in *. rewrite !length_app in *. cbn in *. lia. }
  destruct (FreeGlyph_later _ _ _ _ _ _ Hfree) as (st4 & Hrun & -> & Hsets).
  exists st4, I3. split; [done|]. split; [done|]. cbv zeta. split; [done|]. split.
  - destruct (frees_adds _ _ I I3 (g :: P) (g :: P) Hok3 Hfr) as [].
    + split; [apply Hsk|]. intros f k x Hx. apply (sk_keep _ _ _ Hsk). rewrite elem_of_app. by right.
    + intros x Hx. apply elem_of_app. by right.
    + by split.
  - intros f h m Hh Hrm. by apply (fr_room _ _ Hfr f h).
Qed.

(** A new entry only counts. *)
Lemma new_entry_ok gs' :
  glyphs_ok st I (g :: g :: P) -> shared st I (gs_fdepth gs) g -> gs_fdepth gs' = gs_fdepth gs ->
  models (gs_hash gs') (ids_of gs') -> ids_of gs' = <[id := g]> (ids_of gs) -> ids_of gs !! id = None ->
  let st' := st <| gm_sets := <[s := gs']> (gm_sets st) |> in
  glyphs_ok st' I (g :: P) /\ adds st st' I I (g :: P) no_image.
Proof using Hs.
  intros Hok Hsh Hd Hm' Eids Hid. split.
  - apply (sets_ok st I (g :: g :: P) _ s gs gs' Hok Hs Hd Hm').
    + intros x. pose proof (holders_add (gm_sets st) s gs gs' id g Hs Eids Hid) as Hp.
      apply (occ_perm x) in Hp. rewrite occ_cons in Hp. rewrite !occ_app, !occ_cons. lia.
    + rewrite Eids. intros k x [[<- <-]|[_ ?]]%lookup_insert_Some; [by right|by left].
  - split; [done..|by right|done|done|apply same_images_keeps, same_images_refl].
Qed.

(** The entry itself, once its glyph is shared and counted for it. *)
Lemma add_entry_ok :
  glyphs_ok st I (g :: g :: P) -> shared st I (gs_fdepth gs) g ->
  exists i r st' h' I',
    FindGlyphRef (gm_cells st) (gs_hash gs) id None = Ret (Some i) /\ read_ref (gs_hash gs) (Some i) = Ret r /\
    ('(st3, h) <-- (if is_live (r_glyph r) then st3 <-- FreeGlyph env st (r_glyph r) (gs_fdepth gs); Ret (st3, gs_hash gs)
                    else Ret (st, gs_hash gs <| tableEntries ::= fun n => u32 (n + 1) |>));
     Ret (set_hash s (write_ref i (Ref id g) h) st3)) = Ret st' /\
    gm_sets st' = <[s := gs <| gs_hash := h' |>]> (gm_sets st) /\
    models h' (<[id := g]> (ids_of gs)) /\ room h' n /\
    glyphs_ok st' I' (g :: P) /\ adds st st' I I' (g :: P) no_image /\
    (forall f h m, global_hash st f = Some h -> room h m -> exists h2, global_hash st' f = Some h2 /\ room h2 m).
Proof using Hs Hn Hroom Hlen.
  intros Hok Hsh. destruct (go_sets _ _ _ Hok s gs Hs) as [Hf Hm].
  destruct (FindGlyphRef_models (gm_cells st) (gs_hash gs) (ids_of gs) id Hm) as (i & r & Hfind & Ha & Hr).
  assert (Hg : 2 <= g).
  { destruct (go_cells _ _ _ Hok g) as [c Hc]; [rewrite <- Permutation_middle; by left|].
    by apply (go_cell_addr _ _ _ Hok g c). }
  assert (Hroom1 : room (gs_hash gs) (1 - live_entry r)).
  { destruct Hroom as (hs & ? & ?). exists hs. split; [done|]. unfold live_entry. case_decide; lia. }
  pose proof (store_models (gs_hash gs) (ids_of gs) id i r g Hm Ha Hroom1 (addr_live g Hg) eq_refl Coq.Init.Logic.I) as Hm'.
  pose proof (store_room (gs_hash gs) (ids_of gs) i (Ref id g) r n Hm Hroom Hn) as Hr'.
  set (h' := write_ref _ _ _ <| tableEntries ::= _ |>) in *. pose proof (models_entries _ _ Hm) as Hent.
  set (gs' := gs <| gs_hash := h' |>). assert (Eids : ids_of gs' = <[id := g]> (ids_of gs)) by by apply ids_models.
  assert (Hmg : models (gs_hash gs') (ids_of gs')) by by rewrite Eids.
  exists (Z.of_nat i), r. rewrite (read_answer (gs_hash gs) id i r Ha).
  destruct (decide (ref_live r)) as [Hl|Hl]; assert (Hl' := Hl); unfold ref_live in Hl'.
  - rewrite Hl'. destruct (replace_entry_ok gs' (r_glyph r) Hok Hsh eq_refl Hmg Eids Hr) as (st4 & I3 & Hrun & Hsets & Hok4 & Had & Hrms).
    exists (set_hash s (write_ref (Z.of_nat i) (Ref id g) (gs_hash gs)) st4), h', I3. rewrite Hrun. split; [done|].
    split; [done|]. split; [done|].
    assert (Eh : write_ref (Z.of_nat i) (Ref id g) (gs_hash gs) = h').
    { unfold h', live_entry. rewrite decide_True by done. clear -Hent. destruct (gs_hash gs) as [t0 hs0 n0].
      cbn in *. rewrite u32_small by lia. by rewrite Z.sub_diag, Z.add_0_r. }
    assert (Est : set_hash s (write_ref (Z.of_nat i) (Ref id g) (gs_hash gs)) st4 = st4 <| gm_sets := <[s := gs']> (gm_sets st) |>).
    { rewrite Eh, (set_hash_sets st4 s gs) by (by rewrite Hsets). by rewrite Hsets. }
    by rewrite Est.
  - apply not_true_is_false in Hl'. rewrite Hl'. destruct (new_entry_ok gs' Hok Hsh eq_refl Hmg Eids Hr) as [Hok4 Had].
    eexists _, h', I. split; [done|]. split; [done|]. split; [reflexivity|].
    assert (Eh : write_ref (Z.of_nat i) (Ref id g) (gs_hash gs <| tableEntries ::= fun n => u32 (n + 1) |>) = h').
    { unfold h', live_entry. by rewrite decide_False. }
    assert (Est : set_hash s h' st = st <| gm_sets := <[s := gs']> (gm_sets st) |>) by by apply set_hash_sets.
    rewrite Eh, Est. do 5 (split; [done|]). intros f h m Hh Hrm. by exists h.
Qed.
End Add.

(** A search by id does not look at glyphs. *)
Lemma FindGlyphRef_id cells cells' h id : FindGlyphRef cells h id None = FindGlyphRef cells' h id None.
Proof.
  unfold FindGlyphRef. destruct (hashSet h) as [hs|]; [|done]. destruct (table h) as [t|]; [|done]. cbn [obind_opt].
  replace (find_step cells hs t id None) with (find_step cells' hs t id None) by reflexivity. done.
Qed.

(** The only image that an addition can bring into the tables. *)
Definition own_image (st : GlyphState) (f g : Z) (f' : Z) (k : list Z) (x : Z) : Prop :=
  f' = f /\ k = sha_of (gm_cells st) g /\ x = g.

Lemma AddGlyph_ok env st I P s g id gs n hg :
  glyphs_ok st I (g :: P) -> gm_sets st !! s = Some gs ->
  shared st I (gs_fdepth gs) g \/ unknown st I (gs_fdepth gs) g ->
  global_hash st (gs_fdepth gs) = Some hg -> room hg (n + 1) -> room (gs_hash gs) (n + 1) -> 0 <= n ->
  Z.of_nat (length (holders (gm_sets st) ++ P)) < UINT32_MAX - 8 ->
  exists st' I' h', AddGlyph env st s g id = Ret st' /\ glyphs_ok st' I' (g :: P) /\
    gm_sets st' = <[s := gs <| gs_hash := h' |>]> (gm_sets st) /\ models h' (<[id := g]> (ids_of gs)) /\ room h' n /\
    (exists hg', global_hash st' (gs_fdepth gs) = Some hg' /\ room hg' n) /\
    shared st' I' (gs_fdepth gs) g /\ adds st st' I I' (g :: P) (own_image st (gs_fdepth gs) g).
Proof.
  intros Hok Hs Hg Hhg Hroomg Hroom Hn Hlen. destruct (go_sets _ _ _ Hok s gs Hs) as [Hf _].
  unfold AddGlyph. rewrite Hs. cbn [obind_opt].
  destruct (share_glyph_ok st I P (gs_fdepth gs) g hg n Hok Hf Hg Hhg Hroomg Hn) as (h1 & I1 & -> & Hok1 & Hsh1 & Hr1 & Hkeep1 & Hnew1).
  cbn [obind]. set (st1 := set_global (gs_fdepth gs) h1 st) in *. set (st2 := set_refcnt g (fun n => u32 (n + 1)) st1).
  assert (Hok2 : glyphs_ok st2 I1 (g :: g :: P)).
  { apply take_ref_ok; [done|rewrite <- Permutation_middle; by left|]. change (gm_sets st1) with (gm_sets st).
    rewrite length_app in *. cbn. unfold UINT32_MAX in *. lia. }
  assert (Himg : same_images (gm_cells st1) (gm_cells st2)) by by apply alter_images.
  assert (Hsh2 : shared st2 I1 (gs_fdepth gs) g) by (unfold shared; by rewrite (same_images_sha _ _ _ Himg)).
  destruct (add_entry_ok env st2 I1 P s g id gs n Hs Hn Hroom Hlen Hok2 Hsh2)
    as (i & r & st' & h' & I' & Hfind & Hread & Hrun & Hsets & Hm' & Hr' & Hok' & Hadd & Hrooms).
  exists st', I', h'. rewrite (FindGlyphRef_id _ (gm_cells st2)), Hfind. cbn [obind].
  destruct (go_cells _ _ _ Hok1 g) as [c Hc]; [rewrite <- Permutation_middle; by left|]. rewrite Hc. cbn [obind_opt].
  rewrite Hread. cbn [obind]. fold st2. split; [exact Hrun|]. split; [done|]. split; [done|]. split; [done|]. split; [done|].
  assert (Hsha : forall x, x ∈ g :: P -> sha_of (gm_cells st') x = sha_of (gm_cells st) x).
  { intros x Hx. rewrite (ad_sha _ _ _ _ _ _ Hadd x Hx). by rewrite (same_images_sha _ _ _ Himg). }
  split; [|split; [|split]].
  - apply (Hrooms (gs_fdepth gs) h1 n); [|done]. by apply (set_global_eq _ _ _ hg).
  - unfold shared. rewrite Hsha by left. apply (ad_keep _ _ _ _ _ _ Hadd); [left|]. exact Hsh1.
  - done.
  - intros f k x Hx Hk. apply (ad_keep _ _ _ _ _ _ Hadd); [done|]. by apply Hkeep1.
  - intros f k x Hk. destruct (ad_new _ _ _ _ _ _ Hadd f k x Hk) as [[]|Hk1]. by apply Hnew1.
  - apply (ad_ids _ _ _ _ _ _ Hadd).
  - apply (ad_next _ _ _ _ _ _ Hadd).
  - apply (keeps_sha_trans _ st2); [by apply same_images_keeps|apply (ad_cells _ _ _ _ _ _ Hadd)].
Qed.

(** ** DeleteGlyph *)

Lemma DeleteGlyph_ok env st I P s id gs :
  glyphs_ok st I P -> gm_sets st !! s = Some gs -> Z.of_nat (length (holders (gm_sets st) ++ P)) < UINT32_MAX - 8 ->
  exists st' I' h', DeleteGlyph env st s id = Ret (st', bool_decide (is_Some (ids_of gs !! id))) /\
    glyphs_ok st' I' P /\ gm_sets st' = <[s := gs <| gs_hash := h' |>]> (gm_sets st) /\
    models h' (delete id (ids_of gs)) /\ adds st st' I I' P no_image.
Proof.
  intros Hok Hs Hlen. destruct (go_sets _ _ _ Hok s gs Hs) as [Hf Hm]. unfold DeleteGlyph. rewrite Hs. cbn [obind_opt].
  destruct (FindGlyphRef_models (gm_cells st) (gs_hash gs) (ids_of gs) id Hm) as (i & r & Hfind & Ha & Hr).
  cbn [gk_sig gk_sha1 id_keys] in Hfind. rewrite Hfind. cbn [obind]. rewrite (read_answer (gs_hash gs) id i r Ha). cbn [obind].
  destruct (decide (ref_live r)) as [Hl|Hl]; assert (Hl' := Hl); unfold ref_live in Hl'.
  - rewrite Hl', Hr. cbn [obind_opt]. rewrite bool_decide_true by done.
    pose proof (delete_models (gs_hash gs) (ids_of gs) id i r (r_signature r) Hm Ha Hl) as Hm'.
    set (h' := write_ref _ _ _ <| tableEntries ::= _ |>) in *. set (gs' := gs <| gs_hash := h' |>).
    assert (Eids : ids_of gs' = delete id (ids_of gs)) by by apply ids_models.
    rewrite (set_hash_sets st s gs) by done. fold gs'.
    assert (Hp : holders (gm_sets st) ≡ₚ r_glyph r :: holders (<[s := gs']> (gm_sets st)))
      by by apply (holders_remove _ s gs gs' id).
    assert (Hokx : glyphs_ok (st <| gm_sets := <[s := gs']> (gm_sets st) |>) I (r_glyph r :: P)).
    { apply (sets_ok st I P _ s gs); [done..|by rewrite Eids| |].
      - intros x. apply (occ_perm x) in Hp. rewrite occ_cons in Hp. rewrite !occ_app, !occ_cons. lia.
      - rewrite Eids. intros k x [_ ?]%lookup_delete_Some. by left. }
    destruct (FreeGlyph_ok env _ I P (gs_fdepth gs) (r_glyph r) Hokx Hf) as (st3 & I3 & -> & Hok3 & Hfr & Hsk).
    { by apply (go_shared _ _ _ Hok s gs id). }
    { apply Permutation_length in Hp. cbn in *. rewrite !length_app in *. lia. }
    exists st3, I3, h'. cbn [obind]. split; [done|]. split; [done|]. split; [apply Hfr|]. split; [done|].
    destruct (frees_adds _ st3 I I3 P P Hok3 Hfr) as [].
    + split; [apply Hsk|]. intros f k x Hx. apply (sk_keep _ _ _ Hsk). rewrite elem_of_app. by right.
    + intros x Hx. apply elem_of_app. by right.
    + by split.
  - apply not_true_is_false in Hl'. rewrite Hl', Hr, bool_decide_false by (by intros [? ?]).
    exists st, I, (gs_hash gs). split; [done|]. split; [done|].
    replace (gs <| gs_hash := gs_hash gs |>) with gs by by destruct gs. split; [by rewrite insert_id|].
    rewrite delete_id by done. split; [done|]. split; [done..|by right|done|done|apply same_images_keeps, same_images_refl].
Qed.
