(* ===== verification/GlyphSets.v ===== *)
(** * Glyph sets as a whole (render/glyph.c)

    Making, resizing and freeing a set.  With the last reference to a set go the
    references of its entries, and the table of its depth shrinks, or goes when
    it has no entries. *)

From stdpp Require Import functions.
From S2P Require Import Prelude Glyphs GlyphProbe GlyphTable GlyphHash GlyphInv GlyphFree GlyphAdd.

(** ** Counting entries *)

Lemma models_list {K} `{Countable K} `{GlyphKeys K} h (m : gmap K Z) t hs :
  h = Hash (Some t) (Some hs) (Z.of_nat (live_count t)) -> models h m ->
  map_to_list m ≡ₚ (fun r => (gk_key r, r_glyph r)) <$> filter ref_live t.
Proof.
  intros -> (hs' & t' & [= <- <-] & _ & Hok & _ & _ & <-). unfold contents. apply map_to_list_to_map.
  rewrite <- list_fmap_compose. apply NoDup_keys. intros i j x y Hi Hj Hx Hy E.
  by eapply (tok_unique _ _ _ _ Hok).
Qed.

Lemma models_size {K} `{Countable K} `{GlyphKeys K} h (m : gmap K Z) :
  models h m -> tableEntries h = Z.of_nat (length (map_to_list m)).
Proof.
  intros Hm. pose proof Hm as (hs & t & E & _). rewrite (models_list h m t hs E Hm), E, length_fmap. done.
Qed.

Lemma images_count st I P f :
  glyphs_ok st I P -> depth_ok f ->
  Z.of_nat (length (map_to_list (I f))) <= Z.of_nat (length (holders (gm_sets st) ++ P)).
Proof.
  intros Hok Hf. destruct (go_global _ _ _ Hok f Hf) as (h & _ & Hst).
  rewrite <- (length_fmap snd (map_to_list (I f))). apply inj_le, submseteq_length, NoDup_submseteq.
  - apply NoDup_fmap_2_strong; [|apply NoDup_map_to_list].
    intros [k x] [k' x'] Hk%elem_of_map_to_list Hk'%elem_of_map_to_list [= <-].
    destruct (stands_cell _ _ _ _ _ Hst Hk) as (c & Hc & <-), (stands_cell _ _ _ _ _ Hst Hk') as (c' & Hc' & <-). congruence.
  - intros x ([k x'] & -> & Hk%elem_of_map_to_list)%list_elem_of_fmap. by apply (go_used _ _ _ Hok f k).
Qed.

Lemma stands_count st I P f h :
  glyphs_ok st I P -> depth_ok f -> global_hash st f = Some h ->
  0 <= tableEntries h <= Z.of_nat (length (holders (gm_sets st) ++ P)).
Proof.
  intros Hok Hf Hh. pose proof (images_count st I P f Hok Hf) as Hc.
  destruct (go_global _ _ _ Hok f Hf) as (h' & Hh' & [Hm|[-> _]]); rewrite Hh in Hh'; injection Hh' as ->; [|cbn; lia].
  rewrite (models_size _ _ Hm). lia.
Qed.

Lemma holders_length sets s gs : sets !! s = Some gs -> (length (map_to_list (ids_of gs)) <= length (holders sets))%nat.
Proof. intros Hs. rewrite (holders_split sets s gs Hs), length_app. unfold values. rewrite length_fmap. lia. Qed.

(** ** Resizing *)

Lemma global_ok st I P f h h' :
  glyphs_ok st I P -> depth_ok f -> global_hash st f = Some h -> stands (gm_cells st) h' (I f) ->
  glyphs_ok (set_global f h' st) I P.
Proof.
  intros Hok Hf Hh Hst. constructor; try apply Hok. intros f' Hf'. destruct (decide (f = f')) as [<-|Hne].
  - exists h'. split; [|done]. by apply (set_global_eq _ _ _ h).
  - rewrite set_global_ne by done. by apply (go_global _ _ _ Hok).
Qed.
Lemma count_ok st I P k : glyphs_ok st I P -> glyphs_ok (st <| gm_count := k |>) I P.
Proof. intros Hok. constructor; apply Hok. Qed.

Lemma ResizeGlyphHash_stands env st h m change :
  stands (gm_cells st) h m -> 0 <= change -> tableEntries h + change <= MAX_ENTRIES ->
  exists h' ok k, ResizeGlyphHash env st h change true = Ret (st <| gm_count := k |>, h', ok) /\
    stands (gm_cells st) h' m /\ if ok : bool then room h' change else h' = h.
Proof.
  intros [Hm|[-> ->]] Hc Hmax.
  - pose proof (image_keys_lawful (gm_cells st)) as LK.
    destruct (ResizeGlyphHash_models (KK := image_keys (gm_cells st)) (gm_cells st) env st h m change eq_refl Hm Hc Hmax)
      as (h' & ok & k & Hrun & Hm' & _ & Hr). exists h', ok, k. split; [exact Hrun|]. split; [by left|done].
  - unfold ResizeGlyphHash. cbn [tableEntries hashSet table] in *. rewrite Z.add_0_l in *.
    rewrite u32_small by (unfold MAX_ENTRIES in *; lia).
    destruct (FindGlyphHashSet_spec change Hmax) as (hs' & -> & Hin & Hle). rewrite bool_decide_false by done.
    unfold AllocateGlyphHash, gl_alloc. destruct (ge_alloc env (gm_count st) (16 * hs_size hs')); cbn [obind].
    + eexists _, true, (S (gm_count st)). split; [reflexivity|]. split; [left; by apply fresh_models|].
      exists hs'. split; [done|cbn; lia].
    + exists (Hash None None 0), false, (S (gm_count st)). split; [done|]. split; [by right|done].
Qed.

(** A set changes in its table only. *)
Lemma set_hash_ok st I P s gs h :
  glyphs_ok st I P -> gm_sets st !! s = Some gs -> models h (ids_of gs) ->
  glyphs_ok (st <| gm_sets := <[s := gs <| gs_hash := h |>]> (gm_sets st) |>) I P.
Proof.
  intros Hok Hs Hm. set (gs' := gs <| gs_hash := h |>). assert (Eids : ids_of gs' = ids_of gs) by by apply ids_models.
  apply (sets_ok st I P P s gs gs' Hok Hs); [done|by rewrite Eids| |rewrite Eids; by left].
  intros x. by rewrite (holders_same (gm_sets st) s gs gs' Hs Eids).
Qed.

Lemma ResizeGlyphSet_ok env st I P s gs n :
  glyphs_ok st I P -> gm_sets st !! s = Some gs -> 0 <= n ->
  Z.of_nat (length (holders (gm_sets st) ++ P)) + n <= MAX_ENTRIES ->
  exists st' ok h', ResizeGlyphSet env st s n = Ret (st', ok) /\ glyphs_ok st' I P /\ gm_cells st' = gm_cells st /\
    gm_sets st' = <[s := gs <| gs_hash := h' |>]> (gm_sets st) /\ models h' (ids_of gs) /\
    gm_ids st' = gm_ids st /\ gm_next st' = gm_next st /\
    if ok : bool then room h' n /\ exists hg, global_hash st' (gs_fdepth gs) = Some hg /\ room hg n else True.
Proof.
  intros Hok Hs Hn Hmax. destruct (go_sets _ _ _ Hok s gs Hs) as [Hf Hm]. unfold ResizeGlyphSet. rewrite Hs. cbn [obind_opt].
  pose proof (holders_length _ s gs Hs) as Hlen. rewrite length_app in Hmax.
  destruct (ResizeGlyphHash_models (gm_cells st) env st (gs_hash gs) (ids_of gs) n eq_refl Hm Hn)
    as (h' & ok & k & Hrun & Hm' & _ & Hr). { rewrite (models_size _ _ Hm). lia. }
  cbn [gk_global id_keys] in Hrun. rewrite Hrun. cbn [obind].
  rewrite (set_hash_sets (st <| gm_count := k |>) s gs h') by done. set (st2 := _ <| gm_sets := _ |>).
  assert (Hok2 : glyphs_ok st2 I P) by (apply (set_hash_ok (st <| gm_count := k |>)); [by apply count_ok|done..]).
  destruct ok; cbn [negb].
  2: { exists st2, false, h'. do 7 (split; [done|]). done. }
  destruct (go_global _ _ _ Hok2 (gs_fdepth gs) Hf) as (hg & Hhg & Hst). rewrite Hhg. cbn [obind_opt].
  pose proof (stands_count st2 I P _ hg Hok2 Hf Hhg) as Hcount.
  assert (Hsame : length (holders (gm_sets st2)) = length (holders (gm_sets st))).
  { apply Permutation_length, (holders_same _ s gs); [done|]. by apply ids_models. }
  rewrite length_app, Hsame in Hcount.
  destruct (ResizeGlyphHash_stands env st2 hg (I (gs_fdepth gs)) n Hst Hn ltac:(lia)) as (hg' & ok' & k' & Hrun' & Hst' & Hr').
  rewrite Hrun'. cbn [obind]. eexists _, ok', h'. split; [reflexivity|].
  split; [apply (global_ok (st2 <| gm_count := k' |>) I P _ hg); [by apply count_ok|done..]|].
  do 5 (split; [done|]). destruct ok'; [|done]. split; [done|]. exists hg'. split; [|done].
  by apply (set_global_eq (st2 <| gm_count := k' |>) _ _ hg).
Qed.

(** ** Freeing a set *)

Lemma glyphs_ok_perm st I P P' : P ≡ₚ P' -> glyphs_ok st I P -> glyphs_ok st I P'.
Proof.
  intros E Hok. constructor; try apply Hok.
  - intros g c. rewrite <- E. apply (go_refs _ _ _ Hok).
  - intros g. rewrite <- E. apply (go_cells _ _ _ Hok).
  - intros f k g. rewrite <- E. apply (go_used _ _ _ Hok).
  - intros g. rewrite <- E. apply (go_held _ _ _ Hok).
Qed.

(** Without the set its entries are references of whoever frees it. *)
Lemma set_delete_ok st I P s gs :
  glyphs_ok st I P -> gm_sets st !! s = Some gs ->
  glyphs_ok (st <| gm_sets := delete s (gm_sets st) |>) I (values (ids_of gs) ++ P).
Proof.
  intros Hok Hs.
  assert (Hp : holders (delete s (gm_sets st)) ++ values (ids_of gs) ++ P ≡ₚ holders (gm_sets st) ++ P).
  { rewrite (holders_split _ s gs Hs), app_assoc. by rewrite (Permutation_app_comm (holders (delete s _))). }
  assert (Hin : forall s' gs', delete s (gm_sets st) !! s' = Some gs' -> gm_sets st !! s' = Some gs')
    by by intros s' gs' [_ ?]%lookup_delete_Some.
  constructor; cbn; try apply Hok.
  - intros s' gs' Hs'%Hin. by apply (go_set_addr _ _ _ Hok s' gs').
  - intros s' gs' Hs'%Hin. by apply (go_sets _ _ _ Hok s').
  - intros g c. rewrite Hp. apply (go_refs _ _ _ Hok).
  - intros g. rewrite Hp. apply (go_cells _ _ _ Hok).
  - intros s' gs' id g Hs'%Hin. by apply (go_shared _ _ _ Hok s' gs').
  - intros f k g. rewrite Hp. apply (go_used _ _ _ Hok).
  - intros g. rewrite Hp. apply (go_held _ _ _ Hok).
Qed.

Lemma free_refs_sets env l f st sets :
  free_refs env l f (st <| gm_sets := sets |>) = (st1 <-- free_refs env l f st; Ret (st1 <| gm_sets := sets |>)).
Proof.
  revert st. induction l as [|r l IH]; intros st; cbn [free_refs obind]; [done|].
  destruct (is_live (r_glyph r)); cbn [obind]; [|apply IH].
  rewrite FreeGlyph_sets. destruct (FreeGlyph env st (r_glyph r) f) as [st1| | |]; cbn [obind]; [apply IH|done..].
Qed.
Lemma free_refs_keeps_sets env l f st st' : free_refs env l f st = Ret st' -> gm_sets st' = gm_sets st.
Proof.
  intros E. pose proof (free_refs_sets env l f st (gm_sets st)) as Hs.
  replace (st <| gm_sets := gm_sets st |>) with st in Hs by by destruct st.
  rewrite E in Hs. cbn in Hs. injection Hs as Hs. by rewrite Hs.
Qed.

(** Every entry of the table gives up its glyph. *)
Lemma free_refs_ok env f l st I P :
  depth_ok f -> glyphs_ok st I ((r_glyph <$> filter ref_live l) ++ P) ->
  (forall r, r ∈ l -> ref_live r -> shared st I f (r_glyph r)) ->
  Z.of_nat (length (holders (gm_sets st)) + length l + length P) < UINT32_MAX - 1 ->
  exists st' I', free_refs env l f st = Ret st' /\ glyphs_ok st' I' P /\ frees st st' /\
    shrinks I I' (holders (gm_sets st) ++ P).
Proof.
  intros Hf. revert st I. induction l as [|r l IH]; intros st I Hok Hsh Hlen; cbn [free_refs].
  { exists st, I. split; [done|]. split; [done|]. split; [reflexivity|apply shrinks_refl]. }
  rewrite filter_cons in Hok. cbn [length] in Hlen. destruct (decide (ref_live r)) as [Hl|Hl].
  - assert (Hl' := Hl). unfold ref_live in Hl'. rewrite Hl'. cbn [fmap list_fmap app] in Hok.
    destruct (FreeGlyph_ok env st I _ f (r_glyph r) Hok Hf (Hsh r ltac:(left) Hl)) as (st1 & I1 & -> & Hok1 & Hfr1 & Hsk1).
    { rewrite !length_app, length_fmap. pose proof (length_filter ref_live l). lia. }
    cbn [obind]. destruct (IH st1 I1 Hok1) as (st2 & I2 & -> & Hok2 & Hfr2 & Hsk2).
    + intros r' Hr' Hl2. assert (Hin : r_glyph r' ∈ holders (gm_sets st) ++ (r_glyph <$> filter ref_live l) ++ P).
      { rewrite !elem_of_app. right. left. apply list_elem_of_fmap_2. by apply list_elem_of_filter. }
      unfold shared. destruct (go_cells _ _ _ Hok1 (r_glyph r')) as [c Hc]; [by rewrite (fr_sets _ _ Hfr1)|].
      rewrite (frees_sha _ _ _ c Hfr1 Hc). apply (sk_keep _ _ _ Hsk1); [done|]. by apply (Hsh r' ltac:(by right)).
    + rewrite (fr_sets _ _ Hfr1). lia.
    + exists st2, I2. split; [done|]. split; [done|]. split; [by etrans|]. rewrite (fr_sets _ _ Hfr1) in Hsk2. split.
      * intros f' k x Hk. by apply (sk_sub _ _ _ Hsk1), (sk_sub _ _ _ Hsk2).
      * intros f' k x Hx Hk. apply (sk_keep _ _ _ Hsk2); [done|]. apply (sk_keep _ _ _ Hsk1); [|done].
        rewrite !elem_of_app in *. tauto.
  - assert (Hl' := Hl). unfold ref_live in Hl'. apply not_true_is_false in Hl'. rewrite Hl'. cbn [obind].
    apply IH; [done| |lia]. intros r' Hr'. apply Hsh. by right.
Qed.

(** What a set that nobody refers to leaves. *)
Record set_freed (st st' : GlyphState) (s : Z) : Prop := {
  sf_sets : gm_sets st' = delete s (gm_sets st);
  sf_ids : gm_ids st' = gm_ids st;
  sf_next : gm_next st' = gm_next st;
}.

(** The table of the depth afterwards. *)
Lemma shrink_global_ok env st m f g :
  stands (gm_cells st) g m -> 0 <= tableEntries g <= MAX_ENTRIES ->
  exists g' k,
    (if tableEntries g =? 0 then Ret (set_global f (Hash None None 0) st)
     else '(st2, g2, _) <-- ResizeGlyphHash env st g 0 true; Ret (set_global f g2 st2)) =
      Ret (set_global f g' (st <| gm_count := k |>)) /\ stands (gm_cells st) g' m.
Proof.
  intros Hst Hn. destruct (Z.eqb_spec (tableEntries g) 0) as [H0|H0].
  - exists (Hash None None 0), (gm_count st). replace (st <| gm_count := gm_count st |>) with st by by destruct st.
    split; [done|]. right. split; [done|]. destruct Hst as [Hm|[_ ->]]; [|done].
    by apply (models_empty (KK := image_keys (gm_cells st)) g).
  - destruct (ResizeGlyphHash_stands env st g m 0 Hst) as (g' & ok & k & -> & Hst' & _); [done|lia|].
    by exists g', k.
Qed.

(** The table of a set as its entries. *)
Lemma values_of_table h m t hs :
  h = Hash (Some t) (Some hs) (Z.of_nat (live_count t)) -> models h m -> values m ≡ₚ r_glyph <$> filter ref_live t.
Proof. intros E Hm. unfold values. rewrite (models_list h m t hs E Hm). by rewrite <- list_fmap_compose. Qed.

Lemma FreeGlyphSet_last env st I P s gs :
  glyphs_ok st I P -> gm_sets st !! s = Some gs -> u32 (gs_refcnt gs - 1) = 0 ->
  Z.of_nat (length (holders (gm_sets st) ++ P)) <= MAX_ENTRIES ->
  exists st' I', FreeGlyphSet env st s = Ret st' /\ glyphs_ok st' I' P /\ set_freed st st' s.
Proof.
  intros Hok Hs Hcnt Hmax. destruct (go_sets _ _ _ Hok s gs Hs) as [Hf Hm]. unfold FreeGlyphSet. rewrite Hs. cbn [obind_opt].
  rewrite Hcnt. cbn [negb Z.eqb]. pose proof Hm as (hs & t & Eh & Hhs & Htok & _ & Hle & Hcont). rewrite Eh. cbn [hashSet table obind_opt].
  pose proof (tok_length _ _ _ _ Htok) as Hlen. destruct (Z.ltb_spec (Z.of_nat (length t)) (hs_size hs)); [lia|].
  rewrite take_ge by lia. set (stx := st <| gm_sets := delete s (gm_sets st) |>).
  assert (Hokx : glyphs_ok stx I ((r_glyph <$> filter ref_live t) ++ P)).
  { apply (glyphs_ok_perm _ _ (values (ids_of gs) ++ P)); [|by apply set_delete_ok]. by rewrite (values_of_table _ _ _ _ Eh Hm). }
  rewrite (holders_split _ s gs Hs), !length_app in Hmax. pose proof (sized_pos _ (glyphHashSets_sized hs Hhs)) as Hsz.
  destruct (free_refs_ok env (gs_fdepth gs) t stx I P Hf Hokx) as (st1 & I1 & Hrun & Hok1 & Hfr1 & Hsk1).
  { intros r [i Hi]%list_elem_of_lookup Hl. apply (go_shared _ _ _ Hok s gs (r_signature r)); [done|].
    rewrite <- Hcont. apply (contents_lookup hs _ _ _ Htok). by exists i, r. }
  { unfold MAX_ENTRIES, UINT32_MAX in *. cbn. lia. }
  unfold stx in Hrun. rewrite free_refs_sets in Hrun. apply obind_Ret in Hrun as (st2 & Hrun & [= E]).
  rewrite Hrun. cbn [obind]. pose proof (free_refs_keeps_sets _ _ _ _ _ Hrun) as Hsets2.
  assert (Eg : global_hash st2 (gs_fdepth gs) = global_hash st1 (gs_fdepth gs)) by by rewrite <- E.
  assert (Ecells : gm_cells st2 = gm_cells st1) by by rewrite <- E.
  destruct (go_global _ _ _ Hok1 (gs_fdepth gs) Hf) as (g & Hg & Hst). rewrite Eg, Hg. cbn [obind_opt].
  pose proof (stands_count st1 I1 P _ g Hok1 Hf Hg) as Hcount. rewrite (fr_sets _ _ Hfr1), length_app in Hcount.
  destruct (shrink_global_ok env st2 (I1 (gs_fdepth gs)) (gs_fdepth gs) g) as (g' & k & -> & Hst');
    [by rewrite Ecells|cbn in Hcount; lia|].
  cbn [obind]. eexists _, I1. split; [reflexivity|]. rewrite Ecells in Hst'. split.
  - pose proof (global_ok st1 I1 P _ g g' Hok1 Hf Hg Hst') as Hok2. rewrite <- E in Hok2.
    constructor; cbn; try (rewrite Hsets2); apply Hok2.
  - split; cbn; [by rewrite Hsets2| |].
    + transitivity (gm_ids st1); [by rewrite <- E|apply (fr_ids _ _ Hfr1)].
    + transitivity (gm_next st1); [by rewrite <- E|apply (fr_next _ _ Hfr1)].
Qed.

(** A reference that is not the last. *)
Lemma set_refs_ok st I P s gs n :
  glyphs_ok st I P -> gm_sets st !! s = Some gs ->
  glyphs_ok (st <| gm_sets := <[s := gs <| gs_refcnt := n |>]> (gm_sets st) |>) I P.
Proof.
  intros Hok Hs. destruct (go_sets _ _ _ Hok s gs Hs) as [Hf Hm].
  set (gs' := gs <| gs_refcnt := n |>). apply (sets_ok st I P P s gs gs' Hok Hs); [done..| |by left].
  intros x. by rewrite (holders_same (gm_sets st) s gs gs' Hs eq_refl).
Qed.

(** ** A new set *)

Lemma new_set_ok st I P f fmt h :
  glyphs_ok st I P -> depth_ok f -> models h (∅ : gmap Z Z) ->
  glyphs_ok (st <| gm_next ::= fun a => a + 1 |> <| gm_sets ::= <[gm_next st := GlyphSet 1 f fmt h]> |>) I P.
Proof.
  intros Hok Hf Hm. set (gs := GlyphSet 1 f fmt h). assert (Eids : ids_of gs = ∅) by by apply ids_models.
  assert (Hnew : gm_sets st !! gm_next st = None).
  { destruct (gm_sets st !! gm_next st) as [gs0|] eqn:E; [|done]. pose proof (go_set_addr _ _ _ Hok _ _ E). lia. }
  assert (Hp : holders (<[gm_next st := gs]> (gm_sets st)) ≡ₚ holders (gm_sets st)).
  { rewrite holders_insert by done. by rewrite Eids, values_empty. }
  pose proof (go_next _ _ _ Hok). constructor; cbn; try apply Hok; [lia|..].
  - intros g c Hc. pose proof (go_cell_addr _ _ _ Hok g c Hc). lia.
  - intros s gs' [[<- _]|[_ Hs]]%lookup_insert_Some; [lia|]. pose proof (go_set_addr _ _ _ Hok s gs' Hs). lia.
  - intros s gs' [[_ <-]|[_ Hs]]%lookup_insert_Some; [|by apply (go_sets _ _ _ Hok s)]. by rewrite Eids.
  - intros g c. rewrite Hp. apply (go_refs _ _ _ Hok).
  - intros g. rewrite Hp. apply (go_cells _ _ _ Hok).
  - intros s gs' id g [[_ <-]|[_ Hs]]%lookup_insert_Some; [by rewrite Eids|]. by apply (go_shared _ _ _ Hok s).
  - intros f' k g. rewrite Hp. apply (go_used _ _ _ Hok).
  - intros g. rewrite Hp. apply (go_held _ _ _ Hok).
Qed.

(** A set's address, or 0. *)
Lemma AllocateGlyphSet_ok env st I P f fmt :
  glyphs_ok st I P -> depth_ok f ->
  exists st' s, AllocateGlyphSet env st f fmt = Ret (st', s) /\ glyphs_ok st' I P /\ gm_ids st' = gm_ids st /\
    gm_cells st' = gm_cells st /\
    if s =? 0 then gm_sets st' = gm_sets st
    else gm_sets st !! s = None /\ exists gs, gs_refcnt gs = 1 /\ gs_fdepth gs = f /\ gs_format gs = fmt /\
      ids_of gs = ∅ /\ gm_sets st' = <[s := gs]> (gm_sets st).
Proof.
  intros Hok Hf. destruct (go_global _ _ _ Hok f Hf) as (g & Hg & Hst). unfold AllocateGlyphSet. rewrite Hg. cbn [obind_opt].
  assert (Hhead : HashSet 32 43 41 ∈ glyphHashSets) by left.
  assert (Hfirst : exists st1 ok, (match hashSet g with
     | Some _ => Ret (st, true)
     | None => '(st1, r) <-- AllocateGlyphHash env st (head glyphHashSets);
               match r with None => Ret (st1, false) | Some h => Ret (set_global f h st1, true) end
     end) = Ret (st1, ok) /\ glyphs_ok st1 I P /\ gm_ids st1 = gm_ids st /\ gm_cells st1 = gm_cells st /\ gm_sets st1 = gm_sets st).
  { destruct Hst as [(hs & t & -> & _)|[-> HI]]; cbn [hashSet]; [by exists st, true|].
    unfold AllocateGlyphHash, gl_alloc. cbn [head glyphHashSets]. destruct (ge_alloc _ _ _); cbn [obind].
    - eexists _, true. split; [reflexivity|]. split; [|done].
      change (st <| gm_count ::= S |>) with (st <| gm_count := S (gm_count st) |>). apply (global_ok (st <| gm_count := S (gm_count st) |>) I P f (Hash None None 0)); [by apply count_ok|done..|].
      left. rewrite HI. by apply (fresh_models (KK := image_keys _)).
    - eexists _, false. split; [reflexivity|]. split; [by apply count_ok|done]. }
  destruct Hfirst as (st1 & ok & -> & Hok1 & Hids1 & Hc1 & Hs1). cbn [obind]. destruct ok; cbn [negb].
  2: { exists st1, 0. done. }
  unfold gl_alloc. destruct (ge_alloc _ _ _); cbn [negb].
  2: { eexists _, 0. split; [reflexivity|]. split; [by apply count_ok|done]. }
  unfold AllocateGlyphHash, gl_alloc. cbn [head glyphHashSets]. destruct (ge_alloc _ _ _); cbn [obind].
  2: { eexists _, 0. split; [reflexivity|]. split; [|done]. constructor; apply Hok1. }
  eexists _, _. split; [reflexivity|]. pose proof (fresh_models (K := Z) _ Hhead) as Hm.
  set (st2 := st1 <| gm_count := S (S (gm_count st1)) |> <| created_sets ::= fun n => n + 1 |>).
  assert (Hok2 : glyphs_ok st2 I P) by (constructor; apply Hok1).
  split; [exact (new_set_ok st2 I P f fmt _ Hok2 Hf Hm)|]. split; [done|]. split; [done|].
  pose proof (go_next _ _ _ Hok1). cbn. destruct (Z.eqb_spec (gm_next st1) 0); [lia|]. split.
  - rewrite <- Hs1. destruct (gm_sets st1 !! gm_next st1) as [gs0|] eqn:E; [|done].
    pose proof (go_set_addr _ _ _ Hok1 _ _ E). lia.
  - eexists. split; [|split; [|split; [|split; [|by rewrite Hs1]]]]; [done..|]. by apply ids_models.
Qed.
