(* ===== verification/GlyphCollect.v ===== *)
(** * Collecting glyphs for a request (render/render.c, ProcRenderAddGlyphs)

    The first half of a request to add glyphs: each image gets a glyph, a known
    one or a new one; and what a request that fails gives back. *)

From stdpp Require Import functions.
From S2P Require Import Prelude Glyphs GlyphProbe GlyphTable GlyphHash GlyphInv GlyphFree GlyphAdd GlyphSets.
From S2P Require Import GlyphRequest.

(** ** New glyphs *)

(** Everything but the log, the allocation count and private storage's count. *)
Record quiet (st st' : GlyphState) : Prop := {
  qu_cells : gm_cells st' = gm_cells st;
  qu_sets : gm_sets st' = gm_sets st;
  qu_global : gm_global st' = gm_global st;
  qu_ids : gm_ids st' = gm_ids st;
  qu_next : gm_next st' = gm_next st;
}.
#[export] Instance quiet_preorder : PreOrder quiet.
Proof. split; [by intros st|]. intros st1 st2 st3 [] []. split; congruence. Qed.

Lemma quiet_ok st st' I P : quiet st st' -> glyphs_ok st I P -> glyphs_ok st' I P.
Proof.
  intros [E1 E2 E3 E4 E5] Hok. assert (Eg : forall f, global_hash st' f = global_hash st f) by (intros f; unfold global_hash; by rewrite E3).
  constructor; intros *; rewrite ?E1, ?E2, ?E5, ?Eg; apply Hok.
Qed.

(** The realisation of a glyph on the screens changes no more, or takes it back. *)
Lemma unrealize_quiet env g i st : quiet st (unrealize env g i st).
Proof.
  revert st. induction i as [|i IH]; intros st; cbn; [reflexivity|]. etrans; [|apply IH].
  by destruct (default false (ge_screens env !! i)).
Qed.
Lemma realize_spec env g i screens st :
  g <> 0 -> exists st', quiet st st' /\
    (realize env g i screens st = (st', g) \/
     realize env g i screens st = (st' <| gm_cells ::= delete g |> <| created_glyphs ::= fun n => n - 1 |>, 0)).
Proof.
  intros Hg. revert i st. induction screens as [|ps l IH]; intros i st; cbn [realize].
  { exists st. split; [done|by left]. }
  destruct ps; [|apply IH]. destruct (ge_realize env (gm_count st) i).
  - destruct (IH (S i) (st <| gm_count ::= S |> <| gm_log ::= fun l => l ++ [EvRealizeGlyph i g] |>)) as (st' & Hq & Hr).
    exists st'. split; [|done]. etrans; [|exact Hq]. done.
  - exists (unrealize env g i (st <| gm_count ::= S |>)). split; [|by right]. etrans; [|apply unrealize_quiet]. done.
Qed.

Lemma new_glyph_ok st I P c :
  glyphs_ok st I P -> gl_refcnt c = 1 ->
  glyphs_ok (st <| gm_next ::= fun a => a + 1 |> <| gm_cells ::= <[gm_next st := c]> |>) I (gm_next st :: P).
Proof.
  intros Hok Hc. set (g := gm_next st). pose proof (go_next _ _ _ Hok) as Hn.
  assert (Hnone : gm_cells st !! g = None).
  { destruct (gm_cells st !! g) as [c0|] eqn:E; [|done]. pose proof (go_cell_addr _ _ _ Hok g c0 E). unfold g in *. lia. }
  assert (Hnew : g ∉ holders (gm_sets st) ++ P).
  { intros Hin. destruct (go_cells _ _ _ Hok g Hin) as [? ?]. congruence. }
  assert (Hne : forall x, x ∈ holders (gm_sets st) ++ P -> x <> g) by (by intros x Hx ->).
  constructor; cbn; fold g; try apply Hok; [lia|..].
  - intros x c0 [[<- _]|[_ Hx]]%lookup_insert_Some; [unfold g; lia|]. pose proof (go_cell_addr _ _ _ Hok x c0 Hx). lia.
  - intros s gs Hs. pose proof (go_set_addr _ _ _ Hok s gs Hs). lia.
  - intros f Hf. destruct (go_global _ _ _ Hok f Hf) as (h & Hh & Hst). exists h. split; [done|].
    eapply stands_cells; [|done]. intros k x c0 _ Hx. exists c0. split; [|done]. rewrite lookup_insert_ne; [done|congruence].
  - intros x c0 [[<- <-]|[Hxg Hx]]%lookup_insert_Some.
    + rewrite Hc, occ_app, occ_cons, decide_True by done. pose proof (occ_nonneg g (holders (gm_sets st) ++ P)).
      assert (occ g (holders (gm_sets st) ++ P) = 0) as E by (rewrite <- (occ_pos g) in Hnew; lia). rewrite occ_app in E. lia.
    + rewrite (go_refs _ _ _ Hok x c0 Hx), !occ_app, occ_cons, decide_False by done. lia.
  - intros x. rewrite elem_of_app, elem_of_cons. intros Hx. destruct (decide (x = g)) as [->|Hxg]; [by rewrite lookup_insert_eq|].
    rewrite lookup_insert_ne by done. apply (go_cells _ _ _ Hok). rewrite elem_of_app. tauto.
  - intros s gs id x Hs Hid. assert (Hxg : x <> g).
    { apply Hne, elem_of_app. left. apply holders_elem. by exists s, gs, id. }
    unfold sha_of. rewrite lookup_insert_ne by done. by apply (go_shared _ _ _ Hok s gs id x).
  - intros f k x Hf Hk. pose proof (go_used _ _ _ Hok f k x Hf Hk). rewrite elem_of_app, elem_of_cons in *. tauto.
  - intros x [cx [[<- _]|[_ Hx]]%lookup_insert_Some]; [rewrite elem_of_app, elem_of_cons; tauto|].
    pose proof (go_held _ _ _ Hok x ltac:(by exists cx)). rewrite elem_of_app, elem_of_cons in *. tauto.
Qed.

(** A new glyph goes again. *)
Lemma drop_new_ok st I P g :
  glyphs_ok st I (g :: P) -> fresh I g -> g ∉ holders (gm_sets st) ++ P ->
  glyphs_ok (st <| gm_cells ::= delete g |>) I P.
Proof.
  intros Hok Hfresh Hnew. constructor; cbn; try apply Hok.
  - intros x c [_ Hx]%lookup_delete_Some. by apply (go_cell_addr _ _ _ Hok x c).
  - intros f Hf. destruct (go_global _ _ _ Hok f Hf) as (h & Hh & Hst). exists h. split; [done|].
    eapply stands_cells; [|done]. intros k x c Hk Hx. exists c. split; [|done]. rewrite lookup_delete_ne; [done|].
    intros <-. by apply (Hfresh f k).
  - intros x c [Hne Hx]%lookup_delete_Some. rewrite (go_refs _ _ _ Hok x c Hx), !occ_app, occ_cons, decide_False by done. lia.
  - intros x Hx. assert (Hne : g <> x) by (by intros ->). rewrite lookup_delete_ne by done.
    apply (go_cells _ _ _ Hok). rewrite elem_of_app, elem_of_cons in *. tauto.
  - intros s gs id x Hs Hid. assert (Hne : g <> x).
    { intros ->. apply Hnew, elem_of_app. left. apply holders_elem. by exists s, gs, id. }
    unfold sha_of. rewrite lookup_delete_ne by done. by apply (go_shared _ _ _ Hok s gs id x).
  - intros f k x Hf Hk. pose proof (go_used _ _ _ Hok f k x Hf Hk) as Hin. rewrite elem_of_app, elem_of_cons in *.
    assert (x <> g) by (intros ->; by apply (Hfresh f k)). tauto.
  - intros x [cx [Hne Hx]%lookup_delete_Some]. pose proof (go_held _ _ _ Hok x ltac:(by exists cx)) as Hin.
    rewrite elem_of_app, elem_of_cons in *. destruct Hin as [?|[->|?]]; [by left|done|by right].
Qed.

(** A new glyph's pictures and hash may be set. *)
Lemma new_cell_ok st I P g (fc : GlyphRec -> GlyphRec) :
  glyphs_ok st I P -> fresh I g -> g ∉ holders (gm_sets st) -> (forall c, gl_refcnt (fc c) = gl_refcnt c) ->
  glyphs_ok (st <| gm_cells ::= alter fc g |>) I P.
Proof.
  intros Hok Hfresh Hnew Hfc.
  assert (Hback : forall x c', alter fc g (gm_cells st) !! x = Some c' -> exists c, gm_cells st !! x = Some c /\ gl_refcnt c' = gl_refcnt c).
  { intros x c' Hx. destruct (decide (x = g)) as [->|Hne].
    - rewrite lookup_alter_eq in Hx. destruct (gm_cells st !! g) as [c|]; [|done]. injection Hx as <-. by exists c.
    - rewrite lookup_alter_ne in Hx by done. by exists c'. }
  constructor; cbn; try apply Hok.
  - intros x c' (c & Hc & _)%Hback. by apply (go_cell_addr _ _ _ Hok x c).
  - intros f Hf. destruct (go_global _ _ _ Hok f Hf) as (h & Hh & Hst). exists h. split; [done|].
    eapply stands_cells; [|done]. intros k x c Hk Hx. exists c. split; [|done]. rewrite lookup_alter_ne; [done|].
    intros <-. by apply (Hfresh f k).
  - intros x c' (c & Hc & ->)%Hback. by apply (go_refs _ _ _ Hok).
  - intros x [c Hc]%(go_cells _ _ _ Hok). destruct (decide (x = g)) as [->|Hne].
    + rewrite lookup_alter_eq, Hc. done.
    + rewrite lookup_alter_ne by done. done.
  - intros s gs id x Hs Hid. assert (Hne : g <> x).
    { intros ->. apply Hnew, holders_elem. by exists s, gs, id. }
    unfold sha_of. rewrite lookup_alter_ne by done. by apply (go_shared _ _ _ Hok s gs id x).
  - intros x [c' (c & Hc & _)%Hback]. apply (go_held _ _ _ Hok). by exists c.
Qed.

Lemma AllocateGlyph_ok env st I P gi :
  glyphs_ok st I P ->
  exists st', gm_sets st' = gm_sets st /\ gm_ids st' = gm_ids st /\
    (AllocateGlyph env st gi = (st', 0) /\ glyphs_ok st' I P /\ gm_cells st' = gm_cells st \/
     AllocateGlyph env st gi = (st', gm_next st) /\ glyphs_ok st' I (gm_next st :: P) /\
     exists c, gm_cells st' = <[gm_next st := c]> (gm_cells st)).
Proof.
  intros Hok. unfold AllocateGlyph, gl_alloc. destruct (ge_alloc _ _ _); cbn [negb].
  2: { exists (st <| gm_count ::= S |>). split; [done|]. split; [done|]. left. split; [done|]. split; [|done]. constructor; apply Hok. }
  pose proof (go_next _ _ _ Hok) as Hn. set (g := gm_next st) in *. set (c := Glyph 1 _ gi _).
  set (st1 := st <| gm_count ::= S |> <| created_glyphs ::= fun n => n + 1 |>).
  assert (Hok1 : glyphs_ok st1 I P) by (constructor; apply Hok).
  pose proof (new_glyph_ok st1 I P c Hok1 eq_refl) as Hok2.
  match goal with |- context [realize env ?a 0 ?b ?s] => set (st2 := s) end.
  destruct (realize_spec env g 0 (ge_screens env) st2 ltac:(lia)) as (st' & Hq & Hrun).
  change (gm_next (st <| gm_count ::= S |>)) with g. destruct Hrun as [Hrun|Hrun]; rewrite Hrun.
  - exists st'. split; [by apply Hq|]. split; [by apply Hq|]. right. split; [done|]. split; [|exists c; by apply Hq].
    by apply (quiet_ok st2).
  - eexists. split; [|split; [|left; split; [reflexivity|]]]; [by apply Hq..|].
    assert (Ecells : delete g (gm_cells st') = gm_cells st).
    { rewrite (qu_cells _ _ Hq). cbn. rewrite delete_insert_id; [done|].
      destruct (gm_cells st !! g) as [c0|] eqn:E; [|done]. pose proof (go_cell_addr _ _ _ Hok g c0 E). unfold g in *. lia. }
    split; [|exact Ecells]. destruct Hq as [Q1 Q2 Q3 Q4 Q5].
    assert (Eg : forall f, global_hash st' f = global_hash st f) by (intros f; unfold global_hash; by rewrite Q3).
    constructor; intros *; cbn; rewrite ?Ecells, ?Q2, ?Q5; try apply Hok.
    + cbn. lia.
    + intros Hc. pose proof (go_cell_addr _ _ _ Hok _ _ Hc). cbn. unfold g. lia.
    + intros Hs. pose proof (go_set_addr _ _ _ Hok _ _ Hs). cbn. lia.
    + intros Hf. destruct (go_global _ _ _ Hok _ Hf) as (h & Hh & Hst). exists h. unfold global_hash in *. cbn.
      by rewrite Q3.
Qed.

(** Drawing changes pictures. *)
Lemma draw_glyph_ok env st I P g gi i screens :
  glyphs_ok st I P -> fresh I g -> g ∉ holders (gm_sets st) ->
  exists st' ok, draw_glyph env g gi i screens st = (st', ok) /\ glyphs_ok st' I P /\ gm_sets st' = gm_sets st /\
    gm_ids st' = gm_ids st /\ same_images (gm_cells st) (gm_cells st').
Proof.
  intros Hok Hfresh Hnew. revert i st Hok Hnew. induction screens as [|ps l IH]; intros i st Hok Hnew; cbn [draw_glyph].
  { exists st, true. do 4 (split; [done|]). intros x. destruct (gm_cells st !! x) as [c|]; [by exists c|done]. }
  destruct (_ || _).
  { exists st, true. do 4 (split; [done|]). intros x. destruct (gm_cells st !! x) as [c|]; [by exists c|done]. }
  destruct (ge_picture (re_glyphs env) (gm_count st) i) as [p|].
  2: { exists (st <| gm_count ::= S |>), false. split; [done|]. split; [constructor; apply Hok|]. do 2 (split; [done|]).
       intros x. cbn. destruct (gm_cells st !! x) as [c|]; [by exists c|done]. }
  match goal with |- context [draw_glyph env g gi (S i) l ?s] => set (st1 := s) end.
  pose proof (new_cell_ok st I P g (fun c => c <| gl_pictures ::= <[i := p]> |>) Hok Hfresh Hnew ltac:(done)) as Hok1.
  assert (Hok2 : glyphs_ok st1 I P) by (constructor; apply Hok1).
  destruct (IH (S i) st1 Hok2 Hnew) as (st' & ok & Hrun & Hok' & Hs & Hi & Himg).
  exists st', ok. do 4 (split; [done|]). intros x.
  pose proof (alter_images (gm_cells st) g (fun c => c <| gl_pictures ::= <[i := p]> |>) ltac:(done) x) as H1.
  specialize (Himg x). destruct (gm_cells st !! x) as [c|].
  - destruct H1 as (c1 & Hc1 & E1).
    assert (Hc1' : gm_cells st1 !! x = Some c1) by exact Hc1. rewrite Hc1' in Himg.
    destruct Himg as (c2 & ? & ?). exists c2. split; [done|congruence].
  - assert (H1' : gm_cells st1 !! x = None) by exact H1. by rewrite H1' in Himg.
Qed.

(** ** One image *)

(** What collecting keeps of glyphs that were there. *)
Record gathers (st st' : GlyphState) : Prop := {
  ga_sets : gm_sets st' = gm_sets st;
  ga_ids : gm_ids st' = gm_ids st;
  ga_sha : forall x, is_Some (gm_cells st !! x) -> sha_of (gm_cells st') x = sha_of (gm_cells st) x /\ is_Some (gm_cells st' !! x);
}.
#[export] Instance gathers_preorder : PreOrder gathers.
Proof.
  split; [by split|]. intros st1 st2 st3 [A1 A2 A3] [B1 B2 B3]. split; [congruence..|].
  intros x Hx. destruct (A3 x Hx) as [E Hx2]. destruct (B3 x Hx2) as [E' Hx3]. split; [congruence|done].
Qed.

(** Images of a depth have a glyph in a set. *)
Definition settled (st : GlyphState) (I : gallery) : Prop :=
  forall f k g, depth_ok f -> I f !! k = Some g -> g ∈ holders (gm_sets st).

(** A glyph collected in a request that holds [P] besides. *)
Definition entry_ok (st : GlyphState) (I : gallery) (f : Z) (P : list Z) (e : GlyphNewRec) : Prop :=
  if gn_found e then I f !! gn_sha1 e = Some (gn_glyph e)
  else fresh I (gn_glyph e) /\ gn_glyph e ∉ holders (gm_sets st) ++ P.

(** One that the request can go on with. *)
Definition entry_full (st : GlyphState) (I : gallery) (f : Z) (e : GlyphNewRec) : Prop :=
  sha_of (gm_cells st) (gn_glyph e) = gn_sha1 e /\ (gn_found e = false -> I f !! gn_sha1 e = None).

Lemma FindGlyphByHash_ok st I P f sha1 :
  glyphs_ok st I P -> depth_ok f -> FindGlyphByHash st sha1 f = Ret (match I f !! sha1 with Some g => g | None => 0 end).
Proof.
  intros Hok Hf. destruct (go_global _ _ _ Hok f Hf) as (h & Hh & Hst). unfold FindGlyphByHash. rewrite Hh. cbn [obind_opt].
  destruct Hst as [Hm|[-> ->]]; [|by rewrite lookup_empty].
  pose proof Hm as (hs & t & E & _). rewrite E at 1. cbn [hashSet].
  pose proof (image_keys_lawful (gm_cells st)) as LK.
  destruct (FindGlyphRef_models (KK := image_keys (gm_cells st)) (gm_cells st) h (I f) sha1 Hm) as (i & r & Hfind & Ha & Hr).
  cbn [gk_sig gk_sha1 image_keys] in Hfind. rewrite Hfind. cbn [obind].
  rewrite (read_answer (KK := image_keys (gm_cells st)) h sha1 i r Ha). cbn [obind]. rewrite Hr.
  destruct (decide (ref_live r)) as [Hl|Hl]; unfold ref_live in Hl; [by rewrite Hl|].
  apply not_true_is_false in Hl. by rewrite Hl.
Qed.

(** What a collected glyph is known to be. *)
Definition collected (env : render_env) (st st' : GlyphState) (I : gallery) (P : list Z) (f id : Z) (image : list Z)
    (e : GlyphNewRec) (ok : bool) : Prop :=
  gathers st st' /\
    (gn_glyph e = 0 /\ ok = false /\ glyphs_ok st' I P \/
     gn_glyph e <> 0 /\ glyphs_ok st' I (gn_glyph e :: P) /\ entry_ok st' I f P e /\
     (ok = true -> gn_id e = id /\ ge_sha1 (re_glyphs env) image = Some (gn_sha1 e) /\ entry_full st' I f e)).

Section Collect.
Context (env : render_env) (st : GlyphState) (I : gallery) (P : list Z) (id f : Z) (gi : xGlyphInfo) (image sha1 : list Z).
Hypothesis (Hok : glyphs_ok st I P) (Hf : depth_ok f) (Hset : settled st I).
Hypothesis (Hsha : ge_sha1 (re_glyphs env) image = Some sha1).

(** A glyph that the depth has. *)
Lemma collect_known g :
  I f !! sha1 = Some g -> Z.of_nat (length (holders (gm_sets st) ++ P)) < UINT32_MAX ->
  2 <= g /\ collected env st (set_refcnt g (fun n => u32 (n + 1)) st) I P f id image (GlyphNew id g true sha1) true.
Proof using Hok Hf Hset Hsha.
  intros Eg Hlen. destruct (go_global _ _ _ Hok f Hf) as (h & Hh & Hst).
  destruct (stands_cell _ _ _ _ _ Hst Eg) as (c & Hc & Hcs). pose proof (go_cell_addr _ _ _ Hok g c Hc) as Ha.
  assert (Himg : same_images (gm_cells st) (gm_cells (set_refcnt g (fun n => u32 (n + 1)) st))) by by apply alter_images.
  split; [lia|]. split.
  - split; [done..|]. intros x Hx. split; [by apply same_images_sha|by eapply same_images_on].
  - right. split; [cbn; lia|]. split; [|split; [done|intros _; split; [done|split; [done|split; [|done]]]]].
    + apply take_ref_ok; [done| |done]. apply elem_of_app. left. by apply (Hset f sha1).
    + cbn [gn_glyph gn_sha1]. rewrite (same_images_sha _ _ _ Himg). unfold sha_of. by rewrite Hc.
Qed.

(** A new one, once it is allocated: its pictures are drawn and its hash is set. *)
Lemma collect_new st1 c :
  I f !! sha1 = None -> gm_sets st1 = gm_sets st -> gm_ids st1 = gm_ids st -> glyphs_ok st1 I (gm_next st :: P) ->
  gm_cells st1 = <[gm_next st := c]> (gm_cells st) ->
  exists st' e ok,
    (let '(st2, ok) := draw_glyph env (gm_next st) gi 0 (ge_screens (re_glyphs env)) st1 in
     if negb ok then Ret (st2, GlyphNew 0 (gm_next st) false sha1, false) else
     Ret (st2 <| gm_cells ::= alter (fun c => c <| gl_sha1 := sha1 |>) (gm_next st) |>, GlyphNew id (gm_next st) false sha1, true)) =
      Ret (st', e, ok) /\ collected env st st' I P f id image e ok.
Proof using Hok Hset Hsha.
  intros Eg Es1 Ei1 Hok1 Ec1. pose proof (go_next _ _ _ Hok) as Hn. set (g := gm_next st) in *.
  assert (Hnone : gm_cells st !! g = None).
  { destruct (gm_cells st !! g) as [c0|] eqn:E; [|done]. pose proof (go_cell_addr _ _ _ Hok g c0 E). unfold g in *. lia. }
  assert (Hnew : g ∉ holders (gm_sets st) ++ P).
  { intros Hin. destruct (go_cells _ _ _ Hok g Hin) as [? ?]. congruence. }
  assert (Hfresh : fresh I g).
  { intros f' k Hf' Hk. apply Hnew, elem_of_app. left. by apply (Hset f' k). }
  assert (Hnh : g ∉ holders (gm_sets st1)) by (rewrite Es1; intros ?; apply Hnew, elem_of_app; by left).
  destruct (draw_glyph_ok env st1 I (g :: P) g gi 0 (ge_screens (re_glyphs env)) Hok1 Hfresh Hnh)
    as (st2 & ok & -> & Hok2 & Es2 & Ei2 & Himg).
  assert (Hother : forall x, is_Some (gm_cells st !! x) -> x <> g) by (intros x Hx ->; rewrite Hnone in Hx; by destruct Hx).
  assert (Hga : gathers st st2).
  { split; [congruence..|]. intros x Hx. pose proof (Hother x Hx).
    assert (Hx1 : gm_cells st1 !! x = gm_cells st !! x) by (by rewrite Ec1, lookup_insert_ne).
    split; [|eapply same_images_on; [done|by rewrite Hx1]]. rewrite (same_images_sha _ _ _ Himg). unfold sha_of. by rewrite Hx1. }
  destruct ok; cbn [negb].
  2: { exists st2, (GlyphNew 0 g false sha1), false. split; [done|]. split; [done|]. right. split; [cbn; lia|]. split; [done|].
       split; [|done]. split; [done|]. cbn. by rewrite Es2, Es1. }
  destruct (same_images_on _ _ g Himg) as [c2 Hc2]; [by rewrite Ec1, lookup_insert_eq|].
  eexists _, (GlyphNew id g false sha1), true. split; [reflexivity|]. split.
  - destruct Hga as [G1 G2 G3]. split; [done..|]. intros x Hx. destruct (G3 x Hx) as [G4 G5].
    assert (Hx2 : gm_cells (st2 <| gm_cells ::= alter (fun c => c <| gl_sha1 := sha1 |>) g |>) !! x = gm_cells st2 !! x)
      by (apply lookup_alter_ne; intros <-; by apply (Hother g)).
    unfold sha_of in *. rewrite Hx2. by split.
  - right. cbn [gn_glyph gn_found gn_id gn_sha1]. split; [lia|]. split; [|split; [|intros _; split; [done|split; [done|split]]]].
    + apply (new_cell_ok st2 I (g :: P) g (fun c => c <| gl_sha1 := sha1 |>) Hok2 Hfresh); [by rewrite Es2|done].
    + split; [done|]. cbn. by rewrite Es2, Es1.
    + unfold sha_of. cbn. by rewrite lookup_alter_eq, Hc2.
    + done.
Qed.
End Collect.

Lemma collect_glyph_ok env st I P id gi f image :
  glyphs_ok st I P -> depth_ok f -> settled st I ->
  Z.of_nat (length (holders (gm_sets st) ++ P)) < UINT32_MAX ->
  exists st' e ok, collect_glyph env st id gi f image = Ret (st', e, ok) /\ collected env st st' I P f id image e ok.
Proof.
  intros Hok Hf Hset Hlen. unfold collect_glyph. destruct (ge_sha1 (re_glyphs env) image) as [sha1|] eqn:Esha.
  2: { exists st, (GlyphNew 0 0 false []), false. split; [done|]. split; [reflexivity|]. by left. }
  rewrite (FindGlyphByHash_ok st I P f sha1 Hok Hf). cbn [obind]. pose proof (go_next _ _ _ Hok) as Hn.
  destruct (I f !! sha1) as [g|] eqn:Eg.
  - destruct (collect_known env st I P id f image sha1 Hok Hf Hset Esha g Eg Hlen) as [Hg Hc]. rewrite addr_live by done.
    by eexists _, _, _.
  - change (is_live 0) with false. cbv iota.
    destruct (AllocateGlyph_ok (re_glyphs env) st I P gi Hok) as (st1 & Es1 & Ei1 & [(-> & Hok1 & Ec1)|(-> & Hok1 & c & Ec1)]).
    + rewrite Z.eqb_refl. exists st1, (GlyphNew 0 0 false sha1), false. split; [done|]. split; [|by left].
      split; [done..|]. intros x. by rewrite Ec1.
    + destruct (Z.eqb_spec (gm_next st) 0) as [|_]; [lia|].
      by apply (collect_new env st I P id f gi image sha1 Hok Hset Esha st1 c).
Qed.
