(* ===== verification/GlyphPending.v ===== *)
(** * The glyphs of a request (render/render.c, ProcRenderAddGlyphs)

    All images of a request are collected, and then added or given up. *)

From stdpp Require Import functions.
From S2P Require Import Prelude Request Glyphs GlyphProbe GlyphTable GlyphHash GlyphInv GlyphFree GlyphAdd GlyphSets.
From S2P Require Import GlyphRequest GlyphCollect.

(** ** What has been collected *)

(** The references of the entries; a null glyph is none. *)
Definition refs_of (l : list GlyphNewRec) : list Z := filter (fun g => g <> 0) (gn_glyph <$> l).

Fixpoint pending (st : GlyphState) (I : gallery) (f : Z) (l : list GlyphNewRec) : Prop :=
  match l with
  | [] => True
  | e :: l' => (gn_glyph e <> 0 -> entry_ok st I f (refs_of l') e) /\ pending st I f l'
  end.

Lemma refs_of_cons e l : refs_of (e :: l) = if decide (gn_glyph e = 0) then refs_of l else gn_glyph e :: refs_of l.
Proof.
  unfold refs_of. rewrite fmap_cons. case_decide as E; [by rewrite filter_cons_False by auto|by rewrite filter_cons_True].
Qed.
Lemma refs_of_app l l' : refs_of (l ++ l') = refs_of l ++ refs_of l'.
Proof. unfold refs_of. by rewrite fmap_app, filter_app. Qed.
Lemma refs_of_length l : (length (refs_of l) <= length l)%nat.
Proof. unfold refs_of. etrans; [apply length_filter|]. by rewrite length_fmap. Qed.
Lemma refs_of_elem e l : e ∈ l -> gn_glyph e <> 0 -> gn_glyph e ∈ refs_of l.
Proof. intros He Hne. apply list_elem_of_filter. split; [done|]. by apply list_elem_of_fmap_2. Qed.

Lemma pending_sets st st' I f l : gm_sets st' = gm_sets st -> pending st I f l -> pending st' I f l.
Proof.
  intros E. induction l as [|e l IH]; [done|]. intros [He Hl]. split; [|by apply IH]. intros Hne. specialize (He Hne).
  unfold entry_ok in *. by rewrite E.
Qed.

Lemma pending_snoc st I f l e :
  depth_ok f -> pending st I f l -> (gn_glyph e <> 0 -> entry_ok st I f (refs_of l) e) -> pending st I f (l ++ [e]).
Proof.
  intros Hf. induction l as [|e0 l IH]; intros Hl He; [by split; [exact He|]|]. destruct Hl as [H0 Hl]. split.
  - intros Hne0. specialize (H0 Hne0). unfold entry_ok in *. destruct (gn_found e0); [done|]. destruct H0 as [Hfr Hnin].
    split; [done|]. rewrite refs_of_app, app_assoc, elem_of_app, refs_of_cons. intros [?|Hin]; [done|].
    destruct (decide (gn_glyph e = 0)) as [|Hne]; [by apply not_elem_of_nil in Hin|].
    cbn in Hin. apply list_elem_of_singleton in Hin. specialize (He Hne). destruct (gn_found e).
    + rewrite Hin in Hfr. by apply (Hfr f (gn_sha1 e)).
    + destruct He as [_ He]. apply He. rewrite elem_of_app. right. rewrite <- Hin. apply refs_of_elem; [left|done].
  - apply IH; [done|]. intros Hne. specialize (He Hne). unfold entry_ok in *. destruct (gn_found e); [done|].
    destruct He as [? He]. split; [done|]. intros Hin. apply He. rewrite elem_of_app in *. destruct Hin as [?|Hin]; [by left|right].
    rewrite refs_of_cons. case_decide; [done|by right].
Qed.

(** ** The loop over the images *)

(** The images of a request, as far as they fit. *)
Fixpoint request_images (env : render_env) (depth : Z) (n : nat) (infos bits : list Z) (remain : Z) : list (list Z) :=
  match n with
  | O => []
  | S n' =>
      match read_info infos with
      | None => []
      | Some gi =>
          match image_size env gi depth with
          | None => []
          | Some size =>
              if u32 remain <? size then [] else
              let size' := if Z.land size 3 =? 0 then size else u32 (size + (4 - Z.land size 3)) in
              (take 12 infos ++ take (Z.to_nat size) bits) ::
              request_images env depth n' (drop 12 infos) (drop (Z.to_nat size') bits) (i32 (remain - size'))
          end
      end
  end.

Lemma read_info_Some infos : (12 <= length infos)%nat -> exists gi, read_info infos = Some gi.
Proof.
  intros H. unfold read_info. do 12 (destruct infos as [|? infos]; [cbn in H; lia|]). cbn. eauto.
Qed.
Lemma read_id_Some gids :
  (4 <= length gids)%nat ->
  exists id, head (words32 (take 4 gids)) = Some id /\ words32 gids = id :: words32 (drop 4 gids).
Proof. intros H. do 4 (destruct gids as [|? gids]; [cbn in H; lia|]). cbn. eauto. Qed.

(** Entries with which the request can go on. *)
Definition full (st : GlyphState) (I : gallery) (f : Z) (l : list GlyphNewRec) : Prop :=
  Forall (fun e => gn_glyph e <> 0 /\ entry_full st I f e /\ is_Some (gm_cells st !! gn_glyph e)) l.

Lemma full_gathers st st' I f l : gathers st st' -> full st I f l -> full st' I f l.
Proof.
  intros Hg Hl. eapply Forall_impl; [exact Hl|]. intros e (Hne & [Hs Hn] & Hc). destruct (ga_sha _ _ Hg _ Hc) as [E ?].
  split; [done|]. split; [|done]. split; [by rewrite E|done].
Qed.

Lemma collect_glyphs_ok env f depth I n : forall st gids infos bits remain acc,
  glyphs_ok st I (refs_of acc) -> pending st I f acc -> full st I f acc -> depth_ok f -> settled st I ->
  (12 * n <= length infos)%nat -> (4 * n <= length gids)%nat ->
  Z.of_nat (length (holders (gm_sets st)) + length acc + n) < UINT32_MAX ->
  exists st' l remain' err, collect_glyphs env st f depth n gids infos bits remain acc = Ret (st', l, remain', err) /\
    gathers st st' /\ glyphs_ok st' I (refs_of l) /\ pending st' I f l /\ err <> Some Success /\
    (length l <= length acc + n)%nat /\ (err = None -> full st' I f l /\ length l = (length acc + n)%nat /\
      gn_id <$> l = (gn_id <$> acc) ++ take n (words32 gids) /\
      Some ∘ gn_sha1 <$> l = (Some ∘ gn_sha1 <$> acc) ++
        (ge_sha1 (re_glyphs env) <$> request_images env depth n infos bits remain)).
Proof.
  induction n as [|n IH]; intros st gids infos bits remain acc Hok Hp Hfull Hf Hset Hi Hgi Hlen; cbn [collect_glyphs request_images].
  { exists st, acc, remain, None. split; [done|]. split; [reflexivity|]. do 3 (split; [done|]). split; [lia|].
    intros _. split; [done|].
    split; [lia|]. split; by rewrite app_nil_r. }
  destruct (read_info_Some infos ltac:(lia)) as [gi Egi]. rewrite Egi. cbn [obind_opt].
  destruct (image_size env gi depth) as [size|].
  2: { exists st, acc, remain, (Some BadLength). do 5 (split; [done|]). split; [lia|done]. }
  destruct (u32 remain <? size); [exists st, acc, remain, (Some BadLength); do 5 (split; [done|]); split; [lia|done]|].
  destruct (read_id_Some gids ltac:(lia)) as (id & Eid & Ewords). rewrite Eid. cbn [obind_opt].
  set (image := take 12 infos ++ take (Z.to_nat size) bits). pose proof (refs_of_length acc) as Hra.
  destruct (collect_glyph_ok env st I (refs_of acc) id gi f image Hok Hf Hset) as (st1 & e & ok & -> & Hg1 & Hcase).
  { rewrite length_app. lia. }
  cbn [obind]. set (size' := if _ =? 0 then size else _). pose proof (pending_sets st st1 I f acc (ga_sets _ _ Hg1) Hp) as Hp1.
  assert (Hok1 : glyphs_ok st1 I (refs_of (acc ++ [e]))).
  { rewrite refs_of_app, refs_of_cons. destruct Hcase as [(E0 & _ & Hok1)|(Hne & Hok1 & _)].
    - rewrite decide_True by done. by rewrite app_nil_r.
    - rewrite decide_False by done. eapply glyphs_ok_perm; [|exact Hok1]. by rewrite Permutation_app_comm. }
  assert (Hp2 : pending st1 I f (acc ++ [e])).
  { apply pending_snoc; [done..|]. intros Hne. destruct Hcase as [(E0 & _)|(_ & _ & He & _)]; [done|exact He]. }
  destruct ok; cbn [negb]; [|exists st1, (acc ++ [e]), remain, (Some BadAlloc); do 5 (split; [done|]); split; [rewrite length_app; cbn; lia|done]].
  destruct Hcase as [(_ & [=] & _)|(Hne & Hok1' & _ & Hdone)]. destruct (Hdone eq_refl) as (Hid & Hsha & Hef).
  assert (Hfull1 : full st1 I f (acc ++ [e])).
  { apply Forall_app. split; [by eapply full_gathers|]. apply Forall_singleton. split; [done|]. split; [done|].
    apply (go_cells _ _ _ Hok1'). rewrite elem_of_app. right. by left. }
  destruct (IH st1 (drop 4 gids) (drop 12 infos) (drop (Z.to_nat size') bits) (i32 (remain - size')) (acc ++ [e]))
    as (st2 & l & remain' & err & Hrun & Hg2 & Hok2 & Hp3 & Herrs & Hll & Hend); try done.
  - intros f' k g Hf' Hk. rewrite (ga_sets _ _ Hg1). by apply (Hset f' k).
  - rewrite length_drop. lia.
  - rewrite length_drop. lia.
  - rewrite (ga_sets _ _ Hg1), length_app. cbn [length]. lia.
  - exists st2, l, remain', err. split; [exact Hrun|]. split; [by etrans|]. do 3 (split; [done|]).
    split; [rewrite length_app in Hll; cbn in Hll; lia|]. intros Herr.
    destruct (Hend Herr) as (Hfull2 & Hl & Hids & Hshas). split; [done|]. split; [rewrite Hl, length_app; cbn [length]; lia|].
    split; [rewrite Hids, fmap_app, <- app_assoc, Ewords; cbn; by rewrite Hid|].
    rewrite Hshas, fmap_app, <- app_assoc. cbn. by rewrite Hsha.
Qed.

(** ** Giving up *)

Lemma bail_ok l : forall st I f,
  glyphs_ok st I (refs_of l) -> pending st I f l -> depth_ok f -> settled st I ->
  Z.of_nat (length (holders (gm_sets st)) + length l) < UINT32_MAX - 1 ->
  exists st', bail l st = Ret st' /\ glyphs_ok st' I [] /\ gm_sets st' = gm_sets st /\ gm_ids st' = gm_ids st.
Proof.
  induction l as [|e l IH]; intros st I f Hok Hp Hf Hset Hlen; cbn [bail]; [by exists st|].
  destruct Hp as [He Hp]. rewrite refs_of_cons in Hok. cbn [length] in Hlen. pose proof (refs_of_length l).
  destruct (Z.eqb_spec (gn_glyph e) 0) as [E0|Hne].
  { rewrite decide_True in Hok by done. apply (IH st I f); [done..|lia]. }
  rewrite decide_False in Hok by done. specialize (He Hne).
  destruct (go_cells _ _ _ Hok (gn_glyph e)) as [c Hc]; [rewrite <- Permutation_middle; by left|]. rewrite Hc. cbn [obind_opt].
  unfold entry_ok in He. destruct (gn_found e).
  - assert (Hok1 : glyphs_ok (set_refcnt (gn_glyph e) (fun n => u32 (n - 1)) st) I (refs_of l)).
    { apply drop_ref_ok; [done| | |].
      - apply elem_of_app. left. by apply (Hset f (gn_sha1 e)).
      - intros n Hn. unfold UINT32_MAX in Hn. apply u32_small. lia.
      - rewrite length_app. lia. }
    destruct (IH _ I f Hok1) as (st' & Hrun & ? & ? & ?); [by apply (pending_sets st)|done|exact Hset|cbn; lia|]. by exists st'.
  - destruct He as [Hfr Hnin].
    assert (Hok1 : glyphs_ok (set_refcnt (gn_glyph e) (fun n => u32 (n - 1)) st <| gm_cells ::= delete (gn_glyph e) |>) I (refs_of l)).
    { apply (quiet_ok (st <| gm_cells ::= delete (gn_glyph e) |>)); [|by apply drop_new_ok].
      split; [apply delete_alter_eq|done..]. }
    destruct (IH _ I f Hok1) as (st' & Hrun & ? & ? & ?); [by apply (pending_sets st)|done|exact Hset|cbn; lia|]. by exists st'.
Qed.

(** ** Adding *)

(** A glyph that can be added: its image is known, or new to the depth. *)
Definition ready (st : GlyphState) (I : gallery) (f : Z) (e : GlyphNewRec) : Prop :=
  sha_of (gm_cells st) (gn_glyph e) = gn_sha1 e /\
  if gn_found e then I f !! gn_sha1 e = Some (gn_glyph e) else fresh I (gn_glyph e) /\ I f !! gn_sha1 e = None.

(** The hashes of the new images. *)
Definition new_images (l : list GlyphNewRec) : list (list Z) := gn_sha1 <$> filter (fun e => gn_found e = false) l.

(** The entries of the set afterwards. *)
Definition with_entries (m : gmap Z Z) (l : list GlyphNewRec) : gmap Z Z :=
  foldl (fun m e => <[gn_id e := gn_glyph e]> m) m l.

Lemma holders_grow sets s gs gs' id g :
  sets !! s = Some gs -> ids_of gs' = <[id := g]> (ids_of gs) ->
  (length (holders (<[s := gs']> sets)) <= S (length (holders sets)))%nat.
Proof.
  intros Hs E. destruct (ids_of gs !! id) as [g0|] eqn:Hid.
  - pose proof (Permutation_length (holders_replace sets s gs gs' id g g0 Hs E Hid)) as Hl. cbn in Hl. lia.
  - by rewrite (holders_add sets s gs gs' id g Hs E Hid).
Qed.

(** One glyph is added and the request's reference to it given up. *)
Lemma add_one_ok env st I s f gs e l n hg :
  glyphs_ok st I (gn_glyph e :: (gn_glyph <$> l)) -> gm_sets st !! s = Some gs -> gs_fdepth gs = f ->
  Forall (ready st I f) (e :: l) -> NoDup (new_images (e :: l)) ->
  global_hash st f = Some hg -> room hg (n + 1) -> room (gs_hash gs) (n + 1) -> 0 <= n ->
  Z.of_nat (length (holders (gm_sets st)) + length l) < UINT32_MAX - 8 ->
  exists st2 I2 h', (st1 <-- AddGlyph (re_glyphs env) st s (gn_glyph e) (gn_id e); FreeGlyph (re_glyphs env) st1 (gn_glyph e) f) = Ret st2 /\
    glyphs_ok st2 I2 (gn_glyph <$> l) /\ Forall (ready st2 I2 f) l /\
    gm_sets st2 = <[s := gs <| gs_hash := h' |>]> (gm_sets st) /\ models h' (<[gn_id e := gn_glyph e]> (ids_of gs)) /\
    room h' n /\ (exists hg', global_hash st2 f = Some hg' /\ room hg' n) /\ gm_ids st2 = gm_ids st /\ keeps_sha st st2.
Proof.
  intros Hok Hs <- Hready Hnd Hhg Hrg Hr Hn Hlen. apply Forall_cons in Hready as [[Hsha He] Hready].
  destruct (go_sets _ _ _ Hok s gs Hs) as [Hf _].
  assert (Hg : shared st I (gs_fdepth gs) (gn_glyph e) \/ unknown st I (gs_fdepth gs) (gn_glyph e)).
  { unfold shared, unknown. rewrite Hsha. destruct (gn_found e); [by left|by right]. }
  destruct (AddGlyph_ok (re_glyphs env) st I _ s (gn_glyph e) (gn_id e) gs n hg Hok Hs Hg Hhg Hrg Hr Hn)
    as (st1 & I1 & h1 & -> & Hok1 & Hs1 & Hm1 & Hr1 & (hg1 & Hhg1 & Hrg1) & Hsh1 & Had).
  { rewrite length_app, length_fmap. lia. }
  cbn [obind]. set (gs1 := gs <| gs_hash := h1 |>) in *.
  assert (Eids : ids_of gs1 = <[gn_id e := gn_glyph e]> (ids_of gs)) by by apply ids_models.
  pose proof (holders_grow (gm_sets st) s gs gs1 (gn_id e) (gn_glyph e) Hs Eids) as Hgrow.
  destruct (FreeGlyph_ok (re_glyphs env) st1 I1 _ (gs_fdepth gs) (gn_glyph e) Hok1 Hf Hsh1) as (st2 & I2 & -> & Hok2 & Hfr & Hsk).
  { rewrite length_app, length_fmap, Hs1. lia. }
  exists st2, I2, h1. split; [done|]. split; [done|]. split; [|split; [|split; [done|split; [done|split]]]].
  - apply Forall_forall. intros e' He'. rewrite Forall_forall in Hready. destruct (Hready e' He') as [Hsha' Hc].
    assert (Hin : gn_glyph e' ∈ gn_glyph <$> l) by by apply list_elem_of_fmap_2.
    assert (Hin1 : gn_glyph e' ∈ holders (gm_sets st1) ++ (gn_glyph <$> l)) by (apply elem_of_app; by right).
    assert (Hdiff : gn_found e' = false -> gn_sha1 e' <> gn_sha1 e /\ gn_glyph e' <> gn_glyph e).
    { intros Hnew. rewrite Hnew in Hc. destruct Hc as [Hfr' Hno']. destruct (gn_found e) eqn:Efound.
      - split; [congruence|]. intros E. rewrite <- E in He. by apply (Hfr' (gs_fdepth gs) (gn_sha1 e)).
      - unfold new_images in Hnd. rewrite filter_cons_True, fmap_cons, NoDup_cons in Hnd by done. destruct Hnd as [Hnin _].
        assert (Hne : gn_sha1 e' <> gn_sha1 e).
        { intros E. apply Hnin. rewrite <- E. apply list_elem_of_fmap_2. by apply list_elem_of_filter. }
        split; [done|]. intros E. apply Hne. by rewrite <- Hsha, <- Hsha', E. }
    split.
    + destruct (go_cells _ _ _ Hok2 (gn_glyph e')) as [c Hcell]; [apply elem_of_app; by right|].
      rewrite (frees_sha _ _ _ c Hfr Hcell), (ad_sha _ _ _ _ _ _ Had) by by right. done.
    + destruct (gn_found e') eqn:Efound.
      * apply (sk_keep _ _ _ Hsk); [done|]. apply (ad_keep _ _ _ _ _ _ Had); [by right|done].
      * destruct (Hdiff eq_refl) as [Hd1 Hd2]. destruct Hc as [Hfr' Hno']. split.
        { intros f' k Hf' Hk. apply (sk_sub _ _ _ Hsk) in Hk. destruct (ad_new _ _ _ _ _ _ Had f' k _ Hk) as [(_ & _ & E)|Hk0]; [done|].
          by apply (Hfr' f' k). }
        { apply eq_None_not_Some. intros [x Hx]. apply (sk_sub _ _ _ Hsk) in Hx.
          destruct (ad_new _ _ _ _ _ _ Had _ _ _ Hx) as [(_ & E & _)|Hk0]; [|congruence]. apply Hd1. by rewrite <- Hsha. }
  - by rewrite (fr_sets _ _ Hfr).
  - by apply (fr_room _ _ Hfr _ hg1).
  - split; [by rewrite (fr_ids _ _ Hfr), (ad_ids _ _ _ _ _ _ Had)|].
    apply (keeps_sha_trans _ st1); [apply (ad_cells _ _ _ _ _ _ Had)|exact (fr_sha _ _ Hfr)].
Qed.

Lemma add_glyphs_ok env s f l : forall st I gs hg,
  glyphs_ok st I (gn_glyph <$> l) -> gm_sets st !! s = Some gs -> gs_fdepth gs = f ->
  Forall (ready st I f) l -> NoDup (new_images l) ->
  global_hash st f = Some hg -> room hg (Z.of_nat (length l)) -> room (gs_hash gs) (Z.of_nat (length l)) ->
  Z.of_nat (length (holders (gm_sets st)) + 2 * length l) < UINT32_MAX - 8 ->
  exists st' I' h', add_glyphs env s f l st = Ret st' /\ glyphs_ok st' I' [] /\
    gm_sets st' = <[s := gs <| gs_hash := h' |>]> (gm_sets st) /\ models h' (with_entries (ids_of gs) l) /\
    gm_ids st' = gm_ids st /\ keeps_sha st st'.
Proof.
  induction l as [|e l IH]; intros st I gs hg Hok Hs Hf Hready Hnd Hhg Hrg Hr Hlen; cbn [add_glyphs].
  { exists st, I, (gs_hash gs). split; [done|]. split; [done|].
    replace (gs <| gs_hash := gs_hash gs |>) with gs by by destruct gs. split; [by rewrite insert_id|].
    split; [by apply (go_sets _ _ _ Hok s)|]. split; [done|]. apply same_images_keeps, same_images_refl. }
  cbn [length] in *. replace (Z.of_nat (S (length l))) with (Z.of_nat (length l) + 1) in * by lia.
  destruct (add_one_ok env st I s f gs e l (Z.of_nat (length l)) hg) as (st2 & I2 & h' & Hrun & Hok2 & Hready2 & Hs2 & Hm2 & Hr2 & (hg2 & Hhg2 & Hrg2) & Hi2 & Hk2); try done; [lia|lia|].
  apply obind_Ret in Hrun as (st1 & -> & Hrun). cbn [obind]. rewrite Hrun. cbn [obind].
  set (gs2 := gs <| gs_hash := h' |>) in *. assert (Eids : ids_of gs2 = <[gn_id e := gn_glyph e]> (ids_of gs)) by by apply ids_models.
  pose proof (holders_grow (gm_sets st) s gs gs2 (gn_id e) (gn_glyph e) Hs Eids) as Hgrow.
  destruct (IH st2 I2 gs2 hg2) as (st3 & I3 & h3 & Hrun3 & Hok3 & Hs3 & Hm3 & Hi3 & Hk3); try done.
  - by rewrite Hs2, lookup_insert_eq.
  - unfold new_images in *. rewrite filter_cons in Hnd. case_decide; [|done]. by apply NoDup_cons in Hnd as [_ ?].
  - rewrite Hs2. lia.
  - exists st3, I3, h3. split; [done|]. split; [done|]. rewrite Hs3, Hs2, insert_insert_eq. split; [done|].
    split; [|split; [congruence|by eapply keeps_sha_trans]].
    cbn [with_entries foldl]. unfold with_entries in Hm3. by rewrite Eids in Hm3.
Qed.
