(* ===== verification/GlyphServe.v ===== *)
(** * Requests keep the invariant (render/render.c)

    Between requests no references are held besides those of the sets, and a
    set's own count is the number of its ids. *)

From stdpp Require Import functions.
From S2P Require Import Prelude Wire Request Glyphs GlyphProbe GlyphTable GlyphHash GlyphInv GlyphFree GlyphAdd GlyphSets.
From S2P Require Import GlyphRequest GlyphCollect GlyphPending.

(** ** The state between requests *)

(** A set that a client was not allowed to create has no id, but a reference. *)
Record names_ok (sets : gmap Z GlyphSetRec) (ids : gmap Z Z) : Prop := {
  nm_set : forall id s, ids !! id = Some s -> is_Some (sets !! s);
  nm_refs : forall s gs, sets !! s = Some gs -> gs_refcnt gs = 1 `max` names_of ids s;
}.

Definition served (st : GlyphState) : Prop :=
  exists I, glyphs_ok st I [] /\ names_ok (gm_sets st) (gm_ids st).

(** How far the counts of entries and ids are from their limits. *)
Definition few (st : GlyphState) (n : Z) : Prop :=
  Z.of_nat (length (holders (gm_sets st))) + 2 * n <= MAX_ENTRIES /\ Z.of_nat (length (values (gm_ids st))) < MAX_ENTRIES.

Lemma glyphs_settled st I : glyphs_ok st I [] -> settled st I.
Proof. intros Hok f k g Hf Hk. pose proof (go_used _ _ _ Hok f k g Hf Hk) as Hin. by rewrite app_nil_r in Hin. Qed.

Lemma names_insert ids id s x : ids !! id = None -> names_of (<[id := s]> ids) x = (if decide (s = x) then 1 else 0) + names_of ids x.
Proof. intros Hid. unfold names_of. rewrite values_insert by done. apply occ_cons. Qed.
Lemma names_delete ids id s x : ids !! id = Some s -> names_of ids x = (if decide (s = x) then 1 else 0) + names_of (delete id ids) x.
Proof. intros Hid. unfold names_of. rewrite (values_delete ids id s Hid). apply occ_cons. Qed.
Lemma names_pos ids id s : ids !! id = Some s -> 1 <= names_of ids s.
Proof. intros Hid. rewrite (names_delete ids id s s Hid), decide_True by done. pose proof (occ_nonneg s (values (delete id ids))). unfold names_of. lia. Qed.
Lemma names_zero ids s : (forall id, ids !! id <> Some s) -> names_of ids s = 0.
Proof.
  intros Hno. unfold names_of. pose proof (occ_nonneg s (values ids)). destruct (decide (occ s (values ids) = 0)); [done|exfalso].
  assert (Hin : s ∈ values ids) by (apply occ_pos; lia). apply values_elem in Hin as [id Hid]. by apply (Hno id).
Qed.
Lemma names_le ids s : names_of ids s <= Z.of_nat (length (values ids)).
Proof. apply occ_le. Qed.

Section Serve.
Context (env : render_env).

(** A lookup changes the error value. *)
Lemma error_ok st I P v : glyphs_ok st I P -> glyphs_ok (st <| gm_errorValue := v |>) I P.
Proof. intros Hok. constructor; apply Hok. Qed.
Lemma error_served st v : served st -> served (st <| gm_errorValue := v |>).
Proof. intros (I & Hok & Hn). exists I. split; [by apply error_ok|done]. Qed.
Lemma lookup_set_spec st id mode :
  exists res, lookup_set env st id mode = (st <| gm_errorValue := id |>, res) /\
    forall s, res = inr s -> gm_ids st !! id = Some s.
Proof.
  eexists. split; [reflexivity|]. intros s. destruct (gm_ids st !! id) as [s'|]; [|done].
  cbv zeta. destruct (re_access env id mode =? BadValue); [done|].
  destruct (re_access env id mode =? Success); [|done]. by intros [= ->].
Qed.

(** ** Sets *)

(** A set is freed, or loses a reference. *)
Lemma names_free sets ids s gs n :
  sets !! s = Some gs -> (forall id x, ids !! id = Some x -> is_Some (sets !! x)) ->
  (forall x gx, x <> s -> sets !! x = Some gx -> gs_refcnt gx = 1 `max` names_of ids x) ->
  n = names_of ids s -> 1 <= n -> names_ok (<[s := gs <| gs_refcnt := n |>]> sets) ids.
Proof.
  intros Hs Hset Hrefs -> Hn. split.
  - intros id x Hid. destruct (decide (s = x)) as [<-|Hne]; [by rewrite lookup_insert_eq|]. rewrite lookup_insert_ne by done. by eapply Hset.
  - intros x gx [[<- <-]|[Hne Hx]]%lookup_insert_Some; [cbn; lia|by apply Hrefs].
Qed.

Lemma names_without sets ids s :
  (forall id x, ids !! id = Some x -> is_Some (sets !! x)) ->
  (forall x gx, x <> s -> sets !! x = Some gx -> gs_refcnt gx = 1 `max` names_of ids x) ->
  names_of ids s = 0 -> names_ok (delete s sets) ids.
Proof.
  intros Hset Hrefs H0. split.
  - intros id x Hid. rewrite lookup_delete_ne; [by eapply Hset|]. intros <-. pose proof (names_pos ids id s Hid). lia.
  - intros x gx [Hne Hx]%lookup_delete_Some. by apply Hrefs.
Qed.

(** Giving up one of [n + 1] references, where [n] ids are left. *)
Lemma FreeGlyphSet_served st I s gs n :
  glyphs_ok st I [] -> few st 0 -> gm_sets st !! s = Some gs ->
  (forall id x, gm_ids st !! id = Some x -> is_Some (gm_sets st !! x)) ->
  (forall x gx, x <> s -> gm_sets st !! x = Some gx -> gs_refcnt gx = 1 `max` names_of (gm_ids st) x) ->
  n = names_of (gm_ids st) s -> gs_refcnt gs = n + 1 ->
  exists st', FreeGlyphSet (re_glyphs env) st s = Ret st' /\ served st'.
Proof.
  intros Hok [Hfew Hfew2] Hs Hset Hrefs Hn Hcnt. pose proof (occ_nonneg s (values (gm_ids st))) as H0. fold (names_of (gm_ids st) s) in H0.
  pose proof (names_le (gm_ids st) s). unfold MAX_ENTRIES in *.
  assert (Hu : u32 (gs_refcnt gs - 1) = n) by (rewrite u32_small; lia).
  destruct (decide (n = 0)) as [->|Hne].
  - destruct (FreeGlyphSet_last (re_glyphs env) st I [] s gs Hok Hs Hu) as (st' & I' & Hrun & Hok' & [Es Ei _]).
    { rewrite app_nil_r. unfold MAX_ENTRIES. lia. }
    exists st'. split; [done|]. exists I'. split; [done|]. rewrite Es, Ei. by apply names_without.
  - unfold FreeGlyphSet. rewrite Hs. cbn [obind_opt]. rewrite Hu. destruct (Z.eqb_spec n 0); [done|]. cbn [negb].
    eexists. split; [reflexivity|]. exists I. split; [by apply set_refs_ok|]. apply names_free; [done..|lia].
Qed.

Lemma AddGlyphSet_served st I s id gs n :
  glyphs_ok st I [] -> few st 0 -> gm_sets st !! s = Some gs -> gm_ids st !! id = None ->
  (forall id x, gm_ids st !! id = Some x -> is_Some (gm_sets st !! x)) ->
  (forall x gx, x <> s -> gm_sets st !! x = Some gx -> gs_refcnt gx = 1 `max` names_of (gm_ids st) x) ->
  n = names_of (gm_ids st) s -> gs_refcnt gs = n + 1 ->
  exists st' rc, AddGlyphSet env st id s = Ret (st', rc) /\ served st'.
Proof.
  intros Hok Hfew Hs Hid Hset Hrefs Hn Hcnt. unfold AddGlyphSet. destruct (re_add env id).
  - eexists _, Success. split; [reflexivity|]. exists I. split; [constructor; apply Hok|]. cbn. split.
    + intros id' x [[<- <-]|[_ Hx]]%lookup_insert_Some; [done|by eapply Hset].
    + intros x gx Hx. rewrite names_insert by done. destruct (decide (s = x)) as [<-|Hne].
      * pose proof (occ_nonneg s (values (gm_ids st))) as H0. fold (names_of (gm_ids st) s) in H0. simplify_eq. lia.
      * rewrite Z.add_0_l. apply Hrefs; [congruence|done].
  - destruct (FreeGlyphSet_served st I s gs n Hok Hfew Hs Hset Hrefs Hn Hcnt) as (st' & -> & Hsv). by exists st', BadAlloc.
Qed.

Lemma ProcRenderCreateGlyphSet_served st req gsid format :
  served st -> few st 0 -> exists st' rc, ProcRenderCreateGlyphSet env st req gsid format = Ret (st', rc) /\ served st'.
Proof.
  intros Hsv Hfew. unfold ProcRenderCreateGlyphSet. destruct (size_mismatch _ _); [by exists st, BadLength|].
  set (id := swapl req gsid). destruct (LegalNewID env st id) eqn:El; cbn [negb].
  2: { eexists _, BadIDChoice. split; [reflexivity|]. by apply error_served. }
  apply andb_true_iff in El as [_ Hid%bool_decide_eq_true]. set (st1 := st <| gm_errorValue := swapl req format |>).
  assert (Hsv1 : served st1) by by apply error_served. destruct (re_format env (swapl req format)) as [rc|pf]; [by exists st1, rc|].
  destruct (format_of_depth (pf_depth pf)) as [f|] eqn:Ef; [|by exists st1, BadMatch].
  destruct (negb _); [by exists st1, BadMatch|].
  assert (Hf : depth_ok f).
  { unfold format_of_depth in Ef. unfold depth_ok. repeat (case_match; [simplify_eq; lia|]). discriminate. }
  destruct Hsv1 as (I & Hok & Hn).
  destruct (AllocateGlyphSet_ok (re_glyphs env) st1 I [] f pf Hok Hf) as (st2 & s & -> & Hok2 & Hi2 & _ & Hs2). cbn [obind].
  destruct (Z.eqb_spec s 0) as [|_]; [exists st2, BadAlloc; split; [done|]; exists I; split; [done|]; by rewrite Hs2, Hi2|].
  destruct Hs2 as (Hnone & gs & Hrefc & _ & _ & Eids & Hs2).
  assert (Hnoid : forall id', gm_ids st2 !! id' <> Some s).
  { intros id' Hid'. rewrite Hi2 in Hid'. destruct (nm_set _ _ Hn id' s Hid') as [? ?]. congruence. }
  assert (Hset2 : forall id' x, gm_ids st2 !! id' = Some x -> is_Some (gm_sets st2 !! x)).
  { intros id' x Hx. assert (x <> s) by (intros ->; by apply (Hnoid id')). rewrite Hs2, lookup_insert_ne by done.
    rewrite Hi2 in Hx. by eapply (nm_set _ _ Hn). }
  assert (Hrefs2 : forall x gx, x <> s -> gm_sets st2 !! x = Some gx -> gs_refcnt gx = 1 `max` names_of (gm_ids st2) x).
  { intros x gx Hne Hx. rewrite Hs2, lookup_insert_ne in Hx by done. rewrite Hi2. by apply (nm_refs _ _ Hn). }
  assert (Hzero : 0 = names_of (gm_ids st2) s) by (by rewrite names_zero).
  destruct (negb _).
  { eexists _, _. split; [reflexivity|]. exists I. split; [done|]. split; [done|].
    intros x gx Hx. destruct (decide (x = s)) as [->|Hne]; [|by apply Hrefs2].
    rewrite Hs2, lookup_insert_eq in Hx. simplify_eq. rewrite <- Hzero. lia. }
  apply (AddGlyphSet_served st2 I s _ gs 0); [done| | | |done..|lia].
  - destruct Hfew as [H1 H2]. split; [|by rewrite Hi2]. rewrite Hs2, holders_insert by done. by rewrite Eids, values_empty.
  - by rewrite Hs2, lookup_insert_eq.
  - by rewrite Hi2.
Qed.

Lemma ProcRenderReferenceGlyphSet_served st req gsid existing :
  served st -> few st 0 -> exists st' rc, ProcRenderReferenceGlyphSet env st req gsid existing = Ret (st', rc) /\ served st'.
Proof.
  intros Hsv Hfew. unfold ProcRenderReferenceGlyphSet. destruct (size_mismatch _ _); [by exists st, BadLength|].
  set (id := swapl req gsid). destruct (LegalNewID env st id) eqn:El; cbn [negb].
  2: { eexists _, BadIDChoice. split; [reflexivity|]. by apply error_served. }
  apply andb_true_iff in El as [_ Hid%bool_decide_eq_true].
  destruct (lookup_set_spec st (swapl req existing) DixGetAttrAccess) as ([rc|s] & -> & E2).
  { eexists _, rc. split; [reflexivity|]. by apply error_served. }
  specialize (E2 s eq_refl). destruct Hsv as (I & Hok & Hn). destruct (nm_set _ _ Hn _ _ E2) as [gs Hs]. cbn. rewrite Hs. cbn [obind_opt].
  pose proof (names_pos _ _ _ E2) as Hpos. pose proof (nm_refs _ _ Hn s gs Hs) as Hr. pose proof (names_le (gm_ids st) s).
  destruct Hfew as [Hf1 Hf2]. unfold MAX_ENTRIES in *.
  set (gs' := gs <| gs_refcnt ::= fun n => u32 (n + 1) |>).
  assert (Hr' : gs_refcnt gs' = names_of (gm_ids st) s + 1) by (cbn; rewrite u32_small; lia).
  assert (Hlen : Z.of_nat (length (holders (<[s := gs']> (gm_sets st)))) + 2 * 0 <= MAX_ENTRIES).
  { rewrite (holders_same (gm_sets st) s gs gs' Hs eq_refl). unfold MAX_ENTRIES. lia. }
  apply (AddGlyphSet_served _ I s id gs' (names_of (gm_ids st) s)); cbn; try done.
  - pose proof (set_refs_ok st I [] s gs (u32 (gs_refcnt gs + 1)) Hok Hs) as Hok'. constructor; apply Hok'.
  - by rewrite lookup_insert_eq.
  - intros id' x Hx. destruct (decide (s = x)) as [<-|Hne]; [by rewrite lookup_insert_eq|]. rewrite lookup_insert_ne by done.
    by eapply (nm_set _ _ Hn).
  - intros x gx Hne Hx. rewrite lookup_insert_ne in Hx by done. by apply (nm_refs _ _ Hn).
Qed.

Lemma ProcRenderFreeGlyphSet_served st req glyphset :
  served st -> few st 0 -> exists st' rc, ProcRenderFreeGlyphSet env st req glyphset = Ret (st', rc) /\ served st'.
Proof.
  intros Hsv Hfew. unfold ProcRenderFreeGlyphSet. destruct (size_mismatch _ _); [by exists st, BadLength|].
  destruct (lookup_set_spec st (swapl req glyphset) DixDestroyAccess) as ([rc|s] & -> & E2).
  { eexists _, rc. split; [reflexivity|]. by apply error_served. }
  specialize (E2 s eq_refl). destruct Hsv as (I & Hok & Hn). destruct (nm_set _ _ Hn _ _ E2) as [gs Hs].
  set (id := swapl req glyphset) in *. set (st1 := st <| gm_errorValue := id |> <| gm_ids ::= delete id |>).
  assert (Efree : free_set_id env (st <| gm_errorValue := id |>) id = FreeGlyphSet (re_glyphs env) st1 s).
  { unfold free_set_id. change (gm_ids (st <| gm_errorValue := id |>)) with (gm_ids st). by rewrite E2. }
  cbv beta iota. rewrite Efree.
  pose proof (names_pos _ _ _ E2) as Hpos. pose proof (nm_refs _ _ Hn s gs Hs) as Hr.
  destruct (FreeGlyphSet_served st1 I s gs (names_of (delete id (gm_ids st)) s)) as (st2 & -> & Hsv2); cbn; try done.
  - constructor; apply Hok.
  - destruct Hfew as [H1 H2]. split; [done|]. cbn. pose proof (Permutation_length (values_delete (gm_ids st) id s E2)) as Hl. cbn in Hl. lia.
  - intros id' x [_ Hx]%lookup_delete_Some. by eapply (nm_set _ _ Hn).
  - intros x gx Hne Hx. rewrite (nm_refs _ _ Hn x gx Hx), (names_delete (gm_ids st) id s x E2), decide_False by done. done.
  - pose proof (names_delete (gm_ids st) id s s E2) as Hd. rewrite decide_True in Hd by done. lia.
  - cbn [obind]. by exists st2, Success.
Qed.

(** ** Freeing glyphs *)

Lemma names_hash sets ids s gs h : sets !! s = Some gs -> names_ok sets ids -> names_ok (<[s := gs <| gs_hash := h |>]> sets) ids.
Proof.
  intros Hs [Hset Hrefs]. split.
  - intros id x Hid. destruct (decide (s = x)) as [<-|Hne]; [by rewrite lookup_insert_eq|]. rewrite lookup_insert_ne by done. by eapply Hset.
  - intros x gx [[<- <-]|[_ Hx]]%lookup_insert_Some; [exact (Hrefs s gs Hs)|by apply Hrefs].
Qed.

(** What freeing a list of ids does to a set: up to the first that it does not have. *)
Fixpoint free_ids (m : gmap Z Z) (gids : list Z) : gmap Z Z * option Z :=
  match gids with
  | [] => (m, None)
  | id :: gids' => match m !! id with Some _ => free_ids (delete id m) gids' | None => (m, Some id) end
  end.

Lemma holders_shrink sets s gs gs' id :
  sets !! s = Some gs -> ids_of gs' = delete id (ids_of gs) -> (length (holders (<[s := gs']> sets)) <= length (holders sets))%nat.
Proof.
  intros Hs E. destruct (ids_of gs !! id) as [g|] eqn:Hid.
  - rewrite (holders_remove sets s gs gs' id g Hs E Hid). cbn. lia.
  - by rewrite (holders_same sets s gs gs' Hs) by (by rewrite E, delete_id).
Qed.

Lemma free_glyphs_ok s gids : forall st I gs,
  glyphs_ok st I [] -> names_ok (gm_sets st) (gm_ids st) -> gm_sets st !! s = Some gs ->
  Z.of_nat (length (holders (gm_sets st))) < UINT32_MAX - 8 ->
  exists st' I' h', free_glyphs env s gids st =
      Ret (st', match (free_ids (ids_of gs) gids).2 with None => Success | Some _ => RenderErrBase env + BadGlyph end) /\
    glyphs_ok st' I' [] /\ names_ok (gm_sets st') (gm_ids st') /\
    gm_sets st' = <[s := gs <| gs_hash := h' |>]> (gm_sets st) /\ models h' (free_ids (ids_of gs) gids).1 /\
    match (free_ids (ids_of gs) gids).2 with None => True | Some id => gm_errorValue st' = id end.
Proof.
  induction gids as [|id gids IH]; intros st I gs Hok Hn Hs Hlen; cbn [free_glyphs free_ids].
  { exists st, I, (gs_hash gs). split; [done|]. split; [done|]. split; [done|].
    replace (gs <| gs_hash := gs_hash gs |>) with gs by by destruct gs. split; [by rewrite insert_id|].
    split; [|done]. by apply (go_sets _ _ _ Hok s). }
  destruct (DeleteGlyph_ok (re_glyphs env) st I [] s id gs Hok Hs) as (st1 & I1 & h1 & -> & Hok1 & Hs1 & Hm1 & Had).
  { by rewrite app_nil_r. }
  cbn [obind]. assert (Hn1 : names_ok (gm_sets st1) (gm_ids st1)).
  { rewrite Hs1, (ad_ids _ _ _ _ _ _ Had). by apply names_hash. }
  set (gs1 := gs <| gs_hash := h1 |>) in *. assert (Eids : ids_of gs1 = delete id (ids_of gs)) by by apply ids_models.
  destruct (ids_of gs !! id) as [g|] eqn:Hid.
  - rewrite bool_decide_true by done. pose proof (holders_shrink (gm_sets st) s gs gs1 id Hs Eids) as Hle.
    destruct (IH st1 I1 gs1 Hok1 Hn1) as (st2 & I2 & h2 & Hrun & Hok2 & Hn2 & Hs2 & Hm2 & He2).
    + by rewrite Hs1, lookup_insert_eq.
    + rewrite Hs1. lia.
    + exists st2, I2, h2. rewrite Eids in *. split; [done|]. split; [done|]. split; [done|].
      rewrite Hs2, Hs1, insert_insert_eq. by split.
  - rewrite bool_decide_false by (by intros [? ?]). eexists _, I1, h1. split; [reflexivity|]. cbn [fst snd].
    split; [by apply error_ok|]. split; [exact Hn1|]. split; [exact Hs1|]. split; [|done]. by rewrite delete_id in Hm1.
Qed.

Lemma ProcRenderFreeGlyphs_served st req glyphset :
  served st -> few st 0 -> exists st' rc, ProcRenderFreeGlyphs env st req glyphset = Ret (st', rc) /\ served st'.
Proof.
  intros (I & Hok & Hn) [Hfew _]. unfold ProcRenderFreeGlyphs.
  destruct (too_short _ _); [exists st, BadLength; split; [done|]; by exists I|].
  destruct (lookup_set_spec st (swapl req glyphset) DixRemoveAccess) as ([rc|s] & -> & E2).
  { eexists _, rc. split; [reflexivity|]. apply error_served. by exists I. }
  destruct (nm_set _ _ Hn _ _ (E2 s eq_refl)) as [gs Hs]. set (st1 := st <| gm_errorValue := swapl req glyphset |>).
  set (gids := take _ _).
  destruct (free_glyphs_ok s gids st1 I gs (error_ok _ _ _ _ Hok) Hn Hs) as (st2 & I2 & h2 & Hrun & Hok2 & Hn2 & _).
  { unfold MAX_ENTRIES, UINT32_MAX in *. change (gm_sets st1) with (gm_sets st). lia. }
  cbv zeta. eexists st2, _. split; [exact Hrun|]. by exists I2.
Qed.

(** ** Adding glyphs *)

(** The images of a request that the set's depth does not know are different. *)
Definition unknown_image (st : GlyphState) (f : Z) (sha1 : list Z) : bool :=
  match FindGlyphByHash st sha1 f with Ret g => negb (is_live g) | _ => true end.
Definition images_of (gs : GlyphSetRec) (req_len n : Z) (rest : list Z) : list (list Z) :=
  request_images env (pf_depth (gs_format gs)) (Z.to_nat n)
    (drop (Z.to_nat (4 * n)) rest) (drop (Z.to_nat (16 * n)) rest) (4 * req_len - 12 - 16 * n).
Definition distinct_images (st : GlyphState) (gs : GlyphSetRec) (req_len n : Z) (rest : list Z) : Prop :=
  NoDup (filter (fun sha1 => unknown_image st (gs_fdepth gs) sha1 = true)
    (omap (ge_sha1 (re_glyphs env)) (images_of gs req_len n rest))).

Lemma unknown_image_spec st I f sha1 :
  glyphs_ok st I [] -> depth_ok f -> unknown_image st f sha1 = bool_decide (I f !! sha1 = None).
Proof.
  intros Hok Hf. unfold unknown_image. rewrite (FindGlyphByHash_ok st I [] f sha1 Hok Hf).
  destruct (I f !! sha1) as [g|] eqn:E; [|done]. rewrite bool_decide_false by done.
  destruct (go_global _ _ _ Hok f Hf) as (h & _ & Hst). destruct (stands_cell _ _ _ _ _ Hst E) as (c & Hc & _).
  pose proof (go_cell_addr _ _ _ Hok g c Hc). by rewrite addr_live by lia.
Qed.

Lemma new_images_unknown st I f l :
  pending st I f l -> full st I f l ->
  new_images l = filter (fun sha1 => bool_decide (I f !! sha1 = None) = true) (gn_sha1 <$> l).
Proof.
  unfold new_images. induction l as [|e l IH]; [done|]. intros [He Hp] [(Hne & [_ Hn] & _) Hf]%Forall_cons.
  specialize (He Hne). unfold entry_ok in He. rewrite fmap_cons, !filter_cons. rewrite <- IH by done.
  destruct (gn_found e).
  - rewrite (decide_False (P := true = false)) by done. rewrite decide_False; [done|]. by rewrite He.
  - rewrite (decide_True (P := false = false)) by done. rewrite decide_True; [done|]. by rewrite (Hn eq_refl).
Qed.

Lemma pending_ready st I f l : pending st I f l -> full st I f l -> Forall (ready st I f) l /\ refs_of l = gn_glyph <$> l.
Proof.
  induction l as [|e l IH]; [done|]. intros [He Hp] [(Hne & [Hs Hn] & Hc) Hf]%Forall_cons. destruct (IH Hp Hf) as [IH1 IH2].
  split; [|rewrite refs_of_cons, decide_False by done; by rewrite IH2]. apply Forall_cons. split; [|done]. split; [done|].
  specialize (He Hne). unfold entry_ok in He. destruct (gn_found e); [done|]. destruct He as [? _]. split; [done|by apply Hn].
Qed.

Lemma omap_Some_fmap {A B} (f : A -> option B) (l : list A) (k : list B) : Some <$> k = f <$> l -> k = omap f l.
Proof.
  revert k. induction l as [|a l IH]; intros [|b k]; cbn; try done. intros [= E1 E2]. rewrite <- E1. f_equal. by apply IH.
Qed.

(** What a request to add glyphs may do to a set: nothing, or an entry for each
    of the glyphs [l], of which [Q] is known. *)
Record added (st : GlyphState) (s : Z) (gs : GlyphSetRec) (l : list GlyphNewRec) (Q : Prop) (o : outcome (GlyphState * Z)) : Prop := {
  added_result : exists st' I' h' rc, o = Ret (st', rc) /\ glyphs_ok st' I' [] /\ gm_ids st' = gm_ids st /\
    gm_sets st' = <[s := gs <| gs_hash := h' |>]> (gm_sets st) /\
    (rc <> Success -> models h' (ids_of gs)) /\
    (rc = Success -> Q /\ models h' (with_entries (ids_of gs) l) /\
      Forall (fun e => sha_of (gm_cells st') (gn_glyph e) = gn_sha1 e) (filter (fun e => is_Some (gm_cells st' !! gn_glyph e)) l));
}.

(** Nothing is added. *)
Lemma added_nothing st I s gs l Q st' rc :
  glyphs_ok st' I [] -> gm_sets st !! s = Some gs -> models (gs_hash gs) (ids_of gs) -> gm_sets st' = gm_sets st ->
  gm_ids st' = gm_ids st -> rc <> Success -> added st s gs l Q (Ret (st', rc)).
Proof.
  intros Hok Hs Hm Hs' Hi' Hrc. split. exists st', I, (gs_hash gs), rc. split; [done|]. split; [done|]. split; [done|].
  replace (gs <| gs_hash := gs_hash gs |>) with gs by by destruct gs. by rewrite insert_id.
Qed.

Section Finish.
Context (st st3 : GlyphState) (I : gallery) (s n : Z) (gs : GlyphSetRec) (l : list GlyphNewRec) (remain : Z) (err : option Z) (Q : Prop).
Hypothesis (Hok : glyphs_ok st3 I (refs_of l)) (Hset : settled st3 I) (Hp : pending st3 I (gs_fdepth gs) l).
Hypothesis (Hs : gm_sets st !! s = Some gs) (Es : gm_sets st3 = gm_sets st) (Ei : gm_ids st3 = gm_ids st).
Hypothesis (Hn : 0 <= n <= 107374182) (Hl : Z.of_nat (length l) <= n).
Hypothesis (Hfew : Z.of_nat (length (holders (gm_sets st))) + 2 * n <= MAX_ENTRIES).
Hypothesis (Hfull : err = None -> full st3 I (gs_fdepth gs) l /\ Z.of_nat (length l) = n /\ NoDup (new_images l) /\ Q).

Lemma set_of_request : gm_sets st3 !! s = Some gs.
Proof. by rewrite Es. Qed.

Lemma bail_added st4 e h' :
  glyphs_ok st4 I (refs_of l) -> gm_sets st4 = <[s := gs <| gs_hash := h' |>]> (gm_sets st) -> gm_ids st4 = gm_ids st ->
  models h' (ids_of gs) -> e <> Success -> added st s gs l Q (st2 <-- bail l st4; Ret (st2, e)).
Proof.
  intros Hok4 Hs4 Hi4 Hm He. set (gs' := gs <| gs_hash := h' |>) in *. assert (Eids : ids_of gs' = ids_of gs) by by apply ids_models.
  pose proof (holders_same (gm_sets st) s gs gs' Hs Eids) as Hp4.
  destruct (go_sets _ _ _ Hok s gs set_of_request) as [Hf _].
  destruct (bail_ok l st4 I (gs_fdepth gs) Hok4) as (st5 & -> & Hok5 & Hs5 & Hi5).
  - revert Hp. clear -Hs4 Hp4 Es. induction l as [|e0 l0 IH]; [done|]. intros [H0 Hl0]. split; [|by apply IH].
    intros Hne. specialize (H0 Hne). unfold entry_ok in *. destruct (gn_found e0); [done|]. by rewrite Hs4, Hp4, <- Es.
  - done.
  - intros f k g Hf' Hk. rewrite Hs4, Hp4, <- Es. by apply (Hset f k).
  - rewrite Hs4, Hp4. unfold MAX_ENTRIES, UINT32_MAX in *. lia.
  - split. exists st5, I, h', e. cbn [obind]. split; [done|]. split; [done|]. split; [congruence|].
    split; [by rewrite Hs5, Hs4|]. done.
Qed.

Lemma finish_added : err <> Some Success -> added st s gs l Q (finish_glyphs env st3 s (gs_fdepth gs) n l remain err).
Proof.
  intros Herr. destruct (go_sets _ _ _ Hok s gs set_of_request) as [Hf Hm].
  assert (Hkeep : gm_sets st3 = <[s := gs <| gs_hash := gs_hash gs |>]> (gm_sets st)).
  { replace (gs <| gs_hash := gs_hash gs |>) with gs by by destruct gs. by rewrite insert_id. }
  unfold finish_glyphs. destruct err as [e|].
  { apply (bail_added st3 e (gs_hash gs)); [done..|]. congruence. }
  destruct (negb _); [by apply (bail_added st3 BadLength (gs_hash gs))|].
  destruct (Hfull eq_refl) as (Hfull' & Hlen & Hnd & HQ). destruct (pending_ready _ _ _ _ Hp Hfull') as [Hready Erefs].
  pose proof Hok as Hok'. rewrite Erefs in Hok'.
  destruct (ResizeGlyphSet_ok (re_glyphs env) st3 I _ s gs n Hok' set_of_request) as (st4 & ok & h4 & -> & Hok4 & Ec4 & Hs4 & Hm4 & Hi4 & _ & Hroom).
  { lia. }
  { rewrite length_app, length_fmap, Es. lia. }
  cbn [obind]. rewrite Es in Hs4. rewrite Ei in Hi4. destruct ok; cbn [negb].
  2: { apply (bail_added st4 BadAlloc h4); [by rewrite Erefs|done..]. }
  destruct Hroom as (Hr4 & hg & Hhg & Hrg). set (gs4 := gs <| gs_hash := h4 |>) in *.
  assert (Eids : ids_of gs4 = ids_of gs) by by apply ids_models.
  pose proof (holders_same (gm_sets st) s gs gs4 Hs Eids) as Hp4.
  destruct (add_glyphs_ok env s (gs_fdepth gs) l st4 I gs4 hg) as (st5 & I5 & h5 & -> & Hok5 & Hs5 & Hm5 & Hi5 & Hk5); try done.
  - by rewrite Hs4, lookup_insert_eq.
  - eapply Forall_impl; [exact Hready|]. intros e [He1 He2]. split; [by rewrite Ec4|done].
  - by rewrite Hlen.
  - by rewrite Hlen.
  - rewrite Hs4, Hp4. unfold MAX_ENTRIES, UINT32_MAX in *. lia.
  - split. exists st5, I5, h5, Success. cbn [obind]. split; [done|]. split; [done|]. split; [congruence|].
    split; [by rewrite Hs5, Hs4, insert_insert_eq|]. split; [done|]. intros _. split; [done|]. split; [by rewrite Eids in Hm5|].
    apply Forall_forall. intros e [[c' Hc'] He]%list_elem_of_filter. rewrite Forall_forall in Hready.
    destruct (Hready e He) as [Hsha _]. destruct (Hk5 _ _ Hc') as (c & Hc & E).
    rewrite <- Hsha, <- Ec4. unfold sha_of. by rewrite Hc', Hc.
Qed.
End Finish.

(** The glyphs of a request: its ids, and its images by their hashes. *)
Definition of_request (gs : GlyphSetRec) (req_len n : Z) (rest : list Z) (l : list GlyphNewRec) : Prop :=
  gn_id <$> l = take (Z.to_nat n) (words32 rest) /\
  Some <$> (gn_sha1 <$> l) = ge_sha1 (re_glyphs env) <$> images_of gs req_len n rest /\
  length l = Z.to_nat n.

Lemma AddGlyphs_native_ok st I gs req_len glyphset nglyphs rest s :
  glyphs_ok st I [] -> lookup_set env st glyphset DixAddAccess = (st <| gm_errorValue := glyphset |>, inr s) ->
  gm_sets st !! s = Some gs -> Z.of_nat (length rest) = 4 * req_len - 12 -> few st (0 `max` i32 nglyphs) ->
  distinct_images st gs req_len (i32 nglyphs) rest ->
  exists l, added st s gs l (of_request gs req_len (i32 nglyphs) rest l) (AddGlyphs_native env st req_len glyphset nglyphs rest).
Proof.
  intros Hok Hlook Hs Hrest [Hfew _] Hdist. unfold AddGlyphs_native. rewrite Hlook.
  set (st1 := st <| gm_errorValue := glyphset |>). change (gm_sets st1) with (gm_sets st). rewrite Hs. cbn [obind_opt].
  destruct (go_sets _ _ _ Hok s gs Hs) as [Hf Hm]. set (n := i32 nglyphs) in *.
  assert (Hok1 : glyphs_ok st1 I []) by by apply error_ok.
  destruct (u64 n >? UINT32_MAX / 40) eqn:Ebig; [exists []; by apply (added_nothing st I)|].
  assert (Hn0 : 0 <= n <= 107374182).
  { rewrite Z.gtb_ltb in Ebig. apply Z.ltb_ge in Ebig. unfold u64, UINT32_MAX in Ebig. change (4294967295 / 40) with 107374182 in Ebig.
    assert (Hr : -2147483648 <= n < 2147483648) by (unfold n, i32; pose proof (Z.mod_pos_bound (nglyphs + 2147483648) 4294967296 ltac:(lia)); lia).
    Z.div_mod_to_equations. lia. }
  assert (Hal : exists ok st2, (if n <=? 256 then (true, st1) else gl_alloc (re_glyphs env) st1 (40 * n)) = (ok, st2) /\ quiet st st2).
  { unfold gl_alloc. destruct (n <=? 256); eexists _, _; (split; [reflexivity|by split]). }
  destruct Hal as (ok & st2 & -> & Hq). cbv beta iota.
  assert (Hok2 : glyphs_ok st2 I []) by by apply (quiet_ok st).
  assert (Hno : forall rc, rc <> Success -> exists l, added st s gs l (of_request gs req_len n rest l) (Ret (st2, rc))).
  { intros rc Hrc. exists []. apply (added_nothing st I); [done..|apply Hq|apply Hq|done]. }
  destruct ok; cbn [negb]; [|by apply Hno].
  destruct (Z.gtb_spec (12 + 4 * n) (4 * req_len)); cbn [orb]; [by apply Hno|].
  destruct (Z.gtb_spec (12 + 16 * n) (4 * req_len)); [by apply Hno|].
  pose proof (qu_sets _ _ Hq) as Hs2.
  destruct (collect_glyphs_ok env (gs_fdepth gs) (pf_depth (gs_format gs)) I (Z.to_nat n) st2 rest (drop (Z.to_nat (4 * n)) rest)
    (drop (Z.to_nat (16 * n)) rest) (4 * req_len - 12 - 16 * n) []) as (st3 & l & remain & err & -> & Hga & Hok3 & Hp3 & Herrs & Hll & Hend); try done.
  - by apply Forall_nil.
  - by apply glyphs_settled.
  - rewrite length_drop. lia.
  - lia.
  - rewrite Hs2. unfold MAX_ENTRIES, UINT32_MAX in *. cbn [length]. lia.
  - cbn [obind]. exists l. cbn [length] in *.
    assert (Hs3 : gm_sets st3 = gm_sets st) by (rewrite (ga_sets _ _ Hga); apply Hq).
    apply (finish_added st st3 I s n gs l remain err _ Hok3); try done.
    + intros f' k x Hf' Hk. rewrite Hs3. by apply (glyphs_settled st I Hok f' k).
    + rewrite (ga_ids _ _ Hga). apply Hq.
    + lia.
    + lia.
    + intros ->. destruct (Hend eq_refl) as (Hfull & Hlen & Hids & Hshas). split; [done|]. split; [lia|].
      rewrite (list_fmap_compose gn_sha1 Some l) in Hshas. cbn in Hshas. split.
      * rewrite (new_images_unknown st3 I (gs_fdepth gs) l Hp3 Hfull), (omap_Some_fmap _ _ _ Hshas). unfold distinct_images in Hdist.
        erewrite list_filter_iff; [exact Hdist|]. intros x. cbn. by rewrite (unknown_image_spec st I).
      * split; [done|]. by split.
Qed.

(** The parts of a request that its handler looks at. *)
Definition native_fields (req : glyph_req) (glyphset nglyphs : Z) : Z * Z * list Z :=
  (swapl req glyphset, swapl req nglyphs,
   if gr_swapped req then swap_arrays (swapl req nglyphs) (gr_rest req) else gr_rest req).

(** A request that cannot be undefined: its images are different, and the set is
    far from the largest. *)
Definition fair_add (st : GlyphState) (req : glyph_req) (glyphset nglyphs : Z) : Prop :=
  let '(id, n, rest) := native_fields req glyphset nglyphs in
  Z.of_nat (length (gr_rest req)) = 4 * gr_req_len req - 12 /\ 0 <= n < 4294967296 /\ few st (0 `max` i32 n) /\
  forall s gs, gm_ids st !! id = Some s -> gm_sets st !! s = Some gs -> distinct_images st gs (gr_req_len req) (i32 n) rest.

Lemma length_swap_arrays n rest :
  0 <= n -> 16 * n <= Z.of_nat (length rest) -> length (swap_arrays n rest) = length rest.
Proof.
  intros Hn Hlen. unfold swap_arrays. set (a := take _ rest). set (b := take _ (drop _ rest)).
  assert (Ha : length a = (4 * Z.to_nat n)%nat) by (unfold a; rewrite length_take; lia).
  assert (Hb : length b = (2 * (6 * Z.to_nat n))%nat) by (unfold b; rewrite length_take, length_drop; lia).
  unfold SwapRestL, SwapRestS. rewrite SwapLongs_all, SwapShorts_all, !length_app, length_drop.
  assert (H4 : forall l, length (mjoin (le32 <$> l)) = (4 * length l)%nat)
    by (induction l as [|x l IH]; [done|]; rewrite fmap_cons, mjoin_cons, length_app, IH; cbn; lia).
  assert (H2 : forall l, length (mjoin (le16 <$> l)) = (2 * length l)%nat)
    by (induction l as [|x l IH]; [done|]; rewrite fmap_cons, mjoin_cons, length_app, IH; cbn; lia).
  rewrite H4, H2, !length_fmap, (length_words32 _ a Ha), (length_words16 _ b Hb). lia.
Qed.

(** A request to add glyphs to a set. *)
Lemma ProcRenderAddGlyphs_ok st I req glyphset nglyphs s gs :
  0 <= RenderErrBase env -> glyphs_ok st I [] -> fair_add st req glyphset nglyphs ->
  gm_ids st !! swapl req glyphset = Some s -> gm_sets st !! s = Some gs ->
  (exists st' rc, ProcRenderAddGlyphs env st req glyphset nglyphs = Ret (st', rc) /\ rc <> Success /\
    quiet st st') \/
  exists l, added st s gs l (of_request gs (gr_req_len req) (i32 (swapl req nglyphs)) (native_fields req glyphset nglyphs).2 l)
    (ProcRenderAddGlyphs env st req glyphset nglyphs).
Proof.
  intros Hbase Hok (Hlen & Hn & Hfew & Hdist) Hid Hs. specialize (Hdist s gs Hid Hs). unfold ProcRenderAddGlyphs.
  assert (Hquit : forall rc, rc <> Success -> exists st' rc', Ret (st, rc) = Ret (st', rc') /\ rc' <> Success /\ quiet st st').
  { intros rc Hrc. by exists st, rc. }
  destruct (too_short _ _); [left; by apply Hquit|].
  assert (Hnative : forall rest, Z.of_nat (length rest) = 4 * gr_req_len req - 12 ->
    distinct_images st gs (gr_req_len req) (i32 (swapl req nglyphs)) rest ->
    (exists st' rc, AddGlyphs_native env st (gr_req_len req) (swapl req glyphset) (swapl req nglyphs) rest = Ret (st', rc) /\
       rc <> Success /\ quiet st st') \/
    exists l, added st s gs l (of_request gs (gr_req_len req) (i32 (swapl req nglyphs)) rest l)
      (AddGlyphs_native env st (gr_req_len req) (swapl req glyphset) (swapl req nglyphs) rest)).
  { intros rest Hrest Hd. destruct (lookup_set_spec st (swapl req glyphset) DixAddAccess) as ([rc|s'] & Hlook & Hs').
    - destruct (decide (rc = Success)) as [->|Hrc].
      + exfalso. unfold lookup_set in Hlook. rewrite Hid in Hlook. injection Hlook as Hlook. cbv zeta in Hlook.
        unfold BadGlyphSet, Success in *. destruct (_ =? BadValue); [injection Hlook; lia|].
        destruct (Z.eqb_spec (re_access env (swapl req glyphset) DixAddAccess) 0); [done|]. congruence.
      + left. eexists _, rc. unfold AddGlyphs_native. rewrite Hlook. split; [reflexivity|]. split; [done|by split].
    - right. assert (s' = s) as -> by (specialize (Hs' s' eq_refl); congruence). by apply (AddGlyphs_native_ok st I). }
  unfold native_fields in *. cbn [snd fst] in *. destruct (gr_swapped req); [|by apply Hnative].
  destruct (negb _); [left; by apply Hquit|]. destruct (Z.gtb_spec (12 + 4 * swapl req nglyphs) (4 * gr_req_len req)); [left; by apply Hquit|].
  cbn [orb]. destruct (Z.gtb_spec (12 + 16 * swapl req nglyphs) (4 * gr_req_len req)); [left; by apply Hquit|].
  apply Hnative; [|done]. rewrite length_swap_arrays; lia.
Qed.
End Serve.
