(* ===== verification/GlyphScreen.v ===== *)
(** * Screens that go away, and runs (render/glyph.c, GlyphUninit)

    A screen takes its pictures of all glyphs with it.  [handle] is what the
    server does with a request on glyph sets or with such a screen; the runs of
    interest start without sets. *)

From stdpp Require Import functions.
From S2P Require Import Prelude Wire Request Glyphs GlyphProbe GlyphTable GlyphHash GlyphInv GlyphFree GlyphAdd GlyphSets.
From S2P Require Import GlyphRequest GlyphCollect GlyphPending GlyphServe.

(** ** A screen goes away *)

(** What changes are pictures. *)
Record repainted (st st' : GlyphState) : Prop := {
  rp_sets : gm_sets st' = gm_sets st;
  rp_ids : gm_ids st' = gm_ids st;
  rp_global : gm_global st' = gm_global st;
  rp_next : gm_next st' = gm_next st;
  rp_cells : forall g, match gm_cells st !! g with
    | Some c => exists c', gm_cells st' !! g = Some c' /\ gl_refcnt c' = gl_refcnt c /\ gl_sha1 c' = gl_sha1 c
    | None => gm_cells st' !! g = None
    end;
}.

Lemma repainted_refl_cells (cells cells' : gmap Z GlyphRec) :
  cells' = cells -> forall g, match cells !! g with
    | Some c => exists c', cells' !! g = Some c' /\ gl_refcnt c' = gl_refcnt c /\ gl_sha1 c' = gl_sha1 c
    | None => cells' !! g = None
    end.
Proof. intros -> g. destruct (cells !! g) as [c|]; [by exists c|done]. Qed.

#[export] Instance repainted_preorder : PreOrder repainted.
Proof.
  split.
  - intros st. split; [done..|by apply repainted_refl_cells].
  - intros st1 st2 st3 [A1 A2 A3 A4 A5] [B1 B2 B3 B4 B5]. split; [congruence..|]. intros g. specialize (A5 g). specialize (B5 g).
    destruct (gm_cells st1 !! g) as [c|]; [|by rewrite A5 in B5]. destruct A5 as (c2 & H2 & E2 & E2'). rewrite H2 in B5.
    destruct B5 as (c3 & H3 & E3 & E3'). exists c3. split; [done|]. split; congruence.
Qed.

Lemma repainted_ok st st' I P : repainted st st' -> glyphs_ok st I P -> glyphs_ok st' I P.
Proof.
  intros [E1 E2 E3 E4 E5] Hok.
  assert (Himg : same_images (gm_cells st) (gm_cells st')).
  { intros g. specialize (E5 g). destruct (gm_cells st !! g) as [c|]; [|done]. destruct E5 as (c' & ? & _ & ?). by exists c'. }
  assert (Hok' : glyphs_ok (st <| gm_cells := gm_cells st' |>) I P).
  { apply (cells_ok st I P _ P Hok Himg); [|done]. intros g c' Hc'. specialize (E5 g).
    destruct (same_images_back _ _ _ _ Himg Hc') as [c Hc]. rewrite Hc in E5. destruct E5 as (c2 & H2 & Er & _).
    rewrite <- (go_refs _ _ _ Hok g c Hc). congruence. }
  eapply quiet_ok; [|exact Hok']. by split.
Qed.

Lemma repainted_on st st' g : repainted st st' -> is_Some (gm_cells st !! g) -> is_Some (gm_cells st' !! g).
Proof. intros Hr [c Hc]. pose proof (rp_cells _ _ Hr g) as E. rewrite Hc in E. by destruct E as (c' & -> & _). Qed.

Lemma uninit_ref_spec screen gpu r st :
  (ref_live r -> is_Some (gm_cells st !! r_glyph r)) ->
  exists st', uninit_ref screen gpu r st = Ret st' /\ repainted st st'.
Proof.
  intros Hr. unfold uninit_ref. destruct (is_live (r_glyph r)) eqn:El; cbn [negb]; [|by exists st].
  destruct (Hr El) as [c Hc]. rewrite Hc. cbn [obind_opt]. eexists. split; [reflexivity|].
  set (p := if gpu then 0 else _). destruct (p =? 0); [split; [done..|by apply repainted_refl_cells]|].
  split; [done..|]. intros g. cbn. destruct (decide (r_glyph r = g)) as [<-|Hne].
  - rewrite Hc, lookup_insert_eq. by eexists.
  - rewrite lookup_insert_ne by done. by apply repainted_refl_cells.
Qed.

Lemma uninit_refs_spec screen gpu l : forall st,
  (forall r, r ∈ l -> ref_live r -> is_Some (gm_cells st !! r_glyph r)) ->
  exists st', uninit_refs screen gpu l st = Ret st' /\ repainted st st'.
Proof.
  induction l as [|r l IH]; intros st Hl; cbn [uninit_refs]; [by exists st|].
  destruct (uninit_ref_spec screen gpu r st) as (st1 & -> & H1); [by apply Hl; left|]. cbn [obind].
  destruct (IH st1) as (st2 & -> & H2).
  { intros r' Hr' Hlive. apply (repainted_on st); [done|]. apply Hl; [by right|done]. }
  exists st2. split; [done|by etrans].
Qed.

Lemma uninit_depths_spec screen gpu l : forall st,
  (forall h, h ∈ l -> exists m, stands (gm_cells st) h m) ->
  exists st', uninit_depths screen gpu l st = Ret st' /\ repainted st st'.
Proof.
  induction l as [|h l IH]; intros st Hl; cbn [uninit_depths]; [by exists st|].
  assert (Hone : exists st1, (match hashSet h with
    | None => Ret st
    | Some hs => t <-? table h; if Z.of_nat (length t) <? hs_size hs then Undefined else
        uninit_refs screen gpu (take (Z.to_nat (hs_size hs)) t) st end) = Ret st1 /\ repainted st st1).
  { destruct (Hl h ltac:(left)) as (m & [(hs & t & -> & _ & Hok & Hv & _)|[-> _]]); [|by exists st]. cbn [hashSet table obind_opt].
    pose proof (tok_length _ _ _ _ Hok) as Hlen. destruct (Z.ltb_spec (Z.of_nat (length t)) (hs_size hs)); [lia|].
    apply uninit_refs_spec. intros r Hr Hlive. rewrite take_ge in Hr by lia. apply list_elem_of_lookup in Hr as [i Hi]. by apply (Hv i r). }
  destruct Hone as (st1 & -> & H1). cbn [obind]. destruct (IH st1) as (st2 & -> & H2).
  - intros h' Hh'. destruct (Hl h' ltac:(by right)) as [m Hm]. exists m. eapply stands_cells; [|exact Hm].
    intros k g c _ Hc. pose proof (rp_cells _ _ H1 g) as E. rewrite Hc in E. destruct E as (c' & ? & _ & ?). by exists c'.
  - exists st2. split; [done|by etrans].
Qed.

Lemma GlyphUninit_ok st I P screen gpu :
  glyphs_ok st I P -> exists st', GlyphUninit st screen gpu = Ret st' /\ repainted st st'.
Proof.
  intros Hok. apply uninit_depths_spec. intros h [i [Hi Hlt]%lookup_take_Some]%list_elem_of_lookup.
  unfold GlyphFormatNum in Hlt. assert (Hf : depth_ok (Z.of_nat i)) by (unfold depth_ok; lia).
  destruct (go_global _ _ _ Hok _ Hf) as (h' & Hh' & Hst). exists (I (Z.of_nat i)).
  unfold global_hash in Hh'. rewrite Nat2Z.id in Hh'. congruence.
Qed.

(** ** Runs *)

(** What can happen to glyph sets. *)
Inductive glyph_event :=
  | CreateGlyphSet (req : glyph_req) (gsid format : Z)
  | ReferenceGlyphSet (req : glyph_req) (gsid existing : Z)
  | FreeSet (req : glyph_req) (glyphset : Z)
  | AddGlyphs (req : glyph_req) (glyphset nglyphs : Z)
  | FreeGlyphs (req : glyph_req) (glyphset : Z)
  | CloseScreen (screen : nat) (gpu : bool).

Section Runs.
Context (env : render_env).

Definition handle (st : GlyphState) (e : glyph_event) : outcome (GlyphState * Z) :=
  match e with
  | CreateGlyphSet req gsid format => ProcRenderCreateGlyphSet env st req gsid format
  | ReferenceGlyphSet req gsid existing => ProcRenderReferenceGlyphSet env st req gsid existing
  | FreeSet req glyphset => ProcRenderFreeGlyphSet env st req glyphset
  | AddGlyphs req glyphset nglyphs => ProcRenderAddGlyphs env st req glyphset nglyphs
  | FreeGlyphs req glyphset => ProcRenderFreeGlyphs env st req glyphset
  | CloseScreen screen gpu => st1 <-- GlyphUninit st screen gpu; Ret (st1, Success)
  end.

(** Requests are as long as they say, tables stay below the largest size, and a
    request to add glyphs has no two images alike that are new to the depth. *)
Definition fair (st : GlyphState) (e : glyph_event) : Prop :=
  match e with AddGlyphs req glyphset nglyphs => fair_add env st req glyphset nglyphs | _ => few st 0 end.

(** The server without glyph sets. *)
Definition no_glyphs : GlyphState := GS ∅ ∅ (replicate (Z.to_nat GlyphFormatNum) (Hash None None 0)) ∅ 2 0 0 0 [] 0.

Inductive reachable : GlyphState -> Prop :=
  | reach_start : reachable no_glyphs
  | reach_step st e st' rc : reachable st -> fair st e -> handle st e = Ret (st', rc) -> reachable st'.

Lemma no_glyphs_served : served no_glyphs.
Proof.
  exists (fun _ => ∅). split.
  - constructor; cbn; try (intros *; rewrite ?lookup_empty; done).
    + intros f Hf. exists (Hash None None 0). split; [|by right]. unfold global_hash. cbn [gm_global no_glyphs].
      apply lookup_replicate_2. unfold depth_ok, GlyphFormatNum in *. lia.
    + intros g Hg. unfold holders in Hg. rewrite map_to_list_empty in Hg. by apply not_elem_of_nil in Hg.
  - split; intros *; cbn; by rewrite lookup_empty.
Qed.

Lemma few_mono st n : 0 <= n -> few st n -> few st 0.
Proof. intros Hn [H1 H2]. split; [lia|done]. Qed.

Lemma ProcRenderAddGlyphs_served st req glyphset nglyphs :
  0 <= RenderErrBase env -> served st -> fair_add env st req glyphset nglyphs ->
  exists st' rc, ProcRenderAddGlyphs env st req glyphset nglyphs = Ret (st', rc) /\ served st'.
Proof.
  intros Hbase (I & Hok & Hn) Hfair. destruct (gm_ids st !! swapl req glyphset) as [s|] eqn:Hid.
  - destruct (nm_set _ _ Hn _ _ Hid) as [gs Hs].
    destruct (ProcRenderAddGlyphs_ok env st I req glyphset nglyphs s gs Hbase Hok Hfair Hid Hs)
      as [(st' & rc & -> & _ & Hq)|(l & [(st' & I' & h' & rc & -> & Hok' & Hi' & Hs' & _)])].
    + exists st', rc. split; [done|]. exists I. split; [by apply (quiet_ok st)|]. by rewrite (qu_sets _ _ Hq), (qu_ids _ _ Hq).
    + exists st', rc. split; [done|]. exists I'. split; [done|]. rewrite Hs', Hi'. by apply names_hash.
  - assert (Hsv : served st) by by exists I. assert (Hq : forall rc : Z, exists st' rc', Ret (st, rc) = Ret (st', rc') /\ served st') by (intros rc; by exists st, rc).
    assert (Hnat : forall rest, exists st' rc, AddGlyphs_native env st (gr_req_len req) (swapl req glyphset) (swapl req nglyphs) rest = Ret (st', rc) /\ served st').
    { intros rest. unfold AddGlyphs_native. destruct (lookup_set_spec env st (swapl req glyphset) DixAddAccess) as ([rc|s] & -> & Hs).
      - eexists _, rc. split; [reflexivity|]. by apply error_served.
      - specialize (Hs s eq_refl). congruence. }
    unfold ProcRenderAddGlyphs. destruct (too_short _ _); [apply Hq|]. cbv zeta. destruct (gr_swapped req); [|apply Hnat].
    destruct (negb _); [apply Hq|]. destruct (_ || _); [apply Hq|apply Hnat].
Qed.

(** Every event is handled, and keeps the state in order. *)
Lemma handle_served st e : 0 <= RenderErrBase env -> served st -> fair st e -> exists st' rc, handle st e = Ret (st', rc) /\ served st'.
Proof.
  intros Hbase Hsv Hfair. destruct e as [req gsid format|req gsid existing|req glyphset|req glyphset nglyphs|req glyphset|screen gpu]; cbn [handle].
  - by apply ProcRenderCreateGlyphSet_served.
  - by apply ProcRenderReferenceGlyphSet_served.
  - by apply ProcRenderFreeGlyphSet_served.
  - by apply ProcRenderAddGlyphs_served.
  - by apply ProcRenderFreeGlyphs_served.
  - destruct Hsv as (I & Hok & Hn). destruct (GlyphUninit_ok st I [] screen gpu Hok) as (st' & -> & Hr). cbn [obind].
    exists st', Success. split; [done|]. exists I. split; [by apply (repainted_ok st)|]. by rewrite (rp_sets _ _ Hr), (rp_ids _ _ Hr).
Qed.

Lemma reachable_served st : 0 <= RenderErrBase env -> reachable st -> served st.
Proof.
  intros Hbase. induction 1 as [|st e st' rc _ IH Hfair Hrun]; [apply no_glyphs_served|].
  destruct (handle_served st e Hbase IH Hfair) as (st2 & rc2 & Hrun2 & Hsv). congruence.
Qed.
End Runs.
