(* ===== verification/GlyphPolicy.v ===== *)
(** * What clients can rely on (render/glyph.c, render/render.c)

    Glyphs that were added are found; glyphs live as long as a set has an entry
    for them, once for each image; every request is handled.  The last holds for
    requests whose new images are different: two that are alike end in a glyph
    that the server cannot free. *)

From stdpp Require Import functions.
From S2P Require Import Prelude Wire Request Glyphs GlyphProbe GlyphTable GlyphHash GlyphInv GlyphFree GlyphAdd GlyphSets.
From S2P Require Import GlyphRequest GlyphCollect GlyphPending GlyphServe GlyphScreen.

(** ** Lookups *)

Lemma FindGlyph_ok st I P s gs id :
  glyphs_ok st I P -> gm_sets st !! s = Some gs ->
  FindGlyph st s id = Ret (match ids_of gs !! id with Some g => g | None => 0 end).
Proof.
  intros Hok Hs. destruct (go_sets _ _ _ Hok s gs Hs) as [_ Hm]. unfold FindGlyph. rewrite Hs. cbn [obind_opt].
  destruct (FindGlyphRef_models (gm_cells st) (gs_hash gs) (ids_of gs) id Hm) as (i & r & Hfind & Ha & Hr).
  cbn [gk_sig gk_sha1 id_keys] in Hfind. rewrite Hfind. cbn [obind]. rewrite (read_answer (gs_hash gs) id i r Ha). cbn [obind].
  rewrite Hr. destruct (decide (ref_live r)) as [Hl|Hl].
  - apply live_not in Hl as [_ Hd]. by apply Z.eqb_neq in Hd as ->.
  - by apply not_live in Hl as [->| ->].
Qed.

(** The last glyph of a request for an id. *)
Lemma with_entries_last l : forall m i e,
  l !! i = Some e -> (forall j e', l !! j = Some e' -> (i < j)%nat -> gn_id e' <> gn_id e) ->
  with_entries m l !! gn_id e = Some (gn_glyph e).
Proof.
  unfold with_entries. induction l as [|e0 l IH] using rev_ind; intros m i e Hi Hlast; [done|].
  rewrite foldl_app. cbn. apply lookup_app_Some in Hi as [Hi|[Hi He]].
  - rewrite lookup_insert_ne.
    + apply (IH m i); [done|]. intros j e' Hj. apply (Hlast j). by apply lookup_app_l_Some.
    + apply (Hlast (length l)); [by rewrite list_lookup_middle|]. by eapply lookup_lt_Some.
  - apply list_lookup_singleton_Some in He as [_ <-]. by rewrite lookup_insert_eq.
Qed.
Lemma with_entries_other l : forall m id, id ∉ gn_id <$> l -> with_entries m l !! id = m !! id.
Proof.
  unfold with_entries. induction l as [|e l IH]; intros m id Hid; [done|]. cbn in *. apply not_elem_of_cons in Hid as [Hne Hid].
  by rewrite IH, lookup_insert_ne.
Qed.

(** ** Adding *)

Section Add.
Context (env : render_env) (st : GlyphState) (req : glyph_req) (glyphset nglyphs s : Z) (gs : GlyphSetRec).
Context (Hbase : 0 <= RenderErrBase env) (Hreach : reachable env st) (Hfair : fair_add env st req glyphset nglyphs).
Context (Hid : gm_ids st !! swapl req glyphset = Some s) (Hs : gm_sets st !! s = Some gs).

(** The ids of the request, and its images. *)
Definition request_ids : list Z :=
  take (Z.to_nat (i32 (swapl req nglyphs))) (words32 (native_fields req glyphset nglyphs).2).
Definition request_glyphs : list (list Z) :=
  images_of env gs (gr_req_len req) (i32 (swapl req nglyphs)) (native_fields req glyphset nglyphs).2.

Lemma AddGlyphs_spec st' rc :
  ProcRenderAddGlyphs env st req glyphset nglyphs = Ret (st', rc) ->
  if decide (rc = Success) then
    (forall i id image sha1, request_ids !! i = Some id -> request_glyphs !! i = Some image ->
       ge_sha1 (re_glyphs env) image = Some sha1 -> (forall j, (i < j)%nat -> request_ids !! j <> Some id) ->
       exists g c, FindGlyph st' s id = Ret g /\ gm_cells st' !! g = Some c /\ gl_sha1 c = sha1) /\
    length request_ids = length request_glyphs /\
    (forall id, id ∉ request_ids -> FindGlyph st' s id = FindGlyph st s id)
  else forall id, FindGlyph st' s id = FindGlyph st s id.
Proof using Hbase Hreach Hfair Hid Hs.
  intros Hrun. destruct (reachable_served env st Hbase Hreach) as (I & Hok & Hn).
  destruct (ProcRenderAddGlyphs_ok env st I req glyphset nglyphs s gs Hbase Hok Hfair Hid Hs)
    as [(st2 & rc2 & Hrun2 & Hrc & Hq)|(l & [(st2 & I2 & h2 & rc2 & Hrun2 & Hok2 & _ & Hs2 & Hbad & Hgood)])];
    rewrite Hrun2 in Hrun; injection Hrun as -> ->.
  { rewrite decide_False by done. intros id. rewrite (FindGlyph_ok st I [] s gs id Hok Hs).
    apply (FindGlyph_ok st' I []); [by apply (quiet_ok st)|]. by rewrite (qu_sets _ _ Hq). }
  set (gs2 := gs <| gs_hash := h2 |>) in *. assert (Hsl : gm_sets st' !! s = Some gs2) by (by rewrite Hs2, lookup_insert_eq).
  destruct (decide (rc = Success)) as [Hrc|Hrc].
  2: { intros id. rewrite (FindGlyph_ok st I [] s gs id Hok Hs), (FindGlyph_ok st' I2 [] s gs2 id Hok2 Hsl).
       specialize (Hbad Hrc). by rewrite (ids_models gs2 (ids_of gs)). }
  destruct (Hgood Hrc) as ((Eids & Eshas & Elen) & Hm & Hsha).
  assert (Em : ids_of gs2 = with_entries (ids_of gs) l) by by apply ids_models.
  fold request_glyphs in Eshas. split; [|split].
  - intros i id image sha1 Hi Himg Hsh Hlast. unfold request_ids in Hi, Hlast. rewrite <- Eids in Hi, Hlast.
    apply list_lookup_fmap_Some in Hi as (e & -> & He).
    assert (Hse : gn_sha1 e = sha1).
    { assert (E : (Some <$> (gn_sha1 <$> l)) !! i = (ge_sha1 (re_glyphs env) <$> request_glyphs) !! i) by by rewrite Eshas.
      rewrite !list_lookup_fmap, He, Himg in E. cbn in E. congruence. }
    assert (Hfind : ids_of gs2 !! gn_id e = Some (gn_glyph e)).
    { rewrite Em. apply (with_entries_last l _ i); [done|]. intros j e' Hj Hij Heq. apply (Hlast j Hij).
      rewrite list_lookup_fmap, Hj. cbn. by rewrite Heq. }
    destruct (go_cells _ _ _ Hok2 (gn_glyph e)) as [c Hc].
    { apply elem_of_app. left. apply holders_elem. by exists s, gs2, (gn_id e). }
    exists (gn_glyph e), c. rewrite (FindGlyph_ok st' I2 [] s gs2 _ Hok2 Hsl), Hfind. split; [done|]. split; [done|].
    rewrite Forall_forall in Hsha. specialize (Hsha e). unfold sha_of in Hsha. rewrite Hc in Hsha. cbn in Hsha. rewrite Hsha; [done|].
    apply list_elem_of_filter. split; [by rewrite Hc|]. by eapply list_elem_of_lookup_2.
  - unfold request_ids. rewrite <- Eids, length_fmap. apply (f_equal length) in Eshas. by rewrite !length_fmap in Eshas.
  - intros id Hnin. rewrite (FindGlyph_ok st I [] s gs id Hok Hs), (FindGlyph_ok st' I2 [] s gs2 id Hok2 Hsl), Em.
    rewrite with_entries_other; [done|]. by rewrite Eids.
Qed.
End Add.

(** C11: in a state reached by fair requests, after a fair request to add glyphs
    ([fair]: it has its declared length, its new images are different from each
    other, and the entries fit into the largest table) that succeeded, every id of it finds a glyph whose hash is that
    of the id's last image in the request, and other ids of the set find what they
    found before; after one that failed, every id of the set finds what it found
    before (tables may have grown, and the code then leaks pictures of new
    glyphs). *)
Theorem AddGlyphs_finds env st req glyphset nglyphs s gs st' rc :
  0 <= RenderErrBase env -> reachable env st -> fair env st (AddGlyphs req glyphset nglyphs) ->
  gm_ids st !! swapl req glyphset = Some s -> gm_sets st !! s = Some gs ->
  ProcRenderAddGlyphs env st req glyphset nglyphs = Ret (st', rc) ->
  if decide (rc = Success) then
    (forall i id image sha1, request_ids req glyphset nglyphs !! i = Some id ->
       request_glyphs env req glyphset nglyphs gs !! i = Some image ->
       ge_sha1 (re_glyphs env) image = Some sha1 ->
       (forall j, (i < j)%nat -> request_ids req glyphset nglyphs !! j <> Some id) ->
       exists g c, FindGlyph st' s id = Ret g /\ gm_cells st' !! g = Some c /\ gl_sha1 c = sha1) /\
    length (request_ids req glyphset nglyphs) = length (request_glyphs env req glyphset nglyphs gs) /\
    (forall id, id ∉ request_ids req glyphset nglyphs -> FindGlyph st' s id = FindGlyph st s id)
  else forall id, FindGlyph st' s id = FindGlyph st s id.
Proof. intros. by apply (AddGlyphs_spec env st req glyphset nglyphs s gs). Qed.

(** C12: in every state reached from the empty server by fair requests ([fair]: of
    their declared length, none adds two new glyphs of one image, and the entries
    fit into the largest table) and by
    screens that go away, a glyph has a reference for each entry of a set that
    names it, and at least one; for an image there is one glyph in all sets of a
    depth, the one that a search by the image's hash finds; and a set has a
    reference for each of its ids.  [duplicate_images_crash] is what a request that
    is not fair can lead to. *)
Theorem reachable_glyphs env st :
  0 <= RenderErrBase env -> reachable env st ->
  (forall g c, gm_cells st !! g = Some c -> gl_refcnt c = occ g (holders (gm_sets st)) /\ 1 <= gl_refcnt c) /\
  (forall s gs id g, gm_sets st !! s = Some gs -> ids_of gs !! id = Some g -> FindGlyph st s id = Ret g /\
     exists c, gm_cells st !! g = Some c /\ FindGlyphByHash st (gl_sha1 c) (gs_fdepth gs) = Ret g) /\
  (forall s gs, gm_sets st !! s = Some gs -> gs_refcnt gs = 1 `max` names_of (gm_ids st) s).
Proof.
  intros Hbase Hreach. destruct (reachable_served env st Hbase Hreach) as (I & Hok & Hn). split; [|split].
  - intros g c Hc. pose proof (go_refs _ _ _ Hok g c Hc) as Hr. rewrite app_nil_r in Hr. split; [done|].
    pose proof (go_held _ _ _ Hok g ltac:(by exists c)) as Hin. rewrite app_nil_r in Hin. apply occ_pos in Hin. lia.
  - intros s gs id g Hs Hid. split; [by rewrite (FindGlyph_ok st I [] s gs id Hok Hs), Hid|].
    destruct (go_cells _ _ _ Hok g) as [c Hc]; [apply elem_of_app; left; apply holders_elem; by exists s, gs, id|].
    exists c. split; [done|]. rewrite (FindGlyphByHash_ok st I []); [|done|by apply (go_sets _ _ _ Hok s)].
    pose proof (go_shared _ _ _ Hok s gs id g Hs Hid) as Hsh. by rewrite (sha_c st g c Hc) in Hsh; rewrite Hsh.
  - by apply (nm_refs _ _ Hn).
Qed.

(** C13: in every state reached from the empty server by fair requests ([fair]: of
    their declared length, none adds two new glyphs of one image, and the entries
    fit into the largest table) and by
    screens that go away, each further fair request on glyph sets, and each screen
    that goes away, is handled: no loop of a search runs on, no pointer leads
    nowhere and no table is too small. *)
Theorem requests_return env st e :
  0 <= RenderErrBase env -> reachable env st -> fair env st e -> exists st' rc, handle env st e = Ret (st', rc).
Proof.
  intros Hbase Hreach Hfair. destruct (handle_served env st e Hbase (reachable_served env st Hbase Hreach) Hfair) as (st' & rc & ? & _).
  by exists st', rc.
Qed.

(** A search ends, in every table of [glyphHashSets]'s sizes with a slot that
    is not in use: at the slot of its key, or at one where the key may be put. *)
Theorem FindGlyphRef_returns cells hs t n id :
  hs ∈ glyphHashSets -> table_ok r_signature (fun id => id) hs t -> (exists i r, t !! i = Some r /\ ~ ref_live r) ->
  exists i r, FindGlyphRef cells (Hash (Some t) (Some hs) n) id None = Ret (Some (Z.of_nat i)) /\ t !! i = Some r /\
    if decide (ref_live r) then r_signature r = id
    else (forall i' r', t !! i' = Some r' -> ref_live r' -> r_signature r' <> id) /\
      forall g, is_live g = true -> table_ok r_signature (fun id => id) hs (<[i := Ref id g]> t).
Proof.
  intros Hhs Hok Hroom. pose proof (glyphHashSets_sized hs Hhs) as Hsz. pose proof (sized_pos hs Hsz).
  destruct (search_spec r_signature (fun id => id) hs t id cells None Hsz Hok) as (i & Hrun & Hf); [|done|].
  { intros i r _ _. destruct (id_keys_lawful cells) as [Hmatch _]. exact (Hmatch id r Coq.Init.Logic.I eq_refl). }
  pose proof Hf as (r & j & Hi & _ & _ & Hc). exists i, r. unfold FindGlyphRef. cbn [hashSet table obind_opt].
  destruct (Z.eqb_spec (hs_size hs) 0); [lia|]. rewrite Hrun. split; [done|]. split; [done|].
  destruct (decide (ref_live r)); [done|]. split; [done|]. intros g Hg. by apply (table_store (K := Z) (KK := id_keys) hs t id i g Hok Hf Hg).
Qed.
