(* ===== verification/GlyphText.v ===== *)
(** * Requests that draw glyphs (render/render.c)

    The glyphs of a request come in elements: a run of ids with the way to its
    start, or the id of the set in which the next ids are looked up.  The server
    counts runs and ids, allocates, and goes through the elements again. *)

From S2P Require Import Prelude Wire Request Glyphs GlyphRequest.

(** ** The request and what is drawn *)

Definition DixReadAccess : Z := Z.shiftl 1 0.
Definition DixWriteAccess : Z := Z.shiftl 1 1.
Definition DixUseAccess : Z := Z.shiftl 1 24.
Definition BadDrawable : Z := 9.
Definition X_RenderCompositeGlyphs16 : Z := 24.
Definition X_RenderCompositeGlyphs32 : Z := 25.

(** [render/render.c: NLOCALDELTA 779-779] *)
Definition NLOCALDELTA : Z := 64.
(** [render/render.c: NLOCALGLYPH 780-780] *)
Definition NLOCALGLYPH : Z := 256.

(** Of pictures, what the request looks at: the screen of the drawable, if the
    picture has one. *)
Record PictureRec := Picture { pi_address : Z; pi_screen : option Z }.

(** A client's request, its byte order and length, and the elements' bytes. *)
Record text_req := TextReq {
  tr_type : Z;
  tr_op : Z;
  tr_src : Z;
  tr_dst : Z;
  tr_maskFormat : Z;
  tr_glyphset : Z;
  tr_xSrc : Z;
  tr_ySrc : Z;
  tr_swapped : bool;
  tr_req_len : Z;
  tr_rest : list Z;
}.

(** An element's fixed part, of eight bytes (the protocol's structure). *)
Record xGlyphElt := GlyphElt { el_len : Z; el_deltax : Z; el_deltay : Z }.

(** [render/glyphstr.h: GlyphListRec 50-55] *)
Record GlyphListRec := GlyphList { gl_xOff : Z; gl_yOff : Z; gl_len : Z; gl_format : PictFormatRec }.

(** What the screen is asked to draw: the arguments that [CompositeGlyphs] hands on.
    [render/picturestr.h: GlyphsProcPtr 215-222] *)
Record glyph_drawing := Drawing {
  gd_op : Z;
  gd_src : PictureRec;
  gd_dst : PictureRec;
  gd_format : option PictFormatRec;
  gd_xSrc : Z;
  gd_ySrc : Z;
  gd_nlist : Z;
  gd_lists : list GlyphListRec;
  gd_glyphs : list Z;
}.

(** The operators of the protocol: the plain, the disjoint and conjoint ones, and
    the blend modes.
    [render/render.c: PictOpValid] *)
Definition PictOpValid (op : Z) : bool :=
  (op <=? 13) || ((0x10 <=? op) && (op <=? 0x1b)) || ((0x20 <=? op) && (op <=? 0x2b)) ||
  ((0x30 <=? op) && (op <=? 0x3e)).

(** ** Reading the elements *)

(** Bytes of the request; there are none outside it. *)
Definition read_at (body : list Z) (pos n : Z) : option (list Z) :=
  if (0 <=? pos) && (pos + n <=? Z.of_nat (length body))
  then Some (take (Z.to_nat n) (drop (Z.to_nat pos) body)) else None.
Definition read_uint (body : list Z) (pos n : Z) : option Z :=
  first_bytes (Z.to_nat n) <$> read_at body pos n.
Definition read_elt (body : list Z) (pos : Z) : option xGlyphElt :=
  match read_at body pos 8 with
  | Some [len; _; _; _; x0; x1; y0; y1] => Some (GlyphElt len (s16 (x0 + 256 * x1)) (s16 (y0 + 256 * y1)))
  | _ => None
  end.

(** How far the ids of a run are from a whole word.
    [render/render.c: SingleRenderCompositeGlyphs 1142-1144] *)
Definition run_pad (space : Z) : Z := if Z.land space 3 =? 0 then 0 else 4 - Z.land space 3.

(** [render/render.c: SingleRenderCompositeGlyphs 1092-1102] *)
Definition id_size (type : Z) : Z :=
  if type =? X_RenderCompositeGlyphs16 then 2 else if type =? X_RenderCompositeGlyphs32 then 4 else 1.

(** A step that goes on with what a computation gives. *)
Definition step_bind {A S B} (o : outcome A) (f : A -> S + outcome B) : S + outcome B :=
  match o with
  | Ret a => f a
  | FatalError => inr FatalError
  | Undefined => inr Undefined
  | Diverge => inr Diverge
  end.

Section Text.
Context (env : render_env) (picture : Z -> Z -> Z + PictureRec).

(** The first pass: position, glyphs and runs.
    [render/render.c: SingleRenderCompositeGlyphs 1128-1147] *)
Definition count_step (size fin : Z) (body : list Z) (s : Z * Z * Z) : Z * Z * Z + outcome (Z * Z) :=
  let '(pos, nglyph, nlist) := s in
  if negb (pos + 8 <? fin) then inr (Ret (nglyph, nlist)) else
  match read_elt body pos with
  | None => inr Undefined
  | Some elt =>
      if el_len elt =? 0xff then inl (pos + 8 + 4, nglyph, nlist)
      else
        let space := size * el_len elt in
        inl (pos + 8 + (space + run_pad space), i32 (nglyph + el_len elt), i32 (nlist + 1))
  end.

(** The ids of a run: those that the set knows go to [glyphs], which has room for
    [room]; [len] counts them.
    [render/render.c: SingleRenderCompositeGlyphs 1188-1208] *)
Fixpoint read_run (st : GlyphState) (s size fin room : Z) (body : list Z) (n : nat) (pos : Z) (glyphs : list Z)
    (len : Z) : outcome (Z * list Z * Z) :=
  match n with
  | O => Ret (pos, glyphs, len)
  | S n' =>
      if negb (pos + size <=? fin) then read_run st s size fin room body n' (pos + size) glyphs len else
      glyph <-? read_uint body pos size;
      g <-- FindGlyph st s glyph;
      if room <=? Z.of_nat (length glyphs) then Undefined else
      if g =? 0 then read_run st s size fin room body n' (pos + size) glyphs len
      else read_run st s size fin room body n' (pos + size) (glyphs ++ [g]) (u8 (len + 1))
  end.

(** The state of the second pass. *)
Record text_state := TextState {
  ts_st : GlyphState;
  ts_pos : Z;
  ts_set : Z;
  ts_lists : list GlyphListRec;
  ts_glyphs : list Z;
}.

(** The second pass stops with an error when a set cannot be used.  The arrays have
    room for [lroom] runs and [groom] glyphs.
    [render/render.c: SingleRenderCompositeGlyphs 1164-1214] *)
Definition text_step (size fin lroom groom : Z) (body : list Z) (t : text_state) :
    text_state + outcome (text_state * option Z) :=
  let pos := ts_pos t in
  if negb (pos + 8 <? fin) then inr (Ret (t, None)) else
  match read_elt body pos with
  | None => inr Undefined
  | Some elt =>
      let pos := pos + 8 in
      if el_len elt =? 0xff then
        if pos + 4 <? fin then
          match read_uint body pos 4 with
          | None => inr Undefined
          | Some gs =>
              match lookup_set env (ts_st t) gs DixUseAccess with
              | (st, inl rc) => inr (Ret (TextState st pos (ts_set t) (ts_lists t) (ts_glyphs t), Some rc))
              | (st, inr s) => inl (TextState st (pos + 4) s (ts_lists t) (ts_glyphs t))
              end
          end
        else inl (TextState (ts_st t) (pos + 4) (ts_set t) (ts_lists t) (ts_glyphs t))
      else if lroom <=? Z.of_nat (length (ts_lists t)) then inr Undefined else
      match gm_sets (ts_st t) !! ts_set t with
      | None => inr Undefined
      | Some gs =>
          step_bind (read_run (ts_st t) (ts_set t) size fin groom body (Z.to_nat (el_len elt)) pos (ts_glyphs t) 0)
            (fun '(pos', glyphs, len) =>
               inl (TextState (ts_st t) (pos' + run_pad (size * el_len elt)) (ts_set t)
                      (ts_lists t ++ [GlyphList (el_deltax elt) (el_deltay elt) len (gs_format gs)]) glyphs))
      end
  end.

(** The operator, the pictures, the mask's format and the first set.
    [render/render.c: SingleRenderCompositeGlyphs 1104-1126] *)
Definition check_text (st : GlyphState) (req : text_req) :
    GlyphState * (Z + PictureRec * PictureRec * option PictFormatRec * Z) :=
  if negb (PictOpValid (tr_op req)) then (st <| gm_errorValue := tr_op req |>, inl BadValue) else
  let st := st <| gm_errorValue := tr_src req |> in
  match picture (tr_src req) DixReadAccess with
  | inl rc => (st, inl rc)
  | inr pSrc =>
      let st := st <| gm_errorValue := tr_dst req |> in
      match picture (tr_dst req) DixWriteAccess with
      | inl rc => (st, inl rc)
      | inr pDst =>
          match pi_screen pDst with
          | None => (st, inl BadDrawable)
          | Some screen =>
              if match pi_screen pSrc with Some s => negb (s =? screen) | None => false end
              then (st, inl BadMatch) else
              let '(st, format) :=
                if tr_maskFormat req =? 0 then (st, inr None) else
                (st <| gm_errorValue := tr_maskFormat req |>,
                 match re_format env (tr_maskFormat req) with inl rc => inl rc | inr f => inr (Some f) end) in
              match format with
              | inl rc => (st, inl rc)
              | inr pFormat =>
                  let '(st, set) := lookup_set env st (tr_glyphset req) DixUseAccess in
                  (st, match set with inl rc => inl rc | inr s => inr (pSrc, pDst, pFormat, s) end)
              end
          end
      end
  end.

(** Room for [n] elements of an array: on the stack up to [local], else allocated.
    [render/render.c: SingleRenderCompositeGlyphs 1148-1163] *)
Definition array_room (st : GlyphState) (local n sizeof : Z) : GlyphState * option Z :=
  if n <=? local then (st, Some local) else
  let '(ok, st) := gl_alloc (re_glyphs env) st (u64 n * sizeof) in
  (st, if ok then Some n else None).

(** [render/render.c: SingleRenderCompositeGlyphs] *)
Definition SingleRenderCompositeGlyphs (st : GlyphState) (req : text_req) :
    outcome (GlyphState * Z * option glyph_drawing) :=
  let size := id_size (tr_type req) in
  match check_text st req with
  | (st, inl rc) => Ret (st, rc, None)
  | (st, inr (pSrc, pDst, pFormat, s)) =>
      let fin := 4 * tr_req_len req - 28 in
      '(nglyph, nlist) <-- run_loop (count_step size fin (tr_rest req)) TURNS (0, 0, 0);
      match array_room st NLOCALGLYPH nglyph 8 with
      | (st, None) => Ret (st, BadAlloc, None)
      | (st, Some groom) =>
          match array_room st NLOCALDELTA nlist 16 with
          | (st, None) => Ret (st, BadAlloc, None)
          | (st, Some lroom) =>
              '(t, err) <-- run_loop (text_step size fin lroom groom (tr_rest req)) TURNS (TextState st 0 s [] []);
              match err with
              | Some rc => Ret (ts_st t, rc, None)
              | None =>
                  if ts_pos t >? fin then Ret (ts_st t, BadLength, None) else
                  Ret (ts_st t, Success,
                       Some (Drawing (tr_op req) pSrc pDst pFormat (tr_xSrc req) (tr_ySrc req) nlist
                               (ts_lists t) (ts_glyphs t)))
              end
          end
      end
  end.

(** ** Clients of the other byte order *)

(** [swaps] and [swapl] of a place in the request: its bytes the other way round. *)
Definition swap_bytes (body : list Z) (pos n : Z) : option (list Z) :=
  bs ← read_at body pos n;
  Some (take (Z.to_nat pos) body ++ rev bs ++ drop (Z.to_nat (pos + n)) body).

(** [render/render.c: ProcRenderCompositeGlyphs 2804-2816] *)
Fixpoint swap_run (size : Z) (n : nat) (body : list Z) (pos : Z) : outcome (list Z) :=
  match n with
  | O => Ret body
  | S n' => body <-? swap_bytes body pos size; swap_run size n' body (pos + size)
  end.

(** The elements of a request are brought into the server's order one by one, until
    one is not all there.
    [render/render.c: ProcRenderCompositeGlyphs 2777-2823] *)
Definition swap_step (size fin : Z) (s : list Z * Z) : list Z * Z + outcome (list Z + Z) :=
  let '(body, pos) := s in
  if negb (pos + 8 <? fin) then inr (Ret (inl body)) else
  match (body ← swap_bytes body (pos + 4) 2; swap_bytes body (pos + 6) 2) with
  | None => inr Undefined
  | Some body =>
      match read_elt body pos with
      | None => inr Undefined
      | Some elt =>
          let pos := pos + 8 in
          let i := el_len elt in
          if i =? 0xff then
            if pos + 4 >? fin then inr (Ret (inr BadLength)) else
            match swap_bytes body pos 4 with
            | None => inr Undefined
            | Some body => inl (body, pos + 4)
            end
          else
            let next := pos + size * i + run_pad (size * i) in
            if size =? 1 then inl (body, next) else
            if pos + i * size >? fin then inr (Ret (inr BadLength)) else
            step_bind (swap_run size (Z.to_nat i) body pos) (fun body => inl (body, next))
      end
  end.

(** The server draws without Xinerama.
    [render/render.c: ProcRenderCompositeGlyphs] *)
Definition ProcRenderCompositeGlyphs (st : GlyphState) (req : text_req) :
    outcome (GlyphState * Z * option glyph_drawing) :=
  if too_short 28 (tr_req_len req) then Ret (st, BadLength, None) else
  if tr_swapped req then
    let size := id_size (tr_type req) in
    res <-- run_loop (swap_step size (4 * tr_req_len req - 28)) TURNS (tr_rest req, 0);
    match res with
    | inr rc => Ret (st, rc, None)
    | inl body =>
        SingleRenderCompositeGlyphs st
          (TextReq (tr_type req) (tr_op req) (bswap_32 (tr_src req)) (bswap_32 (tr_dst req))
             (bswap_32 (tr_maskFormat req)) (bswap_32 (tr_glyphset req)) (s16 (bswap_16 (u16 (tr_xSrc req))))
             (s16 (bswap_16 (u16 (tr_ySrc req)))) (tr_swapped req) (tr_req_len req) body)
    end
  else SingleRenderCompositeGlyphs st req.
End Text.
