(* ===== verification/GlyphWalk.v ===== *)
(** * The two passes over the elements (render/render.c)

    Both take the same way through the request, so that what the first counts is
    enough for what the second writes, and neither leaves the request. *)

From S2P Require Import Prelude Wire Request Glyphs GlyphProbe GlyphTable GlyphHash GlyphInv GlyphRequest GlyphText.

(** ** Reading *)

Lemma read_at_Some body pos n : 0 <= pos -> 0 <= n -> pos + n <= Z.of_nat (length body) ->
  exists bs, read_at body pos n = Some bs /\ length bs = Z.to_nat n.
Proof.
  intros Hp Hn Hlen. unfold read_at. rewrite (proj2 (Z.leb_le 0 pos)), (proj2 (Z.leb_le _ _)) by lia.
  eexists. split; [reflexivity|]. rewrite length_take, length_drop. lia.
Qed.

Lemma read_uint_Some body pos n : 0 <= pos -> 0 <= n -> pos + n <= Z.of_nat (length body) ->
  exists x, read_uint body pos n = Some x.
Proof. intros Hp Hn Hlen. destruct (read_at_Some body pos n Hp Hn Hlen) as (bs & E & _). unfold read_uint. rewrite E. by eexists. Qed.

Lemma read_elt_Some body pos : bytes body -> 0 <= pos -> pos + 8 <= Z.of_nat (length body) ->
  exists elt, read_elt body pos = Some elt /\ 0 <= el_len elt < 256.
Proof.
  intros Hb Hp Hlen. destruct (read_at_Some body pos 8 Hp ltac:(lia) Hlen) as (bs & E & Hbs). unfold read_elt. rewrite E.
  assert (Hin : Forall (fun b => 0 <= b < 256) bs).
  { unfold read_at in E. case_match; [|discriminate]. injection E as <-. by apply Forall_take, Forall_drop. }
  do 8 (destruct bs as [|? bs]; [discriminate|]). destruct bs; [|discriminate]. eexists. split; [reflexivity|].
  by inversion Hin.
Qed.

Lemma run_pad_range space : 0 <= run_pad space < 4.
Proof.
  unfold run_pad. replace 3 with (Z.ones 2) by done. rewrite Z.land_ones by lia. change (2 ^ 2) with 4.
  pose proof (Z.mod_pos_bound space 4). case_bool; lia.
Qed.

Lemma id_size_cases type : id_size type = 1 \/ id_size type = 2 \/ id_size type = 4.
Proof. unfold id_size. repeat case_match; auto. Qed.

(** ** The first pass *)

Section Walk.
Context (size fin : Z) (body : list Z).
Context (Hsize : 1 <= size <= 4) (Hbody : bytes body) (Hfin : fin <= Z.of_nat (length body)).

(** From a position with these counts on the first pass takes [n] elements and ends
    with the last two counts. *)
Inductive counts : nat -> Z -> Z -> Z -> Z -> Z -> Prop :=
  | counts_end pos a b : fin <= pos + 8 -> counts 0 pos a b a b
  | counts_use n pos a b ng nl elt :
      pos + 8 < fin -> read_elt body pos = Some elt -> el_len elt = 255 ->
      counts n (pos + 12) a b ng nl -> counts (S n) pos a b ng nl
  | counts_run n pos a b ng nl elt :
      pos + 8 < fin -> read_elt body pos = Some elt -> 0 <= el_len elt < 255 ->
      counts n (pos + 8 + (size * el_len elt + run_pad (size * el_len elt))) (a + el_len elt) (b + 1) ng nl ->
      counts (S n) pos a b ng nl.

Lemma counts_le n pos a b ng nl : counts n pos a b ng nl -> a <= ng /\ b <= nl.
Proof. induction 1; lia. Qed.

Lemma counts_exists pos a b : 0 <= pos -> exists n ng nl, counts n pos a b ng nl /\ Z.of_nat n <= 0 `max` (fin - pos).
Proof.
  intros Hpos. remember (Z.to_nat (fin - pos)) as m eqn:Em. revert pos a b Hpos Em.
  induction (lt_wf m) as [m _ IH]. intros pos a b Hpos Em. destruct (Z.ltb_spec (pos + 8) fin) as [Hlt|Hge].
  2: { exists 0%nat, a, b. split; [by constructor|lia]. }
  destruct (read_elt_Some body pos Hbody Hpos ltac:(lia)) as (elt & E & Hl). destruct (decide (el_len elt = 255)) as [H255|H255].
  - destruct (IH (Z.to_nat (fin - (pos + 12))) ltac:(lia) (pos + 12) a b ltac:(lia) eq_refl) as (n & ng & nl & Hc & Hn).
    exists (S n), ng, nl. split; [by eapply counts_use|lia].
  - pose proof (run_pad_range (size * el_len elt)). set (pos' := pos + 8 + (size * el_len elt + run_pad (size * el_len elt))) in *.
    assert (pos + 8 <= pos') by (unfold pos'; nia).
    destruct (IH (Z.to_nat (fin - pos')) ltac:(lia) pos' (a + el_len elt) (b + 1) ltac:(lia) eq_refl) as (n & ng & nl & Hc & Hn).
    exists (S n), ng, nl. split; [eapply counts_run; [done|done|lia|done]|lia].
Qed.

(** The counts stay far below what an [int] holds. *)
Lemma count_pass ng nl n : fin <= 2 ^ 30 -> counts n 0 0 0 ng nl -> Z.of_nat n <= fin ->
  run_loop (count_step size fin body) TURNS (0, 0, 0) = Ret (ng, nl).
Proof.
  intros Hmax Hc Hn.
  destruct (run_loop_ranked (count_step size fin body)
    (fun n '(pos, a, b) => 0 <= pos /\ 0 <= a <= pos /\ 0 <= b <= pos /\ counts n pos a b ng nl)
    (fun r => r = (ng, nl)) TURNS n (0, 0, 0)) as (r & Hrun & ->); [|by repeat split|unfold TURNS; lia|done].
  clear n Hc Hn. intros n [[pos a] b] (Hp & Ha & Hb & Hc). unfold count_step.
  inversion Hc as [? ? ? Hge|? ? ? ? ? ? elt Hlt E H255 Hc'|? ? ? ? ? ? elt Hlt E Hlen Hc']; subst.
  - by rewrite (proj2 (Z.ltb_ge _ _) Hge).
  - rewrite (proj2 (Z.ltb_lt _ _) Hlt), E, H255. cbn [negb Z.eqb Pos.eqb]. eexists. split; [apply Nat.lt_succ_diag_r|].
    replace (pos + 8 + 4) with (pos + 12) by lia. repeat split; try lia. done.
  - rewrite (proj2 (Z.ltb_lt _ _) Hlt), E. cbn [negb]. rewrite (proj2 (Z.eqb_neq _ 255)) by lia.
    eexists. split; [apply Nat.lt_succ_diag_r|]. pose proof (run_pad_range (size * el_len elt)).
    change (2 ^ 30) with 1073741824 in Hmax. rewrite !i32_small by lia. repeat split; try nia. done.
Qed.
End Walk.

(** ** The second pass *)

(** What the request needs of the glyph sets: ids of sets lead to sets, searches end,
    and what they find is a glyph. *)
Record searchable (st : GlyphState) : Prop := {
  se_ids : forall id s, gm_ids st !! id = Some s -> is_Some (gm_sets st !! s);
  se_find : forall s id, is_Some (gm_sets st !! s) ->
    exists g, FindGlyph st s id = Ret g /\ (g = 0 \/ is_Some (gm_cells st !! g));
}.

(** Only the error value and the count of allocations change. *)
Definition same_glyphs (st st' : GlyphState) : Prop :=
  gm_cells st' = gm_cells st /\ gm_sets st' = gm_sets st /\ gm_global st' = gm_global st /\ gm_ids st' = gm_ids st /\
  gm_next st' = gm_next st /\ gm_log st' = gm_log st.
#[export] Instance same_glyphs_equiv : Equivalence same_glyphs.
Proof. split; [intros st|intros st st' (? & ? & ? & ? & ? & ?)|intros ??? (?&?&?&?&?&?) (?&?&?&?&?&?)]; repeat split; congruence. Qed.

Lemma FindGlyph_same st st' s id : same_glyphs st st' -> FindGlyph st' s id = FindGlyph st s id.
Proof. intros (Ec & Es & _). unfold FindGlyph. by rewrite Ec, Es. Qed.
Lemma searchable_same st st' : same_glyphs st st' -> searchable st -> searchable st'.
Proof.
  intros Hs [H1 H2]. pose proof Hs as (Ec & Es & _ & Ei & _). split; [by rewrite Ei, Es|].
  intros s id. rewrite Es, Ec, (FindGlyph_same st st') by done. apply H2.
Qed.
Lemma lookup_set_same env st id mode st' r : lookup_set env st id mode = (st', r) -> same_glyphs st st'.
Proof. intros [= <- _]. by repeat split. Qed.
Lemma lookup_set_set env st id mode st' s : searchable st -> lookup_set env st id mode = (st', inr s) -> is_Some (gm_sets st !! s).
Proof.
  intros [H _] E. unfold lookup_set in E. injection E as _ E. destruct (gm_ids st !! id) eqn:Hid; [|discriminate].
  cbv zeta in E. repeat case_match; simplify_eq; by eapply H.
Qed.
#[export] Hint Resolve lookup_set_same : glyphs.

(** The glyphs of the runs. *)
Definition run_total (lists : list GlyphListRec) : Z := foldr Z.add 0 (gl_len <$> lists).
Lemma run_total_snoc lists l : run_total (lists ++ [l]) = run_total lists + gl_len l.
Proof. unfold run_total. induction lists as [|x xs IH]; cbn in *; lia. Qed.

Section Second.
Context (env : render_env) (size fin lroom groom : Z) (body : list Z).
Context (Hsize : 1 <= size <= 4) (Hbody : bytes body) (Hfin : fin <= Z.of_nat (length body)).

Lemma read_run_ok st s n : forall pos glyphs len,
  searchable st -> is_Some (gm_sets st !! s) -> 0 <= pos -> Z.of_nat (length glyphs) + Z.of_nat n <= groom ->
  0 <= len -> len + Z.of_nat n < 256 ->
  exists new, read_run st s size fin groom body n pos glyphs len =
      Ret (pos + size * Z.of_nat n, glyphs ++ new, len + Z.of_nat (length new)) /\
    (length new <= n)%nat /\ Forall (fun g => is_Some (gm_cells st !! g)) new.
Proof.
  induction n as [|n IH]; intros pos glyphs len Hst Hs Hpos Hroom Hlen Hlen2; cbn [read_run].
  - exists []. rewrite app_nil_r. cbn. split; [f_equal; f_equal; [f_equal|]; lia|]. split; [lia|constructor].
  - assert (Hskip : exists new, read_run st s size fin groom body n (pos + size) glyphs len =
        Ret (pos + size * Z.of_nat (S n), glyphs ++ new, len + Z.of_nat (length new)) /\
        (length new <= S n)%nat /\ Forall (fun g => is_Some (gm_cells st !! g)) new).
    { destruct (IH (pos + size) glyphs len Hst Hs ltac:(lia) ltac:(lia) Hlen ltac:(lia)) as (new & -> & Hn & Hf).
      exists new. split; [|split; [lia|done]]. f_equal. f_equal. f_equal. lia. }
    destruct (Z.leb_spec (pos + size) fin) as [Hin|Hout]; cbn [negb]; [|done].
    destruct (read_uint_Some body pos size Hpos ltac:(lia) ltac:(lia)) as [id ->]. cbn [obind_opt].
    destruct (se_find st Hst s id Hs) as (g & -> & Hg). cbn [obind]. rewrite (proj2 (Z.leb_gt _ _)) by lia.
    destruct (Z.eqb_spec g 0) as [->|Hg0]; [done|].
    assert (Eu : u8 (len + 1) = len + 1) by (unfold u8; apply Z.mod_small; lia). rewrite Eu.
    destruct (IH (pos + size) (glyphs ++ [g]) (len + 1)) as (new & -> & Hn & Hf); [done|done|lia|rewrite length_app; cbn; lia|lia|lia|].
    exists (g :: new). rewrite <- app_assoc. cbn [app length]. split; [f_equal; f_equal; [f_equal|]; lia|]. split; [lia|].
    constructor; [|done]. by destruct Hg.
Qed.

(** What holds between two elements, and at the end. *)
Definition text_inv (st0 : GlyphState) (a : Z) (t : text_state) : Prop :=
  same_glyphs st0 (ts_st t) /\ 0 <= ts_pos t /\ is_Some (gm_sets st0 !! ts_set t) /\
  Z.of_nat (length (ts_glyphs t)) <= a /\ run_total (ts_lists t) = Z.of_nat (length (ts_glyphs t)) /\
  Forall (fun g => is_Some (gm_cells st0 !! g)) (ts_glyphs t).

Lemma text_pass st0 s ng nl n :
  searchable st0 -> is_Some (gm_sets st0 !! s) -> counts size fin body n 0 0 0 ng nl -> Z.of_nat n <= fin -> fin <= 2 ^ 30 ->
  ng <= groom -> nl <= lroom ->
  exists t err, run_loop (text_step env size fin lroom groom body) TURNS (TextState st0 0 s [] []) = Ret (t, err) /\
    text_inv st0 ng t /\ (err = None -> Z.of_nat (length (ts_lists t)) = nl).
Proof.
  intros Hst Hs Hc Hn Hmax Hg Hl.
  destruct (run_loop_ranked (text_step env size fin lroom groom body)
    (fun n t => exists a, text_inv st0 a t /\ counts size fin body n (ts_pos t) a (Z.of_nat (length (ts_lists t))) ng nl)
    (fun r => text_inv st0 ng r.1 /\ (r.2 = None -> Z.of_nat (length (ts_lists r.1)) = nl)) TURNS n (TextState st0 0 s [] []))
    as ([t err] & Hrun & Hpost); [| |change (2 ^ 30) with 1073741824 in Hmax; unfold TURNS; lia|by exists t, err].
  2: { exists 0. split; [|done]. unfold text_inv; cbn; split_and!; done. }
  clear n Hc Hn Hs. intros n [st pos s' lists glyphs] (a & (Hsame & Hp & Hs & Ha & Hr & Hf) & Hc). unfold text_step. cbn [ts_st ts_pos ts_set ts_lists ts_glyphs] in *.
  pose proof (counts_le size fin body n pos a _ ng nl Hc) as Hle.
  inversion Hc as [? ? ? Hge|n' ? ? ? ? ? elt Hlt E H255 Hc'|n' ? ? ? ? ? elt Hlt E Hlen Hc']; subst.
  - rewrite (proj2 (Z.ltb_ge _ _) Hge). unfold text_inv; cbn; split_and!; done || lia.
  - rewrite (proj2 (Z.ltb_lt _ _) Hlt), E, H255. cbn [negb Z.eqb Pos.eqb].
    replace (pos + 12) with (pos + 8 + 4) in Hc' by lia.
    destruct (Z.ltb_spec (pos + 8 + 4) fin) as [Hin|Hout].
    + destruct (read_uint_Some body (pos + 8) 4) as [id ->]; [lia..|].
      destruct (lookup_set env st id DixUseAccess) as [st1 [rc|s1]] eqn:El; pose proof (lookup_set_same _ _ _ _ _ _ El) as Hsame1.
      * assert (same_glyphs st0 st1) by (by transitivity st). unfold text_inv; cbn; split_and!; done || lia.
      * assert (same_glyphs st0 st1) by (by transitivity st). exists n'. split; [lia|]. exists a. split; [|done].
        unfold text_inv; cbn; split_and!; try done; try lia.
        rewrite <- (proj1 (proj2 Hsame)). by eapply lookup_set_set; [eapply searchable_same; [|exact Hst]|].
    + exists n'. split; [lia|]. exists a. split; [|done]. unfold text_inv; cbn; split_and!; done || lia.
  - rewrite (proj2 (Z.ltb_lt _ _) Hlt), E. cbn [negb]. rewrite (proj2 (Z.eqb_neq _ 255)) by lia.
    pose proof (counts_le size fin body n' _ _ _ ng nl Hc') as Hle'. rewrite (proj2 (Z.leb_gt _ _)) by lia.
    assert (Hs2 : is_Some (gm_sets st !! s')) by (destruct Hsame as (_ & -> & _); done). destruct Hs2 as [gs Hgs]. rewrite Hgs.
    destruct (read_run_ok st s' (Z.to_nat (el_len elt)) (pos + 8) glyphs 0) as (new & -> & Hnew & Hfn);
      [by eapply searchable_same|by eexists|lia..|]. cbn [step_bind]. exists n'. split; [lia|]. exists (a + el_len elt). split.
    + unfold text_inv. cbn [ts_st ts_pos ts_set ts_lists ts_glyphs]. rewrite run_total_snoc, length_app, Z2Nat.id by lia. cbn. pose proof (run_pad_range (size * el_len elt)).
      split; [done|]. split; [nia|]. split; [done|]. split; [lia|]. split; [lia|]. apply Forall_app. split; [done|].
      destruct Hsame as (<- & _). done.
    + cbn [ts_pos ts_lists]. rewrite length_app, Z2Nat.id by lia. cbn [length]. replace (Z.of_nat (length lists + 1)) with (Z.of_nat (length lists) + 1) by lia.
      by replace (pos + 8 + size * el_len elt + run_pad (size * el_len elt)) with
        (pos + 8 + (size * el_len elt + run_pad (size * el_len elt))) by lia.
Qed.
End Second.
