(* ===== verification/GlyphTextSafe.v ===== *)
(** * Requests that draw glyphs return (render/render.c) *)

From S2P Require Import Prelude Wire Request Glyphs GlyphProbe GlyphTable GlyphHash GlyphInv GlyphSets GlyphServe GlyphScreen.
From S2P Require Import GlyphRequest GlyphPolicy GlyphText GlyphWalk.

(** ** Swapping keeps the request's length *)

(** [body'] is [body] with some bytes exchanged. *)
Definition same_size (body body' : list Z) : Prop := length body' = length body /\ (bytes body -> bytes body').
#[export] Instance same_size_preorder : PreOrder same_size.
Proof. split; [by split|]. intros a b c [? ?] [? ?]. split; [congruence|auto]. Qed.

Lemma swap_bytes_Some body pos n : 0 <= pos -> 0 <= n -> pos + n <= Z.of_nat (length body) ->
  exists body', swap_bytes body pos n = Some body' /\ same_size body body'.
Proof.
  intros Hp Hn Hlen. destruct (read_at_Some body pos n Hp Hn Hlen) as (bs & E & Hbs). unfold swap_bytes. rewrite E. cbn.
  eexists. split; [reflexivity|]. split.
  - rewrite !length_app, length_rev, length_take, length_drop. lia.
  - intros Hb. apply Forall_app. split; [by apply Forall_take|]. apply Forall_app. split; [|by apply Forall_drop].
    apply Forall_rev. unfold read_at in E. case_match; [|discriminate]. injection E as <-. by apply Forall_take, Forall_drop.
Qed.

Lemma swap_run_Ret size n : 0 <= size -> forall body pos, 0 <= pos -> pos + size * Z.of_nat n <= Z.of_nat (length body) ->
  exists body', swap_run size n body pos = Ret body' /\ same_size body body'.
Proof.
  intros Hs. induction n as [|n IH]; intros body pos Hp Hlen; cbn [swap_run]; [by exists body|].
  destruct (swap_bytes_Some body pos size) as (body1 & -> & H1); [nia..|]. cbn [obind_opt].
  destruct (IH body1 (pos + size)) as (body2 & -> & H2); [lia|destruct H1 as [-> _]; nia|].
  exists body2. split; [done|by etransitivity].
Qed.

Lemma swap_pass size fin body : 1 <= size <= 4 -> bytes body -> fin <= Z.of_nat (length body) -> fin < 2 ^ 32 ->
  exists r, run_loop (swap_step size fin) TURNS (body, 0) = Ret r /\
    match r with inl body' => same_size body body' | inr rc => rc = BadLength end.
Proof.
  intros Hsize Hb Hlen Hmax.
  apply (run_loop_ranked (swap_step size fin) (fun n '(body', pos) => same_size body body' /\ 0 <= pos /\ n = Z.to_nat (fin - pos))
    _ TURNS (Z.to_nat fin)); [|split; [done|split; [lia|f_equal; lia]]|change (2 ^ 32) with 4294967296 in Hmax; unfold TURNS; lia].
  intros n [body0 pos] (H0 & Hp & ->). unfold swap_step. destruct (Z.ltb_spec (pos + 8) fin) as [Hlt|]; cbn [negb]; [|done].
  destruct (swap_bytes_Some body0 (pos + 4) 2) as (body1 & -> & H1); [destruct H0; lia..|]. cbn [mbind option_bind].
  destruct (swap_bytes_Some body1 (pos + 6) 2) as (body2 & -> & H2); [destruct H0, H1; lia..|].
  assert (H02 : same_size body body2) by (etransitivity; [done|]; by etransitivity). pose proof H02 as [Hl2 Hb2].
  destruct (read_elt_Some body2 pos) as (elt & -> & He); [auto|lia..|].
  destruct (Z.eqb_spec (el_len elt) 255) as [|Hne].
  - destruct (Z.gtb_spec (pos + 8 + 4) fin); [done|]. destruct (swap_bytes_Some body2 (pos + 8) 4) as (body3 & -> & Hs3); [lia..|].
    eexists. split; [|split; [by etransitivity|split; [lia|reflexivity]]]. lia.
  - pose proof (run_pad_range (size * el_len elt)). destruct (Z.eqb_spec size 1).
    { eexists. split; [|split; [done|split; [nia|reflexivity]]]. nia. }
    destruct (Z.gtb_spec (pos + 8 + el_len elt * size) fin); [done|].
    destruct (swap_run_Ret size (Z.to_nat (el_len elt)) ltac:(lia) body2 (pos + 8)) as (body3 & -> & Hs3); [lia..|].
    cbn [step_bind]. eexists. split; [|split; [by etransitivity|split; [nia|reflexivity]]]. nia.
Qed.

(** ** The request *)

Lemma served_searchable st : served st -> searchable st.
Proof.
  intros (I & Hok & Hn). split; [exact (nm_set _ _ Hn)|]. intros s id [gs Hs]. rewrite (FindGlyph_ok st I [] s gs id Hok Hs).
  eexists. split; [reflexivity|]. destruct (ids_of gs !! id) as [g|] eqn:Hid; [right|by left].
  apply (go_cells _ _ _ Hok). apply elem_of_app. left. apply holders_elem. by exists s, gs, id.
Qed.

Section Request.
Context (env : render_env) (picture : Z -> Z -> Z + PictureRec).

Lemma check_text_same st req st' r : check_text env picture st req = (st', r) -> same_glyphs st st' /\
  forall pSrc pDst f s, r = inr (pSrc, pDst, f, s) -> searchable st -> is_Some (gm_sets st !! s).
Proof.
  unfold check_text. intros E. repeat (case_match; simplify_eq); try (split; [by repeat split|discriminate]).
  all: match goal with E : lookup_set _ ?st1 _ _ = _ |- _ =>
    assert (Hsm : same_glyphs st st1) by (by repeat split);
    split; [transitivity st1; [exact Hsm|by eapply lookup_set_same]|];
    intros ????? Hst; simplify_eq; exact (lookup_set_set _ st1 _ _ _ _ (searchable_same _ _ Hsm Hst) E) end.
Qed.
Lemma array_room_same env' st local n sizeof st' r : array_room env' st local n sizeof = (st', r) ->
  same_glyphs st st' /\ forall room, r = Some room -> n <= room.
Proof.
  unfold array_room. destruct (Z.leb_spec n local); [by intros [= <- <-]; split; [|intros ? [= <-]]|].
  unfold gl_alloc. intros [= <- <-]. split; [by repeat split|]. intros room. case_match; intros; simplify_eq; lia.
Qed.

(** What a request comes to: an answer, and when there is something to draw, as
    many runs as are counted, with as many glyphs, each of which is there. *)
Definition drawn_well (st : GlyphState) (res : outcome (GlyphState * Z * option glyph_drawing)) : Prop :=
  exists st' rc d, res = Ret (st', rc, d) /\ same_glyphs st st' /\
    match d with
    | Some d => rc = Success /\ gd_nlist d = Z.of_nat (length (gd_lists d)) /\
        run_total (gd_lists d) = Z.of_nat (length (gd_glyphs d)) /\
        Forall (fun g => is_Some (gm_cells st !! g)) (gd_glyphs d)
    | None => True
    end.
Lemma drawn_not st st' rc : same_glyphs st st' -> drawn_well st (Ret (st', rc, None)).
Proof. intros. by exists st', rc, None. Qed.

Lemma Single_drawn st req :
  searchable st -> bytes (tr_rest req) -> 4 * tr_req_len req - 28 <= Z.of_nat (length (tr_rest req)) ->
  0 <= 4 * tr_req_len req - 28 <= 2 ^ 30 ->
  drawn_well st (SingleRenderCompositeGlyphs env picture st req).
Proof.
  intros Hst Hb Hlen Hmax. unfold SingleRenderCompositeGlyphs. set (size := id_size (tr_type req)).
  assert (Hsize : 1 <= size <= 4) by (destruct (id_size_cases (tr_type req)) as [|[|]]; unfold size; lia).
  destruct (check_text env picture st req) as [st1 [rc|[[[pSrc pDst] f] s]]] eqn:Ec;
    destruct (check_text_same _ _ _ _ Ec) as [H1 Hs]; [by apply drawn_not|]. specialize (Hs _ _ _ _ eq_refl Hst).
  destruct (counts_exists size (4 * tr_req_len req - 28) (tr_rest req) Hsize Hb Hlen 0 0 0) as (n & ng & nl & Hc & Hn); [lia|].
  rewrite (count_pass size _ _ Hsize ng nl n) by (done || lia). cbn [obind].
  destruct (array_room env st1 NLOCALGLYPH ng 8) as [st2 [groom|]] eqn:Eg; destruct (array_room_same _ _ _ _ _ _ _ Eg) as [H2 Hg];
    [|apply drawn_not; by transitivity st1]. specialize (Hg _ eq_refl).
  destruct (array_room env st2 NLOCALDELTA nl 16) as [st3 [lroom|]] eqn:El; destruct (array_room_same _ _ _ _ _ _ _ El) as [H3 Hl];
    [|apply drawn_not; transitivity st1; [done|]; by transitivity st2]. specialize (Hl _ eq_refl).
  assert (H03 : same_glyphs st st3) by (transitivity st1; [done|]; by transitivity st2).
  destruct (text_pass env size (4 * tr_req_len req - 28) lroom groom (tr_rest req) Hsize Hlen st3 s ng nl n)
    as (t & err & -> & (H4 & Hp & _ & _ & Hr & Hf) & Hcount); [by eapply searchable_same| |done|lia|lia|done|done|].
  { destruct H03 as (_ & -> & _). done. }
  cbn [obind]. assert (H04 : same_glyphs st (ts_st t)) by (by transitivity st3).
  destruct err as [rc|]; [by apply drawn_not|]. case_match; [by apply drawn_not|].
  eexists _, _, _. split; [reflexivity|]. split; [done|]. cbn. split; [done|]. split; [by rewrite Hcount|]. split; [done|].
  destruct H03 as (<- & _). done.
Qed.
End Request.

Lemma text_bytes_in_bounds env picture st req :
  0 <= RenderErrBase env -> reachable env st -> bytes (tr_rest req) ->
  Z.of_nat (length (tr_rest req)) = 0 `max` (4 * tr_req_len req - 28) -> 4 * tr_req_len req <= 2 ^ 30 ->
  drawn_well st (ProcRenderCompositeGlyphs env picture st req).
Proof.
  intros Hbase Hreach Hb Hlen Hmax. pose proof (served_searchable st (reachable_served env st Hbase Hreach)) as Hst.
  change (2 ^ 30) with 1073741824 in Hmax. unfold ProcRenderCompositeGlyphs, too_short.
  destruct (Z.gtb_spec (Z.shiftr 28 2) (tr_req_len req)) as [|Hshort]; [by apply drawn_not|]. change (Z.shiftr 28 2) with 7 in Hshort.
  destruct (tr_swapped req); [|apply Single_drawn; try done; change (2 ^ 30) with 1073741824; lia].
  destruct (swap_pass (id_size (tr_type req)) (4 * tr_req_len req - 28) (tr_rest req)) as (r & -> & Hr);
    [destruct (id_size_cases (tr_type req)) as [|[|]]; lia|done|lia|change (2 ^ 32) with 4294967296; lia|].
  cbn [obind]. destruct r as [body|rc]; [|by apply drawn_not]. destruct Hr as [Hl Hbb].
  apply Single_drawn; cbn [tr_rest tr_req_len]; [done|auto|lia|change (2 ^ 30) with 1073741824; lia].
Qed.

(** C15: in every reachable state a request to draw glyphs, of any bytes and in either
    byte order, is answered: both passes stay within the request and its arrays,
    every set and glyph that is used is there, and what is drawn are as many runs as
    were counted, their lengths adding up to the glyphs found.  Glyph sets do not
    change. *)
Theorem text_in_bounds env picture st req :
  0 <= RenderErrBase env -> reachable env st -> bytes (tr_rest req) ->
  Z.of_nat (length (tr_rest req)) = 0 `max` (4 * tr_req_len req - 28) -> 4 * tr_req_len req <= 2 ^ 30 ->
  drawn_well st (ProcRenderCompositeGlyphs env picture st req).
Proof. apply text_bytes_in_bounds. Qed.
