(* ===== verification/GlyphTextWire.v ===== *)
(** * What a client writes is what is drawn: the wire format (render/render.c)

    A client's runs and changes of set as bytes, in either byte order, and what the
    two loops that go over the bytes read back. *)

From S2P Require Import Prelude Wire Request Glyphs GlyphProbe GlyphTable GlyphHash GlyphInv GlyphRequest GlyphText GlyphWalk.

(** ** The client's side *)

Inductive text_item :=
  | Run (dx dy : Z) (ids : list Z)
  | Use (gsid : Z).

Definition order (sw : bool) (bs : list Z) : list Z := if sw then rev bs else bs.
Definition id_bytes (size id : Z) : list Z := take (Z.to_nat size) (le32 id).

(** A run's length is a byte, of which 255 stands for a change of set. *)
Definition item_ok (size : Z) (i : text_item) : Prop :=
  match i with
  | Run dx dy ids => -32768 <= dx < 32768 /\ -32768 <= dy < 32768 /\ (length ids < 255)%nat /\
      Forall (fun id => 0 <= id < 256 ^ size) ids
  | Use g => 0 <= g < 4294967296
  end.

Definition run_bytes (sw : bool) (size : Z) (ids : list Z) : list Z := mjoin (order sw ∘ id_bytes size <$> ids).
Definition pad_bytes (size : Z) (ids : list Z) : list Z := zeros (run_pad (size * Z.of_nat (length ids))).
Definition item_bytes (sw : bool) (size : Z) (i : text_item) : list Z :=
  match i with
  | Run dx dy ids => [Z.of_nat (length ids); 0; 0; 0] ++ order sw (le16 (u16 dx)) ++ order sw (le16 (u16 dy)) ++
      run_bytes sw size ids ++ pad_bytes size ids
  | Use g => [255; 0; 0; 0; 0; 0; 0; 0] ++ order sw (le32 g)
  end.
Definition text_bytes (sw : bool) (size : Z) (items : list text_item) : list Z := mjoin (item_bytes sw size <$> items).

(** What the server looks at: an element of no more than eight bytes at the end it
    passes over, and it has no use for a set when nothing follows. *)
Fixpoint seen (items : list text_item) : list text_item :=
  match items with
  | [] => []
  | [Run _ _ []] => []
  | [Use _] => []
  | i :: l => i :: seen l
  end.

(** ** What the server is to draw *)

Section Meaning.
Context (env : render_env) (st : GlyphState).

(** The runs with their glyphs, or the error of a set that cannot be used: ids that a
    set does not have are left out. *)
Fixpoint meaning (s : Z) (items : list text_item) : Z + list (GlyphListRec * list Z) :=
  match items with
  | [] => inr []
  | Run dx dy ids :: l =>
      match gm_sets st !! s, meaning s l with
      | Some gs, inr runs =>
          let found := omap (fun id => ids_of gs !! id) ids in
          inr ((GlyphList dx dy (Z.of_nat (length found)) (gs_format gs), found) :: runs)
      | _, r => r
      end
  | Use id :: l => match (lookup_set env st id DixUseAccess).2 with inl rc => inl rc | inr s' => meaning s' l end
  end.
End Meaning.

(** ** Reading and swapping at a place *)

Lemma read_at_app pre chunk rest pos n : pos = Z.of_nat (length pre) -> n = Z.of_nat (length chunk) ->
  read_at (pre ++ chunk ++ rest) pos n = Some chunk.
Proof.
  intros -> ->. unfold read_at. rewrite !length_app, (proj2 (Z.leb_le _ _)), (proj2 (Z.leb_le _ _)) by lia. cbn [andb].
  by rewrite !Nat2Z.id, drop_app_length, take_app_length.
Qed.

Lemma swap_bytes_app pre chunk rest pos n : pos = Z.of_nat (length pre) -> n = Z.of_nat (length chunk) ->
  swap_bytes (pre ++ chunk ++ rest) pos n = Some (pre ++ rev chunk ++ rest).
Proof.
  intros Hp Hn. unfold swap_bytes. rewrite (read_at_app pre chunk rest pos n Hp Hn). subst. cbn.
  rewrite Nat2Z.id, take_app_length, (app_assoc pre chunk rest).
  replace (Z.to_nat _) with (length (pre ++ chunk)) by (rewrite length_app; lia). by rewrite drop_app_length.
Qed.

Lemma length_le32 x : length (le32 x) = 4%nat. Proof. done. Qed.
Lemma length_order sw bs : length (order sw bs) = length bs.
Proof. destruct sw; [apply length_rev|done]. Qed.

Section Sizes.
Context (size : Z) (Hsize : size = 1 \/ size = 2 \/ size = 4).

Lemma length_id_bytes id : Z.of_nat (length (id_bytes size id)) = size.
Proof. unfold id_bytes. rewrite length_take, length_le32. lia. Qed.
Lemma first_id_bytes id : 0 <= id < 256 ^ size -> first_bytes (Z.to_nat size) (id_bytes size id) = id.
Proof.
  intros Hid. destruct Hsize as [-> | [-> | ->]];
    [change (256 ^ 1) with 256 in Hid|change (256 ^ 2) with 65536 in Hid|change (256 ^ 4) with 4294967296 in Hid];
    unfold id_bytes, le32; cbv [Z.to_nat Pos.to_nat Pos.iter_op Init.Nat.add take first_bytes]; Z.div_mod_to_equations; lia.
Qed.
Lemma read_uint_app pre id rest pos : pos = Z.of_nat (length pre) -> 0 <= id < 256 ^ size ->
  read_uint (pre ++ id_bytes size id ++ rest) pos size = Some id.
Proof.
  intros Hp Hid. unfold read_uint. rewrite (read_at_app pre _ rest pos size Hp) by by rewrite length_id_bytes. cbn.
  by rewrite first_id_bytes.
Qed.
Lemma length_run_bytes sw ids : Z.of_nat (length (run_bytes sw size ids)) = size * Z.of_nat (length ids).
Proof.
  unfold run_bytes. induction ids as [|id ids IH]; [cbn; lia|]. rewrite fmap_cons, mjoin_cons, length_app. cbn [compose].
  rewrite Nat2Z.inj_add, IH, length_order, length_id_bytes. cbn [length]. lia.
Qed.
Lemma length_pad_bytes ids : Z.of_nat (length (pad_bytes size ids)) = run_pad (size * Z.of_nat (length ids)).
Proof. apply length_zeros. apply run_pad_range. Qed.
End Sizes.

Lemma s16_bytes x : -32768 <= x < 32768 -> s16 (u16 x mod 256 + 256 * (u16 x / 256 mod 256)) = x.
Proof. intros. unfold s16, u16. Z.div_mod_to_equations. lia. Qed.

Lemma read_elt_run pre dx dy (ids rest : list Z) pos : pos = Z.of_nat (length pre) -> -32768 <= dx < 32768 -> -32768 <= dy < 32768 ->
  read_elt (pre ++ [Z.of_nat (length ids); 0; 0; 0] ++ le16 (u16 dx) ++ le16 (u16 dy) ++ rest) pos =
    Some (GlyphElt (Z.of_nat (length ids)) dx dy).
Proof.
  intros Hp Hx Hy. unfold read_elt.
  pose proof (read_at_app pre ([Z.of_nat (length ids); 0; 0; 0] ++ le16 (u16 dx) ++ le16 (u16 dy)) rest pos 8 Hp eq_refl) as E.
  cbn [app le16] in E |- *. rewrite E. cbn [le16]. by rewrite !s16_bytes.
Qed.
Lemma read_elt_use pre rest pos : pos = Z.of_nat (length pre) ->
  read_elt (pre ++ [255; 0; 0; 0; 0; 0; 0; 0] ++ rest) pos = Some (GlyphElt 255 0 0).
Proof. intros Hp. unfold read_elt. by rewrite (read_at_app pre _ rest pos 8 Hp). Qed.

(** ** What the second pass finds in the request *)

(** The bytes of these items, in the server's order; those of an empty run at the
    end do not matter. *)
Inductive lays (size : Z) : list Z -> list text_item -> Prop :=
  | lays_nil : lays size [] []
  | lays_last b dx dy : length b = 8%nat -> lays size b [Run dx dy []]
  | lays_cons i rest items : lays size rest items -> lays size (item_bytes false size i ++ rest) (i :: items).

Lemma lays_text size items : lays size (text_bytes false size items) items.
Proof. induction items as [|i l IH]; [constructor|]. unfold text_bytes. rewrite fmap_cons, mjoin_cons. by constructor. Qed.

Lemma length_item_bytes sw size i : size = 1 \/ size = 2 \/ size = 4 -> Z.of_nat (length (item_bytes sw size i)) =
  match i with
  | Run _ _ ids => 8 + (size * Z.of_nat (length ids) + run_pad (size * Z.of_nat (length ids)))
  | Use _ => 12
  end.
Proof.
  intros Hs. destruct i as [dx dy ids|g]; cbn [item_bytes]; rewrite !length_app, ?length_order; [|done].
  rewrite !Nat2Z.inj_add, length_run_bytes, length_pad_bytes by done. cbn [length le16]. lia.
Qed.

Lemma length_run_item sw size dx dy ids : size = 1 \/ size = 2 \/ size = 4 ->
  Z.of_nat (length (item_bytes sw size (Run dx dy ids))) =
    8 + (size * Z.of_nat (length ids) + run_pad (size * Z.of_nat (length ids))).
Proof. apply length_item_bytes. Qed.

Lemma lays_nil_inv size items : lays size [] items -> items = [].
Proof.
  inversion 1 as [|? ? ? Hl|i rest items' Hrest E]; [done|done|]. destruct i; discriminate.
Qed.
