(* ===== verification/GlyphTextRead.v ===== *)
(** * What the loops read of a client's text (render/render.c) *)

From S2P Require Import Prelude Wire Request Glyphs GlyphProbe GlyphTable GlyphHash GlyphInv GlyphRequest GlyphText GlyphWalk GlyphTextWire.

(** ** Swapping *)

Section Read.
Context (size : Z) (Hsize : size = 1 \/ size = 2 \/ size = 4).

Lemma swap_run_app ids : forall pre rest pos, pos = Z.of_nat (length pre) ->
  swap_run size (length ids) (pre ++ run_bytes true size ids ++ rest) pos = Ret (pre ++ run_bytes false size ids ++ rest).
Proof.
  induction ids as [|id ids IH]; intros pre rest pos Hp; [done|]. unfold run_bytes in *. rewrite !fmap_cons, !mjoin_cons.
  cbn [compose order length swap_run]. rewrite <- !app_assoc.
  rewrite (swap_bytes_app pre (rev (id_bytes size id))) by (rewrite ?length_rev, ?length_id_bytes; done).
  cbn [obind_opt]. rewrite rev_involutive, (app_assoc pre), IH, <- app_assoc; [done|].
  rewrite length_app, Nat2Z.inj_add, length_id_bytes by done. lia.
Qed.

Lemma run_bytes_one sw ids : size = 1 -> run_bytes sw size ids = run_bytes false size ids.
Proof. intros ->. unfold run_bytes. f_equal. apply list_fmap_ext. intros i id _. by destruct sw. Qed.

Lemma swap_elt pre a b c d bx by' rest pos : pos = Z.of_nat (length pre) -> length bx = 2%nat -> length by' = 2%nat ->
  (body ← swap_bytes (pre ++ [a; b; c; d] ++ rev bx ++ rev by' ++ rest) (pos + 4) 2; swap_bytes body (pos + 6) 2) =
    Some (pre ++ [a; b; c; d] ++ bx ++ by' ++ rest).
Proof.
  intros Hp Hx Hy. rewrite (app_assoc pre [a; b; c; d]), (swap_bytes_app (pre ++ [a; b; c; d]) (rev bx));
    [|rewrite length_app; cbn; lia|rewrite length_rev; lia].
  cbn [mbind option_bind]. rewrite rev_involutive, (app_assoc _ bx), (swap_bytes_app _ (rev by'));
    [|rewrite !length_app; cbn; lia|rewrite length_rev; lia]. by rewrite rev_involutive, <- !app_assoc.
Qed.

(** Where the loop is in a client's text. *)
Definition swap_inv (items0 : list text_item) (fin : Z) (s : list Z * Z) : Prop :=
  exists pre items, s.1 = pre ++ text_bytes true size items /\ s.2 = Z.of_nat (length pre) /\ fin = Z.of_nat (length s.1) /\
    Forall (item_ok size) items /\ forall X, lays size X items -> lays size (pre ++ X) items0.

Lemma text_bytes_cons sw i l : text_bytes sw size (i :: l) = item_bytes sw size i ++ text_bytes sw size l.
Proof. unfold text_bytes. by rewrite fmap_cons, mjoin_cons. Qed.

Lemma swap_inv_next items0 fin pre i l body' next :
  fin = Z.of_nat (length (pre ++ text_bytes true size (i :: l))) -> Forall (item_ok size) l ->
  (forall X, lays size X (i :: l) -> lays size (pre ++ X) items0) ->
  body' = pre ++ item_bytes false size i ++ text_bytes true size l ->
  next = Z.of_nat (length pre) + Z.of_nat (length (item_bytes true size i)) ->
  swap_inv items0 fin (body', next).
Proof.
  intros Hf Hok Hlays -> ->. assert (El : Z.of_nat (length (item_bytes true size i)) = Z.of_nat (length (item_bytes false size i)))
    by (rewrite !length_item_bytes; done).
  exists (pre ++ item_bytes false size i), l. cbn [fst snd]. split; [by rewrite app_assoc|]. split; [rewrite length_app; lia|].
  split; [rewrite Hf, text_bytes_cons, !length_app; lia|]. split; [done|].
  intros X HX. rewrite <- app_assoc. apply Hlays. by constructor.
Qed.

(** Only nothing and an empty run take no more than eight bytes. *)
Lemma item_long sw i : (exists dx dy, i = Run dx dy []) \/ 8 < Z.of_nat (length (item_bytes sw size i)).
Proof.
  rewrite length_item_bytes by done. destruct i as [dx dy [|id ids]|g]; [left; by eexists _, _|right|right; lia].
  pose proof (run_pad_range (size * Z.of_nat (length (id :: ids)))). cbn [length] in *. nia.
Qed.
Lemma item_length sw i : 8 <= Z.of_nat (length (item_bytes sw size i)).
Proof. rewrite length_item_bytes by done. destruct i as [dx dy ids|g]; [|lia]. pose proof (run_pad_range (size * Z.of_nat (length ids))). nia. Qed.
Lemma text_short sw items : Z.of_nat (length (text_bytes sw size items)) <= 8 -> items = [] \/ exists dx dy, items = [Run dx dy []].
Proof.
  destruct items as [|i l]; [by left|right]. rewrite text_bytes_cons, length_app in *.
  destruct (item_long sw i) as [(dx & dy & ->)|]; [|lia]. destruct l as [|j l]; [by exists dx, dy|].
  rewrite text_bytes_cons, length_app in *. pose proof (item_length sw (Run dx dy [])). pose proof (item_length sw j). lia.
Qed.

Lemma swap_text_step items0 fin s : swap_inv items0 fin s ->
  match swap_step size fin s with
  | inl s' => swap_inv items0 fin s'
  | inr (Ret (inl body)) => lays size body items0
  | inr (Ret (inr _)) => False
  | inr _ => True
  end.
Proof.
  destruct s as [body pos]. intros (pre & items & Hb & Hpos & Hf & Hok & Hlays). cbn [fst snd] in *. subst pos. unfold swap_step.
  destruct (Z.ltb_spec (Z.of_nat (length pre) + 8) fin) as [Hlt|Hge]; cbn [negb].
  2: { rewrite Hf, Hb, length_app in Hge. destruct (text_short true items) as [->|(dx & dy & ->)]; [lia| |]; subst body; apply Hlays;
         [constructor|]. constructor. rewrite text_bytes_cons, app_nil_r.
       pose proof (length_run_item true size dx dy [] Hsize) as Hl. change (Z.of_nat (@length Z [])) with 0 in Hl.
       rewrite Z.mul_0_r in Hl. change (run_pad 0) with 0 in Hl. lia. }
  destruct items as [|i l]; [rewrite app_nil_r in Hb; subst body; lia|]. apply Forall_cons in Hok as [Hi Hl].
  rewrite Hb in Hf. destruct i as [dx dy ids|g].
  - assert (Hend : Z.of_nat (length pre) + 8 + Z.of_nat (length ids) * size <= fin).
    { rewrite Hf, text_bytes_cons, !length_app, !Nat2Z.inj_add, length_run_item by done.
      pose proof (run_pad_range (size * Z.of_nat (length ids))). lia. }
    assert (Hnext : forall body' next,
      body' = pre ++ item_bytes false size (Run dx dy ids) ++ text_bytes true size l ->
      next = Z.of_nat (length pre) + 8 + size * Z.of_nat (length ids) + run_pad (size * Z.of_nat (length ids)) ->
      swap_inv items0 fin (body', next)).
    { intros body' next -> ->. eapply (swap_inv_next items0 _ pre (Run dx dy ids) l); [done..|]. rewrite length_run_item by done. lia. }
    destruct Hi as (Hx & Hy & Hids & _). subst body. rewrite text_bytes_cons. cbn [item_bytes] in *. rewrite <- !app_assoc in *.
    change (order true (le16 (u16 dx))) with (rev (le16 (u16 dx))). change (order true (le16 (u16 dy))) with (rev (le16 (u16 dy))).
    rewrite swap_elt, read_elt_run by done. cbn [el_len]. rewrite (proj2 (Z.eqb_neq _ 255)) by lia.
    destruct (Z.eqb_spec size 1) as [Hone|].
    { apply Hnext; [|done]. by rewrite (run_bytes_one true). }
    destruct (Z.gtb_spec (Z.of_nat (length pre) + 8 + Z.of_nat (length ids) * size) fin); [lia|]. rewrite Nat2Z.id.
    set (head := pre ++ [Z.of_nat (length ids); 0; 0; 0] ++ le16 (u16 dx) ++ le16 (u16 dy)).
    assert (Ehead : forall tl, pre ++ [Z.of_nat (length ids); 0; 0; 0] ++ le16 (u16 dx) ++ le16 (u16 dy) ++ tl = head ++ tl)
      by (intros tl; unfold head; by rewrite <- !app_assoc).
    rewrite Ehead, swap_run_app by (unfold head; rewrite !length_app; cbn; lia). cbn [step_bind]. apply Hnext; [|done].
    by rewrite <- Ehead.
  - assert (Hnext : swap_inv items0 fin (pre ++ item_bytes false size (Use g) ++ text_bytes true size l, Z.of_nat (length pre) + 8 + 4)).
    { eapply (swap_inv_next items0 _ pre (Use g) l); [done..|]. rewrite length_item_bytes by done. lia. }
    assert (Hend : Z.of_nat (length pre) + 12 <= fin).
    { rewrite Hf, text_bytes_cons, !length_app, !Nat2Z.inj_add, length_item_bytes by done. lia. }
    subst body. rewrite text_bytes_cons. cbn [item_bytes] in *. rewrite <- !app_assoc in *.
    assert (Er : forall tl, pre ++ [255; 0; 0; 0; 0; 0; 0; 0] ++ tl = pre ++ [255; 0; 0; 0] ++ rev [0; 0] ++ rev [0; 0] ++ tl) by done.
    rewrite Er, (swap_elt pre 255 0 0 0 [0; 0] [0; 0]) by done.
    assert (E8 : forall tl, pre ++ [255; 0; 0; 0] ++ [0; 0] ++ [0; 0] ++ tl = pre ++ [255; 0; 0; 0; 0; 0; 0; 0] ++ tl) by done.
    rewrite E8, read_elt_use by done. cbn [el_len Z.eqb Pos.eqb]. destruct (Z.gtb_spec (Z.of_nat (length pre) + 8 + 4) fin); [lia|].
    rewrite (app_assoc pre), (swap_bytes_app _ (rev (le32 g))) by (rewrite ?length_app; cbn; lia).
    by rewrite rev_involutive, <- app_assoc.
Qed.

Lemma swap_text items fin body : Forall (item_ok size) items -> body = text_bytes true size items -> fin = Z.of_nat (length body) ->
  forall r, run_loop (swap_step size fin) TURNS (body, 0) = Ret r -> exists body', r = inl body' /\ lays size body' items.
Proof.
  intros Hok Hb Hf r Hrun.
  apply (run_loop_inv (swap_step size fin) (swap_inv items fin) (fun r => exists body', r = inl body' /\ lays size body' items)) in Hrun; [done| |].
  - intros s Hs. pose proof (swap_text_step items fin s Hs) as H. destruct (swap_step size fin s) as [|[[body'|]| | |]]; try done. by exists body'.
  - exists [], items. by split_and!.
Qed.
End Read.
