(* ===== verification/GlyphTextDraw.v ===== *)
(** * What a client writes is what is drawn (render/render.c) *)

From S2P Require Import Prelude Wire Request Glyphs GlyphProbe GlyphTable GlyphHash GlyphInv GlyphServe GlyphScreen GlyphPolicy.
From S2P Require Import GlyphRequest GlyphText GlyphWalk GlyphTextSafe GlyphTextWire GlyphTextRead.

(** ** Elements at the end *)

Lemma seen_cons i l : l <> [] \/ (exists dx dy id ids, i = Run dx dy (id :: ids)) -> seen (i :: l) = i :: seen l.
Proof.
  intros [Hl|(dx & dy & id & ids & ->)]; [|done]. destruct l as [|j l]; [done|]. by destruct i as [dx dy [|id ids]|g].
Qed.

(** Runs that were read before those of a meaning. *)
Definition joined (lists : list GlyphListRec) (glyphs : list Z) (m : Z + list (GlyphListRec * list Z)) :
    Z + list GlyphListRec * list Z :=
  match m with
  | inl rc => inl rc
  | inr runs => inr (lists ++ (fst <$> runs), glyphs ++ mjoin (snd <$> runs))
  end.

Section Draw.
Context (env : render_env) (size : Z) (Hsize : size = 1 \/ size = 2 \/ size = 4).

Lemma lays_long b l : lays size b l -> l <> [] -> 8 <= Z.of_nat (length b).
Proof.
  intros [|b' dx dy Hb|i rest l' _]; [done|lia|]. intros _. rewrite length_app. pose proof (item_length size Hsize false i). lia.
Qed.

(** The glyphs that the sets of a state have. *)
Definition sets_find (st : GlyphState) : Prop :=
  forall s gs id, gm_sets st !! s = Some gs -> FindGlyph st s id = Ret (default 0 (ids_of gs !! id)) /\ ids_of gs !! id <> Some 0.

Lemma read_run_text st st0 s gs body fin room ids : forall pre rest pos glyphs len r,
  sets_find st0 -> same_glyphs st0 st -> gm_sets st0 !! s = Some gs ->
  body = pre ++ run_bytes false size ids ++ rest -> pos = Z.of_nat (length pre) -> fin = Z.of_nat (length body) ->
  Forall (fun id => 0 <= id < 256 ^ size) ids -> 0 <= len -> len + Z.of_nat (length ids) < 256 ->
  read_run st s size fin room body (length ids) pos glyphs len = Ret r ->
  r = (pos + size * Z.of_nat (length ids), glyphs ++ omap (fun id => ids_of gs !! id) ids,
       len + Z.of_nat (length (omap (fun id => ids_of gs !! id) ids))).
Proof.
  induction ids as [|id ids IH]; intros pre rest pos glyphs len r Hfind Hsame Hs Hb Hp Hf Hok Hlen Hlen2 Hrun.
  { injection Hrun as <-. cbn. rewrite app_nil_r. f_equal; [f_equal|]; lia. }
  apply Forall_cons in Hok as [Hid Hok]. unfold run_bytes in Hb. rewrite fmap_cons, mjoin_cons in Hb. cbn [compose order] in Hb.
  fold (run_bytes false size ids) in Hb. rewrite <- app_assoc in Hb. cbn [length read_run] in Hrun.
  pose proof (length_id_bytes size Hsize id) as Hl.
  assert (Hin : pos + size <= fin) by (rewrite Hf, Hb, !length_app; lia). rewrite (proj2 (Z.leb_le _ _) Hin) in Hrun. cbn [negb] in Hrun.
  rewrite Hb in Hrun at 1. rewrite (read_uint_app size Hsize pre id _ pos Hp Hid) in Hrun. cbn [obind_opt] in Hrun.
  rewrite (FindGlyph_same st0 st) in Hrun by done. destruct (Hfind s gs id Hs) as [Ef Hne]. rewrite Ef in Hrun. cbn [obind] in Hrun. rewrite Hb in Hrun.
  case_match; [discriminate|]. rewrite (app_assoc pre) in Hrun. rewrite (app_assoc pre) in Hb.
  assert (Hlp : pos + size = Z.of_nat (length (pre ++ id_bytes size id))) by (rewrite length_app; lia).
  cbn [length] in Hlen2. replace (size * Z.of_nat (length (id :: ids))) with (size + size * Z.of_nat (length ids)) by (cbn [length]; lia).
  cbn [omap list_omap]. rewrite Z.add_assoc. destruct (ids_of gs !! id) as [g|]; cbn [default] in Hrun |- *; unfold Datatypes.id in Hrun.
  - destruct (Z.eqb_spec g 0); [congruence|]. assert (Eu : u8 (len + 1) = len + 1) by (unfold u8; apply Z.mod_small; lia).
    rewrite Eu in Hrun. rewrite <- Hb in Hrun. apply (IH (pre ++ id_bytes size id) rest) in Hrun; [|done..|lia|lia]. rewrite Hrun, <- app_assoc. cbn [length app].
    f_equal. lia.
  - cbn [Z.eqb] in Hrun. rewrite <- Hb in Hrun. apply (IH (pre ++ id_bytes size id) rest) in Hrun; [done..|lia].
Qed.

Section Pass.
Context (st0 : GlyphState) (Hfind : sets_find st0) (fin : Z) (body : list Z) (Hfin : fin = Z.of_nat (length body)).

(** The second pass has read what is not in [items] any more. *)
Definition draw_inv (final : Z + list GlyphListRec * list Z) (t : text_state) : Prop :=
  exists pre b items, body = pre ++ b /\ ts_pos t = Z.of_nat (length pre) /\ lays size b items /\ Forall (item_ok size) items /\
    same_glyphs st0 (ts_st t) /\ joined (ts_lists t) (ts_glyphs t) (meaning env st0 (ts_set t) (seen items)) = final.

Lemma draw_inv_end final t : draw_inv final t -> fin <= ts_pos t + 8 -> ts_pos t <= fin /\ final = inr (ts_lists t, ts_glyphs t).
Proof.
  intros (pre & b & items & Hb & Hp & Hl & _ & _ & Hj) Hend. rewrite Hp, Hfin, Hb, length_app in Hend |- *. split; [lia|].
  assert (seen items = []) as Hs.
  { destruct Hl as [|b dx dy _|i rest l Hl]; [done..|]. rewrite length_app in Hend.
    destruct (item_long size Hsize false i) as [(dx & dy & ->)|]; [|lia]. pose proof (item_length size Hsize false (Run dx dy [])).
    destruct l as [|j l]; [done|]. pose proof (lays_long rest (j :: l) Hl ltac:(done)). lia. }
  rewrite Hs in Hj. cbn in Hj. by rewrite !app_nil_r in Hj.
Qed.

Lemma draw_step final lroom groom t : draw_inv final t ->
  match text_step env size fin lroom groom body t with
  | inl t' => draw_inv final t'
  | inr (Ret (t', Some rc)) => final = inl rc
  | inr (Ret (t', None)) => ts_pos t' <= fin /\ final = inr (ts_lists t', ts_glyphs t')
  | inr _ => True
  end.
Proof.
  intros Hinv. pose proof (draw_inv_end final t Hinv) as Hend. destruct Hinv as (pre & b & items & Hb & Hp & Hl & Hok & Hsame & Hj).
  unfold text_step. destruct (Z.ltb_spec (ts_pos t + 8) fin) as [Hlt|Hge]; cbn [negb]; [|by apply Hend]. clear Hend.
  rewrite Hp, Hfin, Hb, length_app in Hlt. destruct Hl as [|b dx dy Hb8|i rest l Hl]; [cbn in Hlt; lia|lia|].
  rewrite length_app in Hlt. apply Forall_cons in Hok as [Hi Hok].
  assert (Hnext : forall st set lists glyphs pos, pos = Z.of_nat (length pre) + Z.of_nat (length (item_bytes false size i)) -> same_glyphs st0 st ->
    joined lists glyphs (meaning env st0 set (seen l)) = final -> draw_inv final (TextState st pos set lists glyphs)).
  { intros st set lists glyphs pos Hpos Hst Hm. exists (pre ++ item_bytes false size i), rest, l. cbn. rewrite length_app, <- app_assoc.
    split_and!; try done. lia. }
  assert (Hrest : l = [] -> rest = []) by (intros ->; by inversion Hl).
  assert (Hlong := lays_long rest l Hl).
  destruct i as [dx dy ids|g].
  - rewrite length_run_item in Hnext by done. destruct Hi as (Hx & Hy & Hids & Hid).
    rewrite seen_cons in Hj by (destruct l; [|by left]; destruct ids; [|right; by eexists _, _, _, _];
      rewrite (Hrest eq_refl) in Hlt; pose proof (length_run_item false size dx dy [] Hsize) as H0; change (Z.of_nat (@length Z [])) with 0 in H0;
      rewrite Z.mul_0_r in H0; change (run_pad 0) with 0 in H0; cbn [length] in Hlt; lia).
    cbn [item_bytes] in Hb. rewrite <- !app_assoc in Hb. change (order false) with (fun bs : list Z => bs) in Hb. cbn beta in Hb.
    rewrite Hb, (read_elt_run pre dx dy ids) by done. rewrite <- Hb. cbn [el_len el_deltax el_deltay].
    rewrite (proj2 (Z.eqb_neq _ 255)) by lia. destruct (lroom <=? _); [done|]. destruct (gm_sets (ts_st t) !! ts_set t) as [gs|] eqn:Hs; [|done].
    rewrite Nat2Z.id. assert (Hs0 : gm_sets st0 !! ts_set t = Some gs) by (by rewrite <- (proj1 (proj2 Hsame))).
    match goal with |- context [step_bind ?o _] => destruct o as [[[pos' glyphs] len]| | |] eqn:Hrun end; [|done..]. cbn [step_bind].
    set (head := pre ++ [Z.of_nat (length ids); 0; 0; 0] ++ le16 (u16 dx) ++ le16 (u16 dy)).
    apply (read_run_text _ st0 _ gs body fin _ ids head (pad_bytes size ids ++ rest)) in Hrun;
      [|done|done|done|unfold head; by rewrite Hb, <- !app_assoc|unfold head; rewrite !length_app; cbn; lia|done|done|lia|lia].
    injection Hrun as -> -> ->. apply Hnext; [lia|done|]. cbn [meaning] in Hj. rewrite Hs0 in Hj. rewrite <- Hj.
    destruct (meaning env st0 (ts_set t) (seen l)) as [rc|runs]; [done|]. unfold joined. by rewrite !fmap_cons, mjoin_cons, <- !app_assoc.
  - rewrite length_item_bytes in Hnext by done. cbn [item_bytes] in Hb. rewrite <- !app_assoc in Hb.
    change (order false (le32 g)) with (le32 g) in Hb.
    rewrite Hb, read_elt_use by done. rewrite <- Hb. cbn [el_len Z.eqb Pos.eqb].
    assert (Hf : fin = Z.of_nat (length pre) + 12 + Z.of_nat (length rest)) by (rewrite Hfin, Hb, !length_app; cbn; lia).
    destruct (Z.ltb_spec (ts_pos t + 8 + 4) fin) as [Hmore|Hno].
    + assert (Hne : l <> []) by (intros ->; rewrite (Hrest eq_refl) in Hf; cbn in Hf; lia).
      rewrite seen_cons in Hj by (by left). rewrite Hb, (app_assoc pre).
      rewrite (read_uint_app 4 ltac:(auto) (pre ++ [255; 0; 0; 0; 0; 0; 0; 0]) g rest) by (rewrite ?length_app; done || (cbn; lia)).
      cbn [meaning] in Hj. assert (Es : (lookup_set env (ts_st t) g DixUseAccess).2 = (lookup_set env st0 g DixUseAccess).2).
      { unfold lookup_set. cbn [snd]. by rewrite (proj1 (proj2 (proj2 (proj2 Hsame)))). }
      destruct (lookup_set env (ts_st t) g DixUseAccess) as [st1 [rc|s1]] eqn:El; cbn [snd] in Es; rewrite <- Es in Hj; [by rewrite <- Hj|].
      apply Hnext; [lia| |done]. transitivity (ts_st t); [done|]. by eapply lookup_set_same.
    + assert (l = []) as -> by (destruct l; [done|]; specialize (Hlong ltac:(done)); lia). by apply Hnext; [lia|..].
Qed.
End Pass.
End Draw.

(** ** Requests *)

(** A client's request in its byte order; [h] holds the fields as the client means
    them. *)
Definition wire_text (sw : bool) (h : text_req) (items : list text_item) : text_req :=
  let body := text_bytes sw (id_size (tr_type h)) items in
  let l x := if sw then bswap_32 x else x in
  let s x := if sw then s16 (bswap_16 (u16 x)) else x in
  TextReq (tr_type h) (tr_op h) (l (tr_src h)) (l (tr_dst h)) (l (tr_maskFormat h)) (l (tr_glyphset h))
    (s (tr_xSrc h)) (s (tr_ySrc h)) sw (7 + Z.of_nat (length body) / 4) body.

Definition CARD32 (x : Z) : Prop := 0 <= x < 4294967296.
Definition INT16 (x : Z) : Prop := -32768 <= x < 32768.
Definition header_ok (h : text_req) : Prop :=
  CARD32 (tr_src h) /\ CARD32 (tr_dst h) /\ CARD32 (tr_maskFormat h) /\ CARD32 (tr_glyphset h) /\
  INT16 (tr_xSrc h) /\ INT16 (tr_ySrc h).

(** What the request promises: an error of its arguments, or of memory, or of a set
    that is named on the way; or all its runs are drawn. *)
Definition text_result (env : render_env) (picture : Z -> Z -> Z + PictureRec) (st : GlyphState) (h : text_req)
    (items : list text_item) (rc : Z) (d : option glyph_drawing) : Prop :=
  match (check_text env picture st h).2 with
  | inl e => rc = e /\ d = None
  | inr (pSrc, pDst, pFormat, s) =>
      (rc = BadAlloc /\ d = None /\ exists k n, ge_alloc (re_glyphs env) k n = false) \/
      match meaning env st s (seen items) with
      | inl e => rc = e /\ d = None
      | inr runs => rc = Success /\
          d = Some (Drawing (tr_op h) pSrc pDst pFormat (tr_xSrc h) (tr_ySrc h) (Z.of_nat (length runs))
                      (fst <$> runs) (mjoin (snd <$> runs)))
      end
  end.

Lemma array_room_None env st local n sizeof st' : array_room env st local n sizeof = (st', None) ->
  exists k m, ge_alloc (re_glyphs env) k m = false.
Proof.
  unfold array_room, gl_alloc. destruct (n <=? local); [discriminate|].
  destruct (ge_alloc _ _ _) eqn:E; [discriminate|]. intros _. by eexists _, _.
Qed.

Lemma meaning_same env st st' items : same_glyphs st st' -> forall s, meaning env st' s items = meaning env st s items.
Proof.
  intros (_ & Es & _ & Ei & _). induction items as [|[dx dy ids|g] l IH]; intros s; cbn [meaning]; [done|by rewrite Es, IH|].
  unfold lookup_set. cbn [snd]. rewrite Ei. case_match; [done|apply IH].
Qed.

Lemma joined_nil m rc : joined [] [] m = inl rc -> m = inl rc.
Proof. by destruct m; intros [= ->]. Qed.

Lemma sets_find_same st st' : same_glyphs st st' -> sets_find st -> sets_find st'.
Proof. intros Hs Hf s gs id. rewrite (FindGlyph_same st st') by done. rewrite (proj1 (proj2 Hs)). apply Hf. Qed.

Section Whole.
Context (env : render_env) (picture : Z -> Z -> Z + PictureRec).

Lemma Single_text st req items st' rc d :
  sets_find st -> lays (id_size (tr_type req)) (tr_rest req) items -> Forall (item_ok (id_size (tr_type req))) items ->
  4 * tr_req_len req - 28 = Z.of_nat (length (tr_rest req)) ->
  drawn_well st (SingleRenderCompositeGlyphs env picture st req) ->
  SingleRenderCompositeGlyphs env picture st req = Ret (st', rc, d) -> text_result env picture st req items rc d.
Proof.
  intros Hfind Hlays Hok Hlen (st2 & rc2 & d2 & Hrun2 & _ & Hd) Hrun. rewrite Hrun2 in Hrun. injection Hrun as -> -> ->. rename Hrun2 into Hrun.
  unfold text_result. unfold SingleRenderCompositeGlyphs in Hrun. pose proof (check_text_same env picture st req) as Hc.
  destruct (check_text env picture st req) as [st1 [e|[[[pSrc pDst] f] s]]]; destruct (Hc _ _ eq_refl) as [H1 _]; cbn [snd];
    [by injection Hrun as _ <- <-|].
  apply obind_Ret in Hrun as ([ng nl] & _ & Hrun).
  destruct (array_room env st1 NLOCALGLYPH ng 8) as [st3 [groom|]] eqn:Eg; [|left; injection Hrun as _ <- <-; by apply array_room_None in Eg].
  apply array_room_same in Eg as [H3 _].
  destruct (array_room env st3 NLOCALDELTA nl 16) as [st4 [lroom|]] eqn:El; [|left; injection Hrun as _ <- <-; by apply array_room_None in El].
  apply array_room_same in El as [H4 _]. right. assert (Hsame : same_glyphs st st4) by (transitivity st1; [done|]; by transitivity st3).
  apply obind_Ret in Hrun as ([t err] & Hloop & Hrun).
  apply (run_loop_inv _ (draw_inv env (id_size (tr_type req)) st4 (tr_rest req) (joined [] [] (meaning env st4 s (seen items))))
    (fun r => match r with
      | (t, Some rc) => joined [] [] (meaning env st4 s (seen items)) = inl rc
      | (t, None) => ts_pos t <= 4 * tr_req_len req - 28 /\ joined [] [] (meaning env st4 s (seen items)) = inr (ts_lists t, ts_glyphs t)
      end)) in Hloop.
  - rewrite (meaning_same env st st4) in Hloop by done. destruct err as [e|].
    + apply joined_nil in Hloop as ->. by injection Hrun as _ <- <-.
    + destruct Hloop as [Hpos Hj]. rewrite Z.gtb_ltb, (proj2 (Z.ltb_ge _ _) Hpos) in Hrun. injection Hrun as _ <- <-.
      destruct Hd as (_ & Hnl & _). cbn in Hnl. destruct (meaning env st s (seen items)) as [|runs]; [discriminate|].
      injection Hj as Hl Hg. rewrite <- Hl, length_fmap in Hnl. by rewrite <- Hl, <- Hg, Hnl.
  - intros t0 Ht0. pose proof (draw_step env _ (id_size_cases _) st4 (sets_find_same _ _ Hsame Hfind) (4 * tr_req_len req - 28) (tr_rest req) Hlen
      _ lroom groom t0 Ht0) as Hstep. destruct (text_step _ _ _ _ _ _ _) as [|[[? [|]]| | |]]; done.
  - exists [], (tr_rest req), items. cbn. by split_and!.
Qed.
End Whole.

(** ** Byte order of the fields *)

Lemma bswap_16_value x : bswap_16 x = (x / 256) mod 256 + (x mod 256) * 256.
Proof.
  pose proof (le16_bswap x) as E. unfold le16 in E. cbn [rev app] in E. injection E as E1 E2.
  assert (0 <= bswap_16 x < 65536).
  { unfold bswap_16. rewrite (byte_field x 0xFF00 8), (byte_field x 0x00FF 0) by (done || lia).
    rewrite Z.shiftr_div_pow2, Z.div_mul, Z.shiftl_mul_pow2 by lia.
    rewrite lor_shift_add; [|lia|Z.div_mod_to_equations; lia]. change (2 ^ 8) with 256. change (2 ^ 0) with 1.
    rewrite Z.div_1_r, Z.mul_1_r. Z.div_mod_to_equations; lia. }
  Z.div_mod_to_equations; lia.
Qed.
Lemma swapped_INT16 x : INT16 x -> s16 (bswap_16 (u16 (s16 (bswap_16 (u16 x))))) = x.
Proof. unfold INT16. intros Hx. rewrite !bswap_16_value. unfold s16, u16. Z.div_mod_to_equations. lia. Qed.

Lemma check_text_fields env picture st a b : tr_op a = tr_op b -> tr_src a = tr_src b -> tr_dst a = tr_dst b ->
  tr_maskFormat a = tr_maskFormat b -> tr_glyphset a = tr_glyphset b -> check_text env picture st a = check_text env picture st b.
Proof. unfold check_text. by intros -> -> -> -> ->. Qed.

(** ** Lengths *)

Lemma run_pad_mod space : 0 <= space -> (space + run_pad space) mod 4 = 0.
Proof.
  intros Hs. unfold run_pad. replace 3 with (Z.ones 2) by done. rewrite Z.land_ones by lia. change (2 ^ 2) with 4.
  case_bool; Z.div_mod_to_equations; lia.
Qed.
Lemma text_bytes_words sw size items : size = 1 \/ size = 2 \/ size = 4 -> Z.of_nat (length (text_bytes sw size items)) mod 4 = 0.
Proof.
  intros Hs. induction items as [|i l IH]; [done|]. rewrite text_bytes_cons, length_app, Nat2Z.inj_add, length_item_bytes by done.
  destruct i as [dx dy ids|g]; [|Z.div_mod_to_equations; lia].
  pose proof (run_pad_mod (size * Z.of_nat (length ids)) ltac:(lia)). Z.div_mod_to_equations. lia.
Qed.
Lemma order_bytes sw l : bytes l -> bytes (order sw l).
Proof. intros Hl. destruct sw; [by apply Forall_rev|done]. Qed.
Lemma le32_bytes x : bytes (le32 x).
Proof. repeat constructor; apply Z.mod_pos_bound; lia. Qed.
Lemma text_bytes_bytes sw size items : Forall (item_ok size) items -> bytes (text_bytes sw size items).
Proof.
  induction 1 as [|i l Hi _ IH]; [constructor|]. rewrite text_bytes_cons. apply Forall_app. split; [|done]. clear l IH.
  assert (Hz : forall n, bytes (zeros n)) by (intros n; apply Forall_replicate; lia).
  assert (H16 : forall x, bytes (le16 x)) by (intros x; repeat constructor; apply Z.mod_pos_bound; lia).
  destruct i as [dx dy ids|g]; cbn [item_bytes]; repeat (apply Forall_app; split);
    try (by apply order_bytes, H16 || by apply order_bytes, le32_bytes || by apply Hz); try (repeat constructor; lia).
  - destruct Hi as (_ & _ & Hl & _). constructor; [lia|]. repeat constructor; lia.
  - unfold run_bytes. clear Hi. induction ids as [|id ids IH]; [constructor|]. rewrite fmap_cons, mjoin_cons. apply Forall_app. split; [|done].
    apply order_bytes, Forall_take, le32_bytes.
Qed.

Lemma served_sets_find st : served st -> sets_find st.
Proof.
  intros (I & Hok & _) s gs id Hs. rewrite (FindGlyph_ok st I [] s gs id Hok Hs). split; [by destruct (ids_of gs !! id)|].
  intros Hid. destruct (go_cells _ _ _ Hok 0) as [c Hc]; [apply elem_of_app; left; apply holders_elem; by exists s, gs, id|].
  pose proof (go_cell_addr _ _ _ Hok 0 c Hc). lia.
Qed.

Lemma text_result_fields env picture st a b items rc d :
  tr_op a = tr_op b -> tr_src a = tr_src b -> tr_dst a = tr_dst b -> tr_maskFormat a = tr_maskFormat b ->
  tr_glyphset a = tr_glyphset b -> tr_xSrc a = tr_xSrc b -> tr_ySrc a = tr_ySrc b ->
  text_result env picture st a items rc d -> text_result env picture st b items rc d.
Proof.
  intros Ho Hs Hd Hm Hg Hx Hy. unfold text_result. by rewrite (check_text_fields env picture st a b), Ho, Hx, Hy.
Qed.

(** The request up to the two passes: whatever the byte order, its elements are then
    in the server's, and its fields are those that the client means. *)
Lemma wire_text_native env picture st sw h items :
  header_ok h -> Forall (item_ok (id_size (tr_type h))) items ->
  28 + Z.of_nat (length (text_bytes sw (id_size (tr_type h)) items)) <= 2 ^ 30 ->
  exists req, ProcRenderCompositeGlyphs env picture st (wire_text sw h items) = SingleRenderCompositeGlyphs env picture st req /\
    tr_type req = tr_type h /\ lays (id_size (tr_type h)) (tr_rest req) items /\
    4 * tr_req_len req - 28 = Z.of_nat (length (tr_rest req)) /\
    forall st items rc d, text_result env picture st req items rc d -> text_result env picture st h items rc d.
Proof.
  intros (H1 & H2 & H3 & H4 & H5 & H6) Hok Hmax. set (size := id_size (tr_type h)) in *.
  pose proof (id_size_cases (tr_type h)) as Hsize. fold size in Hsize. pose proof (text_bytes_words sw size items Hsize) as Hw.
  set (body := text_bytes sw size items) in *.
  assert (Hlen : 4 * (7 + Z.of_nat (length body) / 4) - 28 = Z.of_nat (length body)) by (Z.div_mod_to_equations; lia).
  unfold ProcRenderCompositeGlyphs, too_short. cbn [wire_text tr_req_len tr_swapped tr_type tr_rest]. fold size. fold body.
  destruct (Z.gtb_spec (Z.shiftr 28 2) (7 + Z.of_nat (length body) / 4)); [change (Z.shiftr 28 2) with 7 in *; Z.div_mod_to_equations; lia|].
  destruct sw.
  - change (2 ^ 30) with 1073741824 in Hmax.
    destruct (swap_pass size (4 * (7 + Z.of_nat (length body) / 4) - 28) body) as (r & Hrun & Hr);
      [destruct Hsize as [|[|]]; lia|by apply text_bytes_bytes|lia|change (2 ^ 32) with 4294967296; lia|].
    destruct (swap_text size Hsize items _ body Hok eq_refl Hlen r Hrun) as (body' & -> & Hl). rewrite Hrun. cbn [obind].
    eexists. split; [reflexivity|]. cbn [tr_type tr_rest tr_req_len]. destruct Hr as [-> _]. split_and!; try done.
    intros st0 items0 rc d. apply text_result_fields; cbn; rewrite ?bswap_32_involutive, ?swapped_INT16; done.
  - eexists. split; [reflexivity|]. cbn [wire_text tr_type tr_rest tr_req_len]. split_and!; try done. apply lays_text.
Qed.

(** C14: in every reachable state a client's request to draw runs of glyphs, in either
    byte order and with ids of any size, comes to what its arguments mean: the first
    of their errors, or [BadAlloc], or the error of the first set on the way that
    cannot be used, and otherwise exactly its runs are drawn, each with the glyphs that
    the set in use has for its ids, in order. *)
Theorem text_drawn env picture st sw h items :
  0 <= RenderErrBase env -> reachable env st -> header_ok h -> Forall (item_ok (id_size (tr_type h))) items ->
  28 + Z.of_nat (length (text_bytes sw (id_size (tr_type h)) items)) <= 2 ^ 30 ->
  exists st' rc d, ProcRenderCompositeGlyphs env picture st (wire_text sw h items) = Ret (st', rc, d) /\
    same_glyphs st st' /\ text_result env picture st h items rc d.
Proof.
  intros Hbase Hreach Hh Hok Hmax. pose proof (reachable_served env st Hbase Hreach) as Hsv.
  destruct (wire_text_native env picture st sw h items Hh Hok Hmax) as (req & Hproc & Htype & Hlays & Hlen & Hres).
  assert (Hdr : drawn_well st (ProcRenderCompositeGlyphs env picture st (wire_text sw h items))).
  { pose proof (text_bytes_words sw _ items (id_size_cases (tr_type h))). apply text_bytes_in_bounds; try done.
    - by apply text_bytes_bytes.
    - cbn. Z.div_mod_to_equations. lia.
    - cbn. Z.div_mod_to_equations. lia. }
  pose proof Hdr as (st' & rc & d & Hrun & Hsame & _). exists st', rc, d. split; [done|]. split; [done|]. apply Hres.
  rewrite Hproc in Hdr, Hrun. apply (Single_text env picture st req items st'); rewrite ?Htype; try done. by apply served_sets_find.
Qed.
