(* ===== verification/GlyphExample.v ===== *)
(** * A run with glyph sets

    One screen, formats of depth 8, and a hash that is the image itself, cut to
    its length.  A client makes two sets and adds glyphs to the second.  The run
    meets the hypotheses of GlyphPolicy.v; with two images that are alike it ends
    in a read through a null pointer. *)

From S2P Require Import Prelude Wire Request Glyphs GlyphProbe GlyphTable GlyphHash GlyphInv GlyphSets.
From S2P Require Import GlyphRequest GlyphPending GlyphServe GlyphScreen GlyphPolicy.

(** ** The server and the requests *)

Definition ex_env : render_env :=
  RenderEnv
    (GlyphEnv always [true] (fun _ _ => true) (fun _ i => Some (100 + Z.of_nat i))
       (fun image => Some (take 20 (drop 4 image ++ replicate 20 7))) (0, 0))
    (fun _ => Padding 3 2 2 false 0) (fun _ => true) (fun _ => inr (PictFormat 1 8)) (fun _ _ => Success)
    (fun _ => true) 128.

(** A glyph of one pixel, with this value. *)
Definition ex_info : list Z := [1; 0; 1; 0; 0; 0; 0; 0; 1; 0; 0; 0].
Definition ex_bits (pixel : Z) : list Z := [pixel; 0; 0; 0].

(** Two glyphs, 5 and 6, for the second set. *)
Definition ex_add (pixel1 pixel2 : Z) : glyph_event :=
  AddGlyphs (GlyphReq false 13 ([5; 0; 0; 0; 6; 0; 0; 0] ++ ex_info ++ ex_info ++ ex_bits pixel1 ++ ex_bits pixel2)) 1001 2.
Definition ex_create (id : Z) : glyph_event := CreateGlyphSet (GlyphReq false 3 []) id 50.
Definition ex_free : glyph_event := FreeGlyphs (GlyphReq false 4 [5; 0; 0; 0; 6; 0; 0; 0]) 1001.

Fixpoint handle_all (env : render_env) (st : GlyphState) (l : list glyph_event) : outcome (GlyphState * list Z) :=
  match l with
  | [] => Ret (st, [])
  | e :: l' =>
      '(st1, rc) <-- handle env st e; '(st2, rcs) <-- handle_all env st1 l'; Ret (st2, rc :: rcs)
  end.

(** The state after these events. *)
Definition state_of (o : outcome (GlyphState * list Z)) : GlyphState := match o with Ret (st, _) => st | _ => no_glyphs end.
Definition ex_run (pixel1 pixel2 : Z) : list glyph_event :=
  [ex_create 1000; ex_create 1001; ex_add pixel1 pixel2; FreeSet (GlyphReq false 2 []) 1000].
Definition ex_alike : GlyphState := Eval vm_compute in state_of (handle_all ex_env no_glyphs (ex_run 9 9)).
Definition ex_different : GlyphState := Eval vm_compute in state_of (handle_all ex_env no_glyphs (ex_run 9 10)).
Definition ex_done : GlyphState := Eval vm_compute in state_of (handle_all ex_env ex_different [ex_free]).

(** ** Images that are alike *)

(** C39: a request with two ids for one new image is granted, but leaves a glyph
    that its depth's table does not have: giving the second up takes the entry of
    the first, which both ids name.  When another set of the depth is freed the
    table goes, and freeing the two ids reads through its null pointer.  With two
    different images the same requests are all granted. *)
Theorem duplicate_images_crash :
  (exists st, handle_all ex_env no_glyphs (ex_run 9 9) = Ret (st, [Success; Success; Success; Success]) /\
     handle ex_env st ex_free = Undefined) /\
  exists st st', handle_all ex_env no_glyphs (ex_run 9 10) = Ret (st, [Success; Success; Success; Success]) /\
     handle ex_env st ex_free = Ret (st', Success) /\ gm_cells st' = ∅.
Proof.
  split; [exists ex_alike; split; vm_compute; reflexivity|].
  exists ex_different, ex_done. split; [|split]; vm_compute; reflexivity.
Qed.

(** ** The hypotheses of the other theorems *)

(** [few_b] and [fair_b] decide fairness. *)
Definition few_b (st : GlyphState) (n : Z) : bool :=
  (Z.of_nat (length (holders (gm_sets st))) + 2 * n <=? MAX_ENTRIES) && (Z.of_nat (length (values (gm_ids st))) <? MAX_ENTRIES).
Lemma few_b_spec st n : few_b st n = true -> few st n.
Proof. intros [H1%Z.leb_le H2%Z.ltb_lt]%andb_true_iff. by split. Qed.

Definition fair_b (env : render_env) (st : GlyphState) (e : glyph_event) : bool :=
  match e with
  | AddGlyphs req glyphset nglyphs =>
      let '(id, n, rest) := native_fields req glyphset nglyphs in
      (Z.of_nat (length (gr_rest req)) =? 4 * gr_req_len req - 12) && (0 <=? n) && (n <? 4294967296) &&
      few_b st (0 `max` i32 n) &&
      match gm_ids st !! id with
      | Some s => match gm_sets st !! s with
                  | Some gs => bool_decide (NoDup (filter (fun sha1 => unknown_image st (gs_fdepth gs) sha1 = true)
                                 (omap (ge_sha1 (re_glyphs env)) (images_of env gs (gr_req_len req) (i32 n) rest))))
                  | None => true
                  end
      | None => true
      end
  | _ => few_b st 0
  end.
Lemma fair_b_spec env st e : fair_b env st e = true -> fair env st e.
Proof.
  destruct e as [| | |req glyphset nglyphs| |]; try apply few_b_spec. cbn. unfold fair_add.
  destruct (native_fields req glyphset nglyphs) as [[id n] rest].
  intros [[[[H1%Z.eqb_eq H2%Z.leb_le]%andb_true_iff H3%Z.ltb_lt]%andb_true_iff H4%few_b_spec]%andb_true_iff H5]%andb_true_iff.
  split; [done|]. split; [done|]. split; [done|]. intros s gs Hs Hgs. rewrite Hs, Hgs in H5. by apply bool_decide_eq_true in H5.
Qed.

Fixpoint fair_all (env : render_env) (st : GlyphState) (l : list glyph_event) : bool :=
  match l with
  | [] => true
  | e :: l' => fair_b env st e && match handle env st e with Ret (st1, _) => fair_all env st1 l' | _ => true end
  end.
Lemma handle_all_reachable env l : forall st st' rcs,
  reachable env st -> fair_all env st l = true -> handle_all env st l = Ret (st', rcs) -> reachable env st'.
Proof.
  induction l as [|e l IH]; intros st st' rcs Hst Hf Hrun; cbn in *; [by injection Hrun as <- _|].
  apply andb_true_iff in Hf as [He Hf]. apply obind_Ret in Hrun as ([st1 rc] & E & Hrun). rewrite E in Hf.
  apply obind_Ret in Hrun as ([st2 rcs2] & E2 & [= <- _]).
  apply (IH st1 st2 rcs2); [|done|done]. apply (reach_step env st e st1 rc); [done|by apply fair_b_spec|done].
Qed.

(** The state before and after two glyphs are added. *)
Definition ex_before : GlyphState := Eval vm_compute in state_of (handle_all ex_env no_glyphs [ex_create 1000; ex_create 1001]).
Definition ex_after : GlyphState := Eval vm_compute in state_of (handle_all ex_env ex_before [ex_add 9 10]).

Lemma ex_before_reachable : reachable ex_env ex_before.
Proof.
  apply (handle_all_reachable ex_env [ex_create 1000; ex_create 1001] no_glyphs _ [Success; Success]);
    [constructor|vm_compute; reflexivity..].
Qed.
Lemma ex_after_reachable : reachable ex_env ex_after.
Proof.
  apply (handle_all_reachable ex_env [ex_add 9 10] ex_before _ [Success]);
    [apply ex_before_reachable|vm_compute; reflexivity..].
Qed.

(** ** The theorems at these states *)

Definition ex_req : glyph_req :=
  GlyphReq false 13 ([5; 0; 0; 0; 6; 0; 0; 0] ++ ex_info ++ ex_info ++ ex_bits 9 ++ ex_bits 10).
Definition ex_hash (pixel : Z) : list Z := [0; 0; 0; 0; 1; 0; 0; 0; pixel; 0; 0; 0] ++ replicate 8 7.
Definition ex_set : GlyphSetRec := Eval vm_compute in default (GlyphSet 0 0 (PictFormat 0 0) (Hash None None 0)) (gm_sets ex_before !! 3).

Lemma AddGlyphs_finds_witness :
  ProcRenderAddGlyphs ex_env ex_before ex_req 1001 2 = Ret (ex_after, Success) /\
  exists g c, FindGlyph ex_after 3 6 = Ret g /\ gm_cells ex_after !! g = Some c /\ gl_sha1 c = ex_hash 10.
Proof.
  assert (Hrun : ProcRenderAddGlyphs ex_env ex_before ex_req 1001 2 = Ret (ex_after, Success)) by (vm_compute; reflexivity).
  split; [exact Hrun|].
  pose proof (AddGlyphs_finds ex_env ex_before ex_req 1001 2 3 ex_set ex_after Success ltac:(cbn; lia) ex_before_reachable
    ltac:(apply fair_b_spec; vm_compute; reflexivity) ltac:(vm_compute; reflexivity) ltac:(vm_compute; reflexivity) Hrun) as H.
  rewrite decide_True in H by reflexivity. destruct H as (H & _).
  apply (H 1%nat 6 (ex_info ++ [10; 0; 0; 0]) (ex_hash 10)); [vm_compute; reflexivity..|].
  intros j Hj. assert (E : request_ids ex_req 1001 2 = [5; 6]) by (vm_compute; reflexivity). rewrite E.
  destruct j as [|[|j]]; [lia|lia|done].
Defined.

(** The two glyphs are held once each. *)
Lemma reachable_glyphs_witness :
  exists g c, FindGlyph ex_after 3 5 = Ret g /\ gm_cells ex_after !! g = Some c /\ gl_refcnt c = 1 /\
    FindGlyphByHash ex_after (gl_sha1 c) 2 = Ret g.
Proof.
  destruct (reachable_glyphs ex_env ex_after ltac:(cbn; lia) ex_after_reachable) as (Hrefs & Hids & _).
  set (gs := default ex_set (gm_sets ex_after !! 3)).
  destruct (Hids 3 gs 5 4 ltac:(vm_compute; reflexivity) ltac:(vm_compute; reflexivity)) as (Hf & c & Hc & Hh).
  destruct (Hrefs 4 c Hc) as [Hr _]. exists 4, c. split; [exact Hf|]. split; [exact Hc|]. split; [|exact Hh].
  rewrite Hr. vm_compute. reflexivity.
Defined.

Lemma requests_return_witness :
  fair ex_env ex_after ex_free /\ exists st' rc, handle ex_env ex_after ex_free = Ret (st', rc).
Proof.
  assert (Hfair : fair ex_env ex_after ex_free) by (apply fair_b_spec; vm_compute; reflexivity).
  split; [exact Hfair|]. apply (requests_return ex_env ex_after ex_free ltac:(cbn; lia) ex_after_reachable Hfair).
Defined.

(** A table with a deleted slot on the way to the entry of id 50: both are at 7. *)
Definition ex_table : list GlyphRefRec := <[16%nat := Ref 50 4]> (<[7%nat := Ref 0 DeletedGlyph]> (replicate 43 (Ref 0 0))).

Lemma ex_table_lookup i r : ex_table !! i = Some r -> ref_live r -> i = 16%nat /\ r = Ref 50 4.
Proof.
  unfold ex_table. intros [(<- & <- & _)|[Hne [(<- & <- & _)|[_ [-> _]%lookup_replicate]]%list_lookup_insert_Some]]%list_lookup_insert_Some Hl;
    [done|by vm_compute in Hl..].
Qed.
Lemma ex_table_ok : table_ok r_signature (fun id => id) (HashSet 32 43 41) ex_table.
Proof.
  constructor.
  - reflexivity.
  - intros i r Hi Hl. destruct (ex_table_lookup i r Hi Hl) as [_ ->]. done.
  - intros i j r r' Hi Hj Hl Hl' _. destruct (ex_table_lookup i r Hi Hl), (ex_table_lookup j r' Hj Hl'). congruence.
  - intros i r Hi Hl. destruct (ex_table_lookup i r Hi Hl) as [-> ->]. exists 1%nat. split; [reflexivity|].
    intros j' Hj'. assert (j' = 0%nat) as -> by lia. exists (Ref 0 DeletedGlyph). split; [reflexivity|done].
Qed.

Lemma FindGlyphRef_returns_witness :
  exists i r, FindGlyphRef ∅ (Hash (Some ex_table) (Some (HashSet 32 43 41)) 1) 50 None = Ret (Some (Z.of_nat i)) /\
    ex_table !! i = Some r /\ if decide (ref_live r) then r_signature r = 50 else
      (forall i' r', ex_table !! i' = Some r' -> ref_live r' -> r_signature r' <> 50) /\
      forall g, is_live g = true -> table_ok r_signature (fun id => id) (HashSet 32 43 41) (<[i := Ref 50 g]> ex_table).
Proof.
  apply (FindGlyphRef_returns ∅ (HashSet 32 43 41) ex_table 1 50); [left|exact ex_table_ok|].
  exists 0%nat, (Ref 0 0). split; [reflexivity|discriminate].
Defined.
