(* ===== verification/GlyphTextExample.v ===== *)
(** * A client draws glyphs

    The client of GlyphExample.v draws the glyphs 5 and 6 of its second set. *)

From S2P Require Import Prelude Wire Request Glyphs GlyphProbe GlyphTable GlyphHash GlyphInv GlyphServe GlyphScreen GlyphRequest.
From S2P Require Import GlyphExample GlyphText GlyphWalk GlyphTextSafe GlyphTextWire GlyphTextRead GlyphTextDraw.

(** Pictures are on the only screen; the one with id 7 does not exist. *)
Definition ex_picture (id mode : Z) : Z + PictureRec := if id =? 7 then inl 142 else inr (Picture (1000 + id) (Some 0)).

(** Ids of two bytes, onto picture 61, from a plain source picture. *)
Definition ex_header (src : Z) : text_req := TextReq X_RenderCompositeGlyphs16 3 src 61 0 1000 (-5) 300 false 0 [].

(** The first set has no glyphs; 7 is in neither. *)
Definition ex_items : list text_item := [Run 100 (-200) [5; 6]; Use 1001; Run 3 4 [6; 7; 5]; Run 0 0 [5]; Run 9 9 []].

(** The client sets [1000] and [1001] up again, and adds the glyphs. *)
Definition ex_ready : GlyphState :=
  Eval vm_compute in state_of (handle_all ex_env no_glyphs [ex_create 1000; ex_create 1001; ex_add 9 10]).
Lemma ex_ready_reachable : reachable ex_env ex_ready.
Proof.
  apply (handle_all_reachable ex_env [ex_create 1000; ex_create 1001; ex_add 9 10] no_glyphs _ [Success; Success; Success]);
    [constructor|vm_compute; reflexivity..].
Qed.

(** What is drawn. *)
Definition ex_format : PictFormatRec := PictFormat 1 8.
Definition ex_drawing : glyph_drawing :=
  Drawing 3 (Picture 1060 (Some 0)) (Picture 1061 (Some 0)) None (-5) 300 3
    [GlyphList 100 (-200) 0 ex_format; GlyphList 3 4 2 ex_format; GlyphList 0 0 1 ex_format] [5; 4; 4].

Lemma ex_meaning sw :
  exists st, ProcRenderCompositeGlyphs ex_env ex_picture ex_ready (wire_text sw (ex_header 60) ex_items) =
    Ret (st, Success, Some ex_drawing).
Proof. destruct sw; eexists; vm_compute; reflexivity. Qed.

(** The two byte orders are different requests. *)
Lemma ex_orders : tr_rest (wire_text true (ex_header 60) ex_items) <> tr_rest (wire_text false (ex_header 60) ex_items).
Proof. vm_compute. discriminate. Qed.

Lemma text_drawn_witness :
  header_ok (ex_header 60) /\ Forall (item_ok 2) ex_items /\
  exists st' rc d, ProcRenderCompositeGlyphs ex_env ex_picture ex_ready (wire_text true (ex_header 60) ex_items) = Ret (st', rc, d) /\
    rc = Success /\ d = Some ex_drawing.
Proof.
  assert (Hh : header_ok (ex_header 60)) by (unfold header_ok, CARD32, INT16; cbn; lia).
  assert (Hok : Forall (item_ok 2) ex_items) by (repeat constructor; cbn; lia).
  split; [exact Hh|]. split; [exact Hok|].
  destruct (text_drawn ex_env ex_picture ex_ready true (ex_header 60) ex_items ltac:(cbn; lia) ex_ready_reachable Hh Hok
    ltac:(vm_compute; discriminate)) as (st' & rc & d & Hrun & _ & Hres).
  exists st', rc, d. split; [exact Hrun|]. vm_compute in Hres. destruct Hres as [(_ & _ & k & n & [=])|[-> ->]]. split; reflexivity.
Defined.

(** A request that ends in the middle of a run is answered with an error. *)
Definition ex_cut : text_req :=
  TextReq X_RenderCompositeGlyphs32 3 60 61 0 1001 0 0 false 10 [254; 0; 0; 0; 1; 0; 2; 0; 5; 0; 0; 0].

Lemma text_in_bounds_witness :
  drawn_well ex_ready (ProcRenderCompositeGlyphs ex_env ex_picture ex_ready ex_cut) /\
  exists st, ProcRenderCompositeGlyphs ex_env ex_picture ex_ready ex_cut = Ret (st, BadLength, None).
Proof.
  split; [|eexists; vm_compute; reflexivity].
  apply (text_in_bounds ex_env ex_picture ex_ready ex_cut ltac:(cbn; lia) ex_ready_reachable);
    [repeat constructor; lia|reflexivity|vm_compute; discriminate].
Defined.
